(* ===== verification/_CoqProject ===== *)
-Q . S2P
Prelude.v
Abi.v
Checksum.v
L3Parser.v
Runtime.v
ControlPacket.v
BpfSession.v
Engine.v
EngineInv.v
EngineProps.v
EngineBehaviour.v
EngineFlow.v
ErrorState.v
SessionStore.v
Config.v
Profile.v
Token.v
Control.v
ControlProps.v
AbiSnapshot.v
Policy.v
PolicyProps.v
Router.v
Events.v
Controller.v
RouterInv.v
RouterProps.v
ControllerProps.v
ActionRecovery.v
ActionRecoveryProps.v
Production.v
ProductionProps.v
Paths.v
MapBatch.v
Supervisor.v
SupervisorProps.v
Coordinator.v
CoordinatorProps.v
Guard.v
GuardProps.v
AttachState.v
Reconcile.v
ReconcileProps.v
GenerationGate.v
GenerationGateProps.v
PolicyStage.v
PolicyStageProps.v
DaemonRequest.v
Daemon.v
DaemonProps.v
LifecycleLease.v
LifecycleLeaseProps.v
PinMaps.v
PinMapsProps.v
TcTransaction.v
TcTransactionProps.v
TcRecovery.v
TcRecoveryProps.v
OwnerDetach.v
OwnerDetachProps.v
