(* ===== verification/Prelude.v ===== *)
(** * Verification of wg-mix-ebpf

    wg-mix-ebpf rewrites the UDP packets of WireGuard tunnels in kernel BPF
    programs and, in its FakeTCP mode, carries them in TCP-like segments whose
    handshakes a userspace daemon runs.  This library models the parts of the
    repository that decide: the parsers and checksums, the FakeTCP session
    engine with its store and controller, the pipeline from the configuration
    file to the kernel maps, the ownership of the running dataplane, and the
    transaction that replaces it behind the startup guard.  Paths below are
    relative to the repository's src/.

    ** Reading the models

    Integers are [Z] with the wrap-around of their width written out ([u8],
    [u16], [u32], [u64]); byte slices are [list Z]; fixed arrays are lists; a Go
    error is [Some message] with the fixed part of the message; [outcome] adds
    the panic of an out-of-range access.  A Go method that runs under a mutex is
    one function from state to state.  Code outside the repository is a class
    (or an argument), so every theorem holds for all its behaviours, or for
    those the stated laws allow:
    - [Env] (Engine): clocks, initial sequence numbers and session store of an
      engine; [ControllerBackend] (Controller): packet output and contexts;
    - [SessionKernel] (SessionStore): the BPF session map with packet programs
      interleaved at every kernel call and injected failures;
    - the YAML decoder (Config), [JSONCodec] (Token), [ControlEnv] (Control: the
      WireGuard configuration, interfaces, files, hashes), the random source
      (Profile) and [sha256] (Production);
    - [mapBatchOperations] with [MapLaws] (MapBatch): a kernel map;
    - [RuntimeEnv] (Supervisor) and [CoordinatorEnv] (Coordinator): the FakeTCP
      runtime, the baseline loader, the planner, recovery and contexts;
    - [GuardKernel] with [GuardKernelLaws] (Guard): nftables, the netlink dump and
      the owner file; [GuardExecutor] with [GuardTruth] and [ReconcileEnv] with
      [QuietEnv] (Reconcile): the guard, the loader and the attach-state file;
    - [TcRuntime] with [TcLaws], and [TcReliable] where calls must succeed
      (TcTransaction): the netlink calls on clsacts and filters;
    - [ActionCheckpointStore] with [JournalLaws] and [JournalReliable]
      (ActionRecovery): a durable checkpoint slot;
    - [PolicyEnv] with [PolicyLaws], and [Answering] where calls must succeed
      (PolicyStage): the policy maps, the lease and the generation barrier;
    - [ControlFS], [ControlJSON], [DaemonHooks] and [DaemonClient] (DaemonRequest,
      Daemon), with [RequestDirLaws]: the shared directories, the reconciler, the
      lease and other processes;
    - [LockKernel] with [LockLaws] (LifecycleLease): open, dup, close, flock and
      statx with other processes acting between calls, and [WaitClock] for the
      deadline of a wait;
    - [PinKernel] with [PinLaws] (PinMaps): the pin directory and its maps;
      [OwnerStore] with [OwnerLaws] (OwnerDetach): the record on disk, the program
      stages, the directory itself and the checks of a record other than that of
      its maps; [TcQuiet] and [PinQuiet] keep the three stores apart;
    - the oracle of [gate_world] (GenerationGate): packet programs on other CPUs
      and failing system calls.
    Go map iteration order is an argument, or the order of [map_to_list] where
    only the choice of a reported error depends on it.

    ** Files

    - Prelude: outcomes, errors, machine words, byte strings, big-endian
      accessors, sums and list lemmas, the tactics and hint databases.
    - Abi: session keys, values, events and constants (internal/abi/abi.go).
    - Checksum: internet checksums (internal/faketcp/checksum.go).
    - L3Parser: the bounded parser and the managed-ingress classifier
      (l3_parser.go, ingress_policy.go of internal/faketcp).
    - Runtime: identities, session identifiers, clock and MTU arithmetic
      (runtime_identity.go, runtime_domain.go, runtime_identity_commit.go,
      monotonic.go, mtu.go, key.go).
    - ControlPacket: control segments and captured closes (control_packet.go,
      control_validation.go).
    - BpfSession: the kernel's session mutation and delete claim
      (bpf/wg_mix_faketcp.h) and the claim request of session_compare_delete.go.
    - Engine: the session state machine (internal/faketcp/engine.go); EngineInv
      its accounting invariant; EngineProps, EngineBehaviour, EngineFlow its
      theorems.
    - ErrorState: the state-and-error monad of code that threads a kernel through
      calls that can fail.
    - SessionStore: the store and the atomic compare-and-delete
      (session_store.go, session_compare_delete.go).
    - Config, Profile, Token: configuration, wire profiles, profile tokens
      (internal/config, internal/profile, internal/packet, and the type-word and
      key lookup of bpf/wg_mix_tc.c).
    - Control, ControlProps: the control state of a generation
      (internal/control/state.go).
    - AbiSnapshot: the kernel map contents (internal/abi/abi.go).
    - Policy, PolicyProps: the FakeTCP policy of a generation
      (internal/dataplane/faketcp_policy.go).
    - Router, RouterInv, RouterProps: engines of a domain and their dispatch
      (runtime_domain.go, engine_router.go).
    - Events: decoding of ring-buffer samples; Controller, ControllerProps: event
      handling, action execution and the failure latch
      (internal/faketcp/controller.go).
    - ActionRecovery, ActionRecoveryProps: the write-ahead journal of controller
      effects (action_recovery.go, the recoverable half of controller.go).
    - Production, ProductionProps: engine options, plans and the production
      router (internal/dataplane/faketcp_production_linux.go,
      experimental_runtime_linux.go).
    - MapBatch: chunked map updates with rollback (internal/dataplane/map_batch.go).
    - Supervisor, SupervisorProps: the one FakeTCP runtime and the startup-guard
      barrier (faketcp_supervisor.go).
    - Coordinator, CoordinatorProps: exclusion of baseline and FakeTCP
      (faketcp_production_coordinator.go, faketcp_production_scope.go,
      faketcp_gate.go, underlay_parser.go); Paths: filepath.Clean.
    - Guard, GuardProps: the temporary drop table of a reload and its ownership
      (internal/guard/nft.go, executor.go, ownership.go, outcome.go,
      project_table_preflight.go).
    - AttachState: the record of attached interfaces (internal/attachstate).
    - Reconcile, ReconcileProps: reload, detach and stop (internal/reconcile).
    - GenerationGate, GenerationGateProps: entering, leaving, opening and sealing
      a generation (bpf/wg_mix_faketcp.h, faketcp_generation_barrier_linux.go).
    - PolicyStage, PolicyStageProps: publishing the policy of a generation
      (faketcp_policy_linux.go, faketcp_program_array_linux.go).
    - DaemonRequest, Daemon, DaemonProps: the request protocol and the daemon
      (internal/daemon/request.go, daemon.go, internal/diagnostic/error.go).
    - LifecycleLease, LifecycleLeaseProps: the locks of a process's life cycle and
      of single operations (internal/lockfile).
    - PinMaps, PinMapsProps: the pinned maps of a detach
      (pin_map_transaction_linux.go, with checks of loader_linux.go,
      pin_owner_linux.go and pin_recovery_linux.go).
    - TcTransaction, TcTransactionProps: attaching the TC programs with rollback
      (tc_transaction_linux.go); TcRecovery, TcRecoveryProps: finishing what a
      crash interrupted (tc_owner_transaction_linux.go; both with helpers of
      pin_owner_classic_linux.go).
    - OwnerDetach, OwnerDetachProps: the journalled detach of filters and pins, its
      rollback and its recovery (pin_recovery_linux.go, with the records of
      pin_owner_linux.go and the inspection of loader_linux.go).

    The components meet in interfaces: the engine's theorems hold for every
    [Env], and SessionStore shows that the store accepts what the engine
    writes; the router's invariant is the engines' invariant plus routes; the
    coordinator is proved against [LifecycleLaws], of which the supervisor is an
    instance; reload and stop are proved against [GuardTruth], of which the
    command executor is an instance on every kernel that obeys its laws; the
    detach is proved over the recovery of filters and the pinned maps.

    ** Theorems

    - Packets: materialized checksums validate and a changed word is detected;
      the parser is total and safe; the classifier decodes exactly the intended
      frames and fails closed; control packets round-trip; closes are admitted
      exactly when authenticated; event decoding is exact.
    - Engine: counters agree with what is held in every reachable state and
      resources stay within limits; failed calls roll back; established sessions
      survive forged segments; every SYN that the global limit lets pass costs a
      token it never gets back, over any run; half-open sessions expire after their
      retries and return their quota; two engines synchronise.
    - Store: compare-and-delete refines an atomic operation under any
      interleaving and never loses activity.
    - Configuration to kernel: validated configurations are safe, stable under
      save and load, fit the maps, and reach rules, policy, plans and router
      exactly and without failure; the map contents too when their ICMP roles are
      unset or legal ([stray_role_rejected_late] is one where they are not).
    - Controller: the router dispatches exactly, its fence never trips, effects
      happen at most once and no action follows one that failed; with the journal,
      through any crashes and recoveries every control segment is tried until the
      backend takes it and no packet is reinjected twice, and recovery ends.
    - Generation gate: under every interleaving the word counts the programs
      inside, a quiesced generation stays empty, and quiescing ends when no call
      fails and the swaps it loses to other CPUs stay within its bounds.
    - Policy publication: packets meet a generation only with its whole policy,
      interfaces are marked last and unmarked first, and rollback restores the
      maps whatever failed before.
    - Dataplane: map batches are atomic up to failed rollbacks; at most one
      FakeTCP runtime is open and it follows its life cycle; a held barrier
      keeps runtimes from starting, only its lease opens it, and opening it brings
      the runtime back; baseline and FakeTCP exclude each other.  [cancelled_reapply_forgets_owner]
      (CoordinatorProps) is a run where a cancelled call breaks the last one for
      the detach before a FakeTCP start.
    - Reconciliation: the guard's executor reports the truth and changes only its
      own table; a reload replaces the dataplane only behind the guard of the very
      state it applies where the policy asks for the guard (nft_temporary_drop with
      fail_closed_for_managed_flows), in mode none only without a project table,
      and lowers the guard only when that is safe; a stop takes down everything on
      record, in order, each step once.
    - Attachment: a failed attach puts every filter back or names what it could
      not put back, and touches no other filter; recovery of an interrupted
      attach touches only the slots of its journal, and ends it when the kernel
      answers.
    - Daemon: what it does is a path of its life cycle and what it reports is
      true; requests are carried out once, by the instance they name, and answered,
      if no other process puts a removed request file back.
    - Lifecycle lease: through any operations on leases and gates an open lease
      holds its flock, two open ones on a file stem from one acquisition, and no
      path leaves a descriptor open.
    - Pinned maps: no operation of a detach or its rollback loses a map of the
      record or touches another; a restore that succeeds puts all of them back.
    - Detach: whatever fails and whenever it stops, what the record on disk says of
      the pins is so, no map of it is lost before the cleanup, and recovery ends in
      a removed or an active record.

    ** Fuel

    Loops are structural except these, whose fuel is enough by theorem or by
    construction: the carry fold of a 32-bit checksum (2 rounds; the result is
    proved to fit 16 bits), VLAN tags (the code's own bound of 2), IPv6
    extension headers (the code's bound of 8, in [ParseL3_safe]), prefix
    stripping (the length of the string), random draws
    ([generate_random_returns]), the chunk loops of MapBatch (one more than the
    number of entries; [map_batch_atomic] states that they return), the steps of a
    checkpoint ([steps_left]; [recovery_completes]), the waits for a lock (the
    pauses left before the deadline; [begin_wait_ends], [acquire_wait_ends]) and
    the swap attempts of the generation gate (the code's bound of 8).

    ** Not modelled

    The packet paths of the BPF programs and the kernel modules (verifier, skb
    and XDP helpers); loading and pinning kernel objects, TCX and XDP
    attachments, the record store and archive of pin ownership and the recovery of
    an apply and of TCX links (bpffs, netlink and bpf system calls); the event
    runtime's goroutines and raw sockets, and the interleaving inside the
    controller's admission locks; running nft and
    decoding its output, the netlink dump and the secure state directory; the
    installer, command line and feature probes (process, file and network input
    and output). *)
From Stdlib Require Import ZArith Lia.
From stdpp Require Import base option list gmap strings numbers.

#[global] Open Scope Z_scope.

(** ** Go errors, results and panics *)

(** A Go [error] value is represented by the fixed part of its message. *)
Abbreviation error := string (only parsing).

(** The outcome of a Go call: a value, a returned non-nil error, or a runtime
    panic (index or slice bounds). *)
Inductive outcome (A : Type) : Type :=
| Ret (a : A)
| Fail (e : string)
| Panic.
Arguments Ret {A} a.
Arguments Fail {A} e.
Arguments Panic {A}.

Definition obind {A B} (m : outcome A) (k : A -> outcome B) : outcome B :=
  match m with
  | Ret a => k a
  | Fail e => Fail e
  | Panic => Panic
  end.

(** [errors.Join] of two possibly nil errors: the messages separated by a newline. *)
Definition newline : string := String (Ascii.ascii_of_nat 10) EmptyString.
Definition errors_Join (a b : option string) : option string :=
  match a, b with
  | Some a, Some b => Some (a +:+ newline +:+ b)
  | Some a, None => Some a
  | None, b => b
  end.

(** [errors.Join(errs...)] of non-nil errors. *)
Definition errors_Join_all (errs : list string) : option string :=
  match errs with
  | [] => None
  | _ => Some (String.concat newline errs)
  end.

Declare Scope go_scope.
Delimit Scope go_scope with go.
Notation "'let!' x ':=' m 'in' k" := (obind m (fun x => k))
  (at level 10, x pattern, m at level 100, k at level 200) : go_scope.
Notation "'check!' m 'in' k" := (obind m (fun _ => k))
  (at level 10, m at level 100, k at level 200) : go_scope.
Notation "'fail_if' b 'with' e 'in' k" := (if b then Fail e else k)
  (at level 10, b at level 100, e at level 100, k at level 200) : go_scope.
#[global] Open Scope go_scope.

Definition is_ret {A} (m : outcome A) : bool :=
  match m with Ret _ => true | _ => false end.
Definition panics {A} (m : outcome A) : bool :=
  match m with Panic => true | _ => false end.

Lemma obind_ret {A B} (m : outcome A) (k : A -> outcome B) b :
  obind m k = Ret b <-> exists a, m = Ret a /\ k a = Ret b.
Proof. destruct m; simpl; split; try done; [by eauto|by intros (? & [= ->] & ?)|..];
  by intros (? & ? & ?). Qed.

(** A checked bind: the continuation is only reached with a value. *)
Lemma obind_ret_eq {A B} (m : outcome A) (k : A -> outcome B) a :
  m = Ret a -> obind m k = k a.
Proof. by intros ->. Qed.

(** [returns m Q]: the call neither panics nor fails, and its value satisfies [Q]. *)
Definition returns {A} (m : outcome A) (Q : A -> Prop) : Prop :=
  match m with Ret a => Q a | _ => False end.

Lemma returns_bind {A B} (m : outcome A) (k : A -> outcome B) Q :
  returns m (fun a => returns (k a) Q) -> returns (obind m k) Q.
Proof. by destruct m. Qed.
Lemma returns_mono {A} (m : outcome A) (P Q : A -> Prop) :
  returns m P -> (forall a, P a -> Q a) -> returns m Q.
Proof. destruct m; simpl; auto. Qed.
Lemma returns_if {A} (b : bool) (m1 m2 : outcome A) Q :
  (b = true -> returns m1 Q) -> (b = false -> returns m2 Q) ->
  returns (if b then m1 else m2) Q.
Proof. destruct b; auto. Qed.
Lemma returns_elim {A} (m : outcome A) Q :
  returns m Q -> exists a, m = Ret a /\ Q a.
Proof. destruct m; simpl; eauto; done. Qed.

(** ** Fixed-width unsigned integers *)

Definition u8 (x : Z) : Z := x mod 2 ^ 8.
Definition u16 (x : Z) : Z := x mod 2 ^ 16.
Definition u32 (x : Z) : Z := x mod 2 ^ 32.
Definition u64 (x : Z) : Z := x mod 2 ^ 64.

Definition max_u32 : Z := 2 ^ 32 - 1.
Definition max_u64 : Z := 2 ^ 64 - 1.
Definition max_i64 : Z := 2 ^ 63 - 1.
Definition min_i64 : Z := - 2 ^ 63.

Lemma u8_range x : 0 <= u8 x < 256.
Proof. unfold u8. apply Z.mod_pos_bound. lia. Qed.
Lemma u16_range x : 0 <= u16 x < 65536.
Proof. unfold u16. apply Z.mod_pos_bound. lia. Qed.
Lemma u32_range x : 0 <= u32 x < 4294967296.
Proof. unfold u32. apply Z.mod_pos_bound. lia. Qed.

Lemma u16_id x : 0 <= x < 65536 -> u16 x = x.
Proof. intros. apply Z.mod_small. lia. Qed.
Lemma u32_id x : 0 <= x < 4294967296 -> u32 x = x.
Proof. intros. apply Z.mod_small. lia. Qed.
Lemma u8_id x : 0 <= x < 256 -> u8 x = x.
Proof. intros. apply Z.mod_small. lia. Qed.

(** ** Bytes and Go slices *)

Definition byte_ok (b : Z) : Prop := 0 <= b < 256.
Definition bytes_ok (l : list Z) : Prop := Forall byte_ok l.

Definition len {A} (l : list A) : Z := Z.of_nat (length l).

(** [l[i]]: panics out of range. *)
Definition idx (l : list Z) (i : Z) : outcome Z :=
  if (0 <=? i) && (i <? len l) then
    match l !! Z.to_nat i with Some b => Ret b | None => Panic end
  else Panic.

(** [l[lo:hi]]: the upper bound is checked against the length (Go checks it
    against the capacity, which is at least the length). *)
Definition slice (l : list Z) (lo hi : Z) : outcome (list Z) :=
  if (0 <=? lo) && (lo <=? hi) && (hi <=? len l)
  then Ret (take (Z.to_nat (hi - lo)) (drop (Z.to_nat lo) l))
  else Panic.

(** [binary.BigEndian.Uint16(b)] and [binary.BigEndian.Uint32(b)]: panic on a
    short slice, ignore extra bytes. *)
Definition BigEndian_Uint16 (b : list Z) : outcome Z :=
  match b with
  | b0 :: b1 :: _ => Ret (Z.lor b1 (Z.shiftl b0 8))
  | _ => Panic
  end.
Definition BigEndian_Uint32 (b : list Z) : outcome Z :=
  match b with
  | b0 :: b1 :: b2 :: b3 :: _ =>
      Ret (Z.lor (Z.lor b3 (Z.shiftl b2 8)) (Z.lor (Z.shiftl b1 16) (Z.shiftl b0 24)))
  | _ => Panic
  end.
Definition LittleEndian_Uint32 (b : list Z) : outcome Z :=
  match b with
  | b0 :: b1 :: b2 :: b3 :: _ =>
      Ret (Z.lor (Z.lor b0 (Z.shiftl b1 8)) (Z.lor (Z.shiftl b2 16) (Z.shiftl b3 24)))
  | _ => Panic
  end.

(** The bytes written by the corresponding [Put] functions. *)
Definition BigEndian_PutUint16 (v : Z) : list Z := [u8 (Z.shiftr v 8); u8 v].
Definition BigEndian_PutUint32 (v : Z) : list Z :=
  [u8 (Z.shiftr v 24); u8 (Z.shiftr v 16); u8 (Z.shiftr v 8); u8 v].
Definition LittleEndian_PutUint32 (v : Z) : list Z :=
  [u8 v; u8 (Z.shiftr v 8); u8 (Z.shiftr v 16); u8 (Z.shiftr v 24)].

(** Overwriting [length src] bytes of [dst] from offset [off] on, as [copy] and
    the [Put] functions do on a sub-slice; positions past the end are ignored. *)
Fixpoint store_bytes (dst : list Z) (off : nat) (src : list Z) : list Z :=
  match src with
  | [] => dst
  | b :: src => store_bytes (<[off := b]> dst) (S off) src
  end.

Lemma length_store_bytes dst off src : length (store_bytes dst off src) = length dst.
Proof.
  revert dst off; induction src as [|b src IH]; intros; simpl; [done|].
  by rewrite IH, length_insert.
Qed.

Lemma lookup_store_bytes_lt dst off src i :
  (i < off)%nat -> store_bytes dst off src !! i = dst !! i.
Proof.
  revert dst off; induction src as [|b src IH]; intros dst off Hi; simpl; [done|].
  rewrite IH by lia. apply list_lookup_insert_ne. lia.
Qed.

Lemma lookup_store_bytes_ge dst off src i :
  (off + length src <= i)%nat -> store_bytes dst off src !! i = dst !! i.
Proof.
  revert dst off; induction src as [|b src IH]; intros dst off Hi; simpl in *; [done|].
  rewrite IH by lia. apply list_lookup_insert_ne. lia.
Qed.

Lemma store_bytes_cons x dst off src :
  store_bytes (x :: dst) (S off) src = x :: store_bytes dst off src.
Proof.
  revert dst off; induction src as [|b src IH]; intros; simpl; [done|].
  apply IH.
Qed.

Lemma bytes_ok_insert l i b : bytes_ok l -> byte_ok b -> bytes_ok (<[i := b]> l).
Proof. intros Hl Hb. by apply Forall_insert. Qed.

Lemma bytes_ok_store dst off src :
  bytes_ok dst -> bytes_ok src -> bytes_ok (store_bytes dst off src).
Proof.
  revert dst off; induction src as [|b src IH]; intros dst off Hd Hs; simpl; [done|].
  inversion Hs; subst. apply IH; [|done]. by apply bytes_ok_insert.
Qed.

Lemma bytes_ok_app l1 l2 : bytes_ok l1 -> bytes_ok l2 -> bytes_ok (l1 ++ l2).
Proof. apply Forall_app_2. Qed.

Lemma byte_ok_u8 x : byte_ok (u8 x).
Proof. apply u8_range. Qed.

(** *** Word/byte arithmetic *)

Lemma lor_shiftl_add a b k :
  0 <= k -> 0 <= b < 2 ^ k -> Z.lor b (Z.shiftl a k) = a * 2 ^ k + b.
Proof.
  intros Hk Hb. rewrite Z.shiftl_mul_pow2 by lia.
  pose proof (Z.add_lor_land b (a * 2 ^ k)) as Hsum.
  cut (Z.land b (a * 2 ^ k) = 0); [lia|].
  apply Z.bits_inj'. intros n Hn.
  rewrite Z.land_spec, Z.bits_0.
  destruct (decide (n < k)).
  - rewrite Z.mul_pow2_bits_low by lia. apply andb_false_r.
  - replace (Z.testbit b n) with false; [done|]. symmetry.
    rewrite <- (Z.mod_small b (2 ^ k)) by lia. apply Z.mod_pow2_bits_high. lia.
Qed.

Lemma be16_val b0 b1 : byte_ok b1 -> Z.lor b1 (Z.shiftl b0 8) = b0 * 256 + b1.
Proof. intros H1. unfold byte_ok in *. by rewrite lor_shiftl_add by lia. Qed.

Lemma be32_val b0 b1 b2 b3 : byte_ok b1 -> byte_ok b2 -> byte_ok b3 ->
  Z.lor (Z.lor b3 (Z.shiftl b2 8)) (Z.lor (Z.shiftl b1 16) (Z.shiftl b0 24))
  = b0 * 16777216 + b1 * 65536 + b2 * 256 + b3.
Proof.
  unfold byte_ok; intros H1 H2 H3.
  rewrite (lor_shiftl_add b2 b3 8) by lia.
  replace (Z.shiftl b0 24) with (Z.shiftl (Z.shiftl b0 8) 16)
    by (rewrite Z.shiftl_shiftl by lia; done).
  rewrite <- Z.shiftl_lor, lor_shiftl_add by lia.
  rewrite lor_shiftl_add by lia. lia.
Qed.

Lemma u8_shiftr v k : 0 <= k -> u8 (Z.shiftr v k) = (v / 2 ^ k) mod 256.
Proof. intros. unfold u8. by rewrite Z.shiftr_div_pow2 by lia. Qed.

Lemma PutUint16_Uint16 v r :
  BigEndian_Uint16 (BigEndian_PutUint16 v ++ r) = Ret (u16 v).
Proof.
  simpl. rewrite be16_val by apply byte_ok_u8. f_equal.
  rewrite u8_shiftr by lia. unfold u8, u16.
  change (2 ^ 8) with 256. change (2 ^ 16) with 65536.
  Z.div_mod_to_equations. lia.
Qed.

Lemma PutUint32_Uint32 v r :
  BigEndian_Uint32 (BigEndian_PutUint32 v ++ r) = Ret (u32 v).
Proof.
  simpl. rewrite be32_val by apply byte_ok_u8. f_equal.
  rewrite !u8_shiftr by lia. unfold u8, u32.
  change (2 ^ 8) with 256. change (2 ^ 16) with 65536.
  change (2 ^ 24) with 16777216. change (2 ^ 32) with 4294967296.
  Z.div_mod_to_equations. lia.
Qed.

Lemma LE_PutUint32_Uint32 v r :
  LittleEndian_Uint32 (LittleEndian_PutUint32 v ++ r) = Ret (u32 v).
Proof.
  pose proof (PutUint32_Uint32 v r) as H. simpl in *.
  injection H as H. by rewrite <- H.
Qed.

(** *** Total accessors, equal to the checked ones in range *)

Definition byte_at (l : list Z) (i : Z) : Z := default 0 (l !! Z.to_nat i).
Definition be16_at (l : list Z) (i : Z) : Z := byte_at l i * 256 + byte_at l (i + 1).
Definition be32_at (l : list Z) (i : Z) : Z :=
  byte_at l i * 16777216 + byte_at l (i + 1) * 65536
  + byte_at l (i + 2) * 256 + byte_at l (i + 3).
Definition sub_at (l : list Z) (i n : Z) : list Z :=
  take (Z.to_nat n) (drop (Z.to_nat i) l).

Lemma byte_at_ok l i : bytes_ok l -> byte_ok (byte_at l i).
Proof.
  intros Hl. unfold byte_at.
  destruct (l !! Z.to_nat i) eqn:E; simpl; [|unfold byte_ok; lia].
  by eapply Forall_lookup_1 in E.
Qed.

Lemma be16_at_range l i : bytes_ok l -> 0 <= be16_at l i < 65536.
Proof.
  intros Hl. unfold be16_at.
  pose proof (byte_at_ok l i Hl). pose proof (byte_at_ok l (i + 1) Hl).
  unfold byte_ok in *. lia.
Qed.

Lemma idx_in l i : 0 <= i < len l -> idx l i = Ret (byte_at l i).
Proof.
  intros Hi. unfold idx, byte_at, len in *.
  rewrite (proj2 (andb_true_iff _ _)) by lia.
  destruct (lookup_lt_is_Some_2 l (Z.to_nat i)) as [b ->]; [lia|done].
Qed.

Lemma slice_in l lo hi :
  0 <= lo <= hi -> hi <= len l -> slice l lo hi = Ret (sub_at l lo (hi - lo)).
Proof.
  intros Hlo Hhi. unfold slice, sub_at.
  destruct (Z.leb_spec 0 lo); [|lia]. destruct (Z.leb_spec lo hi); [|lia].
  by destruct (Z.leb_spec hi (len l)); [|lia].
Qed.

Lemma len_nonneg {A} (l : list A) : 0 <= len l.
Proof. unfold len. lia. Qed.

Lemma len_sub_at l i n : 0 <= i -> 0 <= n -> i + n <= len l -> len (sub_at l i n) = n.
Proof.
  intros. unfold len, sub_at in *. rewrite length_take, length_drop. lia.
Qed.

Lemma bytes_ok_sub_at l i n : bytes_ok l -> bytes_ok (sub_at l i n).
Proof. intros. unfold sub_at. by apply Forall_take, Forall_drop. Qed.

Lemma byte_at_sub_at l i n j :
  0 <= i -> 0 <= j < n -> byte_at (sub_at l i n) j = byte_at l (i + j).
Proof.
  intros. unfold byte_at, sub_at.
  rewrite lookup_take_lt by lia. rewrite lookup_drop. do 2 f_equal. lia.
Qed.

Lemma be16_at_sub_at l i n j :
  0 <= i -> 0 <= j -> j + 1 < n -> be16_at (sub_at l i n) j = be16_at l (i + j).
Proof.
  intros. unfold be16_at. rewrite !byte_at_sub_at by lia. do 2 f_equal; lia.
Qed.

Lemma be32_at_sub_at l i n j :
  0 <= i -> 0 <= j -> j + 3 < n -> be32_at (sub_at l i n) j = be32_at l (i + j).
Proof.
  intros. unfold be32_at. rewrite !byte_at_sub_at by lia.
  rewrite <- !(Z.add_assoc i). done.
Qed.

Lemma sub_at_sub_at l i n j m :
  0 <= i -> 0 <= j -> j + m <= n -> sub_at (sub_at l i n) j m = sub_at l (i + j) m.
Proof.
  intros. unfold sub_at.
  rewrite skipn_firstn_comm, take_take, drop_drop. f_equal; [lia|f_equal; lia].
Qed.

(** [binary.BigEndian.Uint16(l[lo:hi])] and [binary.BigEndian.Uint32(l[lo:hi])]. *)
Definition Uint16At (l : list Z) (lo hi : Z) : outcome Z :=
  obind (slice l lo hi) BigEndian_Uint16.
Definition Uint32At (l : list Z) (lo hi : Z) : outcome Z :=
  obind (slice l lo hi) BigEndian_Uint32.

Lemma Uint16At_in l i hi : bytes_ok l -> hi = i + 2 -> 0 <= i -> hi <= len l ->
  Uint16At l i hi = Ret (be16_at l i).
Proof.
  intros Hl -> Hi Hn. unfold Uint16At. rewrite slice_in by lia. simpl.
  replace (i + 2 - i) with 2 by lia. unfold sub_at.
  pose proof (idx_in l i) as H0. pose proof (idx_in l (i + 1)) as H1.
  unfold len, idx, byte_at in *.
  destruct (lookup_lt_is_Some_2 l (Z.to_nat i)) as [b0 E0]; [lia|].
  destruct (lookup_lt_is_Some_2 l (Z.to_nat (i + 1))) as [b1 E1]; [lia|].
  rewrite (drop_S l b0) by done.
  replace (S (Z.to_nat i)) with (Z.to_nat (i + 1)) by lia.
  rewrite (drop_S l b1) by done. simpl.
  unfold be16_at, byte_at. rewrite E0, E1. simpl. f_equal.
  apply be16_val. by eapply Forall_lookup_1 in E1.
Qed.

Lemma Uint32At_in l i hi : bytes_ok l -> hi = i + 4 -> 0 <= i -> hi <= len l ->
  Uint32At l i hi = Ret (be32_at l i).
Proof.
  intros Hl -> Hi Hn. unfold Uint32At. rewrite slice_in by lia. simpl.
  replace (i + 4 - i) with 4 by lia. unfold sub_at, len in *.
  destruct (lookup_lt_is_Some_2 l (Z.to_nat i)) as [b0 E0]; [lia|].
  destruct (lookup_lt_is_Some_2 l (Z.to_nat (i + 1))) as [b1 E1]; [lia|].
  destruct (lookup_lt_is_Some_2 l (Z.to_nat (i + 2))) as [b2 E2]; [lia|].
  destruct (lookup_lt_is_Some_2 l (Z.to_nat (i + 3))) as [b3 E3]; [lia|].
  rewrite (drop_S l b0) by done.
  replace (S (Z.to_nat i)) with (Z.to_nat (i + 1)) by lia.
  rewrite (drop_S l b1) by done.
  replace (S (Z.to_nat (i + 1))) with (Z.to_nat (i + 2)) by lia.
  rewrite (drop_S l b2) by done.
  replace (S (Z.to_nat (i + 2))) with (Z.to_nat (i + 3)) by lia.
  rewrite (drop_S l b3) by done. simpl.
  unfold be32_at, byte_at. rewrite E0, E1, E2, E3. simpl. f_equal.
  unfold bytes_ok in Hl. rewrite Forall_lookup in Hl.
  apply be32_val; eauto.
Qed.

(** *** Reads after writes *)

Lemma lookup_store_bytes_in dst off src j :
  (off + length src <= length dst)%nat -> (j < length src)%nat ->
  store_bytes dst off src !! (off + j)%nat = src !! j.
Proof.
  revert dst off j; induction src as [|b src IH]; intros dst off j Hl Hj; simpl in *; [lia|].
  destruct j as [|j].
  - rewrite Nat.add_0_r, lookup_store_bytes_lt by lia. apply list_lookup_insert_eq. lia.
  - replace (off + S j)%nat with (S off + j)%nat by lia.
    rewrite IH; [done| |lia]. rewrite length_insert. lia.
Qed.

Lemma len_store_bytes dst off src : len (store_bytes dst off src) = len dst.
Proof. unfold len. by rewrite length_store_bytes. Qed.

Lemma len_nil {A} : len (@nil A) = 0.
Proof. done. Qed.
Lemma len_cons {A} (x : A) l : len (x :: l) = 1 + len l.
Proof. unfold len. simpl. lia. Qed.
Lemma len_app {A} (l1 l2 : list A) : len (l1 ++ l2) = len l1 + len l2.
Proof. unfold len. rewrite length_app. lia. Qed.
Lemma len_put16 v : len (BigEndian_PutUint16 v) = 2.
Proof. done. Qed.
Lemma len_put32 v : len (BigEndian_PutUint32 v) = 4.
Proof. done. Qed.

Lemma byte_at_store_out dst off src i :
  0 <= i -> i < Z.of_nat off \/ Z.of_nat off + len src <= i ->
  byte_at (store_bytes dst off src) i = byte_at dst i.
Proof.
  intros Hi H. unfold byte_at, len in *.
  destruct H; [rewrite lookup_store_bytes_lt by lia|rewrite lookup_store_bytes_ge by lia]; done.
Qed.

Lemma byte_at_store_in dst off src i :
  Z.of_nat off + len src <= len dst -> Z.of_nat off <= i < Z.of_nat off + len src ->
  byte_at (store_bytes dst off src) i = byte_at src (i - Z.of_nat off).
Proof.
  intros Hl Hi. unfold byte_at, len in *.
  replace (Z.to_nat i) with (off + Z.to_nat (i - Z.of_nat off))%nat by lia.
  rewrite lookup_store_bytes_in by lia. done.
Qed.

Lemma sub_at_store_out l off src i n :
  0 <= i -> 0 <= n -> i + n <= Z.of_nat off \/ Z.of_nat off + len src <= i ->
  sub_at (store_bytes l off src) i n = sub_at l i n.
Proof.
  intros Hi Hn H. unfold sub_at, len in *. apply list_eq. intros j.
  rewrite !lookup_take. case_decide; [|done]. rewrite !lookup_drop.
  destruct H; [rewrite lookup_store_bytes_lt by lia|rewrite lookup_store_bytes_ge by lia]; done.
Qed.

Lemma sub_at_store_in l off src i n :
  0 <= i -> 0 <= n -> i <= Z.of_nat off -> Z.of_nat off + len src <= i + n ->
  sub_at (store_bytes l off src) i n = store_bytes (sub_at l i n) (off - Z.to_nat i) src.
Proof.
  intros Hi Hn. revert l off. induction src as [|b src IH]; intros l off Ho Hs; [done|].
  unfold len in *. simpl in *. rewrite IH by lia.
  replace (S off - Z.to_nat i)%nat with (S (off - Z.to_nat i)) by lia. f_equal.
  unfold sub_at. rewrite drop_insert_ge by lia. by rewrite take_insert_lt by lia.
Qed.

Lemma put16_val v : 0 <= v < 65536 -> u8 (Z.shiftr v 8) * 256 + u8 v = v.
Proof.
  intros Hv. pose proof (PutUint16_Uint16 v []) as H. simpl in H.
  rewrite be16_val in H by apply byte_ok_u8. injection H as ->. by apply u16_id.
Qed.

Lemma elem_of_rev {A} (x : A) l : x ∈ rev l <-> x ∈ l.
Proof. rewrite !list_elem_of_In. symmetry. apply in_rev. Qed.

(** ** Sums over finite maps *)

Section msum.
Context {K : Type} `{Countable K} {V : Type}.
Implicit Types (m : gmap K V) (f g : V -> Z).

Definition msum (f : V -> Z) (m : gmap K V) : Z :=
  map_fold (fun _ v acc => f v + acc) 0 m.

Lemma msum_empty f : msum f (∅ : gmap K V) = 0.
Proof. apply map_fold_empty. Qed.

Lemma msum_insert_None f m k v : m !! k = None -> msum f (<[k := v]> m) = f v + msum f m.
Proof.
  intros Hk. unfold msum. rewrite map_fold_insert_L; [done| |done].
  intros. lia.
Qed.

Lemma msum_delete f m k v : m !! k = Some v -> msum f (delete k m) = msum f m - f v.
Proof.
  intros Hk. pose proof (msum_insert_None f (delete k m) k v) as Hi.
  rewrite insert_delete_id in Hi by done. rewrite Hi by apply lookup_delete_eq. lia.
Qed.

Lemma msum_insert_Some f m k v v' :
  m !! k = Some v -> msum f (<[k := v']> m) = msum f m - f v + f v'.
Proof.
  intros Hk. rewrite <- insert_delete_eq.
  rewrite msum_insert_None by apply lookup_delete_eq.
  rewrite (msum_delete f m k v) by done. lia.
Qed.

Lemma msum_zero m : msum (fun _ => 0) m = 0.
Proof.
  induction m as [|k v m Hk IH] using map_ind; [apply msum_empty|]. by rewrite msum_insert_None, IH.
Qed.

Lemma msum_nonneg f m : (forall k v, m !! k = Some v -> 0 <= f v) -> 0 <= msum f m.
Proof.
  induction m as [|k v m Hk IH] using map_ind; intros Hf; [by rewrite msum_empty|].
  rewrite msum_insert_None by done.
  pose proof (Hf k v (lookup_insert_eq _ _ _)).
  enough (0 <= msum f m) by lia. apply IH. intros k' v' Hk'.
  apply (Hf k'). rewrite lookup_insert_ne; [done|]. congruence.
Qed.

Lemma msum_lookup_le f m k v :
  (forall k v, m !! k = Some v -> 0 <= f v) -> m !! k = Some v -> f v <= msum f m.
Proof.
  intros Hf Hk. pose proof (msum_delete f m k v Hk).
  enough (0 <= msum f (delete k m)) by lia.
  apply msum_nonneg. intros k' v' [_ Hk']%lookup_delete_Some. eauto.
Qed.

Lemma msum_ext f g m :
  (forall k v, m !! k = Some v -> f v = g v) -> msum f m = msum g m.
Proof.
  induction m as [|k v m Hk IH] using map_ind; intros Hf; [by rewrite !msum_empty|].
  rewrite !msum_insert_None by done.
  rewrite (Hf k v (lookup_insert_eq _ _ _)). f_equal. apply IH. intros k' v' Hk'.
  apply (Hf k'). rewrite lookup_insert_ne; [done|]. congruence.
Qed.

Lemma msum_le f g m :
  (forall k v, m !! k = Some v -> f v <= g v) -> msum f m <= msum g m.
Proof.
  induction m as [|k v m Hk IH] using map_ind; intros Hf; [by rewrite !msum_empty|].
  rewrite !msum_insert_None by done.
  pose proof (Hf k v (lookup_insert_eq _ _ _)).
  enough (msum f m <= msum g m) by lia. apply IH. intros k' v' Hk'.
  apply (Hf k'). rewrite lookup_insert_ne; [done|]. congruence.
Qed.
End msum.

(** Number of entries, as a Go [len] of a map. *)
Definition mlen {K} `{Countable K} {V} (m : gmap K V) : Z := Z.of_nat (size m).

Lemma mlen_insert_None {K} `{Countable K} {V} (m : gmap K V) k v :
  m !! k = None -> mlen (<[k := v]> m) = mlen m + 1.
Proof. intros. unfold mlen. rewrite map_size_insert_None by done. lia. Qed.
Lemma mlen_insert_Some {K} `{Countable K} {V} (m : gmap K V) k v v' :
  m !! k = Some v -> mlen (<[k := v']> m) = mlen m.
Proof. intros. unfold mlen. by erewrite map_size_insert_Some by eauto. Qed.
Lemma mlen_delete_le {K} `{Countable K} {V} (m : gmap K V) k :
  mlen (delete k m) <= mlen m.
Proof.
  unfold mlen. rewrite map_size_delete. destruct (m !! k); simpl; lia.
Qed.

(** ** Automation *)

(** Hints that discharge byte and slice side conditions. *)
Create HintDb bytes.
#[export] Hint Resolve byte_ok_u8 byte_at_ok bytes_ok_app bytes_ok_sub_at bytes_ok_store
  bytes_ok_insert len_nonneg : bytes.

(** Inverts a successful run of checked Go code. *)
Ltac go_inv :=
  repeat match goal with
  | H : obind _ _ = Ret _ |- _ => apply obind_ret in H as (? & ? & H)
  | H : (if ?b then Fail _ else _) = Ret _ |- _ => destruct b eqn:?; [discriminate H|]
  | H : Ret _ = Ret _ |- _ => injection H as H
  | H : Fail _ = Ret _ |- _ => discriminate H
  | H : Panic = Ret _ |- _ => discriminate H
  end.

(** Linear arithmetic after computing slice lengths. *)
Ltac len_lia :=
  rewrite ?len_store_bytes, ?len_put16, ?len_put32, ?len_cons, ?len_nil,
    ?length_store_bytes; lia.

(** Evaluates checked reads whose bounds follow by [lia]. *)
Ltac go_side := first [lia | rewrite !len_sub_at by lia; lia | by eauto with bytes].
Ltac go_read :=
  repeat (first
  [ rewrite idx_in by go_side
  | rewrite Uint16At_in by go_side
  | rewrite Uint32At_in by go_side
  | rewrite slice_in by go_side ]; cbn [obind]).

(** Turns [bool_decide] and [Z] comparisons in hypotheses into propositions. *)
Ltac bool_prop :=
  repeat match goal with
  | H : _ || _ = false |- _ => apply orb_false_iff in H as [? ?]
  | H : _ && _ = true |- _ => apply andb_true_iff in H as [? ?]
  | H : negb _ = false |- _ => apply negb_false_iff in H
  | H : negb _ = true |- _ => apply negb_true_iff in H
  | H : bool_decide _ = true |- _ => apply bool_decide_eq_true in H
  | H : bool_decide _ = false |- _ => apply bool_decide_eq_false in H
  | H : (_ =? _) = true |- _ => apply Z.eqb_eq in H
  | H : (_ =? _) = false |- _ => apply Z.eqb_neq in H
  end.

