(* ===== verification/Abi.v ===== *)
(** * The Go side of the BPF map ABI (internal/abi/abi.go): the FakeTCP session
    key and value, ring-buffer events and the constants shared with the kernel
    programs.  Fixed-size byte arrays are lists of byte values; [zeros n] is the
    zero array. *)
From Stdlib Require Import ZArith Lia.
From stdpp Require Import base option list gmap strings numbers countable.
From S2P Require Import Prelude.

Definition zeros (n : nat) : list Z := replicate n 0.

(** ** Constants *)
Definition ActionPass : Z := 1.
Definition ActionDropRule : Z := 2.
Definition ActionRewrite : Z := 3.

Definition FakeTCPStateIdle : Z := 0.
Definition FakeTCPStateSynSent : Z := 1.
Definition FakeTCPStateSynReceived : Z := 2.
Definition FakeTCPStateEstablished : Z := 3.
Definition FakeTCPStateDeleteClaimed : Z := 4.

Definition FakeTCPEventNeedHandshake : Z := 1.
Definition FakeTCPEventSYN : Z := 2.
Definition FakeTCPEventSYNACK : Z := 3.
Definition FakeTCPEventACK : Z := 4.
Definition FakeTCPEventRST : Z := 5.
Definition FakeTCPEventFIN : Z := 6.

Definition FakeTCPEventABIVersion : Z := 3.
Definition FakeTCPEventSize : Z := 112.
Definition FakeTCPMaxCapturedPacket : Z := 2304.

(** ** Session key *)
Record FakeTCPSessionKey := mkSessionKey {
  SK_Generation : Z;
  SK_LocalIPv4 : Z;
  SK_RemoteIPv4 : Z;
  SK_UnderlayIndex : Z;
  SK_LocalPort : Z;
  SK_RemotePort : Z;
  SK_WGID : Z;
  SK_Reserved : list Z
}.

#[export] Instance FakeTCPSessionKey_eq_dec : EqDecision FakeTCPSessionKey.
Proof. solve_decision. Defined.

Definition session_key_tuple (k : FakeTCPSessionKey) :=
  (SK_Generation k, SK_LocalIPv4 k, SK_RemoteIPv4 k, SK_UnderlayIndex k,
   SK_LocalPort k, SK_RemotePort k, SK_WGID k, SK_Reserved k).
Definition session_key_of_tuple (t : Z * Z * Z * Z * Z * Z * Z * list Z) :=
  let '(g, l, r, u, lp, rp, wg, rs) := t in mkSessionKey g l r u lp rp wg rs.

#[export] Instance FakeTCPSessionKey_countable : Countable FakeTCPSessionKey.
Proof.
  refine (inj_countable' session_key_tuple session_key_of_tuple _). by intros [].
Defined.

(** ** Session value *)
Record FakeTCPSessionValue := mkSessionValue {
  SV_Generation : Z;
  SV_LastSeenNanos : Z;
  SV_TXSequence : Z;
  SV_RXSequence : Z;
  SV_LocalISN : Z;
  SV_RemoteISN : Z;
  SV_Window : Z;
  SV_State : Z;
  SV_Flags : Z;
  SV_Reserved : list Z;
  SV_KernelLock : Z;
  SV_KernelReserved : Z;
  SV_Revision : Z;
  SV_SessionID : Z;
  SV_RuntimeIncarnation : list Z
}.

#[export] Instance FakeTCPSessionValue_eq_dec : EqDecision FakeTCPSessionValue.
Proof. solve_decision. Defined.

(** ** Ring-buffer event header *)
Record FakeTCPEvent := mkEvent {
  EV_Key : FakeTCPSessionKey;
  EV_TimestampNanos : Z;
  EV_RuntimeIncarnation : list Z;
  EV_CaptureSequence : Z;
  EV_SessionRevision : Z;
  EV_SessionID : Z;
  EV_CaptureCPU : Z;
  EV_Sequence : Z;
  EV_Acknowledgement : Z;
  EV_PayloadLength : Z;
  EV_FWMark : Z;
  EV_WGID : Z;
  EV_PacketLength : Z;
  EV_EventABIVersion : Z;
  EV_Type : Z;
  EV_TCPFlags : Z
}.
