(* ===== verification/Checksum.v ===== *)
(** * Internet checksums of captured packets
    (internal/faketcp/checksum.go, internal/faketcp/control_packet.go
    [validatePacketFlow]).

    [MaterializeIPv4UDPChecksums] is modelled as a function from the packet
    bytes to the packet bytes after the in-place writes; [udp] aliases
    [packet[20:]], so its writes are writes of the packet at offset 20 + i. *)
From Stdlib Require Import ZArith Lia.
From stdpp Require Import base option list gmap strings numbers.
From S2P Require Import Prelude Abi.

Definition materializedIPv4HeaderLength : Z := 20.
Definition udpHeaderLength : Z := 8.

(** [binary.NativeEndian] on the release targets (amd64, arm64) is little endian. *)
Definition NativeEndian_PutUint32 (v : Z) : list Z := LittleEndian_PutUint32 v.

Fixpoint addChecksumBytes (sum : Z) (data : list Z) : Z :=
  match data with
  | b0 :: b1 :: data => addChecksumBytes (u32 (sum + Z.lor b1 (Z.shiftl b0 8))) data
  | [b0] => u32 (sum + u32 (Z.shiftl b0 8))
  | [] => sum
  end.

(** The folding loop of [finishChecksum]; two iterations suffice for any
    32-bit sum ([finish_loop_done]). *)
Fixpoint finish_loop (fuel : nat) (sum : Z) : Z :=
  match fuel with
  | O => sum
  | S fuel =>
      if Z.shiftr sum 16 =? 0 then sum
      else finish_loop fuel (u32 (Z.land sum 0xffff + Z.shiftr sum 16))
  end.

Definition finishChecksum (sum : Z) : Z :=
  Z.lxor (u16 (finish_loop 2 sum)) 0xffff.

Definition checksumValid (data : list Z) : bool :=
  finishChecksum (addChecksumBytes 0 data) =? 0.

Definition transportChecksumSum (addresses : list Z) (protocol : Z) (transport : list Z) : Z :=
  let pseudo := zeros 12 in
  let pseudo := store_bytes pseudo 0 (take 8 addresses) in
  let pseudo := store_bytes pseudo 9 [protocol] in
  let pseudo := store_bytes pseudo 10 (BigEndian_PutUint16 (u16 (len transport))) in
  let sum := addChecksumBytes 0 pseudo in
  addChecksumBytes sum transport.

Definition transportChecksum (addresses : list Z) (protocol : Z) (transport : list Z) : Z :=
  finishChecksum (transportChecksumSum addresses protocol transport).

Definition transportChecksumValid (addresses : list Z) (protocol : Z) (transport : list Z) : bool :=
  finishChecksum (transportChecksumSum addresses protocol transport) =? 0.

Definition fixedIPv4UDP (packet : list Z) : outcome (list Z) :=
  let! bad := (if len packet <? materializedIPv4HeaderLength + udpHeaderLength then Ret true
               else let! b0 := idx packet 0 in Ret (negb (Z.shiftr b0 4 =? 4))) in
  fail_if bad with "not complete IPv4/UDP" in
  let! b0 := idx packet 0 in
  let headerLength := Z.land b0 0x0f * 4 in
  fail_if negb (headerLength =? materializedIPv4HeaderLength)
    with "IPv4 header length is unsupported" in
  let! totalLength := Uint16At packet 2 4 in
  fail_if negb (totalLength =? len packet) with "IPv4 total length is inconsistent" in
  let! fragment := Uint16At packet 6 8 in
  fail_if negb (Z.land fragment 0xbfff =? 0)
    with "reserved IPv4 flags and fragments are unsupported" in
  let! protocol := idx packet 9 in
  fail_if negb (protocol =? 17) with "IPv4 protocol is not UDP" in
  let! udp := slice packet materializedIPv4HeaderLength (len packet) in
  let! udpLength := Uint16At udp 4 6 in
  fail_if negb (udpLength =? len udp) with "UDP length is inconsistent" in
  Ret udp.

Definition MaterializeIPv4UDPChecksums (packet : list Z) : outcome (list Z) :=
  check! fixedIPv4UDP packet in
  let packet := store_bytes packet 10 [0; 0] in
  let! header := slice packet 0 materializedIPv4HeaderLength in
  let packet := store_bytes packet 10
    (BigEndian_PutUint16 (finishChecksum (addChecksumBytes 0 header))) in
  let packet := store_bytes packet 26 [0; 0] in
  let! addresses := slice packet 12 20 in
  let! udp := slice packet materializedIPv4HeaderLength (len packet) in
  let checksum := transportChecksum addresses 17 udp in
  let checksum := if checksum =? 0 then 0xffff else checksum in
  Ret (store_bytes packet 26 (BigEndian_PutUint16 checksum)).

Definition validatePacketFlow (flow : FakeTCPSessionKey) : outcome unit :=
  fail_if SK_Generation flow =? 0 with "flow generation must be non-zero" in
  fail_if SK_LocalIPv4 flow =? 0 with "flow local IPv4 address must be non-zero" in
  fail_if SK_RemoteIPv4 flow =? 0 with "flow remote IPv4 address must be non-zero" in
  fail_if SK_UnderlayIndex flow =? 0 with "flow underlay interface index must be non-zero" in
  fail_if SK_LocalPort flow =? 0 with "flow local port must be non-zero" in
  fail_if SK_RemotePort flow =? 0 with "flow remote port must be non-zero" in
  fail_if SK_WGID flow =? 0 with "flow WGID must be non-zero" in
  fail_if negb (bool_decide (SK_Reserved flow = zeros 4))
    with "flow reserved bytes must be zero" in
  Ret tt.

Definition ValidateMaterializedIPv4UDP (packet : list Z) (flow : FakeTCPSessionKey)
    : outcome unit :=
  let! udp := fixedIPv4UDP packet in
  check! validatePacketFlow flow in
  let localAddress := NativeEndian_PutUint32 (SK_LocalIPv4 flow) in
  let remoteAddress := NativeEndian_PutUint32 (SK_RemoteIPv4 flow) in
  let! source := slice packet 12 16 in
  let! destination := slice packet 16 20 in
  fail_if negb (bool_decide (source = localAddress))
          || negb (bool_decide (destination = remoteAddress))
    with "IPv4 endpoints do not match the flow" in
  let! sourcePort := Uint16At udp 0 2 in
  let! destinationPort := Uint16At udp 2 4 in
  fail_if negb (sourcePort =? SK_LocalPort flow)
          || negb (destinationPort =? SK_RemotePort flow)
    with "UDP ports do not match the flow" in
  let! header := slice packet 0 materializedIPv4HeaderLength in
  fail_if negb (checksumValid header) with "IPv4 checksum is invalid" in
  let! checksum := Uint16At udp 6 8 in
  fail_if checksum =? 0 with "UDP checksum is absent" in
  let! addresses := slice packet 12 20 in
  fail_if negb (transportChecksumValid addresses 17 udp) with "UDP checksum is invalid" in
  Ret tt.

(** ** The one's-complement sum as arithmetic modulo 65535 *)

(** The unwrapped sum of the 16-bit big-endian words, an odd last byte padded. *)
Fixpoint words (data : list Z) : Z :=
  match data with
  | b0 :: b1 :: data => b0 * 256 + b1 + words data
  | [b0] => b0 * 256
  | [] => 0
  end.

Lemma pair_ind (P : list Z -> Prop) :
  P [] -> (forall b, P [b]) -> (forall b0 b1 l, P l -> P (b0 :: b1 :: l)) -> forall l, P l.
Proof.
  intros H0 H1 H2. enough (forall l, P l /\ forall b, P (b :: l)) as H by apply H.
  induction l as [|b l [IH1 IH2]]; split; auto.
Qed.

Lemma words_range l : bytes_ok l -> 0 <= words l /\ 2 * words l <= 65535 * (len l + 1).
Proof.
  unfold bytes_ok, byte_ok, len. induction l as [|b|b0 b1 l IH] using pair_ind; simpl.
  - lia.
  - intros H. inversion H; subst. lia.
  - intros H. inversion H as [|? ? ? H']; subst. inversion H'; subst.
    specialize (IH ltac:(done)). lia.
Qed.

Lemma words_app l1 l2 : Nat.Even (length l1) -> words (l1 ++ l2) = words l1 + words l2.
Proof.
  induction l1 as [|b|b0 b1 l IH] using pair_ind; simpl; intros He.
  - lia.
  - destruct He as [k Hk]. lia.
  - rewrite IH by (destruct He as [k Hk]; exists (k - 1)%nat; lia). lia.
Qed.

Lemma addChecksumBytes_words s l :
  bytes_ok l -> 0 <= s -> s + words l < 2 ^ 32 -> addChecksumBytes s l = s + words l.
Proof.
  revert s. induction l as [|b|b0 b1 l IH] using pair_ind; simpl; intros s Hl Hs Hw.
  - lia.
  - inversion Hl; subst. unfold byte_ok in *.
    rewrite Z.shiftl_mul_pow2 by lia.
    rewrite (u32_id (b * 2 ^ 8)) by lia. rewrite u32_id; lia.
  - inversion Hl as [|? ? ? Hl']; subst. inversion Hl'; subst.
    rewrite be16_val by done. unfold byte_ok in *.
    pose proof (words_range l ltac:(done)).
    rewrite u32_id by lia. rewrite IH; [lia|done|lia|lia].
Qed.

(** The folding loop terminates within its two iterations on every 32-bit sum,
    and yields the residue of the sum modulo 65535 in the range 1..65535 (0 only
    for a zero sum). *)
Lemma finish_loop_done s : 0 <= s < 2 ^ 32 ->
  0 <= finish_loop 2 s < 65536 /\ Z.shiftr (finish_loop 2 s) 16 = 0 /\
  (exists k, s = finish_loop 2 s + 65535 * k) /\ (finish_loop 2 s = 0 <-> s = 0).
Proof.
  intros Hs.
  assert (Hland : forall x, Z.land x 0xffff = x mod 65536)
    by (intros; apply (Z.land_ones x 16); lia).
  assert (Hsh : forall x, Z.shiftr x 16 = x / 65536)
    by (intros; apply (Z.shiftr_div_pow2 x 16); lia).
  cbn [finish_loop]. rewrite !Hland, !Hsh.
  pose proof (Z.mod_pos_bound s 65536 ltac:(lia)).
  assert (0 <= s / 65536 < 65536) by (split; [apply Z.div_pos|apply Z.div_lt_upper_bound]; lia).
  pose proof (Z.div_mod s 65536 ltac:(lia)).
  destruct (s / 65536 =? 0) eqn:E1.
  { repeat split; try lia. exists 0. lia. }
  rewrite u32_id by lia. set (t := s mod 65536 + s / 65536) in *.
  pose proof (Z.mod_pos_bound t 65536 ltac:(lia)).
  assert (0 <= t / 65536 < 2) by (split; [apply Z.div_pos|apply Z.div_lt_upper_bound]; lia).
  pose proof (Z.div_mod t 65536 ltac:(lia)).
  destruct (t / 65536 =? 0) eqn:E2.
  { repeat split; try lia. exists (s / 65536). lia. }
  rewrite u32_id by lia.
  assert ((t mod 65536 + t / 65536) / 65536 = 0) by (apply Z.div_small; lia).
  repeat split; try lia. exists (s / 65536 + 1). lia.
Qed.

Lemma lxor_ffff x : 0 <= x < 65536 -> Z.lxor x 0xffff = 65535 - x.
Proof.
  intros Hx. change 0xffff with (Z.ones 16).
  assert (Hd : Z.ldiff x (Z.ones 16) = 0).
  { rewrite Z.ldiff_ones_r by lia. rewrite Z.shiftr_div_pow2 by lia.
    rewrite Z.div_small by lia. done. }
  change 65535 with (Z.ones 16). rewrite (Z.sub_nocarry_ldiff _ _ Hd).
  apply Z.bits_inj'. intros n Hn. rewrite Z.lxor_spec, Z.ldiff_spec.
  apply (f_equal (fun z => Z.testbit z n)) in Hd.
  rewrite Z.ldiff_spec, Z.bits_0 in Hd.
  by destruct (Z.testbit x n), (Z.testbit (Z.ones 16) n).
Qed.

Lemma finishChecksum_spec s : 0 <= s < 2 ^ 32 ->
  0 <= finishChecksum s < 65536 /\
  (exists k, s + finishChecksum s = 65535 * k) /\
  (finishChecksum s = 65535 <-> s = 0).
Proof.
  intros Hs. destruct (finish_loop_done s Hs) as (Hr & _ & [k Hk] & H0).
  unfold finishChecksum. rewrite u16_id, lxor_ffff by lia.
  split; [lia|]. split; [|lia]. exists (k + 1). lia.
Qed.

(** The verification predicate is exactly "a non-zero multiple of 65535". *)
Lemma finishChecksum_zero s : 0 <= s < 2 ^ 32 ->
  finishChecksum s = 0 <-> s <> 0 /\ s mod 65535 = 0.
Proof.
  intros Hs. destruct (finish_loop_done s Hs) as (Hr & _ & [k Hk] & H0).
  unfold finishChecksum. rewrite u16_id, lxor_ffff by lia.
  set (r := finish_loop 2 s) in *. split.
  - intros E. split; [lia|]. apply Z.mod_divide; [lia|]. exists (k + 1). lia.
  - intros [Hn Hm]. rewrite Hk, (Z.mul_comm 65535) in Hm.
    rewrite Z.mod_add in Hm by lia.
    destruct (decide (r = 65535)); [lia|]. rewrite Z.mod_small in Hm by lia. lia.
Qed.

(** ** Packet shape *)

(** The exact shape [fixedIPv4UDP] admits. *)
Definition fixed_shape (p : list Z) : Prop :=
  28 <= len p /\ byte_at p 0 = 0x45 /\ be16_at p 2 = len p /\
  Z.land (be16_at p 6) 0xbfff = 0 /\ byte_at p 9 = 17 /\ be16_at p 24 = len p - 20.

Lemma nibbles b : byte_ok b -> Z.shiftr b 4 = 4 -> Z.land b 0x0f * 4 = 20 -> b = 0x45.
Proof.
  intros Hb H1 H2. rewrite Z.shiftr_div_pow2 in H1 by lia.
  change 0x0f with (Z.ones 4) in H2. rewrite Z.land_ones in H2 by lia.
  pose proof (Z.div_mod b (2 ^ 4) ltac:(lia)). lia.
Qed.

Lemma fixedIPv4UDP_ret p udp : bytes_ok p ->
  fixedIPv4UDP p = Ret udp <-> fixed_shape p /\ udp = sub_at p 20 (len p - 20).
Proof.
  intros Hp. unfold fixedIPv4UDP, fixed_shape, materializedIPv4HeaderLength, udpHeaderLength.
  destruct (len p <? 20 + 8) eqn:Hlen; simpl; [split; [done|lia]|].
  go_read. pose proof (byte_at_ok p 0 Hp) as Hb0.
  rewrite (be16_at_sub_at p 20) by lia. rewrite len_sub_at by lia.
  split.
  - intros H. go_inv. bool_prop. split; [|done].
    pose proof (nibbles _ Hb0 ltac:(done) ltac:(done)).
    change (20 + 4) with 24 in *. lia.
  - intros ((H1 & H2 & H3 & H4 & H5 & H6) & ->). rewrite H2, H3, H4, H5. simpl.
    change (20 + 4) with 24. rewrite H6. by rewrite !Z.eqb_refl.
Qed.

(** [fixedIPv4UDP] never indexes out of bounds. *)
Lemma fixedIPv4UDP_no_panic p : bytes_ok p -> panics (fixedIPv4UDP p) = false.
Proof.
  intros Hp. unfold fixedIPv4UDP, materializedIPv4HeaderLength, udpHeaderLength.
  destruct (len p <? 20 + 8) eqn:Hlen; simpl; [done|]. go_read.
  by repeat case_match.
Qed.

(** ** Effect of writing a checksum field *)

Lemma words_store2 l off a b : Nat.Even off -> (off + 2 <= length l)%nat ->
  words (store_bytes l off [a; b]) = words l - be16_at l (Z.of_nat off) + (a * 256 + b).
Proof.
  intros He Hl. simpl.
  destruct (lookup_lt_is_Some_2 l off) as [x Hx]; [lia|].
  destruct (lookup_lt_is_Some_2 l (S off)) as [y Hy]; [lia|].
  assert (l = take off l ++ x :: y :: drop (S (S off)) l) as Hsplit.
  { rewrite <- (take_drop off l) at 1. by rewrite (drop_S l x), (drop_S l y) by done. }
  assert (length (take off l) = off) as Hlt by (rewrite length_take; lia).
  unfold be16_at, byte_at. replace (Z.to_nat (Z.of_nat off)) with off by lia.
  replace (Z.to_nat (Z.of_nat off + 1)) with (S off) by lia. rewrite Hx, Hy. cbn [default].
  rewrite Hsplit at 1.
  replace off with (length (take off l) + 0)%nat at 1 2 by lia.
  rewrite <- Nat.add_succ_r, insert_app_r, insert_app_r. cbn [insert list_insert].
  rewrite Hsplit at 3. rewrite !words_app by (rewrite Hlt; done). simpl. lia.
Qed.

Lemma transportChecksumSum_words addresses protocol transport :
  bytes_ok addresses -> len addresses = 8 -> byte_ok protocol ->
  bytes_ok transport -> len transport <= 65535 ->
  transportChecksumSum addresses protocol transport =
    words addresses + protocol + len transport + words transport.
Proof.
  intros Ha Hl Hp Ht Hn. unfold transportChecksumSum. unfold len in Hl.
  do 8 (destruct addresses as [|? addresses]; [simpl in Hl; lia|]).
  destruct addresses; [|simpl in Hl; lia]. cbn -[addChecksumBytes words len].
  pose proof (len_nonneg transport).
  rewrite (u16_id (len transport)) by lia.
  pose proof (put16_val (len transport) ltac:(lia)) as Hput.
  pose proof (words_range transport Ht).
  assert (bytes_ok [z; z0; z1; z2; z3; z4; z5; z6; 0; protocol;
                    u8 (len transport ≫ 8); u8 (len transport)]) as Hps.
  { unfold bytes_ok in *. do 8 (apply Forall_cons_1 in Ha as [? Ha]).
    repeat (apply Forall_cons_2; [first [done | apply byte_ok_u8 | unfold byte_ok; lia]|]).
    done. }
  destruct (words_range _ Hps) as [Hr1 Hr2].
  match type of Hr2 with _ <= 65535 * (?n + 1) => change n with 12 in Hr2 end.
  rewrite (addChecksumBytes_words 0) by (done || (change (2 ^ 32) with 4294967296; lia)).
  rewrite addChecksumBytes_words by (done || (change (2 ^ 32) with 4294967296; lia)).
  cbn [words]. lia.
Qed.

(** Writing [c = finishChecksum s] (or 65535 when [c] is 0) into a field that
    contributed nothing to the sum [s] makes the sum verify. *)
Lemma finish_closes s c : 0 < s -> s + 65535 < 2 ^ 32 ->
  c = finishChecksum s \/ c = 65535 /\ finishChecksum s = 0 ->
  finishChecksum (s + c) = 0.
Proof.
  intros Hs Hb Hc. destruct (finishChecksum_spec s ltac:(lia)) as (Hr & [k Hk] & _).
  apply finishChecksum_zero; [lia|]. split; [lia|].
  apply Z.mod_divide; [lia|].
  destruct Hc as [->|[-> E]]; [exists k; lia|]. exists (k + 1). lia.
Qed.

(** Filling a zero 16-bit field at an even offset adds exactly the value written. *)
Lemma words_fill z off c : Nat.Even off -> (off + 2 <= length z)%nat ->
  be16_at z (Z.of_nat off) = 0 -> 0 <= c < 65536 ->
  words (store_bytes z off (BigEndian_PutUint16 c)) = words z + c.
Proof.
  intros He Hl H0 Hc. unfold BigEndian_PutUint16.
  rewrite words_store2 by done. rewrite put16_val, H0 by done. lia.
Qed.

Lemma be16_at_zeroed l off : (off + 2 <= length l)%nat ->
  be16_at (store_bytes l off [0; 0]) (Z.of_nat off) = 0.
Proof.
  intros Hl. unfold be16_at. rewrite !byte_at_store_in by (unfold len; simpl; lia).
  rewrite Z.sub_diag. replace (Z.of_nat off + 1 - Z.of_nat off) with 1 by lia. done.
Qed.

Lemma bytes_ok_put16 v : bytes_ok (BigEndian_PutUint16 v).
Proof. repeat constructor; apply u8_range. Qed.
Lemma bytes_ok_put32 v : bytes_ok (BigEndian_PutUint32 v).
Proof. repeat constructor; apply u8_range. Qed.
Lemma bytes_ok_native32 v : bytes_ok (NativeEndian_PutUint32 v).
Proof. repeat constructor; apply u8_range. Qed.
Lemma bytes_ok_00 : bytes_ok [0; 0].
Proof. repeat constructor; lia. Qed.
#[export] Hint Resolve bytes_ok_put16 bytes_ok_put32 bytes_ok_native32 bytes_ok_00 : bytes.

Lemma words_pos_head l : bytes_ok l -> 0 < byte_at l 0 -> 0 < words l.
Proof.
  intros Hl. unfold byte_at. destruct l as [|b0 [|b1 l]]; simpl; [lia|lia|].
  inversion Hl as [|? ? ? Hl']; subst. inversion Hl'; subst.
  pose proof (words_range l ltac:(done)). unfold byte_ok in *. lia.
Qed.

(** A 20-byte IPv4 header with a zero checksum field verifies once filled. *)
Lemma header_filled_valid z : bytes_ok z -> len z = 20 -> 0 < byte_at z 0 ->
  be16_at z 10 = 0 ->
  checksumValid (store_bytes z 10
    (BigEndian_PutUint16 (finishChecksum (addChecksumBytes 0 z)))) = true.
Proof.
  intros Hz Hl Hb0 H0. pose proof (words_range z Hz) as Hr.
  pose proof (words_pos_head z Hz Hb0) as Hpos. unfold checksumValid.
  rewrite (addChecksumBytes_words 0 z) by (done || (change (2 ^ 32) with 4294967296; lia)).
  rewrite Z.add_0_l.
  destruct (finishChecksum_spec (words z)) as (Hc & _); [change (2 ^ 32) with 4294967296; lia|].
  set (c := finishChecksum (words z)) in *.
  assert (words (store_bytes z 10 (BigEndian_PutUint16 c)) = words z + c) as Hw.
  { apply words_fill; [by exists 5%nat|unfold len in Hl; lia|done|done]. }
  rewrite addChecksumBytes_words;
    [|by auto with bytes|lia|rewrite Hw; change (2 ^ 32) with 4294967296; lia].
  rewrite Hw, Z.add_0_l. apply Z.eqb_eq, finish_closes; [done| |by left].
  change (2 ^ 32) with 4294967296. lia.
Qed.

(** A transport segment with a zero checksum field verifies once filled with the
    computed checksum, or with 65535 when that is zero. *)
Lemma transport_filled_valid addresses protocol u off c :
  bytes_ok addresses -> len addresses = 8 -> 0 < protocol < 256 ->
  bytes_ok u -> len u <= 65535 -> Nat.Even off -> (off + 2 <= length u)%nat ->
  be16_at u (Z.of_nat off) = 0 ->
  c = transportChecksum addresses protocol u \/
    c = 65535 /\ transportChecksum addresses protocol u = 0 ->
  0 <= c < 65536 /\
  transportChecksumValid addresses protocol (store_bytes u off (BigEndian_PutUint16 c)) = true.
Proof.
  intros Ha Hla Hp Hu Hlu He Hoff H0 Hc. pose proof (words_range u Hu) as Hr.
  pose proof (words_range _ Ha) as Hra. pose proof (len_nonneg u).
  set (s := words addresses + protocol + len u + words u).
  assert (0 < s /\ s + 65535 < 2 ^ 32) as [Hs1 Hs2]
    by (unfold s; change (2 ^ 32) with 4294967296; lia).
  assert (transportChecksum addresses protocol u = finishChecksum s) as Hcs.
  { unfold transportChecksum. by rewrite transportChecksumSum_words
      by (done || (unfold byte_ok; lia)). }
  rewrite Hcs in Hc. destruct (finishChecksum_spec s) as (Hr' & _); [lia|].
  assert (0 <= c < 65536) as Hcr by lia. split; [done|].
  pose proof (words_fill u off c He Hoff H0 Hcr) as Hw.
  unfold transportChecksumValid. rewrite transportChecksumSum_words;
    [|done|done|unfold byte_ok; lia|by auto with bytes|rewrite len_store_bytes; lia].
  rewrite len_store_bytes, Hw. apply Z.eqb_eq.
  replace (words addresses + protocol + len u + (words u + c)) with (s + c) by (unfold s; lia).
  by apply finish_closes.
Qed.

(** ** Materialization *)

(** What [MaterializeIPv4UDPChecksums] computes on an admitted packet. *)
Lemma materialize_eq p : bytes_ok p -> fixed_shape p ->
  let h := sub_at p 0 20 in
  let hz := store_bytes h 10 [0; 0] in
  let u := sub_at p 20 (len p - 20) in
  let uz := store_bytes u 6 [0; 0] in
  let c1 := finishChecksum (addChecksumBytes 0 hz) in
  let c2 := transportChecksum (sub_at p 12 8) 17 uz in
  MaterializeIPv4UDPChecksums p =
    Ret (store_bytes (store_bytes (store_bytes (store_bytes p 10 [0; 0]) 10
           (BigEndian_PutUint16 c1)) 26 [0; 0]) 26
           (BigEndian_PutUint16 (if c2 =? 0 then 0xffff else c2))).
Proof.
  intros Hp Hs h hz u uz c1 c2. pose proof Hs as (Hl & _).
  unfold MaterializeIPv4UDPChecksums.
  rewrite (obind_ret_eq _ _ _ (proj2 (fixedIPv4UDP_ret p _ Hp) (conj Hs eq_refl))).
  unfold materializedIPv4HeaderLength.
  rewrite slice_in by len_lia. cbn [obind].
  rewrite slice_in by len_lia. cbn [obind].
  rewrite slice_in by len_lia. cbn [obind].
  rewrite !len_store_bytes, Z.sub_0_r. change (20 - 12) with 8.
  rewrite (sub_at_store_in _ 10 _ 0 20) by len_lia.
  rewrite !(sub_at_store_out _ _ _ 12 8) by len_lia.
  rewrite (sub_at_store_in _ 26 _ 20) by len_lia.
  rewrite !(sub_at_store_out _ 10 _ 20) by len_lia.
  done.
Qed.

(** Admitted packets: materialization succeeds, touches only the two checksum
    fields, and both checksums verify afterwards. *)
Lemma materialize_spec p : bytes_ok p -> fixed_shape p ->
  exists q, MaterializeIPv4UDPChecksums p = Ret q /\ bytes_ok q /\ len q = len p /\
    (forall i, 0 <= i -> i <> 10 -> i <> 11 -> i <> 26 -> i <> 27 -> byte_at q i = byte_at p i) /\
    checksumValid (sub_at q 0 20) = true /\
    transportChecksumValid (sub_at q 12 8) 17 (sub_at q 20 (len q - 20)) = true /\
    be16_at q 26 <> 0.
Proof.
  intros Hp Hs. pose proof Hs as (Hl & H0 & Htl & _).
  pose proof (be16_at_range p 2 Hp).
  eexists. split; [by apply materialize_eq|].
  set (hz := store_bytes (sub_at p 0 20) 10 [0; 0]).
  set (uz := store_bytes (sub_at p 20 (len p - 20)) 6 [0; 0]).
  set (c2 := transportChecksum (sub_at p 12 8) 17 uz).
  set (c2' := if c2 =? 0 then 0xffff else c2).
  pose proof (len_sub_at p 0 20 ltac:(lia) ltac:(lia) ltac:(lia)) as Hlh.
  pose proof (len_sub_at p 20 (len p - 20) ltac:(lia) ltac:(lia) ltac:(lia)) as Hlu.
  assert (bytes_ok hz /\ bytes_ok uz) as [Hhz Huz] by (unfold hz, uz; auto with bytes).
  opose proof* (header_filled_valid hz) as Hh;
    [done|by unfold hz; rewrite len_store_bytes| |by apply be16_at_zeroed; unfold len in Hlh at 1; lia|].
  { unfold hz. rewrite byte_at_store_out, byte_at_sub_at by len_lia.
    change (0 + 0) with 0. lia. }
  destruct (transport_filled_valid (sub_at p 12 8) 17 uz 6 c2') as [Hc Hu];
    [by auto with bytes|by rewrite len_sub_at by lia|lia|done|unfold uz; len_lia|by exists 3%nat
    |unfold uz; rewrite length_store_bytes; unfold len in Hlu at 1; lia
    |apply be16_at_zeroed; unfold len in Hlu at 1; lia
    |unfold c2'; destruct (c2 =? 0) eqn:E; [right; lia|by left]|].
  assert (0 < c2') as Hpos by (unfold c2' in *; destruct (c2 =? 0) eqn:?; lia).
  split; [by auto 10 with bytes|]. split; [by rewrite !len_store_bytes|].
  split; [intros i ?????; rewrite !byte_at_store_out by len_lia; done|].
  rewrite !len_store_bytes. split; [|split].
  - rewrite !(sub_at_store_out _ 26) by len_lia.
    rewrite !(sub_at_store_in _ 10 _ 0 20) by len_lia. done.
  - rewrite !(sub_at_store_out _ _ _ 12 8) by len_lia.
    rewrite !(sub_at_store_in _ 26 _ 20) by len_lia.
    rewrite !(sub_at_store_out _ 10 _ 20) by len_lia. done.
  - unfold be16_at. rewrite !byte_at_store_in by len_lia.
    change (byte_at (BigEndian_PutUint16 c2') (26 - Z.of_nat 26)) with (u8 (Z.shiftr c2' 8)).
    change (byte_at (BigEndian_PutUint16 c2') (26 + 1 - Z.of_nat 26)) with (u8 c2').
    rewrite put16_val by lia. lia.
Qed.

Lemma validatePacketFlow_ret flow :
  validatePacketFlow flow = Ret tt <->
  SK_Generation flow <> 0 /\ SK_LocalIPv4 flow <> 0 /\ SK_RemoteIPv4 flow <> 0 /\
  SK_UnderlayIndex flow <> 0 /\ SK_LocalPort flow <> 0 /\ SK_RemotePort flow <> 0 /\
  SK_WGID flow <> 0 /\ SK_Reserved flow = zeros 4.
Proof.
  unfold validatePacketFlow. split.
  - intros H. go_inv. bool_prop. done.
  - intros (H1 & H2 & H3 & H4 & H5 & H6 & H7 & H8).
    do 7 (rewrite (proj2 (Z.eqb_neq _ _)) by done). by rewrite bool_decide_true.
Qed.

(** The flow's endpoints are those of the packet. *)
Definition endpoints_match (p : list Z) (flow : FakeTCPSessionKey) : Prop :=
  sub_at p 12 4 = NativeEndian_PutUint32 (SK_LocalIPv4 flow) /\
  sub_at p 16 4 = NativeEndian_PutUint32 (SK_RemoteIPv4 flow) /\
  be16_at p 20 = SK_LocalPort flow /\ be16_at p 22 = SK_RemotePort flow.

Lemma ValidateMaterialized_ret p flow : bytes_ok p ->
  ValidateMaterializedIPv4UDP p flow = Ret tt <->
  fixed_shape p /\ validatePacketFlow flow = Ret tt /\ endpoints_match p flow /\
  checksumValid (sub_at p 0 20) = true /\ be16_at p 26 <> 0 /\
  transportChecksumValid (sub_at p 12 8) 17 (sub_at p 20 (len p - 20)) = true.
Proof.
  intros Hp. unfold ValidateMaterializedIPv4UDP, endpoints_match, materializedIPv4HeaderLength.
  split.
  - intros H. apply obind_ret in H as (udp & [Hs ->]%fixedIPv4UDP_ret & H); [|done].
    pose proof Hs as (Hl & _). revert H. go_read. intros H.
    rewrite !(be16_at_sub_at p 20) in H by lia.
    change (16 - 12) with 4 in H. change (20 - 16) with 4 in H. change (20 - 0) with 20 in H.
    change (20 - 12) with 8 in H.
    apply obind_ret in H as ([] & Hf & H). go_inv. bool_prop. auto 10.
  - intros (Hs & Hf & (E1 & E2 & E3 & E4) & Hc & Hn & Ht). pose proof Hs as (Hl & _).
    rewrite (obind_ret_eq _ _ _ (proj2 (fixedIPv4UDP_ret p _ Hp) (conj Hs eq_refl))), Hf.
    cbn [obind]. go_read. rewrite !(be16_at_sub_at p 20) by lia.
    change (16 - 12) with 4. change (20 - 16) with 4. change (20 - 0) with 20.
    change (20 - 12) with 8. rewrite E1, E2, !bool_decide_true by done.
    change (20 + 0) with 20. change (20 + 2) with 22. change (20 + 6) with 26.
    rewrite E3, E4, !Z.eqb_refl, Hc, Ht. simpl.
    by rewrite (proj2 (Z.eqb_neq _ _)).
Qed.

(** A packet agreeing with [p] outside the checksum fields keeps its shape and
    endpoints. *)
Lemma shape_untouched p q flow : len q = len p ->
  (forall i, 0 <= i -> i <> 10 -> i <> 11 -> i <> 26 -> i <> 27 -> byte_at q i = byte_at p i) ->
  fixed_shape p -> endpoints_match p flow -> fixed_shape q /\ endpoints_match q flow.
Proof.
  intros Hlen Hb (H1 & H2 & H3 & H4 & H5 & H6) (E1 & E2 & E3 & E4).
  assert (forall i, 0 <= i -> i + 4 <= len q -> i <> 10 -> i <> 9 -> i <> 8 -> i <> 7 -> i <> 11 ->
    i < 23 -> sub_at q i 4 = sub_at p i 4) as Hsub.
  { intros i Hi Hlq ??????. apply list_eq. intros j. unfold sub_at. rewrite !lookup_take.
    case_decide; [|done]. rewrite !lookup_drop.
    specialize (Hb (i + Z.of_nat j) ltac:(lia) ltac:(lia) ltac:(lia) ltac:(lia) ltac:(lia)).
    unfold byte_at, len in *.
    replace (Z.to_nat (i + Z.of_nat j)) with (Z.to_nat i + j)%nat in Hb by lia.
    destruct (lookup_lt_is_Some_2 q (Z.to_nat i + j)) as [x Hx]; [lia|].
    destruct (lookup_lt_is_Some_2 p (Z.to_nat i + j)) as [y Hy]; [lia|].
    rewrite Hx, Hy in *. by simpl in Hb; subst. }
  unfold fixed_shape, endpoints_match, be16_at in *.
  rewrite !Hsub by lia. rewrite !Hb by lia. by rewrite Hlen.
Qed.

(** ** Properties *)

(** C1: checksum materialization round trip.  Whenever
    [MaterializeIPv4UDPChecksums] accepts a captured packet, the packet it
    leaves behind passes the independent validator
    [ValidateMaterializedIPv4UDP] for every well-formed flow whose endpoints are
    those of the capture: both one's-complement checksums verify and the UDP
    checksum is present. *)
Theorem materialize_then_validate p q flow :
  bytes_ok p ->
  MaterializeIPv4UDPChecksums p = Ret q ->
  validatePacketFlow flow = Ret tt ->
  endpoints_match p flow ->
  ValidateMaterializedIPv4UDP q flow = Ret tt.
Proof.
  intros Hp Hm Hf He.
  assert (fixed_shape p) as Hs.
  { unfold MaterializeIPv4UDPChecksums in Hm. apply obind_ret in Hm as (udp & Hudp & _).
    by apply fixedIPv4UDP_ret in Hudp as [? _]. }
  destruct (materialize_spec p Hp Hs) as (q' & Hm' & Hq & Hlen & Hb & Hc & Ht & Hn).
  rewrite Hm in Hm'. injection Hm' as <-.
  destruct (shape_untouched p q flow Hlen Hb Hs He).
  apply ValidateMaterialized_ret; auto 10.
Qed.

(** A 30-byte capture 10.0.0.1:51820 -> 10.0.0.2:443 with checksum-offload seeds. *)
Definition sample_packet : list Z :=
  [0x45; 0; 0; 30; 0; 0; 0x40; 0; 64; 17; 0xde; 0xad; 10; 0; 0; 1; 10; 0; 0; 2;
   0xca; 0x6c; 1; 0xbb; 0; 10; 0xbe; 0xef; 4; 0].
Definition sample_flow : FakeTCPSessionKey :=
  mkSessionKey 1 (10 + 2 ^ 24) (10 + 2 * 2 ^ 24) 3 51820 443 1 (zeros 4).

Lemma sample_packet_ok : bytes_ok sample_packet.
Proof. repeat (apply Forall_cons_2; [split; lia|]). apply Forall_nil_2. Qed.

Lemma materialize_then_validate_witness :
  exists q, MaterializeIPv4UDPChecksums sample_packet = Ret q /\
            ValidateMaterializedIPv4UDP q sample_flow = Ret tt.
Proof.
  eexists. split; [vm_compute; reflexivity|].
  apply (materialize_then_validate sample_packet);
    [apply sample_packet_ok|vm_compute; reflexivity|vm_compute; reflexivity|].
  repeat split; vm_compute; reflexivity.
Defined.

(** A verifying transport checksum fixes the residue of the word sum. *)
Lemma transportChecksumValid_residue addresses u :
  bytes_ok addresses -> len addresses = 8 -> bytes_ok u -> len u <= 65535 ->
  transportChecksumValid addresses 17 u = true ->
  (words addresses + 17 + len u + words u) mod 65535 = 0.
Proof.
  intros Ha Hla Hu Hlu Hv. unfold transportChecksumValid in Hv. apply Z.eqb_eq in Hv.
  pose proof (words_range _ Hu). pose proof (words_range _ Ha). pose proof (len_nonneg u).
  rewrite transportChecksumSum_words in Hv by (done || (unfold byte_ok; lia)).
  apply finishChecksum_zero in Hv as [_ Hv]; [done|]. change (2 ^ 32) with 4294967296. lia.
Qed.

(** Corruption detection.  If the validator accepts a packet, it rejects
    the packet with any single aligned 16-bit payload word replaced by a word
    whose one's-complement value differs (the all-zero and all-one words are
    the same value in that arithmetic). *)
Theorem validate_detects_word_change p flow off a b :
  bytes_ok p -> ValidateMaterializedIPv4UDP p flow = Ret tt ->
  Nat.Even off -> 28 <= Z.of_nat off -> Z.of_nat off + 2 <= len p ->
  byte_ok a -> byte_ok b ->
  (a * 256 + b) mod 65535 <> be16_at p (Z.of_nat off) mod 65535 ->
  ValidateMaterializedIPv4UDP (store_bytes p off [a; b]) flow <> Ret tt.
Proof.
  intros Hp Hv He Ho Hoff Ha Hb Hne Hv'.
  assert (bytes_ok [a; b]) as Hab by (by repeat constructor; apply Ha || apply Hb).
  apply ValidateMaterialized_ret in Hv as (Hs & _ & _ & _ & _ & Ht); [|done].
  apply ValidateMaterialized_ret in Hv' as (_ & _ & _ & _ & _ & Ht'); [|by auto with bytes].
  destruct Hs as (Hl & _ & Htl & _). pose proof (be16_at_range p 2 Hp).
  rewrite len_store_bytes, sub_at_store_out, sub_at_store_in in Ht' by len_lia.
  apply transportChecksumValid_residue in Ht;
    [|by auto with bytes|rewrite len_sub_at; lia|by auto with bytes|rewrite len_sub_at; lia].
  apply transportChecksumValid_residue in Ht';
    [|by auto with bytes|rewrite len_sub_at; lia|by auto with bytes
     |rewrite len_store_bytes, len_sub_at; lia].
  rewrite len_store_bytes in Ht'. rewrite words_store2 in Ht'.
  - rewrite be16_at_sub_at in Ht' by lia.
    replace (20 + Z.of_nat (off - Z.to_nat 20)) with (Z.of_nat off) in Ht' by lia.
    apply Hne. apply Z.mod_divide in Ht as [k1 Hk1]; [|lia].
    apply Z.mod_divide in Ht' as [k2 Hk2]; [|lia].
    replace (a * 256 + b) with (be16_at p (Z.of_nat off) + (k2 - k1) * 65535) by lia.
    apply Z.mod_add. lia.
  - destruct He as [k Hk]. exists (k - 10)%nat. lia.
  - pose proof (len_sub_at p 20 (len p - 20) ltac:(lia) ltac:(lia) ltac:(lia)).
    unfold len in *. lia.
Qed.

(** The materialized sample, and its last payload word 0x0400 replaced by 0x0401. *)
Definition sample_materialized : list Z :=
  match MaterializeIPv4UDPChecksums sample_packet with Ret q => q | _ => [] end.

Lemma validate_detects_word_change_witness :
  ValidateMaterializedIPv4UDP sample_materialized sample_flow = Ret tt /\
  ValidateMaterializedIPv4UDP (store_bytes sample_materialized 28 [4; 1]) sample_flow <> Ret tt.
Proof.
  split; [vm_compute; reflexivity|].
  apply validate_detects_word_change;
    [|vm_compute; reflexivity|by exists 14%nat|lia|vm_compute; discriminate
     |split; lia|split; lia|vm_compute; discriminate].
  vm_compute. repeat (apply Forall_cons_2; [split; vm_compute; discriminate || reflexivity|]).
  apply Forall_nil_2.
Defined.
