(* ===== verification/L3Parser.v ===== *)
(** * The bounded L3 parser and the managed-ingress classifier
    (internal/faketcp/l3_parser.go, internal/faketcp/ingress_policy.go).

    Every slice access is checked: an out-of-range access yields [Panic], so
    absence of panics is a theorem about the parser and not a modelling choice. *)
From Stdlib Require Import ZArith Lia.
From stdpp Require Import base option list gmap strings numbers.
From S2P Require Import Prelude Checksum.

Inductive L3ParseStatus :=
| L3ParseOK
| L3ParseSafeBypass
| L3ParseTruncated
| L3ParseMalformed
| L3ParseUnsupported
| L3ParseFirstFragment
| L3ParseNonInitialFragment
| L3ParseExtensionTooDeep.

#[export] Instance L3ParseStatus_eq_dec : EqDecision L3ParseStatus.
Proof. solve_decision. Defined.

Definition L3FamilyIPv4 : Z := 4.
Definition L3FamilyIPv6 : Z := 6.
Definition L3ProtocolICMP : Z := 1.
Definition L3ProtocolTCP : Z := 6.
Definition L3ProtocolUDP : Z := 17.
Definition L3ProtocolIPv6 : Z := 41.
Definition L3ProtocolESP : Z := 50.
Definition L3ProtocolAH : Z := 51.
Definition L3ProtocolICMPv6 : Z := 58.
Definition L3ProtocolNone : Z := 59.
Definition l3IPv6HopByHop : Z := 0.
Definition l3IPv6Routing : Z := 43.
Definition l3IPv6Fragment : Z := 44.
Definition l3IPv6Destination : Z := 60.
Definition L3MaxIPv6ExtensionHeaders : Z := 8.
Definition L3MaxIPv6ExtensionBytes : Z := 512.

Definition L3FlagIPv4Options : Z := 1.
Definition L3FlagIPv4DontFragment : Z := 2.
Definition L3FlagMoreFragments : Z := 4.
Definition L3FlagIPv6Extensions : Z := 8.
Definition L3FlagFragment : Z := 16.

Record L3Info := mkL3Info {
  L3Offset : Z;
  L3Length : Z;
  L4Offset : Z;
  L4Length : Z;
  L3HeaderLength : Z;
  L4HeaderLength : Z;
  FragmentOffsetBytes : Z;
  Family : Z;
  TransportProtocol : Z;
  ExtensionCount : Z;
  L3Flags : Z
}.

Definition L3Info_zero : L3Info := mkL3Info 0 0 0 0 0 0 0 0 0 0 0.

(** Field assignments of the local [info] variable. *)
Definition with_Family i v := mkL3Info (L3Offset i) (L3Length i) (L4Offset i) (L4Length i)
  (L3HeaderLength i) (L4HeaderLength i) (FragmentOffsetBytes i) v (TransportProtocol i)
  (ExtensionCount i) (L3Flags i).
Definition with_L3Length i v := mkL3Info (L3Offset i) v (L4Offset i) (L4Length i)
  (L3HeaderLength i) (L4HeaderLength i) (FragmentOffsetBytes i) (Family i) (TransportProtocol i)
  (ExtensionCount i) (L3Flags i).
Definition with_L4 i off n := mkL3Info (L3Offset i) (L3Length i) off n
  (L3HeaderLength i) (L4HeaderLength i) (FragmentOffsetBytes i) (Family i) (TransportProtocol i)
  (ExtensionCount i) (L3Flags i).
Definition with_L3HeaderLength i v := mkL3Info (L3Offset i) (L3Length i) (L4Offset i) (L4Length i)
  v (L4HeaderLength i) (FragmentOffsetBytes i) (Family i) (TransportProtocol i)
  (ExtensionCount i) (L3Flags i).
Definition with_L4HeaderLength i v := mkL3Info (L3Offset i) (L3Length i) (L4Offset i) (L4Length i)
  (L3HeaderLength i) v (FragmentOffsetBytes i) (Family i) (TransportProtocol i)
  (ExtensionCount i) (L3Flags i).
Definition with_FragmentOffsetBytes i v := mkL3Info (L3Offset i) (L3Length i) (L4Offset i) (L4Length i)
  (L3HeaderLength i) (L4HeaderLength i) v (Family i) (TransportProtocol i)
  (ExtensionCount i) (L3Flags i).
Definition with_TransportProtocol i v := mkL3Info (L3Offset i) (L3Length i) (L4Offset i) (L4Length i)
  (L3HeaderLength i) (L4HeaderLength i) (FragmentOffsetBytes i) (Family i) v
  (ExtensionCount i) (L3Flags i).
Definition incr_ExtensionCount i := mkL3Info (L3Offset i) (L3Length i) (L4Offset i) (L4Length i)
  (L3HeaderLength i) (L4HeaderLength i) (FragmentOffsetBytes i) (Family i) (TransportProtocol i)
  (u8 (ExtensionCount i + 1)) (L3Flags i).
Definition or_Flags i v := mkL3Info (L3Offset i) (L3Length i) (L4Offset i) (L4Length i)
  (L3HeaderLength i) (L4HeaderLength i) (FragmentOffsetBytes i) (Family i) (TransportProtocol i)
  (ExtensionCount i) (Z.lor (L3Flags i) v).

(** ** Transport header *)
Definition validateL4 (packet : list Z) (info : L3Info) : outcome (L3Info * L3ParseStatus) :=
  let offset := L4Offset info in
  let length := L4Length info in
  if (offset <? 0) || (length <? 0) || (len packet <? offset) || (len packet - offset <? length)
  then Ret (info, L3ParseTruncated)
  else if TransportProtocol info =? L3ProtocolUDP then
    if length <? 8 then Ret (info, L3ParseMalformed) else
    let! udpLength := Uint16At packet (offset + 4) (offset + 6) in
    if (udpLength <? 8) || negb (udpLength =? length) then Ret (info, L3ParseMalformed)
    else Ret (with_L4HeaderLength info 8, L3ParseOK)
  else if TransportProtocol info =? L3ProtocolTCP then
    if length <? 20 then Ret (info, L3ParseMalformed) else
    let! b := idx packet (offset + 12) in
    let headerLength := Z.shiftr b 4 * 4 in
    if (headerLength <? 20) || (length <? headerLength) then Ret (info, L3ParseMalformed)
    else Ret (with_L4HeaderLength info (u16 headerLength), L3ParseOK)
  else Ret (info, L3ParseUnsupported).

(** ** IPv4 *)
Definition parseIPv4L3 (packet : list Z) : outcome (L3Info * L3ParseStatus) :=
  let info := with_Family L3Info_zero L3FamilyIPv4 in
  if len packet <? 20 then Ret (info, L3ParseTruncated) else
  let! b0 := idx packet 0 in
  let headerLength := Z.land b0 0x0f * 4 in
  if headerLength <? 20 then Ret (info, L3ParseMalformed) else
  if len packet <? headerLength then Ret (info, L3ParseTruncated) else
  let! totalLength := Uint16At packet 2 4 in
  if totalLength <? headerLength then Ret (info, L3ParseMalformed) else
  if len packet <? totalLength then Ret (info, L3ParseTruncated) else
  let info := with_L3Length info (u32 totalLength) in
  let info := with_L3HeaderLength info (u16 headerLength) in
  let info := with_L4 info (u32 headerLength) (u32 (totalLength - headerLength)) in
  let! protocol := idx packet 9 in
  let info := with_TransportProtocol info protocol in
  let info := if 20 <? headerLength then or_Flags info L3FlagIPv4Options else info in
  let! fragment := Uint16At packet 6 8 in
  if negb (Z.land fragment 0x8000 =? 0) then Ret (info, L3ParseMalformed) else
  let info := if negb (Z.land fragment 0x4000 =? 0)
              then or_Flags info L3FlagIPv4DontFragment else info in
  if negb (Z.land fragment 0x4000 =? 0) && negb (Z.land fragment 0x3fff =? 0)
  then Ret (info, L3ParseMalformed) else
  let info := if negb (Z.land fragment 0x2000 =? 0)
              then or_Flags info (Z.lor L3FlagMoreFragments L3FlagFragment) else info in
  let fragmentOffset := Z.land fragment 0x1fff in
  let info := with_FragmentOffsetBytes info (u16 (fragmentOffset * 8)) in
  if negb (fragmentOffset =? 0)
  then Ret (or_Flags info L3FlagFragment, L3ParseNonInitialFragment) else
  if negb (Z.land fragment 0x2000 =? 0) then Ret (info, L3ParseFirstFragment) else
  if TransportProtocol info =? L3ProtocolICMP then Ret (info, L3ParseSafeBypass) else
  if negb (TransportProtocol info =? L3ProtocolTCP) && negb (TransportProtocol info =? L3ProtocolUDP)
  then Ret (info, L3ParseUnsupported) else
  let! view := slice packet 0 totalLength in
  validateL4 view info.

(** ** IPv6: the extension-header loop, [fuel] iterations from [depth] on *)
Fixpoint ipv6_extensions (fuel : nat) (packet : list Z) (totalLength : Z) (info : L3Info)
    (depth nextHeader offset extensionBytes : Z) : outcome (L3Info * L3ParseStatus) :=
  match fuel with
  | O => Ret (info, L3ParseExtensionTooDeep)
  | S fuel =>
    if (nextHeader =? L3ProtocolTCP) || (nextHeader =? L3ProtocolUDP) then
      let info := with_L4 info (u32 offset) (u32 (totalLength - offset)) in
      let info := with_TransportProtocol info nextHeader in
      let! view := slice packet 0 totalLength in
      validateL4 view info
    else if (nextHeader =? L3ProtocolICMPv6) || (nextHeader =? L3ProtocolNone) then
      let info := with_L4 info (u32 offset) (u32 (totalLength - offset)) in
      Ret (with_TransportProtocol info nextHeader, L3ParseSafeBypass)
    else if nextHeader =? l3IPv6Fragment then
      if depth =? L3MaxIPv6ExtensionHeaders then Ret (info, L3ParseExtensionTooDeep) else
      if totalLength - offset <? 8 then Ret (info, L3ParseMalformed) else
      let! fragment := Uint16At packet (offset + 2) (offset + 4) in
      let! reserved := idx packet (offset + 1) in
      if negb (reserved =? 0) || negb (Z.land fragment 0x0006 =? 0)
      then Ret (info, L3ParseMalformed) else
      let info := or_Flags info (Z.lor L3FlagIPv6Extensions L3FlagFragment) in
      let info := incr_ExtensionCount info in
      let! next := idx packet offset in
      let info := with_TransportProtocol info next in
      let info := with_FragmentOffsetBytes info
                    (u16 (Z.shiftr (Z.land fragment 0xfff8) 3 * 8)) in
      let info := if negb (Z.land fragment 1 =? 0)
                  then or_Flags info L3FlagMoreFragments else info in
      if negb (FragmentOffsetBytes info =? 0) then Ret (info, L3ParseNonInitialFragment)
      else Ret (info, L3ParseFirstFragment)
    else if (nextHeader =? l3IPv6HopByHop) || (nextHeader =? l3IPv6Routing)
            || (nextHeader =? l3IPv6Destination) then
      if depth =? L3MaxIPv6ExtensionHeaders then Ret (info, L3ParseExtensionTooDeep) else
      if (nextHeader =? l3IPv6HopByHop) && negb (depth =? 0) then Ret (info, L3ParseMalformed) else
      if totalLength - offset <? 2 then Ret (info, L3ParseMalformed) else
      let! lenByte := idx packet (offset + 1) in
      let extensionLength := (lenByte + 1) * 8 in
      if (extensionLength <? 8) || (totalLength - offset <? extensionLength)
      then Ret (info, L3ParseMalformed) else
      let extensionBytes := extensionBytes + extensionLength in
      if L3MaxIPv6ExtensionBytes <? extensionBytes
      then Ret (info, L3ParseExtensionTooDeep) else
      let info := or_Flags info L3FlagIPv6Extensions in
      let info := incr_ExtensionCount info in
      let! next := idx packet offset in
      ipv6_extensions fuel packet totalLength info (depth + 1) next
        (offset + extensionLength) extensionBytes
    else if nextHeader =? L3ProtocolAH then
      if depth =? L3MaxIPv6ExtensionHeaders then Ret (info, L3ParseExtensionTooDeep) else
      if totalLength - offset <? 2 then Ret (info, L3ParseMalformed) else
      let! lenByte := idx packet (offset + 1) in
      let extensionLength := (lenByte + 2) * 4 in
      if (extensionLength <? 12) || (totalLength - offset <? extensionLength)
      then Ret (info, L3ParseMalformed) else
      let info := or_Flags info L3FlagIPv6Extensions in
      let info := incr_ExtensionCount info in
      Ret (with_TransportProtocol info nextHeader, L3ParseUnsupported)
    else Ret (with_TransportProtocol info nextHeader, L3ParseUnsupported)
  end.

Definition parseIPv6L3 (packet : list Z) : outcome (L3Info * L3ParseStatus) :=
  let info := with_Family L3Info_zero L3FamilyIPv6 in
  if len packet <? 40 then Ret (info, L3ParseTruncated) else
  let! payloadLength := Uint16At packet 4 6 in
  let totalLength := 40 + payloadLength in
  if len packet <? totalLength then Ret (info, L3ParseTruncated) else
  let info := with_L3Length info (u32 totalLength) in
  let info := with_L3HeaderLength info 40 in
  let! nextHeader := idx packet 6 in
  if payloadLength =? 0 then
    if nextHeader =? L3ProtocolNone
    then Ret (with_TransportProtocol info nextHeader, L3ParseSafeBypass)
    else Ret (info, L3ParseUnsupported)
  else ipv6_extensions 9 packet totalLength info 0 nextHeader 40 0.

Definition ParseL3 (packet : list Z) : outcome (L3Info * L3ParseStatus) :=
  if len packet =? 0 then Ret (L3Info_zero, L3ParseTruncated) else
  let! b0 := idx packet 0 in
  if Z.shiftr b0 4 =? L3FamilyIPv4 then parseIPv4L3 packet
  else if Z.shiftr b0 4 =? L3FamilyIPv6 then parseIPv6L3 packet
  else Ret (L3Info_zero, L3ParseMalformed).

(** ** Managed ingress policy *)
Inductive IngressDisposition := IngressPass | IngressDecodeIPv4 | IngressDrop.

#[export] Instance IngressDisposition_eq_dec : EqDecision IngressDisposition.
Proof. solve_decision. Defined.

Record ManagedIngressPolicy := mkPolicy {
  InterfaceManaged : bool;
  Ports : gset Z
}.

Definition managedIngressPort (policy : ManagedIngressPolicy) (port : Z) : bool :=
  bool_decide (port ∈ Ports policy).

Definition managedFakeTCPTransformStatus (info : L3Info) (transport : Z) : L3ParseStatus :=
  if negb (Family info =? L3FamilyIPv4) || negb (L3HeaderLength info =? 20)
     || negb (TransportProtocol info =? transport)
  then L3ParseUnsupported
  else if (transport =? L3ProtocolUDP) && (L4HeaderLength info =? 8)
          || (transport =? L3ProtocolTCP) && (L4HeaderLength info =? 20)
  then L3ParseOK
  else L3ParseUnsupported.

Definition managedFakeTCPDisposition (l3 : list Z) (info : L3Info) (status : L3ParseStatus)
    (policy : ManagedIngressPolicy) : outcome IngressDisposition :=
  if bool_decide (status = L3ParseSafeBypass) then Ret IngressPass
  else if negb (bool_decide (status = L3ParseOK)) then
    Ret (if InterfaceManaged policy then IngressDrop else IngressPass)
  else
    let l4Offset := L4Offset info in
    if len l3 - 4 <? l4Offset then
      Ret (if InterfaceManaged policy then IngressDrop else IngressPass)
    else
      let! port := Uint16At l3 (l4Offset + 2) (l4Offset + 4) in
      if negb (managedIngressPort policy port) then Ret IngressPass
      else if negb (bool_decide
        (managedFakeTCPTransformStatus info (TransportProtocol info) = L3ParseOK))
      then Ret IngressDrop
      else if TransportProtocol info =? L3ProtocolUDP then Ret IngressDrop
      else Ret IngressDecodeIPv4.

Definition etherTypeIPv4 : Z := 0x0800.
Definition etherTypeIPv6 : Z := 0x86dd.
Definition etherTypeVLAN : Z := 0x8100.
Definition etherTypeQinQ : Z := 0x88a8.

Definition is_vlan_tag (etherType : Z) : bool :=
  (etherType =? etherTypeVLAN) || (etherType =? etherTypeQinQ).

(** The VLAN loop: at most two tags; [None] when a tag is truncated. *)
Fixpoint skip_vlan_tags (depth : nat) (frame : list Z) (offset etherType : Z)
    : outcome (option (Z * Z)) :=
  match depth with
  | O => Ret (Some (offset, etherType))
  | S depth =>
      if negb (is_vlan_tag etherType) then Ret (Some (offset, etherType))
      else if len frame <? offset + 4 then Ret None
      else let! next := Uint16At frame (offset + 2) (offset + 4) in
           skip_vlan_tags depth frame (offset + 4) next
  end.

Definition ClassifyManagedIngressFrame (frame : list Z) (policy : ManagedIngressPolicy)
    : outcome IngressDisposition :=
  if len frame <? 14
  then managedFakeTCPDisposition [] L3Info_zero L3ParseTruncated policy
  else
    let! etherType := Uint16At frame 12 14 in
    let! tags := skip_vlan_tags 2 frame 14 etherType in
    match tags with
    | None => managedFakeTCPDisposition [] L3Info_zero L3ParseTruncated policy
    | Some (offset, etherType) =>
        if is_vlan_tag etherType
        then managedFakeTCPDisposition [] L3Info_zero L3ParseUnsupported policy
        else if negb (etherType =? etherTypeIPv4) && negb (etherType =? etherTypeIPv6)
        then Ret IngressPass
        else
          let! l3 := slice frame offset (len frame) in
          let! (info, status) := ParseL3 l3 in
          managedFakeTCPDisposition l3 info status policy
    end.

(** ** What an authorizing result guarantees *)

(** Offsets and lengths proven against the declared L3 length and the bytes
    supplied; only such a result authorizes port access. *)
Record l3_bounds (p : list Z) (i : L3Info) : Prop := {
  lb_total : L3Length i <= len p;
  lb_split : L4Offset i + L4Length i = L3Length i;
  lb_header : 20 <= L3HeaderLength i <= L4Offset i;
  lb_family : Family i = 4 /\ L3HeaderLength i = L4Offset i /\ L4Offset i <= 60 \/
              Family i = 6 /\ L3HeaderLength i = 40 /\ L4Offset i <= 40 + 512;
  lb_extensions : 0 <= ExtensionCount i <= 8;
  lb_no_fragment : FragmentOffsetBytes i = 0;
  lb_transport :
    TransportProtocol i = L3ProtocolTCP /\ 20 <= L4HeaderLength i <= L4Length i /\
      L4HeaderLength i <= 60 \/
    TransportProtocol i = L3ProtocolUDP /\ L4HeaderLength i = 8 /\ 8 <= L4Length i /\
      be16_at p (L4Offset i + 4) = L4Length i
}.

(** The invariant of [info] when the transport header is examined. *)
Record l4_ready (p : list Z) (i : L3Info) : Prop := {
  lr_total : L3Length i <= len p;
  lr_split : L4Offset i + L4Length i = L3Length i;
  lr_header : 20 <= L3HeaderLength i <= L4Offset i;
  lr_l4 : 0 <= L4Length i;
  lr_family : Family i = 4 /\ L3HeaderLength i = L4Offset i /\ L4Offset i <= 60 \/
              Family i = 6 /\ L3HeaderLength i = 40 /\ L4Offset i <= 40 + 512;
  lr_extensions : 0 <= ExtensionCount i <= 8;
  lr_no_fragment : FragmentOffsetBytes i = 0
}.

Definition ok_post (p : list Z) (r : L3Info * L3ParseStatus) : Prop :=
  snd r = L3ParseOK -> l3_bounds p (fst r).

Lemma nibble_high b : byte_ok b -> 0 <= Z.shiftr b 4 <= 15.
Proof.
  intros Hb. rewrite Z.shiftr_div_pow2 by lia. unfold byte_ok in *.
  change (2 ^ 4) with 16. Z.div_mod_to_equations. lia.
Qed.
Lemma nibble_low b : 0 <= Z.land b 0x0f <= 15.
Proof.
  pose proof (Z.land_ones b 4 ltac:(lia)) as E. change (Z.ones 4) with 0x0f in E.
  pose proof (Z.mod_pos_bound b (2 ^ 4) ltac:(lia)). lia.
Qed.

Ltac status_done := unfold ok_post; intros; simplify_eq/=; try done.

Lemma validateL4_spec p i : bytes_ok p -> l4_ready p i ->
  returns (validateL4 (sub_at p 0 (L3Length i)) i) (ok_post p).
Proof.
  intros Hp [Ht Hs Hh Hl Hf He Hfr]. unfold validateL4, L3ProtocolUDP, L3ProtocolTCP.
  rewrite len_sub_at by lia.
  apply returns_if; [status_done|intros E0].
  apply returns_if; intros Eu.
  - apply returns_if; [status_done|intros E1]. go_read.
    apply returns_if; [status_done|intros E2]. intros _. simpl in *.
    rewrite be16_at_sub_at in E2 by lia. bool_prop. split; simpl; auto.
    right. unfold L3ProtocolUDP. rewrite Z.add_0_l in *. lia.
  - apply returns_if; intros Et; [|status_done].
    apply returns_if; [status_done|intros E1].
    rewrite idx_in by (rewrite len_sub_at; lia). cbn [obind].
    rewrite byte_at_sub_at by lia.
    pose proof (nibble_high _ (byte_at_ok p (0 + (L4Offset i + 12)) Hp)).
    apply returns_if; [status_done|intros E2]. intros _. simpl in *.
    split; simpl; auto. left. unfold L3ProtocolTCP. rewrite u16_id by lia. lia.
Qed.

(** Invariant of the extension-header loop: the cursor stays inside the
    declared length and its distance from the fixed header is the extension
    budget already spent. *)
Record ext_inv (p : list Z) (total : Z) (i : L3Info) (depth offset ext : Z) : Prop := {
  ei_total : total <= len p /\ total < 2 ^ 32;
  ei_cursor : offset = 40 + ext /\ offset <= total;
  ei_budget : 0 <= ext <= L3MaxIPv6ExtensionBytes;
  ei_depth : ExtensionCount i = depth /\ 0 <= depth <= 8;
  ei_info : Family i = 6 /\ L3HeaderLength i = 40 /\ FragmentOffsetBytes i = 0 /\
            L3Length i = total
}.

Lemma ext_inv_ready p total i depth offset ext nh :
  ext_inv p total i depth offset ext ->
  l4_ready p (with_TransportProtocol (with_L4 i (u32 offset) (u32 (total - offset))) nh).
Proof.
  intros [[Ht1 Ht2] [-> Hc] Hb [<- Hd] (Hf & Hh & Hfr & Hlen)].
  unfold L3MaxIPv6ExtensionBytes in *.
  rewrite !u32_id by lia. split; simpl; lia.
Qed.

Lemma ipv6_extensions_spec fuel p total i depth nh offset ext :
  bytes_ok p -> ext_inv p total i depth offset ext -> depth = 9 - Z.of_nat fuel ->
  returns (ipv6_extensions fuel p total i depth nh offset ext) (ok_post p).
Proof.
  intros Hp. revert i depth nh offset ext.
  induction fuel as [|fuel IH]; intros i depth nh offset ext Hi Hdep; [status_done|].
  pose proof (ext_inv_ready p total i depth offset ext nh Hi) as Hready.
  destruct Hi as [[Ht1 Ht2] [Hc1 Hc2] Hb [Hd1 Hd2] (Hf & Hh & Hfr & Hlen)].
  unfold L3MaxIPv6ExtensionBytes in *. cbn [ipv6_extensions].
  apply returns_if; intros E1.
  { rewrite slice_in by lia. cbn [obind]. rewrite Z.sub_0_r.
    pose proof (validateL4_spec p _ Hp Hready) as Hv. simpl in Hv. by rewrite Hlen in Hv. }
  apply returns_if; intros E2; [status_done|].
  apply returns_if; intros E3.
  { apply returns_if; [status_done|intros E4]. apply returns_if; [status_done|intros E5].
    go_read. apply returns_if; [status_done|intros E6].
    apply returns_if; status_done. }
  apply returns_if; intros E4.
  { apply returns_if; [status_done|intros E5]. apply returns_if; [status_done|intros E6].
    apply returns_if; [status_done|intros E7]. go_read.
    pose proof (byte_at_ok p (offset + 1) Hp) as Hby. unfold byte_ok in Hby.
    apply returns_if; [status_done|intros E8]. apply returns_if; [status_done|intros E9].
    unfold L3MaxIPv6ExtensionBytes, L3MaxIPv6ExtensionHeaders in *.
    go_read. apply IH; [|lia].
    split; simpl; unfold L3MaxIPv6ExtensionBytes; rewrite ?u8_id by lia; lia. }
  apply returns_if; intros E5.
  { apply returns_if; [status_done|intros E6]. apply returns_if; [status_done|intros E7].
    go_read. apply returns_if; status_done. }
  status_done.
Qed.

Lemma parseIPv6L3_spec p : bytes_ok p -> returns (parseIPv6L3 p) (ok_post p).
Proof.
  intros Hp. unfold parseIPv6L3. apply returns_if; [status_done|intros E1]. go_read.
  pose proof (be16_at_range p 4 Hp). apply returns_if; [status_done|intros E2]. go_read.
  apply returns_if; intros E3; [apply returns_if; status_done|].
  apply ipv6_extensions_spec; [done| |done].
  split; simpl; unfold L3MaxIPv6ExtensionBytes, L3FamilyIPv6; rewrite ?u32_id by lia; lia.
Qed.

Lemma parseIPv4L3_spec p : bytes_ok p -> returns (parseIPv4L3 p) (ok_post p).
Proof.
  intros Hp. unfold parseIPv4L3. apply returns_if; [status_done|intros E1]. go_read.
  pose proof (nibble_low (byte_at p 0)). set (hl := Z.land (byte_at p 0) 15 * 4) in *.
  pose proof (be16_at_range p 2 Hp).
  apply returns_if; [status_done|intros E2]. apply returns_if; [status_done|intros E3].
  go_read. apply returns_if; [status_done|intros E4]. apply returns_if; [status_done|intros E5].
  go_read. apply returns_if; [status_done|intros E6]. apply returns_if; [status_done|intros E7].
  apply returns_if; [status_done|intros E8]. apply returns_if; [status_done|intros E9].
  apply returns_if; [status_done|intros E10]. apply returns_if; [status_done|intros E11].
  go_read. rewrite Z.sub_0_r. bool_prop.
  match goal with |- returns (validateL4 _ ?i) _ =>
    pose proof (validateL4_spec p i Hp) as Hv; set (i' := i) in * end.
  assert (L3Length i' = be16_at p 2) as El.
  { unfold i'. repeat case_match; simpl; apply u32_id; lia. }
  rewrite El in Hv. apply Hv. clear Hv El. unfold i'.
  split; repeat case_match; simpl; unfold L3FamilyIPv4;
    rewrite ?u32_id, ?(u16_id hl) by lia; try lia;
    match goal with H : Z.land _ 8191 = 0 |- _ => by rewrite H end.
Qed.

Lemma ParseL3_spec p : bytes_ok p -> returns (ParseL3 p) (ok_post p).
Proof.
  intros Hp. unfold ParseL3. apply returns_if; [status_done|intros E1].
  pose proof (len_nonneg p). go_read.
  apply returns_if; intros ?; [by apply parseIPv4L3_spec|].
  apply returns_if; intros ?; [by apply parseIPv6L3_spec|status_done].
Qed.

(** ** The IPv4 shape accepted for FakeTCP decoding, in raw bytes *)

(** A complete, unfragmented IPv4 packet with a 20-byte header carrying a TCP
    segment with a 20-byte header. *)
Definition managed_tcp_shape (l3 : list Z) : Prop :=
  byte_at l3 0 = 0x45 /\ 40 <= be16_at l3 2 <= len l3 /\
  Z.land (be16_at l3 6) 0xbfff = 0 /\ byte_at l3 9 = 6 /\ Z.shiftr (byte_at l3 32) 4 = 5.

(** Splitting the fragment word of the IPv4 header. *)
Lemma fragment_bits f : 0 <= f < 65536 ->
  Z.land f 0xbfff = 0 <->
  Z.land f 0x8000 = 0 /\ Z.land f 0x2000 = 0 /\ Z.land f 0x1fff = 0.
Proof.
  intros Hf. change 0xbfff with (Z.lor (Z.lor 0x8000 0x2000) 0x1fff).
  rewrite !Z.land_lor_distr_r, !Z.lor_eq_0_iff. tauto.
Qed.

Lemma dont_fragment_bits f : 0 <= f < 65536 ->
  Z.land f 0x3fff = 0 <-> Z.land f 0x2000 = 0 /\ Z.land f 0x1fff = 0.
Proof.
  intros Hf. change 0x3fff with (Z.lor 0x2000 0x1fff).
  rewrite !Z.land_lor_distr_r, !Z.lor_eq_0_iff. tauto.
Qed.

(** The narrow mapper accepts exactly the fixed-header TCP and UDP results. *)
Lemma transform_ok i : TransportProtocol i = 6 ->
  managedFakeTCPTransformStatus i (TransportProtocol i) = L3ParseOK <->
  Family i = 4 /\ L3HeaderLength i = 20 /\ L4HeaderLength i = 20.
Proof.
  intros E. unfold managedFakeTCPTransformStatus, L3FamilyIPv4, L3ProtocolUDP, L3ProtocolTCP.
  rewrite E, Z.eqb_refl. simpl. split.
  - repeat case_match; try done. bool_prop. lia.
  - intros (-> & -> & ->). done.
Qed.

(** Discards a branch that returns another status. *)
Ltac skip_if :=
  match goal with
  | |- (if ?b then Ret (_, _) else _) = _ -> _ =>
      let E := fresh "E" in destruct b eqn:E; [by intros|]
  end.

(** A TCP result of the transport step, read back from the bytes. *)
Lemma validateL4_tcp v info i : bytes_ok v -> validateL4 v info = Ret (i, L3ParseOK) ->
  TransportProtocol i = 6 ->
  TransportProtocol info = 6 /\ L4Offset i = L4Offset info /\
  L3HeaderLength i = L3HeaderLength info /\ 20 <= L4Length info /\
  L4HeaderLength i = Z.shiftr (byte_at v (L4Offset info + 12)) 4 * 4.
Proof.
  intros Hv. unfold validateL4, L3ProtocolUDP, L3ProtocolTCP. skip_if.
  destruct (TransportProtocol info =? 17) eqn:Eu.
  { skip_if. go_read. skip_if. intros. simplify_eq/=. lia. }
  destruct (TransportProtocol info =? 6) eqn:Et; [|by intros]. skip_if. go_read. skip_if.
  intros. simplify_eq/=.
  pose proof (nibble_high _ (byte_at_ok v (L4Offset info + 12) Hv)).
  rewrite u16_id by lia. lia.
Qed.

(** [parseIPv4L3] authorizes a fixed-header TCP packet exactly when its bytes
    have the managed shape. *)
Lemma parseIPv4_tcp_sound p i : bytes_ok p -> parseIPv4L3 p = Ret (i, L3ParseOK) ->
  TransportProtocol i = 6 -> L3HeaderLength i = 20 -> L4HeaderLength i = 20 ->
  Z.shiftr (byte_at p 0) 4 = 4 -> managed_tcp_shape p /\ L4Offset i = 20.
Proof.
  intros Hp H Etcp E3 E4 Ev. revert H. unfold parseIPv4L3. skip_if. go_read.
  pose proof (nibble_low (byte_at p 0)).
  set (hl := Z.land (byte_at p 0) 15 * 4) in *. pose proof (be16_at_range p 2 Hp).
  pose proof (be16_at_range p 6 Hp) as Hfr.
  do 2 skip_if. go_read. do 2 skip_if. go_read. do 4 skip_if.
  match goal with |- context [TransportProtocol ?x =? L3ProtocolICMP] => set (info := x) in * end.
  assert (TransportProtocol info = byte_at p 9 /\ L3HeaderLength info = hl /\
          L4Offset info = hl /\ L4Length info = be16_at p 2 - hl) as (Ep & Eh & Eo & Ell).
  { unfold info. repeat case_match; simpl; rewrite ?u16_id, ?u32_id by lia; done. }
  do 2 skip_if. go_read. rewrite Z.sub_0_r.
  intros (Et & Eoi & Ehi & Elen & Eh4)%validateL4_tcp; [|by auto with bytes|done].
  rewrite Eo in *. bool_prop. assert (hl = 20) as Ehl by lia. rewrite Ehl in *.
  rewrite byte_at_sub_at in Eh4 by lia. replace (0 + (20 + 12)) with 32 in Eh4 by lia.
  unfold managed_tcp_shape. rewrite (fragment_bits _ Hfr). repeat split; try lia.
  apply nibbles; [by apply byte_at_ok|done|done].
Qed.

Lemma parseIPv4_tcp_complete p : bytes_ok p -> managed_tcp_shape p ->
  parseIPv4L3 p = Ret (mkL3Info 0 (be16_at p 2) 20 (be16_at p 2 - 20) 20 20 0 4 6 0
    (if Z.land (be16_at p 6) 0x4000 =? 0 then 0 else L3FlagIPv4DontFragment), L3ParseOK).
Proof.
  intros Hp (E0 & El & Ef & Ep & Ed). pose proof (be16_at_range p 6 Hp) as Hfr.
  pose proof (be16_at_range p 2 Hp).
  apply (fragment_bits _ Hfr) in Ef as (F1 & F2 & F3).
  pose proof (proj2 (dont_fragment_bits _ Hfr) (conj F2 F3)) as F4.
  unfold parseIPv4L3. rewrite (proj2 (Z.ltb_ge (len p) 20)) by lia. go_read.
  rewrite E0, Ep. change (Z.land 69 15 * 4) with 20. simpl.
  rewrite (proj2 (Z.ltb_ge (len p) 20)) by lia. go_read.
  rewrite (proj2 (Z.ltb_ge _ 20)) by lia. rewrite (proj2 (Z.ltb_ge (len p) _)) by lia. go_read.
  rewrite F1, F2, F3, F4. simpl. rewrite andb_false_r.
  rewrite (u32_id (be16_at p 2)), (u32_id (be16_at p 2 - 20)) by lia.
  destruct (Z.land (be16_at p 6) 16384 =? 0); simpl; go_read; rewrite Z.sub_0_r;
    unfold validateL4; simpl; rewrite len_sub_at by lia;
    change (u32 20) with 20; change (u16 20) with 20; simpl;
    rewrite (proj2 (Z.ltb_ge (be16_at p 2 - 20) 0)), (proj2 (Z.ltb_ge (be16_at p 2) 20)),
      (proj2 (Z.ltb_ge (be16_at p 2 - 20) (be16_at p 2 - 20))),
      (proj2 (Z.ltb_ge (be16_at p 2 - 20) 20)) by lia; simpl; go_read;
    rewrite byte_at_sub_at by lia; change (0 + (20 + 12)) with 32; rewrite Ed; simpl;
    change (5 * 4) with 20; rewrite ?(proj2 (Z.ltb_ge (be16_at p 2 - 20) 20)) by lia; done.
Qed.

Lemma validateL4_family v i r : validateL4 v i = Ret r -> Family (fst r) = Family i.
Proof.
  unfold validateL4. intros H.
  repeat (case_match; simplify_eq/=; try done); go_inv;
    repeat (case_match; simplify_eq/=; try done).
Qed.

Lemma ipv6_family fuel p total i depth nh off ext r :
  ipv6_extensions fuel p total i depth nh off ext = Ret r -> Family (fst r) = Family i.
Proof.
  revert i depth nh off ext. induction fuel as [|fuel IH]; intros i depth nh off ext H;
    cbn [ipv6_extensions] in H; [by simplify_eq|].
  repeat first
  [ progress simplify_eq
  | progress go_inv
  | match type of H with (if ?b then _ else _) = _ => destruct b end
  | match type of H with validateL4 _ _ = _ => apply validateL4_family in H; by rewrite H end
  | match type of H with ipv6_extensions _ _ _ _ _ _ _ _ = _ => apply IH in H; by rewrite H end ];
  repeat case_match; done.
Qed.

Lemma parseIPv6_family p i st : parseIPv6L3 p = Ret (i, st) -> Family i = 6.
Proof.
  unfold parseIPv6L3. intros H.
  repeat first
  [ progress simplify_eq
  | progress go_inv
  | match type of H with (if ?b then _ else _) = _ => destruct b end ]; try done.
  by apply ipv6_family in H.
Qed.

(** [ParseL3] yields a decodable FakeTCP result exactly on the managed shape. *)
Lemma ParseL3_decodable p : bytes_ok p -> 0 < len p ->
  (exists i, ParseL3 p = Ret (i, L3ParseOK) /\ TransportProtocol i = 6 /\
     managedFakeTCPTransformStatus i (TransportProtocol i) = L3ParseOK) <->
  managed_tcp_shape p.
Proof.
  intros Hp Hl. unfold ParseL3. rewrite (proj2 (Z.eqb_neq (len p) 0)) by lia. go_read.
  unfold L3FamilyIPv4, L3FamilyIPv6. split.
  - intros (i & H & Et & Htr). apply (transform_ok i Et) in Htr as (Ef & E3 & E4).
    destruct (_ =? 4) eqn:E.
    + apply Z.eqb_eq in E. by eapply parseIPv4_tcp_sound in H as [? _].
    + destruct (_ =? 6); [|by simplify_eq]. apply parseIPv6_family in H. lia.
  - intros Hs. pose proof Hs as (E0 & _). rewrite E0. change (Z.shiftr 69 4 =? 4) with true.
    eexists. split; [by apply parseIPv4_tcp_complete|]. split; [done|].
    by apply transform_ok.
Qed.

(** The L3 view a frame resolves to: the offset behind at most two VLAN tags,
    when the resulting EtherType announces IP. *)
Definition frame_l3 (frame : list Z) : option (list Z) :=
  if len frame <? 14 then None else
  match (let! t := Uint16At frame 12 14 in skip_vlan_tags 2 frame 14 t) with
  | Ret (Some (offset, etherType)) =>
      if (etherType =? etherTypeIPv4) || (etherType =? etherTypeIPv6)
      then Some (sub_at frame offset (len frame - offset)) else None
  | _ => None
  end.

Lemma skip_vlan_spec depth frame offset t : bytes_ok frame ->
  0 <= offset <= len frame ->
  returns (skip_vlan_tags depth frame offset t)
    (fun r => match r with Some (o, _) => offset <= o <= len frame | None => True end).
Proof.
  intros Hf. revert offset t. induction depth as [|depth IH]; intros offset t Ho; simpl; [lia|].
  apply returns_if; intros E1; [simpl; lia|]. apply returns_if; intros E2; [done|]. go_read.
  eapply returns_mono; [apply IH; lia|]. intros [[o t']|]; lia || done.
Qed.

Lemma tag_not_ip t : is_vlan_tag t = true ->
  (t =? etherTypeIPv4) || (t =? etherTypeIPv6) = false.
Proof.
  unfold is_vlan_tag, etherTypeVLAN, etherTypeQinQ, etherTypeIPv4, etherTypeIPv6. lia.
Qed.

(** The classifier reduces to the policy mapper on the resolved L3 view; with no
    view it never decodes. *)
Lemma classify_eq frame policy : bytes_ok frame ->
  match frame_l3 frame with
  | Some l3 => bytes_ok l3 /\ ClassifyManagedIngressFrame frame policy =
      (let! (info, status) := ParseL3 l3 in managedFakeTCPDisposition l3 info status policy)
  | None => ClassifyManagedIngressFrame frame policy = Ret IngressPass \/
            ClassifyManagedIngressFrame frame policy = Ret IngressDrop
  end.
Proof.
  intros Hf. unfold frame_l3, ClassifyManagedIngressFrame.
  destruct (len frame <? 14) eqn:E0.
  { unfold managedFakeTCPDisposition. simpl. destruct (InterfaceManaged policy); auto. }
  go_read.
  destruct (returns_elim _ _ (skip_vlan_spec 2 frame 14 (be16_at frame 12) Hf ltac:(lia)))
    as ([[o t]|] & -> & Ho); simpl.
  2: { unfold managedFakeTCPDisposition. simpl. destruct (InterfaceManaged policy); auto. }
  destruct (is_vlan_tag t) eqn:Et.
  { rewrite (tag_not_ip _ Et). unfold managedFakeTCPDisposition. simpl.
    destruct (InterfaceManaged policy); auto. }
  destruct (t =? etherTypeIPv4), (t =? etherTypeIPv6); simpl; try (by left);
    (rewrite slice_in by lia; split; [by auto with bytes|done]).
Qed.

(** The policy mapper on an authorizing result. *)
Lemma disposition_ok l3 i policy : bytes_ok l3 -> l3_bounds l3 i ->
  managedFakeTCPDisposition l3 i L3ParseOK policy =
    Ret (if negb (managedIngressPort policy (be16_at l3 (L4Offset i + 2))) then IngressPass
         else if bool_decide (managedFakeTCPTransformStatus i (TransportProtocol i) = L3ParseOK)
                 && (TransportProtocol i =? 6)
         then IngressDecodeIPv4 else IngressDrop).
Proof.
  intros Hl Hb. unfold managedFakeTCPDisposition. rewrite bool_decide_false by done.
  rewrite bool_decide_true by done. simpl.
  pose proof (lb_total _ _ Hb). pose proof (lb_split _ _ Hb). pose proof (lb_header _ _ Hb).
  pose proof (lb_transport _ _ Hb) as Ht. unfold L3ProtocolTCP, L3ProtocolUDP in *.
  rewrite (proj2 (Z.ltb_ge (len l3 - 4) _)) by lia. go_read.
  destruct (managedIngressPort _ _); simpl; [|done]. case_bool_decide; simpl; [|done].
  destruct Ht as [(-> & _)|(-> & _)]; done.
Qed.

(** ** Properties *)

(** C3: parser safety.  On every byte string the parser terminates without an
    out-of-bounds access, and whenever it authorizes transport access
    ([L3ParseOK]) all offsets and lengths it reports lie inside the declared L3
    length and inside the supplied bytes, the packet is not a fragment, the
    transport header fits, a UDP length field equals the L4 length, and the
    IPv6 extension chain stayed within 8 headers and 512 bytes. *)
Theorem ParseL3_safe p : bytes_ok p ->
  exists i st, ParseL3 p = Ret (i, st) /\ (st = L3ParseOK -> l3_bounds p i).
Proof.
  intros Hp. destruct (returns_elim _ _ (ParseL3_spec p Hp)) as ([i st] & -> & H).
  exists i, st. auto.
Qed.

(** IPv6 + hop-by-hop + UDP with a 4-byte payload. *)
Definition sample_ipv6 : list Z :=
  [0x60; 0; 0; 0; 0; 20; 0; 64] ++ replicate 32 1 ++
  [17; 0; 0; 0; 0; 0; 0; 0] ++ [0; 53; 0; 53; 0; 12; 0; 0; 1; 2; 3; 4].

Lemma ParseL3_safe_witness :
  ParseL3 sample_ipv6 = Ret (mkL3Info 0 60 48 12 40 8 0 6 17 1 8, L3ParseOK) /\
  l3_bounds sample_ipv6 (mkL3Info 0 60 48 12 40 8 0 6 17 1 8).
Proof.
  assert (bytes_ok sample_ipv6) as Hb
    by (repeat (apply Forall_cons_2; [split; lia|]); apply Forall_nil_2).
  destruct (ParseL3_safe sample_ipv6 Hb) as (i & st & E & H).
  assert (ParseL3 sample_ipv6 = Ret (mkL3Info 0 60 48 12 40 8 0 6 17 1 8, L3ParseOK)) as E'
    by (vm_compute; reflexivity).
  split; [exact E'|]. rewrite E in E'. injection E' as -> ->. by apply H.
Defined.

(** C4: exact decode admission.  A frame is handed to the FakeTCP decoder if
    and only if, behind at most two VLAN tags and an IP EtherType, its bytes are
    a complete, unfragmented IPv4/TCP packet with 20-byte IPv4 and TCP headers
    whose destination port is a managed port. *)
Theorem classify_decode_exact frame policy : bytes_ok frame ->
  ClassifyManagedIngressFrame frame policy = Ret IngressDecodeIPv4 <->
  exists l3, frame_l3 frame = Some l3 /\ managed_tcp_shape l3 /\ be16_at l3 22 ∈ Ports policy.
Proof.
  intros Hf. pose proof (classify_eq frame policy Hf) as Hc.
  destruct (frame_l3 frame) as [l3|];
    [|split; [intros H; rewrite H in Hc; by destruct Hc|by intros (? & ? & _)]].
  destruct Hc as [Hl ->].
  destruct (returns_elim _ _ (ParseL3_spec l3 Hl)) as ([i st] & E & Hok). rewrite E. cbn [obind].
  unfold ok_post in Hok. simpl in Hok. split.
  - intros H. exists l3. split; [done|].
    destruct (decide (st = L3ParseOK)) as [->|Hne].
    2: { unfold managedFakeTCPDisposition in H. rewrite (bool_decide_false (st = L3ParseOK)) in H by done.
         simpl in H. by repeat case_match. }
    specialize (Hok eq_refl). rewrite disposition_ok in H by done.
    destruct (managedIngressPort _ _) eqn:Ep; [|done]. simpl in H.
    destruct (bool_decide _ && _) eqn:Eb; [|done]. bool_prop.
    destruct (decide (0 < len l3)) as [Hpos|Hz].
    2: { exfalso. pose proof (lb_total _ _ Hok). pose proof (lb_split _ _ Hok).
         pose proof (lb_header _ _ Hok). destruct (lb_transport _ _ Hok); lia. }
    assert (managed_tcp_shape l3) as Hs by (apply ParseL3_decodable; eauto 10).
    split; [done|]. unfold managedIngressPort in Ep. apply bool_decide_eq_true in Ep.
    enough (L4Offset i = 20) as E20 by (rewrite E20 in Ep; exact Ep).
    apply transform_ok in H0 as (Ef & E3 & _); [|done].
    pose proof (lb_family _ _ Hok). lia.
  - intros (l3' & [= <-] & Hs & Hp). pose proof Hs as (E0 & Hlen & _).
    destruct (proj2 (ParseL3_decodable l3 Hl ltac:(lia)) Hs) as (i' & E' & Et & Htr).
    rewrite E in E'. injection E' as -> ->. specialize (Hok eq_refl).
    rewrite disposition_ok by done. rewrite bool_decide_true, Et by done. simpl.
    apply transform_ok in Htr as (Ef & E3 & _); [|done].
    assert (L4Offset i' = 20) as -> by (pose proof (lb_family _ _ Hok); lia).
    unfold managedIngressPort. by rewrite bool_decide_true.
Qed.

(** Ethernet header + sample TCP segment to port 443. *)
Definition sample_tcp_frame : list Z :=
  replicate 12 2 ++ [0x81; 0; 0; 7; 8; 0] ++
  [0x45; 0; 0; 40; 0; 0; 0x40; 0; 64; 6; 0; 0; 10; 0; 0; 2; 10; 0; 0; 1] ++
  [0xca; 0x6c; 1; 0xbb; 0; 0; 0; 1; 0; 0; 0; 1; 0x50; 0x10; 0xff; 0xff; 0; 0; 0; 0].
Definition sample_policy : ManagedIngressPolicy := mkPolicy true {[443]}.

Lemma classify_decode_exact_witness :
  bytes_ok sample_tcp_frame /\
  ClassifyManagedIngressFrame sample_tcp_frame sample_policy = Ret IngressDecodeIPv4.
Proof.
  assert (bytes_ok sample_tcp_frame) as Hb
    by (repeat (apply Forall_cons_2; [split; lia|]); apply Forall_nil_2).
  split; [exact Hb|]. apply (classify_decode_exact _ _ Hb).
  eexists. split; [vm_compute; reflexivity|]. split.
  - unfold managed_tcp_shape. repeat split; vm_compute; done.
  - refine (bool_decide_unpack _ _). vm_compute. exact I.
Defined.

(** A frame whose EtherType, behind at most two VLAN tags, is neither a tag nor IP. *)
Definition frame_non_ip (frame : list Z) : Prop :=
  14 <= len frame /\
  exists offset t, skip_vlan_tags 2 frame 14 (be16_at frame 12) = Ret (Some (offset, t)) /\
    is_vlan_tag t = false /\ t <> etherTypeIPv4 /\ t <> etherTypeIPv6.

(** C5: fail-closed classification.  The classifier always returns, and on a
    managed interface it lets a frame through to the host stack only with proof
    that FakeTCP does not own it: the frame is not IP, or the parser proved a
    protocol that bypasses FakeTCP, or it authorized the transport header and
    the destination port is not managed.  Truncated, malformed, unsupported and
    fragmented packets are dropped. *)
Theorem classify_fail_closed frame policy : bytes_ok frame -> InterfaceManaged policy = true ->
  exists d, ClassifyManagedIngressFrame frame policy = Ret d /\
    (d = IngressPass ->
     frame_non_ip frame \/
     exists l3 i st, frame_l3 frame = Some l3 /\ ParseL3 l3 = Ret (i, st) /\
       (st = L3ParseSafeBypass \/
        st = L3ParseOK /\ be16_at l3 (L4Offset i + 2) ∉ Ports policy)).
Proof.
  intros Hf Hm. pose proof (classify_eq frame policy Hf) as Hc.
  destruct (frame_l3 frame) as [l3|] eqn:El.
  - destruct Hc as [Hl ->].
    destruct (returns_elim _ _ (ParseL3_spec l3 Hl)) as ([i st] & E & Hok). rewrite E. cbn [obind].
    unfold ok_post in Hok. simpl in Hok.
    destruct (decide (st = L3ParseOK)) as [->|Hne].
    + rewrite disposition_ok by auto. eexists. split; [done|]. intros Hd. right.
      exists l3, i, L3ParseOK. split; [done|]. split; [done|]. right. split; [done|].
      unfold managedIngressPort in Hd. case_bool_decide; [|done].
      simpl in Hd. by destruct (bool_decide _ && _).
    + unfold managedFakeTCPDisposition. rewrite (bool_decide_false (st = L3ParseOK)) by done.
      rewrite Hm. simpl. case_bool_decide; eexists; (split; [done|]); [|done].
      intros _. right. exists l3, i, st. auto.
  - assert (exists d, ClassifyManagedIngressFrame frame policy = Ret d) as [d Hd]
      by (destruct Hc; eauto).
    exists d. split; [done|]. intros ->. left. unfold frame_non_ip.
    unfold ClassifyManagedIngressFrame in Hd. unfold frame_l3 in El.
    destruct (len frame <? 14) eqn:E0; [unfold managedFakeTCPDisposition in Hd; simpl in Hd;
      by rewrite Hm in Hd|].
    split; [lia|]. revert Hd El. go_read.
    destruct (returns_elim _ _ (skip_vlan_spec 2 frame 14 (be16_at frame 12) Hf ltac:(lia)))
      as ([[o t]|] & Et & Ho); rewrite Et; simpl; unfold managedFakeTCPDisposition; simpl;
      rewrite Hm; [|by intros].
    destruct (is_vlan_tag t) eqn:Ev; [by intros|].
    destruct (t =? etherTypeIPv4) eqn:E4; [by intros|].
    destruct (t =? etherTypeIPv6) eqn:E6; [by intros|]. bool_prop. eauto 10.
Qed.

(** The same frame cut inside the TCP header: dropped, not passed to the host. *)
Lemma classify_fail_closed_witness :
  exists d, ClassifyManagedIngressFrame (take 50 sample_tcp_frame) sample_policy = Ret d /\
            d <> IngressPass.
Proof.
  assert (bytes_ok (take 50 sample_tcp_frame)) as Hb
    by (repeat (apply Forall_cons_2; [split; lia|]); apply Forall_nil_2).
  destruct (classify_fail_closed _ sample_policy Hb eq_refl) as (d & Hd & _).
  exists d. split; [exact Hd|]. intros ->. vm_compute in Hd. discriminate Hd.
Defined.
