(* ===== verification/Runtime.v ===== *)
(** * Runtime identity, session-ID allocation and once-only commits
    (internal/faketcp/runtime_identity.go, runtime_domain.go,
    runtime_identity_commit.go, generation_precommit.go, monotonic.go, key.go). *)
From Stdlib Require Import ZArith Lia.
From stdpp Require Import base option list gmap strings numbers.
From S2P Require Import Prelude Abi.

(** ** Identities *)
Record RuntimeIdentity := mkRuntimeIdentity {
  RI_Generation : Z;
  RI_Incarnation : list Z
}.

#[export] Instance RuntimeIdentity_eq_dec : EqDecision RuntimeIdentity.
Proof. solve_decision. Defined.

Record CaptureIdentity := mkCaptureIdentity {
  CI_Runtime : RuntimeIdentity;
  CI_CPU : Z;
  CI_Sequence : Z
}.

#[export] Instance CaptureIdentity_eq_dec : EqDecision CaptureIdentity.
Proof. solve_decision. Defined.

Definition validateRuntimeIdentity (identity : RuntimeIdentity) : outcome unit :=
  fail_if RI_Generation identity =? 0 with "faketcp runtime identity generation is zero" in
  fail_if bool_decide (RI_Incarnation identity = zeros 16)
    with "faketcp runtime identity incarnation is zero" in
  Ret tt.

Definition validateCaptureIdentity (identity : CaptureIdentity) (generation : Z) : outcome unit :=
  check! validateRuntimeIdentity (CI_Runtime identity) in
  fail_if negb (RI_Generation (CI_Runtime identity) =? generation)
    with "faketcp capture identity generation does not match flow generation" in
  fail_if CI_Sequence identity =? 0 with "faketcp capture identity sequence is zero" in
  Ret tt.

Definition runtimeIdentityFromEvent (event : FakeTCPEvent) : RuntimeIdentity :=
  mkRuntimeIdentity (SK_Generation (EV_Key event)) (EV_RuntimeIncarnation event).

Definition captureIdentityFromEvent (event : FakeTCPEvent) : CaptureIdentity :=
  mkCaptureIdentity (runtimeIdentityFromEvent event) (EV_CaptureCPU event)
    (EV_CaptureSequence event).

(** ** Session-ID allocator shared by the engines of one runtime domain *)
Record sessionIDAllocator := mkAllocator { alloc_next : Z }.

Definition allocate (a : sessionIDAllocator) : sessionIDAllocator * outcome Z :=
  if alloc_next a =? max_u64 then (a, Fail "faketcp session ID space is exhausted")
  else let a := mkAllocator (u64 (alloc_next a + 1)) in (a, Ret (alloc_next a)).

(** [n] successive calls, with their successful results in order. *)
Fixpoint allocate_many (n : nat) (a : sessionIDAllocator) : sessionIDAllocator * list Z :=
  match n with
  | O => (a, [])
  | S n =>
      let '(a1, r) := allocate a in
      let '(a2, ids) := allocate_many n a1 in
      (a2, match r with Ret id => id :: ids | _ => ids end)
  end.

(** ** The once-only kernel-collection commit.  [None]: not yet consumed;
    [Some err]: consumed, with the first callback's result. *)
Definition runtimeIdentityCommitState := option (option error).

(** [commit] is the callback as a state transformer; it runs only for the first
    caller. *)
Definition commitRuntimeIdentityOnce {W : Type} (consumed : error)
    (commit : W -> option error * W) (state : runtimeIdentityCommitState) (w : W)
    : runtimeIdentityCommitState * W * option error :=
  match state with
  | None => let '(err, w) := commit w in (Some err, w, err)
  | Some err => (state, w, errors_Join (Some consumed) err)
  end.

(** Successive callers of one commit capability. *)
Fixpoint commit_callers {W : Type} (consumed : error)
    (commits : list (W -> option error * W)) (state : runtimeIdentityCommitState) (w : W)
    : runtimeIdentityCommitState * W * list (option error) :=
  match commits with
  | [] => (state, w, [])
  | commit :: commits =>
      let '(state, w, err) := commitRuntimeIdentityOnce consumed commit state w in
      let '(state, w, errs) := commit_callers consumed commits state w in
      (state, w, err :: errs)
  end.

(** ** Ordering of generation preparation before reachability *)
Definition CommitGenerationReachability {W : Type}
    (preCommit : option (W -> option error * W)) (makeReachable : option (W -> option error * W))
    (w : W) : option error * W :=
  match preCommit with
  | None => (Some "faketcp generation pre-commit hook is nil", w)
  | Some prepare =>
      match makeReachable with
      | None => (Some "faketcp generation reachability callback is nil", w)
      | Some reach =>
          let '(err, w) := prepare w in
          match err with
          | Some e => (Some e, w)
          | None => reach w
          end
      end
  end.

(** ** CLOCK_MONOTONIC conversion *)
Definition monotonicNanosFromParts (seconds nanoseconds : Z) : outcome Z :=
  fail_if (seconds <? 0) || (nanoseconds <? 0) || (1000000000 <=? nanoseconds)
    with "CLOCK_MONOTONIC returned an invalid timespec" in
  let unsignedSeconds := u64 seconds in
  fail_if (max_u64 - u64 nanoseconds) / 1000000000 <? unsignedSeconds
    with "CLOCK_MONOTONIC nanoseconds overflow uint64" in
  Ret (u64 (u64 (unsignedSeconds * 1000000000) + u64 nanoseconds)).

(** ** MTU adjustment *)
Definition FakeTCPHeaderDelta : Z := 12.
Definition WireHeaderOverhead : Z := FakeTCPHeaderDelta.

Definition AdjustTransportMTU (udpTransportMTU : Z) : outcome Z :=
  fail_if udpTransportMTU <=? WireHeaderOverhead
    with "faketcp base transport MTU must exceed wire overhead" in
  Ret (udpTransportMTU - WireHeaderOverhead).

(** ** Lemmas *)

Lemma validateRuntimeIdentity_ret i :
  validateRuntimeIdentity i = Ret tt <->
  RI_Generation i <> 0 /\ RI_Incarnation i <> zeros 16.
Proof.
  unfold validateRuntimeIdentity. destruct (RI_Generation i =? 0) eqn:E.
  - apply Z.eqb_eq in E. rewrite E. split; [done|]. by intros [? _].
  - apply Z.eqb_neq in E. case_bool_decide; split; try done. by intros [_ ?].
Qed.

Lemma validateCaptureIdentity_ret c g :
  validateCaptureIdentity c g = Ret tt <->
  RI_Generation (CI_Runtime c) <> 0 /\ RI_Incarnation (CI_Runtime c) <> zeros 16 /\
  RI_Generation (CI_Runtime c) = g /\ CI_Sequence c <> 0.
Proof.
  unfold validateCaptureIdentity. split.
  - intros H. apply obind_ret in H as ([] & Hv & H). apply validateRuntimeIdentity_ret in Hv.
    go_inv. bool_prop. tauto.
  - intros (H1 & H2 & <- & H4). rewrite (proj2 (validateRuntimeIdentity_ret _)) by done. simpl.
    rewrite Z.eqb_refl. by rewrite (proj2 (Z.eqb_neq _ _)).
Qed.

Lemma allocate_spec a : 0 <= alloc_next a <= max_u64 ->
  (alloc_next a = max_u64 /\ allocate a = (a, Fail "faketcp session ID space is exhausted")) \/
  (alloc_next a < max_u64 /\
   allocate a = (mkAllocator (alloc_next a + 1), Ret (alloc_next a + 1))).
Proof.
  intros H. unfold allocate. destruct (alloc_next a =? max_u64) eqn:E; [left; split; [lia|done]|right].
  unfold max_u64 in *. split; [lia|]. unfold u64. rewrite Z.mod_small by lia. done.
Qed.

Lemma allocate_many_spec n a : 0 <= alloc_next a <= max_u64 ->
  let '(a', ids) := allocate_many n a in
  ids = seqZ (alloc_next a + 1) (alloc_next a' - alloc_next a) /\
  alloc_next a <= alloc_next a' <= max_u64 /\
  alloc_next a' = Z.min max_u64 (alloc_next a + Z.of_nat n).
Proof.
  revert a. induction n as [|n IH]; intros a Ha.
  { cbn [allocate_many]. rewrite Z.sub_diag. simpl. repeat split; lia. }
  cbn [allocate_many].
  destruct (allocate_spec a Ha) as [[E ->]|[E ->]].
  - specialize (IH a Ha). destruct (allocate_many n a) as [a' ids].
    destruct IH as (-> & ? & ?). repeat split; lia.
  - specialize (IH (mkAllocator (alloc_next a + 1)) ltac:(simpl; lia)). simpl in IH.
    destruct (allocate_many n _) as [a' ids]. destruct IH as (-> & ? & ?).
    repeat split; try lia.
    rewrite (seqZ_cons (alloc_next a + 1)) by lia. f_equal. f_equal; lia.
Qed.

Lemma commit_callers_consumed {W} consumed (commits : list (W -> option error * W)) err w :
  commit_callers consumed commits (Some err) w =
  (Some err, w, replicate (length commits) (errors_Join (Some consumed) err)).
Proof.
  induction commits as [|c commits IH]; simpl; [done|]. by rewrite IH.
Qed.

(** ** Properties *)

(** session identifiers.  However many allocations are requested from a
    fresh domain, the successful ones are exactly 1, 2, 3, ... in order: never
    zero and never reused.  When the 64-bit space is exhausted further
    requests fail instead of wrapping around. *)
Theorem session_ids_unique n :
  let '(a, ids) := allocate_many n (mkAllocator 0) in
  ids = seqZ 1 (Z.min max_u64 (Z.of_nat n)) /\
  NoDup ids /\ Forall (fun id => 0 < id <= max_u64) ids.
Proof.
  pose proof (allocate_many_spec n (mkAllocator 0) ltac:(unfold max_u64; simpl; lia)) as H.
  destruct (allocate_many n (mkAllocator 0)) as [a ids]. simpl in H.
  destruct H as (-> & Hr & Hn). rewrite Hn, Z.sub_0_r. split; [done|].
  split; [apply NoDup_seqZ|]. apply Forall_forall. intros id Hid%list_elem_of_In%elem_of_seqZ. lia.
Qed.

(** a runtime identity seeds at most one kernel collection.  Whatever
    callbacks later callers supply, only the first caller's callback ever acts
    on the world, and every later caller gets an error. *)
Theorem runtime_identity_committed_once {W} consumed
    (first : W -> option error * W) (later : list (W -> option error * W)) w :
  let '(_, w', errs) := commit_callers consumed (first :: later) None w in
  w' = snd (first w) /\ head errs = Some (fst (first w)) /\
  Forall (fun e => e <> None) (tail errs).
Proof.
  simpl. destruct (first w) as [err w1]. rewrite commit_callers_consumed. simpl.
  split; [done|]. split; [done|]. apply Forall_replicate. by destruct err.
Qed.

(** clock conversion.  For any 64-bit timespec the conversion either
    reports an error or returns the exact nanosecond count; it never wraps, and
    it succeeds whenever the count is representable. *)
Theorem monotonic_nanos_exact seconds nanoseconds :
  min_i64 <= seconds <= max_i64 -> min_i64 <= nanoseconds <= max_i64 ->
  forall n, monotonicNanosFromParts seconds nanoseconds = Ret n <->
    0 <= seconds /\ 0 <= nanoseconds < 1000000000 /\
    n = seconds * 1000000000 + nanoseconds /\ n <= max_u64.
Proof.
  intros Hs Hn n. unfold monotonicNanosFromParts, min_i64, max_i64, max_u64, u64 in *.
  change (2 ^ 64) with 18446744073709551616 in *. change (2 ^ 63) with 9223372036854775808 in *.
  destruct (_ || _) eqn:E1; [split; [done|lia]|].
  rewrite (Z.mod_small seconds), (Z.mod_small nanoseconds) by lia.
  destruct (_ <? seconds) eqn:E2.
  - split; [done|]. intros (_ & _ & -> & H).
    apply Z.ltb_lt in E2. Z.div_mod_to_equations. lia.
  - apply Z.ltb_ge in E2.
    assert (seconds * 1000000000 + nanoseconds <= 18446744073709551615)
      by (Z.div_mod_to_equations; lia).
    rewrite (Z.mod_small (seconds * 1000000000)) by lia. rewrite Z.mod_small by lia.
    split; [intros [= <-]; lia|]. by intros (_ & _ & -> & _).
Qed.

Lemma monotonic_nanos_exact_witness :
  monotonicNanosFromParts 18446744073 709551615 = Ret max_u64.
Proof.
  apply monotonic_nanos_exact; vm_compute; repeat split; discriminate || reflexivity.
Defined.
