(* ===== verification/ControlPacket.v ===== *)
(** * FakeTCP control packets (internal/faketcp/control_packet.go,
    control_validation.go; flags and control structs of engine.go; the
    established-value check of session_store.go).

    [MarshalIPv4TCPControl] builds the packet by in-place writes; [tcp] aliases
    [packet[20:]]. *)
From Stdlib Require Import ZArith Lia.
From stdpp Require Import base option list gmap strings numbers.
From S2P Require Import Prelude Abi Checksum L3Parser Runtime.

Definition FlagFIN : Z := 1.
Definition FlagSYN : Z := 2.
Definition FlagRST : Z := 4.
Definition FlagPSH : Z := 8.
Definition FlagACK : Z := 16.

Record ControlPacket := mkControlPacket {
  CP_Flags : Z;
  CP_Sequence : Z;
  CP_Acknowledgement : Z;
  CP_Window : Z
}.

Definition controlIPv4HeaderLength : Z := 20.
Definition controlTCPHeaderLength : Z := 20.
Definition controlPacketLength : Z := controlIPv4HeaderLength + controlTCPHeaderLength.
Definition controlIPv4Identification : Z := 0x5747.

Definition control_flags_ok (flags : Z) : bool :=
  (flags =? FlagSYN) || (flags =? Z.lor FlagSYN FlagACK) || (flags =? FlagACK).

Definition MarshalIPv4TCPControl (flow : FakeTCPSessionKey) (control : ControlPacket)
    : outcome (list Z) :=
  check! validatePacketFlow flow in
  fail_if negb (control_flags_ok (CP_Flags control)) with "unsupported TCP flags" in
  let packet := zeros (Z.to_nat controlPacketLength) in
  let packet := store_bytes packet 0 [Z.lor (Z.shiftl 4 4) (controlIPv4HeaderLength / 4)] in
  let packet := store_bytes packet 2 (BigEndian_PutUint16 controlPacketLength) in
  let packet := store_bytes packet 4 (BigEndian_PutUint16 controlIPv4Identification) in
  let packet := store_bytes packet 8 [64] in
  let packet := store_bytes packet 9 [6] in
  let packet := store_bytes packet 12 (NativeEndian_PutUint32 (SK_LocalIPv4 flow)) in
  let packet := store_bytes packet 16 (NativeEndian_PutUint32 (SK_RemoteIPv4 flow)) in
  let packet := store_bytes packet 20 (BigEndian_PutUint16 (SK_LocalPort flow)) in
  let packet := store_bytes packet 22 (BigEndian_PutUint16 (SK_RemotePort flow)) in
  let packet := store_bytes packet 24 (BigEndian_PutUint32 (CP_Sequence control)) in
  let packet := store_bytes packet 28 (BigEndian_PutUint32 (CP_Acknowledgement control)) in
  let packet := store_bytes packet 32 [Z.shiftl (controlTCPHeaderLength / 4) 4] in
  let packet := store_bytes packet 33 [CP_Flags control] in
  let packet := store_bytes packet 34 (BigEndian_PutUint16 (CP_Window control)) in
  let! addresses := slice packet 12 20 in
  let! tcp := slice packet 20 (len packet) in
  let packet := store_bytes packet 36
    (BigEndian_PutUint16 (transportChecksum addresses 6 tcp)) in
  let! header := slice packet 0 controlIPv4HeaderLength in
  Ret (store_bytes packet 10
    (BigEndian_PutUint16 (finishChecksum (addChecksumBytes 0 header)))).

Definition validateEstablishedSessionValue (value : FakeTCPSessionValue) (generation : Z)
    : outcome unit :=
  fail_if negb (SV_Generation value =? generation)
    with "faketcp session value generation does not match store generation" in
  fail_if negb (SV_State value =? FakeTCPStateEstablished)
    with "faketcp session state is not established" in
  fail_if negb (SV_Flags value =? 0) with "faketcp session has unsupported flags" in
  fail_if negb (bool_decide (SV_Reserved value = zeros 4))
    with "faketcp session has nonzero reserved bytes" in
  fail_if negb (SV_KernelLock value =? 0) || negb (SV_KernelReserved value =? 0)
    with "faketcp session has nonzero kernel lock or reserved bytes" in
  fail_if SV_Revision value =? 0 with "faketcp session revision is zero" in
  fail_if SV_SessionID value =? 0 with "faketcp session ID is zero" in
  fail_if bool_decide (SV_RuntimeIncarnation value = zeros 16)
    with "faketcp session runtime incarnation is zero" in
  Ret tt.

Definition tcpChecksumValid (addresses tcp : list Z) : bool :=
  transportChecksumValid addresses 6 tcp.

Definition validateIPv4TCPControl (packet : list Z) (event : FakeTCPEvent)
    (session : FakeTCPSessionValue) : outcome unit :=
  let flow := EV_Key event in
  let identity := runtimeIdentityFromEvent event in
  check! validateRuntimeIdentity identity in
  fail_if negb (EV_EventABIVersion event =? FakeTCPEventABIVersion)
    with "faketcp close event ABI version is invalid" in
  fail_if negb (EV_Type event =? FakeTCPEventRST) && negb (EV_Type event =? FakeTCPEventFIN)
    with "faketcp close event type is invalid" in
  fail_if negb (RI_Generation identity =? SK_Generation flow)
    with "faketcp close runtime identity generation does not match the flow" in
  check! validatePacketFlow flow in
  check! validateEstablishedSessionValue session (SK_Generation flow) in
  fail_if SV_Window session =? 0
    with "faketcp close validation requires a non-zero BPF session window" in
  fail_if negb (EV_SessionRevision event =? SV_Revision session)
       || negb (EV_SessionID event =? SV_SessionID session)
       || negb (bool_decide (EV_RuntimeIncarnation event = SV_RuntimeIncarnation session))
    with "faketcp close event session identity does not match the BPF snapshot" in
  let! bad := (if negb (len packet =? controlPacketLength) then Ret true
               else let! b0 := idx packet 0 in Ret (negb (Z.shiftr b0 4 =? 4))) in
  fail_if bad with "faketcp close packet is not complete IPv4/TCP" in
  let! b0 := idx packet 0 in
  let ipHeaderLength := Z.land b0 0x0f * 4 in
  fail_if negb (ipHeaderLength =? controlIPv4HeaderLength)
       || negb (ipHeaderLength + controlTCPHeaderLength =? len packet)
    with "faketcp close IPv4 header length is unsupported" in
  let! totalLength := Uint16At packet 2 4 in
  fail_if negb (totalLength =? len packet)
    with "faketcp close IPv4 total length is inconsistent" in
  let! fragment := Uint16At packet 6 8 in
  fail_if negb (Z.land fragment 0xbfff =? 0)
    with "faketcp close reserved IPv4 flags and fragments are unsupported" in
  let! protocol := idx packet 9 in
  fail_if negb (protocol =? 6) with "faketcp close IPv4 protocol is not TCP" in
  let! header := slice packet 0 ipHeaderLength in
  fail_if negb (checksumValid header) with "faketcp close IPv4 checksum is invalid" in
  let localAddress := NativeEndian_PutUint32 (SK_LocalIPv4 flow) in
  let remoteAddress := NativeEndian_PutUint32 (SK_RemoteIPv4 flow) in
  let! source := slice packet 12 16 in
  let! destination := slice packet 16 20 in
  fail_if negb (bool_decide (source = remoteAddress))
       || negb (bool_decide (destination = localAddress))
    with "faketcp close IPv4 endpoints do not match the session" in
  let! tcp := slice packet ipHeaderLength (len packet) in
  let! dataOffset := idx tcp 12 in
  let tcpHeaderLength := Z.shiftr dataOffset 4 * 4 in
  fail_if negb (tcpHeaderLength =? controlTCPHeaderLength)
       || negb (dataOffset =? Z.shiftl (controlTCPHeaderLength / 4) 4)
    with "faketcp close TCP header length is invalid" in
  let! sourcePort := Uint16At tcp 0 2 in
  let! destinationPort := Uint16At tcp 2 4 in
  fail_if negb (sourcePort =? SK_RemotePort flow) || negb (destinationPort =? SK_LocalPort flow)
    with "faketcp close TCP ports do not match the session" in
  let! addresses := slice packet 12 20 in
  fail_if negb (tcpChecksumValid addresses tcp) with "faketcp close TCP checksum is invalid" in
  let! flags := idx tcp 13 in
  fail_if negb (flags =? Z.lor FlagRST FlagACK) && negb (flags =? Z.lor FlagFIN FlagACK)
    with "faketcp close flags must be exactly RST|ACK or FIN|ACK" in
  let! urgent := Uint16At tcp 18 20 in
  fail_if negb (urgent =? 0) with "faketcp close urgent pointer must be zero" in
  let! sequence := Uint32At tcp 4 8 in
  let! acknowledgement := Uint32At tcp 8 12 in
  fail_if negb (sequence =? SV_RXSequence session)
    with "faketcp close sequence does not exactly match the BPF receive sequence" in
  fail_if negb (acknowledgement =? SV_TXSequence session)
    with "faketcp close acknowledgement does not exactly match the BPF send sequence" in
  let! window := Uint16At tcp 14 16 in
  fail_if negb (window =? SV_Window session)
    with "faketcp close window does not exactly match the BPF session window" in
  fail_if negb (flags =? EV_TCPFlags event) || negb (sequence =? EV_Sequence event)
       || negb (acknowledgement =? EV_Acknowledgement event)
       || (EV_Type event =? FakeTCPEventRST) && negb (flags =? Z.lor FlagRST FlagACK)
       || (EV_Type event =? FakeTCPEventFIN) && negb (flags =? Z.lor FlagFIN FlagACK)
    with "faketcp close packet does not match its event metadata" in
  Ret tt.

(** ** The canonical control image *)

(** Go's types bound the fields of a flow and of a control packet. *)
Definition flow_typed (flow : FakeTCPSessionKey) : Prop :=
  0 <= SK_LocalPort flow < 65536 /\ 0 <= SK_RemotePort flow < 65536.
Definition control_typed (c : ControlPacket) : Prop :=
  0 <= CP_Sequence c < 4294967296 /\ 0 <= CP_Acknowledgement c < 4294967296 /\
  0 <= CP_Window c < 65536.

(** The packet before its two checksum fields are filled. *)
Definition control_image (flow : FakeTCPSessionKey) (c : ControlPacket) : list Z :=
  [0x45; 0; 0; 40; 0x57; 0x47; 0; 0; 64; 6; 0; 0] ++
  NativeEndian_PutUint32 (SK_LocalIPv4 flow) ++ NativeEndian_PutUint32 (SK_RemoteIPv4 flow) ++
  BigEndian_PutUint16 (SK_LocalPort flow) ++ BigEndian_PutUint16 (SK_RemotePort flow) ++
  BigEndian_PutUint32 (CP_Sequence c) ++ BigEndian_PutUint32 (CP_Acknowledgement c) ++
  [0x50; CP_Flags c] ++ BigEndian_PutUint16 (CP_Window c) ++ [0; 0; 0; 0].

Lemma control_flags_byte f : control_flags_ok f = true -> byte_ok f.
Proof.
  unfold control_flags_ok, FlagSYN, FlagACK, byte_ok. change (Z.lor 2 16) with 18. lia.
Qed.

Lemma control_image_ok flow c : control_flags_ok (CP_Flags c) = true ->
  bytes_ok (control_image flow c).
Proof.
  intros Hf%control_flags_byte. unfold control_image.
  repeat apply bytes_ok_app; try (by auto with bytes);
    repeat (apply Forall_cons_2; [done || (unfold byte_ok; lia)|]); apply Forall_nil_2.
Qed.

(** The image with its TCP checksum filled. *)
Definition control_tcp_filled (flow : FakeTCPSessionKey) (c : ControlPacket) : list Z :=
  let p := control_image flow c in
  store_bytes p 36
    (BigEndian_PutUint16 (transportChecksum (sub_at p 12 8) 6 (sub_at p 20 20))).

Lemma marshal_eq flow c p :
  MarshalIPv4TCPControl flow c = Ret p <->
  validatePacketFlow flow = Ret tt /\ control_flags_ok (CP_Flags c) = true /\
  p = store_bytes (control_tcp_filled flow c) 10
        (BigEndian_PutUint16 (finishChecksum
          (addChecksumBytes 0 (sub_at (control_tcp_filled flow c) 0 20)))).
Proof.
  unfold MarshalIPv4TCPControl. destruct (validatePacketFlow flow) as [[]| |]; simpl.
  2-3: split; [done|by intros [? _]].
  destruct (control_flags_ok (CP_Flags c)); simpl; [|split; [done|by intros (_ & ? & _)]].
  split; [intros [= <-]; done|]. intros (_ & _ & ->). done.
Qed.

(** What the wire bytes of a control packet say. *)
Record control_wire (p : list Z) (flow : FakeTCPSessionKey) (c : ControlPacket) : Prop := {
  cw_bytes : bytes_ok p;
  cw_len : len p = controlPacketLength;
  cw_shape : managed_tcp_shape p;
  cw_ip_checksum : checksumValid (sub_at p 0 20) = true;
  cw_tcp_checksum : tcpChecksumValid (sub_at p 12 8) (sub_at p 20 20) = true;
  cw_source : sub_at p 12 4 = NativeEndian_PutUint32 (SK_LocalIPv4 flow);
  cw_destination : sub_at p 16 4 = NativeEndian_PutUint32 (SK_RemoteIPv4 flow);
  cw_source_port : be16_at p 20 = SK_LocalPort flow;
  cw_destination_port : be16_at p 22 = SK_RemotePort flow;
  cw_control : mkControlPacket (byte_at p 33) (be32_at p 24) (be32_at p 28) (be16_at p 34) = c
}.

Lemma len_control_image flow c : len (control_image flow c) = 40.
Proof. done. Qed.

Lemma len_control_tcp_filled flow c : len (control_tcp_filled flow c) = 40.
Proof. unfold control_tcp_filled. by rewrite len_store_bytes. Qed.

Lemma put32_val v : 0 <= v < 4294967296 ->
  u8 (Z.shiftr v 24) * 16777216 + u8 (Z.shiftr v 16) * 65536 + u8 (Z.shiftr v 8) * 256 + u8 v = v.
Proof.
  intros Hv. pose proof (PutUint32_Uint32 v []) as H. simpl in H.
  rewrite be32_val in H by apply byte_ok_u8. injection H as ->. by apply u32_id.
Qed.

Lemma tcp_filled_valid flow c : control_flags_ok (CP_Flags c) = true ->
  let t := control_tcp_filled flow c in
  bytes_ok t /\ tcpChecksumValid (sub_at t 12 8) (sub_at t 20 20) = true.
Proof.
  intros Hf. pose proof (control_image_ok flow c Hf) as Hi. unfold control_tcp_filled.
  assert (len (control_image flow c) = 40) as Hl by done.
  assert (be16_at (sub_at (control_image flow c) 20 20) (Z.of_nat 16) = 0) as H0 by done.
  revert Hi Hl H0. generalize (control_image flow c). intros img Hi Hl H0.
  split; [by auto with bytes|]. rewrite sub_at_store_out, sub_at_store_in by len_lia.
  change (36 - Z.to_nat 20)%nat with 16%nat.
  pose proof (len_sub_at img 20 20 ltac:(lia) ltac:(lia) ltac:(lia)) as Hlu.
  unfold tcpChecksumValid.
  destruct (transport_filled_valid (sub_at img 12 8) 6 (sub_at img 20 20) 16
    (transportChecksum (sub_at img 12 8) 6 (sub_at img 20 20))) as [_ Hok]; [..|exact Hok];
    [by auto with bytes|rewrite len_sub_at; lia|lia|by auto with bytes|lia|by exists 8%nat
    |unfold len in Hlu; lia|exact H0|by left].
Qed.

Lemma marshal_wire flow c p : flow_typed flow -> control_typed c ->
  MarshalIPv4TCPControl flow c = Ret p -> control_wire p flow c.
Proof.
  intros [Hp1 Hp2] (Hs & Ha & Hw) (Hv & Hf & ->)%marshal_eq.
  destruct (tcp_filled_valid flow c Hf) as [Ht Htcp].
  set (t := control_tcp_filled flow c) in *.
  pose proof (len_control_tcp_filled flow c) as Hlt. fold t in Hlt.
  set (h := finishChecksum _).
  assert (forall i, 0 <= i -> i <> 10 -> i <> 11 -> i <> 36 -> i <> 37 ->
    byte_at (store_bytes t 10 (BigEndian_PutUint16 h)) i = byte_at (control_image flow c) i) as Hb.
  { intros i ?????. unfold t, control_tcp_filled. by rewrite !byte_at_store_out by len_lia. }
  split.
  - apply bytes_ok_store; [done|apply bytes_ok_put16].
  - by rewrite len_store_bytes.
  - unfold managed_tcp_shape, be16_at. rewrite !Hb by lia. rewrite len_store_bytes, Hlt.
    repeat split; try done; vm_compute; discriminate.
  - rewrite sub_at_store_in by len_lia. unfold h. change (10 - Z.to_nat 0)%nat with 10%nat.
    apply header_filled_valid; [by apply bytes_ok_sub_at|by rewrite len_sub_at by lia| |].
    + rewrite byte_at_sub_at by lia. unfold t, control_tcp_filled.
      rewrite byte_at_store_out by len_lia. done.
    + rewrite be16_at_sub_at by lia. unfold be16_at, t, control_tcp_filled.
      rewrite !byte_at_store_out by len_lia. done.
  - by rewrite !sub_at_store_out by len_lia.
  - rewrite !sub_at_store_out by len_lia. unfold t, control_tcp_filled.
    by rewrite sub_at_store_out by len_lia.
  - rewrite !sub_at_store_out by len_lia. unfold t, control_tcp_filled.
    by rewrite sub_at_store_out by len_lia.
  - unfold be16_at. rewrite !Hb by lia. by apply put16_val.
  - unfold be16_at. rewrite !Hb by lia. by apply put16_val.
  - unfold be16_at, be32_at. rewrite !Hb by lia. destruct c as [fl sq ak wn]; simpl in *.
    f_equal; [by apply put32_val|by apply put32_val|by apply put16_val].
Qed.

(** ** Close validation in raw bytes *)

(** Everything the validator establishes about an accepted close packet. *)
Definition close_authorized (p : list Z) (ev : FakeTCPEvent) (s : FakeTCPSessionValue) : Prop :=
  let flow := EV_Key ev in
  (validateRuntimeIdentity (runtimeIdentityFromEvent ev) = Ret tt /\
   EV_EventABIVersion ev = FakeTCPEventABIVersion /\
   validatePacketFlow flow = Ret tt /\
   validateEstablishedSessionValue s (SK_Generation flow) = Ret tt /\ SV_Window s <> 0 /\
   EV_SessionRevision ev = SV_Revision s /\ EV_SessionID ev = SV_SessionID s /\
   EV_RuntimeIncarnation ev = SV_RuntimeIncarnation s) /\
  (len p = 40 /\ byte_at p 0 = 0x45 /\ be16_at p 2 = 40 /\ Z.land (be16_at p 6) 0xbfff = 0 /\
   byte_at p 9 = 6 /\ checksumValid (sub_at p 0 20) = true /\
   sub_at p 12 4 = NativeEndian_PutUint32 (SK_RemoteIPv4 flow) /\
   sub_at p 16 4 = NativeEndian_PutUint32 (SK_LocalIPv4 flow)) /\
  (byte_at p 32 = 0x50 /\ be16_at p 20 = SK_RemotePort flow /\ be16_at p 22 = SK_LocalPort flow /\
   tcpChecksumValid (sub_at p 12 8) (sub_at p 20 20) = true /\
   be16_at p 38 = 0 /\ be16_at p 34 = SV_Window s) /\
  (be32_at p 24 = SV_RXSequence s /\ be32_at p 28 = SV_TXSequence s /\
   EV_Sequence ev = SV_RXSequence s /\ EV_Acknowledgement ev = SV_TXSequence s /\
   EV_TCPFlags ev = byte_at p 33 /\
   (EV_Type ev = FakeTCPEventRST /\ byte_at p 33 = 0x14 \/
    EV_Type ev = FakeTCPEventFIN /\ byte_at p 33 = 0x11)).

Lemma validateIPv4TCPControl_ret p ev s : bytes_ok p ->
  validateIPv4TCPControl p ev s = Ret tt <-> close_authorized p ev s.
Proof.
  intros Hp. unfold close_authorized. cbn zeta.
  pose proof (byte_at_ok p 0 Hp) as Hb0.
  unfold validateIPv4TCPControl, controlPacketLength, controlIPv4HeaderLength,
    controlTCPHeaderLength, FlagRST, FlagFIN, FlagACK, FakeTCPEventRST, FakeTCPEventFIN.
  change (Z.lor 4 16) with 20. change (Z.lor 1 16) with 17. change (Z.shiftl (20 / 4) 4) with 80.
  change (20 + 20) with 40.
  destruct (len p =? 40) eqn:El; cbn [negb].
  2: { bool_prop. split; [intros H; cbn [obind] in H; go_inv; done|by intros (_ & (? & _) & _)]. }
  apply Z.eqb_eq in El. rewrite El.
  destruct (decide (Z.land (byte_at p 0) 15 * 4 = 20)) as [Eh|Eh].
  2: { rewrite idx_in by lia. cbn [obind]. split.
       - intros H. go_inv. bool_prop. done.
       - intros (_ & (_ & E & _) & _). by rewrite E in Eh. }
  rewrite !(idx_in p 0) by lia. cbn [obind]. rewrite Eh. go_read.
  rewrite !byte_at_sub_at, !be16_at_sub_at, !be32_at_sub_at by lia.
  change (20 - 0) with 20. change (16 - 12) with 4. change (20 - 16) with 4.
  change (20 - 12) with 8. change (40 - 20) with 20. change (20 + 12) with 32.
  change (20 + 0) with 20. change (20 + 2) with 22. change (20 + 13) with 33.
  change (20 + 18) with 38. change (20 + 4) with 24. change (20 + 8) with 28.
  change (20 + 14) with 34. change (20 + 20 =? 40) with true. split.
  - intros H. go_inv. bool_prop.
    repeat match goal with x : () |- _ => destruct x end.
    repeat split; try done; try lia; by apply nibbles.
  - intros ((H1 & H2 & H3 & H4 & H5 & H6 & H7 & H8) & (_ & H9 & H10 & H11 & H12 & H13 & H14 & H15) &
      (H16 & H17 & H18 & H19 & H20 & H21) & (H22 & H23 & H24 & H25 & H26 & H27)).
    rewrite H1, H3, H4. cbn [obind]. rewrite H2, H6, H7, H8, H10, H11, H12, H13, H14, H15, H16, H17,
      H18, H19, H20, H21, H22, H23, H24, H25, H26, H9, !bool_decide_true by done.
    rewrite !Z.eqb_refl, (proj2 (Z.eqb_neq _ _) H5). simpl.
    destruct H27 as [[-> ->]|[-> ->]]; done.
Qed.

(** ** Properties *)

(** Control packets round-trip.  For a valid flow and a handshake flag set
    (SYN, SYN|ACK, ACK), [MarshalIPv4TCPControl] returns a 40-byte IPv4/TCP
    packet with both checksums valid and the shape the ingress decoder admits,
    and its bytes read back as the given endpoints, ports, flags, sequence,
    acknowledgement and window; every other flag set is refused. *)
Theorem marshal_control_roundtrip flow c :
  flow_typed flow -> control_typed c -> validatePacketFlow flow = Ret tt ->
  if control_flags_ok (CP_Flags c)
  then exists p, MarshalIPv4TCPControl flow c = Ret p /\ control_wire p flow c
  else MarshalIPv4TCPControl flow c = Fail "unsupported TCP flags".
Proof.
  intros Hf Hc Hv. destruct (control_flags_ok (CP_Flags c)) eqn:E.
  - eexists. assert (MarshalIPv4TCPControl flow c = Ret _) as H by (by apply marshal_eq).
    split; [exact H|]. by apply marshal_wire in H.
  - unfold MarshalIPv4TCPControl. by rewrite Hv, E.
Qed.

Definition sample_control : ControlPacket := mkControlPacket 18 4294967295 7 65535.

Lemma marshal_control_roundtrip_witness :
  exists p, MarshalIPv4TCPControl sample_flow sample_control = Ret p /\
            control_wire p sample_flow sample_control.
Proof.
  apply (marshal_control_roundtrip sample_flow sample_control); [|split; [|split]|].
  all: vm_compute; repeat split; try done; congruence.
Defined.

(** Exact close admission.  A captured RST or FIN packet authorises closing
    an established session if and only if every clause of [close_authorized]
    holds: matching runtime identity, revision, session ID and incarnation, a
    40-byte packet with both checksums valid, the session's endpoints, ports and
    window, sequence and acknowledgement numbers exactly equal to the BPF
    snapshot's, and the flags of the event's type. *)
Theorem close_validation_exact p ev s : bytes_ok p ->
  validateIPv4TCPControl p ev s = Ret tt <-> close_authorized p ev s.
Proof. apply validateIPv4TCPControl_ret. Qed.

(** An RST|ACK closing [sample_flow] from its remote end. *)
Definition sample_close_blank : list Z :=
  [0x45; 0; 0; 40; 0; 0; 0; 0; 64; 6; 0; 0; 10; 0; 0; 2; 10; 0; 0; 1;
   1; 0xbb; 0xca; 0x6c; 0; 0; 0; 9; 0; 0; 0; 5; 0x50; 0x14; 0; 64; 0; 0; 0; 0].
Definition sample_close : list Z := Eval vm_compute in
  let p := store_bytes sample_close_blank 36 (BigEndian_PutUint16
    (transportChecksum (sub_at sample_close_blank 12 8) 6 (sub_at sample_close_blank 20 20))) in
  store_bytes p 10 (BigEndian_PutUint16 (finishChecksum (addChecksumBytes 0 (sub_at p 0 20)))).
Definition sample_session : FakeTCPSessionValue :=
  mkSessionValue 1 0 5 9 4 8 64 FakeTCPStateEstablished 0 (zeros 4) 0 0 2 3 (replicate 16 7).
Definition sample_close_event : FakeTCPEvent :=
  mkEvent sample_flow 0 (replicate 16 7) 1 2 3 0 9 5 0 0 3 0 FakeTCPEventABIVersion
    FakeTCPEventRST 0x14.

Lemma close_validation_exact_witness :
  validateIPv4TCPControl sample_close sample_close_event sample_session = Ret tt /\
  close_authorized sample_close sample_close_event sample_session.
Proof.
  split; [vm_compute; reflexivity|].
  apply (close_validation_exact sample_close sample_close_event sample_session).
  - unfold sample_close. repeat (apply Forall_cons_2; [split; lia|]). apply Forall_nil_2.
  - vm_compute. reflexivity.
Defined.
