(* ===== verification/BpfSession.v ===== *)
(** * The kernel side of the session map (bpf/wg_mix_faketcp.h): the packet
    path's only mutation, the delete claim, and the byte layout of a claim
    request (internal/faketcp/session_compare_delete.go).

    The per-session spin lock makes each function atomic with respect to the
    others, so each is one function on the entry. *)
From Stdlib Require Import ZArith Lia.
From stdpp Require Import base option list gmap strings numbers.
From S2P Require Import Prelude Abi Checksum Runtime ControlPacket.

(** ** Packet-path mutation *)

Definition MUTATE_TX : Z := 1.
Definition MUTATE_RX : Z := 2.
Definition MUTATE_TOUCH : Z := 3.

Definition faketcp_nonzero_incarnation (inc : list Z) : bool := negb (bool_decide (inc = zeros 16)).

Definition faketcp_session_metadata_valid_locked (v : FakeTCPSessionValue) (generation : Z) : bool :=
  (SV_Generation v =? generation) && (SV_State v =? FakeTCPStateEstablished) &&
  (SV_Flags v =? 0) && bool_decide (SV_Reserved v = zeros 4) && (SV_KernelReserved v =? 0) &&
  negb (SV_Revision v =? 0) && negb (SV_SessionID v =? 0) &&
  faketcp_nonzero_incarnation (SV_RuntimeIncarnation v).

(** The lifetime authority and projection a packet carries. *)
Record session_authority := mkAuthority {
  au_session_id : Z;
  au_runtime_incarnation : list Z;
  au_local_isn : Z;
  au_remote_isn : Z;
  au_window : Z;
  au_state : Z;
  au_flags : Z
}.

Definition faketcp_session_authority_matches_locked (v : FakeTCPSessionValue) (generation : Z)
    (a : session_authority) : bool :=
  faketcp_session_metadata_valid_locked v generation && (SV_SessionID v =? au_session_id a) &&
  (SV_LocalISN v =? au_local_isn a) && (SV_RemoteISN v =? au_remote_isn a) &&
  (SV_Window v =? au_window a) && (SV_State v =? au_state a) && (SV_Flags v =? au_flags a) &&
  bool_decide (SV_RuntimeIncarnation v = au_runtime_incarnation a).

(** [(__s32)x] of a [__u32]. *)
Definition s32 (x : Z) : Z := if u32 x <? 2147483648 then u32 x else u32 x - 4294967296.

Definition set_mutable (v : FakeTCPSessionValue) (tx rx lastSeen revision : Z)
    : FakeTCPSessionValue :=
  mkSessionValue (SV_Generation v) lastSeen tx rx (SV_LocalISN v) (SV_RemoteISN v) (SV_Window v)
    (SV_State v) (SV_Flags v) (SV_Reserved v) (SV_KernelLock v) (SV_KernelReserved v) revision
    (SV_SessionID v) (SV_RuntimeIncarnation v).

(** [None]: not admitted, the entry is unchanged. *)
Definition faketcp_session_mutate (v : FakeTCPSessionValue) (generation now operation argument : Z)
    (a : session_authority) : option FakeTCPSessionValue :=
  if (operation <? MUTATE_TX) || (MUTATE_TOUCH <? operation) then None
  else if faketcp_session_authority_matches_locked v generation a &&
          negb (SV_Revision v =? max_u64)
  then
    let tx := if operation =? MUTATE_TX then u32 (SV_TXSequence v + argument) else SV_TXSequence v in
    let rx := if (operation =? MUTATE_RX) && (0 <? s32 (argument - SV_RXSequence v))
              then argument else SV_RXSequence v in
    let lastSeen := if negb (operation =? MUTATE_TX) && (SV_LastSeenNanos v <? now)
                    then now else SV_LastSeenNanos v in
    Some (set_mutable v tx rx lastSeen (u64 (SV_Revision v + 1)))
  else None.

(** ** The delete claim *)

Definition CLAIM_MALFORMED : Z := 0.
Definition CLAIM_ABSENT : Z := 1.
Definition CLAIM_DIFFERENT : Z := 2.
Definition CLAIMED : Z := 3.

Definition set_value_state (v : FakeTCPSessionValue) (state : Z) : FakeTCPSessionValue :=
  mkSessionValue (SV_Generation v) (SV_LastSeenNanos v) (SV_TXSequence v) (SV_RXSequence v)
    (SV_LocalISN v) (SV_RemoteISN v) (SV_Window v) state (SV_Flags v) (SV_Reserved v)
    (SV_KernelLock v) (SV_KernelReserved v) (SV_Revision v) (SV_SessionID v)
    (SV_RuntimeIncarnation v).

(** The tombstone a claim leaves. *)
Definition claimed (v : FakeTCPSessionValue) : FakeTCPSessionValue :=
  set_value_state v FakeTCPStateDeleteClaimed.

(** The lock word is not part of the comparison. *)
Definition faketcp_session_matches_expected_locked (v expected : FakeTCPSessionValue)
    (permit_claimed_state : bool) : bool :=
  (SV_Generation v =? SV_Generation expected) &&
  (SV_LastSeenNanos v =? SV_LastSeenNanos expected) &&
  (SV_TXSequence v =? SV_TXSequence expected) && (SV_RXSequence v =? SV_RXSequence expected) &&
  (SV_LocalISN v =? SV_LocalISN expected) && (SV_RemoteISN v =? SV_RemoteISN expected) &&
  (SV_Window v =? SV_Window expected) && (SV_Flags v =? SV_Flags expected) &&
  (SV_KernelReserved v =? SV_KernelReserved expected) &&
  (SV_Revision v =? SV_Revision expected) && (SV_SessionID v =? SV_SessionID expected) &&
  ((SV_State v =? SV_State expected) ||
   permit_claimed_state && (SV_State v =? FakeTCPStateDeleteClaimed) &&
   (SV_State expected =? FakeTCPStateEstablished)) &&
  bool_decide (SV_Reserved v = SV_Reserved expected) &&
  bool_decide (SV_RuntimeIncarnation v = SV_RuntimeIncarnation expected).

Definition faketcp_session_key_valid (k : FakeTCPSessionKey) : bool :=
  negb ((SK_Generation k =? 0) || (SK_LocalIPv4 k =? 0) || (SK_RemoteIPv4 k =? 0) ||
        (SK_UnderlayIndex k =? 0) || (SK_LocalPort k =? 0) || (SK_RemotePort k =? 0) ||
        (SK_WGID k =? 0)) && bool_decide (SK_Reserved k = zeros 4).

Definition faketcp_claim_request_valid (k : FakeTCPSessionKey) (v : FakeTCPSessionValue) : bool :=
  faketcp_session_key_valid k && (SK_Generation k =? SV_Generation v) &&
  (SV_State v =? FakeTCPStateEstablished) && (SV_Flags v =? 0) &&
  bool_decide (SV_Reserved v = zeros 4) && (SV_KernelLock v =? 0) &&
  (SV_KernelReserved v =? 0) && negb (SV_Revision v =? 0) && negb (SV_SessionID v =? 0) &&
  faketcp_nonzero_incarnation (SV_RuntimeIncarnation v).

(** ** Byte layout of a request *)

(** Little-endian [n]-byte words (the native order of the supported hosts). *)
Fixpoint le_bytes (n : nat) (v : Z) : list Z :=
  match n with
  | O => []
  | S n => u8 v :: le_bytes n (Z.shiftr v 8)
  end.
Fixpoint le_value (l : list Z) : Z :=
  match l with
  | [] => 0
  | b :: l => b + 256 * le_value l
  end.

Definition encode_session_key (k : FakeTCPSessionKey) : list Z :=
  le_bytes 8 (SK_Generation k) ++ le_bytes 4 (SK_LocalIPv4 k) ++ le_bytes 4 (SK_RemoteIPv4 k) ++
  le_bytes 4 (SK_UnderlayIndex k) ++ le_bytes 2 (SK_LocalPort k) ++ le_bytes 2 (SK_RemotePort k) ++
  le_bytes 4 (SK_WGID k) ++ SK_Reserved k.

Definition encode_session_value (v : FakeTCPSessionValue) : list Z :=
  le_bytes 8 (SV_Generation v) ++ le_bytes 8 (SV_LastSeenNanos v) ++ le_bytes 4 (SV_TXSequence v) ++
  le_bytes 4 (SV_RXSequence v) ++ le_bytes 4 (SV_LocalISN v) ++ le_bytes 4 (SV_RemoteISN v) ++
  le_bytes 2 (SV_Window v) ++ le_bytes 1 (SV_State v) ++ le_bytes 1 (SV_Flags v) ++
  SV_Reserved v ++ le_bytes 4 (SV_KernelLock v) ++ le_bytes 4 (SV_KernelReserved v) ++
  le_bytes 8 (SV_Revision v) ++ le_bytes 8 (SV_SessionID v) ++ SV_RuntimeIncarnation v.

Definition fakeTCPSessionMapKeySize : Z := 32.
Definition fakeTCPSessionMapValueSize : Z := 80.
Definition fakeTCPSessionClaimRequestSize : Z :=
  fakeTCPSessionMapKeySize + fakeTCPSessionMapValueSize.

Definition marshalFakeTCPSessionClaim (key : FakeTCPSessionKey) (expected : FakeTCPSessionValue)
    : outcome (list Z) :=
  let request := encode_session_key key ++ encode_session_value expected in
  fail_if negb (len request =? fakeTCPSessionClaimRequestSize)
    with "encoded faketcp compare-claim has a wrong size" in
  Ret request.

(** A field of a structure at a byte offset. *)
Definition field (l : list Z) (off n : nat) : Z := le_value (take n (drop off l)).
Definition bytes_field (l : list Z) (off n : nat) : list Z := take n (drop off l).

(** The request structure as the BPF program loads it (C offsets). *)
Definition load_claim_request (l : list Z) : FakeTCPSessionKey * FakeTCPSessionValue :=
  (mkSessionKey (field l 0 8) (field l 8 4) (field l 12 4) (field l 16 4) (field l 20 2)
     (field l 22 2) (field l 24 4) (bytes_field l 28 4),
   mkSessionValue (field l 32 8) (field l 40 8) (field l 48 4) (field l 52 4) (field l 56 4)
     (field l 60 4) (field l 64 2) (field l 66 1) (field l 67 1) (bytes_field l 68 4)
     (field l 72 4) (field l 76 4) (field l 80 8) (field l 88 8) (bytes_field l 96 16)).

(** The claim program: its status and the map afterwards. *)
Definition wg_faketcp_session_claim (request : list Z)
    (m : gmap FakeTCPSessionKey FakeTCPSessionValue)
    : Z * gmap FakeTCPSessionKey FakeTCPSessionValue :=
  if negb (len request =? fakeTCPSessionClaimRequestSize) then (CLAIM_MALFORMED, m)
  else
    let '(key, expected) := load_claim_request request in
    if negb (faketcp_claim_request_valid key expected) then (CLAIM_MALFORMED, m)
    else match m !! key with
    | None => (CLAIM_ABSENT, m)
    | Some v =>
        if faketcp_session_matches_expected_locked v expected true
        then (CLAIMED, if SV_State v =? FakeTCPStateEstablished then <[key := claimed v]> m else m)
        else (CLAIM_DIFFERENT, m)
    end.

(** ** Lemmas *)

Definition fits (n : nat) (v : Z) : Prop := 0 <= v < 2 ^ (8 * Z.of_nat n).

(** Go's field widths. *)
Record key_typed (k : FakeTCPSessionKey) : Prop := {
  kt_gen : fits 8 (SK_Generation k); kt_local : fits 4 (SK_LocalIPv4 k);
  kt_remote : fits 4 (SK_RemoteIPv4 k); kt_if : fits 4 (SK_UnderlayIndex k);
  kt_lport : fits 2 (SK_LocalPort k); kt_rport : fits 2 (SK_RemotePort k);
  kt_wg : fits 4 (SK_WGID k); kt_res : length (SK_Reserved k) = 4%nat
}.
Record value_typed (v : FakeTCPSessionValue) : Prop := {
  vt_gen : fits 8 (SV_Generation v); vt_seen : fits 8 (SV_LastSeenNanos v);
  vt_tx : fits 4 (SV_TXSequence v); vt_rx : fits 4 (SV_RXSequence v);
  vt_lisn : fits 4 (SV_LocalISN v); vt_risn : fits 4 (SV_RemoteISN v);
  vt_win : fits 2 (SV_Window v); vt_state : fits 1 (SV_State v); vt_flags : fits 1 (SV_Flags v);
  vt_res : length (SV_Reserved v) = 4%nat; vt_lock : fits 4 (SV_KernelLock v);
  vt_kres : fits 4 (SV_KernelReserved v); vt_rev : fits 8 (SV_Revision v);
  vt_sid : fits 8 (SV_SessionID v); vt_inc : length (SV_RuntimeIncarnation v) = 16%nat
}.

Lemma length_le_bytes n v : length (le_bytes n v) = n.
Proof. revert v. induction n; intros v; simpl; [done|]. by rewrite IHn. Qed.

Lemma le_value_bytes n v : fits n v -> le_value (le_bytes n v) = v.
Proof.
  unfold fits. revert v. induction n as [|n IH]; intros v Hv; simpl.
  - change (2 ^ (8 * Z.of_nat 0)) with 1 in Hv. lia.
  - rewrite Z.shiftr_div_pow2 by lia. change (2 ^ 8) with 256. rewrite IH.
    + unfold u8. change (2 ^ 8) with 256. pose proof (Z.div_mod v 256). lia.
    + replace (8 * Z.of_nat (S n)) with (8 + 8 * Z.of_nat n) in Hv by lia.
      rewrite Z.pow_add_r in Hv by lia. change (2 ^ 8) with 256 in Hv.
      split; [apply Z.div_pos; lia|apply Z.div_lt_upper_bound; lia].
Qed.

(** Reading the field an encoding starts with, and skipping it. *)
Lemma field_here n v l : fits n v -> field (le_bytes n v ++ l) 0 n = v.
Proof.
  intros Hv. unfold field. rewrite drop_0, take_app_le by (rewrite length_le_bytes; lia).
  rewrite firstn_all2 by (rewrite length_le_bytes; lia). by apply le_value_bytes.
Qed.
Lemma field_skip n v l off k : (n <= off)%nat ->
  field (le_bytes n v ++ l) off k = field l (off - n) k.
Proof.
  intros Ho. unfold field. rewrite drop_app_ge by (rewrite length_le_bytes; lia).
  by rewrite length_le_bytes.
Qed.
Lemma field_skip_bytes (b l : list Z) off k n : length b = n -> (n <= off)%nat ->
  field (b ++ l) off k = field l (off - n) k.
Proof. intros <- Ho. unfold field. by rewrite drop_app_ge. Qed.
Lemma bytes_here (b l : list Z) n : length b = n -> bytes_field (b ++ l) 0 n = b.
Proof. intros <-. unfold bytes_field. by rewrite drop_0, take_app_length. Qed.
Lemma bytes_skip n v l off k : (n <= off)%nat ->
  bytes_field (le_bytes n v ++ l) off k = bytes_field l (off - n) k.
Proof.
  intros Ho. unfold bytes_field. rewrite drop_app_ge by (rewrite length_le_bytes; lia).
  by rewrite length_le_bytes.
Qed.
Lemma bytes_skip_bytes (b l : list Z) off k n : length b = n -> (n <= off)%nat ->
  bytes_field (b ++ l) off k = bytes_field l (off - n) k.
Proof. intros <- Ho. unfold bytes_field. by rewrite drop_app_ge. Qed.

Ltac claim_field Hk Hv :=
  repeat first
    [ rewrite field_here by (first [apply Hk | apply Hv])
    | rewrite field_skip by (repeat constructor)
    | rewrite bytes_skip by (repeat constructor)
    | rewrite (field_skip_bytes (SK_Reserved _) _ _ _ 4) by (first [apply Hk | repeat constructor])
    | rewrite (field_skip_bytes (SV_Reserved _) _ _ _ 4) by (first [apply Hv | repeat constructor])
    | rewrite (bytes_skip_bytes (SK_Reserved _) _ _ _ 4) by (first [apply Hk | repeat constructor])
    | rewrite (bytes_skip_bytes (SV_Reserved _) _ _ _ 4) by (first [apply Hv | repeat constructor])
    | rewrite bytes_here by (first [apply Hk | apply Hv])
    | progress (cbn [Nat.sub]) ].

Lemma load_marshal key v : key_typed key -> value_typed v ->
  load_claim_request (encode_session_key key ++ encode_session_value v) = (key, v).
Proof.
  intros Hk Hv. unfold encode_session_key, encode_session_value. rewrite <- !app_assoc.
  rewrite <- (app_nil_r (SV_RuntimeIncarnation v)).
  unfold load_claim_request. claim_field Hk Hv. by destruct key, v.
Qed.

Lemma claim_length key v : key_typed key -> value_typed v ->
  len (encode_session_key key ++ encode_session_value v) = 112.
Proof.
  intros Hk Hv. unfold len, encode_session_key, encode_session_value.
  rewrite !length_app, !length_le_bytes, (kt_res _ Hk), (vt_res _ Hv), (vt_inc _ Hv). done.
Qed.

(** A mutation is visible in the revision, and only happens to an established
    entry. *)
Lemma mutate_revision v g now op arg a v' : fits 8 (SV_Revision v) ->
  faketcp_session_mutate v g now op arg a = Some v' ->
  SV_Revision v' = SV_Revision v + 1 /\ SV_State v = FakeTCPStateEstablished /\
  SV_State v' = FakeTCPStateEstablished /\ SV_SessionID v' = SV_SessionID v /\
  SV_RuntimeIncarnation v' = SV_RuntimeIncarnation v.
Proof.
  intros Hf. unfold faketcp_session_mutate. destruct (_ || _); [done|].
  destruct (_ && negb _) eqn:E; [|done]. intros [= <-]. simpl.
  apply andb_true_iff in E as [E Er]. bool_prop.
  unfold faketcp_session_authority_matches_locked, faketcp_session_metadata_valid_locked in E.
  bool_prop. unfold u64, max_u64, fits in *. change (2 ^ (8 * Z.of_nat 8)) with (2 ^ 64) in Hf.
  rewrite Z.mod_small by lia. done.
Qed.

(** What the claim comparison establishes. *)
Lemma matches_expected_iff v expected : SV_KernelLock v = SV_KernelLock expected ->
  SV_State expected = FakeTCPStateEstablished ->
  faketcp_session_matches_expected_locked v expected true = true <->
  v = expected \/ v = claimed expected.
Proof.
  intros Hl Hs. unfold faketcp_session_matches_expected_locked. split.
  - intros Hm. bool_prop. rewrite Hs in *.
    match goal with Ho : _ || _ = true |- _ => apply orb_true_iff in Ho as [Ho|Ho] end;
      bool_prop; destruct v, expected; simpl in *; subst; auto.
  - intros [->| ->]; simpl; rewrite ?Z.eqb_refl, ?Hs, !bool_decide_true by done; done.
Qed.

(** claim requests round-trip across the boundary.  The bytes
    [marshalFakeTCPSessionClaim] produces for well-typed arguments have the
    size the BPF program requires, and the C structure loaded from them holds
    exactly the key and the complete expected value. *)
Theorem claim_request_roundtrip key v : key_typed key -> value_typed v ->
  exists request, marshalFakeTCPSessionClaim key v = Ret request /\
    len request = fakeTCPSessionClaimRequestSize /\ load_claim_request request = (key, v).
Proof.
  intros Hk Hv. pose proof (claim_length key v Hk Hv) as Hl.
  exists (encode_session_key key ++ encode_session_value v). unfold marshalFakeTCPSessionClaim.
  rewrite Hl. split; [done|]. split; [done|]. by apply load_marshal.
Qed.

Lemma sample_key_typed : key_typed sample_flow.
Proof. by split; vm_compute. Qed.
Lemma sample_session_typed : value_typed sample_session.
Proof. by split; vm_compute. Qed.

Lemma claim_request_roundtrip_witness :
  exists request, marshalFakeTCPSessionClaim sample_flow sample_session = Ret request /\
    len request = fakeTCPSessionClaimRequestSize /\
    load_claim_request request = (sample_flow, sample_session).
Proof. apply claim_request_roundtrip; [apply sample_key_typed|apply sample_session_typed]. Defined.
