(* ===== verification/Engine.v ===== *)
(** * The FakeTCP userspace engine (internal/faketcp/engine.go).

    One [Engine] owns the handshake state machine, the pending-packet queues
    and the SYN admission quotas of one WireGuard path.  The Go methods run
    under one mutex, so each is one state transformer here.  Pointers to
    sessions and ledger entries are never shared outside the two maps: a
    mutation through such a pointer is a write of the map entry ([put_session],
    [put_source]).

    What the engine calls through its [Options] (clocks, initial sequence
    numbers, the established-session store) is the class [Env] over an
    environment state [W].  Times and durations are nanoseconds. *)
From Stdlib Require Import ZArith Lia.
From stdpp Require Import base option list gmap strings numbers.
From S2P Require Import Prelude Abi Checksum L3Parser Runtime ControlPacket.

(** ** Time *)

(** The zero [time.Time] (January 1, year 1) relative to the Unix epoch. *)
Definition time_zero : Z := -62135596800000000000.

(** [t.Sub(u)] saturates at the ends of the [int64] range. *)
Definition time_Sub (t u : Z) : Z := Z.max min_i64 (Z.min max_i64 (t - u)).

(** ** Data *)

Definition synSourcePruneBudget : nat := 4.
Definition BPFMonotonicClockDomain : string := "CLOCK_MONOTONIC/bpf_ktime_get_ns".

Record Options := mkOptions {
  Generation : Z;
  SessionCapacity : Z;
  MaxHalfOpenSessions : Z;
  MaxHalfOpenPerSource : Z;
  SYNRateInterval : Z;
  SYNBurst : Z;
  SYNBurstPerSource : Z;
  SYNSourceLedgerCapacity : Z;
  SYNSourceLedgerTTL : Z;
  MaxPendingFlows : Z;
  MaxPendingPacketsPerFlow : Z;
  MaxPendingBytes : Z;
  HandshakeTimeout : Z;
  HandshakeRetries : Z;
  KeepaliveInterval : Z;
  IdleTimeout : Z;
  Window : Z;
  (** Whether the callbacks are non-nil; the clock with its domain. *)
  has_InitialSequence : bool;
  clock_Domain : option string;
  has_Store : bool
}.

Definition with_Window (o : Options) (w : Z) : Options :=
  mkOptions (Generation o) (SessionCapacity o) (MaxHalfOpenSessions o) (MaxHalfOpenPerSource o)
    (SYNRateInterval o) (SYNBurst o) (SYNBurstPerSource o) (SYNSourceLedgerCapacity o)
    (SYNSourceLedgerTTL o) (MaxPendingFlows o) (MaxPendingPacketsPerFlow o) (MaxPendingBytes o)
    (HandshakeTimeout o) (HandshakeRetries o) (KeepaliveInterval o) (IdleTimeout o) w
    (has_InitialSequence o) (clock_Domain o) (has_Store o).

Definition SessionDeleteDifferent : Z := 0.
Definition SessionDeleteAbsent : Z := 1.
Definition SessionDeleteRemoved : Z := 2.

Record Segment := mkSegment {
  seg_Flags : Z;
  seg_Sequence : Z;
  seg_Acknowledgement : Z;
  seg_PayloadLength : Z
}.

Inductive ActionKind := ActionDrop | ActionForward | ActionSendControl | ActionReleasePending
  | ActionClose.
#[export] Instance ActionKind_eq_dec : EqDecision ActionKind.
Proof. solve_decision. Defined.

Record PendingPacket := mkPendingPacket {
  PP_Data : list Z;
  PP_FWMark : Z;
  PP_WGID : Z;
  PP_CaptureNanos : Z;
  PP_CaptureID : CaptureIdentity;
  PP_CaptureFingerprint : list Z;
  PP_dataOwned : bool
}.

Record Action := mkAction {
  act_Kind : ActionKind;
  act_Flow : FakeTCPSessionKey;
  act_WGID : Z;
  act_Control : ControlPacket;
  act_Packets : list PendingPacket;
  act_Reason : string
}.

Definition ControlPacket_zero : ControlPacket := mkControlPacket 0 0 0 0.

(** [Action{Kind: kind, Flow: flow, Reason: reason}]. *)
Definition simple_action (kind : ActionKind) (flow : FakeTCPSessionKey) (reason : string) : Action :=
  mkAction kind flow 0 ControlPacket_zero [] reason.
Abbreviation drop_action := (simple_action ActionDrop).
Abbreviation close_action := (simple_action ActionClose).

Record synSourceKey := mkSynSourceKey { remoteIPv4 : Z; underlayIndex : Z }.
#[export] Instance synSourceKey_eq_dec : EqDecision synSourceKey.
Proof. solve_decision. Defined.
#[export] Instance synSourceKey_countable : Countable synSourceKey.
Proof.
  refine (inj_countable' (fun k => (remoteIPv4 k, underlayIndex k))
    (fun t => mkSynSourceKey t.1 t.2) _). by intros [].
Defined.
Definition synSourceKey_zero : synSourceKey := mkSynSourceKey 0 0.

Record tokenBucket := mkBucket { tokens : Z; lastRefill : Z; initialized : bool }.

(** The ledger entry; its LRU element is its key's position in [e_synSourceLRU]. *)
Record synSourceState := mkSource {
  src_bucket : tokenBucket;
  src_halfOpen : Z;
  src_lastActivity : Z
}.

Record pendingSessionDelete := mkPendingDelete {
  pd_expected : FakeTCPSessionValue;
  pd_reason : string
}.

Record session := mkSession {
  s_state : Z;
  s_wgID : Z;
  s_localISN : Z;
  s_remoteISN : Z;
  s_txSequence : Z;
  s_rxSequence : Z;
  s_lastActivity : Z;
  s_nextRetry : Z;
  s_nextKeepalive : Z;
  s_retries : Z;
  s_pending : list PendingPacket;
  s_pendingBytes : Z;
  s_halfOpenHeld : bool;
  s_synSource : synSourceKey;
  s_sessionID : Z;
  s_pendingDelete : option pendingSessionDelete
}.

(** Field assignments through a session pointer. *)
Definition set_state (s : session) (v_state : Z) : session :=
  mkSession
    v_state (s_wgID s) (s_localISN s) (s_remoteISN s) (s_txSequence s) (s_rxSequence s)
    (s_lastActivity s) (s_nextRetry s) (s_nextKeepalive s) (s_retries s) (s_pending s)
    (s_pendingBytes s) (s_halfOpenHeld s) (s_synSource s) (s_sessionID s) (s_pendingDelete s).
Definition set_wgID (s : session) (v_wgID : Z) : session :=
  mkSession
    (s_state s) v_wgID (s_localISN s) (s_remoteISN s) (s_txSequence s) (s_rxSequence s)
    (s_lastActivity s) (s_nextRetry s) (s_nextKeepalive s) (s_retries s) (s_pending s)
    (s_pendingBytes s) (s_halfOpenHeld s) (s_synSource s) (s_sessionID s) (s_pendingDelete s).
Definition set_nextRetry (s : session) (v_nextRetry : Z) : session :=
  mkSession
    (s_state s) (s_wgID s) (s_localISN s) (s_remoteISN s) (s_txSequence s) (s_rxSequence s)
    (s_lastActivity s) v_nextRetry (s_nextKeepalive s) (s_retries s) (s_pending s)
    (s_pendingBytes s) (s_halfOpenHeld s) (s_synSource s) (s_sessionID s) (s_pendingDelete s).
Definition set_nextKeepalive (s : session) (v_nextKeepalive : Z) : session :=
  mkSession
    (s_state s) (s_wgID s) (s_localISN s) (s_remoteISN s) (s_txSequence s) (s_rxSequence s)
    (s_lastActivity s) (s_nextRetry s) v_nextKeepalive (s_retries s) (s_pending s)
    (s_pendingBytes s) (s_halfOpenHeld s) (s_synSource s) (s_sessionID s) (s_pendingDelete s).
Definition set_retries (s : session) (v_retries : Z) : session :=
  mkSession
    (s_state s) (s_wgID s) (s_localISN s) (s_remoteISN s) (s_txSequence s) (s_rxSequence s)
    (s_lastActivity s) (s_nextRetry s) (s_nextKeepalive s) v_retries (s_pending s)
    (s_pendingBytes s) (s_halfOpenHeld s) (s_synSource s) (s_sessionID s) (s_pendingDelete s).
Definition set_halfOpenHeld (s : session) (v_halfOpenHeld : bool) : session :=
  mkSession
    (s_state s) (s_wgID s) (s_localISN s) (s_remoteISN s) (s_txSequence s) (s_rxSequence s)
    (s_lastActivity s) (s_nextRetry s) (s_nextKeepalive s) (s_retries s) (s_pending s)
    (s_pendingBytes s) v_halfOpenHeld (s_synSource s) (s_sessionID s) (s_pendingDelete s).
Definition set_sessionID (s : session) (v_sessionID : Z) : session :=
  mkSession
    (s_state s) (s_wgID s) (s_localISN s) (s_remoteISN s) (s_txSequence s) (s_rxSequence s)
    (s_lastActivity s) (s_nextRetry s) (s_nextKeepalive s) (s_retries s) (s_pending s)
    (s_pendingBytes s) (s_halfOpenHeld s) (s_synSource s) v_sessionID (s_pendingDelete s).
Definition set_pendingDelete (s : session) (v_pendingDelete : option pendingSessionDelete) : session :=
  mkSession
    (s_state s) (s_wgID s) (s_localISN s) (s_remoteISN s) (s_txSequence s) (s_rxSequence s)
    (s_lastActivity s) (s_nextRetry s) (s_nextKeepalive s) (s_retries s) (s_pending s)
    (s_pendingBytes s) (s_halfOpenHeld s) (s_synSource s) (s_sessionID s) v_pendingDelete.
Definition set_remote (s : session) (v_remoteISN : Z) (v_rxSequence : Z) : session :=
  mkSession
    (s_state s) (s_wgID s) (s_localISN s) v_remoteISN (s_txSequence s)
    v_rxSequence (s_lastActivity s) (s_nextRetry s) (s_nextKeepalive s) (s_retries s)
    (s_pending s) (s_pendingBytes s) (s_halfOpenHeld s) (s_synSource s) (s_sessionID s)
    (s_pendingDelete s).
Definition set_sequences (s : session) (v_txSequence : Z) (v_rxSequence : Z) : session :=
  mkSession
    (s_state s) (s_wgID s) (s_localISN s) (s_remoteISN s) v_txSequence
    v_rxSequence (s_lastActivity s) (s_nextRetry s) (s_nextKeepalive s) (s_retries s)
    (s_pending s) (s_pendingBytes s) (s_halfOpenHeld s) (s_synSource s) (s_sessionID s)
    (s_pendingDelete s).
Definition set_activity (s : session) (v_lastActivity : Z) (v_nextKeepalive : Z) : session :=
  mkSession
    (s_state s) (s_wgID s) (s_localISN s) (s_remoteISN s) (s_txSequence s) (s_rxSequence s)
    v_lastActivity (s_nextRetry s) v_nextKeepalive (s_retries s) (s_pending s) (s_pendingBytes s)
    (s_halfOpenHeld s) (s_synSource s) (s_sessionID s) (s_pendingDelete s).
Definition set_pending (s : session) (v_pending : list PendingPacket) (v_pendingBytes : Z) : session :=
  mkSession
    (s_state s) (s_wgID s) (s_localISN s) (s_remoteISN s) (s_txSequence s) (s_rxSequence s)
    (s_lastActivity s) (s_nextRetry s) (s_nextKeepalive s) (s_retries s) v_pending
    v_pendingBytes (s_halfOpenHeld s) (s_synSource s) (s_sessionID s) (s_pendingDelete s).

(** The engine without its mutex and its identity pointers; the session-ID
    allocator is shared with the other engines of the runtime domain and lives
    in [EState]. *)
Record Engine := mkEngine {
  e_opts : Options;
  e_identity : RuntimeIdentity;
  e_sessions : gmap FakeTCPSessionKey session;
  e_pendingFlows : Z;
  e_pendingBytes : Z;
  e_halfOpen : Z;
  e_globalSYNs : tokenBucket;
  e_admissionEpoch : Z;
  e_synSources : gmap synSourceKey synSourceState;
  e_synSourceLRU : list synSourceKey;
  e_synSourcePruneVisits : Z
}.

Definition set_sessions (e : Engine) m : Engine :=
  mkEngine (e_opts e) (e_identity e) m (e_pendingFlows e) (e_pendingBytes e) (e_halfOpen e)
    (e_globalSYNs e) (e_admissionEpoch e) (e_synSources e) (e_synSourceLRU e)
    (e_synSourcePruneVisits e).
Definition set_pending_counts (e : Engine) flows bytes : Engine :=
  mkEngine (e_opts e) (e_identity e) (e_sessions e) flows bytes (e_halfOpen e)
    (e_globalSYNs e) (e_admissionEpoch e) (e_synSources e) (e_synSourceLRU e)
    (e_synSourcePruneVisits e).
Definition set_halfOpen (e : Engine) n : Engine :=
  mkEngine (e_opts e) (e_identity e) (e_sessions e) (e_pendingFlows e) (e_pendingBytes e) n
    (e_globalSYNs e) (e_admissionEpoch e) (e_synSources e) (e_synSourceLRU e)
    (e_synSourcePruneVisits e).
Definition set_globalSYNs (e : Engine) b : Engine :=
  mkEngine (e_opts e) (e_identity e) (e_sessions e) (e_pendingFlows e) (e_pendingBytes e)
    (e_halfOpen e) b (e_admissionEpoch e) (e_synSources e) (e_synSourceLRU e)
    (e_synSourcePruneVisits e).
Definition set_ledger (e : Engine) sources lru : Engine :=
  mkEngine (e_opts e) (e_identity e) (e_sessions e) (e_pendingFlows e) (e_pendingBytes e)
    (e_halfOpen e) (e_globalSYNs e) (e_admissionEpoch e) sources lru (e_synSourcePruneVisits e).
Definition add_prune_visit (e : Engine) : Engine :=
  mkEngine (e_opts e) (e_identity e) (e_sessions e) (e_pendingFlows e) (e_pendingBytes e)
    (e_halfOpen e) (e_globalSYNs e) (e_admissionEpoch e) (e_synSources e) (e_synSourceLRU e)
    (u64 (e_synSourcePruneVisits e + 1)).

Definition put_session (e : Engine) (flow : FakeTCPSessionKey) (s : session) : Engine :=
  set_sessions e (<[flow := s]> (e_sessions e)).
Definition put_source (e : Engine) (key : synSourceKey) (source : synSourceState) : Engine :=
  set_ledger e (<[key := source]> (e_synSources e)) (e_synSourceLRU e).

(** ** Construction *)

Definition limits_ok (o : Options) : bool :=
  negb ((SessionCapacity o <=? 0) || (MaxPendingFlows o <=? 0) ||
        (SessionCapacity o <? MaxPendingFlows o) ||
        (MaxPendingPacketsPerFlow o <=? 0) || (MaxPendingBytes o <=? 0)).
Definition admission_limits_ok (o : Options) : bool :=
  negb ((MaxHalfOpenSessions o <=? 0) || (SessionCapacity o <=? MaxHalfOpenSessions o) ||
        (MaxHalfOpenPerSource o <=? 0) || (MaxHalfOpenSessions o <? MaxHalfOpenPerSource o) ||
        (SYNRateInterval o <=? 0) || (SYNBurst o <=? 0) ||
        (SYNBurstPerSource o <=? 0) || (SYNBurst o <? SYNBurstPerSource o) ||
        (SYNSourceLedgerCapacity o <? MaxHalfOpenSessions o) ||
        (SYNSourceLedgerTTL o <? SYNRateInterval o)).
Definition timeouts_ok (o : Options) : bool :=
  negb ((HandshakeTimeout o <=? 0) || (HandshakeRetries o <=? 0) ||
        (KeepaliveInterval o <=? 0) || (IdleTimeout o <=? KeepaliveInterval o)).

(** [newEngine] for a complete runtime domain with identity [identity]; [now]
    is the construction-time reading of [options.Now()]. *)
Definition newEngine (options : Options) (identity : RuntimeIdentity) (now : Z) : outcome Engine :=
  fail_if Generation options =? 0 with "faketcp generation must be non-zero" in
  fail_if negb (RI_Generation identity =? Generation options)
    with "faketcp Engine options do not match a complete runtime domain" in
  fail_if negb (limits_ok options)
    with "faketcp session and pending limits must be positive and bounded" in
  fail_if negb (admission_limits_ok options)
    with "faketcp half-open and SYN-rate limits are invalid" in
  fail_if negb (timeouts_ok options) with "faketcp timeouts and retry limit are invalid" in
  fail_if negb (has_InitialSequence options)
    with "faketcp initial sequence source is required" in
  match clock_Domain options with
  | None => Fail "faketcp CLOCK_MONOTONIC source is required"
  | Some domain =>
      fail_if negb (String.eqb domain BPFMonotonicClockDomain)
        with "faketcp monotonic clock domain does not match BPF domain" in
      fail_if negb (has_Store options)
        with "faketcp established session store is required" in
      let options := if Window options =? 0 then with_Window options 65535 else options in
      Ret (mkEngine options identity ∅ 0 0 0 (mkBucket 0 now true) now ∅ [] 0)
  end.

(** ** Pure helpers *)

Definition validateFlow (e : Engine) (flow : FakeTCPSessionKey) : option error :=
  if negb (SK_Generation flow =? Generation (e_opts e)) || (SK_LocalIPv4 flow =? 0) ||
     (SK_RemoteIPv4 flow =? 0) || (SK_UnderlayIndex flow =? 0) || (SK_LocalPort flow =? 0) ||
     (SK_RemotePort flow =? 0) || (SK_WGID flow =? 0) ||
     negb (bool_decide (SK_Reserved flow = zeros 4))
  then Some "faketcp flow must use the active generation, a non-zero WGID/IPv4/port/underlay identity, and zero reserved bytes"
  else None.

Record engineCheckpoint := mkCheckpoint {
  cp_session : option session;
  cp_pendingFlows : Z;
  cp_pendingBytes : Z
}.

Definition checkpoint (e : Engine) (s : option session) : engineCheckpoint :=
  mkCheckpoint s (e_pendingFlows e) (e_pendingBytes e).

Definition restore (e : Engine) (flow : FakeTCPSessionKey) (c : engineCheckpoint) : Engine :=
  let e := set_pending_counts e (cp_pendingFlows c) (cp_pendingBytes c) in
  match cp_session c with
  | None => set_sessions e (delete flow (e_sessions e))
  | Some s => put_session e flow s
  end.

(** The copy of the bytes has equal content. *)
Definition ownPendingPacket (p : PendingPacket) : PendingPacket :=
  if PP_dataOwned p then p
  else mkPendingPacket (PP_Data p) (PP_FWMark p) (PP_WGID p) (PP_CaptureNanos p) (PP_CaptureID p)
         (PP_CaptureFingerprint p) true.

Definition enqueue (e : Engine) (flow : FakeTCPSessionKey) (s : session) (packet : PendingPacket)
    : Engine * bool :=
  if (len (PP_Data packet) =? 0) || (MaxPendingPacketsPerFlow (e_opts e) <=? len (s_pending s)) ||
     (MaxPendingBytes (e_opts e) <? e_pendingBytes e + len (PP_Data packet))
  then (e, false)
  else if (len (s_pending s) =? 0) && (MaxPendingFlows (e_opts e) <=? e_pendingFlows e)
  then (e, false)
  else
    let flows := if len (s_pending s) =? 0 then e_pendingFlows e + 1 else e_pendingFlows e in
    let packet := ownPendingPacket packet in
    let s := set_pending s (s_pending s ++ [packet]) (s_pendingBytes s + len (PP_Data packet)) in
    (put_session (set_pending_counts e flows (e_pendingBytes e + len (PP_Data packet))) flow s,
     true).

(** ** SYN admission *)

Definition refillTokenBucket (b : tokenBucket) (now interval burst : Z) : tokenBucket :=
  if negb (initialized b) then mkBucket (tokens b) now true
  else if now <? lastRefill b + interval then b
  else
    let steps := Z.quot (time_Sub now (lastRefill b)) interval in
    if burst <=? steps then mkBucket burst now (initialized b)
    else mkBucket (Z.min burst (tokens b + steps)) (lastRefill b + steps * interval)
           (initialized b).

Definition take_token (b : tokenBucket) : tokenBucket :=
  mkBucket (tokens b - 1) (lastRefill b) (initialized b).

(** [list.MoveToFront] of the element that holds [key]. *)
Definition move_to_front (key : synSourceKey) (lru : list synSourceKey) : list synSourceKey :=
  if bool_decide (key ∈ lru) then key :: filter (fun k => k <> key) lru else lru.

Definition touchSYNSource (e : Engine) (key : synSourceKey) (source : synSourceState) (now : Z)
    : Engine :=
  set_ledger e (<[key := mkSource (src_bucket source) (src_halfOpen source) now]> (e_synSources e))
    (move_to_front key (e_synSourceLRU e)).

Fixpoint pruneExpiredSYNSources (e : Engine) (now : Z) (budget : nat) : Engine :=
  match budget with
  | O => e
  | S budget =>
      match list.last (e_synSourceLRU e) with
      | None => e
      | Some key =>
          let e := add_prune_visit e in
          match e_synSources e !! key with
          | None =>
              pruneExpiredSYNSources
                (set_ledger e (e_synSources e) (removelast (e_synSourceLRU e))) now budget
          | Some source =>
              if now <? src_lastActivity source + SYNSourceLedgerTTL (e_opts e) then e
              else if src_halfOpen source =? 0 then
                pruneExpiredSYNSources
                  (set_ledger e (delete key (e_synSources e)) (removelast (e_synSourceLRU e)))
                  now budget
              else pruneExpiredSYNSources (touchSYNSource e key source now) now budget
          end
      end
  end.

(** The source ([inl]) or the rejection reason ([inr]). *)
Definition lookupOrCreateSYNSource (e : Engine) (key : synSourceKey) (now : Z)
    : Engine * (synSourceState + string) :=
  let e := pruneExpiredSYNSources e now synSourcePruneBudget in
  match e_synSources e !! key with
  | Some source =>
      (touchSYNSource e key source now,
       inl (mkSource (src_bucket source) (src_halfOpen source) now))
  | None =>
      if SYNSourceLedgerCapacity (e_opts e) <=? mlen (e_synSources e)
      then (e, inr "syn-source-ledger-capacity")
      else
        let source := mkSource (mkBucket 0 (e_admissionEpoch e) true) 0 now in
        (set_ledger e (<[key := source]> (e_synSources e)) (key :: e_synSourceLRU e), inl source)
  end.

Definition syn_source_of (flow : FakeTCPSessionKey) : synSourceKey :=
  mkSynSourceKey (SK_RemoteIPv4 flow) (SK_UnderlayIndex flow).

(** The admitted source key ([inl]) or the rejection reason ([inr]). *)
Definition observeSYN (e : Engine) (flow : FakeTCPSessionKey) (now : Z)
    : Engine * (synSourceKey + string) :=
  let o := e_opts e in
  let global := refillTokenBucket (e_globalSYNs e) now (SYNRateInterval o) (SYNBurst o) in
  let e := set_globalSYNs e global in
  if tokens global =? 0 then (e, inr "syn-rate-global")
  else
    let e := set_globalSYNs e (take_token global) in
    let key := syn_source_of flow in
    match lookupOrCreateSYNSource e key now with
    | (e, inr rejection) => (e, inr rejection)
    | (e, inl source) =>
        let bucket :=
          refillTokenBucket (src_bucket source) now (SYNRateInterval o) (SYNBurstPerSource o) in
        let source := mkSource bucket (src_halfOpen source) (src_lastActivity source) in
        if tokens bucket =? 0 then (put_source e key source, inr "syn-rate-source")
        else (put_source e key (mkSource (take_token bucket) (src_halfOpen source)
                (src_lastActivity source)), inl key)
    end.

(** [None] when the reservation was made. *)
Definition reserveInboundHalfOpen (e : Engine) (key : synSourceKey) : Engine * option string :=
  if MaxHalfOpenSessions (e_opts e) <=? e_halfOpen e then (e, Some "half-open-capacity")
  else match e_synSources e !! key with
  | None => (e, Some "syn-source-ledger-missing")
  | Some source =>
      if MaxHalfOpenPerSource (e_opts e) <=? src_halfOpen source
      then (e, Some "half-open-source-capacity")
      else (set_halfOpen (put_source e key (mkSource (src_bucket source) (src_halfOpen source + 1)
              (src_lastActivity source))) (e_halfOpen e + 1), None)
  end.

(** The (value, error) pair of a call without index operations, which cannot panic. *)
Definition go_result {A} (m : outcome A) : A + error :=
  match m with Ret a => inl a | Fail err => inr err | Panic => inr "panic" end.
Definition go_error (m : outcome unit) : option error :=
  match go_result m with inl _ => None | inr err => Some err end.

(** ** The environment *)

(** What the engine reads and calls through its options.  The delete result is
    the raw [SessionDeleteResult] byte. *)
Class Env (W : Type) := {
  env_Now : W -> Z * W;
  env_NowNanos : W -> (Z + error) * W;
  env_InitialSequence : W -> Z * W;
  store_InsertEstablished : FakeTCPSessionKey -> FakeTCPSessionValue -> W -> option error * W;
  store_LookupEstablished : FakeTCPSessionKey -> W -> (option FakeTCPSessionValue + error) * W;
  store_DeleteEstablishedIfUnchanged :
    FakeTCPSessionKey -> FakeTCPSessionValue -> W -> (Z + error) * W
}.

Record EState (W : Type) := mkEState {
  es_engine : Engine;
  es_sessionIDs : sessionIDAllocator;
  es_env : W
}.
Arguments mkEState {W}.
Arguments es_engine {W}.
Arguments es_sessionIDs {W}.
Arguments es_env {W}.

(** State passing over the engine, the shared allocator and the environment. *)
Definition M (W A : Type) : Type := EState W -> A * EState W.

Definition eret {W A} (a : A) : M W A := fun st => (a, st).
Definition ebind {W A B} (m : M W A) (k : A -> M W B) : M W B :=
  fun st => let '(a, st) := m st in k a st.

Declare Scope engine_scope.
Delimit Scope engine_scope with engine.
Notation "'run!' x ':=' m 'in' k" := (ebind m (fun x => k))
  (at level 10, x pattern, m at level 100, k at level 200) : engine_scope.
Notation "'do!' m 'in' k" := (ebind m (fun _ => k))
  (at level 10, m at level 100, k at level 200) : engine_scope.
#[global] Open Scope engine_scope.

Section engine.
Context {W : Type} `{Env W}.
Abbreviation M := (M W).

Definition get_engine : M Engine := fun st => (es_engine st, st).
Definition set_engine (e : Engine) : M unit :=
  fun st => (tt, mkEState e (es_sessionIDs st) (es_env st)).
Definition call {A} (f : W -> A * W) : M A :=
  fun st => let '(a, w) := f (es_env st) in (a, mkEState (es_engine st) (es_sessionIDs st) w).
Definition allocate_id : M (Z + error) :=
  fun st => let '(a, r) := allocate (es_sessionIDs st) in
            (go_result r, mkEState (es_engine st) a (es_env st)).

Definition modify (f : Engine -> Engine) : M unit := run! e := get_engine in set_engine (f e).
Definition Now : M Z := call env_Now.

(** ** Effectful helpers.  Those that mutate a session return it as mutated. *)

Definition releaseHalfOpen (flow : FakeTCPSessionKey) (s : session) : M session :=
  if negb (s_halfOpenHeld s) then eret s
  else
    let s := set_halfOpenHeld s false in
    do! modify (fun e => put_session e flow s) in
    do! modify (fun e => if 0 <? e_halfOpen e then set_halfOpen e (e_halfOpen e - 1) else e) in
    if remoteIPv4 (s_synSource s) =? 0 then eret s
    else
      run! e := get_engine in
      match e_synSources e !! s_synSource s with
      | None => eret s
      | Some source =>
          let source := if 0 <? src_halfOpen source
            then mkSource (src_bucket source) (src_halfOpen source - 1) (src_lastActivity source)
            else source in
          run! now := Now in
          do! modify (fun e => touchSYNSource e (s_synSource s) source now) in
          eret s
      end.

Definition release (flow : FakeTCPSessionKey) (s : session) : M (session * list Action) :=
  if len (s_pending s) =? 0 then eret (s, [])
  else
    let packets := s_pending s in
    do! modify (fun e => set_pending_counts e (e_pendingFlows e - 1)
                           (e_pendingBytes e - s_pendingBytes s)) in
    let s := set_pending s [] 0 in
    do! modify (fun e => put_session e flow s) in
    eret (s, [mkAction ActionReleasePending flow (s_wgID s) ControlPacket_zero packets ""]).

Definition remove (flow : FakeTCPSessionKey) (s : session) : M unit :=
  run! s := releaseHalfOpen flow s in
  do! (if negb (len (s_pending s) =? 0)
       then modify (fun e => set_pending_counts e (e_pendingFlows e - 1)
                               (e_pendingBytes e - s_pendingBytes s))
       else eret tt) in
  modify (fun e => set_sessions e (delete flow (e_sessions e))).

Definition control (e : Engine) (flow : FakeTCPSessionKey) (s : session) (flags seq ack : Z)
    (reason : string) : Action :=
  mkAction ActionSendControl flow (s_wgID s)
    (mkControlPacket flags seq ack (Window (e_opts e))) [] reason.

Definition controlEstablished (e : Engine) (flow : FakeTCPSessionKey) (s : session)
    (value : FakeTCPSessionValue) (flags seq ack : Z) (reason : string) : Action :=
  let window := if SV_Window value =? 0 then Window (e_opts e) else SV_Window value in
  mkAction ActionSendControl flow (s_wgID s) (mkControlPacket flags seq ack window) [] reason.

Definition established_value (e : Engine) (flow : FakeTCPSessionKey) (s : session) (nanos : Z)
    : FakeTCPSessionValue :=
  mkSessionValue (SK_Generation flow) nanos (s_txSequence s) (s_rxSequence s) (s_localISN s)
    (s_remoteISN s) (Window (e_opts e)) (s_state s) 0 (zeros 4) 0 0 1 (s_sessionID s)
    (RI_Incarnation (e_identity e)).

Definition insertEstablished (flow : FakeTCPSessionKey) (s : session)
    : M (session * option error) :=
  run! r := call env_NowNanos in
  match r with
  | inr err => eret (s, Some ("read faketcp clock for established insert: " +:+ err))
  | inl nowMonotonic =>
      run! id := (if s_sessionID s =? 0 then allocate_id else eret (inl (s_sessionID s))) in
      match id with
      | inr err => eret (set_sessionID s 0, Some err)
      | inl id =>
          let s := set_sessionID s id in
          do! modify (fun e => put_session e flow s) in
          run! e := get_engine in
          run! err := call (store_InsertEstablished flow (established_value e flow s nowMonotonic)) in
          eret (s, err)
      end
  end.

Definition lookupEstablished (flow : FakeTCPSessionKey) (s : session)
    : M (session * (option FakeTCPSessionValue + error)) :=
  run! r := call (store_LookupEstablished flow) in
  match r with
  | inr err => eret (s, inr err)
  | inl None => eret (s, inl None)
  | inl (Some value) =>
      run! e := get_engine in
      if negb (SV_Generation value =? SK_Generation flow) ||
         negb (SV_State value =? FakeTCPStateEstablished)
      then eret (s, inr "faketcp fast session has invalid generation or state")
      else if negb (SV_LocalISN value =? s_localISN s) || negb (SV_RemoteISN value =? s_remoteISN s)
      then eret (s, inr "faketcp fast session identity changed")
      else if negb (SV_SessionID value =? s_sessionID s) ||
              negb (bool_decide (SV_RuntimeIncarnation value = RI_Incarnation (e_identity e)))
      then eret (s, inr "faketcp fast session incarnation changed")
      else
        let s := set_sequences s (SV_TXSequence value) (SV_RXSequence value) in
        do! modify (fun e => put_session e flow s) in
        eret (s, inl (Some value))
  end.

Definition compareDeleteEstablished (flow : FakeTCPSessionKey) (s : session)
    (request : pendingSessionDelete) : M (session * (Z + error)) :=
  run! r := call (store_DeleteEstablishedIfUnchanged flow (pd_expected request)) in
  let r := match r with
           | inl result => if SessionDeleteRemoved <? result
                           then inr "faketcp session store returned invalid delete result"
                           else inl result
           | inr err => inr err
           end in
  let s := set_pendingDelete s (match r with inr _ => Some request | inl _ => None end) in
  do! modify (fun e => put_session e flow s) in
  eret (s, r).

(** Called with [s_pendingDelete s = Some request]. *)
Definition retryPendingDelete (flow : FakeTCPSessionKey) (s : session)
    (request : pendingSessionDelete) : M (Action * option error) :=
  run! (s, r) := compareDeleteEstablished flow s request in
  match r with
  | inr err => eret (drop_action flow "session-store-unavailable", Some err)
  | inl result =>
      if result =? SessionDeleteDifferent
      then eret (drop_action flow "fast-session-raced", None)
      else do! remove flow s in eret (close_action flow (pd_reason request), None)
  end.

Definition Result : Type := list Action * option error.

Definition drop_result (flow : FakeTCPSessionKey) (reason : string) : M Result :=
  eret ([drop_action flow reason], None).

(** ** Outbound datagrams *)

Definition outbound_established (flow : FakeTCPSessionKey) (s : session) (packet : PendingPacket)
    (alreadyDropped : bool) : M Result :=
  match s_pendingDelete s with
  | Some request =>
      run! (action, err) := retryPendingDelete flow s request in eret ([action], err)
  | None =>
      run! now := Now in
      if negb (PP_WGID packet =? 0) && negb (s_wgID s =? 0) && negb (PP_WGID packet =? s_wgID s)
      then drop_result flow "wg-id-mismatch"
      else
        let s := if s_wgID s =? 0 then set_wgID s (PP_WGID packet) else s in
        do! modify (fun e => put_session e flow s) in
        run! (s, r) := lookupEstablished flow s in
        match r with
        | inr err => eret ([drop_action flow "session-store-unavailable"], Some err)
        | inl None =>
            do! remove flow s in eret ([close_action flow "fast-session-missing"], None)
        | inl (Some _) =>
            run! e := get_engine in
            let s := set_nextKeepalive s (now + KeepaliveInterval (e_opts e)) in
            do! modify (fun e => put_session e flow s) in
            if alreadyDropped
            then eret ([mkAction ActionReleasePending flow (s_wgID s) ControlPacket_zero
                          [ownPendingPacket packet] ""], None)
            else eret ([simple_action ActionForward flow ""], None)
        end
  end.

(** The queueing tail of [outbound], for a session that is not established. *)
Definition outbound_pending (flow : FakeTCPSessionKey) (s : session) (packet : PendingPacket)
    (created : bool) : M Result :=
  if negb (s_wgID s =? 0) && negb (PP_WGID packet =? 0) && negb (PP_WGID packet =? s_wgID s)
  then drop_result flow "wg-id-mismatch"
  else
    let s := if s_wgID s =? 0 then set_wgID s (PP_WGID packet) else s in
    do! modify (fun e => put_session e flow s) in
    run! e := get_engine in
    let '(e, queued) := enqueue e flow s packet in
    do! set_engine e in
    eret ((if created
           then [control e flow s FlagSYN (s_localISN s) 0 "initial-handshake"] else []) ++
          (if queued then [] else [drop_action flow "pending-capacity"]), None).

Definition outbound (flow : FakeTCPSessionKey) (packet : PendingPacket) (alreadyDropped : bool)
    : M Result :=
  run! e := get_engine in
  match validateFlow e flow with
  | Some err => eret ([], Some err)
  | None =>
      if negb (PP_WGID packet =? SK_WGID flow) then drop_result flow "wg-id-mismatch"
      else match e_sessions e !! flow with
      | Some s =>
          if s_state s =? FakeTCPStateEstablished
          then outbound_established flow s packet alreadyDropped
          else do! Now in outbound_pending flow s packet false
      | None =>
          run! now := Now in
          if SessionCapacity (e_opts e) <=? mlen (e_sessions e)
          then drop_result flow "session-capacity"
          else if MaxHalfOpenSessions (e_opts e) <=? e_halfOpen e
          then drop_result flow "half-open-capacity"
          else
            run! isn := call env_InitialSequence in
            let isn := u32 isn in
            let s := mkSession FakeTCPStateSynSent (PP_WGID packet) isn 0 (u32 (isn + 1)) 0 now
                       (now + HandshakeTimeout (e_opts e)) time_zero 1 [] 0 true
                       synSourceKey_zero 0 None in
            do! modify (fun e => put_session (set_halfOpen e (e_halfOpen e + 1)) flow s) in
            outbound_pending flow s packet true
      end
  end.

Definition CaptureIdentity_zero : CaptureIdentity :=
  mkCaptureIdentity (mkRuntimeIdentity 0 (zeros 16)) 0 0.

Definition Outbound (flow : FakeTCPSessionKey) (packet : list Z) : M Result :=
  outbound flow (mkPendingPacket packet 0 (SK_WGID flow) 0 CaptureIdentity_zero (zeros 32) false)
    false.

Definition handleOwnedCapturedPacket (event : FakeTCPEvent) (packet fingerprint : list Z)
    : M Result :=
  run! e := get_engine in
  if negb (EV_Type event =? FakeTCPEventNeedHandshake)
  then eret ([], Some "faketcp packet event type is not NEED_HANDSHAKE")
  else if (len packet =? 0) || negb (len packet =? EV_PacketLength event) ||
          (FakeTCPMaxCapturedPacket <? len packet)
  then eret ([], Some "faketcp captured packet body length mismatch")
  else if negb (EV_EventABIVersion event =? FakeTCPEventABIVersion)
  then eret ([], Some "faketcp event ABI version mismatch")
  else if negb (bool_decide (runtimeIdentityFromEvent event = e_identity e))
  then eret ([], Some "faketcp packet event identity does not match Engine")
  else
    let captureID := captureIdentityFromEvent event in
    match go_error (validateCaptureIdentity captureID (SK_Generation (EV_Key event))) with
    | Some err => eret ([], Some err)
    | None =>
        outbound (EV_Key event) (mkPendingPacket packet (EV_FWMark event) (EV_WGID event)
          (EV_TimestampNanos event) captureID fingerprint true) true
    end.

(** [packetArray] is the event's fixed-size packet field; [sha256] is
    [crypto/sha256.Sum256]. *)
Definition HandlePacketEvent (sha256 : list Z -> list Z) (event : FakeTCPEvent)
    (packetArray : list Z) : M Result :=
  let length := EV_PacketLength event in
  if (length <=? 0) || (len packetArray <? length)
  then eret ([], Some "faketcp captured packet length is invalid")
  else
    let packet := take (Z.to_nat length) packetArray in
    handleOwnedCapturedPacket event packet (sha256 packet).

(** ** Inbound segments *)

Definition has_flags (flags mask : Z) : bool := Z.land flags mask =? mask.

(** The branch of [inbound] for a flow without a session. *)
Definition inbound_new (flow : FakeTCPSessionKey) (seg : Segment) (wgID now : Z)
    (synSource : synSourceKey) : M Result :=
  run! e := get_engine in
  if negb (seg_Flags seg =? FlagSYN) then drop_result flow "unknown-flow"
  else if SessionCapacity (e_opts e) <=? mlen (e_sessions e)
  then drop_result flow "session-capacity"
  else
    let '(e, rejection) := reserveInboundHalfOpen e synSource in
    do! set_engine e in
    match rejection with
    | Some reason => drop_result flow reason
    | None =>
        run! isn := call env_InitialSequence in
        let isn := u32 isn in
        let s := mkSession FakeTCPStateSynReceived wgID isn (seg_Sequence seg) (u32 (isn + 1))
                   (u32 (seg_Sequence seg + 1)) now (now + HandshakeTimeout (e_opts e)) time_zero
                   1 [] 0 true synSource 0 None in
        do! modify (fun e => put_session e flow s) in
        eret ([control e flow s (Z.lor FlagSYN FlagACK) (s_localISN s) (s_rxSequence s)
                 "accept-syn"], None)
    end.

(** The tail of [inbound] after a transition into the established state. *)
Definition inbound_establish (flow : FakeTCPSessionKey) (s : session) (actions : list Action)
    (cp : engineCheckpoint) : M Result :=
  run! (s, err) := insertEstablished flow s in
  match err with
  | Some err =>
      do! modify (fun e => restore e flow cp) in
      eret ([drop_action flow "session-store-unavailable"], Some err)
  | None => do! releaseHalfOpen flow s in eret (actions, None)
  end.

(** The state switch of [inbound] for an existing session. *)
Definition inbound_existing (flow : FakeTCPSessionKey) (seg : Segment) (wgID now : Z)
    (s : session) (cp : engineCheckpoint) : M Result :=
  run! e := get_engine in
  let s := if s_wgID s =? 0 then set_wgID s wgID else s in
  let s := set_activity s now (now + KeepaliveInterval (e_opts e)) in
  do! modify (fun e => put_session e flow s) in
  if s_state s =? FakeTCPStateSynSent then
    if has_flags (seg_Flags seg) (Z.lor FlagSYN FlagACK) &&
       (seg_Acknowledgement seg =? s_txSequence s)
    then
      let s := set_remote s (seg_Sequence seg) (u32 (seg_Sequence seg + 1)) in
      let s := set_state s FakeTCPStateEstablished in
      do! modify (fun e => put_session e flow s) in
      let ack := control e flow s FlagACK (s_txSequence s) (s_rxSequence s) "complete-handshake" in
      run! (s, released) := release flow s in
      inbound_establish flow s (ack :: released) cp
    else if seg_Flags seg =? FlagSYN then
      let s := set_remote s (seg_Sequence seg) (u32 (seg_Sequence seg + 1)) in
      let s := set_state s FakeTCPStateSynReceived in
      do! modify (fun e => put_session e flow s) in
      eret ([control e flow s (Z.lor FlagSYN FlagACK) (s_localISN s) (s_rxSequence s)
               "simultaneous-open"], None)
    else drop_result flow "invalid-syn-sent-segment"
  else if s_state s =? FakeTCPStateSynReceived then
    if (seg_Flags seg =? FlagSYN) && (seg_Sequence seg =? s_remoteISN s)
    then eret ([control e flow s (Z.lor FlagSYN FlagACK) (s_localISN s) (s_rxSequence s)
                  "duplicate-syn"], None)
    else if negb (Z.land (seg_Flags seg) FlagACK =? 0) &&
            (seg_Acknowledgement seg =? s_txSequence s)
    then
      let s := set_state s FakeTCPStateEstablished in
      do! modify (fun e => put_session e flow s) in
      run! (s, released) := release flow s in
      inbound_establish flow s released cp
    else drop_result flow "invalid-syn-received-segment"
  else if s_state s =? FakeTCPStateEstablished then
    if negb (Z.land (seg_Flags seg) FlagSYN =? 0)
    then drop_result flow "syn-on-established"
    else
      run! (s, r) := lookupEstablished flow s in
      match r with
      | inr err =>
          do! modify (fun e => restore e flow cp) in
          eret ([drop_action flow "session-store-unavailable"], Some err)
      | inl None =>
          do! remove flow s in eret ([close_action flow "fast-session-missing"], None)
      | inl (Some _) => eret ([simple_action ActionForward flow ""], None)
      end
  else drop_result flow "invalid-state".

(** [inbound] behind SYN admission. *)
Definition inbound_admitted (flow : FakeTCPSessionKey) (seg : Segment) (wgID now : Z)
    (s : option session) (cp : engineCheckpoint) (synSource : synSourceKey) : M Result :=
  if match s with
     | Some s => negb (wgID =? 0) && negb (s_wgID s =? 0) && negb (wgID =? s_wgID s)
     | None => false
     end
  then drop_result flow "wg-id-mismatch"
  else if negb (Z.land (seg_Flags seg) (Z.lor FlagRST FlagFIN) =? 0) then
    match s with
    | None => drop_result flow "unknown-close"
    | Some s =>
        if s_state s =? FakeTCPStateEstablished
        then drop_result flow "unvalidated-close"
        else do! remove flow s in eret ([close_action flow "peer-close"], None)
    end
  else match s with
  | None => inbound_new flow seg wgID now synSource
  | Some s => inbound_existing flow seg wgID now s cp
  end.

Definition inbound (flow : FakeTCPSessionKey) (seg : Segment) (wgID : Z) : M Result :=
  run! e := get_engine in
  match validateFlow e flow with
  | Some err => eret ([], Some err)
  | None =>
      if negb (wgID =? SK_WGID flow) then drop_result flow "wg-id-mismatch"
      else
        run! now := Now in
        let s := e_sessions e !! flow in
        let cp := checkpoint e s in
        match s, s ≫= s_pendingDelete with
        | Some s, Some request =>
            run! (action, err) := retryPendingDelete flow s request in eret ([action], err)
        | _, _ =>
            if seg_Flags seg =? FlagSYN then
              let '(e, admitted) := observeSYN e flow now in
              do! set_engine e in
              match admitted with
              | inr rejection => drop_result flow rejection
              | inl synSource => inbound_admitted flow seg wgID now s cp synSource
              end
            else inbound_admitted flow seg wgID now s cp synSourceKey_zero
        end
  end.

Definition Inbound (flow : FakeTCPSessionKey) (seg : Segment) : M Result :=
  inbound flow seg (SK_WGID flow).
Definition InboundWithWGID (flow : FakeTCPSessionKey) (seg : Segment) (wgID : Z) : M Result :=
  inbound flow seg wgID.

(** ** Captured close control *)

(** The part of [InboundCapturedControl] behind its envelope checks. *)
Definition close_established (event : FakeTCPEvent) (packet : list Z) (s : session) : M Result :=
  let flow := EV_Key event in
  run! (s, r) := lookupEstablished flow s in
  match r with
  | inr err => eret ([drop_action flow "session-store-unavailable"], Some err)
  | inl None => drop_result flow "fast-session-missing"
  | inl (Some value) =>
      match go_error (validateIPv4TCPControl packet event value) with
      | Some _ => drop_result flow "invalid-close-control"
      | None =>
          run! (s, r) := compareDeleteEstablished flow s (mkPendingDelete value "peer-close") in
          match r with
          | inr err => eret ([drop_action flow "session-store-unavailable"], Some err)
          | inl result =>
              if result =? SessionDeleteDifferent then drop_result flow "fast-session-raced"
              else do! remove flow s in eret ([close_action flow "peer-close"], None)
          end
      end
  end.

Definition InboundCapturedControl (event : FakeTCPEvent) (packet : list Z) : M Result :=
  run! e := get_engine in
  let flow := EV_Key event in
  match validateFlow e flow with
  | Some err => eret ([], Some err)
  | None =>
      if negb (EV_WGID event =? SK_WGID flow) then drop_result flow "wg-id-mismatch"
      else if negb (bool_decide (runtimeIdentityFromEvent event = e_identity e)) ||
              negb (EV_EventABIVersion event =? FakeTCPEventABIVersion)
      then eret ([], Some "faketcp close event does not match the active runtime identity")
      else if negb (EV_Type event =? FakeTCPEventRST) && negb (EV_Type event =? FakeTCPEventFIN)
      then eret ([], Some "faketcp captured control event is not RST or FIN")
      else if negb (EV_PacketLength event =? u16 (len packet)) ||
              negb (len packet =? controlPacketLength) || negb (EV_PayloadLength event =? 0) ||
              negb (EV_CaptureSequence event =? 0) || negb (EV_CaptureCPU event =? 0) ||
              negb (EV_FWMark event =? 0)
      then drop_result flow "invalid-close-envelope"
      else match e_sessions e !! flow with
      | None => drop_result flow "unknown-close"
      | Some s =>
          if (EV_WGID event =? 0) || (s_wgID s =? 0) || negb (EV_WGID event =? s_wgID s)
          then drop_result flow "wg-id-mismatch"
          else match s_pendingDelete s with
          | Some request =>
              run! (action, err) := retryPendingDelete flow s request in eret ([action], err)
          | None =>
              if negb (s_state s =? FakeTCPStateEstablished)
              then drop_result flow "unvalidated-close"
              else close_established event packet s
          end
      end
  end.

(** ** Periodic work *)

Definition tick_handshake (flow : FakeTCPSessionKey) (s : session) (now : Z)
    : M (list Action * list error) :=
  run! e := get_engine in
  if now <? s_nextRetry s then eret ([], [])
  else if HandshakeRetries (e_opts e) <=? s_retries s then
    do! remove flow s in eret ([close_action flow "handshake-timeout"], [])
  else
    let s := set_retries s (s_retries s + 1) in
    let s := set_nextRetry s (now + HandshakeTimeout (e_opts e)) in
    do! modify (fun e => put_session e flow s) in
    let '(flags, ack) := if s_state s =? FakeTCPStateSynReceived
                         then (Z.lor FlagSYN FlagACK, s_rxSequence s) else (FlagSYN, 0) in
    eret ([control e flow s flags (s_localISN s) ack "handshake-retry"], []).

Definition tick_established (flow : FakeTCPSessionKey) (s : session) (now nowMonotonic : Z)
    : M (list Action * list error) :=
  match s_pendingDelete s with
  | Some request =>
      run! (action, err) := retryPendingDelete flow s request in
      eret ([action], match err with Some err => [err] | None => [] end)
  | None =>
      run! (s, r) := lookupEstablished flow s in
      match r with
      | inr err => eret ([drop_action flow "session-store-unavailable"], [err])
      | inl None => do! remove flow s in eret ([close_action flow "fast-session-missing"], [])
      | inl (Some value) =>
          run! e := get_engine in
          if (SV_LastSeenNanos value <=? nowMonotonic) &&
             (u64 (IdleTimeout (e_opts e)) <=? nowMonotonic - SV_LastSeenNanos value)
          then
            run! (s, r) := compareDeleteEstablished flow s (mkPendingDelete value "idle-timeout") in
            match r with
            | inr err => eret ([drop_action flow "session-store-unavailable"], [err])
            | inl result =>
                if result =? SessionDeleteDifferent then eret ([], [])
                else do! remove flow s in eret ([close_action flow "idle-timeout"], [])
            end
          else if s_nextKeepalive s <=? now then
            let s := set_nextKeepalive s (now + KeepaliveInterval (e_opts e)) in
            do! modify (fun e => put_session e flow s) in
            eret ([controlEstablished e flow s value FlagACK (u32 (SV_TXSequence value - 1))
                     (SV_RXSequence value) "keepalive"], [])
          else eret ([], [])
      end
  end.

Definition tick_session (flow : FakeTCPSessionKey) (now nowMonotonic : Z)
    : M (list Action * list error) :=
  run! e := get_engine in
  match e_sessions e !! flow with
  | None => eret ([], [])
  | Some s =>
      if (s_state s =? FakeTCPStateSynSent) || (s_state s =? FakeTCPStateSynReceived)
      then tick_handshake flow s now
      else if s_state s =? FakeTCPStateEstablished
      then tick_established flow s now nowMonotonic
      else eret ([], [])
  end.

Fixpoint tick_sessions (order : list FakeTCPSessionKey) (now nowMonotonic : Z)
    : M (list Action * list error) :=
  match order with
  | [] => eret ([], [])
  | flow :: order =>
      run! (actions, errs) := tick_session flow now nowMonotonic in
      run! (actions', errs') := tick_sessions order now nowMonotonic in
      eret (actions ++ actions', errs ++ errs')
  end.

(** [order] is the order in which Go's map iteration visits the sessions. *)
Definition Tick (order : list FakeTCPSessionKey) : M Result :=
  run! now := Now in
  run! r := call env_NowNanos in
  match r with
  | inr err => eret ([], Some ("read faketcp clock: " +:+ err))
  | inl nowMonotonic =>
      run! (actions, errs) := tick_sessions order now nowMonotonic in
      eret (actions, errors_Join_all errs)
  end.

(** ** Observation *)

Definition AdvanceGeneration (generation : Z) : M Result :=
  eret ([], Some "faketcp Engine generation is immutable; create a new Engine").

Record SessionSnapshot := mkSnapshot {
  sn_State : Z;
  sn_TXSequence : Z;
  sn_RXSequence : Z;
  sn_LastSeenNanos : Z;
  sn_PendingDelete : bool;
  sn_PendingPackets : Z;
  sn_PendingBytes : Z;
  sn_LastActivity : Z
}.

Definition session_snapshot (s : session) (tx rx lastSeen : Z) : SessionSnapshot :=
  mkSnapshot (s_state s) tx rx lastSeen (bool_decide (is_Some (s_pendingDelete s)))
    (len (s_pending s)) (s_pendingBytes s) (s_lastActivity s).

(** [inl None]: no snapshot; [inr]: the lookup error. *)
Definition Snapshot (flow : FakeTCPSessionKey) : M (option SessionSnapshot + error) :=
  run! e := get_engine in
  match e_sessions e !! flow with
  | None => eret (inl None)
  | Some s =>
      if negb (s_state s =? FakeTCPStateEstablished)
      then eret (inl (Some (session_snapshot s (s_txSequence s) (s_rxSequence s) 0)))
      else match s_pendingDelete s with
      | Some request =>
          let value := pd_expected request in
          eret (inl (Some (session_snapshot s (SV_TXSequence value) (SV_RXSequence value)
                             (SV_LastSeenNanos value))))
      | None =>
          run! (s, r) := lookupEstablished flow s in
          match r with
          | inr err => eret (inr err)
          | inl None => eret (inl None)
          | inl (Some value) =>
              eret (inl (Some (session_snapshot s (SV_TXSequence value) (SV_RXSequence value)
                                 (SV_LastSeenNanos value))))
          end
      end
  end.

End engine.
