(* ===== verification/EngineInv.v ===== *)
(** * Accounting invariant of the FakeTCP engine.

    [engine_inv] ties every quota counter of an [Engine] to the sessions and
    packets it really holds, bounds them by the configured limits, and keeps
    the SYN source ledger and its LRU list in step.  [wp] is a weakest
    precondition for the engine's state-passing code: the environment may
    return anything. *)
From Stdlib Require Import ZArith Lia.
From stdpp Require Import base option list gmap strings numbers.
From S2P Require Import Prelude Abi Checksum L3Parser Runtime ControlPacket Engine.

(** ** Weakest preconditions *)
Section wp.
Context {W : Type} `{Env W}.

Definition wp {A} (m : M W A) (Q : A -> EState W -> Prop) (st : EState W) : Prop :=
  Q (m st).1 (m st).2.

Lemma wp_ret {A} (a : A) Q st : Q a st -> wp (eret a) Q st.
Proof. done. Qed.
Lemma wp_bind {A B} (m : M W A) (k : A -> M W B) Q st :
  wp m (fun a => wp (k a) Q) st -> wp (ebind m k) Q st.
Proof. unfold wp, ebind. by destruct (m st). Qed.
Lemma wp_get Q st : Q (es_engine st) st -> wp get_engine Q st.
Proof. done. Qed.
Lemma wp_set e Q st :
  Q tt (mkEState e (es_sessionIDs st) (es_env st)) -> wp (set_engine e) Q st.
Proof. done. Qed.
Lemma wp_modify f Q st :
  Q tt (mkEState (f (es_engine st)) (es_sessionIDs st) (es_env st)) -> wp (modify f) Q st.
Proof. done. Qed.
Lemma wp_call {A} (f : W -> A * W) Q st :
  (forall a w, f (es_env st) = (a, w) -> Q a (mkEState (es_engine st) (es_sessionIDs st) w)) ->
  wp (call f) Q st.
Proof. intros HQ. unfold wp, call. destruct (f (es_env st)) as [a w]. by apply HQ. Qed.
Lemma wp_allocate Q st :
  (forall a r, allocate (es_sessionIDs st) = (a, r) ->
    Q (go_result r) (mkEState (es_engine st) a (es_env st))) -> wp allocate_id Q st.
Proof.
  intros HQ. unfold wp, allocate_id. destruct (allocate (es_sessionIDs st)) as [a r].
  by apply HQ.
Qed.
Lemma wp_mono {A} (m : M W A) (P Q : A -> EState W -> Prop) st :
  wp m P st -> (forall a st, P a st -> Q a st) -> wp m Q st.
Proof. unfold wp. auto. Qed.
End wp.

(** Symbolic execution of one construct of engine code. *)
Ltac wp_step :=
  lazymatch goal with
  | |- wp (ebind _ _) _ _ => apply wp_bind
  | |- wp (eret _) _ _ => apply wp_ret
  | |- wp (drop_result _ _) _ _ => unfold drop_result
  | |- wp get_engine _ _ => apply wp_get; cbn [es_engine es_sessionIDs es_env]
  | |- wp (set_engine _) _ _ => apply wp_set; cbn [es_engine es_sessionIDs es_env]
  | |- wp (modify _) _ _ => apply wp_modify; cbn [es_engine es_sessionIDs es_env]
  | |- wp Now _ _ => unfold Now
  | |- wp (call _) _ _ => apply wp_call; cbn [es_engine es_sessionIDs es_env]; intros ? ? ?
  | |- wp (if ?b then _ else _) _ _ => destruct b eqn:?
  | |- wp (let '(_, _) := ?p in _) _ _ => destruct p as [? ?] eqn:?
  | |- wp (match ?x with _ => _ end) _ _ => destruct x eqn:?
  end.

(** ** Pure images of the effectful helpers *)

Definition dec_source (source : synSourceState) : synSourceState :=
  if 0 <? src_halfOpen source
  then mkSource (src_bucket source) (src_halfOpen source - 1) (src_lastActivity source)
  else source.

(** The ledger part of [releaseHalfOpen]. *)
Definition ledger_release (e : Engine) (key : synSourceKey) (now : Z) : Engine :=
  if remoteIPv4 key =? 0 then e
  else match e_synSources e !! key with
  | None => e
  | Some source => touchSYNSource e key (dec_source source) now
  end.

Definition half_released (e : Engine) (s : session) (now : Z) : Engine :=
  if s_halfOpenHeld s
  then ledger_release (set_halfOpen e (if 0 <? e_halfOpen e then e_halfOpen e - 1 else e_halfOpen e))
         (s_synSource s) now
  else e.

(** Replaces the session [s] of [flow] by [s'] (or nothing) and returns all the
    quota [s] holds. *)
Definition close_out (e : Engine) (flow : FakeTCPSessionKey) (s : session) (s' : option session)
    (now : Z) : Engine :=
  let e := half_released e s now in
  let e := if len (s_pending s) =? 0 then e
           else set_pending_counts e (e_pendingFlows e - 1) (e_pendingBytes e - s_pendingBytes s) in
  set_sessions e (match s' with
                  | None => delete flow (e_sessions e)
                  | Some s' => <[flow := s']> (e_sessions e)
                  end).

Lemma releaseHalfOpen_wp {W} `{Env W} flow s Q e ids w :
  (forall now w', Q (set_halfOpenHeld s false)
     (mkEState (if s_halfOpenHeld s
                then half_released (put_session e flow (set_halfOpenHeld s false)) s now
                else e) ids w')) ->
  wp (releaseHalfOpen flow s) Q (mkEState e ids w).
Proof.
  intros HQ. unfold releaseHalfOpen.
  destruct (s_halfOpenHeld s) eqn:Eh; cbn [negb].
  - do 4 wp_step. cbn [set_halfOpenHeld s_synSource].
    set (e1 := put_session e flow (set_halfOpenHeld s false)) in *.
    assert ((if 0 <? e_halfOpen e1 then set_halfOpen e1 (e_halfOpen e1 - 1) else e1) =
      set_halfOpen e1 (if 0 <? e_halfOpen e1 then e_halfOpen e1 - 1 else e_halfOpen e1)) as ->
      by (by destruct (0 <? e_halfOpen e1), e1).
    unfold half_released in HQ. rewrite Eh in HQ.
    set (e2 := set_halfOpen e1 _) in *. unfold ledger_release in HQ.
    destruct (remoteIPv4 (s_synSource s) =? 0); [wp_step; apply (HQ 0)|].
    do 2 wp_step. destruct (e_synSources e2 !! s_synSource s).
    + do 5 wp_step. apply HQ.
    + wp_step. apply (HQ 0).
  - wp_step. replace s with (set_halfOpenHeld s false) at 1; [apply (HQ 0)|].
    destruct s; simpl in *; by rewrite Eh.
Qed.

(** Field equations: which fields the ledger operations leave alone. *)
Lemma ledger_release_eq e key now :
  ledger_release e key now =
  set_ledger e (e_synSources (ledger_release e key now)) (e_synSourceLRU (ledger_release e key now)).
Proof. unfold ledger_release. destruct e. simpl. by repeat case_match. Qed.

Lemma half_released_put e flow s0 s now :
  half_released (put_session e flow s0) s now = put_session (half_released e s now) flow s0.
Proof. unfold half_released, ledger_release. destruct e; simpl. by repeat case_match. Qed.

Lemma half_released_sessions e s now : e_sessions (half_released e s now) = e_sessions e.
Proof. unfold half_released, ledger_release. destruct e; simpl. by repeat case_match. Qed.

Lemma remove_wp {W} `{Env W} flow s Q e ids w :
  (forall now w', Q tt (mkEState (close_out e flow s None now) ids w')) ->
  wp (remove flow s) Q (mkEState e ids w).
Proof.
  intros HQ. unfold remove. wp_step. apply releaseHalfOpen_wp. intros now w'.
  assert ((if s_halfOpenHeld s
           then half_released (put_session e flow (set_halfOpenHeld s false)) s now else e) =
    set_sessions (half_released e s now)
      (if s_halfOpenHeld s then <[flow := set_halfOpenHeld s false]> (e_sessions e)
       else e_sessions e)) as ->.
  { destruct (s_halfOpenHeld s) eqn:Eh.
    - rewrite half_released_put. unfold put_session. by rewrite half_released_sessions.
    - unfold half_released. rewrite Eh. by destruct e. }
  specialize (HQ now w'). unfold close_out in HQ. rewrite <- (half_released_sessions e s now).
  assert (forall m : gmap FakeTCPSessionKey session,
    delete flow (if s_halfOpenHeld s then <[flow := set_halfOpenHeld s false]> m else m) =
    delete flow m) as Hd
    by (intros m; destruct (s_halfOpenHeld s); [apply delete_insert_eq|done]).
  cbn [set_halfOpenHeld s_pending s_pendingBytes].
  destruct (len (s_pending s) =? 0); cbn [negb]; repeat wp_step;
    unfold set_sessions, set_pending_counts in *; simpl; rewrite Hd; exact HQ.
Qed.

(** ** The invariant *)

(** Bytes retained in a pending queue. *)
Fixpoint queue_bytes (q : list PendingPacket) : Z :=
  match q with
  | [] => 0
  | p :: q => len (PP_Data p) + queue_bytes q
  end.

(** What one session contributes to each counter. *)
Definition w_queue (s : session) : Z := if len (s_pending s) =? 0 then 0 else 1.
Definition w_bytes (s : session) : Z := queue_bytes (s_pending s).
Definition w_half (s : session) : Z := if s_halfOpenHeld s then 1 else 0.
Definition w_source (key : synSourceKey) (s : session) : Z :=
  if s_halfOpenHeld s && bool_decide (s_synSource s = key) then 1 else 0.

Definition half_open_state (st : Z) : Prop :=
  st = FakeTCPStateSynSent \/ st = FakeTCPStateSynReceived.

Record session_ok (o : Options) (flow : FakeTCPSessionKey) (s : session) : Prop := {
  so_generation : SK_Generation flow = Generation o;
  so_remote : SK_RemoteIPv4 flow <> 0;
  so_wg : s_wgID s = SK_WGID flow /\ SK_WGID flow <> 0;
  so_bytes : s_pendingBytes s = queue_bytes (s_pending s);
  so_count : len (s_pending s) <= MaxPendingPacketsPerFlow o;
  so_retries : 1 <= s_retries s <= HandshakeRetries o;
  so_source : remoteIPv4 (s_synSource s) = 0 \/ s_synSource s = syn_source_of flow;
  so_state :
    half_open_state (s_state s) /\ s_halfOpenHeld s = true /\ s_pendingDelete s = None /\
      s_sessionID s = 0 \/
    s_state s = FakeTCPStateEstablished /\ s_halfOpenHeld s = false /\ s_pending s = [] /\
      0 < s_sessionID s
}.

Definition bucket_ok (burst : Z) (b : tokenBucket) : Prop :=
  initialized b = true /\ 0 <= tokens b <= burst.

Record source_ok (e : Engine) (key : synSourceKey) (source : synSourceState) : Prop := {
  sk_remote : remoteIPv4 key <> 0;
  sk_count : src_halfOpen source = msum (w_source key) (e_sessions e);
  sk_quota : src_halfOpen source <= MaxHalfOpenPerSource (e_opts e);
  sk_bucket : bucket_ok (SYNBurstPerSource (e_opts e)) (src_bucket source)
}.

Definition options_ok (o : Options) : Prop :=
  Generation o <> 0 /\ limits_ok o = true /\ admission_limits_ok o = true /\ timeouts_ok o = true.

Record engine_inv (e : Engine) : Prop := {
  ei_options : options_ok (e_opts e);
  ei_identity : RI_Generation (e_identity e) = Generation (e_opts e);
  ei_sessions : forall flow s, e_sessions e !! flow = Some s -> session_ok (e_opts e) flow s;
  ei_flows : e_pendingFlows e = msum w_queue (e_sessions e);
  ei_bytes : e_pendingBytes e = msum w_bytes (e_sessions e);
  ei_half : e_halfOpen e = msum w_half (e_sessions e);
  ei_sources : forall key source, e_synSources e !! key = Some source -> source_ok e key source;
  ei_live : forall flow s, e_sessions e !! flow = Some s -> s_halfOpenHeld s = true ->
    remoteIPv4 (s_synSource s) <> 0 -> is_Some (e_synSources e !! s_synSource s);
  ei_capacity : mlen (e_sessions e) <= SessionCapacity (e_opts e);
  ei_flow_quota : e_pendingFlows e <= MaxPendingFlows (e_opts e);
  ei_byte_quota : e_pendingBytes e <= MaxPendingBytes (e_opts e);
  ei_half_quota : e_halfOpen e <= MaxHalfOpenSessions (e_opts e);
  ei_ledger : mlen (e_synSources e) <= SYNSourceLedgerCapacity (e_opts e);
  ei_lru : NoDup (e_synSourceLRU e);
  ei_lru_keys : forall key, key ∈ e_synSourceLRU e <-> is_Some (e_synSources e !! key);
  ei_global : bucket_ok (SYNBurst (e_opts e)) (e_globalSYNs e)
}.

Lemma options_limits o : options_ok o ->
  0 < SessionCapacity o /\ 0 < MaxPendingFlows o <= SessionCapacity o /\
  0 < MaxPendingPacketsPerFlow o /\ 0 < MaxPendingBytes o /\
  0 < MaxHalfOpenSessions o < SessionCapacity o /\
  0 < MaxHalfOpenPerSource o <= MaxHalfOpenSessions o /\ 0 < SYNRateInterval o /\
  0 < SYNBurstPerSource o <= SYNBurst o /\ MaxHalfOpenSessions o <= SYNSourceLedgerCapacity o /\
  SYNRateInterval o <= SYNSourceLedgerTTL o /\ 0 < HandshakeRetries o /\ 0 < HandshakeTimeout o.
Proof.
  intros (_ & Hl & Ha & Ht). unfold limits_ok, admission_limits_ok, timeouts_ok in *. lia.
Qed.

Lemma w_source_range key s : 0 <= w_source key s <= w_half s.
Proof. unfold w_source, w_half. destruct (s_halfOpenHeld s); simpl; [|lia]. case_bool_decide; lia. Qed.
Lemma queue_bytes_nonneg q : 0 <= queue_bytes q.
Proof. induction q as [|p q IH]; simpl; [lia|]. pose proof (len_nonneg (PP_Data p)). lia. Qed.
Lemma queue_bytes_app p q : queue_bytes (p ++ q) = queue_bytes p + queue_bytes q.
Proof. induction p; simpl; lia. Qed.
Lemma w_half_nonneg s : 0 <= w_half s.
Proof. unfold w_half. case_match; lia. Qed.

Lemma elem_move_to_front key lru k : k ∈ move_to_front key lru <-> k ∈ lru.
Proof.
  unfold move_to_front. case_bool_decide as Hk; [|done].
  rewrite elem_of_cons, list_elem_of_filter. destruct (decide (k = key)); naive_solver.
Qed.
Lemma NoDup_move_to_front key lru : NoDup lru -> NoDup (move_to_front key lru).
Proof.
  intros Hn. unfold move_to_front. case_bool_decide; [|done]. constructor.
  - rewrite list_elem_of_filter. by intros [? _].
  - by apply list.NoDup_filter.
Qed.

(** ** Ledger-only updates *)

(** Replacing the bucket and times of a ledger entry. *)
Lemma inv_ledger_touch e key source source' now_lru :
  engine_inv e -> e_synSources e !! key = Some source ->
  src_halfOpen source' = src_halfOpen source ->
  bucket_ok (SYNBurstPerSource (e_opts e)) (src_bucket source') ->
  (now_lru = e_synSourceLRU e \/ now_lru = move_to_front key (e_synSourceLRU e)) ->
  engine_inv (set_ledger e (<[key := source']> (e_synSources e)) now_lru).
Proof.
  intros [] Hk Hh Hb Hl. split; simpl; try done.
  - intros key' source''. rewrite lookup_insert_Some. intros [[<- <-]|[? ?]].
    + destruct (ei_sources0 _ _ Hk). split; simpl; try done; by rewrite Hh.
    + by destruct (ei_sources0 key' source'').
  - intros flow s Hs Hheld Hr. rewrite lookup_insert_is_Some. destruct (decide (key = s_synSource s)); eauto.
  - by erewrite mlen_insert_Some.
  - destruct Hl as [->| ->]; [done|by apply NoDup_move_to_front].
  - intros k. rewrite lookup_insert_is_Some'.
    destruct Hl as [->| ->]; rewrite ?elem_move_to_front, ei_lru_keys0; naive_solver.
Qed.

(** ** SYN admission preserves the invariant *)

Lemma refill_ok b now interval burst : 0 < interval -> 0 < burst ->
  bucket_ok burst b -> bucket_ok burst (refillTokenBucket b now interval burst).
Proof.
  intros Hi Hb [Hin Ht]. unfold refillTokenBucket. rewrite Hin. simpl.
  destruct (now <? lastRefill b + interval) eqn:E; [done|]. apply Z.ltb_ge in E.
  assert (0 <= time_Sub now (lastRefill b)) by (unfold time_Sub, min_i64, max_i64; lia).
  pose proof (Z.quot_pos (time_Sub now (lastRefill b)) interval ltac:(lia) ltac:(lia)).
  destruct (burst <=? _) eqn:Eb; split; simpl; try done; lia.
Qed.

Lemma take_ok burst b : bucket_ok burst b -> tokens b <> 0 -> bucket_ok burst (take_token b).
Proof. intros [? ?] ?. split; [done|]. simpl. lia. Qed.

Lemma source_live e key source : engine_inv e -> e_synSources e !! key = Some source ->
  forall flow s, e_sessions e !! flow = Some s -> s_halfOpenHeld s = true ->
  s_synSource s = key -> 0 < src_halfOpen source.
Proof.
  intros He Hk flow s Hs Hh Hsrc. rewrite (sk_count _ _ _ (ei_sources e He key source Hk)).
  pose proof (msum_lookup_le (w_source key) (e_sessions e) flow s
    (fun _ s' _ => proj1 (w_source_range key s')) Hs) as Hle.
  unfold w_source in Hle at 1. rewrite Hh, bool_decide_true in Hle by done. simpl in Hle. lia.
Qed.

Lemma last_removelast {A} (l : list A) x : list.last l = Some x -> l = removelast l ++ [x].
Proof. intros [l' ->]%last_Some. by rewrite removelast_last. Qed.

Lemma inv_ledger_evict e key source : engine_inv e ->
  list.last (e_synSourceLRU e) = Some key -> e_synSources e !! key = Some source ->
  src_halfOpen source = 0 ->
  engine_inv (set_ledger e (delete key (e_synSources e)) (removelast (e_synSourceLRU e))).
Proof.
  intros He Hl Hk H0. pose proof (source_live e key source He Hk) as Hlive.
  apply last_removelast in Hl. destruct He. split; simpl; try done.
  - intros k src [_ Hs]%lookup_delete_Some. by destruct (ei_sources0 k src Hs).
  - intros flow s Hs Hh Hr. destruct (decide (key = s_synSource s)) as [->|].
    + specialize (Hlive flow s Hs Hh eq_refl). lia.
    + rewrite lookup_delete_ne by done. eauto.
  - pose proof (mlen_delete_le (e_synSources e) key). lia.
  - rewrite Hl in ei_lru0. by apply list.NoDup_app in ei_lru0 as [? _].
  - intros k. rewrite Hl in ei_lru0. apply list.NoDup_app in ei_lru0 as (_ & Hd & _).
    specialize (ei_lru_keys0 k). rewrite Hl, elem_of_app, list_elem_of_singleton in ei_lru_keys0.
    destruct (decide (k = key)) as [->|].
    + rewrite lookup_delete_eq. split; [|by intros [? ?]]. intros Hin.
      destruct (Hd key Hin). by apply list_elem_of_singleton.
    + rewrite lookup_delete_ne by done. rewrite <- ei_lru_keys0. naive_solver.
Qed.

Lemma inv_prune_visit e : engine_inv e -> engine_inv (add_prune_visit e).
Proof. intros []. split; simpl; try done. intros k s Hk. by destruct (ei_sources0 k s Hk). Qed.

Lemma inv_touch e key source now : engine_inv e -> e_synSources e !! key = Some source ->
  engine_inv (touchSYNSource e key source now).
Proof.
  intros He Hk. eapply inv_ledger_touch; eauto.
  apply (sk_bucket _ _ _ (ei_sources e He key source Hk)).
Qed.

(** Pruning keeps the invariant and only touches the ledger. *)
Lemma prune_inv now budget e : engine_inv e ->
  let e' := pruneExpiredSYNSources e now budget in
  engine_inv e' /\ e_sessions e' = e_sessions e /\ e_opts e' = e_opts e /\
  e_halfOpen e' = e_halfOpen e.
Proof.
  revert e. induction budget as [|budget IH]; intros e He; simpl; [done|].
  destruct (list.last (e_synSourceLRU e)) as [key|] eqn:El; [|done].
  apply inv_prune_visit in He as Hv.
  destruct (e_synSources e !! key) as [source|] eqn:Ek.
  - destruct (now <? _); [done|]. destruct (src_halfOpen source =? 0) eqn:E0.
    + apply Z.eqb_eq in E0.
      exact (IH _ (inv_ledger_evict (add_prune_visit e) key source Hv El Ek E0)).
    + exact (IH _ (inv_touch (add_prune_visit e) key source now Hv Ek)).
  - exfalso. apply last_removelast in El.
    assert (key ∈ e_synSourceLRU e) as Hin by (rewrite El; set_solver).
    apply (ei_lru_keys e He) in Hin. rewrite Ek in Hin. by destruct Hin.
Qed.

Lemma lookupOrCreate_inv e key now : engine_inv e -> remoteIPv4 key <> 0 ->
  let r := lookupOrCreateSYNSource e key now in
  engine_inv r.1 /\ e_sessions r.1 = e_sessions e /\ e_opts r.1 = e_opts e /\
  e_halfOpen r.1 = e_halfOpen e /\
  match r.2 with inl source => e_synSources r.1 !! key = Some source | inr _ => True end.
Proof.
  intros He Hr. unfold lookupOrCreateSYNSource. cbn zeta.
  destruct (prune_inv now synSourcePruneBudget e He) as (Hp & Es & Eo & Eh).
  set (p := pruneExpiredSYNSources e now synSourcePruneBudget) in *.
  destruct (e_synSources p !! key) as [source|] eqn:Ek.
  - split; [by apply inv_touch|]. repeat split; try done. simpl. by rewrite lookup_insert_eq.
  - destruct (_ <=? _) eqn:Ec; [done|]. simpl. apply Z.leb_gt in Ec.
    split; [|repeat split; try done; by rewrite lookup_insert_eq].
    pose proof (options_limits _ (ei_options p Hp)).
    assert (msum (w_source key) (e_sessions p) = 0) as H0.
    { rewrite (msum_ext _ (fun _ => 0)).
      - apply msum_zero.
      - intros flow s Hs. unfold w_source. destruct (s_halfOpenHeld s) eqn:Eheld; [|done].
        case_bool_decide as Hkey; [|done]. exfalso.
        destruct (ei_live p Hp flow s Hs Eheld) as [src Hsrc]; [by rewrite Hkey|].
        rewrite Hkey, Ek in Hsrc. done. }
    destruct Hp. split; simpl; try done.
    + intros k src. rewrite lookup_insert_Some. intros [[<- <-]|[? Hs]].
      * split; simpl; try done; try lia. split; simpl; [done|lia].
      * by destruct (ei_sources0 k src Hs).
    + intros flow s Hs Hh Hne. rewrite lookup_insert_is_Some'. right. eauto.
    + rewrite mlen_insert_None by done. lia.
    + constructor; [|done]. rewrite ei_lru_keys0, Ek. by intros [? ?].
    + intros k. rewrite elem_of_cons, lookup_insert_is_Some', ei_lru_keys0. naive_solver.
Qed.

Lemma inv_set_global e b : engine_inv e -> bucket_ok (SYNBurst (e_opts e)) b ->
  engine_inv (set_globalSYNs e b).
Proof.
  intros [] Hb. split; simpl; try done. intros k s Hk. by destruct (ei_sources0 k s Hk).
Qed.

Lemma observeSYN_inv e flow now : engine_inv e -> SK_RemoteIPv4 flow <> 0 ->
  let r := observeSYN e flow now in
  engine_inv r.1 /\ e_sessions r.1 = e_sessions e /\ e_opts r.1 = e_opts e /\
  match r.2 with
  | inl key => key = syn_source_of flow /\ is_Some (e_synSources r.1 !! key)
  | inr _ => True
  end.
Proof.
  intros He Hr. unfold observeSYN. cbn zeta.
  pose proof (options_limits _ (ei_options e He)).
  assert (bucket_ok (SYNBurst (e_opts e)) (refillTokenBucket (e_globalSYNs e) now
    (SYNRateInterval (e_opts e)) (SYNBurst (e_opts e)))) as Hg
    by (apply refill_ok; [lia|lia|apply (ei_global e He)]).
  set (g := refillTokenBucket (e_globalSYNs e) _ _ _) in *.
  destruct (tokens g =? 0) eqn:Eg; [split; [by apply inv_set_global|done]|].
  apply Z.eqb_neq in Eg.
  assert (engine_inv (set_globalSYNs (set_globalSYNs e g) (take_token g))) as He1
    by (apply inv_set_global; [by apply inv_set_global|by apply take_ok]).
  destruct (lookupOrCreate_inv _ (syn_source_of flow) now He1) as (He2 & Es & Eo & Eh & Hk); [done|].
  destruct (lookupOrCreateSYNSource _ _ _) as [e2 [source|rejection]]; simpl in *; [|done].
  pose proof (ei_sources e2 He2 _ _ Hk) as Hsrc. rewrite <- Eo.
  assert (bucket_ok (SYNBurstPerSource (e_opts e2)) (refillTokenBucket (src_bucket source) now
    (SYNRateInterval (e_opts e2)) (SYNBurstPerSource (e_opts e2)))) as Hb
    by (apply refill_ok; [rewrite Eo; lia|rewrite Eo; lia|apply (sk_bucket _ _ _ Hsrc)]).
  set (b := refillTokenBucket (src_bucket source) _ _ _) in *.
  destruct (tokens b =? 0) eqn:Eb; simpl.
  - split; [eapply inv_ledger_touch; eauto|done].
  - apply Z.eqb_neq in Eb. split; [eapply inv_ledger_touch; eauto; by apply take_ok|].
    repeat split; try done. rewrite lookup_insert_eq. by eexists.
Qed.

(** ** Session updates *)

(** Rewriting a session without changing what it holds. *)
Lemma inv_put e flow s s' : engine_inv e -> e_sessions e !! flow = Some s ->
  session_ok (e_opts e) flow s' -> s_pending s' = s_pending s ->
  s_halfOpenHeld s' = s_halfOpenHeld s -> s_synSource s' = s_synSource s ->
  engine_inv (put_session e flow s').
Proof.
  intros [] Hs Hok Hp Hh Hsrc.
  assert (forall k, w_source k s' = w_source k s) as Hw by (intros k; unfold w_source; by rewrite Hh, Hsrc).
  split; simpl; try done.
  - intros f x [[<- <-]|[? ?]]%lookup_insert_Some; eauto.
  - rewrite (msum_insert_Some _ _ _ s) by done. unfold w_queue at 2 3. rewrite Hp. lia.
  - rewrite (msum_insert_Some _ _ _ s) by done. unfold w_bytes at 2 3. rewrite Hp. lia.
  - rewrite (msum_insert_Some _ _ _ s) by done. unfold w_half at 2 3. rewrite Hh. lia.
  - intros k src Hk. destruct (ei_sources0 k src Hk). split; simpl; try done.
    rewrite (msum_insert_Some _ _ _ s) by done. rewrite Hw. lia.
  - intros f x [[<- <-]|[? ?]]%lookup_insert_Some ? ?; [|by eauto].
    rewrite Hsrc. apply (ei_live0 flow s); congruence.
  - by erewrite mlen_insert_Some.
Qed.

(** What a session contributes is part of the totals. *)
Lemma session_shares e flow s : engine_inv e -> e_sessions e !! flow = Some s ->
  w_queue s <= e_pendingFlows e /\ w_bytes s <= e_pendingBytes e /\ w_half s <= e_halfOpen e.
Proof.
  intros He Hs. rewrite (ei_flows e He), (ei_bytes e He), (ei_half e He).
  repeat split; (eapply msum_lookup_le; [|exact Hs]); intros _ v _.
  - unfold w_queue. case_match; lia.
  - apply queue_bytes_nonneg.
  - apply w_half_nonneg.
Qed.

(** The ledger after [close_out] of a session that held quota. *)
Lemma half_released_fields e s now :
  let e' := half_released e s now in
  e_opts e' = e_opts e /\ e_identity e' = e_identity e /\ e_sessions e' = e_sessions e /\
  e_pendingFlows e' = e_pendingFlows e /\ e_pendingBytes e' = e_pendingBytes e /\
  e_globalSYNs e' = e_globalSYNs e.
Proof. unfold half_released, ledger_release. destruct e; simpl. by repeat case_match. Qed.

Lemma half_released_half e flow s now : engine_inv e -> e_sessions e !! flow = Some s ->
  e_halfOpen (half_released e s now) = e_halfOpen e - w_half s.
Proof.
  intros He Hs. destruct (session_shares e flow s He Hs) as (_ & _ & Hh).
  unfold half_released, w_half in *. destruct (s_halfOpenHeld s); [|lia].
  rewrite ledger_release_eq. simpl. destruct (0 <? e_halfOpen e) eqn:E; lia.
Qed.

(** Every ledger entry gives back exactly the share of [s]. *)
Lemma half_released_ledger e flow s now : engine_inv e -> e_sessions e !! flow = Some s ->
  let e' := half_released e s now in
  NoDup (e_synSourceLRU e') /\ mlen (e_synSources e') = mlen (e_synSources e) /\
  (forall k, k ∈ e_synSourceLRU e' <-> is_Some (e_synSources e' !! k)) /\
  (forall k, is_Some (e_synSources e' !! k) <-> is_Some (e_synSources e !! k)) /\
  (forall k src', e_synSources e' !! k = Some src' -> exists src, e_synSources e !! k = Some src /\
     src_halfOpen src' = src_halfOpen src - w_source k s /\ src_bucket src' = src_bucket src).
Proof.
  intros He Hs. unfold half_released, ledger_release. pose proof (ei_lru e He). pose proof (ei_lru_keys e He).
  assert (forall k src, e_synSources e !! k = Some src -> w_source k s = 0 ->
    exists src0, e_synSources e !! k = Some src0 /\
      src_halfOpen src = src_halfOpen src0 - w_source k s /\ src_bucket src = src_bucket src0) as Hsame
    by (intros k src Hk ->; exists src; rewrite Z.sub_0_r; done).
  destruct (s_halfOpenHeld s) eqn:Eh.
  2: { repeat split; try done; try apply H0. intros k src Hk. apply Hsame; [done|].
       unfold w_source. by rewrite Eh. }
  simpl. destruct (remoteIPv4 (s_synSource s) =? 0) eqn:Er.
  { apply Z.eqb_eq in Er. simpl. repeat split; try done; try apply H0. intros k src Hk.
    apply Hsame; [done|]. unfold w_source. rewrite bool_decide_false; [by rewrite andb_false_r|].
    intros <-. by apply (sk_remote _ _ _ (ei_sources e He _ _ Hk)). }
  apply Z.eqb_neq in Er. destruct (ei_live e He flow s Hs Eh Er) as [src Hsrc]. rewrite Hsrc. simpl.
  pose proof (source_live e _ src He Hsrc flow s Hs Eh eq_refl) as Hpos.
  assert (forall k, is_Some (<[s_synSource s:=mkSource (src_bucket (dec_source src))
    (src_halfOpen (dec_source src)) now]> (e_synSources e) !! k) <-> is_Some (e_synSources e !! k)) as Hdom
    by (intros k; rewrite lookup_insert_is_Some'; split; [intros [<-|?]; eauto|eauto]).
  split; [by apply NoDup_move_to_front|]. split; [by erewrite mlen_insert_Some|].
  split; [intros k; rewrite elem_move_to_front, Hdom; apply H0|]. split; [exact Hdom|].
  intros k src'. rewrite lookup_insert_Some. intros [[<- <-]|[Hne Hk]].
  - exists src. split; [done|]. unfold dec_source, w_source. rewrite Eh, bool_decide_true by done.
    destruct (0 <? src_halfOpen src) eqn:E; simpl; [done|lia].
  - apply Hsame; [done|]. unfold w_source. by rewrite Eh, bool_decide_false.
Qed.

Definition update_session (m : gmap FakeTCPSessionKey session) (flow : FakeTCPSessionKey)
    (s' : option session) : gmap FakeTCPSessionKey session :=
  match s' with None => delete flow m | Some s' => <[flow := s']> m end.

Lemma msum_update f m flow s s' : m !! flow = Some s ->
  msum f (update_session m flow s') =
  msum f m - f s + match s' with None => 0 | Some s' => f s' end.
Proof.
  intros Hs. destruct s'; simpl; [by apply msum_insert_Some|]. rewrite (msum_delete f m flow s) by done.
  lia.
Qed.

Lemma mlen_update m flow s s' : m !! flow = Some s -> mlen (update_session m flow s') <= mlen m.
Proof.
  intros Hs. destruct s'; simpl; [by erewrite mlen_insert_Some|apply mlen_delete_le].
Qed.

Lemma lookup_update m flow s' f x : update_session m flow s' !! f = Some x ->
  f = flow /\ s' = Some x \/ f <> flow /\ m !! f = Some x.
Proof.
  destruct s'; simpl.
  - intros [[<- <-]|[? ?]]%lookup_insert_Some; auto.
  - intros [? ?]%lookup_delete_Some; auto.
Qed.

(** A session that holds no quota. *)
Definition released (s : session) : Prop := s_pending s = [] /\ s_halfOpenHeld s = false.

Lemma released_weights s : released s ->
  w_queue s = 0 /\ w_bytes s = 0 /\ w_half s = 0 /\ forall k, w_source k s = 0.
Proof.
  intros [Hp Hh]. unfold w_queue, w_bytes, w_half, w_source. by rewrite Hp, Hh.
Qed.

Lemma close_out_eq e flow s s' now :
  close_out e flow s s' now =
  mkEngine (e_opts e) (e_identity e) (update_session (e_sessions e) flow s')
    (e_pendingFlows e - w_queue s)
    (if len (s_pending s) =? 0 then e_pendingBytes e else e_pendingBytes e - s_pendingBytes s)
    (e_halfOpen (half_released e s now)) (e_globalSYNs e) (e_admissionEpoch e)
    (e_synSources (half_released e s now)) (e_synSourceLRU (half_released e s now))
    (e_synSourcePruneVisits e).
Proof.
  unfold close_out, w_queue.
  assert (half_released e s now = mkEngine (e_opts e) (e_identity e) (e_sessions e)
    (e_pendingFlows e) (e_pendingBytes e) (e_halfOpen (half_released e s now)) (e_globalSYNs e)
    (e_admissionEpoch e) (e_synSources (half_released e s now))
    (e_synSourceLRU (half_released e s now)) (e_synSourcePruneVisits e)) as ->
    by (unfold half_released, ledger_release; destruct e; simpl; by repeat case_match).
  cbn zeta. destruct (len (s_pending s) =? 0), s'; unfold set_sessions, set_pending_counts;
    simpl; by rewrite ?Z.sub_0_r.
Qed.

Lemma inv_close_out e flow s s' now : engine_inv e -> e_sessions e !! flow = Some s ->
  (forall x, s' = Some x -> session_ok (e_opts e) flow x /\ released x) ->
  engine_inv (close_out e flow s s' now).
Proof.
  intros He Hs Hs'. rewrite close_out_eq.
  destruct (half_released_ledger e flow s now He Hs) as (Hn & Hm & Hk & Hd & Hsrc).
  rewrite (half_released_half e flow s now He Hs). destruct (session_shares e flow s He Hs) as (? & ? & ?).
  assert ((if len (s_pending s) =? 0 then e_pendingBytes e else e_pendingBytes e - s_pendingBytes s)
    = e_pendingBytes e - w_bytes s) as Hbytes.
  { unfold w_bytes. rewrite (so_bytes _ _ _ (ei_sessions e He flow s Hs)).
    destruct (len (s_pending s) =? 0) eqn:E0; [|done]. apply Z.eqb_eq in E0.
    destruct (s_pending s); [simpl; lia|]. rewrite len_cons in E0. pose proof (len_nonneg l). lia. }
  rewrite Hbytes. pose proof (queue_bytes_nonneg (s_pending s)).
  assert (forall f, (forall x, released x -> f x = 0) ->
    msum f (update_session (e_sessions e) flow s') = msum f (e_sessions e) - f s) as Hsum.
  { intros f Hf. rewrite (msum_update f _ _ s) by done. destruct s' as [x|]; [|lia].
    destruct (Hs' x eq_refl) as [_ Hx]. rewrite (Hf x Hx). lia. }
  destruct He. split; simpl; try done.
  - intros f x [[-> ->]|[_ Hx]]%lookup_update; [|by eauto]. by apply Hs'.
  - rewrite Hsum by (intros; by apply released_weights). lia.
  - rewrite Hsum by (intros; by apply released_weights). lia.
  - rewrite Hsum by (intros; by apply released_weights). lia.
  - intros k src' Hk'. destruct (Hsrc k src' Hk') as (src & Hsr & Hh & Hb).
    destruct (ei_sources0 k src Hsr). pose proof (w_source_range k s).
    split; simpl; rewrite ?Hh, ?Hb; try done; [|lia].
    rewrite Hsum by (intros; by apply released_weights). lia.
  - intros f x [[-> ->]|[_ Hx]]%lookup_update Hh Hr; [|by apply Hd; eauto].
    destruct (Hs' x eq_refl) as [_ [_ Hx]]. congruence.
  - pose proof (mlen_update (e_sessions e) flow s s' Hs). lia.
  - unfold w_queue in *. case_match; lia.
  - unfold w_bytes in *. lia.
  - pose proof (w_half_nonneg s). lia.
  - lia.
Qed.

(** A fresh half-open session. *)
Definition fresh (s : session) : Prop := s_pending s = [] /\ s_halfOpenHeld s = true.

Lemma fresh_weights s : fresh s -> w_queue s = 0 /\ w_bytes s = 0 /\ w_half s = 1.
Proof. intros [Hp Hh]. unfold w_queue, w_bytes, w_half. by rewrite Hp, Hh. Qed.

Lemma inv_create e e1 flow s : engine_inv e -> e_sessions e !! flow = None ->
  mlen (e_sessions e) < SessionCapacity (e_opts e) ->
  e_halfOpen e < MaxHalfOpenSessions (e_opts e) ->
  session_ok (e_opts e) flow s -> fresh s ->
  (remoteIPv4 (s_synSource s) = 0 /\ e1 = e \/
   exists src, e_synSources e !! s_synSource s = Some src /\
     src_halfOpen src < MaxHalfOpenPerSource (e_opts e) /\
     e1 = put_source e (s_synSource s)
            (mkSource (src_bucket src) (src_halfOpen src + 1) (src_lastActivity src))) ->
  engine_inv (put_session (set_halfOpen e1 (e_halfOpen e + 1)) flow s).
Proof.
  intros He Hs Hcap Hhalf Hok Hf He1. destruct (fresh_weights s Hf) as (Wq & Wb & Wh).
  assert (forall k src, e_synSources e1 !! k = Some src -> exists src0,
    e_synSources e !! k = Some src0 /\ src_halfOpen src = src_halfOpen src0 + w_source k s /\
    src_halfOpen src <= MaxHalfOpenPerSource (e_opts e) /\ src_bucket src = src_bucket src0) as Hsrc.
  { intros k src Hk.
    assert (e_synSources e !! k = Some src -> s_synSource s <> k -> exists src0,
      e_synSources e !! k = Some src0 /\ src_halfOpen src = src_halfOpen src0 + w_source k s /\
      src_halfOpen src <= MaxHalfOpenPerSource (e_opts e) /\ src_bucket src = src_bucket src0) as Hold.
    { intros Hk0 Hne. exists src. unfold w_source. rewrite bool_decide_false, andb_false_r by done.
      repeat split; [done|lia|]. apply (sk_quota _ _ _ (ei_sources e He k src Hk0)). }
    destruct He1 as [[Hr ->]|(src0 & Hsrc0 & Hq & ->)].
    - apply Hold; [done|]. intros <-. by apply (sk_remote _ _ _ (ei_sources e He _ _ Hk)).
    - simpl in Hk. apply lookup_insert_Some in Hk as [[<- <-]|[Hne Hk]]; [|by apply Hold].
      exists src0. unfold w_source. destruct Hf as [_ Hh]. rewrite Hh, bool_decide_true by done.
      simpl. repeat split; [done|lia]. }
  assert (mlen (e_synSources e1) = mlen (e_synSources e) /\ e_synSourceLRU e1 = e_synSourceLRU e /\
    (forall k, is_Some (e_synSources e1 !! k) <-> is_Some (e_synSources e !! k)) /\
    (remoteIPv4 (s_synSource s) <> 0 -> is_Some (e_synSources e !! s_synSource s)) /\
    e1 = set_ledger e (e_synSources e1) (e_synSourceLRU e1)) as (Hm & Hl & Hd & Hlive & ->).
  { destruct He1 as [[Hr ->]|(src0 & Hsrc0 & Hq & ->)]; simpl.
    - repeat split; try done. by destruct e.
    - split; [by erewrite mlen_insert_Some|]. repeat split; try done; eauto.
      + rewrite lookup_insert_is_Some'. intros [<-|?]; eauto.
      + rewrite lookup_insert_is_Some'. eauto. }
  simpl in *. destruct He. split; simpl; try done; rewrite ?msum_insert_None by done; try lia.
  - intros f x [[<- <-]|[? ?]]%lookup_insert_Some; eauto.
  - intros k src Hk. destruct (Hsrc k src Hk) as (src0 & Hk0 & Hh & Hq & Hb).
    destruct (ei_sources0 k src0 Hk0). split; simpl; rewrite ?msum_insert_None, ?Hb by done; try done.
    lia.
  - intros f x [[<- <-]|[? ?]]%lookup_insert_Some ? ?; apply Hd; eauto.
  - rewrite mlen_insert_None by done. lia.
  - by rewrite Hl.
  - intros k. by rewrite Hl, Hd.
Qed.

Lemma len_queue_snoc {A} (l : list A) (a : A) : len (l ++ [a]) = len l + 1.
Proof. unfold len. rewrite length_app. simpl. lia. Qed.

Lemma own_data p : PP_Data (ownPendingPacket p) = PP_Data p.
Proof. unfold ownPendingPacket. by case_match. Qed.

Lemma inv_enqueue e flow s packet : engine_inv e -> e_sessions e !! flow = Some s ->
  half_open_state (s_state s) -> engine_inv (enqueue e flow s packet).1.
Proof.
  intros He Hs Hst. pose proof (ei_sessions e He flow s Hs) as Hok. unfold enqueue.
  destruct (_ || _) eqn:E1; [done|]. destruct (_ && _) eqn:E2; [done|]. cbn [fst].
  bool_prop. rewrite own_data.
  set (s' := set_pending s (s_pending s ++ [ownPendingPacket packet])
    (s_pendingBytes s + len (PP_Data packet))).
  assert ((len (s_pending s) =? 0) = true \/ (len (s_pending s) =? 0) = false) as Hq by (destruct (_ =? 0); auto).
  assert (session_ok (e_opts e) flow s') as Hok'.
  { destruct Hok. split; simpl; try done.
    - rewrite queue_bytes_app. simpl. rewrite own_data. lia.
    - rewrite len_queue_snoc. lia.
    - destruct so_state0 as [?|(E & _)]; [by left|]. rewrite E in Hst. by destruct Hst. }
  assert (w_queue s' = 1 /\ w_bytes s' = w_bytes s + len (PP_Data packet) /\ w_half s' = w_half s /\
    forall k, w_source k s' = w_source k s) as (Wq & Wb & Wh & Ws).
  { unfold w_queue, w_bytes. simpl. rewrite len_queue_snoc, queue_bytes_app. simpl. rewrite own_data.
    pose proof (len_nonneg (s_pending s)). repeat split; try lia.
    destruct (len (s_pending s) + 1 =? 0) eqn:E; lia. }
  assert (w_queue s = if len (s_pending s) =? 0 then 0 else 1) as Wq0 by done.
  destruct He. split; simpl; try done.
  - intros f x [[<- <-]|[? ?]]%lookup_insert_Some; eauto.
  - rewrite (msum_insert_Some _ _ _ s), Wq, ei_flows0 by done. destruct Hq as [Hq|Hq]; rewrite Hq in *; lia.
  - rewrite (msum_insert_Some _ _ _ s) by done. lia.
  - rewrite (msum_insert_Some _ _ _ s) by done. lia.
  - intros k src Hk. destruct (ei_sources0 k src Hk). split; simpl; try done.
    rewrite (msum_insert_Some _ _ _ s), Ws by done. lia.
  - intros f x [[<- <-]|[? ?]]%lookup_insert_Some ? ?; [|by eauto]. by apply (ei_live0 flow s).
  - by erewrite mlen_insert_Some.
  - destruct Hq as [Hq|Hq]; rewrite Hq in *; simpl in *; lia.
  - lia.
Qed.

(** ** Session identifiers *)

Record ids_ok (m : gmap FakeTCPSessionKey session) (ids : sessionIDAllocator) : Prop := {
  id_range : 0 <= alloc_next ids <= max_u64;
  id_le : forall flow s, m !! flow = Some s -> 0 <= s_sessionID s <= alloc_next ids;
  id_unique : forall f1 f2 s1 s2, m !! f1 = Some s1 -> m !! f2 = Some s2 ->
    s_sessionID s1 = s_sessionID s2 -> s_sessionID s1 <> 0 -> f1 = f2
}.

Lemma ids_update m ids flow s s' : ids_ok m ids -> m !! flow = Some s ->
  (forall x, s' = Some x -> s_sessionID x = s_sessionID s) ->
  ids_ok (update_session m flow s') ids.
Proof.
  intros [Hr Hle Hu] Hs Hx. split; [done|..].
  - intros f x [[-> ->]|[_ ?]]%lookup_update; [|by eauto]. rewrite (Hx x eq_refl). eauto.
  - intros f1 f2 s1 s2 [[-> E1]|[? H1]]%lookup_update [[-> E2]|[? H2]]%lookup_update; [done|..|by eauto].
    + rewrite (Hx s1 E1). eauto.
    + rewrite (Hx s2 E2). eauto.
Qed.

Lemma ids_new m ids flow s : ids_ok m ids -> m !! flow = None -> s_sessionID s = 0 ->
  ids_ok (<[flow := s]> m) ids.
Proof.
  intros [Hr Hle Hu] Hs H0. split; [done|..].
  - intros f x [[<- <-]|[_ ?]]%lookup_insert_Some; [lia|by eauto].
  - intros f1 f2 s1 s2 [[<- <-]|[? ?]]%lookup_insert_Some [[<- <-]|[? ?]]%lookup_insert_Some; try done;
      intros; try congruence; by eauto.
Qed.

Lemma ids_advance m ids ids' : ids_ok m ids -> alloc_next ids <= alloc_next ids' <= max_u64 ->
  ids_ok m ids'.
Proof.
  intros [Hr Hle Hu] ?. split; [lia| |done]. intros f s Hs. specialize (Hle f s Hs). lia.
Qed.

(** A fresh identifier keeps all identifiers distinct. *)
Lemma ids_allocate m ids ids' id flow s s' : ids_ok m ids -> m !! flow = Some s ->
  allocate ids = (ids', Ret id) -> s_sessionID s' = id ->
  ids_ok (<[flow := s']> m) ids' /\ 0 < id.
Proof.
  intros Hok Hs Ha Hid. pose proof (allocate_spec ids (id_range _ _ Hok)) as Hspec.
  rewrite Ha in Hspec. unfold allocate in Ha. destruct (_ =? max_u64) eqn:Em; [done|].
  injection Ha as <- <-. apply Z.eqb_neq in Em. destruct Hok as [Hr Hle Hu]. simpl in *.
  assert (u64 (alloc_next ids + 1) = alloc_next ids + 1) as E
    by (unfold u64; apply Z.mod_small; unfold max_u64 in *; lia).
  rewrite E in *. split; [|lia]. split; simpl.
  - lia.
  - intros f x [[<- <-]|[_ Hx]]%lookup_insert_Some; [lia|]. specialize (Hle f x Hx). lia.
  - intros f1 f2 s1 s2 [[<- <-]|[? H1]]%lookup_insert_Some [[<- <-]|[? H2]]%lookup_insert_Some; auto.
    + specialize (Hle f2 s2 H2). lia.
    + specialize (Hle f1 s1 H1). lia.
    + eauto.
Qed.

Definition state_inv {W} (st : EState W) : Prop :=
  engine_inv (es_engine st) /\ ids_ok (e_sessions (es_engine st)) (es_sessionIDs st).

Lemma state_put {W} e ids (w : W) flow s s' :
  state_inv (mkEState e ids w) -> e_sessions e !! flow = Some s ->
  session_ok (e_opts e) flow s' -> s_pending s' = s_pending s ->
  s_halfOpenHeld s' = s_halfOpenHeld s -> s_synSource s' = s_synSource s ->
  s_sessionID s' = s_sessionID s -> state_inv (mkEState (put_session e flow s') ids w).
Proof.
  intros [He Hi] Hs Hok Hp Hh Hsrc Hid. split; [by eapply inv_put|].
  apply (ids_update _ _ flow s (Some s')); [done|done|]. by intros ? [= <-].
Qed.

(** Removing a session keeps the invariant. *)
Lemma state_remove {W} e ids (w : W) flow s now :
  state_inv (mkEState e ids w) -> e_sessions e !! flow = Some s ->
  state_inv (mkEState (close_out e flow s None now) ids w).
Proof.
  intros [He Hi] Hs. split; [by apply inv_close_out|]. rewrite close_out_eq.
  by apply (ids_update _ _ flow s None).
Qed.

Section helpers.
Context {W : Type} `{Env W}.

Lemma remove_inv flow s (Q : unit -> EState W -> Prop) e ids w :
  state_inv (mkEState e ids w) -> e_sessions e !! flow = Some s ->
  (forall st, state_inv st -> Q tt st) -> wp (remove flow s) Q (mkEState e ids w).
Proof. intros Hi Hs HQ. apply remove_wp. intros now w'. apply HQ. by apply (state_remove _ _ w'). Qed.

(** A lookup rewrites at most the cached sequence numbers. *)
Lemma lookup_wp flow s (Q : session * (option FakeTCPSessionValue + error) -> EState W -> Prop) e ids w :
  (forall r w', (forall v, r <> inl (Some v)) /\
     (r = inl None -> store_LookupEstablished flow w = (inl None, w')) ->
     Q (s, r) (mkEState e ids w')) ->
  (forall v w', store_LookupEstablished flow w = (inl (Some v), w') ->
     SV_State v = FakeTCPStateEstablished /\ SV_Generation v = SK_Generation flow /\
     SV_LocalISN v = s_localISN s /\ SV_RemoteISN v = s_remoteISN s /\
     SV_SessionID v = s_sessionID s /\ SV_RuntimeIncarnation v = RI_Incarnation (e_identity e) ->
     let s' := set_sequences s (SV_TXSequence v) (SV_RXSequence v) in
     Q (s', inl (Some v)) (mkEState (put_session e flow s') ids w')) ->
  wp (lookupEstablished flow s) Q (mkEState e ids w).
Proof.
  intros Hno Hyes. unfold lookupEstablished. do 2 wp_step.
  destruct a as [[v|]|err]; [|wp_step; by apply Hno..]. do 2 wp_step.
  do 3 (wp_step; [wp_step; by apply Hno|]). do 3 wp_step. bool_prop. apply Hyes; [done|].
  repeat split; congruence.
Qed.

Lemma lookup_inv flow s (Q : session * (option FakeTCPSessionValue + error) -> EState W -> Prop) e ids w :
  state_inv (mkEState e ids w) -> e_sessions e !! flow = Some s ->
  (forall s' r e' w', state_inv (mkEState e' ids w') -> e_sessions e' !! flow = Some s' ->
     s_state s' = s_state s -> s_wgID s' = s_wgID s -> s_pendingDelete s' = s_pendingDelete s ->
     e_opts e' = e_opts e -> Q (s', r) (mkEState e' ids w')) ->
  wp (lookupEstablished flow s) Q (mkEState e ids w).
Proof.
  intros Hi Hs HQ. apply lookup_wp; [intros; by apply HQ|]. intros v w' _ _ s'.
  apply HQ; try done; [|apply lookup_insert_eq].
  apply (state_put e ids w' flow s); try done.
  by destruct (ei_sessions e (proj1 Hi) flow s Hs).
Qed.

Lemma compareDelete_inv flow s request (Q : session * (Z + error) -> EState W -> Prop) e ids w :
  state_inv (mkEState e ids w) -> e_sessions e !! flow = Some s ->
  s_state s = FakeTCPStateEstablished ->
  (forall s' r e' w', state_inv (mkEState e' ids w') -> e_sessions e' !! flow = Some s' ->
     s_state s' = s_state s -> e_opts e' = e_opts e -> Q (s', r) (mkEState e' ids w')) ->
  wp (compareDeleteEstablished flow s request) Q (mkEState e ids w).
Proof.
  intros Hi Hs Hst HQ. unfold compareDeleteEstablished. do 4 wp_step. wp_step.
  apply HQ; try done; [|apply lookup_insert_eq].
  apply (state_put e ids _ flow s); try done.
  destruct (ei_sessions e (proj1 Hi) flow s Hs). split; simpl; try done.
  destruct so_state0 as [([E|E] & _)|?]; [by rewrite Hst in E..|by right].
Qed.

Lemma retry_inv flow s request (Q : Action * option error -> EState W -> Prop) e ids w :
  state_inv (mkEState e ids w) -> e_sessions e !! flow = Some s ->
  s_state s = FakeTCPStateEstablished ->
  (forall r st, state_inv st -> Q r st) ->
  wp (retryPendingDelete flow s request) Q (mkEState e ids w).
Proof.
  intros Hi Hs Hst HQ. unfold retryPendingDelete. wp_step. apply compareDelete_inv; try done.
  intros s' r e' w' Hi' Hs' _ _. destruct r as [result|err]; [|wp_step; by apply HQ].
  wp_step; [wp_step; by apply HQ|]. wp_step. eapply remove_inv; [done|done|]. intros st Hst'.
  wp_step. by apply HQ.
Qed.
End helpers.
