(* ===== verification/EngineProps.v ===== *)
(** * Theorems about the FakeTCP engine: the accounting invariant over every
    call sequence, transactional failure, close authority and progress. *)
From Stdlib Require Import ZArith Lia.
From stdpp Require Import base option list gmap strings numbers relations.
From S2P Require Import Prelude Abi Checksum L3Parser Runtime ControlPacket Engine EngineInv.

Section handlers.
Context {W : Type} `{Env W}.

(** The action that hands a queue over, if it is not empty. *)
Definition release_actions (flow : FakeTCPSessionKey) (wgID : Z) (q : list PendingPacket)
    : list Action :=
  if len q =? 0 then [] else [mkAction ActionReleasePending flow wgID ControlPacket_zero q ""].

Lemma release_wp flow s (Q : session * list Action -> EState W -> Prop) e ids w :
  s_pendingBytes s = queue_bytes (s_pending s) ->
  Q (set_pending s [] 0, release_actions flow (s_wgID s) (s_pending s))
    (mkEState (put_session (set_pending_counts e (e_pendingFlows e - w_queue s)
       (e_pendingBytes e - w_bytes s)) flow (set_pending s [] 0)) ids w) ->
  wp (release flow s) Q (mkEState (put_session e flow s) ids w).
Proof.
  intros Hb HQ. unfold release, release_actions, w_queue, w_bytes in *.
  destruct (len (s_pending s) =? 0) eqn:E.
  - apply Z.eqb_eq in E. assert (s_pending s = []) as Hp
      by (destruct (s_pending s); [done|]; rewrite len_cons in E; pose proof (len_nonneg l); lia).
    rewrite Hp in *. simpl in *. wp_step. rewrite !Z.sub_0_r in HQ.
    assert (set_pending s [] 0 = s) as Es by (destruct s; simpl in *; by subst).
    rewrite Es in HQ. by destruct e.
  - do 5 wp_step. simpl. unfold put_session, set_sessions, set_pending_counts in *. simpl in *.
    rewrite insert_insert_eq, Hb. exact HQ.
Qed.

(** Restoring a checkpoint undoes every change to the session and the pending
    counters. *)
Lemma restore_id e e' flow s : e_sessions e !! flow = Some s ->
  set_sessions (set_pending_counts e' 0 0) ∅ = set_sessions (set_pending_counts e 0 0) ∅ ->
  delete flow (e_sessions e') = delete flow (e_sessions e) ->
  restore e' flow (checkpoint e (Some s)) = e.
Proof.
  intros Hs He Hm. unfold restore, checkpoint, put_session. simpl.
  destruct e, e'; unfold set_sessions, set_pending_counts in *; simpl in *.
  injection He as -> -> -> -> -> -> -> ->. f_equal.
  rewrite <- insert_delete_eq, Hm, insert_delete_eq. by apply insert_id.
Qed.

Lemma delete_put {A} flow (x : A) (m : gmap FakeTCPSessionKey A) : delete flow (<[flow := x]> m) = delete flow m.
Proof. apply delete_insert_eq. Qed.

Lemma put_put e flow s s' : put_session (put_session e flow s) flow s' = put_session e flow s'.
Proof. unfold put_session, set_sessions. simpl. by rewrite insert_insert_eq. Qed.

(** From the transition to the established state to the end of [inbound]: the
    session is inserted into the store and hands back its quota, or everything
    is as before the call. *)
Lemma establish_wp (f : list Action -> list Action) flow s0 s2
    (Q : Result -> EState W -> Prop) e ids w :
  e_sessions e !! flow = Some s0 ->
  s_pendingBytes s0 = queue_bytes (s_pending s0) -> s_halfOpenHeld s0 = true ->
  s_pending s2 = s_pending s0 -> s_pendingBytes s2 = s_pendingBytes s0 ->
  s_halfOpenHeld s2 = true -> s_synSource s2 = s_synSource s0 -> s_sessionID s2 = 0 ->
  (forall err ids' w', ids' = ids \/ ids' = (allocate ids).1 ->
     Q ([drop_action flow "session-store-unavailable"], Some err) (mkEState e ids' w')) ->
  (forall id ids' nanos now w' w1 w2,
     let s3 := set_sessionID (set_pending s2 [] 0) id in
     allocate ids = (ids', Ret id) ->
     store_InsertEstablished flow (established_value e flow s3 nanos) w1 = (None, w2) ->
     Q (f (release_actions flow (s_wgID s2) (s_pending s0)), None)
       (mkEState (close_out e flow s0 (Some (set_halfOpenHeld s3 false)) now) ids' w')) ->
  wp (run! (s, released) := release flow s2 in
      inbound_establish flow s (f released) (checkpoint e (Some s0)))
    Q (mkEState (put_session e flow s2) ids w).
Proof.
  intros Hs Hb Hh Ep Eb Eh Es Ei Hfail Hok. apply wp_bind, release_wp; [congruence|].
  rewrite Ep. unfold inbound_establish, insertEstablished.
  do 3 wp_step. destruct a as [nanos|err].
  2: { do 3 wp_step. rewrite (restore_id e _ flow s0 Hs) by (done || apply delete_put). by apply Hfail; left. }
  cbn [set_pending s_sessionID]. rewrite Ei. simpl. wp_step. apply wp_allocate. simpl.
  intros ids' r Ha. assert (ids' = (allocate ids).1) as Hids by (by rewrite Ha).
  destruct r as [id|err|]; simpl.
  2,3: do 3 wp_step; rewrite (restore_id e _ flow s0 Hs) by (done || apply delete_put); apply Hfail; by right.
  do 6 wp_step. wp_step. destruct a as [err|] eqn:Ea.
  - do 3 wp_step. rewrite (restore_id e _ flow s0 Hs); [apply Hfail; by right|done|].
    simpl. rewrite insert_insert_eq. apply delete_put.
  - wp_step. apply releaseHalfOpen_wp. intros now w'. simpl. rewrite Eh. wp_step.
    pose proof (fun w1 w2 => Hok id ids' nanos now w' w1 w2 Ha) as Hok'. simpl in Hok'. clear Hok.
    match type of Hok' with _ -> _ -> _ -> Q _ (mkEState ?x _ _) =>
      match goal with |- Q _ (mkEState ?y _ _) => assert (y = x) as -> end end.
    + rewrite close_out_eq. unfold half_released, ledger_release. rewrite Hh. simpl. rewrite Eh, Es.
      assert (w_queue s2 = w_queue s0 /\ w_bytes s2 = w_bytes s0) as [-> ->]
        by (unfold w_queue, w_bytes; by rewrite Ep).
      assert (e_pendingBytes e - w_bytes s0 = if len (s_pending s0) =? 0 then e_pendingBytes e
        else e_pendingBytes e - s_pendingBytes s0) as ->.
      { unfold w_bytes. rewrite Hb. destruct (len (s_pending s0) =? 0) eqn:E; [|done].
        apply Z.eqb_eq in E. destruct (s_pending s0); [simpl; lia|]. rewrite len_cons in E.
        pose proof (len_nonneg l). lia. }
      destruct (remoteIPv4 (s_synSource s0) =? 0), (e_synSources e !! s_synSource s0);
        unfold put_session, touchSYNSource, set_halfOpen, set_ledger, set_sessions; simpl;
        by rewrite !insert_insert_eq.
    + by eapply Hok'.
Qed.

(** ** Every handler preserves the invariant *)

Abbreviation Inv := (fun _ st => state_inv st).

Lemma state_inv_env e ids (w w' : W) : state_inv (mkEState e ids w) -> state_inv (mkEState e ids w').
Proof. done. Qed.

Lemma session_of (st : EState W) flow s : state_inv st -> e_sessions (es_engine st) !! flow = Some s ->
  session_ok (e_opts (es_engine st)) flow s.
Proof. intros [He _] Hs. by apply (ei_sessions _ He). Qed.

Lemma established_inv flow s packet dropped e ids w :
  state_inv (mkEState e ids w) -> e_sessions e !! flow = Some s ->
  s_state s = FakeTCPStateEstablished ->
  wp (outbound_established flow s packet dropped) Inv (mkEState e ids w).
Proof.
  intros Hi Hs Hst. unfold outbound_established. destruct (s_pendingDelete s) as [request|].
  { wp_step. apply retry_inv; try done. intros [? ?] st Hi'. by wp_step. }
  pose proof (session_of _ _ _ Hi Hs) as Hok. simpl in Hok. destruct (so_wg _ _ _ Hok) as [Hwg Hne].
  do 3 wp_step. wp_step; [by do 2 wp_step|].
  assert ((if s_wgID s =? 0 then set_wgID s (PP_WGID packet) else s) = s) as ->
    by (rewrite Hwg, (proj2 (Z.eqb_neq _ _) Hne); done).
  do 2 wp_step. unfold put_session. rewrite insert_id by done. wp_step.
  apply lookup_inv; [by destruct e|done|]. intros s' r e' w' Hi' Hs' Hst' Hwg' Hpd _.
  destruct r as [[v|]|err]; [..|by wp_step].
  - do 2 wp_step. do 2 wp_step.
    assert (state_inv (mkEState (put_session e' flow
      (set_nextKeepalive s' (a + KeepaliveInterval (e_opts e')))) ids w')).
    { apply (state_put e' ids w' flow s'); try done.
      by destruct (session_of _ _ _ Hi' Hs'). }
    wp_step; by wp_step.
  - wp_step. eapply remove_inv; [done|done|]. intros st Hi''. by wp_step.
Qed.

Lemma pending_inv flow s packet created e ids (w : W) :
  state_inv (mkEState e ids w) -> e_sessions e !! flow = Some s ->
  s_state s <> FakeTCPStateEstablished ->
  wp (outbound_pending flow s packet created) Inv (mkEState e ids w).
Proof.
  intros Hi Hs Hst. unfold outbound_pending.
  pose proof (session_of _ _ _ Hi Hs) as Hok. simpl in Hok. destruct (so_wg _ _ _ Hok) as [Hwg Hne].
  wp_step; [by do 2 wp_step|].
  assert ((if s_wgID s =? 0 then set_wgID s (PP_WGID packet) else s) = s) as ->
    by (rewrite Hwg, (proj2 (Z.eqb_neq _ _) Hne); done).
  do 4 wp_step. unfold put_session. rewrite insert_id by done.
  assert (set_sessions e (e_sessions e) = e) as -> by (by destruct e).
  assert (half_open_state (s_state s)) as Hhalf
    by (by destruct (so_state _ _ _ Hok) as [[? _]|[? _]]).
  pose proof (inv_enqueue e flow s packet (proj1 Hi) Hs Hhalf) as He.
  assert (ids_ok (e_sessions (enqueue e flow s packet).1) ids) as Hids.
  { unfold enqueue. repeat (case_match; [apply Hi|]). simpl.
    apply (ids_update _ _ flow s (Some _)); [apply Hi|done|]. by intros ? [= <-]. }
  destruct (enqueue e flow s packet) as [e' queued]. do 3 wp_step. done.
Qed.

Lemma outbound_inv flow packet dropped st :
  state_inv st -> wp (outbound flow packet dropped) Inv st.
Proof.
  destruct st as [e ids w]. intros Hi. unfold outbound. do 2 wp_step.
  destruct (validateFlow e flow) eqn:Ev; [by wp_step|].
  unfold validateFlow in Ev. destruct (_ || _) eqn:Ef in Ev; [done|]. bool_prop.
  wp_step; [by do 2 wp_step|]. bool_prop. destruct (e_sessions e !! flow) as [s|] eqn:Es.
  - wp_step.
    + apply established_inv; try done. by apply Z.eqb_eq.
    + do 3 wp_step. apply pending_inv; try done. by apply Z.eqb_neq.
  - do 3 wp_step. wp_step; [by do 2 wp_step|]. wp_step; [by do 2 wp_step|].
    do 4 wp_step. pose proof (options_limits (e_opts e) (ei_options _ (proj1 Hi))) as Hlim.
    apply pending_inv; [|by apply lookup_insert_eq|done]. split; simpl.
    + apply (inv_create e e); try done; try lia; [apply Hi| |by left].
      split; simpl; rewrite ?len_nil; try done; try lia; try (by left).
      left. repeat split; try done. by left.
    + apply ids_new; [apply Hi|done|done].
Qed.

(** Admission keeps the state invariant: it only changes buckets and the ledger. *)
Lemma observe_state e ids (w : W) flow now : state_inv (mkEState e ids w) -> SK_RemoteIPv4 flow <> 0 ->
  state_inv (mkEState (observeSYN e flow now).1 ids w).
Proof.
  intros [He Hi] Hr. destruct (observeSYN_inv e flow now He Hr) as (? & Es & _).
  split; [done|]. simpl. by rewrite Es.
Qed.

Lemma inbound_new_inv flow seg wgID now src e ids w :
  state_inv (mkEState e ids w) -> e_sessions e !! flow = None -> validateFlow e flow = None ->
  wgID = SK_WGID flow ->
  (seg_Flags seg = FlagSYN -> src = syn_source_of flow) ->
  wp (inbound_new flow seg wgID now src) Inv (mkEState e ids w).
Proof.
  intros Hi Hs Ev -> Hsrc. unfold inbound_new. do 2 wp_step. unfold validateFlow in Ev.
  destruct (_ || _) eqn:Ef in Ev; [done|]. bool_prop. wp_step; [by do 2 wp_step|]. bool_prop.
  specialize (Hsrc Heqb). subst src. wp_step; [by do 2 wp_step|].
  unfold reserveInboundHalfOpen. destruct (_ <=? e_halfOpen e) eqn:Eh.
  { do 2 wp_step. cbn. wp_step. by wp_step. }
  destruct (e_synSources e !! _) as [src|] eqn:Esrc.
  2: { do 2 wp_step. cbn. wp_step. by wp_step. }
  destruct (_ <=? src_halfOpen src) eqn:Eq.
  { do 2 wp_step. cbn. wp_step. by wp_step. }
  do 7 wp_step. pose proof (options_limits (e_opts e) (ei_options _ (proj1 Hi))) as Hlim. split; simpl.
  - apply (inv_create e (put_source e _ _)); try done; try lia; [apply Hi| |].
    + split; simpl; rewrite ?len_nil; try done; try lia; [by right|]. left. repeat split; try done. by right.
    + right. exists src. repeat split; try done. lia.
  - apply ids_new; [apply Hi|done|done].
Qed.

Lemma inbound_existing_inv flow seg wgID now s e ids w :
  state_inv (mkEState e ids w) -> e_sessions e !! flow = Some s ->
  s_pendingDelete s = None ->
  wp (inbound_existing flow seg wgID now s (checkpoint e (Some s))) Inv (mkEState e ids w).
Proof.
  intros Hi Hs Hpd. pose proof (session_of _ _ _ Hi Hs) as Hok. simpl in Hok.
  destruct (so_wg _ _ _ Hok) as [Hwg Hne]. unfold inbound_existing. do 2 wp_step.
  rewrite Hwg, (proj2 (Z.eqb_neq _ _) Hne).
  set (s1 := set_activity s now (now + KeepaliveInterval (e_opts e))).
  assert (state_inv (mkEState (put_session e flow s1) ids w)) as Hi1
    by (apply (state_put e ids w flow s); try done; by destruct Hok).
  assert (forall f s2, s_state s2 = FakeTCPStateEstablished -> s_pending s2 = s_pending s ->
    s_pendingBytes s2 = s_pendingBytes s -> s_halfOpenHeld s2 = s_halfOpenHeld s ->
    s_synSource s2 = s_synSource s -> s_sessionID s2 = s_sessionID s -> s_wgID s2 = s_wgID s ->
    s_retries s2 = s_retries s -> s_state s <> FakeTCPStateEstablished ->
    wp (run! (s', released) := release flow s2 in
        inbound_establish flow s' (f released) (checkpoint e (Some s)))
      Inv (mkEState (put_session e flow s2) ids w)) as Hest.
  { intros f s2 Est Ep Eb Eh Esrc Eid Ewg Ert Hnot.
    destruct (so_state _ _ _ Hok) as [(_ & Hheld & _ & Hid)|[? _]]; [|done].
    apply (establish_wp f flow s s2 (fun _ st => state_inv st) e ids w); try done; try congruence; [apply (so_bytes _ _ _ Hok)|..].
    - intros err ids' w' [->| ->]; [done|]. split; [apply Hi|].
      eapply ids_advance; [apply Hi|]. pose proof (id_range _ _ (proj2 Hi)).
      destruct (allocate_spec ids (id_range _ _ (proj2 Hi))) as [[? ->]|[? ->]]; simpl in *; lia.
    - intros id ids' nanos now' w' w1 w2 s3 Ha _.
      destruct (ids_allocate (e_sessions e) ids ids' id flow s (set_halfOpenHeld s3 false)
        (proj2 Hi) Hs Ha eq_refl) as [Hids Hid0].
      split; [|by rewrite close_out_eq]. apply inv_close_out; [apply Hi|done|].
      intros x [= <-]. split; [|done]. destruct Hok. split; simpl; try done; try congruence.
      all: rewrite ?len_nil, ?Ert, ?Esrc, ?Ewg; try done; try (pose proof (len_nonneg (s_pending s)); lia).
      right. by rewrite Est. }
  do 2 wp_step. simpl. wp_step; [|wp_step; [|wp_step]].
  - apply Z.eqb_eq in Heqb. wp_step; [|wp_step; [|by do 2 wp_step]].
    + do 2 wp_step. rewrite put_put. apply (Hest (cons _)); try done. by rewrite Heqb.
    + do 3 wp_step. rewrite put_put. apply (state_put e ids w flow s); try done.
      destruct (so_state _ _ _ Hok) as [(? & ? & ? & ?)|[E _]]; [|by rewrite Heqb in E].
      destruct Hok. split; try done. left. repeat split; try done. by right.
  - apply Z.eqb_eq in Heqb0. wp_step; [by wp_step|wp_step; [|by do 2 wp_step]].
    do 2 wp_step. rewrite put_put. apply (Hest id); try done. by rewrite Heqb0.
  - wp_step; [by do 2 wp_step|]. wp_step.
    assert (e_sessions (put_session e flow s1) !! flow = Some s1) as Hs1 by apply lookup_insert_eq.
    apply lookup_wp.
    + intros r w' Hr. destruct r as [[v|]|err]; [by destruct (proj1 Hr v)|..].
      * wp_step. eapply remove_inv; [done|done|]. intros st Hi'. by wp_step.
      * do 3 wp_step. rewrite (restore_id e _ flow s Hs) by (done || apply delete_put). done.
    + intros v w' _ _ s'. wp_step. apply (state_put (put_session e flow s1) ids w' flow s1); try done.
      by destruct Hok.
  - by do 2 wp_step.
Qed.

Lemma inbound_admitted_inv flow seg wgID now cp src e ids w :
  state_inv (mkEState e ids w) -> validateFlow e flow = None -> wgID = SK_WGID flow ->
  (seg_Flags seg = FlagSYN -> src = syn_source_of flow) ->
  e_sessions e !! flow ≫= s_pendingDelete = None -> cp = checkpoint e (e_sessions e !! flow) ->
  wp (inbound_admitted flow seg wgID now (e_sessions e !! flow) cp src) Inv (mkEState e ids w).
Proof.
  intros Hi Ev Hwg Hsrc Ed ->. unfold inbound_admitted.
  wp_step; [by do 2 wp_step|]. destruct (e_sessions e !! flow) as [s|] eqn:Es.
  - simpl in Ed. wp_step; [wp_step; [by do 2 wp_step|]|by apply inbound_existing_inv].
    wp_step. eapply remove_inv; [done|done|]. intros st Hi'. by wp_step.
  - wp_step; [by do 2 wp_step|]. by apply inbound_new_inv.
Qed.

(** A checkpoint only records what the sessions determine. *)
Lemma checkpoint_sessions e e' s : engine_inv e -> engine_inv e' ->
  e_sessions e' = e_sessions e -> checkpoint e s = checkpoint e' s.
Proof.
  intros He He' Es. unfold checkpoint.
  by rewrite (ei_flows e He), (ei_bytes e He), (ei_flows e' He'), (ei_bytes e' He'), Es.
Qed.

Lemma inbound_inv flow seg wgID st : state_inv st -> wp (inbound flow seg wgID) Inv st.
Proof.
  destruct st as [e ids w]. intros Hi. unfold inbound. do 2 wp_step.
  destruct (validateFlow e flow) eqn:Ev; [by wp_step|]. wp_step; [by do 2 wp_step|]. bool_prop.
  assert (SK_RemoteIPv4 flow <> 0) as Hr
    by (unfold validateFlow in Ev; destruct (_ || _) eqn:Ef in Ev; [done|by bool_prop]).
  do 3 wp_step. destruct (e_sessions e !! flow ≫= s_pendingDelete) as [request|] eqn:Ed.
  { destruct (e_sessions e !! flow) as [s|] eqn:Es; [|done]. simpl in Ed. simpl. rewrite Ed.
    wp_step. apply retry_inv; try done.
    - destruct (so_state _ _ _ (session_of _ _ _ Hi Es)) as [(_ & _ & ? & _)|[? _]]; congruence.
    - intros [? ?] st Hi'. by wp_step. }
  assert (wp (if seg_Flags seg =? FlagSYN then
                let '(e', admitted) := observeSYN e flow a in
                do! set_engine e' in
                match admitted with
                | inr rejection => drop_result flow rejection
                | inl src => inbound_admitted flow seg wgID a (e_sessions e !! flow)
                               (checkpoint e (e_sessions e !! flow)) src
                end
              else inbound_admitted flow seg wgID a (e_sessions e !! flow)
                     (checkpoint e (e_sessions e !! flow)) synSourceKey_zero)
    Inv (mkEState e ids w0)) as Ht.
  { wp_step; [bool_prop|apply inbound_admitted_inv; try done; by intros E; rewrite E in Heqb0].
    destruct (observeSYN_inv e flow a (proj1 Hi) Hr) as (He' & Es' & Eo' & Hk).
    pose proof (observe_state e ids w0 flow a Hi Hr) as Hi'.
    destruct (observeSYN e flow a) as [e' [key|rej]]; simpl in *; do 2 wp_step; [|by do 2 wp_step].
    destruct Hk as [-> _]. rewrite <- Es' in *. apply inbound_admitted_inv; try done.
    - unfold validateFlow in *. by rewrite Eo'.
    - apply checkpoint_sessions; [apply Hi|done|done]. }
  destruct (e_sessions e !! flow) as [s|]; [simpl in Ed |- *; rewrite Ed|]; exact Ht.
Qed.

Lemma control_inv event packet st : state_inv st -> wp (InboundCapturedControl event packet) Inv st.
Proof.
  destruct st as [e ids w]. intros Hi. unfold InboundCapturedControl. do 2 wp_step.
  destruct (validateFlow e _); [by wp_step|]. do 4 (wp_step; [by repeat wp_step|]).
  destruct (e_sessions e !! EV_Key event) as [s|] eqn:Es; [|by do 2 wp_step].
  wp_step; [by do 2 wp_step|]. destruct (s_pendingDelete s) as [request|] eqn:Ed.
  { wp_step. apply retry_inv; try done; [|intros [? ?] st Hi'; by wp_step].
    destruct (so_state _ _ _ (session_of _ _ _ Hi Es)) as [(_ & _ & ? & _)|[? _]]; congruence. }
  wp_step; [by do 2 wp_step|]. bool_prop. unfold close_established. wp_step.
  apply lookup_inv; try done. intros s1 r e1 w1 Hi1 Hs1 Hst1 _ _ _.
  destruct r as [[v|]|err]; [|by repeat wp_step..].
  wp_step; [by do 2 wp_step|]. wp_step. apply compareDelete_inv; try done; [congruence|].
  intros s2 r e2 w2 Hi2 Hs2 _ _. destruct r as [result|err]; [|by wp_step].
  wp_step; [by do 2 wp_step|]. wp_step. eapply remove_inv; [done|done|]. intros st Hi'. by wp_step.
Qed.

Lemma tick_session_inv flow now mono st : state_inv st -> wp (tick_session flow now mono) Inv st.
Proof.
  destruct st as [e ids w]. intros Hi. unfold tick_session. do 2 wp_step.
  destruct (e_sessions e !! flow) as [s|] eqn:Es; [|by wp_step].
  pose proof (session_of _ _ _ Hi Es) as Hok. simpl in Hok. wp_step; [|wp_step; [|by wp_step]].
  - unfold tick_handshake. do 2 wp_step. wp_step; [by wp_step|]. wp_step.
    + wp_step. eapply remove_inv; [done|done|]. intros st Hi'. by wp_step.
    + do 2 wp_step. wp_step. wp_step. apply (state_put e ids w flow s); try done.
      destruct Hok. split; simpl; try done. lia.
  - bool_prop. unfold tick_established. destruct (s_pendingDelete s) as [request|] eqn:Ed.
    { wp_step. apply retry_inv; try done. intros [? ?] st Hi'. by wp_step. }
    wp_step. apply lookup_inv; try done. intros s1 r e1 w1 Hi1 Hs1 Hst1 _ _ _.
    destruct r as [[v|]|err]; [|wp_step; eapply remove_inv; [done|done|]; intros st Hi'; by wp_step
                                |by wp_step].
    do 2 wp_step. wp_step; [|wp_step; [|by wp_step]].
    + wp_step. apply compareDelete_inv; try done; [congruence|].
      intros s2 r e2 w2 Hi2 Hs2 _ _. destruct r as [result|err]; [|by wp_step].
      wp_step; [by wp_step|]. wp_step. eapply remove_inv; [done|done|]. intros st Hi'. by wp_step.
    + do 2 wp_step. wp_step. apply (state_put e1 ids w1 flow s1); try done.
      by destruct (session_of _ _ _ Hi1 Hs1).
Qed.

Lemma tick_inv order st : state_inv st -> wp (Tick order) Inv st.
Proof.
  intros Hi. unfold Tick. do 5 wp_step. destruct a0 as [mono|err]; [|by wp_step]. wp_step.
  set (st1 := mkEState _ _ _). assert (state_inv st1) as Hi1 by done. clearbody st1.
  enough (wp (tick_sessions order a mono) Inv st1) as Ht
    by (eapply wp_mono; [exact Ht|]; intros [? ?] st' Hi'; by wp_step).
  revert st1 Hi1. induction order as [|flow order IH]; intros st1 Hi1; simpl; [by wp_step|].
  wp_step. eapply wp_mono; [by apply tick_session_inv|]. intros [acts errs] st2 Hi2. wp_step.
  eapply wp_mono; [by apply IH|]. intros [? ?] st3 Hi3. by wp_step.
Qed.

Lemma snapshot_inv flow st : state_inv st -> wp (Snapshot flow) Inv st.
Proof.
  destruct st as [e ids w]. intros Hi. unfold Snapshot. do 2 wp_step.
  destruct (e_sessions e !! flow) as [s|] eqn:Es; [|by wp_step]. wp_step; [by wp_step|].
  wp_step; [by wp_step|]. wp_step. apply lookup_inv; try done. intros s1 r e1 w1 Hi1 _ _ _ _ _.
  destruct r as [[v|]|err]; by wp_step.
Qed.

Lemma packet_event_inv event packet fingerprint st :
  state_inv st -> wp (handleOwnedCapturedPacket event packet fingerprint) Inv st.
Proof.
  intros Hi. unfold handleOwnedCapturedPacket. do 2 wp_step.
  do 4 (wp_step; [by wp_step|]). wp_step; [by wp_step|]. by apply outbound_inv.
Qed.

(** ** Call sequences *)

Inductive engine_call :=
| CallOutbound (flow : FakeTCPSessionKey) (packet : list Z)
| CallPacketEvent (event : FakeTCPEvent) (packet fingerprint : list Z)
| CallInbound (flow : FakeTCPSessionKey) (seg : Segment) (wgID : Z)
| CallControl (event : FakeTCPEvent) (packet : list Z)
| CallTick (order : list FakeTCPSessionKey)
| CallSnapshot (flow : FakeTCPSessionKey).

Definition exec (c : engine_call) (st : EState W) : EState W :=
  match c with
  | CallOutbound flow packet => (Outbound flow packet st).2
  | CallPacketEvent event packet fingerprint =>
      (handleOwnedCapturedPacket event packet fingerprint st).2
  | CallInbound flow seg wgID => (inbound flow seg wgID st).2
  | CallControl event packet => (InboundCapturedControl event packet st).2
  | CallTick order => (Tick order st).2
  | CallSnapshot flow => (Snapshot flow st).2
  end.

(** One step: a call on this engine, a session-ID allocation by another engine
    of the domain, or anything the environment does (time passes, the BPF
    program updates the session map). *)
Inductive engine_step : EState W -> EState W -> Prop :=
| step_call c st : engine_step st (exec c st)
| step_other st : engine_step st
    (mkEState (es_engine st) (allocate (es_sessionIDs st)).1 (es_env st))
| step_env st w : engine_step st (mkEState (es_engine st) (es_sessionIDs st) w).

Lemma exec_inv c st : state_inv st -> state_inv (exec c st).
Proof.
  intros Hi. destruct c; simpl.
  - exact (outbound_inv flow _ false st Hi).
  - exact (packet_event_inv event packet fingerprint st Hi).
  - exact (inbound_inv flow seg wgID st Hi).
  - exact (control_inv event packet st Hi).
  - exact (tick_inv order st Hi).
  - exact (snapshot_inv flow st Hi).
Qed.

Lemma step_inv st st' : engine_step st st' -> state_inv st -> state_inv st'.
Proof.
  intros [c ?|?|? ?] Hi; [by apply exec_inv| |done]. destruct Hi as [He Hids]. split; [done|].
  eapply ids_advance; [done|]. simpl. pose proof (id_range _ _ Hids).
  destruct (allocate_spec (es_sessionIDs st0) (id_range _ _ Hids)) as [[? ->]|[? ->]]; simpl; lia.
Qed.

Lemma newEngine_inv options identity now e (w : W) :
  newEngine options identity now = Ret e -> state_inv (mkEState e (mkAllocator 0) w).
Proof.
  unfold newEngine. intros Hn. destruct (clock_Domain options); go_inv. bool_prop. subst e.
  assert (options_ok options) as Hok by (repeat split; by rewrite ?negb_true_iff).
  set (o := if Window options =? 0 then _ else _).
  assert (options_ok o /\ Generation o = Generation options) as [Ho Hg]
    by (unfold o; destruct (Window options =? 0); by destruct options).
  pose proof (options_limits _ Ho). split; [|split; simpl; done].
  split; simpl; rewrite ?msum_empty; try done; try lia; try (by rewrite Hg).
  - change (0 <= SessionCapacity o). lia.
  - change (0 <= SYNSourceLedgerCapacity o). lia.
  - constructor.
  - intros key. rewrite elem_of_nil, lookup_empty. split; [done|by intros [? ?]].
  - split; simpl; [done|lia].
Qed.
End handlers.

(** ** What calls leave alone *)

(** [view] does not depend on the session of [flow], the pending and half-open
    counters or the SYN source ledger. *)
Record framed {V} (view : Engine -> V) (flow : FakeTCPSessionKey) : Prop := {
  fr_put : forall e s, view (put_session e flow s) = view e;
  fr_delete : forall e, view (set_sessions e (delete flow (e_sessions e))) = view e;
  fr_counts : forall e flows bytes, view (set_pending_counts e flows bytes) = view e;
  fr_half : forall e n, view (set_halfOpen e n) = view e;
  fr_ledger : forall e sources lru, view (set_ledger e sources lru) = view e
}.
#[local] Hint Resolve fr_put fr_delete fr_counts fr_half fr_ledger : core.

Section keeps.
Context {W : Type} `{Env W} {V : Type} (view : Engine -> V) (c0 : V).

Definition keeps {A} (m : M W A) : Prop := forall st, view (es_engine st) = c0 ->
  wp m (fun _ st' => view (es_engine st') = c0) st.

Lemma keeps_bind {A B} (m : M W A) (k : A -> M W B) :
  keeps m -> (forall a, keeps (k a)) -> keeps (ebind m k).
Proof.
  intros Hm Hk st Hst. apply wp_bind. eapply wp_mono; [by apply Hm|]. intros a st' Hst'. by apply Hk.
Qed.
Lemma keeps_ret {A} (a : A) : keeps (eret a).
Proof. intros st Hst. by apply wp_ret. Qed.
Lemma keeps_call {A} (f : W -> A * W) : keeps (call f).
Proof. intros st Hst. apply wp_call. by intros. Qed.
Lemma keeps_modify f : (forall e, view (f e) = view e) -> keeps (modify f).
Proof. intros Hf st Hst. apply wp_modify. simpl. by rewrite Hf. Qed.
Lemma keeps_get {A} (k : Engine -> M W A) :
  (forall e, view e = c0 -> keeps (k e)) -> keeps (ebind get_engine k).
Proof. intros Hk st Hst. apply wp_bind, wp_get. by apply Hk. Qed.
Lemma keeps_set e : view e = c0 -> keeps (set_engine e).
Proof. intros He st Hst. by apply wp_set. Qed.
Lemma keeps_allocate : keeps allocate_id.
Proof. intros st Hst. apply wp_allocate. by intros. Qed.
End keeps.

Ltac keeps_step :=
  lazymatch goal with
  | |- keeps _ _ (ebind get_engine _) => apply keeps_get; intros ? ?
  | |- keeps _ _ (ebind _ _) => apply keeps_bind; [|intros ?]
  | |- keeps _ _ (eret _) => apply keeps_ret
  | |- keeps _ _ (drop_result _ _) => apply keeps_ret
  | |- keeps _ _ (call _) => apply keeps_call
  | |- keeps _ _ Now => apply keeps_call
  | |- keeps _ _ allocate_id => apply keeps_allocate
  | |- keeps _ _ (modify _) => apply keeps_modify; intros ?
  | |- keeps _ _ (set_engine _) => apply keeps_set
  | |- keeps _ _ (if ?b then _ else _) => destruct b
  | |- keeps _ _ (let '(_, _) := ?p in _) => destruct p eqn:?
  | |- keeps _ _ (match ?x with _ => _ end) => destruct x
  | |- keeps _ _ _ => solve [eauto with engine_frame]
  | |- _ => solve [eauto]
  end.

Create HintDb engine_frame.

(** The calls on one flow, for any view the flow does not concern. *)
Section framed_ops.
Context {W : Type} `{Env W} {V : Type} (view : Engine -> V) (c0 : V).
Context (flow : FakeTCPSessionKey) (Hf : framed view flow).
Abbreviation keeps := (keeps (W := W) view c0).

Lemma view_enqueue e s p : view (enqueue e flow s p).1 = view e.
Proof.
  unfold enqueue. repeat case_match; try done; cbn [fst];
    by rewrite (fr_put _ _ Hf), (fr_counts _ _ Hf).
Qed.
Lemma view_reserve e key : view (reserveInboundHalfOpen e key).1 = view e.
Proof.
  unfold reserveInboundHalfOpen, put_source. repeat case_match; try done. cbn [fst].
  by rewrite (fr_half _ _ Hf), (fr_ledger _ _ Hf).
Qed.
Lemma view_restore e cp : view (restore e flow cp) = view e.
Proof.
  unfold restore. destruct (cp_session cp); [rewrite (fr_put _ _ Hf)|rewrite (fr_delete _ _ Hf)];
    apply (fr_counts _ _ Hf).
Qed.

Lemma keeps_releaseHalfOpen s : keeps (releaseHalfOpen flow s).
Proof.
  unfold releaseHalfOpen, touchSYNSource. repeat keeps_step.
  case_match; [apply (fr_half _ _ Hf)|done].
Qed.
#[local] Hint Resolve keeps_releaseHalfOpen : engine_frame.
Lemma keeps_remove s : keeps (remove flow s).
Proof. unfold remove. by repeat keeps_step. Qed.
Lemma keeps_release s : keeps (release flow s).
Proof. unfold release. by repeat keeps_step. Qed.
Lemma keeps_insert s : keeps (insertEstablished flow s).
Proof. unfold insertEstablished. by repeat keeps_step. Qed.
Lemma keeps_lookup s : keeps (lookupEstablished flow s).
Proof. unfold lookupEstablished. by repeat keeps_step. Qed.
Lemma keeps_compareDelete s r : keeps (compareDeleteEstablished flow s r).
Proof. unfold compareDeleteEstablished. by repeat keeps_step. Qed.
#[local] Hint Resolve keeps_remove keeps_release keeps_insert keeps_lookup keeps_compareDelete
  view_restore : engine_frame.
Lemma keeps_retry s r : keeps (retryPendingDelete flow s r).
Proof. unfold retryPendingDelete. by repeat keeps_step. Qed.
Lemma keeps_establish s acts cp : keeps (inbound_establish flow s acts cp).
Proof. unfold inbound_establish. repeat keeps_step. apply view_restore. Qed.
#[local] Hint Resolve keeps_retry keeps_establish : engine_frame.
Lemma keeps_outbound p d : keeps (outbound flow p d).
Proof.
  assert (forall s created, keeps (outbound_pending flow s p created)).
  { intros s created. unfold outbound_pending. repeat keeps_step.
    match goal with E : enqueue ?e _ ?s ?p = _ |- _ => pose proof (view_enqueue e s p) as Hc;
      rewrite E in Hc; simpl in Hc; congruence end. }
  assert (forall e n s, view (put_session (set_halfOpen e n) flow s) = view e)
    by (intros; by rewrite (fr_put _ _ Hf), (fr_half _ _ Hf)).
  unfold outbound, outbound_established. by repeat keeps_step.
Qed.
Lemma keeps_admitted seg wgID now s cp src : keeps (inbound_admitted flow seg wgID now s cp src).
Proof.
  assert (keeps (inbound_new flow seg wgID now src)).
  { unfold inbound_new. repeat keeps_step;
      match goal with E : reserveInboundHalfOpen ?e ?k = _ |- _ =>
        pose proof (view_reserve e k) as Hc; rewrite E in Hc; simpl in Hc; congruence end. }
  assert (forall s, keeps (inbound_existing flow seg wgID now s cp)).
  { intros s'. unfold inbound_existing. repeat keeps_step. apply view_restore. }
  unfold inbound_admitted. by repeat keeps_step.
Qed.
Lemma keeps_tick_session now mono : keeps (tick_session flow now mono).
Proof. unfold tick_session, tick_handshake, tick_established. by repeat keeps_step. Qed.
Lemma keeps_snapshot : keeps (Snapshot flow).
Proof. unfold Snapshot. by repeat keeps_step. Qed.
End framed_ops.

Section framed_calls.
Context {W : Type} `{Env W} {V : Type} (view : Engine -> V) (c0 : V).
Abbreviation keeps := (keeps (W := W) view c0).
#[local] Hint Resolve keeps_remove keeps_lookup keeps_compareDelete keeps_retry keeps_outbound
  keeps_admitted keeps_tick_session : engine_frame.

Lemma keeps_control event packet : framed view (EV_Key event) ->
  keeps (InboundCapturedControl event packet).
Proof. intros Hf. unfold InboundCapturedControl, close_established. by repeat keeps_step. Qed.
Lemma keeps_event event packet fp : framed view (EV_Key event) ->
  keeps (handleOwnedCapturedPacket event packet fp).
Proof. intros Hf. unfold handleOwnedCapturedPacket. by repeat keeps_step. Qed.
Lemma keeps_tick_sessions order now mono : (forall flow, flow ∈ order -> framed view flow) ->
  keeps (tick_sessions order now mono).
Proof.
  induction order as [|flow order IH]; intros Hf; simpl; [apply keeps_ret|].
  apply keeps_bind; [apply keeps_tick_session, Hf, list_elem_of_here|intros []].
  apply keeps_bind; [apply IH; intros; by apply Hf, list_elem_of_further|intros []; apply keeps_ret].
Qed.
Lemma keeps_tick order : (forall flow, flow ∈ order -> framed view flow) -> keeps (Tick order).
Proof. intros Hf. unfold Tick. repeat keeps_step. by apply keeps_tick_sessions. Qed.

(** [inbound] keeps what SYN admission keeps. *)
Lemma keeps_inbound flow seg wgID : framed view flow ->
  (forall e now, view (observeSYN e flow now).1 = view e) -> keeps (inbound flow seg wgID).
Proof.
  intros Hf Ho. unfold inbound. repeat keeps_step.
  all: match goal with E : observeSYN ?e ?f ?t = _ |- _ => pose proof (Ho e t) as Hc;
         rewrite E in Hc; simpl in Hc; congruence end.
Qed.
End framed_calls.

(** The flow a call works on; a [Tick] works on the flows of its order. *)
Definition call_flows (c : engine_call) : list FakeTCPSessionKey :=
  match c with
  | CallOutbound flow _ | CallInbound flow _ _ | CallSnapshot flow => [flow]
  | CallPacketEvent event _ _ | CallControl event _ => [EV_Key event]
  | CallTick order => order
  end.

(** A call keeps every view framed at its flows, if SYN admission does too. *)
Lemma exec_keeps {W} `{Env W} {V} (view : Engine -> V) c (st : EState W) :
  (forall flow, flow ∈ call_flows c -> framed view flow) ->
  (forall flow seg wgID e now, c = CallInbound flow seg wgID ->
     view (observeSYN e flow now).1 = view e) ->
  view (es_engine (exec c st)) = view (es_engine st).
Proof.
  intros Hf Ho. destruct c; simpl in *.
  all: try (assert (framed view flow) by (apply Hf, list_elem_of_here)).
  all: try (assert (framed view (EV_Key event)) by (apply Hf, list_elem_of_here)).
  - by apply keeps_outbound.
  - by apply keeps_event.
  - apply keeps_inbound; [done| |done]. intros. by eapply Ho.
  - by apply keeps_control.
  - by apply keeps_tick.
  - by apply keeps_snapshot.
Qed.

(** *** Construction-time constants *)

(** What no call changes: options, identity and admission epoch. *)
Definition consts (e : Engine) : Options * RuntimeIdentity * Z :=
  (e_opts e, e_identity e, e_admissionEpoch e).

Lemma framed_consts flow : framed consts flow.
Proof. by split. Qed.
Lemma framed_global flow : framed e_globalSYNs flow.
Proof. by split. Qed.
(** The session of another flow. *)
Lemma framed_session flow flow' : flow <> flow' ->
  framed (fun e => (consts e, e_sessions e !! flow)) flow'.
Proof.
  intros Hne. split; try done; intros; simpl; f_equal; [by rewrite lookup_insert_ne|].
  by rewrite lookup_delete_ne.
Qed.

(** SYN admission changes the ledger and the global bucket only. *)
Lemma observe_view {V} (view : Engine -> V) :
  (forall e sources lru, view (set_ledger e sources lru) = view e) ->
  (forall e b, view (set_globalSYNs e b) = view e) ->
  (forall e, view (add_prune_visit e) = view e) ->
  forall e flow now, view (observeSYN e flow now).1 = view e.
Proof.
  intros Hl Hg Hv e flow now.
  assert (forall budget e, view (pruneExpiredSYNSources e now budget) = view e) as Hp.
  { intros budget. induction budget as [|budget IH]; intros e'; simpl; [done|].
    destruct (list.last (e_synSourceLRU e')); [|done]. unfold touchSYNSource.
    repeat case_match; rewrite ?IH, ?Hl; done. }
  unfold observeSYN, lookupOrCreateSYNSource, touchSYNSource, put_source. cbn zeta.
  case_match; [apply Hg|].
  set (p := pruneExpiredSYNSources _ now synSourcePruneBudget).
  assert (view p = view e) as Ep by (unfold p; by rewrite Hp, !Hg).
  destruct (e_synSources p !! _); [case_match; simpl; by rewrite !Hl|].
  destruct (SYNSourceLedgerCapacity _ <=? _); [exact Ep|]. case_match; simpl; by rewrite !Hl.
Qed.

Lemma consts_observe e flow now : consts (observeSYN e flow now).1 = consts e.
Proof. by apply observe_view. Qed.
Lemma consts_reserve e key : consts (reserveInboundHalfOpen e key).1 = consts e.
Proof. unfold reserveInboundHalfOpen. by repeat case_match. Qed.

Lemma exec_consts {W} `{Env W} c (st : EState W) :
  consts (es_engine (exec c st)) = consts (es_engine st).
Proof. apply exec_keeps; [intros; apply framed_consts|intros; apply consts_observe]. Qed.

Lemma step_consts {W} `{Env W} (st st' : EState W) :
  engine_step st st' -> consts (es_engine st') = consts (es_engine st).
Proof. intros [c ?|?|? ?]; [apply exec_consts|done|done]. Qed.

Lemma newEngine_opts options identity now e : newEngine options identity now = Ret e ->
  exists w, e_opts e = with_Window options w.
Proof.
  unfold newEngine. intros Hn. destruct (clock_Domain options); go_inv. subst e. simpl.
  destruct (Window options =? 0); [by eexists|]. exists (Window options). by destruct options.
Qed.

(** A source with no ledger entry has no inbound half-open session. *)
Lemma source_share e key : engine_inv e -> remoteIPv4 key <> 0 ->
  msum (w_source key) (e_sessions e) <= MaxHalfOpenPerSource (e_opts e).
Proof.
  intros He Hk. destruct (e_synSources e !! key) as [src|] eqn:Es.
  - destruct (ei_sources e He key src Es). lia.
  - rewrite (msum_ext _ (fun _ => 0)).
    + pose proof (options_limits _ (ei_options e He)). rewrite msum_zero. lia.
    + intros flow s Hs. unfold w_source. destruct (s_halfOpenHeld s) eqn:Eh; [|done].
      case_bool_decide as E; [|done]. subst key.
      destruct (ei_live e He flow s Hs Eh Hk) as [? Hx]. congruence.
Qed.

(** ** The invariant over every call sequence *)

(** C11: accounting invariant.  After [newEngine], any interleaving of calls on
    the engine, allocations by sibling engines and environment changes keeps
    every counter equal to what the sessions really hold, every quota
    respected, the SYN ledger and its LRU list in step, half-open quota held
    exactly by half-open sessions, and session IDs distinct. *)
Theorem engine_invariant_reachable {W} `{Env W} options identity now e (w : W) st :
  newEngine options identity now = Ret e ->
  rtc engine_step (mkEState e (mkAllocator 0) w) st -> state_inv st.
Proof.
  intros Hn Hr. apply (newEngine_inv _ _ _ _ w) in Hn.
  induction Hr as [st|st1 st2 st3 Hstep _ IH]; [done|]. apply IH. by eapply step_inv.
Qed.

(** A concrete environment: a clock that advances by a second at every reading,
    and a session map. *)
Record sim := mkSim { sim_now : Z; sim_isn : Z; sim_store : gmap FakeTCPSessionKey FakeTCPSessionValue }.

#[export] Instance sim_env : Env sim := {
  env_Now w := (sim_now w, mkSim (sim_now w + 1000000000) (sim_isn w) (sim_store w));
  env_NowNanos w := (inl (sim_now w), w);
  env_InitialSequence w := (sim_isn w, mkSim (sim_now w) (sim_isn w + 4096) (sim_store w));
  store_InsertEstablished k v w :=
    match sim_store w !! k with
    | Some _ => (Some "exists", w)
    | None => (None, mkSim (sim_now w) (sim_isn w) (<[k := v]> (sim_store w)))
    end;
  store_LookupEstablished k w := (inl (sim_store w !! k), w);
  store_DeleteEstablishedIfUnchanged k v w :=
    match sim_store w !! k with
    | None => (inl SessionDeleteAbsent, w)
    | Some v' => if bool_decide (v = v')
                 then (inl SessionDeleteRemoved,
                       mkSim (sim_now w) (sim_isn w) (delete k (sim_store w)))
                 else (inl SessionDeleteDifferent, w)
    end
}.

Definition sample_options : Options :=
  mkOptions 1 8 4 2 1000000 4 2 16 60000000000 4 3 4096 1000000000 3 20000000000 60000000000 0
    true (Some BPFMonotonicClockDomain) true.
Definition sample_identity : RuntimeIdentity := mkRuntimeIdentity 1 (replicate 16 7).
Definition sample_engine : Engine :=
  mkEngine (with_Window sample_options 65535) sample_identity ∅ 0 0 0 (mkBucket 0 1000 true) 1000 ∅
    [] 0.
Definition sample_sim : sim := mkSim 5000000000 100 ∅.
Definition sample_start : EState sim := mkEState sample_engine (mkAllocator 0) sample_sim.

(** An outbound datagram, the peer's SYN|ACK, then a tick. *)
Definition sample_calls : list engine_call :=
  [CallOutbound sample_flow [1; 2; 3];
   CallInbound sample_flow (mkSegment 18 900 101 0) 1;
   CallTick [sample_flow]].

Definition run_calls {W} `{Env W} (cs : list engine_call) (st : EState W) : EState W :=
  foldl (fun st c => exec c st) st cs.

Lemma run_calls_steps {W} `{Env W} cs (st : EState W) : rtc engine_step st (run_calls cs st).
Proof.
  revert st. induction cs as [|c cs IH]; intros st; [apply rtc_refl|].
  eapply rtc_l; [apply step_call|apply IH].
Qed.

Lemma engine_invariant_reachable_witness :
  newEngine sample_options sample_identity 1000 = Ret sample_engine /\
  map s_state (map snd (map_to_list (e_sessions (es_engine (run_calls sample_calls sample_start)))))
    = [FakeTCPStateEstablished] /\
  state_inv (run_calls sample_calls sample_start).
Proof.
  split; [vm_compute; reflexivity|]. split; [vm_compute; reflexivity|].
  apply (engine_invariant_reachable sample_options sample_identity 1000 sample_engine sample_sim);
    [vm_compute; reflexivity|apply run_calls_steps].
Defined.

(** C12: resource bounds.  In every reachable state the engine really retains
    at most [MaxPendingBytes] bytes in at most [MaxPendingFlows] queues of at
    most [MaxPendingPacketsPerFlow] packets, at most [SessionCapacity]
    sessions of which at most [MaxHalfOpenSessions] are half-open, at most
    [MaxHalfOpenPerSource] inbound half-open sessions per SYN source, and at
    most [SYNSourceLedgerCapacity] ledger entries. *)
Theorem engine_resource_bounds {W} `{Env W} options identity now e (w : W) st :
  newEngine options identity now = Ret e ->
  rtc engine_step (mkEState e (mkAllocator 0) w) st ->
  let m := e_sessions (es_engine st) in
  let o := options in
  mlen m <= SessionCapacity o /\
  msum w_bytes m <= MaxPendingBytes o /\ msum w_queue m <= MaxPendingFlows o /\
  msum (fun s => if bool_decide (s_state s = FakeTCPStateEstablished) then 0 else 1) m
    <= MaxHalfOpenSessions o /\
  (forall flow s, m !! flow = Some s -> len (s_pending s) <= MaxPendingPacketsPerFlow o) /\
  (forall key, remoteIPv4 key <> 0 -> msum (w_source key) m <= MaxHalfOpenPerSource o) /\
  mlen (e_synSources (es_engine st)) <= SYNSourceLedgerCapacity o.
Proof.
  intros Hn Hr. assert (state_inv st) as [He _]
    by (apply (newEngine_inv _ _ _ _ w) in Hn; induction Hr; [done|eauto using step_inv]).
  assert (e_opts (es_engine st) = e_opts e) as Ho.
  { enough (consts (es_engine st) = consts e) as Hc by (by injection Hc).
    clear - Hr. remember (mkEState e (mkAllocator 0) w) as st0 eqn:E0.
    change e with (es_engine (mkEState e (mkAllocator 0) w)). rewrite <- E0. clear E0.
    induction Hr as [|? ? ? Hs]; [done|]. apply step_consts in Hs. congruence. }
  assert (exists w, e_opts (es_engine st) = with_Window options w) as [win Hw].
  { rewrite Ho. by apply newEngine_opts in Hn. }
  pose proof (options_limits _ (ei_options _ He)) as Hlim.
  cbn zeta. rewrite <- (ei_bytes _ He), <- (ei_flows _ He).
  pose proof (ei_capacity _ He). pose proof (ei_byte_quota _ He). pose proof (ei_flow_quota _ He).
  pose proof (ei_ledger _ He). pose proof (ei_half_quota _ He). pose proof (fun k => source_share _ k He).
  pose proof (fun f s Hs => so_count _ _ _ (ei_sessions _ He f s Hs)) as Hcnt.
  rewrite (msum_ext _ w_half); [rewrite <- (ei_half _ He)|].
  - rewrite Hw in *. simpl in *. repeat split; try done.
  - intros flow s Hs. unfold w_half.
    destruct (so_state _ _ _ (ei_sessions _ He flow s Hs)) as [([E|E] & -> & _)|(E & -> & _)];
      by rewrite E.
Qed.

Lemma engine_resource_bounds_witness :
  exists st, st = run_calls (take 1 sample_calls) sample_start /\
    msum w_bytes (e_sessions (es_engine st)) = 3 /\
    msum w_bytes (e_sessions (es_engine st)) <= MaxPendingBytes sample_options.
Proof.
  exists (run_calls (take 1 sample_calls) sample_start). split; [reflexivity|].
  split; [vm_compute; reflexivity|].
  pose proof (run_calls_steps (take 1 sample_calls) sample_start) as Hr.
  revert Hr. generalize (run_calls (take 1 sample_calls) sample_start). intros st Hr.
  refine (proj1 (proj2 (engine_resource_bounds sample_options sample_identity 1000 sample_engine
    sample_sim st _ Hr))). vm_compute. reflexivity.
Defined.
