(* ===== verification/EngineBehaviour.v ===== *)
(** * Behaviour of the FakeTCP engine's handlers: transactional failure, who may
    close an established session, the SYN rate bound, retry progress and the
    three-way handshake between two engines. *)
From Stdlib Require Import ZArith Lia.
From stdpp Require Import base option list gmap strings numbers relations.
From S2P Require Import Prelude Abi Checksum L3Parser Runtime ControlPacket Engine EngineInv.
From S2P Require Import EngineProps.

Section behaviour.
Context {W : Type} `{Env W}.

(** ** Errors leave the engine unchanged *)

(** The postcondition: an error means the engine is still [e]. *)
Definition unchanged_on_error (e : Engine) (r : Result) (st : EState W) : Prop :=
  forall err, r.2 = Some err -> es_engine st = e.

Lemma put_same e flow s : e_sessions e !! flow = Some s -> put_session e flow s = e.
Proof. intros Hs. unfold put_session. rewrite insert_id by done. by destruct e. Qed.

(** A retry ends in an unchanged session (error), a cleared claim (the store
    holds a different value) or a removed session. *)
Lemma retry_wp flow s request (Q : Action * option error -> EState W -> Prop) e ids w :
  e_sessions e !! flow = Some s -> s_pendingDelete s = Some request ->
  (forall err w', Q (drop_action flow "session-store-unavailable", Some err) (mkEState e ids w')) ->
  (forall w', store_DeleteEstablishedIfUnchanged flow (pd_expected request) w =
       (inl SessionDeleteDifferent, w') ->
     Q (drop_action flow "fast-session-raced", None)
       (mkEState (put_session e flow (set_pendingDelete s None)) ids w')) ->
  (forall result now w' w'', store_DeleteEstablishedIfUnchanged flow (pd_expected request) w =
       (inl result, w') -> result <> SessionDeleteDifferent -> result <= SessionDeleteRemoved ->
     Q (close_action flow (pd_reason request), None)
       (mkEState (close_out (put_session e flow (set_pendingDelete s None)) flow
          (set_pendingDelete s None) None now) ids w'')) ->
  wp (retryPendingDelete flow s request) Q (mkEState e ids w).
Proof.
  intros Hs Hp Herr Hdiff Hdone. unfold retryPendingDelete, compareDeleteEstablished.
  do 3 wp_step. destruct a as [result|err].
  - destruct (SessionDeleteRemoved <? result) eqn:El.
    + do 4 wp_step. rewrite <- Hp.
      assert (set_pendingDelete s (s_pendingDelete s) = s) as -> by (by destruct s).
      rewrite put_same by done. apply Herr.
    + do 3 wp_step. wp_step.
      * apply Z.eqb_eq in Heqb as ->. wp_step. by apply Hdiff.
      * apply Z.eqb_neq in Heqb. apply Z.ltb_ge in El. wp_step. apply remove_wp. intros now w'.
        wp_step. eapply Hdone; eauto.
  - do 4 wp_step. rewrite <- Hp.
    assert (set_pendingDelete s (s_pendingDelete s) = s) as -> by (by destruct s).
    rewrite put_same by done. apply Herr.
Qed.

Lemma syn_flags f : f = FlagSYN ->
  has_flags f (Z.lor FlagSYN FlagACK) = false /\ Z.land f FlagACK = 0 /\ Z.land f FlagSYN <> 0.
Proof. intros ->. done. Qed.

Lemma existing_unchanged flow seg wgID now s e0 e ids (w : W) :
  state_inv (mkEState e ids w) -> e_sessions e !! flow = Some s ->
  (seg_Flags seg = FlagSYN \/ e0 = e) ->
  wp (inbound_existing flow seg wgID now s (checkpoint e (Some s))) (unchanged_on_error e0)
    (mkEState e ids w).
Proof.
  intros Hi Hs Hsyn. pose proof (session_of _ _ _ Hi Hs) as Hok. simpl in Hok.
  destruct (so_wg _ _ _ Hok) as [Hwg Hne]. unfold inbound_existing. do 2 wp_step.
  rewrite Hwg, (proj2 (Z.eqb_neq _ _) Hne).
  set (s1 := set_activity s now (now + KeepaliveInterval (e_opts e))).
  assert (forall f s2, s_pending s2 = s_pending s -> s_pendingBytes s2 = s_pendingBytes s ->
    s_halfOpenHeld s2 = s_halfOpenHeld s -> s_synSource s2 = s_synSource s ->
    s_sessionID s2 = s_sessionID s -> s_state s <> FakeTCPStateEstablished -> e0 = e ->
    wp (run! (s', released) := release flow s2 in
        inbound_establish flow s' (f released) (checkpoint e (Some s)))
      (unchanged_on_error e0) (mkEState (put_session e flow s2) ids w)) as Hest.
  { intros f s2 Ep Eb Eh Esrc Eid Hnot ->.
    destruct (so_state _ _ _ Hok) as [(_ & Hheld & _ & Hid)|[? _]]; [|done].
    apply (establish_wp f flow s s2); try done; try congruence; apply (so_bytes _ _ _ Hok). }
  assert (forall r (st : EState W), r.2 = None -> unchanged_on_error e0 r st) as Hnone
    by (intros r st E err E'; congruence).
  do 2 wp_step. simpl. wp_step; [|wp_step; [|wp_step]].
  - apply Z.eqb_eq in Heqb. wp_step; [|wp_step].
    + do 2 wp_step. rewrite put_put. apply (Hest (cons _)); try done; [by rewrite Heqb|].
      destruct Hsyn as [E|?]; [|done]. apply syn_flags in E as [E _]. by rewrite E in Heqb0.
    + do 3 wp_step. by apply Hnone.
    + do 2 wp_step. by apply Hnone.
  - apply Z.eqb_eq in Heqb0. wp_step; [wp_step; by apply Hnone|wp_step].
    + do 2 wp_step. rewrite put_put. apply (Hest id); try done; [by rewrite Heqb0|].
      destruct Hsyn as [E|?]; [|done]. apply syn_flags in E as (_ & E & _). by rewrite E in Heqb2.
    + do 2 wp_step. by apply Hnone.
  - wp_step; [do 2 wp_step; by apply Hnone|]. wp_step.
    destruct Hsyn as [E| ->]; [apply syn_flags in E as (_ & _ & E); bool_prop; done|].
    apply lookup_wp.
    + intros r w' Hr. destruct r as [[v|]|err]; [by destruct (proj1 Hr v)|..].
      * wp_step. apply remove_wp. intros now' w''. wp_step. by apply Hnone.
      * do 3 wp_step. rewrite (restore_id e _ flow s Hs) by (done || apply delete_put). by intros err'.
    + intros v w' _ _ s'. wp_step. by apply Hnone.
  - do 2 wp_step. by apply Hnone.
Qed.

Lemma admitted_unchanged flow seg wgID now cp src e0 e ids (w : W) :
  state_inv (mkEState e ids w) -> (seg_Flags seg = FlagSYN \/ e0 = e) ->
  cp = checkpoint e (e_sessions e !! flow) ->
  wp (inbound_admitted flow seg wgID now (e_sessions e !! flow) cp src) (unchanged_on_error e0)
    (mkEState e ids w).
Proof.
  intros Hi Hsyn ->. unfold inbound_admitted.
  assert (forall r (st : EState W), r.2 = None -> unchanged_on_error e0 r st) as Hnone
    by (intros r st E err E'; congruence).
  wp_step; [do 2 wp_step; by apply Hnone|]. destruct (e_sessions e !! flow) as [s|] eqn:Es.
  - wp_step; [wp_step; [do 2 wp_step; by apply Hnone|]|by apply existing_unchanged].
    wp_step. apply remove_wp. intros. wp_step. by apply Hnone.
  - wp_step; [do 2 wp_step; by apply Hnone|]. unfold inbound_new. repeat wp_step; by apply Hnone.
Qed.

(** Splits [inbound] into its rejected, retrying and admitted cases. *)
Lemma inbound_wp flow seg wgID (Q : Result -> EState W -> Prop) e ids w :
  state_inv (mkEState e ids w) ->
  (forall err, validateFlow e flow = Some err -> Q ([], Some err) (mkEState e ids w)) ->
  (forall reason e' w', consts e' = consts e -> e_sessions e' = e_sessions e ->
     Q ([drop_action flow reason], None) (mkEState e' ids w')) ->
  (forall s request w', e_sessions e !! flow = Some s -> s_pendingDelete s = Some request ->
     validateFlow e flow = None -> wgID = SK_WGID flow ->
     wp (run! (action, err) := retryPendingDelete flow s request in eret ([action], err)) Q
       (mkEState e ids w')) ->
  (forall e' now src w' w'', env_Now w = (now, w'') ->
     state_inv (mkEState e' ids w') -> consts e' = consts e -> e_sessions e' = e_sessions e ->
     e_sessions e !! flow ≫= s_pendingDelete = None -> validateFlow e flow = None ->
     wgID = SK_WGID flow ->
     (seg_Flags seg = FlagSYN /\ src = syn_source_of flow \/ seg_Flags seg <> FlagSYN /\ e' = e) ->
     wp (inbound_admitted flow seg wgID now (e_sessions e' !! flow)
           (checkpoint e' (e_sessions e' !! flow)) src) Q (mkEState e' ids w')) ->
  wp (inbound flow seg wgID) Q (mkEState e ids w).
Proof.
  intros Hi Herr Hdrop Hretry Hadm. unfold inbound. do 2 wp_step.
  destruct (validateFlow e flow) eqn:Ev; [wp_step; by apply Herr|].
  wp_step; [do 2 wp_step; by apply Hdrop|]. bool_prop.
  assert (SK_RemoteIPv4 flow <> 0) as Hr
    by (unfold validateFlow in Ev; destruct (_ || _) eqn:Ef in Ev; [done|by bool_prop]).
  do 3 wp_step. destruct (e_sessions e !! flow ≫= s_pendingDelete) as [request|] eqn:Ed.
  { destruct (e_sessions e !! flow) as [s|] eqn:Es; [|done]. simpl in Ed. simpl. rewrite Ed.
    by apply Hretry. }
  assert (wp (if seg_Flags seg =? FlagSYN then
                let '(e', admitted) := observeSYN e flow a in
                do! set_engine e' in
                match admitted with
                | inr rejection => drop_result flow rejection
                | inl src => inbound_admitted flow seg wgID a (e_sessions e !! flow)
                               (checkpoint e (e_sessions e !! flow)) src
                end
              else inbound_admitted flow seg wgID a (e_sessions e !! flow)
                     (checkpoint e (e_sessions e !! flow)) synSourceKey_zero)
    Q (mkEState e ids w0)) as Ht.
  { wp_step; [bool_prop|bool_prop; eapply Hadm; eauto; by right].
    destruct (observeSYN_inv e flow a (proj1 Hi) Hr) as (He' & Es' & Eo' & Hk).
    pose proof (observe_state e ids w0 flow a Hi Hr) as Hi'.
    pose proof (consts_observe e flow a) as Hc.
    destruct (observeSYN e flow a) as [e' [key|rej]]; simpl in *; do 2 wp_step;
      [|do 2 wp_step; by apply Hdrop].
    destruct Hk as [-> _]. rewrite (checkpoint_sessions e e') by (done || apply Hi).
    rewrite <- Es' at 1 2. eapply Hadm; eauto. }
  destruct (e_sessions e !! flow) as [s|]; [simpl in Ed |- *; rewrite Ed|]; exact Ht.
Qed.

Lemma inbound_unchanged flow seg wgID e ids (w : W) :
  state_inv (mkEState e ids w) ->
  wp (inbound flow seg wgID) (unchanged_on_error e) (mkEState e ids w).
Proof.
  intros Hi.
  assert (forall r (st : EState W), r.2 = None -> unchanged_on_error e r st) as Hnone
    by (intros r st E err E'; congruence).
  apply inbound_wp; [done|..].
  - by intros err _ err' _.
  - intros. by apply Hnone.
  - intros s request w' Hs Hp _ _. wp_step. apply (retry_wp _ _ _ _ _ _ _ Hs Hp).
    + intros err w0. wp_step. by intros err' _.
    + intros. wp_step. by apply Hnone.
    + intros. wp_step. by apply Hnone.
  - intros e' now src w' w'' _ Hi' _ _ _ _ _ Hsyn. apply admitted_unchanged; [done| |done]. naive_solver.
Qed.
End behaviour.

(** C13: failed calls roll back.  When [Inbound] returns an error (an invalid
    flow, a failed store lookup, a failed insertion after the handshake
    completed, an exhausted session-ID space, a failed delete retry), the
    engine is exactly as before the call: no session, queue, counter, ledger
    entry or token has changed. *)
Theorem inbound_error_rolls_back {W} `{Env W} flow seg wgID (st st' : EState W) actions err :
  state_inv st -> inbound flow seg wgID st = ((actions, Some err), st') ->
  es_engine st' = es_engine st.
Proof.
  intros Hi E. destruct st as [e ids w]. pose proof (inbound_unchanged flow seg wgID e ids w Hi) as Hu.
  unfold wp in Hu. rewrite E in Hu. by apply (Hu err).
Qed.

(** A store that refuses every insertion. *)
Record broken := mkBroken { broken_sim : sim }.
#[export] Instance broken_env : Env broken := {
  env_Now w := let '(t, w') := env_Now (broken_sim w) in (t, mkBroken w');
  env_NowNanos w := let '(t, w') := env_NowNanos (broken_sim w) in (t, mkBroken w');
  env_InitialSequence w := let '(t, w') := env_InitialSequence (broken_sim w) in (t, mkBroken w');
  store_InsertEstablished k v w := (Some "map is full", w);
  store_LookupEstablished k w := (inr "map is closed", w);
  store_DeleteEstablishedIfUnchanged k v w := (inr "map is closed", w)
}.

Definition broken_start : EState broken :=
  mkEState sample_engine (mkAllocator 0) (mkBroken sample_sim).
Definition broken_syn_sent : EState broken := run_calls (take 1 sample_calls) broken_start.

Lemma broken_syn_sent_inv : state_inv broken_syn_sent.
Proof.
  assert (state_inv broken_start) as Hi
    by (apply (newEngine_inv sample_options sample_identity 1000); vm_compute; reflexivity).
  apply (exec_inv (CallOutbound sample_flow [1; 2; 3])). exact Hi.
Qed.

Lemma inbound_error_rolls_back_witness :
  (inbound sample_flow (mkSegment 18 900 101 0) 1 broken_syn_sent).1 =
    ([drop_action sample_flow "session-store-unavailable"], Some "map is full") /\
  es_engine (inbound sample_flow (mkSegment 18 900 101 0) 1 broken_syn_sent).2 =
    es_engine broken_syn_sent.
Proof.
  split; [vm_compute; reflexivity|].
  eapply (inbound_error_rolls_back sample_flow (mkSegment 18 900 101 0) 1 broken_syn_sent);
    [apply broken_syn_sent_inv|]. rewrite (surjective_pairing (inbound _ _ _ _)) at 1.
  apply (f_equal2 pair); [vm_compute; reflexivity|reflexivity].
Defined.

(** ** Who may close an established session *)

(** The same established session: only its cached times and sequence numbers
    may differ. *)
Definition same_session (s s' : session) : Prop :=
  s_state s' = s_state s /\ s_wgID s' = s_wgID s /\ s_localISN s' = s_localISN s /\
  s_remoteISN s' = s_remoteISN s /\ s_sessionID s' = s_sessionID s /\
  s_pendingDelete s' = s_pendingDelete s.

Section close.
Context {W : Type} `{Env W}.

Definition survives (flow : FakeTCPSessionKey) (s : session) (r : Result) (st : EState W) : Prop :=
  (exists s', e_sessions (es_engine st) !! flow = Some s' /\ same_session s s') \/
  (r = ([close_action flow "fast-session-missing"], None) /\
   exists w w', store_LookupEstablished flow w = (inl None, w')).

Lemma existing_survives flow seg wgID now s cp e ids (w : W) :
  e_sessions e !! flow = Some s -> s_state s = FakeTCPStateEstablished -> s_wgID s <> 0 ->
  cp = checkpoint e (Some s) ->
  wp (inbound_existing flow seg wgID now s cp) (survives flow s) (mkEState e ids w).
Proof.
  intros Hs Hst Hwg ->. unfold inbound_existing. do 2 wp_step.
  rewrite (proj2 (Z.eqb_neq _ _) Hwg). do 2 wp_step. simpl. rewrite Hst. simpl.
  assert (forall s', same_session s s' -> forall r e' (w' : W) ids', e_sessions e' !! flow = Some s' ->
    survives flow s r (mkEState e' ids' w')) as Hsurv by (intros s' Hs' ? ? ? ? ?; left; eauto).
  wp_step; [do 2 wp_step; eapply Hsurv; [|apply lookup_insert_eq]; done|]. wp_step. apply lookup_wp.
  - intros r w' [Hr Hnone]. destruct r as [[v|]|err]; [by destruct (Hr v)|..].
    + wp_step. apply remove_wp. intros. wp_step. right. split; [done|]. eauto.
    + do 3 wp_step. rewrite (restore_id e _ flow s Hs) by (done || apply delete_put).
      by eapply Hsurv.
  - intros v w' _ _ s'. wp_step. eapply Hsurv; [|apply lookup_insert_eq]. done.
Qed.

Lemma inbound_survives flow seg wgID s e ids (w : W) :
  state_inv (mkEState e ids w) -> e_sessions e !! flow = Some s ->
  s_state s = FakeTCPStateEstablished -> s_pendingDelete s = None ->
  wp (inbound flow seg wgID) (survives flow s) (mkEState e ids w).
Proof.
  intros Hi Hs Hst Hpd. destruct (so_wg _ _ _ (session_of _ _ _ Hi Hs)) as [Hwg Hne].
  assert (forall r e' (w' : W), e_sessions e' = e_sessions e ->
    survives flow s r (mkEState e' ids w')) as Hsame
    by (intros r e' w' Es; left; exists s; simpl; by rewrite Es).
  apply inbound_wp; [done|..].
  - intros. by apply Hsame.
  - intros. by apply Hsame.
  - intros s' request w' Hs' Hp. congruence.
  - intros e' now src w' w'' _ Hi' _ Es' _ _ _ Hsyn. rewrite Es', Hs. unfold inbound_admitted.
    wp_step; [do 2 wp_step; by apply Hsame|]. wp_step; [|by apply existing_survives; rewrite ?Es', ?Hwg].
    rewrite Hst, Z.eqb_refl. do 2 wp_step. by apply Hsame.
Qed.

(** What an accepted close went through: the store held a value with the
    session's identity, the packet is authorised against that value, and the
    atomic delete of exactly that value succeeded or found it gone. *)
Definition close_granted (event : FakeTCPEvent) (packet : list Z) (s : session) (e : Engine)
    : Prop :=
  exists v (w w' : W) result w'',
    store_LookupEstablished (EV_Key event) w = (inl (Some v), w') /\
    SV_SessionID v = s_sessionID s /\ SV_LocalISN v = s_localISN s /\
    SV_RemoteISN v = s_remoteISN s /\ SV_RuntimeIncarnation v = RI_Incarnation (e_identity e) /\
    close_authorized packet event v /\
    store_DeleteEstablishedIfUnchanged (EV_Key event) v w' = (inl result, w'') /\
    result <> SessionDeleteDifferent /\ result <= SessionDeleteRemoved.

Definition keeps_or_granted (event : FakeTCPEvent) (packet : list Z) (s : session) (e : Engine)
    (r : Result) (st : EState W) : Prop :=
  (exists s', e_sessions (es_engine st) !! EV_Key event = Some s' /\
     s_sessionID s' = s_sessionID s /\ s_state s' = s_state s /\
     forall a, In a r.1 -> act_Kind a = ActionDrop) \/
  (r = ([close_action (EV_Key event) "peer-close"], None) /\
   e_sessions (es_engine st) !! EV_Key event = None /\ close_granted event packet s e).

Lemma control_granted event packet s e ids (w : W) :
  state_inv (mkEState e ids w) -> bytes_ok packet -> e_sessions e !! EV_Key event = Some s ->
  s_pendingDelete s = None ->
  wp (InboundCapturedControl event packet) (keeps_or_granted event packet s e) (mkEState e ids w).
Proof.
  intros Hi Hb Hs Hpd.
  assert (forall e' (w' : W) r, (exists s', e_sessions e' !! EV_Key event = Some s' /\
      s_sessionID s' = s_sessionID s /\ s_state s' = s_state s) ->
    (r.1 = [] \/ exists reason, r.1 = [drop_action (EV_Key event) reason]) ->
    keeps_or_granted event packet s e r (mkEState e' ids w')) as Hkeep.
  { intros e' w' r (s' & ? & ? & ?) Hr. left. exists s'. repeat split; try done. intros a Ha.
    destruct Hr as [E|[reason E]]; rewrite E in Ha; simpl in Ha; [done|]. by destruct Ha as [<-|]. }
  assert (exists s', e_sessions e !! EV_Key event = Some s' /\ s_sessionID s' = s_sessionID s /\
    s_state s' = s_state s) as Hx0 by eauto.
  unfold InboundCapturedControl. do 2 wp_step.
  destruct (validateFlow e _); [wp_step; apply Hkeep; [exact Hx0|by left]|].
  do 4 (wp_step; [repeat wp_step; apply Hkeep; [exact Hx0|by simpl; eauto]|]).
  rewrite Hs. wp_step; [do 2 wp_step; apply Hkeep; [exact Hx0|by simpl; eauto]|]. rewrite Hpd.
  wp_step; [do 2 wp_step; apply Hkeep; [exact Hx0|by simpl; eauto]|]. bool_prop.
  unfold close_established. wp_step. apply lookup_wp.
  { intros r w' [Hr _]. destruct r as [[v|]|err]; [by destruct (Hr v)|..];
      repeat wp_step; apply Hkeep; [exact Hx0|by simpl; eauto|exact Hx0|by simpl; eauto]. }
  intros v w1 Hlook (_ & _ & El & Er & Eid & Einc) s'.
  assert (exists x, e_sessions (put_session e (EV_Key event) s') !! EV_Key event = Some x /\
    s_sessionID x = s_sessionID s /\ s_state x = s_state s) as Hx
    by (exists s'; simpl; by rewrite lookup_insert_eq).
  destruct (validateIPv4TCPControl packet event v) as [[]|err|] eqn:Ev;
    unfold go_error, go_result; [|do 2 wp_step; apply Hkeep; [exact Hx|by simpl; eauto]..].
  apply validateIPv4TCPControl_ret in Ev; [|done].
  wp_step. unfold compareDeleteEstablished. do 2 wp_step.
  assert (forall pd, exists x, e_sessions (put_session (put_session e (EV_Key event) s') (EV_Key event)
      (set_pendingDelete s' pd)) !! EV_Key event = Some x /\
    s_sessionID x = s_sessionID s /\ s_state x = s_state s) as Hx2
    by (intros pd; eexists; split; [apply lookup_insert_eq|done]).
  destruct a as [result|err]; [|do 4 wp_step; apply Hkeep; [apply Hx2|by simpl; eauto]].
  destruct (SessionDeleteRemoved <? result) eqn:Elt;
    [do 4 wp_step; apply Hkeep; [apply Hx2|by simpl; eauto]|].
  do 3 wp_step. wp_step; [do 2 wp_step; apply Hkeep; [apply Hx2|by simpl; eauto]|].
  apply Z.ltb_ge in Elt. bool_prop.
  wp_step. apply remove_wp. intros now w'. wp_step. right. split; [done|]. split.
  - rewrite close_out_eq. simpl. apply lookup_delete_eq.
  - match goal with Hd : store_DeleteEstablishedIfUnchanged _ _ _ = (inl result, ?w2) |- _ =>
      exists v, w, w1, result, w2; by repeat (split; [done|]) end.
Qed.
End close.

Lemma run_calls_inv {W} `{Env W} cs (st : EState W) : state_inv st -> state_inv (run_calls cs st).
Proof.
  revert st. induction cs as [|c cs IH]; intros st Hi; [done|]. apply IH. by apply exec_inv.
Qed.

(** Peer segments cannot close an established session.  Whatever flags and
    numbers a segment carries (RST and FIN included), [Inbound] on an
    established session without a pending delete keeps that session, with its
    ISNs and session ID, unless the store itself reports the fast session
    missing. *)
Theorem established_survives_inbound {W} `{Env W} flow seg wgID s (st st' : EState W) r :
  state_inv st -> e_sessions (es_engine st) !! flow = Some s ->
  s_state s = FakeTCPStateEstablished -> s_pendingDelete s = None ->
  inbound flow seg wgID st = (r, st') -> survives flow s r st'.
Proof.
  destruct st as [e ids w]. intros Hi Hs Hst Hpd E.
  pose proof (inbound_survives flow seg wgID s e ids w Hi Hs Hst Hpd) as Hw.
  unfold wp in Hw. by rewrite E in Hw.
Qed.

Definition sample_established : EState sim := run_calls (take 2 sample_calls) sample_start.

Lemma sample_established_inv : state_inv sample_established.
Proof.
  assert (state_inv sample_start) as Hi
    by (apply (newEngine_inv sample_options sample_identity 1000); vm_compute; reflexivity).
  by apply run_calls_inv.
Qed.

Lemma established_survives_inbound_witness :
  exists s r st', e_sessions (es_engine sample_established) !! sample_flow = Some s /\
    inbound sample_flow (mkSegment 20 901 101 0) 1 sample_established = (r, st') /\
    r = ([drop_action sample_flow "unvalidated-close"], None) /\ survives sample_flow s r st'.
Proof.
  eexists _, _, _. split; [vm_compute; reflexivity|].
  split; [apply surjective_pairing|]. split; [vm_compute; reflexivity|].
  eapply (established_survives_inbound sample_flow (mkSegment 20 901 101 0) 1);
    [apply sample_established_inv|vm_compute; reflexivity|reflexivity|reflexivity
    |apply surjective_pairing].
Defined.

(** Only an authorised close removes a session.  [InboundCapturedControl]
    on a session without a pending delete either keeps the session (and only
    drops), or closes it after the store returned a value with the session's
    identity, the raw packet passed every clause of [close_authorized] against
    that value, and the compare-and-delete of exactly that value reported it
    removed or absent. *)
Theorem captured_close_requires_authority {W} `{Env W} event packet s (st st' : EState W) r :
  state_inv st -> bytes_ok packet -> e_sessions (es_engine st) !! EV_Key event = Some s ->
  s_pendingDelete s = None -> InboundCapturedControl event packet st = (r, st') ->
  keeps_or_granted event packet s (es_engine st) r st'.
Proof.
  destruct st as [e ids w]. intros Hi Hb Hs Hpd E.
  pose proof (control_granted event packet s e ids w Hi Hb Hs Hpd) as Hw.
  unfold wp in Hw. by rewrite E in Hw.
Qed.

(** The peer's RST|ACK for [sample_established], with exact numbers. *)
Definition sample_rst : list Z := Eval vm_compute in
  let b := [0x45; 0; 0; 40; 0; 0; 0; 0; 64; 6; 0; 0; 10; 0; 0; 2; 10; 0; 0; 1;
            1; 0xbb; 0xca; 0x6c; 0; 0; 3; 133; 0; 0; 0; 101; 0x50; 0x14; 255; 255; 0; 0; 0; 0] in
  let p := store_bytes b 36 (BigEndian_PutUint16
    (transportChecksum (sub_at b 12 8) 6 (sub_at b 20 20))) in
  store_bytes p 10 (BigEndian_PutUint16 (finishChecksum (addChecksumBytes 0 (sub_at p 0 20)))).
Definition sample_rst_event : FakeTCPEvent :=
  mkEvent sample_flow 0 (replicate 16 7) 0 1 1 0 901 101 0 0 1 40 FakeTCPEventABIVersion
    FakeTCPEventRST 0x14.

Lemma captured_close_requires_authority_witness :
  exists s r st', e_sessions (es_engine sample_established) !! sample_flow = Some s /\
    InboundCapturedControl sample_rst_event sample_rst sample_established = (r, st') /\
    r = ([close_action sample_flow "peer-close"], None) /\
    keeps_or_granted sample_rst_event sample_rst s (es_engine sample_established) r st'.
Proof.
  eexists _, _, _. split; [vm_compute; reflexivity|].
  split; [apply surjective_pairing|]. split; [vm_compute; reflexivity|].
  eapply (captured_close_requires_authority sample_rst_event sample_rst);
    [apply sample_established_inv| |vm_compute; reflexivity|reflexivity|apply surjective_pairing].
  unfold sample_rst. repeat (apply Forall_cons_2; [split; lia|]). apply Forall_nil_2.
Defined.
