(* ===== verification/EngineFlow.v ===== *)
(** * Time and message flow of the FakeTCP engine: the SYN rate bound, the
    progress of handshake retries, and the three-way handshake between two
    engines. *)
From Stdlib Require Import ZArith Lia.
From stdpp Require Import base option list gmap strings numbers relations.
From S2P Require Import Prelude Abi Checksum L3Parser Runtime ControlPacket Engine EngineInv.
From S2P Require Import EngineProps EngineBehaviour.

(** ** SYN rate *)

(** Tokens spent plus available tokens are paid for by elapsed intervals. *)
Definition bucket_paid (epoch interval spent : Z) (b : tokenBucket) : Prop :=
  initialized b = true /\ 0 <= tokens b /\ (spent + tokens b) * interval <= lastRefill b - epoch.

Lemma refill_paid epoch interval burst spent b now : 0 < interval -> 0 < burst ->
  bucket_paid epoch interval spent b ->
  bucket_paid epoch interval spent (refillTokenBucket b now interval burst) /\
  lastRefill (refillTokenBucket b now interval burst) <= Z.max (lastRefill b) now.
Proof.
  intros Hi Hb (Hin & Ht & Hp). unfold refillTokenBucket. rewrite Hin. simpl.
  destruct (now <? lastRefill b + interval) eqn:E; [split; [done|lia]|]. apply Z.ltb_ge in E.
  assert (0 <= time_Sub now (lastRefill b) <= now - lastRefill b) as Hsub
    by (unfold time_Sub, min_i64, max_i64; lia).
  pose proof (Z.quot_pos (time_Sub now (lastRefill b)) interval ltac:(lia) ltac:(lia)).
  pose proof (Z.mul_quot_le (time_Sub now (lastRefill b)) interval ltac:(lia) ltac:(lia)).
  set (steps := Z.quot _ _) in *.
  destruct (burst <=? steps) eqn:Eb; unfold bucket_paid; simpl; repeat split; try done; nia.
Qed.

(** The global bucket as a SYN at [now] finds it. *)
Definition refilled (e : Engine) (now : Z) : tokenBucket :=
  refillTokenBucket (e_globalSYNs e) now (SYNRateInterval (e_opts e)) (SYNBurst (e_opts e)).

Lemma prune_global now budget e :
  e_globalSYNs (pruneExpiredSYNSources e now budget) = e_globalSYNs e.
Proof.
  revert e. induction budget as [|budget IH]; intros e; simpl; [done|].
  destruct (list.last (e_synSourceLRU e)); [|done]. repeat case_match; rewrite ?IH; done.
Qed.

(** An observed SYN takes a token if there is one, whatever happens to it next. *)
Lemma observe_global e flow now :
  let r := observeSYN e flow now in
  let g := refilled e now in
  tokens g = 0 /\ e_globalSYNs r.1 = g /\ r.2 = inr "syn-rate-global" \/
  tokens g <> 0 /\ e_globalSYNs r.1 = take_token g.
Proof.
  unfold observeSYN. cbn zeta. fold (refilled e now). destruct (tokens _ =? 0) eqn:Eg; bool_prop; [by left|].
  right. split; [done|]. unfold lookupOrCreateSYNSource. cbn zeta.
  set (e1 := set_globalSYNs _ (take_token _)).
  pose proof (prune_global now synSourcePruneBudget e1) as Hg. change (e_globalSYNs e1) with
    (take_token (refilled e now)) in Hg.
  set (p := pruneExpiredSYNSources e1 now synSourcePruneBudget) in *.
  destruct (e_synSources p !! _); [by case_match|]. destruct (_ <=? mlen _); [done|]. by case_match.
Qed.

Section syn_rate.
Context {W : Type} `{Env W}.

(** The reading of the clock at which a call submits its segment to SYN
    admission, when it does. *)
Definition observed_at (c : engine_call) (st : EState W) : option Z :=
  match c with
  | CallInbound flow seg wgID =>
      let e := es_engine st in
      if bool_decide (validateFlow e flow = None) && (wgID =? SK_WGID flow) &&
         (seg_Flags seg =? FlagSYN) && bool_decide (e_sessions e !! flow ≫= s_pendingDelete = None)
      then Some (env_Now (es_env st)).1 else None
  | _ => None
  end.

Definition refused_globally (r : Result) : bool :=
  match r with
  | ([a], None) => String.eqb (act_Reason a) "syn-rate-global"
  | _ => false
  end.

(** 1 for a SYN that reaches admission and is not turned away by the global
    limit: it may be accepted, belong to a known session, or be rejected by its
    source's limit, the ledger, a quota or the session store. *)
Definition charged (c : engine_call) (st : EState W) : Z :=
  match c with
  | CallInbound flow seg wgID =>
      if bool_decide (is_Some (observed_at c st)) && negb (refused_globally (inbound flow seg wgID st).1)
      then 1 else 0
  | _ => 0
  end.

(** A run of the engine in which [n] SYNs are charged, all submitted by time [T]. *)
Inductive syn_run (T : Z) : Z -> EState W -> EState W -> Prop :=
| syn_done st : syn_run T 0 st st
| syn_call n c st st' : (forall now, observed_at c st = Some now -> now <= T) ->
    syn_run T n (exec c st) st' -> syn_run T (charged c st + n) st st'
| syn_other n st st' :
    syn_run T n (mkEState (es_engine st) (allocate (es_sessionIDs st)).1 (es_env st)) st' ->
    syn_run T n st st'
| syn_env n st w st' : syn_run T n (mkEState (es_engine st) (es_sessionIDs st) w) st' ->
    syn_run T n st st'.

(** An observed segment goes through [observeSYN]. *)
Lemma inbound_observed flow seg wgID e ids (w : W) now :
  observed_at (CallInbound flow seg wgID) (mkEState e ids w) = Some now ->
  inbound flow seg wgID (mkEState e ids w) =
    let '(e', admitted) := observeSYN e flow now in
    match admitted with
    | inr rejection => drop_result flow rejection
    | inl src => inbound_admitted flow seg wgID now (e_sessions e !! flow)
                   (checkpoint e (e_sessions e !! flow)) src
    end (mkEState e' ids (env_Now w).2).
Proof.
  unfold observed_at. cbn [es_engine es_env]. destruct (_ && _) eqn:Eb; [|done]. intros [= <-].
  rewrite !andb_true_iff, !bool_decide_eq_true in Eb. destruct Eb as [[[Ev Ew] Ef] Ed].
  unfold inbound, ebind, get_engine, Now, call, set_engine. cbn [es_engine es_env es_sessionIDs].
  rewrite Ev, Ew, Ef. simpl.
  destruct (env_Now w) as [now w']. simpl.
  destruct (e_sessions e !! flow) as [s|] eqn:Es; simpl in *; [destruct (s_pendingDelete s); [done|]|];
    by destruct (observeSYN e flow now).
Qed.

(** A segment that is not observed leaves the global bucket alone. *)
Lemma inbound_unobserved flow seg wgID (st : EState W) :
  observed_at (CallInbound flow seg wgID) st = None ->
  e_globalSYNs (es_engine (inbound flow seg wgID st).2) = e_globalSYNs (es_engine st).
Proof.
  destruct st as [e ids w]. intros Ho. unfold observed_at in Ho. cbn [es_engine es_env] in Ho.
  change (wp (inbound flow seg wgID) (fun _ st => e_globalSYNs (es_engine st) = e_globalSYNs e)
    (mkEState e ids w)).
  assert (forall s now cp src w', wp (inbound_admitted flow seg wgID now s cp src)
    (fun _ st => e_globalSYNs (es_engine st) = e_globalSYNs e) (mkEState e ids w')) as Hadm
    by (intros; by apply (keeps_admitted e_globalSYNs _ flow (framed_global flow))).
  unfold inbound. do 2 wp_step. destruct (validateFlow e flow); [by wp_step|].
  wp_step; [by do 2 wp_step|]. bool_prop. subst wgID. rewrite Z.eqb_refl in Ho. do 3 wp_step.
  assert (wp (if seg_Flags seg =? FlagSYN then
                let '(e', admitted) := observeSYN e flow a in
                do! set_engine e' in
                match admitted with
                | inr rejection => drop_result flow rejection
                | inl src => inbound_admitted flow seg (SK_WGID flow) a (e_sessions e !! flow)
                               (checkpoint e (e_sessions e !! flow)) src
                end
              else inbound_admitted flow seg (SK_WGID flow) a (e_sessions e !! flow)
                     (checkpoint e (e_sessions e !! flow)) synSourceKey_zero)
    (fun _ st => e_globalSYNs (es_engine st) = e_globalSYNs e) (mkEState e ids w0) \/
    is_Some (e_sessions e !! flow ≫= s_pendingDelete)) as Ht.
  { destruct (e_sessions e !! flow ≫= s_pendingDelete); [by right; eexists|left].
    destruct (seg_Flags seg =? FlagSYN); [done|apply Hadm]. }
  destruct (e_sessions e !! flow) as [s|] eqn:Es; simpl in Ht |- *; [|by destruct Ht as [?|[]]].
  destruct (s_pendingDelete s) as [request|]; [|by destruct Ht as [?|[]]].
  wp_step. eapply wp_mono; [by apply (keeps_retry e_globalSYNs (e_globalSYNs e) flow (framed_global flow))|].
  intros [] st' Hst. by wp_step.
Qed.

(** The effect of any call on the global bucket. *)
Lemma exec_global c (st : EState W) :
  e_globalSYNs (es_engine (exec c st)) =
    match observed_at c st with
    | None => e_globalSYNs (es_engine st)
    | Some now => let g := refilled (es_engine st) now in
                  if tokens g =? 0 then g else take_token g
    end /\
  (charged c st = 0 \/ exists now, observed_at c st = Some now /\ charged c st = 1 /\
     tokens (refilled (es_engine st) now) <> 0).
Proof.
  destruct c as [| |flow seg wgID| | |];
    try (split; [apply (exec_keeps e_globalSYNs); [intros; apply framed_global|done]|by left]).
  unfold charged. cbn [exec]. destruct (observed_at _ st) as [now|] eqn:Eo.
  - destruct st as [e ids w]. rewrite (inbound_observed _ _ _ _ _ _ _ Eo). cbn [es_engine].
    pose proof (observe_global e flow now) as Ho. cbn zeta in Ho |- *.
    destruct (observeSYN e flow now) as [e' adm]. cbn [fst snd] in Ho.
    destruct Ho as [(Ht & Eg & ->)|[Ht Eg]]; [rewrite Ht; split; [exact Eg|left; by rewrite andb_false_r]|].
    rewrite (proj2 (Z.eqb_neq _ _) Ht). split.
    + destruct adm; [|done]. rewrite <- Eg.
      by apply (keeps_admitted e_globalSYNs (e_globalSYNs e') flow (framed_global flow)).
    + rewrite bool_decide_true by (by eexists). destruct (negb _); [right; by exists now|by left].
  - split; [by apply inbound_unobserved|left]. by rewrite bool_decide_false by (by intros []).
Qed.

Lemma call_paid c (st : EState W) T epoch spent : state_inv st ->
  let i := SYNRateInterval (e_opts (es_engine st)) in
  (forall now, observed_at c st = Some now -> now <= T) ->
  bucket_paid epoch i spent (e_globalSYNs (es_engine st)) ->
  lastRefill (e_globalSYNs (es_engine st)) <= T ->
  bucket_paid epoch i (spent + charged c st) (e_globalSYNs (es_engine (exec c st))) /\
  lastRefill (e_globalSYNs (es_engine (exec c st))) <= T.
Proof.
  intros [He _] i Hnow Hp HT. subst i. pose proof (options_limits _ (ei_options _ He)) as Hlim.
  destruct (exec_global c st) as [-> Hc]. destruct (observed_at c st) as [now|].
  - set (o := e_opts (es_engine st)) in *.
    destruct (refill_paid epoch (SYNRateInterval o) (SYNBurst o) spent (e_globalSYNs (es_engine st)) now
      ltac:(lia) ltac:(lia) Hp) as [Hp' Hl].
    specialize (Hnow now eq_refl).
    change (refillTokenBucket _ now _ _) with (refilled (es_engine st) now) in Hp', Hl. cbn zeta.
    destruct (tokens _ =? 0) eqn:Eg; bool_prop.
    + destruct Hc as [->|(? & [= <-] & _ & ?)]; [|done]. rewrite Z.add_0_r. split; [done|lia].
    + split; [|simpl; lia]. destruct Hp' as (? & ? & ?).
      assert (0 <= charged c st <= 1) by (destruct Hc as [->|(? & _ & -> & _)]; lia).
      split; [done|]. simpl. nia.
  - destruct Hc as [->|(? & ? & _)]; [|done]. by rewrite Z.add_0_r.
Qed.

Lemma syn_run_paid T n st st' epoch spent : syn_run T n st st' -> state_inv st ->
  let i := SYNRateInterval (e_opts (es_engine st)) in
  bucket_paid epoch i spent (e_globalSYNs (es_engine st)) ->
  lastRefill (e_globalSYNs (es_engine st)) <= T -> (spent + n) * i <= T - epoch.
Proof.
  intros Hr. revert spent.
  induction Hr as [st|n c st st' Hnow _ IH|n st st' _ IH|n st w st' _ IH]; intros spent Hi i Hp HT.
  - destruct Hp as (_ & ? & ?). pose proof (options_limits _ (ei_options _ (proj1 Hi))). subst i. nia.
  - destruct (call_paid c st T epoch spent Hi Hnow Hp HT) as [Hp' HT'].
    pose proof (exec_consts c st) as Hc. injection Hc as Ho _ _.
    specialize (IH (spent + charged c st) (exec_inv c st Hi)). rewrite Ho in IH.
    specialize (IH Hp' HT'). unfold i in *. lia.
  - apply IH; try done. eapply step_inv; [apply step_other|done].
  - by apply IH.
Qed.

(** The SYNs charged by a list of calls. *)
Fixpoint charges (cs : list engine_call) (st : EState W) : Z :=
  match cs with
  | [] => 0
  | c :: cs => charged c st + charges cs (exec c st)
  end.
Fixpoint observed_by (T : Z) (cs : list engine_call) (st : EState W) : bool :=
  match cs with
  | [] => true
  | c :: cs => match observed_at c st with Some now => now <=? T | None => true end &&
               observed_by T cs (exec c st)
  end.
Lemma calls_syn_run T cs (st : EState W) : observed_by T cs st = true ->
  syn_run T (charges cs st) st (run_calls cs st).
Proof.
  revert st. induction cs as [|c cs IH]; intros st; simpl; [constructor|].
  intros [Hnow Hcs]%andb_prop. apply syn_call; [|by apply IH].
  intros now E. rewrite E in Hnow. by apply Z.leb_le.
Qed.
End syn_rate.

(** C16: SYN rate.  In any run of an engine constructed at [epoch] (calls of
    every kind in any order, sibling engines and the environment between
    them), the SYNs that reach admission by time [T] and are not turned away by
    the global limit number at most the whole [SYNRateInterval]s from [epoch]
    to [T].  Counted are the accepted ones and also those that are then
    rejected by their source's limit, the source ledger, a half-open quota or
    the session store, or answered as duplicates: construction grants no
    initial burst, idle time is not credited twice, and nothing that happens
    to a SYN later gives its token back. *)
Theorem syn_admission_rate {W} `{Env W} options identity epoch e (w : W) T n st :
  newEngine options identity epoch = Ret e -> epoch <= T ->
  syn_run T n (mkEState e (mkAllocator 0) w) st ->
  n * SYNRateInterval options <= T - epoch.
Proof.
  intros Hn HT Hr. destruct (newEngine_opts _ _ _ _ Hn) as [win Ho].
  pose proof (newEngine_inv options identity epoch e w Hn) as Hi.
  assert (e_globalSYNs e = mkBucket 0 epoch true) as Eg.
  { unfold newEngine in Hn. destruct (clock_Domain options); go_inv. by subst e. }
  pose proof (syn_run_paid T n _ st epoch 0 Hr Hi) as Hb. simpl in Hb. rewrite Eg, Ho in Hb.
  simpl in Hb. apply Hb; [|done]. split; [done|]. simpl. lia.
Qed.

(** A world whose clock stands still. *)
Record stopped := mkStopped { stopped_now : Z }.
#[export] Instance stopped_env : Env stopped := {
  env_Now w := (stopped_now w, w);
  env_NowNanos w := (inl (stopped_now w), w);
  env_InitialSequence w := (7, w);
  store_InsertEstablished _ _ w := (None, w);
  store_LookupEstablished _ w := (inl None, w);
  store_DeleteEstablishedIfUnchanged _ _ w := (inl SessionDeleteAbsent, w)
}.

(** Six SYNs after three intervals of uptime: the first source uses its two
    tokens, a third global token is spent on its rejected SYN, and the other
    source's SYNs are refused globally. *)
Definition sample_syns : list engine_call :=
  replicate 3 (CallInbound sample_flow (mkSegment FlagSYN 900 0 0) 1) ++
  replicate 3 (CallInbound (mkSessionKey 1 5 77 3 51820 443 1 (zeros 4)) (mkSegment FlagSYN 7 0 0) 1).
Definition sample_stopped : EState stopped :=
  mkEState sample_engine (mkAllocator 0) (mkStopped 3001000).

Lemma syn_admission_rate_witness :
  charges sample_syns sample_stopped = 3 /\
  e_halfOpen (es_engine (run_calls sample_syns sample_stopped)) = 1 /\
  charges sample_syns sample_stopped * SYNRateInterval sample_options <= 3001000 - 1000.
Proof.
  split; [vm_compute; reflexivity|]. split; [vm_compute; reflexivity|].
  apply (syn_admission_rate sample_options sample_identity 1000 sample_engine (mkStopped 3001000)
    3001000 _ (run_calls sample_syns sample_stopped));
    [vm_compute; reflexivity|lia|apply calls_syn_run; vm_compute; reflexivity].
Defined.

(** ** Expiry of half-open sessions *)

Section expiry.
Context {W : Type} `{Env W} (flow : FakeTCPSessionKey).

(** What a visit at [now] does to the half-open session of a flow. *)
Definition visited (now : Z) (o : Options) (os os' : option session) : Prop :=
  match os with
  | None => os' = None
  | Some s => half_open_state (s_state s) ->
      if now <? s_nextRetry s then os' = Some s
      else if HandshakeRetries o <=? s_retries s then os' = None
      else os' = Some (set_nextRetry (set_retries s (s_retries s + 1)) (now + HandshakeTimeout o))
  end.

(** The part of an engine the flow concerns. *)
Definition flow_view (e : Engine) := (consts e, e_sessions e !! flow).

Lemma tick_session_visits now mono (st : EState W) :
  let st' := (tick_session flow now mono st).2 in
  consts (es_engine st') = consts (es_engine st) /\
  visited now (e_opts (es_engine st)) (e_sessions (es_engine st) !! flow)
    (e_sessions (es_engine st') !! flow).
Proof.
  split; [by apply (keeps_tick_session consts _ flow (framed_consts flow))|].
  destruct st as [e ids w]. cbn [es_engine].
  change (wp (tick_session flow now mono) (fun _ st' =>
    visited now (e_opts e) (e_sessions e !! flow) (e_sessions (es_engine st') !! flow)) (mkEState e ids w)).
  unfold tick_session. do 2 wp_step. unfold visited. destruct (e_sessions e !! flow) as [s|] eqn:Hs; [|by wp_step].
  destruct (_ || _) eqn:Est; [clear Est|].
  - unfold tick_handshake. do 2 wp_step. destruct (now <? s_nextRetry s); [by wp_step|].
    destruct (HandshakeRetries (e_opts e) <=? s_retries s).
    + wp_step. apply remove_wp. intros now' w'. wp_step. intros _. rewrite close_out_eq.
      apply lookup_delete_eq.
    + do 2 wp_step. destruct (if s_state _ =? _ then _ else _). wp_step. intros _. apply lookup_insert_eq.
  - apply orb_false_iff in Est as [E1%Z.eqb_neq E2%Z.eqb_neq].
    unfold wp. by intros [?|?].
Qed.

Lemma tick_sessions_visits order now mono : NoDup order -> flow ∈ order -> forall st : EState W,
  let st' := (tick_sessions order now mono st).2 in
  visited now (e_opts (es_engine st)) (e_sessions (es_engine st) !! flow)
    (e_sessions (es_engine st') !! flow).
Proof.
  induction 1 as [|f order Hf Hnd IH]; [by intros ?%elem_of_nil|]. intros Hin [e ids w]. cbn [es_engine].
  change (wp (tick_sessions (f :: order) now mono) (fun _ st' =>
    visited now (e_opts e) (e_sessions e !! flow) (e_sessions (es_engine st') !! flow)) (mkEState e ids w)).
  simpl. wp_step. destruct (decide (f = flow)) as [->|Hne].
  - destruct (tick_session_visits now mono (mkEState e ids w)) as [_ Hv]. unfold wp at 1.
    destruct (tick_session flow now mono (mkEState e ids w)) as [[acts errs] st1]. simpl in Hv |- *. wp_step.
    eapply wp_mono; [apply (keeps_tick_sessions flow_view (flow_view (es_engine st1)));
      [|reflexivity]|].
    + intros f' Hf'. apply framed_session. by intros ->.
    + intros [] st2 Hst2. wp_step. by injection Hst2 as _ _ _ ->.
  - eapply wp_mono; [apply (keeps_tick_session flow_view (flow_view e) f); [|reflexivity]|].
    + apply framed_session. congruence.
    + intros [acts errs] st1 [= Ho _ _ Es]. wp_step.
      assert (flow ∈ order) as Hin' by (by apply elem_of_cons in Hin as [?|?]).
      pose proof (IH Hin' st1) as Hv. cbn zeta in Hv. rewrite Ho, Es in Hv. unfold wp, ebind.
      by destruct (tick_sessions order now mono st1) as [[] ?].
Qed.

(** A tick is due for the flow: both clocks answer and the flow's session has
    reached its retry time. *)
Definition due_tick (st : EState W) : bool :=
  let '(now, w) := env_Now (es_env st) in
  match (env_NowNanos w).1, e_sessions (es_engine st) !! flow with
  | inl _, Some s => s_nextRetry s <=? now
  | _, _ => false
  end.

(** A run in which nothing arrives for the flow, with its number of due ticks:
    [Tick]s that visit every session in any order, any calls on other flows,
    sibling engines and the environment. *)
Inductive idle_run : Z -> EState W -> EState W -> Prop :=
| idle_done st : idle_run 0 st st
| idle_tick n order st st' : NoDup order ->
    (forall f, f ∈ order <-> is_Some (e_sessions (es_engine st) !! f)) ->
    idle_run n (exec (CallTick order) st) st' ->
    idle_run ((if due_tick st then 1 else 0) + n) st st'
| idle_call n c st st' : flow ∉ call_flows c -> idle_run n (exec c st) st' -> idle_run n st st'
| idle_other n st st' :
    idle_run n (mkEState (es_engine st) (allocate (es_sessionIDs st)).1 (es_env st)) st' ->
    idle_run n st st'
| idle_env n st w st' : idle_run n (mkEState (es_engine st) (es_sessionIDs st) w) st' ->
    idle_run n st st'.

(** Due ticks left before the session is removed, that tick included. *)
Definition ticks_left (e : Engine) : Z :=
  match e_sessions e !! flow with
  | Some s => HandshakeRetries (e_opts e) - s_retries s + 1
  | None => 0
  end.
Definition waiting (e : Engine) : Prop :=
  match e_sessions e !! flow with Some s => half_open_state (s_state s) | None => True end.

Lemma tick_counts order (st : EState W) : NoDup order ->
  (forall f, f ∈ order <-> is_Some (e_sessions (es_engine st) !! f)) ->
  state_inv st -> waiting (es_engine st) ->
  waiting (es_engine (exec (CallTick order) st)) /\
  ticks_left (es_engine (exec (CallTick order) st)) =
    ticks_left (es_engine st) - (if due_tick st then 1 else 0).
Proof.
  intros Hnd Hall Hi Hw.
  pose proof (exec_consts (CallTick order) st) as Hc. injection Hc as Ho _ _.
  unfold waiting, ticks_left in *. cbn [exec] in *. rewrite Ho. unfold due_tick.
  destruct (e_sessions (es_engine st) !! flow) as [s|] eqn:Es.
  2: { assert (flow_view (es_engine (Tick order st).2) = flow_view (es_engine st)) as Hv.
       { apply (exec_keeps flow_view (CallTick order)); [|done]. intros f Hf. apply framed_session. intros <-.
         apply Hall in Hf as [? ?]. congruence. }
       injection Hv as _ _ _ ->. rewrite Es. split; [done|]. by repeat case_match. }
  assert (flow ∈ order) as Hin by (apply Hall; by eexists).
  destruct st as [e ids w]. cbn [es_engine es_env exec] in *. unfold Tick, ebind, Now, call. cbn [es_env].
  destruct (env_Now w) as [now w1]. cbn [es_env es_engine es_sessionIDs].
  destruct (env_NowNanos w1) as [[mono|err] w2]; cbn [fst snd eret es_engine];
    [|rewrite Es; split; [done|lia]].
  pose proof (tick_sessions_visits order now mono Hnd Hin (mkEState e ids w2)) as Hv.
  destruct (tick_sessions order now mono _) as [[acts errs] st2]. cbn [fst snd es_engine eret] in *.
  rewrite Es in Hv. specialize (Hv Hw). rewrite Z.leb_antisym. destruct (now <? s_nextRetry s); simpl.
  { rewrite Hv. split; [done|lia]. }
  pose proof (so_retries _ _ _ (session_of _ _ _ Hi Es)) as Hr. simpl in Hr.
  destruct (_ <=? _) eqn:El; rewrite Hv; (split; [done|]); simpl; lia.
Qed.

Lemma idle_run_counts n (st st' : EState W) : idle_run n st st' ->
  state_inv st -> waiting (es_engine st) ->
  state_inv st' /\ waiting (es_engine st') /\ consts (es_engine st') = consts (es_engine st) /\
  ticks_left (es_engine st') = ticks_left (es_engine st) - n.
Proof.
  induction 1 as [st|n order st st' Hnd Hall _ IH|n c st st' Hc _ IH|n st st' _ IH|n st w st' _ IH];
    intros Hi Hw.
  - split; [done|split; [done|split; [done|lia]]].
  - destruct (tick_counts order st Hnd Hall Hi Hw) as [Hw' Ht].
    destruct IH as (? & ? & Ec & ->); [by apply exec_inv|done|]. rewrite Ec, Ht.
    split; [done|split; [done|split; [apply exec_consts|lia]]].
  - assert (flow_view (es_engine (exec c st)) = flow_view (es_engine st)) as Hv.
    { apply exec_keeps; [intros f Hf; apply framed_session; by intros ->|].
      intros flow' seg wgID e now ->. by apply observe_view. }
    unfold waiting, ticks_left in *. injection Hv as Ho Hid He Es. rewrite Es, Ho in IH.
    destruct IH as (? & ? & Ec & ?); [by apply exec_inv|done|]. split; [done|split; [done|split; [|done]]].
    rewrite Ec. unfold consts. by rewrite Ho, Hid, He.
  - apply IH; [|done]. eapply step_inv; [apply step_other|done].
  - by apply IH.
Qed.
End expiry.

(** The quota an engine accounts for is what its sessions hold: half-open
    sessions globally and per source, flows with queued packets and their
    bytes. *)
Definition half_open (s : session) : Z :=
  if (s_state s =? FakeTCPStateSynSent) || (s_state s =? FakeTCPStateSynReceived) then 1 else 0.
Definition quota_exact (e : Engine) : Prop :=
  e_halfOpen e = msum half_open (e_sessions e) /\
  (forall key source, e_synSources e !! key = Some source ->
     src_halfOpen source =
       msum (fun s => if bool_decide (s_synSource s = key) then half_open s else 0) (e_sessions e)) /\
  e_pendingFlows e = msum w_queue (e_sessions e) /\ e_pendingBytes e = msum w_bytes (e_sessions e).

Lemma held_half_open o flow s : session_ok o flow s -> w_half s = half_open s.
Proof.
  intros Hok. unfold w_half, half_open.
  destruct (so_state _ _ _ Hok) as [([-> | ->] & -> & _)|(-> & -> & _)]; done.
Qed.
Lemma quota_exact_inv e : engine_inv e -> quota_exact e.
Proof.
  intros He. split; [|split; [|split; [apply (ei_flows e He)|apply (ei_bytes e He)]]].
  - rewrite (ei_half e He). apply msum_ext. intros flow s Hs. eapply held_half_open, (ei_sessions e He), Hs.
  - intros key source Hk. rewrite (sk_count _ _ _ (ei_sources e He key source Hk)).
    apply msum_ext. intros flow s Hs. rewrite <- (held_half_open _ _ _ (ei_sessions e He flow s Hs)).
    unfold w_source, w_half. by destruct (s_halfOpenHeld s), (bool_decide _).
Qed.

(** C17: half-open sessions expire.  While nothing arrives for the flow of a
    half-open session, whatever other flows do, at most
    [HandshakeRetries - retries + 1] ticks are due for it.  Each but the last
    of them counts one retry and leaves the session half-open, ticks that are
    not due leave it, and the last one removes it.  Before and after, the
    quota counters are exactly what the sessions of the engine hold, so the
    expired session's half-open, source and queue quota is returned with
    it. *)
Theorem half_open_expires {W} `{Env W} flow s n (st st' : EState W) :
  state_inv st -> e_sessions (es_engine st) !! flow = Some s -> half_open_state (s_state s) ->
  idle_run flow n st st' ->
  let limit := HandshakeRetries (e_opts (es_engine st)) - s_retries s + 1 in
  n <= limit /\ 1 <= limit <= HandshakeRetries (e_opts (es_engine st)) /\
  (n = limit -> e_sessions (es_engine st') !! flow = None) /\
  (n < limit -> exists s', e_sessions (es_engine st') !! flow = Some s' /\
     half_open_state (s_state s') /\ s_retries s' = s_retries s + n) /\
  quota_exact (es_engine st) /\ quota_exact (es_engine st').
Proof.
  intros Hi Hs Hst Hrun. pose proof (so_retries _ _ _ (session_of _ _ _ Hi Hs)) as Hr.
  destruct (idle_run_counts flow n st st' Hrun Hi) as (Hi' & Hw & Hc & Ht);
    [unfold waiting; by rewrite Hs|].
  injection Hc as Ho _ _. unfold ticks_left, waiting in Ht, Hw. rewrite Hs, Ho in Ht.
  split; [|split; [lia|split; [|split; [|split; apply quota_exact_inv; [apply Hi|apply Hi']]]]].
  all: destruct (e_sessions (es_engine st') !! flow) as [s'|] eqn:Es'; try done; try lia.
  all: try (pose proof (so_retries _ _ _ (session_of _ _ _ Hi' Es')) as Hr'; rewrite Ho in Hr'); try lia.
  intros Hn. exists s'. repeat split; [done|lia].
Qed.

Definition sample_syn_sent : EState sim := run_calls (take 1 sample_calls) sample_start.
Definition sample_ticks (n : nat) : EState sim :=
  run_calls (replicate n (CallTick [sample_flow])) sample_syn_sent.

Lemma sample_idle : idle_run sample_flow 3 sample_syn_sent (sample_ticks 3).
Proof.
  assert (forall st : EState sim,
    map fst (map_to_list (e_sessions (es_engine st))) = [sample_flow] ->
    forall f, f ∈ [sample_flow] <-> is_Some (e_sessions (es_engine st) !! f)) as Hall.
  { intros st Hk f. rewrite <- Hk, list_elem_of_fmap. split.
    - intros [[f' s] [-> Hin]]. apply elem_of_map_to_list in Hin. by eexists.
    - intros [s Hs]. exists (f, s). by rewrite elem_of_map_to_list. }
  assert (NoDup [sample_flow]) as Hnd by apply NoDup_singleton.
  change 3 with (1 + (1 + (1 + 0))).
  do 3 (match goal with |- idle_run _ (1 + ?n) ?st _ =>
    change (1 + n) with ((if due_tick sample_flow st then 1 else 0) + n) end;
    eapply (idle_tick _ _ [sample_flow]); [exact Hnd|apply Hall; vm_compute; reflexivity|]).
  apply idle_done.
Qed.

Lemma half_open_expires_witness :
  (exists s, e_sessions (es_engine (sample_ticks 2)) !! sample_flow = Some s) /\
  e_sessions (es_engine (sample_ticks 3)) !! sample_flow = None /\
  e_halfOpen (es_engine sample_syn_sent) = 1 /\ e_halfOpen (es_engine (sample_ticks 3)) = 0.
Proof.
  split; [vm_compute; eexists; reflexivity|]. split; [|split; vm_compute; reflexivity].
  assert (exists s, e_sessions (es_engine sample_syn_sent) !! sample_flow = Some s /\
    s_state s = FakeTCPStateSynSent /\ s_retries s = 1) as (s & Hs & Hst & Hr).
  { vm_compute. eexists. repeat split; reflexivity. }
  assert (state_inv sample_syn_sent) as Hi.
  { apply run_calls_inv. apply (newEngine_inv sample_options sample_identity 1000).
    vm_compute. reflexivity. }
  refine (proj1 (proj2 (proj2 (half_open_expires sample_flow s 3 sample_syn_sent (sample_ticks 3)
    Hi Hs (or_introl Hst) sample_idle))) _).
  rewrite Hr. vm_compute. reflexivity.
Defined.

(** ** The three-way handshake *)

(** The segment the peer observes when a control packet is delivered. *)
Definition segment_of (a : Action) : Segment :=
  mkSegment (CP_Flags (act_Control a)) (CP_Sequence (act_Control a))
    (CP_Acknowledgement (act_Control a)) 0.

Section handshake.
Context {W : Type} `{Env W}.

(** First outbound datagram of a flow. *)
Lemma outbound_opens flow packet e ids (w : W) :
  e_sessions e !! flow = None ->
  wp (Outbound flow packet) (fun r st => forall syn rest, r = (syn :: rest, None) ->
    act_Kind syn = ActionSendControl ->
    exists s, e_sessions (es_engine st) !! flow = Some s /\ s_state s = FakeTCPStateSynSent /\
      s_pendingDelete s = None /\ s_txSequence s = u32 (s_localISN s + 1) /\
      act_Control syn = mkControlPacket FlagSYN (s_localISN s) 0 (Window (e_opts e)) /\
      validateFlow (es_engine st) flow = None /\
      (rest = [] -> map PP_Data (s_pending s) = [packet])) (mkEState e ids w).
Proof.
  intros Hs. unfold Outbound, outbound. do 2 wp_step.
  destruct (validateFlow e flow) eqn:Ev; [by wp_step|]. cbn [PP_WGID]. rewrite Z.eqb_refl. cbn [negb].
  rewrite Hs. do 3 wp_step. wp_step; [do 2 wp_step; by intros ? ? [= <- <-]|].
  wp_step; [do 2 wp_step; by intros ? ? [= <- <-]|]. do 4 wp_step. unfold outbound_pending.
  cbn [s_wgID PP_WGID]. rewrite Z.eqb_refl, andb_false_r.
  set (p := mkPendingPacket packet _ _ _ _ _ _).
  set (s := mkSession FakeTCPStateSynSent _ _ _ _ _ _ _ _ _ _ _ _ _ _ _).
  assert ((if SK_WGID flow =? 0 then set_wgID s (SK_WGID flow) else s) = s) as ->
    by (by destruct (SK_WGID flow =? 0)).
  do 4 wp_step. rewrite put_put. set (e1 := put_session _ flow s).
  unfold enqueue. destruct (_ || _); [|destruct (_ && _)]; do 3 wp_step; intros syn rest [= <- <-] _.
  - exists s. split; [apply lookup_insert_eq|]. repeat split; try done.
  - exists s. split; [apply lookup_insert_eq|]. repeat split; try done.
  - eexists. split; [apply lookup_insert_eq|]. repeat split; try done.
Qed.

(** A SYN for an unknown flow. *)
Lemma inbound_accepts flow seg e ids (w : W) :
  state_inv (mkEState e ids w) -> e_sessions e !! flow = None -> seg_Flags seg = FlagSYN ->
  wp (Inbound flow seg) (fun r st => forall synack, r = ([synack], None) ->
    act_Kind synack = ActionSendControl ->
    exists s, e_sessions (es_engine st) !! flow = Some s /\ s_state s = FakeTCPStateSynReceived /\
      s_pendingDelete s = None /\ s_txSequence s = u32 (s_localISN s + 1) /\
      s_remoteISN s = seg_Sequence seg /\ s_rxSequence s = u32 (seg_Sequence seg + 1) /\
      act_Control synack = mkControlPacket (Z.lor FlagSYN FlagACK) (s_localISN s) (s_rxSequence s)
        (Window (e_opts e)) /\
      validateFlow (es_engine st) flow = None) (mkEState e ids w).
Proof.
  intros Hi Hs Hf. apply inbound_wp; [done|done|..].
  - by intros ? ? ? _ _ ? [= <-].
  - intros s request w' Hs'. congruence.
  - intros e' now src w' w'' _ Hi' Hc Es' _ Ev _ _. rewrite Es', Hs. unfold inbound_admitted.
    rewrite Hf. simpl. unfold inbound_new. do 2 wp_step. rewrite Hf. simpl.
    injection Hc as Eo _ _. wp_step; [do 2 wp_step; by intros ? [= <-]|].
    pose proof (consts_reserve e' src) as Hr. destruct (reserveInboundHalfOpen e' src) as [e1 rej].
    simpl in Hr. injection Hr as Eo1 _ _. do 2 wp_step.
    destruct rej; [do 2 wp_step; by intros ? [= <-]|].
    do 5 wp_step. intros synack [= <-] _. eexists. split; [apply lookup_insert_eq|].
    repeat split; try done; simpl; [by rewrite Eo1, Eo|].
    unfold validateFlow in *. simpl. by rewrite Eo1, Eo.
Qed.

(** An existing half-open session that a segment completes. *)
Lemma establish_result (f : list Action -> list Action) flow s s2 e ids (w : W) :
  state_inv (mkEState e ids w) -> e_sessions e !! flow = Some s -> half_open_state (s_state s) ->
  s_pending s2 = s_pending s -> s_pendingBytes s2 = s_pendingBytes s ->
  s_halfOpenHeld s2 = s_halfOpenHeld s -> s_synSource s2 = s_synSource s ->
  s_sessionID s2 = s_sessionID s ->
  wp (run! (s', released) := release flow s2 in
      inbound_establish flow s' (f released) (checkpoint e (Some s)))
    (fun r st => r.2 = None ->
       r.1 = f (release_actions flow (s_wgID s2) (s_pending s)) /\
       exists s', e_sessions (es_engine st) !! flow = Some s' /\ s_state s' = s_state s2 /\
         s_localISN s' = s_localISN s2 /\ s_remoteISN s' = s_remoteISN s2 /\
         s_txSequence s' = s_txSequence s2 /\ s_rxSequence s' = s_rxSequence s2 /\
         s_pending s' = []) (mkEState (put_session e flow s2) ids w).
Proof.
  intros Hi Hs Hst Ep Eb Eh Esrc Eid. pose proof (session_of _ _ _ Hi Hs) as Hok. simpl in Hok.
  destruct (so_state _ _ _ Hok) as [(_ & Hheld & _ & Hid)|[E _]]; [|rewrite E in Hst; by destruct Hst].
  apply (establish_wp f flow s s2); try done; try congruence; [apply (so_bytes _ _ _ Hok)|].
  intros id ids' nanos now w' w1 w2 s3 _ _ _. split; [done|]. rewrite close_out_eq. simpl.
  eexists. split; [apply lookup_insert_eq|]. done.
Qed.

(** Delivery of a segment to an existing session: [inbound] up to the state
    switch. *)
Lemma inbound_reaches flow seg s (Q : Result -> EState W -> Prop) e ids w :
  state_inv (mkEState e ids w) -> e_sessions e !! flow = Some s -> s_pendingDelete s = None ->
  seg_Flags seg <> FlagSYN -> Z.land (seg_Flags seg) (Z.lor FlagRST FlagFIN) = 0 ->
  validateFlow e flow = None ->
  (forall now w', wp (inbound_existing flow seg (SK_WGID flow) now s (checkpoint e (Some s))) Q
     (mkEState e ids w')) ->
  wp (Inbound flow seg) Q (mkEState e ids w).
Proof.
  intros Hi Hs Hp Hf Hr Hv HQ. destruct (so_wg _ _ _ (session_of _ _ _ Hi Hs)) as [Hwg Hne].
  unfold Inbound, inbound. do 2 wp_step. rewrite Hv, Z.eqb_refl. cbn [negb]. do 3 wp_step. rewrite Hs. simpl.
  rewrite Hp, (proj2 (Z.eqb_neq _ _) Hf). unfold inbound_admitted.
  rewrite Hwg, Z.eqb_refl, andb_false_r, Hr. apply HQ.
Qed.

(** The initiator on the peer's SYN|ACK. *)
Lemma inbound_synack flow seg s e ids (w : W) :
  state_inv (mkEState e ids w) -> e_sessions e !! flow = Some s ->
  s_state s = FakeTCPStateSynSent -> s_pendingDelete s = None -> validateFlow e flow = None ->
  seg_Flags seg = Z.lor FlagSYN FlagACK -> seg_Acknowledgement seg = s_txSequence s ->
  wp (Inbound flow seg) (fun r st => r.2 = None ->
    exists ack, r.1 = ack :: release_actions flow (s_wgID s) (s_pending s) /\
      act_Control ack = mkControlPacket FlagACK (s_txSequence s) (u32 (seg_Sequence seg + 1))
        (Window (e_opts e)) /\
      exists s', e_sessions (es_engine st) !! flow = Some s' /\
        s_state s' = FakeTCPStateEstablished /\ s_localISN s' = s_localISN s /\
        s_remoteISN s' = seg_Sequence seg /\ s_txSequence s' = s_txSequence s /\
        s_rxSequence s' = u32 (seg_Sequence seg + 1) /\ s_pending s' = []) (mkEState e ids w).
Proof.
  intros Hi Hs Hst Hp Hv Hf Ha. apply (inbound_reaches flow seg s); try done; [by rewrite Hf..|].
  intros now w'. destruct (so_wg _ _ _ (session_of _ _ _ Hi Hs)) as [Hwg Hne].
  unfold inbound_existing. do 2 wp_step. rewrite Hwg, (proj2 (Z.eqb_neq _ _) Hne).
  do 2 wp_step. simpl. rewrite Hst, Hf, Ha, !Z.eqb_refl.
  change (has_flags (Z.lor FlagSYN FlagACK) (Z.lor FlagSYN FlagACK)) with true. cbn [andb].
  do 2 wp_step. rewrite put_put.
  set (s2 := set_state _ _). set (ack := control e flow s2 _ _ _ _).
  eapply wp_mono; [by apply (establish_result (cons ack) flow s s2); try done; left|].
  intros r st Hr Hnone. destruct (Hr Hnone) as (-> & s' & Hs' & ? & ? & ? & ? & ? & ?).
  exists ack. split; [unfold s2; simpl; by rewrite Hwg|]. split; [done|]. exists s'. by repeat split.
Qed.

(** The responder on the initiator's ACK. *)
Lemma inbound_ack flow seg s e ids (w : W) :
  state_inv (mkEState e ids w) -> e_sessions e !! flow = Some s ->
  s_state s = FakeTCPStateSynReceived -> s_pendingDelete s = None -> validateFlow e flow = None ->
  seg_Flags seg = FlagACK -> seg_Acknowledgement seg = s_txSequence s ->
  wp (Inbound flow seg) (fun r st => r.2 = None ->
    exists s', e_sessions (es_engine st) !! flow = Some s' /\
      s_state s' = FakeTCPStateEstablished /\ s_localISN s' = s_localISN s /\
      s_remoteISN s' = s_remoteISN s /\ s_txSequence s' = s_txSequence s /\
      s_rxSequence s' = s_rxSequence s /\ s_pending s' = []) (mkEState e ids w).
Proof.
  intros Hi Hs Hst Hp Hv Hf Ha. apply (inbound_reaches flow seg s); try done; [by rewrite Hf..|].
  intros now w'. destruct (so_wg _ _ _ (session_of _ _ _ Hi Hs)) as [Hwg Hne].
  unfold inbound_existing. do 2 wp_step. rewrite Hwg, (proj2 (Z.eqb_neq _ _) Hne).
  do 2 wp_step. simpl. rewrite Hst, Hf, Ha, !Z.eqb_refl.
  change (FakeTCPStateSynReceived =? FakeTCPStateSynSent) with false.
  change (FlagACK =? FlagSYN) with false. change (Z.land FlagACK FlagACK =? 0) with false.
  cbn [andb negb]. do 2 wp_step. rewrite put_put.
  set (s2 := set_state _ _).
  eapply wp_mono; [by apply (establish_result id flow s s2); try done; right|].
  intros r st Hr Hnone. destruct (Hr Hnone) as (_ & s' & Hs' & ? & ? & ? & ? & ? & ?).
  exists s'. by repeat split.
Qed.
End handshake.

(** The flow an engine's peer uses: addresses and ports swapped. *)
Definition peer_of (flow : FakeTCPSessionKey) (generation underlay wgID : Z) : FakeTCPSessionKey :=
  mkSessionKey generation (SK_RemoteIPv4 flow) (SK_LocalIPv4 flow) underlay (SK_RemotePort flow)
    (SK_LocalPort flow) wgID (zeros 4).

(** Both ends of a completed handshake agree on every number. *)
Definition in_sync (s p : session) : Prop :=
  s_state s = FakeTCPStateEstablished /\ s_state p = FakeTCPStateEstablished /\
  s_txSequence s = s_rxSequence p /\ s_rxSequence s = s_txSequence p /\
  s_localISN s = s_remoteISN p /\ s_remoteISN s = s_localISN p.

(** C18: the handshake of two engines synchronises them.  If the initiator's
    first datagram emits a SYN, the responder answers it with a SYN|ACK, and no
    store operation fails, then delivering the SYN|ACK makes the initiator emit
    an ACK and release exactly the queued datagram, and delivering that ACK
    leaves both ends established with matching send and receive sequence
    numbers and ISNs, for every choice of initial sequence numbers (32-bit
    wrap-around included). *)
Theorem handshake_synchronises {A B} `{Env A} `{Env B} flow peer packet
    (a a1 a2 : EState A) (b b1 b2 : EState B) syn synack acts fin :
  state_inv a -> state_inv b ->
  e_sessions (es_engine a) !! flow = None -> e_sessions (es_engine b) !! peer = None ->
  Outbound flow packet a = (([syn], None), a1) -> act_Kind syn = ActionSendControl ->
  Inbound peer (segment_of syn) b = (([synack], None), b1) ->
  act_Kind synack = ActionSendControl ->
  Inbound flow (segment_of synack) a1 = ((acts, None), a2) ->
  exists ack released, acts = ack :: [released] /\
    act_Kind released = ActionReleasePending /\ map PP_Data (act_Packets released) = [packet] /\
    (Inbound peer (segment_of ack) b1 = ((fin, None), b2) ->
     exists s p, e_sessions (es_engine a2) !! flow = Some s /\
       e_sessions (es_engine b2) !! peer = Some p /\ in_sync s p).
Proof.
  intros Ha Hb Hfa Hfb Eo Ek Ei Ek' Es. destruct a as [ea ia wa], b as [eb ib wb]. simpl in *.
  pose proof (outbound_opens flow packet ea ia wa Hfa) as H1. unfold wp in H1. rewrite Eo in H1.
  destruct (H1 syn [] eq_refl Ek) as (s1 & Hs1 & St1 & Pd1 & Tx1 & C1 & V1 & Q1).
  pose proof (inbound_accepts peer (segment_of syn) eb ib wb Hb Hfb) as H2.
  unfold segment_of in H2 at 1. rewrite C1 in H2. specialize (H2 eq_refl).
  unfold wp in H2. rewrite Ei in H2.
  destruct (H2 synack eq_refl Ek') as (p1 & Hp1 & St2 & Pd2 & Tx2 & R2 & Rx2 & C2 & V2).
  unfold segment_of in R2, Rx2. rewrite C1 in R2, Rx2. simpl in R2, Rx2.
  pose proof (exec_inv (CallOutbound flow packet) (mkEState ea ia wa) Ha) as Ha1.
  pose proof (exec_inv (CallInbound peer (segment_of syn) (SK_WGID peer)) (mkEState eb ib wb) Hb) as Hb1.
  simpl in Ha1, Hb1. unfold Inbound in Ei. rewrite Eo in Ha1. rewrite Ei in Hb1. simpl in Ha1, Hb1.
  destruct a1 as [ea1 ia1 wa1], b1 as [eb1 ib1 wb1]. simpl in *.
  assert (seg_Flags (segment_of synack) = Z.lor FlagSYN FlagACK /\
    seg_Acknowledgement (segment_of synack) = s_txSequence s1 /\
    seg_Sequence (segment_of synack) = s_localISN p1) as (F3 & A3 & S3)
    by (unfold segment_of; rewrite C2; simpl; split; [done|]; split; congruence).
  pose proof (inbound_synack flow (segment_of synack) s1 ea1 ia1 wa1 Ha1 Hs1 St1 Pd1 V1 F3 A3) as H3.
  unfold wp in H3. rewrite Es in H3. cbn [fst snd] in H3.
  destruct (H3 eq_refl) as (ack & -> & C3 & s & Hs & St & L & R & T & X & _). clear H1 H2 H3.
  specialize (Q1 eq_refl). unfold release_actions.
  destruct (len (s_pending s1) =? 0) eqn:E0.
  { apply Z.eqb_eq in E0. destruct (s_pending s1); [done|]. rewrite len_cons in E0.
    pose proof (len_nonneg l). lia. }
  eexists ack, _. split; [done|]. split; [done|]. split; [done|]. intros Ef.
  assert (seg_Flags (segment_of ack) = FlagACK /\
    seg_Acknowledgement (segment_of ack) = s_txSequence p1) as (F4 & A4)
    by (rewrite S3 in C3; unfold segment_of; rewrite C3, Tx2; done).
  pose proof (inbound_ack peer (segment_of ack) p1 eb1 ib1 wb1 Hb1 Hp1 St2 Pd2 V2 F4 A4) as H4.
  unfold wp in H4. rewrite Ef in H4.
  destruct (H4 eq_refl) as (p & Hp & St' & L' & R' & T' & X' & _).
  rewrite S3 in R, X. exists s, p. repeat split; try done; congruence.
Qed.

(** Two engines whose ISNs wrap around. *)
Definition sample_peer : FakeTCPSessionKey := peer_of sample_flow 1 5 1.
Definition sample_a : EState sim :=
  mkEState sample_engine (mkAllocator 0) (mkSim 5000000000 4294967295 ∅).
Definition sample_b : EState sim :=
  mkEState sample_engine (mkAllocator 0) (mkSim 5000000000 4294967294 ∅).

Lemma sample_inv (w : sim) : state_inv (mkEState sample_engine (mkAllocator 0) w).
Proof. apply (newEngine_inv sample_options sample_identity 1000). vm_compute. reflexivity. Qed.

Definition sample_syn : Action := Eval vm_compute in
  match (Outbound sample_flow [1; 2; 3] sample_a).1.1 with x :: _ => x | [] => drop_action sample_flow "" end.
Definition sample_synack : Action := Eval vm_compute in
  match (Inbound sample_peer (segment_of sample_syn) sample_b).1.1 with
  | x :: _ => x | [] => drop_action sample_flow "" end.

Definition sample_a1 : EState sim := (Outbound sample_flow [1; 2; 3] sample_a).2.
Definition sample_b1 : EState sim := (Inbound sample_peer (segment_of sample_syn) sample_b).2.
Definition sample_a2 : EState sim := (Inbound sample_flow (segment_of sample_synack) sample_a1).2.
Definition sample_acts : list Action := Eval vm_compute in
  (Inbound sample_flow (segment_of sample_synack) sample_a1).1.1.

Lemma split_result {X Y : Type} (p : X * Y) x : p.1 = x -> p = (x, p.2).
Proof. destruct p. by intros <-. Qed.
Lemma sample_step1 : Outbound sample_flow [1; 2; 3] sample_a = (([sample_syn], None), sample_a1).
Proof. unfold sample_a1. apply (split_result (_ : _ * EState sim)). vm_compute. reflexivity. Qed.
Lemma sample_step2 :
  Inbound sample_peer (segment_of sample_syn) sample_b = (([sample_synack], None), sample_b1).
Proof. unfold sample_b1. apply (split_result (_ : _ * EState sim)). vm_compute. reflexivity. Qed.
Lemma sample_step3 :
  Inbound sample_flow (segment_of sample_synack) sample_a1 = ((sample_acts, None), sample_a2).
Proof. unfold sample_a2. apply (split_result (_ : _ * EState sim)). vm_compute. reflexivity. Qed.

Lemma handshake_synchronises_witness :
  exists ack released, sample_acts = ack :: [released] /\
    act_Kind released = ActionReleasePending /\ map PP_Data (act_Packets released) = [[1; 2; 3]].
Proof.
  destruct (handshake_synchronises sample_flow sample_peer [1; 2; 3] sample_a sample_a1 sample_a2
    sample_b sample_b1 sample_b sample_syn sample_synack sample_acts [] (sample_inv _)
    (sample_inv _) eq_refl eq_refl sample_step1 eq_refl sample_step2 eq_refl sample_step3)
    as (ack & released & E & Ek & Ep & _).
  exists ack, released. auto.
Defined.
