(* ===== verification/ErrorState.v ===== *)
(** * Code that reads and changes a world and may fail

    The state-and-error monad [SM] of the components that call the kernel, and
    weakest preconditions for it. *)
From Stdlib Require Import ZArith Lia.
From stdpp Require Import base option list gmap strings numbers.
From S2P Require Import Prelude.

Definition SM (W A : Type) : Type := W -> (A + error) * W.
Definition sret {W A} (a : A) : SM W A := fun w => (inl a, w).
Definition sfail {W A} (e : error) : SM W A := fun w => (inr e, w).
Definition sbind {W A B} (m : SM W A) (k : A -> SM W B) : SM W B :=
  fun w => match m w with
           | (inl a, w) => k a w
           | (inr e, w) => (inr e, w)
           end.
(** A call that returns only an error. *)
Definition scall {W} (f : W -> option error * W) : SM W unit := fun w =>
  let '(err, w) := f w in (match err with Some e => inr e | None => inl tt end, w).
(** [fmt.Errorf("prefix: %w", err)] around the error of a step. *)
Definition swrap {W A} (prefix : error) (m : SM W A) : SM W A := fun w =>
  match m w with
  | (inr e, w) => (inr (prefix +:+ e), w)
  | r => r
  end.

Declare Scope store_scope.
Delimit Scope store_scope with store.
Notation "'try!' x ':=' m 'in' k" := (sbind m (fun x => k))
  (at level 10, x pattern, m at level 100, k at level 200) : store_scope.
Notation "'must!' m 'in' k" := (sbind m (fun _ => k))
  (at level 10, m at level 100, k at level 200) : store_scope.
Notation "'reject' b 'with' e 'in' k" := (if b then sfail e else k)
  (at level 10, b at level 100, e at level 100, k at level 200) : store_scope.
#[global] Open Scope store_scope.

(** ** Weakest preconditions *)

(** After a value [Q], after an error [E]. *)
Definition swp {W A} (m : SM W A) (Q : A -> W -> Prop) (E : W -> Prop) (w : W) : Prop :=
  match m w with
  | (inl a, w') => Q a w'
  | (inr _, w') => E w'
  end.

Section wp.
Context {W : Type}.
Implicit Types w : W.

Lemma swp_ret {A} (a : A) (Q : A -> W -> Prop) E w : Q a w -> swp (sret a) Q E w.
Proof. done. Qed.
Lemma swp_fail {A} e (Q : A -> W -> Prop) (E : W -> Prop) w : E w -> swp (sfail e) Q E w.
Proof. done. Qed.
Lemma swp_bind {A B} (m : SM W A) (k : A -> SM W B) Q E w :
  swp m (fun a w' => swp (k a) Q E w') E w -> swp (sbind m k) Q E w.
Proof. unfold swp, sbind. by destruct (m w) as [[a|e] w']. Qed.
Lemma swp_mono {A} (m : SM W A) (Q Q' : A -> W -> Prop) (E E' : W -> Prop) w :
  swp m Q E w -> (forall a w', Q a w' -> Q' a w') -> (forall w', E w' -> E' w') -> swp m Q' E' w.
Proof. unfold swp. destruct (m w) as [[a|e] w']; auto. Qed.
Lemma swp_wrap {A} prefix (m : SM W A) Q E w : swp m Q E w -> swp (swrap prefix m) Q E w.
Proof. unfold swp, swrap. by destruct (m w) as [[a|e] w']. Qed.
Lemma swp_call (f : W -> option error * W) (Q : unit -> W -> Prop) (E : W -> Prop) w :
  ((f w).1 = None -> Q tt (f w).2) -> ((f w).1 <> None -> E (f w).2) -> swp (scall f) Q E w.
Proof. unfold swp, scall. destruct (f w) as [[e|] w']; cbn; auto. Qed.
Lemma swp_reject {A} (b : bool) e (k : SM W A) Q (E : W -> Prop) w :
  (b = false -> swp k Q E w) -> (b = true -> E w) -> swp (reject b with e in k) Q E w.
Proof. destruct b; intros HQ HE; [by apply HE|by apply HQ]. Qed.
End wp.
