(* ===== verification/SessionStore.v ===== *)
(** * The established-session store (internal/faketcp/session_store.go,
    session_compare_delete.go) over a model of the kernel session map.

    Store code runs in the state-and-error monad [SM] over the kernel state.
    [SessionKernel] lists the kernel calls the store and the compare-deleter
    make; [kernel] is a concrete kernel in which the packet programs run before
    every call and every call may fail before or after taking effect. *)
From Stdlib Require Import ZArith Lia.
From stdpp Require Import base option list gmap strings numbers relations.
From S2P Require Import Prelude ErrorState Abi Checksum L3Parser Runtime ControlPacket BpfSession Engine.
From S2P Require Import EngineInv EngineProps.

(** A pure check. *)
Definition scheck {W} (m : outcome unit) : SM W unit := fun w => (go_result m, w).

(** ** Identities *)
Definition fakeTCPSessionKernelMapName : string := "faketcp_session".
Definition fakeTCPSessionMapTypeHash : Z := 1.
Definition fakeTCPSessionMapMaxEntries : Z := 16384.

Record SessionMapIdentity := mkMapIdentity {
  MI_ID : Z;
  MI_Name : string;
  MI_MapType : Z;
  MI_KeySize : Z;
  MI_ValueSize : Z;
  MI_MaxEntries : Z;
  MI_Flags : Z
}.
#[export] Instance SessionMapIdentity_eq_dec : EqDecision SessionMapIdentity.
Proof. solve_decision. Defined.

Definition validateSessionMapIdentity (identity : SessionMapIdentity) : outcome unit :=
  fail_if MI_ID identity =? 0 with "map ID is unavailable or zero" in
  fail_if negb (String.eqb (MI_Name identity) fakeTCPSessionKernelMapName)
    with "kernel map name is wrong" in
  fail_if negb (MI_MapType identity =? fakeTCPSessionMapTypeHash)
    with "map type is not BPF_MAP_TYPE_HASH" in
  fail_if negb (MI_KeySize identity =? fakeTCPSessionMapKeySize) ||
          negb (MI_ValueSize identity =? fakeTCPSessionMapValueSize) ||
          negb (MI_MaxEntries identity =? fakeTCPSessionMapMaxEntries) ||
          negb (MI_Flags identity =? 0)
    with "map ABI is wrong" in
  Ret tt.

Definition validateBoundSessionKey (key : FakeTCPSessionKey) (generation : Z) : outcome unit :=
  fail_if negb (SK_Generation key =? generation)
    with "faketcp session key generation does not match store generation" in
  fail_if (SK_LocalIPv4 key =? 0) || (SK_RemoteIPv4 key =? 0) || (SK_UnderlayIndex key =? 0) ||
          (SK_LocalPort key =? 0) || (SK_RemotePort key =? 0) || (SK_WGID key =? 0)
    with "faketcp session key has a zero address, interface, port, or WGID" in
  fail_if negb (bool_decide (SK_Reserved key = zeros 4))
    with "faketcp session key has nonzero reserved bytes" in
  Ret tt.

(** ** Kernel calls *)

(** [ebpf.SchedCLS]. *)
Definition ProgramType_SchedCLS : Z := 3.

(** [backend_Lookup] returns [None] for [errSessionMapKeyNotExist].
    [backend_Clone] returns whether the clone is non-nil, and its error. *)
Class SessionKernel (W : Type) := {
  backend_Clone : W -> (bool * option error) * W;
  backend_Close : SM W unit;
  backend_Identity : SM W SessionMapIdentity;
  backend_InsertNoExist : FakeTCPSessionKey -> FakeTCPSessionValue -> SM W unit;
  backend_Lookup : FakeTCPSessionKey -> SM W (option FakeTCPSessionValue);
  claim_SessionMapIdentity : SM W SessionMapIdentity;
  claim_ProgramBinding : SM W (Z * list Z);
  claim_Run : list Z -> SM W Z;
  claim_DeleteSession : FakeTCPSessionKey -> SM W unit
}.

Section store.
Context {W : Type} `{SessionKernel W}.
Abbreviation SM := (SM W).

(** ** The atomic compare-deleter *)

Record LinuxAtomicSessionCompareDeleter := mkDeleter { d_identity : SessionMapIdentity }.

Definition validateBinding (deleter : LinuxAtomicSessionCompareDeleter) : SM unit :=
  try! actual := claim_SessionMapIdentity in
  reject negb (bool_decide (actual = d_identity deleter))
    with "faketcp session map identity changed" in
  try! (programType, mapIDs) := claim_ProgramBinding in
  reject negb (programType =? ProgramType_SchedCLS)
    with "faketcp compare-claim program type is not SchedCLS" in
  reject negb (bool_decide (mapIDs = [MI_ID (d_identity deleter)]))
    with "faketcp compare-claim program map IDs are wrong" in
  sret tt.

Definition newLinuxAtomicSessionCompareDeleter (kernelNil : bool) (expected : SessionMapIdentity)
    : SM LinuxAtomicSessionCompareDeleter :=
  reject kernelNil with "faketcp compare-delete kernel backend is nil" in
  must! scheck (validateSessionMapIdentity expected) in
  let deleter := mkDeleter expected in
  must! validateBinding deleter in
  sret deleter.

Definition CompareDeleteEstablished (deleter : option LinuxAtomicSessionCompareDeleter)
    (identity : SessionMapIdentity) (key : FakeTCPSessionKey) (expected : FakeTCPSessionValue)
    : SM Z :=
  match deleter with
  | None => sfail "faketcp compare-delete backend is nil"
  | Some deleter =>
      reject negb (bool_decide (identity = d_identity deleter))
        with "faketcp session map identity changed" in
      must! scheck (validateBoundSessionKey key (SV_Generation expected)) in
      must! scheck (validateEstablishedSessionValue expected (SK_Generation key)) in
      must! validateBinding deleter in
      try! request := (fun w => (go_result (marshalFakeTCPSessionClaim key expected), w)) in
      try! result := claim_Run request in
      if result =? CLAIM_ABSENT then sret SessionDeleteAbsent
      else if result =? CLAIM_DIFFERENT then sret SessionDeleteDifferent
      else if result =? CLAIM_MALFORMED
      then sfail "faketcp kernel rejected a locally validated compare-claim"
      else if result =? CLAIMED then
        must! validateBinding deleter in
        must! claim_DeleteSession key in
        sret SessionDeleteRemoved
      else sfail "faketcp kernel compare-claim returned unknown status"
  end.

(** ** The store *)

(** [ls_backend]: whether the owned handle is present.  The compare-deleter is
    absent, or present (possibly a typed nil pointer, the inner [None]). *)
Record LinuxSessionStore := mkStore {
  ls_backend : bool;
  ls_compareDelete : option (option LinuxAtomicSessionCompareDeleter);
  ls_generation : Z;
  ls_identity : SessionMapIdentity;
  ls_closed : bool
}.

Definition closeClonedSessionMapAfterConstructionFailure (cause : error) : SM LinuxSessionStore :=
  fun w => let '(r, w) := backend_Close w in
           (inr match r with
                | inl _ => cause
                | inr closeErr => default cause (errors_Join (Some cause)
                    (Some ("close cloned faketcp session map after construction failure: " +:+ closeErr)))
                end, w).

Definition newLinuxSessionStoreWithAtomicCompareDelete (backendNil : bool) (generation : Z)
    (expected : SessionMapIdentity)
    (compareDelete : option (option LinuxAtomicSessionCompareDeleter)) : SM LinuxSessionStore :=
  reject backendNil with "faketcp session map backend is nil" in
  reject match compareDelete with Some None => true | _ => false end
    with "faketcp atomic session compare-deleter is typed nil" in
  reject generation =? 0 with "faketcp session store generation must be non-zero" in
  must! scheck (validateSessionMapIdentity expected) in
  try! (owned, err) := (fun w => let '(r, w) := backend_Clone w in (inl r, w)) in
  match err with
  | Some err =>
      let cause := "clone faketcp session map handle: " +:+ err in
      if negb owned then sfail cause
      else closeClonedSessionMapAfterConstructionFailure cause
  | None =>
      reject negb owned with "clone faketcp session map handle: backend returned nil without error" in
      fun w => match backend_Identity w with
      | (inr err, w) => closeClonedSessionMapAfterConstructionFailure
          ("inspect cloned faketcp session map identity: " +:+ err) w
      | (inl actual, w) =>
          match go_error (validateSessionMapIdentity actual) with
          | Some err => closeClonedSessionMapAfterConstructionFailure
              ("invalid cloned faketcp session map identity: " +:+ err) w
          | None =>
              if negb (bool_decide (actual = expected))
              then closeClonedSessionMapAfterConstructionFailure
                     "faketcp session map identity changed during construction" w
              else sret (mkStore true compareDelete generation expected false) w
          end
      end
  end.

Definition newLinuxSessionStore (backendNil : bool) (generation : Z)
    (expected : SessionMapIdentity) : SM LinuxSessionStore :=
  newLinuxSessionStoreWithAtomicCompareDelete backendNil generation expected None.

Definition requireOpenLocked (store : LinuxSessionStore) : SM unit :=
  reject ls_closed store with "faketcp session store is closed" in
  reject negb (ls_backend store) with "faketcp session store has no owned map backend" in
  sret tt.

Definition validateMapBindingLocked (store : LinuxSessionStore) : SM unit :=
  try! actual := backend_Identity in
  reject negb (bool_decide (actual = ls_identity store))
    with "faketcp session map identity changed" in
  scheck (validateSessionMapIdentity actual).

Definition lookupEstablishedLocked (store : LinuxSessionStore) (key : FakeTCPSessionKey)
    : SM (option FakeTCPSessionValue) :=
  try! r := backend_Lookup key in
  match r with
  | None => sret None
  | Some value =>
      must! scheck (validateEstablishedSessionValue value (ls_generation store)) in
      sret (Some value)
  end.

Definition InsertEstablished (store : option LinuxSessionStore) (key : FakeTCPSessionKey)
    (value : FakeTCPSessionValue) : SM unit :=
  match store with
  | None => sfail "faketcp session store is nil"
  | Some store =>
      must! requireOpenLocked store in
      must! scheck (validateBoundSessionKey key (ls_generation store)) in
      must! scheck (validateEstablishedSessionValue value (ls_generation store)) in
      must! validateMapBindingLocked store in
      backend_InsertNoExist key value
  end.

Definition LookupEstablished (store : option LinuxSessionStore) (key : FakeTCPSessionKey)
    : SM (option FakeTCPSessionValue) :=
  match store with
  | None => sfail "faketcp session store is nil"
  | Some store =>
      must! requireOpenLocked store in
      must! scheck (validateBoundSessionKey key (ls_generation store)) in
      must! validateMapBindingLocked store in
      lookupEstablishedLocked store key
  end.

Definition DeleteEstablishedIfUnchanged (store : option LinuxSessionStore)
    (key : FakeTCPSessionKey) (expected : FakeTCPSessionValue) : SM Z :=
  match store with
  | None => sfail "faketcp session store is nil"
  | Some store =>
      must! requireOpenLocked store in
      must! scheck (validateBoundSessionKey key (ls_generation store)) in
      must! scheck (validateEstablishedSessionValue expected (ls_generation store)) in
      must! validateMapBindingLocked store in
      match ls_compareDelete store with
      | Some deleter => CompareDeleteEstablished deleter (ls_identity store) key expected
      | None =>
          try! actual := lookupEstablishedLocked store key in
          match actual with
          | None => sret SessionDeleteAbsent
          | Some actual =>
              reject bool_decide (actual = expected)
                with "atomic faketcp session compare-delete is unavailable" in
              sret SessionDeleteDifferent
          end
      end
  end.

(** The store after [Close], with the returned error. *)
Definition Close (store : LinuxSessionStore) (w : W) : option error * LinuxSessionStore * W :=
  if negb (ls_backend store) then
    if ls_closed store then (None, store, w)
    else (Some "close faketcp session store: owned backend is nil",
          mkStore false (ls_compareDelete store) (ls_generation store) (ls_identity store) true, w)
  else
    let store := mkStore true (ls_compareDelete store) (ls_generation store) (ls_identity store) true in
    match backend_Close w with
    | (inr err, w) => (Some ("close owned faketcp session map handle: " +:+ err), store, w)
    | (inl _, w) => (None, mkStore false None (ls_generation store) (ls_identity store) true, w)
    end.
End store.

(** ** The kernel model *)

Abbreviation session_map := (gmap FakeTCPSessionKey FakeTCPSessionValue).

(** One packet-path mutation attempt. *)
Record bpf_op := mkBpfOp {
  op_key : FakeTCPSessionKey;
  op_generation : Z;
  op_now : Z;
  op_operation : Z;
  op_argument : Z;
  op_authority : session_authority
}.

Definition bpf_apply (op : bpf_op) (m : session_map) : session_map :=
  match m !! op_key op with
  | None => m
  | Some v =>
      match faketcp_session_mutate v (op_generation op) (op_now op) (op_operation op)
              (op_argument op) (op_authority op) with
      | None => m
      | Some v' => <[op_key op := v']> m
      end
  end.

Definition bpf_apply_all (ops : list bpf_op) (m : session_map) : session_map :=
  foldl (fun m op => bpf_apply op m) m ops.

(** How a kernel call may fail. *)
Inductive fault := NoFault | FaultBefore | FaultAfter.

(** The kernel: the map, the identities it reports, and a script with, for
    every coming call, the packet-path work done before it and its fault. *)
Record kernel := mkKernel {
  k_sessions : session_map;
  k_identity : SessionMapIdentity;
  k_binding : Z * list Z;
  k_script : list (list bpf_op * fault)
}.

(** One call with effect [f] on the map. *)
Definition syscall {A} (f : session_map -> (A + error) * session_map) : SM kernel A :=
  fun k =>
    let '(ops, flt, script) := match k_script k with
                               | [] => ([], NoFault, [])
                               | (ops, flt) :: script => (ops, flt, script)
                               end in
    let m := bpf_apply_all ops (k_sessions k) in
    let '(r, m) := match flt with
                   | NoFault => f m
                   | FaultBefore => (inr "EINTR", m)
                   | FaultAfter => (inr "EINTR", (f m).2)
                   end in
    (r, mkKernel m (k_identity k) (k_binding k) script).

#[export] Instance kernel_calls : SessionKernel kernel := {
  backend_Clone k := ((true, None), k);
  backend_Close := syscall (fun m => (inl tt, m));
  backend_Identity := fun k => syscall (fun m => (inl (k_identity k), m)) k;
  backend_InsertNoExist key v := syscall (fun m =>
    match m !! key with
    | Some _ => (inr "EEXIST", m)
    | None => (inl tt, <[key := v]> m)
    end);
  backend_Lookup key := syscall (fun m => (inl (m !! key), m));
  claim_SessionMapIdentity := fun k => syscall (fun m => (inl (k_identity k), m)) k;
  claim_ProgramBinding := fun k => syscall (fun m => (inl (k_binding k), m)) k;
  claim_Run request := syscall (fun m =>
    let '(status, m) := wg_faketcp_session_claim request m in (inl status, m));
  claim_DeleteSession key := syscall (fun m =>
    match m !! key with
    | None => (inr "ENOENT", m)
    | Some _ => (inl tt, delete key m)
    end)
}.

(** ** What compare-and-delete promises *)

(** The packet path between two observations. *)
Definition bpf_steps (m m' : session_map) : Prop := exists ops, m' = bpf_apply_all ops m.

(** The abstract compare-and-delete of [expected]: what each result says about
    the map before and after, with the packet path running freely around one
    atomic claim. *)
Inductive compare_delete_spec (key : FakeTCPSessionKey) (expected : FakeTCPSessionValue)
    (m : session_map) : Z + error -> session_map -> Prop :=
| cd_removed m1 m2 m3 : bpf_steps m m1 ->
    (m1 !! key = Some expected \/ m1 !! key = Some (claimed expected)) ->
    bpf_steps (<[key := claimed expected]> m1) m2 -> m3 = delete key m2 ->
    compare_delete_spec key expected m (inl SessionDeleteRemoved) m3
| cd_absent m1 : bpf_steps m m1 -> m1 !! key = None ->
    compare_delete_spec key expected m (inl SessionDeleteAbsent) m1
| cd_different m1 v : bpf_steps m m1 -> m1 !! key = Some v -> v <> expected ->
    v <> claimed expected -> compare_delete_spec key expected m (inl SessionDeleteDifferent) m1
| cd_failed err m1 : bpf_steps m m1 -> compare_delete_spec key expected m (inr err) m1
| cd_claimed err m1 m2 : bpf_steps m m1 ->
    (m1 !! key = Some expected \/ m1 !! key = Some (claimed expected)) ->
    bpf_steps (<[key := claimed expected]> m1) m2 ->
    compare_delete_spec key expected m (inr err) m2
| cd_reclaimed err m1 m2 : bpf_steps m m1 ->
    (m1 !! key = Some expected \/ m1 !! key = Some (claimed expected)) ->
    bpf_steps (<[key := claimed expected]> m1) m2 ->
    compare_delete_spec key expected m (inr err) (delete key m2).

(** ** The packet path *)

(** Entries as the kernel keeps them: the lock word reads as zero between
    operations, and revisions are 64-bit. *)
Definition map_ok (m : session_map) : Prop :=
  forall k v, m !! k = Some v -> SV_KernelLock v = 0 /\ fits 8 (SV_Revision v).

Lemma mutate_ok v g now op arg a v' : SV_KernelLock v = 0 -> fits 8 (SV_Revision v) ->
  faketcp_session_mutate v g now op arg a = Some v' ->
  SV_KernelLock v' = 0 /\ fits 8 (SV_Revision v').
Proof.
  intros Hl Hf. unfold faketcp_session_mutate. destruct (_ || _); [done|].
  destruct (_ && negb _) eqn:E; [|done]. intros [= <-]. simpl. split; [done|].
  unfold fits, u64. apply Z.mod_pos_bound. lia.
Qed.

(** [evolves v v']: [v'] is [v] after packet-path work. *)
Definition evolves (v v' : FakeTCPSessionValue) : Prop :=
  v' = v \/ SV_State v = FakeTCPStateEstablished /\ SV_State v' = FakeTCPStateEstablished /\
            SV_Revision v < SV_Revision v' /\ SV_SessionID v' = SV_SessionID v /\
            SV_RuntimeIncarnation v' = SV_RuntimeIncarnation v.

Lemma evolves_trans a b c : evolves a b -> evolves b c -> evolves a c.
Proof.
  intros [->|(? & ? & ? & ? & ?)] [->|(? & ? & ? & ? & ?)]; [by left|by right|by right|].
  right. repeat split; try done; [lia|congruence|congruence].
Qed.

Lemma bpf_apply_spec op m key : map_ok m -> map_ok (bpf_apply op m) /\
  match m !! key, bpf_apply op m !! key with
  | None, None => True
  | Some v, Some v' => evolves v v'
  | _, _ => False
  end.
Proof.
  intros Hm. unfold bpf_apply. destruct (m !! op_key op) as [v|] eqn:Ev.
  2: { split; [done|]. destruct (m !! key); [by left|done]. }
  destruct (faketcp_session_mutate _ _ _ _ _ _) as [v'|] eqn:Em.
  2: { split; [done|]. destruct (m !! key); [by left|done]. }
  destruct (Hm _ _ Ev) as [Hl Hf].
  destruct (mutate_revision _ _ _ _ _ _ _ Hf Em) as (Hr & Hs & Hs' & Hid & Hi). split.
  - intros k x [[<- <-]|[_ ?]]%lookup_insert_Some; [|by eapply Hm]. by eapply mutate_ok.
  - destruct (decide (op_key op = key)) as [<-|Hne].
    + rewrite lookup_insert_eq, Ev. right. repeat split; try done. lia.
    + rewrite lookup_insert_ne by done. destruct (m !! key); [by left|done].
Qed.

Lemma bpf_steps_spec m m' key : bpf_steps m m' -> map_ok m -> map_ok m' /\
  match m !! key, m' !! key with
  | None, None => True
  | Some v, Some v' => evolves v v'
  | _, _ => False
  end.
Proof.
  intros [ops ->]. revert m. induction ops as [|op ops IH]; intros m Hm; simpl.
  - split; [done|]. destruct (m !! key); [by left|done].
  - destruct (bpf_apply_spec op m key Hm) as [Hm1 H1]. destruct (IH _ Hm1) as [Hm2 H2].
    split; [done|]. destruct (m !! key), (bpf_apply op m !! key),
      (bpf_apply_all ops (bpf_apply op m) !! key); try done. by eapply evolves_trans.
Qed.

Lemma bpf_steps_refl m : bpf_steps m m.
Proof. by exists []. Qed.
Lemma bpf_steps_trans a b c : bpf_steps a b -> bpf_steps b c -> bpf_steps a c.
Proof. intros [o1 ->] [o2 ->]. exists (o1 ++ o2). unfold bpf_apply_all. by rewrite foldl_app. Qed.

(** A tombstone is inert. *)
Lemma tombstone_stays m m' key v : bpf_steps m m' -> map_ok m ->
  m !! key = Some (claimed v) -> m' !! key = Some (claimed v).
Proof.
  intros Hs Hm Hk. destruct (bpf_steps_spec m m' key Hs Hm) as [_ H]. rewrite Hk in H.
  destruct (m' !! key) as [v'|]; [|done]. destruct H as [->|[E _]]; done.
Qed.

(** ** Symbolic execution of store code *)

(** The specification of one call: from the map [m] it observes after the
    packet path ran. *)
Definition call_post {A} (f : session_map -> (A + error) * session_map) (k : kernel)
    (r : A + error) (k' : kernel) : Prop :=
  exists m, bpf_steps (k_sessions k) m /\ k_identity k' = k_identity k /\
    k_binding k' = k_binding k /\
    ((r, k_sessions k') = f m \/ (exists e, r = inr e) /\
     (k_sessions k' = m \/ k_sessions k' = (f m).2)).

Lemma syscall_post {A} (f : session_map -> (A + error) * session_map) k r k' :
  syscall f k = (r, k') -> call_post f k r k'.
Proof.
  unfold syscall. destruct (k_script k) as [|[ops flt] script].
  - destruct (f (bpf_apply_all [] (k_sessions k))) as [r0 m0] eqn:Ef. intros [= <- <-].
    exists (k_sessions k). simpl. repeat split; try done; [apply bpf_steps_refl|]. left. done.
  - destruct flt.
    + destruct (f (bpf_apply_all ops (k_sessions k))) as [r0 m0] eqn:Ef. intros [= <- <-].
      exists (bpf_apply_all ops (k_sessions k)). simpl. repeat split; try done; [by exists ops|].
      left. done.
    + intros [= <- <-]. exists (bpf_apply_all ops (k_sessions k)). simpl.
      repeat split; try done; [by exists ops|]. right. split; [by eexists|by left].
    + intros [= <- <-]. exists (bpf_apply_all ops (k_sessions k)). simpl.
      repeat split; try done; [by exists ops|]. right. split; [by eexists|by right].
Qed.

(** Code that only reads: the map only changes by packet-path work. *)
Definition reads {A} (c : SM kernel A) : Prop := forall k r k', c k = (r, k') ->
  bpf_steps (k_sessions k) (k_sessions k').

Lemma reads_bind {A B} (c : SM kernel A) (f : A -> SM kernel B) :
  reads c -> (forall a, reads (f a)) -> reads (sbind c f).
Proof.
  intros Hc Hf k r k'. unfold sbind. destruct (c k) as [[a|e] k1] eqn:Ec; intros E.
  - eapply bpf_steps_trans; [by eapply Hc|by eapply Hf].
  - injection E as <- <-. by eapply Hc.
Qed.
Lemma reads_pure {A} (r : A + error) : reads (fun k => (r, k)).
Proof. intros k r' k' [= <- <-]. apply bpf_steps_refl. Qed.
Lemma reads_syscall {A} (f : kernel -> A) : reads (fun k => syscall (fun m => (inl (f k), m)) k).
Proof.
  intros k r k' E. apply syscall_post in E as (m & Hs & _ & _ & [[= -> ->]|[_ [->| ->]]]); done.
Qed.
Lemma reads_binding d : reads (validateBinding d).
Proof.
  unfold validateBinding.
  apply reads_bind; [apply (reads_syscall k_identity)|intros actual].
  destruct (negb _); [apply reads_pure|].
  apply reads_bind; [apply (reads_syscall k_binding)|intros [ty ids]].
  destruct (negb _); [apply reads_pure|]. destruct (negb _); apply reads_pure.
Qed.
Lemma reads_map_binding store : reads (validateMapBindingLocked store).
Proof.
  unfold validateMapBindingLocked.
  apply reads_bind; [apply (reads_syscall k_identity)|intros actual].
  destruct (negb _); apply reads_pure.
Qed.

(** ** Compare-and-delete *)

(** The claim program on a marshalled, locally validated request. *)
Lemma claim_run_spec key expected m : key_typed key -> value_typed expected -> map_ok m ->
  faketcp_claim_request_valid key expected = true ->
  wg_faketcp_session_claim (encode_session_key key ++ encode_session_value expected) m =
  match m !! key with
  | None => (CLAIM_ABSENT, m)
  | Some v => if bool_decide (v = expected) then (CLAIMED, <[key := claimed expected]> m)
              else if bool_decide (v = claimed expected) then (CLAIMED, m)
              else (CLAIM_DIFFERENT, m)
  end.
Proof.
  intros Hk Hv Hm Hval. unfold wg_faketcp_session_claim.
  rewrite (claim_length key expected Hk Hv), (load_marshal key expected Hk Hv), Hval. simpl.
  destruct (m !! key) as [v|] eqn:Ev; [|done].
  assert (SV_KernelLock expected = 0 /\ SV_State expected = FakeTCPStateEstablished) as [Hl Hs]
    by (unfold faketcp_claim_request_valid in Hval; bool_prop; done).
  assert (SV_KernelLock v = SV_KernelLock expected) as Hlv by (rewrite Hl; by eapply Hm).
  pose proof (matches_expected_iff v expected Hlv Hs) as Hiff.
  destruct (faketcp_session_matches_expected_locked v expected true) eqn:Em.
  - destruct (proj1 Hiff eq_refl) as [->| ->].
    + by rewrite Hs, bool_decide_true.
    + rewrite bool_decide_false by (intros E; apply (f_equal SV_State) in E; by rewrite Hs in E).
      by rewrite bool_decide_true.
  - rewrite !bool_decide_false; [done|..]; intros E; enough (false = true) by done;
      apply Hiff; auto.
Qed.

(** The store's own checks imply the claim program's. *)
Lemma local_checks_suffice key expected generation : 
  validateBoundSessionKey key (SV_Generation expected) = Ret tt ->
  validateEstablishedSessionValue expected generation = Ret tt -> generation <> 0 ->
  faketcp_claim_request_valid key expected = true.
Proof.
  unfold validateBoundSessionKey, validateEstablishedSessionValue. intros Hk Hv Hg. go_inv. bool_prop.
  unfold faketcp_claim_request_valid, faketcp_session_key_valid, faketcp_nonzero_incarnation.
  assert (SK_Generation key = generation /\ SV_Generation expected = generation) as [Eg Ev]
    by (split; congruence).
  rewrite Eg, Ev, !bool_decide_true, bool_decide_false by done.
  repeat match goal with H : ?x = _ |- context [?x =? _] => rewrite H end.
  repeat match goal with H : ?x <> 0 |- context [?x =? 0] => rewrite (proj2 (Z.eqb_neq _ _) H) end.
  by rewrite !Z.eqb_refl.
Qed.

Lemma go_error_ret m : go_result (A := unit) m = inl tt -> m = Ret tt.
Proof. destruct m as [[]| |]; done. Qed.

Lemma map_ok_claimed key expected m : map_ok m ->
  m !! key = Some expected \/ m !! key = Some (claimed expected) ->
  map_ok (<[key := claimed expected]> m).
Proof.
  intros Hm Hk k v [[<- <-]|[_ ?]]%lookup_insert_Some; [|by eapply Hm].
  destruct Hk as [Hk|Hk]; apply Hm in Hk; done.
Qed.

Lemma compare_delete_refines d key expected k r k' :
  key_typed key -> value_typed expected -> map_ok (k_sessions k) -> SK_Generation key <> 0 ->
  CompareDeleteEstablished (Some d) (d_identity d) key expected k = (r, k') ->
  compare_delete_spec key expected (k_sessions k) r (k_sessions k').
Proof.
  intros Hk Hv Hm Hg. unfold CompareDeleteEstablished. rewrite bool_decide_true by done. cbn [negb].
  unfold sbind at 1. unfold scheck at 1.
  destruct (go_result (validateBoundSessionKey _ _)) as [[]|e] eqn:E1.
  2: { intros [= <- <-]. apply cd_failed, bpf_steps_refl. }
  unfold sbind at 1. unfold scheck at 1.
  destruct (go_result (validateEstablishedSessionValue _ _)) as [[]|e] eqn:E2.
  2: { intros [= <- <-]. apply cd_failed, bpf_steps_refl. }
  apply go_error_ret in E1, E2.
  pose proof (local_checks_suffice key expected _ E1 E2 Hg) as Hval.
  unfold sbind at 1. destruct (validateBinding d k) as [[[]|e] k1] eqn:E3; apply reads_binding in E3.
  2: { intros [= <- <-]. by apply cd_failed. }
  unfold sbind at 1. unfold marshalFakeTCPSessionClaim at 1.
  rewrite (claim_length key expected Hk Hv).
  change (112 =? fakeTCPSessionClaimRequestSize) with true. cbn [negb go_result]. cbv beta iota zeta.
  unfold sbind at 1.
  destruct (claim_Run (encode_session_key key ++ encode_session_value expected) k1) as [res k2] eqn:E4. apply syscall_post in E4 as (m & Hs & _ & _ & Hrun).
  assert (bpf_steps (k_sessions k) m) as Hsm by (by eapply bpf_steps_trans).
  destruct (bpf_steps_spec _ _ key Hsm Hm) as [Hmm _].
  rewrite (claim_run_spec key expected m Hk Hv Hmm Hval) in Hrun.
  assert (forall k3 (r3 : unit + error), bpf_steps (k_sessions k2) (k_sessions k3) ->
    k_sessions k2 = <[key := claimed expected]> m ->
    m !! key = Some expected \/ m !! key = Some (claimed expected) ->
    claim_DeleteSession key k3 = (r3, k') ->
    (r3 = inl tt /\ compare_delete_spec key expected (k_sessions k) (inl SessionDeleteRemoved) (k_sessions k')) \/
    exists e, r3 = inr e /\ compare_delete_spec key expected (k_sessions k) (inr e) (k_sessions k')) as Hdel.
  { intros k3 r3 H23 E2' Hkm Ed. apply syscall_post in Ed as (m3 & Hs3 & _ & _ & Hd).
    assert (bpf_steps (<[key := claimed expected]> m) m3) as H3
      by (rewrite <- E2'; by eapply bpf_steps_trans).
    assert (m3 !! key = Some (claimed expected)) as Ht.
    { eapply tombstone_stays; [exact H3| |apply lookup_insert_eq]. by apply map_ok_claimed. }
    rewrite Ht in Hd. destruct Hd as [[= -> ->]|[[e ->] [->| ->]]].
    - left. split; [done|]. by eapply cd_removed.
    - right. exists e. split; [done|]. by eapply cd_claimed.
    - right. exists e. split; [done|]. by eapply cd_reclaimed. }
  assert (m !! key = Some expected \/ m !! key = Some (claimed expected) ->
    k_sessions k2 = <[key := claimed expected]> m ->
    (must! validateBinding d in must! claim_DeleteSession key in sret SessionDeleteRemoved) k2 =
      (r, k') -> compare_delete_spec key expected (k_sessions k) r (k_sessions k')) as Hclaimed.
  { intros Hkm Ek2. unfold sbind.
    destruct (validateBinding d k2) as [[[]|e] k3] eqn:E5; apply reads_binding in E5.
    2: { intros [= <- <-]. rewrite Ek2 in E5. by eapply cd_claimed. }
    destruct (claim_DeleteSession key k3) as [r3 k4] eqn:E6. intros E7.
    assert (k4 = k') as -> by (destruct r3 as [[]|]; by injection E7).
    destruct (Hdel k3 r3 E5 Ek2 Hkm E6) as [[-> Hspec]|(e & -> & Hspec)]; by injection E7 as <-. }
  clear Hdel. destruct (m !! key) as [v|] eqn:Ev.
  - case_bool_decide as Ex.
    + subst v. destruct Hrun as [[= -> Ek]|[[e ->] Hks]].
      * intros E. apply Hclaimed; auto.
      * intros [= <- <-]. destruct Hks as [->| ->]; [by apply cd_failed|].
        eapply cd_claimed; eauto using bpf_steps_refl.
    + case_bool_decide as Et.
      * subst v. assert (<[key := claimed expected]> m = m) as Eins by (by apply insert_id).
        destruct Hrun as [[= -> Ek]|[[e ->] Hks]].
        -- intros E. apply Hclaimed; [auto|congruence|done].
        -- intros [= <- <-]. destruct Hks as [->| ->]; by apply cd_failed.
      * destruct Hrun as [[= -> Ek]|[[e ->] Hks]].
        -- intros [= <- <-]. rewrite Ek. by eapply cd_different.
        -- intros [= <- <-]. destruct Hks as [->| ->]; by apply cd_failed.
  - destruct Hrun as [[= -> Ek]|[[e ->] Hks]].
    + intros [= <- <-]. rewrite Ek. by apply cd_absent.
    + intros [= <- <-]. destruct Hks as [->| ->]; by apply cd_failed.
Qed.

Lemma spec_after_reads key expected m m1 r m' : bpf_steps m m1 ->
  compare_delete_spec key expected m1 r m' -> compare_delete_spec key expected m r m'.
Proof.
  intros Hs [a b c ?|a ?|a v ?|e a ?|e a b ?|e a b ?];
    (assert (bpf_steps m a) by (by eapply bpf_steps_trans)).
  - by apply (cd_removed _ _ _ a b c).
  - by apply cd_absent.
  - by apply (cd_different _ _ _ a v).
  - by apply cd_failed.
  - by apply (cd_claimed _ _ _ _ a b).
  - by apply (cd_reclaimed _ _ _ _ a b).
Qed.

(** A store whose compare-deleter is bound to the store's map. *)
Definition store_bound (store : LinuxSessionStore) (d : LinuxAtomicSessionCompareDeleter) : Prop :=
  ls_compareDelete store = Some (Some d) /\ d_identity d = ls_identity store.

Lemma delete_refines store d key expected k r k' :
  store_bound store d -> key_typed key -> value_typed expected -> map_ok (k_sessions k) ->
  ls_generation store <> 0 ->
  DeleteEstablishedIfUnchanged (Some store) key expected k = (r, k') ->
  compare_delete_spec key expected (k_sessions k) r (k_sessions k').
Proof.
  intros [Hd Hid] Hk Hv Hm Hg. unfold DeleteEstablishedIfUnchanged, requireOpenLocked, sbind,
    sfail, sret, scheck.
  destruct (ls_closed store); [intros [= <- <-]; apply cd_failed, bpf_steps_refl|].
  destruct (ls_backend store); cbn [negb]; [|intros [= <- <-]; apply cd_failed, bpf_steps_refl].
  destruct (go_result (validateBoundSessionKey _ _)) as [[]|e] eqn:E1.
  2: { intros [= <- <-]. apply cd_failed, bpf_steps_refl. }
  destruct (go_result (validateEstablishedSessionValue _ _)) as [[]|e] eqn:E2.
  2: { intros [= <- <-]. apply cd_failed, bpf_steps_refl. }
  apply go_error_ret in E1.
  destruct (validateMapBindingLocked store k) as [[[]|e] k1] eqn:E3; apply reads_map_binding in E3.
  2: { intros [= <- <-]. by apply cd_failed. }
  rewrite Hd, <- Hid. intros E. eapply spec_after_reads; [exact E3|].
  eapply compare_delete_refines; try done.
  - destruct (bpf_steps_spec _ _ key E3 Hm). done.
  - unfold validateBoundSessionKey in E1. go_inv. bool_prop. congruence.
Qed.

(** C20: compare-and-delete is linearizable.  Whatever the packet programs do
    around the store's kernel calls and whichever calls fail before or after
    taking effect, [DeleteEstablishedIfUnchanged] behaves as one atomic claim of
    the complete expected value: [Removed] means the map held exactly that value
    (or its tombstone) at the claim and no longer holds the key; [Absent] and
    [Different] change nothing; an error leaves the map untouched, or holding
    the tombstone of exactly the expected value, or reclaimed. *)
Theorem compare_delete_linearizable store d key expected k r k' :
  store_bound store d -> key_typed key -> value_typed expected -> map_ok (k_sessions k) ->
  ls_generation store <> 0 ->
  DeleteEstablishedIfUnchanged (Some store) key expected k = (r, k') ->
  compare_delete_spec key expected (k_sessions k) r (k_sessions k').
Proof. apply delete_refines. Qed.

Definition sample_map_identity : SessionMapIdentity :=
  mkMapIdentity 42 fakeTCPSessionKernelMapName 1 32 80 16384 0.
Definition sample_store : LinuxSessionStore :=
  mkStore true (Some (Some (mkDeleter sample_map_identity))) 1 sample_map_identity false.

(** The peer's packets arrive between the snapshot and the claim. *)
Definition sample_touch : bpf_op :=
  mkBpfOp sample_flow 1 77 MUTATE_TOUCH 0
    (mkAuthority 3 (replicate 16 7) 4 8 64 FakeTCPStateEstablished 0).
Definition sample_kernel (script : list (list bpf_op * fault)) : kernel :=
  mkKernel {[sample_flow := sample_session]} sample_map_identity (ProgramType_SchedCLS, [42]) script.

Lemma sample_kernel_ok script : map_ok (k_sessions (sample_kernel script)).
Proof. intros k v Hk. simpl in Hk. apply lookup_singleton_Some in Hk as [<- <-]. by vm_compute. Qed.

Lemma compare_delete_linearizable_witness :
  (DeleteEstablishedIfUnchanged (Some sample_store) sample_flow sample_session (sample_kernel [])).1
    = inl SessionDeleteRemoved /\
  (DeleteEstablishedIfUnchanged (Some sample_store) sample_flow sample_session
     (sample_kernel [([], NoFault); ([], NoFault); ([sample_touch], NoFault)])).1
    = inl SessionDeleteDifferent /\
  compare_delete_spec sample_flow sample_session {[sample_flow := sample_session]}
    (DeleteEstablishedIfUnchanged (Some sample_store) sample_flow sample_session
       (sample_kernel [])).1
    (k_sessions (DeleteEstablishedIfUnchanged (Some sample_store) sample_flow sample_session
       (sample_kernel [])).2).
Proof.
  split; [vm_compute; reflexivity|]. split; [vm_compute; reflexivity|].
  apply (compare_delete_linearizable sample_store (mkDeleter sample_map_identity) sample_flow
    sample_session (sample_kernel [])).
  - split; reflexivity.
  - apply sample_key_typed.
  - apply sample_session_typed.
  - apply sample_kernel_ok.
  - discriminate.
  - apply surjective_pairing.
Defined.

(** No lost activity.  If the packet path has mutated the entry since the
    caller's snapshot (its revision moved past the snapshot's), then
    [DeleteEstablishedIfUnchanged] never reports the entry removed or absent,
    and the entry is still there, established, with a revision no older and the
    same session ID. *)
Theorem compare_delete_preserves_active store d key expected v k r k' :
  store_bound store d -> key_typed key -> value_typed expected -> map_ok (k_sessions k) ->
  ls_generation store <> 0 -> k_sessions k !! key = Some v ->
  SV_State v = FakeTCPStateEstablished -> SV_Revision expected < SV_Revision v ->
  DeleteEstablishedIfUnchanged (Some store) key expected k = (r, k') ->
  r <> inl SessionDeleteRemoved /\ r <> inl SessionDeleteAbsent /\
  exists v', k_sessions k' !! key = Some v' /\ SV_State v' = FakeTCPStateEstablished /\
    SV_Revision v <= SV_Revision v' /\ SV_SessionID v' = SV_SessionID v.
Proof.
  intros Hb Hk Hv Hm Hg Ek Hst Hrev E.
  pose proof (delete_refines store d key expected k r k' Hb Hk Hv Hm Hg E) as Hspec.
  assert (forall m1, bpf_steps (k_sessions k) m1 -> exists v', m1 !! key = Some v' /\
    SV_State v' = FakeTCPStateEstablished /\ SV_Revision v <= SV_Revision v' /\
    SV_SessionID v' = SV_SessionID v) as Hev.
  { intros m1 Hs. destruct (bpf_steps_spec _ _ key Hs Hm) as [_ H]. rewrite Ek in H.
    destruct (m1 !! key) as [v'|]; [|done]. exists v'. split; [done|].
    destruct H as [->|(_ & ? & ? & ? & _)]; [by repeat split; try lia|]. repeat split; try done. lia. }
  assert (forall m1, bpf_steps (k_sessions k) m1 ->
    m1 !! key = Some expected \/ m1 !! key = Some (claimed expected) -> False) as Hno.
  { intros m1 Hs Hx. destruct (Hev m1 Hs) as (v' & Hv' & ? & ? & _).
    destruct Hx as [Hx|Hx]; rewrite Hv' in Hx; injection Hx as ->; simpl in *; lia. }
  inversion Hspec as [a b c Hs Hx ? ?|a Hs Hx|a v' Hs Hx ? ?|e a Hs|e a b Hs Hx ?|e a b Hs Hx ?];
    subst; try (by destruct (Hno _ Hs Hx)).
  - destruct (Hev _ Hs) as (v' & Hv' & _). congruence.
  - repeat split; try done. by apply Hev.
  - repeat split; try done. by apply Hev.
Qed.

Lemma compare_delete_preserves_active_witness :
  let touched := bpf_apply sample_touch {[sample_flow := sample_session]} in
  let k := mkKernel touched sample_map_identity (ProgramType_SchedCLS, [42]) [] in
  (DeleteEstablishedIfUnchanged (Some sample_store) sample_flow sample_session k).1
    <> inl SessionDeleteRemoved.
Proof.
  intros touched k.
  assert (exists v, touched !! sample_flow = Some v /\ SV_State v = FakeTCPStateEstablished /\
    SV_Revision sample_session < SV_Revision v) as (v & Hv & Hst & Hrev)
    by (eexists; split; [vm_compute; reflexivity|]; split; [reflexivity|]; vm_compute; reflexivity).
  apply (compare_delete_preserves_active sample_store (mkDeleter sample_map_identity) sample_flow
    sample_session v k _ (DeleteEstablishedIfUnchanged (Some sample_store) sample_flow
    sample_session k).2).
  - split; reflexivity.
  - apply sample_key_typed.
  - apply sample_session_typed.
  - apply (bpf_apply_spec sample_touch _ sample_flow), (sample_kernel_ok []).
  - discriminate.
  - exact Hv.
  - exact Hst.
  - exact Hrev.
  - apply surjective_pairing.
Defined.

(** ** The engine and the store *)

(** A healthy store: open, bound to a valid map, with a kernel that reports it. *)
Definition store_healthy (store : LinuxSessionStore) (k : kernel) : Prop :=
  ls_closed store = false /\ ls_backend store = true /\ k_identity k = ls_identity store /\
  validateSessionMapIdentity (ls_identity store) = Ret tt /\ k_script k = [].

Lemma healthy_binding store k : store_healthy store k ->
  validateMapBindingLocked store k = (inl tt, mkKernel (k_sessions k) (k_identity k) (k_binding k) []).
Proof.
  intros (_ & _ & Hid & Hv & Hs). unfold validateMapBindingLocked, sbind. simpl.
  unfold syscall. rewrite Hs. simpl. rewrite Hid, bool_decide_true by done. cbn [negb].
  unfold scheck. by rewrite Hv.
Qed.

(** The value the engine builds satisfies the store's checks. *)
Lemma engine_value_valid e flow s nanos : engine_inv e -> validateFlow e flow = None ->
  RI_Incarnation (e_identity e) <> zeros 16 -> s_state s = FakeTCPStateEstablished ->
  0 < s_sessionID s ->
  validateBoundSessionKey flow (Generation (e_opts e)) = Ret tt /\
  validateEstablishedSessionValue (established_value e flow s nanos) (Generation (e_opts e)) = Ret tt.
Proof.
  intros He Hv Hi Hst Hid. unfold validateFlow in Hv. destruct (_ || _) eqn:E in Hv; [done|].
  bool_prop. assert (s_sessionID s <> 0) by lia.
  unfold validateBoundSessionKey, validateEstablishedSessionValue, established_value.
  cbn [SV_Generation SV_State SV_Flags SV_Reserved SV_KernelLock SV_KernelReserved SV_Revision
    SV_SessionID SV_RuntimeIncarnation].
  repeat match goal with H : ?x <> 0 |- _ => rewrite (proj2 (Z.eqb_neq _ _) H); clear H end.
  rewrite H, Hst, !Z.eqb_refl, !bool_decide_true, (bool_decide_false _ Hi) by done.
  done.
Qed.

(** Handshake completion reaches the kernel.  The value the engine builds
    for a completed handshake passes every check of a healthy store of the same
    generation; inserting it under a fresh key succeeds and changes only that
    key, and the store's lookup returns exactly that value. *)
Theorem engine_store_roundtrip e flow s nanos store k :
  engine_inv e -> validateFlow e flow = None -> RI_Incarnation (e_identity e) <> zeros 16 ->
  s_state s = FakeTCPStateEstablished -> 0 < s_sessionID s ->
  ls_generation store = Generation (e_opts e) -> store_healthy store k ->
  k_sessions k !! flow = None ->
  let v := established_value e flow s nanos in
  exists k', InsertEstablished (Some store) flow v k = (inl tt, k') /\
    k_sessions k' = <[flow := v]> (k_sessions k) /\
    (LookupEstablished (Some store) flow k').1 = inl (Some v).
Proof.
  intros He Hv Hi Hst Hid Hg Hk Hfree v.
  destruct (engine_value_valid e flow s nanos He Hv Hi Hst Hid) as [Vk Vv].
  destruct Hk as (Hc & Hb & Hident & Hval & Hscript).
  set (m := <[flow := v]> (k_sessions k)).
  set (k' := mkKernel m (k_identity k) (k_binding k) []).
  assert (store_healthy store k') as Hk' by (by repeat split).
  exists k'. split; [|split; [done|]].
  - unfold InsertEstablished, requireOpenLocked, sbind, scheck. rewrite Hc, Hb, Hg, Vk.
    fold v in Vv. rewrite Vv. cbn [negb sret go_result].
    rewrite (healthy_binding store k) by (by repeat split). simpl. unfold syscall. simpl.
    by rewrite Hfree.
  - unfold LookupEstablished, lookupEstablishedLocked, requireOpenLocked, sbind, scheck.
    rewrite Hc, Hb, Hg, Vk. cbn [negb sret go_result]. rewrite (healthy_binding store k' Hk').
    simpl. unfold syscall. simpl. unfold m. rewrite lookup_insert_eq. fold v in Vv.
    by rewrite Vv.
Qed.

Definition sample_done : session :=
  mkSession FakeTCPStateEstablished 1 100 900 101 901 0 0 0 1 [] 0 false synSourceKey_zero 1 None.

Lemma engine_store_roundtrip_witness :
  exists k', InsertEstablished (Some sample_store) sample_flow
      (established_value sample_engine sample_flow sample_done 5)
      (mkKernel ∅ sample_map_identity (3, [42]) []) = (inl tt, k').
Proof.
  destruct (engine_store_roundtrip sample_engine sample_flow sample_done 5 sample_store
    (mkKernel ∅ sample_map_identity (3, [42]) [])) as (k' & E & _).
  - apply (newEngine_inv sample_options sample_identity 1000 sample_engine tt).
    vm_compute. reflexivity.
  - vm_compute. reflexivity.
  - vm_compute. discriminate.
  - reflexivity.
  - reflexivity.
  - reflexivity.
  - vm_compute. repeat split.
  - reflexivity.
  - exists k'. exact E.
Defined.
