(* ===== verification/Config.v ===== *)
(** * Configuration (internal/config/config.go): data, defaults and static
    validation.

    Durations are nanoseconds.  YAML decoding is a third-party library: [Load]
    takes the decoder as an argument.  Go's map iteration order over [Ciphers]
    is the argument [order] of [ValidateStatic]. *)
From Stdlib Require Import ZArith Lia.
From stdpp Require Import base option list gmap strings numbers.
From S2P Require Import Prelude.

Definition Millisecond : Z := 1000000.
Definition Second : Z := 1000000000.
Definition Minute : Z := 60 * Second.
Definition Hour : Z := 60 * Minute.

Definition DefaultWGDir : string := "/etc/wireguard".
Definition MinimumPollInterval : Z := 100 * Millisecond.
Definition MaxProfilesPerGeneration : Z := 64.
Definition MaxCiphersPerGeneration : Z := 64.
Definition MaxUnderlaysPerGeneration : Z := 256.
Definition MaxManagedRulesPerGeneration : Z := 256.
Definition MaxDirectionalRulesPerGeneration : Z := 1024.
Definition MaxFakeTCPSessions : Z := 16384.
Definition MaxFakeTCPHalfOpenSessions : Z := 4096.
Definition MaxFakeTCPHalfOpenPerSource : Z := 256.
Definition MaxFakeTCPSYNBurst : Z := 4096.
Definition MaxFakeTCPSYNSourceLedger : Z := 16384.
Definition MaxFakeTCPPendingFlows : Z := 4096.
Definition MaxFakeTCPPendingPacketsPerFlow : Z := 4.
Definition MaxFakeTCPPendingBytes : Z := Z.shiftl 1 20.
Definition FakeTCPChecksumModePartialCompleteReset : string := "partial-complete-reset-required".
Definition FakeTCPIngressModeXDPGenericExact : string := "xdp-generic-exact".
Definition FakeTCPChecksumBackendAuto : string := "auto".
Definition FakeTCPChecksumBackendKfunc : string := "kfunc".
Definition FakeTCPChecksumBackendKprobe : string := "kprobe".
Definition StartupGuardModeNFTTemporaryDrop : string := "nft-temporary-drop".
Definition StartupGuardModeNone : string := "none".
Definition deprecatedFakeTCPIngressModeXDPRequired : string := "xdp-required".

(** ** Data *)

Record Underlay := mkUnderlay { ul_Name : string; ul_Type : string; ul_Parser : string }.

Record TypeWordProfile := mkTypeWords {
  tw_Initiation : Z; tw_Response : Z; tw_CookieReply : Z; tw_TransportData : Z
}.

(** [pr_IndexMode] is [Index.Mode]. *)
Record Profile := mkProfile {
  pr_Preset : string;
  pr_TypeWord : TypeWordProfile;
  pr_IndexMode : string;
  pr_AllowPassthrough : bool
}.

Record ICMPTransport := mkICMP { icmp_Role : string; icmp_ID : Z }.

Record FakeTCPTransport := mkFakeTCP {
  ft_Experimental : bool;
  ft_ChecksumMode : string;
  ft_IngressMode : string;
  ft_SessionCapacity : Z;
  ft_MaxHalfOpenSessions : Z;
  ft_MaxHalfOpenPerSource : Z;
  ft_SYNRateInterval : Z;
  ft_SYNBurst : Z;
  ft_SYNBurstPerSource : Z;
  ft_SYNSourceLedgerCapacity : Z;
  ft_SYNSourceLedgerTTL : Z;
  ft_MaxPendingFlows : Z;
  ft_MaxPendingPacketsPerFlow : Z;
  ft_MaxPendingBytes : Z;
  ft_HandshakeTimeout : Z;
  ft_KeepaliveInterval : Z;
  ft_IdleTimeout : Z
}.

Record Transport := mkTransport { tr_Mode : string; tr_ICMP : ICMPTransport; tr_FakeTCP : FakeTCPTransport }.

Record WireGuard := mkWireGuard {
  wg_Name : string;
  wg_Config : string;
  wg_Profile : string;
  wg_Cipher : string;
  wg_NetNS : string;
  wg_Transport : Transport
}.

Record Cipher := mkCipher {
  ci_Mode : string;
  ci_Auth : string;
  ci_Scope : string;
  ci_KeyDerivation : string;
  ci_Secret : string;
  ci_SecretFile : string;
  ci_Password : string;
  ci_KeyLen : Z;
  ci_MaxBytes : Z
}.

Record Runtime := mkRuntime {
  rt_PollInterval : Z;
  rt_AttachmentBackend : string;
  rt_ChecksumBackend : string;
  rt_RequireNonzeroFwmark : bool;
  rt_StrictRuntimeFwmark : bool;
  rt_AllowZeroFwmarkFallback : bool;
  rt_requireNonzeroFwmarkSet : bool;
  rt_strictRuntimeFwmarkSet : bool
}.

Record StartupGuard := mkGuard {
  sg_Mode : string;
  sg_EgressMatch : string;
  sg_IngressMatch : string;
  sg_RandomListenPortBehavior : string
}.

Record Policy := mkPolicyCfg {
  po_NonManagedUDP : string;
  po_ManagedEgressMapMiss : string;
  po_ManagedEgressBadType : string;
  po_ManagedEgressBadLength : string;
  po_EgressManagedIPv6ExtHeader : string;
  po_ManagedIngressMapMiss : string;
  po_ManagedIngressBadType : string;
  po_ManagedIngressBadLength : string;
  po_IngressManagedIPv6ExtHeader : string;
  po_IPv4FirstFragment : string;
  po_NonFirstIngress : string;
  po_NonFirstEgressIfManagedFwmark : string;
  po_OptionalDropAllOnUnderlay : bool;
  po_IPv6Fragment : string;
  po_StartupFailMode : string
}.

Record Config := mkConfig {
  c_Version : Z;
  c_Mode : string;
  c_Underlays : list Underlay;
  c_WireGuards : list WireGuard;
  c_Profiles : gmap string Profile;
  c_Ciphers : gmap string Cipher;
  c_FwmarkPolicyMode : string;
  c_Runtime : Runtime;
  c_StartupGuard : StartupGuard;
  c_UnderlayOverlapPolicy : string;
  c_Policy : Policy
}.

(** ** Defaults *)

Definition str_empty (s : string) : bool := bool_decide (s = "").
Definition defaultString (s value : string) : string := if str_empty s then value else s.
Definition default_num (n value : Z) : Z := if n =? 0 then value else n.

Definition applyDefaults (p : Policy) : Policy :=
  mkPolicyCfg (defaultString (po_NonManagedUDP p) "pass")
    (defaultString (po_ManagedEgressMapMiss p) "drop")
    (defaultString (po_ManagedEgressBadType p) "drop")
    (defaultString (po_ManagedEgressBadLength p) "drop")
    (defaultString (po_EgressManagedIPv6ExtHeader p) "drop")
    (defaultString (po_ManagedIngressMapMiss p) "pass")
    (defaultString (po_ManagedIngressBadType p) "drop")
    (defaultString (po_ManagedIngressBadLength p) "drop")
    (defaultString (po_IngressManagedIPv6ExtHeader p) "drop")
    (defaultString (po_IPv4FirstFragment p) "drop")
    (defaultString (po_NonFirstIngress p) "pass")
    (defaultString (po_NonFirstEgressIfManagedFwmark p) "drop")
    (po_OptionalDropAllOnUnderlay p)
    (defaultString (po_IPv6Fragment p) "drop")
    (defaultString (po_StartupFailMode p) "fail_closed_for_managed_flows").

(** The empty and the deprecated ingress mode both become the current one. *)
Definition default_ingress_mode (s : string) : string :=
  let mode := defaultString s FakeTCPIngressModeXDPGenericExact in
  if String.eqb mode deprecatedFakeTCPIngressModeXDPRequired
  then FakeTCPIngressModeXDPGenericExact else mode.

(** The FakeTCP block of [ApplyDefaults]; later fields read the defaulted
    earlier ones. *)
Definition default_faketcp (f : FakeTCPTransport) : FakeTCPTransport :=
  let checksumMode := defaultString (ft_ChecksumMode f) FakeTCPChecksumModePartialCompleteReset in
  let ingressMode := default_ingress_mode (ft_IngressMode f) in
  let sessions := default_num (ft_SessionCapacity f) 4096 in
  let halfOpen := default_num (ft_MaxHalfOpenSessions f) (Z.max 1 (sessions / 4)) in
  let perSource := default_num (ft_MaxHalfOpenPerSource f) (Z.min 16 halfOpen) in
  let interval := default_num (ft_SYNRateInterval f) (100 * Millisecond) in
  let burst := default_num (ft_SYNBurst f) (Z.min 256 halfOpen) in
  let burstPerSource := default_num (ft_SYNBurstPerSource f) (Z.min 8 burst) in
  let ledger := default_num (ft_SYNSourceLedgerCapacity f) (Z.max halfOpen 4096) in
  let ttl := default_num (ft_SYNSourceLedgerTTL f) (5 * Minute) in
  let flows := default_num (ft_MaxPendingFlows f) (Z.min 1024 halfOpen) in
  let packets := default_num (ft_MaxPendingPacketsPerFlow f) 1 in
  let bytes := default_num (ft_MaxPendingBytes f) (Z.shiftl 256 10) in
  let handshake := default_num (ft_HandshakeTimeout f) (5 * Second) in
  let keepalive := default_num (ft_KeepaliveInterval f) (20 * Second) in
  let idle := default_num (ft_IdleTimeout f) (2 * Minute) in
  mkFakeTCP (ft_Experimental f) checksumMode ingressMode sessions halfOpen perSource interval burst
    burstPerSource ledger ttl flows packets bytes handshake keepalive idle.

Definition default_wireguard (wg : WireGuard) : WireGuard :=
  let config := if str_empty (wg_Config wg) && negb (str_empty (wg_Name wg))
                then DefaultWGDir +:+ "/" +:+ wg_Name wg +:+ ".conf" else wg_Config wg in
  let netns := defaultString (wg_NetNS wg) "root" in
  let t := wg_Transport wg in
  let mode := defaultString (tr_Mode t) "udp" in
  let fake := if String.eqb mode "faketcp" then default_faketcp (tr_FakeTCP t)
              else tr_FakeTCP t in
  mkWireGuard (wg_Name wg) config (wg_Profile wg) (wg_Cipher wg) netns
    (mkTransport mode (tr_ICMP t) fake).

Definition default_cipher (c : Cipher) : Cipher :=
  let derivation := defaultString (ci_KeyDerivation c) "wgmx-hkdf256-v1" in
  mkCipher (defaultString (ci_Mode c) "xor") (defaultString (ci_Auth c) "none")
    (defaultString (ci_Scope c) "wg-payload-prefix") derivation (ci_Secret c) (ci_SecretFile c)
    (ci_Password c)
    (default_num (ci_KeyLen c) (if String.eqb derivation "udp2raw-md5-key1" then 16 else 256))
    (default_num (ci_MaxBytes c) 128).

Definition default_runtime (r : Runtime) : Runtime :=
  mkRuntime (default_num (rt_PollInterval r) (5 * Second))
    (defaultString (rt_AttachmentBackend r) "auto")
    (defaultString (rt_ChecksumBackend r) FakeTCPChecksumBackendAuto)
    (if negb (rt_AllowZeroFwmarkFallback r) && negb (rt_requireNonzeroFwmarkSet r)
     then true else rt_RequireNonzeroFwmark r)
    (if negb (rt_strictRuntimeFwmarkSet r) then true else rt_StrictRuntimeFwmark r)
    (rt_AllowZeroFwmarkFallback r) (rt_requireNonzeroFwmarkSet r) (rt_strictRuntimeFwmarkSet r).

Definition default_guard (g : StartupGuard) : StartupGuard :=
  mkGuard (defaultString (sg_Mode g) StartupGuardModeNFTTemporaryDrop)
    (defaultString (sg_EgressMatch g) "fwmark")
    (defaultString (sg_IngressMatch g) "config-listen-port-if-present")
    (defaultString (sg_RandomListenPortBehavior g) "best-effort").

Definition ApplyDefaults (c : Config) : Config :=
  mkConfig (default_num (c_Version c) 1) (defaultString (c_Mode c) "transparent-typeword")
    (c_Underlays c) (map default_wireguard (c_WireGuards c)) (c_Profiles c)
    (default_cipher <$> c_Ciphers c)
    (defaultString (c_FwmarkPolicyMode c) "config-required") (default_runtime (c_Runtime c))
    (default_guard (c_StartupGuard c)) (defaultString (c_UnderlayOverlapPolicy c) "reject")
    (applyDefaults (c_Policy c)).

(** ** Static validation *)

Definition one_of (s : string) (l : list string) : bool := existsb (String.eqb s) l.

Definition validateFakeTCPTransport (f : FakeTCPTransport) : outcome unit :=
  fail_if negb (bool_decide (ft_ChecksumMode f = FakeTCPChecksumModePartialCompleteReset))
    with "checksum_mode is unsupported" in
  fail_if negb (bool_decide (ft_IngressMode f = FakeTCPIngressModeXDPGenericExact))
    with "ingress_mode is unsupported" in
  fail_if (ft_SessionCapacity f <? 2) || (MaxFakeTCPSessions <? ft_SessionCapacity f)
    with "session_capacity must be between 2 and the maximum" in
  fail_if (ft_MaxHalfOpenSessions f =? 0) || (ft_SessionCapacity f <=? ft_MaxHalfOpenSessions f) ||
          (MaxFakeTCPHalfOpenSessions <? ft_MaxHalfOpenSessions f)
    with "max_half_open_sessions is out of range" in
  fail_if (ft_MaxHalfOpenPerSource f =? 0) ||
          (ft_MaxHalfOpenSessions f <? ft_MaxHalfOpenPerSource f) ||
          (MaxFakeTCPHalfOpenPerSource <? ft_MaxHalfOpenPerSource f)
    with "max_half_open_per_source is out of range" in
  fail_if (ft_SYNRateInterval f <? 10 * Millisecond) || (10 * Second <? ft_SYNRateInterval f)
    with "syn_rate_interval must be between 10ms and 10s" in
  fail_if (ft_SYNBurst f =? 0) || (ft_MaxHalfOpenSessions f <? ft_SYNBurst f) ||
          (MaxFakeTCPSYNBurst <? ft_SYNBurst f)
    with "syn_burst is out of range" in
  fail_if (ft_SYNBurstPerSource f =? 0) || (ft_SYNBurst f <? ft_SYNBurstPerSource f)
    with "syn_burst_per_source must be between 1 and syn_burst" in
  fail_if (ft_SYNSourceLedgerCapacity f <? ft_MaxHalfOpenSessions f) ||
          (MaxFakeTCPSYNSourceLedger <? ft_SYNSourceLedgerCapacity f)
    with "syn_source_ledger_capacity is out of range" in
  fail_if (ft_SYNSourceLedgerTTL f <? ft_SYNRateInterval f) || (Hour <? ft_SYNSourceLedgerTTL f)
    with "syn_source_ledger_ttl must be between syn_rate_interval and 1h" in
  fail_if (ft_MaxPendingFlows f =? 0) || (MaxFakeTCPPendingFlows <? ft_MaxPendingFlows f) ||
          (ft_MaxHalfOpenSessions f <? ft_MaxPendingFlows f)
    with "max_pending_flows is out of range" in
  fail_if (ft_MaxPendingPacketsPerFlow f =? 0) ||
          (MaxFakeTCPPendingPacketsPerFlow <? ft_MaxPendingPacketsPerFlow f)
    with "max_pending_packets_per_flow is out of range" in
  fail_if (ft_MaxPendingBytes f =? 0) || (MaxFakeTCPPendingBytes <? ft_MaxPendingBytes f)
    with "max_pending_bytes is out of range" in
  fail_if (ft_HandshakeTimeout f <? 100 * Millisecond) || (30 * Second <? ft_HandshakeTimeout f)
    with "handshake_timeout must be between 100ms and 30s" in
  fail_if (ft_KeepaliveInterval f <? Second) || (10 * Minute <? ft_KeepaliveInterval f)
    with "keepalive_interval must be between 1s and 10m" in
  fail_if (ft_IdleTimeout f <=? ft_KeepaliveInterval f) || (24 * Hour <? ft_IdleTimeout f)
    with "idle_timeout must be greater than keepalive_interval and at most 24h" in
  Ret tt.

Definition validateCipher (c : Cipher) : outcome unit :=
  fail_if negb (one_of (ci_Mode c) ["xor"]) with "mode is unsupported" in
  fail_if negb (one_of (ci_Auth c) [""; "none"]) with "auth is unsupported" in
  fail_if negb (one_of (ci_Scope c) ["wg-payload-full"; "wg-payload-prefix"])
    with "scope is unsupported" in
  let secretSources := length (filter (fun s => s <> "")
                         [ci_Secret c; ci_SecretFile c; ci_Password c]) in
  fail_if negb (bool_decide (secretSources = 1%nat))
    with "must configure exactly one of secret, secret_file, or password" in
  check! (if String.eqb (ci_KeyDerivation c) "wgmx-hkdf256-v1" then
            fail_if str_empty (ci_Secret c) && str_empty (ci_SecretFile c)
              with "requires secret or secret_file" in
            fail_if negb (str_empty (ci_Password c))
              with "password is only valid with key_derivation=udp2raw-md5-key1" in
            Ret tt
          else if String.eqb (ci_KeyDerivation c) "udp2raw-md5-key1" then
            fail_if str_empty (ci_Password c) && str_empty (ci_Secret c) &&
                    str_empty (ci_SecretFile c)
              with "requires password, secret, or secret_file" in
            Ret tt
          else Fail "key_derivation is unsupported") in
  fail_if negb (bool_decide (ci_KeyLen c ∈ [16; 32; 64; 256]))
    with "key_len must be one of 16, 32, 64, 256" in
  fail_if (ci_MaxBytes c =? 0) || (2048 <? ci_MaxBytes c) || negb (ci_MaxBytes c mod 4 =? 0)
    with "max_bytes must be a non-zero multiple of 4 up to 2048" in
  Ret tt.

(** [seen] are the names of the entries before. *)
Fixpoint validate_underlays (seen : list string) (l : list Underlay) : outcome unit :=
  match l with
  | [] => Ret tt
  | u :: l =>
      fail_if str_empty (ul_Name u) with "name is required" in
      fail_if str_empty (ul_Type u) with "type is required" in
      fail_if negb (one_of (ul_Type u) ["netdev"; "openwrt-interface"])
        with "type is unsupported" in
      fail_if negb (one_of (ul_Parser u) [""; "auto"; "ethernet"; "l3"])
        with "parser is unsupported" in
      fail_if bool_decide (ul_Name u ∈ seen) with "duplicate underlay" in
      validate_underlays (ul_Name u :: seen) l
  end.

Definition validateUniqueUnderlays (l : list Underlay) : outcome unit := validate_underlays [] l.

(** Each policy value with the values the dataplane implements. *)
Definition policy_checks (p : Policy) : list (string * list string) :=
  [ (po_NonManagedUDP p, ["pass"]);
    (po_ManagedEgressMapMiss p, ["pass"; "drop"]);
    (po_ManagedEgressBadType p, ["drop"]);
    (po_ManagedEgressBadLength p, ["drop"]);
    (po_EgressManagedIPv6ExtHeader p, ["drop"]);
    (po_ManagedIngressMapMiss p, ["pass"]);
    (po_ManagedIngressBadType p, ["drop"]);
    (po_ManagedIngressBadLength p, ["drop"]);
    (po_IngressManagedIPv6ExtHeader p, ["drop"]);
    (po_IPv4FirstFragment p, ["drop"]);
    (po_NonFirstIngress p, ["pass"]);
    (po_NonFirstEgressIfManagedFwmark p, ["drop"]);
    (po_IPv6Fragment p, ["drop"]);
    (po_StartupFailMode p, ["fail_closed_for_managed_flows"; "best_effort"]) ].

Definition validatePolicy (p : Policy) : outcome unit :=
  fail_if negb (forallb (fun c => one_of (fst c) (snd c)) (policy_checks p))
    with "policy value is not implemented by the MVP dataplane" in
  fail_if po_OptionalDropAllOnUnderlay p
    with "optional_drop_all_on_underlay is not implemented by the MVP dataplane" in
  Ret tt.

Definition sum_of {A} (f : A -> Z) (l : list A) : Z := foldr (fun a n => f a + n) 0 l.

Definition is_icmp (wg : WireGuard) : bool := String.eqb (tr_Mode (wg_Transport wg)) "icmp".
Definition is_faketcp (wg : WireGuard) : bool := String.eqb (tr_Mode (wg_Transport wg)) "faketcp".
Definition faketcps (c : Config) : list FakeTCPTransport :=
  map (fun wg => tr_FakeTCP (wg_Transport wg)) (filter (fun wg => is_faketcp wg) (c_WireGuards c)).

Definition validateDataplaneCapacity (c : Config) : outcome unit :=
  fail_if MaxProfilesPerGeneration <? mlen (c_Profiles c) with "too many profiles" in
  fail_if MaxCiphersPerGeneration <? mlen (c_Ciphers c) with "too many ciphers" in
  fail_if MaxUnderlaysPerGeneration <? len (c_Underlays c) with "too many underlays" in
  let underlays := len (c_Underlays c) in
  let wireguards := len (c_WireGuards c) in
  fail_if MaxManagedRulesPerGeneration <? u64 (underlays * wireguards)
    with "too many managed fwmark rules" in
  fail_if MaxDirectionalRulesPerGeneration <? u64 (u64 (underlays * wireguards) * 2)
    with "too many ingress rules" in
  let egressPerUnderlay := sum_of (fun wg => if is_icmp wg then 1 else 2) (c_WireGuards c) in
  let icmpWireGuards := sum_of (fun wg => if is_icmp wg then 1 else 0) (c_WireGuards c) in
  fail_if MaxDirectionalRulesPerGeneration <? u64 (underlays * egressPerUnderlay)
    with "too many egress rules" in
  fail_if MaxDirectionalRulesPerGeneration <? u64 (underlays * icmpWireGuards)
    with "too many ICMP listeners" in
  fail_if MaxFakeTCPSessions <? u64 (sum_of ft_SessionCapacity (faketcps c))
    with "aggregate faketcp session_capacity" in
  fail_if MaxFakeTCPHalfOpenSessions <? u64 (sum_of ft_MaxHalfOpenSessions (faketcps c))
    with "aggregate faketcp max_half_open_sessions" in
  fail_if MaxFakeTCPSYNSourceLedger <? u64 (sum_of ft_SYNSourceLedgerCapacity (faketcps c))
    with "aggregate faketcp syn_source_ledger_capacity" in
  fail_if MaxFakeTCPPendingFlows <? u64 (sum_of ft_MaxPendingFlows (faketcps c))
    with "aggregate faketcp max_pending_flows" in
  fail_if MaxFakeTCPPendingBytes <? u64 (sum_of ft_MaxPendingBytes (faketcps c))
    with "aggregate faketcp max_pending_bytes" in
  Ret tt.

Definition validate_transport (t : Transport) : outcome unit :=
  if one_of (tr_Mode t) [""; "udp"] then Ret tt
  else if String.eqb (tr_Mode t) "icmp" then
    if String.eqb (icmp_Role (tr_ICMP t)) "client" then
      fail_if icmp_ID (tr_ICMP t) =? 0 with "icmp.id is required for client role" in Ret tt
    else if String.eqb (icmp_Role (tr_ICMP t)) "server" then
      fail_if negb (icmp_ID (tr_ICMP t) =? 0)
        with "icmp.id must be omitted or zero for server role" in Ret tt
    else Fail "icmp.role must be client or server"
  else if String.eqb (tr_Mode t) "faketcp" then validateFakeTCPTransport (tr_FakeTCP t)
  else if String.eqb (tr_Mode t) "faketcp-lite" then Fail "transport.mode is unsupported; use faketcp"
  else Fail "transport.mode is unsupported".

Fixpoint validate_wireguards (c : Config) (seen : list string) (l : list WireGuard) : outcome unit :=
  match l with
  | [] => Ret tt
  | wg :: l =>
      fail_if str_empty (wg_Name wg) with "name is required" in
      fail_if bool_decide (wg_Name wg ∈ seen) with "duplicate wireguard" in
      fail_if negb (bool_decide (wg_NetNS wg = "root")) with "netns is reserved" in
      fail_if str_empty (wg_Profile wg) with "profile is required" in
      fail_if negb (bool_decide (is_Some (c_Profiles c !! wg_Profile wg)))
        with "profile is not defined" in
      fail_if negb (str_empty (wg_Cipher wg)) &&
              negb (bool_decide (is_Some (c_Ciphers c !! wg_Cipher wg)))
        with "cipher is not defined" in
      fail_if negb (str_empty (wg_Cipher wg)) &&
              negb (one_of (tr_Mode (wg_Transport wg)) [""; "udp"; "faketcp"])
        with "cipher is only implemented for udp and faketcp transports" in
      check! validate_transport (wg_Transport wg) in
      validate_wireguards c (wg_Name wg :: seen) l
  end.

Fixpoint validate_ciphers (c : Config) (order : list string) : outcome unit :=
  match order with
  | [] => Ret tt
  | name :: order =>
      fail_if str_empty name with "cipher name is required" in
      check! (match c_Ciphers c !! name with None => Ret tt | Some ci => validateCipher ci end) in
      validate_ciphers c order
  end.

Definition ValidateStatic (order : list string) (c : Config) : outcome unit :=
  fail_if negb (c_Version c =? 1) with "unsupported config version" in
  fail_if negb (String.eqb (c_Mode c) "transparent-typeword") with "unsupported mode" in
  fail_if (0 <? len (c_WireGuards c)) && (len (c_Underlays c) =? 0)
    with "at least one underlay is required when wireguard interfaces are configured" in
  fail_if (0 <? len (c_WireGuards c)) && (mlen (c_Profiles c) =? 0)
    with "at least one profile is required when wireguard interfaces are configured" in
  fail_if negb (String.eqb (c_FwmarkPolicyMode c) "config-required")
    with "fwmark_policy.mode is unsupported" in
  let r := c_Runtime c in
  fail_if rt_AllowZeroFwmarkFallback r with "runtime.allow_zero_fwmark_fallback is reserved" in
  fail_if negb (rt_RequireNonzeroFwmark r)
    with "runtime.require_nonzero_fwmark=false is reserved" in
  fail_if rt_PollInterval r <? MinimumPollInterval with "runtime.poll_interval is too short" in
  fail_if negb (one_of (rt_AttachmentBackend r) ["auto"; "tcx"; "classic_tc"])
    with "runtime.attachment_backend is unsupported" in
  fail_if negb (one_of (rt_ChecksumBackend r) [FakeTCPChecksumBackendAuto;
            FakeTCPChecksumBackendKfunc; FakeTCPChecksumBackendKprobe])
    with "runtime.checksum_backend is unsupported" in
  check! validateUniqueUnderlays (c_Underlays c) in
  fail_if negb (String.eqb (c_UnderlayOverlapPolicy c) "reject")
    with "underlay_overlap_policy is reserved" in
  check! validatePolicy (c_Policy c) in
  let g := c_StartupGuard c in
  fail_if negb (one_of (sg_Mode g) [StartupGuardModeNFTTemporaryDrop; StartupGuardModeNone])
    with "startup_guard.mode is unsupported" in
  fail_if negb (String.eqb (sg_EgressMatch g) "fwmark") with "startup_guard.egress.match" in
  fail_if negb (String.eqb (sg_IngressMatch g) "config-listen-port-if-present")
    with "startup_guard.ingress.match" in
  fail_if negb (String.eqb (sg_RandomListenPortBehavior g) "best-effort")
    with "startup_guard.ingress.random_listen_port_behavior" in
  check! validate_ciphers c order in
  check! validate_wireguards c [] (c_WireGuards c) in
  fail_if negb (len (faketcps c) =? 0) &&
          negb (String.eqb (po_StartupFailMode (c_Policy c)) "fail_closed_for_managed_flows")
    with "faketcp requires policy.startup_fail_mode fail_closed_for_managed_flows" in
  validateDataplaneCapacity c.

(** ** Loading.  [decode] is the YAML decoder. *)

Definition Load (decode : list Z -> outcome Config) (order : list string) (data : list Z)
    : outcome Config :=
  let! cfg := decode data in
  let cfg := ApplyDefaults cfg in
  check! ValidateStatic order cfg in
  Ret cfg.

Definition LoadLenient (decode : list Z -> outcome Config) (data : list Z) : outcome Config :=
  let! cfg := decode data in
  Ret (ApplyDefaults cfg).

(** The bytes [SaveFile] writes; [encode] is the YAML encoder. *)
Definition SaveFile_data (encode : Config -> list Z) (c : Config) : list Z :=
  encode (ApplyDefaults c).

Definition TypeWordProfile_zero : TypeWordProfile := mkTypeWords 0 0 0 0.
Definition Policy_zero : Policy :=
  mkPolicyCfg "" "" "" "" "" "" "" "" "" "" "" "" false "" "".

Definition SafeTemplate : Config :=
  mkConfig 1 "transparent-typeword" [] []
    {["default" := mkProfile "wireguard-mix-wire-values-v1" TypeWordProfile_zero "none" false]} ∅
    "config-required"
    (mkRuntime (5 * Second) "auto" FakeTCPChecksumBackendAuto true true false true true)
    (mkGuard StartupGuardModeNFTTemporaryDrop "fwmark" "config-listen-port-if-present"
       "best-effort")
    "reject" (applyDefaults Policy_zero).

(** ** Lemmas on the defaults *)

Lemma defaultString_idem s v : defaultString (defaultString s v) v = defaultString s v.
Proof.
  unfold defaultString. destruct (str_empty s) eqn:E; [by destruct (str_empty v)|by rewrite E].
Qed.

Lemma default_num_idem n v : default_num (default_num n v) v = default_num n v.
Proof. unfold default_num. destruct (n =? 0) eqn:E; [by destruct (v =? 0)|by rewrite E]. Qed.

Lemma default_num_nonzero n v : v <> 0 -> default_num n v <> 0.
Proof. unfold default_num. by destruct (Z.eqb_spec n 0). Qed.

Lemma default_num_set n v : n <> 0 -> default_num n v = n.
Proof. unfold default_num. by destruct (Z.eqb_spec n 0). Qed.

Create Rewrite HintDb defaults.
#[export] Hint Rewrite defaultString_idem default_num_idem : defaults.

Lemma applyDefaults_idem p : applyDefaults (applyDefaults p) = applyDefaults p.
Proof. unfold applyDefaults. cbn. by autorewrite with defaults. Qed.

Lemma default_runtime_idem r : default_runtime (default_runtime r) = default_runtime r.
Proof.
  unfold default_runtime. cbn. autorewrite with defaults.
  by destruct (negb _ && negb _), (negb _).
Qed.

Lemma default_guard_idem g : default_guard (default_guard g) = default_guard g.
Proof. unfold default_guard. cbn. by autorewrite with defaults. Qed.

Lemma default_cipher_idem c : default_cipher (default_cipher c) = default_cipher c.
Proof. unfold default_cipher. cbn. by autorewrite with defaults. Qed.

Lemma ingress_mode_idem s : default_ingress_mode (default_ingress_mode s) = default_ingress_mode s.
Proof.
  unfold default_ingress_mode.
  destruct (String.eqb (defaultString s _) _) eqn:E; [by vm_compute|].
  by rewrite defaultString_idem, E.
Qed.

Lemma default_faketcp_idem f : default_faketcp (default_faketcp f) = default_faketcp f.
Proof.
  unfold default_faketcp. cbn [ft_ChecksumMode ft_IngressMode ft_SessionCapacity
    ft_MaxHalfOpenSessions ft_MaxHalfOpenPerSource ft_SYNRateInterval ft_SYNBurst
    ft_SYNBurstPerSource ft_SYNSourceLedgerCapacity ft_SYNSourceLedgerTTL ft_MaxPendingFlows
    ft_MaxPendingPacketsPerFlow ft_MaxPendingBytes ft_HandshakeTimeout ft_KeepaliveInterval
    ft_IdleTimeout ft_Experimental]. autorewrite with defaults. by rewrite ingress_mode_idem.
Qed.

Lemma default_wireguard_idem wg : default_wireguard (default_wireguard wg) = default_wireguard wg.
Proof.
  unfold default_wireguard. cbn. autorewrite with defaults.
  f_equal; [|f_equal; destruct (String.eqb _ _); [apply default_faketcp_idem|done]].
  destruct (str_empty (wg_Config wg) && negb (str_empty (wg_Name wg))) eqn:E; [done|].
  by rewrite E.
Qed.

(** No default depends on a field that another default has since filled in. *)
Lemma ApplyDefaults_idem c : ApplyDefaults (ApplyDefaults c) = ApplyDefaults c.
Proof.
  unfold ApplyDefaults. cbn. autorewrite with defaults. rewrite applyDefaults_idem,
    default_runtime_idem, default_guard_idem, map_map. f_equal.
  - apply map_ext. apply default_wireguard_idem.
  - rewrite <- map_fmap_compose. apply map_fmap_ext. intros ? ? _. apply default_cipher_idem.
Qed.

(** Writing a configuration renders every field, so decoding the file again
    finds both fwmark settings present ([Runtime.UnmarshalYAML]). *)
Definition fields_set (c : Config) : Config :=
  let r := c_Runtime c in
  mkConfig (c_Version c) (c_Mode c) (c_Underlays c) (c_WireGuards c) (c_Profiles c) (c_Ciphers c)
    (c_FwmarkPolicyMode c)
    (mkRuntime (rt_PollInterval r) (rt_AttachmentBackend r) (rt_ChecksumBackend r)
       (rt_RequireNonzeroFwmark r) (rt_StrictRuntimeFwmark r) (rt_AllowZeroFwmarkFallback r)
       true true)
    (c_StartupGuard c) (c_UnderlayOverlapPolicy c) (c_Policy c).

Lemma ApplyDefaults_fields_set c :
  ApplyDefaults c = c -> ApplyDefaults (fields_set c) = fields_set c.
Proof.
  destruct c as [v m u w p ci fw r g o po]. unfold ApplyDefaults, fields_set. cbn.
  intros [= Hv Hm Hw Hc Hf Hr Hg Ho Hp]. rewrite Hv, Hm, Hw, Hc, Hf, Hg, Ho, Hp. f_equal.
  destruct r. unfold default_runtime in *. cbn in *. injection Hr. intros _ _ -> -> ->.
  by rewrite andb_false_r.
Qed.

Lemma ValidateStatic_fields_set order c :
  ValidateStatic order (fields_set c) = ValidateStatic order c.
Proof.
  assert (forall seen l, validate_wireguards (fields_set c) seen l = validate_wireguards c seen l)
    as Hw.
  { intros seen l. revert seen. induction l as [|wg l IH]; intros seen; simpl; [done|].
    by rewrite IH. }
  assert (forall l, validate_ciphers (fields_set c) l = validate_ciphers c l) as Hc.
  { induction l as [|n l IH]; simpl; [done|]. by rewrite IH. }
  unfold ValidateStatic. by rewrite Hw, Hc.
Qed.

(** Saving a loaded configuration and loading the file again succeeds and
    changes nothing (the two presence flags, which the written file sets,
    apart): the defaults are stable and validation does not depend on how a
    field came to have its value. *)
Theorem save_load_stable decode encode order data c :
  decode (SaveFile_data encode c) = Ret (fields_set (ApplyDefaults c)) ->
  Load decode order data = Ret c ->
  Load decode order (SaveFile_data encode c) = Ret (fields_set c).
Proof.
  intros Henc H. unfold Load in *. apply obind_ret in H as (c0 & _ & H). go_inv. destruct x.
  rewrite Henc. cbn [obind]. rewrite <- H, ApplyDefaults_idem.
  by rewrite ApplyDefaults_fields_set, ValidateStatic_fields_set, H0 by apply ApplyDefaults_idem.
Qed.

(** ** Lemmas on validation *)

(** What [validateFakeTCPTransport] accepts. *)
Definition faketcp_limits (f : FakeTCPTransport) : Prop :=
  2 <= ft_SessionCapacity f <= MaxFakeTCPSessions /\
  ft_MaxHalfOpenSessions f <> 0 /\ ft_MaxHalfOpenSessions f < ft_SessionCapacity f /\
  ft_MaxHalfOpenSessions f <= MaxFakeTCPHalfOpenSessions /\
  ft_MaxHalfOpenPerSource f <> 0 /\ ft_MaxHalfOpenPerSource f <= ft_MaxHalfOpenSessions f /\
  ft_MaxHalfOpenPerSource f <= MaxFakeTCPHalfOpenPerSource /\
  10 * Millisecond <= ft_SYNRateInterval f <= 10 * Second /\
  ft_SYNBurst f <> 0 /\ ft_SYNBurst f <= ft_MaxHalfOpenSessions f /\
  ft_SYNBurst f <= MaxFakeTCPSYNBurst /\
  ft_SYNBurstPerSource f <> 0 /\ ft_SYNBurstPerSource f <= ft_SYNBurst f /\
  ft_MaxHalfOpenSessions f <= ft_SYNSourceLedgerCapacity f <= MaxFakeTCPSYNSourceLedger /\
  ft_SYNRateInterval f <= ft_SYNSourceLedgerTTL f <= Hour /\
  ft_MaxPendingFlows f <> 0 /\ ft_MaxPendingFlows f <= MaxFakeTCPPendingFlows /\
  ft_MaxPendingFlows f <= ft_MaxHalfOpenSessions f /\
  ft_MaxPendingPacketsPerFlow f <> 0 /\
  ft_MaxPendingPacketsPerFlow f <= MaxFakeTCPPendingPacketsPerFlow /\
  ft_MaxPendingBytes f <> 0 /\ ft_MaxPendingBytes f <= MaxFakeTCPPendingBytes /\
  100 * Millisecond <= ft_HandshakeTimeout f <= 30 * Second /\
  Second <= ft_KeepaliveInterval f <= 10 * Minute /\
  ft_KeepaliveInterval f < ft_IdleTimeout f <= 24 * Hour.

Definition faketcp_modes (f : FakeTCPTransport) : Prop :=
  ft_ChecksumMode f = FakeTCPChecksumModePartialCompleteReset /\
  ft_IngressMode f = FakeTCPIngressModeXDPGenericExact.

Lemma validate_faketcp_inv f :
  validateFakeTCPTransport f = Ret tt -> faketcp_modes f /\ faketcp_limits f.
Proof.
  unfold validateFakeTCPTransport. intros H. go_inv. bool_prop.
  unfold faketcp_modes, faketcp_limits. repeat split; try done; lia.
Qed.

Ltac decide_lia := repeat match goal with
  | |- context [?x <? ?y] => destruct (Z.ltb_spec x y); [lia|]
  | |- context [?x <=? ?y] => destruct (Z.leb_spec x y); [lia|]
  | |- context [?x =? ?y] => destruct (Z.eqb_spec x y); [lia|]
  end.

Lemma validate_faketcp_ok f :
  faketcp_modes f -> faketcp_limits f -> validateFakeTCPTransport f = Ret tt.
Proof.
  unfold faketcp_modes, faketcp_limits, validateFakeTCPTransport. intros [-> ->] H.
  decompose [and] H. rewrite !bool_decide_true by done. cbn [negb]. by decide_lia.
Qed.

(** a FakeTCP transport that sets nothing but a session capacity the
    validator allows (or not even that), with an empty, current or deprecated
    ingress mode, is accepted after defaulting: the derived defaults never
    violate the ordering constraints between the limits, at either end of the
    capacity range. *)
Theorem default_faketcp_accepts experimental mode capacity :
  mode ∈ [""; FakeTCPIngressModeXDPGenericExact; deprecatedFakeTCPIngressModeXDPRequired] ->
  capacity = 0 \/ 2 <= capacity <= MaxFakeTCPSessions ->
  validateFakeTCPTransport (default_faketcp
    (mkFakeTCP experimental "" mode capacity 0 0 0 0 0 0 0 0 0 0 0 0 0)) = Ret tt.
Proof.
  intros Hm Hc. apply validate_faketcp_ok.
  - split; [done|]. cbn. set_unfold in Hm. destruct Hm as [-> | [-> | [-> | []]]]; by vm_compute.
  - unfold faketcp_limits, default_faketcp. cbn -[Z.div Z.min Z.max Z.shiftl Z.mul].
    set (n := default_num capacity 4096).
    assert (2 <= n <= 16384) by (unfold n, default_num; destruct (Z.eqb_spec capacity 0);
      unfold MaxFakeTCPSessions in Hc; lia).
    clearbody n. clear Hc. unfold default_num. rewrite ?Z.eqb_refl.
    unfold MaxFakeTCPSessions, MaxFakeTCPHalfOpenSessions, MaxFakeTCPHalfOpenPerSource,
      MaxFakeTCPSYNBurst, MaxFakeTCPSYNSourceLedger, MaxFakeTCPPendingFlows,
      MaxFakeTCPPendingPacketsPerFlow, MaxFakeTCPPendingBytes, Hour, Minute, Second, Millisecond.
    change (Z.shiftl 1 20) with 1048576. change (Z.shiftl 256 10) with 262144.
    assert (0 <= n / 4 <= 4096 /\ 4 * (n / 4) <= n) by (Z.div_mod_to_equations; lia).
    repeat split; lia.
Qed.

Lemma default_faketcp_accepts_witness :
  validateFakeTCPTransport (default_faketcp
    (mkFakeTCP true "" "xdp-required" 2 0 0 0 0 0 0 0 0 0 0 0 0 0)) = Ret tt.
Proof.
  apply (default_faketcp_accepts true "xdp-required" 2).
  - by right; right; left.
  - right. unfold MaxFakeTCPSessions. lia.
Defined.

(** ** Inversion of the loops of [ValidateStatic] *)

Lemma validate_underlays_unique seen l :
  validate_underlays seen l = Ret tt ->
  NoDup (map ul_Name l) /\ (forall u, u ∈ l -> ul_Name u <> "" /\ ul_Name u ∉ seen).
Proof.
  revert seen. induction l as [|u l IH]; intros seen H; simpl in *.
  { split; [constructor|]. intros ? []%elem_of_nil. }
  go_inv. bool_prop. apply IH in H as [Hn Hs]. split.
  - constructor; [|done]. intros (v & Hv & Hin)%list_elem_of_fmap.
    apply Hs in Hin as [_ Hin]. apply Hin. rewrite <- Hv. by left.
  - intros v [->|Hv]%elem_of_cons.
    + split; [|done]. by apply bool_decide_eq_false in Heqb.
    + apply Hs in Hv as [? Hv]. split; [done|]. intros ?. apply Hv. by right.
Qed.

(** What [ValidateStatic] establishes of one WireGuard entry. *)
Definition wireguard_valid (c : Config) (wg : WireGuard) : Prop :=
  wg_Name wg <> "" /\ wg_NetNS wg = "root" /\
  is_Some (c_Profiles c !! wg_Profile wg) /\
  (wg_Cipher wg <> "" -> is_Some (c_Ciphers c !! wg_Cipher wg) /\
     one_of (tr_Mode (wg_Transport wg)) [""; "udp"; "faketcp"] = true) /\
  validate_transport (wg_Transport wg) = Ret tt.

Lemma str_empty_false s : str_empty s = false <-> s <> "".
Proof. apply bool_decide_eq_false. Qed.
Lemma str_empty_true s : str_empty s = true <-> s = "".
Proof. apply bool_decide_eq_true. Qed.

Lemma validate_wireguards_inv c seen l :
  validate_wireguards c seen l = Ret tt ->
  NoDup (map wg_Name l) /\
  (forall wg, wg ∈ l -> wireguard_valid c wg /\ wg_Name wg ∉ seen).
Proof.
  revert seen. induction l as [|wg l IH]; intros seen H; simpl in *.
  { split; [constructor|]. intros ? []%elem_of_nil. }
  go_inv. bool_prop. destruct x. apply IH in H as [Hn Hs]. split.
  - constructor; [|done]. intros (v & Hv & Hin)%list_elem_of_fmap.
    apply Hs in Hin as [_ Hin]. apply Hin. rewrite <- Hv. by left.
  - intros v [->|Hv]%elem_of_cons.
    + split; [|done]. unfold wireguard_valid. apply str_empty_false in Heqb as ?.
      split_and!; try done. intros Hc%str_empty_false. rewrite Hc in *. simpl in *.
      by bool_prop.
    + apply Hs in Hv as [? Hv]. split; [done|]. intros ?. apply Hv. by right.
Qed.

Lemma validate_ciphers_nonempty c order : validate_ciphers c order = Ret tt -> "" ∉ order.
Proof.
  induction order as [|n order IH]; intros H; simpl in *; [apply not_elem_of_nil|].
  go_inv. apply str_empty_false in Heqb. apply not_elem_of_cons. auto.
Qed.

Lemma validate_ciphers_inv c order name ci :
  validate_ciphers c order = Ret tt -> name ∈ order -> c_Ciphers c !! name = Some ci ->
  validateCipher ci = Ret tt.
Proof.
  induction order as [|n order IH]; intros H Hin Hc; simpl in *; [by apply elem_of_nil in Hin|].
  go_inv. apply elem_of_cons in Hin as [->|Hin]; [|by apply IH].
  rewrite Hc in *. by destruct x.
Qed.

(** ** Sums over the FakeTCP transports *)

Lemma sum_of_cons {A} (f : A -> Z) a l : sum_of f (a :: l) = f a + sum_of f l.
Proof. done. Qed.

Lemma sum_of_bounds {A} (f : A -> Z) (l : list A) b :
  (forall a, a ∈ l -> 0 <= f a <= b) -> 0 <= sum_of f l <= b * len l.
Proof.
  induction l as [|a l IH]; intros H; simpl; [unfold len; simpl; lia|].
  rewrite len_cons. pose proof (H a (list_elem_of_here _ _)).
  enough (0 <= sum_of f l <= b * len l) by lia. apply IH. intros. apply H. by right.
Qed.

Lemma len_faketcps c : len (faketcps c) <= len (c_WireGuards c).
Proof. unfold faketcps, len. rewrite length_map. pose proof (length_filter (fun wg => is_faketcp wg)
  (c_WireGuards c)). lia. Qed.

(** The [uint32] fields of a FakeTCP transport are in range. *)
Definition faketcp_typed (f : FakeTCPTransport) : Prop :=
  Forall (fun v => 0 <= v < 2 ^ 32)
    [ft_SessionCapacity f; ft_MaxHalfOpenSessions f; ft_MaxHalfOpenPerSource f; ft_SYNBurst f;
     ft_SYNBurstPerSource f; ft_SYNSourceLedgerCapacity f; ft_MaxPendingFlows f;
     ft_MaxPendingPacketsPerFlow f; ft_MaxPendingBytes f].

Definition config_typed (c : Config) : Prop :=
  len (c_WireGuards c) < 2 ^ 40 /\
  (forall wg, wg ∈ c_WireGuards c -> faketcp_typed (tr_FakeTCP (wg_Transport wg))).

Lemma faketcps_typed c f : config_typed c -> f ∈ faketcps c -> faketcp_typed f.
Proof.
  intros [_ H] Hin. unfold faketcps in Hin.
  apply list_elem_of_fmap in Hin as (wg & -> & [_ Hin]%list_elem_of_filter). by apply H.
Qed.

(** The shared budgets, as exact sums (no wrap-around). *)
Definition budgets_ok (c : Config) : Prop :=
  sum_of ft_SessionCapacity (faketcps c) <= MaxFakeTCPSessions /\
  sum_of ft_MaxHalfOpenSessions (faketcps c) <= MaxFakeTCPHalfOpenSessions /\
  sum_of ft_SYNSourceLedgerCapacity (faketcps c) <= MaxFakeTCPSYNSourceLedger /\
  sum_of ft_MaxPendingFlows (faketcps c) <= MaxFakeTCPPendingFlows /\
  sum_of ft_MaxPendingBytes (faketcps c) <= MaxFakeTCPPendingBytes.

Lemma u64_small x : 0 <= x < 2 ^ 64 -> u64 x = x.
Proof. apply Z.mod_small. Qed.

Lemma budget_exact c (f : FakeTCPTransport -> Z) limit :
  config_typed c -> len (c_WireGuards c) <= 256 ->
  (forall t, faketcp_typed t -> 0 <= f t < 2 ^ 32) ->
  (limit <? u64 (sum_of f (faketcps c))) = false -> sum_of f (faketcps c) <= limit.
Proof.
  intros Ht Hn Hf H. pose proof (sum_of_bounds f (faketcps c) (2 ^ 32)) as Hs.
  pose proof (len_faketcps c). pose proof (len_nonneg (faketcps c)).
  assert (0 <= sum_of f (faketcps c) <= 2 ^ 32 * len (faketcps c)) as Hb.
  { apply Hs. intros t Hin. pose proof (Hf t (faketcps_typed c t Ht Hin)). lia. }
  rewrite u64_small in H by lia. lia.
Qed.

Lemma capacity_inv c :
  config_typed c -> (len (c_WireGuards c) > 0 -> len (c_Underlays c) > 0) ->
  validateDataplaneCapacity c = Ret tt ->
  mlen (c_Profiles c) <= MaxProfilesPerGeneration /\ mlen (c_Ciphers c) <= MaxCiphersPerGeneration /\
  len (c_Underlays c) * len (c_WireGuards c) <= MaxManagedRulesPerGeneration /\ budgets_ok c.
Proof.
  unfold validateDataplaneCapacity. cbn zeta. intros Ht Hu H. go_inv.
  pose proof (len_nonneg (c_WireGuards c)). pose proof (len_nonneg (c_Underlays c)).
  unfold MaxUnderlaysPerGeneration, MaxManagedRulesPerGeneration in *.
  pose proof (proj1 Ht) as Hlen.
  rewrite (u64_small (len (c_Underlays c) * len (c_WireGuards c))) in * |- by nia.
  assert (len (c_WireGuards c) <= 256) by nia.
  unfold budgets_ok. split_and!; try lia; (eapply budget_exact; [done|done| |done]);
    intros t Hf; unfold faketcp_typed in Hf; decompose_Forall; lia.
Qed.

(** The checks [ValidateStatic] composes. *)
Lemma ValidateStatic_inv order c :
  ValidateStatic order c = Ret tt ->
  validate_underlays [] (c_Underlays c) = Ret tt /\ validatePolicy (c_Policy c) = Ret tt /\
  validate_ciphers c order = Ret tt /\ validate_wireguards c [] (c_WireGuards c) = Ret tt /\
  validateDataplaneCapacity c = Ret tt /\ (len (c_WireGuards c) > 0 -> len (c_Underlays c) > 0) /\
  c_UnderlayOverlapPolicy c = "reject".
Proof.
  unfold ValidateStatic. cbn zeta. intros H. go_inv. destruct x, x0, x1, x2. bool_prop.
  split_and!; try done; [|by apply String.eqb_eq].
  pose proof (len_nonneg (c_Underlays c)). intros. match goal with
    | E : (0 <? len (c_WireGuards c)) && (len (c_Underlays c) =? 0) = false |- _ =>
        apply andb_false_iff in E; lia end.
Qed.

(** The number of (WireGuard, underlay) pairs. *)
Lemma static_rule_bound order c :
  config_typed c -> ValidateStatic order c = Ret tt ->
  len (c_Underlays c) * len (c_WireGuards c) <= MaxManagedRulesPerGeneration.
Proof.
  intros Ht (_ & _ & _ & _ & H & Hu & _)%ValidateStatic_inv.
  by apply capacity_inv in H as (_ & _ & Hm & _).
Qed.

(** C25: a configuration that passes [ValidateStatic] has distinct underlay and
    WireGuard names, refers only to declared profiles and to declared ciphers
    that themselves passed validation, has every FakeTCP transport inside its limits, creates at
    most [MaxManagedRulesPerGeneration] fwmark rules, and its FakeTCP quotas,
    summed exactly, fit the shared map and process budgets (the code's uint64
    sums cannot wrap). *)
Theorem validated_config_safe order c :
  config_typed c ->
  (forall name, is_Some (c_Ciphers c !! name) -> name ∈ order) ->
  ValidateStatic order c = Ret tt ->
  NoDup (map ul_Name (c_Underlays c)) /\ NoDup (map wg_Name (c_WireGuards c)) /\
  (forall wg, wg ∈ c_WireGuards c -> wireguard_valid c wg /\
     (wg_Cipher wg <> "" -> exists ci, c_Ciphers c !! wg_Cipher wg = Some ci /\
                                      validateCipher ci = Ret tt) /\
     (tr_Mode (wg_Transport wg) = "faketcp" ->
        faketcp_modes (tr_FakeTCP (wg_Transport wg)) /\
        faketcp_limits (tr_FakeTCP (wg_Transport wg)))) /\
  len (c_Underlays c) * len (c_WireGuards c) <= MaxManagedRulesPerGeneration /\
  budgets_ok c.
Proof.
  intros Ht Ho (Hu & _ & Hc & Hwg & H & Hne & _)%ValidateStatic_inv.
  apply validate_underlays_unique in Hu as [Hu _].
  destruct (validate_wireguards_inv c [] _ Hwg) as [Hn Hw].
  apply capacity_inv in H as (_ & _ & Hm & Hb); [|done|done].
  split_and!; try done. intros wg Hin. destruct (Hw wg Hin) as [Hv _].
  split_and!; [done| |].
  - intros Hci'. destruct Hv as (_ & _ & _ & Hv & _). destruct (Hv Hci') as [[ci Hci] _].
    exists ci. split; [done|]. eapply validate_ciphers_inv; eauto.
  - intros Hmode. destruct Hv as (_ & _ & _ & _ & Hv). unfold validate_transport in Hv.
    rewrite Hmode in Hv. simpl in Hv. by apply validate_faketcp_inv.
Qed.

(** One FakeTCP and one ciphered UDP WireGuard on one underlay. *)
Definition sample_config : Config :=
  ApplyDefaults (mkConfig 0 "" [mkUnderlay "wan" "netdev" "ethernet"]
    [mkWireGuard "wg0" "" "default" "" ""
       (mkTransport "faketcp" (mkICMP "" 0) (mkFakeTCP false "" "" 0 0 0 0 0 0 0 0 0 0 0 0 0 0));
     mkWireGuard "wg1" "" "default" "c" ""
       (mkTransport "" (mkICMP "" 0) (mkFakeTCP false "" "" 0 0 0 0 0 0 0 0 0 0 0 0 0 0))]
    {["default" := mkProfile "wireguard-mix-wire-values-v1" TypeWordProfile_zero "none" false]}
    {["c" := mkCipher "" "" "" "" "s3cret" "" "" 0 0]} "" (mkRuntime 0 "" "" false false false false false)
    (mkGuard "" "" "" "") "" Policy_zero).

#[export] Instance faketcp_typed_dec f : Decision (faketcp_typed f).
Proof. unfold faketcp_typed. apply _. Defined.

Lemma sample_config_typed : config_typed sample_config.
Proof.
  split; [by vm_compute|].
  assert (Forall (fun wg => faketcp_typed (tr_FakeTCP (wg_Transport wg)))
            (c_WireGuards sample_config)) as H by (apply (bool_decide_unpack _); by vm_compute).
  rewrite Forall_forall in H. intros wg Hin. apply H. by apply list_elem_of_In.
Qed.

Lemma sample_config_order name : is_Some (c_Ciphers sample_config !! name) -> name ∈ ["c"].
Proof.
  intros [ci H]. unfold sample_config in H. cbn in H.
  apply lookup_fmap_Some in H as (ci' & _ & H). apply lookup_singleton_Some in H as [<- _].
  by left.
Qed.

Lemma validated_config_safe_witness :
  ValidateStatic ["c"] sample_config = Ret tt /\ budgets_ok sample_config.
Proof.
  assert (ValidateStatic ["c"] sample_config = Ret tt) as H by (vm_compute; reflexivity).
  split; [exact H|].
  destruct (validated_config_safe ["c"] sample_config sample_config_typed sample_config_order H)
    as (_ & _ & _ & _ & Hb). exact Hb.
Defined.

(** Writing [sample_config] and reading it back. *)
Definition sample_decode (data : list Z) : outcome Config :=
  Ret (match data with [] => sample_config | _ => fields_set sample_config end).

Lemma sample_config_loads : Load sample_decode ["c"] [] = Ret sample_config.
Proof.
  unfold Load, sample_decode. cbn [obind]. unfold sample_config. rewrite ApplyDefaults_idem.
  by vm_compute.
Qed.

Lemma save_load_stable_witness :
  Load sample_decode ["c"] (SaveFile_data (fun _ => [1]) sample_config)
  = Ret (fields_set sample_config).
Proof.
  apply (save_load_stable sample_decode (fun _ => [1]) ["c"] [] sample_config).
  - unfold sample_decode, SaveFile_data, sample_config. by rewrite ApplyDefaults_idem.
  - exact sample_config_loads.
Defined.

(** The template written by [config init] is accepted as it is. *)
Example SafeTemplate_valid :
  ValidateStatic [] SafeTemplate = Ret tt /\ ApplyDefaults SafeTemplate = SafeTemplate.
Proof. split; by vm_compute. Qed.
