(* ===== verification/Profile.v ===== *)
(** * Wire profiles: the type-word codec (internal/packet/typeword.go), profile
    compilation, random generation (internal/profile/profile.go; profile
    tokens are in Token.v), and the kernel side that translates type
    words with a compiled profile (bpf/wg_mix_tc.c). *)
From Stdlib Require Import ZArith Lia.
From stdpp Require Import base option list gmap strings numbers.
From S2P Require Import Prelude Config.

(** ** Type words (internal/packet/typeword.go) *)

Definition StandardInitiation : Z := 1.
Definition StandardResponse : Z := 2.
Definition StandardCookieReply : Z := 3.
Definition StandardTransportData : Z := 4.

Inductive MessageKind :=
| MessageUnknown | MessageInitiation | MessageResponse | MessageCookieReply | MessageTransportData.

#[export] Instance MessageKind_eq_dec : EqDecision MessageKind.
Proof. solve_decision. Defined.

Definition FromWire (b : list Z) : outcome Z :=
  fail_if len b <? 4 with "type_word requires 4 bytes" in
  let! w := slice b 0 4 in
  LittleEndian_Uint32 w.

Definition ToWire (v : Z) : list Z := LittleEndian_PutUint32 v.

Definition StandardKind (typeWord : Z) : MessageKind :=
  if typeWord =? StandardInitiation then MessageInitiation
  else if typeWord =? StandardResponse then MessageResponse
  else if typeWord =? StandardCookieReply then MessageCookieReply
  else if typeWord =? StandardTransportData then MessageTransportData
  else MessageUnknown.

Definition ValidatePayloadLength (kind : MessageKind) (payloadLen : Z) : outcome unit :=
  match kind with
  | MessageInitiation =>
      fail_if negb (payloadLen =? 148) with "initiation payload length, want 148" in Ret tt
  | MessageResponse =>
      fail_if negb (payloadLen =? 92) with "response payload length, want 92" in Ret tt
  | MessageCookieReply =>
      fail_if negb (payloadLen =? 64) with "cookie reply payload length, want 64" in Ret tt
  | MessageTransportData =>
      fail_if payloadLen <? 32 with "transport payload length is below 32" in Ret tt
  | MessageUnknown => Fail "unknown message kind"
  end.

Definition ContainsStandardTypeWord (payload : list Z) : bool :=
  match FromWire payload with
  | Ret typeWord => negb (bool_decide (StandardKind typeWord = MessageUnknown))
  | _ => false
  end.

(** ** Compilation (internal/profile/profile.go) *)

(** A [[4]uint32] array. *)
Definition words : Type := Z * Z * Z * Z.
Definition words_list (w : words) : list Z :=
  let '(w0, w1, w2, w3) := w in [w0; w1; w2; w3].

Definition Standard : words :=
  (StandardInitiation, StandardResponse, StandardCookieReply, StandardTransportData).
Definition WireguardMixWireValuesV1 : words :=
  (0xf658c2e6, 0x0686b1d0, 0x075ae5e0, 0x13dff06b).

Record Compiled := mkCompiled {
  cp_Name : string;
  StandardToMixed : words;
  MixedToStandard : words
}.

Definition isStandard (v : Z) : bool := existsb (Z.eqb v) (words_list Standard).

Definition mixedValues (cfg : Profile) : outcome words :=
  if negb (str_empty (pr_Preset cfg)) then
    if String.eqb (pr_Preset cfg) "wireguard-mix-wire-values-v1" then Ret WireguardMixWireValuesV1
    else Fail "unsupported preset"
  else
    let t := pr_TypeWord cfg in
    let values := (tw_Initiation t, tw_Response t, tw_CookieReply t, tw_TransportData t) in
    fail_if existsb (fun v => v =? 0) (words_list values) with "type_word value is zero" in
    Ret values.

Fixpoint validate_mixed (seen : list Z) (allowPassthrough : bool) (values : list Z) : outcome unit :=
  match values with
  | [] => Ret tt
  | v :: values =>
      fail_if bool_decide (v ∈ seen) with "mixed type_word is duplicated" in
      fail_if negb allowPassthrough && isStandard v
        with "mixed type_word equals a standard type_word" in
      validate_mixed (v :: seen) allowPassthrough values
  end.

Definition validateMixed (values : words) (allowPassthrough : bool) : outcome unit :=
  validate_mixed [] allowPassthrough (words_list values).

Definition Compile (name : string) (cfg : Profile) : outcome Compiled :=
  fail_if str_empty name with "profile name is required" in
  let mode := defaultString (pr_IndexMode cfg) "none" in
  fail_if negb (String.eqb mode "none") with "index mode is unsupported in MVP" in
  let! mixed := mixedValues cfg in
  check! validateMixed mixed (pr_AllowPassthrough cfg) in
  Ret (mkCompiled name mixed Standard).

(** [order] is the iteration order over the configured profiles. *)
Fixpoint CompileAll (order : list string) (profiles : gmap string Profile)
    : outcome (gmap string Compiled) :=
  match order with
  | [] => Ret ∅
  | name :: order =>
      match profiles !! name with
      | None => CompileAll order profiles
      | Some cfg =>
          let! compiled := Compile name cfg in
          let! out := CompileAll order profiles in
          Ret (<[name := compiled]> out)
      end
  end.

Definition Preset (name : string) : outcome Profile :=
  if String.eqb name "wireguard-mix-wire-values-v1"
  then Ret (mkProfile name TypeWordProfile_zero "none" false)
  else Fail "unsupported preset".

(** ** Random profiles *)

(** One read of the random source: four bytes, or an error. *)
Definition randomUint32 (read : outcome (list Z)) : outcome Z :=
  let! buf := read in
  LittleEndian_Uint32 buf.

(** The retry loop for one value over the reads still to come; [None] while
    every read so far was rejected. *)
Fixpoint draw_value (seen : list Z) (reads : list (outcome (list Z)))
    : option (outcome (Z * list (outcome (list Z)))) :=
  match reads with
  | [] => None
  | read :: reads =>
      match randomUint32 read with
      | Ret v =>
          if (v =? 0) || isStandard v then draw_value seen reads
          else if bool_decide (v ∈ seen) then draw_value seen reads
          else Some (Ret (v, reads))
      | Fail e => Some (Fail e)
      | Panic => Some Panic
      end
  end.

Fixpoint draw_values (n : nat) (seen : list Z) (reads : list (outcome (list Z)))
    : option (outcome (list Z)) :=
  match n with
  | O => Some (Ret [])
  | S n =>
      match draw_value seen reads with
      | None => None
      | Some (Ret (v, reads)) =>
          match draw_values n (v :: seen) reads with
          | Some (Ret vs) => Some (Ret (v :: vs))
          | other => other
          end
      | Some (Fail e) => Some (Fail e)
      | Some Panic => Some Panic
      end
  end.

Definition profile_of_words (w0 w1 w2 w3 : Z) (mode : string) : Profile :=
  mkProfile "" (mkTypeWords w0 w1 w2 w3) mode false.

Definition GenerateRandom (reads : list (outcome (list Z))) : option (outcome Profile) :=
  match draw_values 4 [] reads with
  | None => None
  | Some (Ret [w0; w1; w2; w3]) =>
      let cfg := profile_of_words w0 w1 w2 w3 "none" in
      Some (check! Compile "generated" cfg in Ret cfg)
  | Some (Ret _) => Some Panic
  | Some (Fail e) => Some (Fail e)
  | Some Panic => Some Panic
  end.

(** ** The kernel side (bpf/wg_mix_tc.c) *)

Definition kind_from_standard (type_word : Z) : option Z :=
  if type_word =? 1 then Some 0 else if type_word =? 2 then Some 1
  else if type_word =? 3 then Some 2 else if type_word =? 4 then Some 3 else None.

Definition profile_mixed_from_kind (p : Compiled) (kind : Z) : option Z :=
  let '(m0, m1, m2, m3) := StandardToMixed p in
  if kind =? 0 then Some m0 else if kind =? 1 then Some m1
  else if kind =? 2 then Some m2 else if kind =? 3 then Some m3 else None.

Definition profile_decode_mixed (p : Compiled) (mixed : Z) : option (Z * Z) :=
  let '(m0, m1, m2, m3) := StandardToMixed p in
  let '(s0, s1, s2, s3) := MixedToStandard p in
  if m0 =? mixed then Some (0, s0) else if m1 =? mixed then Some (1, s1)
  else if m2 =? mixed then Some (2, s2) else if m3 =? mixed then Some (3, s3) else None.

Definition validate_len (kind payload_len : Z) : bool :=
  if kind =? 0 then payload_len =? 148 else if kind =? 1 then payload_len =? 92
  else if kind =? 2 then payload_len =? 64 else if kind =? 3 then 32 <=? payload_len else false.

(** ** Lemmas on compilation *)

Lemma validate_mixed_iff seen allow l :
  validate_mixed seen allow l = Ret tt <->
  NoDup l /\ (forall v, v ∈ l -> v ∉ seen) /\
  (allow = false -> forall v, v ∈ l -> isStandard v = false).
Proof.
  revert seen. induction l as [|v l IH]; intros seen; simpl.
  { split; [|done]. intros _. split; [by apply NoDup_nil_2|]. split; [|intros _]; by intros ? ?%elem_of_nil. }
  rewrite list.NoDup_cons. split.
  - intros H. go_inv. bool_prop. apply IH in H as (Hn & Hs & Ha). split_and!.
    + intros Hv. apply (Hs v Hv). by left.
    + done.
    + intros w [->|Hw]%elem_of_cons; [done|]. intros ?. apply (Hs w Hw). by right.
    + intros -> w [->|Hw]%elem_of_cons; [done|]. by apply Ha.
  - intros ([Hv Hn] & Hs & Ha). rewrite bool_decide_false by (apply Hs; by left).
    replace (negb allow && isStandard v) with false.
    2: { destruct allow; [done|]. simpl. symmetry. apply Ha; [done|by left]. }
    apply IH. split_and!; [done| |].
    + intros w Hw [->|Hin]%elem_of_cons; [done|]. by apply (Hs w); [right|].
    + intros Hal w Hw. apply Ha; [done|by right].
Qed.

(** A profile whose type words are [uint32] values. *)
Definition profile_typed (cfg : Profile) : Prop :=
  let t := pr_TypeWord cfg in
  Forall (fun v => 0 <= v < 4294967296)
    [tw_Initiation t; tw_Response t; tw_CookieReply t; tw_TransportData t].

Lemma mixedValues_typed cfg w :
  profile_typed cfg -> mixedValues cfg = Ret w ->
  Forall (fun v => 0 < v < 4294967296) (words_list w).
Proof.
  unfold profile_typed, mixedValues. intros Ht H.
  destruct (negb (str_empty (pr_Preset cfg))).
  - destruct (String.eqb _ _); [|done]. injection H as <-. repeat constructor; lia.
  - cbn zeta in H. go_inv. subst w. cbn in *. decompose_Forall; bool_prop; lia.
Qed.

Lemma Compile_inv name cfg p :
  Compile name cfg = Ret p ->
  name <> "" /\ defaultString (pr_IndexMode cfg) "none" = "none" /\
  mixedValues cfg = Ret (StandardToMixed p) /\ MixedToStandard p = Standard /\
  NoDup (words_list (StandardToMixed p)) /\
  (pr_AllowPassthrough cfg = false -> forall v, v ∈ words_list (StandardToMixed p) ->
     isStandard v = false).
Proof.
  unfold Compile. intros H. cbn zeta in H. go_inv. subst p. cbn. destruct x0.
  match goal with Hm : validateMixed _ _ = _ |- _ =>
    apply validate_mixed_iff in Hm as (? & _ & ?) end. bool_prop.
  split_and!; try done; [by apply str_empty_false|by apply String.eqb_eq].
Qed.

Lemma Compile_ok name cfg w :
  name <> "" -> defaultString (pr_IndexMode cfg) "none" = "none" -> mixedValues cfg = Ret w ->
  NoDup (words_list w) ->
  (pr_AllowPassthrough cfg = false -> forall v, v ∈ words_list w -> isStandard v = false) ->
  Compile name cfg = Ret (mkCompiled name w Standard).
Proof.
  intros Hn Hi Hm Hd Ha. unfold Compile. apply str_empty_false in Hn. rewrite Hn, Hi, Hm.
  cbn [obind String.eqb negb]. unfold validateMixed.
  rewrite (proj2 (validate_mixed_iff [] _ _)); [done|].
  split_and!; [done|by intros ? _ ?%elem_of_nil|done].
Qed.

Lemma Compile_no_panic name cfg : Compile name cfg <> Panic.
Proof.
  assert (forall l seen allow, validate_mixed seen allow l <> Panic) as Hv.
  { induction l as [|v l IH]; intros seen allow; simpl; [done|].
    destruct (bool_decide _); [done|]. by destruct (negb allow && isStandard v). }
  unfold Compile. destruct (str_empty name); [done|]. cbn zeta.
  destruct (negb _); [done|]. destruct (mixedValues cfg) as [w|e|] eqn:Hm; cbn [obind]; try done.
  - destruct (validateMixed w _) as [u|e|] eqn:E; [done|done|]. intros _. by apply (Hv _ _ _ E).
  - unfold mixedValues in Hm. destruct (negb _); [by destruct (String.eqb _ _)|].
    cbn zeta in Hm. by destruct (existsb _ _).
Qed.

Lemma StandardKind_isStandard v : StandardKind v = MessageUnknown <-> isStandard v = false.
Proof.
  unfold StandardKind, isStandard, StandardInitiation, StandardResponse, StandardCookieReply,
    StandardTransportData. cbn. unfold StandardInitiation, StandardResponse, StandardCookieReply,
    StandardTransportData.
  repeat (destruct (v =? _); cbn; [by split|]). by split.
Qed.

Lemma FromWire_ToWire v rest : 0 <= v < 4294967296 -> FromWire (ToWire v ++ rest) = Ret v.
Proof.
  intros Hv. unfold FromWire, ToWire. pose proof (len_nonneg rest).
  assert (len (LittleEndian_PutUint32 v ++ rest) = 4 + len rest) as Hl by by rewrite len_app.
  destruct (Z.ltb_spec (len (LittleEndian_PutUint32 v ++ rest)) 4); [lia|].
  rewrite slice_in by lia. cbn [obind]. unfold sub_at. simpl.
  pose proof (LE_PutUint32_Uint32 v []) as H'. simpl in H'. rewrite H'. by rewrite u32_id.
Qed.

(** Splits every comparison of two words in the goal. *)
Ltac decide_words := repeat match goal with
  | |- context [?x =? ?y] => destruct (Z.eqb_spec x y); [try (by subst); try congruence|try congruence]
  end.

(** C26: a compiled profile is a lossless wire codec with no standard type word
    on the wire.  For each of the four WireGuard messages, the sending kernel
    maps its type word to a mixed word that survives the packet encoding, that
    the receiver maps back to the same message and type word, and that no other
    message maps to; and unless the profile allows passthrough, the payload sent
    carries no standard type word. *)
Theorem profile_wire_codec name cfg p w k rest :
  profile_typed cfg -> Compile name cfg = Ret p -> kind_from_standard w = Some k ->
  exists m, profile_mixed_from_kind p k = Some m /\
    FromWire (ToWire m ++ rest) = Ret m /\
    profile_decode_mixed p m = Some (k, w) /\
    (forall m' w', profile_decode_mixed p m' = Some (k, w') -> m' = m /\ w' = w) /\
    (pr_AllowPassthrough cfg = false -> ContainsStandardTypeWord (ToWire m ++ rest) = false).
Proof.
  intros Ht Hc Hk. apply Compile_inv in Hc as (_ & _ & Hm & Hs & Hd & Ha).
  apply mixedValues_typed in Hm; [|done].
  unfold profile_mixed_from_kind, profile_decode_mixed, ContainsStandardTypeWord in *.
  rewrite Hs. unfold Standard. destruct (StandardToMixed p) as [[[m0 m1] m2] m3].
  cbn [words_list] in *.
  rewrite !list.NoDup_cons, !not_elem_of_cons in Hd. destruct_and! Hd.
  rewrite !Forall_cons_iff in Hm. destruct Hm as (H0m & H1m & H2m & H3m & _).
  assert (exists m, [m0; m1; m2; m3] !! Z.to_nat k = Some m /\ 0 < m < 4294967296 /\
    (k = 0 /\ w = 1 \/ k = 1 /\ w = 2 \/ k = 2 /\ w = 3 \/ k = 3 /\ w = 4)) as (m & Hm & Hr & Hkw).
  { unfold kind_from_standard in Hk.
    repeat match type of Hk with context [w =? ?n] => destruct (Z.eqb_spec w n);
      [injection Hk as <-; eexists; split; [done|split; [eassumption|lia]]|] end. done. }
  assert (m ∈ [m0; m1; m2; m3]) as Hin by by eapply list_elem_of_lookup_2.
  exists m. rewrite FromWire_ToWire by lia.
  destruct Hkw as [[-> ->]|[[-> ->]|[[-> ->]|[-> ->]]]]; cbn in Hm; injection Hm as <-;
    (split_and!; [done|done| | |]).
  all: try (intros Hpass; specialize (Ha Hpass _ Hin); apply StandardKind_isStandard in Ha;
    by rewrite bool_decide_true).
  all: try (intros m' w'); decide_words; try done; intros [= <-]; by subst.
Qed.

Lemma profile_wire_codec_witness :
  Compile "p" (mkProfile "wireguard-mix-wire-values-v1" TypeWordProfile_zero "none" false)
    = Ret (mkCompiled "p" WireguardMixWireValuesV1 Standard) /\
  exists m, profile_mixed_from_kind (mkCompiled "p" WireguardMixWireValuesV1 Standard) 3 = Some m /\
    ContainsStandardTypeWord (ToWire m ++ [0; 0]) = false.
Proof.
  split; [by vm_compute|].
  destruct (profile_wire_codec "p"
    (mkProfile "wireguard-mix-wire-values-v1" TypeWordProfile_zero "none" false)
    (mkCompiled "p" WireguardMixWireValuesV1 Standard) 4 3 [0; 0]) as (m & Hm & _ & _ & _ & Hw).
  - repeat constructor; simpl; lia.
  - by vm_compute.
  - reflexivity.
  - exists m. split; [exact Hm|exact (Hw eq_refl)].
Defined.

(** ** Random generation *)

Definition acceptable (v : Z) : Prop := v <> 0 /\ isStandard v = false.

(** The random source delivered the words [ws]. *)
Definition delivers (reads : list (outcome (list Z))) (ws : list Z) : Prop :=
  Forall2 (fun read w => randomUint32 read = Ret w) reads ws.

Lemma draw_value_finds seen reads ws x :
  delivers reads ws -> x ∈ ws -> acceptable x -> x ∉ seen ->
  exists v reads' ws', draw_value seen reads = Some (Ret (v, reads')) /\ delivers reads' ws' /\
    acceptable v /\ (v ∉ seen) /\ v ∈ ws /\ (forall y, y ∈ ws' -> y ∈ ws) /\
    (forall y, y ∈ ws -> acceptable y -> y ∉ seen -> y = v \/ y ∈ ws').
Proof.
  intros Hd. revert x. induction Hd as [|read w reads ws Hr Hd IH]; intros x Hx Ha Hs;
    [by apply elem_of_nil in Hx|].
  simpl. rewrite Hr. destruct (decide (acceptable w /\ w ∉ seen)) as [[[Hw0 Hws] Hw]|Hrej].
  - replace (w =? 0) with false by lia. rewrite Hws, bool_decide_false by done. cbn.
    exists w, reads, ws. split_and!; try done; [by left|intros; by right|].
    by intros y [->|Hy]%elem_of_cons; [left|right].
  - assert (x ∈ ws) as Hx' by (apply elem_of_cons in Hx as [->|Hx]; [|done]; tauto).
    destruct (IH x Hx' Ha Hs) as (v & reads' & ws' & Hdraw & Hd' & Hv & Hvs & Hin & Hsub & Hall).
    exists v, reads', ws'. split_and!; try done.
    + destruct ((w =? 0) || isStandard w) eqn:E; [done|]. rewrite bool_decide_true; [done|].
      apply orb_false_iff in E as [E1 E2]. destruct (decide (w ∈ seen)); [done|].
      destruct Hrej. split; [split; [lia|done]|done].
    + by right.
    + intros y Hy. right. by apply Hsub.
    + intros y [->|Hy]%elem_of_cons Hya Hys; [tauto|]. by apply Hall.
Qed.

Lemma length_filter_ne (v : Z) (m : list Z) :
  NoDup m -> (length m <= S (length (filter (fun y => y <> v) m)))%nat.
Proof.
  assert (forall m : list Z, v ∉ m -> length (filter (fun y => y <> v) m) = length m) as Hall.
  { induction m0 as [|y m0 IH]; [done|]. intros [Hy Hm]%not_elem_of_cons.
    rewrite filter_cons, decide_True by done. simpl. by rewrite IH. }
  induction m as [|y m IH]; [simpl; lia|]. intros [Hy Hm]%list.NoDup_cons.
  rewrite filter_cons. case_decide; simpl; [specialize (IH Hm); lia|].
  subst y. rewrite Hall by done. lia.
Qed.

Lemma draw_values_finds n seen reads ws l :
  delivers reads ws -> NoDup l -> (n <= length l)%nat ->
  (forall x, x ∈ l -> x ∈ ws /\ acceptable x /\ x ∉ seen) ->
  exists vs, draw_values n seen reads = Some (Ret vs) /\ length vs = n /\ NoDup vs /\
    (forall v, v ∈ vs -> v ∈ ws /\ acceptable v /\ v ∉ seen).
Proof.
  revert seen reads ws l. induction n as [|n IH]; intros seen reads ws l Hd Hn Hlen Hl.
  { exists []. split_and!; try done; [apply NoDup_nil_2|by intros ? ?%elem_of_nil]. }
  destruct l as [|x l]; simpl in Hlen; [lia|]. destruct (Hl x) as (Hx & Ha & Hs); [by left|].
  destruct (draw_value_finds seen reads ws x Hd Hx Ha Hs)
    as (v & reads' & ws' & Hdraw & Hd' & Hv & Hvs & Hin & Hsub & Hall).
  destruct (IH (v :: seen) reads' ws' (filter (fun y => y <> v) (x :: l)) Hd')
    as (vs & Hvs' & Hl' & Hn' & Hin').
  - by apply list.NoDup_filter.
  - pose proof (length_filter_ne v (x :: l) Hn). simpl in *. lia.
  - intros y [Hy Hyl]%list_elem_of_filter. destruct (Hl y Hyl) as (Hyw & Hya & Hys).
    destruct (Hall y Hyw Hya Hys) as [->|Hyw']; [done|]. split_and!; try done.
    by apply not_elem_of_cons.
  - exists (v :: vs). simpl. rewrite Hdraw, Hvs'. split_and!; [done|simpl; lia| |].
    + apply list.NoDup_cons. split; [|done]. intros Hvv. destruct (Hin' v Hvv) as (_ & _ & Hno).
      apply Hno. by left.
    + intros y [->|Hy]%elem_of_cons; [done|]. destruct (Hin' y Hy) as (? & ? & ?%not_elem_of_cons).
      split_and!; [by apply Hsub|done|tauto].
Qed.

(** C27: random generation terminates with a profile that compiles: as soon as
    the random source has delivered four distinct usable words, whatever it
    delivered before and between, [GenerateRandom] returns a profile made of
    distinct, non-zero, non-standard delivered words, and that profile compiles
    under every name without needing passthrough. *)
Theorem generate_random_returns reads ws l :
  delivers reads ws -> NoDup l -> (4 <= length l)%nat ->
  (forall x, x ∈ l -> x ∈ ws /\ acceptable x) ->
  exists cfg, GenerateRandom reads = Some (Ret cfg) /\ pr_AllowPassthrough cfg = false /\
    forall name, name <> "" -> exists p, Compile name cfg = Ret p /\
      NoDup (words_list (StandardToMixed p)) /\
      (forall v, v ∈ words_list (StandardToMixed p) -> v ∈ ws /\ acceptable v).
Proof.
  intros Hd Hn Hl Hin.
  destruct (draw_values_finds 4 [] reads ws l Hd Hn Hl) as (vs & Hvs & Hlen & Hnd & Hok).
  { intros x Hx. destruct (Hin x Hx) as [? ?]. split_and!; try done. by intros ?%elem_of_nil. }
  destruct vs as [|w0 [|w1 [|w2 [|w3 [|]]]]]; try done.
  assert (mixedValues (profile_of_words w0 w1 w2 w3 "none") = Ret (w0, w1, w2, w3)) as Hm.
  { unfold mixedValues. cbn. rewrite !(proj2 (Z.eqb_neq _ 0)); [done|..];
      (apply (fun v Hv => proj1 (proj1 (proj2 (Hok v Hv)))); apply list_elem_of_In; simpl; tauto). }
  assert (forall name, name <> "" -> Compile name (profile_of_words w0 w1 w2 w3 "none")
            = Ret (mkCompiled name (w0, w1, w2, w3) Standard)) as Hc.
  { intros name Hname. apply Compile_ok; try done. intros _ v Hv. by apply Hok in Hv as (_ & [_ ?] & _). }
  exists (profile_of_words w0 w1 w2 w3 "none"). unfold GenerateRandom.
  rewrite Hvs, Hc by done. split_and!; try done. intros name Hname. eexists.
  split_and!; [by apply Hc|done|]. intros v Hv. by apply Hok in Hv as (? & ? & _).
Qed.

(** A source that first delivers zero, a standard word and a repetition. *)
Definition sample_reads : list (outcome (list Z)) :=
  [Ret [0; 0; 0; 0]; Ret [7; 0; 0; 0]; Ret [7; 0; 0; 0]; Ret [2; 0; 0; 0]; Ret [8; 1; 0; 0];
   Ret [9; 0; 0; 1]; Ret [10; 0; 0; 0]].

Lemma generate_random_returns_witness :
  delivers sample_reads [0; 7; 7; 2; 264; 16777225; 10] /\
  exists cfg, GenerateRandom sample_reads = Some (Ret cfg).
Proof.
  assert (delivers sample_reads [0; 7; 7; 2; 264; 16777225; 10]) as Hd by repeat constructor.
  split; [exact Hd|].
  destruct (generate_random_returns sample_reads [0; 7; 7; 2; 264; 16777225; 10]
    [7; 264; 16777225; 10] Hd) as (cfg & H & _).
  - apply (bool_decide_unpack _). by vm_compute.
  - simpl. lia.
  - intros x Hx. set_unfold in Hx.
    destruct Hx as [-> | [-> | [-> | [-> | []]]]]; (split; [set_solver|split; [lia|reflexivity]]).
  - exists cfg. exact H.
Defined.
