(* ===== verification/Token.v ===== *)
(** * Profile tokens (internal/profile/profile.go): [EncodeToken],
    [DecodeToken] and the encodings they use.

    Token text is a list of byte values, as a Go string is.  Raw URL base64,
    CRC-32 and the [%08x] rendering are modelled; JSON is reached through the
    two functions of the class [JSONCodec], of which only the round trip of a
    payload is used. *)
From Stdlib Require Import ZArith Lia.
From stdpp Require Import base option list gmap strings numbers.
From S2P Require Import Prelude Config Profile.

(** ** encoding/base64: [RawURLEncoding] *)

Definition b64_char (n : Z) : Z :=
  if n <? 26 then 65 + n else if n <? 52 then 71 + n else if n <? 62 then n - 4
  else if n =? 62 then 45 else 95.

Definition b64_value (c : Z) : option Z :=
  if (65 <=? c) && (c <=? 90) then Some (c - 65)
  else if (97 <=? c) && (c <=? 122) then Some (c - 71)
  else if (48 <=? c) && (c <=? 57) then Some (c + 4)
  else if c =? 45 then Some 62 else if c =? 95 then Some 63 else None.

Fixpoint b64_encode (l : list Z) : list Z :=
  match l with
  | b0 :: b1 :: b2 :: l =>
      b64_char (b0 / 4) :: b64_char (b0 mod 4 * 16 + b1 / 16)
      :: b64_char (b1 mod 16 * 4 + b2 / 64) :: b64_char (b2 mod 64) :: b64_encode l
  | [b0; b1] =>
      [b64_char (b0 / 4); b64_char (b0 mod 4 * 16 + b1 / 16); b64_char (b1 mod 16 * 4)]
  | [b0] => [b64_char (b0 / 4); b64_char (b0 mod 4 * 16)]
  | [] => []
  end.

(** Quanta of four characters; the trailing bits of a short last quantum are
    ignored (the decoder is not strict). *)
Fixpoint b64_decode_values (l : list Z) : option (list Z) :=
  match l with
  | v0 :: v1 :: v2 :: v3 :: l =>
      rest ← b64_decode_values l;
      Some (u8 (v0 * 4 + v1 / 16) :: u8 (v1 * 16 + v2 / 4) :: u8 (v2 * 64 + v3) :: rest)
  | [v0; v1; v2] => Some [u8 (v0 * 4 + v1 / 16); u8 (v1 * 16 + v2 / 4)]
  | [v0; v1] => Some [u8 (v0 * 4 + v1 / 16)]
  | [_] => None
  | [] => Some []
  end.

(** Carriage returns and newlines are skipped; any other character outside the
    alphabet is an error. *)
Definition b64_decode (l : list Z) : outcome (list Z) :=
  match mapM b64_value (filter (fun c => c <> 10 /\ c <> 13) l) with
  | None => Fail "illegal base64 data"
  | Some vs =>
      match b64_decode_values vs with
      | None => Fail "illegal base64 data"
      | Some out => Ret out
      end
  end.

(** ** hash/crc32: [ChecksumIEEE]; fmt: [%08x] *)

Definition crc_bit (crc : Z) : Z :=
  if Z.odd crc then Z.lxor (Z.shiftr crc 1) 0xedb88320 else Z.shiftr crc 1.
Definition crc_byte (crc b : Z) : Z := Nat.iter 8 crc_bit (Z.lxor crc b).
Definition ChecksumIEEE (data : list Z) : Z :=
  Z.lxor (foldl crc_byte 0xffffffff data) 0xffffffff.

Definition hex_digit (n : Z) : Z := if n <? 10 then 48 + n else 87 + n.
Definition hex08 (v : Z) : list Z :=
  map (fun k => hex_digit (Z.shiftr v k mod 16)) [28; 24; 20; 16; 12; 8; 4; 0].

(** ** Tokens *)

Definition dot : Z := 46.
Definition TokenPrefix : list Z := [119; 103; 109; 105; 120; 49].

Record tokenPayload := mkToken {
  tp_Version : Z;
  tp_Initiation : Z;
  tp_Response : Z;
  tp_CookieReply : Z;
  tp_TransportData : Z;
  tp_IndexMode : string
}.

(** [json.Marshal] of a payload and [json.Unmarshal] into a payload. *)
Class JSONCodec := {
  Marshal : tokenPayload -> list Z;
  Unmarshal : list Z -> outcome tokenPayload
}.

Definition payload_typed (p : tokenPayload) : Prop :=
  tp_Version p = 1 /\ tp_IndexMode p = "none" /\
  Forall (fun v => 0 <= v < 4294967296)
    [tp_Initiation p; tp_Response p; tp_CookieReply p; tp_TransportData p].

(** Unmarshalling what was marshalled gives the payload back. *)
Class JSONCodecOk `{JSONCodec} : Prop := {
  Marshal_bytes p : payload_typed p -> bytes_ok (Marshal p);
  Unmarshal_Marshal p : payload_typed p -> Unmarshal (Marshal p) = Ret p
}.

(** [splitToken]: the fields between dots; [field] is the current one. *)
Fixpoint split_token (field token : list Z) : list (list Z) :=
  match token with
  | [] => [field]
  | c :: token => if c =? dot then field :: split_token [] token
                  else split_token (field ++ [c]) token
  end.
Definition splitToken (token : list Z) : list (list Z) := split_token [] token.

Section tokens.
Context `{JSONCodec}.

Definition EncodeToken (cfg : Profile) : outcome (list Z) :=
  check! Compile "token" cfg in
  let! values := mixedValues cfg in
  let '(w0, w1, w2, w3) := values in
  let data := Marshal (mkToken 1 w0 w1 w2 w3 "none") in
  let sum := ChecksumIEEE data in
  Ret (TokenPrefix ++ [dot] ++ b64_encode data ++ [dot] ++ hex08 sum).

Definition decodeTokenParts (encoded checksum : list Z) : outcome Profile :=
  let! data := b64_decode encoded in
  let want := hex08 (ChecksumIEEE data) in
  fail_if negb (bool_decide (checksum = want)) with "token checksum mismatch" in
  let! payload := Unmarshal data in
  fail_if negb (tp_Version payload =? 1) with "unsupported token version" in
  let mode := defaultString (tp_IndexMode payload) "none" in
  let cfg := profile_of_words (tp_Initiation payload) (tp_Response payload)
               (tp_CookieReply payload) (tp_TransportData payload) mode in
  check! Compile "token" cfg in
  Ret cfg.

Definition DecodeToken (token : list Z) : outcome Profile :=
  match splitToken token with
  | [prefix; encoded; checksum] =>
      fail_if negb (bool_decide (prefix = TokenPrefix)) with "invalid profile token format" in
      decodeTokenParts encoded checksum
  | _ => Fail "invalid profile token format"
  end.
End tokens.

(** ** Lemmas on the encodings *)

Lemma b64_value_char n : 0 <= n < 64 -> b64_value (b64_char n) = Some n.
Proof.
  intros Hn. unfold b64_char.
  repeat match goal with |- context [if ?b then _ else _] => destruct b eqn:? end; unfold b64_value;
    repeat match goal with |- context [if ?b then _ else _] => destruct b eqn:? end;
    first [exfalso; lia | f_equal; lia].
Qed.

(** The characters of the alphabet: no separator and no line break. *)
Definition token_char (c : Z) : Prop := c <> dot /\ c <> 10 /\ c <> 13.

Lemma b64_char_token n : 0 <= n < 64 -> token_char (b64_char n).
Proof.
  intros Hn. unfold token_char, dot, b64_char.
  repeat match goal with |- context [if ?b then _ else _] => destruct b eqn:? end; lia.
Qed.

Lemma hex08_token v : Forall token_char (hex08 v).
Proof.
  unfold hex08. apply Forall_map, Forall_forall. intros k _. cbn.
  pose proof (Z.mod_pos_bound (Z.shiftr v k) 16 ltac:(lia)).
  unfold token_char, dot, hex_digit. destruct (_ <? 10); lia.
Qed.

(** Induction on a list three bytes at a time. *)
Lemma list_ind3 {A} (P : list A -> Prop) :
  P [] -> (forall a, P [a]) -> (forall a b, P [a; b]) ->
  (forall a b c l, P l -> P (a :: b :: c :: l)) -> forall l, P l.
Proof.
  intros H0 H1 H2 H3. fix IH 1. intros [|a [|b [|c l]]]; [done|done|done|].
  apply H3, IH.
Qed.

Lemma b64_group n0 n1 n2 : byte_ok n0 -> byte_ok n1 -> byte_ok n2 ->
  0 <= n0 / 4 < 64 /\ 0 <= n0 mod 4 * 16 + n1 / 16 < 64 /\
  0 <= n1 mod 16 * 4 + n2 / 64 < 64 /\ 0 <= n2 mod 64 < 64 /\
  u8 (n0 / 4 * 4 + (n0 mod 4 * 16 + n1 / 16) / 16) = n0 /\
  u8 ((n0 mod 4 * 16 + n1 / 16) * 16 + (n1 mod 16 * 4 + n2 / 64) / 4) = n1 /\
  u8 ((n1 mod 16 * 4 + n2 / 64) * 64 + n2 mod 64) = n2.
Proof.
  unfold byte_ok, u8. change (2 ^ 8) with 256. intros.
  split_and!; Z.div_mod_to_equations; lia.
Qed.

Lemma b64_spec l : bytes_ok l ->
  Forall token_char (b64_encode l) /\
  exists vs, mapM b64_value (b64_encode l) = Some vs /\ b64_decode_values vs = Some l.
Proof.
  induction l as [|a|a b|a b c l IH] using list_ind3; intros Hb;
    unfold bytes_ok in Hb; rewrite ?Forall_cons_iff in Hb.
  - split; [constructor|]. by exists [].
  - destruct Hb as [Ha _]. destruct (b64_group a 0 0) as (R0 & R1 & _ & _ & E0 & _);
      [done|by unfold byte_ok; lia..|]. rewrite Z.div_0_l, Z.add_0_r in R1, E0 by lia.
    split; [repeat constructor; by apply b64_char_token|].
    exists [a / 4; a mod 4 * 16]. cbn [b64_encode mapM]. rewrite !b64_value_char by done.
    split; [done|]. cbn. by rewrite E0.
  - destruct Hb as (Ha & Hb & _). destruct (b64_group a b 0) as (R0 & R1 & R2 & _ & E0 & E1 & _);
      [done|done|by unfold byte_ok; lia|]. rewrite Z.div_0_l, Z.add_0_r in R2, E1 by lia.
    split; [repeat constructor; by apply b64_char_token|].
    exists [a / 4; a mod 4 * 16 + b / 16; b mod 16 * 4]. cbn [b64_encode mapM].
    rewrite !b64_value_char by done. split; [done|]. cbn. by rewrite E0, E1.
  - destruct Hb as (Ha & Hb & Hc & Hl). destruct (IH Hl) as [Ht (vs & Hv & Hd)].
    destruct (b64_group a b c) as (R0 & R1 & R2 & R3 & E0 & E1 & E2); try done.
    split; [cbn [b64_encode]; repeat (constructor; [by apply b64_char_token|]); done|].
    exists (a / 4 :: a mod 4 * 16 + b / 16 :: b mod 16 * 4 + c / 64 :: c mod 64 :: vs).
    cbn [b64_encode mapM]. rewrite !b64_value_char, Hv by done. split; [done|].
    cbn [b64_decode_values]. rewrite Hd. cbn. by rewrite E0, E1, E2.
Qed.

Lemma b64_roundtrip l : bytes_ok l -> b64_decode (b64_encode l) = Ret l.
Proof.
  intros Hl. destruct (b64_spec l Hl) as [Ht (vs & Hv & Hd)]. unfold b64_decode.
  replace (filter _ (b64_encode l)) with (b64_encode l); [by rewrite Hv, Hd|].
  clear -Ht. induction Ht as [|c m [_ Hc] _ IH]; [done|].
  rewrite filter_cons, decide_True by done. by rewrite <- IH.
Qed.

Lemma split_token_field field f rest :
  Forall token_char f -> split_token field (f ++ dot :: rest) = (field ++ f) :: splitToken rest.
Proof.
  intros Hf. revert field. induction Hf as [|c f [Hc _] _ IH]; intros field; simpl.
  - by rewrite app_nil_r.
  - destruct (Z.eqb_spec c dot); [done|]. rewrite IH. by rewrite <- app_assoc.
Qed.

Lemma split_token_last field f : Forall token_char f -> split_token field f = [field ++ f].
Proof.
  intros Hf. revert field. induction Hf as [|c f [Hc _] _ IH]; intros field; simpl.
  - by rewrite app_nil_r.
  - destruct (Z.eqb_spec c dot); [done|]. rewrite IH. by rewrite <- app_assoc.
Qed.

Lemma TokenPrefix_token : Forall token_char TokenPrefix.
Proof. unfold TokenPrefix, token_char, dot. repeat constructor; lia. Qed.

(** A token splits into exactly the three fields it was built from. *)
Lemma splitToken_token body sum :
  bytes_ok body ->
  splitToken (TokenPrefix ++ [dot] ++ b64_encode body ++ [dot] ++ hex08 sum)
  = [TokenPrefix; b64_encode body; hex08 sum].
Proof.
  intros Hb. destruct (b64_spec body Hb) as [Ht _]. unfold splitToken.
  assert (forall l, [dot] ++ l = dot :: l) as Hdot by done. rewrite !Hdot.
  rewrite split_token_field by apply TokenPrefix_token. unfold splitToken.
  rewrite split_token_field by done. unfold splitToken.
  by rewrite split_token_last by apply hex08_token.
Qed.

(** ** Token round trip *)

Section roundtrip.
Context `{JSONCodecOk}.

(** What decoding an encoded token does: the token is well formed, so the
    outcome is the compilation of the profile's four words without passthrough. *)
Lemma decode_encoded cfg p w0 w1 w2 w3 :
  profile_typed cfg -> Compile "token" cfg = Ret p -> mixedValues cfg = Ret (w0, w1, w2, w3) ->
  exists token, EncodeToken cfg = Ret token /\
    DecodeToken token =
      (let cfg' := profile_of_words w0 w1 w2 w3 "none" in check! Compile "token" cfg' in Ret cfg').
Proof.
  intros Ht Hc Hm. pose proof (mixedValues_typed cfg _ Ht Hm) as Hw.
  unfold EncodeToken. rewrite Hc, Hm. cbn [obind]. eexists. split; [done|].
  set (payload := mkToken 1 w0 w1 w2 w3 "none").
  assert (payload_typed payload) as Hp.
  { split_and!; [done|done|]. eapply Forall_impl; [|exact Hw]. simpl. lia. }
  unfold DecodeToken. rewrite splitToken_token by by apply Marshal_bytes.
  rewrite bool_decide_true by done. cbn [negb]. unfold decodeTokenParts.
  rewrite b64_roundtrip by by apply Marshal_bytes. cbn [obind].
  rewrite bool_decide_true by done. cbn [negb]. by rewrite Unmarshal_Marshal.
Qed.

Lemma mixedValues_words w0 w1 w2 w3 :
  Forall (fun v => 0 < v < 4294967296) [w0; w1; w2; w3] ->
  mixedValues (profile_of_words w0 w1 w2 w3 "none") = Ret (w0, w1, w2, w3).
Proof.
  rewrite !Forall_cons_iff. intros (H0' & H1' & H2' & H3' & _). unfold mixedValues. cbn.
  by rewrite !(proj2 (Z.eqb_neq _ 0)) by lia.
Qed.

(** Profile tokens round trip.  Every profile that compiles without
    needing passthrough encodes to a token, and decoding that token (splitting,
    base64, checksum, JSON and recompilation included) gives a profile that
    compiles to the same mapping, under every name. *)
Theorem token_roundtrip cfg p :
  profile_typed cfg -> Compile "token" cfg = Ret p ->
  (forall v, v ∈ words_list (StandardToMixed p) -> isStandard v = false) ->
  exists token cfg', EncodeToken cfg = Ret token /\ DecodeToken token = Ret cfg' /\
    pr_AllowPassthrough cfg' = false /\
    forall name, name <> "" -> Compile name cfg' = Compile name cfg.
Proof.
  intros Ht Hc Hs. pose proof (Compile_inv _ _ _ Hc) as (_ & Hi & Hm & _ & Hd & _).
  destruct (StandardToMixed p) as [[[w0 w1] w2] w3].
  destruct (decode_encoded cfg p w0 w1 w2 w3 Ht Hc Hm) as (token & He & Hdec).
  pose proof (mixedValues_words w0 w1 w2 w3 (mixedValues_typed cfg _ Ht Hm)) as Hm'.
  assert (forall name, name <> "" ->
    Compile name (profile_of_words w0 w1 w2 w3 "none") = Compile name cfg) as Hsame.
  { intros name Hn. rewrite !(Compile_ok name _ (w0, w1, w2, w3)); done || by intros _. }
  exists token, (profile_of_words w0 w1 w2 w3 "none"). split_and!; try done.
  rewrite Hdec. cbv zeta. rewrite Hsame, Hc by done. done.
Qed.

(** Tokens do not carry the passthrough permission.  A profile that compiles
    only because it allows passthrough (one of its words is a standard type
    word) still encodes to a token, without an error, but that token is
    rejected by [DecodeToken]. *)
Theorem passthrough_token_rejected cfg p v :
  profile_typed cfg -> Compile "token" cfg = Ret p ->
  v ∈ words_list (StandardToMixed p) -> isStandard v = true ->
  exists token e, EncodeToken cfg = Ret token /\ DecodeToken token = Fail e.
Proof.
  intros Ht Hc Hv Hs. pose proof (Compile_inv _ _ _ Hc) as (_ & Hi & Hm & _ & Hd & _).
  destruct (StandardToMixed p) as [[[w0 w1] w2] w3].
  destruct (decode_encoded cfg p w0 w1 w2 w3 Ht Hc Hm) as (token & He & Hdec).
  exists token. rewrite Hdec. cbv zeta.
  destruct (Compile "token" (profile_of_words w0 w1 w2 w3 "none")) as [p'|e|] eqn:E.
  - pose proof (Compile_inv _ _ _ E) as (_ & _ & Hm' & _ & _ & Ha).
    rewrite mixedValues_words in Hm' by exact (mixedValues_typed cfg _ Ht Hm).
    injection Hm' as Hm'. rewrite <- Hm' in Ha. rewrite (Ha eq_refl v Hv) in Hs. done.
  - by exists e.
  - exfalso. eapply Compile_no_panic; exact E.
Qed.
End roundtrip.

(** ** Witnesses: a codec that renders the four words in little-endian order. *)

#[local] Instance sample_codec : JSONCodec := {|
  Marshal p := LittleEndian_PutUint32 (tp_Initiation p) ++ LittleEndian_PutUint32 (tp_Response p) ++
    LittleEndian_PutUint32 (tp_CookieReply p) ++ LittleEndian_PutUint32 (tp_TransportData p);
  Unmarshal data :=
    let! i := LittleEndian_Uint32 data in
    let! r := LittleEndian_Uint32 (drop 4 data) in
    let! c := LittleEndian_Uint32 (drop 8 data) in
    let! t := LittleEndian_Uint32 (drop 12 data) in
    Ret (mkToken 1 i r c t "none")
|}.

#[local] Instance sample_codec_ok : JSONCodecOk.
Proof.
  split; intros [v i r c t m] (Hv & Hm & Hw); cbn in *; subst.
  - repeat constructor; apply byte_ok_u8.
  - rewrite !Forall_cons_iff in Hw. destruct Hw as (Hi & Hr & Hc & Ht & _).
    pose proof (fun v => LE_PutUint32_Uint32 v []) as Hle. cbn in Hle.
    assert (forall v, 0 <= v < 4294967296 ->
      Z.lor (Z.lor (u8 v) (Z.shiftl (u8 (Z.shiftr v 8)) 8))
        (Z.lor (Z.shiftl (u8 (Z.shiftr v 16)) 16) (Z.shiftl (u8 (Z.shiftr v 24)) 24)) = v) as Hw.
    { intros v Hv. specialize (Hle v). injection Hle as ->. by apply u32_id. }
    by rewrite !Hw.
Qed.

Definition sample_profile : Profile := mkProfile "" (mkTypeWords 100 200 300 400) "" false.
Definition sample_passthrough : Profile := mkProfile "" (mkTypeWords 1 200 300 400) "" true.

Lemma token_roundtrip_witness :
  exists token cfg', EncodeToken sample_profile = Ret token /\ DecodeToken token = Ret cfg' /\
    Compile "x" cfg' = Compile "x" sample_profile.
Proof.
  destruct (token_roundtrip sample_profile (mkCompiled "token" (100, 200, 300, 400) Standard))
    as (token & cfg' & He & Hd & _ & Hc).
  - repeat constructor; simpl; lia.
  - by vm_compute.
  - intros v Hv. set_unfold in Hv. by destruct Hv as [-> | [-> | [-> | [-> | []]]]].
  - exists token, cfg'. split; [exact He|]. split; [exact Hd|]. by apply Hc.
Defined.

Lemma passthrough_token_rejected_witness :
  exists token e, EncodeToken sample_passthrough = Ret token /\ DecodeToken token = Fail e.
Proof.
  apply (passthrough_token_rejected sample_passthrough
           (mkCompiled "token" (1, 200, 300, 400) Standard) 1).
  - repeat constructor; simpl; lia.
  - by vm_compute.
  - by left.
  - reflexivity.
Defined.

(** The checksum of the standard check string. *)
Example crc32_check : ChecksumIEEE [49; 50; 51; 52; 53; 54; 55; 56; 57] = 0xcbf43926.
Proof. reflexivity. Qed.
