(* ===== verification/Control.v ===== *)
(** * Control state (internal/control/state.go): from a validated configuration
    and the runtime to profiles, ciphers, WireGuard and underlay states and the
    rule tables of one generation.

    The collaborators of [BuildState] are the fields of the class [ControlEnv]:
    the WireGuard config loader, the runtime provider, the underlay resolver,
    the file system and the hash functions of key derivation. *)
From Stdlib Require Import ZArith Lia.
From stdpp Require Import base option list gmap strings numbers sorting.
From S2P Require Import Prelude Config Profile.

(** ** Collaborators *)

(** [wgconfig.Interface]: [None] is a nil pointer. *)
Record Interface := mkInterface { if_FwMark : option Z; if_ListenPort : option Z }.
(** [runtime.Device], as far as [BuildState] reads it. *)
Record DeviceInfo := mkDevice { dev_FirewallMark : Z; dev_ListenPort : Z; dev_IfIndex : Z }.
(** [underlay.Resolved], as far as [BuildState] reads it. *)
Record Resolved := mkResolved {
  res_IfName : string; res_IfIndex : Z; res_LinkType : string; res_Role : string
}.

Class ControlEnv := {
  loadWG : string -> outcome Interface;
  Device : string -> outcome DeviceInfo;
  Resolve : Underlay -> outcome Resolved;
  ReadFile : string -> outcome (list Z);
  StdEncoding_DecodeString : list Z -> outcome (list Z);
  (** [io.ReadFull] of the first [n] bytes of the HKDF reader for a secret. *)
  hkdf_read : list Z -> Z -> outcome (list Z);
  md5_Sum : list Z -> list Z
}.

(** ** Data *)

Record ProfileState := mkProfileState { ps_ID : Z; ps_Name : string; ps_words : words; ps_reverse : words }.

Record CipherState := mkCipherState {
  cs_ID : Z; cs_Name : string; cs_Mode : string; cs_Auth : string; cs_Scope : string;
  cs_KeyDerivation : string; cs_KeyLen : Z; cs_KeyMask : Z; cs_MaxBytes : Z; cs_Flags : Z;
  cs_Key : list Z
}.

(** [ws_FakeTCP] stands for the [FakeTCP*] fields, copied from the transport
    with the durations in nanoseconds. *)
Record WireGuardState := mkWireGuardState {
  ws_ID : Z; ws_Name : string; ws_ConfigPath : string; ws_Profile : string; ws_ProfileID : Z;
  ws_Cipher : string; ws_CipherID : Z; ws_ConfigFwMark : Z; ws_ConfigListenPort : Z;
  ws_RuntimeFirewallMark : Z; ws_RuntimeListenPort : Z; ws_RuntimeIfIndex : Z;
  ws_RuntimeStateAvailable : bool; ws_TransportMode : string; ws_ICMPRole : string; ws_ICMPID : Z;
  ws_FakeTCP : FakeTCPTransport
}.

Record UnderlayState := mkUnderlayState {
  us_ID : Z; us_Name : string; us_Type : string; us_Parser : string; us_IfName : string;
  us_IfIndex : Z; us_LinkType : string; us_Role : string; us_Resolved : bool
}.

Record ManagedFwmarkRule := mkManaged {
  mf_Generation : Z; mf_FwMark : Z; mf_UnderlayIfIndex : Z; mf_ActionOnMiss : string
}.
Record EgressRule := mkEgress {
  eg_Generation : Z; eg_Family : string; eg_FwMark : Z; eg_SourcePort : Z; eg_UnderlayIfIndex : Z;
  eg_ProfileID : Z; eg_CipherID : Z; eg_WGID : Z; eg_Action : string; eg_TransportMode : string;
  eg_ICMPRole : string; eg_ICMPID : Z
}.
Record IngressListener := mkIngress {
  in_Generation : Z; in_Family : string; in_DestinationPort : Z; in_UnderlayIfIndex : Z;
  in_ProfileID : Z; in_CipherID : Z; in_WGID : Z; in_Action : string; in_TransportMode : string
}.
Record ICMPListener := mkICMPListener {
  ic_Generation : Z; ic_Family : string; ic_UnderlayIfIndex : Z; ic_ICMPType : Z; ic_ICMPID : Z;
  ic_ListenPort : Z; ic_ProfileID : Z; ic_WGID : Z; ic_Action : string; ic_Role : string;
  ic_Flags : Z
}.

Definition ICMPListenerFlagWildcardID : Z := Z.shiftl 1 0.
Definition CipherFlagPrefix : Z := Z.shiftl 1 0.

Record State := mkState {
  st_Generation : Z;
  st_AttachmentBackend : string;
  st_ChecksumBackend : string;
  st_Profiles : list ProfileState;
  st_Ciphers : list CipherState;
  st_WireGuards : list WireGuardState;
  st_Underlays : list UnderlayState;
  st_ManagedFwmarks : list ManagedFwmarkRule;
  st_EgressRules : list EgressRule;
  st_IngressListeners : list IngressListener;
  st_ICMPListeners : list ICMPListener
}.

(** ** Cipher keys *)

(** The bytes of a Go string constant or field. *)
Definition string_bytes (s : string) : list Z :=
  map (fun a => Z.of_N (Ascii.N_of_ascii a)) (String.list_ascii_of_string s).

(** The UTF-8 encodings [strings.TrimSpace] removes. *)
Definition space_runes : list (list Z) :=
  [[9]; [10]; [11]; [12]; [13]; [32]; [194; 133]; [194; 160]; [225; 154; 128];
   [226; 128; 128]; [226; 128; 129]; [226; 128; 130]; [226; 128; 131]; [226; 128; 132];
   [226; 128; 133]; [226; 128; 134]; [226; 128; 135]; [226; 128; 136]; [226; 128; 137];
   [226; 128; 138]; [226; 128; 168]; [226; 128; 169]; [226; 128; 175]; [226; 129; 159];
   [227; 128; 128]].

Definition strip_one (runes : list (list Z)) (l : list Z) : option (list Z) :=
  match filter (fun r => take (length r) l = r) runes with
  | r :: _ => Some (drop (length r) l)
  | [] => None
  end.
Fixpoint strip_left (fuel : nat) (runes : list (list Z)) (l : list Z) : list Z :=
  match fuel with
  | O => l
  | S fuel => match strip_one runes l with Some l => strip_left fuel runes l | None => l end
  end.
Definition TrimSpace (l : list Z) : list Z :=
  let l := strip_left (length l) space_runes l in
  rev (strip_left (length l) (map (@rev Z) space_runes) (rev l)).

Definition base64_prefix : list Z := [98; 97; 115; 101; 54; 52; 58].

Definition cipherSecretBytes `{ControlEnv} (c : Cipher) : outcome (list Z) :=
  let! secret :=
    (if negb (str_empty (ci_SecretFile c)) then
       let! secret := ReadFile (ci_SecretFile c) in
       Ret (TrimSpace secret)
     else if negb (str_empty (ci_Secret c)) then
       let raw := string_bytes (ci_Secret c) in
       if bool_decide (take 7 raw = base64_prefix) then StdEncoding_DecodeString (drop 7 raw)
       else Ret raw
     else if negb (str_empty (ci_Password c)) then Ret (string_bytes (ci_Password c))
     else Fail "missing secret material") in
  fail_if len secret =? 0 with "secret material is empty" in
  Ret secret.

(** The [KeyLen] bytes [base], repeated to fill the 256-byte array. *)
Definition expand_key (keyLen : Z) (base : list Z) : list Z :=
  map (fun i => byte_at base (Z.of_nat i mod keyLen)) (seq 0 256).

Definition deriveCipherKey `{ControlEnv} (c : Cipher) : outcome (list Z) :=
  fail_if negb (bool_decide (ci_KeyLen c ∈ [16; 32; 64; 256]))
    with "unsupported key_len" in
  let! secret := cipherSecretBytes c in
  let! base :=
    (if String.eqb (ci_KeyDerivation c) "wgmx-hkdf256-v1" then hkdf_read secret (ci_KeyLen c)
     else if String.eqb (ci_KeyDerivation c) "udp2raw-md5-key1" then
       let sum := md5_Sum (secret ++ [107; 101; 121; 49]) in
       Ret (map (fun i => byte_at sum (Z.of_nat i mod len sum)) (seq 0 (Z.to_nat (ci_KeyLen c))))
     else Fail "unsupported key_derivation") in
  Ret (expand_key (ci_KeyLen c) base).

Definition compile_cipher `{ControlEnv} (name : string) (c : Cipher) : outcome CipherState :=
  let! key := deriveCipherKey c in
  let flags := if String.eqb (ci_Scope c) "wg-payload-prefix" then Z.lor 0 CipherFlagPrefix else 0 in
  Ret (mkCipherState 0 name (ci_Mode c) (ci_Auth c) (ci_Scope c) (ci_KeyDerivation c) (ci_KeyLen c)
         (u32 (ci_KeyLen c - 1)) (ci_MaxBytes c) flags key).

Fixpoint compileCiphers `{ControlEnv} (order : list string) (ciphers : gmap string Cipher)
    : outcome (gmap string CipherState) :=
  match order with
  | [] => Ret ∅
  | name :: order =>
      match ciphers !! name with
      | None => compileCiphers order ciphers
      | Some c =>
          let! compiled := compile_cipher name c in
          let! out := compileCiphers order ciphers in
          Ret (<[name := compiled]> out)
      end
  end.

(** ** Identifiers: positions in the sorted names, from 1 *)

Definition string_leb (a b : string) : Prop := String.leb a b = true.
#[export] Instance string_leb_dec a b : Decision (string_leb a b).
Proof. unfold string_leb. apply _. Defined.

Definition sorted_names {A} (m : gmap string A) : list string :=
  merge_sort string_leb (map fst (map_to_list m)).
Definition sortedProfileNames : gmap string Compiled -> list string := sorted_names.
Definition sortedCipherNames : gmap string CipherState -> list string := sorted_names.

Definition ids_of (names : list string) : gmap string Z :=
  list_to_map (imap (fun i name => (name, u32 (Z.of_nat i + 1))) names).
Definition assignProfileIDs (profiles : gmap string Compiled) : gmap string Z :=
  ids_of (sortedProfileNames profiles).
Definition assignCipherIDs (ciphers : gmap string CipherState) : gmap string Z :=
  ids_of (sortedCipherNames ciphers).

(** A lookup of a Go map with zero default. *)
Definition id_of (ids : gmap string Z) (name : string) : Z := default 0 (ids !! name).

(** ** Underlays *)

Definition normalizeParser (parser : string) : string :=
  if str_empty parser then "auto" else parser.

Definition hasPrefix (value prefix : string) : bool := String.prefix prefix value.

Definition inferParser (r : Resolved) : string :=
  if one_of (res_LinkType r) ["ppp"; "tun"; "ipip"; "sit"; "gre"; "ip6gre"; "xfrm"] then "l3"
  else if one_of (res_LinkType r) ["ethernet"; "device"; "veth"; "bridge"; "vlan"; "macvlan";
            "macvtap"; "bond"; "team"; "dummy"] then "ethernet"
  else if negb (str_empty (res_IfName r)) &&
          (hasPrefix (res_IfName r) "ppp" || hasPrefix (res_IfName r) "pppoe-") then "l3"
  else "auto".

Section build.
Context `{ControlEnv}.

(** [i] is the position, [seen] the interface indexes resolved before. *)
Fixpoint build_underlays (overlap : string) (offline : bool) (i : Z) (seen : list Z)
    (l : list Underlay) : outcome (list UnderlayState) :=
  match l with
  | [] => Ret []
  | u :: l =>
      if offline then
        let! rest := build_underlays overlap offline (i + 1) seen l in
        Ret (mkUnderlayState (u32 (i + 1)) (ul_Name u) (ul_Type u) (normalizeParser (ul_Parser u))
               "" 0 "" "" false :: rest)
      else
        let! resolved := Resolve u in
        let parser := if one_of (ul_Parser u) [""; "auto"] then inferParser resolved
                      else normalizeParser (ul_Parser u) in
        fail_if negb (res_IfIndex resolved =? 0) && bool_decide (res_IfIndex resolved ∈ seen) &&
                String.eqb overlap "reject" with "underlay overlaps" in
        let seen := if res_IfIndex resolved =? 0 then seen else res_IfIndex resolved :: seen in
        let! rest := build_underlays overlap offline (i + 1) seen l in
        Ret (mkUnderlayState (u32 (i + 1)) (ul_Name u) (ul_Type u) parser (res_IfName resolved)
               (res_IfIndex resolved) (res_LinkType resolved) (res_Role resolved) true :: rest)
  end.

Definition buildUnderlayStates (cfg : Config) (offline : bool) : outcome (list UnderlayState) :=
  build_underlays (c_UnderlayOverlapPolicy cfg) offline 0 [] (c_Underlays cfg).

(** ** WireGuard states *)

Definition buildWireGuardState (cfg : Config) (wg : WireGuard) (wgID profileID cipherID : Z)
    (offline : bool) : outcome WireGuardState :=
  let! parsed := loadWG (wg_Config wg) in
  match if_FwMark parsed with
  | None =>
      if String.eqb (c_FwmarkPolicyMode cfg) "config-required" then Fail "missing required FwMark"
      else Fail "fwmark policy is unsupported in MVP"
  | Some mark =>
      fail_if mark =? 0 with "config FwMark is zero/off" in
      let t := wg_Transport wg in
      let state := fun runtimeMark runtimePort runtimeIf available =>
        mkWireGuardState wgID (wg_Name wg) (wg_Config wg) (wg_Profile wg) profileID (wg_Cipher wg)
          cipherID mark (default 0 (if_ListenPort parsed)) runtimeMark runtimePort runtimeIf available
          (tr_Mode t) (icmp_Role (tr_ICMP t)) (icmp_ID (tr_ICMP t)) (tr_FakeTCP t) in
      if offline then Ret (state 0 0 0 false)
      else
        let! dev := Device (wg_Name wg) in
        fail_if dev_FirewallMark dev =? 0 with "runtime FirewallMark is zero/off" in
        fail_if rt_StrictRuntimeFwmark (c_Runtime cfg) && negb (dev_FirewallMark dev =? mark)
          with "config FwMark does not match runtime FirewallMark" in
        fail_if dev_ListenPort dev =? 0 with "runtime ListenPort is zero" in
        Ret (state (dev_FirewallMark dev) (dev_ListenPort dev) (dev_IfIndex dev) true)
  end.

Fixpoint build_wireguards (cfg : Config) (profileIDs cipherIDs : gmap string Z) (offline : bool)
    (i : Z) (l : list WireGuard) : outcome (list WireGuardState) :=
  match l with
  | [] => Ret []
  | wg :: l =>
      let! s := buildWireGuardState cfg wg (u32 (i + 1)) (id_of profileIDs (wg_Profile wg))
                  (id_of cipherIDs (wg_Cipher wg)) offline in
      let! rest := build_wireguards cfg profileIDs cipherIDs offline (i + 1) l in
      Ret (s :: rest)
  end.
End build.

Definition inactive (u : UnderlayState) : bool := one_of (us_Role u) ["parse_only"; "disabled"].

Definition validateFakeTCPUnderlayParsers (wgs : list WireGuardState) (us : list UnderlayState)
    : outcome unit :=
  if negb (existsb (fun wg => String.eqb (ws_TransportMode wg) "faketcp") wgs) then Ret tt
  else
    fail_if existsb (fun u => negb (inactive u) && us_Resolved u &&
                              negb (one_of (us_Parser u) ["ethernet"; "l3"])) us
      with "faketcp underlay must select parser:ethernet or parser:l3" in
    Ret tt.

(** ** Rules *)

Record Rules := mkRules {
  r_Managed : list ManagedFwmarkRule;
  r_Egress : list EgressRule;
  r_Ingress : list IngressListener;
  r_ICMP : list ICMPListener
}.

Definition egress_rule (gen : Z) (wg : WireGuardState) (u : UnderlayState) (family : string)
    : EgressRule :=
  mkEgress gen family (ws_RuntimeFirewallMark wg) (ws_RuntimeListenPort wg) (us_IfIndex u)
    (ws_ProfileID wg) (ws_CipherID wg) (ws_ID wg) "rewrite" (ws_TransportMode wg) (ws_ICMPRole wg)
    (ws_ICMPID wg).
Definition ingress_listener (gen : Z) (wg : WireGuardState) (u : UnderlayState)
    (family action : string) : IngressListener :=
  mkIngress gen family (ws_RuntimeListenPort wg) (us_IfIndex u) (ws_ProfileID wg) (ws_CipherID wg)
    (ws_ID wg) action (ws_TransportMode wg).
Definition icmp_listener (gen : Z) (wg : WireGuardState) (u : UnderlayState) (family : string)
    : ICMPListener :=
  let icmpType := if String.eqb (ws_ICMPRole wg) "client" then 0 else 8 in
  let server := String.eqb (ws_ICMPRole wg) "server" in
  mkICMPListener gen family (us_IfIndex u) icmpType (if server then 0 else ws_ICMPID wg)
    (ws_RuntimeListenPort wg) (ws_ProfileID wg) (ws_ID wg) "rewrite" (ws_ICMPRole wg)
    (if server then ICMPListenerFlagWildcardID else 0).

(** The body of the loop over families. *)
Definition family_rules (gen : Z) (wg : WireGuardState) (u : UnderlayState) (r : Rules)
    (family : string) : Rules :=
  if String.eqb (ws_TransportMode wg) "icmp" then
    let r := mkRules (r_Managed r) (r_Egress r)
               (r_Ingress r ++ [ingress_listener gen wg u family "drop"]) (r_ICMP r) in
    if String.eqb family "ipv6" then r
    else mkRules (r_Managed r) (r_Egress r ++ [egress_rule gen wg u family]) (r_Ingress r)
           (r_ICMP r ++ [icmp_listener gen wg u family])
  else mkRules (r_Managed r) (r_Egress r ++ [egress_rule gen wg u family])
         (r_Ingress r ++ [ingress_listener gen wg u family "rewrite"]) (r_ICMP r).

Definition families (wg : WireGuardState) : list string :=
  if String.eqb (ws_TransportMode wg) "faketcp" then ["ipv4"] else ["ipv4"; "ipv6"].

Definition underlay_rules (gen : Z) (onMiss : string) (wg : WireGuardState) (r : Rules)
    (u : UnderlayState) : Rules :=
  if negb (us_Resolved u) || inactive u then r
  else
    let r := mkRules (r_Managed r ++ [mkManaged gen (ws_RuntimeFirewallMark wg) (us_IfIndex u) onMiss])
               (r_Egress r) (r_Ingress r) (r_ICMP r) in
    foldl (family_rules gen wg u) r (families wg).

Definition wireguard_rules (gen : Z) (onMiss : string) (us : list UnderlayState) (r : Rules)
    (wg : WireGuardState) : Rules :=
  if negb (ws_RuntimeStateAvailable wg) then r else foldl (underlay_rules gen onMiss wg) r us.

Definition buildRules (gen : Z) (onMiss : string) (wgs : list WireGuardState)
    (us : list UnderlayState) : Rules :=
  foldl (wireguard_rules gen onMiss us) (mkRules [] [] [] []) wgs.

(** ** Uniqueness of rule keys *)

Definition egressKey (r : EgressRule) := (eg_Family r, eg_FwMark r, eg_SourcePort r, eg_UnderlayIfIndex r).
Definition ingressKey (r : IngressListener) := (in_Family r, in_DestinationPort r, in_UnderlayIfIndex r).
Definition icmpKey (r : ICMPListener) :=
  (ic_Family r, ic_UnderlayIfIndex r, ic_ICMPType r, ic_ICMPID r).
Definition fwmarkKey (r : ManagedFwmarkRule) := (mf_FwMark r, mf_UnderlayIfIndex r).

Fixpoint unique_keys {A K} `{EqDecision K} (key : A -> K) (e : string) (seen : list K) (l : list A)
    : outcome unit :=
  match l with
  | [] => Ret tt
  | r :: l => fail_if bool_decide (key r ∈ seen) with e in unique_keys key e (key r :: seen) l
  end.

Fixpoint consistent_fwmarks (seen : gmap (Z * Z) string) (l : list ManagedFwmarkRule)
    : outcome unit :=
  match l with
  | [] => Ret tt
  | r :: l =>
      fail_if match seen !! fwmarkKey r with
              | Some action => negb (String.eqb action (mf_ActionOnMiss r))
              | None => false
              end with "conflicting managed fwmark rule" in
      consistent_fwmarks (<[fwmarkKey r := mf_ActionOnMiss r]> seen) l
  end.

Definition validateRuleUniqueness (r : Rules) : outcome unit :=
  check! unique_keys egressKey "duplicate egress rule" [] (r_Egress r) in
  check! unique_keys ingressKey "duplicate ingress listener" [] (r_Ingress r) in
  check! unique_keys icmpKey "duplicate icmp listener" [] (r_ICMP r) in
  consistent_fwmarks ∅ (r_Managed r).

(** ** Building the state *)

Definition profile_states (profiles : gmap string Compiled) : list ProfileState :=
  let ids := assignProfileIDs profiles in
  omap (fun name => (fun p => mkProfileState (id_of ids name) name (StandardToMixed p)
                               (MixedToStandard p)) <$> profiles !! name)
    (sortedProfileNames profiles).

Definition with_cipher_ID (c : CipherState) (id : Z) : CipherState :=
  mkCipherState id (cs_Name c) (cs_Mode c) (cs_Auth c) (cs_Scope c) (cs_KeyDerivation c)
    (cs_KeyLen c) (cs_KeyMask c) (cs_MaxBytes c) (cs_Flags c) (cs_Key c).

Definition cipher_states (ciphers : gmap string CipherState) : list CipherState :=
  let ids := assignCipherIDs ciphers in
  omap (fun name => (fun c => with_cipher_ID c (id_of ids name)) <$> ciphers !! name)
    (sortedCipherNames ciphers).

(** [profileOrder] and [cipherOrder] are the iteration orders over the two
    configuration maps. *)
Definition BuildState `{ControlEnv} (profileOrder cipherOrder : list string) (cfg : Config)
    (offline : bool) : outcome State :=
  let! compiledProfiles := CompileAll profileOrder (c_Profiles cfg) in
  let! compiledCiphers := compileCiphers cipherOrder (c_Ciphers cfg) in
  let! underlays := buildUnderlayStates cfg offline in
  let! wireguards := build_wireguards cfg (assignProfileIDs compiledProfiles)
                       (assignCipherIDs compiledCiphers) offline 0 (c_WireGuards cfg) in
  check! validateFakeTCPUnderlayParsers wireguards underlays in
  let state := fun r => mkState 1 (rt_AttachmentBackend (c_Runtime cfg))
    (rt_ChecksumBackend (c_Runtime cfg)) (profile_states compiledProfiles)
    (cipher_states compiledCiphers) wireguards underlays (r_Managed r) (r_Egress r) (r_Ingress r)
    (r_ICMP r) in
  if offline then Ret (state (mkRules [] [] [] []))
  else
    let r := buildRules 1 (po_ManagedEgressMapMiss (c_Policy cfg)) wireguards underlays in
    check! validateRuleUniqueness r in
    Ret (state r).
