(* ===== verification/ControlProps.v ===== *)
(** * Properties of the control state: the shape, number and keys of the rules
    [BuildState] emits, and the cipher keys. *)
From Stdlib Require Import ZArith Lia.
From stdpp Require Import base option list gmap strings numbers sorting.
From S2P Require Import Prelude Config Profile Control.

(** ** Rules as a sum of contributions *)

Definition rules_empty : Rules := mkRules [] [] [] [].
Definition rules_app (a b : Rules) : Rules :=
  mkRules (r_Managed a ++ r_Managed b) (r_Egress a ++ r_Egress b) (r_Ingress a ++ r_Ingress b)
    (r_ICMP a ++ r_ICMP b).

Lemma rules_app_nil_r a : rules_app a rules_empty = a.
Proof. destruct a. unfold rules_app. cbn. by rewrite !app_nil_r. Qed.
Lemma rules_app_nil_l a : rules_app rules_empty a = a.
Proof. by destruct a. Qed.
Lemma rules_app_assoc a b c : rules_app a (rules_app b c) = rules_app (rules_app a b) c.
Proof. unfold rules_app. cbn. by rewrite !app_assoc. Qed.

(** A loop body that only appends. *)
Definition appends {A} (f : Rules -> A -> Rules) : Prop :=
  forall r x, f r x = rules_app r (f rules_empty x).

Lemma foldl_appends {A} (f : Rules -> A -> Rules) :
  appends f -> appends (fun r l => foldl f r l).
Proof.
  intros Hf r l. revert r. induction l as [|x l IH]; intros r; cbn; [by rewrite rules_app_nil_r|].
  rewrite IH, (IH (f rules_empty x)), (Hf r x). by rewrite rules_app_assoc.
Qed.

Lemma family_rules_appends gen wg u : appends (family_rules gen wg u).
Proof.
  intros r f. unfold family_rules, rules_app.
  destruct (String.eqb _ "icmp"), (String.eqb f "ipv6"); cbn; by rewrite ?app_nil_r.
Qed.

Lemma underlay_rules_appends gen a wg : appends (underlay_rules gen a wg).
Proof.
  intros r u. unfold underlay_rules. destruct (_ || _); [by rewrite rules_app_nil_r|]. cbn zeta.
  pose proof (foldl_appends _ (family_rules_appends gen wg u)) as Hf. cbv beta in Hf.
  rewrite Hf, (Hf (mkRules _ _ _ _)). cbn. rewrite rules_app_assoc. f_equal.
  unfold rules_app. cbn. by rewrite !app_nil_r.
Qed.

Lemma wireguard_rules_appends gen a us : appends (wireguard_rules gen a us).
Proof.
  intros r wg. unfold wireguard_rules. destruct (negb _); [by rewrite rules_app_nil_r|].
  apply (foldl_appends _ (underlay_rules_appends gen a wg)).
Qed.

(** What one WireGuard contributes on one underlay. *)
Definition pair_rules (gen : Z) (onMiss : string) (wg : WireGuardState) (u : UnderlayState) : Rules :=
  underlay_rules gen onMiss wg rules_empty u.

(** The pair takes part in the rules. *)
Definition active_pair (wg : WireGuardState) (u : UnderlayState) : Prop :=
  ws_RuntimeStateAvailable wg = true /\ us_Resolved u = true /\ inactive u = false.

(** Everything emitted is emitted for some active pair, and conversely: any
    component [sel] that distributes over [rules_app] is the concatenation of
    the contributions. *)
Section components.
Context {B : Type} (sel : Rules -> list B).
Context (sel_app : forall a b, sel (rules_app a b) = sel a ++ sel b) (sel_nil : sel rules_empty = []).

Lemma foldl_elem {A} (f : Rules -> A -> Rules) l x :
  appends f -> x ∈ sel (foldl f rules_empty l) <-> exists y, y ∈ l /\ x ∈ sel (f rules_empty y).
Proof using sel_app sel_nil.
  intros Hf. induction l as [|y l IH]; cbn.
  - rewrite sel_nil. split; [by intros ?%elem_of_nil|by intros (? & ?%elem_of_nil & _)].
  - pose proof (foldl_appends f Hf) as Hl. cbv beta in Hl.
    rewrite Hl, sel_app, elem_of_app, IH. split.
    + intros [Hx|(z & Hz & Hx)]; [exists y|exists z]; (split; [|done]); [by left|by right].
    + intros (z & [->|Hz]%elem_of_cons & Hx); [by left|right; by exists z].
Qed.

Lemma buildRules_elem gen a wgs us x :
  x ∈ sel (buildRules gen a wgs us) <->
  exists wg u, wg ∈ wgs /\ u ∈ us /\ active_pair wg u /\ x ∈ sel (pair_rules gen a wg u).
Proof using sel_app sel_nil.
  unfold buildRules. change (mkRules [] [] [] []) with rules_empty.
  rewrite foldl_elem by apply wireguard_rules_appends. unfold active_pair, pair_rules. split.
  - intros (wg & Hwg & Hx). unfold wireguard_rules in Hx.
    destruct (ws_RuntimeStateAvailable wg) eqn:Ha; cbn in Hx;
      [|rewrite sel_nil in Hx; by apply elem_of_nil in Hx].
    apply foldl_elem in Hx as (u & Hu & Hx); [|apply underlay_rules_appends].
    exists wg, u. split_and!; try done;
      unfold underlay_rules in Hx; destruct (us_Resolved u), (inactive u); cbn in Hx; try done;
      rewrite sel_nil in Hx; by apply elem_of_nil in Hx.
  - intros (wg & u & Hwg & Hu & (Ha & _ & _) & Hx). exists wg. split; [done|].
    unfold wireguard_rules. rewrite Ha. cbn [negb].
    apply foldl_elem; [apply underlay_rules_appends|by exists u].
Qed.

Lemma foldl_length {A} (f : Rules -> A -> Rules) (w : A -> Z) l :
  appends f -> (forall y, y ∈ l -> len (sel (f rules_empty y)) <= w y) ->
  len (sel (foldl f rules_empty l)) <= sum_of w l.
Proof using sel_app sel_nil.
  intros Hf. induction l as [|y l IH]; intros Hw; [cbn; by rewrite sel_nil|].
  rewrite sum_of_cons. cbn.
  pose proof (foldl_appends f Hf) as Hl. cbv beta in Hl. rewrite Hl, sel_app, len_app.
  pose proof (Hw y (list_elem_of_here _ _)).
  enough (len (sel (foldl f rules_empty l)) <= sum_of w l) by lia.
  apply IH. intros. apply Hw. by right.
Qed.

Lemma sum_of_const {A} (l : list A) n : sum_of (fun _ => n) l = n * len l.
Proof.
  induction l as [|x l IH]; [unfold len; simpl; lia|]. rewrite sum_of_cons, IH, len_cons. lia.
Qed.

(** A component with at most [w wg] entries per pair. *)
Lemma buildRules_length gen a wgs us (w : WireGuardState -> Z) :
  (forall wg, 0 <= w wg) ->
  (forall wg u, len (sel (pair_rules gen a wg u)) <= w wg) ->
  len (sel (buildRules gen a wgs us)) <= len us * sum_of w wgs.
Proof using sel_app sel_nil.
  intros Hpos Hw.
  transitivity (sum_of (fun wg => w wg * len us) wgs).
  - apply (foldl_length _ _ wgs (wireguard_rules_appends gen a us)). intros wg _.
    unfold wireguard_rules. pose proof (len_nonneg us). specialize (Hpos wg).
    destruct (negb _); [rewrite sel_nil; unfold len at 1; simpl; nia|].
    rewrite <- (sum_of_const us (w wg)).
    apply (foldl_length _ _ us (underlay_rules_appends gen a wg)). intros u _. apply Hw.
  - clear. induction wgs as [|wg wgs IH]; [simpl; lia|]. rewrite !sum_of_cons. lia.
Qed.
End components.

(** ** The contribution of one pair *)

Definition is_icmp_state (wg : WireGuardState) : bool := String.eqb (ws_TransportMode wg) "icmp".
Definition is_faketcp_state (wg : WireGuardState) : bool :=
  String.eqb (ws_TransportMode wg) "faketcp".

(** The address families on which a WireGuard sends. *)
Definition egress_families (wg : WireGuardState) : list string :=
  if is_icmp_state wg || is_faketcp_state wg then ["ipv4"] else ["ipv4"; "ipv6"].

Lemma pair_rules_active gen a wg u : us_Resolved u = true -> inactive u = false ->
  pair_rules gen a wg u = mkRules
    [mkManaged gen (ws_RuntimeFirewallMark wg) (us_IfIndex u) a]
    (map (egress_rule gen wg u) (egress_families wg))
    (map (fun f => ingress_listener gen wg u f (if is_icmp_state wg then "drop" else "rewrite"))
       (families wg))
    (if is_icmp_state wg then [icmp_listener gen wg u "ipv4"] else []).
Proof.
  intros Hr Hi. unfold pair_rules, underlay_rules, egress_families, families, family_rules,
    is_icmp_state, is_faketcp_state. rewrite Hr, Hi. cbn [negb orb].
  destruct (String.eqb_spec (ws_TransportMode wg) "icmp") as [E|E]; [by rewrite E|].
  by destruct (String.eqb _ "faketcp").
Qed.

Lemma pair_rules_inactive gen a wg u : ~ (us_Resolved u = true /\ inactive u = false) ->
  pair_rules gen a wg u = rules_empty.
Proof.
  intros H. unfold pair_rules, underlay_rules.
  destruct (us_Resolved u), (inactive u); cbn; try done. by destruct H.
Qed.

Lemma pair_rules_length gen a wg u :
  len (r_Managed (pair_rules gen a wg u)) <= 1 /\
  len (r_Egress (pair_rules gen a wg u)) <= (if is_icmp_state wg then 1 else 2) /\
  len (r_Ingress (pair_rules gen a wg u)) <= 2 /\
  len (r_ICMP (pair_rules gen a wg u)) <= (if is_icmp_state wg then 1 else 0).
Proof.
  destruct (decide (us_Resolved u = true /\ inactive u = false)) as [[Hr Hi]|H].
  - rewrite pair_rules_active by done. unfold egress_families, families. cbn.
    destruct (is_icmp_state wg), (is_faketcp_state wg), (String.eqb _ "faketcp"); by vm_compute.
  - rewrite pair_rules_inactive by done. cbn. unfold len. cbn. destruct (is_icmp_state wg); lia.
Qed.

(** ** What [BuildState] computes *)

Section built.
Context `{ControlEnv}.

(** The WireGuard states, in configuration order. *)
Definition wg_state_of (cfg : Config) (profileIDs cipherIDs : gmap string Z) (offline : bool)
    (i : nat) (wg : WireGuard) (s : WireGuardState) : Prop :=
  ws_ID s = u32 (Z.of_nat i + 1) /\ ws_Name s = wg_Name wg /\
  ws_TransportMode s = tr_Mode (wg_Transport wg) /\
  ws_ICMPRole s = icmp_Role (tr_ICMP (wg_Transport wg)) /\
  ws_ICMPID s = icmp_ID (tr_ICMP (wg_Transport wg)) /\
  ws_FakeTCP s = tr_FakeTCP (wg_Transport wg) /\
  ws_Profile s = wg_Profile wg /\ ws_ProfileID s = id_of profileIDs (wg_Profile wg) /\
  ws_Cipher s = wg_Cipher wg /\ ws_CipherID s = id_of cipherIDs (wg_Cipher wg) /\
  ws_RuntimeStateAvailable s = negb offline /\
  ws_ConfigFwMark s <> 0 /\
  (offline = false -> ws_RuntimeFirewallMark s <> 0 /\ ws_RuntimeListenPort s <> 0 /\
     (rt_StrictRuntimeFwmark (c_Runtime cfg) = true -> ws_RuntimeFirewallMark s = ws_ConfigFwMark s)).

Lemma buildWireGuardState_spec cfg wg i pid cid pids cids offline s :
  buildWireGuardState cfg wg (u32 (Z.of_nat i + 1)) pid cid offline = Ret s ->
  pid = id_of pids (wg_Profile wg) -> cid = id_of cids (wg_Cipher wg) ->
  wg_state_of cfg pids cids offline i wg s.
Proof.
  intros Hb -> ->. unfold buildWireGuardState in Hb. apply obind_ret in Hb as (parsed & _ & Hb).
  destruct (if_FwMark parsed) as [mark|]; [|by destruct (String.eqb _ _)].
  destruct (Z.eqb_spec mark 0); [done|]. cbn zeta in Hb. unfold wg_state_of.
  destruct offline; cbn [negb].
  - go_inv. subst s. cbn. split_and!; done.
  - apply obind_ret in Hb as (dev & _ & Hb). go_inv. bool_prop. subst s. cbn.
    split_and!; try done. intros _. split_and!; try done. intros Hs.
    rewrite Hs in *. cbn in *. by bool_prop.
Qed.

Lemma build_wireguards_spec cfg pids cids offline i l states :
  build_wireguards cfg pids cids offline (Z.of_nat i) l = Ret states ->
  length states = length l /\
  forall k wg s, l !! k = Some wg -> states !! k = Some s ->
    wg_state_of cfg pids cids offline (i + k) wg s.
Proof.
  revert i states. induction l as [|wg l IH]; intros i states Hb; simpl in Hb.
  { go_inv. by subst. }
  apply obind_ret in Hb as (s & Hs & Hb). apply obind_ret in Hb as (rest & Hrest & Hb).
  injection Hb as <-. replace (Z.of_nat i + 1) with (Z.of_nat (S i)) in Hrest by lia.
  apply IH in Hrest as [Hlen Hrest]. split; [simpl; lia|].
  intros [|k] w s' Hw Hs'; simpl in Hw, Hs'.
  - injection Hw as <-. injection Hs' as <-. rewrite Nat.add_0_r.
    by eapply buildWireGuardState_spec.
  - replace (i + S k)%nat with (S i + k)%nat by lia. by apply Hrest.
Qed.

Lemma build_underlays_length overlap offline i seen l states :
  build_underlays overlap offline i seen l = Ret states -> length states = length l.
Proof.
  revert i seen states. induction l as [|u l IH]; intros i seen states Hb; simpl in Hb.
  { go_inv. by subst. }
  destruct offline.
  - apply obind_ret in Hb as (rest & Hrest & Hb). injection Hb as <-. simpl. f_equal.
    by eapply IH.
  - apply obind_ret in Hb as (r & _ & Hb). cbn zeta in Hb.
    destruct (_ && _ && _); [done|]. apply obind_ret in Hb as (rest & Hrest & Hb).
    injection Hb as <-. simpl. f_equal. by eapply IH.
Qed.

Lemma BuildState_inv po co cfg offline st :
  BuildState po co cfg offline = Ret st ->
  exists profiles ciphers,
    CompileAll po (c_Profiles cfg) = Ret profiles /\
    compileCiphers co (c_Ciphers cfg) = Ret ciphers /\
    st_Generation st = 1 /\
    st_Profiles st = profile_states profiles /\ st_Ciphers st = cipher_states ciphers /\
    buildUnderlayStates cfg offline = Ret (st_Underlays st) /\
    build_wireguards cfg (assignProfileIDs profiles) (assignCipherIDs ciphers) offline 0
      (c_WireGuards cfg) = Ret (st_WireGuards st) /\
    validateFakeTCPUnderlayParsers (st_WireGuards st) (st_Underlays st) = Ret tt /\
    let r := mkRules (st_ManagedFwmarks st) (st_EgressRules st) (st_IngressListeners st)
               (st_ICMPListeners st) in
    (offline = true -> r = rules_empty) /\
    (offline = false ->
       r = buildRules 1 (po_ManagedEgressMapMiss (c_Policy cfg)) (st_WireGuards st) (st_Underlays st)
       /\ validateRuleUniqueness r = Ret tt).
Proof.
  unfold BuildState. intros Hb. apply obind_ret in Hb as (profiles & Hp & Hb).
  apply obind_ret in Hb as (ciphers & Hc & Hb). apply obind_ret in Hb as (us & Hu & Hb).
  apply obind_ret in Hb as (wgs & Hw & Hb). apply obind_ret in Hb as ([] & Hv & Hb).
  cbn zeta in Hb. exists profiles, ciphers. destruct offline.
  - injection Hb as <-. cbn. split_and!; done.
  - apply obind_ret in Hb as ([] & Hq & Hb). injection Hb as <-. cbn -[buildRules].
    split_and!; try done. intros _.
    set (r := buildRules _ _ _ _) in *. clearbody r. by destruct r.
Qed.

(** The rules of a generation fit the kernel maps.  Whatever the runtime
    reports, a state built from a configuration that passed [ValidateStatic]
    has at most [MaxManagedRulesPerGeneration] fwmark rules and at most
    [MaxDirectionalRulesPerGeneration] egress rules, ingress listeners and ICMP
    listeners, the capacities a reload needs to stage a second generation. *)
Theorem rules_fit_maps order po co cfg offline st :
  config_typed cfg -> ValidateStatic order cfg = Ret tt -> BuildState po co cfg offline = Ret st ->
  len (st_ManagedFwmarks st) <= MaxManagedRulesPerGeneration /\
  len (st_EgressRules st) <= MaxDirectionalRulesPerGeneration /\
  len (st_IngressListeners st) <= MaxDirectionalRulesPerGeneration /\
  len (st_ICMPListeners st) <= MaxDirectionalRulesPerGeneration.
Proof.
  intros Ht Hv Hb. apply static_rule_bound in Hv; [|done].
  destruct (BuildState_inv _ _ _ _ _ Hb) as (ps & cs & _ & _ & _ & _ & _ & Hu & Hw & _ & Hoff & Hon).
  unfold MaxManagedRulesPerGeneration, MaxDirectionalRulesPerGeneration in *.
  destruct offline.
  { specialize (Hoff eq_refl). unfold rules_empty in Hoff. injection Hoff as -> -> -> ->. by vm_compute. }
  destruct (Hon eq_refl) as [Hr _]. pose proof (f_equal r_Managed Hr) as H1.
  pose proof (f_equal r_Egress Hr) as H2. pose proof (f_equal r_Ingress Hr) as H3.
  pose proof (f_equal r_ICMP Hr) as H4. cbn -[buildRules] in *. rewrite H1, H2, H3, H4.
  apply build_underlays_length in Hu. apply (build_wireguards_spec _ _ _ _ 0%nat) in Hw as [Hw _].
  assert (len (st_Underlays st) = len (c_Underlays cfg)) as Eu by (unfold len; lia).
  assert (len (st_WireGuards st) = len (c_WireGuards cfg)) as Ew by (unfold len; lia).
  pose proof (pair_rules_length 1 (po_ManagedEgressMapMiss (c_Policy cfg))) as Hp.
  pose proof (len_nonneg (c_Underlays cfg)). pose proof (len_nonneg (c_WireGuards cfg)).
  assert (forall (B : Type) (sel : Rules -> list B) n,
    (forall a b, sel (rules_app a b) = sel a ++ sel b) -> sel rules_empty = [] -> 0 <= n <= 2 ->
    (forall wg u, len (sel (pair_rules 1 (po_ManagedEgressMapMiss (c_Policy cfg)) wg u)) <= n) ->
    len (sel (buildRules 1 (po_ManagedEgressMapMiss (c_Policy cfg)) (st_WireGuards st)
      (st_Underlays st))) <= n * 256) as Hsel.
  { intros B sel n Ha Hn Hle Hlen.
    pose proof (buildRules_length sel Ha Hn 1 (po_ManagedEgressMapMiss (c_Policy cfg))
      (st_WireGuards st) (st_Underlays st) (fun _ => n) ltac:(lia) Hlen) as Hl.
    rewrite sum_of_const in Hl. nia. }
  split_and!; [apply (Hsel _ r_Managed 1)|transitivity 512; [apply (Hsel _ r_Egress 2)|lia]|
    transitivity 512; [apply (Hsel _ r_Ingress 2)|lia]|transitivity 512; [apply (Hsel _ r_ICMP 2)|lia]];
    try done; intros wg u; destruct (Hp wg u) as (? & ? & ? & ?); destruct (is_icmp_state wg); lia.
Qed.
End built.

(** ** Rule tables *)

Lemma app_managed a b : r_Managed (rules_app a b) = r_Managed a ++ r_Managed b.
Proof. done. Qed.
Lemma app_egress a b : r_Egress (rules_app a b) = r_Egress a ++ r_Egress b.
Proof. done. Qed.
Lemma app_ingress a b : r_Ingress (rules_app a b) = r_Ingress a ++ r_Ingress b.
Proof. done. Qed.
Lemma app_icmp a b : r_ICMP (rules_app a b) = r_ICMP a ++ r_ICMP b.
Proof. done. Qed.

Lemma unique_keys_iff {A K} `{EqDecision K} (key : A -> K) e seen l :
  unique_keys key e seen l = Ret tt <-> NoDup (map key l) /\ (forall r, r ∈ l -> key r ∉ seen).
Proof.
  revert seen. induction l as [|r l IH]; intros seen; simpl.
  { split; [|done]. intros _. split; [apply NoDup_nil_2|by intros ? ?%elem_of_nil]. }
  rewrite list.NoDup_cons. split.
  - intros H. go_inv. bool_prop. apply IH in H as [Hn Hs]. split_and!; [|done|].
    + intros (r' & Hk & Hr')%list_elem_of_fmap. apply (Hs r' Hr'). rewrite Hk. by left.
    + intros r' [->|Hr']%elem_of_cons; [done|]. intros ?. apply (Hs r' Hr'). by right.
  - intros [[Hr Hn] Hs]. rewrite bool_decide_false by (apply Hs; by left). apply IH. split; [done|].
    intros r' Hr' [Hk|Hin]%elem_of_cons; [|by apply (Hs r'); [right|]].
    apply Hr. rewrite <- Hk. apply list_elem_of_fmap. by exists r'.
Qed.

Lemma consistent_fwmarks_spec seen l :
  consistent_fwmarks seen l = Ret tt ->
  (forall r a, r ∈ l -> seen !! fwmarkKey r = Some a -> a = mf_ActionOnMiss r) /\
  (forall r r', r ∈ l -> r' ∈ l -> fwmarkKey r = fwmarkKey r' ->
     mf_ActionOnMiss r = mf_ActionOnMiss r').
Proof.
  revert seen. induction l as [|r l IH]; intros seen H; simpl in H.
  { split; [by intros ? ? ?%elem_of_nil|by intros ? ? ?%elem_of_nil]. }
  match type of H with (if ?b then _ else _) = _ => destruct b eqn:E; [done|] end.
  apply IH in H as [Hs Hp].
  assert (forall r', r' ∈ l -> fwmarkKey r' = fwmarkKey r -> mf_ActionOnMiss r = mf_ActionOnMiss r')
    as Hr.
  { intros r' Hr' Hk. apply (Hs r'); [done|]. rewrite Hk. apply lookup_insert_eq. }
  split.
  - intros r' a [->|Hr']%elem_of_cons Ha.
    + rewrite Ha in E. bool_prop. by apply String.eqb_eq.
    + destruct (decide (fwmarkKey r' = fwmarkKey r)) as [Hk|Hk].
      * rewrite Hk in Ha. rewrite Ha in E. bool_prop. apply String.eqb_eq in E as ->. by apply Hr.
      * apply (Hs r'); [done|]. by rewrite lookup_insert_ne.
  - intros r1 r2 [->|H1]%elem_of_cons [->|H2]%elem_of_cons Hk; [done|by apply Hr|..|by apply Hp].
    symmetry. by apply Hr.
Qed.

(** A WireGuard and an underlay of the state between which rules exist. *)
Definition active_in (st : State) (wg : WireGuardState) (u : UnderlayState) : Prop :=
  wg ∈ st_WireGuards st /\ u ∈ st_Underlays st /\ us_Resolved u = true /\ inactive u = false.

Section tables.
Context `{ControlEnv} (po co : list string) (cfg : Config) (st : State).
Context (Hb : BuildState po co cfg false = Ret st).

Lemma state_rules :
  mkRules (st_ManagedFwmarks st) (st_EgressRules st) (st_IngressListeners st) (st_ICMPListeners st)
    = buildRules 1 (po_ManagedEgressMapMiss (c_Policy cfg)) (st_WireGuards st) (st_Underlays st) /\
  NoDup (map egressKey (st_EgressRules st)) /\ NoDup (map ingressKey (st_IngressListeners st)) /\
  NoDup (map icmpKey (st_ICMPListeners st)).
Proof using Hb.
  destruct (BuildState_inv _ _ _ _ _ Hb) as (ps & cs & _ & _ & _ & _ & _ & _ & _ & _ & _ & Hon).
  destruct (Hon eq_refl) as [Hr Hv]. split; [done|]. unfold validateRuleUniqueness in Hv.
  cbn [r_Managed r_Egress r_Ingress r_ICMP] in Hv. go_inv.
  repeat match goal with Hk : unique_keys _ _ _ _ = Ret ?u |- _ =>
    destruct u; apply unique_keys_iff in Hk as [? _] end. done.
Qed.

Lemma states_available wg : wg ∈ st_WireGuards st -> ws_RuntimeStateAvailable wg = true.
Proof using Hb.
  destruct (BuildState_inv _ _ _ _ _ Hb) as (ps & cs & _ & _ & _ & _ & _ & _ & Hw & _).
  apply (build_wireguards_spec _ _ _ _ 0%nat) in Hw as [Hl Hw]. intros Hin.
  apply list_elem_of_lookup in Hin as [k Hk].
  destruct (lookup_lt_is_Some_2 (c_WireGuards cfg) k) as [w Hwk];
    [rewrite <- Hl; by eapply lookup_lt_Some|]. by apply (Hw k w wg Hwk Hk).
Qed.

(** Membership in any rule table, through the contribution of an active pair. *)
Lemma table_elem {B} (sel : Rules -> list B) x :
  (forall a b, sel (rules_app a b) = sel a ++ sel b) -> sel rules_empty = [] ->
  x ∈ sel (buildRules 1 (po_ManagedEgressMapMiss (c_Policy cfg)) (st_WireGuards st)
             (st_Underlays st)) <->
  exists wg u, active_in st wg u /\
    x ∈ sel (pair_rules 1 (po_ManagedEgressMapMiss (c_Policy cfg)) wg u).
Proof using Hb.
  intros Ha Hn. rewrite (buildRules_elem sel Ha Hn). unfold active_in, active_pair. split.
  - intros (wg & u & Hwg & Hu & (_ & ? & ?) & Hx). by exists wg, u.
  - intros (wg & u & (Hwg & Hu & ? & ?) & Hx). exists wg, u. split_and!; try done.
    by apply states_available.
Qed.

Lemma managed_elem r : r ∈ st_ManagedFwmarks st <-> exists wg u, active_in st wg u /\
  r = mkManaged 1 (ws_RuntimeFirewallMark wg) (us_IfIndex u) (po_ManagedEgressMapMiss (c_Policy cfg)).
Proof using Hb.
  pose proof (f_equal r_Managed (proj1 state_rules)) as E. cbn [r_Managed] in E.
  rewrite E, (table_elem r_Managed) by done.
  split; intros (wg & u & Ha & Hx); exists wg, u; pose proof Ha as (_ & _ & ? & ?);
    (split; [done|]); rewrite pair_rules_active in * by done; by apply list_elem_of_singleton.
Qed.

Lemma egress_elem r : r ∈ st_EgressRules st <-> exists wg u f, active_in st wg u /\
  f ∈ egress_families wg /\ r = egress_rule 1 wg u f.
Proof using Hb.
  pose proof (f_equal r_Egress (proj1 state_rules)) as E. cbn [r_Egress] in E.
  rewrite E, (table_elem r_Egress) by done. split.
  - intros (wg & u & Ha & Hx). pose proof Ha as (_ & _ & ? & ?).
    rewrite pair_rules_active in Hx by done. apply list_elem_of_fmap in Hx as (f & -> & Hf). eauto 6.
  - intros (wg & u & f & Ha & Hf & ->). pose proof Ha as (_ & _ & ? & ?). exists wg, u.
    rewrite pair_rules_active by done. split; [done|]. apply list_elem_of_fmap. eauto.
Qed.

Lemma ingress_elem r : r ∈ st_IngressListeners st <-> exists wg u f, active_in st wg u /\
  f ∈ families wg /\ r = ingress_listener 1 wg u f (if is_icmp_state wg then "drop" else "rewrite").
Proof using Hb.
  pose proof (f_equal r_Ingress (proj1 state_rules)) as E. cbn [r_Ingress] in E.
  rewrite E, (table_elem r_Ingress) by done. split.
  - intros (wg & u & Ha & Hx). pose proof Ha as (_ & _ & ? & ?).
    rewrite pair_rules_active in Hx by done. apply list_elem_of_fmap in Hx as (f & -> & Hf). eauto 6.
  - intros (wg & u & f & Ha & Hf & ->). pose proof Ha as (_ & _ & ? & ?). exists wg, u.
    rewrite pair_rules_active by done. split; [done|]. apply list_elem_of_fmap. eauto.
Qed.

Lemma icmp_elem r : r ∈ st_ICMPListeners st <-> exists wg u, active_in st wg u /\
  is_icmp_state wg = true /\ r = icmp_listener 1 wg u "ipv4".
Proof using Hb.
  pose proof (f_equal r_ICMP (proj1 state_rules)) as E. cbn [r_ICMP] in E.
  rewrite E, (table_elem r_ICMP) by done. split.
  - intros (wg & u & Ha & Hx). pose proof Ha as (_ & _ & ? & ?).
    rewrite pair_rules_active in Hx by done. cbn [r_ICMP] in Hx.
    destruct (is_icmp_state wg) eqn:?; [|by apply elem_of_nil in Hx].
    apply list_elem_of_singleton in Hx as ->. eauto 6.
  - intros (wg & u & Ha & Hi & ->). pose proof Ha as (_ & _ & ? & ?). exists wg, u.
    rewrite pair_rules_active by done. split; [done|]. cbn [r_ICMP]. rewrite Hi.
    by apply list_elem_of_singleton.
Qed.
End tables.

(** The rule tables are exactly what the transports call for.  For a state
    built from the live runtime: a fwmark rule with the configured miss action
    exists for every WireGuard on every active underlay (and only there), so
    traffic without a rule of its own is handled by that policy; an egress rule
    exists exactly for the families on which the transport sends (IPv4 only for
    FakeTCP and ICMP); an ingress listener exists exactly for the families of
    the transport, and for an ICMP WireGuard it drops plain UDP in both
    families; no two egress rules, ingress listeners or ICMP listeners have
    the same key. *)
Theorem rule_tables_exact `{ControlEnv} po co cfg st :
  BuildState po co cfg false = Ret st ->
  (forall r, r ∈ st_ManagedFwmarks st <-> exists wg u, active_in st wg u /\
     r = mkManaged 1 (ws_RuntimeFirewallMark wg) (us_IfIndex u)
           (po_ManagedEgressMapMiss (c_Policy cfg))) /\
  (forall r, r ∈ st_EgressRules st <-> exists wg u f, active_in st wg u /\ f ∈ egress_families wg /\
     r = egress_rule 1 wg u f) /\
  (forall r, r ∈ st_IngressListeners st <-> exists wg u f, active_in st wg u /\ f ∈ families wg /\
     r = ingress_listener 1 wg u f (if is_icmp_state wg then "drop" else "rewrite")) /\
  (forall r, r ∈ st_ICMPListeners st <-> exists wg u, active_in st wg u /\ is_icmp_state wg = true /\
     r = icmp_listener 1 wg u "ipv4") /\
  NoDup (map egressKey (st_EgressRules st)) /\ NoDup (map ingressKey (st_IngressListeners st)) /\
  NoDup (map icmpKey (st_ICMPListeners st)).
Proof.
  intros Hb. pose proof (state_rules po co cfg st Hb) as [_ Hn].
  split; [intros; by eapply managed_elem|]. split; [intros; by eapply egress_elem|].
  split; [intros; by eapply ingress_elem|]. split; [intros; by eapply icmp_elem|done].
Qed.

(** ** Cipher keys *)

(** The key byte the kernel program XORs at payload offset [off]
    (bpf/wg_mix_tc.c). *)
Definition xor_key_byte (key : list Z) (off : Z) : Z := byte_at key (Z.land off 255).

Lemma length_expand_key n base : length (expand_key n base) = 256%nat.
Proof. unfold expand_key. by rewrite length_map, length_seq. Qed.

Lemma byte_at_expand n base i : 0 <= i < 256 -> byte_at (expand_key n base) i = byte_at base (i mod n).
Proof.
  intros Hi. unfold expand_key, byte_at at 1. rewrite list_lookup_fmap.
  rewrite lookup_seq_lt by lia. cbn. by rewrite Z2Nat.id by lia.
Qed.

Lemma expand_key_idem n base : 0 < n <= 256 -> expand_key n (expand_key n base) = expand_key n base.
Proof.
  intros Hn. unfold expand_key at 1 3. apply map_ext_in. intros i Hi.
  pose proof (Z.mod_pos_bound (Z.of_nat i) n ltac:(lia)).
  rewrite byte_at_expand by lia. by rewrite Z.mod_mod by lia.
Qed.

Section keys.
Context `{ControlEnv}.

(** A derived cipher key is a 256-byte table with the period the cipher
    declares: at every payload offset the kernel's masked lookup gives the key
    byte at the offset modulo [KeyLen], and the repetition the ABI conversion
    applies to the table once more changes nothing.  So the keystream depends on
    [KeyLen] bytes of derived material only, whatever the payload length. *)
Theorem cipher_key_periodic c key :
  deriveCipherKey c = Ret key ->
  len key = 256 /\ expand_key (ci_KeyLen c) key = key /\
  forall off, 0 <= off -> xor_key_byte key off = byte_at key (off mod ci_KeyLen c).
Proof.
  unfold deriveCipherKey. intros Hk.
  destruct (bool_decide (ci_KeyLen c ∈ _)) eqn:Hn; [|done]. cbn [negb] in Hk.
  apply obind_ret in Hk as (secret & _ & Hk). apply obind_ret in Hk as (base & _ & Hk).
  injection Hk as <-. apply bool_decide_eq_true in Hn.
  assert (exists q, 256 = q * ci_KeyLen c /\ 0 < ci_KeyLen c <= 256) as (q & Hq & Hr).
  { set_unfold in Hn. destruct Hn as [-> | [-> | [-> | [-> | []]]]];
      [exists 16|exists 8|exists 4|exists 1]; lia. }
  split_and!.
  - unfold len. by rewrite length_expand_key.
  - by apply expand_key_idem.
  - intros off Hoff. unfold xor_key_byte.
    assert (Z.land off 255 = off mod 256) as -> by apply (Z.land_ones off 8 ltac:(lia)).
    pose proof (Z.mod_pos_bound off 256 ltac:(lia)).
    pose proof (Z.mod_pos_bound off (ci_KeyLen c) ltac:(lia)).
    rewrite !byte_at_expand by lia. f_equal. rewrite Z.mod_mod by lia.
    rewrite (Z.div_mod off 256) at 2 by lia.
    rewrite Z.add_comm.
    replace (256 * (off / 256)) with (off / 256 * q * ci_KeyLen c)
      by (rewrite <- Z.mul_assoc, <- Hq; lia).
    by rewrite Z_mod_plus_full.
Qed.
End keys.

(** ** Witnesses: two WireGuards on one live underlay *)

#[export] Instance sample_control_env : ControlEnv := {|
  loadWG _ := Ret (mkInterface (Some 81) None);
  Device name := Ret (mkDevice 81 (if String.eqb name "wg0" then 51820 else 51821) 7);
  Resolve _ := Ret (mkResolved "eth0" 2 "device" "transform");
  ReadFile _ := Fail "no such file";
  StdEncoding_DecodeString l := Ret l;
  hkdf_read secret n := Ret (map (fun i => u8 (Z.of_nat i + len secret)) (seq 0 (Z.to_nat n)));
  md5_Sum _ := replicate 16 1
|}.

Definition state_of (m : outcome State) : State :=
  match m with Ret s => s | _ => mkState 0 "" "" [] [] [] [] [] [] [] [] end.
Definition sample_state : State :=
  state_of (BuildState ["default"] ["c"] sample_config false).

Lemma sample_state_built : BuildState ["default"] ["c"] sample_config false = Ret sample_state.
Proof. unfold sample_state, state_of. vm_compute. reflexivity. Qed.

Lemma sample_config_valid : ValidateStatic ["c"] sample_config = Ret tt.
Proof. vm_compute. reflexivity. Qed.

Lemma rules_fit_maps_witness :
  len (st_EgressRules sample_state) = 3 /\
  len (st_EgressRules sample_state) <= MaxDirectionalRulesPerGeneration.
Proof.
  split; [vm_compute; reflexivity|].
  exact (proj1 (proj2 (rules_fit_maps ["c"] ["default"] ["c"] sample_config false sample_state
    sample_config_typed sample_config_valid sample_state_built))).
Defined.

Lemma rule_tables_exact_witness :
  NoDup (map egressKey (st_EgressRules sample_state)) /\ len (st_IngressListeners sample_state) = 3.
Proof.
  pose proof (rule_tables_exact ["default"] ["c"] sample_config sample_state sample_state_built)
    as (_ & _ & _ & _ & He & _).
  split; [exact He|vm_compute; reflexivity].
Defined.

Definition sample_cipher : Cipher :=
  default_cipher (mkCipher "" "" "" "" "s3cret" "" "" 16 0).
Definition sample_key : list Z :=
  match deriveCipherKey sample_cipher with Ret k => k | _ => [] end.
Lemma sample_key_derived : deriveCipherKey sample_cipher = Ret sample_key.
Proof. vm_compute. reflexivity. Qed.

Lemma cipher_key_periodic_witness : xor_key_byte sample_key 1000 = byte_at sample_key (1000 mod 16).
Proof.
  destruct (cipher_key_periodic sample_cipher sample_key sample_key_derived) as (_ & _ & Hk).
  apply (Hk 1000). lia.
Defined.

(** ** Identifiers *)

Lemma sorted_names_spec {A} (m : gmap string A) :
  NoDup (sorted_names m) /\ (forall name, name ∈ sorted_names m <-> is_Some (m !! name)) /\
  len (sorted_names m) = mlen m.
Proof.
  unfold sorted_names. pose proof (merge_sort_Permutation string_leb (map fst (map_to_list m))) as Hp.
  split_and!.
  - rewrite Hp. apply NoDup_fst_map_to_list.
  - intros name. rewrite Hp. split.
    + intros ([k a] & -> & Hin)%list_elem_of_fmap. apply elem_of_map_to_list in Hin. by exists a.
    + intros [a Ha]. apply list_elem_of_fmap. exists (name, a). by rewrite elem_of_map_to_list.
  - unfold len, mlen. rewrite Hp, length_map. by rewrite length_map_to_list.
Qed.

Lemma ids_of_lookup names i name :
  NoDup names -> len names < 4294967296 -> names !! i = Some name ->
  id_of (ids_of names) name = Z.of_nat i + 1.
Proof.
  intros Hn Hl Hi. unfold id_of, ids_of.
  assert ((list_to_map (imap (fun i name => (name, u32 (Z.of_nat i + 1))) names) : gmap string Z)
            !! name = Some (u32 (Z.of_nat i + 1))) as ->.
  - apply elem_of_list_to_map_1.
    + replace ((imap _ names).*1) with names; [done|]. apply list_eq. intros k.
      rewrite list_lookup_fmap, list_lookup_imap. by destruct (names !! k).
    + apply list_elem_of_lookup. exists i. by rewrite list_lookup_imap, Hi.
  - cbn. apply lookup_lt_Some in Hi. unfold len in Hl. rewrite u32_id; lia.
Qed.

(** Distinct names get distinct, non-zero identifiers. *)
Lemma ids_of_inj names n1 n2 :
  NoDup names -> len names < 4294967296 -> n1 ∈ names -> n2 ∈ names ->
  id_of (ids_of names) n1 = id_of (ids_of names) n2 -> n1 = n2.
Proof.
  intros Hn Hl [i Hi]%list_elem_of_lookup [j Hj]%list_elem_of_lookup.
  rewrite (ids_of_lookup names i n1), (ids_of_lookup names j n2) by done.
  intros. assert (i = j) by lia. congruence.
Qed.

Lemma ids_of_absent names name : name ∉ names -> id_of (ids_of names) name = 0.
Proof.
  intros Hn. unfold id_of, ids_of. rewrite not_elem_of_list_to_map_1; [done|].
  replace ((imap _ names).*1) with names; [done|]. apply list_eq. intros k.
  rewrite list_lookup_fmap, list_lookup_imap. by destruct (names !! k).
Qed.

Lemma CompileAll_lookup order profiles out :
  CompileAll order profiles = Ret out ->
  (forall name cp, out !! name = Some cp ->
     exists cfg, profiles !! name = Some cfg /\ Compile name cfg = Ret cp) /\
  (forall name, name ∈ order -> is_Some (profiles !! name) -> is_Some (out !! name)).
Proof.
  revert out. induction order as [|n order IH]; intros out Hc; simpl in Hc.
  { go_inv. subst out. split; [by intros ? ? ?|by intros ? ?%elem_of_nil]. }
  destruct (profiles !! n) as [cfg|] eqn:Hn.
  - apply obind_ret in Hc as (cp & Hcp & Hc). apply obind_ret in Hc as (rest & Hr & Hc).
    injection Hc as <-. destruct (IH rest Hr) as [H1 H2]. split.
    + intros name c [[<- <-]|[_ ?]]%lookup_insert_Some; [by exists cfg|by apply H1].
    + intros name Hin Hp. destruct (decide (n = name)) as [<-|Hne]; [by rewrite lookup_insert_eq|].
      rewrite lookup_insert_ne by done. apply H2; [|done].
      by apply elem_of_cons in Hin as [->|?].
  - destruct (IH out Hc) as [H1 H2]. split; [done|].
    intros name [->|Hin]%elem_of_cons Hp; [rewrite Hn in Hp; by destruct Hp|by apply H2].
Qed.

Lemma compileCiphers_lookup `{ControlEnv} order ciphers out :
  compileCiphers order ciphers = Ret out ->
  (forall name cs, out !! name = Some cs ->
     exists c, ciphers !! name = Some c /\ compile_cipher name c = Ret cs) /\
  (forall name, name ∈ order -> is_Some (ciphers !! name) -> is_Some (out !! name)).
Proof.
  revert out. induction order as [|n order IH]; intros out Hc; simpl in Hc.
  { go_inv. subst out. split; [by intros ? ? ?|by intros ? ?%elem_of_nil]. }
  destruct (ciphers !! n) as [c|] eqn:Hn.
  - apply obind_ret in Hc as (cs & Hcs & Hc). apply obind_ret in Hc as (rest & Hr & Hc).
    injection Hc as <-. destruct (IH rest Hr) as [H1 H2]. split.
    + intros name c' [[<- <-]|[_ ?]]%lookup_insert_Some; [by exists c|by apply H1].
    + intros name Hin Hp. destruct (decide (n = name)) as [<-|Hne]; [by rewrite lookup_insert_eq|].
      rewrite lookup_insert_ne by done. apply H2; [|done].
      by apply elem_of_cons in Hin as [->|?].
  - destruct (IH out Hc) as [H1 H2]. split; [done|].
    intros name [->|Hin]%elem_of_cons Hp; [rewrite Hn in Hp; by destruct Hp|by apply H2].
Qed.

Lemma mlen_le_dom {A B} (m1 : gmap string A) (m2 : gmap string B) :
  (forall k, is_Some (m1 !! k) -> is_Some (m2 !! k)) -> mlen m1 <= mlen m2.
Proof.
  intros Hs. unfold mlen. rewrite <- !size_dom. apply inj_le, subseteq_size.
  intros k. rewrite !elem_of_dom. apply Hs.
Qed.

Lemma profile_states_elem profiles p :
  p ∈ profile_states profiles <-> exists name cp, profiles !! name = Some cp /\
    p = mkProfileState (id_of (assignProfileIDs profiles) name) name (StandardToMixed cp)
          (MixedToStandard cp).
Proof.
  unfold profile_states. rewrite list_elem_of_omap.
  destruct (sorted_names_spec profiles) as (_ & Hin & _). split.
  - intros (name & _ & Hp). destruct (profiles !! name) as [cp|] eqn:E; [|done].
    injection Hp as <-. eauto.
  - intros (name & cp & Hcp & ->). exists name. rewrite Hcp. split; [|done]. apply Hin. eauto.
Qed.

Lemma cipher_states_elem ciphers c :
  c ∈ cipher_states ciphers <-> exists name cs, ciphers !! name = Some cs /\
    c = with_cipher_ID cs (id_of (assignCipherIDs ciphers) name).
Proof.
  unfold cipher_states. rewrite list_elem_of_omap.
  destruct (sorted_names_spec ciphers) as (_ & Hin & _). split.
  - intros (name & _ & Hp). destruct (ciphers !! name) as [cp|] eqn:E; [|done].
    injection Hp as <-. eauto.
  - intros (name & cp & Hcp & ->). exists name. rewrite Hcp. split; [|done]. apply Hin. eauto.
Qed.

(** With overlaps rejected, resolved interface indexes are pairwise distinct. *)
Lemma build_underlays_distinct `{ControlEnv} i seen l states :
  build_underlays "reject" false i seen l = Ret states ->
  NoDup (filter (fun n => n <> 0) (map us_IfIndex states)) /\
  forall u, u ∈ states -> us_IfIndex u <> 0 -> us_IfIndex u ∉ seen.
Proof.
  revert i seen states. induction l as [|x l IH]; intros i seen states Hb; simpl in Hb.
  { go_inv. subst. split; [apply NoDup_nil_2|by intros ? ?%elem_of_nil]. }
  apply obind_ret in Hb as (r & _ & Hb). cbn zeta in Hb.
  destruct (negb (res_IfIndex r =? 0) && _ && _) eqn:E; [done|].
  apply obind_ret in Hb as (rest & Hrest & Hb). injection Hb as <-.
  apply IH in Hrest as [Hn Hs]. rewrite andb_true_r in E. cbn [map us_IfIndex].
  rewrite filter_cons. destruct (Z.eqb_spec (res_IfIndex r) 0) as [Hz|Hz].
  - rewrite decide_False by (intros HH; by apply HH). split; [done|].
    intros u [->|Hu]%elem_of_cons Hne; [done|]. by apply Hs.
  - cbn in E. apply bool_decide_eq_false in E. rewrite decide_True by done. split.
    + apply list.NoDup_cons. split; [|done].
      intros [_ (u & Hi & Hu)%list_elem_of_fmap]%list_elem_of_filter.
      apply (Hs u Hu); [congruence|]. rewrite <- Hi. by left.
    + intros u [->|Hu]%elem_of_cons Hne; [done|]. intros Hin. apply (Hs u Hu Hne). by right.
Qed.

(** An underlay is determined by its interface index. *)
Lemma ifindex_inj (states : list UnderlayState) u v :
  NoDup (filter (fun n => n <> 0) (map us_IfIndex states)) -> u ∈ states -> v ∈ states ->
  us_IfIndex u = us_IfIndex v -> us_IfIndex u <> 0 -> u = v.
Proof.
  induction states as [|x states IH]; [by intros _ ?%elem_of_nil|].
  cbn [map]. rewrite filter_cons. intros Hn Hu Hv He Hz.
  assert (forall w, w ∈ states -> us_IfIndex w <> 0 ->
    us_IfIndex w ∈ filter (fun n => n <> 0) (map us_IfIndex states)) as Hin.
  { intros w Hw Hw0. apply list_elem_of_filter. split; [done|]. apply list_elem_of_fmap. by exists w. }
  destruct (decide (us_IfIndex x <> 0)) as [Hx|Hx].
  - apply list.NoDup_cons in Hn as [Hxn Hn]. apply elem_of_cons in Hu as [->|Hu], Hv as [->|Hv].
    + done.
    + destruct Hxn. rewrite He. apply Hin; [done|congruence].
    + destruct Hxn. rewrite <- He. by apply Hin.
    + by apply IH.
  - apply IH; try done; [apply elem_of_cons in Hu as [->|Hu]|apply elem_of_cons in Hv as [->|Hv]];
      try done; exfalso; apply Hx; congruence.
Qed.
