(* ===== verification/AbiSnapshot.v ===== *)
(** * The kernel map contents of one generation (internal/abi/abi.go):
    [FromStateWithGeneration] and the string encodings it uses.

    Map keys are tuples in the field order of the Go structs, padding left out;
    [Snapshot] has one finite map per BPF map. *)
From Stdlib Require Import ZArith Lia.
From stdpp Require Import base option list gmap strings numbers sorting.
From S2P Require Import Prelude Abi Config Profile Control ControlProps.

(** ** Constants *)
Definition Version : Z := 10.
Definition FamilyAny : Z := 0.
Definition FamilyIPv4 : Z := 4.
Definition FamilyIPv6 : Z := 6.
Definition ParserAuto : Z := 0.
Definition ParserEthernet : Z := 1.
Definition ParserL3 : Z := 2.
Definition TransportUDP : Z := 0.
Definition TransportICMP : Z := 1.
Definition TransportFakeTCP : Z := 2.
Definition ICMPRoleNone : Z := 0.
Definition ICMPRoleClient : Z := 1.
Definition ICMPRoleServer : Z := 2.
Definition CipherModeNone : Z := 0.
Definition CipherModeXOR : Z := 1.
Definition ControlKeyGlobal : Z := 0.

(** ** Keys and values *)

(** Generation, profile, cipher or underlay identifier. *)
Definition ProfileKey : Type := Z * Z.
Definition CipherKey : Type := Z * Z.
Definition UnderlayConfigKey : Type := Z * Z.
(** Generation, fwmark, underlay index. *)
Definition ManagedFwmarkKey : Type := Z * Z * Z.
(** Generation, fwmark, underlay index, source port, family. *)
Definition EgressRuleKey : Type := Z * Z * Z * Z * Z.
(** Generation, underlay index, destination port, family. *)
Definition IngressListenerKey : Type := Z * Z * Z * Z.
(** Generation, underlay index, ICMP identifier, family, ICMP type. *)
Definition ICMPListenerKey : Type := Z * Z * Z * Z * Z.

Record ControlValue := mkControlValue { cv_ActiveGeneration : Z; cv_ABIVersion : Z; cv_Flags : Z }.
Record ProfileValue := mkProfileValue {
  pv_Generation : Z; pv_StandardToMixed : words; pv_MixedToStandard : words; pv_PolicyFlags : Z
}.
Record CipherValue := mkCipherValue {
  civ_Generation : Z; civ_Key : list Z; civ_KeyLen : Z; civ_KeyMask : Z; civ_MaxBytes : Z;
  civ_Flags : Z; civ_Mode : Z
}.
Record UnderlayConfigValue := mkUnderlayValue { uv_Generation : Z; uv_ParserMode : Z }.
Record ManagedFwmarkValue := mkManagedValue { mv_Generation : Z; mv_ActionOnMiss : Z }.
Record EgressRuleValue := mkEgressValue {
  ev_Generation : Z; ev_ProfileID : Z; ev_WGID : Z; ev_CipherID : Z; ev_ICMPID : Z; ev_Action : Z;
  ev_TransportMode : Z; ev_ICMPRole : Z
}.
Record IngressListenerValue := mkIngressValue {
  iv_Generation : Z; iv_ProfileID : Z; iv_WGID : Z; iv_CipherID : Z; iv_Action : Z;
  iv_TransportMode : Z
}.
Record ICMPListenerValue := mkICMPValue {
  icv_Generation : Z; icv_ProfileID : Z; icv_WGID : Z; icv_ListenPort : Z; icv_Action : Z;
  icv_Role : Z; icv_Flags : Z
}.

Record Snapshot := mkSnapshot {
  sn_Control : gmap Z ControlValue;
  sn_Profiles : gmap ProfileKey ProfileValue;
  sn_Ciphers : gmap CipherKey CipherValue;
  sn_Underlays : gmap UnderlayConfigKey UnderlayConfigValue;
  sn_ManagedFwmarks : gmap ManagedFwmarkKey ManagedFwmarkValue;
  sn_EgressRules : gmap EgressRuleKey EgressRuleValue;
  sn_IngressListeners : gmap IngressListenerKey IngressListenerValue;
  sn_ICMPListeners : gmap ICMPListenerKey ICMPListenerValue
}.

(** ** String encodings *)

Definition parseCipherMode (value : string) : outcome Z :=
  if str_empty value then Ret CipherModeNone
  else if String.eqb value "xor" then Ret CipherModeXOR else Fail "unsupported cipher mode".
Definition parseFamily (family : string) : outcome Z :=
  if one_of family [""; "any"] then Ret FamilyAny
  else if String.eqb family "ipv4" then Ret FamilyIPv4
  else if String.eqb family "ipv6" then Ret FamilyIPv6 else Fail "unsupported family".
Definition parseParser (parser : string) : outcome Z :=
  if one_of parser [""; "auto"] then Ret ParserAuto
  else if String.eqb parser "ethernet" then Ret ParserEthernet
  else if String.eqb parser "l3" then Ret ParserL3 else Fail "unsupported underlay parser".
Definition parseAction (action : string) : outcome Z :=
  if String.eqb action "pass" then Ret ActionPass
  else if String.eqb action "drop" then Ret ActionDropRule
  else if String.eqb action "rewrite" then Ret ActionRewrite else Fail "unsupported action".
Definition parseTransport (value : string) : outcome Z :=
  if one_of value [""; "udp"] then Ret TransportUDP
  else if String.eqb value "icmp" then Ret TransportICMP
  else if String.eqb value "faketcp" then Ret TransportFakeTCP
  else Fail "unsupported transport mode".
Definition parseICMPRole (value : string) : outcome Z :=
  if str_empty value then Ret ICMPRoleNone
  else if String.eqb value "client" then Ret ICMPRoleClient
  else if String.eqb value "server" then Ret ICMPRoleServer else Fail "unsupported icmp role".

(** ** Entries: the body of each loop.  [None] is an element that is skipped. *)

Definition profile_entry (g : Z) (p : ProfileState) : outcome (option (ProfileKey * ProfileValue)) :=
  Ret (Some ((g, ps_ID p), mkProfileValue g (ps_words p) (ps_reverse p) 0)).

Definition cipher_entry (g : Z) (c : CipherState) : outcome (option (CipherKey * CipherValue)) :=
  let! mode := parseCipherMode (cs_Mode c) in
  fail_if negb (bool_decide (cs_KeyLen c ∈ [16; 32; 64; 256]))
    with "cipher has unsupported key length" in
  fail_if negb (cs_KeyMask c =? u32 (cs_KeyLen c - 1)) with "cipher has wrong key mask" in
  Ret (Some ((g, cs_ID c), mkCipherValue g (expand_key (cs_KeyLen c) (cs_Key c)) (cs_KeyLen c)
                             (cs_KeyMask c) (cs_MaxBytes c) (cs_Flags c) mode)).

Definition underlay_entry (g : Z) (u : UnderlayState)
    : outcome (option (UnderlayConfigKey * UnderlayConfigValue)) :=
  if negb (us_Resolved u) || (us_IfIndex u =? 0) || inactive u then Ret None
  else
    let! parser := parseParser (us_Parser u) in
    Ret (Some ((g, u32 (us_IfIndex u)), mkUnderlayValue g parser)).

Definition managed_entry (g : Z) (r : ManagedFwmarkRule)
    : outcome (option (ManagedFwmarkKey * ManagedFwmarkValue)) :=
  let! action := parseAction (mf_ActionOnMiss r) in
  Ret (Some ((g, mf_FwMark r, u32 (mf_UnderlayIfIndex r)), mkManagedValue g action)).

Definition egress_entry (g : Z) (r : EgressRule)
    : outcome (option (EgressRuleKey * EgressRuleValue)) :=
  let! family := parseFamily (eg_Family r) in
  let! action := parseAction (eg_Action r) in
  let! transport := parseTransport (eg_TransportMode r) in
  let! role := parseICMPRole (eg_ICMPRole r) in
  Ret (Some ((g, eg_FwMark r, u32 (eg_UnderlayIfIndex r), eg_SourcePort r, family),
             mkEgressValue g (eg_ProfileID r) (eg_WGID r) (eg_CipherID r) (eg_ICMPID r) action
               transport role)).

Definition ingress_entry (g : Z) (r : IngressListener)
    : outcome (option (IngressListenerKey * IngressListenerValue)) :=
  let! family := parseFamily (in_Family r) in
  let! action := parseAction (in_Action r) in
  let! transport := parseTransport (in_TransportMode r) in
  Ret (Some ((g, u32 (in_UnderlayIfIndex r), in_DestinationPort r, family),
             mkIngressValue g (in_ProfileID r) (in_WGID r) (in_CipherID r) action transport)).

Definition icmp_entry (g : Z) (r : ICMPListener)
    : outcome (option (ICMPListenerKey * ICMPListenerValue)) :=
  let! family := parseFamily (ic_Family r) in
  let! action := parseAction (ic_Action r) in
  let! role := parseICMPRole (ic_Role r) in
  Ret (Some ((g, u32 (ic_UnderlayIfIndex r), ic_ICMPID r, family, ic_ICMPType r),
             mkICMPValue g (ic_ProfileID r) (ic_WGID r) (ic_ListenPort r) action role (ic_Flags r))).

(** A loop that writes its entries into a map, stopping at the first error. *)
Fixpoint fill {A K V} `{Countable K} (entry : A -> outcome (option (K * V))) (m : gmap K V)
    (l : list A) : outcome (gmap K V) :=
  match l with
  | [] => Ret m
  | x :: l =>
      let! e := entry x in
      fill entry (match e with Some (k, v) => <[k := v]> m | None => m end) l
  end.

Definition FromStateWithGeneration (st : State) (g : Z) : outcome Snapshot :=
  let! profiles := fill (profile_entry g) ∅ (st_Profiles st) in
  let! ciphers := fill (cipher_entry g) ∅ (st_Ciphers st) in
  let! underlays := fill (underlay_entry g) ∅ (st_Underlays st) in
  let! managed := fill (managed_entry g) ∅ (st_ManagedFwmarks st) in
  let! egress := fill (egress_entry g) ∅ (st_EgressRules st) in
  let! ingress := fill (ingress_entry g) ∅ (st_IngressListeners st) in
  let! icmp := fill (icmp_entry g) ∅ (st_ICMPListeners st) in
  Ret (mkSnapshot {[ControlKeyGlobal := mkControlValue g Version 0]} profiles ciphers underlays
         managed egress ingress icmp).

Definition FromState (st : State) : outcome Snapshot := FromStateWithGeneration st (st_Generation st).

(** ** The loops *)

(** If no two elements give the same key different values, the loop succeeds on
    encodable elements and keeps every entry, and the map holds nothing else. *)
Lemma fill_spec {A K V} `{Countable K} (entry : A -> outcome (option (K * V))) l :
  (forall x, x ∈ l -> exists e, entry x = Ret e) ->
  (forall x y k v w, x ∈ l -> y ∈ l -> entry x = Ret (Some (k, v)) ->
     entry y = Ret (Some (k, w)) -> v = w) ->
  exists m, fill entry ∅ l = Ret m /\
    (forall x k v, x ∈ l -> entry x = Ret (Some (k, v)) -> m !! k = Some v) /\
    (forall k v, m !! k = Some v -> exists x, x ∈ l /\ entry x = Ret (Some (k, v))).
Proof.
  intros Htot Hcons.
  assert (forall rest past m, past ++ rest = l ->
    (forall x k v, x ∈ past -> entry x = Ret (Some (k, v)) -> m !! k = Some v) ->
    (forall k v, m !! k = Some v -> exists x, x ∈ past /\ entry x = Ret (Some (k, v))) ->
    exists m', fill entry m rest = Ret m' /\
      (forall x k v, x ∈ l -> entry x = Ret (Some (k, v)) -> m' !! k = Some v) /\
      (forall k v, m' !! k = Some v -> exists x, x ∈ l /\ entry x = Ret (Some (k, v)))) as Hgen.
  2: { apply (Hgen l []); [done|by intros ? ? ? ?%elem_of_nil|]. intros k v Hk.
       by rewrite lookup_empty in Hk. }
  induction rest as [|y rest IH]; intros past m Hl Hp Hm.
  { rewrite app_nil_r in Hl. subst past. by exists m. }
  assert (y ∈ l) as Hy by (rewrite <- Hl; apply elem_of_app; right; by left).
  destruct (Htot y Hy) as [e He]. cbn [fill]. rewrite He. cbn [obind].
  apply (IH (past ++ [y])); [by rewrite <- app_assoc| |].
  - intros x k v Hx Hx'. destruct e as [[k' v']|].
    + destruct (decide (k' = k)) as [->|Hne].
      * rewrite lookup_insert_eq. f_equal. apply (Hcons y x k); try done.
        rewrite <- Hl. apply elem_of_app. apply elem_of_app in Hx as [Hx|Hx]; [by left|].
        apply list_elem_of_singleton in Hx as ->. right. by left.
      * rewrite lookup_insert_ne by done. apply elem_of_app in Hx as [Hx|Hx]; [by eapply Hp|].
        apply list_elem_of_singleton in Hx as ->. congruence.
    + apply elem_of_app in Hx as [Hx|Hx]; [by eapply Hp|].
      apply list_elem_of_singleton in Hx as ->. congruence.
  - intros k v Hk. assert (m !! k = Some v \/ e = Some (k, v)) as [Hk' | -> ].
    { destruct e as [[k' v']|]; [|by left]. apply lookup_insert_Some in Hk as [[-> ->]|[_ ?]]; auto. }
    + destruct (Hm k v Hk') as (x & Hx & Hex). exists x. split; [|done]. apply elem_of_app. by left.
    + exists y. split; [|done]. apply elem_of_app. right. by left.
Qed.

(** Elements with pairwise distinct keys are determined by their key. *)
Lemma nodup_key_inj {A K} (key : A -> K) l x y :
  NoDup (map key l) -> x ∈ l -> y ∈ l -> key x = key y -> x = y.
Proof.
  intros Hn [i Hi]%list_elem_of_lookup [j Hj]%list_elem_of_lookup Hk.
  enough (i = j) by congruence.
  apply (NoDup_lookup (map key l) i j (key x)); [done|..]; rewrite list_lookup_fmap;
    [by rewrite Hi|by rewrite Hj, Hk].
Qed.

(** ** Encodability *)

Definition role_ok (role : string) : bool := one_of role [""; "client"; "server"].
Definition mode_ok (mode : string) : bool := one_of mode [""; "udp"; "icmp"; "faketcp"].

Lemma one_of_elem s l : one_of s l = true <-> s ∈ l.
Proof.
  unfold one_of. rewrite existsb_exists, list_elem_of_In. split.
  - intros (x & Hx & ->%String.eqb_eq). done.
  - intros Hs. exists s. by rewrite String.eqb_refl.
Qed.

Lemma parseICMPRole_ok role : role_ok role = true -> exists v, parseICMPRole role = Ret v.
Proof.
  unfold role_ok. rewrite one_of_elem. intros Hr. set_unfold in Hr.
  destruct Hr as [-> | [-> | [-> | []]]]; eexists; reflexivity.
Qed.

Lemma parseTransport_ok mode : mode_ok mode = true -> exists v, parseTransport mode = Ret v.
Proof.
  unfold mode_ok. rewrite one_of_elem. intros Hr. set_unfold in Hr.
  destruct Hr as [-> | [-> | [-> | [-> | []]]]]; eexists; reflexivity.
Qed.

Lemma parseParser_ok parser : one_of parser [""; "auto"; "ethernet"; "l3"] = true ->
  exists v, parseParser parser = Ret v.
Proof.
  rewrite one_of_elem. intros Hr. set_unfold in Hr.
  destruct Hr as [-> | [-> | [-> | [-> | []]]]]; eexists; reflexivity.
Qed.

Lemma inferParser_ok r : one_of (inferParser r) [""; "auto"; "ethernet"; "l3"] = true.
Proof. unfold inferParser. by repeat (case_match; [done|]). Qed.

(** The two families rules are made for have distinct codes. *)
Lemma parseFamily_rules f : f ∈ ["ipv4"; "ipv6"] -> exists v, parseFamily f = Ret v.
Proof. intros Hf. set_unfold in Hf. destruct Hf as [-> | [-> | []]]; eexists; reflexivity. Qed.
Lemma parseFamily_inj f f' v : f ∈ ["ipv4"; "ipv6"] -> f' ∈ ["ipv4"; "ipv6"] ->
  parseFamily f = Ret v -> parseFamily f' = Ret v -> f = f'.
Proof.
  intros Hf Hf'. set_unfold in Hf. set_unfold in Hf'.
  destruct Hf as [-> | [-> | []]], Hf' as [-> | [-> | []]]; try done; intros [= <-]; done.
Qed.

Lemma egress_families_sub wg f : f ∈ egress_families wg -> f ∈ ["ipv4"; "ipv6"].
Proof. unfold egress_families. destruct (_ || _); set_solver. Qed.
Lemma families_sub wg f : f ∈ families wg -> f ∈ ["ipv4"; "ipv6"].
Proof. unfold families. destruct (String.eqb _ _); set_solver. Qed.

Lemma validate_transport_mode t : validate_transport t = Ret tt -> mode_ok (tr_Mode t) = true.
Proof.
  unfold validate_transport, mode_ok. rewrite one_of_elem. intros H.
  destruct (one_of (tr_Mode t) [""; "udp"]) eqn:E; [apply one_of_elem in E; set_solver|].
  destruct (String.eqb_spec (tr_Mode t) "icmp") as [->|]; [set_solver|].
  destruct (String.eqb_spec (tr_Mode t) "faketcp") as [->|]; [set_solver|].
  by destruct (String.eqb _ "faketcp-lite").
Qed.

Lemma validatePolicy_miss p : validatePolicy p = Ret tt ->
  exists v, parseAction (po_ManagedEgressMapMiss p) = Ret v.
Proof.
  unfold validatePolicy. intros H. go_inv. bool_prop.
  match goal with E : forallb _ _ = true |- _ => rewrite forallb_forall in E;
    specialize (E (po_ManagedEgressMapMiss p, ["pass"; "drop"]) ltac:(cbn; tauto));
    cbn [fst snd] in E; apply one_of_elem in E; set_unfold in E;
    destruct E as [-> | [-> | []]] end; eexists; reflexivity.
Qed.

Lemma build_underlays_parser `{ControlEnv} overlap i seen l states u :
  build_underlays overlap false i seen l = Ret states ->
  (forall x, x ∈ l -> one_of (ul_Parser x) [""; "auto"; "ethernet"; "l3"] = true) ->
  u ∈ states -> one_of (us_Parser u) [""; "auto"; "ethernet"; "l3"] = true.
Proof.
  revert i seen states. induction l as [|x l IH]; intros i seen states Hb Hl Hu; simpl in Hb.
  { go_inv. subst. by apply elem_of_nil in Hu. }
  apply obind_ret in Hb as (r & _ & Hb). cbn zeta in Hb. destruct (_ && _ && _); [done|].
  apply obind_ret in Hb as (rest & Hrest & Hb). injection Hb as <-.
  apply elem_of_cons in Hu as [->|Hu]; [|eapply IH; [exact Hrest| |done]; intros; apply Hl; by right].
  cbn [us_Parser]. match goal with |- context [if ?b then inferParser _ else _] => destruct b end;
    [apply inferParser_ok|].
  unfold normalizeParser. destruct (str_empty (ul_Parser x)); [done|]. apply Hl. by left.
Qed.

Lemma validate_underlays_parser seen l x :
  validate_underlays seen l = Ret tt -> x ∈ l ->
  one_of (ul_Parser x) [""; "auto"; "ethernet"; "l3"] = true.
Proof.
  revert seen. induction l as [|u l IH]; intros seen H Hx; simpl in H; [by apply elem_of_nil in Hx|].
  go_inv. bool_prop. apply elem_of_cons in Hx as [->|Hx]; [done|]. by eapply IH.
Qed.

(** ** The tables of a built state *)

(** Every element's entry is in the map, and the map holds nothing else. *)
Definition table_ok {A K V} `{Countable K} (entry : A -> outcome (option (K * V))) (l : list A)
    (m : gmap K V) : Prop :=
  (forall x, x ∈ l -> exists k v, entry x = Ret (Some (k, v)) /\ m !! k = Some v) /\
  (forall k v, m !! k = Some v -> exists x, x ∈ l /\ entry x = Ret (Some (k, v))).

(** A loop over elements that are all encodable and determined by their key. *)
Lemma fill_table {A K V} `{Countable K} (entry : A -> outcome (option (K * V))) l :
  (forall x, x ∈ l -> exists k v, entry x = Ret (Some (k, v))) ->
  (forall x y k v w, x ∈ l -> y ∈ l -> entry x = Ret (Some (k, v)) ->
     entry y = Ret (Some (k, w)) -> v = w) ->
  exists m, fill entry ∅ l = Ret m /\ table_ok entry l m.
Proof.
  intros Htot Hcons. destruct (fill_spec entry l) as (m & Hm & Hin & Honly); [|done|].
  - intros x Hx. destruct (Htot x Hx) as (k & v & E). eauto.
  - exists m. split; [done|]. split; [|done]. intros x Hx. destruct (Htot x Hx) as (k & v & E). eauto.
Qed.

Lemma compile_cipher_inv `{ControlEnv} name c cs :
  compile_cipher name c = Ret cs ->
  cs_Mode cs = ci_Mode c /\ cs_KeyLen cs = ci_KeyLen c /\ cs_KeyMask cs = u32 (ci_KeyLen c - 1).
Proof. unfold compile_cipher. intros Hc. go_inv. by subst cs. Qed.

Lemma validateCipher_inv c : validateCipher c = Ret tt ->
  ci_Mode c = "xor" /\ ci_KeyLen c ∈ [16; 32; 64; 256].
Proof.
  unfold validateCipher. cbn zeta. intros H. go_inv. bool_prop. split; [|done].
  match goal with E : one_of (ci_Mode c) _ = true |- _ => apply one_of_elem in E end.
  by apply list_elem_of_singleton.
Qed.

(** The environment assumptions of this section: iteration orders that cover
    the maps, interface indexes in the kernel's range, and ICMP roles that are
    unset or legal also where the transport does not use them. *)
Section snapshot.
Context `{ControlEnv} (order po co : list string) (cfg : Config) (st : State) (g : Z).
Context (Ht : config_typed cfg) (Hv : ValidateStatic order cfg = Ret tt).
Context (Hciphers : forall name, is_Some (c_Ciphers cfg !! name) -> name ∈ order /\ name ∈ co).
Context (Hprofiles : forall name, is_Some (c_Profiles cfg !! name) -> name ∈ po).
Context (Hb : BuildState po co cfg false = Ret st).
Context (Hidx : forall u, u ∈ st_Underlays st -> 0 <= us_IfIndex u < 4294967296).
Context (Hrole : forall wg, wg ∈ c_WireGuards cfg -> role_ok (icmp_Role (tr_ICMP (wg_Transport wg))) = true).

Lemma state_wireguard s : s ∈ st_WireGuards st ->
  exists w i profiles ciphers, (w ∈ c_WireGuards cfg /\ c_WireGuards cfg !! i = Some w /\
      ws_ID s = Z.of_nat i + 1) /\
    CompileAll po (c_Profiles cfg) = Ret profiles /\ compileCiphers co (c_Ciphers cfg) = Ret ciphers /\
    st_Profiles st = profile_states profiles /\ st_Ciphers st = cipher_states ciphers /\
    wg_state_of cfg (assignProfileIDs profiles) (assignCipherIDs ciphers) false i w s /\
    wireguard_valid cfg w /\ mode_ok (ws_TransportMode s) = true /\ role_ok (ws_ICMPRole s) = true.
Proof using Ht Hv Hb Hrole.
  intros Hs. destruct (BuildState_inv _ _ _ _ _ Hb) as (ps & cs & Hp & Hc & _ & Eps & Ecs & _ & Hw & _).
  apply (build_wireguards_spec _ _ _ _ 0%nat) in Hw as [Hl Hw].
  apply list_elem_of_lookup in Hs as [k Hk].
  destruct (lookup_lt_is_Some_2 (c_WireGuards cfg) k) as [w Hwk];
    [rewrite <- Hl; by eapply lookup_lt_Some|].
  specialize (Hw k w s Hwk Hk).
  pose proof Hv as (_ & _ & _ & Hwg & Hcap & Hne & _)%ValidateStatic_inv.
  apply capacity_inv in Hcap as (_ & _ & Hbound & _); [|done|done].
  assert (ws_ID s = Z.of_nat (0 + k) + 1) as Hid.
  { pose proof Hw as (-> & _). pose proof (lookup_lt_Some _ _ _ Hwk) as Hlt. apply u32_id.
    unfold len, MaxManagedRulesPerGeneration in *. nia. }
  pose proof (list_elem_of_lookup_2 _ _ _ Hwk) as Hin.
  destruct (validate_wireguards_inv cfg [] _ Hwg) as [_ Hval].
  destruct (Hval w Hin) as [Hvw _]. exists w, (0 + k)%nat, ps, cs. split_and!; try done.
  - pose proof Hw as (_ & _ & -> & _). destruct Hvw as (_ & _ & _ & _ & Htr).
    by apply validate_transport_mode.
  - pose proof Hw as (_ & _ & _ & -> & _). by apply Hrole.
Qed.

Lemma ifindex_u32 u : u ∈ st_Underlays st -> u32 (us_IfIndex u) = us_IfIndex u.
Proof using Hidx. intros Hu. apply u32_id. by apply Hidx. Qed.

Lemma managed_table : exists m, fill (managed_entry g) ∅ (st_ManagedFwmarks st) = Ret m /\
  table_ok (managed_entry g) (st_ManagedFwmarks st) m.
Proof using Hv Hb.
  apply ValidateStatic_inv in Hv as (_ & Hpol & _).
  destruct (validatePolicy_miss _ Hpol) as [a Ha].
  assert (forall r, r ∈ st_ManagedFwmarks st -> mf_ActionOnMiss r = po_ManagedEgressMapMiss (c_Policy cfg))
    as Hr by (intros r (wg & u & _ & ->)%(managed_elem po co cfg st Hb); done).
  apply fill_table.
  - intros r Hin. unfold managed_entry. rewrite (Hr r Hin), Ha. eauto.
  - intros x y k v w Hx Hy. unfold managed_entry. rewrite (Hr x Hx), (Hr y Hy), Ha. cbn. congruence.
Qed.

Lemma egress_table : exists m, fill (egress_entry g) ∅ (st_EgressRules st) = Ret m /\
  table_ok (egress_entry g) (st_EgressRules st) m.
Proof using Ht Hv Hb Hidx Hrole.
  destruct (state_rules po co cfg st Hb) as (_ & Hn & _). apply fill_table.
  - intros r (wg & u & f & Ha & Hf & ->)%(egress_elem po co cfg st Hb).
    destruct (state_wireguard wg (proj1 Ha)) as (w & i & ps & cs & _ & _ & _ & _ & _ & _ & _ & Hm & Hr).
    destruct (parseFamily_rules f (egress_families_sub _ _ Hf)) as [fv Hfv].
    destruct (parseTransport_ok _ Hm) as [tv Htv]. destruct (parseICMPRole_ok _ Hr) as [rv Hrv].
    unfold egress_entry. cbn. rewrite Hfv, Htv, Hrv. cbn. eauto.
  - intros x y k v w Hx Hy Ex Ey. enough (x = y) as -> by congruence.
    apply (nodup_key_inj egressKey (st_EgressRules st)); try done.
    apply (egress_elem po co cfg st Hb) in Hx as (wg & u & f & Ha & Hf & ->).
    apply (egress_elem po co cfg st Hb) in Hy as (wg' & u' & f' & Ha' & Hf' & ->).
    unfold egress_entry in Ex, Ey. go_inv. cbn in *. subst.
    rewrite !ifindex_u32 in * by apply Ha || apply Ha'. unfold egressKey. cbn. simplify_eq/=.
    erewrite (parseFamily_inj f f'); eauto using egress_families_sub. congruence.
Qed.

Lemma ingress_table : exists m, fill (ingress_entry g) ∅ (st_IngressListeners st) = Ret m /\
  table_ok (ingress_entry g) (st_IngressListeners st) m.
Proof using Ht Hv Hb Hidx Hrole.
  destruct (state_rules po co cfg st Hb) as (_ & _ & Hn & _). apply fill_table.
  - intros r (wg & u & f & Ha & Hf & ->)%(ingress_elem po co cfg st Hb).
    destruct (state_wireguard wg (proj1 Ha)) as (w & i & ps & cs & _ & _ & _ & _ & _ & _ & _ & Hm & _).
    destruct (parseFamily_rules f (families_sub _ _ Hf)) as [fv Hfv].
    destruct (parseTransport_ok _ Hm) as [tv Htv].
    unfold ingress_entry. cbn. rewrite Hfv, Htv. destruct (is_icmp_state wg); cbn; eauto.
  - intros x y k v w Hx Hy Ex Ey. enough (x = y) as -> by congruence.
    apply (nodup_key_inj ingressKey (st_IngressListeners st)); try done.
    apply (ingress_elem po co cfg st Hb) in Hx as (wg & u & f & Ha & Hf & ->).
    apply (ingress_elem po co cfg st Hb) in Hy as (wg' & u' & f' & Ha' & Hf' & ->).
    unfold ingress_entry in Ex, Ey. go_inv. cbn in *. subst.
    rewrite !ifindex_u32 in * by apply Ha || apply Ha'. unfold ingressKey. cbn. simplify_eq/=.
    erewrite (parseFamily_inj f f'); eauto using families_sub. congruence.
Qed.

Lemma icmp_table : exists m, fill (icmp_entry g) ∅ (st_ICMPListeners st) = Ret m /\
  table_ok (icmp_entry g) (st_ICMPListeners st) m.
Proof using Ht Hv Hb Hidx Hrole.
  destruct (state_rules po co cfg st Hb) as (_ & _ & _ & Hn). apply fill_table.
  - intros r (wg & u & Ha & _ & ->)%(icmp_elem po co cfg st Hb).
    destruct (state_wireguard wg (proj1 Ha)) as (w & i & ps & cs & _ & _ & _ & _ & _ & _ & _ & _ & Hr).
    destruct (parseICMPRole_ok _ Hr) as [rv Hrv]. unfold icmp_entry. cbn. rewrite Hrv. cbn. eauto.
  - intros x y k v w Hx Hy Ex Ey. enough (x = y) as -> by congruence.
    apply (nodup_key_inj icmpKey (st_ICMPListeners st)); try done.
    apply (icmp_elem po co cfg st Hb) in Hx as (wg & u & Ha & _ & ->).
    apply (icmp_elem po co cfg st Hb) in Hy as (wg' & u' & Ha' & _ & ->).
    unfold icmp_entry in Ex, Ey. go_inv. cbn in *. subst.
    rewrite !ifindex_u32 in * by apply Ha || apply Ha'. unfold icmpKey. cbn. simplify_eq/=. congruence.
Qed.

Lemma underlay_table : exists m, fill (underlay_entry g) ∅ (st_Underlays st) = Ret m /\
  (forall u, u ∈ st_Underlays st -> us_Resolved u = true -> us_IfIndex u <> 0 -> inactive u = false ->
     exists p, parseParser (us_Parser u) = Ret p /\
       m !! (g, us_IfIndex u) = Some (mkUnderlayValue g p)).
Proof using Ht Hv Hb Hidx.
  destruct (BuildState_inv _ _ _ _ _ Hb) as (ps & cs & _ & _ & _ & _ & _ & Hu & _).
  apply ValidateStatic_inv in Hv as (Hul & _ & _ & _ & _ & _ & Hov).
  unfold buildUnderlayStates in Hu. rewrite Hov in Hu.
  assert (forall u, u ∈ st_Underlays st -> exists p, parseParser (us_Parser u) = Ret p) as Hp.
  { intros u Hin. apply parseParser_ok. eapply build_underlays_parser; [exact Hu| |exact Hin].
    intros x Hx. by eapply validate_underlays_parser. }
  destruct (build_underlays_distinct _ _ _ _ Hu) as [Hd _].
  destruct (fill_spec (underlay_entry g) (st_Underlays st)) as (m & Hm & Hin & _).
  - intros u Hu'. unfold underlay_entry. destruct (Hp u Hu') as [p ->]. destruct (_ || _ || _); eauto.
  - intros x y k v w Hx Hy Ex Ey. unfold underlay_entry in *.
    destruct (negb (us_Resolved x) || (us_IfIndex x =? 0) || inactive x) eqn:Cx; [done|].
    destruct (negb (us_Resolved y) || (us_IfIndex y =? 0) || inactive y) eqn:Cy; [done|].
    go_inv. rewrite !ifindex_u32 in * by done. bool_prop. simplify_eq/=.
    enough (x = y) by congruence. by eapply ifindex_inj.
  - exists m. split; [done|]. intros u Hu' Hr Hz Hi. destruct (Hp u Hu') as [p Ep]. exists p.
    split; [done|]. apply (Hin u); [done|]. unfold underlay_entry. rewrite Hr, Hi, Ep.
    destruct (Z.eqb_spec (us_IfIndex u) 0); [done|]. cbn. by rewrite ifindex_u32.
Qed.

(** The profile map holds each compiled profile under its identifier. *)
Lemma profile_table profiles : CompileAll po (c_Profiles cfg) = Ret profiles ->
  exists m, fill (profile_entry g) ∅ (profile_states profiles) = Ret m /\
  forall name cp, profiles !! name = Some cp ->
    m !! (g, id_of (assignProfileIDs profiles) name)
    = Some (mkProfileValue g (StandardToMixed cp) (MixedToStandard cp) 0).
Proof using Ht Hv.
  intros Hc. destruct (CompileAll_lookup _ _ _ Hc) as [Hfrom _].
  apply ValidateStatic_inv in Hv as (_ & _ & _ & _ & Hcap & Hne & _).
  apply capacity_inv in Hcap as (Hmp & _ & _); [|done|done].
  destruct (sorted_names_spec profiles) as (Hnd & Hin & Hlen).
  assert (len (sorted_names profiles) < 4294967296) as Hl.
  { rewrite Hlen. unfold MaxProfilesPerGeneration in Hmp. enough (mlen profiles <= mlen (c_Profiles cfg)) by lia.
    apply mlen_le_dom. intros k [cp Hk]. destruct (Hfrom k cp Hk) as (pc & -> & _). eauto. }
  destruct (fill_table (profile_entry g) (profile_states profiles)) as (m & Hm & Hok & _).
  - intros x _. unfold profile_entry. eauto.
  - intros x y k v w (n1 & c1 & H1 & ->)%profile_states_elem (n2 & c2 & H2 & ->)%profile_states_elem.
    unfold profile_entry. cbn. intros [= <- <-] [= Hid <-].
    assert (n1 = n2) as ->; [|congruence]. symmetry.
    apply (ids_of_inj (sorted_names profiles)); try done; apply Hin; eauto.
  - exists m. split; [done|]. intros name cp Hcp.
    destruct (Hok (mkProfileState (id_of (assignProfileIDs profiles) name) name (StandardToMixed cp)
      (MixedToStandard cp))) as (k & v & Hkv & Hmv); [apply profile_states_elem; eauto|].
    unfold profile_entry in Hkv. cbn in Hkv. by simplify_eq/=.
Qed.

(** Every declared cipher has an entry with its mode and generation. *)
Lemma cipher_table ciphers : compileCiphers co (c_Ciphers cfg) = Ret ciphers ->
  exists m, fill (cipher_entry g) ∅ (cipher_states ciphers) = Ret m /\
  forall name, is_Some (ciphers !! name) -> exists cv,
    m !! (g, id_of (assignCipherIDs ciphers) name) = Some cv /\
    civ_Generation cv = g /\ civ_Mode cv = CipherModeXOR.
Proof using Ht Hv Hciphers.
  intros Hc. destruct (compileCiphers_lookup _ _ _ Hc) as [Hfrom _].
  pose proof Hv as (_ & _ & Hvc & _ & Hcap & Hne & _)%ValidateStatic_inv.
  apply capacity_inv in Hcap as (_ & Hmp & _); [|done|done].
  destruct (sorted_names_spec ciphers) as (Hnd & Hin & Hlen).
  assert (len (sorted_names ciphers) < 4294967296) as Hl.
  { rewrite Hlen. unfold MaxCiphersPerGeneration in Hmp. enough (mlen ciphers <= mlen (c_Ciphers cfg)) by lia.
    apply mlen_le_dom. intros k [cp Hk]. destruct (Hfrom k cp Hk) as (pc & -> & _). eauto. }
  assert (forall name cs id, ciphers !! name = Some cs ->
    exists v, cipher_entry g (with_cipher_ID cs id) = Ret (Some ((g, id), v)) /\
      civ_Generation v = g /\ civ_Mode v = CipherModeXOR) as He.
  { intros name cs id Hcs. destruct (Hfrom name cs Hcs) as (c & Hcc & Hcomp).
    apply compile_cipher_inv in Hcomp as (Hmode & Hkl & Hkm).
    destruct (Hciphers name) as [Ho _]; [eauto|].
    destruct (validateCipher_inv c (validate_ciphers_inv cfg order name c Hvc Ho Hcc)) as [Hx Hk].
    unfold cipher_entry. cbn. rewrite Hmode, Hkl, Hkm, Hx. cbn.
    rewrite bool_decide_true by done. rewrite Z.eqb_refl. cbn. eexists. split; [done|]. done. }
  destruct (fill_table (cipher_entry g) (cipher_states ciphers)) as (m & Hm & Hok & _).
  - intros x (n & cs & Hcs & ->)%cipher_states_elem.
    destruct (He n cs (id_of (assignCipherIDs ciphers) n) Hcs) as (v & Hv' & _). eauto.
  - intros x y k v w (n1 & c1 & H1 & ->)%cipher_states_elem (n2 & c2 & H2 & ->)%cipher_states_elem.
    destruct (He n1 c1 (id_of (assignCipherIDs ciphers) n1) H1) as (v1 & E1 & _).
    destruct (He n2 c2 (id_of (assignCipherIDs ciphers) n2) H2) as (v2 & E2 & _).
    intros Ex Ey. rewrite E1 in Ex. rewrite E2 in Ey. injection Ex as <- <-. injection Ey as Hid <-.
    assert (n1 = n2) as ->; [|congruence]. symmetry.
    apply (ids_of_inj (sorted_names ciphers)); try done; apply Hin; eauto.
  - exists m. split; [done|]. intros name [cs Hcs].
    destruct (He name cs (id_of (assignCipherIDs ciphers) name) Hcs) as (v & E & Hgm).
    destruct (Hok (with_cipher_ID cs (id_of (assignCipherIDs ciphers) name))) as (k & v' & Hkv & Hmv);
      [apply cipher_states_elem; eauto|]. rewrite E in Hkv. injection Hkv as <- <-. eauto.
Qed.
End snapshot.

(** The identifiers of a rule belong together: [wgID] is the one-based position of
    a configured WireGuard, and the profile and cipher identifiers lead to the
    profile and the cipher which that WireGuard names. *)
Definition references_ok (cfg : Config) (g : Z) (snap : Snapshot) (wgID profileID cipherID : Z) : Prop :=
  exists i w pc cp, c_WireGuards cfg !! i = Some w /\ wgID = Z.of_nat i + 1 /\ c_Profiles cfg !! wg_Profile w = Some pc /\
    Compile (wg_Profile w) pc = Ret cp /\
    sn_Profiles snap !! (g, profileID)
      = Some (mkProfileValue g (StandardToMixed cp) (MixedToStandard cp) 0) /\
    (wg_Cipher w = "" -> cipherID = 0) /\
    (wg_Cipher w <> "" -> exists cv, sn_Ciphers snap !! (g, cipherID) = Some cv /\
       civ_Generation cv = g /\ civ_Mode cv = CipherModeXOR).


(** ** Witness, and the gap the role hypothesis closes *)

Lemma sample_state_indexes u : u ∈ st_Underlays sample_state -> 0 <= us_IfIndex u < 4294967296.
Proof.
  assert (Forall (fun u => 0 <= us_IfIndex u < 4294967296) (st_Underlays sample_state)) as Hf
    by (apply (bool_decide_unpack _); by vm_compute).
  rewrite Forall_forall in Hf. intros Hu. by apply Hf.
Qed.
Lemma sample_config_roles wg :
  wg ∈ c_WireGuards sample_config -> role_ok (icmp_Role (tr_ICMP (wg_Transport wg))) = true.
Proof.
  assert (Forall (fun wg => role_ok (icmp_Role (tr_ICMP (wg_Transport wg))) = true)
    (c_WireGuards sample_config)) as Hf by (apply (bool_decide_unpack _); by vm_compute).
  rewrite Forall_forall in Hf. intros Hu. by apply Hf.
Qed.
Lemma sample_config_profiles name : is_Some (c_Profiles sample_config !! name) -> name ∈ ["default"].
Proof.
  intros [p Hp]. unfold sample_config in Hp. cbn in Hp.
  apply lookup_singleton_Some in Hp as [<- _]. by left.
Qed.


(** A UDP WireGuard with an ICMP role no one uses passes validation and builds a
    state, but that state has no map contents. *)
Definition stray_role_config : Config :=
  ApplyDefaults (mkConfig 0 "" [mkUnderlay "wan" "netdev" "ethernet"]
    [mkWireGuard "wg0" "" "default" "" ""
       (mkTransport "udp" (mkICMP "peer" 0) (mkFakeTCP false "" "" 0 0 0 0 0 0 0 0 0 0 0 0 0 0))]
    {["default" := mkProfile "wireguard-mix-wire-values-v1" TypeWordProfile_zero "none" false]}
    ∅ "" (mkRuntime 0 "" "" false false false false false) (mkGuard "" "" "" "") "" Policy_zero).

Example stray_role_rejected_late :
  ValidateStatic [] stray_role_config = Ret tt /\
  exists st, BuildState ["default"] [] stray_role_config false = Ret st /\
    FromState st = Fail "unsupported icmp role".
Proof.
  split; [vm_compute; reflexivity|].
  exists (state_of (BuildState ["default"] [] stray_role_config false)).
  split; vm_compute; reflexivity.
Qed.
