(* ===== verification/Policy.v ===== *)
(** * FakeTCP policy of one generation (internal/dataplane/faketcp_policy.go):
    the projection of the control state to the FakeTCP maps, its validation, and
    the frozen generation plan.

    Map keys are tuples in the field order of the Go structs, padding left out.
    A Go loop over a map stops at the first offending entry in an unspecified
    order; here the order is that of [map_to_list], which only affects which
    error is reported. *)
From Stdlib Require Import ZArith Lia.
From stdpp Require Import base option list gmap strings numbers sorting.
From S2P Require Import Prelude Abi Config Profile Control ControlProps AbiSnapshot.

Definition fakeTCPManagedInterfacesPerGeneration : Z := 256.
Definition fakeTCPManagedPortsPerGeneration : Z := 1024.
Definition fakeTCPControlPoliciesPerGeneration : Z := 256.
Definition fakeTCPControlMinInterval : Z := 10 * Millisecond.
Definition fakeTCPControlMaxInterval : Z := 10 * Second.

(** ** Data *)

Record FakeTCPControlPolicyValue := mkPolicy {
  cpv_Generation : Z; cpv_VirtualTimeNanos : Z; cpv_IntervalNanos : Z; cpv_Burst : Z;
  cpv_Reserved : Z
}.
Record FakeTCPManagedPortValue := mkPort {
  mpv_Generation : Z; mpv_WGID : Z; mpv_Action : Z; mpv_Reserved : list Z
}.
Record FakeTCPManagedIfValue := mkIf { miv_Generation : Z }.

#[export] Instance FakeTCPControlPolicyValue_eq_dec : EqDecision FakeTCPControlPolicyValue.
Proof. solve_decision. Defined.
#[export] Instance FakeTCPManagedPortValue_eq_dec : EqDecision FakeTCPManagedPortValue.
Proof. solve_decision. Defined.
#[export] Instance FakeTCPManagedIfValue_eq_dec : EqDecision FakeTCPManagedIfValue.
Proof. solve_decision. Defined.

Record fakeTCPPolicySnapshot := mkPolicySnapshot {
  fs_Generation : Z;
  (** By generation and WireGuard identifier. *)
  fs_ControlPolicies : gmap (Z * Z) FakeTCPControlPolicyValue;
  (** By generation, underlay index and destination port. *)
  fs_ManagedPorts : gmap (Z * Z * Z) FakeTCPManagedPortValue;
  (** By generation and underlay index. *)
  fs_ManagedInterfaces : gmap (Z * Z) FakeTCPManagedIfValue
}.

(** A plan entry is a key with its value. *)
Definition fakeTCPControlPolicyPlanEntry : Type := (Z * Z) * FakeTCPControlPolicyValue.
Definition fakeTCPManagedPortPlanEntry : Type := (Z * Z * Z) * FakeTCPManagedPortValue.
Definition fakeTCPManagedInterfacePlanEntry : Type := (Z * Z) * FakeTCPManagedIfValue.

Record fakeTCPPolicyGenerationPlan := mkPlan {
  pl_generation : Z;
  pl_controlPolicies : list fakeTCPControlPolicyPlanEntry;
  pl_managedPorts : list fakeTCPManagedPortPlanEntry;
  pl_managedInterfaces : list fakeTCPManagedInterfacePlanEntry
}.

#[export] Instance fakeTCPPolicyGenerationPlan_eq_dec : EqDecision fakeTCPPolicyGenerationPlan.
Proof. solve_decision. Defined.

(** ** Plans *)

Definition policy_le (a b : fakeTCPControlPolicyPlanEntry) : Prop := (a.1.2 <= b.1.2)%Z.
Definition port_le (a b : fakeTCPManagedPortPlanEntry) : Prop :=
  (a.1.1.2 < b.1.1.2 \/ a.1.1.2 = b.1.1.2 /\ a.1.2 <= b.1.2)%Z.
Definition if_le (a b : fakeTCPManagedInterfacePlanEntry) : Prop := (a.1.2 <= b.1.2)%Z.
#[export] Instance policy_le_dec a b : Decision (policy_le a b).
Proof. unfold policy_le. apply _. Defined.
#[export] Instance port_le_dec a b : Decision (port_le a b).
Proof. unfold port_le. apply _. Defined.
#[export] Instance if_le_dec a b : Decision (if_le a b).
Proof. unfold if_le. apply _. Defined.

Definition freezeFakeTCPPolicyGenerationPlan (s : fakeTCPPolicySnapshot)
    : fakeTCPPolicyGenerationPlan :=
  mkPlan (fs_Generation s)
    (merge_sort policy_le (map_to_list (fs_ControlPolicies s)))
    (merge_sort port_le (map_to_list (fs_ManagedPorts s)))
    (merge_sort if_le (map_to_list (fs_ManagedInterfaces s))).

(** Writing the entries into a fresh map, in order. *)
Definition write_entries {K V} `{Countable K} (l : list (K * V)) : gmap K V :=
  foldl (fun m e => <[e.1 := e.2]> m) ∅ l.

Definition plan_snapshot (p : fakeTCPPolicyGenerationPlan) : fakeTCPPolicySnapshot :=
  mkPolicySnapshot (pl_generation p) (write_entries (pl_controlPolicies p))
    (write_entries (pl_managedPorts p)) (write_entries (pl_managedInterfaces p)).

Definition plan_equal (p q : fakeTCPPolicyGenerationPlan) : bool :=
  (pl_generation p =? pl_generation q) &&
  bool_decide (pl_controlPolicies p = pl_controlPolicies q) &&
  bool_decide (pl_managedPorts p = pl_managedPorts q) &&
  bool_decide (pl_managedInterfaces p = pl_managedInterfaces q).

(** ** Validation *)

(** A loop with early return. *)
Fixpoint for_each {A} (body : A -> outcome unit) (l : list A) : outcome unit :=
  match l with [] => Ret tt | x :: l => check! body x in for_each body l end.

Definition interface_entry_ok (g : Z) (e : fakeTCPManagedInterfacePlanEntry) : outcome unit :=
  let '((kg, idx), v) := e in
  fail_if negb (kg =? g) || negb (miv_Generation v =? g)
    with "managed interface generation does not match snapshot generation" in
  fail_if idx =? 0 with "managed interface has zero underlay index" in
  Ret tt.

Definition policy_entry_ok (g : Z) (e : fakeTCPControlPolicyPlanEntry) : outcome unit :=
  let '((kg, wgID), v) := e in
  fail_if negb (kg =? g) || negb (cpv_Generation v =? g)
    with "control policy generation does not match snapshot generation" in
  fail_if wgID =? 0 with "control policy has zero WireGuard ID" in
  fail_if negb (cpv_VirtualTimeNanos v =? 0) with "nonzero BPF-owned virtual time" in
  fail_if negb (cpv_Reserved v =? 0) with "nonzero reserved field" in
  fail_if (cpv_IntervalNanos v <? fakeTCPControlMinInterval) ||
          (fakeTCPControlMaxInterval <? cpv_IntervalNanos v) with "invalid interval" in
  fail_if (cpv_Burst v =? 0) || (MaxFakeTCPSYNBurst <? cpv_Burst v) with "invalid burst" in
  Ret tt.

Definition port_entry_ok (s : fakeTCPPolicySnapshot) (e : fakeTCPManagedPortPlanEntry)
    : outcome unit :=
  let '((kg, idx, port), v) := e in
  fail_if negb (kg =? fs_Generation s) || negb (mpv_Generation v =? fs_Generation s)
    with "managed port generation does not match snapshot generation" in
  fail_if (idx =? 0) || (port =? 0) with "managed port has zero interface or destination port" in
  fail_if (mpv_WGID v =? 0) || negb (mpv_Action v =? ActionRewrite)
    with "managed port has invalid WireGuard ID or action" in
  fail_if negb (bool_decide (mpv_Reserved v = zeros 3))
    with "managed port has nonzero reserved bytes" in
  fail_if negb (bool_decide (is_Some (fs_ManagedInterfaces s !! (fs_Generation s, idx))))
    with "managed port has no interface latch" in
  fail_if negb (bool_decide (is_Some (fs_ControlPolicies s !! (fs_Generation s, mpv_WGID v))))
    with "managed port has no WireGuard control policy" in
  Ret tt.

Definition validateFakeTCPPolicySnapshot (s : fakeTCPPolicySnapshot) : outcome unit :=
  fail_if fs_Generation s =? 0 with "snapshot generation must be nonzero" in
  fail_if (mlen (fs_ManagedInterfaces s) =? 0) || (mlen (fs_ManagedPorts s) =? 0) ||
          (mlen (fs_ControlPolicies s) =? 0)
    with "snapshot contains no complete managed FakeTCP policy" in
  fail_if fakeTCPManagedInterfacesPerGeneration <? mlen (fs_ManagedInterfaces s)
    with "managed interfaces exceed per-generation capacity" in
  fail_if fakeTCPManagedPortsPerGeneration <? mlen (fs_ManagedPorts s)
    with "managed ports exceed per-generation capacity" in
  fail_if fakeTCPControlPoliciesPerGeneration <? mlen (fs_ControlPolicies s)
    with "control policies exceed per-generation capacity" in
  check! for_each (interface_entry_ok (fs_Generation s)) (map_to_list (fs_ManagedInterfaces s)) in
  check! for_each (policy_entry_ok (fs_Generation s)) (map_to_list (fs_ControlPolicies s)) in
  let ports := map_to_list (fs_ManagedPorts s) in
  check! for_each (port_entry_ok s) ports in
  let referencedInterfaces := map (fun e => (fs_Generation s, e.1.1.2)) ports in
  let referencedPolicies := map (fun e => (fs_Generation s, mpv_WGID e.2)) ports in
  check! for_each (fun e => fail_if negb (bool_decide (e.1 ∈ referencedInterfaces))
                      with "managed interface has no managed port" in Ret tt)
           (map_to_list (fs_ManagedInterfaces s)) in
  check! for_each (fun e => fail_if negb (bool_decide (e.1 ∈ referencedPolicies))
                      with "control policy has no managed port" in Ret tt)
           (map_to_list (fs_ControlPolicies s)) in
  Ret tt.

Definition validateFakeTCPPolicyGenerationPlan (p : fakeTCPPolicyGenerationPlan) : outcome unit :=
  let s := plan_snapshot p in
  fail_if negb (mlen (fs_ControlPolicies s) =? len (pl_controlPolicies p)) ||
          negb (mlen (fs_ManagedPorts s) =? len (pl_managedPorts p)) ||
          negb (mlen (fs_ManagedInterfaces s) =? len (pl_managedInterfaces p))
    with "plan contains duplicate keys" in
  check! validateFakeTCPPolicySnapshot s in
  fail_if negb (plan_equal p (freezeFakeTCPPolicyGenerationPlan s))
    with "plan entries are not in canonical order" in
  Ret tt.

Definition newFakeTCPPolicyGenerationPlan (s : fakeTCPPolicySnapshot)
    : outcome fakeTCPPolicyGenerationPlan :=
  let plan := freezeFakeTCPPolicyGenerationPlan s in
  check! validateFakeTCPPolicyGenerationPlan plan in
  Ret plan.

(** ** Projection of the control state *)

Definition validateFakeTCPPolicyWireGuard (wg : WireGuardState) : outcome unit :=
  let f := ws_FakeTCP wg in
  fail_if negb (String.eqb (ft_ChecksumMode f) FakeTCPChecksumModePartialCompleteReset)
    with "WireGuard checksum mode" in
  fail_if negb (String.eqb (ft_IngressMode f) FakeTCPIngressModeXDPGenericExact)
    with "WireGuard ingress mode" in
  fail_if (ft_SYNRateInterval f <? fakeTCPControlMinInterval) ||
          (fakeTCPControlMaxInterval <? ft_SYNRateInterval f)
    with "WireGuard control interval is outside" in
  fail_if (ft_SYNBurst f =? 0) || (MaxFakeTCPSYNBurst <? ft_SYNBurst f)
    with "WireGuard control burst is outside" in
  Ret tt.

Fixpoint index_wireguards (m : gmap Z WireGuardState) (l : list WireGuardState)
    : outcome (gmap Z WireGuardState) :=
  match l with
  | [] => Ret m
  | wg :: l =>
      if ws_ID wg =? 0 then
        fail_if String.eqb (ws_TransportMode wg) "faketcp" with "WireGuard has zero ID" in
        index_wireguards m l
      else
        fail_if bool_decide (is_Some (m !! ws_ID wg)) with "WireGuard ID is duplicated" in
        index_wireguards (<[ws_ID wg := wg]> m) l
  end.

Fixpoint index_underlays (m : gmap Z UnderlayState) (l : list UnderlayState)
    : outcome (gmap Z UnderlayState) :=
  match l with
  | [] => Ret m
  | u :: l =>
      if us_IfIndex u <=? 0 then index_underlays m l
      else
        fail_if bool_decide (is_Some (m !! us_IfIndex u)) with "underlay ifindex is duplicated" in
        index_underlays (<[us_IfIndex u := u]> m) l
  end.

(** The checks of one listener; they give its WireGuard. *)
Definition listener_wireguard (stGen : Z) (wgs : gmap Z WireGuardState)
    (us : gmap Z UnderlayState) (r : IngressListener) : outcome WireGuardState :=
  fail_if negb (in_Generation r =? stGen) with "source generation does not match" in
  fail_if negb (String.eqb (in_Family r) "ipv4") with "family is unsupported" in
  fail_if in_DestinationPort r =? 0 with "zero destination port" in
  fail_if negb (String.eqb (in_Action r) "rewrite") with "action is unsupported" in
  fail_if (in_UnderlayIfIndex r <=? 0) || (max_u32 <? u64 (in_UnderlayIfIndex r))
    with "underlay ifindex is invalid" in
  match us !! in_UnderlayIfIndex r with
  | None => Fail "unknown underlay ifindex"
  | Some u =>
      fail_if negb (us_Resolved u) || negb (String.eqb (us_Role u) "transform")
        with "underlay is not a resolved transform attachment" in
      fail_if negb (one_of (us_Parser u) ["ethernet"; "l3"]) with "underlay parser" in
      match wgs !! in_WGID r with
      | None => Fail "unknown WireGuard ID"
      | Some wg =>
          fail_if negb (String.eqb (ws_TransportMode wg) "faketcp")
            with "references WireGuard with other transport" in
          check! validateFakeTCPPolicyWireGuard wg in
          Ret wg
      end
  end.

Definition policy_of (g : Z) (wg : WireGuardState) : FakeTCPControlPolicyValue :=
  mkPolicy g 0 (u64 (ft_SYNRateInterval (ws_FakeTCP wg))) (ft_SYNBurst (ws_FakeTCP wg)) 0.

Fixpoint project_listeners (stGen g : Z) (wgs : gmap Z WireGuardState) (us : gmap Z UnderlayState)
    (s : fakeTCPPolicySnapshot) (l : list IngressListener) : outcome fakeTCPPolicySnapshot :=
  match l with
  | [] => Ret s
  | r :: l =>
      if negb (String.eqb (in_TransportMode r) "faketcp") then project_listeners stGen g wgs us s l
      else
        let! wg := listener_wireguard stGen wgs us r in
        let idx := u32 (in_UnderlayIfIndex r) in
        let portKey := (g, idx, in_DestinationPort r) in
        fail_if bool_decide (is_Some (fs_ManagedPorts s !! portKey))
          with "duplicate managed listener" in
        let policyKey := (g, ws_ID wg) in
        project_listeners stGen g wgs us
          (mkPolicySnapshot (fs_Generation s)
             (if bool_decide (is_Some (fs_ControlPolicies s !! policyKey)) then fs_ControlPolicies s
              else <[policyKey := policy_of g wg]> (fs_ControlPolicies s))
             (<[portKey := mkPort g (in_WGID r) ActionRewrite (zeros 3)]> (fs_ManagedPorts s))
             (<[(g, idx) := mkIf g]> (fs_ManagedInterfaces s))) l
  end.

Definition buildFakeTCPPolicySnapshot (st : State) (g : Z) : outcome fakeTCPPolicySnapshot :=
  fail_if st_Generation st =? 0 with "source state generation must be nonzero" in
  fail_if g =? 0 with "target generation must be nonzero" in
  let! wgs := index_wireguards ∅ (st_WireGuards st) in
  let! us := index_underlays ∅ (st_Underlays st) in
  let! s := project_listeners (st_Generation st) g wgs us (mkPolicySnapshot g ∅ ∅ ∅)
              (st_IngressListeners st) in
  check! validateFakeTCPPolicySnapshot s in
  Ret s.

Definition buildFakeTCPPolicyGenerationPlan (st : State) (g : Z)
    : outcome fakeTCPPolicyGenerationPlan :=
  let! s := buildFakeTCPPolicySnapshot st g in
  Ret (freezeFakeTCPPolicyGenerationPlan s).

(** The firewall marks of the WireGuards the policy refers to. *)
Fixpoint index_wireguards_nonzero (m : gmap Z WireGuardState) (l : list WireGuardState)
    : outcome (gmap Z WireGuardState) :=
  match l with
  | [] => Ret m
  | wg :: l =>
      if ws_ID wg =? 0 then index_wireguards_nonzero m l
      else
        fail_if bool_decide (is_Some (m !! ws_ID wg)) with "duplicate WireGuard ID" in
        index_wireguards_nonzero (<[ws_ID wg := wg]> m) l
  end.

Fixpoint collect_marks (wgs : gmap Z WireGuardState) (marks : gmap Z Z)
    (l : list fakeTCPControlPolicyPlanEntry) : outcome (gmap Z Z) :=
  match l with
  | [] => Ret marks
  | ((_, wgID), _) :: l =>
      match wgs !! wgID with
      | None => Fail "WireGuard ID is absent"
      | Some wg =>
          fail_if negb (String.eqb (ws_TransportMode wg) "faketcp") ||
                  negb (ws_RuntimeStateAvailable wg) || (ws_RuntimeFirewallMark wg =? 0)
            with "WireGuard has no live nonzero FakeTCP mark" in
          collect_marks wgs (<[wgID := ws_RuntimeFirewallMark wg]> marks) l
      end
  end.

Definition buildFakeTCPControllerMarks (st : State) (s : fakeTCPPolicySnapshot)
    : outcome (gmap Z Z) :=
  check! validateFakeTCPPolicySnapshot s in
  let! wgs := index_wireguards_nonzero ∅ (st_WireGuards st) in
  collect_marks wgs ∅ (map_to_list (fs_ControlPolicies s)).

(** ** Loops *)

Lemma for_each_iff {A} (body : A -> outcome unit) l :
  for_each body l = Ret tt <-> forall x, x ∈ l -> body x = Ret tt.
Proof.
  induction l as [|x l IH]; simpl; [split; [by intros _ ? ?%elem_of_nil|done]|].
  rewrite obind_ret. split.
  - intros ([] & Hx & Hl) y [->|Hy]%elem_of_cons; [done|]. by apply IH.
  - intros Hall. exists tt. split; [apply Hall; by left|]. apply IH. intros. apply Hall. by right.
Qed.

Lemma write_entries_perm {K V} `{Countable K} (l : list (K * V)) (m : gmap K V) :
  l ≡ₚ map_to_list m -> write_entries l = m.
Proof.
  intros Hp. unfold write_entries.
  assert (forall l (acc : gmap K V), foldl (fun m e => <[e.1 := e.2]> m) acc l
    = foldr (fun e m => <[e.1 := e.2]> m) acc (rev l)) as Hrev.
  { induction l0 as [|e l0 IH]; intros acc; simpl; [done|]. rewrite IH. by rewrite foldr_app. }
  rewrite Hrev. change (list_to_map (rev l) = m). rewrite <- (list_to_map_to_list m).
  assert (rev l ≡ₚ map_to_list m) as Hp' by (rewrite <- Hp; symmetry; apply Permutation_rev).
  apply list_to_map_proper; [|done]. rewrite Hp'. apply NoDup_fst_map_to_list.
Qed.

Lemma plan_snapshot_freeze s : plan_snapshot (freezeFakeTCPPolicyGenerationPlan s) = s.
Proof.
  destruct s. unfold plan_snapshot, freezeFakeTCPPolicyGenerationPlan. cbn.
  f_equal; apply write_entries_perm, merge_sort_Permutation.
Qed.

Lemma mlen_sorted {K V} `{Countable K} (m : gmap K V) R `{!RelDecision R} :
  mlen m = len (merge_sort R (map_to_list m)).
Proof. unfold mlen, len. by rewrite merge_sort_Permutation, length_map_to_list. Qed.

Lemma freeze_valid s : validateFakeTCPPolicySnapshot s = Ret tt ->
  validateFakeTCPPolicyGenerationPlan (freezeFakeTCPPolicyGenerationPlan s) = Ret tt.
Proof.
  intros Hv. unfold validateFakeTCPPolicyGenerationPlan. cbn zeta. rewrite plan_snapshot_freeze, Hv.
  unfold freezeFakeTCPPolicyGenerationPlan at 1 2 3.
  cbn [pl_controlPolicies pl_managedPorts pl_managedInterfaces].
  repeat match goal with |- context [mlen ?m =? ?n] =>
    replace (mlen m =? n) with true by (symmetry; apply Z.eqb_eq, mlen_sorted) end.
  cbn [negb orb obind]. unfold plan_equal. by rewrite Z.eqb_refl, !bool_decide_true.
Qed.

Lemma plan_equal_eq p q : plan_equal p q = true -> p = q.
Proof.
  destruct p, q. unfold plan_equal. cbn. intros H. bool_prop. by subst.
Qed.

(** Generation plans are a canonical, lossless form of the policy.  Freezing
    any snapshot and reading it back gives the snapshot; the frozen plan of a
    valid snapshot is a valid plan; and a plan accepted as valid is the frozen
    form of its snapshot, so two valid plans with the same policy are the same
    plan, whatever order the maps were built or iterated in. *)
Theorem plan_canonical :
  (forall s, plan_snapshot (freezeFakeTCPPolicyGenerationPlan s) = s) /\
  (forall s, validateFakeTCPPolicySnapshot s = Ret tt ->
     newFakeTCPPolicyGenerationPlan s = Ret (freezeFakeTCPPolicyGenerationPlan s)) /\
  (forall p, validateFakeTCPPolicyGenerationPlan p = Ret tt ->
     validateFakeTCPPolicySnapshot (plan_snapshot p) = Ret tt /\
     p = freezeFakeTCPPolicyGenerationPlan (plan_snapshot p)).
Proof.
  split_and!; [apply plan_snapshot_freeze| |].
  - intros s Hs. unfold newFakeTCPPolicyGenerationPlan. cbn zeta. by rewrite freeze_valid.
  - intros p Hp. unfold validateFakeTCPPolicyGenerationPlan in Hp. cbn zeta in Hp. go_inv.
    bool_prop. destruct x. split; [done|]. by apply plan_equal_eq.
Qed.

(** A policy with one WireGuard on one port. *)
Definition sample_policy : fakeTCPPolicySnapshot :=
  mkPolicySnapshot 3 {[(3, 1) := mkPolicy 3 0 fakeTCPControlMinInterval 4 0]}
    {[(3, 2, 51820) := mkPort 3 1 ActionRewrite (zeros 3)]} {[(3, 2) := mkIf 3]}.

Lemma plan_canonical_witness :
  newFakeTCPPolicyGenerationPlan sample_policy = Ret (freezeFakeTCPPolicyGenerationPlan sample_policy).
Proof. apply plan_canonical. vm_compute. reflexivity. Defined.
