(* ===== verification/PolicyProps.v ===== *)
(** * The FakeTCP policy of a validated configuration: the projection succeeds
    and holds exactly the FakeTCP listeners. *)
From Stdlib Require Import ZArith Lia.
From stdpp Require Import base option list gmap strings numbers sorting.
From S2P Require Import Prelude Abi Config Profile Control ControlProps AbiSnapshot Policy.

(** ** Index maps *)

Lemma index_wireguards_ok m l :
  NoDup (map ws_ID l) -> (forall wg, wg ∈ l -> ws_ID wg <> 0 /\ m !! ws_ID wg = None) ->
  exists m', index_wireguards m l = Ret m' /\ index_wireguards_nonzero m l = Ret m' /\
    (forall wg, wg ∈ l -> m' !! ws_ID wg = Some wg) /\ m ⊆ m'.
Proof.
  revert m. induction l as [|wg l IH]; intros m Hn Hl; simpl.
  { exists m. split_and!; try done. by intros ? ?%elem_of_nil. }
  destruct (Hl wg) as [Hz Hm]; [by left|]. apply list.NoDup_cons in Hn as [Hwg Hn].
  destruct (Z.eqb_spec (ws_ID wg) 0); [done|]. rewrite bool_decide_false by (rewrite Hm; by intros []).
  destruct (IH (<[ws_ID wg := wg]> m) Hn) as (m' & H1 & H2 & Hin & Hsub).
  - intros w Hw. destruct (Hl w) as [? Hw']; [by right|]. split; [done|].
    rewrite lookup_insert_ne; [done|]. intros E. apply Hwg, list_elem_of_fmap. by exists w.
  - exists m'. split_and!; try done.
    + intros w [->|Hw]%elem_of_cons; [|by apply Hin]. eapply lookup_weaken, Hsub. apply lookup_insert_eq.
    + etransitivity; [|exact Hsub]. by apply insert_subseteq.
Qed.

Lemma index_underlays_ok m l :
  NoDup (filter (fun n => n <> 0) (map us_IfIndex l)) ->
  (forall u, u ∈ l -> 0 <= us_IfIndex u) ->
  (forall u, u ∈ l -> us_IfIndex u <> 0 -> m !! us_IfIndex u = None) ->
  exists m', index_underlays m l = Ret m' /\
    (forall u, u ∈ l -> us_IfIndex u <> 0 -> m' !! us_IfIndex u = Some u) /\ m ⊆ m'.
Proof.
  revert m. induction l as [|u l IH]; intros m Hn Hp Hl; simpl.
  { exists m. split_and!; try done. by intros ? ?%elem_of_nil. }
  cbn [map] in Hn. rewrite filter_cons in Hn. pose proof (Hp u (list_elem_of_here _ _)) as Hu.
  destruct (Z.leb_spec (us_IfIndex u) 0).
  - rewrite decide_False in Hn by (intros HH; apply HH; lia).
    destruct (IH m Hn) as (m' & H1 & Hin & Hsub); [intros; apply Hp; by right|intros; apply Hl; [by right|done]|].
    exists m'. split_and!; try done. intros w [->|Hw]%elem_of_cons Hz; [lia|by apply Hin].
  - rewrite decide_True in Hn by lia. apply list.NoDup_cons in Hn as [Hun Hn].
    rewrite bool_decide_false by (rewrite (Hl u) by (by left || lia); by intros []).
    destruct (IH (<[us_IfIndex u := u]> m) Hn) as (m' & H1 & Hin & Hsub).
    + intros. apply Hp. by right.
    + intros w Hw Hz. rewrite lookup_insert_ne; [by apply Hl; [right|]|]. intros E. apply Hun.
      apply list_elem_of_filter. split; [lia|]. apply list_elem_of_fmap. by exists w.
    + exists m'. split_and!; try done.
      * intros w [->|Hw]%elem_of_cons Hz; [|by apply Hin].
        eapply lookup_weaken, Hsub. apply lookup_insert_eq.
      * etransitivity; [|exact Hsub]. apply insert_subseteq, Hl; [by left|lia].
Qed.

(** ** The validator accepts *)

Lemma mlen_pos {K V} `{Countable K} (m : gmap K V) : (exists k v, m !! k = Some v) -> 0 < mlen m.
Proof.
  intros (k & v & Hk). unfold mlen. destruct (decide (size m = 0%nat)) as [Hz|Hz]; [|lia].
  apply map_size_empty_inv in Hz. by rewrite Hz, lookup_empty in Hk.
Qed.

Lemma for_each_map {K V} `{Countable K} (body : K * V -> outcome unit) (m : gmap K V) :
  (forall k v, m !! k = Some v -> body (k, v) = Ret tt) -> for_each body (map_to_list m) = Ret tt.
Proof. intros Hm. apply for_each_iff. intros [k v] Hk. apply Hm. by apply elem_of_map_to_list. Qed.

Lemma validate_snapshot_ok s :
  let g := fs_Generation s in
  g <> 0 ->
  0 < mlen (fs_ManagedInterfaces s) /\ 0 < mlen (fs_ManagedPorts s) /\ 0 < mlen (fs_ControlPolicies s) ->
  mlen (fs_ManagedInterfaces s) <= fakeTCPManagedInterfacesPerGeneration /\
  mlen (fs_ManagedPorts s) <= fakeTCPManagedPortsPerGeneration /\
  mlen (fs_ControlPolicies s) <= fakeTCPControlPoliciesPerGeneration ->
  (forall k v, fs_ManagedInterfaces s !! k = Some v -> interface_entry_ok g (k, v) = Ret tt) ->
  (forall k v, fs_ControlPolicies s !! k = Some v -> policy_entry_ok g (k, v) = Ret tt) ->
  (forall k v, fs_ManagedPorts s !! k = Some v -> port_entry_ok s (k, v) = Ret tt) ->
  (forall k v, fs_ManagedInterfaces s !! k = Some v ->
     exists pk pv, fs_ManagedPorts s !! pk = Some pv /\ k = (g, pk.1.2)) ->
  (forall k v, fs_ControlPolicies s !! k = Some v ->
     exists pk pv, fs_ManagedPorts s !! pk = Some pv /\ k = (g, mpv_WGID pv)) ->
  validateFakeTCPPolicySnapshot s = Ret tt.
Proof.
  intros g Hg Hne Hcap Hi Hc Hp Ri Rc. unfold validateFakeTCPPolicySnapshot. cbn zeta. fold g.
  assert (forall (f : fakeTCPManagedPortPlanEntry -> Z * Z) k,
    (exists pk pv, fs_ManagedPorts s !! pk = Some pv /\ k = f (pk, pv)) ->
    k ∈ map f (map_to_list (fs_ManagedPorts s))) as Href.
  { intros f k (pk & pv & Hpk & ->). apply list_elem_of_fmap. exists (pk, pv). split; [done|].
    by apply elem_of_map_to_list. }
  destruct (Z.eqb_spec g 0); [done|].
  repeat match goal with |- context [?x =? 0] => destruct (Z.eqb_spec x 0); [lia|] end. cbn [orb].
  repeat match goal with |- context [?x <? ?y] => destruct (Z.ltb_spec x y); [lia|] end.
  rewrite (for_each_map (interface_entry_ok g)), (for_each_map (policy_entry_ok g)),
    (for_each_map (port_entry_ok s)) by done. cbn [obind].
  rewrite !for_each_map; [done|..]; intros k v Hk; cbn [fst]; rewrite bool_decide_true; try done;
    apply Href; eauto.
Qed.

(** ** The projection loop *)

Definition is_ft (r : IngressListener) : bool := String.eqb (in_TransportMode r) "faketcp".
Definition ft_listeners (l : list IngressListener) : list IngressListener :=
  filter (fun r => is_ft r = true) l.

Definition port_key (g : Z) (r : IngressListener) : Z * Z * Z :=
  (g, u32 (in_UnderlayIfIndex r), in_DestinationPort r).

(** What the maps hold after the FakeTCP listeners [past], given each listener's
    WireGuard. *)
Record projected (g : Z) (wg_of : IngressListener -> WireGuardState)
    (past : list IngressListener) (s : fakeTCPPolicySnapshot) : Prop := {
  pj_gen : fs_Generation s = g;
  pj_ports : forall k v, fs_ManagedPorts s !! k = Some v <->
    exists r, r ∈ past /\ k = port_key g r /\ v = mkPort g (in_WGID r) ActionRewrite (zeros 3);
  pj_ifs : forall k v, fs_ManagedInterfaces s !! k = Some v <->
    exists r, r ∈ past /\ k = (g, u32 (in_UnderlayIfIndex r)) /\ v = mkIf g;
  pj_policies : forall k v, fs_ControlPolicies s !! k = Some v <->
    exists r, r ∈ past /\ k = (g, in_WGID r) /\ v = policy_of g (wg_of r);
  pj_size : mlen (fs_ManagedPorts s) <= len past /\ mlen (fs_ManagedInterfaces s) <= len past /\
    mlen (fs_ControlPolicies s) <= len past
}.

Lemma ft_listeners_app l l' : ft_listeners (l ++ l') = ft_listeners l ++ ft_listeners l'.
Proof. apply filter_app. Qed.

Lemma ft_listeners_one r : ft_listeners [r] = if is_ft r then [r] else [].
Proof.
  unfold ft_listeners. rewrite filter_cons. destruct (is_ft r).
  - by rewrite decide_True.
  - by rewrite decide_False.
Qed.

Lemma mlen_insert_le {K V} `{Countable K} (m : gmap K V) k v : mlen (<[k := v]> m) <= mlen m + 1.
Proof.
  destruct (m !! k) eqn:E; [erewrite mlen_insert_Some by done; lia|by rewrite mlen_insert_None].
Qed.

(** Adding one key with its value to a map described by a list. *)
Lemma insert_described {K V A} `{Countable K} (m : gmap K V) (past : list A) key val x k v :
  (forall k v, m !! k = Some v <-> exists r, r ∈ past /\ k = key r /\ v = val r) ->
  (forall r, r ∈ past -> key r = key x -> val r = val x) ->
  <[key x := val x]> m !! k = Some v <-> exists r, r ∈ past ++ [x] /\ k = key r /\ v = val r.
Proof.
  intros Hm Hc. rewrite lookup_insert_Some, Hm. setoid_rewrite elem_of_app.
  setoid_rewrite list_elem_of_singleton. split.
  - intros [[<- <-]|[_ (r & ? & ? & ?)]]; [exists x|exists r]; tauto.
  - intros (r & Hr & -> & ->). destruct (decide (key x = key r)) as [E|E].
    + left. split; [done|]. destruct Hr as [Hr | -> ]; [|done]. symmetry. by apply Hc.
    + right. split; [done|]. exists r. by destruct Hr as [Hr | -> ].
Qed.

(** Keeping the value of a key that is present already. *)
Lemma keep_described {K V A} `{Countable K} (m : gmap K V) (past : list A) key val x k v :
  (forall k v, m !! k = Some v <-> exists r, r ∈ past /\ k = key r /\ v = val r) ->
  (forall r, r ∈ past -> key r = key x -> val r = val x) -> is_Some (m !! key x) ->
  m !! k = Some v <-> exists r, r ∈ past ++ [x] /\ k = key r /\ v = val r.
Proof.
  intros Hm Hc [w (r & Hr & E & Hw)%Hm]. rewrite <- (insert_described m past key val x k v Hm Hc).
  rewrite (Hc r) in Hw by done. subst w. rewrite insert_id; [done|]. apply Hm. exists r.
  rewrite (Hc r) by done. done.
Qed.

Section project.
Context (g stGen : Z) (wgs : gmap Z WireGuardState) (us : gmap Z UnderlayState).
Context (all : list IngressListener) (wg_of : IngressListener -> WireGuardState).
Context (Hwg : forall r, r ∈ ft_listeners all ->
  listener_wireguard stGen wgs us r = Ret (wg_of r) /\ ws_ID (wg_of r) = in_WGID r).
Context (Hfun : forall r r', r ∈ ft_listeners all -> r' ∈ ft_listeners all ->
  in_WGID r = in_WGID r' -> wg_of r = wg_of r').
Context (Hkeys : NoDup (map (port_key g) (ft_listeners all))).

Lemma project_step past r rest s : ft_listeners all = past ++ r :: rest ->
  is_ft r = true -> projected g wg_of past s ->
  exists s', projected g wg_of (past ++ [r]) s' /\
    forall l, project_listeners stGen g wgs us s (r :: l) = project_listeners stGen g wgs us s' l.
Proof using Hwg Hfun Hkeys.
  intros Hall Hr [Pg Pp Pi Pc (S1 & S2 & S3)].
  assert (r ∈ ft_listeners all) as Hin by (rewrite Hall; apply elem_of_app; right; by left).
  assert (forall r', r' ∈ past -> r' ∈ ft_listeners all) as Hpast
    by (intros; rewrite Hall; apply elem_of_app; by left).
  assert (forall r', r' ∈ past -> port_key g r' <> port_key g r) as Hfresh.
  { intros r' Hr' E. rewrite Hall, map_app in Hkeys. apply NoDup_app in Hkeys as (_ & Hd & _).
    apply (Hd (port_key g r')); [by apply list_elem_of_fmap; exists r'|]. rewrite E. by left. }
  assert (forall r', r' ∈ past -> (g, in_WGID r') = (g, in_WGID r) ->
    policy_of g (wg_of r') = policy_of g (wg_of r)) as Hsame
    by (intros r' Hr' [= E]; f_equal; apply Hfun; auto).
  destruct (Hwg r Hin) as [Hlw Hid]. eexists. split; cycle 1.
  - intros l. cbn [project_listeners]. unfold is_ft in Hr. rewrite Hr, Hlw. cbn [negb obind]. cbn zeta.
    change (g, u32 (in_UnderlayIfIndex r), in_DestinationPort r) with (port_key g r). rewrite Hid.
    rewrite bool_decide_false; [reflexivity|].
    intros [v (r' & Hr' & E & _)%Pp]. symmetry in E. by apply (Hfresh r').
  - split; cbn -[zeros]; [done|..].
    + intros k v. apply (insert_described _ _ (port_key g)
        (fun r => mkPort g (in_WGID r) ActionRewrite (zeros 3))); [done|].
      intros r' H1 E. by destruct (Hfresh r').
    + intros k v. by apply (insert_described _ _ (fun r => (g, u32 (in_UnderlayIfIndex r)))
        (fun r => mkIf g)).
    + intros k v. case_bool_decide; [by apply (keep_described _ _ (fun r => (g, in_WGID r))
        (fun r => policy_of g (wg_of r)) r)|].
      by apply (insert_described _ _ (fun r => (g, in_WGID r)) (fun r => policy_of g (wg_of r))).
    + rewrite len_app. change (len [r]) with 1. split_and!; [etransitivity; [apply mlen_insert_le|lia]..|].
      case_bool_decide; [lia|etransitivity; [apply mlen_insert_le|lia]].
Qed.

Lemma project_all rest : forall past s, ft_listeners all = past ++ ft_listeners rest ->
  projected g wg_of past s ->
  exists s', project_listeners stGen g wgs us s rest = Ret s' /\
    projected g wg_of (ft_listeners all) s'.
Proof using Hwg Hfun Hkeys.
  induction rest as [|r rest IH]; intros past s Hall Hp.
  { exists s. split; [done|]. rewrite Hall. unfold ft_listeners. cbn. by rewrite app_nil_r. }
  change (r :: rest) with ([r] ++ rest) in Hall.
  rewrite ft_listeners_app, ft_listeners_one in Hall. destruct (is_ft r) eqn:Hr.
  - destruct (project_step past r (ft_listeners rest) s Hall Hr Hp) as (s' & Hp' & ->).
    apply (IH (past ++ [r])); [by rewrite <- app_assoc|done].
  - cbn [project_listeners]. unfold is_ft in Hr. rewrite Hr. by apply (IH past).
Qed.
End project.

(** ** The listeners and WireGuards of a built state *)

Section policy.
Context `{ControlEnv} (order po co : list string) (cfg : Config) (st : State) (g : Z).
Context (Ht : config_typed cfg) (Hv : ValidateStatic order cfg = Ret tt).
Context (Hb : BuildState po co cfg false = Ret st).
(** What the underlay resolver reports. *)
Context (Hres : forall u, u ∈ st_Underlays st ->
  us_Role u = "transform" /\ 0 < us_IfIndex u < 4294967296).

Lemma state_wg_at k s : st_WireGuards st !! k = Some s ->
  ws_ID s = Z.of_nat k + 1 /\ ws_RuntimeFirewallMark s <> 0 /\ ws_RuntimeListenPort s <> 0 /\
  ws_RuntimeStateAvailable s = true /\
  (is_faketcp_state s = true -> faketcp_modes (ws_FakeTCP s) /\ faketcp_limits (ws_FakeTCP s)).
Proof using Ht Hv Hb.
  intros Hk. destruct (BuildState_inv _ _ _ _ _ Hb) as (ps & cs & _ & _ & _ & _ & _ & _ & Hw & _).
  apply (build_wireguards_spec _ _ _ _ 0%nat) in Hw as [Hl Hw].
  assert (k < length (c_WireGuards cfg))%nat as Hlt by (rewrite <- Hl; by eapply lookup_lt_Some).
  destruct (lookup_lt_is_Some_2 _ _ Hlt) as [w Hwk].
  destruct (Hw k w s Hwk Hk) as (Hid & _ & Hmode & _ & _ & Hft & _ & _ & _ & _ & Hav & _ & Hrt).
  destruct (Hrt eq_refl) as (Hm & Hp & _). split_and!; try done.
  - rewrite Hid. apply u32_id. pose proof (static_rule_bound _ _ Ht Hv).
    pose proof Hv as (_ & _ & _ & _ & _ & Hne & _)%ValidateStatic_inv.
    unfold MaxManagedRulesPerGeneration, len in *. nia.
  - intros Hs. unfold is_faketcp_state in Hs. apply String.eqb_eq in Hs.
    apply list_elem_of_lookup_2 in Hwk. pose proof Hv as (_ & _ & _ & Hwg & _)%ValidateStatic_inv.
    destruct (validate_wireguards_inv cfg [] _ Hwg) as [_ Hval].
    destruct (Hval w Hwk) as [(_ & _ & _ & _ & Htr) _]. unfold validate_transport in Htr.
    rewrite <- Hmode, Hs in Htr. cbn in Htr. rewrite Hft. by apply validate_faketcp_inv.
Qed.

Lemma state_wg s : s ∈ st_WireGuards st ->
  ws_ID s <> 0 /\ ws_RuntimeFirewallMark s <> 0 /\ ws_RuntimeListenPort s <> 0 /\
  ws_RuntimeStateAvailable s = true /\
  (is_faketcp_state s = true -> faketcp_modes (ws_FakeTCP s) /\ faketcp_limits (ws_FakeTCP s)).
Proof using Ht Hv Hb.
  intros [k Hk]%list_elem_of_lookup. destruct (state_wg_at k s Hk) as [? ?]. split; [lia|done].
Qed.

Lemma state_ids : NoDup (map ws_ID (st_WireGuards st)).
Proof using Ht Hv Hb.
  apply NoDup_alt. intros i j x. rewrite !list_lookup_fmap.
  destruct (st_WireGuards st !! i) as [a|] eqn:Ei; [|done].
  destruct (st_WireGuards st !! j) as [b|] eqn:Ej; [|done]. cbn. intros [= Ha] [= Hb'].
  apply state_wg_at in Ei as [Ei _]. apply state_wg_at in Ej as [Ej _]. lia.
Qed.

Lemma ft_listener_elem r : r ∈ ft_listeners (st_IngressListeners st) <->
  exists wg u, active_in st wg u /\ is_faketcp_state wg = true /\
    r = ingress_listener 1 wg u "ipv4" "rewrite".
Proof using Hb.
  unfold ft_listeners. rewrite list_elem_of_filter, (ingress_elem po co cfg st Hb). split.
  - intros (Hft & wg & u & f & Ha & Hf & ->). change (is_faketcp_state wg = true) in Hft.
    exists wg, u. split_and!; try done. revert Hf. unfold families, is_icmp_state.
    unfold is_faketcp_state in Hft. rewrite Hft. apply String.eqb_eq in Hft. rewrite Hft.
    by intros ->%list_elem_of_singleton.
  - intros (wg & u & Ha & Hft & ->). split; [done|]. exists wg, u, "ipv4".
    unfold families, is_icmp_state. unfold is_faketcp_state in Hft. rewrite Hft.
    apply String.eqb_eq in Hft. rewrite Hft. split_and!; [done|by left|done].
Qed.

Lemma ft_listener_count : len (ft_listeners (st_IngressListeners st)) <= 256.
Proof using Ht Hv Hb.
  pose proof (f_equal r_Ingress (proj1 (state_rules po co cfg st Hb))) as E. cbn [r_Ingress] in E.
  rewrite E. pose proof (buildRules_length (fun r => ft_listeners (r_Ingress r))
    (fun a b => ft_listeners_app _ _) eq_refl 1 (po_ManagedEgressMapMiss (c_Policy cfg))
    (st_WireGuards st) (st_Underlays st) (fun _ => 1) ltac:(lia)) as Hl.
  rewrite sum_of_const in Hl. etransitivity; [apply Hl|].
  - intros wg u. destruct (decide (us_Resolved u = true /\ inactive u = false)) as [[Hr Hi]|Hn];
      [|by rewrite pair_rules_inactive].
    rewrite pair_rules_active by done. cbn [r_Ingress]. unfold families.
    destruct (String.eqb (ws_TransportMode wg) "faketcp") eqn:Hft.
    + cbn [map]. rewrite ft_listeners_one. by destruct (is_ft _).
    + cbn [map]. unfold ft_listeners. rewrite !filter_cons, !decide_False; [by vm_compute|..];
        unfold is_ft; cbn; by rewrite Hft.
  - destruct (BuildState_inv _ _ _ _ _ Hb) as (ps & cs & _ & _ & _ & _ & _ & Hu & Hw & _).
    apply build_underlays_length in Hu. apply (build_wireguards_spec _ _ _ _ 0%nat) in Hw as [Hw _].
    pose proof (static_rule_bound _ _ Ht Hv). unfold MaxManagedRulesPerGeneration, len in *. lia.
Qed.

Lemma policy_wireguard_ok wg : wg ∈ st_WireGuards st -> is_faketcp_state wg = true ->
  validateFakeTCPPolicyWireGuard wg = Ret tt.
Proof using Ht Hv Hb.
  intros Hwg Hft. destruct (state_wg wg Hwg) as (_ & _ & _ & _ & Hf).
  destruct (Hf Hft) as [[Hc Hi] Hlim]. unfold validateFakeTCPPolicyWireGuard. cbn zeta.
  unfold faketcp_limits in Hlim. decompose [and] Hlim. rewrite Hc, Hi. cbn.
  unfold fakeTCPControlMinInterval, fakeTCPControlMaxInterval. by decide_lia.
Qed.

Lemma listener_ok wgs us wg u : active_in st wg u -> is_faketcp_state wg = true ->
  wgs !! ws_ID wg = Some wg -> us !! us_IfIndex u = Some u ->
  listener_wireguard 1 wgs us (ingress_listener 1 wg u "ipv4" "rewrite") = Ret wg.
Proof using Ht Hv Hb Hres.
  intros (Hwg & Hu & Hr & Hi) Hft Hw Hu'. destruct (Hres u Hu) as [Hrole Hidx].
  destruct (state_wg wg Hwg) as (_ & _ & Hport & _).
  pose proof (policy_wireguard_ok wg Hwg Hft) as Hok. unfold is_faketcp_state in Hft.
  destruct (BuildState_inv _ _ _ _ _ Hb) as (ps & cs & _ & _ & _ & _ & _ & _ & _ & Hpar & _).
  unfold validateFakeTCPUnderlayParsers in Hpar.
  replace (existsb _ (st_WireGuards st)) with true in Hpar; cycle 1.
  { symmetry. apply existsb_exists. exists wg. split; [by apply list_elem_of_In|done]. }
  cbn [negb] in Hpar. destruct (existsb _ (st_Underlays st)) eqn:Hex in Hpar; [done|].
  assert (one_of (us_Parser u) ["ethernet"; "l3"] = true) as Hp.
  { destruct (one_of _ _) eqn:Hone; [done|]. exfalso. apply diff_true_false. rewrite <- Hex.
    symmetry. apply existsb_exists. exists u. split; [by apply list_elem_of_In|]. by rewrite Hi, Hr, Hone. }
  unfold listener_wireguard. cbn -[one_of]. rewrite Hw, Hu', Hr, Hrole, Hp, Hft, Hok. cbn.
  rewrite (u64_small (us_IfIndex u)) by lia. unfold max_u32.
  destruct (Z.eqb_spec (ws_RuntimeListenPort wg) 0); [done|].
  destruct (Z.leb_spec (us_IfIndex u) 0); [lia|].
  by destruct (Z.ltb_spec (2 ^ 32 - 1) (us_IfIndex u)); [lia|].
Qed.

(** The ports of the listeners are distinct because the ingress keys are. *)
Lemma port_keys_distinct : NoDup (map (port_key g) (ft_listeners (st_IngressListeners st))).
Proof using Ht Hv Hb Hres.
  destruct (state_rules po co cfg st Hb) as (_ & _ & Hn & _).
  assert (forall l, (forall r, r ∈ l -> r ∈ ft_listeners (st_IngressListeners st)) ->
    NoDup (map ingressKey l) -> NoDup (map (port_key g) l)) as Hgen.
  { induction l as [|r l IH]; intros Hl Hd; [apply NoDup_nil_2|].
    cbn [map] in *. apply list.NoDup_cons in Hd as [Hr Hd]. apply list.NoDup_cons.
    split; [|apply IH; [intros; apply Hl; by right|done]].
    intros (r' & E & Hr')%list_elem_of_fmap. apply Hr, list_elem_of_fmap. exists r'.
    split; [|done].
    destruct (proj1 (ft_listener_elem r) (Hl r (list_elem_of_here _ _))) as (wg & u & (_ & Hu & _) & _ & ->).
    destruct (proj1 (ft_listener_elem r') (Hl r' (list_elem_of_further _ _ _ Hr')))
      as (wg' & u' & (_ & Hu' & _) & _ & ->).
    unfold port_key in E. cbn in E. destruct (Hres u Hu), (Hres u' Hu').
    rewrite !u32_id in E by lia. injection E as E1 E2. unfold ingressKey. cbn. congruence. }
  apply Hgen; [done|]. unfold ft_listeners. clear Hgen. induction (st_IngressListeners st) as [|r l IH]; [done|].
  cbn [map] in Hn. apply list.NoDup_cons in Hn as [Hr Hn]. rewrite filter_cons.
  destruct (decide (is_ft r = true)); [|by apply IH]. cbn [map]. apply list.NoDup_cons.
  split; [|by apply IH]. intros (r' & E & [_ Hr']%list_elem_of_filter)%list_elem_of_fmap.
  apply Hr, list_elem_of_fmap. by exists r'.
Qed.

(** The snapshot of the projection passes the validator. *)
Lemma projected_valid s wg_of :
  g <> 0 -> ft_listeners (st_IngressListeners st) <> [] ->
  (forall r, r ∈ ft_listeners (st_IngressListeners st) ->
     wg_of r ∈ st_WireGuards st /\ is_faketcp_state (wg_of r) = true) ->
  projected g wg_of (ft_listeners (st_IngressListeners st)) s ->
  validateFakeTCPPolicySnapshot s = Ret tt.
Proof using Ht Hv Hb Hres.
  intros Hg Hne Hwg [Pg Pp Pi Pc (S1 & S2 & S3)]. pose proof ft_listener_count as Hcount.
  assert (exists r0, r0 ∈ ft_listeners (st_IngressListeners st)) as [r0 Hr0]
    by (destruct (ft_listeners _) as [|r0 l]; [done|exists r0; by left]).
  assert (forall r, r ∈ ft_listeners (st_IngressListeners st) -> u32 (in_UnderlayIfIndex r) <> 0 /\
    in_DestinationPort r <> 0 /\ in_WGID r <> 0) as Hlis.
  { intros r (wg & u & (Hw & Hu & _) & _ & ->)%ft_listener_elem. destruct (Hres u Hu), (state_wg wg Hw) as (? & _ & ? & _).
    cbn. rewrite u32_id by lia. split_and!; [lia|done|done]. }
  apply validate_snapshot_ok; rewrite ?Pg; [done|..].
  - split_and!; [apply mlen_pos; eexists; eexists; apply Pi; eauto|
      apply mlen_pos; eexists; eexists; apply Pp; eauto|apply mlen_pos; eexists; eexists; apply Pc; eauto].
  - unfold fakeTCPManagedInterfacesPerGeneration, fakeTCPManagedPortsPerGeneration,
      fakeTCPControlPoliciesPerGeneration. lia.
  - intros k v (r & Hr & -> & ->)%Pi. unfold interface_entry_ok. cbn.
    rewrite Z.eqb_refl. by destruct (Z.eqb_spec (u32 (in_UnderlayIfIndex r)) 0); [destruct (Hlis r Hr)|].
  - intros k v (r & Hr & -> & ->)%Pc. destruct (Hwg r Hr) as [Hw Hft].
    destruct (state_wg _ Hw) as (_ & _ & _ & _ & Hlim). apply Hlim in Hft as [_ Hlim'].
    unfold faketcp_limits in Hlim'. decompose [and] Hlim'. destruct (Hlis r Hr) as (_ & _ & Hid).
    assert (10 * Second < 2 ^ 64 /\ 0 < 10 * Millisecond) by by vm_compute.
    unfold policy_entry_ok. cbn. rewrite Z.eqb_refl, u64_small by lia. cbn.
    unfold fakeTCPControlMinInterval, fakeTCPControlMaxInterval. by decide_lia.
  - intros k v (r & Hr & -> & ->)%Pp. destruct (Hlis r Hr) as (Hi & Hp & Hid).
    unfold port_entry_ok, port_key. cbn -[zeros]. rewrite Pg, Z.eqb_refl. cbn [negb orb].
    destruct (Z.eqb_spec (u32 (in_UnderlayIfIndex r)) 0), (Z.eqb_spec (in_DestinationPort r) 0),
      (Z.eqb_spec (in_WGID r) 0); try done. cbn -[zeros]. rewrite !bool_decide_true; [done|..].
    + eexists. apply Pc. eauto.
    + eexists. apply Pi. eauto.
    + done.
  - intros k v (r & Hr & -> & ->)%Pi. exists (port_key g r), (mkPort g (in_WGID r) ActionRewrite (zeros 3)).
    split; [|done]. apply Pp. eauto.
  - intros k v (r & Hr & -> & ->)%Pc. exists (port_key g r), (mkPort g (in_WGID r) ActionRewrite (zeros 3)).
    split; [|done]. apply Pp. eauto.
Qed.

Lemma collect_marks_ok (wgs : gmap Z WireGuardState) l : forall marks,
  (forall k v, (k, v) ∈ l -> exists wg, wg ∈ st_WireGuards st /\ is_faketcp_state wg = true /\
     k.2 = ws_ID wg /\ wgs !! k.2 = Some wg) ->
  exists marks', collect_marks wgs marks l = Ret marks' /\
    forall id m, marks' !! id = Some m ->
      marks !! id = Some m \/ exists wg, wg ∈ st_WireGuards st /\ is_faketcp_state wg = true /\
        id = ws_ID wg /\ m = ws_RuntimeFirewallMark wg.
Proof using Ht Hv Hb.
  induction l as [|[[kg id] v] l IH]; intros marks Hl; cbn [collect_marks]; [exists marks; auto|].
  destruct (Hl (kg, id) v) as (wg & Hwg & Hft & Eid & Hid); [by left|]. cbn in Hid, Eid.
  rewrite Hid. destruct (state_wg wg Hwg) as (_ & Hm & _ & Hav & _). pose proof Hft as Hft'.
  unfold is_faketcp_state in Hft'. rewrite Hft', Hav. destruct (Z.eqb_spec (ws_RuntimeFirewallMark wg) 0); [done|]. cbn [negb orb].
  destruct (IH (<[id := ws_RuntimeFirewallMark wg]> marks)) as (marks' & -> & Hin);
    [intros; eapply Hl; by right|].
  exists marks'. split; [done|]. intros id' m Hm'. apply Hin in Hm' as [Hm'|?]; [|auto].
  apply lookup_insert_Some in Hm' as [[<- <-]|[_ ?]]; [right; eauto|auto].
Qed.

Lemma collect_marks_has (wgs : gmap Z WireGuardState) l : forall marks marks',
  collect_marks wgs marks l = Ret marks' ->
  (forall id, is_Some (marks !! id) -> is_Some (marks' !! id)) /\
  (forall k v, (k, v) ∈ l -> is_Some (marks' !! k.2)).
Proof.
  induction l as [|[[kg id] v] l IH]; intros marks marks'; cbn [collect_marks].
  { intros [= <-]. split; [done|]. by intros ? ? ?%elem_of_nil. }
  destruct (wgs !! id) as [wg|]; [|done]. destruct (_ || _ || _); [done|].
  intros [H1 H2]%IH. split.
  - intros id' Hid. apply H1. destruct (decide (id' = id)) as [->|];
      [by rewrite lookup_insert_eq|by rewrite lookup_insert_ne].
  - intros k w [[= -> ->]|Hk]%elem_of_cons; [|by eapply H2].
    apply H1. cbn. by rewrite lookup_insert_eq.
Qed.

(** The projection as a whole, given one FakeTCP WireGuard on one underlay. *)
Context (wg0 : WireGuardState) (u0 : UnderlayState).
Context (Ha0 : active_in st wg0 u0) (Hft0 : is_faketcp_state wg0 = true) (Hg : g <> 0).

Lemma projection : exists wgs s,
  index_wireguards_nonzero ∅ (st_WireGuards st) = Ret wgs /\
  (forall wg, wg ∈ st_WireGuards st -> wgs !! ws_ID wg = Some wg) /\
  buildFakeTCPPolicySnapshot st g = Ret s /\ validateFakeTCPPolicySnapshot s = Ret tt /\
  projected g (fun r => default wg0 (wgs !! in_WGID r)) (ft_listeners (st_IngressListeners st)) s.
Proof using Ht Hv Hb Hres Ha0 Hft0 Hg.
  destruct (BuildState_inv _ _ _ _ _ Hb) as (_ & _ & _ & _ & Hgen & _ & _ & Hu & _).
  pose proof Hv as (_ & _ & _ & _ & _ & _ & Hov)%ValidateStatic_inv.
  unfold buildUnderlayStates in Hu. rewrite Hov in Hu. apply build_underlays_distinct in Hu as [Hud _].
  destruct (index_wireguards_ok ∅ (st_WireGuards st) state_ids) as (wgs & I1 & I2 & Hw & _).
  { intros wg Hwg. split; [by apply state_wg|done]. }
  destruct (index_underlays_ok ∅ (st_Underlays st) Hud) as (us & I3 & Hus & _); [|done|].
  { intros u Hin. destruct (Hres u Hin). lia. }
  set (wg_of := fun r : IngressListener => default wg0 (wgs !! in_WGID r)).
  assert (forall r, r ∈ ft_listeners (st_IngressListeners st) -> exists wg u, active_in st wg u /\
    is_faketcp_state wg = true /\ r = ingress_listener 1 wg u "ipv4" "rewrite" /\ wg_of r = wg) as Hof.
  { intros r (wg & u & Ha & Hft & ->)%ft_listener_elem. exists wg, u. split_and!; try done.
    unfold wg_of. cbn. by rewrite (Hw wg) by apply Ha. }
  destruct (project_all g 1 wgs us (st_IngressListeners st) wg_of) with
    (rest := st_IngressListeners st) (past := @nil IngressListener)
    (s := mkPolicySnapshot g ∅ ∅ ∅) as (s & Hs & Hp).
  - intros r (wg & u & Ha & Hft & -> & ->)%Hof. split; [|done]. apply listener_ok; try done;
      [apply Hw, Ha|]. apply Hus; [apply Ha|]. destruct (Hres u); [apply Ha|lia].
  - intros r r' _ _ E. unfold wg_of. by rewrite E.
  - apply port_keys_distinct.
  - done.
  - split; cbn; [done|..|by vm_compute];
      intros k v; rewrite lookup_empty; split; [done|by intros (? & ?%elem_of_nil & _)|done|
        by intros (? & ?%elem_of_nil & _)|done|by intros (? & ?%elem_of_nil & _)].
  - assert (validateFakeTCPPolicySnapshot s = Ret tt) as Hvalid.
    { apply (projected_valid s wg_of); [done|..|done].
      - intros E. assert (ingress_listener 1 wg0 u0 "ipv4" "rewrite" ∈ ft_listeners (st_IngressListeners st))
          as Hin by (apply ft_listener_elem; eauto). rewrite E in Hin. by apply elem_of_nil in Hin.
      - intros r (wg & u & Ha & Hft & _ & ->)%Hof. split; [apply Ha|done]. }
    exists wgs, s. split_and!; try done. unfold buildFakeTCPPolicySnapshot. rewrite Hgen, I1, I3.
    cbn [Z.eqb obind]. destruct (Z.eqb_spec g 0); [done|]. rewrite Hs. cbn [obind]. by rewrite Hvalid.
Qed.

Lemma projected_policies (wgs : gmap Z WireGuardState) s :
  (forall wg, wg ∈ st_WireGuards st -> wgs !! ws_ID wg = Some wg) ->
  projected g (fun r => default wg0 (wgs !! in_WGID r)) (ft_listeners (st_IngressListeners st)) s ->
  forall k v, fs_ControlPolicies s !! k = Some v <-> exists wg, wg ∈ st_WireGuards st /\
    is_faketcp_state wg = true /\ k = (g, ws_ID wg) /\
    v = mkPolicy g 0 (ft_SYNRateInterval (ws_FakeTCP wg)) (ft_SYNBurst (ws_FakeTCP wg)) 0.
Proof using Ht Hv Hb Ha0.
  intros Hw [_ _ _ Pc _] k v. rewrite Pc.
  assert (forall wg, wg ∈ st_WireGuards st -> is_faketcp_state wg = true -> policy_of g wg =
    mkPolicy g 0 (ft_SYNRateInterval (ws_FakeTCP wg)) (ft_SYNBurst (ws_FakeTCP wg)) 0) as Hpo.
  { intros wg Hwg Hft. destruct (state_wg wg Hwg) as (_ & _ & _ & _ & Hl).
    destruct (Hl Hft) as [_ Hlim]. unfold faketcp_limits in Hlim. decompose [and] Hlim.
    assert (10 * Second < 2 ^ 64 /\ 0 < 10 * Millisecond) by by vm_compute.
    unfold policy_of. by rewrite u64_small by lia. }
  split.
  - intros (r & (wg & u & Ha & Hft & ->)%ft_listener_elem & -> & ->). pose proof (proj1 Ha) as Hwg.
    exists wg. cbn. rewrite (Hw wg Hwg). cbn. rewrite Hpo by done. done.
  - intros (wg & Hwg & Hft & -> & ->). exists (ingress_listener 1 wg u0 "ipv4" "rewrite").
    destruct Ha0 as (_ & ? & ? & ?). cbn. rewrite (Hw wg Hwg). cbn. rewrite Hpo by done.
    split_and!; try done. apply ft_listener_elem. exists wg, u0. by split_and!.
Qed.

Lemma projected_ports wg_of s :
  projected g wg_of (ft_listeners (st_IngressListeners st)) s ->
  forall k v, fs_ManagedPorts s !! k = Some v <-> exists wg u, active_in st wg u /\
    is_faketcp_state wg = true /\ k = (g, us_IfIndex u, ws_RuntimeListenPort wg) /\
    v = mkPort g (ws_ID wg) ActionRewrite (zeros 3).
Proof using Ht Hv Hb Hres.
  intros [_ Pp _ _ _] k v. rewrite Pp.
  assert (forall u wg, active_in st wg u -> u32 (us_IfIndex u) = us_IfIndex u) as Hi.
  { intros u wg (_ & Hu & _). apply u32_id. destruct (Hres u Hu). lia. }
  split.
  - intros (r & (wg & u & Ha & Hft & ->)%ft_listener_elem & -> & ->). exists wg, u.
    split_and!; try done. unfold port_key. cbn. by rewrite (Hi u wg).
  - intros (wg & u & Ha & Hft & -> & ->). exists (ingress_listener 1 wg u "ipv4" "rewrite").
    split_and!; [apply ft_listener_elem; eauto| |done]. unfold port_key. cbn. by rewrite (Hi u wg).
Qed.
End policy.

(** C35: the FakeTCP policy of a validated configuration.  For a state built on
    resolved underlays with at least one FakeTCP WireGuard and one underlay, the
    projection to a target generation always succeeds; a managed port exists
    exactly for each FakeTCP WireGuard's listen port on each underlay and names
    that WireGuard; each FakeTCP WireGuard has exactly one control policy, with
    the configured SYN interval and burst and a zero virtual time; the frozen
    plan is valid; and the controller marks are exactly the runtime firewall
    marks of those WireGuards. *)
Theorem policy_projection `{ControlEnv} order po co cfg st g wg0 u0 :
  config_typed cfg -> ValidateStatic order cfg = Ret tt -> BuildState po co cfg false = Ret st ->
  (forall u, u ∈ st_Underlays st -> us_Role u = "transform" /\ 0 < us_IfIndex u < 4294967296) ->
  active_in st wg0 u0 -> is_faketcp_state wg0 = true -> g <> 0 ->
  exists s marks, buildFakeTCPPolicySnapshot st g = Ret s /\
    (forall k v, fs_ManagedPorts s !! k = Some v <-> exists wg u, active_in st wg u /\
       is_faketcp_state wg = true /\ k = (g, us_IfIndex u, ws_RuntimeListenPort wg) /\
       v = mkPort g (ws_ID wg) ActionRewrite (zeros 3)) /\
    (forall k v, fs_ControlPolicies s !! k = Some v <-> exists wg, wg ∈ st_WireGuards st /\
       is_faketcp_state wg = true /\ k = (g, ws_ID wg) /\
       v = mkPolicy g 0 (ft_SYNRateInterval (ws_FakeTCP wg)) (ft_SYNBurst (ws_FakeTCP wg)) 0) /\
    validateFakeTCPPolicyGenerationPlan (freezeFakeTCPPolicyGenerationPlan s) = Ret tt /\
    buildFakeTCPControllerMarks st s = Ret marks /\
    (forall id m, marks !! id = Some m <-> exists wg, wg ∈ st_WireGuards st /\
       is_faketcp_state wg = true /\ id = ws_ID wg /\ m = ws_RuntimeFirewallMark wg).
Proof.
  intros Ht Hv Hb Hres Ha0 Hft0 Hg.
  destruct (projection order po co cfg st g Ht Hv Hb Hres wg0 u0 Ha0 Hft0 Hg)
    as (wgs & s & I2 & Hw & Hs & Hvalid & Hp).
  pose proof (projected_policies order po co cfg st g Ht Hv Hb wg0 u0 Ha0 wgs s Hw Hp) as Hpol.
  destruct (collect_marks_ok order po co cfg st Ht Hv Hb wgs (map_to_list (fs_ControlPolicies s)) ∅)
    as (marks & Hm & Hfrom).
  { intros k v (wg & Hwg & Hft & -> & _)%elem_of_map_to_list%Hpol. exists wg. cbn. split_and!; [done..|by apply Hw]. }
  destruct (collect_marks_has _ _ _ _ Hm) as [_ Hhas].
  exists s, marks. split_and!; [done|by eapply projected_ports|done|by apply freeze_valid| |].
  - unfold buildFakeTCPControllerMarks. by rewrite Hvalid, I2.
  - intros id m. split.
    + by intros [?|Hl]%Hfrom.
    + intros (wg & Hwg & Hft & -> & ->).
      destruct (Hhas (g, ws_ID wg) (mkPolicy g 0 (ft_SYNRateInterval (ws_FakeTCP wg))
        (ft_SYNBurst (ws_FakeTCP wg)) 0)) as [m Hl]; [apply elem_of_map_to_list, Hpol; eauto|].
      cbn in Hl. rewrite Hl. destruct (Hfrom _ _ Hl) as [?|(w & Hw' & _ & E & ->)]; [done|].
      apply Hw in Hwg, Hw'. congruence.
Qed.

(** ** Witness *)

Lemma sample_underlays u : u ∈ st_Underlays sample_state ->
  us_Role u = "transform" /\ 0 < us_IfIndex u < 4294967296.
Proof.
  assert (Forall (fun u => us_Role u = "transform" /\ 0 < us_IfIndex u < 4294967296)
    (st_Underlays sample_state)) as Hf by (apply (bool_decide_unpack _); by vm_compute).
  rewrite Forall_forall in Hf. intros Hu. by apply Hf.
Qed.

(** The first WireGuard and underlay of the sample state. *)
Lemma sample_active : exists wg u, active_in sample_state wg u /\ is_faketcp_state wg = true /\
  ws_ID wg = 1.
Proof.
  destruct (st_WireGuards sample_state) as [|wg l] eqn:Ew; [by vm_compute in Ew|].
  destruct (st_Underlays sample_state) as [|u l'] eqn:Eu; [by vm_compute in Eu|].
  exists wg, u. unfold active_in. rewrite Ew, Eu. vm_compute in Ew, Eu.
  injection Ew as <- _. injection Eu as <- _. split_and!; try done; by left.
Qed.

Lemma policy_projection_witness : exists s, buildFakeTCPPolicySnapshot sample_state 5 = Ret s /\
  (exists v, fs_ControlPolicies s !! (5, 1) = Some v).
Proof.
  destruct sample_active as (wg & u & Ha & Hft & Hid).
  destruct (policy_projection ["c"] ["default"] ["c"] sample_config sample_state 5 wg u
    sample_config_typed sample_config_valid sample_state_built sample_underlays Ha Hft ltac:(lia))
    as (s & marks & Hs & _ & Hpol & _).
  exists s. split; [exact Hs|]. eexists. apply Hpol. exists wg. rewrite Hid.
  exact (conj (proj1 Ha) (conj Hft (conj eq_refl eq_refl))).
Defined.
