(* ===== verification/Router.v ===== *)
(** * Dispatch to the engines of one generation
    (internal/faketcp/runtime_domain.go, engine_router.go).

    A runtime domain owns one identity and one session-ID sequence; its engines
    are independent otherwise.  A Go pointer to an engine is an [EngineRef]: the
    engine's instance token, the token of its domain, and the engine's state.
    [NewEngineRouter] admits pairwise distinct instances only, so the router
    may own the states of its engines in the map [er_engines]: a method call on
    the engine of a WireGuard is an update of that entry. *)
From Stdlib Require Import ZArith Lia.
From stdpp Require Import base option list gmap strings numbers sorting.
From S2P Require Import Prelude Abi Checksum L3Parser Runtime ControlPacket Engine.

(** ** The runtime domain *)

Record RuntimeDomain := mkDomain {
  dom_state : Z;
  dom_identity : RuntimeIdentity;
  dom_sessionIDs : sessionIDAllocator
}.

(** [incarnation] is the result of [newRuntimeIncarnation]; [token] identifies
    the allocated state. *)
Definition NewRuntimeDomain (token generation : Z) (incarnation : outcome (list Z))
    : outcome RuntimeDomain :=
  fail_if generation =? 0 with "faketcp runtime domain generation must be non-zero" in
  let! incarnation := incarnation in
  Ret (mkDomain token (mkRuntimeIdentity generation incarnation) (mkAllocator 0)).

Record EngineRef := mkEngineRef {
  ref_instance : option Z;
  ref_domain : Z;
  ref_engine : Engine
}.

(** [instance] is the token of the allocation, [now] the engine's reading of
    the clock at construction. *)
Definition NewEngine (domain : RuntimeDomain) (options : Options) (instance now : Z)
    : outcome EngineRef :=
  let! e := newEngine options (dom_identity domain) now in
  Ret (mkEngineRef (Some instance) (dom_state domain) e).

(** ** Routes *)

Record WGEngineBinding := mkBinding { wb_WGID : Z; wb_Engine : option EngineRef }.

Record EngineRoute := mkRoute {
  rt_Generation : Z; rt_UnderlayIndex : Z; rt_LocalPort : Z; rt_WGID : Z; rt_FWMark : Z;
  rt_Action : Z
}.

Record WGEnginePlan := mkEnginePlan {
  ep_WGID : Z; ep_Options : Options; ep_Routes : list EngineRoute
}.

(** Generation, underlay index, local port and WireGuard identifier. *)
Definition engineRouteKey : Type := Z * Z * Z * Z.
Record engineRouteTarget := mkTarget { tg_wgID : Z; tg_fwmark : Z }.

Definition route_key (r : EngineRoute) : Z * Z * Z * Z :=
  (rt_Generation r, rt_UnderlayIndex r, rt_LocalPort r, rt_WGID r).
Definition flow_route_key (k : FakeTCPSessionKey) : Z * Z * Z * Z :=
  (SK_Generation k, SK_UnderlayIndex k, SK_LocalPort k, SK_WGID k).

Record EngineRouter := mkRouter {
  er_identity : RuntimeIdentity;
  er_engines : gmap Z Engine;
  er_routes : gmap (Z * Z * Z * Z) engineRouteTarget;
  er_wgIDs : list Z
}.

(** ** Construction *)

(** The first loop: the engines by WireGuard, and the instances seen. *)
Fixpoint bind_engines (domain : RuntimeDomain) (engines : gmap Z Engine) (owners : gmap Z Z)
    (l : list WGEngineBinding) : outcome (gmap Z Engine) :=
  match l with
  | [] => Ret engines
  | b :: l =>
      fail_if wb_WGID b =? 0 with "binding has zero WGID or nil Engine" in
      match wb_Engine b with
      | None => Fail "binding has zero WGID or nil Engine"
      | Some ref =>
          fail_if bool_decide (is_Some (engines !! wb_WGID b)) with "duplicate binding for WGID" in
          match ref_instance ref with
          | None => Fail "Engine does not belong to the router RuntimeDomain"
          | Some instance =>
              fail_if negb (ref_domain ref =? dom_state domain) ||
                      negb (bool_decide (e_identity (ref_engine ref) = dom_identity domain))
                with "Engine does not belong to the router RuntimeDomain" in
              fail_if bool_decide (is_Some (owners !! instance))
                with "one Engine instance is assigned to two WGIDs" in
              bind_engines domain (<[wb_WGID b := ref_engine ref]> engines)
                (<[instance := wb_WGID b]> owners) l
          end
      end
  end.

(** The second loop: the frozen routes and the mark of each WireGuard. *)
Fixpoint freeze_routes (generation : Z) (engines : gmap Z Engine)
    (routes : gmap (Z * Z * Z * Z) engineRouteTarget) (marks : gmap Z Z) (l : list EngineRoute)
    : outcome (gmap (Z * Z * Z * Z) engineRouteTarget * gmap Z Z) :=
  match l with
  | [] => Ret (routes, marks)
  | r :: l =>
      fail_if negb (rt_Generation r =? generation) || (rt_UnderlayIndex r =? 0) ||
              (rt_LocalPort r =? 0) || (rt_WGID r =? 0) || (rt_FWMark r =? 0)
        with "route has incomplete identity" in
      fail_if negb (rt_Action r =? ActionRewrite) with "route action is not rewrite" in
      fail_if negb (bool_decide (is_Some (engines !! rt_WGID r)))
        with "route references unknown WGID" in
      fail_if match marks !! rt_WGID r with
              | Some mark => negb (mark =? rt_FWMark r) | None => false
              end with "WGID has two marks" in
      fail_if bool_decide (is_Some (routes !! route_key r)) with "duplicate route" in
      freeze_routes generation engines
        (<[route_key r := mkTarget (rt_WGID r) (rt_FWMark r)]> routes)
        (<[rt_WGID r := rt_FWMark r]> marks) l
  end.

(** [marks] and the set of referenced WireGuards have the same keys. *)
Definition NewEngineRouter (domain : RuntimeDomain) (bindings : list WGEngineBinding)
    (routes : list EngineRoute) : outcome EngineRouter :=
  fail_if (len bindings =? 0) || (len routes =? 0) with "bindings and routes must be non-empty" in
  let! engines := bind_engines domain ∅ ∅ bindings in
  let! (frozen, referenced) := freeze_routes (RI_Generation (dom_identity domain)) engines ∅ ∅ routes in
  let ids := map fst (map_to_list engines) in
  fail_if existsb (fun id => negb (bool_decide (is_Some (referenced !! id)))) ids
    with "WGID has no route" in
  Ret (mkRouter (dom_identity domain) engines frozen (merge_sort Z.le ids)).

Definition plan_routes_ok (wgID generation : Z) (l : list EngineRoute) : bool :=
  forallb (fun r => (rt_WGID r =? wgID) && (rt_Generation r =? generation)) l.

(** The loop over the plans; [instance] is the next allocation token and [nows]
    gives the clock reading of each construction. *)
Fixpoint build_engines (domain : RuntimeDomain) (nows : Z -> Z) (instance : Z)
    (bindings : list WGEngineBinding) (routes : list EngineRoute) (l : list WGEnginePlan)
    : outcome (list WGEngineBinding * list EngineRoute) :=
  match l with
  | [] => Ret (bindings, routes)
  | p :: l =>
      let generation := RI_Generation (dom_identity domain) in
      fail_if (ep_WGID p =? 0) || negb (Generation (ep_Options p) =? generation) ||
              (len (ep_Routes p) =? 0) with "engine plan has incomplete identity or routes" in
      let! ref := NewEngine domain (ep_Options p) instance (nows instance) in
      fail_if negb (plan_routes_ok (ep_WGID p) generation (ep_Routes p))
        with "engine plan route does not match its WGID/generation" in
      build_engines domain nows (instance + 1) (bindings ++ [mkBinding (ep_WGID p) (Some ref)])
        (routes ++ ep_Routes p) l
  end.

Definition NewEngineRouterFromPlans (domain : RuntimeDomain) (nows : Z -> Z)
    (plans : list WGEnginePlan) : outcome EngineRouter :=
  fail_if len plans =? 0 with "engine plans must be non-empty" in
  let! (bindings, routes) := build_engines domain nows 0 [] [] plans in
  NewEngineRouter domain bindings routes.

(** ** Dispatch *)

Definition router_engine (router : EngineRouter) (wgID : Z) : option Engine :=
  er_engines router !! wgID.
Definition WGIDs (router : EngineRouter) : list Z := er_wgIDs router.

Definition set_router_engines (router : EngineRouter) (m : gmap Z Engine) : EngineRouter :=
  mkRouter (er_identity router) m (er_routes router) (er_wgIDs router).

(** The WireGuard whose engine is dispatched to. *)
Definition router_selectEngine (router : EngineRouter) (event : FakeTCPEvent) : outcome Z :=
  fail_if (mlen (er_engines router) =? 0) || (mlen (er_routes router) =? 0)
    with "router is unavailable" in
  match er_routes router !! flow_route_key (EV_Key event) with
  | None => Fail "event route is unknown"
  | Some target =>
      fail_if negb (EV_WGID event =? tg_wgID target)
        with "event WGID does not match route WGID" in
      if EV_Type event =? FakeTCPEventNeedHandshake then
        fail_if negb (EV_FWMark event =? tg_fwmark target)
          with "event mark does not match route mark" in
        Ret (tg_wgID target)
      else
        fail_if negb (EV_FWMark event =? 0) with "inbound control event has mark" in
        Ret (tg_wgID target)
  end.

Definition action_ok (routes : gmap (Z * Z * Z * Z) engineRouteTarget) (ownerWGID : Z)
    (action : Action) : outcome unit :=
  match routes !! flow_route_key (act_Flow action) with
  | None => Fail "action flow is unknown"
  | Some target =>
      fail_if negb (tg_wgID target =? ownerWGID)
        with "action route WGID does not match owner WGID" in
      match act_Kind action with
      | ActionDrop | ActionForward | ActionClose => Ret tt
      | ActionSendControl =>
          fail_if negb (act_WGID action =? tg_wgID target)
            with "action WGID does not match route WGID" in Ret tt
      | ActionReleasePending =>
          fail_if negb (act_WGID action =? tg_wgID target) || (len (act_Packets action) =? 0)
            with "action has no canonical pending WGID" in
          fail_if negb (forallb (fun p => (PP_WGID p =? tg_wgID target) &&
                                         (PP_FWMark p =? tg_fwmark target)) (act_Packets action))
            with "action packet does not match WGID/mark route" in
          Ret tt
      end
  end.

Fixpoint validate_actions (routes : gmap (Z * Z * Z * Z) engineRouteTarget) (ownerWGID : Z)
    (actions : list Action) : outcome unit :=
  match actions with
  | [] => Ret tt
  | a :: actions => check! action_ok routes ownerWGID a in validate_actions routes ownerWGID actions
  end.
Definition router_validateActions (router : EngineRouter) : Z -> list Action -> outcome unit :=
  validate_actions (er_routes router).

(** ** The dispatcher interface *)

(** A dispatcher with the session-ID sequence its engines share and the
    environment. *)
Record DState (D W : Type) := mkDState {
  ds_dispatcher : D;
  ds_sessionIDs : sessionIDAllocator;
  ds_env : W
}.
Arguments mkDState {D W}.
Arguments ds_dispatcher {D W}.
Arguments ds_sessionIDs {D W}.
Arguments ds_env {D W}.

(** The result of a tick: actions, the joined error, and whether that error is
    [ErrEngineRouteRejected]. *)
Definition TickResult : Type := list Action * option error * bool.

(** [selectEngine] gives the WireGuard of the selected engine; [call_engine] is
    a method call on that engine ([None]: there is no such engine, and the call
    panics).  Ticks take each engine's iteration order over its sessions. *)
Class controllerEngineDispatcher (D W : Type) := {
  Identity : D -> RuntimeIdentity;
  selectEngine : D -> FakeTCPEvent -> outcome Z;
  call_engine : forall {A}, Z -> M W A -> DState D W -> option A * DState D W;
  dispatcher_Tick : (Z -> list FakeTCPSessionKey) -> DState D W -> TickResult * DState D W;
  validateActions : D -> Z -> list Action -> outcome unit
}.

Section dispatch.
Context {W : Type} `{Env W}.

Definition on_engine {A} (wgID : Z) (m : M W A) (st : DState EngineRouter W)
    : option A * DState EngineRouter W :=
  let router := ds_dispatcher st in
  match er_engines router !! wgID with
  | None => (None, st)
  | Some e =>
      let '(a, es) := m (mkEState e (ds_sessionIDs st) (ds_env st)) in
      (Some a, mkDState (set_router_engines router (<[wgID := es_engine es]> (er_engines router)))
                 (es_sessionIDs es) (es_env es))
  end.

(** The loop of [Tick]: actions, engine errors and route errors. *)
Fixpoint tick_engines (orders : Z -> list FakeTCPSessionKey) (ids : list Z)
    (st : DState EngineRouter W)
    : (list Action * list error * list error) * DState EngineRouter W :=
  match ids with
  | [] => (([], [], []), st)
  | wgID :: ids =>
      let '(r, st) := on_engine wgID (Tick (orders wgID)) st in
      let '(engineActions, err) := default ([], None) r in
      let errs := match err with Some err => [err] | None => [] end in
      let '((actions, engineErrs, routeErrs), st') := tick_engines orders ids st in
      match router_validateActions (ds_dispatcher st) wgID engineActions with
      | Ret _ => ((engineActions ++ actions, errs ++ engineErrs, routeErrs), st')
      | Fail routeErr => ((actions, errs ++ engineErrs, routeErr :: routeErrs), st')
      | Panic => ((actions, errs ++ engineErrs, routeErrs), st')
      end
  end.

Definition router_Tick (orders : Z -> list FakeTCPSessionKey) (st : DState EngineRouter W)
    : TickResult * DState EngineRouter W :=
  let ids := er_wgIDs (ds_dispatcher st) in
  if len ids =? 0 then (([], Some "router is unavailable", true), st)
  else
    let '((actions, engineErrs, routeErrs), st) := tick_engines orders ids st in
    match errors_Join_all routeErrs with
    | Some routeErr => (([], errors_Join (errors_Join_all engineErrs) (Some routeErr), true), st)
    | None => ((actions, errors_Join_all engineErrs, false), st)
    end.

#[export] Instance EngineRouter_dispatcher : controllerEngineDispatcher EngineRouter W := {|
  Identity := er_identity;
  selectEngine := router_selectEngine;
  call_engine := @on_engine;
  dispatcher_Tick := router_Tick;
  validateActions := router_validateActions
|}.

(** ** One engine *)

Definition single_selectEngine (event : FakeTCPEvent) : outcome Z :=
  fail_if (EV_WGID event =? 0) || negb (EV_WGID event =? SK_WGID (EV_Key event))
    with "event WGID does not match session key WGID" in
  Ret (SK_WGID (EV_Key event)).

Definition on_single {A} (m : M W A) (st : DState Engine W) : A * DState Engine W :=
  let '(a, es) := m (mkEState (ds_dispatcher st) (ds_sessionIDs st) (ds_env st)) in
  (a, mkDState (es_engine es) (es_sessionIDs es) (es_env es)).

#[export] Instance singleEngineDispatcher : controllerEngineDispatcher Engine W := {|
  Identity := e_identity;
  selectEngine _ := single_selectEngine;
  call_engine A _ m st := let '(a, st) := on_single m st in (Some a, st);
  dispatcher_Tick orders st := let '((actions, err), st) := on_single (Tick (orders 0)) st in
                               ((actions, err, false), st);
  validateActions _ _ _ := Ret tt
|}.
End dispatch.
