(* ===== verification/Events.v ===== *)
(** * Ring-buffer events (internal/faketcp/controller.go: event decoding).

    A sample is the byte string the kernel submitted: the packed event header
    ([struct faketcp_event]) and, for the events that carry one, the captured
    packet, either compact or in the fixed-size record. *)
From Stdlib Require Import ZArith Lia.
From stdpp Require Import base option list gmap strings numbers.
From S2P Require Import Prelude Abi Checksum L3Parser Runtime ControlPacket BpfSession.

Definition fakeTCPEventSize : Z := FakeTCPEventSize.
Definition FakeTCPPacketEventSize : Z := FakeTCPEventSize + FakeTCPMaxCapturedPacket.
Definition fakeTCPPacketEventSize : Z := FakeTCPPacketEventSize.

(** An event with its packet. *)
Record DecodedEvent := mkDecoded { de_Event : FakeTCPEvent; de_Packet : list Z }.

Definition fakeTCPEventCarriesPacket (eventType : Z) : bool :=
  (eventType =? FakeTCPEventNeedHandshake) || (eventType =? FakeTCPEventRST) ||
  (eventType =? FakeTCPEventFIN).

(** [binary.NativeEndian] is little-endian on the supported hosts; the header is
    known to have [fakeTCPEventSize] bytes. *)
Definition decodeEventHeader (h : list Z) : FakeTCPEvent :=
  mkEvent
    (mkSessionKey (field h 0 8) (field h 8 4) (field h 12 4) (field h 16 4) (field h 20 2)
       (field h 22 2) (field h 24 4) (bytes_field h 28 4))
    (field h 32 8) (bytes_field h 40 16) (field h 56 8) (field h 64 8) (field h 72 8) (field h 80 4)
    (field h 84 4) (field h 88 4) (field h 92 4) (field h 96 4) (field h 100 4) (field h 104 2)
    (field h 106 2) (field h 108 1) (field h 109 1).

(** The flag consistency of each event type. *)
Definition event_flags_ok (event : FakeTCPEvent) : outcome unit :=
  let flags := EV_TCPFlags event in
  let ty := EV_Type event in
  if ty =? FakeTCPEventNeedHandshake then
    fail_if negb (flags =? 0) with "NEED_HANDSHAKE event has TCP flags" in
    check! validateCaptureIdentity (captureIdentityFromEvent event) (SK_Generation (EV_Key event)) in
    Ret tt
  else if ty =? FakeTCPEventSYN then
    fail_if (Z.land flags FlagSYN =? 0) ||
            negb (Z.land flags (Z.lor (Z.lor FlagACK FlagRST) FlagFIN) =? 0)
      with "SYN event has inconsistent flags" in Ret tt
  else if ty =? FakeTCPEventSYNACK then
    fail_if negb (Z.land flags (Z.lor FlagSYN FlagACK) =? Z.lor FlagSYN FlagACK) ||
            negb (Z.land flags (Z.lor FlagRST FlagFIN) =? 0)
      with "SYNACK event has inconsistent flags" in Ret tt
  else if ty =? FakeTCPEventACK then
    fail_if (Z.land flags FlagACK =? 0) ||
            negb (Z.land flags (Z.lor (Z.lor FlagSYN FlagRST) FlagFIN) =? 0)
      with "ACK event has inconsistent flags" in Ret tt
  else if ty =? FakeTCPEventRST then
    fail_if negb (flags =? Z.lor FlagRST FlagACK) with "RST event has inconsistent flags" in Ret tt
  else if ty =? FakeTCPEventFIN then
    fail_if negb (flags =? Z.lor FlagFIN FlagACK) with "FIN event has inconsistent flags" in Ret tt
  else Fail "unknown faketcp event type".

Definition validateEventType (event : FakeTCPEvent) : outcome unit :=
  check! validatePacketFlow (EV_Key event) in
  fail_if negb (EV_WGID event =? SK_WGID (EV_Key event))
    with "event WGID does not match session key WGID" in
  fail_if negb (EV_EventABIVersion event =? FakeTCPEventABIVersion)
    with "event ABI version does not match" in
  check! validateRuntimeIdentity (runtimeIdentityFromEvent event) in
  check! event_flags_ok event in
  let closeEvent := (EV_Type event =? FakeTCPEventRST) || (EV_Type event =? FakeTCPEventFIN) in
  check! (if closeEvent then
            fail_if (EV_SessionRevision event =? 0) || (EV_SessionID event =? 0)
              with "close event has no session identity" in Ret tt
          else
            fail_if negb (EV_SessionRevision event =? 0) || negb (EV_SessionID event =? 0)
              with "non-close event contains a session identity" in Ret tt) in
  fail_if negb (EV_Type event =? FakeTCPEventNeedHandshake) &&
          (negb (EV_CaptureSequence event =? 0) || negb (EV_CaptureCPU event =? 0))
    with "control event contains a capture sequence" in
  Ret tt.

Definition validateCapturedIPv4UDP (event : FakeTCPEvent) (packet : list Z) : outcome unit :=
  let! bad := (if len packet <? 20 then Ret true
               else let! b0 := idx packet 0 in Ret (negb (Z.shiftr b0 4 =? 4))) in
  fail_if bad with "captured packet is not IPv4" in
  let! b0 := idx packet 0 in
  let headerLength := Z.land b0 0x0f * 4 in
  fail_if negb (headerLength =? 20) || (len packet <? headerLength + 8)
    with "captured IPv4 header length is invalid" in
  let! totalLength := Uint16At packet 2 4 in
  fail_if negb (totalLength =? len packet) with "captured IPv4 total length does not match" in
  let! fragment := Uint16At packet 6 8 in
  fail_if negb (Z.land fragment 0x3fff =? 0) with "captured packet must not be an IPv4 fragment" in
  let! protocol := idx packet 9 in
  fail_if negb (protocol =? 17) with "captured IPv4 protocol is not UDP" in
  let localAddress := NativeEndian_PutUint32 (SK_LocalIPv4 (EV_Key event)) in
  let remoteAddress := NativeEndian_PutUint32 (SK_RemoteIPv4 (EV_Key event)) in
  let! source := slice packet 12 16 in
  let! destination := slice packet 16 20 in
  fail_if negb (bool_decide (source = localAddress)) ||
          negb (bool_decide (destination = remoteAddress))
    with "captured IPv4 endpoints do not match event key" in
  let! udp := slice packet headerLength (headerLength + 8) in
  let! sourcePort := Uint16At udp 0 2 in
  let! destinationPort := Uint16At udp 2 4 in
  fail_if negb (sourcePort =? SK_LocalPort (EV_Key event)) ||
          negb (destinationPort =? SK_RemotePort (EV_Key event))
    with "captured UDP ports do not match event key" in
  let! udpLength := Uint16At udp 4 6 in
  fail_if negb (udpLength =? len packet - headerLength)
    with "captured UDP length does not match IPv4 payload" in
  fail_if negb (EV_PayloadLength event =? u32 (len packet - headerLength - 8))
    with "captured payload length does not match event metadata" in
  Ret tt.

Definition decodeBorrowedEventSample (sample : list Z) : outcome DecodedEvent :=
  fail_if len sample <? fakeTCPEventSize with "event sample is too short" in
  let! header := slice sample 0 fakeTCPEventSize in
  let event := decodeEventHeader header in
  check! validateEventType event in
  if negb (fakeTCPEventCarriesPacket (EV_Type event)) then
    fail_if negb (EV_PacketLength event =? 0) || negb (len sample =? fakeTCPEventSize)
      with "control event has a packet" in
    Ret (mkDecoded event [])
  else
    let packetLength := EV_PacketLength event in
    fail_if (packetLength <=? 0) || (FakeTCPMaxCapturedPacket <? packetLength)
      with "captured packet length is invalid" in
    let compactSize := fakeTCPEventSize + packetLength in
    fail_if negb (len sample =? compactSize) && negb (len sample =? fakeTCPPacketEventSize)
      with "packet event sample has a wrong size" in
    let! packet := slice sample fakeTCPEventSize compactSize in
    check! (if EV_Type event =? FakeTCPEventNeedHandshake
            then validateCapturedIPv4UDP event packet else Ret tt) in
    Ret (mkDecoded event packet).

(** The copy of the borrowed packet has equal content. *)
Definition DecodeEventSample (sample : list Z) : outcome DecodedEvent :=
  let! decoded := decodeBorrowedEventSample sample in
  Ret (mkDecoded (de_Event decoded) (de_Packet decoded)).

(** The header as the kernel lays it out ([struct faketcp_event]; the two pad
    bytes are zero). *)
Definition encode_event (ev : FakeTCPEvent) : list Z :=
  encode_session_key (EV_Key ev) ++ le_bytes 8 (EV_TimestampNanos ev) ++ EV_RuntimeIncarnation ev ++
  le_bytes 8 (EV_CaptureSequence ev) ++ le_bytes 8 (EV_SessionRevision ev) ++
  le_bytes 8 (EV_SessionID ev) ++ le_bytes 4 (EV_CaptureCPU ev) ++ le_bytes 4 (EV_Sequence ev) ++
  le_bytes 4 (EV_Acknowledgement ev) ++ le_bytes 4 (EV_PayloadLength ev) ++
  le_bytes 4 (EV_FWMark ev) ++ le_bytes 4 (EV_WGID ev) ++ le_bytes 2 (EV_PacketLength ev) ++
  le_bytes 2 (EV_EventABIVersion ev) ++ le_bytes 1 (EV_Type ev) ++ le_bytes 1 (EV_TCPFlags ev) ++
  zeros 2.

(** ** Lemmas *)

(** Go's field widths. *)
Record event_typed (ev : FakeTCPEvent) : Prop := {
  et_key : key_typed (EV_Key ev); et_time : fits 8 (EV_TimestampNanos ev);
  et_inc : length (EV_RuntimeIncarnation ev) = 16%nat; et_seq : fits 8 (EV_CaptureSequence ev);
  et_rev : fits 8 (EV_SessionRevision ev); et_sid : fits 8 (EV_SessionID ev);
  et_cpu : fits 4 (EV_CaptureCPU ev); et_sn : fits 4 (EV_Sequence ev);
  et_ack : fits 4 (EV_Acknowledgement ev); et_pay : fits 4 (EV_PayloadLength ev);
  et_mark : fits 4 (EV_FWMark ev); et_wg : fits 4 (EV_WGID ev);
  et_len : fits 2 (EV_PacketLength ev); et_abi : fits 2 (EV_EventABIVersion ev);
  et_type : fits 1 (EV_Type ev); et_flags : fits 1 (EV_TCPFlags ev)
}.

Ltac event_field Hk He :=
  repeat first
    [ rewrite field_here by (first [apply Hk | apply He])
    | rewrite field_skip by (repeat constructor)
    | rewrite bytes_skip by (repeat constructor)
    | rewrite (field_skip_bytes (SK_Reserved _) _ _ _ 4) by (first [apply Hk | repeat constructor])
    | rewrite (field_skip_bytes (EV_RuntimeIncarnation _) _ _ _ 16)
        by (first [apply He | repeat constructor])
    | rewrite (bytes_skip_bytes (SK_Reserved _) _ _ _ 4) by (first [apply Hk | repeat constructor])
    | rewrite bytes_here by (first [apply Hk | apply He])
    | progress (cbn [Nat.sub]) ].

Lemma decode_encode_event ev : event_typed ev -> decodeEventHeader (encode_event ev) = ev.
Proof.
  intros He. pose proof (et_key _ He) as Hk. unfold encode_event, encode_session_key.
  rewrite <- !app_assoc. unfold decodeEventHeader. event_field Hk He. by destruct ev as [[]].
Qed.

Lemma length_encode_event ev : event_typed ev -> len (encode_event ev) = fakeTCPEventSize.
Proof.
  intros He. unfold len, encode_event, encode_session_key.
  rewrite !length_app, !length_le_bytes, (kt_res _ (et_key _ He)), (et_inc _ He). done.
Qed.

(** The exact captures [validateCapturedIPv4UDP] admits. *)
Definition captured_shape (ev : FakeTCPEvent) (p : list Z) : Prop :=
  28 <= len p /\ byte_at p 0 = 0x45 /\ be16_at p 2 = len p /\ Z.land (be16_at p 6) 0x3fff = 0 /\
  byte_at p 9 = 17 /\ endpoints_match p (EV_Key ev) /\ be16_at p 24 = len p - 20 /\
  EV_PayloadLength ev = len p - 28.

Lemma validateCaptured_ret ev p : bytes_ok p ->
  panics (validateCapturedIPv4UDP ev p) = false /\
  (validateCapturedIPv4UDP ev p = Ret tt <-> captured_shape ev p).
Proof.
  intros Hp. unfold validateCapturedIPv4UDP, captured_shape, endpoints_match.
  destruct (Z.ltb_spec (len p) 20) as [Hl|Hl]; cbn [obind]; [split; [done|]; split; [done|lia]|].
  go_read. pose proof (byte_at_ok p 0 Hp) as Hb0. cbn zeta.
  destruct (Z.shiftr (byte_at p 0) 4 =? 4) eqn:Hv; cbn [negb].
  2: { split; [done|]. split; [done|]. intros (_ & H0 & _). by rewrite H0 in Hv. }
  destruct (Z.land (byte_at p 0) 15 * 4 =? 20) eqn:Hh; cbn [negb orb].
  2: { split; [done|]. split; [done|]. intros (_ & H0 & _). by rewrite H0 in Hh. }
  bool_prop. pose proof (nibbles _ Hb0 Hv Hh) as H0. rewrite Hh.
  destruct (Z.ltb_spec (len p) (20 + 8)) as [Hl'|Hl']; [split; [done|]; split; [done|lia]|].
  pose proof (be16_at_range p 2 Hp) as Hr.
  go_read. rewrite !(be16_at_sub_at p 20) by lia.
  change (16 - 12) with 4. change (20 - 16) with 4. change (20 + 0) with 20. change (20 + 2) with 22.
  change (20 + 4) with 24. split; [by repeat case_match|]. split.
  - intros H. go_inv. bool_prop.
    match goal with E : EV_PayloadLength ev = _ |- _ => rewrite u32_id in E by lia end.
    split_and!; try done; lia.
  - intros (_ & _ & H2 & H6 & H9 & (E1 & E2 & E3 & E4) & H24 & Hpay).
    rewrite H2, H6, H9, E1, E2, E3, E4, H24, Hpay, !bool_decide_true, !Z.eqb_refl by done. cbn.
    rewrite u32_id by lia. by rewrite (proj2 (Z.eqb_eq _ _)) by lia.
Qed.

Lemma validateEventType_no_panic ev : panics (validateEventType ev) = false.
Proof.
  unfold validateEventType, validatePacketFlow, validateRuntimeIdentity, event_flags_ok,
    validateCaptureIdentity, validateRuntimeIdentity.
  repeat (first [done | case_match; cbn [obind]]).
Qed.

(** C36: event decoding is exact.  On any byte string the decoder does not
    panic, and it accepts exactly the well-formed samples: a header that is
    valid for its type, followed by no packet (control events), or by a packet
    of the announced length, compact or in the fixed-size record, whose IPv4 and
    UDP headers agree with the event's session key and lengths (captures).  It
    returns the event of the header and exactly those packet bytes.  The header
    decoder inverts the kernel's structure layout. *)
Theorem event_decode_exact :
  (forall ev, event_typed ev -> len (encode_event ev) = fakeTCPEventSize /\
     decodeEventHeader (encode_event ev) = ev) /\
  forall sample, bytes_ok sample ->
    panics (DecodeEventSample sample) = false /\
    forall d, DecodeEventSample sample = Ret d <->
      let ev := decodeEventHeader (sub_at sample 0 fakeTCPEventSize) in
      let n := EV_PacketLength ev in
      fakeTCPEventSize <= len sample /\ de_Event d = ev /\ validateEventType ev = Ret tt /\
      if fakeTCPEventCarriesPacket (EV_Type ev) then
        0 < n <= FakeTCPMaxCapturedPacket /\
        (len sample = fakeTCPEventSize + n \/ len sample = fakeTCPPacketEventSize) /\
        de_Packet d = sub_at sample fakeTCPEventSize n /\
        (EV_Type ev = FakeTCPEventNeedHandshake -> captured_shape ev (de_Packet d))
      else n = 0 /\ len sample = fakeTCPEventSize /\ de_Packet d = [].
Proof.
  split; [intros ev He; split; [by apply length_encode_event|by apply decode_encode_event]|].
  intros sample Hs. unfold DecodeEventSample, decodeBorrowedEventSample. cbn zeta.
  unfold fakeTCPEventSize, fakeTCPPacketEventSize, FakeTCPPacketEventSize, FakeTCPEventSize,
    FakeTCPMaxCapturedPacket.
  destruct (Z.ltb_spec (len sample) 112) as [Hl|Hl]; [split; [done|]; intros; cbn; split; [done|lia]|].
  rewrite slice_in by lia. cbn [obind]. change (112 - 0) with 112.
  set (ev := decodeEventHeader (sub_at sample 0 112)). pose proof (validateEventType_no_panic ev) as Hnp.
  destruct (validateEventType ev) as [[]|err|] eqn:Hv; [|split; [done|]; intros; split; [done|by intros (_ & _ & ? & _)]|done].
  cbn [obind]. destruct (fakeTCPEventCarriesPacket (EV_Type ev)) eqn:Hc; cbn [negb].
  - destruct (Z.leb_spec (EV_PacketLength ev) 0); cbn [orb];
      [split; [done|]; intros; split; [done|lia]|].
    destruct (Z.ltb_spec 2304 (EV_PacketLength ev)); [split; [done|]; intros; split; [done|lia]|].
    destruct (negb (len sample =? 112 + EV_PacketLength ev) && negb (len sample =? 112 + 2304)) eqn:Hsz.
    { split; [done|]. intros; split; [done|]. apply andb_true_iff in Hsz. bool_prop. lia. }
    apply andb_false_iff in Hsz. rewrite !negb_false_iff, !Z.eqb_eq in Hsz.
    rewrite slice_in by lia. cbn [obind]. replace (112 + EV_PacketLength ev - 112) with (EV_PacketLength ev) by lia.
    set (p := sub_at sample 112 (EV_PacketLength ev)).
    destruct (validateCaptured_ret ev p (bytes_ok_sub_at _ _ _ Hs)) as [Hp Hr].
    destruct (Z.eqb_spec (EV_Type ev) FakeTCPEventNeedHandshake) as [Hn|Hn].
    + destruct (validateCapturedIPv4UDP ev p) as [[]|err|] eqn:Hcap; [|split; [done|]|done]; cbn [obind].
      * split; [done|]. intros d. rewrite <- Hcap in Hr.
        destruct d as [de dp]. cbn. split; [intros [= <- <-]; tauto|by intros (_ & -> & _ & _ & _ & -> & _)].
      * intros d. split; [done|]. intros (_ & _ & _ & _ & _ & Hdp & Hsh). rewrite Hdp in Hsh.
        apply Hsh, Hr in Hn. done.
    + cbn [obind]. split; [done|]. intros [de dp]. cbn.
      split; [intros [= <- <-]; split_and!; done|by intros (_ & -> & _ & _ & _ & -> & _)].
  - destruct (Z.eqb_spec (EV_PacketLength ev) 0); cbn [negb orb]; [|split; [done|]; intros; split; [done|tauto]].
    destruct (Z.eqb_spec (len sample) 112); cbn [negb]; [|split; [done|]; intros; split; [done|tauto]].
    cbn [obind]. split; [done|]. intros [de dp]. cbn.
    split; [by intros [= <- <-]|by intros (_ & -> & _ & _ & _ & ->)].
Qed.

(** A captured first packet of [sample_flow]. *)
Definition sample_capture_event : FakeTCPEvent :=
  mkEvent sample_flow 5 (replicate 16 7) 1 0 0 0 0 0 2 81 1 30 FakeTCPEventABIVersion
    FakeTCPEventNeedHandshake 0.
Lemma sample_capture_typed : event_typed sample_capture_event.
Proof. by split; vm_compute. Qed.

Definition sample_capture : list Z := Eval vm_compute in encode_event sample_capture_event ++ sample_packet.
Lemma sample_capture_ok : bytes_ok sample_capture.
Proof. unfold sample_capture. repeat (apply Forall_cons_2; [split; lia|]). apply Forall_nil_2. Qed.

Lemma event_decode_exact_witness :
  decodeEventHeader (encode_event sample_capture_event) = sample_capture_event /\
  DecodeEventSample sample_capture = Ret (mkDecoded sample_capture_event sample_packet).
Proof.
  split; [apply (proj1 event_decode_exact), sample_capture_typed|].
  apply (proj2 event_decode_exact sample_capture sample_capture_ok).
  vm_compute. repeat split; try discriminate; by left.
Defined.
