(* ===== verification/Controller.v ===== *)
(** * The controller (internal/faketcp/controller.go).

    [HandleSample] and [Tick] run one at a time (under [opMu]) and [Close] waits
    for the admitted ones, so each is one state transformer; the interleaving of
    the admission critical sections is not modelled.  [executeActions] is
    the branch without the action-recovery journal, which is modelled in
    ActionRecovery.

    The backend and the context are the class [ControllerBackend] over the
    environment the engines use. *)
From Stdlib Require Import ZArith Lia.
From stdpp Require Import base option list gmap strings numbers.
From S2P Require Import Prelude Abi Checksum L3Parser Runtime ControlPacket BpfSession Engine Router Events.

Class ControllerBackend (W : Type) := {
  be_SendControl : FakeTCPSessionKey -> Z -> ControlPacket -> W -> option error * W;
  be_Reinject : FakeTCPSessionKey -> PendingPacket -> W -> option error * W;
  be_Close : W -> option error * W;
  (** [ctx.Err()]: a context may be cancelled at any time. *)
  ctx_Err : W -> option error * W
}.

Definition ErrControllerClosed : error := "faketcp controller is closed".
Definition ErrControllerFailed : error := "faketcp controller action execution failed".
Definition errControllerContextNil : error := "faketcp controller context is nil".

(** The mutexes, the condition variable and the recovery fields left out;
    [c_backend] tells whether the backend is non-nil. *)
Record Controller (D W : Type) := mkController {
  c_state : DState D W;
  c_backend : bool;
  c_shutdown : bool;
  c_closed : bool;
  c_failureErr : option error;
  c_closeErr : option error
}.
Arguments mkController {D W}.
Arguments c_state {D W}.
Arguments c_backend {D W}.
Arguments c_shutdown {D W}.
Arguments c_closed {D W}.
Arguments c_failureErr {D W}.
Arguments c_closeErr {D W}.

(** [newController] with a non-nil dispatcher. *)
Definition newController {D W} (st : DState D W) (backend : bool) : outcome (Controller D W) :=
  fail_if negb backend with "faketcp controller backend is nil" in
  Ret (mkController st true false false None None).

Definition NewRoutedController {W} (st : DState EngineRouter W) (backend : bool)
    : outcome (Controller EngineRouter W) :=
  fail_if negb (is_ret (validateRuntimeIdentity (er_identity (ds_dispatcher st))))
    with "faketcp routed controller requires an engine router" in
  newController st backend.

(** An owned event: the decoded sample with its fingerprint. *)
Record ownedDecodedEvent := mkOwned {
  od_Event : FakeTCPEvent; od_Packet : list Z; od_Fingerprint : list Z
}.

Section controller.
Context {D W : Type} `{Env W} `{!controllerEngineDispatcher D W} `{ControllerBackend W}.

Definition set_c_state (c : Controller D W) (st : DState D W) : Controller D W :=
  mkController st (c_backend c) (c_shutdown c) (c_closed c) (c_failureErr c) (c_closeErr c).
Definition with_env (st : DState D W) (w : W) : DState D W :=
  mkDState (ds_dispatcher st) (ds_sessionIDs st) w.

(** The admission of an operation; [None] admits it. *)
Definition begin_operation (c : Controller D W) : option error :=
  if negb (c_backend c) || c_shutdown c || c_closed c then Some ErrControllerClosed
  else c_failureErr c.

Definition markFailed (c : Controller D W) (cause : error) : error * Controller D W :=
  let failure := match c_failureErr c with
                 | Some err => err
                 | None => ErrControllerFailed +:+ ": " +:+ cause
                 end in
  (failure, mkController (c_state c) (c_backend c) (c_shutdown c) (c_closed c) (Some failure)
              (c_closeErr c)).

(** The packets of one release, in order; a cancelled context stops the loop, a
    failed reinjection does not. *)
Fixpoint reinject_packets (flow : FakeTCPSessionKey) (packets : list PendingPacket) (w : W)
    : list error * W :=
  match packets with
  | [] => ([], w)
  | p :: packets =>
      let '(cancelled, w) := ctx_Err w in
      match cancelled with
      | Some err => (["reinject faketcp first packet: " +:+ err], w)
      | None =>
          let '(err, w) := be_Reinject flow p w in
          let '(errs, w) := reinject_packets flow packets w in
          (match err with Some err => ("reinject faketcp first packet: " +:+ err) :: errs
           | None => errs end, w)
      end
  end.

Fixpoint executeActions (actions : list Action) (w : W) : option error * W :=
  match actions with
  | [] => (None, w)
  | a :: actions =>
      let '(cancelled, w) := ctx_Err w in
      match cancelled with
      | Some err => (Some err, w)
      | None =>
          match act_Kind a with
          | ActionSendControl =>
              let '(err, w) := be_SendControl (act_Flow a) (act_WGID a) (act_Control a) w in
              match err with
              | Some err => (Some ("send faketcp control packet (" +:+ act_Reason a +:+ "): " +:+ err), w)
              | None => executeActions actions w
              end
          | ActionReleasePending =>
              let '(errs, w) := reinject_packets (act_Flow a) (act_Packets a) w in
              match errors_Join_all errs with
              | Some err => (Some err, w)
              | None => executeActions actions w
              end
          | ActionDrop | ActionForward | ActionClose => executeActions actions w
          end
      end
  end.

(** Executes the actions of a committed transition; a failure is terminal. *)
Definition execute_committed (c : Controller D W) (actions : list Action)
    : option error * Controller D W :=
  let '(err, w) := executeActions actions (ds_env (c_state c)) in
  let c := set_c_state c (with_env (c_state c) w) in
  match err with
  | Some cause => let '(failure, c) := markFailed c cause in (Some failure, c)
  | None => (None, c)
  end.

(** The engine call an event selects; [inr] when the capture is rejected before
    the engine is called. *)
Definition engine_call (d : ownedDecodedEvent) : M W Result + error :=
  let ev := od_Event d in
  if EV_Type ev =? FakeTCPEventNeedHandshake then
    match MaterializeIPv4UDPChecksums (od_Packet d) with
    | Ret packet => inl (handleOwnedCapturedPacket ev packet (od_Fingerprint d))
    | Fail err => inr err
    | Panic => inr "panic"
    end
  else if (EV_Type ev =? FakeTCPEventRST) || (EV_Type ev =? FakeTCPEventFIN)
  then inl (InboundCapturedControl ev (od_Packet d))
  else inl (InboundWithWGID (EV_Key ev)
              (mkSegment (EV_TCPFlags ev) (EV_Sequence ev) (EV_Acknowledgement ev)
                 (EV_PayloadLength ev)) (EV_WGID ev)).

Definition handleOwnedDecodedEvent (d : ownedDecodedEvent) (c : Controller D W)
    : Result * Controller D W :=
  let dispatcher := ds_dispatcher (c_state c) in
  if negb (bool_decide (runtimeIdentityFromEvent (od_Event d) = Identity dispatcher))
  then (([], Some "event runtime identity does not match controller dispatcher"), c)
  else match selectEngine dispatcher (od_Event d) with
  | Ret wgID =>
      match engine_call d with
      | inr err => (([], Some err), c)
      | inl m =>
          let '(r, st) := call_engine wgID m (c_state c) in
          let '(actions, engineErr) := default ([], Some "panic") r in
          let c := set_c_state c st in
          match engineErr with
          | Some err => ((actions, Some err), c)
          | None =>
              match validateActions (ds_dispatcher st) wgID actions with
              | Ret _ => let '(err, c) := execute_committed c actions in ((actions, err), c)
              | Fail err => let '(failure, c) := markFailed c err in ((actions, Some failure), c)
              | Panic => ((actions, Some "panic"), c)
              end
          end
      end
  | Fail err => (([], Some err), c)
  | Panic => (([], Some "panic"), c)
  end.

(** [ctx == nil], then [ctx.Err()]. *)
Definition check_context (ctx : bool) (c : Controller D W) : option error * Controller D W :=
  if negb ctx then (Some errControllerContextNil, c)
  else let '(err, w) := ctx_Err (ds_env (c_state c)) in (err, set_c_state c (with_env (c_state c) w)).

(** [sha256] is [sha256.Sum256]. *)
Definition HandleSample (sha256 : list Z -> list Z) (ctx : bool) (sample : list Z)
    (c : Controller D W) : Result * Controller D W :=
  match begin_operation c with
  | Some err => (([], Some err), c)
  | None =>
      let '(err, c) := check_context ctx c in
      match err with
      | Some err => (([], Some err), c)
      | None =>
          match DecodeEventSample sample with
          | Ret d =>
              let fingerprint := if EV_Type (de_Event d) =? FakeTCPEventNeedHandshake
                                 then sha256 sample else zeros 32 in
              handleOwnedDecodedEvent (mkOwned (de_Event d) (de_Packet d) fingerprint) c
          | Fail err => (([], Some err), c)
          | Panic => (([], Some "panic"), c)
          end
      end
  end.

Definition handleOwnedEvent (ctx : bool) (d : ownedDecodedEvent) (c : Controller D W)
    : Result * Controller D W :=
  match begin_operation c with
  | Some err => (([], Some err), c)
  | None =>
      let '(err, c) := check_context ctx c in
      match err with
      | Some err => (([], Some err), c)
      | None => handleOwnedDecodedEvent d c
      end
  end.

Definition controller_Tick (ctx : bool) (orders : Z -> list FakeTCPSessionKey) (c : Controller D W)
    : Result * Controller D W :=
  match begin_operation c with
  | Some err => (([], Some err), c)
  | None =>
      let '(err, c) := check_context ctx c in
      match err with
      | Some err => (([], Some err), c)
      | None =>
          let '((actions, engineErr, rejected), st) := dispatcher_Tick orders (c_state c) in
          let c := set_c_state c st in
          if rejected then
            let '(failure, c) := markFailed c (default "" engineErr) in ((actions, Some failure), c)
          else
            let '(err, c) := execute_committed c actions in
            ((actions, match err with Some _ => errors_Join engineErr err | None => engineErr end), c)
      end
  end.

(** [Close] with no operation in flight. *)
Definition controller_Close (c : Controller D W) : option error * Controller D W :=
  if c_closed c then (None, c)
  else if negb (c_backend c) then (Some ErrControllerClosed, c)
  else
    let '(err, w) := be_Close (ds_env (c_state c)) in
    let closeErr := match err with
                    | Some err => Some ("close faketcp controller backend: " +:+ err)
                    | None => None
                    end in
    let open := bool_decide (is_Some closeErr) in
    (closeErr, mkController (with_env (c_state c) w) open true (negb open) (c_failureErr c) closeErr).
End controller.
