(* ===== verification/RouterInv.v ===== *)
(** * Engines stay on their routes: the sessions of an engine, the packets it
    queues and the actions it returns all belong to the routes of its
    WireGuard. *)
From Stdlib Require Import ZArith Lia.
From stdpp Require Import base option list gmap strings numbers sorting.
From S2P Require Import Prelude Abi Checksum L3Parser Runtime ControlPacket Engine EngineInv Router.

(** ** Operations that do not touch the sessions *)

Lemma sessions_prune e now budget : e_sessions (pruneExpiredSYNSources e now budget) = e_sessions e.
Proof.
  revert e. induction budget as [|n IH]; intros e; simpl; [done|].
  repeat case_match; try done; by rewrite IH.
Qed.
Lemma sessions_observe e flow now : e_sessions (observeSYN e flow now).1 = e_sessions e.
Proof.
  unfold observeSYN, lookupOrCreateSYNSource. cbn zeta. case_match; [done|].
  set (e1 := set_globalSYNs _ _).
  pose proof (sessions_prune e1 now synSourcePruneBudget) as Hp.
  destruct (e_synSources (pruneExpiredSYNSources e1 now synSourcePruneBudget) !! _);
    [case_match; exact Hp|]. destruct (SYNSourceLedgerCapacity _ <=? _); [exact Hp|].
  case_match; exact Hp.
Qed.
Lemma sessions_reserve e key : e_sessions (reserveInboundHalfOpen e key).1 = e_sessions e.
Proof. unfold reserveInboundHalfOpen. by repeat case_match. Qed.

(** ** The invariant *)

Section routed.
Context (routes : gmap (Z * Z * Z * Z) engineRouteTarget) (wg mark : Z).

Definition flow_routed (flow : FakeTCPSessionKey) : Prop :=
  routes !! flow_route_key flow = Some (mkTarget wg mark).
Definition packet_routed (p : PendingPacket) : Prop := PP_WGID p = wg /\ PP_FWMark p = mark.
Definition session_routed (s : session) : Prop :=
  s_wgID s = wg /\ Forall packet_routed (s_pending s).
Definition engine_routed (e : Engine) : Prop :=
  forall flow s, e_sessions e !! flow = Some s -> flow_routed flow /\ session_routed s.
Definition action_routed (a : Action) : Prop := action_ok routes wg a = Ret tt.
Definition result_routed {E} (r : list Action * E) : Prop := Forall action_routed r.1.

Lemma routed_put e flow s : engine_routed e -> flow_routed flow -> session_routed s ->
  engine_routed (put_session e flow s).
Proof.
  intros He Hf Hs f x Hx. unfold put_session, set_sessions in Hx. simpl in Hx.
  apply lookup_insert_Some in Hx as [[<- <-]|[_ Hx]]; [done|by apply He].
Qed.
Lemma routed_delete e flow : engine_routed e ->
  engine_routed (set_sessions e (delete flow (e_sessions e))).
Proof. intros He f x Hx. simpl in Hx. apply lookup_delete_Some in Hx as [_ Hx]. by apply He. Qed.
Lemma routed_same e e' : e_sessions e' = e_sessions e -> engine_routed e -> engine_routed e'.
Proof. unfold engine_routed. by intros ->. Qed.

Lemma simple_routed kind flow reason : flow_routed flow ->
  kind = ActionDrop \/ kind = ActionForward \/ kind = ActionClose ->
  action_routed (simple_action kind flow reason).
Proof.
  intros Hf Hk. unfold action_routed, action_ok, simple_action. cbn. rewrite Hf. cbn.
  rewrite Z.eqb_refl. cbn. by destruct Hk as [-> | [-> | -> ]].
Qed.
Lemma send_routed flow s control reason : flow_routed flow -> session_routed s ->
  action_routed (mkAction ActionSendControl flow (s_wgID s) control [] reason).
Proof.
  intros Hf [Hw _]. unfold action_routed, action_ok. cbn. rewrite Hf, Hw. cbn. by rewrite Z.eqb_refl.
Qed.
Lemma release_routed flow q : flow_routed flow -> q <> [] -> Forall packet_routed q ->
  action_routed (mkAction ActionReleasePending flow wg ControlPacket_zero q "").
Proof.
  intros Hf Hq Hp. unfold action_routed, action_ok. cbn. rewrite Hf. cbn. rewrite Z.eqb_refl. cbn.
  destruct (len q =? 0) eqn:Hl.
  { apply Z.eqb_eq in Hl. destruct q; [done|]. rewrite len_cons in Hl. pose proof (len_nonneg q). lia. }
  replace (forallb _ q) with true; [done|]. symmetry. apply forallb_forall. intros p Hin.
  rewrite Forall_forall in Hp. apply list_elem_of_In, Hp in Hin as [-> ->]. by rewrite !Z.eqb_refl.
Qed.

(** ** Computations that keep it *)

Definition rkeeps {W A} (m : M W A) (post : A -> Prop) : Prop :=
  forall st, engine_routed (es_engine st) ->
    wp m (fun a st' => engine_routed (es_engine st') /\ post a) st.

Section rules.
Context {W : Type} `{Env W}.

Lemma rk_bind {A B} (m : M W A) (k : A -> M W B) P Q :
  rkeeps m P -> (forall a, P a -> rkeeps (k a) Q) -> rkeeps (ebind m k) Q.
Proof.
  intros Hm Hk st Hst. apply wp_bind. eapply wp_mono; [by apply Hm|]. intros a st' [? ?]. by apply Hk.
Qed.
Lemma rk_ret {A} (a : A) (P : A -> Prop) : P a -> rkeeps (eret (W := W) a) P.
Proof. intros Ha st Hst. by apply wp_ret. Qed.
Lemma rk_call {A} (f : W -> A * W) : rkeeps (call f) (fun _ => True).
Proof. intros st Hst. apply wp_call. by intros. Qed.
Lemma rk_modify f : (forall e, engine_routed e -> engine_routed (f e)) ->
  rkeeps (W := W) (modify f) (fun _ => True).
Proof. intros Hf st Hst. apply wp_modify. simpl. split; [by apply Hf|done]. Qed.
Lemma rk_get {A} (k : Engine -> M W A) Q :
  (forall e, engine_routed e -> rkeeps (k e) Q) -> rkeeps (ebind get_engine k) Q.
Proof. intros Hk st Hst. apply wp_bind, wp_get. by apply Hk. Qed.
Lemma rk_set e : engine_routed e -> rkeeps (W := W) (set_engine e) (fun _ => True).
Proof. intros He st Hst. by apply wp_set. Qed.
Lemma rk_allocate : rkeeps (W := W) allocate_id (fun _ => True).
Proof. intros st Hst. apply wp_allocate. by intros. Qed.
Lemma rk_mono {A} (m : M W A) (P Q : A -> Prop) : rkeeps m P -> (forall a, P a -> Q a) -> rkeeps m Q.
Proof. intros Hm HPQ st Hst. eapply wp_mono; [by apply Hm|]. intros a st' [? ?]. auto. Qed.
End rules.
End routed.

Create HintDb engine_routed.
#[export] Hint Resolve routed_put routed_delete simple_routed send_routed : engine_routed.
#[export] Hint Extern 1 (session_routed _ _ _) => assumption : engine_routed.
#[export] Hint Extern 1 (engine_routed _ _ _ _) => first [assumption | case_match; assumption]
  : engine_routed.

(** Steps through a computation; side conditions go to [engine_routed]. *)
Ltac rk_side := try solve [eauto 10 with engine_routed].
Ltac rk_step :=
  lazymatch goal with
  | |- rkeeps _ _ _ (ebind get_engine _) _ => apply rk_get; intros ? ?
  | |- rkeeps _ _ _ (ebind (call _) _) _ => eapply rk_bind; [apply rk_call|intros ? _]
  | |- rkeeps _ _ _ (ebind Now _) _ => eapply rk_bind; [apply rk_call|intros ? _]
  | |- rkeeps _ _ _ (ebind allocate_id _) _ => eapply rk_bind; [apply rk_allocate|intros ? _]
  | |- rkeeps _ _ _ (ebind (modify _) _) _ =>
      eapply rk_bind; [apply rk_modify; intros ? ?; rk_side|intros ? _]
  | |- rkeeps _ _ _ (ebind (set_engine _) _) _ =>
      eapply rk_bind; [apply rk_set; rk_side|intros ? _]
  | |- rkeeps _ _ _ (modify _) _ => eapply rk_mono; [apply rk_modify; intros ? ?; rk_side|by intros]
  | |- rkeeps _ _ _ (eret _) _ => apply rk_ret
  | |- rkeeps _ _ _ (drop_result _ _) _ => apply rk_ret
  | |- rkeeps _ _ _ (if ?b then _ else _) _ => destruct b eqn:?
  | |- rkeeps _ _ _ (let '(_, _) := ?p in _) _ => destruct p eqn:?
  | |- rkeeps _ _ _ (match ?x with _ => _ end) _ => destruct x eqn:?
  end.

Section ops.
Context {W : Type} `{Env W}.
Context (routes : gmap (Z * Z * Z * Z) engineRouteTarget) (wg mark : Z).
Abbreviation rkeeps := (rkeeps (W := W) routes wg mark).
Abbreviation flow_routed := (flow_routed routes wg mark).
Abbreviation session_routed := (session_routed wg mark).
Abbreviation action_routed := (action_routed routes wg).
Abbreviation result_routed := (result_routed routes wg).

Lemma rk_releaseHalfOpen flow s : flow_routed flow -> session_routed s ->
  rkeeps (releaseHalfOpen flow s) session_routed.
Proof. intros Hf Hs. unfold releaseHalfOpen. by repeat rk_step. Qed.

Lemma rk_remove flow s : flow_routed flow -> session_routed s -> rkeeps (remove flow s) (fun _ => True).
Proof.
  intros Hf Hs. unfold remove. eapply rk_bind; [by apply rk_releaseHalfOpen|]. intros s' Hs'.
  eapply (rk_bind _ _ _ _ _ (fun _ => True)); [by repeat rk_step|]. intros _ _. by repeat rk_step.
Qed.

Lemma rk_release flow s : flow_routed flow -> session_routed s ->
  rkeeps (release flow s) (fun r => session_routed r.1 /\ Forall action_routed r.2).
Proof.
  intros Hf Hs. unfold release. rk_step; [by rk_step|]. pose proof Hs as [Hw Hp].
  assert (session_routed (set_pending s [] 0)) by (split; [done|by apply Forall_nil]).
  repeat rk_step. split; [done|]. apply Forall_cons. split; [|by apply Forall_nil].
  cbn [s_wgID set_pending]. rewrite Hw. apply (release_routed routes wg mark); [done|..|done].
  intros E. by rewrite E in *.
Qed.

Lemma rk_insert flow s : flow_routed flow -> session_routed s ->
  rkeeps (insertEstablished flow s) (fun r => session_routed r.1).
Proof.
  intros Hf Hs. unfold insertEstablished. rk_step. rk_step; [|by rk_step].
  eapply (rk_bind _ _ _ _ _ (fun _ => True)); [by repeat rk_step; try apply rk_allocate|].
  intros id _. by repeat rk_step.
Qed.

Lemma rk_lookup flow s : flow_routed flow -> session_routed s ->
  rkeeps (lookupEstablished flow s) (fun r => session_routed r.1).
Proof. intros Hf Hs. unfold lookupEstablished. by repeat rk_step. Qed.

Lemma rk_compareDelete flow s request : flow_routed flow -> session_routed s ->
  rkeeps (compareDeleteEstablished flow s request) (fun r => session_routed r.1).
Proof. intros Hf Hs. unfold compareDeleteEstablished. by repeat rk_step. Qed.

Lemma rk_retry flow s request : flow_routed flow -> session_routed s ->
  rkeeps (retryPendingDelete flow s request) (fun r => action_routed r.1).
Proof.
  intros Hf Hs. unfold retryPendingDelete. eapply rk_bind; [by apply rk_compareDelete|].
  intros [s' r] Hs'. repeat rk_step; rk_side.
  eapply rk_bind; [by apply rk_remove|]. intros _ _. rk_step. rk_side.
Qed.

(** Results with one or no action. *)
Lemma one_routed a (err : option error) : action_routed a -> result_routed ([a], err).
Proof. intros Ha. apply Forall_cons. split; [done|by apply Forall_nil]. Qed.
Lemma none_routed (err : option error) : result_routed ([], err).
Proof. by apply Forall_nil. Qed.
Lemma retry_result flow s request : flow_routed flow -> session_routed s ->
  rkeeps (run! (action, err) := retryPendingDelete flow s request in eret ([action], err)) result_routed.
Proof.
  intros Hf Hs. eapply rk_bind; [by apply rk_retry|]. intros [a err] Ha. rk_step. by apply one_routed.
Qed.
Lemma remove_result flow s reason : flow_routed flow -> session_routed s ->
  rkeeps (do! remove flow s in eret ([close_action flow reason], @None error)) result_routed.
Proof.
  intros Hf Hs. eapply rk_bind; [by apply rk_remove|]. intros _ _. rk_step. apply one_routed. rk_side.
Qed.
#[local] Hint Resolve one_routed none_routed : engine_routed.
#[local] Hint Resolve retry_result remove_result : engine_routed.

Lemma session_wg s v : session_routed s -> v = wg -> session_routed (if s_wgID s =? 0 then set_wgID s v else s).
Proof. intros [Hw Hp] ->. by case_match. Qed.
#[local] Hint Resolve session_wg : engine_routed.

Lemma own_routed p : packet_routed wg mark p -> packet_routed wg mark (ownPendingPacket p).
Proof. unfold ownPendingPacket. by case_match. Qed.

Lemma rk_outbound_pending flow s packet created : flow_routed flow -> session_routed s ->
  packet_routed wg mark packet -> rkeeps (outbound_pending flow s packet created) result_routed.
Proof.
  intros Hf Hs Hp. unfold outbound_pending. rk_step; [rk_step; rk_side|]. cbn zeta.
  assert (session_routed (if s_wgID s =? 0 then set_wgID s (PP_WGID packet) else s)) as Hs'
    by (apply session_wg; [done|apply Hp]). revert Hs'. generalize (if s_wgID s =? 0 then set_wgID s (PP_WGID packet) else s).
  clear Heqb s Hs. intros s Hs. rk_step. rk_step. destruct (enqueue e flow s packet) as [e' queued] eqn:E.
  assert (engine_routed routes wg mark e') as He'.
  { assert (forall n, session_routed (set_pending s (s_pending s ++ [ownPendingPacket packet]) n)) as Hq.
    { intros n. destruct Hs. split; [done|]. apply Forall_app. split; [done|]. apply Forall_cons.
      split; [by apply own_routed|by apply Forall_nil]. }
    unfold enqueue in E. cbn zeta in E. repeat case_match; simplify_eq; try done; by apply routed_put. }
  rk_step. rk_step. apply Forall_app. split; case_match; try (by apply Forall_nil);
    apply Forall_cons; (split; [|by apply Forall_nil]); [by apply (send_routed routes wg mark)|rk_side].
Qed.

Lemma rk_outbound flow packet dropped : flow_routed flow -> packet_routed wg mark packet ->
  rkeeps (outbound flow packet dropped) result_routed.
Proof.
  intros Hf Hp. unfold outbound. rk_step. rk_step; [rk_step; rk_side|]. rk_step; [rk_step; rk_side|].
  destruct (e_sessions e !! flow) as [s|] eqn:Hs.
  - assert (session_routed s) as Hrs by (by eapply H0). rk_step; [|rk_step; by apply rk_outbound_pending].
    unfold outbound_established. rk_step; [rk_side|]. rk_step. rk_step; [rk_step; rk_side|]. cbn zeta.
    assert (session_routed (if s_wgID s =? 0 then set_wgID s (PP_WGID packet) else s)) as Hs'
      by (apply session_wg; [done|apply Hp]). rk_step.
    eapply rk_bind; [by apply rk_lookup|]. intros [s1 r] Hs1. cbn in Hs1.
    rk_step; [|rk_step; rk_side]. rk_step; [|rk_side].
    rk_step. rk_step. rk_step; rk_step; rk_side. apply one_routed. destruct Hs1 as [Hw1 _].
    cbn [s_wgID set_nextKeepalive]. rewrite Hw1. apply (release_routed routes wg mark); [done..|]. apply Forall_cons. split; [by apply own_routed|by apply Forall_nil].
  - rk_step. repeat (rk_step; [rk_step; rk_side|]). rk_step. cbn zeta.
    match goal with |- context [put_session _ _ ?s] => assert (session_routed s) as Hs'
      by (split; [apply Hp|by apply Forall_nil]) end.
    rk_step. by apply rk_outbound_pending.
Qed.

Lemma rk_event event packet fingerprint : flow_routed (EV_Key event) ->
  EV_WGID event = wg -> EV_FWMark event = mark ->
  rkeeps (handleOwnedCapturedPacket event packet fingerprint) result_routed.
Proof.
  intros Hf Hw Hm. unfold handleOwnedCapturedPacket. rk_step.
  repeat (rk_step; [rk_step; rk_side|]). by apply rk_outbound.
Qed.

Lemma rk_inbound_new flow seg now src : flow_routed flow ->
  rkeeps (inbound_new flow seg wg now src) result_routed.
Proof.
  intros Hf. unfold inbound_new. rk_step. repeat (rk_step; [rk_step; rk_side|]).
  destruct (reserveInboundHalfOpen e src) as [e' rejection] eqn:E.
  assert (engine_routed routes wg mark e') as He'.
  { eapply routed_same; [|done]. pose proof (sessions_reserve e src) as Hr. by rewrite E in Hr. }
  rk_step. rk_step; [rk_step; rk_side|]. rk_step. cbn zeta.
  match goal with |- context [put_session _ _ ?s] => assert (session_routed s) as Hs'
    by (split; [done|by apply Forall_nil]) end.
  rk_step. rk_step. apply one_routed. by apply (send_routed routes wg mark).
Qed.

(** A checkpoint of a routed engine. *)
Definition checkpoint_routed (cp : engineCheckpoint) : Prop :=
  forall s, cp_session cp = Some s -> session_routed s.
Lemma routed_restore e flow cp : engine_routed routes wg mark e -> flow_routed flow ->
  checkpoint_routed cp -> engine_routed routes wg mark (restore e flow cp).
Proof.
  intros He Hf Hc. unfold restore. cbn zeta. case_match.
  - apply routed_put; [done..|]. by apply Hc.
  - by apply routed_delete.
Qed.
#[local] Hint Resolve routed_restore : engine_routed.

Lemma rk_establish flow s actions cp : flow_routed flow -> session_routed s ->
  checkpoint_routed cp -> Forall action_routed actions ->
  rkeeps (inbound_establish flow s actions cp) result_routed.
Proof.
  intros Hf Hs Hc Ha. unfold inbound_establish. eapply rk_bind; [by apply rk_insert|].
  intros [s' err] Hs'. cbn in Hs'. rk_step.
  - rk_step. rk_step. rk_side.
  - eapply rk_bind; [by apply rk_releaseHalfOpen|]. intros _ _. by rk_step.
Qed.

Lemma rk_release_establish flow s (f : list Action -> list Action) cp : flow_routed flow ->
  session_routed s -> checkpoint_routed cp ->
  (forall l, Forall action_routed l -> Forall action_routed (f l)) ->
  rkeeps (run! (s, released) := release flow s in inbound_establish flow s (f released) cp)
    result_routed.
Proof.
  intros Hf Hs Hc Ha. eapply rk_bind; [by apply rk_release|]. intros [s' released] [Hs' Hr].
  apply rk_establish; auto.
Qed.

Lemma rk_inbound_existing flow seg now s cp : flow_routed flow -> session_routed s ->
  checkpoint_routed cp -> rkeeps (inbound_existing flow seg wg now s cp) result_routed.
Proof.
  intros Hf Hs Hc. unfold inbound_existing. rk_step. cbn zeta.
  assert (session_routed (set_activity (if s_wgID s =? 0 then set_wgID s wg else s) now
    (now + KeepaliveInterval (e_opts e)))) as Hs' by (by apply (session_wg s wg)).
  revert Hs'. generalize (set_activity (if s_wgID s =? 0 then set_wgID s wg else s) now
    (now + KeepaliveInterval (e_opts e))). clear s Hs. intros s Hs.
  assert (forall s' c reason, session_routed s' ->
    action_routed (mkAction ActionSendControl flow (s_wgID s') c [] reason)) as Hsend
    by (intros; by apply (send_routed routes wg mark)).
  rk_step. rk_step; [|rk_step; [|rk_step; [|rk_step; rk_side]]].
  - rk_step.
    + rk_step. apply (rk_release_establish flow _ (cons _)); try done.
      intros l Hl. apply Forall_cons. split; [by apply Hsend|done].
    + rk_step; [|rk_step; rk_side]. rk_step. rk_step. apply one_routed. by apply Hsend.
  - rk_step; [rk_step; apply one_routed; by apply Hsend|]. rk_step; [|rk_step; rk_side].
    rk_step. by apply (rk_release_establish flow _ (fun l => l)).
  - rk_step; [rk_step; rk_side|]. eapply rk_bind; [by apply rk_lookup|]. intros [s1 r] Hs1. cbn in Hs1.
    rk_step; [|rk_step; rk_step; rk_side]. rk_step; [rk_step; rk_side|rk_side].
Qed.

Lemma rk_inbound_admitted flow seg now s cp src : flow_routed flow ->
  (forall x, s = Some x -> session_routed x) -> checkpoint_routed cp ->
  rkeeps (inbound_admitted flow seg wg now s cp src) result_routed.
Proof.
  intros Hf Hs Hc. unfold inbound_admitted. destruct s as [s|]; [specialize (Hs s eq_refl)|clear Hs].
  - rk_step; [rk_step; rk_side|]. rk_step; [|by apply rk_inbound_existing].
    rk_step; [rk_step; rk_side|rk_side].
  - cbn iota. rk_step; [rk_step; rk_side|by apply rk_inbound_new].
Qed.

(** SYN admission in front of [inbound_admitted]. *)
Lemma rk_inbound_syn flow seg now e s cp : flow_routed flow -> engine_routed routes wg mark e ->
  (forall x, s = Some x -> session_routed x) -> checkpoint_routed cp ->
  rkeeps (if seg_Flags seg =? FlagSYN then
            let '(e, admitted) := observeSYN e flow now in
            do! set_engine e in
            match admitted with
            | inr rejection => drop_result flow rejection
            | inl synSource => inbound_admitted flow seg wg now s cp synSource
            end
          else inbound_admitted flow seg wg now s cp synSourceKey_zero) result_routed.
Proof.
  intros Hf He Hs Hc. rk_step; [|by apply rk_inbound_admitted].
  destruct (observeSYN e flow now) as [e' admitted] eqn:E.
  assert (engine_routed routes wg mark e') as He'.
  { eapply routed_same; [|exact He]. pose proof (sessions_observe e flow now) as Ho. by rewrite E in Ho. }
  rk_step. rk_step; [by apply rk_inbound_admitted|rk_step; rk_side].
Qed.

Lemma rk_inbound flow seg : flow_routed flow -> rkeeps (inbound flow seg wg) result_routed.
Proof.
  intros Hf. unfold inbound. rk_step. rk_step; [rk_step; rk_side|]. rk_step; [rk_step; rk_side|].
  rk_step. cbn zeta.
  assert (forall x, e_sessions e !! flow = Some x -> session_routed x) as Hs by (intros x Hx; by eapply H0).
  assert (checkpoint_routed (checkpoint e (e_sessions e !! flow))) as Hc by done.
  destruct (e_sessions e !! flow) as [s|] eqn:Es; cbn [mbind option_bind].
  - destruct (s_pendingDelete s); [apply retry_result; auto|]. by apply rk_inbound_syn.
  - by apply rk_inbound_syn.
Qed.

Lemma rk_control event packet : flow_routed (EV_Key event) ->
  rkeeps (InboundCapturedControl event packet) result_routed.
Proof.
  intros Hf. unfold InboundCapturedControl. rk_step. cbn zeta.
  do 5 (rk_step; [rk_step; rk_side|]).
  destruct (e_sessions e !! EV_Key event) as [s|] eqn:Hs; [|rk_step; rk_side].
  assert (session_routed s) as Hrs by (by eapply H0). rk_step; [rk_step; rk_side|].
  rk_step; [rk_side|]. rk_step; [rk_step; rk_side|]. unfold close_established. cbn zeta.
  eapply rk_bind; [by apply rk_lookup|]. intros [s1 r] Hs1. cbn in Hs1. rk_step; [|rk_step; rk_side].
  rk_step; [|rk_step; rk_side]. rk_step; [rk_step; rk_side|].
  eapply rk_bind; [by apply rk_compareDelete|]. intros [s2 r2] Hs2. cbn in Hs2.
  rk_step; [|rk_step; rk_side]. rk_step; [rk_step; rk_side|rk_side].
Qed.

(** Tick results carry a list of errors. *)
Lemma ticked_one a (errs : list error) : action_routed a -> result_routed ([a], errs).
Proof. intros Ha. apply Forall_cons. split; [done|by apply Forall_nil]. Qed.
Lemma ticked_none (errs : list error) : result_routed ([], errs).
Proof. by apply Forall_nil. Qed.
Lemma ticked_remove flow s reason : flow_routed flow -> session_routed s ->
  rkeeps (do! remove flow s in eret ([close_action flow reason], @nil error)) result_routed.
Proof.
  intros Hf Hs. eapply rk_bind; [by apply rk_remove|]. intros _ _. rk_step. apply ticked_one. rk_side.
Qed.
#[local] Hint Resolve ticked_one ticked_none ticked_remove : engine_routed.

Lemma rk_tick_session flow now mono : rkeeps (tick_session flow now mono) result_routed.
Proof.
  unfold tick_session. rk_step. destruct (e_sessions e !! flow) as [s|] eqn:Hs; [|rk_step; rk_side].
  destruct (H0 flow s Hs) as [Hf Hrs]. rk_step; [|rk_step; [|rk_step; rk_side]].
  - unfold tick_handshake. rk_step. rk_step; [rk_step; rk_side|]. rk_step; [rk_side|]. cbn zeta.
    rk_step. case_match. rk_step. apply ticked_one. by apply (send_routed routes wg mark flow
      (set_nextRetry (set_retries s (s_retries s + 1)) (now + HandshakeTimeout (e_opts e0)))).
  - unfold tick_established. rk_step.
    { eapply rk_bind; [by apply rk_retry|]. intros [a err] Ha. rk_step. by apply ticked_one. }
    eapply rk_bind; [by apply rk_lookup|]. intros [s1 r] Hs1. cbn in Hs1.
    rk_step; [|rk_step; rk_side]. rk_step; [|rk_side]. rk_step. rk_step.
    + eapply rk_bind; [by apply rk_compareDelete|]. intros [s2 r2] Hs2. cbn in Hs2.
      rk_step; [|rk_step; rk_side]. rk_step; [rk_step; rk_side|rk_side].
    + rk_step; [|rk_step; rk_side]. cbn zeta. rk_step. rk_step. apply ticked_one.
      by apply (send_routed routes wg mark flow (set_nextKeepalive s1 _)).
Qed.

Lemma rk_tick order : rkeeps (Tick order) result_routed.
Proof.
  assert (forall now mono, rkeeps (tick_sessions order now mono) result_routed) as Hall.
  { intros now mono. induction order as [|flow l IH]; simpl; [rk_step; rk_side|].
    eapply rk_bind; [apply rk_tick_session|]. intros [acts errs] Ha.
    eapply rk_bind; [apply IH|]. intros [acts' errs'] Ha'. rk_step. by apply Forall_app. }
  unfold Tick. rk_step. rk_step. rk_step; [|rk_step; rk_side].
  eapply rk_bind; [apply Hall|]. intros [acts errs] Ha. by rk_step.
Qed.
End ops.
