(* ===== verification/RouterProps.v ===== *)
(** * Theorems about dispatch: the routes a router freezes, exact selection, and
    the action fence. *)
From Stdlib Require Import ZArith Lia.
From stdpp Require Import base option list gmap strings numbers sorting relations.
From S2P Require Import Prelude Abi Checksum L3Parser Runtime ControlPacket BpfSession Engine EngineInv EngineProps Router RouterInv Events Controller.

(** ** What construction computes *)

Lemma bind_engines_spec domain m owners l m' :
  bind_engines domain m owners l = Ret m' ->
  NoDup (map wb_WGID l) /\ (forall b, b ∈ l -> m !! wb_WGID b = None /\ wb_WGID b <> 0) /\
  (forall wg e, m' !! wg = Some e <-> m !! wg = Some e \/
     exists b ref, b ∈ l /\ wb_WGID b = wg /\ wb_Engine b = Some ref /\ ref_engine ref = e).
Proof.
  revert m owners. induction l as [|b l IH]; intros m owners Hb; cbn [bind_engines] in Hb.
  { go_inv. subst. split_and!; [apply NoDup_nil_2|by intros ? ?%elem_of_nil|].
    intros wg e. split; [by left|]. intros [?|(? & ? & ?%elem_of_nil & _)]; done. }
  destruct (Z.eqb_spec (wb_WGID b) 0); [done|]. destruct (wb_Engine b) as [ref|] eqn:Hr; [|done].
  case_bool_decide as Hm; [done|]. destruct (ref_instance ref) as [i|]; [|done].
  destruct (_ || _); [done|]. case_bool_decide; [done|].
  apply IH in Hb as (Hn & Hfresh & Hm'). apply eq_None_not_Some in Hm. split_and!.
  - cbn [map]. apply list.NoDup_cons. split; [|done]. intros (b' & E & Hb')%list_elem_of_fmap.
    destruct (Hfresh b' Hb') as [Hx _]. rewrite <- E, lookup_insert_eq in Hx. done.
  - intros b' [->|Hb']%elem_of_cons; [done|]. destruct (Hfresh b' Hb') as [Hx ?]. split; [|done].
    by apply lookup_insert_None in Hx as [? _].
  - intros wg e. rewrite Hm', lookup_insert_Some. setoid_rewrite elem_of_cons. split.
    + intros [[[<- <-]|[_ ?]]|(b' & r & ? & ? & ? & ?)]; [right; exists b, ref; auto|by left|].
      right. exists b', r. auto.
    + intros [Hx|(b' & r & [->|Hb'] & <- & E & <-)].
      * left. right. split; [|done]. intros <-. congruence.
      * left. left. split; [done|congruence].
      * right. exists b', r. auto.
Qed.

Lemma freeze_routes_spec g engines routes marks l routes' marks' :
  freeze_routes g engines routes marks l = Ret (routes', marks') ->
  (forall k t, routes' !! k = Some t <-> routes !! k = Some t \/
     exists r, r ∈ l /\ k = route_key r /\ t = mkTarget (rt_WGID r) (rt_FWMark r)) /\
  (forall wg m, marks' !! wg = Some m <-> marks !! wg = Some m \/
     exists r, r ∈ l /\ wg = rt_WGID r /\ m = rt_FWMark r) /\
  (forall r, r ∈ l -> is_Some (engines !! rt_WGID r)).
Proof.
  revert routes marks. induction l as [|r l IH]; intros routes marks Hb; cbn [freeze_routes] in Hb.
  { injection Hb as <- <-. split_and!; [..|by intros ? ?%elem_of_nil]; intros; (split; [by left|]);
      intros [?|(? & ?%elem_of_nil & _)]; done. }
  destruct (_ || _ || _ || _ || _); [done|]. destruct (negb (rt_Action r =? _)); [done|].
  destruct (bool_decide (is_Some (engines !! _))) eqn:He; [|done]. apply bool_decide_eq_true in He.
  cbn [negb] in Hb.
  match type of Hb with (if ?b then _ else _) = _ => destruct b eqn:Hmark; [done|] end.
  case_bool_decide as Hr; [done|]. apply IH in Hb as (H1 & H2 & H3). apply eq_None_not_Some in Hr.
  setoid_rewrite elem_of_cons. split_and!.
  - intros k t. rewrite H1, lookup_insert_Some. split.
    + intros [[[<- <-]|[_ ?]]|(r' & ? & ? & ?)]; [right; exists r; auto|by left|right; exists r'; auto].
    + intros [Hk|(r' & [->|Hr'] & -> & ->)]; [|auto|right; eauto].
      left. right. split; [|done]. intros <-. congruence.
  - intros wg m. rewrite H2, lookup_insert_Some. split.
    + intros [[[<- <-]|[_ ?]]|(r' & ? & ? & ?)]; [right; exists r; auto|by left|right; exists r'; auto].
    + intros [Hk|(r' & [->|Hr'] & -> & ->)]; [|auto|right; eauto].
      left. destruct (decide (rt_WGID r = wg)) as [<-|]; [left|by right]. split; [done|].
      rewrite Hk in Hmark. bool_prop. congruence.
  - intros r' [->|Hr']; [done|by apply H3].
Qed.

Lemma newEngine_fields o identity now e :
  newEngine o identity now = Ret e -> e_identity e = identity /\ e_sessions e = ∅ /\
  e_opts e = (if Window o =? 0 then with_Window o 65535 else o).
Proof. unfold newEngine. destruct (clock_Domain o); intros H; go_inv; by subst. Qed.

(** A plan's routes name the plan's WireGuard. *)
Lemma build_engines_spec domain nows i bs rs plans bs' rs' :
  build_engines domain nows i bs rs plans = Ret (bs', rs') ->
  exists news, bs' = bs ++ news /\ rs' = rs ++ concat (map ep_Routes plans) /\
    map wb_WGID news = map ep_WGID plans /\
    (forall b, b ∈ news -> exists p ref now, wb_Engine b = Some ref /\ p ∈ plans /\
       ep_WGID p = wb_WGID b /\ newEngine (ep_Options p) (dom_identity domain) now = Ret (ref_engine ref)) /\
    (forall p r, p ∈ plans -> r ∈ ep_Routes p -> rt_WGID r = ep_WGID p).
Proof.
  revert i bs rs. induction plans as [|p plans IH]; intros i bs rs Hb; cbn [build_engines] in Hb.
  { injection Hb as <- <-. exists []. rewrite !app_nil_r. split_and!; try done; [by intros ? ?%elem_of_nil|].
    by intros ? ? ?%elem_of_nil. }
  cbn zeta in Hb. go_inv. unfold plan_routes_ok in *. bool_prop.
  apply IH in Hb as (news & -> & -> & Hm & He & Hr). eexists (_ :: news). rewrite <- !app_assoc.
  split_and!; try done.
  - cbn. by rewrite Hm.
  - intros b [->|Hb]%elem_of_cons.
    + cbn. unfold NewEngine in *. go_inv. subst. exists p. do 2 eexists.
      split_and!; [done|by left|done|done].
    + destruct (He b Hb) as (q & ref & now & ? & ? & ? & ?). exists q, ref, now.
      split_and!; try done. by right.
  - intros q r [->|Hq]%elem_of_cons Hin; [|by apply Hr]. rewrite forallb_forall in *.
    match goal with E : forall x, In x (ep_Routes p) -> _ |- _ =>
      specialize (E r ltac:(by apply list_elem_of_In)); bool_prop; done end.
Qed.

(** ** The invariant of a router *)

Record router_ok (router : EngineRouter) : Prop := {
  ro_engines : mlen (er_engines router) <> 0;
  ro_routes : mlen (er_routes router) <> 0;
  (** Routes lead to engines, and a WireGuard has one mark. *)
  ro_target : forall k t, er_routes router !! k = Some t -> is_Some (er_engines router !! tg_wgID t);
  ro_ids : er_wgIDs router <> [] /\
    forall wg, wg ∈ er_wgIDs router <-> is_Some (er_engines router !! wg);
  ro_owned : forall wg e, er_engines router !! wg = Some e -> exists mark,
    (forall k t, er_routes router !! k = Some t -> tg_wgID t = wg -> tg_fwmark t = mark) /\
    engine_routed (er_routes router) wg mark e
}.

Lemma routed_initial routes wg mark e : e_sessions e = ∅ -> engine_routed routes wg mark e.
Proof. intros He f s. by rewrite He, lookup_empty. Qed.

Lemma mlen_nonzero {K V} `{Countable K} (m : gmap K V) k : is_Some (m !! k) -> mlen m <> 0.
Proof.
  intros [v Hk] Hz. unfold mlen in Hz. assert (size m = 0%nat) as Hs by lia.
  apply map_size_empty_inv in Hs. by rewrite Hs, lookup_empty in Hk.
Qed.

Lemma sorted_ids {V} (m : gmap Z V) wg :
  wg ∈ merge_sort Z.le (map fst (map_to_list m)) <-> is_Some (m !! wg).
Proof.
  rewrite merge_sort_Permutation, list_elem_of_fmap. split.
  - intros ([k v] & -> & Hk%elem_of_map_to_list). eauto.
  - intros [v Hv]. exists (wg, v). split; [done|]. by apply elem_of_map_to_list.
Qed.

(** A router whose engines have no sessions yet. *)
Lemma router_ok_intro identity engines frozen (marks : gmap Z Z) wg0 k0 :
  is_Some (engines !! wg0) -> is_Some (frozen !! k0) ->
  (forall k t, frozen !! k = Some t -> is_Some (engines !! tg_wgID t)) ->
  (forall k t, frozen !! k = Some t -> marks !! tg_wgID t = Some (tg_fwmark t)) ->
  (forall wg e, engines !! wg = Some e -> e_sessions e = ∅) ->
  router_ok (mkRouter identity engines frozen (merge_sort Z.le (map fst (map_to_list engines)))).
Proof.
  intros H0 H1 Ht Hm He. split; cbn.
  - by eapply mlen_nonzero.
  - by eapply mlen_nonzero.
  - exact Ht.
  - split; [|apply sorted_ids]. intros E. apply sorted_ids in H0. rewrite E in H0. by apply elem_of_nil in H0.
  - intros wg e Hwg. exists (default 0 (marks !! wg)). split; [|by apply routed_initial, (He wg)].
    intros k t Hk <-. by rewrite (Hm k t Hk).
Qed.

(** The routes of all plans. *)
Lemma all_routes plans r :
  r ∈ concat (map ep_Routes plans) <-> exists p, p ∈ plans /\ r ∈ ep_Routes p.
Proof.
  rewrite list_elem_of_In, in_concat. setoid_rewrite in_map_iff.
  setoid_rewrite <- list_elem_of_In. split; [intros (? & (p & <- & ?) & ?); eauto|].
  intros (p & ? & ?). exists (ep_Routes p). split; [by exists p|done].
Qed.

(** What [NewEngineRouterFromPlans] builds. *)
Lemma from_plans_spec domain nows plans router :
  NewEngineRouterFromPlans domain nows plans = Ret router ->
  er_identity router = dom_identity domain /\ router_ok router /\
  NoDup (map ep_WGID plans) /\
  (forall wg, is_Some (er_engines router !! wg) <-> exists p, p ∈ plans /\ ep_WGID p = wg) /\
  (forall wg e, er_engines router !! wg = Some e -> exists p now, p ∈ plans /\ ep_WGID p = wg /\
     newEngine (ep_Options p) (dom_identity domain) now = Ret e) /\
  er_wgIDs router = merge_sort Z.le (map fst (map_to_list (er_engines router))) /\
  (forall k t, er_routes router !! k = Some t <-> exists p r, p ∈ plans /\ r ∈ ep_Routes p /\
     k = route_key r /\ t = mkTarget (ep_WGID p) (rt_FWMark r)).
Proof.
  unfold NewEngineRouterFromPlans, NewEngineRouter. intros Hb. go_inv.
  destruct x as [bs rs]. apply build_engines_spec in H as (news & -> & -> & Hm & Hfresh & Hwg).
  cbn [app] in *. go_inv. destruct x0 as [frozen marks].
  match goal with E : bind_engines _ _ _ _ = Ret ?x |- _ => rename x into engines;
    apply bind_engines_spec in E as (Hn & Hz & He) end.
  match goal with E : freeze_routes _ _ _ _ _ = _ |- _ =>
    apply freeze_routes_spec in E as (Hr & Hmarks & Hin) end.
  destruct (existsb _ _) eqn:Href; [done|]. injection Hb as <-. cbn.
  setoid_rewrite lookup_empty in He. setoid_rewrite lookup_empty in Hr.
  setoid_rewrite lookup_empty in Hmarks.
  pose proof (all_routes plans) as Hcat.
  assert (forall wg, is_Some (engines !! wg) <-> exists p, p ∈ plans /\ ep_WGID p = wg) as Hdom.
  { intros wg. transitivity (wg ∈ map wb_WGID news).
    - rewrite list_elem_of_fmap. split.
      + intros [e [?|(b & ref & ? & ? & _)]%He]; [done|]. by exists b.
      + intros (b & -> & Hb). destruct (Hfresh b Hb) as (_ & ref & _ & Er & _). exists (ref_engine ref).
        apply He. right. by exists b, ref.
    - rewrite Hm, list_elem_of_fmap. split; intros (p & ? & ?); eauto. }
  assert (forall k t, frozen !! k = Some t <-> exists p r, p ∈ plans /\ r ∈ ep_Routes p /\
    k = route_key r /\ t = mkTarget (ep_WGID p) (rt_FWMark r)) as Hroutes.
  { intros k t. rewrite Hr. setoid_rewrite Hcat. split.
    - intros [?|(r & (p & Hp & Hpr) & -> & ->)]; [done|]. exists p, r. by rewrite (Hwg p r).
    - intros (p & r & Hp & Hpr & -> & ->). right. exists r. rewrite (Hwg p r) by done. eauto. }
  assert (forall wg e, engines !! wg = Some e -> exists p now, p ∈ plans /\ ep_WGID p = wg /\
    newEngine (ep_Options p) (dom_identity domain) now = Ret e) as Hnew.
  { intros wg e [?|(b & ref & Hb & <- & Er & <-)]%He; [done|].
    destruct (Hfresh b Hb) as (p & ref' & now & Er' & Hp & Hid & Hne). exists p, now.
    rewrite Hid. replace ref with ref' by congruence. done. }
  split_and!; try done; [|by rewrite <- Hm]. destruct plans as [|p0 plans]; [done|].
  assert (exists wg0, is_Some (engines !! wg0)) as [wg0 H0] by (eexists; apply Hdom; exists p0; split; [by left|done]).
  assert (exists r0, r0 ∈ concat (map ep_Routes (p0 :: plans))) as [r0 Hr0].
  { destruct (concat _) as [|r l]; [by rewrite orb_true_r in *|]. exists r. by left. }
  apply (router_ok_intro _ _ _ marks wg0 (route_key r0)); try done.
  - eexists. apply Hr. right. eauto.
  - intros k t (p & r & Hp & _ & _ & ->)%Hroutes. apply Hdom. by exists p.
  - intros k t [?|(r & Hin' & _ & ->)]%Hr; [done|]. apply Hmarks. right. by exists r.
  - intros wg e (p & now & _ & _ & Hne)%Hnew. by apply newEngine_fields in Hne as (_ & ? & _).
Qed.

(** Dispatch is exact.  A router built from engine plans selects an engine
    for an event exactly when the event's generation, underlay, local port and
    WireGuard name a route of some plan, the event's own WireGuard is that
    plan's, and its mark is the route's mark (captures) or zero (control
    events); it then selects that plan's engine.  Engines and plans correspond
    one to one, and ticks visit every engine in increasing order. *)
Theorem router_dispatch_exact domain nows plans router :
  NewEngineRouterFromPlans domain nows plans = Ret router ->
  (forall event wg, router_selectEngine router event = Ret wg <->
     exists p r, p ∈ plans /\ r ∈ ep_Routes p /\ route_key r = flow_route_key (EV_Key event) /\
       ep_WGID p = wg /\ EV_WGID event = wg /\
       EV_FWMark event = (if EV_Type event =? FakeTCPEventNeedHandshake then rt_FWMark r else 0)) /\
  (forall wg, is_Some (router_engine router wg) <-> exists p, p ∈ plans /\ ep_WGID p = wg) /\
  NoDup (map ep_WGID plans) /\
  Sorted Z.le (WGIDs router) /\ WGIDs router ≡ₚ map ep_WGID plans.
Proof.
  intros Hb. destruct (from_plans_spec _ _ _ _ Hb) as (_ & Hok & Hn & Hdom & _ & Hids & Hr).
  split_and!; try done.
  - intros event wg. unfold router_selectEngine.
    destruct (Z.eqb_spec (mlen (er_engines router)) 0); [by destruct (ro_engines _ Hok)|].
    destruct (Z.eqb_spec (mlen (er_routes router)) 0); [by destruct (ro_routes _ Hok)|]. cbn [orb].
    split.
    + destruct (er_routes router !! _) as [t|] eqn:Ht; [|done].
      apply Hr in Ht as (p & r & Hp & Hpr & Hk & ->). cbn [tg_wgID tg_fwmark]. intros Hs.
      exists p, r. rewrite Hk. destruct (EV_Type event =? _); go_inv; bool_prop; subst wg; done.
    + intros (p & r & Hp & Hpr & Hk & <- & Hw & Hf).
      assert (er_routes router !! flow_route_key (EV_Key event) = Some (mkTarget (ep_WGID p) (rt_FWMark r)))
        as -> by (apply Hr; exists p, r; by rewrite Hk).
      cbn [tg_wgID tg_fwmark]. rewrite Hw, Z.eqb_refl. cbn [negb].
      destruct (EV_Type event =? _); rewrite Hf; by rewrite ?Z.eqb_refl.
  - unfold WGIDs. rewrite Hids. apply Sorted_merge_sort. intros a b. lia.
  - unfold WGIDs. apply NoDup_Permutation; [|done|].
    + rewrite Hids, merge_sort_Permutation. apply NoDup_fst_map_to_list.
    + intros wg. rewrite Hids, sorted_ids. unfold router_engine in Hdom. rewrite Hdom, list_elem_of_fmap.
      split; intros (p & ? & ?); eauto.
Qed.

Lemma validate_actions_routed routes wg l :
  Forall (action_routed routes wg) l -> validate_actions routes wg l = Ret tt.
Proof. induction 1 as [|a l Ha _ IH]; cbn; [done|]. by rewrite Ha. Qed.

(** ** The fence *)

Section fence.
Context {W : Type} `{Env W} `{ControllerBackend W}.

Lemma on_engine_routed wg (m : M W Result) (st : DState EngineRouter W) :
  router_ok (ds_dispatcher st) -> is_Some (er_engines (ds_dispatcher st) !! wg) ->
  (forall mark, (forall k t, er_routes (ds_dispatcher st) !! k = Some t -> tg_wgID t = wg ->
      tg_fwmark t = mark) ->
    rkeeps (er_routes (ds_dispatcher st)) wg mark m (result_routed (er_routes (ds_dispatcher st)) wg)) ->
  exists res, (on_engine wg m st).1 = Some res /\
    router_ok (ds_dispatcher (on_engine wg m st).2) /\
    er_routes (ds_dispatcher (on_engine wg m st).2) = er_routes (ds_dispatcher st) /\
    er_wgIDs (ds_dispatcher (on_engine wg m st).2) = er_wgIDs (ds_dispatcher st) /\
    validate_actions (er_routes (ds_dispatcher st)) wg res.1 = Ret tt.
Proof.
  intros Hok [e He] Hm. unfold on_engine. rewrite He.
  destruct (ro_owned _ Hok wg e He) as (mark & Hmark & Hr).
  specialize (Hm mark Hmark (mkEState e (ds_sessionIDs st) (ds_env st)) Hr). unfold wp in Hm.
  destruct (m _) as [res es]. cbn in Hm. destruct Hm as [Hr' Hres]. exists res. cbn.
  split_and!; try done; [|by apply validate_actions_routed].
  assert (forall i, is_Some (<[wg := es_engine es]> (er_engines (ds_dispatcher st)) !! i) <->
    is_Some (er_engines (ds_dispatcher st) !! i)) as Hdom.
  { intros i. rewrite lookup_insert_is_Some. destruct (decide (wg = i)) as [<-|]; [|tauto].
    rewrite He. split; [by eauto|auto]. }
  split; cbn.
  - apply (mlen_nonzero _ wg). rewrite Hdom. by rewrite He.
  - apply Hok.
  - intros k t Hk. rewrite Hdom. by apply (ro_target _ Hok k t).
  - destruct (ro_ids _ Hok) as [Hne Hids]. split; [done|]. intros i. by rewrite Hdom.
  - intros i x Hx. apply lookup_insert_Some in Hx as [[<- <-]|[_ Hx]]; [by exists mark|].
    by apply (ro_owned _ Hok).
Qed.

(** An event the router admits only reaches the engine with the route's
    WireGuard and mark. *)
Lemma engine_call_routed router d wg (m : M W Result) mark :
  router_selectEngine router (od_Event d) = Ret wg -> engine_call d = inl m ->
  (forall k t, er_routes router !! k = Some t -> tg_wgID t = wg -> tg_fwmark t = mark) ->
  rkeeps (er_routes router) wg mark m (result_routed (er_routes router) wg).
Proof.
  unfold router_selectEngine, engine_call. intros Hs Hc Hm. go_inv.
  destruct (er_routes router !! _) as [t|] eqn:Ht; [|done].
  destruct (EV_WGID (od_Event d) =? tg_wgID t) eqn:Hw; [|done]. cbn [negb] in Hs. bool_prop.
  assert (tg_wgID t = wg) as Hwg by (destruct (EV_Type (od_Event d) =? _); by go_inv).
  assert (flow_routed (er_routes router) wg mark (EV_Key (od_Event d))) as Hf.
  { unfold flow_routed. rewrite Ht. rewrite <- (Hm _ t Ht Hwg), <- Hwg. by destruct t. }
  destruct (Z.eqb_spec (EV_Type (od_Event d)) FakeTCPEventNeedHandshake) as [E|E].
  - destruct (MaterializeIPv4UDPChecksums (od_Packet d)); simplify_eq. go_inv. bool_prop.
    apply rk_event; [done|congruence|]. rewrite <- (Hm _ t Ht); congruence.
  - destruct (_ || _); simplify_eq; [by apply rk_control|].
    unfold InboundWithWGID. rewrite Hw. by apply rk_inbound.
Qed.

Lemma select_engine_exists router event wg : router_ok router ->
  router_selectEngine router event = Ret wg -> is_Some (er_engines router !! wg).
Proof.
  intros Hok Hs. unfold router_selectEngine in Hs. go_inv.
  destruct (er_routes router !! _) as [t|] eqn:Ht; [|done].
  assert (tg_wgID t = wg) as <- by (destruct (negb (EV_WGID event =? _)); [done|]; destruct (EV_Type event =? _); by go_inv).
  by apply (ro_target _ Hok _ t Ht).
Qed.

(** Ticks never trip the fence. *)
Lemma tick_engines_routed orders ids : forall st : DState EngineRouter W,
  router_ok (ds_dispatcher st) -> (forall wg, wg ∈ ids -> is_Some (er_engines (ds_dispatcher st) !! wg)) ->
  exists actions errs st', tick_engines orders ids st = ((actions, errs, []), st') /\
    router_ok (ds_dispatcher st').
Proof.
  induction ids as [|wg ids IH]; intros st Hok Hids; cbn [tick_engines].
  { by exists [], [], st. }
  destruct (on_engine_routed wg (Tick (orders wg)) st Hok) as (res & Hr & Hok' & Hroutes & Hsame & Hv).
  { apply Hids. by left. } { intros mark _. apply rk_tick. }
  destruct (on_engine wg _ st) as [r st1] eqn:E. cbn in Hr, Hok', Hroutes, Hsame. subst r. cbn [default].
  destruct res as [acts err]. destruct (IH st1 Hok') as (acts' & errs' & st2 & -> & Hok2).
  { intros i Hi. apply (ro_ids _ Hok'). rewrite Hsame. apply (ro_ids _ Hok), Hids. by right. }
  unfold router_validateActions. rewrite Hroutes. cbn [fst] in Hv. cbn [id]. rewrite Hv. eauto.
Qed.

Lemma router_tick_routed orders (st : DState EngineRouter W) : router_ok (ds_dispatcher st) ->
  (router_Tick orders st).1.2 = false /\ router_ok (ds_dispatcher (router_Tick orders st).2).
Proof.
  intros Hok. unfold router_Tick. cbn zeta. destruct (ro_ids _ Hok) as [Hne Hids].
  destruct (len _ =? 0) eqn:Hl.
  { apply Z.eqb_eq in Hl. destruct (er_wgIDs _) as [|i l]; [done|]. rewrite len_cons in Hl.
    pose proof (len_nonneg l). lia. }
  destruct (tick_engines_routed orders (er_wgIDs (ds_dispatcher st)) st Hok) as (acts & errs & st' & -> & Hok').
  { intros wg. apply Hids. } done.
Qed.

(** ** Controllers over a router *)

Abbreviation controller := (Controller EngineRouter W).

(** One operation, or a change of the environment (time, the kernel, the
    cancellation of a context) between operations. *)
Inductive controller_step : controller -> controller -> Prop :=
  | step_sample sha256 ctx sample c : controller_step c (HandleSample sha256 ctx sample c).2
  | step_event ctx d c : controller_step c (handleOwnedEvent ctx d c).2
  | step_tick ctx orders c : controller_step c (controller_Tick ctx orders c).2
  | step_close c : controller_step c (controller_Close c).2
  | step_env c w : controller_step c (set_c_state c (with_env (c_state c) w)).

Definition router_of (c : controller) : EngineRouter := ds_dispatcher (c_state c).

Lemma execute_router (c : controller) actions : router_of (execute_committed c actions).2 = router_of c.
Proof. unfold execute_committed. destruct (executeActions _ _) as [[cause|] w]; done. Qed.

Lemma context_router ctx (c : controller) : router_of (check_context ctx c).2 = router_of c.
Proof. unfold check_context. destruct (negb ctx); [done|]. by destruct (ctx_Err _). Qed.

Lemma event_router d (c : controller) : router_ok (router_of c) ->
  router_ok (router_of (handleOwnedDecodedEvent d c).2).
Proof.
  intros Hok. unfold handleOwnedDecodedEvent. cbn zeta. destruct (negb _); [done|].
  cbn [selectEngine EngineRouter_dispatcher]. destruct (router_selectEngine _ _) as [wg|err|] eqn:Hs; [|done..].
  destruct (engine_call d) as [m|err] eqn:Hc; [|done].
  destruct (on_engine_routed wg m (c_state c) Hok) as (res & Hr & Hok' & _).
  { by eapply select_engine_exists. } { intros mark Hm. by eapply engine_call_routed. }
  cbn [call_engine EngineRouter_dispatcher]. destruct (on_engine wg m (c_state c)) as [r st']. cbn in Hr, Hok'.
  subst r. cbn [default]. destruct res as [acts [err|]]; [done|].
  cbn [id]. destruct (validateActions _ _ _); [|done..].
  pose proof (execute_router (set_c_state c st') acts) as He.
  destruct (execute_committed _ _) as [err c']. cbn in *. by rewrite He.
Qed.

Lemma step_router c c' : controller_step c c' -> router_ok (router_of c) -> router_ok (router_of c').
Proof.
  intros Hst Hok. destruct Hst as [sha ctx sample c|ctx d c|ctx orders c|c|c w].
  - unfold HandleSample. destruct (begin_operation c); [done|]. pose proof (context_router ctx c) as Hc.
    destruct (check_context ctx c) as [[err|] c1]; cbn in Hc; [by rewrite <- Hc in Hok|].
    rewrite <- Hc in Hok. destruct (DecodeEventSample sample); [|done..]. by apply event_router.
  - unfold handleOwnedEvent. destruct (begin_operation c); [done|]. pose proof (context_router ctx c) as Hc.
    destruct (check_context ctx c) as [[err|] c1]; cbn in Hc; rewrite <- Hc in Hok; [done|by apply event_router].
  - unfold controller_Tick. destruct (begin_operation c); [done|]. pose proof (context_router ctx c) as Hc.
    destruct (check_context ctx c) as [[err|] c1]; cbn in Hc; rewrite <- Hc in Hok; [done|].
    cbn [dispatcher_Tick EngineRouter_dispatcher].
    destruct (router_tick_routed orders (c_state c1) Hok) as [_ Hok'].
    destruct (router_Tick orders (c_state c1)) as [[[acts err] rejected] st']. cbn in Hok'.
    destruct rejected; [done|]. pose proof (execute_router (set_c_state c1 st') acts) as He.
    destruct (execute_committed _ _) as [err' c']. cbn in *. by rewrite He.
  - unfold controller_Close. destruct (c_closed c); [done|]. destruct (negb _); [done|]. by destruct (be_Close _).
  - done.
Qed.
End fence.

(** C38: the action fence never trips.  Start a controller on a router built
    from engine plans and run any sequence of samples, owned events, ticks and
    closes, with any environment, backend failures and cancellations included:
    whatever event the router then admits, the engine it selects exists and
    returns only actions on the routes of its own WireGuard, with that
    WireGuard's identifier and mark on every control packet and released packet,
    so [validateActions] accepts them; and no tick is rejected.  A controller
    thus never fails because one engine acted on another's route. *)
Theorem routes_fence_never_trips {W} `{Env W} `{ControllerBackend W} domain nows plans router (w : W) c :
  NewEngineRouterFromPlans domain nows plans = Ret router ->
  rtc controller_step (mkController (mkDState router (dom_sessionIDs domain) w) true false false None None) c ->
  (forall d wg m, router_selectEngine (router_of c) (od_Event d) = Ret wg ->
     engine_call d = inl m -> exists res,
       (call_engine wg m (c_state c)).1 = Some res /\
       validateActions (ds_dispatcher (call_engine wg m (c_state c)).2) wg res.1 = Ret tt) /\
  (forall orders, (dispatcher_Tick orders (c_state c)).1.2 = false).
Proof.
  intros Hb Hsteps. apply from_plans_spec in Hb as (_ & Hok & _).
  assert (router_ok (router_of c)) as Hc.
  { clear -Hok Hsteps. remember (mkController _ _ _ _ _ _) as c0 eqn:E.
    assert (router_ok (router_of c0)) as Hstart by (by rewrite E). clear E Hok.
    induction Hsteps as [|x y z Hxy _ IH]; [done|]. apply IH. by eapply step_router. }
  split.
  - intros d wg m Hs Hm. destruct (on_engine_routed wg m (c_state c) Hc) as (res & Hr & _ & Hroutes & _ & Hv).
    { by eapply select_engine_exists. } { intros mark Hmk. by eapply engine_call_routed. }
    exists res. split; [done|]. cbn [validateActions call_engine EngineRouter_dispatcher].
    unfold router_validateActions. by rewrite Hroutes.
  - intros orders. by apply router_tick_routed.
Qed.
