(* ===== verification/ControllerProps.v ===== *)
(** * Side effects of the controller: every control packet and every captured
    packet leaves at most once, in order, and no action after a failed one. *)
From Stdlib Require Import ZArith Lia.
From stdpp Require Import base option list gmap strings numbers relations.
From S2P Require Import Prelude Abi Checksum L3Parser Runtime ControlPacket BpfSession Engine EngineInv EngineProps Router RouterInv Events Controller RouterProps.

(** ** Effects *)

Inductive effect :=
  | EffectControl (flow : FakeTCPSessionKey) (wgID : Z) (control : ControlPacket)
  | EffectReinject (flow : FakeTCPSessionKey) (packet : PendingPacket).

Definition action_effects (a : Action) : list effect :=
  match act_Kind a with
  | ActionSendControl => [EffectControl (act_Flow a) (act_WGID a) (act_Control a)]
  | ActionReleasePending => map (EffectReinject (act_Flow a)) (act_Packets a)
  | ActionDrop | ActionForward | ActionClose => []
  end.
Definition effects_of (l : list Action) : list effect := concat (map action_effects l).

Lemma effects_cons a l : effects_of (a :: l) = action_effects a ++ effects_of l.
Proof. done. Qed.

(** A call of the backend with what it answered. *)
Abbreviation attempt := (effect * option error)%type.
(** Effects whose calls all succeeded. *)
Definition succeeded (es : list effect) : list attempt := map (fun e => (e, None)) es.

Lemma succeeded_app e1 e2 : succeeded (e1 ++ e2) = succeeded e1 ++ succeeded e2.
Proof. apply map_app. Qed.
Lemma effects_app l1 l2 : effects_of (l1 ++ l2) = effects_of l1 ++ effects_of l2.
Proof. unfold effects_of. by rewrite map_app, concat_app. Qed.

(** An environment that records the calls of its backend and their answers. *)
Class Logged (W : Type) `{Env W} `{ControllerBackend W} := {
  sent : W -> list attempt;
  sent_control : forall flow wg c w, let '(err, w') := be_SendControl flow wg c w in
    sent w' = sent w ++ [(EffectControl flow wg c, err)];
  sent_reinject : forall flow p w, let '(err, w') := be_Reinject flow p w in
    sent w' = sent w ++ [(EffectReinject flow p, err)];
  sent_close : forall w, sent (be_Close w).2 = sent w;
  sent_ctx : forall w, sent (ctx_Err w).2 = sent w;
  sent_Now : forall w, sent (env_Now w).2 = sent w;
  sent_NowNanos : forall w, sent (env_NowNanos w).2 = sent w;
  sent_ISN : forall w, sent (env_InitialSequence w).2 = sent w;
  sent_insert : forall k v w, sent (store_InsertEstablished k v w).2 = sent w;
  sent_lookup : forall k w, sent (store_LookupEstablished k w).2 = sent w;
  sent_delete : forall k v w, sent (store_DeleteEstablishedIfUnchanged k v w).2 = sent w
}.

(** ** The engine produces no effects itself, and none with an error *)

Section quiet.
Context {W : Type} `{Logged W} (l0 : list attempt).

Definition quiet {A} (m : M W A) (post : A -> Prop) : Prop :=
  forall st, sent (es_env st) = l0 -> wp m (fun a st' => sent (es_env st') = l0 /\ post a) st.

Lemma quiet_bind {A B} (m : M W A) (k : A -> M W B) P Q :
  quiet m P -> (forall a, P a -> quiet (k a) Q) -> quiet (ebind m k) Q.
Proof.
  intros Hm Hk st Hst. apply wp_bind. eapply wp_mono; [by apply Hm|]. intros a st' [? ?]. by apply Hk.
Qed.
Lemma quiet_ret {A} (a : A) (P : A -> Prop) : P a -> quiet (eret a) P.
Proof. intros Ha st Hst. by apply wp_ret. Qed.
Lemma quiet_call {A} (f : W -> A * W) : (forall w, sent (f w).2 = sent w) -> quiet (call f) (fun _ => True).
Proof.
  intros Hf st Hst. apply wp_call. intros a w E. cbn. split; [|done]. rewrite <- Hst, <- (Hf (es_env st)).
  by rewrite E.
Qed.
Lemma quiet_get {A} (k : Engine -> M W A) Q : (forall e, quiet (k e) Q) -> quiet (ebind get_engine k) Q.
Proof. intros Hk st Hst. apply wp_bind, wp_get. by apply Hk. Qed.
Lemma quiet_modify f : quiet (modify f) (fun _ => True).
Proof. intros st Hst. by apply wp_modify. Qed.
Lemma quiet_set e : quiet (set_engine e) (fun _ => True).
Proof. intros st Hst. by apply wp_set. Qed.
Lemma quiet_allocate : quiet allocate_id (fun _ => True).
Proof. intros st Hst. apply wp_allocate. by intros. Qed.
Lemma quiet_mono {A} (m : M W A) (P Q : A -> Prop) : quiet m P -> (forall a, P a -> Q a) -> quiet m Q.
Proof. intros Hm HPQ st Hst. eapply wp_mono; [by apply Hm|]. intros a st' [? ?]. auto. Qed.
End quiet.

Create HintDb sent.
#[export] Hint Resolve sent_Now sent_NowNanos sent_ISN sent_insert sent_lookup sent_delete : sent.
Create HintDb quiet.

Ltac quiet_step :=
  lazymatch goal with
  | |- quiet _ (ebind get_engine _) _ => apply quiet_get; intros ?
  | |- quiet _ (ebind (call _) _) _ =>
      eapply quiet_bind; [apply quiet_call; intros; solve [eauto with sent]|intros ? _]
  | |- quiet _ (ebind Now _) _ =>
      eapply quiet_bind; [apply quiet_call; intros; solve [eauto with sent]|intros ? _]
  | |- quiet _ (ebind allocate_id _) _ => eapply quiet_bind; [apply quiet_allocate|intros ? _]
  | |- quiet _ (ebind (modify _) _) _ => eapply quiet_bind; [apply quiet_modify|intros ? _]
  | |- quiet _ (ebind (set_engine _) _) _ => eapply quiet_bind; [apply quiet_set|intros ? _]
  | |- quiet _ (ebind (if _ then _ else _) _) _ =>
      apply (quiet_bind _ _ _ (fun _ => True)); [|intros ? _]
  | |- quiet _ (ebind _ _) _ => eapply quiet_bind; [solve [eauto with quiet]|intros ? ?]
  | |- quiet _ (modify _) _ => eapply quiet_mono; [apply quiet_modify|by intros]
  | |- quiet _ allocate_id _ => eapply quiet_mono; [apply quiet_allocate|by intros]
  | |- quiet _ (eret _) _ => apply quiet_ret
  | |- quiet _ (drop_result _ _) _ => apply quiet_ret
  | |- quiet _ (if ?b then _ else _) _ => destruct b
  | |- quiet _ (let '(_, _) := ?p in _) _ => destruct p
  | |- quiet _ (match ?x with _ => _ end) _ => destruct x
  | |- quiet _ _ _ => solve [eauto with quiet]
  end.

(** Runs a computation to its ends; an end either has no error or no effects. *)
Ltac quiet_all :=
  repeat quiet_step; try done; intros Hne; first [done | by destruct Hne].

Section quiet_ops.
Context {W : Type} `{Logged W} (l0 : list attempt).
Abbreviation quiet := (quiet l0).

(** A result with an error has no effects. *)
Definition silent (r : Result) : Prop := r.2 <> None -> effects_of r.1 = [].

Lemma quiet_releaseHalfOpen flow s : quiet (releaseHalfOpen flow s) (fun _ => True).
Proof. unfold releaseHalfOpen. by repeat quiet_step. Qed.
#[local] Hint Resolve quiet_releaseHalfOpen : quiet.
Lemma quiet_remove flow s : quiet (remove flow s) (fun _ => True).
Proof. unfold remove. by repeat quiet_step. Qed.
Lemma quiet_release flow s : quiet (release flow s) (fun _ => True).
Proof. unfold release. by repeat quiet_step. Qed.
Lemma quiet_insert flow s : quiet (insertEstablished flow s) (fun _ => True).
Proof. unfold insertEstablished. by repeat quiet_step. Qed.
Lemma quiet_lookup flow s : quiet (lookupEstablished flow s) (fun _ => True).
Proof. unfold lookupEstablished. by repeat quiet_step. Qed.
Lemma quiet_compareDelete flow s r : quiet (compareDeleteEstablished flow s r) (fun _ => True).
Proof. unfold compareDeleteEstablished. by repeat quiet_step. Qed.
#[local] Hint Resolve quiet_remove quiet_release quiet_insert quiet_lookup quiet_compareDelete : quiet.
Lemma quiet_retry flow s r : quiet (retryPendingDelete flow s r) (fun a => effects_of [a.1] = []).
Proof. unfold retryPendingDelete. by repeat quiet_step. Qed.
#[local] Hint Resolve quiet_retry : quiet.
Lemma quiet_retried flow s r :
  quiet (run! (action, err) := retryPendingDelete flow s r in eret ([action], err)) silent.
Proof. repeat quiet_step. by intros _. Qed.
#[local] Hint Resolve quiet_retried : quiet.
Lemma quiet_establish flow s acts cp : quiet (inbound_establish flow s acts cp) silent.
Proof. unfold inbound_establish. quiet_all. Qed.
#[local] Hint Resolve quiet_establish : quiet.
Lemma quiet_outbound flow p d : quiet (outbound flow p d) silent.
Proof.
  assert (forall s created, quiet (outbound_pending flow s p created) silent)
    by (intros s created; unfold outbound_pending; quiet_all).
  unfold outbound, outbound_established. quiet_all.
Qed.
Lemma quiet_inbound flow seg wgID : quiet (inbound flow seg wgID) silent.
Proof.
  assert (forall now src, quiet (inbound_new flow seg wgID now src) silent)
    by (intros; unfold inbound_new; quiet_all).
  assert (forall now s cp, quiet (inbound_existing flow seg wgID now s cp) silent)
    by (intros; unfold inbound_existing; quiet_all).
  assert (forall now s cp src, quiet (inbound_admitted flow seg wgID now s cp src) silent)
    by (intros; unfold inbound_admitted; quiet_all).
  unfold inbound. quiet_all.
Qed.
#[local] Hint Resolve quiet_outbound quiet_inbound : quiet.
Lemma quiet_control event packet : quiet (InboundCapturedControl event packet) silent.
Proof. unfold InboundCapturedControl, close_established. quiet_all. Qed.
Lemma quiet_event event packet fp : quiet (handleOwnedCapturedPacket event packet fp) silent.
Proof. unfold handleOwnedCapturedPacket. quiet_all. Qed.
Lemma quiet_tick order : quiet (Tick order) (fun _ => True).
Proof.
  assert (forall now mono, quiet (tick_sessions order now mono) (fun _ => True)).
  { intros now mono. induction order as [|flow l IH]; simpl; [by quiet_step|].
    assert (quiet (tick_session flow now mono) (fun _ => True))
      by (unfold tick_session, tick_handshake, tick_established; quiet_all).
    quiet_all. }
  unfold Tick. quiet_all.
Qed.
End quiet_ops.

(** ** Execution *)

Section effects.
Context {W : Type} `{Logged W}.
Abbreviation controller := (Controller EngineRouter W).

Lemma reinject_sent flow packets : forall w, exists tail,
  sent (reinject_packets flow packets w).2 = sent w ++ tail /\
  tail.*1 `prefix_of` map (EffectReinject flow) packets /\
  ((reinject_packets flow packets w).1 = [] -> tail = succeeded (map (EffectReinject flow) packets)).
Proof.
  induction packets as [|p packets IH]; intros w; cbn [reinject_packets].
  { exists []. by rewrite app_nil_r. }
  pose proof (sent_ctx w) as Hc. destruct (ctx_Err w) as [[err|] w1]; cbn in Hc.
  { exists []. rewrite app_nil_r. split; [done|split; [apply prefix_nil|done]]. }
  pose proof (sent_reinject flow p w1) as Hp. destruct (be_Reinject flow p w1) as [err w2].
  destruct (IH w2) as (tail & Hs & Hd & Hn). destruct (reinject_packets flow packets w2) as [errs w3].
  cbn in *. exists ((EffectReinject flow p, err) :: tail). split_and!.
  - by rewrite Hs, Hp, Hc, <- app_assoc.
  - by apply prefix_cons.
  - destruct err; [done|]. intros E. by rewrite Hn.
Qed.

(** The calls an execution makes: every effect of some leading actions, each of
    them successful, and part of those of the next action. *)
Definition carried_out (l : list Action) (t : list attempt) (all : Prop) : Prop :=
  exists pre post tail, l = pre ++ post /\ t = succeeded (effects_of pre) ++ tail /\
    tail.*1 `prefix_of` effects_of (take 1 post) /\ (all -> post = []).

Lemma carried_cons a l t all : carried_out l t all ->
  carried_out (a :: l) (succeeded (action_effects a) ++ t) all.
Proof.
  intros (pre & post & tail & -> & -> & Ht & Hall). exists (a :: pre), post, tail. split; [done|].
  by rewrite effects_cons, succeeded_app, <- app_assoc.
Qed.
Lemma carried_stop a l tail (all : Prop) : tail.*1 `prefix_of` action_effects a -> ~ all ->
  carried_out (a :: l) tail all.
Proof.
  intros Ht Hall. exists [], (a :: l), tail. split; [done|]. split; [done|]. split; [|done].
  change (take 1 (a :: l)) with [a]. by rewrite effects_cons, app_nil_r.
Qed.
Lemma carried_nothing l (all : Prop) : effects_of l = [] \/ ~ all -> carried_out l [] all.
Proof.
  intros [Hl|Hall].
  - exists l, [], []. rewrite Hl, app_nil_r. done.
  - exists [], l, []. split; [done|]. split; [done|]. split; [apply prefix_nil|done].
Qed.

Lemma execute_sent l : forall w, exists t, sent (executeActions l w).2 = sent w ++ t /\
  carried_out l t ((executeActions l w).1 = None).
Proof.
  induction l as [|a l IH]; intros w; cbn [executeActions].
  { exists []. rewrite app_nil_r. split; [done|]. apply carried_nothing. by left. }
  pose proof (sent_ctx w) as Hc. destruct (ctx_Err w) as [[err|] w1]; cbn in Hc.
  { exists []. rewrite app_nil_r. split; [done|]. apply carried_nothing. by right. }
  pose proof (carried_cons a l) as Hcons. unfold action_effects in Hcons.
  destruct (act_Kind a) eqn:Ek; try (destruct (IH w1) as (t & Hs & Hl); exists t;
    rewrite <- Hc; split; [exact Hs|]; by apply Hcons).
  - pose proof (sent_control (act_Flow a) (act_WGID a) (act_Control a) w1) as Hs.
    destruct (be_SendControl _ _ _ w1) as [[err|] w2]; rewrite Hc in Hs.
    + eexists. split; [exact Hs|]. apply carried_stop; [|done]. unfold action_effects. by rewrite Ek.
    + destruct (IH w2) as (t & Ht & Hl). eexists. split; [rewrite Ht, Hs, <- app_assoc; reflexivity|].
      by apply Hcons.
  - destruct (reinject_sent (act_Flow a) (act_Packets a) w1) as (t1 & Hs & Hp & Hn).
    destruct (reinject_packets _ _ w1) as [errs w2]. cbn in Hs, Hn. rewrite Hc in Hs.
    destruct errs as [|e errs]; cbn [errors_Join_all].
    + rewrite Hn in Hs by done. destruct (IH w2) as (t & Ht & Hl).
      eexists. split; [rewrite Ht, Hs, <- app_assoc; reflexivity|]. by apply Hcons.
    + exists t1. split; [exact Hs|]. apply carried_stop; [|done]. unfold action_effects. by rewrite Ek.
Qed.

(** The calls of one operation, and all of them unless the controller has
    failed. *)
Definition sent_of (c : controller) : list attempt := sent (ds_env (c_state c)).
Definition accounted (c : controller) (acts : list Action) (c' : controller) : Prop :=
  exists t, sent_of c' = sent_of c ++ t /\ carried_out acts t (c_failureErr c' = None).

Lemma accounted_none c acts c' : effects_of acts = [] -> sent_of c' = sent_of c -> accounted c acts c'.
Proof. intros Ha Hs. exists []. rewrite app_nil_r. split; [done|]. apply carried_nothing. by left. Qed.

Lemma accounted_failed c acts c' : sent_of c' = sent_of c -> c_failureErr c' <> None ->
  accounted c acts c'.
Proof. intros Hs Hf. exists []. rewrite app_nil_r. split; [done|]. apply carried_nothing. by right. Qed.

Lemma accounted_execute c0 c acts : sent_of c = sent_of c0 ->
  accounted c0 acts (execute_committed c acts).2.
Proof.
  intros Hs. unfold execute_committed.
  destruct (execute_sent acts (ds_env (c_state c))) as (t & He & pre & post & tail & Hl & Ht & Htail & Hn).
  destruct (executeActions acts _) as [[cause|] w]; cbn in He, Hn |- *; exists t;
    unfold sent_of in *; cbn; (split; [by rewrite He, Hs|]); exists pre, post, tail;
    (split; [done|]; split; [done|]; split; [done|]); [done|by intros _; apply Hn].
Qed.

Lemma context_sent ctx c : sent_of (check_context ctx c).2 = sent_of c.
Proof.
  unfold check_context. destruct (negb ctx); [done|]. pose proof (sent_ctx (ds_env (c_state c))) as Hc.
  by destruct (ctx_Err _).
Qed.

Lemma call_sent wg (m : M W Result) (st : DState EngineRouter W) post :
  quiet (sent (ds_env st)) m post -> sent (ds_env (on_engine wg m st).2) = sent (ds_env st) /\
  forall res, (on_engine wg m st).1 = Some res -> post res.
Proof.
  intros Hm. unfold on_engine. destruct (er_engines _ !! wg) as [e|]; [|done].
  specialize (Hm (mkEState e (ds_sessionIDs st) (ds_env st)) eq_refl). unfold wp in Hm.
  destruct (m _) as [res es]. cbn in *. destruct Hm. split; [done|]. by intros ? [= <-].
Qed.

Lemma engine_call_quiet l0 d (m : M W Result) : engine_call d = inl m -> quiet l0 m silent.
Proof.
  unfold engine_call. destruct (_ =? _).
  - destruct (MaterializeIPv4UDPChecksums _); [|done..]. intros [= <-]. apply quiet_event.
  - destruct (_ || _); intros [= <-]; [apply quiet_control|apply quiet_inbound].
Qed.

Lemma validate_no_panic routes wg l : validate_actions routes wg l <> Panic.
Proof.
  induction l as [|a l IH]; cbn; [done|].
  assert (action_ok routes wg a <> Panic) by (unfold action_ok; by repeat case_match).
  by destruct (action_ok routes wg a).
Qed.

Lemma event_accounted d (c : controller) :
  accounted c (handleOwnedDecodedEvent d c).1.1 (handleOwnedDecodedEvent d c).2.
Proof.
  unfold handleOwnedDecodedEvent. cbn zeta. destruct (negb _); [by apply accounted_none|].
  destruct (selectEngine _ _) as [wg|err|]; [|by apply accounted_none..].
  destruct (engine_call d) as [m|err] eqn:Hc; [|by apply accounted_none].
  destruct (call_sent wg m (c_state c) silent) as [Hs Hsil]; [by eapply engine_call_quiet|].
  cbn [call_engine EngineRouter_dispatcher]. destruct (on_engine wg m (c_state c)) as [r st']. cbn in Hs.
  destruct r as [[acts [err|]]|]; cbn [default id].
  - apply accounted_none; [|done]. by apply (Hsil (acts, Some err) eq_refl).
  - destruct (validateActions _ _ _) as [u|err|] eqn:Hv; [|by apply accounted_failed|by apply validate_no_panic in Hv].
    pose proof (accounted_execute c (set_c_state c st') acts Hs) as He. by destruct (execute_committed _ _).
  - by apply accounted_none.
Qed.

Lemma tick_engines_sent orders ids : forall st : DState EngineRouter W,
  sent (ds_env (tick_engines orders ids st).2) = sent (ds_env st).
Proof.
  induction ids as [|wg ids IH]; intros st; cbn [tick_engines]; [done|].
  destruct (call_sent wg (Tick (orders wg)) st (fun _ => True)) as [Hs _]; [apply quiet_tick|].
  destruct (on_engine wg _ st) as [r st1]. cbn in Hs. destruct (default ([], None) r) as [acts err].
  specialize (IH st1). destruct (tick_engines orders ids st1) as [[[acts' errs'] rerrs] st2]. cbn in IH.
  destruct (router_validateActions _ _ _); cbn; congruence.
Qed.

Lemma router_tick_sent orders (st : DState EngineRouter W) :
  sent (ds_env (router_Tick orders st).2) = sent (ds_env st).
Proof.
  unfold router_Tick. cbn zeta. destruct (_ =? _); [done|].
  pose proof (tick_engines_sent orders (er_wgIDs (ds_dispatcher st)) st) as Ht.
  destruct (tick_engines _ _ st) as [[[acts errs] rerrs] st']. by destruct (errors_Join_all rerrs).
Qed.

(** ** Sequences of operations *)

Inductive controller_op :=
  | OpSample (sha256 : list Z -> list Z) (ctx : bool) (sample : list Z)
  | OpEvent (ctx : bool) (d : ownedDecodedEvent)
  | OpTick (ctx : bool) (orders : Z -> list FakeTCPSessionKey)
  | OpClose.

(** The actions an operation returns, its error, and the controller after it. *)
Definition exec_op (op : controller_op) (c : controller) : Result * controller :=
  match op with
  | OpSample sha256 ctx sample => HandleSample sha256 ctx sample c
  | OpEvent ctx d => handleOwnedEvent ctx d c
  | OpTick ctx orders => controller_Tick ctx orders c
  | OpClose => let '(err, c) := controller_Close c in (([], err), c)
  end.

Lemma exec_accounted op c : accounted c (exec_op op c).1.1 (exec_op op c).2.
Proof.
  assert (forall ctx (k : controller -> Result * controller),
    (forall c', accounted c' (k c').1.1 (k c').2) ->
    let r := match begin_operation c with
             | Some err => (([], Some err), c)
             | None => let '(err, c) := check_context ctx c in
                       match err with Some err => (([], Some err), c) | None => k c end
             end in accounted c r.1.1 r.2) as Hop.
  { intros ctx k Hk. destruct (begin_operation c); [by apply accounted_none|].
    pose proof (context_sent ctx c) as Hs. destruct (check_context ctx c) as [[err|] c1]; cbn in Hs |- *;
      [by apply accounted_none|]. destruct (Hk c1) as (t & ? & ?). exists t. by rewrite <- Hs. }
  destruct op as [sha ctx sample|ctx d|ctx orders|]; cbn [exec_op].
  - apply (Hop ctx (fun c => match DecodeEventSample sample with
      | Ret d => handleOwnedDecodedEvent (mkOwned (de_Event d) (de_Packet d)
          (if EV_Type (de_Event d) =? FakeTCPEventNeedHandshake then sha sample else zeros 32)) c
      | Fail err => (([], Some err), c) | Panic => (([], Some "panic"), c) end)).
    intros c'. destruct (DecodeEventSample sample); [apply event_accounted|by apply accounted_none..].
  - apply (Hop ctx (handleOwnedDecodedEvent d)). intros c'. apply event_accounted.
  - unfold controller_Tick. destruct (begin_operation c); [by apply accounted_none|].
    pose proof (context_sent ctx c) as Hs. destruct (check_context ctx c) as [[err|] c1]; cbn in Hs;
      [by apply accounted_none|]. cbn [dispatcher_Tick EngineRouter_dispatcher].
    pose proof (router_tick_sent orders (c_state c1)) as Ht.
    destruct (router_Tick orders (c_state c1)) as [[[acts err] rejected] st']. cbn in Ht.
    assert (sent_of (set_c_state c1 st') = sent_of c) as Hst by (unfold sent_of in *; cbn; congruence).
    destruct rejected; [by apply accounted_failed|].
    pose proof (accounted_execute c (set_c_state c1 st') acts Hst) as He.
    by destruct (execute_committed _ _).
  - unfold controller_Close. destruct (c_closed c); [by apply accounted_none|].
    destruct (negb _); [by apply accounted_none|].
    pose proof (sent_close (ds_env (c_state c))) as Hc. destruct (be_Close _) as [err w]. cbn in Hc |- *.
    by apply accounted_none.
Qed.

(** A failed, shut down or closed controller does nothing more. *)
Lemma exec_fenced op (c : controller) :
  c_failureErr c <> None \/ c_shutdown c = true \/ c_closed c = true ->
  (exec_op op c).1.1 = [] /\ router_of (exec_op op c).2 = router_of c /\
  sent_of (exec_op op c).2 = sent_of c /\ c_failureErr (exec_op op c).2 = c_failureErr c.
Proof.
  intros Hf. assert (begin_operation c <> None) as Hbegin.
  { unfold begin_operation. destruct Hf as [Hf|[Hf|Hf]]; rewrite ?Hf; rewrite ?orb_true_r;
      [by destruct (_ || _)|done..]. }
  destruct op as [sha ctx sample|ctx d|ctx orders|]; cbn [exec_op].
  - unfold HandleSample. by destruct (begin_operation c).
  - unfold handleOwnedEvent. by destruct (begin_operation c).
  - unfold controller_Tick. by destruct (begin_operation c).
  - unfold controller_Close. destruct (c_closed c); [done|]. destruct (negb _); [done|].
    pose proof (sent_close (ds_env (c_state c))) as Hc. by destruct (be_Close _) as [err w].
Qed.

(** Operations with the environment moving in between without using the
    backend; the list holds the actions each operation returned. *)
Inductive run_ops : controller -> list (list Action) -> controller -> Prop :=
  | run_done c : run_ops c [] c
  | run_op op c l c' : run_ops (exec_op op c).2 l c' -> run_ops c ((exec_op op c).1.1 :: l) c'
  | run_env c w l c' : sent w = sent_of c ->
      run_ops (set_c_state c (with_env (c_state c) w)) l c' -> run_ops c l c'.

Lemma run_fenced c l c' : run_ops c l c' -> c_failureErr c <> None ->
  concat l = [] /\ sent_of c' = sent_of c /\ c_failureErr c' <> None.
Proof.
  induction 1 as [c|op c l c' _ IH|c w l c' Hw _ IH]; intros Hf; [done| |].
  - destruct (exec_fenced op c) as (Ha & _ & Hs & Hfe); [by left|]. rewrite Hfe in IH.
    destruct (IH Hf) as (Hl & Hs' & ?). cbn. rewrite Ha, Hl, Hs'. done.
  - destruct (IH Hf) as (? & Hs & ?). split_and!; try done. rewrite Hs. by apply Hw.
Qed.

Lemma run_accounted c l c' : run_ops c l c' -> accounted c (concat l) c'.
Proof.
  induction 1 as [c|op c l c' Hrun IH|c w l c' Hw _ IH].
  - by apply accounted_none.
  - destruct (exec_accounted op c) as (t1 & Hs1 & pre & post & tail & Ha & -> & Htail & Hn).
    destruct (decide (c_failureErr (exec_op op c).2 = None)) as [Hf|Hf].
    + rewrite (Hn Hf), take_nil in *. cbn in Htail. apply prefix_nil_inv, fmap_nil_inv in Htail as ->.
      destruct IH as (t2 & Hs2 & pre2 & post2 & tail2 & Ha2 & -> & Htail2 & Hn2).
      eexists. split; [rewrite Hs2, Hs1, <- app_assoc; reflexivity|].
      exists (pre ++ pre2), post2, tail2. cbn [concat].
      rewrite Ha, Ha2, !app_nil_r, effects_app, succeeded_app, <- !app_assoc. done.
    + destruct (run_fenced _ _ _ Hrun Hf) as (Hl & Hs & Hf'). eexists. split; [rewrite Hs; exact Hs1|].
      cbn [concat]. rewrite Hl, app_nil_r. by exists pre, post, tail.
  - destruct IH as (t & Hs & Ht). exists t. split; [|done]. rewrite Hs. f_equal. apply Hw.
Qed.

(** An operation that fails the controller answers with an error. *)
Lemma execute_reports (c : controller) acts : c_failureErr (execute_committed c acts).2 <> c_failureErr c ->
  (execute_committed c acts).1 <> None.
Proof. unfold execute_committed. by destruct (executeActions acts _) as [[cause|] w]. Qed.
Lemma exec_reports op (c : controller) : c_failureErr (exec_op op c).2 <> c_failureErr c -> (exec_op op c).1.2 <> None.
Proof.
  assert (forall d (c' : controller), c_failureErr (handleOwnedDecodedEvent d c').2 <> c_failureErr c' ->
    (handleOwnedDecodedEvent d c').1.2 <> None) as Hevent.
  { intros d c'. unfold handleOwnedDecodedEvent. cbn zeta. destruct (negb _); [done|].
    destruct (selectEngine _ _); [|done..]. destruct (engine_call d); [|done].
    destruct (call_engine _ _ _) as [r st]. destruct (default ([], Some "panic") r) as [acts [err|]]; [done|].
    destruct (validateActions _ _ _); [|done..].
    pose proof (execute_reports (set_c_state c' st) acts) as He. by destruct (execute_committed _ _). }
  assert (forall ctx (c' : controller), c_failureErr (check_context ctx c').2 = c_failureErr c') as Hctx
    by (intros ctx c'; unfold check_context; destruct (negb ctx); [done|]; by destruct (ctx_Err _)).
  destruct op as [sha ctx sample|ctx d|ctx orders|]; cbn [exec_op].
  - unfold HandleSample. destruct (begin_operation c); [done|]. pose proof (Hctx ctx c) as Hc.
    destruct (check_context ctx c) as [[err|] c1]; [done|]. cbn in Hc.
    destruct (DecodeEventSample sample); [|done..]. rewrite <- Hc. apply Hevent.
  - unfold handleOwnedEvent. destruct (begin_operation c); [done|]. pose proof (Hctx ctx c) as Hc.
    destruct (check_context ctx c) as [[err|] c1]; [done|]. cbn in Hc. rewrite <- Hc. apply Hevent.
  - unfold controller_Tick. destruct (begin_operation c); [done|]. pose proof (Hctx ctx c) as Hc.
    destruct (check_context ctx c) as [[err|] c1]; [done|]. cbn in Hc.
    destruct (dispatcher_Tick orders (c_state c1)) as [[[acts err] rejected] st']. destruct rejected; [done|].
    pose proof (execute_reports (set_c_state c1 st') acts) as He. cbn in He. rewrite Hc in He.
    destruct (execute_committed _ _) as [[e|] c2]; cbn in *; [by destruct err|]. by intros ?%He.
  - unfold controller_Close. destruct (c_closed c); [done|]. destruct (negb _); [done|].
    by destruct (be_Close _) as [err w].
Qed.
End effects.

(** C39: side effects happen at most once, in order, and stop at the first
    failing action.  Over any sequence of samples, events, ticks and closes on a
    routed controller, the calls of the backend are the effects of the returned
    actions in their order, each made once and each answered with success, up
    to some action of which only leading effects may have been attempted; as
    long as the controller has not failed there is no such action.  So a control
    packet the backend refuses, or a release with a packet that could not be
    reinjected (the other packets of that release are still tried), fails the
    controller, which is reported, and no later action is begun.  Once it has
    failed, or Close has begun, operations return no actions and change neither
    the engines nor what was sent. *)
Theorem effects_at_most_once {W} `{Logged W} (c : Controller EngineRouter W) l c' :
  run_ops c l c' ->
  (exists pre post tail, concat l = pre ++ post /\
     sent_of c' = sent_of c ++ succeeded (effects_of pre) ++ tail /\
     tail.*1 `prefix_of` effects_of (take 1 post) /\
     (c_failureErr c' = None -> post = [])) /\
  (forall op, c_failureErr (exec_op op c').2 <> c_failureErr c' -> (exec_op op c').1.2 <> None) /\
  (c_failureErr c' <> None \/ c_shutdown c' = true \/ c_closed c' = true ->
     forall op, (exec_op op c').1.1 = [] /\ router_of (exec_op op c').2 = router_of c' /\
       sent_of (exec_op op c').2 = sent_of c').
Proof.
  intros Hrun. split; [|split].
  - destruct (run_accounted c l c' Hrun) as (t & Hs & pre & post & tail & ? & -> & ? & ?). by exists pre, post, tail.
  - intros op. apply exec_reports.
  - intros Hf op. by destruct (exec_fenced op c' Hf) as (? & ? & ? & _).
Qed.

(** ** Witnesses: one WireGuard, a captured first packet and the peer's answer *)

(** The simulated environment with the calls its backend has received. *)
Record csim := mkCSim { cs_sim : sim; cs_sent : list attempt }.
Definition lift_sim {A} (f : sim -> A * sim) (w : csim) : A * csim :=
  let '(a, s) := f (cs_sim w) in (a, mkCSim s (cs_sent w)).
#[export] Instance csim_env : Env csim := {
  env_Now := lift_sim env_Now;
  env_NowNanos := lift_sim env_NowNanos;
  env_InitialSequence := lift_sim env_InitialSequence;
  store_InsertEstablished k v := lift_sim (store_InsertEstablished k v);
  store_LookupEstablished k := lift_sim (store_LookupEstablished k);
  store_DeleteEstablishedIfUnchanged k v := lift_sim (store_DeleteEstablishedIfUnchanged k v)
}.
#[export] Instance csim_backend : ControllerBackend csim := {
  be_SendControl flow wg c w := (None, mkCSim (cs_sim w) (cs_sent w ++ [(EffectControl flow wg c, None)]));
  be_Reinject flow p w := (None, mkCSim (cs_sim w) (cs_sent w ++ [(EffectReinject flow p, None)]));
  be_Close w := (None, w);
  ctx_Err w := (None, w)
}.
Lemma lift_sent {A} (f : sim -> A * sim) w : cs_sent (lift_sim f w).2 = cs_sent w.
Proof. unfold lift_sim. by destruct (f _). Qed.
#[export, refine] Instance csim_logged : Logged csim := { sent := cs_sent }.
Proof. all: intros; first [done | apply lift_sent]. Defined.

Definition sample_domain : RuntimeDomain := mkDomain 1 sample_identity (mkAllocator 0).
Definition sample_route : EngineRoute := mkRoute 1 3 51820 1 81 ActionRewrite.
Definition sample_plans : list WGEnginePlan := [mkEnginePlan 1 sample_options [sample_route]].
Definition router_result (m : outcome EngineRouter) : EngineRouter :=
  match m with Ret r => r | _ => mkRouter sample_identity ∅ ∅ [] end.
Definition sample_router : EngineRouter :=
  router_result (NewEngineRouterFromPlans sample_domain (fun _ => 1000) sample_plans).
Definition sample_controller : Controller EngineRouter csim :=
  mkController (mkDState sample_router (mkAllocator 0) (mkCSim sample_sim [])) true false false None None.

Lemma sample_router_built :
  NewEngineRouterFromPlans sample_domain (fun _ => 1000) sample_plans = Ret sample_router.
Proof. vm_compute. reflexivity. Qed.

(** The peer's SYN|ACK for the captured flow. *)
Definition sample_synack_event : FakeTCPEvent :=
  mkEvent sample_flow 6 (replicate 16 7) 0 0 0 0 900 101 0 0 1 0 FakeTCPEventABIVersion
    FakeTCPEventSYNACK 18.
Definition sample_ops : list controller_op :=
  [OpSample (fun _ => zeros 32) true sample_capture;
   OpSample (fun _ => zeros 32) true (encode_event sample_synack_event);
   OpTick true (fun _ => [sample_flow])].
Fixpoint run_all {W} `{Env W} `{ControllerBackend W} (ops : list controller_op)
    (c : Controller EngineRouter W) : list (list Action) * Controller EngineRouter W :=
  match ops with
  | [] => ([], c)
  | op :: ops => let '(l, c') := run_all ops (exec_op op c).2 in ((exec_op op c).1.1 :: l, c')
  end.
Lemma run_all_ops {W} `{Logged W} ops : forall c : Controller EngineRouter W,
  run_ops c (run_all ops c).1 (run_all ops c).2.
Proof.
  induction ops as [|op ops IH]; intros c; cbn [run_all]; [apply run_done|].
  specialize (IH (exec_op op c).2). destruct (run_all ops _) as [l c']. by apply run_op.
Qed.
Lemma run_all_steps {W} `{Logged W} ops : forall c : Controller EngineRouter W,
  rtc controller_step c (run_all ops c).2.
Proof.
  induction ops as [|op ops IH]; intros c; cbn [run_all]; [apply rtc_refl|].
  specialize (IH (exec_op op c).2). destruct (run_all ops _) as [l c']. eapply rtc_l; [|exact IH].
  destruct op; cbn [exec_op]; [apply step_sample|apply step_event|apply step_tick|].
  pose proof (step_close c) as Hc. by destruct (controller_Close c).
Qed.

(** The SYN, then the ACK and the captured packet. *)
Lemma sample_run_sent :
  map (fun e => match e.1 with EffectControl _ _ c => (CP_Flags c, 0) | EffectReinject _ p => (0, len (PP_Data p)) end)
    (sent_of (run_all sample_ops sample_controller).2) = [(FlagSYN, 0); (FlagACK, 0); (0, 30)] /\
  c_failureErr (run_all sample_ops sample_controller).2 = None.
Proof. split; vm_compute; reflexivity. Qed.

Lemma effects_at_most_once_witness :
  length (sent_of (run_all sample_ops sample_controller).2) = 3%nat /\
  sent_of (run_all sample_ops sample_controller).2 =
    succeeded (effects_of (concat (run_all sample_ops sample_controller).1)).
Proof.
  split; [vm_compute; reflexivity|].
  destruct (effects_at_most_once sample_controller (run_all sample_ops sample_controller).1
    (run_all sample_ops sample_controller).2 (run_all_ops sample_ops sample_controller))
    as [(pre & post & tail & Hl & Hs & Htail & Hall) _].
  rewrite (Hall (proj2 sample_run_sent)), take_nil in *. cbn in Htail. apply prefix_nil_inv, fmap_nil_inv in Htail as ->.
  rewrite Hs, Hl, !app_nil_r. reflexivity.
Defined.

Definition sample_owned : ownedDecodedEvent := mkOwned sample_synack_event [] (zeros 32).
Lemma sample_selected :
  router_selectEngine (router_of (run_all (take 1 sample_ops) sample_controller).2)
    (od_Event sample_owned) = Ret 1.
Proof. vm_compute. reflexivity. Qed.

Lemma routes_fence_never_trips_witness :
  exists m res, engine_call (W := csim) sample_owned = inl m /\
    validateActions (ds_dispatcher (call_engine 1 m (c_state (run_all (take 1 sample_ops) sample_controller).2)).2)
      1 (fst res) = Ret tt /\
    (call_engine 1 m (c_state (run_all (take 1 sample_ops) sample_controller).2)).1 = Some res.
Proof.
  pose proof (routes_fence_never_trips sample_domain (fun _ => 1000) sample_plans sample_router
    (mkCSim sample_sim []) (run_all (take 1 sample_ops) sample_controller).2 sample_router_built
    (run_all_steps (take 1 sample_ops) sample_controller)) as [Hf _].
  eexists. destruct (Hf sample_owned 1 _ sample_selected eq_refl) as (res & Hr & Hv).
  exists res. split; [reflexivity|]. split; [exact Hv|exact Hr].
Defined.

Lemma router_dispatch_exact_witness :
  router_selectEngine sample_router sample_capture_event = Ret 1 /\ WGIDs sample_router ≡ₚ [1].
Proof.
  destruct (router_dispatch_exact sample_domain (fun _ => 1000) sample_plans sample_router
    sample_router_built) as (Hs & _ & _ & _ & Hp).
  split; [|exact Hp]. apply Hs.
  exists (mkEnginePlan 1 sample_options [sample_route]), sample_route.
  split; [by left|]. split; [by left|]. repeat split.
Defined.
