(* ===== verification/ActionRecovery.v ===== *)
(** * The write-ahead journal of controller effects
    (internal/faketcp/action_recovery.go, and the recoverable half of controller.go)

    A recoverable controller writes the effects of a transition to a one-slot
    store before it performs them, and its progress between them, so that after a
    failure or a crash [Recover] can finish them.  The store and the backend are
    classes over the world; the store the repository has is [mem_store]. *)
From Stdlib Require Import ZArith Lia.
From stdpp Require Import base option list gmap strings numbers.
From S2P Require Import Prelude Abi Checksum L3Parser Runtime ControlPacket BpfSession Engine Router Events Controller ErrorState.

#[export] Instance RuntimeIdentity_countable : Countable RuntimeIdentity.
Proof.
  refine (inj_countable' (fun i => (RI_Generation i, RI_Incarnation i)) (fun t => mkRuntimeIdentity t.1 t.2) _). by intros [].
Defined.
#[export] Instance CaptureIdentity_countable : Countable CaptureIdentity.
Proof.
  refine (inj_countable' (fun i => (CI_Runtime i, CI_CPU i, CI_Sequence i))
    (fun t => mkCaptureIdentity t.1.1 t.1.2 t.2) _). by intros [].
Defined.

(** ** Checkpoints *)

Definition ActionCheckpointPrepared : Z := 1.
Definition ActionCheckpointAttempting : Z := 2.
Definition ActionStepSendControl : Z := 1.
Definition ActionStepReinject : Z := 2.
Record ActionStep := mkActionStep {
  as_Kind : Z; as_Flow : FakeTCPSessionKey; as_WGID : Z; as_Control : ControlPacket;
  as_Packet : PendingPacket; as_Reason : string
}.
Record ActionCheckpoint := mkCheckpoint {
  ak_Revision : Z; ak_Operation : Z; ak_Identity : RuntimeIdentity;
  ak_Phase : Z; ak_NextStep : Z; ak_Steps : list ActionStep
}.
Definition set_revision (revision : Z) (c : ActionCheckpoint) : ActionCheckpoint :=
  mkCheckpoint revision (ak_Operation c) (ak_Identity c) (ak_Phase c) (ak_NextStep c) (ak_Steps c).
Definition set_position (phase next : Z) (c : ActionCheckpoint) : ActionCheckpoint :=
  mkCheckpoint (ak_Revision c) (ak_Operation c) (ak_Identity c) phase next (ak_Steps c).

Definition ErrActionRecoveryRequired : error := "faketcp action recovery is required".
Definition ErrActionCheckpointConflict : error := "faketcp action checkpoint compare-and-swap conflict".
Definition ErrActionCheckpointCorrupt : error := "faketcp action checkpoint is invalid".
Definition ErrActionCheckpointRevisionExhausted : error := "faketcp action checkpoint revision is exhausted".
Definition ErrActionCheckpointIdentityMismatch : error :=
  "faketcp action checkpoint belongs to a different engine identity".
Definition ErrCaptureIdentityConflict : error := 
  "faketcp capture identity was reused with different packet metadata".

(** *** The packets of a checkpoint *)

Record capturedPacketBinding := mkCaptured {
  cb_flow : FakeTCPSessionKey; cb_fwmark : Z; cb_wgID : Z; cb_captureNanos : Z;
  cb_captureFingerprint : list Z; cb_dataFingerprint : list Z
}.
#[export] Instance capturedPacketBinding_eq_dec : EqDecision capturedPacketBinding.
Proof. solve_decision. Defined.
Abbreviation capture_bindings := (gmap CaptureIdentity capturedPacketBinding).

Definition PendingPacket_zero : PendingPacket :=
  mkPendingPacket [] 0 0 0 (mkCaptureIdentity (mkRuntimeIdentity 0 (zeros 16)) 0 0) (zeros 32) false.

Section steps.
(** [sha256.Sum256]. *)
Context (sha256 : list Z -> list Z).

Definition bindCapturedPacket (flow : FakeTCPSessionKey) (packet : PendingPacket) : capturedPacketBinding :=
  mkCaptured flow (PP_FWMark packet) (PP_WGID packet) (PP_CaptureNanos packet)
    (PP_CaptureFingerprint packet) (sha256 (PP_Data packet)).
(** Whether the packet was seen before, with the bindings after the call. *)
Definition observeCapturedPacket (bindings : capture_bindings) (flow : FakeTCPSessionKey) (packet : PendingPacket)
    : outcome (bool * capture_bindings) :=
  let binding := bindCapturedPacket flow packet in
  match bindings !! PP_CaptureID packet with
  | None => Ret (false, <[PP_CaptureID packet := binding]> bindings)
  | Some previous =>
      fail_if negb (bool_decide (previous = binding)) with ErrCaptureIdentityConflict in
      Ret (true, bindings)
  end.

Definition validateActionStep (step : ActionStep) : outcome unit :=
  check! validatePacketFlow (as_Flow step) in
  if as_Kind step =? ActionStepSendControl then
    fail_if negb (as_WGID step =? SK_WGID (as_Flow step)) with "faketcp control action step WGID does not match its flow" in
    fail_if negb (len (PP_Data (as_Packet step)) =? 0) with "faketcp control action step contains packet data" in
    fail_if negb (control_flags_ok (CP_Flags (as_Control step))) with "faketcp control action step has unsupported flags" in
    Ret tt
  else if as_Kind step =? ActionStepReinject then
    fail_if negb (PP_WGID (as_Packet step) =? SK_WGID (as_Flow step))
      with "faketcp reinjection action step WGID does not match its flow" in
    fail_if len (PP_Data (as_Packet step)) =? 0 with "faketcp reinjection action step has no packet or capture identity" in
    check! validateCaptureIdentity (PP_CaptureID (as_Packet step)) (SK_Generation (as_Flow step)) in
    fail_if bool_decide (PP_CaptureFingerprint (as_Packet step) = zeros 32)
      with "faketcp reinjection action step has no capture fingerprint" in
    Ret tt
  else Fail "unknown faketcp action step kind".

Definition control_step (a : Action) : ActionStep :=
  mkActionStep ActionStepSendControl (act_Flow a) (act_WGID a) (act_Control a) PendingPacket_zero (act_Reason a).
Definition reinject_step (a : Action) (packet : PendingPacket) : ActionStep :=
  mkActionStep ActionStepReinject (act_Flow a) 0 ControlPacket_zero packet (act_Reason a).

(** One step per packet that was not seen before. *)
Fixpoint packet_steps (a : Action) (bindings : capture_bindings) (packets : list PendingPacket)
    : outcome (list ActionStep * capture_bindings) :=
  match packets with
  | [] => Ret ([], bindings)
  | packet :: packets =>
      let step := reinject_step a packet in
      check! validateActionStep step in
      let! seen := observeCapturedPacket bindings (act_Flow a) packet in
      let! rest := packet_steps a seen.2 packets in
      Ret (if seen.1 then rest.1 else step :: rest.1, rest.2)
  end.
Fixpoint actions_steps (bindings : capture_bindings) (actions : list Action) : outcome (list ActionStep) :=
  match actions with
  | [] => Ret []
  | a :: actions =>
      match act_Kind a with
      | ActionDrop | ActionForward | ActionClose => actions_steps bindings actions
      | ActionSendControl =>
          check! validateActionStep (control_step a) in
          let! steps := actions_steps bindings actions in
          Ret (control_step a :: steps)
      | ActionReleasePending =>
          let! released := packet_steps a bindings (act_Packets a) in
          let! steps := actions_steps released.2 actions in
          Ret (released.1 ++ steps)
      end
  end.
Definition actionSteps (actions : list Action) : outcome (list ActionStep) := actions_steps ∅ actions.

Definition validateActionCheckpointPosition (phase nextStep stepCount : Z) : outcome unit :=
  fail_if (nextStep <? 0) || (stepCount <? nextStep) with ErrActionCheckpointCorrupt in
  fail_if negb (phase =? ActionCheckpointPrepared) && negb (phase =? ActionCheckpointAttempting)
    with ErrActionCheckpointCorrupt in
  fail_if (phase =? ActionCheckpointAttempting) && (nextStep =? stepCount) with ErrActionCheckpointCorrupt in
  Ret tt.
Fixpoint validate_steps (identity : RuntimeIdentity) (steps : list ActionStep) : outcome unit :=
  match steps with
  | [] => Ret tt
  | step :: steps =>
      fail_if negb (is_ret (validateActionStep step)) with ErrActionCheckpointCorrupt in
      fail_if negb (SK_Generation (as_Flow step) =? RI_Generation identity) with ErrActionCheckpointCorrupt in
      fail_if (as_Kind step =? ActionStepReinject) &&
              negb (bool_decide (CI_Runtime (PP_CaptureID (as_Packet step)) = identity))
        with ErrActionCheckpointCorrupt in
      validate_steps identity steps
  end.
Fixpoint validate_captures (bindings : capture_bindings) (steps : list ActionStep) : outcome unit :=
  match steps with
  | [] => Ret tt
  | step :: steps =>
      if negb (as_Kind step =? ActionStepReinject) then validate_captures bindings steps
      else
        match observeCapturedPacket bindings (as_Flow step) (as_Packet step) with
        | Ret (duplicate, bindings) =>
            fail_if duplicate with ErrActionCheckpointCorrupt in
            validate_captures bindings steps
        | _ => Fail ErrActionCheckpointCorrupt
        end
  end.
Definition validateCheckpointCaptureBindings (c : ActionCheckpoint) : outcome unit := validate_captures ∅ (ak_Steps c).
Definition validateActionCheckpoint (c : ActionCheckpoint) : outcome unit :=
  fail_if (ak_Operation c =? 0) || (len (ak_Steps c) =? 0) with ErrActionCheckpointCorrupt in
  check! validateActionCheckpointPosition (ak_Phase c) (ak_NextStep c) (len (ak_Steps c)) in
  fail_if negb (is_ret (validateRuntimeIdentity (ak_Identity c))) with ErrActionCheckpointCorrupt in
  check! validate_steps (ak_Identity c) (ak_Steps c) in
  validateCheckpointCaptureBindings c.
Definition validateStoredActionCheckpoint (c : ActionCheckpoint) : outcome unit :=
  fail_if ak_Revision c =? 0 with ErrActionCheckpointCorrupt in
  validateActionCheckpoint c.

(** ** The store in memory *)

(** [errors.Is(err, ErrActionCheckpointConflict)] or not. *)
Inductive store_error := SeConflict | SeOther (e : error).
Definition store_message (e : store_error) : error :=
  match e with SeConflict => ErrActionCheckpointConflict | SeOther e => e end.

Record MemoryActionCheckpointStore := mkMemory { ms_checkpoint : option ActionCheckpoint; ms_nextRevision : Z }.
Definition NewMemoryActionCheckpointStore : MemoryActionCheckpointStore := mkMemory None 1.
Definition allocateRevisionLocked (s : MemoryActionCheckpointStore) : option (Z * MemoryActionCheckpointStore) :=
  if ms_nextRevision s =? 0 then None
  else Some (ms_nextRevision s, mkMemory (ms_checkpoint s) (u64 (ms_nextRevision s + 1))).
(** Writes [c] with a fresh revision. *)
Definition memory_put (c : ActionCheckpoint) (s : MemoryActionCheckpointStore)
    : (ActionCheckpoint + store_error) * MemoryActionCheckpointStore :=
  match allocateRevisionLocked s with
  | None => (inr (SeOther ErrActionCheckpointRevisionExhausted), s)
  | Some (revision, s) =>
      let c := set_revision revision c in (inl c, mkMemory (Some c) (ms_nextRevision s))
  end.
Definition memory_matches (s : MemoryActionCheckpointStore) (expectedRevision : Z) : bool :=
  match ms_checkpoint s with Some c => ak_Revision c =? expectedRevision | None => false end.

Definition memory_Create (c : ActionCheckpoint) (s : MemoryActionCheckpointStore)
    : (ActionCheckpoint + store_error) * MemoryActionCheckpointStore :=
  if negb (ak_Revision c =? 0) then (inr (SeOther ErrActionCheckpointCorrupt), s)
  else match go_error (validateActionCheckpoint c) with
  | Some e => (inr (SeOther e), s)
  | None =>
      if bool_decide (is_Some (ms_checkpoint s)) then (inr SeConflict, s) else memory_put c s
  end.
Definition memory_Update (expectedRevision : Z) (c : ActionCheckpoint) (s : MemoryActionCheckpointStore)
    : (ActionCheckpoint + store_error) * MemoryActionCheckpointStore :=
  if expectedRevision =? 0 then (inr (SeOther ErrActionCheckpointCorrupt), s)
  else if negb (ak_Revision c =? expectedRevision) then (inr (SeOther ErrActionCheckpointCorrupt), s)
  else match go_error (validateActionCheckpoint c) with
  | Some e => (inr (SeOther e), s)
  | None => if negb (memory_matches s expectedRevision) then (inr SeConflict, s) else memory_put c s
  end.
Definition memory_Transition (expectedRevision phase nextStep : Z) (s : MemoryActionCheckpointStore)
    : (Z + store_error) * MemoryActionCheckpointStore :=
  if expectedRevision =? 0 then (inr (SeOther ErrActionCheckpointCorrupt), s)
  else if negb (memory_matches s expectedRevision) then (inr SeConflict, s)
  else match ms_checkpoint s with
  | None => (inr SeConflict, s)
  | Some c =>
      match go_error (validateActionCheckpointPosition phase nextStep (len (ak_Steps c))) with
      | Some e => (inr (SeOther e), s)
      | None =>
          match memory_put (set_position phase nextStep c) s with
          | (inl c, s) => (inl (ak_Revision c), s)
          | (inr e, s) => (inr e, s)
          end
      end
  end.
Definition memory_Delete (expectedRevision : Z) (s : MemoryActionCheckpointStore)
    : option store_error * MemoryActionCheckpointStore :=
  if expectedRevision =? 0 then (Some (SeOther ErrActionCheckpointCorrupt), s)
  else if negb (memory_matches s expectedRevision) then (Some SeConflict, s)
  else (None, mkMemory None (ms_nextRevision s)).

(** ** Recovery *)

Record RecoveryReport := mkReport {
  rr_ReplayedControls : Z; rr_SkippedAmbiguousReinjections : Z; rr_CompletedSteps : Z
}.
Definition report_zero : RecoveryReport := mkReport 0 0 0.
Definition replayed_one (r : RecoveryReport) : RecoveryReport :=
  mkReport (rr_ReplayedControls r + 1) (rr_SkippedAmbiguousReinjections r) (rr_CompletedSteps r).
Definition skipped_one (r : RecoveryReport) : RecoveryReport :=
  mkReport (rr_ReplayedControls r) (rr_SkippedAmbiguousReinjections r + 1) (rr_CompletedSteps r).
Definition completed_one (r : RecoveryReport) : RecoveryReport :=
  mkReport (rr_ReplayedControls r) (rr_SkippedAmbiguousReinjections r) (rr_CompletedSteps r + 1).

Record ActionRecovery := mkRecovery { ar_identity : RuntimeIdentity; ar_nextOperation : Z }.
(** An error, told apart by [errors.Is(err, ErrActionRecoveryRequired)]. *)
Inductive recovery_error := RecoveryRequired (e : error) | RecoveryOther (e : error).
Definition recovery_message (e : recovery_error) : error :=
  match e with RecoveryRequired e | RecoveryOther e => e end.
End steps.

(** [ActionCheckpointStore], with the optional [TransitionActionCheckpoint]. *)
Class ActionCheckpointStore (W : Type) := {
  cs_Load : W -> (option ActionCheckpoint + error) * W;
  cs_Create : ActionCheckpoint -> W -> (ActionCheckpoint + store_error) * W;
  cs_Update : Z -> ActionCheckpoint -> W -> (ActionCheckpoint + store_error) * W;
  cs_Transition : option (Z -> Z -> Z -> W -> (Z + store_error) * W);
  cs_Delete : Z -> W -> option store_error * W
}.

Section recovery.
Context (sha256 : list Z -> list Z).
Context {W : Type} `{ControllerBackend W} `{ActionCheckpointStore W}.

Definition NewActionRecovery (identity : RuntimeIdentity) (backend store : bool) (w : W) : (ActionRecovery + error) * W :=
  match go_error (validateRuntimeIdentity identity) with
  | Some e => (inr e, w)
  | None =>
      if negb backend then (inr "faketcp action recovery backend is nil", w)
      else if negb store then (inr "faketcp action checkpoint store is nil", w)
      else match cs_Load w with
      | (inr e, w) => (inr ("load faketcp action checkpoint: " +:+ e), w)
      | (inl None, w) => (inl (mkRecovery identity 1), w)
      | (inl (Some c), w) =>
          match go_error (validateStoredActionCheckpoint sha256 c) with
          | Some e => (inr e, w)
          | None => (inl (mkRecovery identity (u64 (ak_Operation c + 1))), w)
          end
      end
  end.

(** [bindActionCheckpointUpdate] applied. *)
Definition updateCheckpoint (c : ActionCheckpoint) : SM W ActionCheckpoint := fun w =>
  match cs_Transition with
  | Some transition =>
      match transition (ak_Revision c) (ak_Phase c) (ak_NextStep c) w with
      | (inl revision, w) => (inl (set_revision revision c), w)
      | (inr e, w) => (inr (store_message e), w)
      end
  | None =>
      match cs_Update (ak_Revision c) c w with
      | (inl c, w) => (inl c, w)
      | (inr e, w) => (inr (store_message e), w)
      end
  end.
Definition executeActionStep (step : ActionStep) : SM W unit :=
  if as_Kind step =? ActionStepSendControl then
    swrap ("send faketcp control packet (" +:+ as_Reason step +:+ "): ")
      (scall (be_SendControl (as_Flow step) (as_WGID step) (as_Control step)))
  else if as_Kind step =? ActionStepReinject then
    swrap "reinject faketcp first packet: " (scall (be_Reinject (as_Flow step) (as_Packet step)))
  else sfail "unknown faketcp action step kind".

(** The world with the report that [continueLocked] fills. *)
Record journal_run := mkRun { jr_world : W; jr_report : RecoveryReport }.
Definition on_run {A} (m : SM W A) : SM journal_run A := fun x =>
  let '(r, w) := m (jr_world x) in (r, mkRun w (jr_report x)).
Definition count_step (f : RecoveryReport -> RecoveryReport) : SM journal_run unit := fun x =>
  (inl tt, mkRun (jr_world x) (f (jr_report x))).

Definition index_panic : error := "runtime error: index out of range".
(** A step whose attempt was recorded but not its result. *)
Definition resume_attempt (recovering : bool) (c : ActionCheckpoint) : SM journal_run ActionCheckpoint :=
  match ak_Steps c !! Z.to_nat (ak_NextStep c) with
  | None => sfail index_panic
  | Some step =>
      reject negb recovering with ErrActionRecoveryRequired in
      if as_Kind step =? ActionStepReinject then
        try! c := on_run (swrap "checkpoint ambiguous faketcp reinjection as skipped: "
                    (updateCheckpoint (set_position ActionCheckpointPrepared (ak_NextStep c + 1) c))) in
        must! count_step skipped_one in sret c
      else
        try! c := on_run (swrap "checkpoint faketcp control replay: "
                    (updateCheckpoint (set_position ActionCheckpointPrepared (ak_NextStep c) c))) in
        must! count_step replayed_one in sret c
  end.
Fixpoint run_steps (fuel : nat) (c : ActionCheckpoint) : SM journal_run ActionCheckpoint :=
  if negb (ak_NextStep c <? len (ak_Steps c)) then sret c
  else match fuel with
  | O => sfail "out of fuel"
  | S fuel =>
      must! on_run (scall ctx_Err) in
      try! c := on_run (swrap "mark faketcp action step attempting: "
                  (updateCheckpoint (set_position ActionCheckpointAttempting (ak_NextStep c) c))) in
      match ak_Steps c !! Z.to_nat (ak_NextStep c) with
      | None => sfail index_panic
      | Some step =>
          must! on_run (executeActionStep step) in
          try! c := on_run (swrap "checkpoint completed faketcp action step: "
                      (updateCheckpoint (set_position ActionCheckpointPrepared (ak_NextStep c + 1) c))) in
          must! count_step completed_one in
          run_steps fuel c
      end
  end.
Definition delete_checkpoint (revision : Z) : SM W unit := fun w =>
  match cs_Delete revision w with
  | (Some e, w) => (inr ("delete completed faketcp action checkpoint: " +:+ store_message e), w)
  | (None, w) => (inl tt, w)
  end.
Definition steps_left (c : ActionCheckpoint) : nat := Z.to_nat (len (ak_Steps c) - ak_NextStep c).
Definition journal_loop (c : ActionCheckpoint) (recovering : bool) : SM journal_run unit :=
  try! c := (if ak_Phase c =? ActionCheckpointAttempting then resume_attempt recovering c else sret c) in
  try! c := run_steps (steps_left c) c in
  on_run (delete_checkpoint (ak_Revision c)).
(** Every error of the loop is wrapped in [ErrActionRecoveryRequired]. *)
Definition continueLocked (c : ActionCheckpoint) (recovering : bool) (w : W) : RecoveryReport * option recovery_error * W :=
  let '(r, x) := journal_loop c recovering (mkRun w report_zero) in
  (jr_report x, match r with inl _ => None | inr e => Some (RecoveryRequired e) end, jr_world x).

(** [ctx] tells whether the context is non-nil. *)
Definition recovery_Execute (r : ActionRecovery) (ctx : bool) (actions : list Action) (w : W)
    : option recovery_error * ActionRecovery * W :=
  if negb ctx then (Some (RecoveryOther "faketcp action execution context is nil"), r, w)
  else match actionSteps sha256 actions with
  | Fail e => (Some (RecoveryOther e), r, w)
  | Panic => (Some (RecoveryOther "panic"), r, w)
  | Ret [] => (None, r, w)
  | Ret steps =>
      match ctx_Err w with
      | (Some e, w) => (Some (RecoveryOther e), r, w)
      | (None, w) =>
          match cs_Load w with
          | (inr e, w) => (Some (RecoveryOther ("load faketcp action checkpoint before execute: " +:+ e)), r, w)
          | (inl (Some _), w) => (Some (RecoveryRequired ErrActionRecoveryRequired), r, w)
          | (inl None, w) =>
              if ar_nextOperation r =? 0 then (Some (RecoveryOther "faketcp action operation counter is exhausted"), r, w)
              else match cs_Create (mkCheckpoint 0 (ar_nextOperation r) (ar_identity r) ActionCheckpointPrepared 0 steps) w with
              | (inr SeConflict, w) => (Some (RecoveryRequired ErrActionCheckpointConflict), r, w)
              | (inr (SeOther e), w) => (Some (RecoveryOther ("create faketcp action checkpoint: " +:+ e)), r, w)
              | (inl c, w) =>
                  let r := mkRecovery (ar_identity r) (u64 (ar_nextOperation r + 1)) in
                  let '(_, err, w) := continueLocked c false w in (err, r, w)
              end
          end
      end
  end.
Definition recovery_Recover (r : ActionRecovery) (ctx : bool) (w : W) : RecoveryReport * option recovery_error * W :=
  if negb ctx then (report_zero, Some (RecoveryOther "faketcp action recovery context is nil"), w)
  else match ctx_Err w with
  | (Some e, w) => (report_zero, Some (RecoveryOther e), w)
  | (None, w) =>
      match cs_Load w with
      | (inr e, w) => (report_zero, Some (RecoveryOther ("load faketcp action checkpoint for recovery: " +:+ e)), w)
      | (inl None, w) => (report_zero, None, w)
      | (inl (Some c), w) =>
          match go_error (validateStoredActionCheckpoint sha256 c) with
          | Some e => (report_zero, Some (RecoveryOther e), w)
          | None =>
              if negb (bool_decide (ak_Identity c = ar_identity r))
              then (report_zero, Some (RecoveryOther ErrActionCheckpointIdentityMismatch), w)
              else continueLocked c true w
          end
      end
  end.
Definition recovery_Pending (w : W) : (bool + error) * W :=
  match cs_Load w with
  | (inr e, w) => (inr ("load faketcp action checkpoint status: " +:+ e), w)
  | (inl None, w) => (inl false, w)
  | (inl (Some c), w) =>
      match go_error (validateStoredActionCheckpoint sha256 c) with
      | Some e => (inr e, w)
      | None => (inl true, w)
      end
  end.

(** ** The recoverable controller *)

(** The fields that fence its operations. *)
Record recoverable := mkRecoverable {
  rc_recovery : ActionRecovery; rc_failureErr : option error; rc_recoveryErr : option error
}.
Definition newRecoverableController (identity : RuntimeIdentity) (backend store : bool) (w : W) : (recoverable + error) * W :=
  if negb backend then (inr "faketcp controller backend is nil", w)
  else match NewActionRecovery identity backend store w with
  | (inr e, w) => (inr e, w)
  | (inl r, w) =>
      match recovery_Pending w with
      | (inr e, w) => (inr e, w)
      | (inl pending, w) => (inl (mkRecoverable r None (if pending then Some ErrActionRecoveryRequired else None)), w)
      end
  end.
Definition beginSerializedOperation (c : recoverable) : option error :=
  match rc_failureErr c with Some e => Some e | None => rc_recoveryErr c end.
Definition markRecoveryRequired (c : recoverable) (cause : option error) : option error * recoverable :=
  let e := match cause, rc_recoveryErr c with
           | None, Some e => e
           | None, None => ErrActionRecoveryRequired
           | Some cause, _ => ErrActionRecoveryRequired +:+ newline +:+ cause
           end in
  (Some e, mkRecoverable (rc_recovery c) (rc_failureErr c) (Some e)).
Definition clearRecoveryRequired (c : recoverable) : recoverable := mkRecoverable (rc_recovery c) (rc_failureErr c) None.
Definition mark_failed (c : recoverable) (cause : error) : option error * recoverable :=
  let e := match rc_failureErr c with Some e => e | None => ErrControllerFailed +:+ ": " +:+ cause end in
  (Some e, mkRecoverable (rc_recovery c) (Some e) (rc_recoveryErr c)).
Definition handleActionExecutionError (c : recoverable) (cause : recovery_error) : option error * recoverable :=
  match cause with
  | RecoveryRequired e => markRecoveryRequired c (Some e)
  | RecoveryOther e => mark_failed c e
  end.
(** The effects of an admitted operation. *)
Definition execute_journaled (c : recoverable) (actions : list Action) (w : W) : option error * recoverable * W :=
  match beginSerializedOperation c with
  | Some e => (Some e, c, w)
  | None =>
      let '(err, r, w) := recovery_Execute (rc_recovery c) true actions w in
      let c := mkRecoverable r (rc_failureErr c) (rc_recoveryErr c) in
      match err with
      | None => (None, c, w)
      | Some cause => (handleActionExecutionError c cause, w)
      end
  end.
Definition controller_Recover (c : recoverable) (ctx : bool) (w : W) : RecoveryReport * option error * recoverable * W :=
  match rc_failureErr c with
  | Some e => (report_zero, Some e, c, w)
  | None =>
      if negb ctx then (report_zero, Some errControllerContextNil, c, w)
      else
        let '(report, recoveryErr, w) := recovery_Recover (rc_recovery c) ctx w in
        let recoveryErr := recovery_message <$> recoveryErr in
        match recovery_Pending w with
        | (inr e, w) =>
            let '(e, c) := markRecoveryRequired c (errors_Join recoveryErr (Some e)) in (report, e, c, w)
        | (inl true, w) => let '(e, c) := markRecoveryRequired c recoveryErr in (report, e, c, w)
        | (inl false, w) => (report, recoveryErr, clearRecoveryRequired c, w)
        end
  end.
End recovery.
