(* ===== verification/ActionRecoveryProps.v ===== *)
(** * Effects through failures, crashes and recoveries

    The journal of ActionRecovery: over any run of a recoverable controller,
    restarts included, every control segment of an accepted batch is sent, and no
    packet is reinjected twice. *)
From Stdlib Require Import ZArith Lia.
From stdpp Require Import base option list gmap strings numbers.
From S2P Require Import Prelude Abi Checksum L3Parser Runtime ControlPacket BpfSession Engine Router Events Controller ErrorState ActionRecovery.

(** ** What the journal promises *)

Inductive effect :=
  | Sent (flow : FakeTCPSessionKey) (wgID : Z) (control : ControlPacket)
  | Reinjected (flow : FakeTCPSessionKey) (packet : PendingPacket).
Definition effect_of (step : ActionStep) : effect :=
  if as_Kind step =? ActionStepReinject then Reinjected (as_Flow step) (as_Packet step)
  else Sent (as_Flow step) (as_WGID step) (as_Control step).

(** A call of the backend with what it answered. *)
Abbreviation attempt := (effect * option error)%type.
Definition attempts (step : ActionStep) (answers : list (option error)) : list attempt :=
  map (pair (effect_of step)) answers.
(** Every step carried out by one call that succeeded. *)
Definition performed (steps : list ActionStep) : list attempt := map (fun step => (effect_of step, None)) steps.

(** A step can be left behind when its attempts were answered so: a packet was
    tried at most once, and a control segment until the backend took it. *)
Definition settled (step : ActionStep) (answers : list (option error)) : Prop :=
  if as_Kind step =? ActionStepReinject then (length answers <= 1)%nat
  else exists before, answers = before ++ [None].
(** The attempts that finish the steps, in their order. *)
Inductive delivered : list ActionStep -> list attempt -> Prop :=
  | delivered_nil : delivered [] []
  | delivered_cons step answers steps t : settled step answers -> delivered steps t ->
      delivered (step :: steps) (attempts step answers ++ t).
(** The attempts made when a checkpoint stands at a step. *)
Definition progress (c : ActionCheckpoint) (t : list attempt) : Prop :=
  exists pre answers, delivered (take (Z.to_nat (ak_NextStep c)) (ak_Steps c)) pre /\
    match ak_Steps c !! Z.to_nat (ak_NextStep c) with
    | None => t = pre
    | Some step => t = pre ++ attempts step answers /\
        (as_Kind step = ActionStepReinject ->
         (length answers <= (if (ak_Phase c =? ActionCheckpointAttempting)%Z then 1 else 0))%nat)
    end.
Definition placed (c : ActionCheckpoint) : Prop :=
  validateActionCheckpointPosition (ak_Phase c) (ak_NextStep c) (len (ak_Steps c)) = Ret tt.

(** The world: what the store holds durably, and the attempts made.  A failed
    write may have happened or not, unless it reports a conflict; a crash is a
    call after which every other call fails until the next start. *)
Class JournalLaws (W : Type) `{ControllerBackend W} `{ActionCheckpointStore W} := {
  jl_stored : W -> option ActionCheckpoint;
  jl_effects : W -> list attempt;
  jl_load w : jl_stored (cs_Load w).2 = jl_stored w /\ jl_effects (cs_Load w).2 = jl_effects w /\
    forall c, (cs_Load w).1 = inl c -> c = jl_stored w;
  jl_create c w : let '(r, w') := cs_Create c w in jl_effects w' = jl_effects w /\
    let wrote := fun c' => jl_stored w = None /\ jl_stored w' = Some c' /\ exists v, v <> 0 /\ c' = set_revision v c in
    match r with
    | inl c' => wrote c'
    | inr SeConflict => jl_stored w' = jl_stored w
    | inr (SeOther _) => jl_stored w' = jl_stored w \/ exists c', wrote c'
    end;
  jl_update c w : cs_Transition = None -> let '(r, w') := cs_Update (ak_Revision c) c w in jl_effects w' = jl_effects w /\
    let wrote := fun c' => (exists old, jl_stored w = Some old /\ ak_Revision old = ak_Revision c) /\
                           jl_stored w' = Some c' /\ exists v, v <> 0 /\ c' = set_revision v c in
    match r with
    | inl c' => wrote c'
    | inr SeConflict => jl_stored w' = jl_stored w
    | inr (SeOther _) => jl_stored w' = jl_stored w \/ exists c', wrote c'
    end;
  jl_transition tr revision phase next w : cs_Transition = Some tr ->
    let '(r, w') := tr revision phase next w in jl_effects w' = jl_effects w /\
    let wrote := fun v => v <> 0 /\ exists old, jl_stored w = Some old /\ ak_Revision old = revision /\
                          jl_stored w' = Some (set_revision v (set_position phase next old)) in
    match r with
    | inl v => wrote v
    | inr SeConflict => jl_stored w' = jl_stored w
    | inr (SeOther _) => jl_stored w' = jl_stored w \/ exists v, wrote v
    end;
  jl_delete revision w : let '(r, w') := cs_Delete revision w in jl_effects w' = jl_effects w /\
    let removed := jl_stored w' = None /\ exists old, jl_stored w = Some old /\ ak_Revision old = revision in
    match r with
    | None => removed
    | Some SeConflict => jl_stored w' = jl_stored w
    | Some (SeOther _) => jl_stored w' = jl_stored w \/ removed
    end;
  jl_ctx w : jl_stored (ctx_Err w).2 = jl_stored w /\ jl_effects (ctx_Err w).2 = jl_effects w;
  jl_send flow wgID control w : jl_stored (be_SendControl flow wgID control w).2 = jl_stored w /\
    jl_effects (be_SendControl flow wgID control w).2 = jl_effects w ++ [(Sent flow wgID control, (be_SendControl flow wgID control w).1)];
  jl_reinject flow packet w : jl_stored (be_Reinject flow packet w).2 = jl_stored w /\
    jl_effects (be_Reinject flow packet w).2 = jl_effects w ++ [(Reinjected flow packet, (be_Reinject flow packet w).1)]
}.

(** ** Progress *)

Lemma attempts_snoc step answers a : attempts step (answers ++ [a]) = attempts step answers ++ [(effect_of step, a)].
Proof. apply map_app. Qed.
Lemma delivered_snoc steps t step answers : delivered steps t -> settled step answers ->
  delivered (steps ++ [step]) (t ++ attempts step answers).
Proof.
  intros Hd Hn. induction Hd as [|s k steps t Hs Hd IH]; cbn.
  - rewrite <- (app_nil_r (attempts _ _)). by repeat constructor.
  - rewrite <- app_assoc. by constructor.
Qed.

Lemma placed_iff c : placed c <->
  0 <= ak_NextStep c <= len (ak_Steps c) /\
  (ak_Phase c = ActionCheckpointPrepared \/ ak_Phase c = ActionCheckpointAttempting /\ ak_NextStep c < len (ak_Steps c)).
Proof.
  unfold placed, validateActionCheckpointPosition, ActionCheckpointPrepared, ActionCheckpointAttempting.
  destruct (Z.ltb_spec (ak_NextStep c) 0), (Z.ltb_spec (len (ak_Steps c)) (ak_NextStep c)),
    (Z.eqb_spec (ak_Phase c) 1), (Z.eqb_spec (ak_Phase c) 2), (Z.eqb_spec (ak_NextStep c) (len (ak_Steps c)));
    cbn; split; try done; try lia; intros; first [lia | done].
Qed.

Lemma step_at c : 0 <= ak_NextStep c < len (ak_Steps c) -> exists step, ak_Steps c !! Z.to_nat (ak_NextStep c) = Some step.
Proof. intros Hn. apply lookup_lt_is_Some. unfold len in *. lia. Qed.

Lemma progress_start v o i steps : progress (mkCheckpoint v o i ActionCheckpointPrepared 0 steps) [].
Proof. exists [], []. split; [constructor|]. cbn. by destruct steps. Qed.
Lemma progress_revision v c t : progress (set_revision v c) t <-> progress c t.
Proof. done. Qed.

(** The attempt is recorded before it is made. *)
Lemma progress_attempting c t : ak_Phase c = ActionCheckpointPrepared ->
  progress c t -> progress (set_position ActionCheckpointAttempting (ak_NextStep c) c) t.
Proof.
  intros Hp (pre & n & Hd & Ht). exists pre, n. split; [done|]. cbn. destruct (ak_Steps c !! _); [|done].
  destruct Ht as [-> Hn]. split; [done|]. rewrite Hp in Hn. cbn in Hn. intros Hk. specialize (Hn Hk). lia.
Qed.
(** Making the attempt, which was recorded when no other was outstanding. *)
Lemma progress_attempt c t step a : ak_Steps c !! Z.to_nat (ak_NextStep c) = Some step ->
  progress (set_position ActionCheckpointPrepared (ak_NextStep c) c) t ->
  progress (set_position ActionCheckpointAttempting (ak_NextStep c) c) (t ++ [(effect_of step, a)]).
Proof.
  intros Hs (pre & n & Hd & Ht). exists pre, (n ++ [a]). split; [done|]. cbn [set_position ak_Steps ak_NextStep] in *. rewrite Hs in *.
  destruct Ht as [-> Hn]. split; [by rewrite attempts_snoc, app_assoc|]. intros Hk. specialize (Hn Hk). rewrite length_app. cbn in *. lia.
Qed.
Lemma progress_step c t step n : 0 <= ak_NextStep c -> ak_Steps c !! Z.to_nat (ak_NextStep c) = Some step ->
  delivered (take (Z.to_nat (ak_NextStep c)) (ak_Steps c)) t -> settled step n ->
  progress (set_position ActionCheckpointPrepared (ak_NextStep c + 1) c) (t ++ attempts step n).
Proof.
  intros H0 Hs Hd Hn. exists (t ++ attempts step n), []. cbn.
  replace (Z.to_nat (ak_NextStep c + 1)) with (S (Z.to_nat (ak_NextStep c))) by lia. split.
  - rewrite (take_S_r _ _ _ Hs). by apply delivered_snoc.
  - case_match; [|done]. rewrite app_nil_r. split; [done|]. lia.
Qed.
(** After an attempt that succeeded the step can be left behind. *)
Lemma progress_done c t step : 0 <= ak_NextStep c -> ak_Steps c !! Z.to_nat (ak_NextStep c) = Some step ->
  progress (set_position ActionCheckpointPrepared (ak_NextStep c) c) t ->
  progress (set_position ActionCheckpointPrepared (ak_NextStep c + 1) c) (t ++ [(effect_of step, None)]).
Proof.
  intros H0 Hs (pre & n & Hd & Ht). cbn in *. rewrite Hs in Ht. destruct Ht as [-> Hn].
  rewrite <- app_assoc, <- attempts_snoc. apply progress_step; [done..|]. unfold settled.
  destruct (Z.eqb_spec (as_Kind step) ActionStepReinject) as [E|E]; [|by exists n].
  specialize (Hn E). rewrite length_app. cbn. lia.
Qed.
(** An ambiguous reinjection is left behind, whether it was made or not. *)
Lemma progress_skip c t step : 0 <= ak_NextStep c -> ak_Steps c !! Z.to_nat (ak_NextStep c) = Some step ->
  as_Kind step = ActionStepReinject -> progress c t ->
  progress (set_position ActionCheckpointPrepared (ak_NextStep c + 1) c) t.
Proof.
  intros H0 Hs Hk (pre & n & Hd & Ht). rewrite Hs in Ht. destruct Ht as [-> Hn]. specialize (Hn Hk).
  apply progress_step; [done..|]. unfold settled. rewrite Hk. cbn. destruct (_ =? _); lia.
Qed.
(** An ambiguous control is tried again. *)
Lemma progress_replay c t step : ak_Steps c !! Z.to_nat (ak_NextStep c) = Some step ->
  as_Kind step <> ActionStepReinject -> progress c t -> progress (set_position ActionCheckpointPrepared (ak_NextStep c) c) t.
Proof.
  intros Hs Hk (pre & n & Hd & Ht). exists pre, n. split; [done|]. cbn. rewrite Hs in *. by destruct Ht.
Qed.
Lemma progress_end c t : len (ak_Steps c) <= ak_NextStep c -> progress c t -> delivered (ak_Steps c) t.
Proof.
  intros Hn (pre & n & Hd & Ht). rewrite lookup_ge_None_2 in Ht by (unfold len in *; lia). subst.
  by rewrite take_ge in Hd by (unfold len in *; lia).
Qed.

(** ** The loop *)

Section laws.
Context {W : Type} `{JournalLaws W}.
Implicit Types (w : W) (x : journal_run (W := W)).

Definition holds (base : list attempt) (c : ActionCheckpoint) w : Prop :=
  jl_stored w = Some c /\ placed c /\ exists t, jl_effects w = base ++ t /\ progress c t.
(** A batch accepted when the attempts were [base]: still on record, or finished. *)
Definition batch_left (base : list attempt) (steps : list ActionStep) w : Prop :=
  (exists c, ak_Steps c = steps /\ holds base c w) \/
  (jl_stored w = None /\ exists t, jl_effects w = base ++ t /\ delivered steps t).

Lemma holds_left base c w : holds base c w -> batch_left base (ak_Steps c) w.
Proof. intros Hh. left. by exists c. Qed.
Lemma holds_same base c w w' : jl_stored w' = jl_stored w -> jl_effects w' = jl_effects w -> holds base c w -> holds base c w'.
Proof. unfold holds. intros -> ->. done. Qed.

Lemma swp_on_run {A} (m : SM W A) (Q : A -> journal_run -> Prop) (E : journal_run -> Prop) x :
  swp m (fun a w => Q a (mkRun w (jr_report x))) (fun w => E (mkRun w (jr_report x))) (jr_world x) -> swp (on_run m) Q E x.
Proof. unfold swp, on_run. destruct (m (jr_world x)) as [[a|e] w]; done. Qed.

(** A recorded step changes only the position, and may be recorded by a call that fails. *)
Lemma update_wp base t c phase next w : jl_stored w = Some c -> placed c -> jl_effects w = base ++ t -> progress c t ->
  placed (set_position phase next c) -> progress (set_position phase next c) t ->
  swp (updateCheckpoint (set_position phase next c))
    (fun c' w' => exists v, v <> 0 /\ c' = set_revision v (set_position phase next c) /\ jl_stored w' = Some c' /\
       jl_effects w' = jl_effects w)
    (batch_left base (ak_Steps c)) w.
Proof.
  intros Hs Hpl He Hpt Hp Ht. assert (holds base c w) as Hh by (split; [done|]; split; [done|]; by exists t).
  assert (forall v w', v <> 0 -> jl_effects w' = jl_effects w -> jl_stored w' = Some (set_revision v (set_position phase next c)) ->
    batch_left base (ak_Steps c) w') as Hw.
  { intros v w' _ He' Hs'. left. exists (set_revision v (set_position phase next c)). split; [done|]. split; [done|].
    split; [done|]. exists t. split; [congruence|done]. }
  assert (forall w', jl_stored w' = jl_stored w -> jl_effects w' = jl_effects w -> batch_left base (ak_Steps c) w') as Hsame.
  { intros w' E1 E2. by eapply holds_left, holds_same. }
  unfold swp, updateCheckpoint. destruct cs_Transition as [tr|] eqn:Etr.
  - pose proof (jl_transition tr (ak_Revision c) phase next w Etr) as Hl. cbn [set_position ak_Revision ak_Phase ak_NextStep] in *.
    destruct (tr _ _ _ w) as [[v|[|e]] w']; cbn in Hl; destruct Hl as [He' Hl].
    + destruct Hl as (Hv & old & Ho & _ & Hs'). rewrite Hs in Ho. injection Ho as <-. by exists v.
    + by apply Hsame.
    + destruct Hl as [Hl|(v & Hv & old & Ho & _ & Hs')]; [by apply Hsame|]. rewrite Hs in Ho. injection Ho as <-. by eapply Hw.
  - pose proof (jl_update (set_position phase next c) w Etr) as Hl. cbn [set_position ak_Revision] in *.
    destruct (cs_Update _ _ w) as [[c'|[|e]] w']; destruct Hl as [He' Hl].
    + destruct Hl as (_ & Hs' & v & Hv & ->). by exists v.
    + by apply Hsame.
    + destruct Hl as [Hl|(c' & _ & Hs' & v & Hv & ->)]; [by apply Hsame|]. by eapply Hw.
Qed.

Lemma execute_wp step w : swp (executeActionStep step)
  (fun _ w' => jl_stored w' = jl_stored w /\ jl_effects w' = jl_effects w ++ [(effect_of step, None)])
  (fun w' => jl_stored w' = jl_stored w /\
     (jl_effects w' = jl_effects w \/ exists a, jl_effects w' = jl_effects w ++ [(effect_of step, a)])) w.
Proof.
  unfold executeActionStep, effect_of, ActionStepSendControl, ActionStepReinject.
  destruct (Z.eqb_spec (as_Kind step) 1) as [E|E].
  { rewrite E. cbn. destruct (jl_send (as_Flow step) (as_WGID step) (as_Control step) w) as [Hs He].
    apply swp_wrap, swp_call; intros Ha; rewrite He; [by rewrite Ha|eauto]. }
  destruct (Z.eqb_spec (as_Kind step) 2) as [E2|E2]; [|split; auto].
  destruct (jl_reinject (as_Flow step) (as_Packet step) w) as [Hs He].
  apply swp_wrap, swp_call; intros Ha; rewrite He; [by rewrite Ha|eauto].
Qed.

(** A recorded attempt, made, leaves the batch on record. *)
Lemma attempted_left base c v step w w' : holds base c w -> ak_Phase c = ActionCheckpointPrepared ->
  ak_NextStep c < len (ak_Steps c) -> ak_Steps c !! Z.to_nat (ak_NextStep c) = Some step ->
  jl_stored w' = Some (set_revision v (set_position ActionCheckpointAttempting (ak_NextStep c) c)) ->
  jl_effects w' = jl_effects w \/ (exists a, jl_effects w' = jl_effects w ++ [(effect_of step, a)]) ->
  batch_left base (ak_Steps c) w'.
Proof.
  intros (Hs & Hpl & t & He & Hpt) Hph Hlt Hstep Hs' Hw'. left.
  exists (set_revision v (set_position ActionCheckpointAttempting (ak_NextStep c) c)). split; [done|]. split; [done|].
  apply placed_iff in Hpl. split; [apply placed_iff; cbn; intuition lia|].
  destruct Hw' as [Hw'|[a Hw']].
  - exists t. split; [congruence|]. by apply progress_revision, progress_attempting.
  - exists (t ++ [(effect_of step, a)]). split; [by rewrite Hw', He, app_assoc|]. apply progress_revision, progress_attempt; [done|].
    by rewrite <- Hph; destruct c.
Qed.

Lemma run_steps_wp base fuel : forall c x, holds base c (jr_world x) -> ak_Phase c = ActionCheckpointPrepared ->
  swp (run_steps fuel c)
    (fun c' x' => holds base c' (jr_world x') /\ ak_Steps c' = ak_Steps c /\ len (ak_Steps c) <= ak_NextStep c' /\
       jl_effects (jr_world x') = jl_effects (jr_world x) ++ performed (drop (Z.to_nat (ak_NextStep c)) (ak_Steps c)))
    (fun x' => batch_left base (ak_Steps c) (jr_world x')) x.
Proof.
  induction fuel as [|fuel IH]; intros c x Hh Hph; cbn [run_steps]; destruct (Z.ltb_spec (ak_NextStep c) (len (ak_Steps c))) as [Hlt|Hge];
    cbn [negb]; try (by apply holds_left);
    try (split; [done|]; split; [done|]; split; [done|]; rewrite drop_ge by (unfold len in *; lia); by rewrite app_nil_r).
  pose proof Hh as (Hs & Hpl & t & He & Hpt). pose proof (proj1 (placed_iff _) Hpl) as Hpl'.
  destruct (step_at c) as [step Hstep]; [lia|].
  apply swp_bind, swp_on_run. destruct (jl_ctx (jr_world x)) as [Hcs Hce].
  apply swp_call; intros _; [|by eapply holds_left, holds_same]. set (w0 := (ctx_Err (jr_world x)).2) in *.
  apply swp_bind, swp_on_run, swp_wrap. cbn [jr_world jr_report].
  eapply swp_mono; [apply (update_wp base t c ActionCheckpointAttempting (ak_NextStep c)); try congruence; try done|..|done].
  { apply placed_iff. cbn. intuition lia. } { by apply progress_attempting. }
  intros c1 w1 (v & Hv & -> & Hs1 & He1). cbn [set_revision set_position ak_Steps ak_NextStep]. rewrite Hstep.
  set (c1 := set_revision v (set_position ActionCheckpointAttempting (ak_NextStep c) c)) in *. change (mkCheckpoint _ _ _ _ _ _) with c1.
  apply swp_bind, swp_on_run. cbn [jr_world jr_report]. eapply swp_mono; [apply execute_wp|..].
  2: { intros w2 [Hs2 He2]. rewrite He1, Hce in He2. eapply attempted_left; [exact Hh|..]; try done. rewrite Hs2. exact Hs1. }
  intros [] w2 [Hs2 He2]. rewrite He1, Hce in He2. assert (jl_effects w2 = base ++ t ++ [(effect_of step, None)]) as He2' by (by rewrite He2, He, app_assoc).
  assert (progress (set_position ActionCheckpointPrepared (ak_NextStep c) c) t) as Hpt' by (by rewrite <- Hph; destruct c).
  apply swp_bind, swp_on_run, swp_wrap. cbn [jr_world jr_report].
  eapply swp_mono; [apply (update_wp base (t ++ [(effect_of step, None)]) c1 ActionCheckpointPrepared (ak_NextStep c + 1)); try congruence; try done|..|done].
  { apply placed_iff. cbn. intuition lia. } { by apply progress_attempt. } { apply placed_iff. cbn. intuition lia. }
  { apply (progress_done c); [lia|done..]. }
  intros c2 w3 (v2 & Hv2 & -> & Hs3 & He3). apply swp_bind. unfold swp at 1. cbn [count_step].
  eapply swp_mono; [apply IH|..]; cbn [jr_world jr_report].
  - split; [done|]. split; [apply placed_iff; cbn; intuition lia|]. exists (t ++ [(effect_of step, None)]). split; [congruence|].
    apply (progress_done c); [lia|done..].
  - done.
  - intros c3 x3 (Hh3 & Hst & Hn3 & He4). split; [done|]. split; [done|]. split; [done|]. rewrite He4, He3, He2, <- app_assoc. f_equal.
    cbn. replace (Z.to_nat (ak_NextStep c + 1)) with (S (Z.to_nat (ak_NextStep c))) by lia. by rewrite (drop_S _ _ _ Hstep).
  - done.
Qed.

Lemma journal_resume_wp base recovering c x : holds base c (jr_world x) -> ak_Phase c = ActionCheckpointAttempting ->
  swp (resume_attempt recovering c)
    (fun c' x' => holds base c' (jr_world x') /\ ak_Steps c' = ak_Steps c /\ ak_Phase c' = ActionCheckpointPrepared)
    (fun x' => batch_left base (ak_Steps c) (jr_world x')) x.
Proof.
  intros Hh Hph. pose proof Hh as (Hs & Hpl & t & He & Hpt). pose proof (proj1 (placed_iff _) Hpl) as Hpl'.
  unfold resume_attempt. destruct (ak_Steps c !! _) as [step|] eqn:Hstep; [|by apply holds_left].
  assert (ak_NextStep c < len (ak_Steps c)) as Hlt by (apply lookup_lt_Some in Hstep; unfold len; lia).
  apply swp_reject; intros _; [|by apply holds_left].
  assert (forall next (f : RecoveryReport -> RecoveryReport) prefix, 0 <= next <= len (ak_Steps c) ->
    progress (set_position ActionCheckpointPrepared next c) t ->
    swp (try! c := on_run (swrap prefix (updateCheckpoint (set_position ActionCheckpointPrepared next c))) in
         must! count_step f in sret c)
    (fun c' x' => holds base c' (jr_world x') /\ ak_Steps c' = ak_Steps c /\ ak_Phase c' = ActionCheckpointPrepared)
    (fun x' => batch_left base (ak_Steps c) (jr_world x')) x) as Hup.
  { intros next f prefix Hn Hp. assert (placed (set_position ActionCheckpointPrepared next c)) as Hpl2 by (apply placed_iff; cbn; intuition lia).
    apply swp_bind, swp_on_run, swp_wrap. eapply swp_mono; [by apply (update_wp base t c)|..|done].
    intros c' w' (v & Hv & -> & Hs' & He'). apply swp_bind. split; [|done]. split; [done|]. split; [done|]. exists t. split; [|done].
    cbn. congruence. }
  destruct (Z.eqb_spec (as_Kind step) ActionStepReinject) as [E|E]; apply Hup; try lia.
  - eapply progress_skip; [lia|done..].
  - by eapply progress_replay.
Qed.

Lemma journal_delete_wp base c w : holds base c w -> len (ak_Steps c) <= ak_NextStep c ->
  swp (delete_checkpoint (ak_Revision c))
    (fun _ w' => jl_stored w' = None /\ jl_effects w' = jl_effects w /\ exists t, jl_effects w' = base ++ t /\ delivered (ak_Steps c) t)
    (batch_left base (ak_Steps c)) w.
Proof.
  intros Hh Hn. pose proof Hh as (Hs & _ & t & He & Hp). apply progress_end in Hp; [|done].
  unfold swp, delete_checkpoint. pose proof (jl_delete (ak_Revision c) w) as Hl.
  destruct (cs_Delete (ak_Revision c) w) as [[[|e]|] w']; cbn in Hl; destruct Hl as [He' Hl].
  - by eapply holds_left, holds_same.
  - destruct Hl as [Hl|[Hl _]]; [by eapply holds_left, holds_same|]. right. split; [done|]. exists t. split; [congruence|done].
  - destruct Hl as [Hl _]. split; [done|]. split; [done|]. exists t. split; [congruence|done].
Qed.

Lemma loop_wp base c recovering x : holds base c (jr_world x) ->
  swp (journal_loop c recovering)
    (fun _ x' => jl_stored (jr_world x') = None /\ (exists t, jl_effects (jr_world x') = base ++ t /\ delivered (ak_Steps c) t) /\
       (ak_Phase c = ActionCheckpointPrepared ->
        jl_effects (jr_world x') = jl_effects (jr_world x) ++ performed (drop (Z.to_nat (ak_NextStep c)) (ak_Steps c))))
    (fun x' => batch_left base (ak_Steps c) (jr_world x')) x.
Proof.
  intros Hh. unfold journal_loop. apply swp_bind.
  assert (swp (if ak_Phase c =? ActionCheckpointAttempting then resume_attempt recovering c else sret c)
    (fun c' x' => holds base c' (jr_world x') /\ ak_Steps c' = ak_Steps c /\ ak_Phase c' = ActionCheckpointPrepared /\
       (ak_Phase c = ActionCheckpointPrepared -> c' = c /\ x' = x))
    (fun x' => batch_left base (ak_Steps c) (jr_world x')) x) as Hr.
  { destruct (Z.eqb_spec (ak_Phase c) ActionCheckpointAttempting) as [E|E].
    - eapply swp_mono; [by apply journal_resume_wp| |done]. intros c' x' (A & B & C). split; [done|]. split; [done|]. split; [done|].
      rewrite E. done.
    - split; [done|]. split; [done|]. destruct Hh as (_ & Hpl & _). apply placed_iff in Hpl. split; [|done]. by destruct Hpl as [_ [?|[? _]]]. }
  eapply swp_mono; [exact Hr|..|done]. intros c1 x1 (Hh1 & Hst1 & Hph1 & Hsame). apply swp_bind.
  eapply swp_mono; [by apply run_steps_wp|..]; [|intros x2; by rewrite Hst1]. intros c2 x2 (Hh2 & Hst2 & Hn2 & He2).
  apply swp_on_run. eapply swp_mono; [apply (journal_delete_wp base c2); [done|congruence]|..]; [|intros w3; cbn; congruence].
  intros [] w3 (Hs3 & He3 & t & Ht & Hd). cbn. split; [done|]. split; [exists t; split; [done|congruence]|].
  intros Hp. destruct (Hsame Hp) as [-> ->]. congruence.
Qed.

(** ** Operations *)

Definition untouched w w' : Prop := jl_stored w' = jl_stored w /\ jl_effects w' = jl_effects w.
Lemma ctx_untouched w : untouched w (ctx_Err w).2.
Proof. apply jl_ctx. Qed.
Lemma load_untouched w : untouched w (cs_Load w).2.
Proof. destruct (jl_load w) as (A & B & _). done. Qed.
Lemma load_is w c w' : cs_Load w = (inl c, w') -> c = jl_stored w /\ untouched w w'.
Proof. intros E. destruct (jl_load w) as (A & B & C). rewrite E in *. split; [by apply C|done]. Qed.
Lemma untouched_trans w1 w2 w3 : untouched w1 w2 -> untouched w2 w3 -> untouched w1 w3.
Proof. unfold untouched. intros [-> ->]. auto. Qed.

Lemma continue_spec base c recovering w : holds base c w ->
  let '(_, err, w') := continueLocked c recovering w in
  batch_left base (ak_Steps c) w' /\
  (err = None -> jl_stored w' = None /\ (ak_Phase c = ActionCheckpointPrepared ->
     jl_effects w' = jl_effects w ++ performed (drop (Z.to_nat (ak_NextStep c)) (ak_Steps c)))).
Proof.
  intros Hh. unfold continueLocked. pose proof (loop_wp base c recovering (mkRun w report_zero) Hh) as Hl. unfold swp in Hl.
  destruct (journal_loop c recovering (mkRun w report_zero)) as [[[]|e] x].
  - destruct Hl as (Hs & Ht & He). split; [by right|]. intros _. split; [done|]. intros Hp. apply He. done.
  - done.
Qed.

Context (sha256 : list Z -> list Z).

(** An execution accepts its batch or changes nothing, and reports success only
    when every effect was performed once. *)
Lemma journal_execute_spec r ctx actions w : let '(err, _, w') := recovery_Execute sha256 r ctx actions w in
  (untouched w w' \/ exists steps, actionSteps sha256 actions = Ret steps /\ steps <> [] /\ jl_stored w = None /\
     batch_left (jl_effects w) steps w') /\
  (err = None -> exists steps, actionSteps sha256 actions = Ret steps /\ jl_effects w' = jl_effects w ++ performed steps /\
     (steps <> [] -> jl_stored w' = None) /\ (jl_stored w = None -> jl_stored w' = None)).
Proof.
  unfold recovery_Execute. destruct ctx; cbn [negb]; [|by split; [left|]].
  destruct (actionSteps sha256 actions) as [[|s steps]|e|] eqn:Es; try (by split; [left|]).
  { split; [by left|]. intros _. exists []. split; [done|]. cbn. by rewrite app_nil_r. }
  destruct (ctx_Err w) as [[e|] w1] eqn:E1; pose proof (ctx_untouched w) as Hu1; rewrite E1 in Hu1; cbn in Hu1; [by split; [left|]|].
  destruct (cs_Load w1) as [[[c|]|e] w2] eqn:E2.
  1,3: pose proof (load_untouched w1) as Hu2; rewrite E2 in Hu2; cbn in Hu2; split; [left; by eapply untouched_trans|done].
  apply load_is in E2 as [Hnone Hu2]. pose proof (untouched_trans _ _ _ Hu1 Hu2) as Hu12.
  destruct (ar_nextOperation r =? 0); [by split; [left|]|].
  set (c0 := mkCheckpoint _ _ _ _ _ _). pose proof (jl_create c0 w2) as Hl.
  assert (forall w', jl_stored w' = jl_stored w2 -> jl_effects w' = jl_effects w2 -> untouched w w') as Hsame.
  { intros w' A B. by eapply untouched_trans; [exact Hu12|]. }
  assert (forall v w', v <> 0 -> jl_stored w' = Some (set_revision v c0) -> jl_effects w' = jl_effects w2 -> holds (jl_effects w) (set_revision v c0) w') as Hput.
  { intros v w' _ A B. split; [done|]. split; [apply placed_iff; cbn; split; [unfold len; cbn; lia|by left]|]. exists []. split; [|apply progress_start].
    rewrite app_nil_r, B. apply Hu12. }
  destruct (cs_Create c0 w2) as [[c|[|e]] w3]; destruct Hl as [He Hl].
  - destruct Hl as (_ & Hs & v & Hv & ->). pose proof (continue_spec (jl_effects w) (set_revision v c0) false w3 (Hput v w3 Hv Hs He)) as Hc.
    destruct (continueLocked (set_revision v c0) false w3) as [[report err] w4]. destruct Hc as [Hb Hok]. split.
    + right. exists (s :: steps). split; [done|]. split; [done|]. split; [|done]. destruct Hu1 as [<- _]. done.
    + intros Herr. exists (s :: steps). split; [done|]. destruct (Hok Herr) as [Hn Heff]. split; [|done]. rewrite (Heff eq_refl), He.
      destruct Hu12 as [_ ->]. done.
  - split; [left; by apply Hsame|done].
  - split; [|done]. destruct Hl as [Hl|(c & _ & Hs & v & Hv & ->)]; [left; by apply Hsame|]. right. exists (s :: steps).
    split; [done|]. split; [done|]. split; [destruct Hu1 as [<- _]; done|]. by apply (holds_left _ (set_revision v c0)), Hput.
Qed.

Lemma recover_spec r ctx w : let '(_, _, w') := recovery_Recover sha256 r ctx w in
  untouched w w' \/ exists c, jl_stored w = Some c /\ forall base, holds base c w -> batch_left base (ak_Steps c) w'.
Proof.
  unfold recovery_Recover. destruct ctx; cbn [negb]; [|by left].
  destruct (ctx_Err w) as [[e|] w1] eqn:E1; pose proof (ctx_untouched w) as Hu1; rewrite E1 in Hu1; cbn in Hu1; [by left|].
  destruct (cs_Load w1) as [[[c|]|e] w2] eqn:E2.
  2,3: pose proof (load_untouched w1) as Hu2; rewrite E2 in Hu2; cbn in Hu2; left; by eapply untouched_trans.
  apply load_is in E2 as [Hc Hu2]. pose proof (untouched_trans _ _ _ Hu1 Hu2) as Hu12.
  destruct (go_error _); [by left|]. destruct (negb _); [by left|].
  destruct (continueLocked c true w2) as [[report err] w3] eqn:E3. right. exists c. split; [destruct Hu1 as [<- _]; done|].
  intros base Hh. pose proof (continue_spec base c true w2) as Hs. rewrite E3 in Hs. apply Hs. destruct Hu12. by eapply holds_same.
Qed.

Lemma pending_spec w : let '(r, w') := recovery_Pending sha256 w in
  untouched w w' /\ (r = inl false -> jl_stored w' = None).
Proof.
  unfold recovery_Pending. destruct (cs_Load w) as [[[c|]|e] w1] eqn:E.
  - apply load_is in E as [Hc Hu1]. by destruct (go_error _).
  - apply load_is in E as [Hc Hu1]. split; [done|]. intros _. destruct Hu1 as [-> _]. done.
  - pose proof (load_untouched w) as Hu1. rewrite E in Hu1. done.
Qed.
Lemma new_recovery_untouched identity backend store w : untouched w (NewActionRecovery sha256 identity backend store w).2.
Proof.
  unfold NewActionRecovery. destruct (go_error _); [done|]. destruct backend; [|done]. destruct store; [|done]. cbn [negb].
  pose proof (load_untouched w) as Hl. destruct (cs_Load w) as [[[c|]|e] w1]; [by destruct (go_error _)|done..].
Qed.

(** ** Runs *)

(** A run: effects of admitted operations, recoveries, and new starts of the
    controller over the same store. *)
Inductive journal_op := JExecute (actions : list Action) | JRecover | JStart (id : RuntimeIdentity).
Definition journal_step (s : option recoverable * W) (op : journal_op) : option recoverable * W :=
  let '(life, w) := s in
  match op with
  | JStart id =>
      match newRecoverableController sha256 id true true w with
      | (inl c, w) => (Some c, w)
      | (inr _, w) => (None, w)
      end
  | JExecute actions =>
      match life with
      | None => (None, w)
      | Some c => let '(_, c, w) := execute_journaled sha256 c actions w in (Some c, w)
      end
  | JRecover =>
      match life with
      | None => (None, w)
      | Some c => let '(_, _, c, w) := controller_Recover sha256 c true w in (Some c, w)
      end
  end.
Definition journal_runs : option recoverable * W -> list journal_op -> option recoverable * W := foldl journal_step.
(** The batches asked for. *)
Definition requested : list journal_op -> list (list ActionStep) := omap (fun op =>
  match op with
  | JExecute actions => match actionSteps sha256 actions with Ret steps => Some steps | _ => None end
  | _ => None
  end).

(** The accepted batches: all finished, but the one on record. *)
Definition history (base : list attempt) (accepted : list (list ActionStep)) w : Prop :=
  exists finished segments, Forall2 delivered finished segments /\
    match jl_stored w with
    | None => accepted = finished /\ jl_effects w = base ++ concat segments
    | Some c => accepted = finished ++ [ak_Steps c] /\ holds (base ++ concat segments) c w
    end.
Definition fenced (life : option recoverable) w : Prop := forall c, life = Some c ->
  rc_failureErr c = None -> rc_recoveryErr c = None -> jl_stored w = None.

Lemma history_same base accepted w w' : untouched w w' -> history base accepted w -> history base accepted w'.
Proof.
  intros [A B] (fin & segs & Hf & Hm). exists fin, segs. split; [done|]. rewrite A. destruct (jl_stored w) as [c|] eqn:Es.
  - destruct Hm as [-> Hh]. split; [done|]. eapply (holds_same _ _ w); [congruence|done..].
  - by rewrite B.
Qed.
Lemma history_left base accepted fin segs steps w : Forall2 delivered fin segs -> accepted = fin ++ [steps] ->
  batch_left (base ++ concat segs) steps w -> history base accepted w.
Proof.
  intros Hf -> [(c & <- & Hh)|(Hn & t & He & Hd)].
  - exists fin, segs. split; [done|]. pose proof Hh as (-> & _). done.
  - exists (fin ++ [steps]), (segs ++ [t]). split; [by apply Forall2_app; [|constructor]|]. rewrite Hn. split; [done|].
    rewrite He, concat_app. cbn. by rewrite app_nil_r, app_assoc.
Qed.
Lemma history_accept base accepted steps w w' : history base accepted w -> jl_stored w = None ->
  batch_left (jl_effects w) steps w' -> history base (accepted ++ [steps]) w'.
Proof.
  intros (fin & segs & Hf & Hm) Hn Hb. rewrite Hn in Hm. destruct Hm as [-> He]. rewrite He in Hb. by eapply history_left.
Qed.
Lemma history_recover base accepted c w w' : history base accepted w -> jl_stored w = Some c ->
  (forall b, holds b c w -> batch_left b (ak_Steps c) w') -> history base accepted w'.
Proof.
  intros (fin & segs & Hf & Hm) Hs Hb. rewrite Hs in Hm. destruct Hm as [-> Hh]. eapply history_left; [done..|]. by apply Hb.
Qed.

Lemma start_step base accepted id w : history base accepted w ->
  let '(r, w') := newRecoverableController sha256 id true true w in
  history base accepted w' /\ forall c, r = inl c -> rc_recoveryErr c = None -> jl_stored w' = None.
Proof.
  intros Hh. unfold newRecoverableController. cbn [negb]. pose proof (new_recovery_untouched id true true w) as Hu1.
  destruct (NewActionRecovery sha256 id true true w) as [[r|e] w1]; cbn in Hu1; [|split; [by eapply history_same|done]].
  pose proof (pending_spec w1) as Hp. destruct (recovery_Pending sha256 w1) as [[pending|e] w2]; destruct Hp as [Hu2 Hn].
  - split; [by eapply history_same, history_same|]. intros c [= <-]. cbn. destruct pending; [done|]. intros _. by apply Hn.
  - split; [by eapply history_same, history_same|done].
Qed.

Lemma execute_step base accepted c actions w : history base accepted w -> fenced (Some c) w ->
  let '(_, c', w') := execute_journaled sha256 c actions w in
  (exists new, new `sublist_of` requested [JExecute actions] /\ history base (accepted ++ new) w') /\ fenced (Some c') w'.
Proof.
  intros Hh Hf. unfold execute_journaled, beginSerializedOperation.
  assert (exists new, new `sublist_of` requested [JExecute actions] /\ history base (accepted ++ new) w) as Hsame.
  { exists []. split; [apply sublist_nil_l|by rewrite app_nil_r]. }
  destruct (rc_failureErr c) eqn:Ef; [done|]. destruct (rc_recoveryErr c) eqn:Er; [done|].
  pose proof (Hf c eq_refl Ef Er) as Hn. pose proof (journal_execute_spec (rc_recovery c) true actions w) as Hs.
  destruct (recovery_Execute sha256 (rc_recovery c) true actions w) as [[err r] w']. destruct Hs as [Hb Hok].
  assert (exists new, new `sublist_of` requested [JExecute actions] /\ history base (accepted ++ new) w') as Hnew.
  { destruct Hb as [Hu|(steps & Es & _ & _ & Hb)].
    - exists []. split; [apply sublist_nil_l|]. rewrite app_nil_r. by eapply history_same.
    - exists [steps]. split; [cbn; by rewrite Es|]. by eapply history_accept. }
  destruct err as [[e|e]|]; cbn.
  - split; [done|]. intros c' [= <-]. done.
  - split; [done|]. intros c' [= <-]. done.
  - split; [done|]. intros c' _ _ _. destruct (Hok eq_refl) as (_ & _ & _ & _ & Hn'). by apply Hn'.
Qed.

Lemma recover_step base accepted c w : history base accepted w -> fenced (Some c) w ->
  let '(_, _, c', w') := controller_Recover sha256 c true w in history base accepted w' /\ fenced (Some c') w'.
Proof.
  intros Hh Hf. unfold controller_Recover. destruct (rc_failureErr c) eqn:Ef; [done|]. cbn [negb].
  pose proof (recover_spec (rc_recovery c) true w) as Hr. destruct (recovery_Recover sha256 (rc_recovery c) true w) as [[report err] w1].
  assert (history base accepted w1) as Hh1.
  { destruct Hr as [Hu|(k & Hs & Hb)]; [by eapply history_same|by eapply history_recover]. }
  pose proof (pending_spec w1) as Hp. destruct (recovery_Pending sha256 w1) as [[[]|e] w2]; destruct Hp as [Hu2 Hn]; cbn;
    (split; [by eapply history_same|]); intros c' [= <-]; try done. intros _ _. by apply Hn.
Qed.

Lemma step_spec base accepted life op w : history base accepted w -> fenced life w ->
  let '(life', w') := journal_step (life, w) op in
  (exists new, new `sublist_of` requested [op] /\ history base (accepted ++ new) w') /\ fenced life' w'.
Proof.
  intros Hh Hf. assert (history base (accepted ++ []) w) as Hh' by (by rewrite app_nil_r).
  destruct op as [actions| |id]; cbn [journal_step].
  - destruct life as [c|]; [|split; [by exists []; split; [apply sublist_nil_l|]|done]].
    pose proof (execute_step base accepted c actions w Hh Hf) as Hs. by destruct (execute_journaled _ _ _ _) as [[e c'] w'].
  - destruct life as [c|]; [|split; [by exists []|done]]. pose proof (recover_step base accepted c w Hh Hf) as Hs.
    destruct (controller_Recover _ _ _ _) as [[[rep e] c'] w']. destruct Hs as [A B]. split; [|done]. exists []. by rewrite app_nil_r.
  - pose proof (start_step base accepted id w Hh) as Hs. destruct (newRecoverableController _ _ _ _ _) as [[c|e] w']; destruct Hs as [A B];
      (split; [by exists []; split; [|rewrite app_nil_r]|]); intros c' [= <-]. intros _. by apply B.
Qed.

Lemma runs_spec base ops : forall accepted life w, history base accepted w -> fenced life w ->
  let '(life', w') := journal_runs (life, w) ops in
  (exists new, new `sublist_of` requested ops /\ history base (accepted ++ new) w') /\ fenced life' w'.
Proof.
  induction ops as [|op ops IH]; intros accepted life w Hh Hf.
  { split; [|done]. exists []. by rewrite app_nil_r. }
  change (journal_runs (life, w) (op :: ops)) with (journal_runs (journal_step (life, w) op) ops).
  pose proof (step_spec base accepted life op w Hh Hf) as Hs. destruct (journal_step (life, w) op) as [life1 w1].
  destruct Hs as [(new & Hsub & Hh1) Hf1]. pose proof (IH _ _ _ Hh1 Hf1) as Hr.
  destruct (journal_runs (life1, w1) ops) as [life2 w2]. destruct Hr as [(new2 & Hsub2 & Hh2) Hf2]. split; [|done].
  exists (new ++ new2). split; [|by rewrite app_assoc]. change (requested (op :: ops)) with (requested ([op] ++ ops)).
  unfold requested in *. rewrite omap_app. by apply sublist_app.
Qed.
End laws.

(** C29: effects through failures, crashes and recoveries.  Take any run of a
    recoverable controller over a store that was empty: operations, recoveries
    and new starts, with any call of the store, the backend and the context
    failing, also after its effect.  The batches the journal accepted are among
    those asked for, in their order.  Of each accepted batch but the one still on
    record, in the order of the batch, every control segment was tried until the
    backend took it, so that the last try succeeded and no later step was begun
    before, every packet was tried at most once, and nothing else was sent.  Of
    the batch on record the same holds up to its step.  A controller that is not
    fenced has no batch on record, and when it reports success, every effect was
    called exactly once and the backend answered each call without an error. *)
Theorem effects_through_crashes {W} `{JournalLaws W} (sha256 : list Z -> list Z) (ops : list journal_op) (w : W) :
  jl_stored w = None ->
  let '(life, w') := journal_runs sha256 (None, w) ops in
  (exists accepted, accepted `sublist_of` requested sha256 ops /\ history (jl_effects w) accepted w') /\
  (forall c, life = Some c -> beginSerializedOperation c = None -> jl_stored w' = None) /\
  (forall c actions c' w'', life = Some c -> execute_journaled sha256 c actions w' = (None, c', w'') ->
     exists steps, actionSteps sha256 actions = Ret steps /\
       jl_effects w'' = jl_effects w' ++ performed steps /\ jl_stored w'' = None).
Proof.
  intros Hn. assert (history (jl_effects w) [] w) as Hh.
  { exists [], []. split; [done|]. rewrite Hn. cbn. by rewrite app_nil_r. }
  pose proof (runs_spec sha256 (jl_effects w) ops [] None w Hh) as Hr.
  destruct (journal_runs sha256 (None, w) ops) as [life w']. destruct Hr as [Hacc Hf]; [done|]. split; [done|].
  assert (forall c, life = Some c -> beginSerializedOperation c = None -> jl_stored w' = None) as Hf'.
  { intros c Hc. unfold beginSerializedOperation. destruct (rc_failureErr c) eqn:E1; [done|]. intros E2. by apply (Hf c). }
  split; [done|]. intros c actions c' w'' Hc. unfold execute_journaled.
  destruct (beginSerializedOperation c) eqn:Eb; [done|]. pose proof (journal_execute_spec sha256 (rc_recovery c) true actions w') as Hs.
  destruct (recovery_Execute sha256 (rc_recovery c) true actions w') as [[[e|] r] w2]; [by destruct e|]. intros [= _ <-].
  destruct Hs as [_ Hok]. destruct (Hok eq_refl) as (steps & Es & He & _ & Hst). exists steps. split; [done|]. split; [done|].
  by eapply Hst, Hf'.
Qed.

(** ** Recovery ends *)

(** A store that takes [jr_room] more writes, and a backend that sends. *)
Class JournalReliable (sha256 : list Z -> list Z) (W : Type) `{JournalLaws W} := {
  jr_room : W -> Z;
  jr_ctx w : (ctx_Err w).1 = None /\ jr_room (ctx_Err w).2 = jr_room w;
  jr_load w : (cs_Load w).1 = inl (jl_stored w) /\ jr_room (cs_Load w).2 = jr_room w;
  jr_update c old w : cs_Transition = None -> jl_stored w = Some old -> ak_Revision old = ak_Revision c -> ak_Revision c <> 0 ->
    validateActionCheckpoint sha256 c = Ret tt -> 0 < jr_room w ->
    exists c' w', cs_Update (ak_Revision c) c w = (inl c', w') /\ jr_room w' = jr_room w - 1;
  jr_transition tr phase next old w : cs_Transition = Some tr -> jl_stored w = Some old -> ak_Revision old <> 0 ->
    validateActionCheckpointPosition phase next (len (ak_Steps old)) = Ret tt -> 0 < jr_room w ->
    exists v w', tr (ak_Revision old) phase next w = (inl v, w') /\ jr_room w' = jr_room w - 1;
  jr_delete c w : jl_stored w = Some c -> ak_Revision c <> 0 -> exists w', cs_Delete (ak_Revision c) w = (None, w');
  jr_send flow wgID control w : (be_SendControl flow wgID control w).1 = None /\
    jr_room (be_SendControl flow wgID control w).2 = jr_room w;
  jr_reinject flow packet w : (be_Reinject flow packet w).1 = None /\ jr_room (be_Reinject flow packet w).2 = jr_room w
}.

Section valid.
Context (sha256 : list Z -> list Z).

Lemma fail_if_ret {A} (b : bool) e (k : outcome A) a : (fail_if b with e in k) = Ret a <-> b = false /\ k = Ret a.
Proof. destruct b; split; [done|by intros [? _]|done|by intros [_ ?]]. Qed.
Lemma check_ret {A B} (m : outcome A) (k : outcome B) b : (check! m in k) = Ret b <-> (exists a, m = Ret a) /\ k = Ret b.
Proof. destruct m; cbn; split; try done; [by eauto|by intros [_ ?]|by intros [[? ?] _]|by intros [[? ?] _]]. Qed.

Lemma valid_iff c : validateActionCheckpoint sha256 c = Ret tt <->
  ak_Operation c <> 0 /\ len (ak_Steps c) <> 0 /\ placed c /\ is_ret (validateRuntimeIdentity (ak_Identity c)) = true /\
  validate_steps (ak_Identity c) (ak_Steps c) = Ret tt /\ validate_captures sha256 ∅ (ak_Steps c) = Ret tt.
Proof.
  unfold validateActionCheckpoint. rewrite fail_if_ret, check_ret, fail_if_ret, check_ret, orb_false_iff, !Z.eqb_neq, negb_false_iff.
  unfold placed, validateCheckpointCaptureBindings. split.
  - intros ([A B] & [[] C] & D & [[] E] & F). done.
  - intros (A & B & C & D & E & F). eauto 10.
Qed.
Lemma valid_position c phase next : validateActionCheckpoint sha256 c = Ret tt -> placed (set_position phase next c) ->
  validateActionCheckpoint sha256 (set_position phase next c) = Ret tt.
Proof. rewrite !valid_iff. intros (A & B & _ & C) D. done. Qed.
Lemma valid_kind identity steps : validate_steps identity steps = Ret tt -> forall step, step ∈ steps ->
  validateActionStep step = Ret tt /\ (as_Kind step = ActionStepSendControl \/ as_Kind step = ActionStepReinject).
Proof.
  induction steps as [|s steps IH]; [by intros _ ? ?%not_elem_of_nil|]. cbn [validate_steps]. rewrite !fail_if_ret, negb_false_iff.
  intros (Hv & _ & _ & Hr) step [-> |Hin]%elem_of_cons; [|by apply IH].
  destruct (validateActionStep s) as [[]|e|] eqn:E; try done. split; [done|]. unfold validateActionStep in E.
  apply check_ret in E as [_ E]. destruct (Z.eqb_spec (as_Kind s) ActionStepSendControl); [by left|].
  destruct (Z.eqb_spec (as_Kind s) ActionStepReinject); [by right|done].
Qed.
End valid.

Section total.
Context (sha256 : list Z -> list Z) {W : Type} `{JournalReliable sha256 W}.
Implicit Types (w : W) (x : journal_run (W := W)).
Abbreviation valid c := (validateActionCheckpoint sha256 c = Ret tt).

Lemma update_total c phase next w : jl_stored w = Some c -> ak_Revision c <> 0 -> valid c -> placed (set_position phase next c) ->
  0 < jr_room w ->
  swp (updateCheckpoint (set_position phase next c))
    (fun c' w' => exists v, v <> 0 /\ c' = set_revision v (set_position phase next c) /\ jl_stored w' = Some c' /\
       jl_effects w' = jl_effects w /\ jr_room w' = jr_room w - 1) (fun _ => False) w.
Proof.
  intros Hs Hv Hc Hp Hr. unfold swp, updateCheckpoint. cbn [set_position ak_Revision ak_Phase ak_NextStep].
  destruct cs_Transition as [tr|] eqn:Etr.
  - destruct (jr_transition tr phase next c w Etr Hs Hv Hp Hr) as (v & w' & E & Hw'). pose proof (jl_transition tr (ak_Revision c) phase next w Etr) as Hl.
    rewrite E in *. cbn in Hl. destruct Hl as (He & Hn & old & Ho & _ & Hs'). rewrite Hs in Ho. injection Ho as <-. by exists v.
  - destruct (jr_update (set_position phase next c) c w Etr Hs) as (c' & w' & E & Hw'); [done|done|by apply valid_position|done|].
    pose proof (jl_update (set_position phase next c) w Etr) as Hl. cbn [set_position ak_Revision] in *. rewrite E in *. cbn in Hl.
    destruct Hl as (He & _ & Hs' & v & Hn & ->). by exists v.
Qed.
Lemma execute_total step w : as_Kind step = ActionStepSendControl \/ as_Kind step = ActionStepReinject ->
  swp (executeActionStep step)
    (fun _ w' => jl_stored w' = jl_stored w /\ jl_effects w' = jl_effects w ++ [(effect_of step, None)] /\ jr_room w' = jr_room w)
    (fun _ => False) w.
Proof.
  intros Hk. pose proof (execute_wp step w) as Hs. unfold swp, executeActionStep in *.
  destruct Hk as [E|E]; rewrite E in *; cbn in *; unfold swrap, scall in *.
  - destruct (jr_send (as_Flow step) (as_WGID step) (as_Control step) w) as [Hn Hr].
    destruct (be_SendControl _ _ _ w) as [[e|] w']; cbn in *; [done|]. by destruct Hs.
  - destruct (jr_reinject (as_Flow step) (as_Packet step) w) as [Hn Hr].
    destruct (be_Reinject _ _ w) as [[e|] w']; cbn in *; [done|]. by destruct Hs.
Qed.

Lemma run_steps_total fuel : forall c x, jl_stored (jr_world x) = Some c -> ak_Revision c <> 0 -> valid c ->
  ak_Phase c = ActionCheckpointPrepared -> (steps_left c <= fuel)%nat -> 2 * Z.of_nat (steps_left c) <= jr_room (jr_world x) ->
  swp (run_steps fuel c)
    (fun c' x' => jl_stored (jr_world x') = Some c' /\ ak_Revision c' <> 0 /\
       jl_effects (jr_world x') = jl_effects (jr_world x) ++ performed (drop (Z.to_nat (ak_NextStep c)) (ak_Steps c)) /\
       jr_report x' = mkReport (rr_ReplayedControls (jr_report x)) (rr_SkippedAmbiguousReinjections (jr_report x))
                        (rr_CompletedSteps (jr_report x) + Z.of_nat (steps_left c)))
    (fun _ => False) x.
Proof.
  induction fuel as [|fuel IH]; intros c x Hs Hv Hc Hph Hfuel Hroom; cbn [run_steps]; unfold steps_left in Hfuel, Hroom;
    pose proof (proj1 (valid_iff _ _) Hc) as (_ & _ & Hpl & _ & Hst & _); pose proof (proj1 (placed_iff _) Hpl) as Hpl';
    (destruct (Z.ltb_spec (ak_NextStep c) (len (ak_Steps c))) as [Hlt|Hge]; cbn [negb]; [|
      split; [done|]; split; [done|]; split; [rewrite drop_ge by (unfold len in *; lia); by rewrite app_nil_r|];
      unfold steps_left; destruct x as [wx [a b d]]; cbn; f_equal; lia]); [lia|].
  destruct (step_at c) as [step Hstep]; [lia|].
  apply swp_bind, swp_on_run. destruct (jl_ctx (jr_world x)) as [Hcs Hce], (jr_ctx (jr_world x)) as [Hcn Hcr].
  apply swp_call; [intros _|done]. set (w0 := (ctx_Err (jr_world x)).2) in *.
  apply swp_bind, swp_on_run, swp_wrap. cbn [jr_world jr_report].
  eapply swp_mono; [apply (update_total c ActionCheckpointAttempting (ak_NextStep c) w0); try congruence; try lia|..|done].
  { apply placed_iff. cbn. intuition lia. }
  intros c1 w1 (v & Hnz & -> & Hs1 & He1 & Hr1). cbn [set_revision set_position ak_Steps ak_NextStep]. rewrite Hstep.
  set (c1 := set_revision v (set_position ActionCheckpointAttempting (ak_NextStep c) c)) in *. change (mkCheckpoint _ _ _ _ _ _) with c1.
  apply swp_bind, swp_on_run. cbn [jr_world jr_report].
  eapply swp_mono; [apply execute_total; by eapply valid_kind, list_elem_of_lookup_2|..|done].
  intros [] w2 (Hs2 & He2 & Hr2). apply swp_bind, swp_on_run, swp_wrap. cbn [jr_world jr_report].
  assert (placed (set_position ActionCheckpointPrepared (ak_NextStep c + 1) c)) as Hpl2 by (apply placed_iff; cbn; intuition lia).
  eapply swp_mono; [apply (update_total c1 ActionCheckpointPrepared (ak_NextStep c + 1)); try congruence; try lia; try done|..|done].
  { apply (valid_position sha256 c ActionCheckpointAttempting (ak_NextStep c)); [done|]. apply placed_iff. cbn. intuition lia. }
  intros c2 w3 (v2 & Hnz2 & -> & Hs3 & He3 & Hr3). apply swp_bind. unfold swp at 1. cbn [count_step].
  eapply swp_mono; [apply IH|..|done]; cbn [jr_world jr_report]; try done.
  - exact (valid_position sha256 c _ _ Hc Hpl2).
  - unfold steps_left. cbn. lia.
  - unfold steps_left. cbn. lia.
  - intros c3 x3 (Hs4 & Hv4 & He4 & Hrep). split; [done|]. split; [done|]. split.
    + rewrite He4, He3, He2, He1, Hce, <- app_assoc. f_equal. cbn.
      replace (Z.to_nat (ak_NextStep c + 1)) with (S (Z.to_nat (ak_NextStep c))) by lia. by rewrite (drop_S _ _ _ Hstep).
    + rewrite Hrep. unfold steps_left. cbn. f_equal. lia.
Qed.

(** What recovery still has to do. *)
Definition ambiguous (c : ActionCheckpoint) (kind : Z -> bool) : bool :=
  (ak_Phase c =? ActionCheckpointAttempting) &&
  match ak_Steps c !! Z.to_nat (ak_NextStep c) with Some step => kind (as_Kind step) | None => false end.
Definition skips (c : ActionCheckpoint) : bool := ambiguous c (fun k => k =? ActionStepReinject).
Definition replays (c : ActionCheckpoint) : bool := ambiguous c (fun k => negb (k =? ActionStepReinject)).
Definition remaining (c : ActionCheckpoint) : list ActionStep :=
  drop (Z.to_nat (ak_NextStep c) + if skips c then 1 else 0)%nat (ak_Steps c).

Lemma remaining_length c : placed c -> Z.of_nat (length (remaining c)) = len (ak_Steps c) - ak_NextStep c - if skips c then 1 else 0.
Proof.
  intros Hpl%placed_iff. unfold remaining. rewrite length_drop. unfold skips, ambiguous, len in *.
  destruct (Z.eqb_spec (ak_Phase c) ActionCheckpointAttempting) as [E|E]; cbn [andb]; [|lia].
  destruct (ak_Steps c !! _) eqn:El; [apply lookup_lt_Some in El|]; [destruct (_ =? _)|]; lia.
Qed.

Lemma resume_total c x : jl_stored (jr_world x) = Some c -> ak_Revision c <> 0 -> valid c ->
  ak_Phase c = ActionCheckpointAttempting -> 0 < jr_room (jr_world x) ->
  swp (resume_attempt true c)
    (fun c' x' => jl_stored (jr_world x') = Some c' /\ ak_Revision c' <> 0 /\ valid c' /\ ak_Phase c' = ActionCheckpointPrepared /\
       jl_effects (jr_world x') = jl_effects (jr_world x) /\ jr_room (jr_world x') = jr_room (jr_world x) - 1 /\
       ak_Steps c' = ak_Steps c /\ ak_NextStep c' = ak_NextStep c + (if skips c then 1 else 0) /\
       jr_report x' = (if skips c then skipped_one else replayed_one) (jr_report x))
    (fun _ => False) x.
Proof.
  intros Hs Hv Hc Hph Hroom. pose proof (proj1 (valid_iff _ _) Hc) as (_ & _ & Hpl & _). apply placed_iff in Hpl.
  destruct Hpl as [Hb [Hbad|[_ Hlt]]]; [by rewrite Hph in Hbad|]. destruct (step_at c) as [step Hstep]; [lia|].
  unfold resume_attempt, skips, ambiguous. rewrite Hstep, Hph, Z.eqb_refl. cbn [andb negb].
  destruct (as_Kind step =? ActionStepReinject); cbn; apply swp_bind, swp_on_run, swp_wrap;
    (eapply swp_mono; [apply (update_total c); [done..| |done]; apply placed_iff; cbn; intuition lia|..|done]);
    intros c' w' (v & Hn & -> & Hs' & He' & Hr'); apply swp_bind; cbn; split_and!; try done;
    try (apply (valid_position sha256 c); [done|]; apply placed_iff; cbn; intuition lia); try lia.
Qed.

Lemma loop_total c x : jl_stored (jr_world x) = Some c -> ak_Revision c <> 0 -> valid c ->
  2 * len (ak_Steps c) < jr_room (jr_world x) ->
  swp (journal_loop c true)
    (fun _ x' => jl_stored (jr_world x') = None /\ jl_effects (jr_world x') = jl_effects (jr_world x) ++ performed (remaining c) /\
       jr_report x' = mkReport (rr_ReplayedControls (jr_report x) + if replays c then 1 else 0)
         (rr_SkippedAmbiguousReinjections (jr_report x) + if skips c then 1 else 0)
         (rr_CompletedSteps (jr_report x) + Z.of_nat (length (remaining c))))
    (fun _ => False) x.
Proof.
  intros Hs Hv Hc Hroom. pose proof (proj1 (valid_iff _ _) Hc) as (_ & _ & Hpl & _). pose proof (proj1 (placed_iff _) Hpl) as Hpl'.
  assert (0 < jr_room (jr_world x)) as Hroom0 by lia.
  assert (swp (if ak_Phase c =? ActionCheckpointAttempting then resume_attempt true c else sret c)
    (fun c' x' => jl_stored (jr_world x') = Some c' /\ ak_Revision c' <> 0 /\ valid c' /\ ak_Phase c' = ActionCheckpointPrepared /\
       jl_effects (jr_world x') = jl_effects (jr_world x) /\ 2 * Z.of_nat (steps_left c') <= jr_room (jr_world x') /\
       ak_Steps c' = ak_Steps c /\ ak_NextStep c' = ak_NextStep c + (if skips c then 1 else 0) /\
       jr_report x' = mkReport (rr_ReplayedControls (jr_report x) + if replays c then 1 else 0)
         (rr_SkippedAmbiguousReinjections (jr_report x) + if skips c then 1 else 0) (rr_CompletedSteps (jr_report x)))
    (fun _ => False) x) as Hr.
  { unfold replays, skips, ambiguous. destruct (Z.eqb_spec (ak_Phase c) ActionCheckpointAttempting) as [E|E]; cbn [andb].
    - eapply swp_mono; [by apply resume_total|..|done].
      intros c' x' (A & B & C & D & F & G & I & J & K). unfold skips, ambiguous in J, K. rewrite E, Z.eqb_refl in J, K. cbn [andb] in J, K.
      destruct Hpl' as [Hb [Hbad|[_ Hlt]]]; [by rewrite E in Hbad|]. destruct (step_at c) as [step Hstep]; [lia|]. rewrite Hstep in *.
      split_and!; try done; try congruence.
      + unfold steps_left. rewrite I, J, G. unfold len in *. destruct (_ =? _); lia.
      + rewrite K. destruct x as [wx [p q r]]. destruct (_ =? _); cbn; unfold skipped_one, replayed_one; cbn; f_equal; lia.
    - assert (ak_Phase c = ActionCheckpointPrepared) as Hp by (by destruct Hpl' as [_ [?|[? _]]]).
      unfold swp, sret. rewrite !Z.add_0_r. split_and!; try done; [unfold steps_left, len in *; lia|]. by destruct x as [wx [p q r]]. }
  unfold journal_loop. apply swp_bind. eapply swp_mono; [exact Hr|..|done].
  intros c1 x1 (Hs1 & Hv1 & Hc1 & Hph1 & He1 & Hroom1 & Hst1 & Hn1 & Hrep1). apply swp_bind.
  eapply swp_mono; [by apply run_steps_total|..|done]. intros c2 x2 (Hs2 & Hv2 & He2 & Hrep2).
  apply swp_on_run. destruct (jr_delete c2 (jr_world x2) Hs2 Hv2) as [w3 Hd]. pose proof (jl_delete (ak_Revision c2) (jr_world x2)) as Hl.
  unfold swp, delete_checkpoint. rewrite Hd in *. cbn in Hl. destruct Hl as (He3 & Hs3 & _). cbn [jr_world jr_report].
  assert (0 <= (if skips c then 1 else 0)) as Hsk by (by destruct (skips c)).
  split; [done|]. split.
  - rewrite He3, He2, He1, Hst1, Hn1. unfold remaining. do 3 f_equal. destruct (skips c); lia.
  - rewrite Hrep2, Hrep1. unfold steps_left. rewrite Hst1, Hn1. cbn. f_equal. pose proof (remaining_length c Hpl). unfold len in *. lia.
Qed.
End total.

(** C22: recovery ends.  When the store and the backend answer, and the store can
    number two more writes per step, [Recover] finishes any valid checkpoint of its
    own runtime, whatever its position: it performs the remaining steps once each
    and in order, an ambiguous control included and an ambiguous reinjection left
    out, removes the checkpoint, and reports what it did. *)
Theorem recovery_completes (sha256 : list Z -> list Z) {W} `{JournalReliable sha256 W} (r : ActionRecovery) (c : ActionCheckpoint) (w : W) :
  jl_stored w = Some c -> validateStoredActionCheckpoint sha256 c = Ret tt -> ak_Identity c = ar_identity r ->
  2 * len (ak_Steps c) < jr_room w ->
  exists w', recovery_Recover sha256 r true w =
      (mkReport (if replays c then 1 else 0) (if skips c then 1 else 0) (len (remaining c)), None, w') /\
    jl_stored w' = None /\ jl_effects w' = jl_effects w ++ performed (remaining c).
Proof.
  intros Hs Hv Hi Hroom. pose proof Hv as Hv'. unfold validateStoredActionCheckpoint in Hv'. apply fail_if_ret in Hv' as [Hrev Hc]. apply Z.eqb_neq in Hrev.
  unfold recovery_Recover. cbn [negb]. destruct (jl_ctx w) as [A B], (jr_ctx w) as [C D].
  destruct (ctx_Err w) as [e w1]; cbn in *; subst e. destruct (jl_load w1) as (A2 & B2 & _), (jr_load w1) as [C2 D2].
  destruct (cs_Load w1) as [l w2]; cbn in *; subst l. rewrite A, Hs. rewrite Hv. cbn [go_error go_result].
  rewrite bool_decide_eq_true_2 by done. cbn [negb]. unfold continueLocked.
  assert (jl_stored w2 = Some c) as Hs2 by congruence.
  pose proof (loop_total sha256 c (mkRun w2 report_zero) Hs2 Hrev Hc) as Hl. cbn in Hl. unfold swp in Hl.
  destruct (journal_loop c true (mkRun w2 report_zero)) as [[[]|e] x]; [|destruct Hl; congruence].
  destruct Hl as (Hn & He & Hrep); [congruence|]. exists (jr_world x). split; [by rewrite Hrep|]. split; [done|]. congruence.
Qed.

(** ** Batches are well formed *)

Section batches.
Context (sha256 : list Z -> list Z).

(** What the engines of a runtime produce: their generation and their captures. *)
Definition action_of (identity : RuntimeIdentity) (a : Action) : Prop :=
  SK_Generation (act_Flow a) = RI_Generation identity /\
  Forall (fun p => CI_Runtime (PP_CaptureID p) = identity) (act_Packets a).
Definition captures : list ActionStep -> list CaptureIdentity := omap (fun step =>
  if as_Kind step =? ActionStepReinject then Some (PP_CaptureID (as_Packet step)) else None).

Lemma validate_steps_app i l1 l2 : validate_steps i l1 = Ret tt -> validate_steps i l2 = Ret tt -> validate_steps i (l1 ++ l2) = Ret tt.
Proof.
  induction l1 as [|s l1 IH]; intros H1 H2; [done|]. cbn [validate_steps app] in *. apply fail_if_ret in H1 as [-> H1].
  apply fail_if_ret in H1 as [-> H1]. apply fail_if_ret in H1 as [-> H1]. by apply IH.
Qed.
Lemma validate_step i s l : validateActionStep s = Ret tt -> SK_Generation (as_Flow s) = RI_Generation i ->
  (as_Kind s = ActionStepReinject -> CI_Runtime (PP_CaptureID (as_Packet s)) = i) -> validate_steps i l = Ret tt ->
  validate_steps i (s :: l) = Ret tt.
Proof.
  intros Hv Hg Hc Hl. cbn [validate_steps]. rewrite Hv, Hg, Z.eqb_refl. cbn [is_ret negb].
  destruct (Z.eqb_spec (as_Kind s) ActionStepReinject) as [E|E]; [|done]. by rewrite bool_decide_eq_true_2 by auto.
Qed.

Lemma packet_steps_valid i a : action_of i a -> forall packets b steps b', (forall p, p ∈ packets -> CI_Runtime (PP_CaptureID p) = i) ->
  packet_steps sha256 a b packets = Ret (steps, b') ->
  validate_steps i steps = Ret tt /\ forall rest, validate_captures sha256 b (steps ++ rest) = validate_captures sha256 b' rest.
Proof.
  intros [Hg _]. induction packets as [|p packets IH]; intros b steps b' Hp E; cbn [packet_steps] in E; [injection E as <- <-; done|].
  apply obind_ret in E as ([] & Hv & E). apply obind_ret in E as ([dup b1] & Ho & E). apply obind_ret in E as ([rest b2] & Hr & E).
  injection E as <- <-. destruct (IH b1 rest b2) as [IH1 IH2]; [intros q Hq; apply Hp; by apply elem_of_cons; right|done|]. cbn [fst snd].
  destruct dup.
  - split; [done|]. intros l. rewrite <- IH2. f_equal. unfold observeCapturedPacket in Ho. destruct (b !! _); [|done].
    destruct (negb _); [done|]. by injection Ho as <-.
  - split; [apply validate_step; try done; intros _; apply Hp; by apply elem_of_cons; left|].
    intros l. cbn [app validate_captures reinject_step as_Kind as_Flow as_Packet]. cbn [negb Z.eqb ActionStepReinject Pos.eqb].
    rewrite Ho. apply IH2.
Qed.
Lemma actions_steps_valid i actions : Forall (action_of i) actions -> forall b steps, actions_steps sha256 b actions = Ret steps ->
  validate_steps i steps = Ret tt /\ validate_captures sha256 b steps = Ret tt.
Proof.
  induction 1 as [|a actions Ha Hr IH]; intros b steps E; cbn [actions_steps] in E; [by injection E as <-|].
  destruct (act_Kind a); try (by apply IH).
  - apply obind_ret in E as ([] & Hv & E). apply obind_ret in E as (rest & Hs & E). injection E as <-.
    destruct (IH _ _ Hs) as [A B]. split; [|done]. by apply validate_step; [|apply Ha| |].
  - apply obind_ret in E as ([released b'] & Hp & E). apply obind_ret in E as (rest & Hs & E). injection E as <-. cbn [fst snd] in *.
    destruct (IH _ _ Hs) as [A B]. destruct (packet_steps_valid i a Ha _ _ _ _ (proj1 (list.Forall_forall _ _) (proj2 Ha)) Hp) as [C D]. split; [by apply validate_steps_app|by rewrite D].
Qed.
Lemma validate_captures_nodup steps : forall b, validate_captures sha256 b steps = Ret tt ->
  NoDup (captures steps) /\ forall id, id ∈ captures steps -> b !! id = None.
Proof.
  induction steps as [|s steps IH]; intros b E; cbn [validate_captures] in E; [split; [constructor|by intros ? ?%not_elem_of_nil]|].
  unfold captures. cbn. fold (captures steps). destruct (as_Kind s =? ActionStepReinject) eqn:Ek; cbn [negb] in E; [|by apply IH].
  unfold observeCapturedPacket in E. destruct (b !! PP_CaptureID (as_Packet s)) eqn:Eb; [by destruct (negb _)|].
  destruct (IH _ E) as [A B]. split.
  - constructor; [|done]. intros Hin. specialize (B _ Hin). by rewrite lookup_insert_eq in B.
  - intros id [-> |Hin]%elem_of_cons; [done|]. specialize (B _ Hin). by apply lookup_insert_None in B as [? _].
Qed.
End batches.

(** C34: the journal takes every batch of its engines.  The steps made of actions
    of one runtime (its generation, its captures) are a checkpoint that every
    store accepts and every recovery can use: valid steps of that runtime, with
    every captured packet in it once. *)
Theorem batch_well_formed (sha256 : list Z -> list Z) (identity : RuntimeIdentity) (operation : Z) (actions : list Action) (steps : list ActionStep) :
  validateRuntimeIdentity identity = Ret tt -> operation <> 0 -> Forall (action_of identity) actions ->
  actionSteps sha256 actions = Ret steps -> steps <> [] ->
  validateActionCheckpoint sha256 (mkCheckpoint 0 operation identity ActionCheckpointPrepared 0 steps) = Ret tt /\
  NoDup (captures steps) /\ forall step, step ∈ steps -> validateActionStep step = Ret tt.
Proof.
  intros Hi Hop Ha Hs Hne. destruct (actions_steps_valid sha256 identity actions Ha ∅ steps Hs) as [A B]. split.
  - apply valid_iff. cbn. rewrite Hi. split_and!; try done; [destruct steps; [done|unfold len; cbn; lia]|].
    apply placed_iff. cbn. unfold len. split; [lia|by left].
  - split; [by eapply validate_captures_nodup|]. intros step Hin. by eapply valid_kind.
Qed.

(** ** The store in memory *)

(** The store with a recording backend, whose calls fail where [fails] says. *)
Record mem_world := mkMemWorld { mw_store : MemoryActionCheckpointStore; mw_effects : list attempt }.
Definition mem_effect (fails : nat -> bool) (e : effect) (k : mem_world) : option error * mem_world :=
  let answer := if fails (length (mw_effects k)) then Some "send failed" else None in
  (answer, mkMemWorld (mw_store k) (mw_effects k ++ [(e, answer)])).
Definition on_store {A} (f : MemoryActionCheckpointStore -> A * MemoryActionCheckpointStore) (k : mem_world) : A * mem_world :=
  let '(a, s) := f (mw_store k) in (a, mkMemWorld s (mw_effects k)).

Section memory.
Context (sha256 : list Z -> list Z) (fails : nat -> bool).

#[local] Instance mem_backend : ControllerBackend mem_world := {
  be_SendControl flow wgID control := mem_effect fails (Sent flow wgID control);
  be_Reinject flow packet := mem_effect fails (Reinjected flow packet);
  be_Close k := (None, k);
  ctx_Err k := (None, k)
}.
#[local] Instance mem_store : ActionCheckpointStore mem_world := {
  cs_Load := on_store (fun s => (inl (ms_checkpoint s), s));
  cs_Create c := on_store (memory_Create sha256 c);
  cs_Update v c := on_store (memory_Update sha256 v c);
  cs_Transition := Some (fun v phase next => on_store (memory_Transition v phase next));
  cs_Delete v := on_store (memory_Delete v)
}.

Lemma memory_put_spec c s : let '(r, s') := memory_put c s in
  match r with
  | inl c' => ms_nextRevision s <> 0 /\ c' = set_revision (ms_nextRevision s) c /\ s' = mkMemory (Some c') (u64 (ms_nextRevision s + 1))
  | inr e => ms_nextRevision s = 0 /\ e <> SeConflict /\ s' = s
  end.
Proof.
  unfold memory_put, allocateRevisionLocked. destruct (Z.eqb_spec (ms_nextRevision s) 0) as [E|E]; done.
Qed.
Lemma memory_matches_spec s v : memory_matches s v = true <-> exists c, ms_checkpoint s = Some c /\ ak_Revision c = v.
Proof.
  unfold memory_matches. destruct (ms_checkpoint s) as [c|].
  - rewrite Z.eqb_eq. split; [by exists c|]. by intros (c' & [= <-] & ?).
  - split; [done|]. by intros (c' & ? & _).
Qed.

#[local] Instance mem_laws : JournalLaws mem_world.
Proof.
  refine (Build_JournalLaws _ _ _ (fun k => ms_checkpoint (mw_store k)) mw_effects _ _ _ _ _ _ _ _); try done.
  - intros k. split; [done|]. split; [done|]. cbn. by intros c [= <-].
  - intros c k. cbn. unfold on_store, memory_Create. destruct (negb (ak_Revision c =? 0)); [cbn; auto|].
    destruct (go_error _); [cbn; auto|]. case_bool_decide as Hs; [cbn; auto|].
    pose proof (memory_put_spec c (mw_store k)) as Hp. destruct (memory_put c (mw_store k)) as [[c'|e] s'].
    + destruct Hp as (Hv & -> & ->). cbn. split; [done|]. split; [by apply eq_None_not_Some|]. split; [done|]. by eexists.
    + destruct Hp as (_ & He & ->). cbn. destruct e; auto.
  - intros tr v phase next k [= <-]. cbn. unfold on_store, memory_Transition. destruct (v =? 0); [cbn; auto|].
    destruct (memory_matches (mw_store k) v) eqn:Em; [|done]. apply memory_matches_spec in Em as (c & Hc & Hv). rewrite Hc. cbn [negb].
    destruct (go_error _); [cbn; auto|].
    pose proof (memory_put_spec (set_position phase next c) (mw_store k)) as Hp. destruct (memory_put _ (mw_store k)) as [[c'|e] s'].
    + destruct Hp as (Hn & -> & ->). cbn. split; [done|]. split; [done|]. by exists c.
    + destruct Hp as (_ & He & ->). cbn. destruct e; auto.
  - intros v k. cbn. unfold on_store, memory_Delete. destruct (v =? 0); [cbn; auto|].
    destruct (memory_matches (mw_store k) v) eqn:Em; [|done]. apply memory_matches_spec in Em as (c & Hc & Hv). cbn.
    split; [done|]. split; [done|]. by exists c.
Defined.

(** Revisions left before the counter wraps to zero. *)
#[local] Instance mem_reliable : (forall n, fails n = false) -> JournalReliable sha256 mem_world.
Proof.
  intros Hf. refine (Build_JournalReliable _ _ _ _ _ (fun k => (- ms_nextRevision (mw_store k)) mod 2 ^ 64) _ _ _ _ _ _ _); try done.
  - intros tr phase next old k [= <-] Hs Hv Hp Hr. cbn. unfold on_store, memory_Transition. rewrite (proj2 (Z.eqb_neq _ _) Hv).
    rewrite (proj2 (memory_matches_spec _ _)) by (by exists old). cbn in Hs. rewrite Hs. cbn [negb]. rewrite Hp. cbn [go_error go_result].
    pose proof (memory_put_spec (set_position phase next old) (mw_store k)) as Hput.
    destruct (memory_put _ (mw_store k)) as [[c'|e] s'].
    + destruct Hput as (Hn & -> & ->). cbn. eexists _, _. split; [reflexivity|]. cbn. unfold u64.
      Z.div_mod_to_equations. lia.
    + destruct Hput as (Hn & _). rewrite Hn in Hr. done.
  - intros c k Hs Hv. cbn in *. unfold on_store, memory_Delete. rewrite (proj2 (Z.eqb_neq _ _) Hv).
    rewrite (proj2 (memory_matches_spec _ _)) by (by exists c). by eexists.
  - intros flow wgID control k. cbn. by rewrite Hf.
  - intros flow packet k. cbn. by rewrite Hf.
Defined.
End memory.

(** ** A failed reinjection and its recovery *)

Definition sample_identity : RuntimeIdentity := mkRuntimeIdentity 1 (replicate 16 7).
Definition sample_pending : PendingPacket :=
  mkPendingPacket [69; 0] 0 1 5 (mkCaptureIdentity sample_identity 0 9) (replicate 32 1) false.
(** A segment, and a packet that was captured once and is released twice. *)
Definition sample_actions : list Action :=
  [mkAction ActionSendControl sample_flow 1 (mkControlPacket FlagACK 5 6 1024) [] "ack";
   mkAction ActionReleasePending sample_flow 1 ControlPacket_zero [sample_pending; sample_pending] "established"].
Definition sample_batch : list ActionStep := match actionSteps id sample_actions with Ret steps => steps | _ => [] end.
Definition empty_world : mem_world := mkMemWorld NewMemoryActionCheckpointStore [].
(** The reinjection fails, and the next life skips it. *)
Definition sample_ops : list journal_op := [JStart sample_identity; JExecute sample_actions; JStart sample_identity; JRecover].
Definition second_fails (n : nat) : bool := (n =? 1)%nat.

Lemma effects_through_crashes_witness :
  let '(life, w') := @journal_runs mem_world (mem_backend second_fails) (mem_store id) id (None, empty_world) sample_ops in
  mw_effects w' = zip (map effect_of sample_batch) [None; Some "send failed"] /\
  exists accepted, accepted `sublist_of` requested id sample_ops /\
    @history mem_world _ _ (mem_laws id second_fails) [] accepted w'.
Proof.
  pose proof (@effects_through_crashes mem_world _ _ (mem_laws id second_fails) id sample_ops empty_world eq_refl) as Hw.
  destruct (@journal_runs mem_world (mem_backend second_fails) (mem_store id) id (None, empty_world) sample_ops) as [life w'] eqn:E.
  split; [|exact (proj1 Hw)]. vm_compute in E. injection E as _ <-. vm_compute. reflexivity.
Defined.

Definition sample_checkpoint : ActionCheckpoint := mkCheckpoint 4 1 sample_identity ActionCheckpointAttempting 1 sample_batch.
Lemma recovery_completes_witness : exists w',
  @recovery_Recover id mem_world (mem_backend (fun _ => false)) (mem_store id) (mkRecovery sample_identity 2) true
    (mkMemWorld (mkMemory (Some sample_checkpoint) 5) []) = (mkReport 0 1 0, None, w') /\ mw_effects w' = [].
Proof.
  destruct (@recovery_completes id mem_world _ _ _ (mem_reliable id (fun _ => false) (fun _ => eq_refl)) (mkRecovery sample_identity 2)
    sample_checkpoint (mkMemWorld (mkMemory (Some sample_checkpoint) 5) [])) as (w' & E & _ & He); try reflexivity.
  exists w'. split; [exact E|exact He].
Defined.

Lemma batch_well_formed_witness : NoDup (captures sample_batch) /\ length sample_batch = 2%nat.
Proof.
  split; [|vm_compute; reflexivity].
  apply (batch_well_formed id sample_identity 1 sample_actions sample_batch); try (vm_compute; reflexivity); [lia| |discriminate].
  repeat constructor.
Defined.
