(* ===== verification/Production.v ===== *)
(** * Planning the production FakeTCP runtime
    (internal/dataplane/faketcp_production_linux.go, experimental_runtime_linux.go):
    from the control state and the generation's policy to the engine plans of
    the router. *)
From Stdlib Require Import ZArith Lia.
From stdpp Require Import base option list gmap strings numbers sorting.
From S2P Require Import Prelude Abi Config Profile Control ControlProps AbiSnapshot Policy Checksum L3Parser Runtime ControlPacket Engine Router.

Definition fakeTCPProductionHandshakeRetries : Z := 2.
Definition fakeTCPProductionWindow : Z := 65535.

(** ** Engine options *)

(** The [counter]-th initial sequence number; [sha256] is [sha256.Sum256]. *)
Definition initialSequence (sha256 : list Z -> list Z) (seed : list Z) (counter : Z) : Z :=
  let input := seed ++ BigEndian_PutUint32 (Z.shiftr counter 32) ++ BigEndian_PutUint32 (u32 counter) in
  let value := be32_at (sha256 input) 0 in
  if value =? 0 then 1 else value.

Definition validateFakeTCPProductionEngineOptions (o : Options) : outcome unit :=
  fail_if Generation o =? 0 with "generation is zero" in
  fail_if (SessionCapacity o <=? 0) || (MaxPendingFlows o <=? 0) ||
          (SessionCapacity o <? MaxPendingFlows o) || (MaxPendingPacketsPerFlow o <=? 0) ||
          (MaxPendingBytes o <=? 0) with "session and pending limits are invalid" in
  fail_if (MaxHalfOpenSessions o <=? 0) || (SessionCapacity o <=? MaxHalfOpenSessions o) ||
          (MaxHalfOpenPerSource o <=? 0) || (MaxHalfOpenSessions o <? MaxHalfOpenPerSource o) ||
          (SYNRateInterval o <=? 0) || (SYNBurst o <=? 0) || (SYNBurstPerSource o <=? 0) ||
          (SYNBurst o <? SYNBurstPerSource o) ||
          (SYNSourceLedgerCapacity o <? MaxHalfOpenSessions o) ||
          (SYNSourceLedgerTTL o <? SYNRateInterval o) with "half-open and SYN limits are invalid" in
  fail_if (HandshakeTimeout o <=? 0) || (HandshakeRetries o <=? 0) || (KeepaliveInterval o <=? 0) ||
          (IdleTimeout o <=? KeepaliveInterval o) with "timeout and retry limits are invalid" in
  fail_if (Window o =? 0) || negb (has_InitialSequence o) ||
          negb (match clock_Domain o with
                | Some domain => String.eqb domain BPFMonotonicClockDomain | None => false end)
    with "runtime sources are incomplete" in
  fail_if has_Store o with "Store must be injected by the collection" in
  Ret tt.

Definition production_options (wg : WireGuardState) (generation : Z) : Options :=
  let f := ws_FakeTCP wg in
  mkOptions generation (ft_SessionCapacity f) (ft_MaxHalfOpenSessions f) (ft_MaxHalfOpenPerSource f)
    (ft_SYNRateInterval f) (ft_SYNBurst f) (ft_SYNBurstPerSource f) (ft_SYNSourceLedgerCapacity f)
    (ft_SYNSourceLedgerTTL f) (ft_MaxPendingFlows f) (ft_MaxPendingPacketsPerFlow f)
    (ft_MaxPendingBytes f) (ft_HandshakeTimeout f) fakeTCPProductionHandshakeRetries
    (ft_KeepaliveInterval f) (ft_IdleTimeout f) fakeTCPProductionWindow true
    (Some BPFMonotonicClockDomain) false.

(** [seed] is the result of reading the random seed. *)
Definition fakeTCPProductionEngineOptions (seed : outcome (list Z)) (wg : WireGuardState)
    (generation : Z) : outcome Options :=
  check! seed in
  let options := production_options wg generation in
  check! validateFakeTCPProductionEngineOptions options in
  Ret options.

(** ** The FakeTCP WireGuards of the state *)

(** Every identifier, with its WireGuard. *)
Fixpoint index_ids (ids : gmap Z WireGuardState) (l : list WireGuardState)
    : outcome (gmap Z WireGuardState) :=
  match l with
  | [] => Ret ids
  | wg :: l =>
      fail_if ws_ID wg =? 0 with "production WireGuard has zero ID" in
      fail_if bool_decide (is_Some (ids !! ws_ID wg)) with "production WireGuard ID is duplicated" in
      index_ids (<[ws_ID wg := wg]> ids) l
  end.

Definition reference_ok (ids : gmap Z WireGuardState) (wgID : Z) (mode : string) : outcome unit :=
  match ids !! wgID with
  | None => Fail "production rule references unknown WireGuard ID"
  | Some wg =>
      fail_if negb (String.eqb mode (ws_TransportMode wg))
        with "production rule transport does not match WireGuard transport" in Ret tt
  end.

Definition id_le (a b : WireGuardState) : Prop := (ws_ID a <= ws_ID b)%Z.
#[export] Instance id_le_dec a b : Decision (id_le a b).
Proof. unfold id_le. apply _. Defined.

Definition faketcp_wireguards (l : list WireGuardState) : list WireGuardState :=
  filter (fun wg => is_faketcp_state wg = true) l.

Definition validateFakeTCPProductionReferences (st : State) : outcome (list WireGuardState) :=
  fail_if st_Generation st =? 0 with "state generation is zero" in
  let! ids := index_ids ∅ (st_WireGuards st) in
  let selected := faketcp_wireguards (st_WireGuards st) in
  fail_if len selected =? 0 with "production requires at least one FakeTCP WireGuard" in
  fail_if fakeTCPControlPoliciesPerGeneration <? len selected
    with "production FakeTCP WireGuards exceed per-generation policy capacity" in
  check! for_each (fun r => reference_ok ids (eg_WGID r) (eg_TransportMode r)) (st_EgressRules st) in
  check! for_each (fun r => reference_ok ids (in_WGID r) (in_TransportMode r))
           (st_IngressListeners st) in
  Ret (merge_sort id_le selected).

(** ** Engine plans *)

Record aggregates := mkAggregates {
  ag_Sessions : Z; ag_HalfOpen : Z; ag_SourceLedger : Z; ag_PendingFlows : Z; ag_PendingBytes : Z
}.
Definition add_options (a : aggregates) (o : Options) : aggregates :=
  mkAggregates (u64 (ag_Sessions a + SessionCapacity o)) (u64 (ag_HalfOpen a + MaxHalfOpenSessions o))
    (u64 (ag_SourceLedger a + SYNSourceLedgerCapacity o))
    (u64 (ag_PendingFlows a + MaxPendingFlows o)) (u64 (ag_PendingBytes a + MaxPendingBytes o)).

Record plan_state := mkPlanState {
  pn_plans : list WGEnginePlan;
  pn_planIndex : gmap Z nat;
  pn_wireGuardByID : gmap Z WireGuardState;
  pn_aggregates : aggregates
}.

(** The loop over the ordered WireGuards; [previous] is the identifier before. *)
Fixpoint plan_wireguards (seed : outcome (list Z)) (generation : Z) (referenced : list Z)
    (previous : option Z) (s : plan_state) (l : list WireGuardState) : outcome plan_state :=
  match l with
  | [] => Ret s
  | wg :: l =>
      fail_if (ws_ID wg =? 0) || negb (is_faketcp_state wg) with "WireGuard has invalid ID/mode" in
      fail_if bool_decide (previous = Some (ws_ID wg)) with "duplicate WireGuard ID" in
      let byID := <[ws_ID wg := wg]> (pn_wireGuardByID s) in
      if negb (bool_decide (ws_ID wg ∈ referenced)) then
        plan_wireguards seed generation referenced (Some (ws_ID wg))
          (mkPlanState (pn_plans s) (pn_planIndex s) byID (pn_aggregates s)) l
      else
        fail_if negb (ws_RuntimeStateAvailable wg) || (ws_RuntimeFirewallMark wg =? 0)
          with "WireGuard has no live nonzero mark" in
        let! options := fakeTCPProductionEngineOptions seed wg generation in
        plan_wireguards seed generation referenced (Some (ws_ID wg))
          (mkPlanState (pn_plans s ++ [mkEnginePlan (ws_ID wg) options []])
             (<[ws_ID wg := length (pn_plans s)]> (pn_planIndex s)) byID
             (add_options (pn_aggregates s) options)) l
  end.

Definition aggregate_limits (a : aggregates) : list (Z * Z) :=
  [(ag_Sessions a, MaxFakeTCPSessions); (ag_HalfOpen a, MaxFakeTCPHalfOpenSessions);
   (ag_SourceLedger a, MaxFakeTCPSYNSourceLedger); (ag_PendingFlows a, MaxFakeTCPPendingFlows);
   (ag_PendingBytes a, MaxFakeTCPPendingBytes)].

Definition append_route (r : EngineRoute) (p : WGEnginePlan) : WGEnginePlan :=
  mkEnginePlan (ep_WGID p) (ep_Options p) (ep_Routes p ++ [r]).

(** The loop over the managed ports. *)
Fixpoint plan_routes (generation : Z) (index : gmap Z nat) (byID : gmap Z WireGuardState)
    (plans : list WGEnginePlan) (l : list fakeTCPManagedPortPlanEntry) : outcome (list WGEnginePlan) :=
  match l with
  | [] => Ret plans
  | ((kg, idx, port), v) :: l =>
      match index !! mpv_WGID v with
      | None => Fail "managed port references unknown WGID"
      | Some i =>
          fail_if negb (kg =? generation) || negb (mpv_Generation v =? generation) || (idx =? 0) ||
                  (port =? 0) || negb (mpv_Action v =? ActionRewrite)
            with "managed route is invalid" in
          let mark := default 0 (ws_RuntimeFirewallMark <$> byID !! mpv_WGID v) in
          plan_routes generation index byID
            (alter (append_route (mkRoute generation idx port (mpv_WGID v) mark (mpv_Action v))) i plans) l
      end
  end.

Definition fakeTCPProductionEnginePlans (seed : outcome (list Z)) (wireGuards : list WireGuardState)
    (policyPlan : fakeTCPPolicyGenerationPlan) (generation : Z) : outcome (list WGEnginePlan) :=
  fail_if (generation =? 0) || (len wireGuards =? 0) with "inputs are incomplete" in
  check! validateFakeTCPPolicyGenerationPlan policyPlan in
  fail_if negb (pl_generation policyPlan =? generation) with "policy generation differs" in
  let ordered := merge_sort id_le wireGuards in
  let referenced := map (fun e => mpv_WGID e.2) (pl_managedPorts policyPlan) in
  fail_if len referenced =? 0 with "policy has no managed route" in
  let! s := plan_wireguards seed generation referenced None
              (mkPlanState [] ∅ ∅ (mkAggregates 0 0 0 0 0)) ordered in
  fail_if existsb (fun '(value, max) => max <? value) (aggregate_limits (pn_aggregates s))
    with "aggregate exceeds shared maximum" in
  let! plans := plan_routes generation (pn_planIndex s) (pn_wireGuardByID s) (pn_plans s)
                  (pl_managedPorts policyPlan) in
  fail_if existsb (fun p => len (ep_Routes p) =? 0) plans with "WGID has no managed route" in
  Ret plans.

(** The engine plans with the session store of the claimed collection. *)
Definition with_Store (o : Options) : Options :=
  mkOptions (Generation o) (SessionCapacity o) (MaxHalfOpenSessions o) (MaxHalfOpenPerSource o)
    (SYNRateInterval o) (SYNBurst o) (SYNBurstPerSource o) (SYNSourceLedgerCapacity o)
    (SYNSourceLedgerTTL o) (MaxPendingFlows o) (MaxPendingPacketsPerFlow o) (MaxPendingBytes o)
    (HandshakeTimeout o) (HandshakeRetries o) (KeepaliveInterval o) (IdleTimeout o) (Window o)
    (has_InitialSequence o) (clock_Domain o) true.
Definition inject_store (p : WGEnginePlan) : WGEnginePlan :=
  mkEnginePlan (ep_WGID p) (with_Store (ep_Options p)) (ep_Routes p).

(** The routed engines of a runtime build: a fresh domain, the router, and the
    WireGuard whose engine stands for all in the identity commit. *)
Definition build_router (token : Z) (incarnation : outcome (list Z)) (nows : Z -> Z)
    (enginePlans : list WGEnginePlan) (generation : Z)
    : outcome (RuntimeDomain * EngineRouter * Z) :=
  let! domain := NewRuntimeDomain token generation incarnation in
  let! router := NewEngineRouterFromPlans domain nows (map inject_store enginePlans) in
  let wgIDs := WGIDs router in
  check! for_each (fun wgID =>
    match router_engine router wgID with
    | None => Fail "routed Engine has inconsistent runtime identity"
    | Some engine =>
        fail_if negb (bool_decide (e_identity engine = er_identity router))
          with "routed Engine has inconsistent runtime identity" in Ret tt
    end) wgIDs in
  match head wgIDs with
  | None => Fail "routed Engines returned no WireGuard IDs"
  | Some wgID => Ret (domain, router, wgID)
  end.
