(* ===== verification/ProductionProps.v ===== *)
(** * A validated FakeTCP configuration can always be brought up: its policy,
    engine plans and router are built without error, and the router's routes are
    exactly its FakeTCP listeners. *)
From Stdlib Require Import ZArith Lia.
From stdpp Require Import base option list gmap strings numbers sorting.
From S2P Require Import Prelude Abi Config Profile Control ControlProps AbiSnapshot Policy PolicyProps Checksum L3Parser Runtime ControlPacket Engine EngineInv EngineProps Router RouterInv Events Controller RouterProps Production.

(** ** Building a router succeeds *)

Section router.
Context (domain : RuntimeDomain) (nows : Z -> Z) (mark_of : Z -> Z).
Let g := RI_Generation (dom_identity domain).

(** A binding to the engine allocated as number [i] of the domain. *)
Definition bound (i : Z) (b : WGEngineBinding) : Prop := exists e,
  wb_Engine b = Some (mkEngineRef (Some i) (dom_state domain) e) /\ e_identity e = dom_identity domain.

Lemma bind_engines_ok l : forall i m owners,
  NoDup (map wb_WGID l) -> (forall b, b ∈ l -> wb_WGID b <> 0 /\ m !! wb_WGID b = None) ->
  (forall k b, l !! k = Some b -> bound (i + Z.of_nat k) b) ->
  (forall j, is_Some (owners !! j) -> j < i) ->
  exists m', bind_engines domain m owners l = Ret m'.
Proof.
  induction l as [|b l IH]; intros i m owners Hn Hm Hb Ho; cbn [bind_engines]; [eauto|].
  apply list.NoDup_cons in Hn as [Hbn Hn]. destruct (Hm b) as [Hz Hbm]; [by left|].
  destruct (Z.eqb_spec (wb_WGID b) 0); [done|].
  destruct (Hb 0%nat b eq_refl) as (e & -> & He). rewrite Z.add_0_r.
  rewrite bool_decide_false by (rewrite Hbm; by intros []). cbn. rewrite Z.eqb_refl, He.
  rewrite bool_decide_true by done. cbn [negb orb].
  rewrite bool_decide_false by (intros Hs; apply Ho in Hs; lia).
  apply (IH (i + 1)); [done|..].
  - intros b' Hb'. destruct (Hm b') as [? ?]; [by right|]. split; [done|].
    rewrite lookup_insert_ne; [done|]. intros E. apply Hbn, list_elem_of_fmap. by exists b'.
  - intros k b' Hk. replace (i + 1 + Z.of_nat k) with (i + Z.of_nat (S k)) by lia. by apply Hb.
  - intros j Hj. apply lookup_insert_is_Some in Hj as [<-|[_ Hj]]; [lia|]. apply Ho in Hj. lia.
Qed.

Definition route_ok (r : EngineRoute) : Prop :=
  rt_Generation r = g /\ rt_UnderlayIndex r <> 0 /\ rt_LocalPort r <> 0 /\ rt_WGID r <> 0 /\
  rt_FWMark r = mark_of (rt_WGID r) /\ rt_FWMark r <> 0 /\ rt_Action r = ActionRewrite.

Lemma freeze_routes_ok (engines : gmap Z Engine) l : forall routes (marks : gmap Z Z),
  (forall r, r ∈ l -> route_ok r /\ is_Some (engines !! rt_WGID r)) ->
  NoDup (map route_key l) -> (forall r, r ∈ l -> routes !! route_key r = None) ->
  (forall wg m, marks !! wg = Some m -> m = mark_of wg) ->
  exists p, freeze_routes g engines routes marks l = Ret p.
Proof.
  induction l as [|r l IH]; intros routes marks Hl Hn Hr Hm; cbn [freeze_routes]; [eauto|].
  apply list.NoDup_cons in Hn as [Hrn Hn].
  destruct (Hl r) as [(Hg & Hu & Hp & Hw & Hf & Hz & Ha) He]; [by left|].
  rewrite Hg, Ha, !Z.eqb_refl. repeat match goal with |- context [?x =? 0] =>
    destruct (Z.eqb_spec x 0); [done|] end. cbn [negb orb].
  rewrite bool_decide_true by done. cbn [negb].
  replace (match marks !! rt_WGID r with Some mark => negb (mark =? rt_FWMark r) | None => false end)
    with false; cycle 1.
  { destruct (marks !! rt_WGID r) as [m|] eqn:E; [|done]. apply Hm in E as ->. by rewrite Hf, Z.eqb_refl. }
  rewrite bool_decide_false by (rewrite Hr by (by left); by intros []). apply IH.
  - intros. apply Hl. by right.
  - done.
  - intros r' Hr'. rewrite lookup_insert_ne; [apply Hr; by right|]. intros E.
    apply Hrn, list_elem_of_fmap. by exists r'.
  - intros wg m [[<- <-]|[_ ?]]%lookup_insert_Some; [done|by apply Hm].
Qed.

Definition plan_ok (p : WGEnginePlan) : Prop :=
  ep_WGID p <> 0 /\ Generation (ep_Options p) = g /\ ep_Routes p <> [] /\
  (forall now, exists e, newEngine (ep_Options p) (dom_identity domain) now = Ret e) /\
  (forall r, r ∈ ep_Routes p -> rt_WGID r = ep_WGID p /\ route_ok r).

Lemma build_engines_ok plans : forall i bs rs,
  (forall p, p ∈ plans -> plan_ok p) ->
  exists news, build_engines domain nows i bs rs plans
      = Ret (bs ++ news, rs ++ concat (map ep_Routes plans)) /\
    map wb_WGID news = map ep_WGID plans /\
    forall k b, news !! k = Some b -> bound (i + Z.of_nat k) b.
Proof.
  induction plans as [|p plans IH]; intros i bs rs Hp; cbn [build_engines].
  { exists []. by rewrite !app_nil_r. }
  destruct (Hp p) as (Hz & Hg & Hne & He & Hr); [by left|]. cbn zeta. fold g. rewrite Hg, Z.eqb_refl.
  destruct (Z.eqb_spec (ep_WGID p) 0); [done|]. cbn [negb orb].
  destruct (Z.eqb_spec (len (ep_Routes p)) 0) as [E|_].
  { destruct (ep_Routes p) as [|r l]; [done|]. rewrite len_cons in E. pose proof (len_nonneg l). lia. }
  unfold NewEngine. destruct (He (nows i)) as [e Hn]. rewrite Hn. cbn [obind].
  replace (plan_routes_ok (ep_WGID p) g (ep_Routes p)) with true; cycle 1.
  { symmetry. apply forallb_forall. intros r [Hw (Hrg & _)]%list_elem_of_In%Hr. by rewrite Hw, Hrg, !Z.eqb_refl. }
  cbn [negb]. destruct (IH (i + 1) (bs ++ [mkBinding (ep_WGID p) (Some (mkEngineRef (Some i) (dom_state domain) e))])
    (rs ++ ep_Routes p)) as (news & -> & Hw & Hb); [intros; apply Hp; by right|].
  eexists (_ :: news). rewrite <- !app_assoc. split; [reflexivity|]. split; [cbn; by rewrite Hw|].
  intros [|k] b Hk; cbn in Hk.
  - injection Hk as <-. rewrite Z.add_0_r. exists e. split; [done|]. by apply newEngine_fields in Hn as [? _].
  - replace (i + Z.of_nat (S k)) with (i + 1 + Z.of_nat k) by lia. by apply Hb.
Qed.

Lemma from_plans_ok plans :
  plans <> [] -> (forall p, p ∈ plans -> plan_ok p) -> NoDup (map ep_WGID plans) ->
  NoDup (map route_key (concat (map ep_Routes plans))) ->
  exists router, NewEngineRouterFromPlans domain nows plans = Ret router.
Proof.
  intros Hne Hp Hn Hk. unfold NewEngineRouterFromPlans, NewEngineRouter.
  destruct (build_engines_ok plans 0 [] [] Hp) as (news & -> & Hw & Hb). cbn [app].
  destruct plans as [|p0 plans]; [done|]. clear Hne. cbn [obind].
  replace (len (p0 :: plans) =? 0) with false
    by (symmetry; apply Z.eqb_neq; rewrite len_cons; pose proof (len_nonneg plans); lia).
  assert (exists r0, r0 ∈ ep_Routes p0) as [r0 Hr0].
  { destruct (Hp p0) as (_ & _ & Hne & _); [by left|]. destruct (ep_Routes p0) as [|r l]; [done|]. exists r. by left. }
  replace (len news =? 0) with false; cycle 1.
  { destruct news as [|b news]; [done|]. symmetry. apply Z.eqb_neq. rewrite len_cons. pose proof (len_nonneg news). lia. }
  replace (len (concat _) =? 0) with false; cycle 1.
  { symmetry. apply Z.eqb_neq. cbn. rewrite len_app. pose proof (len_nonneg (concat (map ep_Routes plans))).
    destruct (ep_Routes p0); [by apply elem_of_nil in Hr0|]. rewrite len_cons. pose proof (len_nonneg l). lia. }
  cbn [orb]. destruct (bind_engines_ok news 0 ∅ ∅) as [engines Hbind].
  - by rewrite Hw.
  - intros b Hb'. split; [|done]. assert (wb_WGID b ∈ map ep_WGID (p0 :: plans)) as Hin
      by (rewrite <- Hw; apply list_elem_of_fmap; by exists b).
    apply list_elem_of_fmap in Hin as (p & -> & Hp'). by apply Hp.
  - exact Hb.
  - intros j [? ?]. done.
  - rewrite Hbind. cbn [obind]. apply bind_engines_spec in Hbind as (_ & _ & He).
    assert (forall p, p ∈ p0 :: plans -> is_Some (engines !! ep_WGID p)) as Heng.
    { intros p Hp'. assert (ep_WGID p ∈ map wb_WGID news) as Hin by (rewrite Hw; apply list_elem_of_fmap; by exists p).
      apply list_elem_of_fmap in Hin as (b & E & Hb'). apply list_elem_of_lookup in Hb' as [k Hk'].
      destruct (Hb k b Hk') as (e & Hbe & _). exists e. apply He. right. exists b, (mkEngineRef (Some (0 + Z.of_nat k)) (dom_state domain) e).
      apply list_elem_of_lookup_2 in Hk'. done. }
    destruct (freeze_routes_ok engines (concat (map ep_Routes (p0 :: plans))) ∅ ∅) as [[frozen marks] Hf].
    + intros r (p & Hp' & Hr)%all_routes. destruct (Hp p Hp') as (_ & _ & _ & _ & Hro).
      destruct (Hro r Hr) as [-> ?]. split; [done|by apply Heng].
    + done.
    + intros. apply lookup_empty.
    + intros wg m. by rewrite lookup_empty.
    + fold g. rewrite Hf. cbn [obind]. apply freeze_routes_spec in Hf as (_ & Hmarks & _).
      destruct (existsb _ _) eqn:Hex; [|eauto]. exfalso. apply existsb_exists in Hex as (wg & Hin & Hwg).
      apply negb_true_iff, bool_decide_eq_false in Hwg. apply Hwg.
      apply list_elem_of_In, list_elem_of_fmap in Hin as ([wg' e] & -> & Hin%elem_of_map_to_list).
      apply He in Hin as [?|(b & ref & Hbin & <- & _)]; [done|].
      assert (wb_WGID b ∈ map ep_WGID (p0 :: plans)) as Hin by (rewrite <- Hw; apply list_elem_of_fmap; by exists b).
      apply list_elem_of_fmap in Hin as (p & E & Hp'). destruct (Hp p Hp') as (_ & _ & Hpr & _ & Hro).
      destruct (ep_Routes p) as [|r l] eqn:El; [done|]. exists (rt_FWMark r). apply Hmarks. right. exists r.
      split; [apply all_routes; exists p; rewrite El; split; [done|by left]|]. split; [|done].
      cbn [fst]. rewrite E. symmetry. apply Hro. by left.
Qed.
End router.

(** ** Engine options of a valid transport *)

Lemma production_options_ok wg g : g <> 0 ->
  faketcp_typed (ws_FakeTCP wg) -> faketcp_limits (ws_FakeTCP wg) ->
  validateFakeTCPProductionEngineOptions (production_options wg g) = Ret tt.
Proof.
  intros Hg Ht Hl. unfold faketcp_typed in Ht. decompose_Forall. unfold faketcp_limits in Hl.
  decompose [and] Hl. assert (0 < Millisecond /\ 0 < Second) as [? ?] by by vm_compute.
  unfold validateFakeTCPProductionEngineOptions. cbn. by decide_lia.
Qed.

Lemma production_engine_ok wg identity now : RI_Generation identity <> 0 ->
  faketcp_typed (ws_FakeTCP wg) -> faketcp_limits (ws_FakeTCP wg) ->
  exists e, newEngine (with_Store (production_options wg (RI_Generation identity))) identity now = Ret e.
Proof.
  intros Hg Ht Hl. unfold faketcp_typed in Ht. decompose_Forall. unfold faketcp_limits in Hl.
  decompose [and] Hl. assert (0 < Millisecond /\ 0 < Second) as [? ?] by by vm_compute.
  unfold newEngine, limits_ok, admission_limits_ok, timeouts_ok. cbn. rewrite Z.eqb_refl.
  decide_lia. by eexists.
Qed.

(** ** The loop over the WireGuards *)

Definition empty_plan (g : Z) (wg : WireGuardState) : WGEnginePlan :=
  mkEnginePlan (ws_ID wg) (production_options wg g) [].

(** The WireGuards the loop plans for. *)
Definition plannable (g : Z) (referenced : list Z) (wg : WireGuardState) : Prop :=
  ws_ID wg <> 0 /\ is_faketcp_state wg = true /\ ws_ID wg ∈ referenced /\
  ws_RuntimeStateAvailable wg = true /\ ws_RuntimeFirewallMark wg <> 0 /\
  validateFakeTCPProductionEngineOptions (production_options wg g) = Ret tt.

Lemma plan_wireguards_ok seed g referenced l : forall previous s,
  (forall wg, wg ∈ l -> plannable g referenced wg) -> NoDup (map ws_ID l) ->
  (forall wg, wg ∈ l -> previous <> Some (ws_ID wg)) ->
  exists index byID,
    plan_wireguards (Ret seed) g referenced previous s l = Ret (mkPlanState
      (pn_plans s ++ map (empty_plan g) l) index byID
      (foldl add_options (pn_aggregates s) (map (fun wg => production_options wg g) l))) /\
    (forall k wg, l !! k = Some wg -> index !! ws_ID wg = Some (length (pn_plans s) + k)%nat /\
       byID !! ws_ID wg = Some wg) /\
    (forall id, id ∉ map ws_ID l -> index !! id = pn_planIndex s !! id /\
       byID !! id = pn_wireGuardByID s !! id).
Proof.
  induction l as [|wg l IH]; intros previous s Hl Hn Hp; cbn [plan_wireguards].
  { destruct s. do 2 eexists. rewrite app_nil_r. split_and!; [done|by intros ? ? ?|done]. }
  apply list.NoDup_cons in Hn as [Hwg Hn].
  destruct (Hl wg) as (Hz & Hft & Href & Hav & Hm & Ho); [by left|].
  destruct (Z.eqb_spec (ws_ID wg) 0); [done|]. rewrite Hft. cbn [negb orb].
  rewrite bool_decide_false by (apply Hp; by left). cbn zeta. rewrite bool_decide_true, Hav by done.
  destruct (Z.eqb_spec (ws_RuntimeFirewallMark wg) 0); [done|]. cbn [negb orb].
  unfold fakeTCPProductionEngineOptions. cbn [obind]. cbn zeta. rewrite Ho. cbn [obind].
  destruct (IH (Some (ws_ID wg)) (mkPlanState (pn_plans s ++ [empty_plan g wg])
    (<[ws_ID wg := length (pn_plans s)]> (pn_planIndex s)) (<[ws_ID wg := wg]> (pn_wireGuardByID s))
    (add_options (pn_aggregates s) (production_options wg g)))) as (index & byID & Hr & Hin & Hout).
  - intros. apply Hl. by right.
  - done.
  - intros w Hw [= E]. apply Hwg, list_elem_of_fmap. by exists w.
  - unfold empty_plan in Hr at 1. rewrite Hr. cbn. exists index, byID.
    rewrite <- app_assoc. split_and!; [done|..].
    + intros [|k] w Hk; cbn in Hk.
      * injection Hk as <-. destruct (Hout _ Hwg) as [-> ->]. cbn. by rewrite !lookup_insert_eq, Nat.add_0_r.
      * destruct (Hin k w Hk) as [-> ->]. cbn. rewrite length_app. cbn. split; [f_equal; lia|done].
    + intros id [Hne Hid]%not_elem_of_cons. destruct (Hout id Hid) as [-> ->]. cbn.
      by rewrite !lookup_insert_ne.
Qed.

(** The sums are exact. *)
Lemma aggregates_exact g l : forall a,
  (forall wg, wg ∈ l -> faketcp_typed (ws_FakeTCP wg)) ->
  Forall (fun v => 0 <= v /\ v + 2 ^ 32 * len l < 2 ^ 64)
    [ag_Sessions a; ag_HalfOpen a; ag_SourceLedger a; ag_PendingFlows a; ag_PendingBytes a] ->
  let sum f := sum_of f (map ws_FakeTCP l) in
  foldl add_options a (map (fun wg => production_options wg g) l) = mkAggregates
    (ag_Sessions a + sum ft_SessionCapacity) (ag_HalfOpen a + sum ft_MaxHalfOpenSessions)
    (ag_SourceLedger a + sum ft_SYNSourceLedgerCapacity) (ag_PendingFlows a + sum ft_MaxPendingFlows)
    (ag_PendingBytes a + sum ft_MaxPendingBytes).
Proof.
  induction l as [|wg l IH]; intros a Ht Ha; cbn zeta.
  { destruct a. cbn. f_equal; lia. }
  assert (faketcp_typed (ws_FakeTCP wg)) as Hwg by (apply Ht; by left).
  unfold faketcp_typed in Hwg. decompose_Forall. rewrite len_cons in *. pose proof (len_nonneg l).
  cbn [map foldl]. rewrite IH; [|intros; apply Ht; by right|].
  - unfold add_options. cbn. rewrite !u64_small by lia. f_equal; lia.
  - unfold add_options. cbn. rewrite !u64_small by lia. repeat constructor; lia.
Qed.

(** ** The loop over the managed ports *)

Section routes.
Context (g : Z) (index : gmap Z nat) (byID : gmap Z WireGuardState).

Definition route_of (e : fakeTCPManagedPortPlanEntry) : EngineRoute :=
  mkRoute g e.1.1.2 e.1.2 (mpv_WGID e.2)
    (default 0 (ws_RuntimeFirewallMark <$> byID !! mpv_WGID e.2)) (mpv_Action e.2).

(** A plan with the routes of its WireGuard among [l]. *)
Definition with_routes (l : list fakeTCPManagedPortPlanEntry) (p : WGEnginePlan) : WGEnginePlan :=
  mkEnginePlan (ep_WGID p) (ep_Options p)
    (ep_Routes p ++ map route_of (filter (fun e => mpv_WGID e.2 = ep_WGID p) l)).

Definition port_ok (e : fakeTCPManagedPortPlanEntry) : Prop :=
  e.1.1.1 = g /\ mpv_Generation e.2 = g /\ e.1.1.2 <> 0 /\ e.1.2 <> 0 /\ mpv_Action e.2 = ActionRewrite.

Lemma alter_plan plans i p r : plans !! i = Some p -> NoDup (map ep_WGID plans) ->
  alter (append_route r) i plans =
  map (fun q => if decide (ep_WGID q = ep_WGID p) then append_route r q else q) plans.
Proof.
  intros Hi Hn. apply list_eq. intros j. rewrite list_lookup_fmap.
  destruct (decide (i = j)) as [<-|Hne].
  - rewrite list_lookup_alter_eq, Hi. cbn. by rewrite decide_True.
  - rewrite list_lookup_alter_ne by done. destruct (plans !! j) as [q|] eqn:Hj; [|done]. cbn.
    rewrite decide_False; [done|]. intros E. apply Hne. eapply (NoDup_lookup _ _ _ (ep_WGID p) Hn);
      rewrite list_lookup_fmap; [by rewrite Hi|rewrite Hj; cbn; by rewrite E].
Qed.

Lemma plan_routes_spec l : forall plans, NoDup (map ep_WGID plans) ->
  (forall e, e ∈ l -> port_ok e /\ exists i p, index !! mpv_WGID e.2 = Some i /\
     plans !! i = Some p /\ ep_WGID p = mpv_WGID e.2) ->
  plan_routes g index byID plans l = Ret (map (with_routes l) plans).
Proof.
  induction l as [|e l IH]; intros plans Hn Hl; cbn [plan_routes].
  { f_equal. rewrite <- (map_id plans) at 1. apply map_ext. intros []. unfold with_routes. cbn.
    by rewrite app_nil_r. }
  destruct (Hl e) as [(Hg & Hvg & Hx & Hp & Ha) (i & p & Hi & Hip & Hid)]; [by left|].
  destruct e as [[[kg idx] port] v]. cbn in *. rewrite Hi, Hg, Hvg, Ha, !Z.eqb_refl.
  destruct (Z.eqb_spec idx 0); [done|]. destruct (Z.eqb_spec port 0); [done|]. cbn [negb orb].
  rewrite <- Ha. erewrite alter_plan by done. rewrite Hid. rewrite IH.
  - f_equal. rewrite map_map. apply map_ext. intros q. unfold with_routes. rewrite filter_cons. cbn.
    destruct (decide (ep_WGID q = mpv_WGID v)) as [E|E]; cbn.
    + rewrite decide_True by done. cbn. by rewrite <- app_assoc.
    + by rewrite decide_False.
  - rewrite map_map. erewrite map_ext; [exact Hn|]. intros q. by case_decide.
  - intros e' He'. destruct (Hl e') as [? (i' & p' & ? & Hp' & E')]; [by right|]. split; [done|].
    eexists i', _. split; [done|]. rewrite list_lookup_fmap, Hp'. cbn. split; [done|].
    by case_decide.
Qed.

(** Distinct ports give distinct routes. *)
Lemma routes_distinct l plans : NoDup (map fst l) -> NoDup (map ep_WGID plans) ->
  (forall e, e ∈ l -> e.1.1.1 = g) -> (forall p, p ∈ plans -> ep_Routes p = []) ->
  NoDup (map route_key (concat (map ep_Routes (map (with_routes l) plans)))).
Proof.
  intros Hl Hn Hg. induction plans as [|p plans IH]; intros Hr; cbn [map concat]; [apply NoDup_nil_2|].
  cbn [map] in Hn. apply list.NoDup_cons in Hn as [Hp Hn]. rewrite map_app. apply NoDup_app. split_and!.
  - cbn. rewrite Hr by (by left). cbn [app]. rewrite map_map. clear -Hl Hg.
    induction l as [|e l IH]; [apply NoDup_nil_2|]. cbn [map] in Hl. apply list.NoDup_cons in Hl as [He Hl].
    assert (NoDup (map (fun x => route_key (route_of x)) (filter (fun e => mpv_WGID e.2 = ep_WGID p) l)))
      as Hrest by (apply IH; [done|intros; apply Hg; by right]).
    rewrite filter_cons. case_decide; [|done]. cbn [map]. apply list.NoDup_cons. split; [|done].
    intros (e' & E & [_ He']%list_elem_of_filter)%list_elem_of_fmap. apply He, list_elem_of_fmap.
    exists e'. split; [|done]. pose proof (Hg e (list_elem_of_here _ _)) as G.
    pose proof (Hg e' (list_elem_of_further _ _ _ He')) as G'.
    destruct e as [[[? ?] ?] ?], e' as [[[? ?] ?] ?]. cbn in *. unfold route_key, route_of in E.
    cbn in E. congruence.
  - intros k (r & -> & Hk)%list_elem_of_fmap (r' & E & Hk')%list_elem_of_fmap.
    apply all_routes in Hk' as (q & (q0 & -> & Hq0)%list_elem_of_fmap & Hq).
    cbn in Hk, Hq. rewrite Hr in Hk by (by left). rewrite Hr in Hq by (by right). cbn [app] in Hk, Hq.
    apply list_elem_of_fmap in Hk as (e & -> & [He _]%list_elem_of_filter).
    apply list_elem_of_fmap in Hq as (e' & -> & [He' _]%list_elem_of_filter).
    unfold route_key, route_of in E. cbn in E. apply (f_equal snd) in E. cbn in E. apply Hp, list_elem_of_fmap.
    exists q0. split; [congruence|done].
  - apply IH; [done|]. intros. apply Hr. by right.
Qed.
End routes.

(** ** A validated configuration *)

Lemma sum_of_perm {A} (f : A -> Z) l l' : l ≡ₚ l' -> sum_of f l = sum_of f l'.
Proof. induction 1; rewrite ?sum_of_cons; lia. Qed.

Lemma index_ids_ok m l :
  NoDup (map ws_ID l) -> (forall wg, wg ∈ l -> ws_ID wg <> 0 /\ m !! ws_ID wg = None) ->
  exists m', index_ids m l = Ret m' /\ (forall wg, wg ∈ l -> m' !! ws_ID wg = Some wg).
Proof.
  intros Hn Hl. destruct (index_wireguards_ok m l Hn Hl) as (m' & Hi & _ & Hm & _).
  exists m'. split; [|done]. revert m Hl Hi. clear Hm. induction l as [|wg l IH]; intros m Hl Hi; [done|].
  cbn in *. apply list.NoDup_cons in Hn as [Hwg Hn]. destruct (Hl wg) as [Hz Hm]; [by left|].
  rewrite bool_decide_false in * by (rewrite Hm; by intros []).
  destruct (Z.eqb_spec (ws_ID wg) 0); [done|]. apply IH; [done| |done].
  intros w Hw. destruct (Hl w) as [? Hw']; [by right|]. split; [done|].
  rewrite lookup_insert_ne; [done|]. intros E. apply Hwg, list_elem_of_fmap. by exists w.
Qed.

Lemma faketcp_elem l wg : wg ∈ faketcp_wireguards l <-> wg ∈ l /\ is_faketcp_state wg = true.
Proof. unfold faketcp_wireguards. rewrite list_elem_of_filter. tauto. Qed.

Section pipeline.
Context `{ControlEnv} (order po co : list string) (cfg : Config) (st : State) (g : Z).
Context (Ht : config_typed cfg) (Hv : ValidateStatic order cfg = Ret tt).
Context (Hb : BuildState po co cfg false = Ret st).
Context (Hres : forall u, u ∈ st_Underlays st ->
  us_Role u = "transform" /\ 0 < us_IfIndex u < 4294967296).
Context (wg0 : WireGuardState) (u0 : UnderlayState).
Context (Ha0 : active_in st wg0 u0) (Hft0 : is_faketcp_state wg0 = true) (Hg : g <> 0).

Lemma state_faketcps : map ws_FakeTCP (faketcp_wireguards (st_WireGuards st)) = faketcps cfg.
Proof using Hb.
  destruct (BuildState_inv _ _ _ _ _ Hb) as (ps & cs & _ & _ & _ & _ & _ & _ & Hw & _).
  apply (build_wireguards_spec _ _ _ _ 0%nat) in Hw as [Hl Hw]. unfold faketcps, faketcp_wireguards.
  assert (Forall2 (fun w s => ws_TransportMode s = tr_Mode (wg_Transport w) /\
    ws_FakeTCP s = tr_FakeTCP (wg_Transport w)) (c_WireGuards cfg) (st_WireGuards st)) as HF.
  { apply Forall2_same_length_lookup_2; [done|]. intros k w s Hk Hs.
    by destruct (Hw k w s Hk Hs) as (_ & _ & ? & _ & _ & ? & _). }
  clear Hl Hw. induction HF as [|w s ws ss [Hm Hf] _ IH]; [done|]. rewrite !filter_cons.
  assert (is_faketcp_state s = is_faketcp w) as E by (unfold is_faketcp_state, is_faketcp; by rewrite Hm).
  destruct (is_faketcp w) eqn:Ew.
  - rewrite !decide_True by done. cbn [map]. by rewrite Hf, IH.
  - rewrite !decide_False by (congruence || by intros []). exact IH.
Qed.

Lemma faketcp_state_ok wg : wg ∈ st_WireGuards st -> is_faketcp_state wg = true ->
  faketcp_typed (ws_FakeTCP wg) /\ faketcp_limits (ws_FakeTCP wg).
Proof using Ht Hv Hb.
  intros Hwg Hft. split; [|by apply (state_wg order po co cfg st Ht Hv Hb wg Hwg)].
  apply (faketcps_typed cfg _ Ht). rewrite <- state_faketcps. apply list_elem_of_fmap.
  exists wg. split; [done|]. by apply faketcp_elem.
Qed.

Lemma faketcp_count : 0 < len (faketcp_wireguards (st_WireGuards st)) <= 256.
Proof using Ht Hv Hb Ha0 Hft0.
  split.
  - assert (wg0 ∈ faketcp_wireguards (st_WireGuards st)) as Hin by (apply faketcp_elem; split; [apply Ha0|done]).
    destruct (faketcp_wireguards _) as [|w l]; [by apply elem_of_nil in Hin|].
    rewrite len_cons. pose proof (len_nonneg l). lia.
  - assert (len (faketcp_wireguards (st_WireGuards st)) = len (faketcps cfg)) as ->
      by (rewrite <- state_faketcps; unfold len; by rewrite length_map).
    pose proof (len_faketcps cfg). pose proof (static_rule_bound _ _ Ht Hv) as Hbound.
    pose proof Hv as (_ & _ & _ & _ & _ & Hne & _)%ValidateStatic_inv.
    pose proof (len_nonneg (c_WireGuards cfg)). unfold MaxManagedRulesPerGeneration in Hbound. nia.
Qed.

Lemma references_ok : validateFakeTCPProductionReferences st =
  Ret (merge_sort id_le (faketcp_wireguards (st_WireGuards st))).
Proof using Ht Hv Hb Ha0 Hft0.
  unfold validateFakeTCPProductionReferences.
  destruct (BuildState_inv _ _ _ _ _ Hb) as (_ & _ & _ & _ & Hgen & _). rewrite Hgen. cbn [Z.eqb].
  destruct (index_ids_ok ∅ (st_WireGuards st)) as (ids & -> & Hids).
  { by apply (state_ids order po co cfg st Ht Hv Hb). }
  { intros wg Hwg. split; [|done]. by apply (state_wg order po co cfg st Ht Hv Hb). }
  cbn [obind]. cbn zeta. pose proof faketcp_count as Hc.
  destruct (Z.eqb_spec (len (faketcp_wireguards (st_WireGuards st))) 0); [lia|].
  destruct (Z.ltb_spec fakeTCPControlPoliciesPerGeneration (len (faketcp_wireguards (st_WireGuards st))));
    [unfold fakeTCPControlPoliciesPerGeneration in *; lia|].
  assert (forall wg u, active_in st wg u -> reference_ok ids (ws_ID wg) (ws_TransportMode wg) = Ret tt) as Hr.
  { intros wg u (Hwg & _). unfold reference_ok. rewrite (Hids wg Hwg). by rewrite String.eqb_refl. }
  rewrite (proj2 (for_each_iff _ (st_EgressRules st))).
  2: { intros r (wg & u & f & Ha & _ & ->)%(egress_elem po co cfg st Hb). cbn. by eapply Hr. }
  cbn [obind]. rewrite (proj2 (for_each_iff _ (st_IngressListeners st))); [done|].
  intros r (wg & u & f & Ha & _ & ->)%(ingress_elem po co cfg st Hb). cbn. by eapply Hr.
Qed.

(** The managed ports of a plan are those of the FakeTCP WireGuards. *)
Definition state_ports (l : list fakeTCPManagedPortPlanEntry) : Prop :=
  NoDup (map fst l) /\ forall e, e ∈ l <-> exists wg u, active_in st wg u /\
    is_faketcp_state wg = true /\ e = ((g, us_IfIndex u, ws_RuntimeListenPort wg),
      mkPort g (ws_ID wg) ActionRewrite (zeros 3)).

Lemma frozen_ports wg_of s :
  projected g wg_of (ft_listeners (st_IngressListeners st)) s ->
  state_ports (pl_managedPorts (freezeFakeTCPPolicyGenerationPlan s)).
Proof using Ht Hv Hb Hres.
  intros Hp. cbn. split.
  - rewrite (merge_sort_Permutation port_le). apply NoDup_fst_map_to_list.
  - intros [k v]. rewrite (merge_sort_Permutation port_le), elem_of_map_to_list.
    rewrite (projected_ports order po co cfg st g Ht Hv Hb Hres wg_of s Hp). split.
    + intros (wg & u & Ha & Hft & -> & ->). eauto.
    + intros (wg & u & Ha & Hft & [= -> ->]). exists wg, u. done.
Qed.

Lemma state_id_inj wg wg' : wg ∈ st_WireGuards st -> wg' ∈ st_WireGuards st ->
  ws_ID wg = ws_ID wg' -> wg = wg'.
Proof using Ht Hv Hb.
  intros [i Hi]%list_elem_of_lookup [j Hj]%list_elem_of_lookup E.
  pose proof (state_ids order po co cfg st Ht Hv Hb) as Hn.
  assert (i = j) as <-; [|congruence]. apply (NoDup_lookup _ _ _ (ws_ID wg) Hn);
    rewrite list_lookup_fmap; [by rewrite Hi|rewrite Hj; cbn; by rewrite E].
Qed.

Section ordered.
Context (ordered : list WireGuardState) (Hord : ordered ≡ₚ faketcp_wireguards (st_WireGuards st)).
Context (ports : list fakeTCPManagedPortPlanEntry) (Hports : state_ports ports).

Lemma ordered_elem wg : wg ∈ ordered <-> wg ∈ st_WireGuards st /\ is_faketcp_state wg = true.
Proof using Hord. by rewrite Hord, faketcp_elem. Qed.

Lemma ordered_ids : NoDup (map ws_ID ordered).
Proof using Ht Hv Hb Hord.
  rewrite Hord. pose proof (state_ids order po co cfg st Ht Hv Hb) as Hn. unfold faketcp_wireguards.
  clear -Hn. induction (st_WireGuards st) as [|wg l IH]; [done|]. cbn [map] in Hn. apply list.NoDup_cons in Hn as [Hwg Hn].
  rewrite filter_cons. case_decide; [|by apply IH]. cbn [map]. apply list.NoDup_cons. split; [|by apply IH].
  intros (w & E & [_ Hw]%list_elem_of_filter)%list_elem_of_fmap. apply Hwg, list_elem_of_fmap. by exists w.
Qed.

Lemma ordered_plannable wg : wg ∈ ordered ->
  plannable g (map (fun e => mpv_WGID e.2) ports) wg.
Proof using Ht Hv Hb Hord Hports Ha0 Hg.
  intros [Hwg Hft]%ordered_elem. destruct (state_wg order po co cfg st Ht Hv Hb wg Hwg) as (Hz & Hm & _ & Hav & _).
  destruct (faketcp_state_ok wg Hwg Hft). split_and!; try done; [|by apply production_options_ok].
  apply list_elem_of_fmap. exists ((g, us_IfIndex u0, ws_RuntimeListenPort wg),
    mkPort g (ws_ID wg) ActionRewrite (zeros 3)). split; [done|]. apply Hports. exists wg, u0.
  destruct Ha0 as (_ & ? & ? & ?). by split_and!.
Qed.

(** The configured budgets bound the aggregates. *)
Lemma ordered_aggregates :
  existsb (fun '(value, max) => max <? value) (aggregate_limits
    (foldl add_options (mkAggregates 0 0 0 0 0) (map (fun wg => production_options wg g) ordered))) = false.
Proof using Ht Hv Hb Hord Ha0 Hft0.
  pose proof Hv as (_ & _ & _ & _ & Hcap & Hne & _)%ValidateStatic_inv.
  apply capacity_inv in Hcap as (_ & _ & _ & Hbudget); [|done|done].
  rewrite aggregates_exact; cycle 1.
  - intros wg [Hwg Hft]%ordered_elem. by apply faketcp_state_ok.
  - pose proof faketcp_count as Hc. unfold len in *. rewrite <- Hord in Hc. cbn. repeat constructor; lia.
  - cbn zeta. assert (forall f, sum_of f (map ws_FakeTCP ordered) = sum_of f (faketcps cfg)) as Hs.
    { intros f. apply sum_of_perm. rewrite <- state_faketcps. by rewrite Hord. }
    rewrite !Hs. unfold budgets_ok in Hbudget. decompose [and] Hbudget. cbn -[Z.add].
    rewrite !Z.add_0_l. by decide_lia.
Qed.

Lemma routes_elem (byID : gmap Z WireGuardState) wg r :
  (forall w, w ∈ ordered -> byID !! ws_ID w = Some w) -> wg ∈ ordered ->
  r ∈ ep_Routes (with_routes g byID ports (empty_plan g wg)) <-> exists u, active_in st wg u /\
    r = mkRoute g (us_IfIndex u) (ws_RuntimeListenPort wg) (ws_ID wg) (ws_RuntimeFirewallMark wg) ActionRewrite.
Proof using Ht Hv Hb Hord Hports.
  intros Hby Hin. pose proof (proj1 (ordered_elem wg) Hin) as [Hwg Hft]. cbn. rewrite list_elem_of_fmap. split.
  - intros (e & -> & [Hid (w & u & Ha & Hwft & ->)%Hports]%list_elem_of_filter). cbn in Hid.
    apply state_id_inj in Hid as ->; [|apply Ha|done]. exists u. split; [done|].
    unfold route_of. cbn. by rewrite (Hby wg Hin).
  - intros (u & Ha & ->). exists ((g, us_IfIndex u, ws_RuntimeListenPort wg),
      mkPort g (ws_ID wg) ActionRewrite (zeros 3)). split.
    + unfold route_of. cbn. by rewrite (Hby wg Hin).
    + apply list_elem_of_filter. split; [done|]. apply Hports. eauto.
Qed.
End ordered.

Definition planned (byID : gmap Z WireGuardState) ports (ordered : list WireGuardState) : list WGEnginePlan :=
  map (with_routes g byID ports) (map (empty_plan g) ordered).

Lemma routes_nonempty ordered ports (byID : gmap Z WireGuardState) wg :
  ordered ≡ₚ faketcp_wireguards (st_WireGuards st) -> state_ports ports ->
  (forall w, w ∈ ordered -> byID !! ws_ID w = Some w) -> wg ∈ ordered ->
  ep_Routes (with_routes g byID ports (empty_plan g wg)) <> [].
Proof using Ht Hv Hb Ha0.
  intros Hord Hports Hby Hin E. pose proof (proj1 (ordered_elem ordered Hord wg) Hin) as [Hwg _].
  eapply elem_of_nil. rewrite <- E. apply (routes_elem ordered Hord ports Hports byID wg); [done|done|].
  exists u0. split; [|done]. destruct Ha0 as (_ & ? & ? & ?). by split_and!.
Qed.

Lemma engine_plans_ok seed wgs s :
  wgs ≡ₚ faketcp_wireguards (st_WireGuards st) -> validateFakeTCPPolicySnapshot s = Ret tt ->
  fs_Generation s = g -> state_ports (pl_managedPorts (freezeFakeTCPPolicyGenerationPlan s)) ->
  exists ordered byID, ordered ≡ₚ faketcp_wireguards (st_WireGuards st) /\
    (forall w, w ∈ ordered -> byID !! ws_ID w = Some w) /\
    fakeTCPProductionEnginePlans (Ret seed) wgs (freezeFakeTCPPolicyGenerationPlan s) g =
      Ret (planned byID (pl_managedPorts (freezeFakeTCPPolicyGenerationPlan s)) ordered).
Proof using Ht Hv Hb Hres Ha0 Hft0 Hg.
  intros Hp Hvs Hgs Hports. set (plan := freezeFakeTCPPolicyGenerationPlan s) in *.
  assert (merge_sort id_le wgs ≡ₚ faketcp_wireguards (st_WireGuards st)) as Hord
    by (by rewrite merge_sort_Permutation).
  unfold fakeTCPProductionEnginePlans. set (ordered := merge_sort id_le wgs) in *. exists ordered.
  destruct (Z.eqb_spec g 0); [done|]. pose proof faketcp_count as Hc.
  destruct (Z.eqb_spec (len wgs) 0) as [E|_].
  { unfold len in *. rewrite Hp in E. lia. }
  cbn [orb]. assert (validateFakeTCPPolicyGenerationPlan plan = Ret tt) as -> by (by apply freeze_valid). cbn [obind].
  replace (pl_generation plan =? g) with true by (symmetry; apply Z.eqb_eq; exact Hgs). cbn [negb]. cbn zeta.
  assert (wg0 ∈ ordered) as H0 by (apply (ordered_elem ordered Hord); split; [apply Ha0|done]).
  destruct (ordered_plannable ordered Hord _ Hports wg0 H0) as (_ & _ & Href & _).
  destruct (Z.eqb_spec (len (map (fun e => mpv_WGID e.2) (pl_managedPorts plan))) 0) as [E|_].
  { destruct (map _ _) as [|x l]; [by apply elem_of_nil in Href|]. rewrite len_cons in E.
    pose proof (len_nonneg l). lia. }
  destruct (plan_wireguards_ok seed g (map (fun e => mpv_WGID e.2) (pl_managedPorts plan)) ordered None
    (mkPlanState [] ∅ ∅ (mkAggregates 0 0 0 0 0))) as (index & byID & Hr & Hin & _).
  { by apply ordered_plannable. } { by apply ordered_ids. } { done. }
  rewrite Hr. cbn [obind pn_aggregates pn_plans pn_planIndex pn_wireGuardByID app].
  rewrite (ordered_aggregates ordered Hord). exists byID.
  assert (forall w, w ∈ ordered -> byID !! ws_ID w = Some w) as Hby.
  { intros w [k Hk]%list_elem_of_lookup. by apply (Hin k). }
  split_and!; [done|done|]. rewrite plan_routes_spec.
  - cbn [obind]. fold (planned byID (pl_managedPorts plan) ordered).
    destruct (existsb _ (planned _ _ _)) eqn:Hex; [|done]. exfalso.
    apply existsb_exists in Hex as (p & Hpin & E). unfold planned in Hpin. rewrite map_map in Hpin.
    apply list_elem_of_In, list_elem_of_fmap in Hpin as (wg & -> & Hwg).
    apply (routes_nonempty ordered (pl_managedPorts plan) byID wg); [done..|].
    destruct (ep_Routes _) as [|r l]; [done|]. apply Z.eqb_eq in E. rewrite len_cons in E.
    pose proof (len_nonneg l). lia.
  - rewrite map_map. cbn. by apply ordered_ids.
  - intros e (wg & u & Ha & Hft & ->)%Hports. cbn.
    destruct (state_wg order po co cfg st Ht Hv Hb wg (proj1 Ha)) as (_ & _ & Hport & _).
    destruct (Hres u); [apply Ha|]. split; [by split_and!; cbn; [..|lia|done|done]|].
    assert (wg ∈ ordered) as Hwg by (apply (ordered_elem ordered Hord); split; [apply Ha|done]).
    apply list_elem_of_lookup in Hwg as [k Hk]. exists k, (empty_plan g wg).
    destruct (Hin k wg Hk) as [-> _]. by rewrite list_lookup_fmap, Hk.
Qed.

Section built.
Context (ordered : list WireGuardState) (Hord : ordered ≡ₚ faketcp_wireguards (st_WireGuards st)).
Context (ports : list fakeTCPManagedPortPlanEntry) (Hports : state_ports ports).
Context (byID : gmap Z WireGuardState) (Hby : forall w, w ∈ ordered -> byID !! ws_ID w = Some w).
Context (token : Z) (inc : list Z) (nows : Z -> Z).
Let domain := mkDomain token (mkRuntimeIdentity g inc) (mkAllocator 0).
Let plans := map inject_store (planned byID ports ordered).

Lemma planned_elem p : p ∈ plans <-> exists wg, wg ∈ ordered /\
  p = inject_store (with_routes g byID ports (empty_plan g wg)).
Proof.
  unfold plans, planned. rewrite !map_map, list_elem_of_fmap. split; intros (wg & ? & ?); eauto.
Qed.

Lemma planned_ok p : p ∈ plans ->
  plan_ok domain (fun id => default 0 (ws_RuntimeFirewallMark <$> byID !! id)) p.
Proof using Ht Hv Hb Hres Ha0 Hg Hord Hports Hby.
  intros (wg & Hwg & ->)%planned_elem. pose proof (proj1 (ordered_elem ordered Hord wg) Hwg) as [Hin Hft].
  destruct (state_wg order po co cfg st Ht Hv Hb wg Hin) as (Hz & Hm & Hport & _).
  destruct (faketcp_state_ok wg Hin Hft). split_and!; try done.
  - by apply (routes_nonempty ordered).
  - intros now. by apply (production_engine_ok wg (mkRuntimeIdentity g inc) now).
  - intros r (u & Ha & ->)%(routes_elem ordered Hord ports Hports byID wg); [|done|done].
    destruct (Hres u); [apply Ha|]. split; [done|]. split_and!; cbn; try done; [lia|by rewrite (Hby wg)].
Qed.

Lemma planned_router : exists router, NewEngineRouterFromPlans domain nows plans = Ret router.
Proof using Ht Hv Hb Hres Ha0 Hft0 Hg Hord Hports Hby.
  apply (from_plans_ok domain nows (fun id => default 0 (ws_RuntimeFirewallMark <$> byID !! id))).
  - intros E. eapply elem_of_nil. rewrite <- E. apply planned_elem. exists wg0. split; [|done].
    apply (ordered_elem ordered Hord). split; [apply Ha0|done].
  - apply planned_ok.
  - unfold plans, planned. rewrite !map_map. cbn. by apply ordered_ids.
  - unfold plans, planned. rewrite !map_map. cbn [inject_store ep_Routes].
    rewrite <- (map_map (fun x => with_routes g byID ports (empty_plan g x)) ep_Routes).
    rewrite <- (map_map (empty_plan g) (with_routes g byID ports)). apply routes_distinct.
    + apply Hports.
    + rewrite map_map. cbn. by apply ordered_ids.
    + by intros e (wg & u & _ & _ & ->)%Hports.
    + by intros p (wg & -> & _)%list_elem_of_fmap.
Qed.

Lemma planned_build : exists router rep,
  build_router token (Ret inc) nows (planned byID ports ordered) g = Ret (domain, router, rep) /\
  (forall k t, er_routes router !! k = Some t <-> exists wg u, active_in st wg u /\
     is_faketcp_state wg = true /\ k = (g, us_IfIndex u, ws_RuntimeListenPort wg, ws_ID wg) /\
     t = mkTarget (ws_ID wg) (ws_RuntimeFirewallMark wg)) /\
  (forall id, is_Some (er_engines router !! id) <-> exists wg, wg ∈ st_WireGuards st /\
     is_faketcp_state wg = true /\ ws_ID wg = id) /\
  (forall wg e, wg ∈ st_WireGuards st -> er_engines router !! ws_ID wg = Some e ->
     e_identity e = mkRuntimeIdentity g inc /\ e_sessions e = ∅ /\
     e_opts e = with_Store (production_options wg g)).
Proof using Ht Hv Hb Hres Ha0 Hft0 Hg Hord Hports Hby.
  destruct planned_router as [router Hr]. exists router.
  destruct (from_plans_spec _ _ _ _ Hr) as (Hid & Hok & _ & Hdom & Hnew & _ & Hroutes).
  destruct (ro_ids _ Hok) as [Hne Hids]. destruct (er_wgIDs router) as [|rep ids] eqn:Eids; [done|].
  exists rep. split_and!.
  - unfold build_router, NewRuntimeDomain. destruct (Z.eqb_spec g 0); [done|]. cbn [obind].
    fold domain plans. rewrite Hr. cbn [obind]. cbn zeta. unfold WGIDs. rewrite Eids.
    rewrite (proj2 (for_each_iff _ (rep :: ids))); [done|]. intros id Hin. rewrite Hids in Hin.
    destruct Hin as [e He]. unfold router_engine. rewrite He.
    apply Hnew in He as (p & now & _ & _ & He). apply newEngine_fields in He as (-> & _).
    by rewrite bool_decide_true.
  - intros k t. rewrite Hroutes. split.
    + intros (p & r & (wg & Hwg & ->)%planned_elem & Hpr & -> & ->).
      apply (routes_elem ordered Hord ports Hports byID wg) in Hpr as (u & Ha & ->); [|done|done].
      exists wg, u. split_and!; try done. by apply (ordered_elem ordered Hord).
    + intros (wg & u & Ha & Hft & -> & ->).
      assert (wg ∈ ordered) as Hwg by (apply (ordered_elem ordered Hord); split; [apply Ha|done]).
      exists (inject_store (with_routes g byID ports (empty_plan g wg))),
        (mkRoute g (us_IfIndex u) (ws_RuntimeListenPort wg) (ws_ID wg) (ws_RuntimeFirewallMark wg) ActionRewrite).
      split; [by apply planned_elem; eauto|]. split; [|done].
      by apply (routes_elem ordered Hord ports Hports byID wg); [..|exists u].
  - intros id. rewrite Hdom. split.
    + intros (p & (wg & Hwg & ->)%planned_elem & <-). exists wg. apply (ordered_elem ordered Hord) in Hwg. cbn. tauto.
    + intros (wg & Hwg & Hft & <-). eexists. split; [apply planned_elem; exists wg; split; [|done]|done].
      by apply (ordered_elem ordered Hord).
  - intros wg e Hwg (p & now & (w & Hw & ->)%planned_elem & E & He)%Hnew. cbn in E.
    apply (ordered_elem ordered Hord) in Hw as [Hw _]. apply state_id_inj in E as ->; [|done|done].
    by apply newEngine_fields in He.
Qed.
End built.
End pipeline.

(** C40: the policy and engine stages reject no validated FakeTCP configuration.
    For a configuration that passes validation and whose state was built on
    resolved underlays with at least one FakeTCP WireGuard, and any random seed,
    incarnation and clock: the references are accepted, the policy plan is
    built, every FakeTCP WireGuard gets an engine plan whose options the engine
    constructor accepts (the shared budgets hold), and the routed engines are
    built.  The router then has exactly one engine per FakeTCP WireGuard, with
    no session, that WireGuard's limits and the domain's identity; and exactly
    one route per FakeTCP WireGuard and active underlay, with its listen port
    and firewall mark.  The conversion to kernel maps is another stage, which can
    still reject a stray ICMP role. *)
Theorem production_pipeline `{ControlEnv} order po co cfg st g wg0 u0 seed token inc nows :
  config_typed cfg -> ValidateStatic order cfg = Ret tt -> BuildState po co cfg false = Ret st ->
  (forall u, u ∈ st_Underlays st -> us_Role u = "transform" /\ 0 < us_IfIndex u < 4294967296) ->
  active_in st wg0 u0 -> is_faketcp_state wg0 = true -> g <> 0 ->
  exists wgs plan plans domain router rep,
    validateFakeTCPProductionReferences st = Ret wgs /\
    buildFakeTCPPolicyGenerationPlan st g = Ret plan /\
    fakeTCPProductionEnginePlans (Ret seed) wgs plan g = Ret plans /\
    build_router token (Ret inc) nows plans g = Ret (domain, router, rep) /\
    (forall k t, er_routes router !! k = Some t <-> exists wg u, active_in st wg u /\
       is_faketcp_state wg = true /\ k = (g, us_IfIndex u, ws_RuntimeListenPort wg, ws_ID wg) /\
       t = mkTarget (ws_ID wg) (ws_RuntimeFirewallMark wg)) /\
    (forall id, is_Some (er_engines router !! id) <-> exists wg, wg ∈ st_WireGuards st /\
       is_faketcp_state wg = true /\ ws_ID wg = id) /\
    (forall wg e, wg ∈ st_WireGuards st -> er_engines router !! ws_ID wg = Some e ->
       e_identity e = mkRuntimeIdentity g inc /\ e_sessions e = ∅ /\
       e_opts e = with_Store (production_options wg g)).
Proof.
  intros Ht Hv Hb Hres Ha0 Hft0 Hg.
  destruct (projection order po co cfg st g Ht Hv Hb Hres wg0 u0 Ha0 Hft0 Hg)
    as (wgs & s & _ & _ & Hs & Hvalid & Hp).
  pose proof (frozen_ports order po co cfg st g Ht Hv Hb Hres _ _ Hp) as Hports.
  destruct (engine_plans_ok order po co cfg st g Ht Hv Hb Hres wg0 u0 Ha0 Hft0 Hg seed
    (merge_sort id_le (faketcp_wireguards (st_WireGuards st))) s) as (ordered & byID & Hord & Hby & Hplans);
    [by rewrite merge_sort_Permutation|done|by apply (pj_gen _ _ _ _ Hp)|done|].
  destruct (planned_build order po co cfg st g Ht Hv Hb Hres wg0 u0 Ha0 Hft0 Hg ordered Hord _ Hports
    byID Hby token inc nows) as (router & rep & Hbuild & Hr & He & Ho).
  do 4 eexists. exists router, rep.
  split; [exact (references_ok order po co cfg st Ht Hv Hb wg0 u0 Ha0 Hft0)|].
  split; [unfold buildFakeTCPPolicyGenerationPlan; by rewrite Hs|].
  split; [exact Hplans|]. split; [exact Hbuild|]. done.
Qed.

(** ** Witness *)

Lemma production_pipeline_witness : exists wgs plan plans domain router rep,
  validateFakeTCPProductionReferences sample_state = Ret wgs /\
  buildFakeTCPPolicyGenerationPlan sample_state 5 = Ret plan /\
  fakeTCPProductionEnginePlans (Ret (zeros 32)) wgs plan 5 = Ret plans /\
  build_router 7 (Ret (zeros 16)) (fun _ => 0) plans 5 = Ret (domain, router, rep) /\
  is_Some (er_engines router !! 1).
Proof.
  destruct sample_active as (wg & u & Ha & Hft & Hid).
  destruct (production_pipeline ["c"] ["default"] ["c"] sample_config sample_state 5 wg u (zeros 32) 7
    (zeros 16) (fun _ => 0) sample_config_typed sample_config_valid sample_state_built sample_underlays
    Ha Hft ltac:(lia)) as (wgs & plan & plans & domain & router & rep & H1 & H2 & H3 & H4 & _ & He & _).
  exists wgs, plan, plans, domain, router, rep.
  refine (conj H1 (conj H2 (conj H3 (conj H4 _)))). apply He. exists wg.
  exact (conj (proj1 Ha) (conj Hft Hid)).
Defined.
