(* ===== verification/Paths.v ===== *)
(** * Absolute paths: [filepath.IsAbs] and [filepath.Clean]. *)
From Stdlib Require Import ZArith Ascii.
From stdpp Require Import base list strings.
From S2P Require Import Prelude.

(** [filepath.Clean] of an absolute path: empty and [.] elements are dropped,
    [..] removes the element before it (at the root it is dropped). *)
Fixpoint path_elements (element : string) (path : string) : list string :=
  match path with
  | EmptyString => [element]
  | String c path =>
      if Ascii.eqb c "/" then element :: path_elements "" path
      else path_elements (element +:+ String c EmptyString) path
  end.
Fixpoint clean_elements (kept : list string) (l : list string) : list string :=
  match l with
  | [] => rev kept
  | e :: l =>
      if String.eqb e "" || String.eqb e "." then clean_elements kept l
      else if String.eqb e ".." then clean_elements (tail kept) l
      else clean_elements (e :: kept) l
  end.
Definition path_Clean (path : string) : string :=
  "/" +:+ String.concat "/" (clean_elements [] (path_elements "" path)).
Definition path_IsAbs (path : string) : bool := String.prefix "/" path.
