(* ===== verification/MapBatch.v ===== *)
(** * Batched updates of a kernel map (internal/dataplane/map_batch.go).

    The four map operations are a class over the world that holds the map.  A
    map operation may fail; a batch operation reports how many entries it
    completed.  The scratch slices of keys and values are refilled for each
    chunk and not retained by the operations, so a chunk is a list. *)
From Stdlib Require Import ZArith Lia.
From stdpp Require Import base option list gmap strings numbers.
From S2P Require Import Prelude.

(** What [errors.Is] distinguishes. *)
Inductive map_error :=
| ErrNotSupported (msg : string)
| ErrKeyNotExist (msg : string)
| OtherMapError (msg : string).
Definition map_error_message (e : map_error) : string :=
  match e with ErrNotSupported m | ErrKeyNotExist m | OtherMapError m => m end.

Class mapBatchOperations (K V W : Type) := {
  op_batchUpdate : list (K * V) -> W -> (Z * option map_error) * W;
  op_update : K -> V -> W -> option map_error * W;
  op_batchDelete : list K -> W -> (Z * option map_error) * W;
  op_delete : K -> W -> option map_error * W
}.

Definition defaultMapBatchChunkSize : Z := 256.

Definition validMapBatchCompletion (completed total : Z) : bool :=
  (0 <=? completed) && (completed <=? total).

Definition mapBatchCompletionError (completed total : Z) (err : option map_error) : error :=
  match err with
  | Some err => (if validMapBatchCompletion completed total
                 then "batch completed too few entries: "
                 else "batch reported invalid completion count: ") +:+ map_error_message err
  | None => if validMapBatchCompletion completed total
            then "batch completed too few entries without an error"
            else "batch reported invalid completion count"
  end.

(** The batch interface is missing. *)
Definition unsupported (err : option map_error) : bool :=
  match err with Some (ErrNotSupported _) => true | _ => false end.

Section batch.
Context {K V W : Type} `{Countable K} `{!mapBatchOperations K V W}.
Abbreviation entry := (K * V)%type (only parsing).

(** [map] iteration order is the order of the list. *)
Definition mapBatchEntries (entries : gmap K V) : list entry := map_to_list entries.

(** ** Updates *)

(** Deletes the entries of [l] in order, collecting the errors. *)
Fixpoint delete_back (l : list entry) (w : W) : list error * W :=
  match l with
  | [] => ([], w)
  | e :: l =>
      let '(err, w) := op_delete e.1 w in
      let '(errs, w) := delete_back l w in
      (match err with
       | None | Some (ErrKeyNotExist _) => errs
       | Some err => ("rollback map update entry: " +:+ map_error_message err) :: errs
       end, w)
  end.
Definition rollbackMapUpdates (entries : list entry) (w : W) : option error * W :=
  let '(errs, w) := delete_back (rev entries) w in (errors_Join_all errs, w).

Definition with_rollback (rollback : list entry -> W -> option error * W) (err : error)
    (entries : list entry) (w : W) : option error * W :=
  let '(rollbackErr, w) := rollback entries w in (errors_Join (Some err) rollbackErr, w).

(** [attempted] are the entries before [rest]. *)
Fixpoint update_each (attempted rest : list entry) (w : W) : option error * W :=
  match rest with
  | [] => (None, w)
  | e :: rest =>
      let '(err, w) := op_update e.1 e.2 w in
      match err with
      | None => update_each (attempted ++ [e]) rest w
      | Some err =>
          with_rollback rollbackMapUpdates
            ("update map entry after batch API was unsupported: " +:+ map_error_message err)
            (attempted ++ [e]) w
      end
  end.
Definition updateMapEntriesIndividually (entries : list entry) (w : W) : option error * W :=
  update_each [] entries w.

(** One chunk of the batch loops: the entries from [start] to the returned end. *)
Definition chunk_end (chunkSize start : Z) (entries : list entry) : Z :=
  Z.min (start + chunkSize) (len entries).
Definition chunk_at (chunkSize start : Z) (entries : list entry) : list entry :=
  take (Z.to_nat (chunk_end chunkSize start entries - start)) (drop (Z.to_nat start) entries).
Definition prefix_of_entries (n : Z) (entries : list entry) : list entry := take (Z.to_nat n) entries.

(** The loop over the chunks; [None] is running out of fuel. *)
Fixpoint update_chunks (fuel : nat) (chunkSize start : Z) (entries : list entry) (w : W)
    : option (option error * W) :=
  match fuel with
  | O => None
  | S fuel =>
      if len entries <=? start then Some (None, w)
      else
        let chunk := chunk_at chunkSize start entries in
        let '((completed, batchErr), w) := op_batchUpdate chunk w in
        if negb (bool_decide (is_Some batchErr)) && (completed =? len chunk)
        then update_chunks fuel chunkSize (start + chunkSize) entries w
        else
          let operationErr := mapBatchCompletionError completed (len chunk) batchErr in
          if negb (validMapBatchCompletion completed (len chunk))
          then Some (with_rollback rollbackMapUpdates operationErr
                       (prefix_of_entries (chunk_end chunkSize start entries) entries) w)
          else if (start =? 0) && (completed =? 0) && unsupported batchErr
          then Some (updateMapEntriesIndividually entries w)
          else Some (with_rollback rollbackMapUpdates operationErr
                       (prefix_of_entries (start + completed) entries) w)
  end.

Definition updateMapBatchChunked (entries : list entry) (chunkSize : Z) (w : W)
    : option (option error * W) :=
  if chunkSize <=? 0 then Some (Some "batch update requires a positive chunk size", w)
  else update_chunks (S (length entries)) chunkSize 0 entries w.
Definition updateMapBatch (entries : list entry) : W -> option (option error * W) :=
  updateMapBatchChunked entries defaultMapBatchChunkSize.

(** ** Deletes *)

Fixpoint update_back (l : list entry) (w : W) : list error * W :=
  match l with
  | [] => ([], w)
  | e :: l =>
      let '(err, w) := op_update e.1 e.2 w in
      let '(errs, w) := update_back l w in
      (match err with
       | None => errs
       | Some err => ("rollback map delete entry: " +:+ map_error_message err) :: errs
       end, w)
  end.
Definition rollbackMapDeletes (entries : list entry) (w : W) : option error * W :=
  let '(errs, w) := update_back (rev entries) w in (errors_Join_all errs, w).

Fixpoint delete_each (attempted rest : list entry) (w : W) : option error * W :=
  match rest with
  | [] => (None, w)
  | e :: rest =>
      let '(err, w) := op_delete e.1 w in
      match err with
      | None | Some (ErrKeyNotExist _) => delete_each (attempted ++ [e]) rest w
      | Some err =>
          with_rollback rollbackMapDeletes
            ("delete map entry after batch API was unsupported: " +:+ map_error_message err)
            (attempted ++ [e]) w
      end
  end.
Definition deleteMapEntriesIndividually (entries : list entry) (w : W) : option error * W :=
  delete_each [] entries w.

Fixpoint delete_chunks (fuel : nat) (chunkSize start : Z) (entries : list entry) (w : W)
    : option (option error * W) :=
  match fuel with
  | O => None
  | S fuel =>
      if len entries <=? start then Some (None, w)
      else
        let chunk := chunk_at chunkSize start entries in
        let '((completed, batchErr), w) := op_batchDelete (map fst chunk) w in
        if negb (bool_decide (is_Some batchErr)) && (completed =? len chunk)
        then delete_chunks fuel chunkSize (start + chunkSize) entries w
        else
          let operationErr := mapBatchCompletionError completed (len chunk) batchErr in
          if negb (validMapBatchCompletion completed (len chunk))
          then Some (with_rollback rollbackMapDeletes operationErr
                       (prefix_of_entries (chunk_end chunkSize start entries) entries) w)
          else if (start =? 0) && (completed =? 0) && unsupported batchErr
          then Some (deleteMapEntriesIndividually entries w)
          else Some (with_rollback rollbackMapDeletes operationErr
                       (prefix_of_entries (start + completed) entries) w)
  end.

Definition deleteMapBatchChunked (entries : list entry) (chunkSize : Z) (w : W)
    : option (option error * W) :=
  if chunkSize <=? 0 then Some (Some "batch delete requires a positive chunk size", w)
  else delete_chunks (S (length entries)) chunkSize 0 entries w.
Definition deleteMapBatch (entries : list entry) : W -> option (option error * W) :=
  deleteMapBatchChunked entries defaultMapBatchChunkSize.
End batch.

(** ** What the kernel map promises *)

Section maps.
Context {K V : Type} `{Countable K}.

Definition put (l : list (K * V)) (m : gmap K V) : gmap K V := foldl (fun m e => <[e.1 := e.2]> m) m l.
Definition remove_keys (l : list K) (m : gmap K V) : gmap K V := foldl (fun m k => delete k m) m l.

(** Some of the entries of [l] were written; some of the keys of [l] deleted. *)
Definition partly_put (l : list (K * V)) (m m' : gmap K V) : Prop :=
  forall k, m' !! k = m !! k \/ exists e, e ∈ l /\ e.1 = k /\ m' !! k = Some e.2.
Definition partly_removed (l : list K) (m m' : gmap K V) : Prop :=
  forall k, m' !! k = m !! k \/ (k ∈ l /\ m' !! k = None).

Lemma put_app l l' m : put (l ++ l') m = put l' (put l m).
Proof. apply foldl_app. Qed.
Lemma remove_app l l' m : remove_keys (l ++ l') m = remove_keys l' (remove_keys l m).
Proof. apply foldl_app. Qed.

Lemma put_partly l m : partly_put l m (put l m).
Proof.
  revert m. induction l as [|e l IH]; intros m k; [by left|]. cbn.
  destruct (IH (<[e.1 := e.2]> m) k) as [Hk|(e' & ? & ? & ?)].
  - unfold put in Hk. rewrite Hk. destruct (decide (e.1 = k)) as [<-|Hne].
    + right. exists e. rewrite lookup_insert_eq. split_and!; [by left|done|done].
    + left. by rewrite lookup_insert_ne.
  - right. exists e'. split_and!; [by right|done|done].
Qed.

Lemma remove_lookup l m k : remove_keys l m !! k = if decide (k ∈ l) then None else m !! k.
Proof.
  revert m. induction l as [|k' l IH]; intros m.
  { rewrite decide_False; [done|]. apply not_elem_of_nil. }
  cbn. unfold remove_keys in IH. rewrite IH. destruct (decide (k ∈ l)) as [Hin|Hin].
  - by rewrite decide_True by (by right).
  - destruct (decide (k' = k)) as [->|Hne].
    + rewrite decide_True by (by left). apply lookup_delete_eq.
    + rewrite lookup_delete_ne by done. rewrite decide_False; [done|].
      rewrite not_elem_of_cons. split; [congruence|done].
Qed.

Lemma partly_put_trans l l' m m' m'' : partly_put l m m' -> partly_put l' m' m'' ->
  (forall e, e ∈ l' -> e ∈ l) -> partly_put l m m''.
Proof.
  intros H1 H2 Hl k. destruct (H2 k) as [->|(e & He & ? & ?)]; [apply H1|]. right. exists e. eauto.
Qed.

Lemma partly_put_sub l l' m m' : partly_put l' m m' -> (forall e, e ∈ l' -> e ∈ l) -> partly_put l m m'.
Proof. intros Hp Hl k. destruct (Hp k) as [?|(e & ? & ? & ?)]; [by left|right]. exists e. eauto. Qed.

(** Removing every key that may have been written restores the map. *)
Lemma remove_undoes (l l' : list (K * V)) (m m' : gmap K V) : partly_put l' m m' -> (forall e, e ∈ l' -> e.1 ∈ map fst l) ->
  (forall e, e ∈ l -> m !! e.1 = None) -> remove_keys (rev (map fst l)) m' = m.
Proof.
  intros Hp Hl Hm. apply map_eq. intros k. rewrite remove_lookup. case_decide as Hk.
  - rewrite list_elem_of_In, <- in_rev, <- list_elem_of_In in Hk.
    apply list_elem_of_fmap in Hk as (e & -> & He). by rewrite Hm.
  - destruct (Hp k) as [?|(e & He & <- & _)]; [done|]. exfalso. apply Hk.
    rewrite list_elem_of_In, <- in_rev, <- list_elem_of_In. by apply Hl.
Qed.

(** Rewriting every entry that may have been removed restores the map. *)
Lemma put_undoes (l : list (K * V)) l' (m m' : gmap K V) : partly_removed l' m m' -> (forall k, k ∈ l' -> k ∈ map fst l) ->
  (forall e, e ∈ l -> m !! e.1 = Some e.2) -> put (rev l) m' = m.
Proof.
  intros Hp Hl Hm. assert (forall l2 m2, (forall e, e ∈ l2 -> e ∈ l) ->
    (forall k, m2 !! k = m !! k \/ (k ∈ map fst l2 /\ m2 !! k = None)) -> put l2 m2 = m) as Hgen.
  { clear Hp. induction l2 as [|e l2 IH]; intros m2 Hin Hk; cbn.
    - apply map_eq. intros k. destruct (Hk k) as [?|[?%elem_of_nil _]]; done.
    - apply IH; [intros; apply Hin; by right|]. intros k. destruct (decide (e.1 = k)) as [<-|Hne].
      + left. rewrite lookup_insert_eq. symmetry. apply Hm, Hin. by left.
      + rewrite lookup_insert_ne by done. destruct (Hk k) as [?|[Hk' ?]]; [by left|right].
        split; [|done]. apply elem_of_cons in Hk' as [?|?]; [congruence|done]. }
  apply Hgen.
  - intros e He. by rewrite list_elem_of_In, <- in_rev, <- list_elem_of_In in He.
  - intros k. destruct (Hp k) as [?|[Hk ?]]; [by left|right]. split; [|done].
    apply Hl in Hk. apply list_elem_of_fmap in Hk as (e & -> & He). apply list_elem_of_fmap. exists e.
    split; [done|]. by rewrite list_elem_of_In, <- in_rev, <- list_elem_of_In.
Qed.
End maps.

(** The map behind the operations: a batch completes a prefix of its entries and
    reports its length (a count outside the chunk says nothing but that only
    the chunk's entries can have changed); a failed single operation may or may
    not have taken effect. *)
Class MapLaws (K V W : Type) `{Countable K} `{!mapBatchOperations K V W} := {
  contents : W -> gmap K V;
  law_batchUpdate : forall l w n err w', op_batchUpdate l w = ((n, err), w') ->
    partly_put l (contents w) (contents w') /\
    (0 <= n <= len l -> contents w' = put (take (Z.to_nat n) l) (contents w));
  law_update : forall k v w err w', op_update k v w = (err, w') ->
    match err with
    | None => contents w' = <[k := v]> (contents w)
    | Some _ => contents w' = contents w \/ contents w' = <[k := v]> (contents w)
    end;
  law_batchDelete : forall l w n err w', op_batchDelete l w = ((n, err), w') ->
    partly_removed l (contents w) (contents w') /\
    (0 <= n <= len l -> contents w' = remove_keys (take (Z.to_nat n) l) (contents w));
  law_delete : forall k w err w', op_delete k w = (err, w') ->
    match err with
    | None => contents w' = delete k (contents w)
    | Some (ErrKeyNotExist _) => contents w' = contents w /\ contents w !! k = None
    | Some _ => contents w' = contents w \/ contents w' = delete k (contents w)
    end
}.

Section laws.
Context {K V W : Type} `{Countable K} `{!mapBatchOperations K V W} `{!MapLaws K V W}.

(** Compensating operations that do not fail. *)
Definition reliable_delete : Prop := forall k (w : W),
  match (op_delete k w).1 with None | Some (ErrKeyNotExist _) => True | _ => False end.
Definition reliable_update : Prop := forall k v (w : W), (op_update k v w).1 = None.

(** *** Chunks *)

Lemma chunk_len chunkSize start (entries : list (K * V)) : 0 < chunkSize -> 0 <= start < len entries ->
  len (chunk_at chunkSize start entries) = chunk_end chunkSize start entries - start /\
  start < chunk_end chunkSize start entries <= len entries.
Proof.
  intros Hc Hs. unfold chunk_at, chunk_end, len in *. rewrite length_take, length_drop. lia.
Qed.

Lemma chunk_prefix chunkSize start n (entries : list (K * V)) : 0 < chunkSize -> 0 <= start < len entries ->
  0 <= n <= len (chunk_at chunkSize start entries) ->
  take (Z.to_nat start) entries ++ take (Z.to_nat n) (chunk_at chunkSize start entries)
    = prefix_of_entries (start + n) entries.
Proof.
  intros Hc Hs Hn. destruct (chunk_len chunkSize start entries Hc Hs) as [Hl _].
  unfold chunk_at, prefix_of_entries in *. rewrite take_take, Nat.min_l by (unfold len in *; lia).
  rewrite Z2Nat.inj_add by lia. by rewrite take_take_drop.
Qed.

Lemma chunk_whole chunkSize start (entries : list (K * V)) : 0 < chunkSize -> 0 <= start < len entries ->
  take (Z.to_nat start) entries ++ chunk_at chunkSize start entries
    = prefix_of_entries (chunk_end chunkSize start entries) entries.
Proof.
  intros Hc Hs. destruct (chunk_len chunkSize start entries Hc Hs) as [Hl Hr].
  pose proof (chunk_prefix chunkSize start (len (chunk_at chunkSize start entries)) entries Hc Hs) as Hp.
  rewrite (take_ge (chunk_at _ _ _)) in Hp by (unfold len; by rewrite Nat2Z.id). rewrite Hp by (pose proof (len_nonneg (chunk_at chunkSize start entries)); lia). f_equal. lia.
Qed.

(** The prefix through the chunk is the prefix the next iteration starts from. *)
Lemma chunk_next chunkSize start (entries : list (K * V)) : 0 < chunkSize -> 0 <= start < len entries ->
  prefix_of_entries (chunk_end chunkSize start entries) entries
    = take (Z.to_nat (start + chunkSize)) entries.
Proof.
  intros Hc Hs. unfold prefix_of_entries, chunk_end, len in *.
  destruct (Z.le_ge_cases (start + chunkSize) (Z.of_nat (length entries))).
  - by rewrite Z.min_l.
  - rewrite Z.min_r by lia. rewrite !take_ge by lia. done.
Qed.

Lemma prefix_elem n (entries : list (K * V)) e : e ∈ prefix_of_entries n entries -> e ∈ entries.
Proof. intros (k & Hk & _)%elem_of_take. by eapply list_elem_of_lookup_2. Qed.

(** *** Updates *)

Definition post_update (entries : list (K * V)) (m : gmap K V) (res : option error * W) : Prop :=
  (res.1 = None -> contents res.2 = put entries m) /\
  ((forall e, e ∈ entries -> m !! e.1 = None) ->
     partly_put entries m (contents res.2) /\
     (res.1 <> None -> reliable_delete -> contents res.2 = m)).

Lemma delete_back_reliable l (w : W) : reliable_delete ->
  contents (delete_back l w).2 = remove_keys (map fst l) (contents w).
Proof.
  intros Hr. revert w. induction l as [|e l IH]; intros w; [done|]. cbn.
  pose proof (Hr e.1 w) as Hre. destruct (op_delete e.1 w) as [err w'] eqn:E.
  apply law_delete in E. specialize (IH w'). destruct (delete_back l w') as [errs w'']. cbn in *. rewrite IH.
  destruct err as [[]|]; try done; [|by rewrite E]. destruct E as [-> Hn]. by rewrite delete_id.
Qed.

Lemma delete_back_partly l L m (w : W) : (forall e, e ∈ l -> m !! e.1 = None) ->
  partly_put L m (contents w) -> partly_put L m (contents (delete_back l w).2).
Proof.
  revert w. induction l as [|e l IH]; intros w Hl Hp; [done|]. cbn.
  destruct (op_delete e.1 w) as [err w'] eqn:E. apply law_delete in E.
  assert (partly_put L m (contents w')) as Hp'.
  { assert (partly_put L m (delete e.1 (contents w))) as Hd.
    { intros k. destruct (decide (e.1 = k)) as [<-|Hne]; [left|rewrite lookup_delete_ne by done; apply Hp].
      rewrite lookup_delete_eq. symmetry. apply Hl. by left. }
    destruct err as [[]|]; [destruct E as [-> | ->]|destruct E as [-> _]|destruct E as [-> | ->]|rewrite E]; done. }
  specialize (IH w' (fun x Hx => Hl x (list_elem_of_further _ _ _ Hx)) Hp').
  by destruct (delete_back l w').
Qed.

Lemma rollback_update_post err P entries m (w : W) : (forall e, e ∈ P -> e ∈ entries) ->
  partly_put P m (contents w) -> post_update entries m (with_rollback rollbackMapUpdates err P w).
Proof.
  intros Hin Hp. unfold with_rollback, rollbackMapUpdates.
  pose proof (delete_back_reliable (rev P) w) as Hrel. pose proof (delete_back_partly (rev P) P m w) as Hpart.
  destruct (delete_back (rev P) w) as [errs w']. cbn in *. split.
  { intros E. cbn in E. by destruct (errors_Join_all errs). }
  intros Habs. cbn. split.
  - eapply partly_put_sub; [apply Hpart; [|done]|done]. intros e He. apply Habs, Hin.
    by rewrite list_elem_of_In, <- in_rev, <- list_elem_of_In in He.
  - intros _ Hr. rewrite Hrel, map_rev by done. apply (remove_undoes P P); [done|..].
    + intros e He. apply list_elem_of_fmap. by exists e.
    + intros e He. by apply Habs, Hin.
Qed.

Lemma update_each_post m rest : forall attempted (w : W), contents w = put attempted m ->
  post_update (attempted ++ rest) m (update_each attempted rest w).
Proof.
  induction rest as [|e rest IH]; intros attempted w Hw; cbn [update_each].
  { rewrite app_nil_r. split; cbn; [done|]. intros _. rewrite Hw. split; [apply put_partly|done]. }
  destruct (op_update e.1 e.2 w) as [err w'] eqn:E. apply law_update in E.
  assert (forall x, contents x = <[e.1 := e.2]> (contents w) -> contents x = put (attempted ++ [e]) m) as Hone.
  { intros x ->. by rewrite put_app, Hw. }
  destruct err as [err|].
  - apply rollback_update_post.
    + intros x. rewrite !elem_of_app, !elem_of_cons, elem_of_nil. tauto.
    + destruct E as [E|E]; [|rewrite (Hone w' E); apply put_partly].
      rewrite E, Hw. eapply partly_put_sub; [apply put_partly|]. intros. apply elem_of_app. by left.
  - replace (attempted ++ e :: rest) with ((attempted ++ [e]) ++ rest) by by rewrite <- app_assoc.
    apply IH. by apply Hone.
Qed.

Lemma update_chunks_post chunkSize entries m fuel : forall start (w : W), 0 < chunkSize -> 0 <= start ->
  Z.max 0 (len entries - start) < Z.of_nat fuel -> contents w = put (take (Z.to_nat start) entries) m ->
  exists res, update_chunks fuel chunkSize start entries w = Some res /\ post_update entries m res.
Proof.
  induction fuel as [|fuel IH]; intros start w Hc Hs Hf Hw; cbn [update_chunks]; [lia|].
  destruct (Z.leb_spec (len entries) start) as [Hend|Hlt].
  { eexists. split; [done|]. rewrite take_ge in Hw by (unfold len in *; lia).
    split; cbn; [done|]. intros _. rewrite Hw. split; [apply put_partly|done]. }
  destruct (chunk_len chunkSize start entries) as [Hcl Hce]; [done|lia|].
  cbn zeta. destruct (op_batchUpdate _ w) as [[n err] w'] eqn:E.
  apply law_batchUpdate in E as [Hpart Hexact].
  assert (partly_put (prefix_of_entries (chunk_end chunkSize start entries) entries) m (contents w')) as Hall.
  { rewrite <- chunk_whole by lia. eapply partly_put_trans.
    - eapply partly_put_sub; [apply (put_partly (take (Z.to_nat start) entries))|]. intros. apply elem_of_app. by left.
    - rewrite <- Hw. exact Hpart.
    - intros. apply elem_of_app. by right. }
  assert (0 <= n <= len (chunk_at chunkSize start entries) ->
    contents w' = put (prefix_of_entries (start + n) entries) m) as Hput.
  { intros Hn. rewrite (Hexact Hn), Hw, <- put_app. by rewrite chunk_prefix by lia. }
  destruct (negb (bool_decide (is_Some err)) && _) eqn:Hdone.
  - apply andb_true_iff in Hdone as [_ Hn%Z.eqb_eq]. apply IH; [done|lia|lia|].
    rewrite Hput by lia. f_equal. rewrite <- chunk_next by lia. f_equal. lia.
  - destruct (validMapBatchCompletion n _) eqn:Hv; cbn [negb].
    + unfold validMapBatchCompletion in Hv. apply andb_true_iff in Hv. rewrite !Z.leb_le in Hv.
      destruct ((start =? 0) && (n =? 0) && unsupported err) eqn:Hun.
      * eexists. split; [done|]. apply andb_true_iff in Hun as [[->%Z.eqb_eq ->%Z.eqb_eq]%andb_true_iff _].
        apply (update_each_post m entries []). rewrite Hput by lia. done.
      * eexists. split; [done|]. apply rollback_update_post; [apply prefix_elem|].
        rewrite Hput by lia. apply put_partly.
    + eexists. split; [done|]. apply rollback_update_post; [apply prefix_elem|exact Hall].
Qed.

(** *** Deletes *)

Definition post_delete (entries : list (K * V)) (m : gmap K V) (res : option error * W) : Prop :=
  (res.1 = None -> contents res.2 = remove_keys (map fst entries) m) /\
  ((forall e, e ∈ entries -> m !! e.1 = Some e.2) ->
     partly_removed (map fst entries) m (contents res.2) /\
     (res.1 <> None -> reliable_update -> contents res.2 = m)).

Lemma remove_partly l (m : gmap K V) : partly_removed l m (remove_keys l m).
Proof. intros k. rewrite remove_lookup. case_decide; [right|left]; done. Qed.

Lemma partly_removed_sub l l' (m m' : gmap K V) :
  partly_removed l' m m' -> (forall k, k ∈ l' -> k ∈ l) -> partly_removed l m m'.
Proof. intros Hp Hl k. destruct (Hp k) as [?|[? ?]]; [by left|right]. eauto. Qed.

Lemma update_back_reliable l (w : W) : reliable_update ->
  contents (update_back l w).2 = put l (contents w).
Proof.
  intros Hr. revert w. induction l as [|e l IH]; intros w; [done|]. cbn.
  pose proof (Hr e.1 e.2 w) as Hre. destruct (op_update e.1 e.2 w) as [err w'] eqn:E.
  cbn in Hre. subst err. apply law_update in E. specialize (IH w').
  destruct (update_back l w') as [errs w'']. cbn in *. by rewrite IH, E.
Qed.

Lemma update_back_partly l L m (w : W) : (forall e, e ∈ l -> m !! e.1 = Some e.2) ->
  partly_removed L m (contents w) -> partly_removed L m (contents (update_back l w).2).
Proof.
  revert w. induction l as [|e l IH]; intros w Hl Hp; [done|]. cbn.
  destruct (op_update e.1 e.2 w) as [err w'] eqn:E. apply law_update in E.
  assert (partly_removed L m (contents w')) as Hp'.
  { assert (partly_removed L m (<[e.1 := e.2]> (contents w))) as Hd.
    { intros k. destruct (decide (e.1 = k)) as [<-|Hne]; [left|rewrite lookup_insert_ne by done; apply Hp].
      rewrite lookup_insert_eq. symmetry. apply Hl. by left. }
    destruct err; [destruct E as [-> | ->]|rewrite E]; done. }
  specialize (IH w' (fun x Hx => Hl x (list_elem_of_further _ _ _ Hx)) Hp').
  by destruct (update_back l w').
Qed.

Lemma rollback_delete_post err P entries m (w : W) : (forall e, e ∈ P -> e ∈ entries) ->
  partly_removed (map fst P) m (contents w) ->
  post_delete entries m (with_rollback rollbackMapDeletes err P w).
Proof.
  intros Hin Hp. unfold with_rollback, rollbackMapDeletes.
  pose proof (update_back_reliable (rev P) w) as Hrel.
  pose proof (update_back_partly (rev P) (map fst P) m w) as Hpart.
  destruct (update_back (rev P) w) as [errs w']. cbn in *. split.
  { intros E. cbn in E. by destruct (errors_Join_all errs). }
  intros Hpres. cbn. split.
  - eapply partly_removed_sub; [apply Hpart; [|done]|].
    + intros e He. apply Hpres, Hin. by rewrite list_elem_of_In, <- in_rev, <- list_elem_of_In in He.
    + intros k (e & -> & He)%list_elem_of_fmap. apply list_elem_of_fmap. exists e. eauto.
  - intros _ Hr. rewrite Hrel by done. apply (put_undoes P (map fst P)); [done|done|].
    intros e He. by apply Hpres, Hin.
Qed.

Lemma delete_each_post m rest : forall attempted (w : W), contents w = remove_keys (map fst attempted) m ->
  post_delete (attempted ++ rest) m (delete_each attempted rest w).
Proof.
  induction rest as [|e rest IH]; intros attempted w Hw; cbn [delete_each].
  { rewrite app_nil_r. split; cbn; [done|]. intros _. rewrite Hw. split; [apply remove_partly|done]. }
  destruct (op_delete e.1 w) as [err w'] eqn:E. apply law_delete in E.
  assert (forall x, contents x = delete e.1 (contents w) ->
    contents x = remove_keys (map fst (attempted ++ [e])) m) as Hone.
  { intros x ->. by rewrite map_app, remove_app, Hw. }
  assert (contents w' = contents w \/ contents w' = delete e.1 (contents w) ->
    partly_removed (map fst (attempted ++ [e])) m (contents w')) as Hsome.
  { intros [E'|E']; [|rewrite (Hone w' E'); apply remove_partly]. rewrite E', Hw.
    eapply partly_removed_sub; [apply remove_partly|]. intros k. rewrite map_app, elem_of_app. by left. }
  assert (forall x, x ∈ attempted ++ [e] -> x ∈ attempted ++ e :: rest) as Hsub.
  { intros x. rewrite !elem_of_app, !elem_of_cons, elem_of_nil. tauto. }
  assert (contents w' = delete e.1 (contents w) ->
    post_delete (attempted ++ e :: rest) m (delete_each (attempted ++ [e]) rest w')) as Hnext.
  { intros E'. replace (attempted ++ e :: rest) with ((attempted ++ [e]) ++ rest) by by rewrite <- app_assoc.
    apply IH. by apply Hone. }
  destruct err as [[]|]; [by apply rollback_delete_post; [|apply Hsome]| |
    by apply rollback_delete_post; [|apply Hsome]|by apply Hnext].
  apply Hnext. destruct E as [-> Hn]. by rewrite delete_id.
Qed.

Lemma delete_chunks_post chunkSize entries m fuel : forall start (w : W), 0 < chunkSize -> 0 <= start ->
  Z.max 0 (len entries - start) < Z.of_nat fuel ->
  contents w = remove_keys (map fst (take (Z.to_nat start) entries)) m ->
  exists res, delete_chunks fuel chunkSize start entries w = Some res /\ post_delete entries m res.
Proof.
  induction fuel as [|fuel IH]; intros start w Hc Hs Hf Hw; cbn [delete_chunks]; [lia|].
  destruct (Z.leb_spec (len entries) start) as [Hend|Hlt].
  { eexists. split; [done|]. rewrite take_ge in Hw by (unfold len in *; lia).
    split; cbn; [done|]. intros _. rewrite Hw. split; [apply remove_partly|done]. }
  destruct (chunk_len chunkSize start entries) as [Hcl Hce]; [done|lia|].
  cbn zeta. destruct (op_batchDelete _ w) as [[n err] w'] eqn:E.
  apply law_batchDelete in E as [Hpart Hexact].
  assert (partly_removed (map fst (prefix_of_entries (chunk_end chunkSize start entries) entries)) m
    (contents w')) as Hall.
  { rewrite <- chunk_whole by lia. rewrite map_app. intros k.
    destruct (Hpart k) as [Hk|[Hk Hn]]; [|right; split; [apply elem_of_app; by right|done]].
    rewrite Hk, Hw. destruct (remove_partly (map fst (take (Z.to_nat start) entries)) m k) as [?|[? ?]]; [by left|].
    right. split; [apply elem_of_app; by left|done]. }
  assert (0 <= n <= len (chunk_at chunkSize start entries) ->
    contents w' = remove_keys (map fst (prefix_of_entries (start + n) entries)) m) as Hput.
  { intros Hn. unfold len in Hexact, Hn. rewrite length_map in Hexact.
    rewrite (Hexact Hn), Hw, <- remove_app. rewrite firstn_map, <- map_app. by rewrite chunk_prefix by (unfold len in *; lia). }
  destruct (negb (bool_decide (is_Some err)) && _) eqn:Hdone.
  - apply andb_true_iff in Hdone as [_ Hn%Z.eqb_eq]. apply IH; [done|lia|lia|].
    rewrite Hput by lia. do 2 f_equal. rewrite <- chunk_next by lia. f_equal. lia.
  - destruct (validMapBatchCompletion n _) eqn:Hv; cbn [negb].
    + unfold validMapBatchCompletion in Hv. apply andb_true_iff in Hv. rewrite !Z.leb_le in Hv.
      destruct ((start =? 0) && (n =? 0) && unsupported err) eqn:Hun.
      * eexists. split; [done|]. apply andb_true_iff in Hun as [[->%Z.eqb_eq ->%Z.eqb_eq]%andb_true_iff _].
        apply (delete_each_post m entries []). rewrite Hput by lia. done.
      * eexists. split; [done|]. apply rollback_delete_post; [apply prefix_elem|].
        rewrite Hput by lia. apply remove_partly.
    + eexists. split; [done|]. apply rollback_delete_post; [apply prefix_elem|exact Hall].
Qed.
End laws.

(** C6: batched map writes are all or nothing.  For any chunk size, whatever
    counts and errors the kernel reports, both operations terminate.  A reported
    success means the map holds exactly the new entries (or no longer holds
    exactly the deleted keys).  If the entries were absent before an update, no
    key outside them changes and none ever holds a third value, and a reported
    failure leaves the map exactly as it was provided the compensating deletes
    do not fail; symmetrically for deleting entries that were present. *)
Theorem map_batch_atomic {K V W} `{Countable K} `{!mapBatchOperations K V W} `{!MapLaws K V W}
    (entries : list (K * V)) chunkSize (w : W) :
  0 < chunkSize ->
  (exists r w', updateMapBatchChunked entries chunkSize w = Some (r, w') /\
     (r = None -> contents w' = put entries (contents w)) /\
     ((forall e, e ∈ entries -> contents w !! e.1 = None) ->
        partly_put entries (contents w) (contents w') /\
        (r <> None -> reliable_delete -> contents w' = contents w))) /\
  (exists r w', deleteMapBatchChunked entries chunkSize w = Some (r, w') /\
     (r = None -> contents w' = remove_keys (map fst entries) (contents w)) /\
     ((forall e, e ∈ entries -> contents w !! e.1 = Some e.2) ->
        partly_removed (map fst entries) (contents w) (contents w') /\
        (r <> None -> reliable_update -> contents w' = contents w))).
Proof.
  intros Hc. unfold updateMapBatchChunked, deleteMapBatchChunked.
  destruct (Z.leb_spec chunkSize 0); [lia|]. split.
  - destruct (update_chunks_post chunkSize entries (contents w) (S (length entries)) 0 w)
      as ([r w'] & E & Hp); [done|lia|unfold len; lia|done|]. exists r, w'. split; [done|exact Hp].
  - destruct (delete_chunks_post chunkSize entries (contents w) (S (length entries)) 0 w)
      as ([r w'] & E & Hp); [done|lia|unfold len; lia|done|]. exists r, w'. split; [done|exact Hp].
Qed.

(** ** Witness: a map whose batch calls complete a bounded number of entries *)

Record limited := mkLimited { lm_map : gmap Z Z; lm_budget : nat }.
Definition limited_count (n : nat) (w : limited) : nat := Nat.min n (lm_budget w).
Definition limited_error (n : nat) (w : limited) : option map_error :=
  if (n <=? lm_budget w)%nat then None else Some (OtherMapError "E2BIG").
#[export] Instance limited_ops : mapBatchOperations Z Z limited := {
  op_batchUpdate l w := let n := limited_count (length l) w in
    ((Z.of_nat n, limited_error (length l) w), mkLimited (put (take n l) (lm_map w)) (lm_budget w - n));
  op_update k v w := (None, mkLimited (<[k := v]> (lm_map w)) (lm_budget w));
  op_batchDelete l w := let n := limited_count (length l) w in
    ((Z.of_nat n, limited_error (length l) w), mkLimited (remove_keys (take n l) (lm_map w)) (lm_budget w - n));
  op_delete k w := (None, mkLimited (delete k (lm_map w)) (lm_budget w))
}.
#[export, refine] Instance limited_laws : MapLaws Z Z limited := { contents := lm_map }.
Proof.
  - intros l w n err w' [= <- <- <-]. cbn. split; [|by rewrite Nat2Z.id].
    eapply partly_put_sub; [apply put_partly|]. intros e (k & Hk & _)%elem_of_take. by eapply list_elem_of_lookup_2.
  - by intros k v w err w' [= <- <-].
  - intros l w n err w' [= <- <- <-]. cbn. split; [|by rewrite Nat2Z.id].
    eapply partly_removed_sub; [apply remove_partly|]. intros e (k & Hk & _)%elem_of_take.
    by eapply list_elem_of_lookup_2.
  - by intros k w err w' [= <- <-].
Defined.

Definition limited_start : limited := mkLimited {[ 9 := 90 ]} 3.
Lemma map_batch_atomic_witness : exists r w',
  updateMapBatchChunked [(1, 10); (2, 20); (3, 30); (4, 40)] 2 limited_start = Some (r, w') /\
  r <> None /\ contents w' = {[ 9 := 90 ]}.
Proof.
  destruct (map_batch_atomic [(1, 10); (2, 20); (3, 30); (4, 40)] 2 limited_start ltac:(lia))
    as [(r & w' & E & _ & Hf) _].
  exists r, w'. split; [exact E|]. assert (r <> None) as Hr by (vm_compute in E; by injection E as <- _).
  split; [exact Hr|]. apply Hf; [|exact Hr|by intros k w].
  intros e He. rewrite !elem_of_cons, elem_of_nil in He. by destruct He as [-> |[-> |[-> |[-> |[]]]]].
Defined.
