(* ===== verification/Supervisor.v ===== *)
(** * Ownership of the FakeTCP runtime (internal/dataplane/faketcp_supervisor.go).

    The supervisor's operations run one at a time (under [operationMu]).  The
    goroutine of [Run] is concurrent with them: it may return between any two
    observations, so every read of [done] first lets the environment deliver the
    return ([observe]).  Runtimes and lease tokens are the numbers of their
    allocation; the number zero is the zero token.  Timestamps are left out. *)
From Stdlib Require Import ZArith Lia.
From stdpp Require Import base option list gmap strings numbers.
From S2P Require Import Prelude Abi.

Definition errFakeTCPRuntimeExited : error := "FakeTCP userspace runtime exited without a stop request".
Definition errFakeTCPRuntimeStopping : error := "FakeTCP userspace runtime stop is already in progress".
Definition ErrStartupGuardLeaseMismatch : error :=
  "startup guard lease does not own the active resident barrier".

Definition fakeTCPRuntimeDesiredKey : Type := list Z.
Definition empty_key : fakeTCPRuntimeDesiredKey := zeros 32.

(** The error [Run] returned; [errors.Is(err, context.Canceled)] is the flag. *)
Record run_error := mkRunError { re_message : error; re_canceled : bool }.

Inductive StartupGuardPausePhase :=
| PhaseUnset | PhaseOpen | PhaseDraining | PhaseHeld | PhaseResuming.
#[export] Instance phase_eq_dec : EqDecision StartupGuardPausePhase.
Proof. solve_decision. Defined.

Record StartupGuardLease := mkLease { sl_Acquired : bool; sl_Token : Z }.
Definition lease_zero : StartupGuardLease := mkLease false 0.
Definition lease_valid (l : StartupGuardLease) : bool := negb (sl_Token l =? 0).
Definition borrowedStartupGuardLease (token : Z) : StartupGuardLease := mkLease false token.

Record supervisedFakeTCPRuntime := mkSupervised {
  sr_key : fakeTCPRuntimeDesiredKey;
  sr_runtime : Z;
  sr_runCtx : bool;
  sr_done : bool;
  sr_runErr : option run_error;
  sr_runStarted : bool;
  sr_stopRequested : bool
}.

(** What the supervisor does to runtimes and to the barrier, in order. *)
Inductive event :=
| EvBuilt (id : Z)
| EvStarted (id : Z)
| EvExited (id : Z)
| EvStopRequested (id : Z)
| EvClosed (id : Z) (ok : bool)
| EvBarrier (closed : bool).

(** The runtimes, the builder and the context.  [run_exit] tells whether [Run]
    has returned since it was last asked, with its error; [wait_exit] is the
    outcome of waiting for [done] or the end of the context. *)
Class RuntimeEnv (W : Type) := {
  ctx_err : W -> option error * W;
  run_exit : Z -> W -> option (option run_error) * W;
  wait_exit : Z -> W -> (option run_error + error) * W;
  build_runtime : W -> (bool * option error) * W;
  rt_RequestStop : Z -> W -> option error * W;
  rt_Close : Z -> W -> option error * W;
  rt_Healthy : Z -> W -> option error * W;
  rt_pauser : Z -> bool;
  rt_Pause : Z -> W -> (Z + error) * W;
  rt_Resume : Z -> Z -> W -> option error * W
}.

(** The supervisor with the allocation counter, the record of its actions and
    the environment. *)
Record Supervisor (W : Type) := mkSupervisor {
  sp_current : option supervisedFakeTCPRuntime;
  sp_phase : StartupGuardPausePhase;
  sp_revision : Z;
  sp_lease : StartupGuardLease;
  sp_released : Z;
  sp_innerLease : Z;
  sp_pausedRuntime : option Z;
  sp_next : positive;
  sp_trace : list event;
  sp_env : W
}.
Arguments mkSupervisor {W}.
Arguments sp_current {W}.
Arguments sp_phase {W}.
Arguments sp_revision {W}.
Arguments sp_lease {W}.
Arguments sp_released {W}.
Arguments sp_innerLease {W}.
Arguments sp_pausedRuntime {W}.
Arguments sp_next {W}.
Arguments sp_trace {W}.
Arguments sp_env {W}.

Definition new_supervisor {W} (w : W) : Supervisor W :=
  mkSupervisor None PhaseUnset 0 lease_zero 0 0 None 1%positive [] w.

Section supervisor.
Context {W : Type} `{RuntimeEnv W}.
Abbreviation S := (Supervisor W) (only parsing).

Definition storeCurrent (s : S) (e : option supervisedFakeTCPRuntime) : S :=
  mkSupervisor e (sp_phase s) (sp_revision s) (sp_lease s) (sp_released s) (sp_innerLease s)
    (sp_pausedRuntime s) (sp_next s) (sp_trace s) (sp_env s).
Definition set_env (s : S) (w : W) : S :=
  mkSupervisor (sp_current s) (sp_phase s) (sp_revision s) (sp_lease s) (sp_released s)
    (sp_innerLease s) (sp_pausedRuntime s) (sp_next s) (sp_trace s) w.
Definition emit (ev : event) (s : S) : S :=
  mkSupervisor (sp_current s) (sp_phase s) (sp_revision s) (sp_lease s) (sp_released s)
    (sp_innerLease s) (sp_pausedRuntime s) (sp_next s) (sp_trace s ++ [ev]) (sp_env s).
Definition set_inner (s : S) (runtime : option Z) (lease : Z) : S :=
  mkSupervisor (sp_current s) (sp_phase s) (sp_revision s) (sp_lease s) (sp_released s) lease
    runtime (sp_next s) (sp_trace s) (sp_env s).
Definition fresh (s : S) : Z * S :=
  (Zpos (sp_next s), mkSupervisor (sp_current s) (sp_phase s) (sp_revision s) (sp_lease s) (sp_released s)
     (sp_innerLease s) (sp_pausedRuntime s) (Pos.succ (sp_next s)) (sp_trace s) (sp_env s)).
(** A call into the environment. *)
Definition call_env {A} (f : W -> A * W) (s : S) : A * S :=
  let '(a, w) := f (sp_env s) in (a, set_env s w).

(** ** The supervised runtime *)

(** The end of [run]. *)
Definition exited (e : supervisedFakeTCPRuntime) (err : option run_error) : supervisedFakeTCPRuntime :=
  let err := match err with
             | None => if sr_stopRequested e then None
                       else Some (mkRunError errFakeTCPRuntimeExited false)
             | Some err => Some err
             end in
  mkSupervised (sr_key e) (sr_runtime e) (sr_runCtx e) true err (sr_runStarted e) (sr_stopRequested e).
Definition running (e : supervisedFakeTCPRuntime) : bool := sr_runStarted e && negb (sr_done e).

Definition exit_current (s : S) (e : supervisedFakeTCPRuntime) (err : option run_error) : S :=
  emit (EvExited (sr_runtime e)) (storeCurrent s (Some (exited e err))).

Definition observe (s : S) : S :=
  match sp_current s with
  | Some e =>
      if running e then
        let '(r, s) := call_env (run_exit (sr_runtime e)) s in
        match r with Some err => exit_current s e err | None => s end
      else s
  | None => s
  end.

(** [start] on the current entry. *)
Definition start (s : S) (e : supervisedFakeTCPRuntime) : option error * S :=
  if sr_runStarted e then (None, s)
  else if sr_stopRequested e then (Some errFakeTCPRuntimeStopping, s)
  else if negb (sr_runCtx e) then (Some "runtime context is nil", s)
  else (None, emit (EvStarted (sr_runtime e)) (storeCurrent s (Some
         (mkSupervised (sr_key e) (sr_runtime e) (sr_runCtx e) (sr_done e) (sr_runErr e) true
            (sr_stopRequested e))))).

(** [requestStop] on the current entry; an entry that never ran is done. *)
Definition requestStop (s : S) : option error * S :=
  let s := observe s in
  match sp_current s with
  | None => (None, s)
  | Some e =>
      if sr_stopRequested e then (None, s)
      else
        let e' := mkSupervised (sr_key e) (sr_runtime e) (sr_runCtx e)
                    (sr_done e || negb (sr_runStarted e)) (sr_runErr e) (sr_runStarted e) true in
        let '(err, s) := call_env (rt_RequestStop (sr_runtime e)) (storeCurrent s (Some e')) in
        (err, emit (EvStopRequested (sr_runtime e)) s)
  end.

Definition terminalError (e : supervisedFakeTCPRuntime) : option run_error :=
  if sr_done e then sr_runErr e else None.

(** [ownerHealthy] with a context that has not ended. *)
Definition owner_healthy (s : S) : bool * S :=
  let s := observe s in
  match sp_current s with
  | None => (false, s)
  | Some e =>
      if sr_stopRequested e || sr_done e then (false, s)
      else let '(err, s) := call_env (rt_Healthy (sr_runtime e)) s in
           (negb (bool_decide (is_Some err)), s)
  end.
Definition ownerHealthy (s : S) : bool * S :=
  let '(err, s) := call_env ctx_err s in
  match err with Some _ => (false, s) | None => owner_healthy s end.

Definition wrapFakeTCPRunError (err : option run_error) : option error :=
  match err with
  | Some err => if re_canceled err then None else Some ("FakeTCP runtime stopped: " +:+ re_message err)
  | None => None
  end.
Definition wrapFakeTCPStopError (err : option error) : option error :=
  (fun e => "request FakeTCP runtime stop: " +:+ e) <$> err.
Definition wrapFakeTCPCloseError (err : option error) : option error :=
  (fun e => "close FakeTCP runtime owner: " +:+ e) <$> err.

(** ** Retiring *)

Definition clearCurrent (s : S) (e : supervisedFakeTCPRuntime) : S :=
  let s := storeCurrent s None in
  if bool_decide (sp_pausedRuntime s = Some (sr_runtime e)) then set_inner s None 0 else s.

Definition close_runtime (id : Z) (s : S) : option error * S :=
  let '(err, s) := call_env (rt_Close id) s in
  (err, emit (EvClosed id (negb (bool_decide (is_Some err)))) s).

(** Closes the finished current entry. *)
Definition close_current (s : S) (e : supervisedFakeTCPRuntime) : option error * S :=
  let '(closeErr, s) := close_runtime (sr_runtime e) s in
  (closeErr, match closeErr with None => clearCurrent s e | Some _ => s end).

(** Waiting for [done] or the context, whichever comes first; an entry that is
    neither done nor running can only see the context end. *)
Definition wait_done (s : S) : option error * S :=
  match sp_current s with
  | None => (None, s)
  | Some e =>
      let '(r, s) := call_env (wait_exit (sr_runtime e)) s in
      match r with
      | inl err => if running e then (None, exit_current s e err)
                   else if sr_done e then (None, s) else (Some "context canceled", s)
      | inr err => (Some err, s)
      end
  end.

(** The common part of [stopAndRetire] and [Stop]; they differ in how the stop
    error is reported when the context ends first. *)
Definition stop_current (wrap : option error -> option error) (s : S) : option error * S :=
  let '(stopErr, s) := requestStop s in
  let '(cancelled, s) := wait_done s in
  match cancelled with
  | Some err => (errors_Join (wrap stopErr) (Some err), s)
  | None =>
      match sp_current s with
      | None => (None, s)
      | Some e =>
          let '(closeErr, s) := close_current s e in
          (errors_Join (errors_Join (wrapFakeTCPRunError (terminalError e))
                                    (wrapFakeTCPStopError stopErr))
                       (wrapFakeTCPCloseError closeErr), s)
      end
  end.
Definition stopAndRetire : S -> option error * S := stop_current wrapFakeTCPStopError.

Definition retireFinished (s : S) : option error * S :=
  match sp_current s with
  | None => (Some "retire FakeTCP runtime: runtime is not finished", s)
  | Some e =>
      if negb (sr_done e) then (Some "retire FakeTCP runtime: runtime is not finished", s)
      else
        let '(closeErr, s) := close_current s e in
        (errors_Join (wrapFakeTCPRunError (terminalError e)) (wrapFakeTCPCloseError closeErr), s)
  end.

Definition newQuarantinedFakeTCPRuntime (key : fakeTCPRuntimeDesiredKey) (runtime : Z)
    : supervisedFakeTCPRuntime :=
  mkSupervised key runtime false true None false true.

Definition closeUnstartedFakeTCPRuntime (id : Z) (s : S) : option error * S :=
  let '(err, s) := close_runtime id s in
  ((fun e => "close unstarted FakeTCP runtime: " +:+ e) <$> err, s).

(** ** The startup-guard barrier *)

Definition set_phase (s : S) (phase : StartupGuardPausePhase) : S :=
  mkSupervisor (sp_current s) phase (u64 (sp_revision s + 1)) (sp_lease s) (sp_released s)
    (sp_innerLease s) (sp_pausedRuntime s) (sp_next s) (sp_trace s) (sp_env s).
(** The barrier's lease fields. *)
Definition set_leases (s : S) (lease : StartupGuardLease) (released : Z) : S :=
  mkSupervisor (sp_current s) (sp_phase s) (sp_revision s) lease released 0 None
    (sp_next s) (sp_trace s) (sp_env s).

Definition StartupGuardPauseStatus (s : S) : StartupGuardPausePhase * S :=
  match sp_phase s with
  | PhaseUnset => (PhaseOpen, set_phase s PhaseOpen)
  | phase => (phase, s)
  end.
Definition startupGuardBarrierHeld (s : S) : bool * S :=
  let '(phase, s) := StartupGuardPauseStatus s in
  (match phase with PhaseDraining | PhaseHeld | PhaseResuming => true | _ => false end, s).

(** The new status is always a different one, so it is stored. *)
Definition setStartupGuardPauseState (s : S) (phase : StartupGuardPausePhase) : Z * S :=
  let s := emit (EvBarrier false) (set_phase s phase) in (sp_revision s, s).
Definition acquireStartupGuardPause (s : S) (lease : StartupGuardLease) : Z * S :=
  let s := emit (EvBarrier true) (set_phase (set_leases s lease 0) PhaseDraining) in
  (sp_revision s, s).
Definition borrowHeldStartupGuardLease (s : S) : (StartupGuardLease + error) :=
  if negb (bool_decide (sp_phase s = PhaseHeld)) || negb (lease_valid (sp_lease s))
  then inr "held startup guard barrier has no active lease"
  else inl (borrowedStartupGuardLease (sl_Token (sp_lease s))).
Definition activeStartupGuardLeaseMatches (s : S) (lease : StartupGuardLease) : bool :=
  lease_valid lease && lease_valid (sp_lease s) && (sl_Token (sp_lease s) =? sl_Token lease).
Definition releasedStartupGuardLeaseMatches (s : S) (lease : StartupGuardLease) : bool :=
  lease_valid lease && negb (sp_released s =? 0) && (sp_released s =? sl_Token lease).
Definition holdStartupGuardPause (s : S) : S := set_phase s PhaseHeld.
Definition rollbackNewStartupGuardPause (s : S) (expectedRevision : Z) (lease : StartupGuardLease) : S :=
  if (expectedRevision =? 0) || negb (sp_revision s =? expectedRevision) ||
     negb (bool_decide (sp_phase s = PhaseDraining)) || negb (lease_valid lease) ||
     negb (lease_valid (sp_lease s)) || negb (sl_Token (sp_lease s) =? sl_Token lease)
  then s
  else emit (EvBarrier false) (set_phase (set_leases s lease_zero (sp_released s)) PhaseOpen).
Definition releaseStartupGuardPause (s : S) : S :=
  emit (EvBarrier false) (set_phase (set_leases s lease_zero (sl_Token (sp_lease s))) PhaseOpen).
Definition storeStartupGuardInnerLease (s : S) (e : supervisedFakeTCPRuntime) (lease : Z) : S :=
  set_inner s (Some (sr_runtime e)) lease.
Definition loadStartupGuardInnerLease (s : S) (e : supervisedFakeTCPRuntime) : option Z :=
  if bool_decide (sp_pausedRuntime s = Some (sr_runtime e)) && negb (sp_innerLease s =? 0)
  then Some (sp_innerLease s) else None.
Definition clearStartupGuardInnerLease (s : S) (e : supervisedFakeTCPRuntime) : S :=
  if bool_decide (sp_pausedRuntime s = Some (sr_runtime e)) then set_inner s None 0 else s.
Definition restoreStartupGuardPause (s : S) (expectedRevision : Z) (phase : StartupGuardPausePhase) : S :=
  if negb (sp_revision s =? expectedRevision) || negb (bool_decide (sp_phase s = PhaseResuming))
  then s
  else emit (EvBarrier true) (set_phase s phase).

(** ** Operations *)

(** The part of [Ensure] before the build: [Some r] returns [r], [None] goes on
    with no current runtime. *)
Definition retire_current (key : fakeTCPRuntimeDesiredKey) (s : S) : option (option error) * S :=
  let s := observe s in
  match sp_current s with
  | None => (None, s)
  | Some e =>
      let retire (prefix : error) (s : S) :=
        let '(err, s) := stopAndRetire s in
        (match err with Some err => Some (Some (prefix +:+ err)) | None => None end, s) in
      if negb (sr_done e) then
        if bool_decide (sr_key e = key) then
          if sr_stopRequested e then (Some (Some errFakeTCPRuntimeStopping), s)
          else
            let '(healthy, s) := ownerHealthy s in
            if healthy then (Some None, s) else retire "retire unhealthy FakeTCP generation: " s
        else retire "retire changed FakeTCP generation: " s
      else
        let '(err, s) := retireFinished s in
        (match err with Some err => Some (Some err) | None => None end, s)
  end.

(** An unusable new runtime is closed, and kept if that fails. *)
Definition discard_runtime (key : fakeTCPRuntimeDesiredKey) (id : Z) (s : S) : option error * S :=
  let '(closeErr, s) := closeUnstartedFakeTCPRuntime id s in
  (closeErr, match closeErr with
             | Some _ => storeCurrent s (Some (newQuarantinedFakeTCPRuntime key id))
             | None => s
             end).

(** The part of [Ensure] from the call of the builder. *)
Definition build_and_start (key : fakeTCPRuntimeDesiredKey) (s : S) : option error * S :=
  let '((built, err), s) := call_env build_runtime s in
  let '(id, s) := fresh s in
  let s := if built then emit (EvBuilt id) s else s in
  match err with
  | Some err =>
      if built then
        let '(closeErr, s) := discard_runtime key id s in
        (errors_Join (Some ("build FakeTCP runtime: " +:+ err)) closeErr, s)
      else (Some ("build FakeTCP runtime: " +:+ err), s)
  | None =>
      if negb built then (Some "build FakeTCP runtime: builder returned nil", s)
      else
        let '(err, s) := call_env ctx_err s in
        match err with
        | Some err =>
            let '(closeErr, s) := discard_runtime key id s in (errors_Join (Some err) closeErr, s)
        | None =>
            let entry := mkSupervised key id true false None false false in
            let s := storeCurrent s (Some entry) in
            let '(held, s) := startupGuardBarrierHeld s in
            if held then (None, s)
            else let '(err, s) := start s entry in
                 ((fun e => "start FakeTCP runtime: " +:+ e) <$> err, s)
        end
  end.

(** [ctx] and [build] tell whether the arguments are non-nil. *)
Definition Ensure (ctx : bool) (key : fakeTCPRuntimeDesiredKey) (build : bool) (s : S)
    : option error * S :=
  if negb ctx then (Some "ensure FakeTCP runtime: context is nil", s)
  else
    let '(err, s) := call_env ctx_err s in
    match err with
    | Some err => (Some err, s)
    | None =>
        if bool_decide (key = empty_key) then (Some "ensure FakeTCP runtime: desired key is empty", s)
        else if negb build then (Some "ensure FakeTCP runtime: builder is nil", s)
        else
          let '(err, s) := call_env ctx_err s in
          match err with
          | Some err => (Some err, s)
          | None =>
              let '(r, s) := retire_current key s in
              match r with
              | Some err => (err, s)
              | None =>
                  let '(err, s) := call_env ctx_err s in
                  match err with
                  | Some err => (Some err, s)
                  | None => build_and_start key s
                  end
              end
          end
    end.

Definition supervisor_Stop (ctx : bool) (s : S) : option error * S :=
  if negb ctx then (Some "stop FakeTCP runtime: context is nil", s)
  else
    let '(err, s) := call_env ctx_err s in
    match err with
    | Some err => (Some err, s)
    | None =>
        let '(err, s) := call_env ctx_err s in
        match err with
        | Some err => (Some err, s)
        | None => match sp_current s with None => (None, s) | Some _ => stop_current id s end
        end
    end.

(** The leaf pause of a started runtime, after the barrier was acquired. *)
Definition pause_current (s : S) (e : supervisedFakeTCPRuntime) (lease : StartupGuardLease)
    (revision : Z) : (StartupGuardLease + error) * S :=
  if negb (rt_pauser (sr_runtime e)) then
    (inr "quiesce FakeTCP runtime for startup guard: runtime has no pause contract", rollbackNewStartupGuardPause s revision lease)
  else
    let '(r, s) := call_env (rt_Pause (sr_runtime e)) s in
    match r with
    | inr err => (inr err, rollbackNewStartupGuardPause s revision lease)
    | inl token =>
        if token =? 0 then (inr "quiesce FakeTCP runtime for startup guard: runtime returned an empty lease", holdStartupGuardPause s)
        else (inl lease, holdStartupGuardPause (storeStartupGuardInnerLease s e token))
    end.

Definition QuiesceForStartupGuard (ctx : bool) (s : S) : (StartupGuardLease + error) * S :=
  if negb ctx then (inr "quiesce FakeTCP runtime for startup guard: context is nil", s)
  else
    let '(phase, s) := StartupGuardPauseStatus s in
    if bool_decide (phase = PhaseHeld) then (borrowHeldStartupGuardLease s, s)
    else
      let '(err, s) := call_env ctx_err s in
      match err with
      | Some err => (inr err, s)
      | None =>
          if negb (bool_decide (phase = PhaseOpen))
          then (inr "quiesce FakeTCP runtime for startup guard: invalid pause phase", s)
          else
            let '(token, s) := fresh s in
            let lease := mkLease true token in
            let '(revision, s) := acquireStartupGuardPause s lease in
            let s := observe s in
            match sp_current s with
            | Some e => if negb (sr_runStarted e) || sr_done e
                        then (inl lease, holdStartupGuardPause s)
                        else pause_current s e lease revision
            | None => (inl lease, holdStartupGuardPause s)
            end
      end.

(** Resuming the current runtime while the barrier is in [PhaseResuming]. *)
Definition resume_current (s : S) (e : supervisedFakeTCPRuntime) (revision : Z) : option error * S :=
  let rollback s := restoreStartupGuardPause s revision PhaseHeld in
  if sr_done e || sr_stopRequested e then
    (errors_Join (Some "resume FakeTCP runtime after startup guard: runtime is not startable")
       (wrapFakeTCPRunError (terminalError e)), rollback s)
  else if sr_runStarted e then
    if negb (rt_pauser (sr_runtime e)) then (Some "resume FakeTCP runtime after startup guard: runtime has no pause contract", rollback s)
    else match loadStartupGuardInnerLease s e with
    | None => (Some "resume FakeTCP runtime after startup guard: runtime has no retained inner lease", rollback s)
    | Some token =>
        let '(err, s) := call_env (rt_Resume (sr_runtime e) token) s in
        match err with
        | Some err => (Some ("resume FakeTCP runtime after startup guard: " +:+ err), rollback s)
        | None => (None, clearStartupGuardInnerLease s e)
        end
    end
  else
    let '(err, s) := start s e in
    match err with
    | Some err => (Some ("resume FakeTCP runtime after startup guard: " +:+ err), rollback s)
    | None => (None, s)
    end.

Definition ResumeAfterStartupGuard (ctx : bool) (lease : StartupGuardLease) (s : S)
    : option error * S :=
  if negb ctx then (Some "resume FakeTCP runtime after startup guard: context is nil", s)
  else
    let '(phase, s) := StartupGuardPauseStatus s in
    if bool_decide (phase = PhaseOpen) then
      (if releasedStartupGuardLeaseMatches s lease then None else Some ErrStartupGuardLeaseMismatch, s)
    else if negb (bool_decide (phase = PhaseHeld))
    then (Some "resume FakeTCP runtime after startup guard: invalid pause phase", s)
    else if negb (activeStartupGuardLeaseMatches s lease) then (Some ErrStartupGuardLeaseMismatch, s)
    else
      let '(err, s) := call_env ctx_err s in
      match err with
      | Some err => (Some err, s)
      | None =>
          let '(revision, s) := setStartupGuardPauseState s PhaseResuming in
          let s := observe s in
          match sp_current s with
          | None => (None, releaseStartupGuardPause s)
          | Some e =>
              let '(err, s) := resume_current s e revision in
              match err with
              | Some err => (Some err, s)
              | None => (None, releaseStartupGuardPause s)
              end
          end
      end.

(** ** Observation *)

Definition HealthyCurrent (ctx : bool) (s : S) : bool * S :=
  if negb ctx then (false, s)
  else
    let '(err, s) := call_env ctx_err s in
    match err with
    | Some _ => (false, s)
    | None => ownerHealthy s
    end.

(** With the background context. *)
Definition Healthy (key : fakeTCPRuntimeDesiredKey) (s : S) : bool * S :=
  if bool_decide (key = empty_key) then (false, s)
  else match sp_current s with
  | None => (false, s)
  | Some e => if bool_decide (sr_key e = key) then owner_healthy s else (false, s)
  end.

Definition RuntimeError (s : S) : option run_error * S :=
  let s := observe s in
  (match sp_current s with Some e => terminalError e | None => None end, s).
End supervisor.
