(* ===== verification/SupervisorProps.v ===== *)
(** * The supervisor keeps one runtime at a time, and starts none behind the
    startup-guard barrier. *)
From Stdlib Require Import ZArith Lia.
From stdpp Require Import base option list gmap strings numbers relations.
From S2P Require Import Prelude Abi Supervisor.

(** ** The protocol: what may happen to runtimes *)

Inductive owned := Staged | Running | Exited.

(** The runtime that is open (built and not successfully closed), and whether
    the barrier is closed. *)
Record protocol := mkProtocol { pr_open : option (Z * owned); pr_barrier : bool }.

Definition protocol_step (p : protocol) (ev : event) : option protocol :=
  let next o := Some (mkProtocol o (pr_barrier p)) in
  match ev, pr_open p with
  | EvBuilt id, None => next (Some (id, Staged))
  | EvStarted id, Some (id', Staged) =>
      if (id =? id') && negb (pr_barrier p) then next (Some (id, Running)) else None
  | EvExited id, Some (id', Running) => if id =? id' then next (Some (id, Exited)) else None
  | EvStopRequested id, Some (id', _) => if id =? id' then Some p else None
  | EvClosed id ok, Some (id', st) =>
      match st with
      | Running => None
      | _ => if id =? id' then (if ok then next None else Some p) else None
      end
  | EvBarrier closed, o => Some (mkProtocol o closed)
  | _, _ => None
  end.

Definition follows (trace : list event) : option protocol :=
  foldl (fun p ev => p ≫= fun p => protocol_step p ev) (Some (mkProtocol None false)) trace.

Lemma follows_snoc trace ev p : follows trace = Some p -> follows (trace ++ [ev]) = protocol_step p ev.
Proof. intros Hf. unfold follows in *. by rewrite foldl_app, Hf. Qed.

Definition state_of (e : supervisedFakeTCPRuntime) : Z * owned :=
  (sr_runtime e, if sr_runStarted e then (if sr_done e then Exited else Running) else Staged).
Definition barred (phase : StartupGuardPausePhase) : bool :=
  match phase with PhaseDraining | PhaseHeld => true | _ => false end.

Section props.
Context {W : Type} `{RuntimeEnv W}.
Implicit Types s : Supervisor W.

(** The trace follows the protocol and the supervisor's fields agree with it;
    an entry is started once the barrier is open, unless it was stopped. *)
Record sup_ok s : Prop := {
  so_trace : follows (sp_trace s) = Some (mkProtocol (state_of <$> sp_current s) (barred (sp_phase s)));
  so_stopped : forall e, sp_current s = Some e ->
    sr_runStarted e = false -> sr_done e = sr_stopRequested e;
  so_open : forall e, sp_current s = Some e -> sp_phase s = PhaseUnset \/ sp_phase s = PhaseOpen ->
    sr_runStarted e = true \/ sr_stopRequested e = true
}.

(** The parts of the state only calls into the environment change. *)
Definition same s s' : Prop :=
  sp_current s' = sp_current s /\ sp_phase s' = sp_phase s /\ sp_trace s' = sp_trace s /\
  sp_lease s' = sp_lease s /\ sp_released s' = sp_released s /\ sp_revision s' = sp_revision s.

(** Neither the barrier nor its leases change, and no barrier event happens. *)
Definition is_barrier (ev : event) : bool := match ev with EvBarrier _ => true | _ => false end.
Definition kept s s' : Prop :=
  sp_phase s' = sp_phase s /\ sp_lease s' = sp_lease s /\ sp_released s' = sp_released s /\
  sp_revision s' = sp_revision s /\
  exists evs, sp_trace s' = sp_trace s ++ evs /\ Forall (fun ev => is_barrier ev = false) evs.
Lemma kept_trans s1 s2 s3 : kept s1 s2 -> kept s2 s3 -> kept s1 s3.
Proof.
  intros (? & ? & ? & ? & l & Hl & Fl) (? & ? & ? & ? & l' & Hl' & Fl').
  split_and!; try congruence. exists (l ++ l'). split; [by rewrite Hl', Hl, app_assoc|by apply Forall_app].
Qed.
Lemma same_kept s s' : same s s' -> kept s s'.
Proof.
  intros (? & ? & Ht & ? & ? & ?). split_and!; try done. exists []. by rewrite app_nil_r.
Qed.
(** One more event. *)
Lemma kept_event s s' ev : sp_phase s' = sp_phase s -> sp_lease s' = sp_lease s ->
  sp_released s' = sp_released s -> sp_revision s' = sp_revision s ->
  sp_trace s' = sp_trace s ++ [ev] -> is_barrier ev = false -> kept s s'.
Proof. intros. split_and!; try done. exists [ev]. split; [done|by repeat constructor]. Qed.

Lemma call_env_same {A} (f : W -> A * W) s : same s (call_env f s).2.
Proof. unfold call_env. by destruct (f (sp_env s)). Qed.

Lemma same_ok s s' : same s s' -> sup_ok s -> sup_ok s'.
Proof. intros (Hc & Hp & Ht & _) [H1 H2 H3]. split; rewrite ?Hc, ?Hp, ?Ht; done. Qed.

Lemma exit_ok s e err : sup_ok s -> sp_current s = Some e -> running e = true ->
  sup_ok (exit_current s e err).
Proof.
  intros [H1 H2 H3] Hc Hr. unfold running in Hr. apply andb_true_iff in Hr as [Hs Hd%negb_true_iff].
  rewrite Hc in H1. cbn in H1. unfold state_of in H1. rewrite Hs, Hd in H1.
  split; cbn.
  - rewrite (follows_snoc _ _ _ H1). cbn. rewrite Z.eqb_refl. unfold state_of. cbn. by rewrite Hs.
  - intros e' [= <-]. cbn. by rewrite Hs.
  - intros e' [= <-]. cbn. rewrite Hs. by left.
Qed.

(** Observing [done] leaves the entry or delivers its exit. *)
Lemma observe_ok s : sup_ok s -> sup_ok (observe s) /\ kept s (observe s) /\
  (sp_current s = None -> sp_current (observe s) = None) /\
  (forall e, sp_current s = Some e -> exists e', sp_current (observe s) = Some e' /\
     sr_key e' = sr_key e /\ sr_runtime e' = sr_runtime e /\ sr_runStarted e' = sr_runStarted e /\
     sr_stopRequested e' = sr_stopRequested e /\ (sr_done e = true -> e' = e)).
Proof.
  intros Hok. unfold observe. destruct (sp_current s) as [e|] eqn:Hc;
    [|split; [done|]; split; [by apply same_kept|by split]].
  destruct (running e) eqn:Hr; [|split; [done|]; split; [by apply same_kept|]; split; [done|];
    intros e' [= <-]; eauto 8].
  pose proof (call_env_same (run_exit (sr_runtime e)) s) as Hsame.
  destruct (call_env _ s) as [r s1]. cbn in Hsame. pose proof (same_ok _ _ Hsame Hok) as Hok1.
  pose proof (same_kept _ _ Hsame) as Hk. destruct Hsame as (E1 & E2 & E3 & E4 & E5 & E6). destruct r as [err|].
  - split; [apply exit_ok; [done|congruence|done]|]. split; [by apply (kept_event _ _ (EvExited (sr_runtime e))); cbn; congruence|].
    split; [done|]. intros e' [= <-]. eexists. split; [done|]. cbn. split_and!; try done.
    intros Hd. unfold running in Hr. rewrite Hd, andb_false_r in Hr. done.
  - split; [done|]. split; [done|]. split; [done|]. intros e' [= <-]. exists e. rewrite E1, Hc. split_and!; done.
Qed.

Lemma requestStop_ok s err s' e : requestStop s = (err, s') -> sup_ok s -> sp_current s = Some e ->
  sup_ok s' /\ kept s s' /\ exists e', sp_current s' = Some e' /\ sr_key e' = sr_key e /\
    sr_stopRequested e' = true /\ (sr_runStarted e' = false -> sr_done e' = true).
Proof.
  intros Hr Hok Hc. unfold requestStop in Hr.
  destruct (observe_ok s Hok) as (Hok1 & Hk0 & _ & Hcur).
  destruct (Hcur e Hc) as (e1 & Hc1 & Hk & Hid & Hst & Hsr & _). rewrite Hc1 in Hr.
  destruct (sr_stopRequested e1) eqn:Hstop.
  { injection Hr as <- <-. split; [done|]. split; [done|]. exists e1. split_and!; try done.
    intros Hns. by rewrite (so_stopped _ Hok1 _ Hc1 Hns). }
  set (e2 := mkSupervised _ _ _ _ _ _ _) in Hr.
  pose proof (call_env_same (rt_RequestStop (sr_runtime e1)) (storeCurrent (observe s) (Some e2))) as Hsame.
  destruct (call_env _ (storeCurrent _ _)) as [r s2]. injection Hr as <- <-. cbn in Hsame.
  destruct Hsame as (E1 & E2 & E3 & E4 & E5 & E6).
  cbn [storeCurrent sp_current sp_phase sp_trace sp_lease sp_released sp_revision] in E1, E2, E3, E4, E5, E6.
  destruct Hok1 as [T1 T2 T3]. rewrite Hc1 in T1. cbn in T1.
  assert (state_of e2 = state_of e1) as Hstate.
  { unfold state_of, e2. cbn. destruct (sr_runStarted e1); [|done]. by rewrite orb_false_r. }
  split; [split; cbn|split; [eapply kept_trans; [exact Hk0|]; by apply (kept_event _ _ (EvStopRequested (sr_runtime e1))); cbn [emit sp_phase sp_lease sp_released sp_revision sp_trace]; first [congruence|done]|]].
  - rewrite E3, E1, E2. rewrite (follows_snoc _ _ _ T1). cbn. rewrite Hstate. unfold state_of.
    by rewrite Z.eqb_refl.
  - intros x. rewrite E1. intros [= <-] Hns. cbn in Hns |- *. rewrite Hns. by rewrite orb_true_r.
  - intros x. rewrite E1. intros [= <-] _. cbn. by right.
  - exists e2. rewrite <- Hk. split_and!; [by cbn; rewrite E1|done|done|]. cbn. intros ->. by rewrite orb_true_r.
Qed.

Lemma wait_done_ok s r s' e : wait_done s = (r, s') -> sup_ok s -> sp_current s = Some e ->
  sup_ok s' /\ kept s s' /\
  exists e', sp_current s' = Some e' /\ sr_key e' = sr_key e /\ (r = None -> sr_done e' = true).
Proof.
  intros Hr Hok Hc. unfold wait_done in Hr. rewrite Hc in Hr.
  pose proof (call_env_same (wait_exit (sr_runtime e)) s) as Hsame.
  destruct (call_env _ s) as [o s1]. cbn in Hsame. pose proof (same_ok _ _ Hsame Hok) as Hok1.
  pose proof (same_kept _ _ Hsame) as Hk. destruct Hsame as (E1 & _).
  rewrite Hc in E1. destruct o as [err|err]; [|injection Hr as <- <-; split; [done|]; split; [done|]; by exists e].
  destruct (running e) eqn:Hrun.
  - injection Hr as <- <-. split; [by apply exit_ok|]. split; [|by eexists].
    eapply kept_trans; [exact Hk|]. by apply (kept_event _ _ (EvExited (sr_runtime e))).
  - destruct (sr_done e) eqn:Hd; injection Hr as <- <-; (split; [done|]; split; [done|]; by exists e).
Qed.

Lemma close_current_ok s r s' e : close_current s e = (r, s') -> sup_ok s -> sp_current s = Some e ->
  sr_done e = true ->
  sup_ok s' /\ kept s s' /\ sp_current s' = (match r with None => None | Some _ => Some e end).
Proof.
  intros Hr Hok Hc Hd. unfold close_current, close_runtime in Hr.
  pose proof (call_env_same (rt_Close (sr_runtime e)) s) as Hsame.
  destruct (call_env _ s) as [o s1]. cbn in Hsame. injection Hr as <- <-.
  destruct Hsame as (E1 & E2 & E3 & E4 & E5 & E6). rewrite Hc in E1. destruct Hok as [T1 T2 T3].
  rewrite Hc in T1. cbn in T1. unfold state_of in T1. rewrite Hd in T1.
  assert (follows (sp_trace s ++ [EvClosed (sr_runtime e) (negb (bool_decide (is_Some o)))]) =
    Some (mkProtocol (state_of <$> match o with None => None | Some _ => Some e end) (barred (sp_phase s)))) as Hf.
  { rewrite (follows_snoc _ _ _ T1). unfold state_of.
    destruct o; cbn; rewrite ?Hd; destruct (sr_runStarted e); by rewrite Z.eqb_refl. }
  destruct o as [err|].
  - split; [|split; [apply (kept_event _ _ (EvClosed (sr_runtime e) false)); cbn; congruence|exact E1]].
    split; cbn; rewrite ?E1, ?E2, ?E3; [exact Hf|..]; intros x [= <-]; [by apply T2|by apply T3].
  - unfold clearCurrent. cbn. destruct (bool_decide (sp_pausedRuntime s1 = _));
      (split; [split; cbn; rewrite ?E2, ?E3; [exact Hf|done|done]|
               split; [apply (kept_event _ _ (EvClosed (sr_runtime e) true)); cbn; congruence|done]]).
Qed.

Lemma errors_Join_r a b : errors_Join a (Some b) <> None.
Proof. by destruct a. Qed.

Lemma stop_current_ok wrap s r s' e : stop_current wrap s = (r, s') -> sup_ok s -> sp_current s = Some e ->
  sup_ok s' /\ kept s s' /\ (r = None -> sp_current s' = None).
Proof.
  intros Hr Hok Hc. unfold stop_current in Hr. destruct (requestStop s) as [stopErr s1] eqn:E1.
  destruct (requestStop_ok _ _ _ _ E1 Hok Hc) as (Hok1 & Hk1 & e1 & Hc1 & _).
  destruct (wait_done s1) as [w s2] eqn:E2.
  destruct (wait_done_ok _ _ _ _ E2 Hok1 Hc1) as (Hok2 & Hk2 & e2 & Hc2 & _ & Hd).
  pose proof (kept_trans _ _ _ Hk1 Hk2) as Hk. destruct w as [err|].
  { injection Hr as <- <-. split; [done|]. split; [done|]. by intros ?%errors_Join_r. }
  rewrite Hc2 in Hr. destruct (close_current s2 e2) as [closeErr s3] eqn:E3. injection Hr as <- <-.
  destruct (close_current_ok _ _ _ _ E3 Hok2 Hc2 (Hd eq_refl)) as (Hok3 & Hk3 & Hc3).
  split; [done|]. split; [by eapply kept_trans|]. intros Hn. rewrite Hc3.
  destruct closeErr; [|done]. by apply errors_Join_r in Hn.
Qed.

(** The entry [Ensure] leaves when it succeeds. *)
Definition ensured (key : fakeTCPRuntimeDesiredKey) s : Prop := exists e,
  sp_current s = Some e /\ sr_key e = key /\ sr_stopRequested e = false.

Lemma owner_healthy_ok s h s' : owner_healthy s = (h, s') -> sup_ok s ->
  sup_ok s' /\ kept s s' /\
  (forall e, sp_current s = Some e -> exists e', sp_current s' = Some e' /\ sr_key e' = sr_key e /\
     (h = true -> sr_stopRequested e' = false)).
Proof.
  intros Hh Hok. unfold owner_healthy in Hh.
  destruct (observe_ok s Hok) as (Hok1 & Hk0 & Hn & Hcur).
  destruct (sp_current (observe s)) as [e1|] eqn:Hc1.
  2: { injection Hh as <- <-. split; [done|]. split; [done|]. intros e Hc.
       destruct (Hcur e Hc) as (e' & ? & _). congruence. }
  assert (forall e, sp_current s = Some e -> sr_key e1 = sr_key e) as Hkey.
  { intros e Hc. destruct (Hcur e Hc) as (e' & ? & ? & _). congruence. }
  destruct (sr_stopRequested e1) eqn:Hsr; cbn [orb] in Hh;
    [injection Hh as <- <-; split; [done|]; split; [done|]; intros e Hc; exists e1; by rewrite (Hkey e Hc)|].
  destruct (sr_done e1); [injection Hh as <- <-; split; [done|]; split; [done|];
    intros e Hc; exists e1; by rewrite (Hkey e Hc)|].
  pose proof (call_env_same (rt_Healthy (sr_runtime e1)) (observe s)) as Hsame.
  destruct (call_env _ (observe s)) as [r s1]. injection Hh as <- <-. cbn in Hsame.
  split; [by eapply same_ok|]. split.
  - eapply kept_trans; [exact Hk0|by apply same_kept].
  - intros e Hc. exists e1. destruct Hsame as (-> & _). by rewrite (Hkey e Hc).
Qed.

Lemma ctx_err_ok s r s' : call_env ctx_err s = (r, s') -> sup_ok s ->
  sup_ok s' /\ kept s s' /\ sp_current s' = sp_current s.
Proof.
  intros Hr Hok. pose proof (call_env_same ctx_err s) as Hsame. rewrite Hr in Hsame. cbn in Hsame.
  split; [by eapply same_ok|]. split; [by apply same_kept|]. apply Hsame.
Qed.

Lemma retire_current_ok key s r s' : retire_current key s = (r, s') -> sup_ok s ->
  sup_ok s' /\ kept s s' /\ (r = None -> sp_current s' = None) /\ (r = Some None -> ensured key s').
Proof.
  intros Hr Hok. unfold retire_current in Hr.
  destruct (observe_ok s Hok) as (Hok1 & Hk0 & _ & _).
  destruct (sp_current (observe s)) as [e|] eqn:Hc; [|by injection Hr as <- <-; split_and!].
  assert (forall (p : error) s1 r s2 e, sup_ok s1 -> kept s s1 -> sp_current s1 = Some e ->
    (let '(err, s2) := stopAndRetire s1 in
     (match err with Some err => Some (Some (p +:+ err)) | None => None end, s2)) = (r, s2) ->
    sup_ok s2 /\ kept s s2 /\ (r = None -> sp_current s2 = None) /\ (r = Some None -> ensured key s2)) as Hretire.
  { intros p s1 r1 s2 e1 Hs1 Hks1 Hcs1 E. destruct (stopAndRetire s1) as [err s3] eqn:Est. injection E as <- <-.
    destruct (stop_current_ok _ _ _ _ _ Est Hs1 Hcs1) as (? & ? & Hnone).
    split; [done|]. split; [by eapply kept_trans|]. by destruct err; split; [done|done|intros _; by apply Hnone|done]. }
  destruct (sr_done e) eqn:Hd; cbn [negb] in Hr.
  - destruct (retireFinished (observe s)) as [err s1] eqn:Ef. injection Hr as <- <-.
    unfold retireFinished in Ef. rewrite Hc, Hd in Ef. cbn [negb] in Ef.
    destruct (close_current (observe s) e) as [closeErr s2] eqn:Ec. injection Ef as <- <-.
    destruct (close_current_ok _ _ _ _ Ec Hok1 Hc Hd) as (? & ? & Hc2). split; [done|].
    split; [by eapply kept_trans|]. rewrite Hc2. destruct closeErr; [|split; [done|by destruct (errors_Join _ _)]].
    destruct (errors_Join _ _) eqn:Ej; [done|by apply errors_Join_r in Ej].
  - case_bool_decide as Hkey; [|by eapply Hretire]. destruct (sr_stopRequested e) eqn:Hst.
    { by injection Hr as <- <-; split_and!. }
    destruct (ownerHealthy (observe s)) as [h s1] eqn:Eh. unfold ownerHealthy in Eh.
    destruct (call_env ctx_err (observe s)) as [cerr s0] eqn:Ectx.
    destruct (ctx_err_ok _ _ _ Ectx Hok1) as (Hok0 & Hk1 & Hc0). rewrite Hc in Hc0.
    assert (sup_ok s1 /\ kept s s1 /\ exists e', sp_current s1 = Some e' /\ sr_key e' = sr_key e /\
      (h = true -> sr_stopRequested e' = false)) as (Hok2 & Hk2 & e' & Hc' & Hke & Hsr).
    { destruct cerr as [cerr|].
      - injection Eh as <- <-. split; [done|]. split; [by eapply kept_trans|]. by exists e.
      - destruct (owner_healthy_ok _ _ _ Eh Hok0) as (? & ? & Hcur). split; [done|].
        split; [by eapply kept_trans; [|eapply kept_trans]|]. by apply Hcur. }
    destruct h; [|by eapply Hretire]. injection Hr as <- <-. split; [done|]. split; [done|]. split; [done|].
    intros _. exists e'. split_and!; [done|congruence|by apply Hsr].
Qed.

(** A runtime was built and is not yet in the entry. *)
Definition built (id : Z) s : Prop :=
  follows (sp_trace s) = Some (mkProtocol (Some (id, Staged)) (barred (sp_phase s))) /\ sp_current s = None.

Lemma discard_ok key id s r s' : discard_runtime key id s = (r, s') -> built id s -> sup_ok s' /\ kept s s'.
Proof.
  intros Hr [Hf Hc]. unfold discard_runtime, closeUnstartedFakeTCPRuntime, close_runtime in Hr.
  pose proof (call_env_same (rt_Close id) s) as Hsame. destruct (call_env _ s) as [o s1]. cbn in Hsame.
  destruct Hsame as (E1 & E2 & E3 & E4 & E5 & E6). rewrite Hc in E1.
  destruct o as [err|]; cbn in Hr; injection Hr as <- <-;
    (split; [|eapply kept_event; cbn; rewrite ?E2, ?E3, ?E4, ?E5, ?E6; reflexivity]); split; cbn; rewrite ?E1, ?E2, ?E3.
  - rewrite (follows_snoc _ _ _ Hf). cbn. by rewrite Z.eqb_refl.
  - by intros e [= <-].
  - intros e [= <-] _. by right.
  - rewrite (follows_snoc _ _ _ Hf). cbn. by rewrite Z.eqb_refl.
  - done.
  - done.
Qed.

Lemma status_ok s phase s' : StartupGuardPauseStatus s = (phase, s') ->
  (sup_ok s -> sup_ok s') /\ sp_phase s' = phase /\ phase <> PhaseUnset /\
  sp_current s' = sp_current s /\ sp_trace s' = sp_trace s /\ barred (sp_phase s') = barred (sp_phase s) /\
  sp_lease s' = sp_lease s /\ sp_released s' = sp_released s /\ (sp_phase s <> PhaseUnset -> s' = s) /\
  (sp_phase s = PhaseUnset -> phase = PhaseOpen).
Proof.
  unfold StartupGuardPauseStatus. destruct (sp_phase s) eqn:Hp; intros [= <- <-]; split_and!; cbn; rewrite ?Hp; try done.
  intros [T1 T2 T3]. rewrite Hp in T1. split; cbn; [done|done|]. intros e Hc _. apply T3; [done|by left].
Qed.

Lemma build_and_start_ok key s r s' : build_and_start key s = (r, s') -> sup_ok s ->
  sp_current s = None -> sup_ok s' /\ sp_lease s' = sp_lease s /\ sp_released s' = sp_released s /\
  (r = None -> ensured key s').
Proof.
  intros Hr Hok Hc. unfold build_and_start in Hr.
  pose proof (call_env_same build_runtime s) as Hsame. destruct (call_env build_runtime s) as [[b err] s1].
  cbn in Hsame. pose proof (same_ok _ _ Hsame Hok) as Hok1. destruct Hsame as (E1 & E2 & E3 & E4 & E5 & E6).
  rewrite Hc in E1. unfold fresh in Hr. set (id := Zpos (sp_next s1)) in Hr.
  destruct b; cbn [negb] in Hr.
  2: { destruct err; injection Hr as <- <-; (split; [|done]); (eapply same_ok; [|exact Hok1]); by unfold same. }
  set (s2 := emit (EvBuilt id) _) in Hr. destruct Hok1 as [T1 _ _]. rewrite E1 in T1.
  assert (built id s2) as Hb.
  { split; cbn; [|by rewrite E1]. by rewrite (follows_snoc _ _ _ T1). }
  destruct err as [err|].
  { destruct (discard_runtime key id s2) as [ce s3] eqn:Ed. injection Hr as <- <-.
    destruct (discard_ok _ _ _ _ _ Ed Hb) as [? (_ & ? & ? & _)]. split_and!; [done|by rewrite <- E4|by rewrite <- E5|].
    by destruct ce. }
  pose proof (call_env_same ctx_err s2) as Hsame2. destruct (call_env ctx_err s2) as [cerr s3].
  cbn in Hsame2. destruct Hsame2 as (F1 & F2 & F3 & F4 & F5 & _). cbn in F1, F2, F3, F4, F5.
  assert (built id s3) as Hb3.
  { destruct Hb as [Hf _]. cbn in Hf. split; rewrite ?F1, ?F2, ?F3; done. }
  destruct cerr as [cerr|].
  { destruct (discard_runtime key id s3) as [ce s4] eqn:Ed. injection Hr as <- <-.
    destruct (discard_ok _ _ _ _ _ Ed Hb3) as [? (_ & ? & ? & _)]. split_and!; [done|congruence|congruence|].
    by destruct ce. }
  set (entry := mkSupervised _ _ _ _ _ _ _) in Hr. unfold startupGuardBarrierHeld in Hr.
  destruct (StartupGuardPauseStatus (storeCurrent s3 (Some entry))) as [phase s4] eqn:Est.
  destruct (status_ok _ _ _ Est) as (_ & G1 & Gu & G2 & G3 & G4 & G5 & G6 & _). cbn in G2, G3, G4, G5, G6.
  destruct Hb3 as [Hf3 _]. rewrite <- G4 in Hf3. rewrite G1 in Hf3.
  destruct phase; try done; try (injection Hr as <- <-; split_and!; [split|congruence|congruence|intros _; by exists entry];
    rewrite ?G2, ?G3, ?G1; [exact Hf3|by intros e [= <-]|by intros e _ [?|?]]).
  unfold start in Hr. cbn in Hr. injection Hr as <- <-.
  split_and!; [|cbn; congruence|cbn; congruence|intros _; by eexists]. split; cbn; rewrite ?G1, ?G3.
  - rewrite (follows_snoc _ _ _ Hf3). cbn. by rewrite Pos.eqb_refl.
  - by intros e [= <-].
  - intros e [= <-] _. by left.
Qed.

(** A closed barrier has a lease. *)
Definition leased s : Prop :=
  match sp_phase s with
  | PhaseDraining | PhaseHeld | PhaseResuming => sl_Token (sp_lease s) <> 0
  | _ => True
  end.
Lemma kept_leased s s' : kept s s' -> leased s -> leased s'.
Proof. intros (Hp & Hl & _). unfold leased. by rewrite Hp, Hl. Qed.

Lemma close_runtime_kept id s : kept s (close_runtime id s).2.
Proof.
  unfold close_runtime. pose proof (call_env_same (rt_Close id) s) as Hsame.
  destruct (call_env _ s) as [o s1]. cbn in *. destruct Hsame as (_ & E2 & E3 & E4 & E5 & E6).
  eapply kept_event; cbn; rewrite ?E2, ?E3, ?E4, ?E5, ?E6; reflexivity.
Qed.

Lemma discard_kept key id s : kept s (discard_runtime key id s).2.
Proof.
  unfold discard_runtime, closeUnstartedFakeTCPRuntime. pose proof (close_runtime_kept id s) as Hk.
  destruct (close_runtime id s) as [o s1]. cbn in *. by destruct o.
Qed.

(** Once the barrier has a phase, building and starting leave it alone. *)
Lemma build_and_start_kept key s : sp_phase s <> PhaseUnset -> kept s (build_and_start key s).2.
Proof.
  intros Hu. unfold build_and_start. pose proof (call_env_same build_runtime s) as Hsame.
  destruct (call_env build_runtime s) as [[b err] s1]. cbn in Hsame. apply same_kept in Hsame as Hk1.
  unfold fresh. set (s2 := mkSupervisor _ _ _ _ _ _ _ _ _ _).
  assert (kept s s2) as Hk2 by (eapply kept_trans; [exact Hk1|by apply same_kept]).
  set (s3 := if b then emit (EvBuilt (Zpos (sp_next s1))) s2 else s2).
  assert (kept s s3) as Hk3.
  { eapply kept_trans; [exact Hk2|]. unfold s3. destruct b; [by eapply kept_event|by apply same_kept]. }
  destruct err as [err|].
  { destruct b; [|done]. pose proof (discard_kept key (Zpos (sp_next s1)) s3) as Hd.
    destruct (discard_runtime _ _ s3) as [ce s4]. cbn in *. by eapply kept_trans. }
  destruct b; cbn [negb]; [|done].
  pose proof (call_env_same ctx_err s3) as Hsame4. destruct (call_env ctx_err s3) as [cerr s4].
  cbn in Hsame4. pose proof (kept_trans _ _ _ Hk3 (same_kept _ _ Hsame4)) as Hk4. destruct cerr as [cerr|].
  { pose proof (discard_kept key (Zpos (sp_next s1)) s4) as Hd.
    destruct (discard_runtime _ _ s4) as [ce s5]. cbn in *. by eapply kept_trans. }
  unfold startupGuardBarrierHeld. set (entry := mkSupervised _ _ _ _ _ _ _).
  assert (kept s (storeCurrent s4 (Some entry))) as Hk5 by exact Hk4.
  destruct (StartupGuardPauseStatus (storeCurrent s4 (Some entry))) as [phase s6] eqn:Est.
  destruct (status_ok _ _ _ Est) as (_ & _ & _ & _ & _ & _ & _ & _ & G7 & _).
  rewrite G7 in * by (rewrite (proj1 Hk5); done). clear Est.
  destruct phase; try exact Hk5; cbn; (eapply kept_trans; [exact Hk5|]; by eapply kept_event).
Qed.

Lemma build_and_start_leased key s : leased s -> leased (build_and_start key s).2.
Proof.
  intros Hl. destruct (decide (sp_phase s = PhaseUnset)) as [Hu|Hu];
    [|by eapply kept_leased; [by apply build_and_start_kept|]].
  assert (forall t, kept s t -> leased t) as Hk by (intros; by eapply kept_leased).
  unfold build_and_start. pose proof (call_env_same build_runtime s) as Hsame.
  destruct (call_env build_runtime s) as [[b err] s1]. cbn in Hsame. apply same_kept in Hsame as Hk1.
  unfold fresh. set (s2 := mkSupervisor _ _ _ _ _ _ _ _ _ _).
  set (s3 := if b then emit (EvBuilt (Zpos (sp_next s1))) s2 else s2).
  assert (kept s s3) as Hk3.
  { eapply kept_trans; [exact Hk1|]. unfold s3. destruct b; [by eapply kept_event|by apply same_kept]. }
  assert (forall t (o : option error -> option error), kept s t -> leased (let '(ce, t') := discard_runtime key (Zpos (sp_next s1)) t in (o ce, t')).2)
    as Hd.
  { intros t o Ht. pose proof (discard_kept key (Zpos (sp_next s1)) t) as Hd.
    destruct (discard_runtime _ _ t). apply Hk. by eapply kept_trans. }
  destruct err as [err|]; [destruct b; [by apply (Hd s3 (errors_Join _))|by apply Hk]|].
  destruct b; cbn [negb]; [|by apply Hk].
  pose proof (call_env_same ctx_err s3) as Hsame4. destruct (call_env ctx_err s3) as [cerr s4].
  cbn in Hsame4. pose proof (kept_trans _ _ _ Hk3 (same_kept _ _ Hsame4)) as Hk4.
  destruct cerr as [cerr|]; [by apply (Hd s4 (errors_Join _))|].
  unfold startupGuardBarrierHeld, StartupGuardPauseStatus. cbn. by rewrite (proj1 Hk4), Hu.
Qed.

Lemma Ensure_ok ctx key build s r s' : Ensure ctx key build s = (r, s') -> sup_ok s ->
  sup_ok s' /\ (r = None -> ensured key s') /\ (sp_phase s <> PhaseUnset -> kept s s') /\
  (leased s -> leased s').
Proof.
  intros Hr Hok. assert (forall t, sup_ok t -> kept s t -> forall o : option error, (o = None -> ensured key t) ->
    sup_ok t /\ (o = None -> ensured key t) /\ (sp_phase s <> PhaseUnset -> kept s t) /\ (leased s -> leased t))
    as Hret by (intros; split_and!; try done; by eapply kept_leased). unfold Ensure in Hr. assert (kept s s) as Hk by (by apply same_kept).
  destruct ctx; [|injection Hr as <- <-; by apply Hret]. cbn [negb] in Hr.
  destruct (call_env ctx_err s) as [e1 s1] eqn:E1. destruct (ctx_err_ok _ _ _ E1 Hok) as (Hok1 & Hk1 & _).
  destruct e1; [injection Hr as <- <-; by apply Hret|]. destruct (bool_decide _); [injection Hr as <- <-; by apply Hret|].
  destruct build; [|injection Hr as <- <-; by apply Hret]. cbn [negb] in Hr.
  destruct (call_env ctx_err s1) as [e2 s2] eqn:E2. destruct (ctx_err_ok _ _ _ E2 Hok1) as (Hok2 & Hk2 & _).
  pose proof (kept_trans _ _ _ Hk1 Hk2) as Hk12. destruct e2; [injection Hr as <- <-; by apply Hret|].
  destruct (retire_current key s2) as [r3 s3] eqn:E3.
  destruct (retire_current_ok _ _ _ _ E3 Hok2) as (Hok3 & Hk3 & Hnone & Hens).
  pose proof (kept_trans _ _ _ Hk12 Hk3) as Hk13. destruct r3 as [err|].
  { injection Hr as <- <-. apply Hret; [done|done|]. intros ->. by apply Hens. }
  destruct (call_env ctx_err s3) as [e4 s4] eqn:E4. destruct (ctx_err_ok _ _ _ E4 Hok3) as (Hok4 & Hk4 & Hc4).
  pose proof (kept_trans _ _ _ Hk13 Hk4) as Hk14. destruct e4; [injection Hr as <- <-; by apply Hret|].
  destruct (build_and_start_ok _ _ _ _ Hr Hok4) as (Hok5 & _ & _ & Hr5).
  { rewrite Hc4. by apply Hnone. }
  pose proof (build_and_start_kept key s4) as Hb. pose proof (build_and_start_leased key s4) as Hl.
  rewrite Hr in Hb, Hl. split; [done|]. split; [done|]. split.
  - intros Hu. eapply kept_trans; [exact Hk14|]. apply Hb. by rewrite (proj1 Hk14).
  - intros Hls. apply Hl. by eapply kept_leased.
Qed.

Lemma Stop_ok ctx s r s' : supervisor_Stop ctx s = (r, s') -> sup_ok s ->
  sup_ok s' /\ (r = None -> sp_current s' = None) /\ kept s s'.
Proof.
  intros Hr Hok. unfold supervisor_Stop in Hr. assert (kept s s) as Hk by (by apply same_kept).
  destruct ctx; [|by injection Hr as <- <-]. cbn [negb] in Hr.
  destruct (call_env ctx_err s) as [e1 s1] eqn:E1. destruct (ctx_err_ok _ _ _ E1 Hok) as (Hok1 & Hk1 & _).
  destruct e1; [by injection Hr as <- <-|].
  destruct (call_env ctx_err s1) as [e2 s2] eqn:E2. destruct (ctx_err_ok _ _ _ E2 Hok1) as (Hok2 & Hk2 & _).
  pose proof (kept_trans _ _ _ Hk1 Hk2) as Hk12. destruct e2; [by injection Hr as <- <-|].
  destruct (sp_current s2) as [e|] eqn:Hc; [|by injection Hr as <- <-].
  destruct (stop_current_ok _ _ _ _ _ Hr Hok2 Hc) as (? & ? & ?). split; [done|]. split; [done|].
  by eapply kept_trans.
Qed.

(** *** The barrier *)

(** A change of phase with its barrier event. *)
Lemma phase_ok s s' phase : sup_ok s -> sp_current s' = sp_current s -> sp_phase s' = phase ->
  (sp_trace s' = sp_trace s /\ barred phase = barred (sp_phase s) \/
   sp_trace s' = sp_trace s ++ [EvBarrier (barred phase)]) ->
  (phase = PhaseUnset \/ phase = PhaseOpen -> forall e, sp_current s = Some e ->
     sr_runStarted e = true \/ sr_stopRequested e = true) -> sup_ok s'.
Proof.
  intros [T1 T2 T3] Hc Hp Ht Ho. split; rewrite ?Hc, ?Hp.
  - destruct Ht as [ [-> Hb] | -> ]; [by rewrite Hb|]. by rewrite (follows_snoc _ _ _ T1).
  - done.
  - intros e He Hphase. by apply Ho.
Qed.

Lemma pause_current_ok s e lease revision r s' : pause_current s e lease revision = (r, s') ->
  sup_ok s -> sp_phase s = PhaseDraining -> sp_lease s = lease -> sl_Token lease <> 0 ->
  sp_current s = Some e -> sr_runStarted e = true ->
  sup_ok s' /\ leased s' /\
  (forall l, r = inl l -> l = lease /\ sp_phase s' = PhaseHeld /\ sp_lease s' = lease).
Proof.
  intros Hr Hok Hp Hl Hz Hc Hst. unfold pause_current in Hr.
  assert (forall s1, same s s1 -> sup_ok (rollbackNewStartupGuardPause s1 revision lease) /\
    leased (rollbackNewStartupGuardPause s1 revision lease)) as Hroll.
  { intros s1 Hsame. pose proof (same_ok _ _ Hsame Hok) as Hok1. destruct Hsame as (E1 & E2 & E3 & E4 & _).
    unfold rollbackNewStartupGuardPause. destruct (_ || _); [split; [done|unfold leased; by rewrite E2, Hp, E4, Hl]|].
    split; [|done]. eapply (phase_ok s1 _ PhaseOpen); [done|done|done|by right|].
    intros _ e'. rewrite E1, Hc. intros [= <-]. by left. }
  destruct (negb _).
  { injection Hr as <- <-. destruct (Hroll s); [by unfold same|]. by split_and!. }
  pose proof (call_env_same (rt_Pause (sr_runtime e)) s) as Hsame. destruct (call_env _ s) as [o s1].
  cbn in Hsame. destruct o as [token|err].
  2: { injection Hr as <- <-. destruct (Hroll s1 Hsame). by split_and!. }
  pose proof (same_ok _ _ Hsame Hok) as Hok1. destruct Hsame as (E1 & E2 & E3 & E4 & _).
  destruct (token =? 0); injection Hr as <- <-.
  - split; [|split; [unfold leased; cbn; by rewrite E4, Hl|done]].
    eapply (phase_ok s1 _ PhaseHeld); [done|done|done|left; by rewrite E2, Hp|by intros [?|?]].
  - split; [|split; [unfold leased; cbn; by rewrite E4, Hl|]].
    + eapply (phase_ok s1 _ PhaseHeld); [done|done|done|left; by rewrite E2, Hp|by intros [?|?]].
    + intros l [= <-]. cbn. by rewrite E4.
Qed.

Lemma Quiesce_ok ctx s r s' : QuiesceForStartupGuard ctx s = (r, s') -> sup_ok s -> leased s ->
  sup_ok s' /\ leased s' /\
  (forall l, r = inl l -> sp_phase s' = PhaseHeld /\ sl_Token l = sl_Token (sp_lease s') /\ sl_Token l <> 0) /\
  (sp_phase s = PhaseHeld -> s' = s /\
     (ctx = true -> r = inl (borrowedStartupGuardLease (sl_Token (sp_lease s))))).
Proof.
  intros Hr Hok Hl. unfold QuiesceForStartupGuard in Hr. destruct ctx; [|injection Hr as <- <-; by split_and!].
  cbn [negb] in Hr. destruct (StartupGuardPauseStatus s) as [phase s1] eqn:Est.
  destruct (status_ok _ _ _ Est) as (Hok1 & G1 & Gu & G2 & G3 & G4 & G5 & G6 & G7 & G8). specialize (Hok1 Hok).
  case_bool_decide as Hheld.
  { assert (s1 = s) as ->.
    { apply G7. intros E. specialize (G8 E). congruence. }
    rewrite Hheld in G1. unfold leased in Hl. rewrite G1 in Hl.
    assert (borrowHeldStartupGuardLease s = inl (borrowedStartupGuardLease (sl_Token (sp_lease s)))) as Hbor.
    { unfold borrowHeldStartupGuardLease, lease_valid. rewrite bool_decide_true by done.
      destruct (Z.eqb_spec (sl_Token (sp_lease s)) 0); [done|]. done. }
    rewrite Hbor in Hr. injection Hr as <- <-. split; [done|]. split; [unfold leased; by rewrite G1|].
    split; [by intros l [= <-]|done]. }
  assert (sp_phase s <> PhaseHeld) as Hnh.
  { intros E. apply Hheld. rewrite <- G1, G7; [done|]. by rewrite E. }
  assert (leased s1) as Hl1.
  { unfold leased in *. rewrite G1, G5. destruct (sp_phase s) eqn:Hps;
      [by rewrite (G8 eq_refl)|rewrite <- G1, G7, Hps by done; done..]. }
  destruct (call_env ctx_err s1) as [e1 s2] eqn:E1. destruct (ctx_err_ok _ _ _ E1 Hok1) as (Hok2 & Hk2 & Hc2).
  pose proof (kept_leased _ _ Hk2 Hl1) as Hl2.
  destruct e1; [injection Hr as <- <-; by split_and!|].
  case_bool_decide as Hopen; cbn [negb] in Hr; [|injection Hr as <- <-; by split_and!].
  unfold fresh in Hr. set (s3 := mkSupervisor _ _ _ _ _ _ _ _ _ _) in Hr. set (lease := mkLease true _) in Hr.
  unfold acquireStartupGuardPause in Hr. set (s4 := emit _ _) in Hr.
  assert (sup_ok s4) as Hok4.
  { eapply (phase_ok s2 _ PhaseDraining); [done|done|done|by right|by intros [?|?]]. }
  destruct (observe_ok s4 Hok4) as (Hok5 & Hk5 & _ & _). destruct Hk5 as (P1 & P2 & _).
  assert (forall s5, sup_ok s5 -> sp_phase s5 = PhaseDraining -> sp_lease s5 = lease ->
    sup_ok (holdStartupGuardPause s5) /\ leased (holdStartupGuardPause s5)) as Hhold.
  { intros s5 H5 Hp5 Hl5. split; [|unfold leased; cbn; by rewrite Hl5].
    eapply (phase_ok s5 _ PhaseHeld); [done|done|done|left; by rewrite Hp5|by intros [?|?]]. }
  destruct (Hhold _ Hok5 P1 P2) as [Hh1 Hh2].
  assert (forall l, inl (B := error) lease = inl l -> sp_phase (holdStartupGuardPause (observe s4)) = PhaseHeld /\
    sl_Token l = sl_Token (sp_lease (holdStartupGuardPause (observe s4))) /\ sl_Token l <> 0) as Hpost.
  { intros l [= <-]. cbn [holdStartupGuardPause set_phase sp_phase sp_lease]. by rewrite P2. }
  destruct (sp_current (observe s4)) as [e|] eqn:Hc; [|injection Hr as <- <-; by split_and!].
  destruct (sr_runStarted e) eqn:Hst; cbn [negb orb] in Hr; [|injection Hr as <- <-; by split_and!].
  destruct (sr_done e); [injection Hr as <- <-; by split_and!|].
  destruct (pause_current_ok _ _ _ _ _ _ Hr Hok5 P1 P2 ltac:(done) Hc Hst) as (? & ? & Hinl).
  split; [done|]. split; [done|]. split; [|done]. intros l E. destruct (Hinl l E) as (-> & ? & ->). done.
Qed.

(** The runtime [e] runs: it was resumed with the lease of its pause by a call in
    [w1] that succeeded, or it was started. *)
Definition back_with w1 (inner : option Z * Z) (tr : list event) e s' : Prop :=
  exists e', sp_current s' = Some e' /\ sr_runtime e' = sr_runtime e /\ running e' = true /\ sr_stopRequested e' = false /\
    if sr_runStarted e then inner.1 = Some (sr_runtime e) /\ rt_pauser (sr_runtime e) = true /\
        rt_Resume (sr_runtime e) inner.2 w1 = (None, sp_env s') /\ sp_pausedRuntime s' = None
    else exists evs, sp_trace s' = tr ++ evs /\ EvStarted (sr_runtime e) ∈ evs.
(** Resuming the current runtime: it runs afterwards, or the barrier is held
    again with the same lease. *)
Lemma resume_current_ok s e revision r s' : resume_current s e revision = (r, s') -> sup_ok s ->
  sp_current s = Some e -> sp_phase s = PhaseResuming -> sp_revision s = revision ->
  sup_ok s' /\ sp_lease s' = sp_lease s /\
  match r with
  | None => sp_phase s' = PhaseResuming /\ sr_done e = false /\
      back_with (sp_env s) (sp_pausedRuntime s, sp_innerLease s) (sp_trace s) e s'
  | Some _ => sp_phase s' = PhaseHeld
  end.
Proof.
  intros Hr Hok Hc Hp Hrev. unfold resume_current in Hr.
  assert (forall s1, same s s1 -> let s2 := restoreStartupGuardPause s1 revision PhaseHeld in
    sup_ok s2 /\ sp_lease s2 = sp_lease s /\ sp_phase s2 = PhaseHeld) as Hroll.
  { intros s1 Hsame. pose proof (same_ok _ _ Hsame Hok) as Hok1.
    destruct Hsame as (E1 & E2 & E3 & E4 & E5 & E6). unfold restoreStartupGuardPause.
    rewrite E6, Hrev, Z.eqb_refl, E2, Hp. cbn. split; [|done].
    eapply (phase_ok s1 _ PhaseHeld); [done|done|done|by right|by intros [?|?]]. }
  assert (same s s) as Hs by (by unfold same).
  destruct (sr_done e || sr_stopRequested e) eqn:Hgone.
  { match type of Hr with (?j, _) = _ => destruct j eqn:Ej end; injection Hr as <- <-; [by apply Hroll|].
    by destruct (wrapFakeTCPRunError _) in Ej. }
  apply orb_false_iff in Hgone as [Hd Hsr]. destruct (sr_runStarted e) eqn:Hst.
  - destruct (negb _) eqn:Hpa; [injection Hr as <- <-; by apply Hroll|]. apply negb_false_iff in Hpa.
    unfold loadStartupGuardInnerLease in Hr. destruct (bool_decide (sp_pausedRuntime s = _)) eqn:Hpr; cbn [andb] in Hr; [|injection Hr as <- <-; by apply Hroll].
    apply bool_decide_eq_true in Hpr. destruct (negb (sp_innerLease s =? 0)); [|injection Hr as <- <-; by apply Hroll].
    pose proof (call_env_same (rt_Resume (sr_runtime e) (sp_innerLease s)) s) as Hsame. unfold call_env in Hr, Hsame.
    destruct (rt_Resume (sr_runtime e) (sp_innerLease s) (sp_env s)) as [o w1] eqn:Ew. set (s1 := set_env s w1) in *.
    cbn in Hsame. destruct o as [err|]; injection Hr as <- <-; [by apply Hroll|].
    pose proof (same_ok _ _ Hsame Hok) as Hok1. destruct Hsame as (E1 & E2 & E3 & E4 & E5 & E6).
    assert (same s1 (clearStartupGuardInnerLease s1 e)) as Hs1
      by (unfold clearStartupGuardInnerLease, same; by destruct (bool_decide _)).
    split; [by eapply same_ok|]. destruct Hs1 as (F1 & F2 & _ & F4 & _). split; [exact F4|].
    split; [by rewrite F2|]. split; [done|]. unfold clearStartupGuardInnerLease. cbn [sp_pausedRuntime s1 set_env]. rewrite bool_decide_true by done.
    exists e. unfold running. rewrite Hst, Hd. split_and!; [exact Hc|done..].
  - unfold start in Hr. rewrite Hst, Hsr in Hr.
    destruct (negb (sr_runCtx e)); injection Hr as <- <-; [by apply Hroll|]. cbn.
    split; [|split; [done|]; split; [done|]; split; [done|]].
    2: { eexists. split; [done|]. unfold running. cbn. rewrite Hst, Hd. split_and!; [done..|]. eexists. split; [done|by left]. }
    destruct Hok as [T1 T2 T3].
    rewrite Hc, Hp in T1. cbn in T1. unfold state_of in T1. rewrite Hst in T1. split; cbn.
    + rewrite (follows_snoc _ _ _ T1), Hp. cbn. rewrite Z.eqb_refl. unfold state_of. cbn. by rewrite Hd.
    + by intros x [= <-].
    + intros x [= <-] _. by left.
Qed.

(** A runtime that has not exited was left alone by the observation. *)
Lemma observe_running s e : sp_current (observe s) = Some e -> sr_done e = false ->
  sp_current s = Some e /\ sp_trace (observe s) = sp_trace s /\ sp_pausedRuntime (observe s) = sp_pausedRuntime s /\
  sp_innerLease (observe s) = sp_innerLease s /\
  (running e = true -> sp_env (observe s) = (run_exit (sr_runtime e) (sp_env s)).2).
Proof.
  unfold observe. destruct (sp_current s) as [x|] eqn:Hc; [|by rewrite Hc]. destruct (running x) eqn:Hx.
  - unfold call_env. destruct (run_exit (sr_runtime x) (sp_env s)) as [[err|] w1] eqn:E; cbn.
    + intros [= <-]. done.
    + rewrite Hc. intros [= <-] _. by rewrite E.
  - rewrite Hc. intros [= <-] _. split_and!; try done. congruence.
Qed.
(** What a resume that succeeds has done to the current runtime. *)
Definition brought_back s s' : Prop :=
  (sp_current s = None -> sp_current s' = None) /\
  forall e, sp_current s = Some e ->
    back_with (run_exit (sr_runtime e) (ctx_err (sp_env s)).2).2 (sp_pausedRuntime s, sp_innerLease s) (sp_trace s) e s'.
Lemma back_later w1 inner tr evs e s s' : back_with w1 inner (tr ++ evs) e s -> sp_current s' = sp_current s -> sp_env s' = sp_env s ->
  (sp_pausedRuntime s = None -> sp_pausedRuntime s' = None) -> (exists evs', sp_trace s' = sp_trace s ++ evs') -> back_with w1 inner tr e s'.
Proof.
  intros (e' & Hc & Hi & Hr & Hs & Hw) Ec Ee Ep [evs' Et]. exists e'. rewrite Ec, Ee. split_and!; [done..|]. destruct (sr_runStarted e); [naive_solver|].
  destruct Hw as (evs0 & E0 & Hin). exists (evs ++ evs0 ++ evs'). split; [by rewrite Et, E0, <- !app_assoc|]. rewrite !elem_of_app. auto.
Qed.

Lemma Resume_ok ctx lease s r s' : ResumeAfterStartupGuard ctx lease s = (r, s') -> sup_ok s -> leased s ->
  sup_ok s' /\ leased s' /\
  (sp_phase s = PhaseHeld ->
     (sl_Token lease <> sl_Token (sp_lease s) -> s' = s /\ r <> None) /\
     match r with
     | None => sp_phase s' = PhaseOpen /\ sp_released s' = sl_Token lease /\ brought_back s s'
     | Some _ => sp_phase s' = PhaseHeld /\ sp_lease s' = sp_lease s
     end).
Proof.
  intros Hr Hok Hl. unfold ResumeAfterStartupGuard in Hr.
  destruct ctx; [|injection Hr as <- <-; by split_and!]. cbn [negb] in Hr.
  destruct (StartupGuardPauseStatus s) as [phase s1] eqn:Est.
  destruct (status_ok _ _ _ Est) as (Hok1 & G1 & Gu & G2 & G3 & G4 & G5 & G6 & G7 & G8). specialize (Hok1 Hok).
  assert (sp_phase s = PhaseHeld -> s1 = s /\ phase = PhaseHeld) as Hheld.
  { intros E. rewrite G7 in G1 |- * by (by rewrite E). split; [done|congruence]. }
  assert (leased s1) as Hl1.
  { unfold leased in *. rewrite G1, G5. destruct (sp_phase s) eqn:Hps;
      [by rewrite (G8 eq_refl)|rewrite <- G1, G7, Hps by done; done..]. }
  case_bool_decide as Hopen.
  { injection Hr as <- <-. split; [done|]. split; [done|]. intros E. destruct (Hheld E). congruence. }
  case_bool_decide as Hph; cbn [negb] in Hr.
  2: { injection Hr as <- <-. split; [done|]. split; [done|]. intros E. destruct (Hheld E). congruence. }
  destruct (activeStartupGuardLeaseMatches s1 lease) eqn:Hact; cbn [negb] in Hr.
  2: { injection Hr as <- <-. split; [done|]. split; [done|]. intros E. destruct (Hheld E) as [-> _]. by split_and!. }
  unfold activeStartupGuardLeaseMatches in Hact. apply andb_true_iff in Hact as [_ Htok%Z.eqb_eq].
  assert (sp_phase s = PhaseHeld -> sl_Token lease <> sl_Token (sp_lease s) -> s' = s /\ r <> None) as Hmis.
  { intros E Hne. destruct (Hheld E) as [-> _]. congruence. }
  destruct (call_env ctx_err s1) as [e1 s2] eqn:E1. destruct (ctx_err_ok _ _ _ E1 Hok1) as (Hok2 & Hk2 & _).
  pose proof (kept_leased _ _ Hk2 Hl1) as Hl2. destruct Hk2 as (K1 & K2 & K3 & _).
  destruct e1 as [err|].
  { injection Hr as <- <-. split; [done|]. split; [done|]. intros E. split; [by apply Hmis|].
    destruct (Hheld E) as [-> _]. split; congruence. }
  unfold setStartupGuardPauseState in Hr. set (s3 := emit _ _) in Hr.
  assert (sup_ok s3) as Hok3.
  { eapply (phase_ok s2 _ PhaseResuming); [done|done|done|by right|by intros [?|?]]. }
  destruct (observe_ok s3 Hok3) as (Hok4 & (P1 & P2 & P3 & P4 & _) & _ & _).
  assert (forall s5, sup_ok s5 -> sp_lease s5 = sp_lease s2 ->
    (forall e, sp_current s5 = Some e -> sr_runStarted e = true) ->
    let s6 := releaseStartupGuardPause s5 in sup_ok s6 /\ leased s6 /\ sp_phase s6 = PhaseOpen /\
      sp_released s6 = sl_Token lease) as Hrel.
  { intros s5 H5 H5l H5c. cbn. split; [|split; [done|]; split; [done|]; congruence].
    eapply (phase_ok s5 _ PhaseOpen); [done|done|done|by right|]. intros _ e He. left. by apply H5c. }
  destruct (sp_current (observe s3)) as [e|] eqn:Hc.
  - destruct (resume_current (observe s3) e (sp_revision s3)) as [o s5] eqn:Er.
    destruct (resume_current_ok _ _ _ _ _ Er Hok4 Hc P1 P4) as (Hok5 & Hl5 & Hpost).
    destruct o as [err|]; injection Hr as <- <-.
    + split; [done|]. split; [unfold leased; rewrite Hpost, Hl5, P2; unfold leased in Hl2; by rewrite K1, G1, Hph in Hl2|].
      intros E. split; [by apply Hmis|]. split; [done|]. destruct (Hheld E) as [-> _]. rewrite Hl5, P2. exact K2.
    + destruct Hpost as (_ & Hd & Hback). pose proof Hback as (e' & Hc' & _ & Hrun' & _).
      destruct (Hrel s5 Hok5) as (? & ? & ? & ?); [by rewrite Hl5, P2| |].
      { intros x Hx. rewrite Hc' in Hx. injection Hx as <-. by apply andb_true_iff in Hrun' as [? _]. }
      split; [done|]. split; [done|]. intros E. split; [exact (Hmis E)|]. split; [assumption|]. split; [assumption|].
      destruct (Hheld E) as [-> _]. destruct (observe_running _ _ Hc Hd) as (O1 & O2 & O3 & O4 & O5).
      unfold call_env in E1. destruct (ctx_err (sp_env s)) as [x1 w1] eqn:Ew. injection E1 as -> <-. cbn in O1, O2, O3, O4, O5.
      change (sp_current s = Some e) in O1. change (sp_trace (observe s3) = sp_trace s ++ [EvBarrier false]) in O2.
      split; [by rewrite O1|]. intros x Hx. rewrite O1 in Hx. injection Hx as <-.
      rewrite O2, O3, O4 in Hback. apply (back_later _ _ _ [EvBarrier false] e s5); [|done|done|done|by eexists]. revert Hback. unfold back_with, call_env. rewrite Ew. cbn [fst snd].
      destruct (sr_runStarted e) eqn:Hst; [|done]. rewrite O5 by (unfold running; by rewrite Hst, Hd). done.
  - injection Hr as <- <-. destruct (Hrel (observe s3) Hok4 P2) as (? & ? & ? & ?); [intros e; by rewrite Hc|].
    split; [done|]. split; [done|]. intros E. split; [exact (Hmis E)|]. split; [assumption|]. split; [assumption|].
    destruct (Hheld E) as [-> _]. assert (sp_current s = None) as Hn.
    { unfold call_env in E1. destruct (ctx_err (sp_env s)) as [x1 w1]. injection E1 as -> <-. revert Hc. unfold observe. cbn.
      destruct (sp_current s) as [x|] eqn:Hx; [|done]. destruct (running x); [|cbn; congruence].
      unfold call_env. cbn. destruct (run_exit _ _) as [[err|] w2]; cbn; congruence. }
    split; [by rewrite <- Hc|]. intros x Hx. congruence.
Qed.

(** *** Runs *)

(** The operations of the supervisor, and the world moving on between them. *)
Inductive sup_step s : Supervisor W -> Prop :=
| step_world w : sup_step s (set_env s w)
| step_ensure ctx key build : sup_step s (Ensure ctx key build s).2
| step_stop ctx : sup_step s (supervisor_Stop ctx s).2
| step_quiesce ctx : sup_step s (QuiesceForStartupGuard ctx s).2
| step_resume ctx lease : sup_step s (ResumeAfterStartupGuard ctx lease s).2
| step_status : sup_step s (StartupGuardPauseStatus s).2
| step_healthy key : sup_step s (Healthy key s).2
| step_healthy_current ctx : sup_step s (HealthyCurrent ctx s).2
| step_runtime_error : sup_step s (RuntimeError s).2.

Lemma healthy_ok s : sup_ok s -> sup_ok (owner_healthy s).2 /\ kept s (owner_healthy s).2.
Proof.
  intros Hok. destruct (owner_healthy s) as [h s'] eqn:E.
  by destruct (owner_healthy_ok _ _ _ E Hok) as (? & ? & _).
Qed.

Lemma Healthy_ok key s : sup_ok s -> sup_ok (Healthy key s).2 /\ kept s (Healthy key s).2.
Proof.
  intros Hok. assert (kept s s) by (by apply same_kept). unfold Healthy.
  destruct (bool_decide _); [done|]. destruct (sp_current s); [|done].
  destruct (bool_decide _); [by apply healthy_ok|done].
Qed.

Lemma HealthyCurrent_ok ctx s : sup_ok s -> sup_ok (HealthyCurrent ctx s).2 /\ kept s (HealthyCurrent ctx s).2.
Proof.
  intros Hok. assert (kept s s) by (by apply same_kept). unfold HealthyCurrent, ownerHealthy.
  destruct ctx; [|done]. cbn [negb]. destruct (call_env ctx_err s) as [e1 s1] eqn:E1.
  destruct (ctx_err_ok _ _ _ E1 Hok) as (Hok1 & Hk1 & _). destruct e1; [done|].
  destruct (call_env ctx_err s1) as [e2 s2] eqn:E2. destruct (ctx_err_ok _ _ _ E2 Hok1) as (Hok2 & Hk2 & _).
  pose proof (kept_trans _ _ _ Hk1 Hk2). destruct e2; [done|]. destruct (healthy_ok s2 Hok2) as [? ?].
  split; [done|by eapply kept_trans].
Qed.

Lemma step_ok s s' : sup_step s s' -> sup_ok s -> leased s -> sup_ok s' /\ leased s'.
Proof.
  intros Hstep Hok Hl. assert (forall t, sup_ok t /\ kept s t -> sup_ok t /\ leased t) as Hkept.
  { intros t [? Hk]. split; [done|by eapply kept_leased]. }
  destruct Hstep as [w|ctx key build|ctx|ctx|ctx lease| |key|ctx|].
  - split; [by apply (same_ok s)|done].
  - destruct (Ensure ctx key build s) as [r s'] eqn:E. destruct (Ensure_ok _ _ _ _ _ _ E Hok) as (? & _ & _ & ?). auto.
  - destruct (supervisor_Stop ctx s) as [r s'] eqn:E. destruct (Stop_ok _ _ _ _ E Hok) as (? & _ & ?). by apply Hkept.
  - destruct (QuiesceForStartupGuard ctx s) as [r s'] eqn:E. by destruct (Quiesce_ok _ _ _ _ E Hok Hl) as (? & ? & _).
  - destruct (ResumeAfterStartupGuard ctx lease s) as [r s'] eqn:E.
    by destruct (Resume_ok _ _ _ _ _ E Hok Hl) as (? & ? & _).
  - destruct (StartupGuardPauseStatus s) as [phase s'] eqn:E.
    destruct (status_ok _ _ _ E) as (? & G1 & _ & _ & _ & _ & G5 & _ & G7 & G8). split; [auto|]. cbn.
    destruct (decide (sp_phase s = PhaseUnset)) as [Hu|Hu]; [|by rewrite G7].
    unfold leased. by rewrite G1, G8.
  - by apply Hkept, Healthy_ok.
  - by apply Hkept, HealthyCurrent_ok.
  - apply Hkept. cbn. by destruct (observe_ok s Hok) as (? & ? & _).
Qed.

Lemma reachable_ok w s : rtc sup_step (new_supervisor w) s -> sup_ok s /\ leased s.
Proof.
  intros Hr. remember (new_supervisor w) as s0 eqn:E0. assert (sup_ok s0 /\ leased s0) as H0.
  { subst. split; [|done]. by split. }
  clear E0. induction Hr as [|x y z Hxy _ IH]; [done|]. apply IH. destruct H0. by eapply step_ok.
Qed.

(** Behind a closed barrier nothing starts. *)
Lemma closed_no_start evs : forall trace p p', follows trace = Some p -> pr_barrier p = true ->
  Forall (fun ev => is_barrier ev = false) evs -> follows (trace ++ evs) = Some p' ->
  forall id, EvStarted id ∉ evs.
Proof.
  induction evs as [|ev evs IH]; intros trace p p' Hp Hb Hf Hp' id Hin; [by apply elem_of_nil in Hin|].
  apply Forall_cons in Hf as [Hev Hf].
  replace (trace ++ ev :: evs) with ((trace ++ [ev]) ++ evs) in Hp' by by rewrite <- app_assoc.
  assert (exists q, follows (trace ++ [ev]) = Some q) as [q Hq].
  { destruct (follows (trace ++ [ev])) as [q|] eqn:Hq; [eauto|]. exfalso. unfold follows in Hq, Hp'.
    rewrite foldl_app, Hq in Hp'. clear -Hp'. induction evs; [done|by apply IHevs]. }
  assert (pr_barrier q = true /\ ev <> EvStarted id) as [Hbq Hne].
  { rewrite (follows_snoc _ _ _ Hp) in Hq. unfold protocol_step in Hq. rewrite Hb in Hq.
    destruct ev as [i|i|i|i|i ok|c], (pr_open p) as [[j []]|]; try done; cbn in Hq;
      repeat match type of Hq with context [?a =? ?b] => destruct (a =? b); cbn in Hq; try done end;
      try destruct ok; injection Hq as <-; done. }
  apply elem_of_cons in Hin as [<-|Hin]; [done|]. by eapply (IH _ q p').
Qed.

Lemma kept_no_start s s' : sup_ok s -> sup_ok s' -> barred (sp_phase s) = true -> kept s s' ->
  exists evs, sp_trace s' = sp_trace s ++ evs /\ forall id, EvStarted id ∉ evs.
Proof.
  intros [T1 _ _] [T1' _ _] Hb (_ & _ & _ & _ & evs & Ht & Hf). exists evs. split; [done|].
  rewrite Ht in T1'. eapply closed_no_start; [exact T1|exact Hb|exact Hf|exact T1'].
Qed.
End props.

(** C7: one owned runtime at a time.  Whatever the runtimes, the builder and the
    contexts do, and whenever [Run] returns, over any sequence of operations the
    supervisor follows the ownership protocol: a runtime is built only when none
    is open (built and not successfully closed), is started at most once and
    only then, is never closed while it runs, and a failed close keeps it as the
    current one.  A successful [Ensure] leaves a current runtime with the desired
    key that has not been asked to stop and, when the barrier is open, was
    started; a successful [Stop] leaves none. *)
Theorem supervisor_single_owner {W} `{RuntimeEnv W} (w : W) s :
  rtc sup_step (new_supervisor w) s ->
  (exists p, follows (sp_trace s) = Some p /\ pr_open p = state_of <$> sp_current s) /\
  (forall ctx key build s', Ensure ctx key build s = (None, s') -> exists e,
     sp_current s' = Some e /\ sr_key e = key /\ sr_stopRequested e = false /\
     (sp_phase s' = PhaseUnset \/ sp_phase s' = PhaseOpen -> sr_runStarted e = true)) /\
  (forall ctx s', supervisor_Stop ctx s = (None, s') -> sp_current s' = None).
Proof.
  intros [Hok Hl]%reachable_ok. split_and!.
  - eexists. split; [apply (so_trace _ Hok)|done].
  - intros ctx key build s' E. destruct (Ensure_ok _ _ _ _ _ _ E Hok) as (Hok' & Hens & _).
    destruct (Hens eq_refl) as (e & Hc & Hk & Hs). exists e. split_and!; try done.
    intros Hp. destruct (so_open _ Hok' e Hc Hp); congruence.
  - intros ctx s' E. by destruct (Stop_ok _ _ _ _ E Hok) as (_ & Hn & _); apply Hn.
Qed.

(** C8: the startup-guard barrier holds.  While the barrier is held it has a
    non-zero token, and every operation except a [ResumeAfterStartupGuard] that
    presents that token (replacing or stopping the runtime, quiescing again,
    resuming with another lease) leaves it held with the same lease and starts
    no runtime.  A resume that reports success has opened the barrier, and the
    current runtime, if any, has not exited and runs: if it was paused, its own
    resume was called with the lease of its pause, succeeded, and was the last call
    made; if it was staged, it was started.  One that fails leaves the barrier held
    with its lease, to be retried.  Quiescing a held barrier lends
    the same token. *)
Theorem startup_guard_barrier {W} `{RuntimeEnv W} (w : W) s :
  rtc sup_step (new_supervisor w) s -> sp_phase s = PhaseHeld ->
  sl_Token (sp_lease s) <> 0 /\
  (forall s', sup_step s s' ->
     (exists ctx lease, s' = (ResumeAfterStartupGuard ctx lease s).2 /\
        sl_Token lease = sl_Token (sp_lease s)) \/
     (sp_phase s' = PhaseHeld /\ sp_lease s' = sp_lease s /\
      exists evs, sp_trace s' = sp_trace s ++ evs /\ forall id, EvStarted id ∉ evs)) /\
  (forall ctx lease s', ResumeAfterStartupGuard ctx lease s = (None, s') ->
     sp_phase s' = PhaseOpen /\ brought_back s s') /\
  (forall ctx lease err s', ResumeAfterStartupGuard ctx lease s = (Some err, s') ->
     sp_phase s' = PhaseHeld /\ sp_lease s' = sp_lease s) /\
  (QuiesceForStartupGuard true s).1 = inl (borrowedStartupGuardLease (sl_Token (sp_lease s))).
Proof.
  intros [Hok Hl]%reachable_ok Hp. pose proof Hl as Htok. unfold leased in Htok. rewrite Hp in Htok.
  assert (forall t, sup_ok t -> kept s t -> sp_phase t = PhaseHeld /\ sp_lease t = sp_lease s /\
    exists evs, sp_trace t = sp_trace s ++ evs /\ forall id, EvStarted id ∉ evs) as Hkept.
  { intros t Ht Hk. split; [by rewrite (proj1 Hk)|]. split; [apply Hk|].
    apply kept_no_start; [done|done|by rewrite Hp|done]. }
  assert (kept s s) as Hrefl by (by apply same_kept).
  assert (sp_phase s <> PhaseUnset) as Hu by (by rewrite Hp).
  split; [done|]. split; [|split_and!].
  - intros s' Hstep. destruct (step_ok _ _ Hstep Hok Hl) as [Hok' _].
    destruct Hstep as [w'|ctx key build|ctx|ctx|ctx lease| |key|ctx|];
      [right; apply Hkept; [done|]..| |right; apply Hkept; [done|]|right; apply Hkept; [done|]|
       right; apply Hkept; [done|]|right; apply Hkept; [done|] ].
    + by apply same_kept.
    + destruct (Ensure ctx key build s) as [r s'] eqn:E. destruct (Ensure_ok _ _ _ _ _ _ E Hok) as (_ & _ & Hk & _). auto.
    + destruct (supervisor_Stop ctx s) as [r s'] eqn:E. by destruct (Stop_ok _ _ _ _ E Hok) as (_ & _ & ?).
    + destruct (QuiesceForStartupGuard ctx s) as [r s'] eqn:E.
      destruct (Quiesce_ok _ _ _ _ E Hok Hl) as (_ & _ & _ & Hheld). by destruct (Hheld Hp) as [-> _].
    + destruct (ResumeAfterStartupGuard ctx lease s) as [r s'] eqn:E.
      destruct (Resume_ok _ _ _ _ _ E Hok Hl) as (_ & _ & Hheld). destruct (Hheld Hp) as [Hmis _].
      destruct (decide (sl_Token lease = sl_Token (sp_lease s))) as [?|Hne].
      * left. exists ctx, lease. by rewrite E.
      * right. destruct (Hmis Hne) as [-> _]. by apply Hkept.
    + unfold StartupGuardPauseStatus. by rewrite Hp.
    + by apply Healthy_ok.
    + by apply HealthyCurrent_ok.
    + cbn. by destruct (observe_ok s Hok) as (_ & ? & _).
  - intros ctx lease s' E. destruct (Resume_ok _ _ _ _ _ E Hok Hl) as (_ & _ & Hheld).
    by destruct (Hheld Hp) as [_ (? & _ & ?)].
  - intros ctx lease err s' E. destruct (Resume_ok _ _ _ _ _ E Hok Hl) as (_ & _ & Hheld).
    by destruct (Hheld Hp) as [_ ?].
  - destruct (QuiesceForStartupGuard true s) as [r s'] eqn:E.
    destruct (Quiesce_ok _ _ _ _ E Hok Hl) as (_ & _ & _ & Hheld). destruct (Hheld Hp) as [_ Hq]. by apply Hq.
Qed.

(** ** Witnesses: runtimes that obey, and close on the second attempt *)

#[export] Instance obedient : RuntimeEnv bool := {
  ctx_err w := (None, w);
  run_exit _ w := (None, w);
  wait_exit _ w := (inl None, w);
  build_runtime w := ((true, None), w);
  rt_RequestStop _ w := (None, w);
  rt_Close _ w := (if w then None else Some "EBUSY", true);
  rt_Healthy _ w := (None, w);
  rt_pauser _ := true;
  rt_Pause id w := (inl (id + 100), w);
  rt_Resume _ _ w := (None, w)
}.
Definition key_a : fakeTCPRuntimeDesiredKey := replicate 32 1.
Definition key_b : fakeTCPRuntimeDesiredKey := replicate 32 2.
(** A running generation, then one failed replacement (the close fails). *)
Definition after_replace : Supervisor bool :=
  (Ensure true key_b true (Ensure true key_a true (new_supervisor false)).2).2.

Lemma after_replace_reachable : rtc sup_step (new_supervisor false) after_replace.
Proof.
  unfold after_replace. set (s1 := (Ensure true key_a true (new_supervisor false)).2).
  exact (rtc_r _ _ _ (rtc_once _ _ (step_ensure (new_supervisor false) true key_a true))
           (step_ensure s1 true key_b true)).
Qed.

Lemma supervisor_single_owner_witness :
  (exists p, follows (sp_trace after_replace) = Some p /\
     pr_open p = state_of <$> sp_current after_replace) /\
  exists s', Ensure true key_b true after_replace = (None, s') /\
    exists e, sp_current s' = Some e /\ sr_key e = key_b.
Proof.
  destruct (supervisor_single_owner false after_replace after_replace_reachable) as (Hp & He & _). split; [exact Hp|].
  destruct (Ensure true key_b true after_replace) as [r s'] eqn:E. exists s'.
  assert (r = None) as -> by (vm_compute in E; by injection E as <- _). split; [reflexivity|].
  destruct (He true key_b true s' E) as (e & Hc & Hk & _). exists e. exact (conj Hc Hk).
Defined.

(** A running generation, paused for the guard. *)
Definition after_quiesce : Supervisor bool :=
  (QuiesceForStartupGuard true (Ensure true key_a true (new_supervisor true)).2).2.
Lemma after_quiesce_reachable : rtc sup_step (new_supervisor true) after_quiesce.
Proof.
  unfold after_quiesce. set (s1 := (Ensure true key_a true (new_supervisor true)).2).
  exact (rtc_r _ _ _ (rtc_once _ _ (step_ensure (new_supervisor true) true key_a true))
           (step_quiesce s1 true)).
Qed.

Lemma startup_guard_barrier_witness : sp_phase after_quiesce = PhaseHeld /\
  sl_Token (sp_lease after_quiesce) <> 0 /\
  exists e s', ResumeAfterStartupGuard true (sp_lease after_quiesce) after_quiesce = (None, s') /\
    sp_phase s' = PhaseOpen /\ sp_current after_quiesce = Some e /\ sr_runStarted e = true /\ brought_back after_quiesce s'.
Proof.
  assert (sp_phase after_quiesce = PhaseHeld) as Hp by (vm_compute; reflexivity).
  destruct (startup_guard_barrier true after_quiesce after_quiesce_reachable Hp) as (Hz & _ & Hres & _).
  split; [exact Hp|]. split; [exact Hz|].
  destruct (ResumeAfterStartupGuard true (sp_lease after_quiesce) after_quiesce) as [r s'] eqn:E.
  destruct (sp_current after_quiesce) as [e|] eqn:Ec; [|vm_compute in Ec; discriminate]. exists e, s'.
  assert (r = None) as -> by (vm_compute in E; by injection E as <- _). split; [reflexivity|].
  destruct (Hres true (sp_lease after_quiesce) s' E) as [Ho Hb]. split; [exact Ho|]. split; [reflexivity|].
  split; [vm_compute in Ec; injection Ec as <-; reflexivity|exact Hb].
Defined.
