(* ===== verification/Coordinator.v ===== *)
(** * The production coordinator
    (internal/dataplane/faketcp_production_coordinator.go, faketcp_production_scope.go,
    faketcp_gate.go, underlay_parser.go): the baseline loader and the FakeTCP
    runtime exclude each other.

    Operations run one at a time (under [operationMu]).  The runtime lifecycle
    is an interface, which the supervisor implements; the coordinator's
    collaborators (baseline loader, planner, recovery, contexts) are the class
    [CoordinatorEnv].  The checks that the coordinator's own fields are non-nil
    are left out. *)
From Stdlib Require Import ZArith Lia Ascii.
From stdpp Require Import base option list gmap strings numbers.
From S2P Require Import Prelude Paths Abi Config Profile Control ControlProps Supervisor.

(** ** Production scope *)

Inductive fakeTCPProductionObjectScopeKind := ScopeInvalid | ScopeEmbedded | ScopeFilesystem.
#[export] Instance scope_kind_eq_dec : EqDecision fakeTCPProductionObjectScopeKind.
Proof. solve_decision. Defined.

Record fakeTCPProductionScopeIdentity := mkScope {
  sc_objectKind : fakeTCPProductionObjectScopeKind;
  sc_objectPath : string;
  sc_fakeTCPObjectPath : string;
  sc_fakeTCPLegacy515ObjectPath : string;
  sc_pinPath : string;
  sc_lifecyclePath : string;
  sc_adoptLegacyPins : bool
}.
#[export] Instance scope_eq_dec : EqDecision fakeTCPProductionScopeIdentity.
Proof. solve_decision. Defined.

Definition validateCanonicalFakeTCPProductionPath (path : string) : option error :=
  if str_empty path then Some "production path is empty"
  else if negb (path_IsAbs path) then Some "production path is not absolute"
  else if negb (String.eqb (path_Clean path) path) then Some "production path is not canonical"
  else if String.eqb path "/" then Some "production path must not be a filesystem root"
  else None.

(** The names of the embedded objects. *)
Definition EmbeddedObjectSource : string := "embedded:wg_mix_tc.o".
Definition EmbeddedFakeTCPObjectSource : string := "embedded:wg_mix_faketcp.o".
Definition EmbeddedFakeTCPLegacy515ObjectSource : string := "embedded:wg_mix_faketcp_legacy_515.o".

(** The first of two checks that fails. *)
Definition first_error (a b : option error) : option error :=
  match a with Some err => Some err | None => b end.

Definition scope_validate (scope : fakeTCPProductionScopeIdentity) : option error :=
  first_error (match sc_objectKind scope with
    | ScopeEmbedded => if negb (String.eqb (sc_objectPath scope) EmbeddedObjectSource)
                       then Some "production embedded object scope has an invalid source" else None
    | ScopeFilesystem => validateCanonicalFakeTCPProductionPath (sc_objectPath scope)
    | ScopeInvalid => Some "production object scope kind is invalid"
    end)
  (first_error (if String.eqb (sc_fakeTCPObjectPath scope) EmbeddedFakeTCPObjectSource then None
                else validateCanonicalFakeTCPProductionPath (sc_fakeTCPObjectPath scope))
  (first_error (if String.eqb (sc_fakeTCPLegacy515ObjectPath scope) EmbeddedFakeTCPLegacy515ObjectSource
                then None
                else validateCanonicalFakeTCPProductionPath (sc_fakeTCPLegacy515ObjectPath scope))
  (first_error (validateCanonicalFakeTCPProductionPath (sc_pinPath scope))
     (validateCanonicalFakeTCPProductionPath (sc_lifecyclePath scope))))).

Definition errFakeTCPProductionScopeMismatch : error :=
  "production dataplane scope does not match the retained owner".
Definition errFakeTCPProductionScopeUnboundOwner : error :=
  "production dataplane owner has no bound scope identity".

(** ** Preflight *)

Definition productionUnderlayIsAttachable (u : UnderlayState) : bool :=
  us_Resolved u && negb (String.eqb (us_Role u) "parse_only") && negb (String.eqb (us_Role u) "disabled").
Fixpoint preflight_underlays (l : list UnderlayState) : option error :=
  match l with
  | [] => None
  | u :: l =>
      if negb (productionUnderlayIsAttachable u) then preflight_underlays l
      else if one_of (us_Parser u) ["ethernet"; "l3"] then preflight_underlays l
      else Some "preflight production underlay: parser is ambiguous"
  end.
Definition preflightProductionUnderlayParsers (st : State) : option error :=
  preflight_underlays (st_Underlays st).

(** The objects of the state that use FakeTCP (without their numbers). *)
Definition fakeTCPStateReferences (st : State) : list string :=
  map (fun wg => "wireguard:" +:+ ws_Name wg)
      (filter (fun wg => String.eqb (ws_TransportMode wg) "faketcp" = true) (st_WireGuards st)) ++
  map (fun _ => "egress")
      (filter (fun r => String.eqb (eg_TransportMode r) "faketcp" = true) (st_EgressRules st)) ++
  map (fun _ => "ingress")
      (filter (fun r => String.eqb (in_TransportMode r) "faketcp" = true) (st_IngressListeners st)).

(** The capability bits, by position. *)
Definition fakeTCPCapability (i : nat) : Z := Z.shiftl 1 (Z.of_nat i).
Definition fakeTCPRequiredCapabilities : Z := foldr Z.lor 0 (map fakeTCPCapability (seq 0 18)).
Definition fakeTCPImplementedCapabilities : Z := fakeTCPRequiredCapabilities.
Definition fakeTCPActivationReady : bool :=
  Z.land fakeTCPImplementedCapabilities fakeTCPRequiredCapabilities =? fakeTCPRequiredCapabilities.

Definition ValidateFakeTCPActivation (st : State) : option error :=
  if len (fakeTCPStateReferences st) =? 0 then None
  else if fakeTCPActivationReady then None
  else Some "faketcp production capability gate is not satisfied".
Definition ValidateFakeTCPResidentRuntime (st : State) (resident : bool) : option error :=
  if (len (fakeTCPStateReferences st) =? 0) || resident then None
  else Some "faketcp requires a resident daemon runtime".

(** ** Collaborators *)

Inductive dataplaneCoreOwner := OwnerUnknown | OwnerNone | OwnerBaseline | OwnerExperimental.
#[export] Instance owner_eq_dec : EqDecision dataplaneCoreOwner.
Proof. solve_decision. Defined.

(** A plan: its key, and whether it has a builder and a rollback. *)
Record fakeTCPProductionPlan := mkProductionPlan {
  pp_key : fakeTCPRuntimeDesiredKey; pp_build : bool; pp_rollback : bool
}.

(** [lc_Ensure] also tells whether the builder was called. *)
Class fakeTCPRuntimeLifecycle (L : Type) := {
  lc_Ensure : fakeTCPRuntimeDesiredKey -> L -> (option error * bool) * L;
  lc_Stop : L -> option error * L;
  lc_Quiesce : bool -> L -> (StartupGuardLease + error) * L;
  lc_Resume : bool -> StartupGuardLease -> L -> option error * L;
  (** The runtime that is built and not released. *)
  lc_open : L -> option Z
}.

Class CoordinatorEnv (W : Type) := {
  cx_err : W -> option error * W;
  cx_validateActivation : State -> W -> option error * W;
  cx_resolveScope : W -> (fakeTCPProductionScopeIdentity + error) * W;
  cx_plan : State -> W -> (option fakeTCPProductionPlan + error) * W;
  cx_rollback : W -> option error * W;
  cx_has_recovery : bool;
  cx_recoverClassic : fakeTCPProductionScopeIdentity -> W -> option error * W;
  cx_Apply : State -> W -> option error * W;
  cx_Detach : option State -> W -> option error * W;
  cx_DetachStale : option State -> State -> W -> option error * W
}.

(** What the coordinator does, with the runtime open at that moment for the
    mutations of the baseline ([experimental]: the detach before a FakeTCP
    start). *)
Inductive cevent :=
| CvActivation (ok : bool)
| CvPlan (rollback : bool)
| CvRollback
| CvRecover
| CvApply (open : option Z)
| CvDetach (experimental : bool) (open : option Z)
| CvDetachStale (open : option Z)
| CvStop
| CvEnsure (built : bool).

Record Coordinator (L W : Type) := mkCoordinator {
  co_supervisor : L;
  co_owner : dataplaneCoreOwner;
  co_scope : option fakeTCPProductionScopeIdentity;
  co_trace : list cevent;
  co_env : W
}.
Arguments mkCoordinator {L W}.
Arguments co_supervisor {L W}.
Arguments co_owner {L W}.
Arguments co_scope {L W}.
Arguments co_trace {L W}.
Arguments co_env {L W}.

Section coordinator.
Context {L W : Type} `{fakeTCPRuntimeLifecycle L} `{CoordinatorEnv W}.
Abbreviation C := (Coordinator L W) (only parsing).

Definition set_owner (o : dataplaneCoreOwner) (c : C) : C :=
  mkCoordinator (co_supervisor c) o (co_scope c) (co_trace c) (co_env c).
Definition set_scope (s : option fakeTCPProductionScopeIdentity) (c : C) : C :=
  mkCoordinator (co_supervisor c) (co_owner c) s (co_trace c) (co_env c).
Definition record_event (ev : cevent) (c : C) : C :=
  mkCoordinator (co_supervisor c) (co_owner c) (co_scope c) (co_trace c ++ [ev]) (co_env c).
Definition co_call {A} (f : W -> A * W) (c : C) : A * C :=
  let '(a, w) := f (co_env c) in
  (a, mkCoordinator (co_supervisor c) (co_owner c) (co_scope c) (co_trace c) w).

Definition co_Stop (c : C) : option error * C :=
  let '(err, l) := lc_Stop (co_supervisor c) in
  (err, record_event CvStop (mkCoordinator l (co_owner c) (co_scope c) (co_trace c) (co_env c))).
Definition co_Ensure (key : fakeTCPRuntimeDesiredKey) (c : C) : (option error * bool) * C :=
  let '((err, built), l) := lc_Ensure key (co_supervisor c) in
  ((err, built), record_event (CvEnsure built)
                   (mkCoordinator l (co_owner c) (co_scope c) (co_trace c) (co_env c))).
(** A mutation of the baseline. *)
Definition co_baseline (ev : option Z -> cevent) (f : W -> option error * W) (c : C)
    : option error * C :=
  co_call f (record_event (ev (lc_open (co_supervisor c))) c).

(** ** Operations *)

Definition bindScopeLocked (c : C) : option error * C :=
  let '(r, c) := co_call cx_resolveScope c in
  match r with
  | inr err => (Some ("resolve production dataplane scope: " +:+ err), c)
  | inl scope =>
      match scope_validate scope with
      | Some err => (Some ("validate production dataplane scope: " +:+ err), c)
      | None =>
          match co_scope c with
          | None =>
              if negb (bool_decide (co_owner c = OwnerUnknown)) && negb (bool_decide (co_owner c = OwnerNone))
              then (Some errFakeTCPProductionScopeUnboundOwner, c)
              else (None, set_scope (Some scope) c)
          | Some bound =>
              if negb (bool_decide (bound = scope)) then (Some errFakeTCPProductionScopeMismatch, c)
              else (None, c)
          end
      end
  end.

Definition recoverStaleClassicLocked (c : C) : option error * C :=
  if negb cx_has_recovery then (None, c)
  else match co_scope c with
  | None => (Some "recover stale FakeTCP classic owner: production scope is unbound", c)
  | Some scope => co_call (cx_recoverClassic scope) (record_event CvRecover c)
  end.

(** Stopping the FakeTCP core and recovering a stale one before a mutation of
    the baseline; [Some] is an error to return. *)
Definition release_experimental (core what : error) (c : C) : option error * C :=
  let '(err, c) := co_Stop c in
  match err with
  | Some err => (Some ("stop " +:+ core +:+ " core before " +:+ what +:+ ": " +:+ err),
                 set_owner OwnerExperimental c)
  | None =>
      let '(err, c) := co_call cx_err (set_owner OwnerNone c) in
      match err with
      | Some err => (Some err, c)
      | None =>
          let '(err, c) := recoverStaleClassicLocked c in
          ((fun e => "recover stale FakeTCP classic owner before " +:+ what +:+ ": " +:+ e) <$> err, c)
      end
  end.

Definition applyBaselineLocked (st : State) (c : C) : option error * C :=
  let '(err, c) := release_experimental "FakeTCP" "baseline apply" c in
  match err with
  | Some err => (Some err, c)
  | None =>
      let '(err, c) := co_baseline CvApply (cx_Apply st) c in (err, set_owner OwnerBaseline c)
  end.

(** The detach of the baseline before a FakeTCP start. *)
Definition release_baseline (st : State) (c : C) : option error * C :=
  if bool_decide (co_owner c = OwnerExperimental) then (None, c)
  else
    let '(err, c) := recoverStaleClassicLocked c in
    match err with
    | Some err => (Some ("recover stale FakeTCP classic owner before experimental baseline detach: " +:+ err), c)
    | None =>
        let '(err, c) := co_baseline (CvDetach true) (cx_Detach (Some st)) c in
        match err with
        | Some err => (Some ("detach baseline core before experimental start: " +:+ err),
                       set_owner OwnerBaseline c)
        | None => (None, c)
        end
    end.

(** The body of [applyExperimentalLocked] with a plan; it also tells whether the
    builder was called. *)
Definition apply_plan (st : State) (plan : fakeTCPProductionPlan) (c : C) : (option error * bool) * C :=
  if bool_decide (pp_key plan = empty_key)
  then ((Some "plan FakeTCP runtime: desired key is empty", false), c)
  else if negb (pp_build plan) then ((Some "plan FakeTCP runtime: builder is nil", false), c)
  else
    let '(err, c) := co_call cx_err c in
    match err with
    | Some err => ((Some err, false), c)
    | None =>
        let '(err, c) := release_baseline st c in
        match err with
        | Some err => ((Some err, false), c)
        | None =>
            let '(err, c) := co_call cx_err (set_owner OwnerNone c) in
            match err with
            | Some err => ((Some err, false), c)
            | None =>
                let '((err, built), c) := co_Ensure (pp_key plan) c in
                ((err, built), set_owner OwnerExperimental c)
            end
        end
    end.

Definition applyExperimentalLocked (st : State) (c : C) : option error * C :=
  let '(r, c) := co_call (cx_plan st) c in
  match r with
  | inr err => (Some ("plan FakeTCP runtime: " +:+ err), c)
  | inl None => (Some "plan FakeTCP runtime: planner returned nil", c)
  | inl (Some plan) =>
      let '((err, buildClaimed), c) := apply_plan st plan (record_event (CvPlan (pp_rollback plan)) c) in
      if buildClaimed || negb (pp_rollback plan) then (err, c)
      else
        let '(rollbackErr, c) := co_call cx_rollback (record_event CvRollback c) in
        (match rollbackErr with
         | Some e => errors_Join err (Some ("rollback unclaimed FakeTCP production plan: " +:+ e))
         | None => err
         end, c)
  end.

(** The checks common to [Apply] and [DetachStale] up to the bound scope. *)
Definition gate (st : State) (c : C) : option error * C :=
  match preflightProductionUnderlayParsers st with
  | Some err => (Some err, c)
  | None =>
      let '(err, c) := co_call cx_err c in
      match err with
      | Some err => (Some err, c)
      | None =>
          let '(err, c) := co_call (cx_validateActivation st) c in
          let c := record_event (CvActivation (negb (bool_decide (is_Some err)))) c in
          match err with
          | Some err => (Some err, c)
          | None => bindScopeLocked c
          end
      end
  end.

(** [ctx] tells whether the context is non-nil. *)
Definition coordinator_Apply (ctx : bool) (state : option State) (c : C) : option error * C :=
  if negb ctx then (Some "apply context is nil", c)
  else
    let '(err, c) := co_call cx_err c in
    match err with
    | Some err => (Some err, c)
    | None =>
        match state with
        | None => (Some "apply control state is nil", c)
        | Some st =>
            let '(err, c) := gate st c in
            match err with
            | Some err => (Some err, c)
            | None =>
                if len (fakeTCPStateReferences st) =? 0 then applyBaselineLocked st c
                else applyExperimentalLocked st c
            end
        end
    end.

Definition coordinator_Detach (ctx : bool) (state : option State) (c : C) : option error * C :=
  if negb ctx then (Some "detach context is nil", c)
  else
    let '(err, c) := co_call cx_err c in
    match err with
    | Some err => (Some err, c)
    | None =>
        let '(err, c) := co_call cx_err c in
        match err with
        | Some err => (Some err, c)
        | None =>
            let '(err, c) := bindScopeLocked c in
            match err with
            | Some err => (Some err, c)
            | None =>
                let '(err, c) := release_experimental "experimental" "baseline detach" c in
                match err with
                | Some err => (Some err, c)
                | None =>
                    let '(err, c) := co_baseline (CvDetach false) (cx_Detach state) c in
                    match err with
                    | Some err => (Some err, set_owner OwnerBaseline c)
                    | None => (None, set_scope None (set_owner OwnerNone c))
                    end
                end
            end
        end
    end.

Definition coordinator_DetachStale (ctx : bool) (previous current : option State) (c : C)
    : option error * C :=
  if negb ctx then (Some "detach stale context is nil", c)
  else
    let '(err, c) := co_call cx_err c in
    match err with
    | Some err => (Some err, c)
    | None =>
        match current with
        | None => (Some "detach stale current control state is nil", c)
        | Some st =>
            let '(err, c) := gate st c in
            match err with
            | Some err => (Some err, c)
            | None =>
                if negb (len (fakeTCPStateReferences st) =? 0) then (None, c)
                else
                  let '(err, c) := release_experimental "experimental" "baseline stale detach" c in
                  match err with
                  | Some err => (Some err, c)
                  | None =>
                      let '(err, c) := co_baseline CvDetachStale (cx_DetachStale previous st) c in
                      (err, set_owner OwnerBaseline c)
                  end
            end
        end
    end.

Definition with_supervisor {A} (f : L -> A * L) (c : C) : A * C :=
  let '(a, l) := f (co_supervisor c) in
  (a, mkCoordinator l (co_owner c) (co_scope c) (co_trace c) (co_env c)).
Definition coordinator_Quiesce (ctx : bool) : C -> (StartupGuardLease + error) * C :=
  with_supervisor (lc_Quiesce ctx).
Definition coordinator_Resume (ctx : bool) (lease : StartupGuardLease) : C -> option error * C :=
  with_supervisor (lc_Resume ctx lease).
End coordinator.

(** The supervisor's lifecycle; only a build takes a new runtime number. *)
#[export] Instance supervisor_lifecycle {W} `{RuntimeEnv W} : fakeTCPRuntimeLifecycle (Supervisor W) := {
  lc_Ensure key s := let '(err, s') := Ensure true key true s in
                     ((err, negb (Pos.eqb (sp_next s') (sp_next s))), s');
  lc_Stop s := supervisor_Stop true s;
  lc_Quiesce := QuiesceForStartupGuard;
  lc_Resume := ResumeAfterStartupGuard;
  lc_open s := sr_runtime <$> sp_current s
}.
