(* ===== verification/CoordinatorProps.v ===== *)
(** * The baseline and the FakeTCP core exclude each other

    The coordinator's theorems are proved against [LifecycleLaws], what it needs
    of a runtime lifecycle; the supervisor is an instance. *)
From Stdlib Require Import ZArith Lia.
From stdpp Require Import base option list gmap strings numbers relations.
From S2P Require Import Prelude Abi Config Profile Control ControlProps Supervisor SupervisorProps Coordinator.

Class LifecycleLaws (L : Type) `{fakeTCPRuntimeLifecycle L} := {
  lc_ok : L -> Prop;
  law_ensure key l : lc_ok l -> lc_ok (lc_Ensure key l).2;
  law_stop l : lc_ok l -> lc_ok (lc_Stop l).2;
  law_quiesce ctx l : lc_ok l -> lc_ok (lc_Quiesce ctx l).2;
  law_resume ctx lease l : lc_ok l -> lc_ok (lc_Resume ctx lease l).2;
  (** Pausing and resuming keep the runtime. *)
  law_quiesce_open ctx l : lc_open (lc_Quiesce ctx l).2 = lc_open l;
  law_resume_open ctx lease l : lc_open (lc_Resume ctx lease l).2 = lc_open l;
  (** A successful stop leaves nothing open, a successful ensure a runtime. *)
  law_stopped l l' : lc_ok l -> lc_Stop l = (None, l') -> lc_open l' = None;
  law_ensured key l b l' : lc_ok l -> lc_Ensure key l = ((None, b), l') -> is_Some (lc_open l')
}.

(** *** The supervisor as a lifecycle *)

Section supervisor_runtime.
Context {W : Type} `{RuntimeEnv W}.
Implicit Types s : Supervisor W.

Definition runtime_of s : option Z := sr_runtime <$> sp_current s.

Lemma call_env_runtime {A} (f : W -> A * W) s : runtime_of (call_env f s).2 = runtime_of s.
Proof. unfold call_env. by destruct (f (sp_env s)). Qed.
Lemma observe_runtime s : runtime_of (observe s) = runtime_of s.
Proof.
  unfold observe. destruct (sp_current s) as [e|] eqn:Hc; [|done]. destruct (running e); [|done].
  unfold call_env. destruct (run_exit (sr_runtime e) (sp_env s)) as [[err|] w]; [|done].
  unfold runtime_of. by rewrite Hc.
Qed.
Lemma rollback_runtime s revision lease :
  runtime_of (rollbackNewStartupGuardPause s revision lease) = runtime_of s.
Proof. unfold rollbackNewStartupGuardPause. by case_match. Qed.
Lemma restore_runtime s revision phase : runtime_of (restoreStartupGuardPause s revision phase) = runtime_of s.
Proof. unfold restoreStartupGuardPause. by case_match. Qed.
Lemma pause_status_runtime s : runtime_of (StartupGuardPauseStatus s).2 = runtime_of s.
Proof. unfold StartupGuardPauseStatus. by destruct (sp_phase s). Qed.
Lemma pause_runtime s e lease revision : runtime_of (pause_current s e lease revision).2 = runtime_of s.
Proof.
  unfold pause_current. destruct (rt_pauser _); cbn [negb]; [|apply rollback_runtime].
  pose proof (call_env_runtime (rt_Pause (sr_runtime e)) s) as Hc.
  destruct (call_env _ s) as [[token|err] s1]; cbn in Hc; [|cbn; by rewrite rollback_runtime].
  by destruct (token =? 0).
Qed.
Lemma Quiesce_runtime ctx s : runtime_of (QuiesceForStartupGuard ctx s).2 = runtime_of s.
Proof.
  unfold QuiesceForStartupGuard. destruct ctx; [|done]. cbn [negb]. pose proof (pause_status_runtime s) as Hr1.
  destruct (StartupGuardPauseStatus s) as [phase s1]. cbn in Hr1. case_bool_decide; [done|].
  pose proof (call_env_runtime ctx_err s1) as Hr2. destruct (call_env ctx_err s1) as [[err|] s2]; cbn in Hr2; [cbn; congruence|].
  case_bool_decide; cbn [negb]; [|cbn; congruence]. cbn zeta. cbn [fresh].
  destruct (acquireStartupGuardPause _ _) as [revision s3] eqn:E3.
  assert (runtime_of s3 = runtime_of s2) as Hr3 by (unfold acquireStartupGuardPause in E3; by injection E3 as _ <-).
  pose proof (observe_runtime s3) as Hr4. destruct (sp_current (observe s3)) as [e|];
    [destruct (_ || _); [|rewrite pause_runtime]|]; cbn in *; unfold runtime_of in *; cbn in *; congruence.
Qed.
Lemma start_runtime s e : sp_current s = Some e -> runtime_of (start s e).2 = runtime_of s.
Proof. intros Hc. unfold start. repeat case_match; try done. unfold runtime_of. cbn. by rewrite Hc. Qed.
Lemma clear_inner_runtime s e : runtime_of (clearStartupGuardInnerLease s e) = runtime_of s.
Proof. unfold clearStartupGuardInnerLease. by case_bool_decide. Qed.
Lemma resume_runtime s e revision : sp_current s = Some e ->
  runtime_of (resume_current s e revision).2 = runtime_of s.
Proof.
  intros Hc. unfold resume_current. destruct (_ || _); [apply restore_runtime|]. destruct (sr_runStarted e).
  - destruct (rt_pauser _); cbn [negb]; [|apply restore_runtime].
    destruct (loadStartupGuardInnerLease s e); [|apply restore_runtime].
    pose proof (call_env_runtime (rt_Resume (sr_runtime e) z) s) as Hr1.
    destruct (call_env _ s) as [[err|] s1]; cbn in *; [by rewrite restore_runtime|by rewrite clear_inner_runtime].
  - pose proof (start_runtime s e Hc) as Hr1. destruct (start s e) as [[err|] s1]; cbn in *; [by rewrite restore_runtime|done].
Qed.
Lemma Resume_runtime ctx lease s : runtime_of (ResumeAfterStartupGuard ctx lease s).2 = runtime_of s.
Proof.
  unfold ResumeAfterStartupGuard. destruct ctx; [|done]. cbn [negb]. pose proof (pause_status_runtime s) as Hr1.
  destruct (StartupGuardPauseStatus s) as [phase s1]. cbn in Hr1. case_bool_decide; [done|].
  case_bool_decide; cbn [negb]; [|done]. destruct (activeStartupGuardLeaseMatches s1 lease); cbn [negb]; [|done].
  pose proof (call_env_runtime ctx_err s1) as Hr2. destruct (call_env ctx_err s1) as [[err|] s2]; cbn in Hr2; [cbn; congruence|].
  cbn [setStartupGuardPauseState]. set (s3 := emit _ _). assert (runtime_of s3 = runtime_of s2) as Hr3 by done.
  pose proof (observe_runtime s3) as Hr4. destruct (sp_current (observe s3)) as [e|] eqn:E4; [|cbn; unfold runtime_of in *; cbn in *; congruence].
  pose proof (resume_runtime (observe s3) e (sp_revision s3) E4) as Hr5.
  destruct (resume_current (observe s3) e (sp_revision s3)) as [[err|] s4]; cbn in *; unfold runtime_of in *; cbn in *; congruence.
Qed.
End supervisor_runtime.

#[export] Instance supervisor_laws {W} `{RuntimeEnv W} : LifecycleLaws (Supervisor W).
Proof.
  refine (Build_LifecycleLaws _ _ (fun s => sup_ok s /\ leased s) _ _ _ _ _ _ _ _);
    cbn [lc_Ensure lc_Stop lc_Quiesce lc_Resume lc_open supervisor_lifecycle].
  - intros key s [Hok Hl]. destruct (Ensure true key true s) as [r s'] eqn:E.
    destruct (Ensure_ok _ _ _ _ _ _ E Hok) as (Ho & _ & _ & Hl'). exact (conj Ho (Hl' Hl)).
  - intros s [Hok Hl]. destruct (supervisor_Stop true s) as [r s'] eqn:E.
    destruct (Stop_ok _ _ _ _ E Hok) as (? & _ & Hk). split; [done|]. by eapply kept_leased.
  - intros ctx s [Hok Hl]. destruct (QuiesceForStartupGuard ctx s) as [r s'] eqn:E.
    destruct (Quiesce_ok _ _ _ _ E Hok Hl) as (? & ? & _). done.
  - intros ctx lease s [Hok Hl]. destruct (ResumeAfterStartupGuard ctx lease s) as [r s'] eqn:E.
    destruct (Resume_ok _ _ _ _ _ E Hok Hl) as (? & ? & _). done.
  - apply Quiesce_runtime.
  - apply Resume_runtime.
  - intros s s' [Hok _] E. destruct (Stop_ok _ _ _ _ E Hok) as (_ & Hnone & _). by rewrite Hnone.
  - intros key s b s' [Hok _]. destruct (Ensure true key true s) as [r t] eqn:E.
    intros [= -> _ <-]. destruct (Ensure_ok _ _ _ _ _ _ E Hok) as (_ & He & _).
    destruct (He eq_refl) as (e & Hc & _). rewrite Hc. by eexists.
Defined.

(** ** Traces *)

(** No mutation of the baseline next to an open runtime: for every mutation but
    the detach before a FakeTCP start, and for that one too. *)
Definition event_ok (ev : cevent) : Prop :=
  match ev with
  | CvApply open | CvDetachStale open | CvDetach false open => open = None
  | _ => True
  end.
Definition event_strict (ev : cevent) : Prop :=
  match ev with CvDetach true open => open = None | _ => event_ok ev end.

(** A plan's rollback runs once if the builder never took the plan over, and
    not at all otherwise. *)
Definition is_rollback (ev : cevent) : bool := match ev with CvRollback => true | _ => false end.
Definition needs_rollback (ev : cevent) : bool := match ev with CvPlan true => true | _ => false end.
Definition claims_plan (ev : cevent) : bool := match ev with CvEnsure true => true | _ => false end.
Definition rollbacks (evs : list cevent) : nat := length (List.filter is_rollback evs).
Definition settled (evs : list cevent) : Prop :=
  rollbacks evs = if existsb needs_rollback evs && negb (existsb claims_plan evs) then 1%nat else 0%nat.

(** The events inside the execution of a plan. *)
Definition inner (ev : cevent) : Prop :=
  is_rollback ev = false /\ needs_rollback ev = false.
Lemma inner_quiet evs : Forall inner evs ->
  rollbacks evs = 0%nat /\ existsb needs_rollback evs = false.
Proof.
  unfold rollbacks. induction 1 as [|ev evs [Hr Hn] _ [IH1 IH2]]; [done|].
  cbn. by rewrite Hr, Hn, IH1, IH2.
Qed.
Lemma inner_settled evs : Forall inner evs -> settled evs.
Proof. intros Hi. destruct (inner_quiet _ Hi) as [Hr Hn]. unfold settled. by rewrite Hr, Hn. Qed.
Lemma plan_settled rb b pevs : Forall inner pevs -> existsb claims_plan pevs = b ->
  settled (CvPlan rb :: pevs ++ if b || negb rb then [] else [CvRollback]).
Proof.
  intros Hi Hb. destruct (inner_quiet _ Hi) as [Hr Hn]. unfold rollbacks in Hr.
  unfold settled, rollbacks. cbn [List.filter is_rollback existsb claims_plan orb].
  rewrite List.filter_app, length_app, Hr, !existsb_app, Hn, Hb.
  by destruct rb, b.
Qed.
Lemma activation_settled ok evs : settled evs -> settled (CvActivation ok :: evs).
Proof. done. Qed.

Section props.
Context {L W : Type} `{LifecycleLaws L} `{CoordinatorEnv W}.
Implicit Types c : Coordinator L W.

Definition recovery : list cevent := if @cx_has_recovery W _ then [CvRecover] else [].

(** Contexts that never end. *)
Definition contexts_last : Prop := forall w, (cx_err w).1 = None.

Record co_ok c : Prop := {
  ok_lifecycle : lc_ok (co_supervisor c);
  ok_trace : Forall event_ok (co_trace c);
  ok_owner : contexts_last -> co_owner c = OwnerExperimental \/ lc_open (co_supervisor c) = None;
  ok_strict : contexts_last -> Forall event_strict (co_trace c)
}.

(** What every step of an operation keeps: the scope and the trace so far. *)
Lemma co_call_eq {A} (f : W -> A * W) c :
  co_call f c = ((f (co_env c)).1,
    mkCoordinator (co_supervisor c) (co_owner c) (co_scope c) (co_trace c) (f (co_env c)).2).
Proof. unfold co_call. by destruct (f (co_env c)). Qed.

Lemma recover_run c err c' : recoverStaleClassicLocked c = (err, c') ->
  co_supervisor c' = co_supervisor c /\ co_owner c' = co_owner c /\ co_scope c' = co_scope c /\
  exists evs, co_trace c' = co_trace c ++ evs /\ (evs = [] \/ evs = [CvRecover]) /\
    (err = None -> evs = recovery).
Proof.
  unfold recoverStaleClassicLocked, recovery. destruct cx_has_recovery; cbn [negb].
  - destruct (co_scope c) as [scope|] eqn:Hs.
    + rewrite co_call_eq. intros [= <- <-]. cbn. split_and!; [done..|]. eexists. split; [done|]. auto.
    + intros [= <- <-]. split_and!; [done..|]. exists []. rewrite app_nil_r. split_and!; [done|by left|done].
  - intros [= <- <-]. split_and!; [done..|]. exists []. rewrite app_nil_r. auto.
Qed.

(** Stopping: the runtime stays with its owner, or it is closed. *)
Lemma release_experimental_run core what c err c' :
  release_experimental core what c = (err, c') -> lc_ok (co_supervisor c) ->
  lc_ok (co_supervisor c') /\ co_scope c' = co_scope c /\
  (co_owner c' = OwnerExperimental \/ lc_open (co_supervisor c') = None) /\
  exists evs, co_trace c' = co_trace c ++ CvStop :: evs /\ (evs = [] \/ evs = [CvRecover]) /\
    (err = None -> evs = recovery /\ lc_open (co_supervisor c') = None).
Proof.
  intros Hr Hok. unfold release_experimental, co_Stop in Hr.
  pose proof (law_stop _ Hok) as Hok'. pose proof (law_stopped (co_supervisor c)) as Hopen.
  destruct (lc_Stop (co_supervisor c)) as [[serr|] l]; cbn in Hr, Hok'.
  { injection Hr as <- <-. cbn. split_and!; [done|done|by left|]. exists []. split_and!; [done|by left|done]. }
  specialize (Hopen l Hok eq_refl). rewrite co_call_eq in Hr. destruct (cx_err _) as [[cerr|] w]; cbn in Hr.
  { injection Hr as <- <-. cbn. split_and!; [done|done|by right|]. exists []. split_and!; [done|by left|done]. }
  destruct (recoverStaleClassicLocked _) as [rerr c2] eqn:E.
  destruct (recover_run _ _ _ E) as (Hs & _ & Hsc & evs & Ht & Hevs & Hn). cbn in *.
  injection Hr as <- <-. rewrite Hs, Hsc, Ht. split_and!; [done|done|by right|]. exists evs.
  rewrite <- app_assoc. split; [done|]. split; [done|]. destruct rerr; [done|]. auto.
Qed.

(** Detaching the baseline before a FakeTCP start. *)
Lemma release_baseline_run st c err c' : release_baseline st c = (err, c') ->
  co_supervisor c' = co_supervisor c /\ co_scope c' = co_scope c /\
  exists evs, co_trace c' = co_trace c ++ evs /\
    (evs = [] \/ evs = [CvRecover] \/ co_owner c <> OwnerExperimental /\
       evs = recovery ++ [CvDetach true (lc_open (co_supervisor c))]) /\
    (co_owner c = OwnerExperimental -> err = None /\ evs = []) /\
    (co_owner c <> OwnerExperimental -> err = None ->
       evs = recovery ++ [CvDetach true (lc_open (co_supervisor c))]).
Proof.
  unfold release_baseline. case_bool_decide as Ho.
  { intros [= <- <-]. split_and!; [done..|]. exists []. rewrite app_nil_r. split_and!; [done|by left|done|intros []; done]. }
  destruct (recoverStaleClassicLocked c) as [rerr c1] eqn:E.
  destruct (recover_run _ _ _ E) as (Hs & _ & Hsc & evs & Ht & Hevs & Hn). destruct rerr as [rerr|].
  { intros [= <- <-]. split_and!; [done..|]. exists evs. split_and!; [done| |done|done].
    destruct Hevs; auto. }
  unfold co_baseline. rewrite co_call_eq. cbn. rewrite Hs. specialize (Hn eq_refl). subst evs.
  intros Hr. assert (co_supervisor c' = co_supervisor c /\ co_scope c' = co_scope c /\
    co_trace c' = co_trace c ++ recovery ++ [CvDetach true (lc_open (co_supervisor c))]) as (-> & -> & ->).
  { destruct (cx_Detach _ _).1; injection Hr as _ <-; cbn; rewrite Ht, Hsc, <- app_assoc; by rewrite ?Hs. }
  split_and!; [done..|]. eexists. split; [done|]. split_and!; auto. done.
Qed.

Lemma bindScope_run c err c' : bindScopeLocked c = (err, c') ->
  co_supervisor c' = co_supervisor c /\ co_owner c' = co_owner c /\ co_trace c' = co_trace c /\
  (err = None -> is_Some (co_scope c')) /\ (err <> None -> co_scope c' = co_scope c).
Proof.
  unfold bindScopeLocked. rewrite co_call_eq. intros Hr.
  repeat case_match; simplify_eq/=; split_and!; try done; intros; first [by eexists | congruence].
Qed.

(** The gate: nothing but the activation check happens before it passes. *)
Lemma gate_run st c err c' : gate st c = (err, c') ->
  co_supervisor c' = co_supervisor c /\ co_owner c' = co_owner c /\
  exists evs, co_trace c' = co_trace c ++ evs /\
    ((evs = [] \/ evs = [CvActivation false]) /\ err <> None /\ co_scope c' = co_scope c \/
     evs = [CvActivation true] /\ (err <> None -> co_scope c' = co_scope c)) /\
    (err = None -> is_Some (co_scope c')).
Proof.
  unfold gate. destruct (preflightProductionUnderlayParsers st) as [perr|].
  { intros [= <- <-]. split_and!; [done..|]. exists []. rewrite app_nil_r. split_and!; auto; done. }
  rewrite co_call_eq. destruct (cx_err _) as [[cerr|] w]; cbn.
  { intros [= <- <-]. split_and!; [done..|]. exists []. rewrite app_nil_r. split_and!; auto; done. }
  rewrite co_call_eq. cbn. destruct (cx_validateActivation st w) as [[aerr|] w']; cbn.
  { intros [= <- <-]. split_and!; [done..|]. exists [CvActivation false]. split_and!; auto; done. }
  intros Hr. destruct (bindScope_run _ _ _ Hr) as (-> & -> & -> & Hs & Hs'). cbn in *.
  split_and!; [done..|]. exists [CvActivation true]. split_and!; auto.
Qed.

(** The events of a successful FakeTCP start. *)
Definition start_events c (b : bool) : list cevent :=
  (if bool_decide (co_owner c = OwnerExperimental) then []
   else recovery ++ [CvDetach true (lc_open (co_supervisor c))]) ++ [CvEnsure b].

(** What a part of an operation did: its events, none of them a mutation next to
    an open runtime, and the invariant after it. *)
Record did c (evs : list cevent) c' : Prop := {
  did_trace : co_trace c' = co_trace c ++ evs;
  did_lifecycle : lc_ok (co_supervisor c');
  did_ok : Forall event_ok evs;
  did_strict : contexts_last -> co_owner c = OwnerExperimental \/ lc_open (co_supervisor c) = None ->
    (co_owner c' = OwnerExperimental \/ lc_open (co_supervisor c') = None) /\ Forall event_strict evs
}.

Lemma did_nothing c c' : lc_ok (co_supervisor c) -> co_supervisor c' = co_supervisor c ->
  co_owner c' = co_owner c -> co_trace c' = co_trace c -> did c [] c'.
Proof.
  intros Hl Hs Ho Ht. constructor; [by rewrite app_nil_r|by rewrite Hs|done|]. by rewrite Hs, Ho.
Qed.
Lemma did_app c1 c2 c3 evs1 evs2 : did c1 evs1 c2 -> did c2 evs2 c3 -> did c1 (evs1 ++ evs2) c3.
Proof.
  intros [T1 L1 O1 S1] [T2 L2 O2 S2]. constructor; [by rewrite T2, T1, app_assoc|done|by apply Forall_app|].
  intros Hc Ho. destruct (S1 Hc Ho) as [Ho1 F1]. destruct (S2 Hc Ho1) as [Ho2 F2].
  split; [done|]. by apply Forall_app.
Qed.

Lemma did_env c w evs c' :
  did (mkCoordinator (co_supervisor c) (co_owner c) (co_scope c) (co_trace c) w) evs c' -> did c evs c'.
Proof. intros [T Lk O S]. by constructor. Qed.

Lemma recovery_cases (P : cevent -> Prop) evs : P CvRecover -> evs = [] \/ evs = [CvRecover] -> Forall P evs.
Proof. intros HP [-> | ->]; auto. Qed.
Lemma recovery_forall (P : cevent -> Prop) : P CvRecover -> Forall P recovery.
Proof. intros HP. apply recovery_cases; [done|]. unfold recovery. destruct cx_has_recovery; auto. Qed.

Lemma baseline_events (P : cevent -> Prop) c evs : P CvRecover ->
  (co_owner c <> OwnerExperimental -> P (CvDetach true (lc_open (co_supervisor c)))) ->
  evs = [] \/ evs = [CvRecover] \/ co_owner c <> OwnerExperimental /\
       evs = recovery ++ [CvDetach true (lc_open (co_supervisor c))] -> Forall P evs.
Proof.
  intros HP HD [-> | [-> | [Ho ->]]]; [done|auto|].
  apply Forall_app. split; [by apply recovery_forall|]. constructor; auto.
Qed.

Lemma apply_plan_run st plan c err b c' : apply_plan st plan c = ((err, b), c') ->
  lc_ok (co_supervisor c) ->
  co_scope c' = co_scope c /\ exists evs, did c evs c' /\ Forall inner evs /\
    existsb claims_plan evs = b /\
    (err = None -> evs = start_events c b /\ co_owner c' = OwnerExperimental /\
       is_Some (lc_open (co_supervisor c'))).
Proof.
  intros Hr Hl. unfold apply_plan in Hr.
  assert (forall e c1, (Some e : option error, false, c1) = (err, b, c') -> did c [] c1 -> co_scope c1 = co_scope c ->
    co_scope c' = co_scope c /\ exists evs, did c evs c' /\ Forall inner evs /\
    existsb claims_plan evs = b /\ (err = None -> evs = start_events c b /\ co_owner c' = OwnerExperimental /\
       is_Some (lc_open (co_supervisor c')))) as Hfail.
  { intros e c1 [= <- <- <-] Hd Hsc. split; [done|]. exists []. by split_and!. }
  assert (did c [] c) as Hsame by (by apply did_nothing).
  case_bool_decide; [by eapply Hfail|]. destruct (pp_build plan); cbn [negb] in Hr; [|by eapply Hfail].
  rewrite co_call_eq in Hr. destruct (cx_err (co_env c)) as [[cerr|] w] eqn:E1; cbn in Hr.
  { eapply Hfail; [exact Hr|by apply did_nothing|done]. }
  destruct (release_baseline st _) as [rerr c2] eqn:E2.
  destruct (release_baseline_run _ _ _ _ E2) as (Hs & Hsc & evs & Ht & Hevs & He & Hb). cbn in *.
  assert (Forall inner evs) as Hi by (by eapply (baseline_events inner c)).
  assert (existsb claims_plan evs = false) as Hcl.
  { destruct Hevs as [-> | [-> | [_ ->]]]; [done..|]. unfold recovery. by destruct cx_has_recovery. }
  assert (Forall event_ok evs) as Hev by (by eapply (baseline_events event_ok c)).
  assert (co_owner c = OwnerExperimental \/ lc_open (co_supervisor c) = None -> Forall event_strict evs) as Hst.
  { intros Ho. eapply (baseline_events event_strict c); [done| |done]. intros. by destruct Ho. }
  destruct rerr as [rerr|].
  { injection Hr as <- <- <-. split; [done|]. exists evs. split_and!; [|done..]. constructor; [done|by rewrite Hs|done|].
    intros _ Ho. rewrite Hs. split; [|auto]. right. destruct Ho as [Ho|]; [|done]. by destruct (He Ho). }
  rewrite co_call_eq in Hr. cbn in Hr. destruct (cx_err (co_env c2)) as [[cerr|] w2] eqn:E3; cbn in Hr.
  { injection Hr as <- <- <-. split; [done|]. exists evs. split_and!; [|done..]. constructor; [done|by rewrite <- Hs in Hl|done|].
    intros Hc. specialize (Hc (co_env c2)). by rewrite E3 in Hc. }
  rewrite Hs in Hr. pose proof (law_ensure (pp_key plan) _ Hl) as Hl'.
  pose proof (law_ensured (pp_key plan) (co_supervisor c)) as Hopen. unfold co_Ensure in Hr. cbn in Hr.
  destruct (lc_Ensure (pp_key plan) (co_supervisor c)) as [[eerr built] l]. cbn in Hr, Hl'.
  injection Hr as <- <- <-. cbn. split; [done|]. exists (evs ++ [CvEnsure built]).
  rewrite Forall_app, existsb_app, Hcl. split_and!; [|done|repeat constructor|by destruct built|].
  - constructor; [cbn; by rewrite Ht, app_assoc|done|apply Forall_app; split; [done|by repeat constructor]|]. intros _ Ho. split; [by left|].
    apply Forall_app. split; [auto|by repeat constructor].
  - intros ->. split; [|split; [done|by eapply Hopen]]. unfold start_events. case_bool_decide as Ho; f_equal.
    + by apply He.
    + by apply Hb.
Qed.

Lemma applyExperimental_run st c err c' : applyExperimentalLocked st c = (err, c') ->
  lc_ok (co_supervisor c) ->
  co_scope c' = co_scope c /\ exists evs, did c evs c' /\ settled evs /\
    (err = None -> exists rb b, evs = CvPlan rb :: start_events c b ++ (if b || negb rb then [] else [CvRollback]) /\
       co_owner c' = OwnerExperimental /\ is_Some (lc_open (co_supervisor c'))).
Proof.
  intros Hr Hl. unfold applyExperimentalLocked in Hr. rewrite co_call_eq in Hr.
  destruct (cx_plan st (co_env c)) as [[[plan|]|perr] w]; cbn in Hr;
    [|injection Hr as <- <-; cbn; split; [done|]; exists []; split_and!; [by apply did_nothing|done..]..].
  destruct (apply_plan st plan _) as [[aerr b] c2] eqn:E.
  destruct (apply_plan_run _ _ _ _ _ _ E Hl) as (Hsc & pevs & Hd & Hi & Hb & Hok). cbn in Hsc.
  change (start_events _ b) with (start_events c b) in Hok.
  set (tail := if b || negb (pp_rollback plan) then [] else [CvRollback]).
  assert (did c (CvPlan (pp_rollback plan) :: pevs ++ tail)
            (mkCoordinator (co_supervisor c2) (co_owner c2) (co_scope c2) (co_trace c2 ++ tail) (co_env c'))) as Hdid.
  { destruct Hd as [T Hl2 O S]. cbn in T, S. constructor; cbn; [by rewrite T, <- !app_assoc|done| |].
    - constructor; [done|]. apply Forall_app. split; [done|]. unfold tail. destruct (b || _); by repeat constructor.
    - intros Hc Ho. destruct (S Hc Ho) as [Ho2 F]. split; [done|]. constructor; [done|].
      apply Forall_app. split; [done|]. unfold tail. destruct (b || _); by repeat constructor. }
  assert (co_supervisor c' = co_supervisor c2 /\ co_owner c' = co_owner c2 /\ co_scope c' = co_scope c2 /\
    co_trace c' = co_trace c2 ++ tail /\ (err = None -> aerr = None)) as (Es & Eo & Esc & Et & Ee).
  { unfold tail. destruct (b || _); [injection Hr as <- <-; by rewrite app_nil_r|].
    rewrite co_call_eq in Hr. injection Hr as <- <-. cbn. split_and!; try done.
    destruct (cx_rollback _).1; [intros Hj; by apply errors_Join_r in Hj|done]. }
  destruct c' as [sup owner scope trace env]. cbn in Es, Eo, Esc, Et. subst sup owner scope trace. split; [done|].
  eexists. split; [exact Hdid|]. split; [by apply plan_settled|].
  intros ->. destruct (Hok (Ee eq_refl)) as (-> & Ho & Hs). exists (pp_rollback plan), b. auto.
Qed.

(** Stopping the FakeTCP core. *)
Lemma release_experimental_did core what c err c' :
  release_experimental core what c = (err, c') -> lc_ok (co_supervisor c) ->
  co_scope c' = co_scope c /\ exists evs, did c evs c' /\ Forall inner evs /\
    (err = None -> evs = CvStop :: recovery /\ lc_open (co_supervisor c') = None).
Proof.
  intros Hr Hl. destruct (release_experimental_run _ _ _ _ _ Hr Hl) as (Hl' & Hsc & Ho & evs & Ht & Hevs & Hn).
  split; [done|]. exists (CvStop :: evs). split_and!.
  - constructor; [done|done| |split; [done|]]; (constructor; [done|]; by apply recovery_cases).
  - constructor; [done|]. by apply recovery_cases.
  - intros He. by destruct (Hn He) as [-> ?].
Qed.

(** A mutation of the baseline with no runtime open. *)
Lemma baseline_did (ev : option Z -> cevent) f c err c' o :
  co_baseline ev f c = (err, c') -> lc_ok (co_supervisor c) -> lc_open (co_supervisor c) = None ->
  event_ok (ev None) -> event_strict (ev None) -> did c [ev None] (set_owner o c') /\
  co_supervisor c' = co_supervisor c /\ co_scope c' = co_scope c.
Proof.
  intros Hr Hl Hn Hev1 Hev2. unfold co_baseline in Hr. rewrite co_call_eq, Hn in Hr. injection Hr as _ <-.
  split; [|done]. constructor; [done|done|by constructor|]. intros _ _. cbn. split; [by right|by constructor].
Qed.

(** A successful baseline mutation, all calls included. *)
Definition baseline_events_of (ev : cevent) : list cevent := CvStop :: recovery ++ [ev].

Lemma applyBaseline_run st c err c' : applyBaselineLocked st c = (err, c') -> lc_ok (co_supervisor c) ->
  co_scope c' = co_scope c /\ exists evs, did c evs c' /\ Forall inner evs /\
    (err = None -> evs = baseline_events_of (CvApply None) /\ co_owner c' = OwnerBaseline /\
       lc_open (co_supervisor c') = None).
Proof.
  intros Hr Hl. unfold applyBaselineLocked in Hr. destruct (release_experimental _ _ c) as [rerr c1] eqn:E.
  destruct (release_experimental_did _ _ _ _ _ E Hl) as (Hsc & evs & Hd & Hi & Hn). destruct rerr as [rerr|].
  { injection Hr as <- <-. split; [done|]. by exists evs. }
  destruct (Hn eq_refl) as [-> Hopen]. destruct (co_baseline _ _ c1) as [berr c2] eqn:E2. injection Hr as <- <-.
  destruct (baseline_did _ _ _ _ _ OwnerBaseline E2 (did_lifecycle _ _ _ Hd) Hopen eq_refl eq_refl)
    as (Hd2 & Hs2 & Hsc2).
  split; [cbn; congruence|]. exists ((CvStop :: recovery) ++ [CvApply None]). split_and!.
  - by eapply did_app.
  - apply Forall_app. split; [done|by repeat constructor].
  - intros _. cbn. by rewrite Hs2.
Qed.

(** [Apply] and [DetachStale] up to the gate. *)
Lemma gate_did st c err c' : gate st c = (err, c') -> lc_ok (co_supervisor c) ->
  co_supervisor c' = co_supervisor c /\ co_owner c' = co_owner c /\
  (err <> None -> co_scope c' = co_scope c) /\ (err = None -> is_Some (co_scope c')) /\
  exists evs, did c evs c' /\ (err = None -> evs = [CvActivation true]) /\
    (evs = [] \/ evs = [CvActivation false] \/ evs = [CvActivation true]).
Proof.
  intros Hr Hl. destruct (gate_run _ _ _ _ Hr) as (Hs & Ho & evs & Ht & Hevs & Hsc).
  split_and!; [done|done| |done|]; [by destruct Hevs as [(_ & _ & ->) | [_ Hx]]; auto|].
  exists evs. assert (Forall event_strict evs /\ Forall event_ok evs) as [F1 F2].
  { by destruct Hevs as [([-> | ->] & _) | [-> _]]; repeat constructor. }
  split_and!.
  - constructor; [done|by rewrite Hs|done|]. by rewrite Hs, Ho.
  - intros ->. by destruct Hevs as [(_ & He & _) | [-> _]].
  - destruct Hevs as [([-> | ->] & _) | [-> _]]; auto.
Qed.

(** Before the gate has passed, nothing changes. *)
Definition gated c (evs : list cevent) (err : option error) c' : Prop :=
  (evs = [] \/ evs = [CvActivation false]) /\ err <> None /\ co_supervisor c' = co_supervisor c /\
    co_owner c' = co_owner c /\ co_scope c' = co_scope c \/
  exists rest, evs = CvActivation true :: rest.

Definition apply_done c (st : State) (evs : list cevent) c' : Prop :=
  is_Some (co_scope c') /\
  if len (fakeTCPStateReferences st) =? 0
  then evs = CvActivation true :: baseline_events_of (CvApply None) /\
       co_owner c' = OwnerBaseline /\ lc_open (co_supervisor c') = None
  else exists rb b, evs = CvActivation true :: CvPlan rb :: start_events c b ++
                            (if b || negb rb then [] else [CvRollback]) /\
       co_owner c' = OwnerExperimental /\ is_Some (lc_open (co_supervisor c')).

(** An operation that only looked at its context. *)
Lemma unchanged_gated c w err : lc_ok (co_supervisor c) -> err <> None ->
  let c' := mkCoordinator (co_supervisor c) (co_owner c) (co_scope c) (co_trace c) w in
  did c [] c' /\ settled [] /\ gated c [] err c'.
Proof. intros Hl He. split; [by apply did_nothing|]. split; [done|]. left. auto. Qed.

Lemma gate_failed c evs err c' : did c evs c' -> co_supervisor c' = co_supervisor c -> co_owner c' = co_owner c ->
  co_scope c' = co_scope c -> err <> None ->
  evs = [] \/ evs = [CvActivation false] \/ evs = [CvActivation true] ->
  did c evs c' /\ settled evs /\ gated c evs err c'.
Proof.
  intros Hd Hs Ho Hsc He Hevs. split; [done|]. destruct Hevs as [-> | [-> | ->]].
  - split; [done|]. left. auto.
  - split; [done|]. left. auto.
  - split; [done|]. right. by eexists.
Qed.

Lemma Apply_run ctx state c err c' : coordinator_Apply ctx state c = (err, c') -> lc_ok (co_supervisor c) ->
  exists evs, (did c evs c' /\ settled evs /\ gated c evs err c') /\
    (err = None -> exists st, state = Some st /\ apply_done c st evs c').
Proof.
  intros Hr Hl. unfold coordinator_Apply in Hr. destruct ctx; cbn [negb] in Hr.
  2:{ injection Hr as <- <-. exists []. split; [|done]. destruct c. by apply unchanged_gated. }
  rewrite co_call_eq in Hr. destruct (cx_err (co_env c)) as [[cerr|] w]; cbn in Hr.
  { injection Hr as <- <-. exists []. split; [|done]. by apply unchanged_gated. }
  destruct state as [st|]; [|injection Hr as <- <-; exists []; split; [|done]; by apply unchanged_gated].
  destruct (gate st _) as [gerr c1] eqn:E. destruct (gate_did _ _ _ _ E Hl) as (Hs & Ho & Hsc & Hb & evs & Hd & Hn & Hevs).
  cbn in Hs, Ho, Hsc, Hb. apply did_env in Hd. destruct gerr as [gerr|].
  { injection Hr as <- <-. exists evs. split; [|done]. apply gate_failed; auto. }
  rewrite (Hn eq_refl) in *. rewrite <- Hs in Hl. unfold apply_done.
  destruct (len (fakeTCPStateReferences st) =? 0) eqn:Er.
  - destruct (applyBaseline_run _ _ _ _ Hr Hl) as (Hsc2 & evs2 & Hd2 & Hi2 & Hn2).
    exists (CvActivation true :: evs2). split; [split_and!|].
    + by apply (did_app _ _ _ [CvActivation true] _ Hd).
    + by apply activation_settled, inner_settled.
    + right. by eexists.
    + intros He. destruct (Hn2 He) as (-> & ? & ?). exists st. rewrite Er, Hsc2. auto.
  - destruct (applyExperimental_run _ _ _ _ Hr Hl) as (Hsc2 & evs2 & Hd2 & Hi2 & Hn2).
    exists (CvActivation true :: evs2). split; [split_and!|].
    + by apply (did_app _ _ _ [CvActivation true] _ Hd).
    + by apply activation_settled.
    + right. by eexists.
    + intros He. destruct (Hn2 He) as (rb & b & -> & ? & ?). exists st. rewrite Er, Hsc2. split; [done|].
      split; [auto|]. exists rb, b. split; [|done]. unfold start_events. by rewrite Hs, Ho.
Qed.

Lemma Detach_run ctx state c err c' : coordinator_Detach ctx state c = (err, c') -> lc_ok (co_supervisor c) ->
  exists evs, did c evs c' /\ (err = None -> evs = baseline_events_of (CvDetach false None) /\
    co_owner c' = OwnerNone /\ co_scope c' = None /\ lc_open (co_supervisor c') = None).
Proof.
  intros Hr Hl. unfold coordinator_Detach in Hr. destruct ctx; cbn [negb] in Hr.
  2:{ injection Hr as <- <-. exists []. split; [|done]. by apply did_nothing. }
  rewrite co_call_eq in Hr. destruct (cx_err (co_env c)) as [[cerr|] w]; cbn in Hr.
  { injection Hr as <- <-. exists []. split; [|done]. by apply did_nothing. }
  rewrite co_call_eq in Hr. cbn in Hr. destruct (cx_err w) as [[cerr|] w2]; cbn in Hr.
  { injection Hr as <- <-. exists []. split; [|done]. by apply did_nothing. }
  destruct (bindScopeLocked _) as [serr c1] eqn:E. destruct (bindScope_run _ _ _ E) as (Hs & Ho & Ht & _).
  cbn in Hs, Ho, Ht. assert (did c [] c1) as Hd1 by (by apply did_nothing).
  destruct serr as [serr|]; [injection Hr as <- <-; by exists []|].
  destruct (release_experimental _ _ c1) as [rerr c2] eqn:E2. rewrite <- Hs in Hl.
  destruct (release_experimental_did _ _ _ _ _ E2 Hl) as (_ & evs & Hd2 & _ & Hn).
  pose proof (did_app _ _ _ _ _ Hd1 Hd2) as Hd. cbn in Hd. destruct rerr as [rerr|].
  { injection Hr as <- <-. by exists evs. }
  destruct (Hn eq_refl) as [-> Hopen]. destruct (co_baseline _ _ c2) as [berr c3] eqn:E3.
  assert (forall o, did c2 [CvDetach false None] (set_owner o c3) /\ co_supervisor c3 = co_supervisor c2) as Hd3.
  { intros o. by destruct (baseline_did _ _ _ _ _ o E3 (did_lifecycle _ _ _ Hd2) Hopen eq_refl eq_refl) as (? & ? & ?). }
  exists (baseline_events_of (CvDetach false None)).
  destruct berr as [berr|]; injection Hr as <- <-.
  - destruct (Hd3 OwnerBaseline) as [Hd4 _]. split; [|done]. exact (did_app _ _ _ _ _ Hd Hd4).
  - destruct (Hd3 OwnerNone) as [Hd4 Hs3]. destruct (did_app _ _ _ _ _ Hd Hd4) as [T Lk O S].
    split; [by constructor|]. intros _. cbn. by rewrite Hs3.
Qed.

Lemma DetachStale_run ctx previous current c err c' :
  coordinator_DetachStale ctx previous current c = (err, c') -> lc_ok (co_supervisor c) ->
  exists evs, (did c evs c' /\ settled evs /\ gated c evs err c') /\
    (err = None -> exists st, current = Some st /\
       if len (fakeTCPStateReferences st) =? 0
       then evs = CvActivation true :: baseline_events_of (CvDetachStale None) /\
            co_owner c' = OwnerBaseline /\ lc_open (co_supervisor c') = None
       else evs = [CvActivation true] /\ co_supervisor c' = co_supervisor c /\ co_owner c' = co_owner c).
Proof.
  intros Hr Hl. unfold coordinator_DetachStale in Hr. destruct ctx; cbn [negb] in Hr.
  2:{ injection Hr as <- <-. exists []. split; [|done]. destruct c. by apply unchanged_gated. }
  rewrite co_call_eq in Hr. destruct (cx_err (co_env c)) as [[cerr|] w]; cbn in Hr.
  { injection Hr as <- <-. exists []. split; [|done]. by apply unchanged_gated. }
  destruct current as [st|]; [|injection Hr as <- <-; exists []; split; [|done]; by apply unchanged_gated].
  destruct (gate st _) as [gerr c1] eqn:E. destruct (gate_did _ _ _ _ E Hl) as (Hs & Ho & Hsc & _ & evs & Hd & Hn & Hevs).
  cbn in Hs, Ho, Hsc. apply did_env in Hd. destruct gerr as [gerr|].
  { injection Hr as <- <-. exists evs. split; [|done]. apply gate_failed; auto. }
  rewrite (Hn eq_refl) in *. rewrite <- Hs in Hl.
  destruct (len (fakeTCPStateReferences st) =? 0) eqn:Er; cbn [negb] in Hr.
  2:{ injection Hr as <- <-. exists [CvActivation true]. split; [split_and!; [done|done|right; by eexists]|].
      intros _. exists st. by rewrite Er. }
  destruct (release_experimental _ _ c1) as [rerr c2] eqn:E2.
  destruct (release_experimental_did _ _ _ _ _ E2 Hl) as (_ & evs2 & Hd2 & Hi2 & Hn2).
  pose proof (did_app _ _ _ _ _ Hd Hd2) as Hd12. destruct rerr as [rerr|].
  { injection Hr as <- <-. eexists. split; [split_and!; [exact Hd12|by apply (activation_settled true), inner_settled|right; by eexists]|done]. }
  destruct (Hn2 eq_refl) as [-> Hopen]. destruct (co_baseline _ _ c2) as [berr c3] eqn:E3. injection Hr as <- <-.
  destruct (baseline_did _ _ _ _ _ OwnerBaseline E3 (did_lifecycle _ _ _ Hd2) Hopen eq_refl eq_refl) as (Hd3 & Hs3 & _).
  eexists. split; [split_and!; [exact (did_app _ _ _ _ _ Hd12 Hd3)| |right; by eexists]|].
  - apply activation_settled, inner_settled. apply (Forall_app inner (CvStop :: recovery) [CvDetachStale None]). split; [done|by repeat constructor].
  - intros _. exists st. rewrite Er. cbn. by rewrite Hs3.
Qed.

(** ** Reachable states *)

Inductive co_step c : Coordinator L W -> Prop :=
| step_apply ctx state : co_step c (coordinator_Apply ctx state c).2
| step_detach ctx state : co_step c (coordinator_Detach ctx state c).2
| step_detach_stale ctx previous current : co_step c (coordinator_DetachStale ctx previous current c).2
| step_co_quiesce ctx : co_step c (coordinator_Quiesce ctx c).2
| step_co_resume ctx lease : co_step c (coordinator_Resume ctx lease c).2.

Lemma did_co_ok c evs c' : did c evs c' -> co_ok c -> co_ok c'.
Proof.
  intros [T Lk O S] [K1 K2 K3 K4]. constructor; [done|rewrite T; by apply Forall_app| |].
  - intros Hc. by apply S; auto.
  - intros Hc. rewrite T. apply Forall_app. split; [auto|]. by apply S; auto.
Qed.
Lemma co_step_ok c c' : co_step c c' -> co_ok c -> co_ok c'.
Proof.
  intros Hs Hok. pose proof (ok_lifecycle _ Hok) as Hl. destruct Hs.
  - destruct (coordinator_Apply ctx state c) as [r c'] eqn:E.
    destruct (Apply_run _ _ _ _ _ E Hl) as (evs & (Hd & _) & _). by eapply did_co_ok.
  - destruct (coordinator_Detach ctx state c) as [r c'] eqn:E.
    destruct (Detach_run _ _ _ _ _ E Hl) as (evs & Hd & _). by eapply did_co_ok.
  - destruct (coordinator_DetachStale ctx previous current c) as [r c'] eqn:E.
    destruct (DetachStale_run _ _ _ _ _ _ E Hl) as (evs & (Hd & _) & _). by eapply did_co_ok.
  - unfold coordinator_Quiesce, with_supervisor. pose proof (law_quiesce_open ctx (co_supervisor c)) as Ho.
    pose proof (law_quiesce ctx _ Hl) as Hl'. destruct (lc_Quiesce ctx (co_supervisor c)) as [r l]. cbn in *.
    destruct Hok. constructor; cbn; auto. by rewrite Ho.
  - unfold coordinator_Resume, with_supervisor. pose proof (law_resume_open ctx lease (co_supervisor c)) as Ho.
    pose proof (law_resume ctx lease _ Hl) as Hl'. destruct (lc_Resume ctx lease (co_supervisor c)) as [r l]. cbn in *.
    destruct Hok. constructor; cbn; auto. by rewrite Ho.
Qed.

Definition new_coordinator (l : L) (w : W) : Coordinator L W := mkCoordinator l OwnerUnknown None [] w.

Lemma co_reachable_ok l w c : lc_ok l -> lc_open l = None -> rtc co_step (new_coordinator l w) c -> co_ok c.
Proof.
  intros Hl Hn Hr. remember (new_coordinator l w) as c0 eqn:E0. assert (co_ok c0) as H0'.
  { subst. constructor; cbn; auto. }
  clear E0. induction Hr as [|x y z Hxy _ IH]; [done|]. by eapply IH, co_step_ok.
Qed.
End props.


(** One [Apply] of the coordinator.  Nothing happens before the activation
    gate has passed: otherwise the call fails and supervisor, owner and scope are
    as they were.  Whatever fails later, a plan with a rollback is rolled back
    exactly once if its builder was not called, and never if it was.  A
    successful apply of a state without FakeTCP has stopped the runtime,
    recovered and applied the baseline with nothing open, and leaves the baseline
    as the owner; of a state with FakeTCP, it has planned, detached the baseline
    (unless the runtime was the owner) and ensured the runtime, which is open and
    the owner; in both cases the scope is bound. *)
Theorem coordinator_apply {L W} `{LifecycleLaws L} `{CoordinatorEnv W} ctx state (c : Coordinator L W) err c' :
  lc_ok (co_supervisor c) -> coordinator_Apply ctx state c = (err, c') ->
  exists evs, co_trace c' = co_trace c ++ evs /\
    ((evs = [] \/ evs = [CvActivation false]) /\ err <> None /\ co_supervisor c' = co_supervisor c /\
       co_owner c' = co_owner c /\ co_scope c' = co_scope c \/
     exists rest, evs = CvActivation true :: rest) /\
    rollbacks evs = (if existsb needs_rollback evs && negb (existsb claims_plan evs) then 1%nat else 0%nat) /\
    (err = None -> exists st, state = Some st /\ is_Some (co_scope c') /\
       if len (fakeTCPStateReferences st) =? 0
       then evs = [CvActivation true; CvStop] ++ recovery (W := W) ++ [CvApply None] /\
            co_owner c' = OwnerBaseline /\ lc_open (co_supervisor c') = None
       else exists rb b, evs = CvActivation true :: CvPlan rb ::
                ((if bool_decide (co_owner c = OwnerExperimental) then []
                  else recovery (W := W) ++ [CvDetach true (lc_open (co_supervisor c))]) ++ [CvEnsure b]) ++
                (if b || negb rb then [] else [CvRollback]) /\
            co_owner c' = OwnerExperimental /\ is_Some (lc_open (co_supervisor c'))).
Proof.
  intros Hl E. destruct (Apply_run _ _ _ _ _ E Hl) as (evs & (Hd & Hs & Hg) & Hok).
  exists evs. split; [by destruct Hd|]. split; [done|]. split; [done|].
  intros He. destruct (Hok He) as (st & Hst & Hsc & Hdone). exists st. by destruct (len _ =? 0).
Qed.

(** ** Runs *)

(** Collaborators that succeed; the contexts end as the list says, call by call. *)
Definition sample_scope : fakeTCPProductionScopeIdentity :=
  mkScope ScopeEmbedded EmbeddedObjectSource EmbeddedFakeTCPObjectSource
    EmbeddedFakeTCPLegacy515ObjectSource "/sys/fs/bpf/wg-mix" "/run/wg-mix" false.
Definition scheduled (w : list bool) : option error * list bool :=
  match w with
  | [] => (None, [])
  | b :: w => (if b then Some "context canceled" else None, w)
  end.
#[export] Instance scheduled_env : CoordinatorEnv (list bool) := {
  cx_err := scheduled;
  cx_validateActivation _ w := (None, w);
  cx_resolveScope w := (inl sample_scope, w);
  cx_plan _ w := (inl (Some (mkProductionPlan key_a true true)), w);
  cx_rollback w := (None, w);
  cx_has_recovery := true;
  cx_recoverClassic _ w := (None, w);
  cx_Apply _ w := (None, w);
  cx_Detach _ w := (None, w);
  cx_DetachStale _ _ w := (None, w)
}.
Definition plain_state : State := mkState 1 "tcx" "kfunc" [] [] [] [] [] [] [] [].
Definition faketcp_state : State :=
  mkState 2 "tcx" "kfunc" [] [] [] [] []
    [mkEgress 2 "ipv4" 7 51820 3 1 0 1 "encode" "faketcp" "" 0] [] [].

(** A baseline, then FakeTCP in its place. *)
Definition after_switch : Coordinator (Supervisor bool) (list bool) :=
  (coordinator_Apply true (Some faketcp_state)
     (coordinator_Apply true (Some plain_state) (new_coordinator (new_supervisor true) [])).2).2.
Lemma after_switch_reachable : rtc co_step (new_coordinator (new_supervisor true) []) after_switch.
Proof.
  unfold after_switch. set (c0 := new_coordinator _ _).
  exact (rtc_r _ _ _ (rtc_once _ _ (step_apply c0 true (Some plain_state)))
           (step_apply (coordinator_Apply true (Some plain_state) c0).2 true (Some faketcp_state))).
Qed.
Lemma new_supervisor_ok : lc_ok (new_supervisor true).
Proof. exact (reachable_ok true _ (rtc_refl _ _)). Qed.


(** The start is cancelled before the builder: the plan is rolled back. *)
Lemma coordinator_apply_witness : exists c',
  coordinator_Apply true (Some faketcp_state)
    (new_coordinator (new_supervisor true) [false; false; false; true]) = (Some "context canceled", c') /\
  rollbacks (co_trace c') = 1%nat.
Proof.
  destruct (coordinator_Apply true (Some faketcp_state)
    (new_coordinator (new_supervisor true) [false; false; false; true])) as [r c'] eqn:E.
  exists c'. assert (r = Some "context canceled") as -> by (vm_compute in E; by injection E as <- _).
  split; [reflexivity|].
  destruct (coordinator_apply true (Some faketcp_state)
    (new_coordinator (new_supervisor true) [false; false; false; true]) (Some "context canceled") c'
    new_supervisor_ok E) as (evs & Ht & _ & Hr & _).
  assert (co_trace c' = [CvActivation true; CvPlan true; CvRecover; CvDetach true None; CvRollback]) as Hc
    by (vm_compute in E; by injection E as <-).
  rewrite Hc in Ht |- *. cbn in Ht. subst evs. exact Hr.
Defined.

(** A re-apply of FakeTCP cancelled after its check of the owner forgets that the
    runtime is the owner, although it is open; the next apply then detaches the
    baseline next to the live runtime. *)
Theorem cancelled_reapply_forgets_owner :
  let c1 := (coordinator_Apply true (Some faketcp_state)
               (new_coordinator (new_supervisor true) [false; false; false; false; false; false; false; true])).2 in
  let '(err, c2) := coordinator_Apply true (Some faketcp_state) c1 in
  let '(err', c3) := coordinator_Apply true (Some faketcp_state) c2 in
  co_owner c1 = OwnerExperimental /\ err = Some "context canceled" /\ co_owner c2 = OwnerNone /\
  lc_open (co_supervisor c2) = Some 1 /\ err' = None /\ CvDetach true (Some 1) ∈ co_trace c3.
Proof. vm_compute. split_and!; try reflexivity. repeat (left || right). Qed.
