(* ===== verification/Guard.v ===== *)
(** * The startup guard (internal/guard/nft.go, executor.go, ownership.go,
    outcome.go, project_table_preflight.go, disabled.go): the nftables rules that
    drop managed traffic while the dataplane is replaced, and the executor that
    owns one table.

    nft and netlink are the class [GuardKernel]: the commands the executor runs,
    with their decoded output, and the durable owner record.  A script is the
    list of its lines; [render] is the text handed to nft. *)
From Stdlib Require Import ZArith Lia Ascii.
From stdpp Require Import base option list gmap strings numbers sorting pretty.
From S2P Require Import Prelude Paths Config Profile Token Control.

(** ** Strings *)

Fixpoint str_drop (n : nat) (s : string) : string :=
  match n, s with
  | O, _ => s
  | S n, String _ s => str_drop n s
  | S _, EmptyString => EmptyString
  end.
(** [strings.Count]: occurrences that do not overlap; [skip] is what is left of
    the last one. *)
Fixpoint count_from (skip : nat) (sep s : string) : nat :=
  match s with
  | EmptyString => 0
  | String _ s' =>
      match skip with
      | S skip => count_from skip sep s'
      | O => if String.prefix sep s then S (count_from (String.length sep - 1) sep s')
             else count_from 0 sep s'
      end
  end.
Definition strings_Count (s sep : string) : nat := count_from 0 sep s.
(** [strings.Replace(s, old, new, 1)]. *)
Fixpoint replace_first (old new s : string) : string :=
  match s with
  | EmptyString => EmptyString
  | String c s' => if String.prefix old s then new +:+ str_drop (String.length old) s
                   else String c (replace_first old new s')
  end.

Definition ascii_of_Z (z : Z) : ascii := ascii_of_N (Z.to_N z).
Definition string_of_bytes (l : list Z) : string := String.string_of_list_ascii (map ascii_of_Z l).
(** [%08x] and [%d]. *)
Definition fmt_08x (v : Z) : string := string_of_bytes (hex08 v).
Definition fmt_d (v : Z) : string := pretty v.

(** ** Outcomes *)

Inductive Observation := ObservationUnchanged | ObservationActive | ObservationAbsent | ObservationUnknown.
#[export] Instance Observation_eq_dec : EqDecision Observation.
Proof. solve_decision. Defined.

Record Outcome := mkOutcome {
  oc_Observation : Observation; oc_Mutated : bool; oc_Warning : option error
}.
Definition observed (o : Observation) : Outcome := mkOutcome o false None.
Definition unchangedOutcome : Outcome := observed ObservationUnchanged.
Definition unknownOutcome : Outcome := observed ObservationUnknown.
Definition mutated (o : Outcome) : Outcome := mkOutcome (oc_Observation o) true (oc_Warning o).

(** ** Plans *)

Definition TableName : string := "wg_mix_ebpf_guard".
Record NftPlan := mkPlan { np_Table : string; np_Rules : list string }.

Definition uniqueFwmarks (wgs : list WireGuardState) (additional : list Z) : list Z :=
  merge_sort Z.le (elements (list_to_set (filter (fun mark => mark <> 0)
    (flat_map (fun wg => [ws_ConfigFwMark wg; ws_RuntimeFirewallMark wg]) wgs ++ additional)) : gset Z)).

Definition egress_rule_text (table : string) (mark : Z) : string :=
  "add rule inet " +:+ table +:+ " output meta l4proto udp meta mark 0x" +:+ fmt_08x mark +:+
  " counter drop comment " +:+ String "034" ("wg-mix-ebpf startup egress guard" +:+ String "034" EmptyString).
Definition udp_rule_text (table : string) (port : Z) : string :=
  "add rule inet " +:+ table +:+ " input udp dport " +:+ fmt_d port +:+
  " counter drop comment " +:+ String "034" ("wg-mix-ebpf startup ingress guard" +:+ String "034" EmptyString).
Definition tcp_rule_text (table : string) (port : Z) : string :=
  "add rule inet " +:+ table +:+ " input tcp dport " +:+ fmt_d port +:+
  " counter drop comment " +:+ String "034" ("wg-mix-ebpf faketcp startup ingress guard" +:+ String "034" EmptyString).

Definition listener_rules (wg : WireGuardState) : list string :=
  if ws_ConfigListenPort wg =? 0 then []
  else udp_rule_text TableName (ws_ConfigListenPort wg) ::
       (if String.eqb (ws_TransportMode wg) "faketcp"
        then [tcp_rule_text TableName (ws_ConfigListenPort wg)] else []).

Definition BuildNftPlan (st : State) (additionalFwmarks : list Z) : NftPlan :=
  mkPlan TableName (merge_sort string_leb
    (map (egress_rule_text TableName) (uniqueFwmarks (st_WireGuards st) additionalFwmarks) ++
     flat_map listener_rules (st_WireGuards st))).

(** ** The owner record *)

Record ownerRecord := mkOwner {
  or_Version : Z;
  or_InstallationID : string;
  or_StateDir : string;
  or_StateDirDevice : Z;
  or_StateDirInode : Z;
  or_Table : string;
  or_Marker : string
}.
#[export] Instance ownerRecord_eq_dec : EqDecision ownerRecord.
Proof. solve_decision. Defined.

Definition ownerRecordVersion : Z := 2.
Definition ownerMarkerPrefix : string := "wg-mix-ebpf-guard-v2:".
Definition ownerTokenBytes : Z := 32.
Definition ownedTableTokenHex : nat := 32.

Definition str_len (s : string) : Z := Z.of_nat (String.length s).
(** The checks of a lowercase identity: [strings.ToLower] leaves it alone and
    [hex.DecodeString] accepts it. *)
Definition lower_hex_digit (c : ascii) : bool :=
  let n := Z.of_N (N_of_ascii c) in ((48 <=? n) && (n <=? 57)) || ((97 <=? n) && (n <=? 102)).
Definition lower_hex (s : string) : bool := forallb lower_hex_digit (String.list_ascii_of_string s).

Definition ownedTableName (installationID : string) : string :=
  TableName +:+ "_" +:+ String.substring 0 ownedTableTokenHex installationID.
Definition ownedTableMarker (installationID : string) : string := ownerMarkerPrefix +:+ installationID.

Definition validateSelf (r : ownerRecord) : option error :=
  if negb (or_Version r =? ownerRecordVersion) then Some "unsupported guard owner record version"
  else if negb (str_len (or_InstallationID r) =? ownerTokenBytes * 2) || negb (lower_hex (or_InstallationID r))
  then Some "guard installation_id must be lowercase 256-bit hex"
  else if negb (path_IsAbs (or_StateDir r)) || negb (String.eqb (path_Clean (or_StateDir r)) (or_StateDir r)) ||
          String.eqb (or_StateDir r) "/"
  then Some "guard owner record state_dir is not a safe absolute path"
  else if or_StateDirInode r =? 0 then Some "guard owner record state_dir_inode must be non-zero"
  else if negb (String.eqb (or_Table r) (ownedTableName (or_InstallationID r)))
  then Some "guard owner record table does not match installation identity"
  else if negb (String.eqb (or_Marker r) (ownedTableMarker (or_InstallationID r)))
  then Some "guard owner record marker does not match installation identity"
  else None.

(** ** Scripts *)

Inductive nft_line :=
| LDeleteTable (handle : Z)
| LCreateTable (table comment : string)
| LAddChain (table chain : string)
| LRule (text : string).

Definition render_line (l : nft_line) : string :=
  match l with
  | LDeleteTable handle => "delete table inet handle " +:+ fmt_d handle
  | LCreateTable table comment =>
      "create table inet " +:+ table +:+ " { comment " +:+ String "034" (comment +:+ String "034" "; }")
  | LAddChain table chain =>
      "add chain inet " +:+ table +:+ " " +:+ chain +:+ " { type filter hook " +:+ chain +:+
      " priority -300; policy accept; }"
  | LRule text => text
  end.
Definition render (script : list nft_line) : string :=
  String.concat newline (map render_line script) +:+ newline.

Definition needle (table : string) : string := " " +:+ table +:+ " ".

Fixpoint owned_rules (p : NftPlan) (owner : ownerRecord) (rules : list string) : list nft_line + error :=
  match rules with
  | [] => inl []
  | rule :: rules =>
      if negb (Nat.eqb (strings_Count rule (needle (np_Table p))) 1)
      then inr "guard rule does not contain exactly one logical table reference"
      else match owned_rules p owner rules with
           | inl lines => inl (LRule (replace_first (needle (np_Table p)) (needle (or_Table owner)) rule) :: lines)
           | inr err => inr err
           end
  end.
Definition ownedCreateScript (p : NftPlan) (owner : ownerRecord) : list nft_line + error :=
  if negb (String.eqb (np_Table p) TableName) then inr "guard plan table is not the logical table"
  else match validateSelf owner with
  | Some err => inr err
  | None =>
      match owned_rules p owner (np_Rules p) with
      | inr err => inr err
      | inl lines => inl ([LCreateTable (or_Table owner) (or_Marker owner);
                           LAddChain (or_Table owner) "output"; LAddChain (or_Table owner) "input"] ++ lines)
      end
  end.
Definition cleanupHandleScript (handle : Z) : list nft_line := [LDeleteTable handle].
Definition ownedReplacementScript (p : NftPlan) (owner : ownerRecord) (handle : Z) : list nft_line + error :=
  if handle =? 0 then inr "guard table handle must be non-zero"
  else match ownedCreateScript p owner with
       | inr err => inr err
       | inl create => inl (cleanupHandleScript handle ++ create)
       end.

(** ** The executor *)

Record tableIdentity := mkIdentity { ti_Exists : bool; ti_Handle : Z; ti_Comment : string }.
Definition no_table : tableIdentity := mkIdentity false 0 "".

(** The open state directory of the installation. *)
Record stateDirectory := mkStateDirectory { sd_path : string; sd_device : Z; sd_inode : Z }.

Definition owner_validate (r : ownerRecord) (dir : stateDirectory) : option error :=
  match validateSelf r with
  | Some err => Some err
  | None =>
      if negb (String.eqb (or_StateDir r) (sd_path dir))
      then Some "guard owner record state_dir does not match"
      else if negb (or_StateDirDevice r =? sd_device dir) || negb (or_StateDirInode r =? sd_inode dir)
      then Some "guard owner record state directory identity does not match"
      else None
  end.

(** [hex.EncodeToString]. *)
Definition hex_encode (l : list Z) : string :=
  string_of_bytes (flat_map (fun b => [hex_digit (b / 16); hex_digit (b mod 16)]) l).
Definition new_owner (dir : stateDirectory) (installationID : string) : ownerRecord :=
  mkOwner ownerRecordVersion installationID (sd_path dir) (sd_device dir) (sd_inode dir)
    (ownedTableName installationID) (ownedTableMarker installationID).

(** What running a command can give: decoded output, output that does not decode,
    or a failed command. *)
Inductive command (A : Type) :=
| Output (a : A)
| Garbled (err : error)
| Failed (err : error).
Arguments Output {A}.
Arguments Garbled {A}.
Arguments Failed {A}.

Class GuardKernel (W : Type) := {
  gk_run : list nft_line -> W -> option error * W;
  (** [nft -j -a list table inet t]: the one entry of the table. *)
  gk_list_table : string -> W -> command tableIdentity * W;
  (** [nft -j list tables] and the netlink dump: family and name of each table. *)
  gk_list_tables : W -> command (list (string * string)) * W;
  gk_netlink : W -> (list (string * string) + error) * W;
  gk_ctx : W -> option error * W;
  (** The state directory ([None]: it does not exist), closing it, the refusal of
      a legacy record, the decoded owner record file ([None]: no file), random
      bytes, and the publication of a record ([false]: one exists already). *)
  gk_openStateDirectory : bool -> W -> (option stateDirectory + error) * W;
  gk_close : W -> option error * W;
  gk_rejectLegacyOwnerRecord : W -> option error * W;
  gk_readOwnerRecord : W -> (option ownerRecord + error) * W;
  gk_random : W -> (list Z + error) * W;
  gk_publishOwnerRecord : ownerRecord -> W -> (bool + error) * W
}.

Definition isProjectTableName (name : string) : bool :=
  String.eqb name TableName || String.prefix (TableName +:+ "_") name.

(** The project's tables of a decoded [nft] inventory; [seen] are those before. *)
Fixpoint inventory (seen : list string) (l : list (string * string)) : list string + error :=
  match l with
  | [] => inl (merge_sort string_leb (rev seen))
  | (family, name) :: l =>
      if str_empty family || str_empty name then inr "nft table inventory item has an empty family or name"
      else if negb (String.eqb family "inet") || negb (isProjectTableName name) then inventory seen l
      else if bool_decide (name ∈ seen) then inr "nft table inventory contains duplicate inet table"
      else inventory (name :: seen) l
  end.
(** The netlink inventory also refuses duplicates of other tables. *)
Fixpoint netlink_inventory (seen : list (string * string)) (project : list string)
    (l : list (string * string)) : list string + error :=
  match l with
  | [] => inl (merge_sort string_leb (rev project))
  | (family, name) :: l =>
      if str_empty family || str_empty name then inr "table has empty family or name"
      else if bool_decide ((family, name) ∈ seen) then inr "duplicate table"
      else netlink_inventory ((family, name) :: seen)
             (if String.eqb family "inet" && isProjectTableName name then name :: project else project) l
  end.

Section executor.
Context {W : Type} `{GuardKernel W}.

(** *** Ownership *)

(** [loadOwnerRecord]: the record of the file, validated. *)
Definition loadOwnerRecord (dir : stateDirectory) (w : W) : (option ownerRecord + error) * W :=
  let '(r, w) := gk_readOwnerRecord w in
  (match r with
   | inl (Some record) =>
       match owner_validate record dir with
       | Some err => inr ("parse guard owner record: " +:+ err)
       | None => inl (Some record)
       end
   | r => r
   end, w).

(** The deferred close of the state directory: its error is reported only if
    there is no other. *)
Definition closing {A} (r : (A + error) * W) : (A + error) * W :=
  let '(r, w) := r in
  let '(closeErr, w) := gk_close w in
  (match r, closeErr with
   | inl _, Some err => inr ("close guard state directory: " +:+ err)
   | r, _ => r
   end, w).

Definition loadOwnerIfPresent (w : W) : (option ownerRecord + error) * W :=
  let '(dir, w) := gk_openStateDirectory false w in
  match dir with
  | inr err => (inr err, w)
  | inl None => (inl None, w)
  | inl (Some dir) =>
      closing (let '(err, w) := gk_rejectLegacyOwnerRecord w in
               match err with Some err => (inr err, w) | None => loadOwnerRecord dir w end)
  end.

(** A new record, published and read back; the flag tells that it is new. *)
Definition create_owner (dir : stateDirectory) (w : W) : (ownerRecord * bool + error) * W :=
  let '(token, w) := gk_random w in
  match token with
  | inr err => (inr ("generate guard installation identity: " +:+ err), w)
  | inl token =>
      let record := new_owner dir (hex_encode token) in
      let '(published, w) := gk_publishOwnerRecord record w in
      match published with
      | inr err => (inr err, w)
      | inl published =>
          let '(r, w) := loadOwnerRecord dir w in
          (match r with
           | inr err => inr (if published then "load newly published guard owner record: " +:+ err else err)
           | inl None => inr "guard owner record does not exist"
           | inl (Some persisted) =>
               if negb published then inl (persisted, false)
               else if negb (bool_decide (persisted = record))
               then inr "newly published guard owner record changed unexpectedly"
               else inl (persisted, true)
           end, w)
      end
  end.
Definition loadOrCreateOwner (w : W) : (ownerRecord * bool + error) * W :=
  let '(dir, w) := gk_openStateDirectory true w in
  match dir with
  | inr err => (inr err, w)
  | inl None => (inr "guard state directory does not exist", w)
  | inl (Some dir) =>
      closing (let '(err, w) := gk_rejectLegacyOwnerRecord w in
               match err with
               | Some err => (inr err, w)
               | None =>
                   let '(r, w) := loadOwnerRecord dir w in
                   match r with
                   | inr err => (inr err, w)
                   | inl (Some record) => (inl (record, false), w)
                   | inl None => create_owner dir w
                   end
               end)
  end.

(** *** Inspection *)

Definition listProjectTables (w : W) : (list string + error) * W :=
  let '(err, w) := gk_ctx w in
  match err with
  | Some err => (inr err, w)
  | None =>
      let '(tables, w) := gk_netlink w in
      match tables with
      | inr err => (inr err, w)
      | inl tables =>
          let '(err, w) := gk_ctx w in
          match err with
          | Some err => (inr err, w)
          | None => (netlink_inventory [] [] tables, w)
          end
      end
  end.

(** [ProjectTablePreflight.Check], the disabled executor's only operation. *)
Definition preflight_Check (w : W) : (Outcome * option error) * W :=
  let '(tables, w) := listProjectTables w in
  (match tables with
   | inr err => (unknownOutcome, Some ("inventory disabled startup guard: " +:+ err))
   | inl [] => (observed ObservationAbsent, None)
   | inl _ => (unknownOutcome, Some "inventory disabled startup guard: inet project guard tables exist")
   end, w).

Definition projectTables (w : W) : (list string + error) * W :=
  let '(out, w) := gk_list_tables w in
  (match out with
   | Output tables => inventory [] tables
   | Garbled err => inr err
   | Failed err => inr err
   end, w).

Definition resolveFailedTableInspection (table : string) (allowOtherProjectTables : bool)
    (commandErr : error) (w : W) : (tableIdentity + error) * W :=
  let '(tables, w) := listProjectTables w in
  (match tables with
   | inr err => inr (commandErr +:+ newline +:+ "resolve failed nft inspection: " +:+ err)
   | inl tables =>
       if bool_decide (table ∈ tables)
       then inr ("read-only netlink inventory confirms inet project table exists: " +:+ commandErr)
       else if negb allowOtherProjectTables &&
               negb (len (filter (fun t => t <> table) tables) =? 0)
       then inr ("read-only netlink inventory confirms inet table is absent but conflicting project tables exist: "
                 +:+ commandErr)
       else inl no_table
   end, w).
Definition inspectWithInventory (table : string) (allowOtherProjectTables : bool) (w : W)
    : (tableIdentity + error) * W :=
  let '(out, w) := gk_list_table table w in
  match out with
  | Output ident => (inl ident, w)
  | Garbled err => (inr err, w)
  | Failed err => resolveFailedTableInspection table allowOtherProjectTables err w
  end.
Definition inspectLegacy : W -> (tableIdentity + error) * W := inspectWithInventory TableName true.
Definition inspect (table : string) : W -> (tableIdentity + error) * W := inspectWithInventory table false.

Definition requireOwnedTable (owner : ownerRecord) (ident : tableIdentity) : option error :=
  if negb (ti_Exists ident) then Some "startup guard table is absent"
  else if ti_Handle ident =? 0 then Some "startup guard table has no stable handle"
  else if negb (String.eqb (ti_Comment ident) (or_Marker owner))
  then Some "startup guard table ownership marker does not match the durable owner record"
  else None.

Definition sum_error {A} (prefix : error) (r : A + error) : option error :=
  match r with inl _ => None | inr err => Some (prefix +:+ err) end.

Definition observeOwnedState (owner : ownerRecord) (w : W)
    : (Outcome * tableIdentity * option error) * W :=
  let '(r, w) := inspect (or_Table owner) w in
  let '(t, w) := projectTables w in
  (match r, t with
   | inl ident, inl tables =>
       if ti_Exists ident then
         match requireOwnedTable owner ident with
         | Some err => (unknownOutcome, ident, Some ("verify exact startup guard ownership: " +:+ err))
         | None => if negb (bool_decide (tables = [or_Table owner]))
                   then (unknownOutcome, ident, Some "owned startup guard table is active but the inventory differs")
                   else (observed ObservationActive, ident, None)
         end
       else if negb (len tables =? 0)
       then (unknownOutcome, ident, Some "owned startup guard table is absent but the inventory is not empty")
       else (observed ObservationAbsent, ident, None)
   | _, _ => (unknownOutcome, no_table,
              errors_Join (sum_error "inspect exact owned startup guard table: " r)
                (sum_error "inventory complete project startup guard tables: " t))
   end, w).

Definition requireProjectTablePrestate (owner : option ownerRecord) (w : W) : option error * W :=
  let '(t, w) := projectTables w in
  (match t, owner with
   | inr err, _ => Some ("inventory startup guard tables before mutation: " +:+ err)
   | inl [], _ => None
   | inl tables, Some owner =>
       if bool_decide (tables = [or_Table owner]) then None
       else Some "project startup guard tables do not match v2 owner table"
   | inl _, None => Some "project startup guard tables exist without a v2 owner record"
   end, w).

Definition verifyAppliedOwner (owner : ownerRecord) (previousHandle : Z) (w : W)
    : (Outcome * option error) * W :=
  let '((outcome, ident, err), w) := observeOwnedState owner w in
  let outcome := mutated outcome in
  (match err with
   | Some err => (outcome, Some ("verify applied startup guard: " +:+ err))
   | None =>
       if negb (bool_decide (oc_Observation outcome = ObservationActive))
       then (outcome, Some "verify applied startup guard: startup guard table is absent")
       else if negb (previousHandle =? 0) && (ti_Handle ident =? previousHandle)
       then (outcome, Some "startup guard replacement retained table handle")
       else (outcome, None)
   end, w).
Definition observeApplyFailure (owner : ownerRecord) (mutationErr : error) (w : W)
    : (Outcome * option error) * W :=
  let '((outcome, _, err), w) := observeOwnedState owner w in
  ((mutated outcome, errors_Join (Some mutationErr)
      ((fun e => "observe startup guard after failed apply command: " +:+ e) <$> err)), w).

(** Runs a script that makes the table, and verifies it. *)
Definition run_and_verify (owner : ownerRecord) (what : error) (previousHandle : Z)
    (script : list nft_line) (w : W) : (Outcome * option error) * W :=
  let '(err, w) := gk_run script w in
  match err with
  | Some err => observeApplyFailure owner (what +:+ err) w
  | None => verifyAppliedOwner owner previousHandle w
  end.

(** [Apply] once the owner is known. *)
Definition apply_owned (plan : NftPlan) (owner : ownerRecord) (fresh : bool) (w : W)
    : (Outcome * option error) * W :=
  match ownedCreateScript plan owner with
  | inr err => ((unchangedOutcome, Some ("build owned startup guard: " +:+ err)), w)
  | inl createScript =>
      if fresh then
        run_and_verify owner "create startup guard for new installation identity: " 0 createScript w
      else
        let '(r, w) := inspect (or_Table owner) w in
        match r with
        | inr err => ((unchangedOutcome, Some ("inspect startup guard ownership: " +:+ err)), w)
        | inl ident =>
            if negb (ti_Exists ident) then
              run_and_verify owner "create missing owned startup guard: " 0 createScript w
            else match requireOwnedTable owner ident with
            | Some err => ((unchangedOutcome, Some err), w)
            | None =>
                match ownedReplacementScript plan owner (ti_Handle ident) with
                | inr err => ((unchangedOutcome, Some ("build owned startup guard replacement: " +:+ err)), w)
                | inl replacement =>
                    run_and_verify owner "replace owned startup guard atomically by handle: "
                      (ti_Handle ident) replacement w
                end
            end
        end
  end.

Definition guard_Apply (plan : NftPlan) (w : W) : (Outcome * option error) * W :=
  let '(legacy, w) := inspectLegacy w in
  match legacy with
  | inr err => ((unchangedOutcome, Some ("inspect legacy startup guard table: " +:+ err)), w)
  | inl legacy =>
      if ti_Exists legacy
      then ((unchangedOutcome, Some "legacy startup guard table exists without instance ownership"), w)
      else
        let '(r, w) := loadOwnerIfPresent w in
        match r with
        | inr err => ((unchangedOutcome, Some ("load guard ownership: " +:+ err)), w)
        | inl present =>
            let '(err, w) := requireProjectTablePrestate present w in
            match err with
            | Some err => ((unchangedOutcome, Some err), w)
            | None =>
                match present with
                | Some owner => apply_owned plan owner false w
                | None =>
                    let '(r, w) := loadOrCreateOwner w in
                    match r with
                    | inr err => ((unchangedOutcome, Some ("create guard ownership: " +:+ err)), w)
                    | inl (owner, fresh) => apply_owned plan owner fresh w
                    end
                end
            end
        end
  end.

(** [Cleanup] of an existing owned table. *)
Definition cleanup_table (owner : ownerRecord) (ident : tableIdentity) (w : W)
    : (Outcome * option error) * W :=
  let '(runErr, w) := gk_run (cleanupHandleScript (ti_Handle ident)) w in
  let mutationErr := (fun e => "delete owned startup guard by handle: " +:+ e) <$> runErr in
  let '((outcome, _, err), w) := observeOwnedState owner w in
  let outcome := mutated outcome in
  let observationErr := (fun e => "verify startup guard cleanup: " +:+ e) <$> err in
  (match mutationErr with
   | Some mutationErr =>
       if bool_decide (observationErr = None) && bool_decide (oc_Observation outcome = ObservationAbsent)
       then (mkOutcome (oc_Observation outcome) true
               (Some ("startup guard is absent after the failed cleanup command; preserving command warning: "
                      +:+ mutationErr)), None)
       else (outcome, errors_Join (Some mutationErr) observationErr)
   | None =>
       match observationErr with
       | Some err => (outcome, Some err)
       | None =>
           if negb (bool_decide (oc_Observation outcome = ObservationAbsent))
           then (outcome, Some "startup guard table still exists after handle-based cleanup")
           else (outcome, None)
       end
   end, w).

Definition cleanup_owned (owner : ownerRecord) (w : W) : (Outcome * option error) * W :=
  let '(r, w) := inspect (or_Table owner) w in
  match r with
  | inr err => ((unchangedOutcome, Some ("inspect startup guard ownership for cleanup: " +:+ err)), w)
  | inl ident =>
      if negb (ti_Exists ident) then
        let '((outcome, _, err), w) := observeOwnedState owner w in
        (match err with
         | Some err => (outcome, Some ("verify absent startup guard table: " +:+ err))
         | None => if negb (bool_decide (oc_Observation outcome = ObservationAbsent))
                   then (outcome, Some "verify absent startup guard table: owned startup guard is active")
                   else (outcome, None)
         end, w)
      else match requireOwnedTable owner ident with
      | Some err => ((unchangedOutcome, Some err), w)
      | None => cleanup_table owner ident w
      end
  end.

Definition guard_Cleanup (w : W) : (Outcome * option error) * W :=
  let '(legacy, w) := inspectLegacy w in
  match legacy with
  | inr err => ((unchangedOutcome, Some ("inspect legacy startup guard table for cleanup: " +:+ err)), w)
  | inl legacy =>
      if ti_Exists legacy
      then ((unchangedOutcome, Some "legacy startup guard table exists without instance ownership; manual migration is required before cleanup"), w)
      else
        let '(r, w) := loadOwnerIfPresent w in
        match r with
        | inr err => ((unchangedOutcome, Some ("load guard ownership for cleanup: " +:+ err)), w)
        | inl present =>
            let '(err, w) := requireProjectTablePrestate present w in
            match err with
            | Some err => ((unchangedOutcome, Some err), w)
            | None =>
                match present with
                | Some owner => cleanup_owned owner w
                | None =>
                    let '(t, w) := projectTables w in
                    (match t with
                     | inr err => (unknownOutcome, Some ("verify ownerless startup guard cleanup inventory: " +:+ err))
                     | inl [] => (observed ObservationAbsent, None)
                     | inl _ => (unknownOutcome, Some "verify ownerless startup guard cleanup inventory: project startup guard tables exist")
                     end, w)
                end
            end
        end
  end.

(** [Observe] without the legacy probe. *)
Definition observe_state (w : W) : (Outcome * option error) * W :=
  let '(r, w) := loadOwnerIfPresent w in
  match r with
  | inr err =>
      let '(t, w) := projectTables w in
      ((unknownOutcome, errors_Join (Some ("load guard ownership: " +:+ err))
                          (sum_error "inventory startup guard tables: " t)), w)
  | inl (Some owner) =>
      let '((outcome, _, err), w) := observeOwnedState owner w in ((outcome, err), w)
  | inl None =>
      let '(t, w) := projectTables w in
      (match t with
       | inr err => (unknownOutcome, Some ("inventory startup guard tables: " +:+ err))
       | inl [] => (observed ObservationAbsent, None)
       | inl _ => (unknownOutcome, Some "project startup guard tables exist without a v2 owner record")
       end, w)
  end.
Definition guard_Observe (w : W) : (Outcome * option error) * W :=
  let '(legacy, w) := inspectLegacy w in
  let '((outcome, err), w) := observe_state w in
  (match legacy with
   | inr legacyErr => (unknownOutcome,
       errors_Join err (Some ("inspect legacy startup guard table: " +:+ legacyErr)))
   | inl legacy =>
       if ti_Exists legacy
       then (unknownOutcome, errors_Join err (Some "legacy startup guard table exists without instance ownership"))
       else (outcome, err)
   end, w).
End executor.
