(* ===== verification/GuardProps.v ===== *)
(** * The startup guard tells the truth and touches only its own table

    [GuardKernelLaws] states what nft and netlink promise: listings report the
    tables, a script is one transaction, and nothing else changes the tables. *)
From Stdlib Require Import ZArith Lia Ascii.
From stdpp Require Import base option list gmap strings numbers sorting.
From S2P Require Import Prelude Paths Config Profile Token Control ControlProps Guard.

(** ** The kernel's inet tables *)

Record NfTable := mkNfTable { nt_handle : Z; nt_comment : string; nt_rules : list string }.
Abbreviation tables := (gmap string NfTable) (only parsing).

(** The table a rule line names: the word after [add rule inet]. *)
Fixpoint first_word (s : string) : string :=
  match s with
  | EmptyString => EmptyString
  | String c s => if Ascii.eqb c " " then EmptyString else String c (first_word s)
  end.
Definition rule_target (text : string) : string := first_word (str_drop 14 text).

(** One line of a transaction; a new table gets the handle [h]. *)
Definition line_exec (h : Z) (l : nft_line) (m : tables) : option tables :=
  match l with
  | LDeleteTable handle =>
      match filter (fun e => nt_handle e.2 = handle) (map_to_list m) with
      | (name, _) :: _ => Some (delete name m)
      | [] => None
      end
  | LCreateTable table comment =>
      match m !! table with
      | Some _ => None
      | None => Some (<[table := mkNfTable h comment []]> m)
      end
  | LAddChain table _ => match m !! table with Some _ => Some m | None => None end
  | LRule text =>
      match m !! rule_target text with
      | Some t => Some (<[rule_target text := mkNfTable (nt_handle t) (nt_comment t) (nt_rules t ++ [text])]> m)
      | None => None
      end
  end.
Fixpoint script_exec (h : Z) (script : list nft_line) (m : tables) : option tables :=
  match script with
  | [] => Some m
  | l :: script => line_exec h l m ≫= script_exec h script
  end.

Definition identity_of (t : NfTable) : tableIdentity := mkIdentity true (nt_handle t) (nt_comment t).
Definition handle_unused (h : Z) (m : tables) : Prop :=
  h <> 0 /\ forall n t, m !! n = Some t -> nt_handle t <> h.

Class GuardKernelLaws (W : Type) `{GuardKernel W} := {
  gk_tables : W -> tables;
  (** A transaction has no effect and fails, or has all its effects (a failure may
      be reported after the commit). *)
  law_run script w : let '(err, w') := gk_run script w in
    err <> None /\ gk_tables w' = gk_tables w \/
    exists h, handle_unused h (gk_tables w) /\ script_exec h script (gk_tables w) = Some (gk_tables w');
  law_list_table t w : let '(out, w') := gk_list_table t w in
    gk_tables w' = gk_tables w /\
    forall ident, out = Output ident -> exists tb, gk_tables w !! t = Some tb /\ ident = identity_of tb;
  law_list_tables w : let '(out, w') := gk_list_tables w in
    gk_tables w' = gk_tables w /\
    forall l, out = Output l -> forall n, ("inet", n) ∈ l <-> is_Some (gk_tables w !! n);
  law_netlink w : let '(out, w') := gk_netlink w in
    gk_tables w' = gk_tables w /\
    forall l, out = inl l -> forall n, ("inet", n) ∈ l <-> is_Some (gk_tables w !! n);
  law_ctx w : gk_tables (gk_ctx w).2 = gk_tables w;
  law_open create w : gk_tables (gk_openStateDirectory create w).2 = gk_tables w;
  law_close w : gk_tables (gk_close w).2 = gk_tables w;
  law_reject w : gk_tables (gk_rejectLegacyOwnerRecord w).2 = gk_tables w;
  law_read w : gk_tables (gk_readOwnerRecord w).2 = gk_tables w;
  law_random w : gk_tables (gk_random w).2 = gk_tables w;
  law_publish r w : gk_tables (gk_publishOwnerRecord r w).2 = gk_tables w
}.

(** Handles are distinct and non-zero. *)
Record wf_tables (m : tables) : Prop := {
  wf_nonzero : forall n t, m !! n = Some t -> nt_handle t <> 0;
  wf_distinct : forall n n' t t', m !! n = Some t -> m !! n' = Some t' ->
    nt_handle t = nt_handle t' -> n = n'
}.

Definition no_project (m : tables) : Prop := forall n, isProjectTableName n = true -> m !! n = None.
(** The one project table. *)
Definition sole_project (m : tables) (name : string) (t : NfTable) : Prop :=
  m !! name = Some t /\ isProjectTableName name = true /\
  forall n, isProjectTableName n = true -> is_Some (m !! n) -> n = name.

(** ** Transactions *)

Lemma delete_exec h m name t : wf_tables m -> m !! name = Some t ->
  line_exec h (LDeleteTable (nt_handle t)) m = Some (delete name m).
Proof.
  intros Hwf Hm. cbn.
  assert ((name, t) ∈ filter (fun e => nt_handle e.2 = nt_handle t) (map_to_list m)) as Hin.
  { apply list_elem_of_filter. split; [done|]. by apply elem_of_map_to_list. }
  destruct (filter _ _) as [|[n t'] rest] eqn:E; [by apply elem_of_nil in Hin|].
  assert ((n, t') ∈ filter (fun e => nt_handle e.2 = nt_handle t) (map_to_list m)) as Hin'.
  { rewrite E. by left. }
  apply list_elem_of_filter in Hin' as [Hh Hin']. apply elem_of_map_to_list in Hin'. cbn in Hh.
  by rewrite (wf_distinct _ Hwf _ _ _ _ Hin' Hm Hh).
Qed.

Lemma delete_wf m name : wf_tables m -> wf_tables (delete name m).
Proof.
  intros Hwf. constructor.
  - intros n t Hn. apply lookup_delete_Some in Hn as [_ Hn]. by eapply wf_nonzero.
  - intros n n' t t' Hn Hn'. apply lookup_delete_Some in Hn as [_ Hn], Hn' as [_ Hn'].
    by apply (wf_distinct _ Hwf).
Qed.
Lemma insert_wf m name t : wf_tables m -> nt_handle t <> 0 ->
  (forall n t', n <> name -> m !! n = Some t' -> nt_handle t' <> nt_handle t) -> wf_tables (<[name := t]> m).
Proof.
  intros Hwf H0 Hd. constructor.
  - intros n t' Hn. apply lookup_insert_Some in Hn as [[_ <-]|[_ Hn]]; [done|]. by eapply wf_nonzero.
  - intros n n' t1 t2 Hn Hn' Heq.
    apply lookup_insert_Some in Hn as [[<- <-]|[Hne Hn]], Hn' as [[<- <-]|[Hne' Hn']]; try done.
    + by destruct (Hd _ _ (not_eq_sym Hne') Hn').
    + by destruct (Hd _ _ (not_eq_sym Hne) Hn).
    + by apply (wf_distinct _ Hwf n n' t1 t2).
Qed.

(** Rule lines that name [name] append to it. *)
Lemma rules_exec h name texts : forall m t, m !! name = Some t -> Forall (fun r => rule_target r = name) texts ->
  script_exec h (map LRule texts) m =
  Some (<[name := mkNfTable (nt_handle t) (nt_comment t) (nt_rules t ++ texts)]> m).
Proof.
  induction texts as [|r texts IH]; intros m t Hm Ht; cbn [map script_exec line_exec].
  - rewrite app_nil_r. destruct t. by rewrite insert_id.
  - apply Forall_cons in Ht as [Hr Ht]. rewrite Hr, Hm. cbn [mbind option_bind].
    rewrite (IH _ _ (lookup_insert_eq _ _ _) Ht). cbn. by rewrite insert_insert_eq, <- app_assoc.
Qed.

(** ** The rules of a plan *)

Lemma sapp_assoc a b c : (a +:+ b) +:+ c = a +:+ (b +:+ c).
Proof. induction a as [|x a IH]; [done|]. exact (f_equal (String x) IH). Qed.

Definition no_space (s : string) : bool := forallb (fun c => negb (Ascii.eqb c " ")) (String.list_ascii_of_string s).
Lemma first_word_app s rest : no_space s = true -> first_word (s +:+ String " " rest) = s.
Proof.
  induction s as [|c s IH]; [done|]. intros [Hc Hs]%andb_prop. specialize (IH Hs).
  change (first_word (String c (s +:+ String " " rest)) = String c s). cbn [first_word].
  destruct (Ascii.eqb c " "); [done|]. by rewrite IH.
Qed.

Inductive plan_rule (table : string) : string -> Prop :=
| rule_egress mark : plan_rule table (egress_rule_text table mark)
| rule_udp port : plan_rule table (udp_rule_text table port)
| rule_tcp port : plan_rule table (tcp_rule_text table port).

Lemma plan_rules st marks : Forall (plan_rule TableName) (np_Rules (BuildNftPlan st marks)).
Proof.
  cbn. apply Forall_forall. intros r Hr. rewrite merge_sort_Permutation in Hr.
  apply elem_of_app in Hr as [Hr|Hr].
  - apply list_elem_of_fmap in Hr as (mark & -> & _). constructor.
  - apply list_elem_of_In, in_flat_map in Hr as (wg & _ & Hr). unfold listener_rules in Hr.
    destruct (_ =? 0); [done|]. destruct Hr as [<-|Hr]; [constructor|].
    destruct (String.eqb _ _); [|done]. destruct Hr as [<-|[]]. constructor.
Qed.

Lemma plan_rule_target table r : no_space table = true -> plan_rule table r -> rule_target r = table.
Proof. intros Ht Hr. unfold rule_target. destruct Hr; cbn; by apply first_word_app. Qed.

(** The rule for the owner's table. *)
Definition owned_rule (owner : ownerRecord) (r : string) : string :=
  replace_first (needle TableName) (needle (or_Table owner)) r.
Lemma needle_app table rest : "add rule inet" +:+ (needle table +:+ rest) = "add rule inet " +:+ (table +:+ (" " +:+ rest)).
Proof. unfold needle. by rewrite !sapp_assoc. Qed.
Lemma plan_rule_owned owner r : plan_rule TableName r -> plan_rule (or_Table owner) (owned_rule owner r).
Proof.
  intros Hr. unfold owned_rule. destruct Hr as [mark|port|port].
  - replace (replace_first _ _ _) with (egress_rule_text (or_Table owner) mark); [constructor|].
    symmetry. exact (needle_app (or_Table owner) _).
  - replace (replace_first _ _ _) with (udp_rule_text (or_Table owner) port); [constructor|].
    symmetry. exact (needle_app (or_Table owner) _).
  - replace (replace_first _ _ _) with (tcp_rule_text (or_Table owner) port); [constructor|].
    symmetry. exact (needle_app (or_Table owner) _).
Qed.

Lemma owned_rules_lines p owner rules lines : np_Table p = TableName -> owned_rules p owner rules = inl lines ->
  lines = map LRule (map (owned_rule owner) rules).
Proof.
  intros Hp. revert lines. induction rules as [|r rules IH]; intros lines; cbn; [by intros [= <-]|].
  destruct (negb _); [done|]. destruct (owned_rules p owner rules) as [l|]; [|done]. intros [= <-].
  by rewrite (IH l eq_refl), Hp.
Qed.

(** ** Owner records *)

Lemma hex_no_space s : lower_hex s = true -> no_space s = true.
Proof.
  unfold lower_hex, no_space. rewrite !forallb_forall. intros Hh c Hc. specialize (Hh c Hc).
  destruct (Ascii.eqb_spec c " "); [by subst|done].
Qed.
Lemma substring_forallb f n s : forallb f (String.list_ascii_of_string s) = true ->
  forallb f (String.list_ascii_of_string (String.substring 0 n s)) = true.
Proof.
  revert n. induction s as [|c s IH]; intros [|n]; try done. cbn. intros [Hc Hs]%andb_prop.
  by rewrite Hc, IH.
Qed.

Lemma prefix_app p s : String.prefix p (p +:+ s) = true.
Proof.
  induction p as [|c p IH]; [by destruct s|]. change (String.prefix (String c p) (String c (p +:+ s)) = true).
  cbn. by destruct (ascii_dec c c).
Qed.

Lemma validateSelf_inv r : validateSelf r = None ->
  no_space (or_Table r) = true /\ isProjectTableName (or_Table r) = true /\
  or_Table r <> TableName /\ or_Marker r = ownedTableMarker (or_InstallationID r).
Proof.
  unfold validateSelf. intros Hv. destruct (negb (or_Version r =? _)); [done|].
  destruct (negb _ || negb (lower_hex _)) eqn:Hh; [done|]. destruct (negb _ || _ || _); [done|].
  destruct (_ =? 0); [done|]. destruct (String.eqb_spec (or_Table r) (ownedTableName (or_InstallationID r))) as [->|];
    [|done]. destruct (String.eqb_spec (or_Marker r) (ownedTableMarker (or_InstallationID r))); [|done].
  apply orb_false_iff in Hh as [_ Hh]. apply negb_false_iff in Hh.
  pose proof (substring_forallb _ ownedTableTokenHex _ (hex_no_space _ Hh)) as Hs.
  unfold ownedTableName. split_and!; [exact Hs| |by apply String.eqb_neq|done]. apply orb_true_iff. right.
  exact (prefix_app (TableName +:+ "_") _).
Qed.

(** The owner's table, created. *)
Lemma create_exec p owner script h m m' : Forall (plan_rule TableName) (np_Rules p) ->
  ownedCreateScript p owner = inl script -> script_exec h script m = Some m' ->
  m !! or_Table owner = None /\
  m' = <[or_Table owner := mkNfTable h (or_Marker owner) (map (owned_rule owner) (np_Rules p))]> m.
Proof.
  unfold ownedCreateScript. intros Hr. destruct (String.eqb_spec (np_Table p) TableName) as [Hp|]; [|done].
  cbn [negb]. destruct (validateSelf owner) eqn:Hv; [done|]. destruct (validateSelf_inv _ Hv) as (Hns & _).
  destruct (owned_rules p owner (np_Rules p)) as [lines|] eqn:Hl; [|done]. intros [= <-].
  apply owned_rules_lines in Hl as ->; [|done]. cbn [app script_exec line_exec].
  destruct (m !! or_Table owner) eqn:Hm; [done|]. cbn [mbind option_bind]. rewrite lookup_insert_eq. cbn [mbind option_bind].
  rewrite lookup_insert_eq. cbn [mbind option_bind]. erewrite rules_exec; [|apply lookup_insert_eq|].
  - intros [= <-]. split; [done|]. cbn. by rewrite insert_insert_eq.
  - apply Forall_map. eapply Forall_impl; [exact Hr|]. intros r Hpr.
    by apply plan_rule_target, plan_rule_owned.
Qed.

(** ** Inventories *)

Lemma inventory_spec l : forall seen ts, inventory seen l = inl ts ->
  forall n, n ∈ ts <-> n ∈ seen \/ ("inet", n) ∈ l /\ isProjectTableName n = true.
Proof.
  induction l as [|[f n0] l IH]; intros seen ts; cbn [inventory].
  { intros [= <-] n. rewrite merge_sort_Permutation, elem_of_rev. split; [auto|]. by intros [?|[?%elem_of_nil _]]. }
  destruct (_ || _); [done|]. intros Hi n. rewrite elem_of_cons, pair_equal_spec.
  destruct (String.eqb_spec f "inet") as [->|Hf]; cbn [negb orb] in Hi; [|rewrite (IH _ _ Hi n); intuition congruence].
  destruct (isProjectTableName n0) eqn:Hp; cbn [negb] in Hi; [|rewrite (IH _ _ Hi n); intuition congruence].
  destruct (bool_decide _); [done|]. rewrite (IH _ _ Hi n), elem_of_cons.
  destruct (decide (n = n0)) as [->|]; intuition congruence.
Qed.
Lemma netlink_inventory_spec l : forall seen project ts, netlink_inventory seen project l = inl ts ->
  forall n, n ∈ ts <-> n ∈ project \/ ("inet", n) ∈ l /\ isProjectTableName n = true.
Proof.
  induction l as [|[f n0] l IH]; intros seen project ts; cbn [netlink_inventory].
  { intros [= <-] n. rewrite merge_sort_Permutation, elem_of_rev. split; [auto|]. by intros [?|[?%elem_of_nil _]]. }
  destruct (_ || _); [done|]. destruct (bool_decide _); [done|]. intros Hi n.
  rewrite (IH _ _ _ Hi n), elem_of_cons, pair_equal_spec.
  destruct (String.eqb_spec f "inet") as [->|Hf]; cbn [andb]; [|intuition congruence].
  destruct (isProjectTableName n0) eqn:Hp; rewrite ?elem_of_cons;
    destruct (decide (n = n0)) as [->|]; intuition congruence.
Qed.

Section executor.
Context {W : Type} `{GuardKernelLaws W}.
Implicit Types w : W.

Lemma listProjectTables_spec w r w' : listProjectTables w = (r, w') ->
  gk_tables w' = gk_tables w /\
  forall ts, r = inl ts -> forall n, n ∈ ts <-> isProjectTableName n = true /\ is_Some (gk_tables w !! n).
Proof.
  unfold listProjectTables. pose proof (law_ctx w) as H1. destruct (gk_ctx w) as [[e|] w1]; cbn in H1;
    [by intros [= <- <-]|].
  pose proof (law_netlink w1) as H2. destruct (gk_netlink w1) as [[l|e] w2]; [|destruct H2; intros [= <- <-]; split; [congruence|done]].
  destruct H2 as [H2 Hl]. pose proof (law_ctx w2) as H3. destruct (gk_ctx w2) as [[e|] w3]; cbn in H3; intros [= <- <-];
    (split; [congruence|]); intros ts; [done|]. intros Hi n. rewrite (netlink_inventory_spec _ _ _ _ Hi n), (Hl l eq_refl n), H1.
  split; [by intros [?%elem_of_nil|[? ?]]|by intros [? ?]; right].
Qed.

Lemma projectTables_spec w r w' : projectTables w = (r, w') ->
  gk_tables w' = gk_tables w /\
  forall ts, r = inl ts -> forall n, n ∈ ts <-> isProjectTableName n = true /\ is_Some (gk_tables w !! n).
Proof.
  unfold projectTables. pose proof (law_list_tables w) as H1. destruct (gk_list_tables w) as [out w1].
  destruct H1 as [H1 Hl]. intros [= <- <-]. split; [done|]. intros ts Hi. destruct out as [l|e|e]; [|done..].
  intros n. rewrite (inventory_spec _ _ _ Hi n), (Hl l eq_refl n).
  split; [by intros [?%elem_of_nil|[? ?]]|by intros [? ?]; right].
Qed.

Lemma inspect_spec table allow w r w' : isProjectTableName table = true ->
  inspectWithInventory table allow w = (r, w') ->
  gk_tables w' = gk_tables w /\
  forall ident, r = inl ident ->
    (exists t, gk_tables w !! table = Some t /\ ident = identity_of t) \/
    gk_tables w !! table = None /\ ident = no_table.
Proof.
  intros Hp. unfold inspectWithInventory. pose proof (law_list_table table w) as H1.
  destruct (gk_list_table table w) as [out w1]. destruct H1 as [H1 Ho]. destruct out as [ident|e|e].
  - intros [= <- <-]. split; [done|]. intros ident' [= <-]. left. by apply Ho.
  - intros [= <- <-]. split; [done|]. done.
  - unfold resolveFailedTableInspection. destruct (listProjectTables w1) as [ts w2] eqn:E.
    destruct (listProjectTables_spec _ _ _ E) as [H2 Hl]. intros [= <- <-]. split; [congruence|].
    intros ident. destruct ts as [ts|]; [|done]. specialize (Hl ts eq_refl). case_bool_decide as Ht; [done|].
    destruct (_ && _); [done|]. intros [= <-]. right. split; [|done].
    destruct (gk_tables w !! table) eqn:Hm; [|done]. exfalso. apply Ht, Hl. split; [done|]. by rewrite H1, Hm.
Qed.

(** *** Owner records *)

Lemma loadOwnerRecord_spec dir w r w' : loadOwnerRecord dir w = (r, w') ->
  gk_tables w' = gk_tables w /\ forall owner, r = inl (Some owner) -> validateSelf owner = None.
Proof.
  unfold loadOwnerRecord. pose proof (law_read w) as H1. destruct (gk_readOwnerRecord w) as [r1 w1]. cbn in H1.
  intros [= <- <-]. split; [done|]. intros owner. destruct r1 as [[rec|]|e]; [|done..].
  unfold owner_validate. destruct (validateSelf rec) eqn:Hv; [done|]. repeat case_match; try done. by intros [= <-].
Qed.
Lemma closing_spec {A} (r0 : (A + error) * W) r w' : closing r0 = (r, w') ->
  gk_tables w' = gk_tables r0.2 /\ forall a, r = inl a -> r0.1 = inl a.
Proof.
  unfold closing. destruct r0 as [r0 w0]. pose proof (law_close w0) as H1. destruct (gk_close w0) as [ce w1]. cbn in *.
  intros [= <- <-]. split; [done|]. intros a. by destruct r0, ce.
Qed.

Lemma loadOwnerIfPresent_spec w r w' : loadOwnerIfPresent w = (r, w') ->
  gk_tables w' = gk_tables w /\ forall owner, r = inl (Some owner) -> validateSelf owner = None.
Proof.
  unfold loadOwnerIfPresent. pose proof (law_open false w) as H1.
  destruct (gk_openStateDirectory false w) as [[[dir|]|e] w1]; cbn in H1; [|by intros [= <- <-]..].
  intros Hc. apply closing_spec in Hc as [H2 Hc]. pose proof (law_reject w1) as H3.
  destruct (gk_rejectLegacyOwnerRecord w1) as [[e|] w2]; cbn in *.
  - split; [congruence|]. intros owner Hr. by specialize (Hc _ Hr).
  - destruct (loadOwnerRecord dir w2) as [r2 w3] eqn:E. destruct (loadOwnerRecord_spec _ _ _ _ E) as [H4 Hv].
    cbn in *. split; [congruence|]. intros owner Hr. by apply Hv, Hc.
Qed.

Lemma loadOrCreateOwner_spec w r w' : loadOrCreateOwner w = (r, w') ->
  gk_tables w' = gk_tables w /\ forall owner fresh, r = inl (owner, fresh) -> validateSelf owner = None.
Proof.
  unfold loadOrCreateOwner. pose proof (law_open true w) as H1.
  destruct (gk_openStateDirectory true w) as [[[dir|]|e] w1]; cbn in H1; [|by intros [= <- <-]..].
  intros Hc. apply closing_spec in Hc as [H2 Hc]. pose proof (law_reject w1) as H3.
  destruct (gk_rejectLegacyOwnerRecord w1) as [[e|] w2]; cbn in *.
  { split; [congruence|]. intros owner fresh Hr. by specialize (Hc _ Hr). }
  destruct (loadOwnerRecord dir w2) as [[[rec|]|e] w3] eqn:E; destruct (loadOwnerRecord_spec _ _ _ _ E) as [H4 Hv]; cbn in *.
  - split; [congruence|]. intros owner fresh Hr. injection (Hc _ Hr) as -> _. by apply Hv.
  - unfold create_owner in *. pose proof (law_random w3) as H5. destruct (gk_random w3) as [[token|e] w4]; cbn in *.
    2:{ split; [congruence|]. intros owner fresh Hr. by specialize (Hc _ Hr). }
    pose proof (law_publish (new_owner dir (hex_encode token)) w4) as H6.
    destruct (gk_publishOwnerRecord _ w4) as [[published|e] w5]; cbn in *.
    2:{ split; [congruence|]. intros owner fresh Hr. by specialize (Hc _ Hr). }
    destruct (loadOwnerRecord dir w5) as [r6 w6] eqn:E6. destruct (loadOwnerRecord_spec _ _ _ _ E6) as [H7 Hv']. cbn in *.
    split; [congruence|]. intros owner fresh Hr. specialize (Hc _ Hr). destruct r6 as [[p|]|]; [|done..].
    destruct published; cbn in Hc; [|injection Hc as -> _; by apply Hv'].
    destruct (negb _); [done|]. injection Hc as -> _. by apply Hv'.
  - split; [congruence|]. intros owner fresh Hr. by specialize (Hc _ Hr).
Qed.

(** *** Observations *)

(** What an observation says about the tables. *)
Definition truthful (o : Observation) (m : tables) : Prop :=
  match o with
  | ObservationActive => exists name t, sole_project m name t
  | ObservationAbsent => no_project m
  | _ => True
  end.

Lemma observeOwned_spec owner w o ident err w' : validateSelf owner = None ->
  observeOwnedState owner w = ((o, ident, err), w') ->
  gk_tables w' = gk_tables w /\ oc_Mutated o = false /\
  match oc_Observation o with
  | ObservationActive => err = None /\ exists t, sole_project (gk_tables w) (or_Table owner) t /\
      ident = identity_of t /\ nt_comment t = or_Marker owner
  | ObservationAbsent => err = None /\ no_project (gk_tables w)
  | ObservationUnknown => err <> None
  | ObservationUnchanged => False
  end.
Proof.
  intros Hv. destruct (validateSelf_inv _ Hv) as (_ & Hp & _). unfold observeOwnedState.
  destruct (inspect (or_Table owner) w) as [r w1] eqn:E1. destruct (inspect_spec _ _ _ _ _ Hp E1) as [H1 Hi].
  destruct (projectTables w1) as [ts w2] eqn:E2. destruct (projectTables_spec _ _ _ E2) as [H2 Ht].
  intros [= Ho <-]. split; [congruence|]. rewrite H1 in Ht.
  destruct r as [id|e], ts as [ts|e']; cbn iota in Ho; try (injection Ho as <- <- <-; done).
  specialize (Ht ts eq_refl). destruct (Hi id eq_refl) as [(t & Hm & ->)|[Hm ->]]; cbn [identity_of no_table ti_Exists] in Ho.
  - destruct (requireOwnedTable owner _) eqn:Hr; [injection Ho as <- <- <-; done|].
    case_bool_decide as Hts; cbn in Ho; injection Ho as <- <- <-; [|done]. cbn. split_and!; [done..|].
    exists t. split; [|split; [done|]]; [split; [done|split; [done|]]|].
    + intros n Hn Hs. assert (n ∈ ts) as Hin by (by apply Ht). rewrite Hts in Hin. by apply list_elem_of_singleton in Hin.
    + unfold requireOwnedTable in Hr. cbn in Hr. destruct (_ =? 0); [done|].
      by destruct (String.eqb_spec (nt_comment t) (or_Marker owner)).
  - destruct (len ts =? 0) eqn:Hl; cbn in Ho; injection Ho as <- <- <-; [|done]. cbn. split_and!; [done..|].
    intros n Hn. destruct (gk_tables w !! n) eqn:Hs; [|done]. assert (n ∈ ts) as Hin by (apply Ht; split; [done|by rewrite Hs]).
    apply Z.eqb_eq in Hl. destruct ts; [by apply elem_of_nil in Hin|]. cbn in Hl. unfold len in Hl. cbn in Hl. lia.
Qed.

(** *** Mutations *)

(** Only project tables that carry the project's marker, and new ones, change. *)
Definition only_own (m m' : tables) : Prop := forall n, m' !! n = m !! n \/
  isProjectTableName n = true /\
  forall t, m !! n = Some t -> String.prefix ownerMarkerPrefix (nt_comment t) = true.

Record guard_post (m : tables) (o : Outcome) (m' : tables) : Prop := {
  gp_wf : wf_tables m';
  gp_own : only_own m m';
  gp_quiet : oc_Mutated o = false -> m' = m;
  gp_unchanged : oc_Observation o = ObservationUnchanged -> m' = m;
  gp_truth : truthful (oc_Observation o) m'
}.

(** The one project table is the owner's and holds the rules of the plan. *)
Definition loads (p : NftPlan) (m : tables) : Prop := exists owner t, validateSelf owner = None /\
  sole_project m (or_Table owner) t /\ nt_comment t = or_Marker owner /\
  nt_rules t = map (owned_rule owner) (np_Rules p).

Lemma only_own_refl m : only_own m m.
Proof. intros n. by left. Qed.
Lemma unchanged_post m o : wf_tables m -> truthful (oc_Observation o) m -> guard_post m o m.
Proof. intros Hwf Ht. constructor; [done|apply only_own_refl|done|done|done]. Qed.

Lemma insert_own m name t' : isProjectTableName name = true ->
  (forall t, m !! name = Some t -> String.prefix ownerMarkerPrefix (nt_comment t) = true) ->
  only_own m (<[name := t']> m).
Proof.
  intros Hp Hm n. destruct (decide (n = name)) as [->|]; [by right|]. left. by rewrite lookup_insert_ne.
Qed.

Lemma owner_marker owner : validateSelf owner = None -> String.prefix ownerMarkerPrefix (or_Marker owner) = true.
Proof. intros Hv. destruct (validateSelf_inv _ Hv) as (_ & _ & _ & ->). apply prefix_app. Qed.

(** A transaction whose effect is the owner's new table. *)
Lemma run_and_verify_spec plan owner what prev script w o err w' :
  wf_tables (gk_tables w) -> validateSelf owner = None ->
  (forall h m', script_exec h script (gk_tables w) = Some m' ->
     (forall t, gk_tables w !! or_Table owner = Some t -> nt_comment t = or_Marker owner) /\
     m' = <[or_Table owner :=
       mkNfTable h (or_Marker owner) (map (owned_rule owner) (np_Rules plan))]> (gk_tables w)) ->
  run_and_verify owner what prev script w = ((o, err), w') ->
  guard_post (gk_tables w) o (gk_tables w') /\
  (err = None -> oc_Observation o = ObservationActive /\ loads plan (gk_tables w')).
Proof.
  intros Hwf Hv Heff. destruct (validateSelf_inv _ Hv) as (_ & Hp & _). unfold run_and_verify.
  pose proof (law_run script w) as Hrun. destruct (gk_run script w) as [rerr w1].
  assert (wf_tables (gk_tables w1) /\ only_own (gk_tables w) (gk_tables w1)) as [Hwf1 Hown].
  { destruct Hrun as [[_ ->]|(h & [Hh0 Hh] & Hex)]; [split; [done|apply only_own_refl]|].
    apply Heff in Hex as [Hmark ->]. split; [apply insert_wf; [done|done|]; intros; by eapply Hh|].
    apply insert_own; [done|]. intros t Ht. rewrite (Hmark t Ht). by apply owner_marker. }
  assert (forall o ident oerr w2, observeOwnedState owner w1 = ((o, ident, oerr), w2) ->
    guard_post (gk_tables w) (mutated o) (gk_tables w2)) as Hpost.
  { intros o2 id2 oerr2 w2 E. destruct (observeOwned_spec _ _ _ _ _ _ Hv E) as (Heq & _ & Hobs).
    rewrite Heq. constructor; [done|done|done| |]; cbn; destruct (oc_Observation o2); cbn; try done.
    - destruct Hobs as (_ & t & Hs & _). by eexists _, _.
    - by destruct Hobs. }
  destruct rerr as [rerr|].
  - unfold observeApplyFailure. destruct (observeOwnedState owner w1) as [[[o2 id2] oerr] w2] eqn:E.
    intros [= <- <- <-]. split; [by eapply Hpost|]. by destruct oerr.
  - unfold verifyAppliedOwner. destruct (observeOwnedState owner w1) as [[[o2 id2] oerr] w2] eqn:E.
    pose proof (Hpost _ _ _ _ eq_refl) as Hpo. destruct (observeOwned_spec _ _ _ _ _ _ Hv E) as (Heq & _ & Hobs).
    destruct Hrun as [[? _]|(h & [Hh0 Hh] & Hex)]; [done|]. apply Heff in Hex as [_ Hex].
    destruct oerr as [oerr|]; [intros [= <- <- <-]; by split|].
    case_bool_decide as Ha; cbn [negb]; [|intros [= <- <- <-]; by split].
    destruct (_ && _); intros [= <- <- <-]; (split; [done|]); [done|]. intros _. split; [done|].
    cbn in Ha. rewrite Ha in Hobs. destruct Hobs as (_ & t & Hs & _ & Hc). exists owner, t.
    rewrite Heq. split_and!; [done|done|done|]. destruct Hs as [Hs _]. rewrite Hex, lookup_insert_eq in Hs.
    by injection Hs as <-.
Qed.

Lemma apply_owned_spec plan owner fresh w o err w' : Forall (plan_rule TableName) (np_Rules plan) ->
  wf_tables (gk_tables w) -> validateSelf owner = None ->
  apply_owned plan owner fresh w = ((o, err), w') ->
  guard_post (gk_tables w) o (gk_tables w') /\
  (err = None -> oc_Observation o = ObservationActive /\ loads plan (gk_tables w')).
Proof.
  intros Hr Hwf Hv. unfold apply_owned. destruct (validateSelf_inv _ Hv) as (_ & Hp & _).
  assert (forall (e : error) w1 o (err : option error) w', gk_tables w1 = gk_tables w -> ((unchangedOutcome, Some e), w1) = ((o, err), w') ->
    guard_post (gk_tables w) o (gk_tables w') /\
    (err = None -> oc_Observation o = ObservationActive /\ loads plan (gk_tables w'))) as Hfail.
  { intros e w1 o1 err1 w1' Heq [= <- <- <-]. rewrite Heq. split; [by apply unchanged_post|done]. }
  destruct (ownedCreateScript plan owner) as [create|e] eqn:Hc; [|by apply Hfail].
  assert (forall w1 what o err w', gk_tables w1 = gk_tables w -> gk_tables w !! or_Table owner = None ->
    run_and_verify owner what 0 create w1 = ((o, err), w') ->
    guard_post (gk_tables w) o (gk_tables w') /\
    (err = None -> oc_Observation o = ObservationActive /\ loads plan (gk_tables w'))) as Hcreate.
  { intros w1 what o1 err1 w1' Heq Hnone Hrun. rewrite <- Heq in *.
    eapply run_and_verify_spec; [done|done| |exact Hrun].
    intros h m' Hex. split; [by rewrite Hnone|]. by destruct (create_exec _ _ _ _ _ _ Hr Hc Hex). }
  destruct fresh.
  - intros Hrun. destruct (gk_tables w !! or_Table owner) eqn:Hm; [|by eapply Hcreate].
    eapply run_and_verify_spec; [done|done| |exact Hrun].
    intros h m' Hex. destruct (create_exec _ _ _ _ _ _ Hr Hc Hex) as [Hn _]. by rewrite Hm in Hn.
  - destruct (inspect (or_Table owner) w) as [r w1] eqn:E. destruct (inspect_spec _ _ _ _ _ Hp E) as [H1 Hi].
    destruct r as [ident|e]; [|by apply Hfail]. destruct (Hi ident eq_refl) as [(t & Hm & ->)|[Hm ->]]; cbn [ti_Exists identity_of no_table negb].
    2:{ by apply Hcreate. }
    destruct (requireOwnedTable owner _) as [e|] eqn:Hown; [by apply Hfail|].
    unfold ownedReplacementScript. cbn [ti_Handle]. destruct (_ =? 0); [by apply Hfail|]. rewrite Hc.
    rewrite <- H1 in *. intros Hrun. eapply run_and_verify_spec; [done|done| |exact Hrun]. intros h m' Hex. split.
    + intros t' Ht'. rewrite Hm in Ht'. injection Ht' as <-. unfold requireOwnedTable in Hown. cbn in Hown.
      destruct (_ =? 0); [done|]. by destruct (String.eqb_spec (nt_comment t) (or_Marker owner)).
    + cbn [cleanupHandleScript app script_exec] in Hex. rewrite (delete_exec _ _ _ _ Hwf Hm) in Hex.
      cbn [mbind option_bind] in Hex. destruct (create_exec _ _ _ _ _ _ Hr Hc Hex) as [_ ->].
      by rewrite insert_delete_eq.
Qed.

Lemma prestate_spec owner w err w' : requireProjectTablePrestate owner w = (err, w') ->
  gk_tables w' = gk_tables w /\ (err = None -> owner = None -> no_project (gk_tables w)).
Proof.
  unfold requireProjectTablePrestate. destruct (projectTables w) as [ts w1] eqn:E.
  destruct (projectTables_spec _ _ _ E) as [H1 Ht]. intros [= <- <-]. split; [done|]. intros He Ho. subst owner.
  destruct ts as [[|t ts]|]; try done. intros n Hn. destruct (gk_tables w !! n) eqn:Hm; [|done].
  exfalso. apply (not_elem_of_nil n), (Ht [] eq_refl). by rewrite Hm.
Qed.

Lemma legacy_spec w r w' : inspectLegacy w = (r, w') -> gk_tables w' = gk_tables w.
Proof. intros E. by destruct (inspect_spec TableName true w r w' eq_refl E). Qed.

Lemma guard_Apply_spec plan w o err w' : Forall (plan_rule TableName) (np_Rules plan) ->
  wf_tables (gk_tables w) -> guard_Apply plan w = ((o, err), w') ->
  guard_post (gk_tables w) o (gk_tables w') /\
  (err = None -> oc_Observation o = ObservationActive /\ loads plan (gk_tables w')).
Proof.
  intros Hr Hwf. unfold guard_Apply.
  assert (forall (e : error) w1 o (err : option error) w', gk_tables w1 = gk_tables w -> ((unchangedOutcome, Some e), w1) = ((o, err), w') ->
    guard_post (gk_tables w) o (gk_tables w') /\
    (err = None -> oc_Observation o = ObservationActive /\ loads plan (gk_tables w'))) as Hfail.
  { intros e w1 o1 err1 w1' Heq [= <- <- <-]. rewrite Heq. split; [by apply unchanged_post|done]. }
  destruct (inspectLegacy w) as [l w1] eqn:E1. pose proof (legacy_spec _ _ _ E1) as H1.
  destruct l as [l|e]; [|by apply Hfail]. destruct (ti_Exists l); [by apply Hfail|].
  destruct (loadOwnerIfPresent w1) as [r w2] eqn:E2. destruct (loadOwnerIfPresent_spec _ _ _ E2) as [H2 Hv].
  destruct r as [present|e]; [|apply Hfail; congruence].
  destruct (requireProjectTablePrestate present w2) as [perr w3] eqn:E3. destruct (prestate_spec _ _ _ _ E3) as [H3 _].
  destruct perr as [e|]; [apply Hfail; congruence|]. assert (gk_tables w3 = gk_tables w) as H4 by congruence.
  destruct present as [owner|].
  - rewrite <- H4 in *. apply apply_owned_spec; auto.
  - destruct (loadOrCreateOwner w3) as [r w4] eqn:E4. destruct (loadOrCreateOwner_spec _ _ _ E4) as [H5 Hv'].
    destruct r as [[owner fresh]|e]; [|apply Hfail; congruence].
    assert (gk_tables w4 = gk_tables w) as H6 by congruence. rewrite <- H6 in *. apply apply_owned_spec; eauto.
Qed.

Lemma delete_own m name : isProjectTableName name = true ->
  (forall t, m !! name = Some t -> String.prefix ownerMarkerPrefix (nt_comment t) = true) ->
  only_own m (delete name m).
Proof. intros Hp Hm n. destruct (decide (n = name)) as [->|]; [by right|]. left. by rewrite lookup_delete_ne. Qed.

Lemma cleanup_owned_spec owner w o err w' : wf_tables (gk_tables w) -> validateSelf owner = None ->
  cleanup_owned owner w = ((o, err), w') ->
  guard_post (gk_tables w) o (gk_tables w') /\ (err = None -> oc_Observation o = ObservationAbsent).
Proof.
  intros Hwf Hv. unfold cleanup_owned. destruct (validateSelf_inv _ Hv) as (_ & Hp & _).
  destruct (inspect (or_Table owner) w) as [r w1] eqn:E. destruct (inspect_spec _ _ _ _ _ Hp E) as [H1 Hi].
  destruct r as [ident|e]; [|intros [= <- <- <-]; rewrite H1; split; [by apply unchanged_post|done]].
  assert (forall w2 o ident oerr w3, wf_tables (gk_tables w2) -> only_own (gk_tables w) (gk_tables w2) ->
    observeOwnedState owner w2 = ((o, ident, oerr), w3) ->
    (gk_tables w2 = gk_tables w -> guard_post (gk_tables w) o (gk_tables w3)) /\
    guard_post (gk_tables w) (mutated o) (gk_tables w3)) as Hobs.
  { intros w2 o2 id2 oerr w3 Hwf2 Hown E2. destruct (observeOwned_spec _ _ _ _ _ _ Hv E2) as (Heq & Hmut & Ho).
    rewrite Heq. assert (truthful (oc_Observation o2) (gk_tables w2)) as Ht.
    { destruct (oc_Observation o2); cbn; try done; [destruct Ho as (_ & t & Hs & _); by eexists _, _|by destruct Ho]. }
    split; [|constructor; [done|done|done| |done]; cbn; intros Hu; by rewrite Hu in Ho]. intros Heq2. rewrite Heq2 in *. by apply unchanged_post. }
  destruct (Hi ident eq_refl) as [(t & Hm & ->)|[Hm ->]]; cbn [ti_Exists identity_of no_table negb].
  - destruct (requireOwnedTable owner _) as [e|] eqn:Hown.
    { intros [= <- <- <-]. rewrite H1. split; [by apply unchanged_post|done]. }
    assert (nt_comment t = or_Marker owner) as Hmark.
    { unfold requireOwnedTable in Hown. cbn in Hown. destruct (_ =? 0); [done|].
      by destruct (String.eqb_spec (nt_comment t) (or_Marker owner)). }
    unfold cleanup_table. cbn [ti_Handle]. pose proof (law_run (cleanupHandleScript (nt_handle t)) w1) as Hrun.
    destruct (gk_run _ w1) as [rerr w2]. rewrite H1 in Hrun.
    assert (wf_tables (gk_tables w2) /\ only_own (gk_tables w) (gk_tables w2)) as [Hwf2 Hown2].
    { destruct Hrun as [[_ ->]|(h & _ & Hex)]; [split; [done|apply only_own_refl]|].
      cbn [cleanupHandleScript script_exec] in Hex. rewrite (delete_exec _ _ _ _ Hwf Hm) in Hex. injection Hex as <-.
      split; [by apply delete_wf|]. apply delete_own; [done|]. intros t' Ht'. rewrite Hm in Ht'. injection Ht' as <-.
      rewrite Hmark. by apply owner_marker. }
    destruct (observeOwnedState owner w2) as [[[o2 id2] oerr] w3] eqn:E3.
    destruct (Hobs _ _ _ _ _ Hwf2 Hown2 E3) as [_ Hpost]. intros [= Hres <-].
    destruct rerr as [rerr|], oerr as [oerr|]; cbn in Hres; try (injection Hres as <- <-; split; [done|]; done).
    + case_bool_decide as Ha; injection Hres as <- <-; [|by split]. split; [|done]. by destruct Hpost.
    + case_bool_decide as Ha; injection Hres as <- <-; by split.
  - destruct (observeOwnedState owner w1) as [[[o2 id2] oerr] w2] eqn:E2.
    rewrite <- H1 in Hwf. destruct (Hobs _ _ _ _ _ Hwf ltac:(rewrite H1; apply only_own_refl) E2) as [Hpost _].
    specialize (Hpost H1). intros [= Hres <-]. destruct oerr as [oerr|]; [by injection Hres as <- <-|].
    case_bool_decide as Ha; injection Hres as <- <-; by split.
Qed.

Lemma guard_Cleanup_spec w o err w' : wf_tables (gk_tables w) -> guard_Cleanup w = ((o, err), w') ->
  guard_post (gk_tables w) o (gk_tables w') /\ (err = None -> oc_Observation o = ObservationAbsent).
Proof.
  intros Hwf. unfold guard_Cleanup.
  assert (forall (e : error) w1 o (err : option error) w', gk_tables w1 = gk_tables w -> ((unchangedOutcome, Some e), w1) = ((o, err), w') ->
    guard_post (gk_tables w) o (gk_tables w') /\ (err = None -> oc_Observation o = ObservationAbsent)) as Hfail.
  { intros e w1 o1 err1 w1' Heq [= <- <- <-]. rewrite Heq. split; [by apply unchanged_post|done]. }
  destruct (inspectLegacy w) as [l w1] eqn:E1. pose proof (legacy_spec _ _ _ E1) as H1.
  destruct l as [l|e]; [|by apply Hfail]. destruct (ti_Exists l); [by apply Hfail|].
  destruct (loadOwnerIfPresent w1) as [r w2] eqn:E2. destruct (loadOwnerIfPresent_spec _ _ _ E2) as [H2 Hv].
  destruct r as [present|e]; [|apply Hfail; congruence].
  destruct (requireProjectTablePrestate present w2) as [perr w3] eqn:E3. destruct (prestate_spec _ _ _ _ E3) as [H3 Hn].
  destruct perr as [e|]; [apply Hfail; congruence|]. assert (gk_tables w3 = gk_tables w) as H4 by congruence.
  destruct present as [owner|].
  - rewrite <- H4 in *. apply cleanup_owned_spec; auto.
  - destruct (projectTables w3) as [ts w4] eqn:E4. destruct (projectTables_spec _ _ _ E4) as [H5 _].
    assert (gk_tables w4 = gk_tables w) as H6 by congruence. intros [= Hres <-]. rewrite H6.
    destruct ts as [[|]|]; injection Hres as <- <-; (split; [apply unchanged_post; [done|]|done]); try done.
    cbn. assert (gk_tables w2 = gk_tables w) as <- by congruence. by apply Hn.
Qed.

Lemma guard_Observe_spec w o err w' : wf_tables (gk_tables w) -> guard_Observe w = ((o, err), w') ->
  gk_tables w' = gk_tables w /\ oc_Mutated o = false /\ truthful (oc_Observation o) (gk_tables w).
Proof.
  intros Hwf. unfold guard_Observe. destruct (inspectLegacy w) as [l w1] eqn:E1. pose proof (legacy_spec _ _ _ E1) as H1.
  destruct (observe_state w1) as [[o2 err2] w2] eqn:E2.
  assert (gk_tables w2 = gk_tables w1 /\ oc_Mutated o2 = false /\ truthful (oc_Observation o2) (gk_tables w1)) as (H2 & Hm & Ht).
  { unfold observe_state in E2. destruct (loadOwnerIfPresent w1) as [r w3] eqn:E3.
    destruct (loadOwnerIfPresent_spec _ _ _ E3) as [H3 Hv]. destruct r as [[owner|]|e].
    - destruct (observeOwnedState owner w3) as [[[o4 id4] err4] w4] eqn:E4. injection E2 as <- <- <-.
      destruct (observeOwned_spec _ _ _ _ _ _ (Hv _ eq_refl) E4) as (Heq & Hm & Ho). split_and!; [congruence|done|].
      rewrite <- H3. destruct (oc_Observation o4); cbn; try done; [destruct Ho as (_ & t & Hs & _); by eexists _, _|by destruct Ho].
    - destruct (projectTables w3) as [ts w4] eqn:E4. destruct (projectTables_spec _ _ _ E4) as [H5 Hts].
      injection E2 as Ho <-. assert (gk_tables w4 = gk_tables w1) as -> by congruence. split; [done|].
      destruct ts as [[|]|]; injection Ho as <- <-; try done. split; [done|]. intros n Hn. rewrite <- H3.
      destruct (gk_tables w3 !! n) eqn:Hl; [|done]. exfalso. apply (not_elem_of_nil n), (Hts [] eq_refl). by rewrite Hl.
    - destruct (projectTables w3) as [ts w4] eqn:E4. destruct (projectTables_spec _ _ _ E4) as [H5 _].
      injection E2 as <- <- <-. split; [congruence|done]. }
  intros [= Hres <-]. split; [congruence|]. rewrite <- H1.
  destruct l as [l|e]; [destruct (ti_Exists l)|]; injection Hres as <- <-; done.
Qed.
End executor.

(** ** Coverage of a plan *)

Lemma plan_mark st marks mark : mark <> 0 ->
  mark ∈ marks \/ (exists wg, wg ∈ st_WireGuards st /\ (mark = ws_ConfigFwMark wg \/ mark = ws_RuntimeFirewallMark wg)) ->
  egress_rule_text TableName mark ∈ np_Rules (BuildNftPlan st marks).
Proof.
  intros Hm Hin. cbn [BuildNftPlan np_Rules]. rewrite merge_sort_Permutation. apply elem_of_app. left.
  apply list_elem_of_fmap. exists mark. split; [done|]. unfold uniqueFwmarks. rewrite merge_sort_Permutation.
  apply elem_of_elements, elem_of_list_to_set, list_elem_of_filter. split; [done|]. apply elem_of_app.
  destruct Hin as [?|(wg & Hwg & Hin)]; [by right|left]. apply list_elem_of_In, in_flat_map. exists wg.
  split; [by apply list_elem_of_In|]. destruct Hin as [-> | ->]; [by left|right; by left].
Qed.
Lemma plan_ports st marks wg : wg ∈ st_WireGuards st -> ws_ConfigListenPort wg <> 0 ->
  udp_rule_text TableName (ws_ConfigListenPort wg) ∈ np_Rules (BuildNftPlan st marks) /\
  (ws_TransportMode wg = "faketcp" ->
   tcp_rule_text TableName (ws_ConfigListenPort wg) ∈ np_Rules (BuildNftPlan st marks)).
Proof.
  intros Hwg Hp. cbn [BuildNftPlan np_Rules]. rewrite !merge_sort_Permutation.
  assert (forall r, r ∈ listener_rules wg -> r ∈ map (egress_rule_text TableName)
    (uniqueFwmarks (st_WireGuards st) marks) ++ flat_map listener_rules (st_WireGuards st)) as Hin.
  { intros r Hr. apply elem_of_app. right. apply list_elem_of_In, in_flat_map. exists wg.
    split; by apply list_elem_of_In. }
  unfold listener_rules in Hin. apply Z.eqb_neq in Hp. rewrite Hp in Hin. split; [apply Hin; by left|].
  intros Hf. apply Hin. rewrite Hf. right. by left.
Qed.

(** C21: the startup guard's executor tells the truth and touches only its own
    table.  On a kernel that obeys [GuardKernelLaws] (whatever fails, and when),
    [Observe] changes nothing; after [Apply], [Cleanup] and [Observe], "absent"
    means that no project table exists and "active" that exactly one does; an
    outcome that is not marked as mutated left the tables alone; every table that
    changed is a project table that did not exist or carried the project's
    marker.  [Apply] of a state's plan without error leaves exactly the owner's
    table with exactly the plan's rules, among them the drop rules for every
    configured or observed fwmark and every configured listen port (UDP, and TCP
    for FakeTCP); [Cleanup] without error leaves no project table. *)
Theorem guard_executor_truthful {W} `{GuardKernelLaws W} (w : W) : wf_tables (gk_tables w) ->
  (forall o err w', guard_Observe w = ((o, err), w') ->
     gk_tables w' = gk_tables w /\ truthful (oc_Observation o) (gk_tables w')) /\
  (forall st marks o err w', guard_Apply (BuildNftPlan st marks) w = ((o, err), w') ->
     guard_post (gk_tables w) o (gk_tables w') /\
     (err = None -> oc_Observation o = ObservationActive /\
        exists owner t, sole_project (gk_tables w') (or_Table owner) t /\ nt_comment t = or_Marker owner /\
          nt_rules t = map (owned_rule owner) (np_Rules (BuildNftPlan st marks)) /\
          (forall mark, mark <> 0 -> mark ∈ marks \/ (exists wg, wg ∈ st_WireGuards st /\
             (mark = ws_ConfigFwMark wg \/ mark = ws_RuntimeFirewallMark wg)) ->
             owned_rule owner (egress_rule_text TableName mark) ∈ nt_rules t) /\
          (forall wg, wg ∈ st_WireGuards st -> ws_ConfigListenPort wg <> 0 ->
             owned_rule owner (udp_rule_text TableName (ws_ConfigListenPort wg)) ∈ nt_rules t /\
             (ws_TransportMode wg = "faketcp" ->
              owned_rule owner (tcp_rule_text TableName (ws_ConfigListenPort wg)) ∈ nt_rules t)))) /\
  (forall o err w', guard_Cleanup w = ((o, err), w') ->
     guard_post (gk_tables w) o (gk_tables w') /\ (err = None -> no_project (gk_tables w'))).
Proof.
  intros Hwf. split; [|split].
  - intros o err w' E. destruct (guard_Observe_spec _ _ _ _ Hwf E) as (-> & _ & ?). done.
  - intros st marks o err w' E. destruct (guard_Apply_spec _ _ _ _ _ (plan_rules st marks) Hwf E) as [Hp Hn].
    split; [done|]. intros He. destruct (Hn He) as (Ho & owner & t & _ & Hs & Hc & Hr). split; [done|].
    exists owner, t. split_and!; [done|done|done| |]; rewrite Hr.
    + intros mark Hm Hin. apply list_elem_of_fmap_2. by apply plan_mark.
    + intros wg Hwg Hp'. destruct (plan_ports st marks wg Hwg Hp') as [Hu Ht].
      split; [by apply list_elem_of_fmap_2|]. intros Hf. by apply list_elem_of_fmap_2, Ht.
  - intros o err w' E. destruct (guard_Cleanup_spec _ _ _ _ Hwf E) as [Hp Hn]. split; [done|].
    intros He. pose proof (gp_truth _ _ _ Hp) as Ht. by rewrite (Hn He) in Ht.
Qed.

(** ** A kernel that obeys the laws *)

Record sample_kernel := mkKernel { k_tables : gmap string NfTable; k_owner : option ownerRecord }.
Definition next_handle (m : gmap string NfTable) : Z :=
  1 + foldr (fun e acc => Z.max (nt_handle e.2) acc) 0 (map_to_list m).
Definition sample_dir : stateDirectory := mkStateDirectory "/var/lib/wg-mix-ebpf" 7 42.

#[export] Instance sample_guard_kernel : GuardKernel sample_kernel := {
  gk_run script w := match script_exec (next_handle (k_tables w)) script (k_tables w) with
                     | Some m => (None, mkKernel m (k_owner w))
                     | None => (Some "nft failed", w)
                     end;
  gk_list_table t w := (match k_tables w !! t with
                        | Some tb => Output (identity_of tb)
                        | None => Failed "No such file or directory"
                        end, w);
  gk_list_tables w := (Output (map (fun e => ("inet", e.1)) (map_to_list (k_tables w))), w);
  gk_netlink w := (inl (map (fun e => ("inet", e.1)) (map_to_list (k_tables w))), w);
  gk_ctx w := (None, w);
  gk_openStateDirectory _ w := (inl (Some sample_dir), w);
  gk_close w := (None, w);
  gk_rejectLegacyOwnerRecord w := (None, w);
  gk_readOwnerRecord w := (inl (k_owner w), w);
  gk_random w := (inl (replicate 32 171), w);
  gk_publishOwnerRecord r w := (inl true, mkKernel (k_tables w) (Some r))
}.

Lemma next_handle_unused m : handle_unused (next_handle m) m.
Proof.
  assert (forall l, 0 <= foldr (fun (e : string * NfTable) acc => Z.max (nt_handle e.2) acc) 0 l /\
    forall e, e ∈ l -> nt_handle e.2 <= foldr (fun e acc => Z.max (nt_handle e.2) acc) 0 l) as Hb.
  { induction l as [|e l [IH0 IH]]; cbn; [split; [lia|by intros ? ?%elem_of_nil]|]. split; [lia|].
    intros e' [-> | He']%elem_of_cons; [lia|]. specialize (IH e' He'). lia. }
  destruct (Hb (map_to_list m)) as [H0 H1]. unfold handle_unused, next_handle. split; [lia|].
  intros n t Hn. apply elem_of_map_to_list in Hn. specialize (H1 _ Hn). cbn in H1. lia.
Qed.
Lemma listed m n : ("inet", n) ∈ map (fun e : string * NfTable => ("inet", e.1)) (map_to_list m) <-> is_Some (m !! n).
Proof.
  rewrite list_elem_of_fmap. split.
  - intros ([n' t] & [= ->] & Hin). apply elem_of_map_to_list in Hin. by rewrite Hin.
  - intros [t Ht]. exists (n, t). split; [done|]. by apply elem_of_map_to_list.
Qed.
#[export] Instance sample_guard_laws : GuardKernelLaws sample_kernel.
Proof.
  refine (Build_GuardKernelLaws _ _ k_tables _ _ _ _ _ _ _ _ _ _ _); try done.
  - intros script w. cbn. destruct (script_exec _ script (k_tables w)) eqn:E; cbn; [right|by left].
    exists (next_handle (k_tables w)). split; [apply next_handle_unused|done].
  - intros t w. cbn. split; [done|]. intros ident. destruct (k_tables w !! t) as [tb|]; [|done].
    intros [= <-]. by exists tb.
  - intros w. cbn. split; [done|]. intros l [= <-] n. apply listed.
  - intros w. cbn. split; [done|]. intros l [= <-] n. apply listed.
Defined.

Definition guarded_wg : WireGuardState :=
  mkWireGuardState 1 "wg0" "/etc/wireguard/wg0.conf" "p" 1 "" 0 51 51820 51 51820 7 true "faketcp" "" 0
    (mkFakeTCP true "" "xdp-required" 2 0 0 0 0 0 0 0 0 0 0 0 0 0).
Definition guarded_state : State := mkState 1 "tcx" "kfunc" [] [] [guarded_wg] [] [] [] [] [].
Definition foreign_kernel : sample_kernel := mkKernel {[ "filter" := mkNfTable 4 "" [] ]} None.

Lemma foreign_kernel_wf : wf_tables (gk_tables foreign_kernel).
Proof.
  change (wf_tables {[ "filter" := mkNfTable 4 "" [] ]}). constructor.
  - intros n t Hn. apply lookup_singleton_Some in Hn as [_ <-]. done.
  - intros n n' t t' Hn Hn' _. apply lookup_singleton_Some in Hn as [<- _], Hn' as [<- _]. done.
Qed.

(** The guard is raised and lowered next to a foreign table. *)
Lemma guard_executor_truthful_witness : exists o w',
  guard_Apply (BuildNftPlan guarded_state []) foreign_kernel = ((o, None), w') /\
  oc_Observation o = ObservationActive /\
  exists o2 w2, guard_Cleanup w' = ((o2, None), w2) /\ no_project (gk_tables w2).
Proof.
  destruct (guard_Apply (BuildNftPlan guarded_state []) foreign_kernel) as [[o err] w'] eqn:E.
  assert (err = None) as -> by (vm_compute in E; by injection E as _ <- _).
  destruct (proj1 (proj2 (guard_executor_truthful foreign_kernel foreign_kernel_wf)) guarded_state [] o None w' E)
    as (Hp & Ha).
  exists o, w'. split; [reflexivity|]. split; [exact (proj1 (Ha eq_refl))|].
  destruct (guard_Cleanup w') as [[o2 err2] w2] eqn:E2. exists o2, w2.
  assert (err2 = None) as -> by (vm_compute in E; injection E as _ <-; vm_compute in E2; by injection E2 as _ <- _).
  split; [reflexivity|].
  exact (proj2 (proj2 (proj2 (guard_executor_truthful w' (gp_wf _ _ _ Hp))) o2 None w2 E2) eq_refl).
Defined.
