(* ===== verification/AttachState.v ===== *)
(** * The record of attached interfaces (internal/attachstate/attachstate.go),
    without the time stamp; reading and writing the file are parameters of the
    code that uses it. *)
From Stdlib Require Import ZArith Lia.
From stdpp Require Import base option list gmap strings numbers.
From S2P Require Import Prelude Config Profile Control.

Definition currentVersion : Z := 1.
Definition ingressHandle : Z := 65537.
Definition egressHandle : Z := 65538.
Definition defaultLinkRole : string := "transform".
Definition defaultLinkParser : string := "auto".

Record AttachedUnderlay := mkAttached {
  au_Name : string; au_IfName : string; au_IfIndex : Z; au_Role : string;
  au_IngressHandle : Z; au_EgressHandle : Z
}.
Record AttachState := mkAttachState {
  as_Version : Z; as_ConfigPath : string; as_Underlays : list AttachedUnderlay
}.

(** The version check of [Load] on the decoded file. *)
Definition attach_Load (decoded : AttachState) : outcome AttachState :=
  fail_if negb (as_Version decoded =? currentVersion) with "unsupported attach state version" in
  Ret decoded.

Definition link_role (role : string) : string := if str_empty role then defaultLinkRole else role.

Definition attached (u : UnderlayState) : bool :=
  us_Resolved u && negb (us_IfIndex u =? 0) && negb (inactive u).
Definition FromControlState (configPath : string) (st : State) : AttachState :=
  mkAttachState currentVersion configPath
    (map (fun u => mkAttached (us_Name u) (us_IfName u) (us_IfIndex u) (link_role (us_Role u))
                     ingressHandle egressHandle)
       (filter (fun u => attached u = true) (st_Underlays st))).

Definition empty_state (us : list UnderlayState) : State := mkState 0 "" "" [] [] [] us [] [] [] [].

(** The entries from position [i]. *)
Fixpoint to_underlays (i : Z) (l : list AttachedUnderlay) : list UnderlayState :=
  match l with
  | [] => []
  | u :: l =>
      if au_IfIndex u =? 0 then to_underlays (i + 1) l
      else mkUnderlayState (u32 (i + 1)) (au_Name u) "" defaultLinkParser (au_IfName u) (au_IfIndex u) ""
             (link_role (au_Role u)) true :: to_underlays (i + 1) l
  end.
Definition ToControlState (st : AttachState) : State := empty_state (to_underlays 0 (as_Underlays st)).

(** [seen] are the interface indexes before. *)
Fixpoint merge_underlays (seen : list Z) (l : list UnderlayState) : list UnderlayState :=
  match l with
  | [] => []
  | u :: l =>
      if negb (us_Resolved u) || (us_IfIndex u =? 0) || bool_decide (us_IfIndex u ∈ seen)
      then merge_underlays seen l
      else u :: merge_underlays (us_IfIndex u :: seen) l
  end.
Definition MergeControlStates (states : list State) : State :=
  empty_state (merge_underlays [] (flat_map st_Underlays states)).

(** ** Properties *)

(** The interfaces of a list that detaching acts on. *)
Definition resolved_in (ifindex : Z) (l : list UnderlayState) : Prop :=
  exists u, u ∈ l /\ us_Resolved u = true /\ us_IfIndex u = ifindex /\ ifindex <> 0.

Lemma merge_spec l : forall seen ifindex,
  (exists u, u ∈ merge_underlays seen l /\ us_IfIndex u = ifindex) <->
  resolved_in ifindex l /\ ifindex ∉ seen.
Proof.
  induction l as [|u l IH]; intros seen i; cbn.
  - split; [by intros (? & ?%elem_of_nil & _)|by intros [(? & ?%elem_of_nil & _) _]].
  - assert (forall j, resolved_in j (u :: l) <->
      (us_Resolved u = true /\ us_IfIndex u = j /\ j <> 0) \/ resolved_in j l) as Hcons.
    { intros j. unfold resolved_in. split.
      - intros (v & [-> | Hv]%elem_of_cons & H1 & H2 & H3); [by left|right; by exists v].
      - intros [(H1 & H2 & H3)|(v & Hv & H1)]; [exists u; split; [by left|done]|exists v; split; [by right|done]]. }
    rewrite Hcons. destruct (negb (us_Resolved u) || (us_IfIndex u =? 0) || bool_decide (us_IfIndex u ∈ seen)) eqn:E.
    + rewrite IH. split; [intros [? ?]; by auto|]. intros [[(H1 & <- & H3)|?] Hn]; [|done]. exfalso.
      rewrite H1 in E. cbn in E. apply orb_prop in E as [?%Z.eqb_eq|E]; [done|].
      by apply bool_decide_eq_true in E.
    + apply orb_false_iff in E as [[E1%negb_false_iff E2%Z.eqb_neq]%orb_false_iff E3%bool_decide_eq_false]. split.
      * intros (v & [-> | Hv]%elem_of_cons & <-); [by auto|].
        destruct (proj1 (IH (us_IfIndex u :: seen) (us_IfIndex v)) (ex_intro _ v (conj Hv eq_refl))) as [Hr Hn].
        split; [by right|]. intros Hin. apply Hn. by right.
      * intros [Hr Hn]. destruct (decide (us_IfIndex u = i)) as [Hi|Hne]; [exists u; split; [by left|done]|].
        destruct Hr as [(_ & ? & _)|Hr]; [done|].
        destruct (proj2 (IH (us_IfIndex u :: seen) i)) as (v & Hv & <-).
        { split; [done|]. intros [?|?]%elem_of_cons; [done|by apply Hn]. }
        exists v. split; [by right|done].
Qed.

(** What is saved after an apply is what a later detach removes. *)
Lemma to_underlays_spec l ifindex : forall i,
  resolved_in ifindex (to_underlays i l) <-> ifindex <> 0 /\ exists u, u ∈ l /\ au_IfIndex u = ifindex.
Proof.
  induction l as [|u l IH]; intros i; cbn.
  - split; [by intros (? & ?%elem_of_nil & _)|by intros (_ & ? & ?%elem_of_nil & _)].
  - destruct (au_IfIndex u =? 0) eqn:E.
    + apply Z.eqb_eq in E. rewrite IH. split.
      * intros (Hn & v & Hv & <-). split; [done|]. exists v. split; [by right|done].
      * intros (Hn & v & [-> | Hv]%elem_of_cons & <-); [by rewrite E in Hn|]. split; [done|]. by exists v.
    + apply Z.eqb_neq in E. split.
      * intros (v & [-> | Hv]%elem_of_cons & H1 & H2 & H3).
        -- cbn in H2. subst. split; [done|]. exists u. split; [by left|done].
        -- destruct (proj1 (IH (i + 1))) as (Hn & x & Hx & Hx'); [by exists v|].
           split; [done|]. exists x. split; [by right|done].
      * intros (Hn & v & [-> | Hv]%elem_of_cons & Hi).
        -- eexists. split; [by left|]. done.
        -- destruct (proj2 (IH (i + 1))) as (x & Hx & Hx'); [split; [done|]; by exists v|].
           exists x. split; [by right|done].
Qed.

Lemma saved_interfaces path st ifindex :
  resolved_in ifindex (st_Underlays (ToControlState (FromControlState path st))) <->
  exists u, u ∈ st_Underlays st /\ attached u = true /\ us_IfIndex u = ifindex.
Proof.
  cbn. rewrite to_underlays_spec. split.
  - intros (Hn & v & Hv & <-). apply list_elem_of_fmap in Hv as (u & -> & Hu). apply list_elem_of_filter in Hu as [Ha Hu].
    by exists u.
  - intros (u & Hu & Ha & <-). split.
    + unfold attached in Ha. destruct (us_IfIndex u =? 0) eqn:E; [by rewrite andb_false_r in Ha|]. by apply Z.eqb_neq in E.
    + eexists. split; [apply list_elem_of_fmap_2, list_elem_of_filter; by split|done].
Qed.
