(* ===== verification/Reconcile.v ===== *)
(** * Reload, detach and stop (internal/reconcile/reconcile.go, status.go): the
    transaction that replaces the dataplane behind the startup guard.

    A step runs in the monad [M] over the world, the guard transaction, the last
    known kernel state of the guard and the record of what was done.  The guard
    executor is an interface, as in the code; the loader, the attach-state file
    and the configuration are the class [ReconcileEnv].  The WireGuard files and
    devices are read through snapshots that cache the first answer, so one pure
    [ControlEnv] stands for them.  Progress reports, timings and the text of
    warnings are left out; the lifecycle lock is held by the caller. *)
From Stdlib Require Import ZArith Lia.
From stdpp Require Import base option list gmap strings numbers.
From S2P Require Import Prelude Abi Config Profile Control ControlProps Supervisor Coordinator Guard AttachState.

(** ** Interfaces *)

(** [guard.Executor], and the preflight of [startup_guard.mode=none]. *)
Class GuardExecutor (W : Type) := {
  ge_Apply : NftPlan -> W -> (Outcome * option error) * W;
  ge_Cleanup : W -> (Outcome * option error) * W;
  ge_Observe : W -> (Outcome * option error) * W;
  ge_Preflight : W -> (Outcome * option error) * W
}.

(** [rc_status]: [None] if the status provider does not handle the state. *)
Class ReconcileEnv (W : Type) := {
  rc_control : ControlEnv;
  rc_profileOrder : list string;
  rc_cipherOrder : list string;
  rc_loadConfig : W -> (Config + error) * W;
  rc_validateOwnerState : W -> option error * W;
  rc_ctx : W -> option error * W;
  (** The loader; [rc_guardRuntime] and [rc_staleLoader] tell which optional
      interfaces it implements. *)
  rc_guardRuntime : bool;
  rc_Quiesce : W -> (StartupGuardLease + error) * W;
  rc_Resume : StartupGuardLease -> W -> option error * W;
  rc_Apply : State -> W -> option error * W;
  rc_Detach : State -> W -> option error * W;
  rc_staleLoader : bool;
  rc_DetachStale : State -> State -> W -> option error * W;
  rc_status : State -> W -> option (option error) * W;
  (** The decoded attach-state file ([None]: no file). *)
  rc_loadAttach : W -> (option AttachState + error) * W;
  rc_saveAttach : AttachState -> W -> option error * W;
  rc_removeAttach : W -> option error * W
}.

Record ReconcileOptions := mkReconcileOptions {
  ro_ConfigPath : string; ro_Offline : bool; ro_DryRun : bool; ro_ResidentRuntime : bool
}.

(** ** The guard transaction *)

(** [StartupGuardStatus.KernelState]. *)
Inductive KernelState := KernelActive | KernelAbsent | KernelDisabled | KernelUnknown.
#[export] Instance KernelState_eq_dec : EqDecision KernelState.
Proof. solve_decision. Defined.

(** [None] is the zero status. *)
Definition projectGuardOutcome (previous : option KernelState) (outcome : Outcome) : KernelState :=
  match oc_Observation outcome with
  | ObservationActive => KernelActive
  | ObservationAbsent => KernelAbsent
  | ObservationUnchanged => default KernelUnknown previous
  | ObservationUnknown => KernelUnknown
  end.

Record startupGuardTxn := mkTxn {
  tx_runtime : bool;
  tx_lease : StartupGuardLease;
  tx_barrierFresh : bool;
  tx_initialObservation : Observation;
  tx_observation : Observation;
  tx_guardCreated : bool;
  tx_dataplaneMutationStarted : bool;
  tx_dataplaneValidated : bool;
  tx_cleanupAttempted : bool;
  tx_cleanupProvedAbsent : bool;
  tx_normalCleanup : bool;
  tx_resumed : bool
}.

Definition guardObservationFromStatus (k : KernelState) : Observation :=
  match k with
  | KernelActive => ObservationActive
  | KernelAbsent => ObservationAbsent
  | _ => ObservationUnknown
  end.
Definition newStartupGuardTxn (status : KernelState) : startupGuardTxn :=
  let o := guardObservationFromStatus status in
  mkTxn false lease_zero false o o false false false false false false false.

Definition recordLease (lease : StartupGuardLease) (t : startupGuardTxn) : startupGuardTxn :=
  mkTxn true lease (sl_Acquired lease) (tx_initialObservation t) (tx_observation t) (tx_guardCreated t)
    (tx_dataplaneMutationStarted t) (tx_dataplaneValidated t) (tx_cleanupAttempted t)
    (tx_cleanupProvedAbsent t) (tx_normalCleanup t) (tx_resumed t).
Definition effectiveGuardObservation (previous next : Observation) : Observation :=
  match next with ObservationUnchanged => previous | _ => next end.
Definition recordApply (outcome : Outcome) (t : startupGuardTxn) : startupGuardTxn :=
  mkTxn (tx_runtime t) (tx_lease t) (tx_barrierFresh t) (tx_initialObservation t)
    (effectiveGuardObservation (tx_observation t) (oc_Observation outcome))
    (if bool_decide (oc_Observation outcome = ObservationActive) && oc_Mutated outcome &&
        bool_decide (tx_initialObservation t = ObservationAbsent) then true else tx_guardCreated t)
    (tx_dataplaneMutationStarted t) (tx_dataplaneValidated t) (tx_cleanupAttempted t)
    (tx_cleanupProvedAbsent t) (tx_normalCleanup t) (tx_resumed t).
Definition recordCleanupOutcome (outcome : Outcome) (t : startupGuardTxn) : startupGuardTxn :=
  mkTxn (tx_runtime t) (tx_lease t) (tx_barrierFresh t) (tx_initialObservation t)
    (effectiveGuardObservation (tx_observation t) (oc_Observation outcome)) (tx_guardCreated t)
    (tx_dataplaneMutationStarted t) (tx_dataplaneValidated t) true
    (bool_decide (oc_Observation outcome = ObservationAbsent)) (tx_normalCleanup t) (tx_resumed t).
Definition recordNormalCleanup (outcome : Outcome) (t : startupGuardTxn) : startupGuardTxn :=
  let t := recordCleanupOutcome outcome t in
  mkTxn (tx_runtime t) (tx_lease t) (tx_barrierFresh t) (tx_initialObservation t) (tx_observation t)
    (tx_guardCreated t) (tx_dataplaneMutationStarted t) (tx_dataplaneValidated t) (tx_cleanupAttempted t)
    (tx_cleanupProvedAbsent t) true (tx_resumed t).
Definition startMutation (t : startupGuardTxn) : startupGuardTxn :=
  mkTxn (tx_runtime t) (tx_lease t) (tx_barrierFresh t) (tx_initialObservation t) (tx_observation t)
    (tx_guardCreated t) true (tx_dataplaneValidated t) (tx_cleanupAttempted t)
    (tx_cleanupProvedAbsent t) (tx_normalCleanup t) (tx_resumed t).
Definition markValidated (t : startupGuardTxn) : startupGuardTxn :=
  mkTxn (tx_runtime t) (tx_lease t) (tx_barrierFresh t) (tx_initialObservation t) (tx_observation t)
    (tx_guardCreated t) (tx_dataplaneMutationStarted t) true (tx_cleanupAttempted t)
    (tx_cleanupProvedAbsent t) (tx_normalCleanup t) (tx_resumed t).
Definition markResumed (t : startupGuardTxn) : startupGuardTxn :=
  mkTxn (tx_runtime t) (tx_lease t) (tx_barrierFresh t) (tx_initialObservation t) (tx_observation t)
    (tx_guardCreated t) (tx_dataplaneMutationStarted t) (tx_dataplaneValidated t) (tx_cleanupAttempted t)
    (tx_cleanupProvedAbsent t) (tx_normalCleanup t) true.

Definition shouldRollbackGuardOnFailure (t : startupGuardTxn) : bool :=
  negb (tx_dataplaneMutationStarted t) && tx_guardCreated t && negb (tx_cleanupAttempted t) &&
  bool_decide (tx_observation t = ObservationActive).
Definition shouldResumeAfterFailure (t : startupGuardTxn) : bool :=
  if negb (tx_runtime t) || tx_resumed t then false
  else if tx_dataplaneValidated t && tx_normalCleanup t && tx_cleanupProvedAbsent t then true
  else if negb (tx_barrierFresh t) then false
  else if tx_dataplaneMutationStarted t then false
  else bool_decide (tx_observation t = ObservationAbsent).

(** ** Checks *)

Definition shouldApplyStartupGuard (cfg : Config) : bool :=
  String.eqb (sg_Mode (c_StartupGuard cfg)) StartupGuardModeNFTTemporaryDrop &&
  String.eqb (po_StartupFailMode (c_Policy cfg)) "fail_closed_for_managed_flows".

Fixpoint validateFakeTCPStartupIsolation (wgs : list WireGuardState) : outcome unit :=
  match wgs with
  | [] => Ret tt
  | wg :: wgs =>
      if negb (String.eqb (ws_TransportMode wg) "faketcp") then validateFakeTCPStartupIsolation wgs
      else
        fail_if ws_ConfigListenPort wg =? 0 with "faketcp WireGuard requires a fixed non-zero ListenPort" in
        fail_if ws_RuntimeStateAvailable wg && negb (ws_RuntimeListenPort wg =? ws_ConfigListenPort wg)
          with "faketcp WireGuard runtime ListenPort does not equal configured ListenPort" in
        validateFakeTCPStartupIsolation wgs
  end.

Definition sameNftPlan (left right : NftPlan) : bool :=
  String.eqb (np_Table left) (np_Table right) && bool_decide (np_Rules left = np_Rules right).

(** ** Running *)

Inductive raction :=
| AcQuiesce
| AcGuardApply (plan : NftPlan)
| AcGuardCleanup
| AcApply (st : State)
| AcDetach (st : State)
| AcDetachStale (previous st : State)
| AcSave (saved : AttachState)
| AcRemove
| AcResume (lease : StartupGuardLease).

(** An action with the world and the transaction before it. *)
Record revent (W : Type) := mkEvent { ev_action : raction; ev_world : W; ev_txn : startupGuardTxn }.
Arguments mkEvent {W}.
Arguments ev_action {W}.
Arguments ev_world {W}.
Arguments ev_txn {W}.

Record RState (W : Type) := mkRState {
  rs_world : W; rs_txn : startupGuardTxn; rs_status : KernelState; rs_trace : list (revent W)
}.
Arguments mkRState {W}.
Arguments rs_world {W}.
Arguments rs_txn {W}.
Arguments rs_status {W}.
Arguments rs_trace {W}.

Definition M (W A : Type) : Type := RState W -> outcome A * RState W.
Definition mret {W A} (a : A) : M W A := fun s => (Ret a, s).
Definition mfail {W A} (e : error) : M W A := fun s => (Fail e, s).
Definition mbind_M {W A B} (m : M W A) (k : A -> M W B) : M W B := fun s =>
  match m s with
  | (Ret a, s) => k a s
  | (Fail e, s) => (Fail e, s)
  | (Panic, s) => (Panic, s)
  end.
Notation "'let*' x ':=' m 'in' k" := (mbind_M m (fun x => k)) (at level 10, x pattern, m at level 100, k at level 200) : go_scope.
Notation "'do*' m 'in' k" := (mbind_M m (fun _ => k)) (at level 10, m at level 100, k at level 200) : go_scope.

Section run.
Context {W : Type}.

Definition lift {A} (o : outcome A) : M W A := fun s => (o, s).
Definition call {A} (f : W -> A * W) : M W A := fun s =>
  let '(a, w) := f (rs_world s) in (Ret a, mkRState w (rs_txn s) (rs_status s) (rs_trace s)).
(** A call that acts on the system. *)
Definition act {A} (ac : raction) (f : W -> A * W) : M W A := fun s =>
  call f (mkRState (rs_world s) (rs_txn s) (rs_status s)
            (rs_trace s ++ [mkEvent ac (rs_world s) (rs_txn s)])).
Definition update_txn (f : startupGuardTxn -> startupGuardTxn) : M W unit := fun s =>
  (Ret tt, mkRState (rs_world s) (f (rs_txn s)) (rs_status s) (rs_trace s)).
Definition get_txn : M W startupGuardTxn := fun s => (Ret (rs_txn s), s).
Definition set_status (k : KernelState -> KernelState) : M W unit := fun s =>
  (Ret tt, mkRState (rs_world s) (rs_txn s) (k (rs_status s)) (rs_trace s)).
Definition get_status : M W KernelState := fun s => (Ret (rs_status s), s).
(** Fails with the error of a call, if it has one. *)
Definition require (prefix : error) (err : option error) : M W unit :=
  match err with Some err => mfail (prefix +:+ err) | None => mret tt end.
Definition require_sum {A} (prefix : error) (r : A + error) : M W A :=
  match r with inl a => mret a | inr err => mfail (prefix +:+ err) end.
Definition when (b : bool) (m : M W unit) : M W unit := if b then m else mret tt.

Context `{GuardExecutor W} `{ReconcileEnv W}.

Definition mode_none (cfg : Config) : bool := String.eqb (sg_Mode (c_StartupGuard cfg)) StartupGuardModeNone.

(** [preflightNoNFTStartupGuard]. *)
Definition preflightNoNFTStartupGuard (prefix : error) : M W unit :=
  let* err := call rc_validateOwnerState in
  do* require prefix err in
  let* r := call ge_Preflight in
  let '(outcome, err) := r in
  do* require prefix err in
  if negb (bool_decide (oc_Observation outcome = ObservationAbsent)) || oc_Mutated outcome
  then mfail (prefix +:+ "inventory disabled startup guard returned an observation that is not absent")
  else mret tt.

Definition build_state (cfg : Config) (offline : bool) : M W State :=
  lift (BuildState (H := rc_control) rc_profileOrder rc_cipherOrder cfg offline).

(** The marks of the devices that can be read, until the context ends. *)
Fixpoint observedRuntimeFwmarks (wgs : list WireGuard) : M W (list Z) :=
  match wgs with
  | [] => mret []
  | wg :: wgs =>
      let* err := call rc_ctx in
      match err with
      | Some _ => mret []
      | None =>
          let* mark := lift (match Device (ControlEnv := rc_control) (wg_Name wg) with
                             | Ret dev => Ret (dev_FirewallMark dev)
                             | Fail _ => Ret 0
                             | Panic => Panic
                             end) in
          let* rest := observedRuntimeFwmarks wgs in
          mret (if mark =? 0 then rest else mark :: rest)
      end
  end.

(** [startupGuardTxn.apply] with the checks that follow each of its calls. *)
Definition apply_guard (what : error) (plan : NftPlan) : M W unit :=
  let* r := act (AcGuardApply plan) (ge_Apply plan) in
  let '(outcome, err) := r in
  do* update_txn (recordApply outcome) in
  do* set_status (fun previous => projectGuardOutcome (Some previous) outcome) in
  do* require (what +:+ ": ") err in
  let* status := get_status in
  if negb (bool_decide (status = KernelActive)) then mfail (what +:+ " returned kernel state") else mret tt.

Definition resume (prefix : error) : M W unit :=
  let* t := get_txn in
  let* err := act (AcResume (tx_lease t)) (rc_Resume (tx_lease t)) in
  do* require prefix err in
  update_txn markResumed.

(** ** Reload *)

Definition quiesce : M W unit :=
  let* r := act AcQuiesce rc_Quiesce in
  let* lease := require_sum "quiesce resident dataplane before startup guard: " r in
  if sl_Token lease =? 0
  then mfail "quiesce resident dataplane before startup guard: startup guard runtime returned an empty lease token"
  else update_txn (recordLease lease).

(** Raising the guard: quiesce, then the plan of the configured state. *)
Definition raise_guard (plan : NftPlan) : M W unit :=
  do* when rc_guardRuntime quiesce in
  apply_guard "apply startup guard" plan.

(** Applying [next] if it differs from the active plan, and the plan then active. *)
Definition expand_guard (what : error) (active next : NftPlan) : M W NftPlan :=
  if sameNftPlan active next then mret active
  else do* apply_guard what next in mret next.

(** [attachstate.Load]: [None] if there is no file. *)
Definition load_attach : M W (option AttachState) :=
  let* decoded := call rc_loadAttach in
  let* decoded := require_sum "" decoded in
  match decoded with
  | None => mret None
  | Some decoded => let* saved := lift (attach_Load decoded) in mret (Some saved)
  end.

(** Applying and validating the dataplane. *)
Definition apply_dataplane (opts : ReconcileOptions) (st : State) : M W unit :=
  do* update_txn startMutation in
  let* err := act (AcApply st) (rc_Apply st) in
  do* require "" err in
  let* handled := call (rc_status st) in
  do* match handled with
      | Some err => require "verify production FakeTCP runtime health after apply: " err
      | None => mret tt
      end in
  let* previous := load_attach in
  do* match previous with
      | Some previous =>
          when rc_staleLoader
            (let* err := act (AcDetachStale (ToControlState previous) st) (rc_DetachStale (ToControlState previous) st) in
             require "detach stale underlays: " err)
      | None => mret tt
      end in
  let saved := FromControlState (ro_ConfigPath opts) st in
  let* err := act (AcSave saved) (rc_saveAttach saved) in
  do* require "" err in
  update_txn markValidated.

(** Lowering the guard and resuming the runtime. *)
Definition lower_guard : M W unit :=
  let* r := act AcGuardCleanup ge_Cleanup in
  let '(outcome, err) := r in
  do* update_txn (recordNormalCleanup outcome) in
  do* set_status (fun previous => projectGuardOutcome (Some previous) outcome) in
  do* require "cleanup startup guard after reload: " err in
  let* t := get_txn in
  if negb (tx_cleanupProvedAbsent t) then mfail "cleanup startup guard returned kernel state"
  else when (tx_runtime t) (resume "resume resident dataplane after startup guard: ").

Record ReloadResult := mkReloadResult { rr_State : State; rr_GuardApplied : bool; rr_GuardCleaned : bool }.

Definition reload_body (opts : ReconcileOptions) (cfg : Config) : M W ReloadResult :=
  let real := negb (ro_DryRun opts) in
  do* when (real && mode_none cfg) (preflightNoNFTStartupGuard "preflight disabled startup guard: ") in
  let* guardState := build_state cfg true in
  do* lift (validateFakeTCPStartupIsolation (st_WireGuards guardState)) in
  do* require "" (ValidateFakeTCPActivation guardState) in
  do* when real (require "" (ValidateFakeTCPResidentRuntime guardState (ro_ResidentRuntime opts))) in
  let initialPlan := BuildNftPlan guardState [] in
  let guardApplied := real && shouldApplyStartupGuard cfg in
  do* when guardApplied (raise_guard initialPlan) in
  let* activePlan :=
    (if guardApplied && negb (ro_Offline opts) then
       let* marks := observedRuntimeFwmarks (c_WireGuards cfg) in
       expand_guard "expand startup guard for observed runtime fwmarks" initialPlan (BuildNftPlan guardState marks)
     else mret initialPlan) in
  let* st := build_state cfg (ro_Offline opts) in
  do* lift (validateFakeTCPStartupIsolation (st_WireGuards st)) in
  if ro_DryRun opts then mret (mkReloadResult st false false)
  else
    do* when guardApplied
          (do* expand_guard "expand startup guard for runtime fwmarks" activePlan (BuildNftPlan st []) in mret tt) in
    do* when (mode_none cfg)
          (preflightNoNFTStartupGuard "revalidate disabled startup guard immediately before dataplane apply: ") in
    do* apply_dataplane opts st in
    do* when guardApplied lower_guard in
    mret (mkReloadResult st guardApplied guardApplied).

(** The cleanup of the executor selected by the mode. *)
Definition executor_Cleanup (cfg : Config) : W -> (Outcome * option error) * W :=
  if mode_none cfg then ge_Preflight else ge_Cleanup.

(** The deferred function of a failed reload: it joins its errors to [err]. *)
Definition rollback_guard (cfg : Config) (err : error) : M W error :=
  let* t := get_txn in
  if shouldRollbackGuardOnFailure t then
    let* r := act AcGuardCleanup (executor_Cleanup cfg) in
    let '(outcome, cleanupErr) := r in
    do* set_status (fun previous => projectGuardOutcome (Some previous) outcome) in
    do* update_txn (recordCleanupOutcome outcome) in
    mret (match cleanupErr with
          | Some e => err +:+ newline +:+ "rollback startup guard after failed reload: " +:+ e
          | None => if bool_decide (oc_Observation outcome = ObservationAbsent) then err
                    else err +:+ newline +:+ "rollback startup guard after failed reload returned kernel state"
          end)
  else mret err.
Definition finish_failed (cfg : Config) (err : error) : M W error :=
  let* err := rollback_guard cfg err in
  let* t := get_txn in
  if shouldResumeAfterFailure t then
    fun s => match resume "" s with
             | (Ret _, s) => (Ret err, s)
             | (Fail e, s) => (Ret (err +:+ newline +:+
                 "resume resident dataplane after failed startup guard transaction: " +:+ e), s)
             | (Panic, s) => (Panic, s)
             end
  else mret err.

(** The kernel state of the guard when a reload starts. *)
Definition initial_status (cfg : Config) : M W KernelState :=
  if mode_none cfg then mret KernelDisabled
  else let* r := call ge_Observe in mret (projectGuardOutcome None r.1).

Definition start_txn (status : KernelState) : M W unit := fun s =>
  (Ret tt, mkRState (rs_world s) (newStartupGuardTxn status) status (rs_trace s)).

Definition reloadUnlocked (opts : ReconcileOptions) : M W ReloadResult :=
  let* r := call rc_loadConfig in
  let* cfg := require_sum "load config: " r in
  let* status := (if ro_DryRun opts then mret (if mode_none cfg then KernelDisabled else KernelUnknown)
                  else initial_status cfg) in
  do* start_txn status in
  fun s =>
    match reload_body opts cfg s with
    | (Fail err, s) =>
        if ro_DryRun opts then (Fail err, s)
        else match finish_failed cfg err s with
             | (Ret err, s) => (Fail err, s)
             | (Fail e, s) => (Fail e, s)
             | (Panic, s) => (Panic, s)
             end
    | r => r
    end.

(** [Reload] inside the lifecycle lock. *)
Definition Reload (opts : ReconcileOptions) : M W ReloadResult :=
  if ro_Offline opts && negb (ro_DryRun opts)
  then mfail "offline reload requires --dry-run; refusing to apply an empty runtime-derived dataplane"
  else reloadUnlocked opts.

(** ** Detach and stop *)

Definition errNoDetachUnderlays : error := "no underlays available for detach".

(** The outcome of a step as a value: only a panic is passed on. *)
Definition attempt {A} (m : M W A) : M W (A + error) := fun s =>
  match m s with
  | (Ret a, s) => (Ret (inl a), s)
  | (Fail e, s) => (Ret (inr e), s)
  | (Panic, s) => (Panic, s)
  end.

(** The interfaces to detach: the saved ones and those of the configuration.
    [None] is [errNoDetachUnderlays]. *)
Definition detachState (opts : ReconcileOptions) : M W (option State) :=
  let* saved := load_attach in
  let saved := match saved with Some saved => [ToControlState saved] | None => [] end in
  let* config := call rc_loadConfig in
  let* states :=
    match config with
    | inl cfg =>
        let* current := attempt (build_state cfg (ro_Offline opts)) in
        match current, saved with
        | inl current, _ => mret (saved ++ [current])
        | inr runtimeErr, [] =>
            let* offline := attempt (build_state cfg true) in
            match offline with
            | inl offline => mret [offline]
            | inr offlineErr => mfail ("build detach state failed: runtime=" +:+ runtimeErr +:+
                                       " offline=" +:+ offlineErr)
            end
        | inr _, _ => mret saved
        end
    | inr err =>
        if negb (len saved =? 0) then mret saved
        else mfail ("build detach state failed: runtime=" +:+ err +:+ " offline=" +:+ err)
    end in
  let merged := MergeControlStates states in
  mret (if len (st_Underlays merged) =? 0 then None else Some merged).

(** [None] is [errNoDetachUnderlays]. *)
Definition detachUnlocked (opts : ReconcileOptions) : M W (option State) :=
  let* merged := detachState opts in
  match merged with
  | None => mret (if ro_DryRun opts then Some (empty_state []) else None)
  | Some st =>
      if ro_DryRun opts then mret (Some st)
      else
        let* err := act (AcDetach st) (rc_Detach st) in
        do* require "" err in
        let* err := act AcRemove rc_removeAttach in
        do* require "" err in
        mret (Some st)
  end.
Definition Detach (opts : ReconcileOptions) : M W State :=
  let* detached := detachUnlocked opts in
  match detached with Some st => mret st | None => mfail errNoDetachUnderlays end.

(** [None] if the configuration cannot be read. *)
Definition configuredStartupGuardMode : M W (option string) :=
  let* config := call rc_loadConfig in
  mret (match config with inl cfg => Some (sg_Mode (c_StartupGuard cfg)) | inr _ => None end).

Definition cleanupGuardForStop (mode : option string) : M W bool :=
  if bool_decide (mode = Some StartupGuardModeNone) then mret false
  else
    let* r := act AcGuardCleanup ge_Cleanup in
    let '(outcome, err) := r in
    do* require "cleanup startup guard during stop: " err in
    if negb (bool_decide (projectGuardOutcome None outcome = KernelAbsent))
    then mfail "cleanup startup guard during stop returned kernel state"
    else mret true.

(** The flag tells whether the guard was cleaned. *)
Definition Stop (opts : ReconcileOptions) : M W (State * bool) :=
  let* mode := configuredStartupGuardMode in
  do* when (negb (ro_DryRun opts) && bool_decide (mode = Some StartupGuardModeNone))
        (preflightNoNFTStartupGuard "preflight disabled startup guard during stop: ") in
  let* detached := detachUnlocked opts in
  let st := default (empty_state []) detached in
  if ro_DryRun opts then mret (st, false)
  else let* cleaned := cleanupGuardForStop mode in mret (st, cleaned).
End run.
