(* ===== verification/ReconcileProps.v ===== *)
(** * A reload replaces the dataplane behind the startup guard

    Proved against [GuardTruth], what a guard executor promises; the command
    executor of Guard is an instance on every kernel that obeys
    [GuardKernelLaws]. *)
From Stdlib Require Import ZArith Lia.
From stdpp Require Import base option list gmap strings numbers.
From S2P Require Import Prelude Abi Config Profile Token Control ControlProps Supervisor Coordinator Guard GuardProps AttachState Reconcile.

Class GuardTruth (W : Type) `{GuardExecutor W} := {
  gt_tables : W -> gmap string NfTable;
  gt_Apply st marks w : wf_tables (gt_tables w) ->
    let '((o, err), w') := ge_Apply (BuildNftPlan st marks) w in
    guard_post (gt_tables w) o (gt_tables w') /\
    (err = None -> loads (BuildNftPlan st marks) (gt_tables w'));
  gt_Cleanup w : wf_tables (gt_tables w) ->
    let '((o, err), w') := ge_Cleanup w in guard_post (gt_tables w) o (gt_tables w');
  gt_Observe w : wf_tables (gt_tables w) ->
    let '((o, err), w') := ge_Observe w in
    gt_tables w' = gt_tables w /\ truthful (oc_Observation o) (gt_tables w);
  gt_Preflight w : wf_tables (gt_tables w) ->
    let '((o, err), w') := ge_Preflight w in
    gt_tables w' = gt_tables w /\ truthful (oc_Observation o) (gt_tables w)
}.
(** Nothing but the guard touches the tables. *)
Class QuietEnv (W : Type) `{GuardTruth W} `{ReconcileEnv W} := {
  gt_loadConfig w : gt_tables (rc_loadConfig w).2 = gt_tables w;
  gt_validateOwnerState w : gt_tables (rc_validateOwnerState w).2 = gt_tables w;
  gt_ctx w : gt_tables (rc_ctx w).2 = gt_tables w;
  gt_Quiesce w : gt_tables (rc_Quiesce w).2 = gt_tables w;
  gt_Resume lease w : gt_tables (rc_Resume lease w).2 = gt_tables w;
  gt_rc_Apply st w : gt_tables (rc_Apply st w).2 = gt_tables w;
  gt_rc_DetachStale p st w : gt_tables (rc_DetachStale p st w).2 = gt_tables w;
  gt_status st w : gt_tables (rc_status st w).2 = gt_tables w;
  gt_loadAttach w : gt_tables (rc_loadAttach w).2 = gt_tables w;
  gt_saveAttach a w : gt_tables (rc_saveAttach a w).2 = gt_tables w;
  gt_rc_Detach st w : gt_tables (rc_Detach st w).2 = gt_tables w;
  gt_removeAttach w : gt_tables (rc_removeAttach w).2 = gt_tables w;
  (** Nor do reads touch the attach-state file. *)
  qe_loadConfig w : (rc_loadAttach (rc_loadConfig w).2).1 = (rc_loadAttach w).1;
  qe_validateOwnerState w : (rc_loadAttach (rc_validateOwnerState w).2).1 = (rc_loadAttach w).1;
  qe_Preflight w : (rc_loadAttach (ge_Preflight w).2).1 = (rc_loadAttach w).1
}.

(** ** Weakest preconditions *)

(** After a value [Q], after an error or a panic [E]. *)
Definition mwp {W A} (m : M W A) (Q : A -> RState W -> Prop) (E : RState W -> Prop) (s : RState W) : Prop :=
  match m s with
  | (Ret a, s') => Q a s'
  | (Fail _, s') => E s'
  | (Panic, s') => E s'
  end.

Section wp.
Context {W : Type}.
Implicit Types s : RState W.

Lemma mwp_bind {A B} (m : M W A) (k : A -> M W B) Q E s :
  mwp m (fun a s' => mwp (k a) Q E s') E s -> mwp (mbind_M m k) Q E s.
Proof. unfold mwp, mbind_M. by destruct (m s) as [[a|e|] s']. Qed.
Lemma mwp_mono {A} (m : M W A) (Q Q' : A -> RState W -> Prop) (E E' : RState W -> Prop) s :
  mwp m Q E s -> (forall a s', Q a s' -> Q' a s') -> (forall s', E s' -> E' s') -> mwp m Q' E' s.
Proof. unfold mwp. destruct (m s) as [[a|e|] s']; auto. Qed.
Lemma mwp_lift {A} (o : outcome A) Q E s : (forall a, o = Ret a -> Q a s) -> E s -> mwp (lift o) Q E s.
Proof. unfold mwp, lift. destruct o; auto. Qed.
Lemma mwp_call {A} (f : W -> A * W) (Q : A -> RState W -> Prop) E s :
  Q (f (rs_world s)).1 (mkRState (f (rs_world s)).2 (rs_txn s) (rs_status s) (rs_trace s)) ->
  mwp (call f) Q E s.
Proof. unfold mwp, call. by destruct (f (rs_world s)). Qed.
Lemma mwp_act {A} ac (f : W -> A * W) (Q : A -> RState W -> Prop) E s :
  Q (f (rs_world s)).1 (mkRState (f (rs_world s)).2 (rs_txn s) (rs_status s)
     (rs_trace s ++ [mkEvent ac (rs_world s) (rs_txn s)])) ->
  mwp (act ac f) Q E s.
Proof. unfold mwp, act, call. cbn. by destruct (f (rs_world s)). Qed.
Lemma mwp_require prefix err Q E s : (err = None -> Q tt s) -> (err <> None -> E s) -> mwp (require prefix err) Q E s.
Proof. unfold mwp, require. destruct err; cbn; auto. Qed.
Lemma mwp_require_sum {A} prefix (r : A + error) Q E s :
  (forall a, r = inl a -> Q a s) -> E s -> mwp (require_sum prefix r) Q E s.
Proof. unfold mwp, require_sum. destruct r; cbn; auto. Qed.
Lemma mwp_update f (Q : unit -> RState W -> Prop) E s :
  Q tt (mkRState (rs_world s) (f (rs_txn s)) (rs_status s) (rs_trace s)) -> mwp (update_txn f) Q E s.
Proof. done. Qed.
Lemma mwp_when b m (Q : unit -> RState W -> Prop) E s :
  (b = true -> mwp m Q E s) -> (b = false -> Q tt s) -> mwp (when b m) Q E s.
Proof. destruct b; intros H1 H2; [by apply H1|by apply H2]. Qed.
End wp.

Section reload.
Context {W : Type} `{QuietEnv W}.
Context (cfg : Config).
Implicit Types s : RState W.

Definition guarded : bool := shouldApplyStartupGuard cfg.

(** What must hold when the system is acted upon. *)
Definition event_ok (ev : revent W) : Prop :=
  let t := ev_txn ev in
  match ev_action ev with
  | AcGuardApply _ => tx_dataplaneMutationStarted t = false
  | AcApply st =>
      tx_cleanupAttempted t = false /\ tx_resumed t = false /\
      (guarded = true -> loads (BuildNftPlan st []) (gt_tables (ev_world ev)) /\
         (rc_guardRuntime (W := W) = true -> tx_runtime t = true)) /\
      (mode_none cfg = true -> no_project (gt_tables (ev_world ev)))
  | AcGuardCleanup => tx_dataplaneValidated t = true \/
      tx_dataplaneMutationStarted t = false /\ tx_guardCreated t = true
  | AcResume lease => lease = tx_lease t /\ tx_resumed t = false /\ no_project (gt_tables (ev_world ev)) /\
      (tx_dataplaneValidated t = true \/ tx_dataplaneMutationStarted t = false /\ tx_barrierFresh t = true)
  | _ => True
  end.

Definition performed (ac : raction) s : Prop := exists ev, ev ∈ rs_trace s /\ ev_action ev = ac.
(** Neither a cleanup nor a resume. *)
Definition calm (ev : revent W) : Prop :=
  match ev_action ev with AcResume _ | AcGuardCleanup => False | _ => True end.

(** Before the dataplane is touched. *)
Record early s : Prop := {
  ea_wf : wf_tables (gt_tables (rs_world s));
  ea_events : Forall event_ok (rs_trace s);
  ea_calm : Forall calm (rs_trace s);
  ea_absent : tx_observation (rs_txn s) = ObservationAbsent -> no_project (gt_tables (rs_world s));
  ea_started : tx_dataplaneMutationStarted (rs_txn s) = false;
  ea_validated : tx_dataplaneValidated (rs_txn s) = false;
  ea_attempted : tx_cleanupAttempted (rs_txn s) = false;
  ea_resumed : tx_resumed (rs_txn s) = false;
  ea_normal : tx_normalCleanup (rs_txn s) = false
}.
(** Between the start of the replacement and its validation. *)
Record mutating (st : State) s : Prop := {
  mu_wf : wf_tables (gt_tables (rs_world s));
  mu_events : Forall event_ok (rs_trace s);
  mu_calm : Forall calm (rs_trace s);
  mu_loads : guarded = true -> loads (BuildNftPlan st []) (gt_tables (rs_world s));
  mu_started : tx_dataplaneMutationStarted (rs_txn s) = true;
  mu_validated : tx_dataplaneValidated (rs_txn s) = false;
  mu_attempted : tx_cleanupAttempted (rs_txn s) = false;
  mu_resumed : tx_resumed (rs_txn s) = false;
  mu_normal : tx_normalCleanup (rs_txn s) = false
}.
(** Once the new dataplane is validated. *)
Record valid (st : State) s : Prop := {
  va_wf : wf_tables (gt_tables (rs_world s));
  va_events : Forall event_ok (rs_trace s);
  va_started : tx_dataplaneMutationStarted (rs_txn s) = true;
  va_validated : tx_dataplaneValidated (rs_txn s) = true;
  va_cleaned : tx_normalCleanup (rs_txn s) = true -> tx_cleanupProvedAbsent (rs_txn s) = true ->
    no_project (gt_tables (rs_world s));
  va_resumed : tx_resumed (rs_txn s) = false;
  va_apply : performed (AcApply st) s;
  va_save : exists path, performed (AcSave (FromControlState path st)) s
}.

(** A step that leaves tables, transaction and record alone. *)
Lemma early_call {A} (f : W -> A * W) s : (forall w, gt_tables (f w).2 = gt_tables w) -> early s ->
  early (mkRState (f (rs_world s)).2 (rs_txn s) (rs_status s) (rs_trace s)).
Proof. intros Hf [K1 K2 K3 K4 K5 K6 K7 K8 K9]. constructor; cbn; rewrite ?Hf; auto. Qed.

Lemma loads_same p q m : sameNftPlan p q = true -> loads p m -> loads q m.
Proof.
  unfold sameNftPlan. intros [_ Hr%bool_decide_eq_true]%andb_prop (o & t & Hv & Hs & Hc & Hrules).
  exists o, t. by rewrite <- Hr.
Qed.

Lemma apply_guard_wp what st marks s : early s ->
  mwp (apply_guard what (BuildNftPlan st marks))
    (fun _ s' => early s' /\ loads (BuildNftPlan st marks) (gt_tables (rs_world s')) /\
       tx_runtime (rs_txn s') = tx_runtime (rs_txn s)) early s.
Proof.
  intros [K1 K2 K3 K4 K5 K6 K7 K8 K9]. unfold apply_guard. apply mwp_bind, mwp_act.
  pose proof (gt_Apply st marks (rs_world s) K1) as Hg.
  destruct (ge_Apply (BuildNftPlan st marks) (rs_world s)) as [[o err] w']. cbn [fst snd]. destruct Hg as [[G1 G2 G3 G4 G5] Hl].
  apply mwp_bind. cbn. apply mwp_bind. cbn. apply mwp_bind. set (s' := mkRState w' _ _ _).
  assert (early s') as He.
  { constructor; cbn; try done.
    - apply Forall_app. split; [done|]. by repeat constructor.
    - apply Forall_app. split; [done|]. by repeat constructor.
    - destruct (oc_Observation o) eqn:Ho; cbn; try done. rewrite (G4 eq_refl). exact K4. }
  apply mwp_require; [intros He0|by intros _].
  apply mwp_bind. cbn. case_bool_decide; cbn; [|done]. split_and!; [done|auto|done].
Qed.

Lemma quiesce_wp s : early s ->
  mwp quiesce (fun _ s' => early s' /\ tx_runtime (rs_txn s') = true) early s.
Proof.
  intros [K1 K2 K3 K4 K5 K6 K7 K8 K9]. unfold quiesce. apply mwp_bind, mwp_act. apply mwp_bind.
  set (s' := mkRState _ _ _ _). assert (early s') as He.
  { constructor; cbn; rewrite ?gt_Quiesce; try done; apply Forall_app; (split; [done|]); by repeat constructor. }
  apply mwp_require_sum; [|done]. intros lease _. destruct (sl_Token lease =? 0); [done|].
  cbn. split; [|done]. destruct He as [E1 E2 E3 E4 E5 E6 E7 E8 E9]. by constructor.
Qed.

Lemma raise_guard_wp st marks s : early s ->
  mwp (raise_guard (BuildNftPlan st marks))
    (fun _ s' => early s' /\ loads (BuildNftPlan st marks) (gt_tables (rs_world s')) /\
       (rc_guardRuntime (W := W) = true -> tx_runtime (rs_txn s') = true)) early s.
Proof.
  intros He. unfold raise_guard. apply mwp_bind. apply mwp_when.
  - intros Hr. eapply mwp_mono; [by apply quiesce_wp| |done]. intros [] s1 [He1 Hrun]. cbn.
    eapply mwp_mono; [by apply apply_guard_wp| |done]. intros [] s2 (He2 & Hl & Heq). cbn. rewrite Heq. auto.
  - intros Hr. eapply mwp_mono; [by apply apply_guard_wp| |done]. intros [] s2 (He2 & Hl & Heq). cbn.
    split_and!; [done..|]. by rewrite Hr.
Qed.

Lemma expand_guard_wp what p st marks s : early s -> loads p (gt_tables (rs_world s)) ->
  mwp (expand_guard what p (BuildNftPlan st marks))
    (fun p' s' => early s' /\ loads p' (gt_tables (rs_world s')) /\
       loads (BuildNftPlan st marks) (gt_tables (rs_world s')) /\
       tx_runtime (rs_txn s') = tx_runtime (rs_txn s)) early s.
Proof.
  intros He Hl. unfold expand_guard. destruct (sameNftPlan p (BuildNftPlan st marks)) eqn:Hs.
  - cbn. split_and!; [done|done|by eapply loads_same|done].
  - apply mwp_bind. eapply mwp_mono; [by apply apply_guard_wp| |done]. intros [] s' (He' & Hl' & Heq). cbn. auto.
Qed.

Lemma preflight_wp prefix s : early s ->
  mwp (preflightNoNFTStartupGuard prefix)
    (fun _ s' => early s' /\ no_project (gt_tables (rs_world s')) /\ tx_runtime (rs_txn s') = tx_runtime (rs_txn s))
    early s.
Proof.
  intros He. unfold preflightNoNFTStartupGuard. apply mwp_bind, mwp_call.
  pose proof (early_call _ _ gt_validateOwnerState He) as He1. apply mwp_bind, mwp_require; [intros _|done].
  apply mwp_bind, mwp_call. set (s1 := mkRState _ _ _ _) in *.
  pose proof (gt_Preflight (rs_world s1) (ea_wf _ He1)) as Hp. destruct (ge_Preflight (rs_world s1)) as [[o err] w'] eqn:E.
  destruct Hp as [Ht Htr]. cbn [fst snd].
  assert (early (mkRState w' (rs_txn s1) (rs_status s1) (rs_trace s1))) as He2.
  { destruct He1 as [E1 E2 E3 E4 E5 E6 E7 E8 E9]. constructor; cbn [rs_world rs_txn rs_trace]; rewrite ?Ht; auto. }
  apply mwp_bind, mwp_require; [intros _|done]. case_bool_decide as Ha; cbn; [|done].
  destruct (oc_Mutated o); [done|]. cbn. split_and!; [done| |done]. rewrite Ht. by rewrite Ha in Htr.
Qed.

(** *** The replacement *)

Lemma performed_app ac s w t k evs : performed ac s -> performed ac (mkRState w t k (rs_trace s ++ evs)).
Proof. intros (ev & Hev & Ha). exists ev. split; [|done]. cbn. apply elem_of_app. by left. Qed.
Lemma performed_new ac s w t k w' t' : performed ac (mkRState w t k (rs_trace s ++ [mkEvent ac w' t'])).
Proof. eexists. split; [cbn; apply elem_of_app; right; by left|done]. Qed.

(** The replacement of a dataplane that has been acted upon, with the transaction
    unchanged since. *)
Definition replacing (st : State) (t : startupGuardTxn) s : Prop :=
  mutating st s /\ performed (AcApply st) s /\ rs_txn s = t.

(** A call, or an action other than cleanup and resume, during the replacement. *)
Lemma mutating_act {A} ac (f : W -> A * W) st s : (forall w, gt_tables (f w).2 = gt_tables w) ->
  event_ok (mkEvent ac (rs_world s) (rs_txn s)) -> calm (mkEvent ac (rs_world s) (rs_txn s)) -> mutating st s ->
  mutating st (mkRState (f (rs_world s)).2 (rs_txn s) (rs_status s)
    (rs_trace s ++ [mkEvent ac (rs_world s) (rs_txn s)])).
Proof.
  intros Hf Hev Hc [K1 K2 K3 K4 K5 K6 K7 K8 K9].
  constructor; cbn; rewrite ?Hf; auto; apply Forall_app; (split; [done|]); by constructor.
Qed.
Lemma replacing_call {A} (f : W -> A * W) st t s : (forall w, gt_tables (f w).2 = gt_tables w) ->
  replacing st t s -> replacing st t (mkRState (f (rs_world s)).2 (rs_txn s) (rs_status s) (rs_trace s)).
Proof.
  intros Hf ([K1 K2 K3 K4 K5 K6 K7 K8 K9] & Hp & Ht). split_and!; [|done|done].
  constructor; cbn; rewrite ?Hf; auto.
Qed.
Lemma replacing_act {A} ac (f : W -> A * W) st t s : (forall w, gt_tables (f w).2 = gt_tables w) ->
  event_ok (mkEvent ac (rs_world s) (rs_txn s)) -> calm (mkEvent ac (rs_world s) (rs_txn s)) ->
  replacing st t s ->
  replacing st t (mkRState (f (rs_world s)).2 (rs_txn s) (rs_status s)
    (rs_trace s ++ [mkEvent ac (rs_world s) (rs_txn s)])).
Proof.
  intros Hf Hev Hc (Hm & Hp & Ht). split_and!; [by apply mutating_act|by apply performed_app|done].
Qed.

Lemma load_attach_wp st t s : replacing st t s ->
  mwp load_attach (fun _ => replacing st t) (replacing st t) s.
Proof.
  intros Hm. unfold load_attach. apply mwp_bind, mwp_call.
  pose proof (replacing_call _ _ _ _ gt_loadAttach Hm) as Hm1. apply mwp_bind, mwp_require_sum; [|done].
  intros [decoded|] _; [|done]. apply mwp_bind, mwp_lift; done.
Qed.

Lemma health_wp st t prefix (handled : option (option error)) s : replacing st t s ->
  mwp (match handled with Some err => require prefix err | None => mret tt end)
    (fun _ => replacing st t) (replacing st t) s.
Proof. intros Hm. destruct handled; [|done]. by apply mwp_require. Qed.

Lemma detach_stale_wp st t (previous : option AttachState) s : replacing st t s ->
  mwp (match previous with
       | Some previous =>
           when (rc_staleLoader (W := W))
             (let* err := act (AcDetachStale (ToControlState previous) st) (rc_DetachStale (ToControlState previous) st) in
              require "detach stale underlays: " err)
       | None => mret tt
       end) (fun _ => replacing st t) (replacing st t) s.
Proof.
  intros Hm. destruct previous as [previous|]; [|done]. apply mwp_when; [intros _|done].
  apply mwp_bind, mwp_act. set (s1 := mkRState _ _ _ _).
  assert (replacing st t s1) by (apply replacing_act; [apply gt_rc_DetachStale|done..]).
  by apply mwp_require.
Qed.

Lemma save_wp st t path s : replacing st t s ->
  mwp (let* err := act (AcSave (FromControlState path st)) (rc_saveAttach (FromControlState path st)) in
       do* require "" err in update_txn markValidated)
    (fun _ s' => valid st s' /\ rs_txn s' = markValidated t) (replacing st t) s.
Proof.
  intros Hm. apply mwp_bind, mwp_act. set (s1 := mkRState _ _ _ _).
  assert (replacing st t s1) as Hm1 by (apply replacing_act; [apply gt_saveAttach|done..]).
  apply mwp_bind, mwp_require; [intros _|done].
  destruct Hm1 as ([K1 K2 K3 K4 K5 K6 K7 K8 K9] & Hp & Ht).
  cbn. split; [|by rewrite <- Ht]. constructor; try done.
  - cbn in *. congruence.
  - exists path. apply (performed_new _ s).
Qed.

Lemma apply_dataplane_wp opts st s : early s ->
  (guarded = true -> loads (BuildNftPlan st []) (gt_tables (rs_world s)) /\
     (rc_guardRuntime (W := W) = true -> tx_runtime (rs_txn s) = true)) ->
  (mode_none cfg = true -> no_project (gt_tables (rs_world s))) ->
  mwp (apply_dataplane opts st)
    (fun _ s' => valid st s' /\ rs_txn s' = markValidated (startMutation (rs_txn s)))
    (replacing st (startMutation (rs_txn s))) s.
Proof.
  intros [K1 K2 K3 K4 K5 K6 K7 K8 K9] Hg Hnone. unfold apply_dataplane. apply mwp_bind.
  set (t := startMutation (rs_txn s)).
  set (s0 := mkRState (rs_world s) t (rs_status s) (rs_trace s)).
  apply mwp_update. fold t s0.
  assert (mutating st s0) as Hm0 by (constructor; cbn; auto; intros; by apply Hg).
  apply mwp_bind, mwp_act. set (s1 := mkRState _ _ _ _). assert (replacing st t s1) as Hm1.
  { split_and!; [apply mutating_act; [apply gt_rc_Apply| |done|done]|apply performed_new|done]. cbn. auto. }
  apply mwp_bind, mwp_require; [intros _|done].
  apply mwp_bind, mwp_call, mwp_bind.
  eapply mwp_mono; [apply health_wp, replacing_call, Hm1; apply gt_status| |done]. intros ? s2 Hm2.
  apply mwp_bind. eapply mwp_mono; [exact (load_attach_wp _ _ _ Hm2)| |done]. intros previous s3 Hm3.
  apply mwp_bind. eapply mwp_mono; [exact (detach_stale_wp _ _ _ _ Hm3)| |done]. intros ? s4 Hm4.
  exact (save_wp _ _ _ _ Hm4).
Qed.

(** *** The end of a reload *)

(** The new dataplane runs, and the guard is gone. *)
Record finished (st : State) s : Prop := {
  fi_events : Forall event_ok (rs_trace s);
  fi_apply : performed (AcApply st) s;
  fi_save : exists path, performed (AcSave (FromControlState path st)) s;
  fi_gone : guarded = true -> no_project (gt_tables (rs_world s));
  fi_resumed : guarded = true -> rc_guardRuntime (W := W) = true -> exists lease, performed (AcResume lease) s
}.

Lemma Forall_snoc {A} (P : A -> Prop) l x : Forall P l -> P x -> Forall P (l ++ [x]).
Proof. intros Hl Hx. apply Forall_app. by repeat constructor. Qed.

(** Resuming once nothing of the project is left. *)
Lemma resume_wp prefix st s : valid st s -> no_project (gt_tables (rs_world s)) ->
  mwp (resume prefix) (fun _ s' => finished st s' /\ Forall event_ok (rs_trace s'))
    (fun s' => valid st s' /\ rs_txn s' = rs_txn s) s.
Proof.
  intros [K1 K2 K3 K4 K5 K6 K7 [path K8]] Hn. unfold resume. apply mwp_bind. cbn. apply mwp_bind, mwp_act.
  assert (Forall event_ok (rs_trace s ++ [mkEvent (AcResume (tx_lease (rs_txn s))) (rs_world s) (rs_txn s)])) as Hev.
  { apply Forall_snoc; [done|]. cbn. auto 6. }
  apply mwp_bind, mwp_require; intros _; cbn.
  - split; [|done]. constructor; cbn; rewrite ?gt_Resume; try done; [by apply performed_app|exists path; by apply performed_app|].
    intros _ _. eexists. apply (performed_new _ s).
  - split; [|done]. constructor; cbn; rewrite ?gt_Resume; try done; [by apply performed_app|exists path; by apply performed_app].
Qed.

Lemma lower_guard_wp st s : valid st s -> (guarded = true -> rc_guardRuntime (W := W) = true -> tx_runtime (rs_txn s) = true) ->
  mwp lower_guard (fun _ => finished st) (valid st) s.
Proof.
  intros [K1 K2 K3 K4 K5 K6 K7 [path K8]] Hrun. unfold lower_guard. apply mwp_bind, mwp_act.
  pose proof (gt_Cleanup (rs_world s) K1) as Hg.
  destruct (ge_Cleanup (rs_world s)) as [[o err] w']. cbn [fst snd]. destruct Hg as [G1 G2 G3 G4 G5].
  apply mwp_bind, mwp_update, mwp_bind. cbn. apply mwp_bind. set (s' := mkRState w' _ _ _).
  assert (tx_cleanupProvedAbsent (rs_txn s') = true -> no_project (gt_tables w')) as Habs.
  { cbn. case_bool_decide as Ho; [intros _|done]. by rewrite Ho in G5. }
  assert (valid st s') as Hv.
  { constructor; cbn; try done; [|by apply performed_app|exists path; by apply performed_app].
    apply Forall_snoc; [done|]. cbn. by left. }
  apply mwp_require; [intros _|done]. apply mwp_bind. cbn [get_txn mwp].
  change (mwp (W := W) (if negb (tx_cleanupProvedAbsent (rs_txn s')) then mfail "cleanup startup guard returned kernel state"
    else when (tx_runtime (rs_txn s')) (resume "resume resident dataplane after startup guard: "))
    (fun _ => finished st) (valid st) s').
  destruct (tx_cleanupProvedAbsent (rs_txn s')) eqn:Hc; [cbn [negb]|done].
  apply mwp_when; intros Hr.
  - eapply mwp_mono; [exact (resume_wp _ _ _ Hv (Habs eq_refl))|by intros ? ? [? _]|by intros ? [? _]].
  - destruct Hv as [V1 V2 V3 V4 V5 V6 V7 V8]. constructor; auto.
    intros Hgd Hrt. specialize (Hrun Hgd Hrt). by rewrite (Hrun : tx_runtime (rs_txn s') = true) in Hr.
Qed.

(** *** The body *)

(** A plan is loaded and the runtime quiesced, if the mode asks for it. *)
Definition armed (p : NftPlan) s : Prop :=
  early s /\ (guarded = true -> loads p (gt_tables (rs_world s)) /\
    (rc_guardRuntime (W := W) = true -> tx_runtime (rs_txn s) = true)).
(** Where a failed body may stop. *)
Definition stopped s : Prop :=
  early s \/ (exists st t, replacing st t s) \/ (exists st, valid st s).

Lemma armed_stopped p s : armed p s -> stopped s.
Proof. intros [? _]. by left. Qed.

Lemma observed_marks_wp p wgs s : armed p s ->
  mwp (observedRuntimeFwmarks wgs) (fun _ => armed p) stopped s.
Proof.
  revert s. induction wgs as [|wg wgs IH]; intros s Hs; [done|]. cbn [observedRuntimeFwmarks].
  apply mwp_bind, mwp_call. set (s1 := mkRState _ _ _ _). assert (armed p s1) as Hs1.
  { destruct Hs as [He Ha]. split; [by apply early_call; [apply gt_ctx|]|]. cbn. by rewrite gt_ctx. }
  destruct (rc_ctx (rs_world s)).1; [done|]. apply mwp_bind, mwp_lift; [intros mark _|by eapply armed_stopped].
  apply mwp_bind. eapply mwp_mono; [exact (IH _ Hs1)| |done]. done.
Qed.

Lemma arm_wp st marks s : early s ->
  mwp (when guarded (raise_guard (BuildNftPlan st marks))) (fun _ => armed (BuildNftPlan st marks)) stopped s.
Proof.
  intros He. apply mwp_when; [intros Hg|intros Hg; split; [done|by rewrite Hg]].
  eapply mwp_mono; [exact (raise_guard_wp st marks _ He)| |by left]. intros ? s' (He' & Hl & Hr). by split.
Qed.

Lemma rearm_wp b what p st marks s : armed p s -> (guarded = false -> b = false) ->
  mwp (if b then expand_guard what p (BuildNftPlan st marks) else mret p) (fun p' => armed p') stopped s.
Proof.
  intros [He Ha] Hb. destruct b; [|done].
  destruct guarded eqn:Hg; [|by specialize (Hb eq_refl)]. destruct (Ha eq_refl) as [Hl Hr].
  eapply mwp_mono; [exact (expand_guard_wp what _ st marks _ He Hl)| |by left].
  intros p' s' (He' & Hl' & _ & Ht). split; [done|]. intros _. by rewrite Ht.
Qed.

Lemma observe_wp b p gst wgs s : armed p s -> (guarded = false -> b = false) ->
  mwp (if b then
         let* marks := observedRuntimeFwmarks wgs in
         expand_guard "expand startup guard for observed runtime fwmarks" p (BuildNftPlan gst marks)
       else mret p) (fun p' => armed p') stopped s.
Proof.
  intros Ha Hb. destruct b eqn:Eb; [|done]. apply mwp_bind.
  eapply mwp_mono; [exact (observed_marks_wp _ wgs _ Ha)| |done]. intros marks s1 Ha1.
  exact (rearm_wp true _ _ _ _ _ Ha1 Hb).
Qed.

(** Immediately before the dataplane is replaced. *)
Lemma cover_wp p st s : armed p s ->
  mwp (when guarded (do* expand_guard "expand startup guard for runtime fwmarks" p (BuildNftPlan st []) in mret tt))
    (fun _ => armed (BuildNftPlan st [])) stopped s.
Proof.
  intros [He Ha]. apply mwp_when; [intros Hg|intros Hg; split; [done|by rewrite Hg]].
  destruct (Ha Hg) as [Hl Hr]. apply mwp_bind.
  eapply mwp_mono; [exact (expand_guard_wp _ _ st [] _ He Hl)| |by left].
  intros ? s' (He' & _ & Hl' & Ht). split; [done|]. intros _. by rewrite Ht.
Qed.

(** What the mode "none" asks for. *)
Definition cleared s : Prop := mode_none cfg = true -> no_project (gt_tables (rs_world s)).

Lemma none_wp prefix p s : armed p s ->
  mwp (when (mode_none cfg) (preflightNoNFTStartupGuard prefix))
    (fun _ s' => armed p s' /\ cleared s') stopped s.
Proof.
  intros [He Ha]. apply mwp_when; intros Hm; [|split; [done|by unfold cleared; rewrite Hm]].
  eapply mwp_mono; [exact (preflight_wp prefix _ He)| |by left]. intros ? s' (He' & Hn & Ht).
  split; [split; [done|]|by intros _]. intros Hg. exfalso. revert Hg Hm.
  unfold guarded, shouldApplyStartupGuard, mode_none. intros [Hg _]%andb_prop Hm.
  apply String.eqb_eq in Hg, Hm. by rewrite Hg in Hm.
Qed.

Lemma replace_wp opts p st s : armed p s -> p = BuildNftPlan st [] -> cleared s ->
  mwp (do* apply_dataplane opts st in do* when guarded lower_guard in mret (mkReloadResult st guarded guarded))
    (fun r => finished (rr_State r)) stopped s.
Proof.
  intros [He Ha] -> Hn. apply mwp_bind.
  eapply mwp_mono; [exact (apply_dataplane_wp opts st s He Ha Hn)| |by right; left; eauto].
  intros ? s1 [Hv Ht]. apply mwp_bind, mwp_when; intros Hg.
  - assert (guarded = true -> rc_guardRuntime (W := W) = true -> tx_runtime (rs_txn s1) = true) as Hrun.
    { intros _. rewrite Ht. cbn. by apply Ha. }
    eapply mwp_mono; [exact (lower_guard_wp _ _ Hv Hrun)|done|right; right; eauto].
  - destruct Hv as [V1 V2 V3 V4 V5 V6 V7 V8]. by constructor; rewrite ?Hg.
Qed.

Lemma reload_body_wp opts s : ro_DryRun opts = false -> early s ->
  mwp (reload_body opts cfg) (fun r => finished (rr_State r)) stopped s.
Proof.
  intros Hdry He. unfold reload_body. rewrite Hdry. cbn [negb andb]. fold guarded.
  apply mwp_bind. eapply (mwp_mono _ (fun _ => early) _ stopped).
  { apply mwp_when; [intros _|done]. eapply mwp_mono; [exact (preflight_wp _ _ He)|by intros ? ? [? _]|by left]. }
  2: done.
  intros ? s1 He1. apply mwp_bind, mwp_lift; [intros gst _|by left].
  apply mwp_bind, mwp_lift; [intros ? _|by left]. apply mwp_bind, mwp_require; intros _; [|by left].
  apply mwp_bind. eapply (mwp_mono _ (fun _ s' => s' = s1) _ stopped).
  { cbn [when]. apply mwp_require; [done|by left]. }
  2: done.
  intros ? ? ->. apply mwp_bind. eapply mwp_mono; [exact (arm_wp gst [] _ He1)| |done]. intros ? s2 Ha2.
  apply mwp_bind. eapply mwp_mono; [refine (observe_wp _ _ _ _ _ Ha2 _); by intros ->| |done].
  intros p s3 Ha3. apply mwp_bind, mwp_lift; [intros st _|by eapply armed_stopped].
  apply mwp_bind, mwp_lift; [intros ? _|by eapply armed_stopped].
  apply mwp_bind. eapply mwp_mono; [exact (cover_wp _ st _ Ha3)| |done]. intros ? s4 Ha4.
  apply mwp_bind. eapply mwp_mono; [exact (none_wp _ _ _ Ha4)| |done]. intros ? s5 [Ha5 Hn5].
  exact (replace_wp opts _ _ _ Ha5 eq_refl Hn5).
Qed.

(** *** The failure path *)

(** A failed reload that had begun to replace the dataplane and did not validate
    it keeps the barrier of the state it was replacing. *)
Record settled s : Prop := {
  se_events : Forall event_ok (rs_trace s);
  se_barrier : tx_dataplaneMutationStarted (rs_txn s) = true -> tx_dataplaneValidated (rs_txn s) = false ->
    exists st, performed (AcApply st) s /\ Forall calm (rs_trace s) /\
      (guarded = true -> loads (BuildNftPlan st []) (gt_tables (rs_world s)))
}.

(** The last step: the runtime is resumed only where that is safe. *)
Definition resume_last (err : error) : M W error :=
  let* t := get_txn in
  if shouldResumeAfterFailure t then
    fun s => match resume "" s with
             | (Ret _, s) => (Ret err, s)
             | (Fail e, s) => (Ret (err +:+ newline +:+
                 "resume resident dataplane after failed startup guard transaction: " +:+ e), s)
             | (Panic, s) => (Panic, s)
             end
  else mret err.

Lemma resume_last_wp err s : settled s -> tx_resumed (rs_txn s) = false ->
  (tx_dataplaneValidated (rs_txn s) = true -> tx_normalCleanup (rs_txn s) = true ->
     tx_cleanupProvedAbsent (rs_txn s) = true -> no_project (gt_tables (rs_world s))) ->
  (tx_dataplaneMutationStarted (rs_txn s) = false -> tx_observation (rs_txn s) = ObservationAbsent ->
     no_project (gt_tables (rs_world s))) ->
  mwp (resume_last err) (fun _ => settled) settled s.
Proof.
  intros [K1 K2] Hres Hv He. unfold resume_last. apply mwp_bind. cbn [get_txn mwp].
  destruct (shouldResumeAfterFailure (rs_txn s)) eqn:Hs; [|by constructor].
  assert ((tx_dataplaneValidated (rs_txn s) = true \/
           tx_dataplaneMutationStarted (rs_txn s) = false /\ tx_barrierFresh (rs_txn s) = true) /\
          no_project (gt_tables (rs_world s))) as [Hc Hn].
  { revert Hs Hv. unfold shouldResumeAfterFailure. rewrite Hres.
    destruct (tx_runtime _); [|done]. cbn [negb orb].
    destruct (tx_dataplaneValidated _ && tx_normalCleanup _ && tx_cleanupProvedAbsent _) eqn:Ev.
    { apply andb_prop in Ev as [[-> ->]%andb_prop ->]. auto. }
    destruct (tx_barrierFresh _); [cbn [negb]|done].
    destruct (tx_dataplaneMutationStarted (rs_txn s)); [done|]. case_bool_decide; [auto|done]. }
  assert (forall w t, tx_dataplaneMutationStarted t = tx_dataplaneMutationStarted (rs_txn s) ->
     tx_dataplaneValidated t = tx_dataplaneValidated (rs_txn s) ->
     settled (mkRState w t (rs_status s)
       (rs_trace s ++ [mkEvent (AcResume (tx_lease (rs_txn s))) (rs_world s) (rs_txn s)]))) as Hset.
  { intros w t Ht1 Ht2. constructor; cbn [rs_trace rs_txn].
    - apply Forall_snoc; [done|]. cbn. auto.
    - rewrite Ht1, Ht2. intros. destruct Hc as [Hc|[Hc _]]; congruence. }
  unfold mwp, resume, mbind_M, act, call. cbn.
  destruct (rc_Resume (tx_lease (rs_txn s)) (rs_world s)) as [[e|] w']; cbn; by apply Hset.
Qed.

Lemma rollback_early_wp err s : early s ->
  mwp (rollback_guard cfg err)
    (fun _ s' => settled s' /\ tx_resumed (rs_txn s') = false /\
       tx_dataplaneValidated (rs_txn s') = false /\ tx_dataplaneMutationStarted (rs_txn s') = false /\
       (tx_observation (rs_txn s') = ObservationAbsent -> no_project (gt_tables (rs_world s'))))
    (fun _ => False) s.
Proof.
  intros [K1 K2 K3 K4 K5 K6 K7 K8 K9]. unfold rollback_guard. apply mwp_bind. cbn [get_txn mwp].
  destruct (shouldRollbackGuardOnFailure (rs_txn s)) eqn:Hr.
  2:{ cbn. split_and!; try done. constructor; [done|]. by rewrite K5. }
  unfold shouldRollbackGuardOnFailure in Hr. rewrite K5 in Hr. cbn [negb andb] in Hr.
  apply andb_prop in Hr as [[Hcr _]%andb_prop Ho%bool_decide_eq_true].
  apply (mwp_bind (act AcGuardCleanup (executor_Cleanup cfg))), mwp_act.
  destruct (executor_Cleanup cfg (rs_world s)) as [[o cerr] w'] eqn:E. cbn [fst snd].
  assert (truthful (oc_Observation o) (gt_tables w')) as Ht.
  { revert E. unfold executor_Cleanup. destruct (mode_none cfg); intros E.
    - pose proof (gt_Preflight (rs_world s) K1) as Hp. rewrite E in Hp. by destruct Hp as [-> ?].
    - pose proof (gt_Cleanup (rs_world s) K1) as Hp. rewrite E in Hp. by apply gp_truth in Hp. }
  apply mwp_bind. cbn. split_and!; try done.
  - constructor; cbn; [|by rewrite K5]. apply Forall_snoc; [done|]. cbn. auto.
  - rewrite Ho. by destruct (oc_Observation o).
Qed.

(** Once the replacement has begun, nothing is rolled back. *)
Lemma rollback_started_wp err s : tx_dataplaneMutationStarted (rs_txn s) = true ->
  mwp (rollback_guard cfg err) (fun _ s' => s' = s) (fun _ => False) s.
Proof.
  intros Hs. unfold rollback_guard. apply mwp_bind. cbn [get_txn mwp].
  unfold shouldRollbackGuardOnFailure. by rewrite Hs.
Qed.

Lemma finish_failed_wp err s : stopped s -> mwp (finish_failed cfg err) (fun _ => settled) settled s.
Proof.
  change (finish_failed cfg err) with (mbind_M (W := W) (rollback_guard cfg err) resume_last).
  intros [He|[(st & t & Hr)|[st Hv]]]; apply mwp_bind.
  - eapply mwp_mono; [exact (rollback_early_wp err _ He)| |done]. intros e s' (Hs & Hres & Hval & Hst & Hn).
    apply resume_last_wp; [done|done|by rewrite Hval|auto].
  - destruct Hr as ([M1 M2 M3 M4 M5 M6 M7 M8 M9] & Hp & _).
    eapply mwp_mono; [exact (rollback_started_wp err _ M5)| |done]. intros e s' ->.
    apply resume_last_wp; [constructor; eauto|done|congruence|congruence].
  - destruct Hv as [V1 V2 V3 V4 V5 V6 V7 V8].
    eapply mwp_mono; [exact (rollback_started_wp err _ V3)| |done]. intros e s' ->.
    apply resume_last_wp; [constructor; [done|congruence]|done|auto|congruence].
Qed.

Lemma stopped_events s : stopped s -> Forall event_ok (rs_trace s).
Proof. intros [He|[(st & t & Hm & _)|[st Hv]]]; [apply He|apply Hm|apply Hv]. Qed.

Lemma start_early status s : wf_tables (gt_tables (rs_world s)) -> rs_trace s = [] ->
  (status = KernelAbsent -> no_project (gt_tables (rs_world s))) ->
  early (mkRState (rs_world s) (newStartupGuardTxn status) status (rs_trace s)).
Proof.
  intros Hwf Ht Ha. constructor; cbn; rewrite ?Ht; try done. destruct status; auto; done.
Qed.

Lemma initial_status_wp s : wf_tables (gt_tables (rs_world s)) ->
  mwp (initial_status cfg)
    (fun status s' => gt_tables (rs_world s') = gt_tables (rs_world s) /\ rs_trace s' = rs_trace s /\
       (status = KernelAbsent -> no_project (gt_tables (rs_world s)))) (fun _ => False) s.
Proof.
  intros Hwf. unfold initial_status. destruct (mode_none cfg); [done|]. apply mwp_bind, mwp_call.
  pose proof (gt_Observe (rs_world s) Hwf) as Ho. destruct (ge_Observe (rs_world s)) as [[o err] w'].
  destruct Ho as [Hw Ho]. cbn. split_and!; [done|done|]. unfold projectGuardOutcome.
  by destruct (oc_Observation o).
Qed.
End reload.

(** A dry run only reads. *)
Lemma dry_run_body {W} `{QuietEnv W} opts cfg (s : RState W) : ro_DryRun opts = true ->
  mwp (reload_body opts cfg) (fun _ s' => rs_trace s' = rs_trace s) (fun s' => rs_trace s' = rs_trace s) s.
Proof.
  intros Hd. unfold reload_body. rewrite Hd. cbn [negb andb when]. repeat (apply mwp_bind; cbn [mret mwp]).
  apply mwp_lift; [intros gst _|done]. apply mwp_bind, mwp_lift; [intros ? _|done].
  apply mwp_bind, mwp_require; [intros _|done]. repeat (apply mwp_bind; cbn [mret mwp]).
  apply mwp_lift; [intros st _|done]. apply mwp_bind, mwp_lift; done.
Qed.
Lemma dry_run_reload {W} `{QuietEnv W} opts (s : RState W) : ro_DryRun opts = true ->
  rs_trace (reloadUnlocked opts s).2 = rs_trace s.
Proof.
  intros Hd. unfold reloadUnlocked, mbind_M, call. rewrite Hd.
  destruct (rc_loadConfig (rs_world s)) as [[cfg|err] w1]; [cbn|done]. set (s1 := mkRState w1 _ _ _).
  pose proof (dry_run_body opts cfg s1 Hd) as Hb. unfold mwp in Hb.
  by destruct (reload_body opts cfg s1) as [[r|e|] s2].
Qed.


(** ** Detach *)

(** [ifindex] is among the interfaces that a call of the loader's [Detach] got. *)
Definition covers (st : State) (ifindex : Z) : Prop := exists u, u ∈ st_Underlays st /\ us_IfIndex u = ifindex.

Section detach.
Context {W : Type} `{QuietEnv W}.
Implicit Types s : RState W.

(** Nothing was done. *)
Definition kept s s' : Prop := rs_trace s' = rs_trace s /\ gt_tables (rs_world s') = gt_tables (rs_world s).

(** What the attach-state file and the configuration say at the start. *)
Definition saved_state (w : W) : option AttachState :=
  match (rc_loadAttach w).1 with inl (Some a) => Some a | _ => None end.

Lemma merge_covers states ifindex :
  covers (MergeControlStates states) ifindex <-> exists st, st ∈ states /\ resolved_in ifindex (st_Underlays st).
Proof.
  unfold covers, MergeControlStates, empty_state. cbn [st_Underlays]. rewrite merge_spec. split.
  - intros [(u & Hu & Hr) _]. apply list_elem_of_In, in_flat_map in Hu as (st & Hst & Hu).
    exists st. split; [by apply list_elem_of_In|]. exists u. split; [by apply list_elem_of_In|done].
  - intros (st & Hst & u & Hu & Hr). split; [|apply not_elem_of_nil].
    exists u. split; [|done]. apply list_elem_of_In, in_flat_map. exists st. split; by apply list_elem_of_In.
Qed.

(** A load leaves the trace alone and returns what the file says. *)
Lemma load_attach_value s :
  mwp load_attach (fun saved s' => saved = saved_state (rs_world s) /\ kept s s') (kept s) s.
Proof.
  unfold load_attach, saved_state. apply mwp_bind, mwp_call. set (s1 := mkRState _ _ _ _).
  assert (kept s s1) as Hk by (split; [done|apply gt_loadAttach]).
  apply mwp_bind, mwp_require_sum; [|done]. intros decoded ->. destruct decoded as [a|]; [|done]. apply mwp_bind, mwp_lift; [|done].
  intros b Hb. split; [|done]. unfold attach_Load in Hb. destruct (negb _); [done|]. by injection Hb as ->.
Qed.

Lemma attempt_lift_wp {A} (o : outcome A) (Q : A + error -> RState W -> Prop) E s :
  (forall r, Q r s) -> E s -> mwp (attempt (lift o)) Q E s.
Proof. intros HQ HE. unfold mwp, attempt, lift. destruct o; auto. Qed.

(** Every interface on record is in the state that is detached. *)
Definition covers_saved (saved : option AttachState) (st : State) : Prop :=
  forall a ifindex, saved = Some a -> resolved_in ifindex (st_Underlays (ToControlState a)) -> covers st ifindex.

Definition saved_states (saved : option AttachState) : list State :=
  match saved with Some saved => [ToControlState saved] | None => [] end.
Lemma merged_covers_saved saved states : (forall st, st ∈ saved_states saved -> st ∈ states) ->
  covers_saved saved (MergeControlStates states).
Proof. intros Hs a i -> Hr. apply merge_covers. exists (ToControlState a). split; [apply Hs; by left|done]. Qed.

Lemma detachState_wp opts s :
  mwp (detachState opts)
    (fun merged s' => kept s s' /\
       forall st, default (empty_state []) merged = st -> covers_saved (saved_state (rs_world s)) st)
    (kept s) s.
Proof.
  unfold detachState. apply mwp_bind. eapply mwp_mono; [exact (load_attach_value s)| |done].
  intros saved s1 [-> Ht1]. generalize (saved_state (rs_world s)). intros saved.
  change (match saved with Some saved => [ToControlState saved] | None => [] end) with (saved_states saved).
  apply mwp_bind, mwp_call. set (s2 := mkRState _ _ _ _).
  assert (kept s s2) as Ht2 by (destruct Ht1; split; [done|]; cbn; by rewrite gt_loadConfig).
  generalize dependent s2. intros s2 Ht2.
  apply mwp_bind. eapply (mwp_mono _ (fun states s' => kept s s' /\
    forall st, st ∈ saved_states saved -> st ∈ states) _ (kept s)).
  - destruct (rc_loadConfig (rs_world s1)).1 as [cfg|err].
    + apply mwp_bind, attempt_lift_wp; [|done]. intros [current|re].
      * cbn. split; [done|]. intros st Hst. apply elem_of_app. by left.
      * destruct (saved_states saved) eqn:Es; [|done].
        apply mwp_bind, attempt_lift_wp; [|done]. intros [offline|oe]; [|done].
        cbn. split; [done|]. by intros st ?%elem_of_nil.
    + by destruct (negb _).
  - intros states s3 [Ht3 Hs3]. unfold mwp, mret. split; [done|].
    pose proof (merged_covers_saved _ _ Hs3) as Hm. intros st <-.
    destruct (len (st_Underlays (MergeControlStates states)) =? 0) eqn:E; [|done]. cbn [default].
    intros a i Ha Hr. destruct (Hm a i Ha Hr) as (u & Hu & _). exfalso. apply Z.eqb_eq in E.
    unfold len in E. destruct (st_Underlays (MergeControlStates states)); [by apply elem_of_nil in Hu|done].
  - done.
Qed.

(** The events of a detach: none, a detach that failed, or both steps in order. *)
Inductive detach_events (saved : option AttachState) : list (revent W) -> Prop :=
| DetachNothing : detach_events saved []
| DetachFailed st w t : covers_saved saved st -> (rc_Detach st w).1 <> None ->
    detach_events saved [mkEvent (AcDetach st) w t]
| DetachRemoved st w t w' t' : covers_saved saved st -> (rc_Detach st w).1 = None ->
    detach_events saved [mkEvent (AcDetach st) w t; mkEvent AcRemove w' t'].

Definition detach_post saved s (success : option State) s' : Prop :=
  gt_tables (rs_world s') = gt_tables (rs_world s) /\ exists evs, rs_trace s' = rs_trace s ++ evs /\ detach_events saved evs /\
    forall st, success = Some st -> map ev_action evs = [AcDetach st; AcRemove].

Lemma detach_nothing saved s s' : kept s s' -> detach_post saved s None s'.
Proof. intros [Ht Hw]. split; [done|]. exists []. rewrite app_nil_r. split_and!; [done|constructor|done]. Qed.
Lemma detach_post_none saved s o s' : detach_post saved s o s' -> detach_post saved s None s'.
Proof. intros (Hw & evs & Ht & He & _). split; [done|]. by exists evs. Qed.

Lemma detachUnlocked_wp opts s : ro_DryRun opts = false ->
  mwp (detachUnlocked opts) (fun r s' => detach_post (saved_state (rs_world s)) s r s' /\
      (r = None -> covers_saved (saved_state (rs_world s)) (empty_state []) /\ rs_trace s' = rs_trace s))
    (fun s' => detach_post (saved_state (rs_world s)) s None s') s.
Proof.
  intros Hd. unfold detachUnlocked. rewrite Hd. apply mwp_bind.
  eapply mwp_mono; [exact (detachState_wp opts s)| |intros s'; apply detach_nothing].
  intros [st|] s1 [Ht Hc]; [|split; [by apply detach_nothing|intros _; split; [by apply Hc|apply Ht]]].
  specialize (Hc st eq_refl). apply mwp_bind, mwp_act, mwp_bind, mwp_require; intros Hr.
  2:{ destruct Ht as [Ht Hw]. split; [cbn; by rewrite gt_rc_Detach|]. eexists. split_and!; [cbn; by rewrite Ht|by constructor|done]. }
  apply mwp_bind, mwp_act. cbn [rs_world rs_txn rs_status rs_trace].
  set (s2 := mkRState _ _ _ _).
  assert (detach_post (saved_state (rs_world s)) s (Some st) s2) as Hp.
  { destruct Ht as [Ht Hw]. split; [cbn; by rewrite gt_removeAttach, gt_rc_Detach|].
    eexists. split_and!; [cbn; by rewrite Ht, <- app_assoc|by constructor|]. by intros ? [= <-]. }
  apply mwp_bind, mwp_require; intros _; [done|by eapply detach_post_none].
Qed.

(** At most one cleanup of the guard. *)
Definition one_cleanup (evs : list (revent W)) : Prop := evs = [] \/ exists w t, evs = [mkEvent AcGuardCleanup w t].

(** Cleaning the guard at a stop. *)
Lemma cleanup_stop_wp mode s : wf_tables (gt_tables (rs_world s)) ->
  (mode = Some StartupGuardModeNone -> no_project (gt_tables (rs_world s))) ->
  mwp (cleanupGuardForStop mode)
    (fun cleaned s' => no_project (gt_tables (rs_world s')) /\ cleaned = bool_decide (mode <> Some StartupGuardModeNone) /\
       exists evs, rs_trace s' = rs_trace s ++ evs /\ one_cleanup evs)
    (fun s' => exists evs, rs_trace s' = rs_trace s ++ evs /\ one_cleanup evs) s.
Proof.
  intros Hwf Hn. unfold cleanupGuardForStop. case_bool_decide as Hm.
  { cbn. split_and!; [by apply Hn| |exists []; rewrite app_nil_r; by split; [|left]]. symmetry. apply bool_decide_eq_false. by intros []. }
  apply mwp_bind, mwp_act. pose proof (gt_Cleanup (rs_world s) Hwf) as Hg.
  destruct (ge_Cleanup (rs_world s)) as [[o err] w']. apply gp_truth in Hg. cbn [fst snd].
  assert (exists evs, rs_trace s ++ [mkEvent AcGuardCleanup (rs_world s) (rs_txn s)] = rs_trace s ++ evs /\
    one_cleanup evs) as Hone by (eexists; split; [done|right; by eexists _, _]).
  apply mwp_bind, mwp_require; intros _; [|exact Hone].
  case_bool_decide as Ha; [|exact Hone]. cbn. split_and!; [|symmetry; by apply bool_decide_eq_true|exact Hone].
  revert Ha Hg. unfold projectGuardOutcome. by destruct (oc_Observation o).
Qed.

Lemma stop_preflight_wp prefix s : wf_tables (gt_tables (rs_world s)) ->
  mwp (preflightNoNFTStartupGuard prefix)
    (fun _ s' => kept s s' /\ saved_state (rs_world s') = saved_state (rs_world s) /\
       no_project (gt_tables (rs_world s)))
    (kept s) s.
Proof.
  intros Hwf. unfold preflightNoNFTStartupGuard. apply mwp_bind, mwp_call.
  set (s1 := mkRState _ _ _ _). assert (kept s s1) as [Hk1 Hk2] by (split; [done|apply gt_validateOwnerState]).
  apply mwp_bind, mwp_require; [intros _|done]. apply mwp_bind, mwp_call.
  assert (wf_tables (gt_tables (rs_world s1))) as Hwf1 by by rewrite Hk2.
  pose proof (gt_Preflight (rs_world s1) Hwf1) as Hp. pose proof (qe_Preflight (rs_world s1)) as Hf.
  destruct (ge_Preflight (rs_world s1)) as [[o err] w']. cbn [snd] in Hf.
  destruct Hp as [Hw Ht]. rewrite Hk2 in Hw, Ht. cbn [fst snd].
  apply mwp_bind, mwp_require; [intros _|done]. case_bool_decide as Ha; cbn [negb orb]; [|done].
  destruct (oc_Mutated o); [done|]. split_and!; [done| |by rewrite Ha in Ht].
  unfold saved_state. cbn [rs_world]. rewrite Hf. unfold s1. cbn [rs_world]. by rewrite qe_validateOwnerState.
Qed.

(** The guard mode, and with mode "none" the proof that nothing is loaded. *)
Lemma stop_prepare_wp {A} opts (k : option string -> M W A) Q (E : RState W -> Prop) s :
  wf_tables (gt_tables (rs_world s)) -> ro_DryRun opts = false ->
  (forall mode s', kept s s' -> saved_state (rs_world s') = saved_state (rs_world s) ->
     (mode = Some StartupGuardModeNone -> no_project (gt_tables (rs_world s))) -> mwp (k mode) Q E s') ->
  (forall s', kept s s' -> E s') ->
  mwp (let* mode := configuredStartupGuardMode in
       do* when (negb (ro_DryRun opts) && bool_decide (mode = Some StartupGuardModeNone))
             (preflightNoNFTStartupGuard "preflight disabled startup guard during stop: ") in k mode) Q E s.
Proof.
  intros Hwf Hd HQ HE. rewrite Hd. cbn [negb andb]. apply mwp_bind.
  unfold configuredStartupGuardMode. apply mwp_bind, mwp_call. unfold mwp at 1, mret.
  set (s1 := mkRState _ _ _ _).
  assert (gt_tables (rs_world s1) = gt_tables (rs_world s)) as Hk by apply gt_loadConfig.
  assert (saved_state (rs_world s1) = saved_state (rs_world s)) as Hf
    by (unfold saved_state; cbn; by rewrite qe_loadConfig).
  apply mwp_bind, mwp_when; [intros _|intros Hm%bool_decide_eq_false; by apply HQ].
  assert (wf_tables (gt_tables (rs_world s1))) as Hwf1 by by rewrite Hk.
  eapply mwp_mono; [exact (stop_preflight_wp _ _ Hwf1)| |].
  - intros ? s2 ([Hk2 Hw2] & Hf2 & Hn). rewrite Hk in Hw2, Hn. apply HQ; [done|congruence|done].
  - intros s2 [Hk2 Hw2]. rewrite Hk in Hw2. by apply HE.
Qed.

Definition stop_post saved s (r : option (State * bool)) s' : Prop :=
  exists evs rest, rs_trace s' = rs_trace s ++ evs ++ rest /\ detach_events saved evs /\ one_cleanup rest /\
    (rest <> [] -> evs = [] \/ exists st, map ev_action evs = [AcDetach st; AcRemove]) /\
    forall st cleaned, r = Some (st, cleaned) -> no_project (gt_tables (rs_world s')) /\ covers_saved saved st /\
      forall ifindex, covers st ifindex -> map ev_action evs = [AcDetach st; AcRemove].

Lemma stop_wp opts s : wf_tables (gt_tables (rs_world s)) -> ro_DryRun opts = false ->
  mwp (Stop opts) (fun r => stop_post (saved_state (rs_world s)) s (Some r))
    (stop_post (saved_state (rs_world s)) s None) s.
Proof.
  intros Hwf Hd. apply stop_prepare_wp; [done|done| |].
  2:{ intros s' [Ht _]. exists [], []. rewrite app_nil_r. split_and!; [done|constructor|by left|done|done]. }
  intros mode s1 [Ht1 Hw1] Hf1 Hn. apply mwp_bind.
  eapply mwp_mono; [exact (detachUnlocked_wp opts s1 Hd)| |].
  2:{ intros s2 (_ & evs & Ht & He & _). exists evs, []. rewrite app_nil_r, <- Ht1, <- Hf1. split_and!; try done. by left. }
  rewrite Hf1. intros r s2 [(Hw2 & evs & Ht2 & He & Hr) Hnone]. rewrite Hd.
  assert (evs = [] \/ exists st, map ev_action evs = [AcDetach st; AcRemove]) as Hdone.
  { destruct r as [st|]; [right; exists st; by apply Hr|left]. destruct (Hnone eq_refl) as [_ Hs]. rewrite Hs in Ht2.
    by eapply app_inv_head; rewrite app_nil_r. }
  apply mwp_bind. eapply mwp_mono; [apply (cleanup_stop_wp mode)| |]; rewrite ?Hw2, ?Hw1; try done.
  2:{ intros s3 (rest & Ht3 & Hone). exists evs, rest. by rewrite Ht3, Ht2, Ht1, app_assoc. }
  intros cleaned s3 (Hnp & _ & rest & Ht3 & Hone). cbn. exists evs, rest.
  split_and!; [by rewrite Ht3, Ht2, Ht1, app_assoc|done|done|done|]. intros st c [= <- <-]. split_and!; [done| |].
  - destruct r as [st|]; [|by apply Hnone]. cbn.
    specialize (Hr st eq_refl). destruct He as [|st' w t Hc|st' w t w' t' Hc]; cbn in Hr; try done. by injection Hr as <-.
  - intros i. destruct r as [st|]; [by intros _; apply Hr|]. by intros (u & ?%elem_of_nil & _).
Qed.
End detach.


(** ** The command executor *)

#[export] Instance command_executor {W} `{GuardKernel W} : GuardExecutor W := {
  ge_Apply := guard_Apply;
  ge_Cleanup := guard_Cleanup;
  ge_Observe := guard_Observe;
  ge_Preflight := preflight_Check
}.

Lemma preflight_Check_spec {W} `{GuardKernelLaws W} (w : W) o err w' : preflight_Check w = ((o, err), w') ->
  gk_tables w' = gk_tables w /\ truthful (oc_Observation o) (gk_tables w).
Proof.
  unfold preflight_Check. destruct (listProjectTables w) as [r w1] eqn:E.
  destruct (listProjectTables_spec _ _ _ E) as [H1 Hl]. intros [= Ho <-]. split; [done|].
  destruct r as [[|t ts]|e]; injection Ho as <- _; [|done..]. cbn. intros n Hn.
  destruct (gk_tables w !! n) eqn:Hm; [|done]. exfalso. apply (not_elem_of_nil n), (Hl [] eq_refl).
  by rewrite Hm.
Qed.

(** The executor of the program keeps the promise on every kernel that obeys
    [GuardKernelLaws]. *)
#[export] Instance command_executor_truth {W} `{GuardKernelLaws W} : GuardTruth W.
Proof.
  refine (Build_GuardTruth W _ gk_tables _ _ _ _).
  - intros st marks w Hwf. cbn. destruct (guard_Apply (BuildNftPlan st marks) w) as [[o err] w'] eqn:E.
    destruct (guard_Apply_spec _ _ _ _ _ (plan_rules st marks) Hwf E) as [Hp Hn]. split; [done|].
    intros He. by apply Hn.
  - intros w Hwf. cbn. destruct (guard_Cleanup w) as [[o err] w'] eqn:E.
    by destruct (guard_Cleanup_spec _ _ _ _ Hwf E).
  - intros w Hwf. cbn. destruct (guard_Observe w) as [[o err] w'] eqn:E.
    destruct (guard_Observe_spec _ _ _ _ Hwf E) as (Hw & _ & Ht). done.
  - intros w Hwf. cbn. destruct (preflight_Check w) as [[o err] w'] eqn:E.
    by apply (preflight_Check_spec _ _ _ _ E).
Defined.

(** ** A reload on the sample kernel *)

Record reload_world := mkReloadWorld { rw_kernel : sample_kernel; rw_saved : option AttachState; rw_applied : list State }.

(** The executor runs on the kernel of the world. *)
Definition on_kernel {A} (f : sample_kernel -> A * sample_kernel) (w : reload_world) : A * reload_world :=
  let '(a, k) := f (rw_kernel w) in (a, mkReloadWorld k (rw_saved w) (rw_applied w)).
#[export] Instance reload_executor : GuardExecutor reload_world := {
  ge_Apply plan := on_kernel (guard_Apply plan);
  ge_Cleanup := on_kernel guard_Cleanup;
  ge_Observe := on_kernel guard_Observe;
  ge_Preflight := on_kernel preflight_Check
}.
#[export] Instance reload_truth : GuardTruth reload_world.
Proof.
  refine (Build_GuardTruth _ _ (fun w => gt_tables (rw_kernel w)) _ _ _ _).
  - intros st marks w Hwf. pose proof (gt_Apply st marks (rw_kernel w) Hwf) as Hg. cbn in *. unfold on_kernel.
    by destruct (guard_Apply (BuildNftPlan st marks) (rw_kernel w)) as [[o err] k].
  - intros w Hwf. pose proof (gt_Cleanup (rw_kernel w) Hwf) as Hg. cbn in *. unfold on_kernel.
    by destruct (guard_Cleanup (rw_kernel w)) as [[o err] k].
  - intros w Hwf. pose proof (gt_Observe (rw_kernel w) Hwf) as Hg. cbn in *. unfold on_kernel.
    by destruct (guard_Observe (rw_kernel w)) as [[o err] k].
  - intros w Hwf. pose proof (gt_Preflight (rw_kernel w) Hwf) as Hg. cbn in *. unfold on_kernel.
    by destruct (preflight_Check (rw_kernel w)) as [[o err] k].
Defined.

Definition reload_control : ControlEnv := {|
  loadWG _ := Ret (mkInterface (Some 81) (Some 51820));
  Device name := Ret (mkDevice 81 51820 7);
  Resolve _ := Ret (mkResolved "eth0" 2 "device" "transform");
  ReadFile _ := Fail "no such file";
  StdEncoding_DecodeString l := Ret l;
  hkdf_read secret n := Ret (replicate (Z.to_nat n) 1);
  md5_Sum _ := replicate 16 1
|}.
Definition reload_config : Config :=
  ApplyDefaults (mkConfig 0 "" [mkUnderlay "wan" "netdev" "ethernet"]
    [mkWireGuard "wg1" "" "default" "" ""
       (mkTransport "" (mkICMP "" 0) (mkFakeTCP false "" "" 0 0 0 0 0 0 0 0 0 0 0 0 0 0))]
    {["default" := mkProfile "wireguard-mix-wire-values-v1" TypeWordProfile_zero "none" false]}
    ∅ "" (mkRuntime 0 "" "" false false false false false) (mkGuard "" "" "" "") "" Policy_zero).

#[export] Instance reload_env : ReconcileEnv reload_world := {
  rc_control := reload_control;
  rc_profileOrder := ["default"];
  rc_cipherOrder := [];
  rc_loadConfig w := (inl reload_config, w);
  rc_validateOwnerState w := (None, w);
  rc_ctx w := (None, w);
  rc_guardRuntime := true;
  rc_Quiesce w := (inl (mkLease true 5), w);
  rc_Resume _ w := (None, w);
  rc_Apply st w := (None, mkReloadWorld (rw_kernel w) (rw_saved w) (rw_applied w ++ [st]));
  rc_Detach st w := (None, mkReloadWorld (rw_kernel w) (rw_saved w) []);
  rc_staleLoader := true;
  rc_DetachStale _ _ w := (None, w);
  rc_status _ w := (None, w);
  rc_loadAttach w := (inl (rw_saved w), w);
  rc_saveAttach a w := (None, mkReloadWorld (rw_kernel w) (Some a) (rw_applied w));
  rc_removeAttach w := (None, mkReloadWorld (rw_kernel w) None (rw_applied w))
}.
#[export] Instance reload_quiet : QuietEnv reload_world.
Proof. by constructor. Defined.

Definition reload_start : RState reload_world :=
  mkRState (mkReloadWorld foreign_kernel None []) (newStartupGuardTxn KernelUnknown) KernelUnknown [].
Definition reload_opts : ReconcileOptions := mkReconcileOptions "/etc/wg-mix-ebpf/config.yaml" false false true.


(** A stop after the reload above: the interface it attached is detached. *)
Definition reloaded : RState reload_world := (Reload reload_opts reload_start).2.
Definition reloaded_state : State :=
  match (Reload reload_opts reload_start).1 with Ret r => rr_State r | _ => empty_state [] end.
Lemma reloaded_wf : wf_tables (gt_tables (rs_world reloaded)).
Proof.
  change (wf_tables (k_tables (rw_kernel (rs_world reloaded)))).
  replace (k_tables (rw_kernel (rs_world reloaded))) with (gk_tables foreign_kernel) by (vm_compute; reflexivity).
  exact foreign_kernel_wf.
Qed.

