(* ===== verification/GenerationGate.v ===== *)
(** * The generation gate
    (bpf/wg_mix_faketcp.h: faketcp_generation_enter, _exit, _open, _close and
    wg_faketcp_generation_control;
    internal/dataplane/faketcp_generation_barrier_linux.go)

    Packet programs enter and leave a generation through one 64-bit word that the
    control program opens and seals with compare-and-swap.  A packet program is a
    thread whose step is one access to shared memory; threads run before every
    access of the control program and every call of the barrier. *)
From Stdlib Require Import ZArith Lia.
From stdpp Require Import base option list gmap strings numbers.
From S2P Require Import Prelude Abi Runtime ErrorState.

(** ** Constants *)

Definition FakeTCPGenerationStateOpen : Z := 2 ^ 63.
Definition FakeTCPGenerationStateSealed : Z := 2 ^ 62.
Definition FakeTCPGenerationStatePoison : Z := 2 ^ 61.
Definition FakeTCPGenerationStateWakeArmed : Z := 2 ^ 60.
Definition FakeTCPGenerationInflightMask : Z := FakeTCPGenerationStateWakeArmed - 1.
Definition FakeTCPGenerationControlAssertClosed : Z := 1.
Definition FakeTCPGenerationControlOpen : Z := 2.
Definition FakeTCPGenerationControlClose : Z := 3.
Definition FakeTCPGenerationResultMalformed : Z := 0.
Definition FakeTCPGenerationResultIdle : Z := 1.
Definition FakeTCPGenerationResultOpen : Z := 2.
Definition FakeTCPGenerationResultWait : Z := 3.
Definition FakeTCPGenerationResultPoison : Z := 4.
Definition FakeTCPGenerationResultMismatch : Z := 5.
Definition FAKETCP_GENERATION_CAS_ATTEMPTS : nat := 8.
Definition sealed_armed : Z := Z.lor FakeTCPGenerationStateSealed FakeTCPGenerationStateWakeArmed.

Definition count_of (state : Z) : Z := Z.land state FakeTCPGenerationInflightMask.
Definition flags_of (state : Z) : Z := Z.ldiff state FakeTCPGenerationInflightMask.
Definition poisoned (flags : Z) : bool := negb (Z.land flags FakeTCPGenerationStatePoison =? 0).

(** ** Shared memory *)

Record generation_wake := mkWake { wk_Generation : Z; wk_Incarnation : list Z; wk_State : Z }.
(** The gate, the wake ring, and the runtime identity map's entry. *)
Record gate_kernel := mkGate {
  gk_generation : Z; gk_state : Z; gk_wakes : list generation_wake; gk_identity : option RuntimeIdentity
}.
Definition set_state (state : Z) (k : gate_kernel) : gate_kernel :=
  mkGate (gk_generation k) state (gk_wakes k) (gk_identity k).
Definition set_wakes (wakes : list generation_wake) (k : gate_kernel) : gate_kernel :=
  mkGate (gk_generation k) (gk_state k) wakes (gk_identity k).
Definition set_generation (generation : Z) (k : gate_kernel) : gate_kernel :=
  mkGate generation (gk_state k) (gk_wakes k) (gk_identity k).

(** [faketcp_runtime_identity], of an entry with the current event version. *)
Definition faketcp_runtime_identity (generation : Z) (k : gate_kernel) : option (list Z) :=
  match gk_identity k with
  | None => None
  | Some id =>
      if negb (RI_Generation id =? generation) then None
      else if bool_decide (RI_Incarnation id = zeros 16) then None
      else Some (RI_Incarnation id)
  end.

(** [__sync_val_compare_and_swap]: the value found. *)
Definition cas_state (expected new : Z) (k : gate_kernel) : Z * gate_kernel :=
  (gk_state k, if gk_state k =? expected then set_state new k else k).
Definition cas_generation (expected new : Z) (k : gate_kernel) : Z * gate_kernel :=
  (gk_generation k, if gk_generation k =? expected then set_generation new k else k).
Definition faketcp_generation_poison (k : gate_kernel) : gate_kernel :=
  set_state (Z.lor (gk_state k) FakeTCPGenerationStatePoison) k.

(** ** Packet programs *)

(** Where a packet program stands; each step makes one access. *)
Inductive packet_pc :=
  | Outside
  | EnterCheck (generation : Z)
  | EnterMismatch (generation : Z)
  | EnterMismatchState
  | Poisoning
  | EnterLoad (generation : Z) (attempt : nat)
  | EnterSwap (generation : Z) (attempt : nat) (old : Z)
  | Inside (generation : Z)
  | ExitCheck (generation : Z) (old : Z)
  | ExitIdentity (generation : Z)
  | ExitWake (generation : Z) (incarnation : list Z)
  | ExitDisarm.

(** What the load of the state decides. *)
Definition enter_decide (generation : Z) (attempt : nat) (old : Z) : packet_pc :=
  let count := count_of old in
  let flags := flags_of old in
  if poisoned flags then Outside
  else if ((flags =? 0) && (count =? 0)) || ((flags =? FakeTCPGenerationStateSealed) && (count =? 0))
          || (flags =? sealed_armed) then Outside
  else if negb (flags =? FakeTCPGenerationStateOpen) then Poisoning
  else if count =? FakeTCPGenerationInflightMask then Poisoning
  else EnterSwap generation attempt old.
Definition exit_decide (generation old bound : Z) : packet_pc :=
  let count := count_of old in
  let flags := flags_of old in
  if (count =? 0) || negb (bound =? generation) then Poisoning
  else if poisoned flags then Outside
  else if negb (flags =? FakeTCPGenerationStateOpen) && negb (flags =? sealed_armed) then Poisoning
  else if negb (count =? 1) || negb (flags =? sealed_armed) then Outside
  else ExitIdentity generation.

(** [ok]: the ring takes the record. *)
Definition packet_step (ok : bool) (pc : packet_pc) (k : gate_kernel) : packet_pc * gate_kernel :=
  match pc with
  | Outside => (Outside, k)
  | EnterCheck generation =>
      if generation =? 0 then (Outside, k)
      else if negb (gk_generation k =? generation) then (EnterMismatch generation, k)
      else (EnterLoad generation 0, k)
  | EnterMismatch generation => if negb (gk_generation k =? 0) then (Poisoning, k) else (EnterMismatchState, k)
  | EnterMismatchState => if negb (gk_state k =? 0) then (Poisoning, k) else (Outside, k)
  | Poisoning => (Outside, faketcp_generation_poison k)
  | EnterLoad generation attempt =>
      if (FAKETCP_GENERATION_CAS_ATTEMPTS <=? attempt)%nat then (Outside, k)
      else (enter_decide generation attempt (gk_state k), k)
  | EnterSwap generation attempt old =>
      let '(found, k) := cas_state old (u64 (old + 1)) k in
      if found =? old then (Inside generation, k) else (EnterLoad generation (S attempt), k)
  | Inside generation => (ExitCheck generation (gk_state k), set_state (u64 (gk_state k - 1)) k)
  | ExitCheck generation old => (exit_decide generation old (gk_generation k), k)
  | ExitIdentity generation =>
      match faketcp_runtime_identity generation k with
      | None => (Poisoning, k)
      | Some incarnation => (ExitWake generation incarnation, k)
      end
  | ExitWake generation incarnation =>
      if ok then (ExitDisarm, set_wakes (gk_wakes k ++ [mkWake generation incarnation sealed_armed]) k)
      else (Outside, k)
  | ExitDisarm => (Outside, (cas_state sealed_armed FakeTCPGenerationStateSealed k).2)
  end.

(** ** The world of the barrier *)

(** A packet arrives at an idle CPU, or a program runs on. *)
Inductive gate_event := EvPacket (cpu : nat) (generation : Z) | EvRun (cpu : nat) (ok : bool).
(** What happens around one access or call: events before it, and a failure of
    the call, before or after its effect. *)
Record slot := mkOracleSlot { so_events : list gate_event; so_fault : option (error * bool) }.
Record gate_world := mkGateWorld {
  gw_kernel : gate_kernel; gw_threads : gmap nat packet_pc; gw_oracle : list slot;
  (** Events while the barrier waits for the ring. *)
  gw_waiting : list gate_event
}.
Definition pc_of (w : gate_world) (cpu : nat) : packet_pc := default Outside (gw_threads w !! cpu).
Definition set_thread (cpu : nat) (pc : packet_pc) (k : gate_kernel) (w : gate_world) : gate_world :=
  mkGateWorld k (<[cpu := pc]> (gw_threads w)) (gw_oracle w) (gw_waiting w).
Definition gate_event_step (w : gate_world) (e : gate_event) : gate_world :=
  match e with
  | EvPacket cpu generation =>
      match pc_of w cpu with
      | Outside => set_thread cpu (EnterCheck generation) (gw_kernel w) w
      | _ => w
      end
  | EvRun cpu ok => let '(pc, k) := packet_step ok (pc_of w cpu) (gw_kernel w) in set_thread cpu pc k w
  end.
Definition gate_events : gate_world -> list gate_event -> gate_world := foldl gate_event_step.
(** The next slot of the oracle. *)
Definition next_slot (w : gate_world) : option (error * bool) * gate_world :=
  match gw_oracle w with
  | [] => (None, w)
  | s :: rest => (so_fault s, gate_events (mkGateWorld (gw_kernel w) (gw_threads w) rest (gw_waiting w)) (so_events s))
  end.
Definition set_kernel (k : gate_kernel) (w : gate_world) : gate_world :=
  mkGateWorld k (gw_threads w) (gw_oracle w) (gw_waiting w).
(** One access of the control program. *)
Definition access {A} (f : gate_kernel -> A * gate_kernel) : SM gate_world A := fun w =>
  let '(_, w) := next_slot w in
  let '(a, k) := f (gw_kernel w) in (inl a, set_kernel k w).
(** One system call. *)
Definition syscall {A} (m : SM gate_world A) : SM gate_world A := fun w =>
  match next_slot w with
  | (None, w) => m w
  | (Some (e, false), w) => (inr e, w)
  | (Some (e, true), w) => let '(_, w) := m w in (inr e, w)
  end.

(** ** The control program *)

Definition load_state : SM gate_world Z := access (fun k => (gk_state k, k)).
Definition load_generation : SM gate_world Z := access (fun k => (gk_generation k, k)).
Definition poison_gate : SM gate_world Z :=
  access (fun k => (FakeTCPGenerationResultPoison, faketcp_generation_poison k)).

Fixpoint open_attempts (n : nat) : SM gate_world Z :=
  match n with
  | O => sret FakeTCPGenerationResultMismatch
  | S n =>
      try! old := load_state in
      let count := count_of old in
      let flags := flags_of old in
      if poisoned flags then sret FakeTCPGenerationResultPoison
      else if flags =? FakeTCPGenerationStateOpen then sret FakeTCPGenerationResultOpen
      else if ((flags =? FakeTCPGenerationStateSealed) && (count =? 0)) || (flags =? sealed_armed)
      then sret FakeTCPGenerationResultMismatch
      else if negb (old =? 0) then poison_gate
      else
        try! found := access (cas_state 0 FakeTCPGenerationStateOpen) in
        if found =? 0 then sret FakeTCPGenerationResultOpen else open_attempts n
  end.
Fixpoint close_attempts (n : nat) : SM gate_world Z :=
  match n with
  | O => sret FakeTCPGenerationResultMismatch
  | S n =>
      try! old := load_state in
      let count := count_of old in
      let flags := flags_of old in
      if poisoned flags then sret FakeTCPGenerationResultPoison
      else if old =? 0 then
        try! found := access (cas_state 0 FakeTCPGenerationStateSealed) in
        if found =? 0 then sret FakeTCPGenerationResultIdle else close_attempts n
      else if flags =? FakeTCPGenerationStateOpen then
        let next := Z.lor FakeTCPGenerationStateSealed count in
        let next := if negb (count =? 0) then Z.lor next FakeTCPGenerationStateWakeArmed else next in
        try! found := access (cas_state old next) in
        if negb (found =? old) then close_attempts n
        else sret (if count =? 0 then FakeTCPGenerationResultIdle else FakeTCPGenerationResultWait)
      else if (flags =? FakeTCPGenerationStateSealed) && (count =? 0) then sret FakeTCPGenerationResultIdle
      else if flags =? sealed_armed then
        if negb (count =? 0) then sret FakeTCPGenerationResultWait
        else
          try! found := access (cas_state old FakeTCPGenerationStateSealed) in
          if found =? old then sret FakeTCPGenerationResultIdle else close_attempts n
      else poison_gate
  end.
(** [faketcp_generation_open] and [_close]: bind the generation, then the loop. *)
Definition bind_then (generation : Z) (body : SM gate_world Z) : SM gate_world Z :=
  try! bound := access (cas_generation 0 generation) in
  if negb (bound =? 0) && negb (bound =? generation) then poison_gate else body.
Definition faketcp_generation_open (generation : Z) : SM gate_world Z :=
  bind_then generation (open_attempts FAKETCP_GENERATION_CAS_ATTEMPTS).
Definition faketcp_generation_close (generation : Z) : SM gate_world Z :=
  bind_then generation (close_attempts FAKETCP_GENERATION_CAS_ATTEMPTS).
Definition assert_closed (generation : Z) : SM gate_world Z :=
  try! bound := load_generation in
  try! state := load_state in
  let count := count_of state in
  let flags := flags_of state in
  if poisoned flags then sret FakeTCPGenerationResultPoison
  else if negb (bound =? 0) && negb (bound =? generation) then poison_gate
  else if state =? 0 then sret FakeTCPGenerationResultIdle
  else if (flags =? FakeTCPGenerationStateOpen) || ((flags =? FakeTCPGenerationStateSealed) && (count =? 0))
          || (flags =? sealed_armed) then sret FakeTCPGenerationResultMismatch
  else poison_gate.
(** The request of a 32-byte packet, its reserved word zero, on a ring of one page. *)
Definition wg_faketcp_generation_control (request : RuntimeIdentity) (operation : Z) : SM gate_world Z :=
  let generation := RI_Generation request in
  if (generation =? 0) || (operation <? FakeTCPGenerationControlAssertClosed) || (FakeTCPGenerationControlClose <? operation)
  then sret FakeTCPGenerationResultMalformed
  else
    try! identity := access (fun k => (faketcp_runtime_identity generation k, k)) in
    if negb (bool_decide (identity = Some (RI_Incarnation request))) then sret FakeTCPGenerationResultMalformed
    else if operation =? FakeTCPGenerationControlAssertClosed then assert_closed generation
    else if operation =? FakeTCPGenerationControlOpen then faketcp_generation_open generation
    else faketcp_generation_close generation.

(** ** The barrier *)

(** [lb_bound]: [BindCollection] has set the gate, the wake map and the program. *)
Record liveFakeTCPGenerationBarrier := mkBarrier { lb_generation : Z; lb_identity : RuntimeIdentity; lb_bound : bool }.
Definition newLiveFakeTCPGenerationBarrier (generation : Z) : liveFakeTCPGenerationBarrier + error :=
  if generation =? 0 then inr "create FakeTCP generation barrier: generation is zero"
  else inl (mkBarrier generation (mkRuntimeIdentity 0 (zeros 16)) false).

(** The IDs of the three maps, and the program's type check with its map IDs. *)
Fixpoint map_ids (infos : list (option Z)) : list Z + error :=
  match infos with
  | [] => inl []
  | None :: _ => inr "bind FakeTCP generation barrier: map ID is unavailable"
  | Some id :: infos =>
      if id =? 0 then inr "bind FakeTCP generation barrier: map ID is unavailable"
      else match map_ids infos with inl ids => inl (id :: ids) | inr e => inr e end
  end.
(** [expected] loses every ID it is asked for. *)
Fixpoint match_ids (expected : gset Z) (ids : list Z) : option error :=
  match ids with
  | [] => if negb (bool_decide (expected = ∅))
          then Some "bind FakeTCP generation barrier: control program map binding is incomplete" else None
  | id :: ids =>
      if negb (bool_decide (id ∈ expected))
      then Some "bind FakeTCP generation barrier: control program map binding differs"
      else match_ids (expected ∖ {[id]}) ids
  end.
Definition validateLiveFakeTCPGenerationControl (infos : list (option Z)) (schedCLS : bool) (programMaps : option (list Z))
    : option error :=
  match map_ids infos with
  | inr e => Some e
  | inl ids =>
      let expected := list_to_set ids : gset Z in
      match programMaps with
      | Some maps =>
          if negb schedCLS || negb (len maps =? 3) || negb (Z.of_nat (size expected) =? 3)
          then Some "bind FakeTCP generation barrier: control program identity is invalid"
          else match_ids expected maps
      | None => Some "bind FakeTCP generation barrier: control program identity is invalid"
      end
  end.
(** With the resources of the collection and their infos found. *)
Definition BindCollection (barrier : liveFakeTCPGenerationBarrier) (identity : RuntimeIdentity)
    (infos : list (option Z)) (schedCLS : bool) (programMaps : option (list Z))
    : SM gate_world liveFakeTCPGenerationBarrier :=
  must! syscall (sret tt) in
  reject negb (RI_Generation identity =? lb_generation barrier) || bool_decide (RI_Incarnation identity = zeros 16)
    with "bind FakeTCP generation barrier: runtime identity mismatch" in
  must! syscall (sret tt) in
  reject lb_bound barrier with "bind FakeTCP generation barrier: already bound" in
  match validateLiveFakeTCPGenerationControl infos schedCLS programMaps with
  | Some e => sfail e
  | None => sret (mkBarrier (lb_generation barrier) identity true)
  end.

Section barrier.
Context (barrier : liveFakeTCPGenerationBarrier).

(** [ctx.Err()]. *)
Definition ctx_alive : SM gate_world unit := syscall (sret tt).
Definition barrier_lock (generation : Z) : SM gate_world unit :=
  reject (generation =? 0) || negb (generation =? lb_generation barrier) with "generation identity mismatch" in
  must! ctx_alive in
  must! ctx_alive in
  reject negb (lb_bound barrier) with "exact fresh collection is not bound" in
  sret tt.
Definition runLocked (operation : Z) : SM gate_world Z :=
  syscall (wg_faketcp_generation_control (lb_identity barrier) operation).
Definition expectLocked (operation expected : Z) : SM gate_world unit :=
  try! result := swrap "FakeTCP generation: " (runLocked operation) in
  reject negb (result =? expected) with "FakeTCP generation returned another state" in
  sret tt.
(** [gate.Lookup], a copy of both words. *)
Definition lookup_gate : SM gate_world (Z * Z) := syscall (fun w => (inl (gk_generation (gw_kernel w), gk_state (gw_kernel w)), w)).
Definition verifyIdleLocked : SM gate_world unit :=
  try! gate := swrap "quiesce FakeTCP generation barrier: reread gate: " lookup_gate in
  reject negb (gate.1 =? RI_Generation (lb_identity barrier)) || negb (gate.2 =? FakeTCPGenerationStateSealed)
    with "quiesce FakeTCP generation barrier: gate is not sealed idle" in
  sret tt.
(** The first record of the ring, after what happens during the wait. *)
Definition readWakeLocked : SM gate_world generation_wake :=
  syscall (fun w =>
    let w := gate_events (mkGateWorld (gw_kernel w) (gw_threads w) (gw_oracle w) []) (gw_waiting w) in
    match gk_wakes (gw_kernel w) with
    | [] => (inr "i/o timeout", w)
    | wake :: wakes => (inl wake, set_kernel (set_wakes wakes (gw_kernel w)) w)
    end).

Definition AssertInactive (generation : Z) : SM gate_world unit :=
  must! swrap "prove FakeTCP generation inactive: " (barrier_lock generation) in
  expectLocked FakeTCPGenerationControlAssertClosed FakeTCPGenerationResultIdle.
Definition Activate (generation : Z) : SM gate_world unit :=
  must! swrap "activate FakeTCP generation barrier: " (barrier_lock generation) in
  expectLocked FakeTCPGenerationControlOpen FakeTCPGenerationResultOpen.
Definition Healthy : SM gate_world unit :=
  must! ctx_alive in
  reject (lb_generation barrier =? 0) || negb (lb_bound barrier)
         || negb (RI_Generation (lb_identity barrier) =? lb_generation barrier)
         || bool_decide (RI_Incarnation (lb_identity barrier) = zeros 16)
    with "inspect FakeTCP generation barrier: exact owner is incomplete" in
  try! gate := swrap "inspect FakeTCP generation barrier gate: " lookup_gate in
  reject negb (gate.1 =? lb_generation barrier) || (Z.land gate.2 FakeTCPGenerationStateOpen =? 0)
         || negb (Z.land gate.2 (Z.lor FakeTCPGenerationStateSealed FakeTCPGenerationStatePoison) =? 0)
    with "inspect FakeTCP generation barrier: gate is not open" in
  sret tt.
Definition wake_matches (wake : generation_wake) : bool :=
  (wk_Generation wake =? RI_Generation (lb_identity barrier)) &&
  bool_decide (wk_Incarnation wake = RI_Incarnation (lb_identity barrier)) && (wk_State wake =? sealed_armed).
Definition Quiesce (generation : Z) : SM gate_world unit :=
  must! swrap "quiesce FakeTCP generation barrier: " (barrier_lock generation) in
  try! result := swrap "quiesce FakeTCP generation barrier: CLOSE: " (runLocked FakeTCPGenerationControlClose) in
  if result =? FakeTCPGenerationResultIdle then verifyIdleLocked
  else
    reject negb (result =? FakeTCPGenerationResultWait) with "FakeTCP generation CLOSE returned another state" in
    try! wake := swrap "quiesce FakeTCP generation barrier: wait for last exit: " readWakeLocked in
    reject negb (wake_matches wake) with "quiesce FakeTCP generation barrier: wake identity or state mismatch" in
    must! ctx_alive in
    must! expectLocked FakeTCPGenerationControlClose FakeTCPGenerationResultIdle in
    verifyIdleLocked.
End barrier.
