(* ===== verification/GenerationGateProps.v ===== *)
(** * A quiesced generation stays empty

    The gate's word counts the programs inside; once it is sealed and idle no
    program is inside and none enters, under every interleaving; and the last
    program to leave a sealed gate wakes the barrier. *)
From Stdlib Require Import ZArith Lia.
From stdpp Require Import base option list gmap strings numbers.
From S2P Require Import Prelude Abi Runtime ErrorState GenerationGate.

(** ** The word *)

(** Four flag bits above a counter. *)
Definition word (q n : Z) : Z := 2 ^ 60 * q + n.
Definition flag_ok (q : Z) : Prop := q = 0 \/ q = 2 \/ q = 4 \/ q = 5 \/ q = 6 \/ q = 7 \/ q = 8 \/ q = 10.
Ltac flag_cases Hq := unfold flag_ok in Hq; decompose [or] Hq; subst; clear Hq;
  repeat match goal with |- context [Z.lor ?a ?b] => let v := eval vm_compute in (Z.lor a b) in change (Z.lor a b) with v end.

Lemma count_word q n : 0 <= q -> 0 <= n < 2 ^ 60 -> count_of (word q n) = n.
Proof.
  intros Hq Hn. unfold count_of, word. change FakeTCPGenerationInflightMask with (Z.ones 60). rewrite Z.land_ones by lia.
  rewrite Z.mul_comm, Z.add_comm, Z.mod_add, Z.mod_small; lia.
Qed.
Lemma flags_word q n : 0 <= q -> 0 <= n < 2 ^ 60 -> flags_of (word q n) = 2 ^ 60 * q.
Proof.
  intros Hq Hn. unfold flags_of, word. change FakeTCPGenerationInflightMask with (Z.ones 60). rewrite Z.ldiff_ones_r by lia.
  rewrite Z.shiftr_div_pow2, Z.shiftl_mul_pow2 by lia. rewrite (Z.mul_comm (2 ^ 60) q), Z.div_add_l, Z.div_small by lia. lia.
Qed.
(** The flag bits may be combined above the counter. *)
Lemma lor_word q f n : 0 <= q -> 0 <= f -> 0 <= n < 2 ^ 60 -> Z.lor (word q n) (2 ^ 60 * f) = word (Z.lor q f) n.
Proof.
  intros Hq Hf Hn. unfold word.
  assert (forall a, 0 <= a -> 2 ^ 60 * a + n = Z.lor (Z.shiftl a 60) n) as Hor.
  { intros a Ha. rewrite <- Z.shiftl_mul_pow2 || idtac. rewrite Z.shiftl_mul_pow2, Z.mul_comm by lia. apply Z.add_nocarry_lor.
    apply Z.bits_inj'. intros i Hi. rewrite Z.land_spec, Z.bits_0. rewrite <- Z.shiftl_mul_pow2 by lia. rewrite Z.shiftl_spec by lia.
    destruct (Z.ltb_spec i 60) as [Hl|Hl].
    - by rewrite (Z.testbit_neg_r a) by lia.
    - rewrite (Z.bits_above_log2 n), andb_false_r; [done|lia|]. destruct (Z.eqb_spec n 0) as [->|Hz]; [cbn; lia|].
      apply Z.log2_lt_pow2; [lia|]. eapply Z.lt_le_trans; [apply Hn|]. apply Z.pow_le_mono_r; lia. }
  rewrite !Hor by (try apply Z.lor_nonneg; lia). rewrite (Z.mul_comm _ f), <- Z.shiftl_mul_pow2 by lia.
  rewrite Z.shiftl_lor, <- !Z.lor_assoc, (Z.lor_comm n). done.
Qed.
Lemma poison_word q n : flag_ok q -> 0 <= n < 2 ^ 60 -> Z.lor (word q n) FakeTCPGenerationStatePoison = word (Z.lor q 2) n.
Proof.
  intros Hq Hn. change FakeTCPGenerationStatePoison with (2 ^ 60 * 2). apply lor_word; [|lia|done].
  unfold flag_ok in Hq. lia.
Qed.

(** ** The invariant *)

Definition weight (pc : packet_pc) : Z := match pc with Inside _ => 1 | _ => 0 end.
Definition inside (w : gate_world) : Z := msum weight (gw_threads w).
(** The word is one of the protocol's, and counts [n] programs. *)
Definition word_ok (state n : Z) : Prop := exists q, state = word q n /\ 0 <= n < 2 ^ 60 /\ flag_ok q /\ (q = 0 \/ q = 2 \/ q = 4 \/ q = 6 -> n = 0).
Definition sealed (state : Z) : Prop := Z.testbit state 62 = true.
(** What a program holds. *)
Definition pc_ok (bound : Z) (pc : packet_pc) : Prop :=
  match pc with
  | EnterLoad g _ | ExitIdentity g | ExitWake g _ | Inside g => bound = g /\ g <> 0
  | EnterSwap g _ old => bound = g /\ g <> 0 /\ exists c, old = word 8 c /\ 0 <= c < FakeTCPGenerationInflightMask
  | ExitCheck g old => bound = g /\ g <> 0 /\ exists n, word_ok old n /\ 1 <= n
  | _ => True
  end.
Record gate_inv (w : gate_world) : Prop := {
  gi_word : word_ok (gk_state (gw_kernel w)) (inside w);
  gi_pc : forall cpu pc, gw_threads w !! cpu = Some pc -> pc_ok (gk_generation (gw_kernel w)) pc
}.
(** What no step undoes. *)
Record later (w w' : gate_world) : Prop := {
  lt_generation : gk_generation (gw_kernel w) <> 0 -> gk_generation (gw_kernel w') = gk_generation (gw_kernel w);
  lt_identity : gk_identity (gw_kernel w') = gk_identity (gw_kernel w);
  lt_sealed : sealed (gk_state (gw_kernel w)) -> sealed (gk_state (gw_kernel w')) /\ inside w' <= inside w
}.

Lemma later_refl w : later w w.
Proof. constructor; [done..|]. intros ?. split; [done|lia]. Qed.
Lemma later_trans w1 w2 w3 : later w1 w2 -> later w2 w3 -> later w1 w3.
Proof.
  intros [A1 B1 C1] [A2 B2 C2]. constructor.
  - intros Hn. rewrite A2; [by apply A1|by rewrite A1].
  - congruence.
  - intros Hs. destruct (C1 Hs) as [Hs2 ?]. destruct (C2 Hs2). split; [done|lia].
Qed.

Lemma sealed_word q n : flag_ok q -> 0 <= n < 2 ^ 60 -> sealed (word q n) <-> 4 <= q <= 7.
Proof.
  intros Hq Hn. unfold sealed, word. rewrite (Z.mul_comm _ q), <- Z.shiftl_mul_pow2 by lia.
  assert (Z.testbit (Z.shiftl q 60 + n) 62 = Z.testbit q 2) as ->.
  { rewrite <- (Z.div_pow2_bits _ 60 2) by lia. rewrite Z.shiftl_mul_pow2, Z.div_add_l, (Z.div_small n), Z.add_0_r by lia. done. }
  flag_cases Hq; cbn; split; done || lia.
Qed.
Lemma word_inj q n q' n' : 0 <= n < 2 ^ 60 -> 0 <= n' < 2 ^ 60 -> word q n = word q' n' -> q = q' /\ n = n'.
Proof. unfold word. lia. Qed.

Lemma word_poison state n : word_ok state n -> word_ok (Z.lor state FakeTCPGenerationStatePoison) n /\
  (sealed state -> sealed (Z.lor state FakeTCPGenerationStatePoison)).
Proof.
  intros (q & -> & Hn & Hq & Hz). rewrite poison_word by done. assert (flag_ok (Z.lor q 2) /\ (4 <= q <= 7 -> 4 <= Z.lor q 2 <= 7) /\
    (Z.lor q 2 = 0 \/ Z.lor q 2 = 2 \/ Z.lor q 2 = 4 \/ Z.lor q 2 = 6 -> q = 0 \/ q = 2 \/ q = 4 \/ q = 6)) as (Hp & Hs & Hz').
  { clear Hz. flag_cases Hq; unfold flag_ok; lia. }
  split; [exists (Z.lor q 2); split; [done|]; split; [done|]; split; auto|]. intros Hq4%sealed_word; [|done..]. apply sealed_word; auto.
Qed.

(** What a load shows. *)
Lemma word_flags state n : word_ok state n -> exists q, flag_ok q /\ flags_of state = 2 ^ 60 * q /\ count_of state = n /\ state = word q n /\
  0 <= n < 2 ^ 60 /\ (q = 0 \/ q = 2 \/ q = 4 \/ q = 6 -> n = 0).
Proof.
  intros (q & -> & Hn & Hq & Hz). exists q. assert (0 <= q) by (unfold flag_ok in Hq; lia).
  rewrite flags_word, count_word by done. done.
Qed.
(** The protocol's transitions of the word. *)
Lemma word_enter c n : 0 <= c < FakeTCPGenerationInflightMask -> word_ok (word 8 c) n -> n = c /\ word_ok (u64 (word 8 c + 1)) (c + 1).
Proof.
  unfold FakeTCPGenerationInflightMask, FakeTCPGenerationStateWakeArmed. intros Hc (q & Hw & Hn & Hq & Hz).
  apply word_inj in Hw as [<- <-]; [|lia..]. split; [done|]. exists 8. unfold u64, word. rewrite Z.mod_small by lia. unfold flag_ok. lia.
Qed.
Lemma word_leave state n : word_ok state n -> 1 <= n -> word_ok (u64 (state - 1)) (n - 1) /\ (sealed state -> sealed (u64 (state - 1))).
Proof.
  intros (q & -> & Hn & Hq & Hz) H1. assert (u64 (word q n - 1) = word q (n - 1)) as ->.
  { unfold u64, word. unfold flag_ok in Hq. rewrite Z.mod_small; lia. }
  split; [exists q; split; [done|]; split; [lia|]; split; [done|lia]|]. rewrite !sealed_word by (done || lia). done.
Qed.
Lemma word_at q n : flag_ok q -> 0 <= n < 2 ^ 60 -> (q = 0 \/ q = 2 \/ q = 4 \/ q = 6 -> n = 0) -> word_ok (word q n) n.
Proof. intros. by exists q. Qed.

Lemma inside_set cpu pc k w : inside (set_thread cpu pc k w) = inside w - weight (pc_of w cpu) + weight pc.
Proof.
  unfold inside, set_thread, pc_of. cbn. destruct (gw_threads w !! cpu) as [old|] eqn:E; cbn.
  - rewrite (msum_insert_Some _ _ _ old) by done. lia.
  - rewrite msum_insert_None by done. lia.
Qed.
Lemma inside_nonneg w : 0 <= inside w.
Proof. apply msum_nonneg. by intros ? [] ?. Qed.
Lemma pc_of_ok w cpu : gate_inv w -> pc_ok (gk_generation (gw_kernel w)) (pc_of w cpu).
Proof. intros Hi. unfold pc_of. destruct (gw_threads w !! cpu) eqn:E; [by eapply gi_pc|done]. Qed.
Lemma weight_inside w cpu g : pc_of w cpu = Inside g -> 1 <= inside w.
Proof.
  unfold pc_of. destruct (gw_threads w !! cpu) as [pc|] eqn:E; [cbn; intros ->|done].
  pose proof (msum_lookup_le weight (gw_threads w) cpu (Inside g)) as Hl. apply Hl; [by intros ? [] ?|done].
Qed.

(** A thread's step that keeps the word, its weight and the generation. *)
Lemma thread_inv w cpu pc k : gate_inv w -> gk_generation k = gk_generation (gw_kernel w) ->
  word_ok (gk_state k) (inside w - weight (pc_of w cpu) + weight pc) -> pc_ok (gk_generation k) pc ->
  gate_inv (set_thread cpu pc k w).
Proof.
  intros [Hw Hp] Hg Hw' Hpc. constructor; [by rewrite inside_set|]. cbn. intros cpu' pc' Hl.
  destruct (decide (cpu' = cpu)) as [-> |Hne]; [rewrite lookup_insert_eq in Hl; by injection Hl as <-|].
  rewrite lookup_insert_ne in Hl by done. rewrite Hg. by eapply Hp.
Qed.
Lemma thread_later w cpu pc k : gk_generation k = gk_generation (gw_kernel w) -> gk_identity k = gk_identity (gw_kernel w) ->
  (sealed (gk_state (gw_kernel w)) -> sealed (gk_state k) /\ weight pc <= weight (pc_of w cpu)) -> later w (set_thread cpu pc k w).
Proof.
  intros Hg Hid Hs. constructor; [done..|]. intros Hs'. rewrite inside_set. destruct (Hs Hs'). split; [done|lia].
Qed.

Lemma enter_decide_ok state n g attempt : word_ok state n -> g <> 0 ->
  weight (enter_decide g attempt state) = 0 /\ pc_ok g (enter_decide g attempt state).
Proof.
  intros Hw Hg. destruct (word_flags _ _ Hw) as (q & Hq & Hf & Hc & Hst & Hn & Hz). unfold enter_decide. rewrite Hf, Hc.
  repeat case_match; try done. split; [done|]. split; [done|]. split; [done|]. exists n.
  apply negb_false_iff, Z.eqb_eq in H1. apply Z.eqb_neq in H2. assert (q = 8) as -> by (unfold FakeTCPGenerationStateOpen in H1; lia).
  split; [done|]. unfold FakeTCPGenerationInflightMask, FakeTCPGenerationStateWakeArmed in *. lia.
Qed.
Lemma exit_decide_ok g old bound : bound = g -> g <> 0 -> weight (exit_decide g old bound) = 0 /\ pc_ok g (exit_decide g old bound).
Proof. intros -> Hg. unfold exit_decide. by repeat case_match. Qed.

Lemma run_ok w cpu ok : gate_inv w -> let '(pc, k) := packet_step ok (pc_of w cpu) (gw_kernel w) in
  gate_inv (set_thread cpu pc k w) /\ later w (set_thread cpu pc k w).
Proof.
  intros Hi. pose proof (pc_of_ok w cpu Hi) as Hpc. pose proof (gi_word _ Hi) as Hw.
  assert (forall pc, weight (pc_of w cpu) = 0 -> weight pc = 0 -> pc_ok (gk_generation (gw_kernel w)) pc ->
    gate_inv (set_thread cpu pc (gw_kernel w) w) /\ later w (set_thread cpu pc (gw_kernel w) w)) as Hsame.
  { intros pc H0 H1 H2. split; [apply thread_inv; try done; rewrite H0, H1, Z.sub_0_r, Z.add_0_r; done|apply thread_later; try done; rewrite H0, H1; done]. }
  destruct (pc_of w cpu) as [|g|g| | |g a|g a old|g|g old|g|g inc|] eqn:Epc; cbn [packet_step] in *.
  - by apply Hsame.
  - destruct (Z.eqb_spec g 0); [by apply Hsame|]. destruct (Z.eqb_spec (gk_generation (gw_kernel w)) g); by apply Hsame.
  - destruct (negb _); by apply Hsame.
  - destruct (negb _); by apply Hsame.
  - destruct (word_poison _ _ Hw) as [Hp Hs]. split.
    + apply thread_inv; try done. rewrite Epc. cbn. by rewrite Z.sub_0_r, Z.add_0_r.
    + apply thread_later; try done. intros Hse. rewrite Epc. split; [by apply Hs|done].
  - destruct Hpc as [Hb Hg]. destruct (_ <=? _)%nat; [by apply Hsame|]. destruct (enter_decide_ok _ _ g a Hw Hg) as [A B].
    apply Hsame; try done. by rewrite Hb.
  - destruct Hpc as (Hb & Hg & c & -> & Hc). unfold cas_state. destruct (Z.eqb_spec (gk_state (gw_kernel w)) (word 8 c)) as [E|E].
    + rewrite E in Hw. destruct (word_enter _ _ Hc Hw) as [Hn Hw']. split.
      * apply thread_inv; try done. rewrite Epc. cbn. by rewrite Z.sub_0_r, Hn.
      * apply thread_later; try done. intros Hs. rewrite E in Hs. apply sealed_word in Hs; [lia|unfold flag_ok; lia|].
        unfold FakeTCPGenerationInflightMask, FakeTCPGenerationStateWakeArmed in Hc. lia.
    + apply Hsame; done.
  - destruct Hpc as [Hb Hg]. pose proof (weight_inside _ _ _ Epc) as H1. destruct (word_leave _ _ Hw H1) as [Hw' Hs'].
    split.
    + apply thread_inv; try done; [rewrite Epc; cbn; by rewrite Z.add_0_r|]. split; [done|]. split; [done|]. by exists (inside w).
    + apply thread_later; try done. intros Hs. rewrite Epc. cbn. split; [by apply Hs'|lia].
  - destruct Hpc as (Hb & Hg & n & Ho & H1). subst g. destruct (exit_decide_ok _ old _ eq_refl Hg) as [A B]. by apply Hsame.
  - destruct (faketcp_runtime_identity _ _); by apply Hsame.
  - destruct ok; [|by apply Hsame]. split; [apply thread_inv|apply thread_later]; try done; rewrite Epc; [|done].
    cbn. by rewrite Z.sub_0_r, Z.add_0_r.
  - unfold cas_state. destruct (Z.eqb_spec (gk_state (gw_kernel w)) sealed_armed) as [E|E]; [|by apply Hsame].
    change sealed_armed with (word 5 0) in E. rewrite E in Hw. destruct Hw as (q & Hq & Hn & _). apply word_inj in Hq as [_ Hq]; [|lia..].
    change (snd _) with (set_state (word 4 0) (gw_kernel w)). split.
    + apply thread_inv; try done. rewrite Epc. cbn [gk_state set_state weight]. rewrite <- Hq. apply word_at; unfold flag_ok; lia.
    + apply thread_later; try done. intros _. rewrite Epc. split; [|done]. apply (sealed_word 4 0); unfold flag_ok; lia.
Qed.

(** ** Every step keeps the invariant *)

Definition kept (w w' : gate_world) : Prop := gate_inv w' /\ later w w'.
Lemma gate_kept_trans w1 w2 w3 : kept w1 w2 -> kept w2 w3 -> kept w1 w3.
Proof. intros [_ A] [B C]. split; [done|by eapply later_trans]. Qed.

Lemma event_kept w e : gate_inv w -> kept w (gate_event_step w e).
Proof.
  intros Hi. destruct e as [cpu g|cpu ok]; cbn [gate_event_step].
  - destruct (pc_of w cpu) eqn:E; try (split; [done|apply later_refl]). split.
    + apply thread_inv; try done. rewrite E. cbn. rewrite Z.sub_0_r, Z.add_0_r. apply gi_word, Hi.
    + apply thread_later; try done. intros Hs. by rewrite E.
  - pose proof (run_ok w cpu ok Hi) as Hr. destruct (packet_step ok (pc_of w cpu) (gw_kernel w)) as [pc k]. done.
Qed.
Lemma events_kept es : forall w, gate_inv w -> kept w (gate_events w es).
Proof.
  induction es as [|e es IH]; intros w Hi; [split; [done|apply later_refl]|]. cbn.
  pose proof (event_kept w e Hi) as He. eapply gate_kept_trans; [exact He|]. apply IH, He.
Qed.
Lemma inv_schedule w oracle waiting : gate_inv w -> kept w (mkGateWorld (gw_kernel w) (gw_threads w) oracle waiting).
Proof. intros [A B]. split; [by constructor|]. by constructor. Qed.
Lemma slot_kept w : gate_inv w -> kept w (next_slot w).2.
Proof.
  intros Hi. unfold next_slot. destruct (gw_oracle w) as [|s rest]; [split; [done|apply later_refl]|]. cbn.
  eapply gate_kept_trans; [by apply inv_schedule|]. apply events_kept. by apply inv_schedule.
Qed.

(** A step of the control program on the kernel, for [n] programs inside. *)
Definition legal (f : gate_kernel -> gate_kernel) : Prop := forall k n, word_ok (gk_state k) n ->
  word_ok (gk_state (f k)) n /\ (gk_generation k <> 0 -> gk_generation (f k) = gk_generation k) /\
  gk_identity (f k) = gk_identity k /\ (sealed (gk_state k) -> sealed (gk_state (f k))).
Lemma pc_ok_stable bound bound' pc : pc_ok bound pc -> (bound <> 0 -> bound' = bound) -> pc_ok bound' pc.
Proof.
  intros Hp Hs. destruct pc; cbn in *; try done.
  1,3,5,6: destruct Hp as [-> Hg]; by rewrite (Hs Hg).
  all: destruct Hp as (-> & Hg & Hr); by rewrite (Hs Hg).
Qed.
Lemma kernel_kept f w : legal f -> gate_inv w -> kept w (set_kernel (f (gw_kernel w)) w).
Proof.
  intros Hf [Hw Hp]. destruct (Hf _ _ Hw) as (A & B & C & D). split.
  - constructor; [done|]. cbn. intros cpu pc Hl. eapply pc_ok_stable; [by eapply Hp|done].
  - constructor; [done..|]. intros Hs. split; [by apply D|cbn; reflexivity].
Qed.
Lemma access_kept {A} (f : gate_kernel -> A * gate_kernel) w : legal (fun k => (f k).2) -> gate_inv w ->
  swp (access f) (fun _ w' => kept w w') (fun _ => False) w.
Proof.
  intros Hf Hi. unfold swp, access. pose proof (slot_kept w Hi) as Hs. destruct (next_slot w) as [fault w1]. cbn in Hs.
  pose proof (kernel_kept _ w1 Hf (proj1 Hs)) as Hk. cbn in Hk. destruct (f (gw_kernel w1)) as [a k]. eapply gate_kept_trans; [exact Hs|exact Hk].
Qed.

Lemma legal_read {A} (f : gate_kernel -> A) : legal (fun k => (f k, k).2).
Proof. intros k n Hw. done. Qed.
Lemma legal_poison : legal faketcp_generation_poison.
Proof. intros k n Hw. destruct (word_poison _ _ Hw) as [A B]. done. Qed.
Lemma legal_cas old new : (forall n, word_ok old n -> word_ok new n) -> (sealed old -> sealed new) -> legal (fun k => (cas_state old new k).2).
Proof.
  intros Hw Hs k n Hk. unfold cas_state. cbn. destruct (Z.eqb_spec (gk_state k) old) as [<-|E]; [|done]. cbn. auto.
Qed.
Lemma legal_bind generation : legal (fun k => (cas_generation 0 generation k).2).
Proof. intros k n Hk. unfold cas_generation. cbn. destruct (Z.eqb_spec (gk_generation k) 0); cbn; done. Qed.

Lemma word_ok_at q n m : 0 <= n < 2 ^ 60 -> word_ok (word q n) m -> m = n /\ flag_ok q /\ (q = 0 \/ q = 2 \/ q = 4 \/ q = 6 -> n = 0).
Proof. intros Hn (q' & Hw & Hm & Hq & Hz). apply word_inj in Hw as [<- <-]; done. Qed.
Lemma word_change q q' n : 0 <= n < 2 ^ 60 -> flag_ok q' -> (q' = 0 \/ q' = 2 \/ q' = 4 \/ q' = 6 -> n = 0) ->
  forall m, word_ok (word q n) m -> word_ok (word q' n) m.
Proof. intros Hn Hq' Hz m Hm. apply word_ok_at in Hm as (-> & _ & _); [|done]. by apply word_at. Qed.

(** The word [close] swaps in. *)
Lemma close_word n : 0 <= n < 2 ^ 60 -> Z.lor FakeTCPGenerationStateSealed n = word 4 n /\ Z.lor (Z.lor FakeTCPGenerationStateSealed n) FakeTCPGenerationStateWakeArmed = word 5 n.
Proof.
  intros Hn. assert (Z.lor FakeTCPGenerationStateSealed n = word 4 n) as ->.
  { rewrite Z.lor_comm. change FakeTCPGenerationStateSealed with (2 ^ 60 * 4). pose proof (lor_word 0 4 n) as Hl. unfold word in *.
    rewrite Z.mul_0_r, Z.add_0_l in Hl. apply Hl; lia. }
  split; [done|]. change FakeTCPGenerationStateWakeArmed with (2 ^ 60 * 1). by apply lor_word.
Qed.

Lemma load_kept w : gate_inv w -> swp load_state (fun old w' => kept w w' /\ exists n, word_ok old n) (fun _ => False) w.
Proof.
  intros Hi. unfold load_state. pose proof (access_kept (fun k => (gk_state k, k)) w (legal_read _) Hi) as Ha. unfold swp, access in *.
  pose proof (slot_kept w Hi) as Hs. destruct (next_slot w) as [fault w1]. cbn in *. split; [done|]. exists (inside w1). apply gi_word, Hs.
Qed.
Lemma poison_kept w : gate_inv w -> swp poison_gate (fun _ w' => kept w w') (fun _ => False) w.
Proof. intros Hi. by apply access_kept; [apply legal_poison|]. Qed.

(** Running [m] keeps the invariant, whatever it returns. *)
Definition safe {A} (m : SM gate_world A) : Prop := forall w, gate_inv w -> swp m (fun _ w' => kept w w') (kept w) w.
Lemma safe_ret {A} (a : A) : safe (sret a).
Proof. intros w Hi. split; [done|apply later_refl]. Qed.
Lemma safe_fail {A} e : safe (sfail (A := A) e).
Proof. intros w Hi. split; [done|apply later_refl]. Qed.
Lemma safe_bind {A B} (m : SM gate_world A) (f : A -> SM gate_world B) : safe m -> (forall a, safe (f a)) -> safe (sbind m f).
Proof.
  intros Hm Hf w Hi. apply swp_bind. eapply swp_mono; [by apply Hm| |done]. intros a w1 Hk.
  eapply swp_mono; [apply Hf, Hk|..].
  - intros b w2 Hk2. exact (gate_kept_trans _ _ _ Hk Hk2).
  - intros w2 Hk2. exact (gate_kept_trans _ _ _ Hk Hk2).
Qed.
Lemma safe_reject {A} (b : bool) e (m : SM gate_world A) : safe m -> safe (reject b with e in m).
Proof. intros Hm. destruct b; [apply safe_fail|done]. Qed.
Lemma safe_wrap {A} prefix (m : SM gate_world A) : safe m -> safe (swrap prefix m).
Proof. intros Hm w Hi. by apply swp_wrap, Hm. Qed.
Lemma safe_access {A} (f : gate_kernel -> A * gate_kernel) : legal (fun k => (f k).2) -> safe (access f).
Proof. intros Hf w Hi. eapply swp_mono; [by apply access_kept|done..]. Qed.
Lemma safe_poison : safe poison_gate.
Proof. apply safe_access, legal_poison. Qed.
Lemma safe_load {A} (f : Z -> SM gate_world A) : (forall old n, word_ok old n -> safe (f old)) -> safe (sbind load_state f).
Proof.
  intros Hf w Hi. apply swp_bind. eapply swp_mono; [by apply load_kept| |done]. intros old w1 [Hk [n Hn]].
  eapply swp_mono; [eapply Hf; [exact Hn|apply Hk]|..].
  - intros b w2 Hk2. exact (gate_kept_trans _ _ _ Hk Hk2).
  - intros w2 Hk2. exact (gate_kept_trans _ _ _ Hk Hk2).
Qed.
Lemma safe_syscall {A} (m : SM gate_world A) : safe m -> safe (syscall m).
Proof.
  intros Hm w Hi. unfold swp, syscall. pose proof (slot_kept w Hi) as Hs. destruct (next_slot w) as [[[e []]|] w1]; cbn in Hs; [|done|].
  - pose proof (Hm w1 (proj1 Hs)) as Hr. unfold swp in Hr. destruct (m w1) as [[a|e'] w2]; by eapply gate_kept_trans.
  - pose proof (Hm w1 (proj1 Hs)) as Hr. unfold swp in Hr. destruct (m w1) as [[a|e'] w2]; by eapply gate_kept_trans.
Qed.
Create HintDb gate.
#[export] Hint Resolve safe_ret safe_fail safe_wrap safe_poison safe_syscall safe_reject : gate.

Lemma safe_open n : safe (open_attempts n).
Proof.
  induction n as [|n IH]; cbn [open_attempts]; [auto with gate|]. apply safe_load. intros old m Hm.
  repeat (case_match; auto with gate). all: apply safe_bind; [apply safe_access, legal_cas|intros found; case_match; auto with gate].
  - apply (word_change 0 8 0); unfold flag_ok; lia.
  - done.
Qed.
Lemma safe_close n : safe (close_attempts n).
Proof.
  induction n as [|n IH]; cbn [close_attempts]; [auto with gate|]. apply safe_load. intros old m Hm.
  destruct (word_flags _ _ Hm) as (q & Hq & Hf & Hc & -> & Hn & Hz). rewrite Hf, Hc.
  destruct (poisoned _); [auto with gate|]. destruct (Z.eqb_spec (word q m) 0) as [E|E].
  { apply safe_bind; [apply safe_access, legal_cas|intros found; case_match; auto with gate]; [|done].
    apply (word_change 0 4 0); unfold flag_ok; lia. }
  destruct (close_word m Hn) as [H4 H5].
  destruct (Z.eqb_spec (2 ^ 60 * q) FakeTCPGenerationStateOpen) as [Eo|Eo].
  { assert (q = 8) as -> by (unfold FakeTCPGenerationStateOpen in Eo; lia).
    apply safe_bind; [|intros found; repeat case_match; auto with gate].
    destruct (Z.eqb_spec m 0) as [-> |Hz0]; cbn [negb]; rewrite ?H5, ?H4; apply safe_access, legal_cas.
    - apply (word_change 8 4 0); unfold flag_ok; lia.
    - intros Hs%sealed_word; unfold flag_ok; lia.
    - apply (word_change 8 5); unfold flag_ok; lia.
    - intros Hs%sealed_word; unfold flag_ok; lia. }
  destruct (_ && _); [auto with gate|]. destruct (Z.eqb_spec (2 ^ 60 * q) sealed_armed) as [Ea|Ea]; [|auto with gate].
  destruct (Z.eqb_spec m 0) as [-> |Hz0]; cbn [negb]; [|auto with gate].
  assert (q = 5) as -> by (change sealed_armed with (2 ^ 60 * 5) in Ea; lia).
  apply safe_bind; [apply safe_access, legal_cas|intros found; case_match; auto with gate]; [|done].
  apply (word_change 5 4 0); unfold flag_ok; lia.
Qed.
Lemma safe_bind_then generation body : safe body -> safe (bind_then generation body).
Proof. intros Hb. apply safe_bind; [apply safe_access, legal_bind|]. intros bound. case_match; auto with gate. Qed.
Lemma safe_assert generation : safe (assert_closed generation).
Proof.
  apply safe_bind; [apply safe_access, legal_read|]. intros bound. apply safe_load. intros old n Hn. cbv zeta. repeat case_match; auto with gate.
Qed.
Lemma safe_control request operation : safe (wg_faketcp_generation_control request operation).
Proof.
  unfold wg_faketcp_generation_control. case_match; [auto with gate|]. apply safe_bind; [apply safe_access, legal_read|]. intros id.
  case_match; [auto with gate|]. case_match; [apply safe_assert|]. case_match; apply safe_bind_then; [apply safe_open|apply safe_close].
Qed.

(** The barrier's own calls. *)
Lemma safe_lookup : safe lookup_gate.
Proof. apply safe_syscall. intros w Hi. split; [done|apply later_refl]. Qed.
Lemma safe_alive : safe ctx_alive.
Proof. apply safe_syscall, safe_ret. Qed.
Lemma safe_wake : safe readWakeLocked.
Proof.
  apply safe_syscall. intros w Hi. unfold swp. pose proof (inv_schedule w (gw_oracle w) [] Hi) as H1.
  pose proof (events_kept (gw_waiting w) _ (proj1 H1)) as H2. pose proof (gate_kept_trans _ _ _ H1 H2) as H3. cbv zeta.
  set (w2 := gate_events _ _) in *. destruct (gk_wakes (gw_kernel w2)) as [|wake wakes]; [done|].
  eapply gate_kept_trans; [exact H3|]. by apply (kernel_kept (set_wakes wakes)); [|apply H3].
Qed.
Lemma safe_lock b generation : safe (barrier_lock b generation).
Proof. apply safe_reject, safe_bind; [apply safe_alive|intros ?]. apply safe_bind; [apply safe_alive|auto with gate]. Qed.
Lemma safe_run b operation : safe (runLocked b operation).
Proof. apply safe_syscall, safe_control. Qed.
Lemma safe_expect b operation expected : safe (expectLocked b operation expected).
Proof. apply safe_bind; [apply safe_wrap, safe_run|auto with gate]. Qed.
Lemma safe_idle b : safe (verifyIdleLocked b).
Proof. apply safe_bind; [apply safe_wrap, safe_lookup|auto with gate]. Qed.
#[export] Hint Resolve safe_lock safe_run safe_expect safe_idle safe_wake safe_alive safe_lookup : gate.
Lemma safe_quiesce b generation : safe (Quiesce b generation).
Proof.
  unfold Quiesce. apply safe_bind; [auto with gate|intros _]. apply safe_bind; [auto with gate|intros result].
  case_match; [auto with gate|]. apply safe_reject, safe_bind; [auto with gate|intros wake]. apply safe_reject, safe_bind; [auto with gate|intros _].
  apply safe_bind; auto with gate.
Qed.
Lemma safe_inactive b generation : safe (AssertInactive b generation).
Proof. apply safe_bind; auto with gate. Qed.
Lemma safe_activate b generation : safe (Activate b generation).
Proof. apply safe_bind; auto with gate. Qed.
Lemma safe_healthy b : safe (Healthy b).
Proof. apply safe_bind; [auto with gate|intros _]. apply safe_reject, safe_bind; [auto with gate|]. intros gate. auto with gate. Qed.

(** ** Runs *)

(** Events, any control request, the calls of any barrier, and what the next
    calls meet. *)
Inductive gate_op :=
  | GEvent (e : gate_event)
  | GControl (request : RuntimeIdentity) (operation : Z)
  | GInactive (b : liveFakeTCPGenerationBarrier) (generation : Z)
  | GActivate (b : liveFakeTCPGenerationBarrier) (generation : Z)
  | GQuiesce (b : liveFakeTCPGenerationBarrier) (generation : Z)
  | GHealthy (b : liveFakeTCPGenerationBarrier)
  | GSchedule (oracle : list slot) (waiting : list gate_event).
Definition gate_step (w : gate_world) (op : gate_op) : gate_world :=
  match op with
  | GEvent e => gate_event_step w e
  | GControl request operation => (wg_faketcp_generation_control request operation w).2
  | GInactive b generation => (AssertInactive b generation w).2
  | GActivate b generation => (Activate b generation w).2
  | GQuiesce b generation => (Quiesce b generation w).2
  | GHealthy b => (Healthy b w).2
  | GSchedule oracle waiting => mkGateWorld (gw_kernel w) (gw_threads w) oracle waiting
  end.
Definition gate_run : gate_world -> list gate_op -> gate_world := foldl gate_step.
(** A fresh collection: the gate's maps are zero. *)
Definition fresh_gate (identity : option RuntimeIdentity) : gate_world := mkGateWorld (mkGate 0 0 [] identity) ∅ [] [].

Lemma safe_world {A} (m : SM gate_world A) w : safe m -> gate_inv w -> kept w (m w).2.
Proof. intros Hm Hi. specialize (Hm w Hi). unfold swp in Hm. by destruct (m w) as [[a|e] w']. Qed.
Lemma step_kept w op : gate_inv w -> kept w (gate_step w op).
Proof.
  intros Hi. destruct op; cbn [gate_step].
  - by apply event_kept.
  - by apply safe_world; [apply safe_control|].
  - by apply safe_world; [apply safe_inactive|].
  - by apply safe_world; [apply safe_activate|].
  - by apply safe_world; [apply safe_quiesce|].
  - by apply safe_world; [apply safe_healthy|].
  - by apply inv_schedule.
Qed.
Lemma run_kept ops : forall w, gate_inv w -> kept w (gate_run w ops).
Proof.
  induction ops as [|op ops IH]; intros w Hi; [split; [done|apply later_refl]|]. cbn.
  pose proof (step_kept w op Hi) as Hs. eapply gate_kept_trans; [exact Hs|]. apply IH, Hs.
Qed.
Lemma fresh_inv identity : gate_inv (fresh_gate identity).
Proof.
  constructor; [|done]. unfold inside, fresh_gate. cbn. rewrite msum_empty. apply (word_at 0 0); unfold flag_ok; lia.
Qed.

(** The read that ends a successful [Quiesce]. *)
Lemma idle_sealed b w w' : verifyIdleLocked b w = (inl tt, w') -> gk_state (gw_kernel w') = FakeTCPGenerationStateSealed /\
  gk_generation (gw_kernel w') = RI_Generation (lb_identity b).
Proof.
  unfold verifyIdleLocked, sbind, swrap, lookup_gate, syscall. destruct (next_slot w) as [[[e []]|] w1]; [done..|]. cbn.
  destruct (_ || _) eqn:E; [done|]. intros [= <-]. apply orb_false_iff in E as [A B]. apply negb_false_iff, Z.eqb_eq in A, B. done.
Qed.
Lemma sbind_ok {W A B} (m : SM W A) (f : A -> SM W B) w r w' : sbind m f w = (inl r, w') -> exists a w1, m w = (inl a, w1) /\ f a w1 = (inl r, w').
Proof. unfold sbind. destruct (m w) as [[a|e] w1]; [|done]. intros E. by exists a, w1. Qed.
Lemma quiesce_sealed b generation w w' : Quiesce b generation w = (inl tt, w') -> gk_state (gw_kernel w') = FakeTCPGenerationStateSealed /\
  gk_generation (gw_kernel w') = RI_Generation (lb_identity b).
Proof.
  unfold Quiesce. intros E. apply sbind_ok in E as (? & w1 & _ & E). apply sbind_ok in E as (result & w2 & _ & E).
  destruct (result =? _); [by eapply idle_sealed|]. destruct (negb _); [done|]. apply sbind_ok in E as (wake & w3 & _ & E).
  destruct (negb _); [done|]. apply sbind_ok in E as (? & w4 & _ & E). apply sbind_ok in E as ([] & w5 & _ & E). by eapply idle_sealed.
Qed.

(** No program inside means none at the instruction. *)
Lemma nobody w : inside w = 0 -> forall cpu g, pc_of w cpu <> Inside g.
Proof. intros H0 cpu g Hp. pose proof (weight_inside _ _ _ Hp). lia. Qed.
Lemma sealed_idle w : gate_inv w -> gk_state (gw_kernel w) = FakeTCPGenerationStateSealed -> sealed (gk_state (gw_kernel w)) /\ inside w = 0.
Proof.
  intros Hi E. change FakeTCPGenerationStateSealed with (word 4 0) in E. pose proof (gi_word _ Hi) as Hw. rewrite E in *.
  destruct (word_ok_at 4 0 (inside w)) as (-> & _ & _); [lia|done|]. split; [|done]. apply sealed_word; unfold flag_ok; lia.
Qed.

(** C9: a quiesced generation stays empty.  From a fresh gate, let packet
    programs of any generations enter and leave on any number of CPUs, interleaved
    at every access to shared memory with any requests to the control program and
    any calls of barriers, any of which may fail.  The count in the gate's word is
    at all times the number of programs inside, and a program inside belongs to the
    generation the gate is bound to.  And once a [Quiesce] has succeeded, the gate
    is bound to the barrier's generation, no program is inside, and whatever
    happens afterwards, none ever is again. *)
Theorem quiesced_stays_empty (identity : option RuntimeIdentity) (ops : list gate_op) :
  let w := gate_run (fresh_gate identity) ops in
  count_of (gk_state (gw_kernel w)) = inside w /\
  (forall cpu g, pc_of w cpu = Inside g -> g = gk_generation (gw_kernel w)) /\
  forall b generation w', Quiesce b generation w = (inl tt, w') ->
    gk_generation (gw_kernel w') = RI_Generation (lb_identity b) /\
    forall later_ops cpu g, pc_of (gate_run w' later_ops) cpu <> Inside g.
Proof.
  set (w := gate_run _ _). assert (gate_inv w) as Hi by (apply run_kept, fresh_inv). cbv zeta. split; [|split].
  - destruct (word_flags _ _ (gi_word _ Hi)) as (q & _ & _ & Hc & _). done.
  - intros cpu g Hp. pose proof (pc_of_ok w cpu Hi) as Hok. rewrite Hp in Hok. by destruct Hok.
  - intros b generation w' Hq. destruct (quiesce_sealed _ _ _ _ Hq) as [Hst Hg]. split; [done|].
    assert (kept w w') as [Hi' _] by (pose proof (safe_world (Quiesce b generation) w (safe_quiesce b generation) Hi) as Hk; by rewrite Hq in Hk).
    destruct (sealed_idle w' Hi' Hst) as [Hse H0]. intros ops' cpu g.
    destruct (run_kept ops' w' Hi') as [_ Hl]. destruct (lt_sealed _ _ Hl Hse) as [_ Hle]. apply nobody.
    pose proof (inside_nonneg (gate_run w' ops')). lia.
Qed.

(** ** The last program out wakes the barrier *)

Section progress.
Context (g : Z) (inc : list Z).
Hypothesis Hg : g <> 0.
Hypothesis Hinc : inc <> zeros 16.
Abbreviation own := (mkRuntimeIdentity g inc).

Definition own_event (e : gate_event) : Prop := match e with EvPacket _ g' => g' = g | EvRun _ _ => True end.
Definition ring_takes (e : gate_event) : Prop := match e with EvPacket _ _ => True | EvRun _ ok => ok = true end.
Definition own_wake : generation_wake := mkWake g inc sealed_armed.

(** Programs while the gate is open. *)
Definition tame_open (pc : packet_pc) : Prop :=
  match pc with
  | EnterCheck g' => g' = g
  | EnterMismatch _ | EnterMismatchState | Poisoning | ExitIdentity _ | ExitWake _ _ | ExitDisarm => False
  | ExitCheck _ old => exists n, old = word 8 n /\ 1 <= n < 2 ^ 60
  | _ => True
  end.
(** Programs once it is sealed. *)
Definition tame_sealed (wakes : list generation_wake) (pc : packet_pc) : Prop :=
  match pc with
  | EnterCheck g' => g' = g
  | EnterMismatch _ | EnterMismatchState | Poisoning => False
  | ExitCheck _ old => exists q n, (q = 8 \/ q = 5) /\ old = word q n /\ 1 <= n < 2 ^ 60
  | ExitWake _ inc' => inc' = inc
  | ExitDisarm => wakes <> []
  | _ => True
  end.
(** A program that will write the wake record. *)
Definition owes (pc : packet_pc) : Prop :=
  match pc with
  | ExitCheck _ old => old = word 5 1
  | ExitIdentity _ | ExitWake _ _ => True
  | _ => False
  end.
Record ours (w : gate_world) : Prop := {
  ou_inv : gate_inv w;
  ou_generation : gk_generation (gw_kernel w) = g;
  ou_identity : gk_identity (gw_kernel w) = Some own;
  ou_wakes : Forall (fun wake => wake = own_wake) (gk_wakes (gw_kernel w))
}.
Definition open_phase (w : gate_world) : Prop := ours w /\ gk_wakes (gw_kernel w) = [] /\
  gk_state (gw_kernel w) = word 8 (inside w) /\ forall cpu, tame_open (pc_of w cpu).
Definition sealed_phase (w : gate_world) : Prop := ours w /\ (forall cpu, tame_sealed (gk_wakes (gw_kernel w)) (pc_of w cpu)) /\
  (gk_state (gw_kernel w) = word 5 (inside w) /\ (1 <= inside w \/ gk_wakes (gw_kernel w) <> [] \/ exists cpu, owes (pc_of w cpu)) \/
   gk_state (gw_kernel w) = word 4 0 /\ inside w = 0 /\ gk_wakes (gw_kernel w) <> []).

Lemma pc_of_set cpu pc k w cpu' : pc_of (set_thread cpu pc k w) cpu' = if decide (cpu' = cpu) then pc else pc_of w cpu'.
Proof.
  unfold pc_of, set_thread. cbn. case_decide as E; [subst; by rewrite lookup_insert_eq|by rewrite lookup_insert_ne].
Qed.
Lemma ours_step w e : ours w -> own_event e -> gk_wakes (gw_kernel (gate_event_step w e)) = gk_wakes (gw_kernel w) \/
  gk_wakes (gw_kernel (gate_event_step w e)) = gk_wakes (gw_kernel w) ++ [own_wake] -> ours (gate_event_step w e).
Proof.
  intros [A B C D] He Hw. destruct (event_kept w e A) as [Hi [L1 L2 L3]]. constructor; [done|rewrite L1; congruence|congruence|].
  destruct Hw as [-> | ->]; [done|]. apply Forall_app. split; [done|by constructor].
Qed.

Lemma inside_size w : inside w <= Z.of_nat (size (gw_threads w)).
Proof.
  unfold inside. induction (gw_threads w) as [|cpu pc m Hm IH] using map_ind; [by rewrite msum_empty, map_size_empty|].
  rewrite msum_insert_None by done. rewrite map_size_insert_None by done. destruct pc; cbn; lia.
Qed.
Lemma event_size w e : (size (gw_threads (gate_event_step w e)) <= S (size (gw_threads w)))%nat.
Proof.
  assert (forall cpu pc k, (size (gw_threads (set_thread cpu pc k w)) <= S (size (gw_threads w)))%nat) as Hs.
  { intros cpu pc k. cbn. destruct (gw_threads w !! cpu) eqn:E; [rewrite map_size_insert_Some by done|rewrite map_size_insert_None by done]; lia. }
  destruct e as [cpu g'|cpu ok]; cbn [gate_event_step].
  - destruct (pc_of w cpu); auto.
  - destruct (packet_step ok _ _). auto.
Qed.

Lemma word_bits q n : 0 <= q -> 0 <= n < 2 ^ 60 -> flags_of (word q n) = 2 ^ 60 * q /\ count_of (word q n) = n.
Proof. intros. by rewrite flags_word, count_word. Qed.
Lemma enter_open g' a n : 0 <= n < FakeTCPGenerationInflightMask -> enter_decide g' a (word 8 n) = EnterSwap g' a (word 8 n).
Proof.
  intros Hn. destruct (word_bits 8 n) as [Hf Hc]; unfold FakeTCPGenerationInflightMask, FakeTCPGenerationStateWakeArmed in Hn; [lia..|].
  unfold enter_decide. rewrite Hf, Hc. destruct (Z.eqb_spec n FakeTCPGenerationInflightMask) as [E|E].
  { unfold FakeTCPGenerationInflightMask, FakeTCPGenerationStateWakeArmed in E. lia. }
  by destruct (n =? 0).
Qed.
Lemma enter_sealed g' a q n : q = 5 \/ q = 4 /\ n = 0 -> 0 <= n < 2 ^ 60 -> enter_decide g' a (word q n) = Outside.
Proof.
  intros Hq Hn. destruct (word_bits q n) as [Hf Hc]; [lia..|]. unfold enter_decide. rewrite Hf, Hc.
  destruct Hq as [-> |[-> ->]]; [|done]. by destruct (n =? 0).
Qed.
Lemma exit_open n : 1 <= n < 2 ^ 60 -> exit_decide g (word 8 n) g = Outside.
Proof.
  intros Hn. destruct (word_bits 8 n) as [Hf Hc]; [lia..|]. unfold exit_decide. rewrite Hf, Hc, Z.eqb_refl.
  destruct (Z.eqb_spec n 0); [lia|]. by destruct (n =? 1).
Qed.
Lemma exit_sealed n : 1 <= n < 2 ^ 60 -> exit_decide g (word 5 n) g = if n =? 1 then ExitIdentity g else Outside.
Proof.
  intros Hn. destruct (word_bits 5 n) as [Hf Hc]; [lia..|]. unfold exit_decide. rewrite Hf, Hc, Z.eqb_refl.
  destruct (Z.eqb_spec n 0); [lia|]. by destruct (n =? 1).
Qed.
Lemma open_packet ok pc k n : gk_generation k = g -> gk_state k = word 8 n -> 0 <= n < FakeTCPGenerationInflightMask -> tame_open pc ->
  pc_ok g pc -> (weight pc = 1 -> 1 <= n) ->
  let '(pc', k') := packet_step ok pc k in
  gk_wakes k' = gk_wakes k /\ tame_open pc' /\ gk_state k' = word 8 (n - weight pc + weight pc').
Proof.
  intros Hgen Hst Hn Ht Hok H1. pose proof Hn as Hn'. unfold FakeTCPGenerationInflightMask, FakeTCPGenerationStateWakeArmed in Hn'.
  assert (word 8 n = word 8 (n - 0 + 0)) as Hsame by (f_equal; lia).
  destruct pc as [|g'|g'| | |g' a|g' a old|g'|g' old|g'|g' i'|]; cbn [packet_step tame_open pc_ok weight] in *; try done.
  - split; [done|]. split; [done|]. congruence.
  - subst g'. rewrite (proj2 (Z.eqb_neq g 0) Hg), Hgen, Z.eqb_refl. cbn. split; [done|]. split; [done|]. congruence.
  - destruct (_ <=? _)%nat; [split; [done|]; split; [done|]; cbn -[word]; congruence|].
    rewrite Hst, enter_open by done. split; [done|]. split; [done|]. cbn [weight]. congruence.
  - destruct Hok as (_ & _ & c & -> & Hcb). unfold cas_state. rewrite Hst. destruct (Z.eqb_spec (word 8 n) (word 8 c)) as [E|E].
    + unfold FakeTCPGenerationInflightMask, FakeTCPGenerationStateWakeArmed in Hcb. destruct (word_inj 8 n 8 c) as [_ <-]; [lia..|done|].
      split; [done|]. split; [done|]. cbn [gk_state set_state weight]. unfold u64, word. rewrite Z.mod_small by lia. lia.
    + split; [done|]. split; [done|]. cbn [weight]. congruence.
  - split; [done|]. rewrite Hst. split; [exists n; split; [done|lia]|]. cbn [gk_state set_state weight].
    unfold u64, word. rewrite Z.mod_small by lia. lia.
  - destruct Hok as (<- & _). destruct Ht as (m & -> & Hm). rewrite Hgen, exit_open by done. split; [done|]. split; [done|]. cbn [weight]. congruence.
Qed.
Lemma open_step w e : open_phase w -> own_event e -> Z.of_nat (size (gw_threads w)) < FakeTCPGenerationInflightMask ->
  open_phase (gate_event_step w e).
Proof.
  intros (Ho & Hwk & Hst & Ht) He Hsz.
  assert (forall cpu pc k, gate_event_step w e = set_thread cpu pc k w -> gk_wakes k = [] -> tame_open pc ->
    gk_state k = word 8 (inside w - weight (pc_of w cpu) + weight pc) -> open_phase (gate_event_step w e)) as Hset.
  { intros cpu pc k E Hk Hp Hs. rewrite E. split; [|split; [done|split; [by rewrite inside_set|]]].
    - rewrite <- E. apply ours_step; [done..|]. left. rewrite E, Hwk. done.
    - intros cpu'. rewrite pc_of_set. case_decide; [done|apply Ht]. }
  destruct e as [cpu g'|cpu ok]; cbn [gate_event_step] in *.
  { destruct (pc_of w cpu) eqn:E; try done. eapply Hset; [reflexivity|done|done|]. rewrite E. cbn. by rewrite Z.sub_0_r, Z.add_0_r. }
  pose proof (pc_of_ok w cpu (ou_inv _ Ho)) as Hok. rewrite (ou_generation _ Ho) in Hok.
  pose proof (inside_size w). pose proof (inside_nonneg w).
  assert (weight (pc_of w cpu) = 1 -> 1 <= inside w) as H1.
  { intros E. destruct (pc_of w cpu) eqn:Ep; try done. by eapply weight_inside. }
  pose proof (open_packet ok (pc_of w cpu) (gw_kernel w) (inside w) (ou_generation _ Ho) Hst ltac:(lia) (Ht cpu) Hok H1) as Hp.
  destruct (packet_step ok (pc_of w cpu) (gw_kernel w)) as [pc' k']. destruct Hp as (A & B & C).
  eapply Hset; [reflexivity|congruence|done|done].
Qed.
Lemma open_events es : forall w, open_phase w -> Forall own_event es ->
  Z.of_nat (size (gw_threads w)) + len es <= FakeTCPGenerationInflightMask -> open_phase (gate_events w es).
Proof.
  induction es as [|e es IH]; intros w Ho He Hsz; [done|]. apply Forall_cons_1 in He as [He Hes]. cbn. rewrite len_cons in Hsz.
  pose proof (event_size w e). apply IH; [apply open_step; try done; unfold len in *; lia|done|lia].
Qed.

Lemma identity_own k : gk_identity k = Some own -> faketcp_runtime_identity g k = Some inc.
Proof. intros E. unfold faketcp_runtime_identity. rewrite E. cbn. by rewrite Z.eqb_refl, bool_decide_eq_false_2. Qed.

Lemma sealed_packet pc k q n : gk_generation k = g -> gk_identity k = Some own -> gk_state k = word q n -> (q = 5 \/ q = 4 /\ n = 0) ->
  0 <= n < 2 ^ 60 -> tame_sealed (gk_wakes k) pc -> pc_ok g pc -> (weight pc = 1 -> 1 <= n) ->
  let '(pc', k') := packet_step true pc k in
  (gk_wakes k' = gk_wakes k \/ gk_wakes k' = gk_wakes k ++ [own_wake]) /\ tame_sealed (gk_wakes k') pc' /\ weight pc' = 0 /\
  (gk_state k' = word q (n - weight pc) /\ (owes pc -> owes pc' \/ gk_wakes k' <> []) /\ (weight pc = 1 -> n = 1 -> owes pc') \/
   q = 5 /\ n = 0 /\ weight pc = 0 /\ gk_state k' = word 4 0 /\ gk_wakes k' <> []).
Proof.
  intros Hgen Hid Hst Hq Hn Ht Hok H1. assert (gk_state k = word q (n - 0)) as Hsame by (rewrite Hst; f_equal; lia).
  destruct pc as [|g'|g'| | |g' a|g' a old|g'|g' old|g'|g' i'|]; cbn [packet_step tame_sealed pc_ok weight owes] in *; try done.
  - split; [by left|]. split; [done|]. split; [done|]. left. done.
  - subst g'. rewrite (proj2 (Z.eqb_neq g 0) Hg), Hgen, Z.eqb_refl. cbn [negb]. split; [by left|]. split; [done|]. split; [done|]. left. done.
  - assert ((if (FAKETCP_GENERATION_CAS_ATTEMPTS <=? a)%nat then (Outside, k) else (enter_decide g' a (gk_state k), k)) = (Outside, k)) as ->.
    { destruct (_ <=? _)%nat; [done|]. by rewrite Hst, enter_sealed. }
    split; [by left|]. split; [done|]. split; [done|]. left. done.
  - destruct Hok as (_ & _ & c & -> & Hcb). unfold FakeTCPGenerationInflightMask, FakeTCPGenerationStateWakeArmed in Hcb.
    unfold cas_state. rewrite Hst. destruct (Z.eqb_spec (word q n) (word 8 c)) as [E|E]; [apply word_inj in E; lia|].
    split; [by left|]. split; [done|]. split; [done|]. left. done.
  - specialize (H1 eq_refl). destruct Hq as [-> |[-> ->]]; [|lia]. rewrite Hst. split; [by left|]. split; [exists 5, n; split; [lia|]; split; [done|lia]|].
    split; [done|]. left. split; [|split; [done|by intros _ ->]]. cbn [gk_state set_state]. unfold u64, word. rewrite Z.mod_small; lia.
  - destruct Hok as (<- & _). destruct Ht as (q' & m & Hq' & -> & Hm). rewrite Hgen. destruct Hq' as [-> | ->].
    + rewrite exit_open by done. split; [by left|]. split; [done|]. split; [done|]. left. split; [done|]. split; [|done].
      intros E. apply word_inj in E; lia.
    + rewrite exit_sealed by done. destruct (Z.eqb_spec m 1) as [-> |Hm1].
      * split; [by left|]. split; [done|]. split; [done|]. left. split; [done|]. split; [by left|done].
      * split; [by left|]. split; [done|]. split; [done|]. left. split; [done|]. split; [|done]. intros E. apply word_inj in E; lia.
  - destruct Hok as [<- _]. rewrite identity_own by done. split; [by left|]. split; [done|]. split; [done|]. left. split; [done|]. split; [by left|done].
  - destruct Hok as [<- _]. subst i'. cbn [gk_wakes set_wakes gk_state weight tame_sealed owes]. split; [by right|].
    assert (gk_wakes k ++ [mkWake g inc sealed_armed] <> []) as Hne by (by destruct (gk_wakes k)).
    split; [done|]. split; [done|]. left. split; [done|]. split; [by right|done].
  - unfold cas_state. cbn [snd]. rewrite Hst. destruct (Z.eqb_spec (word q n) sealed_armed) as [E|E].
    + change sealed_armed with (word 5 0) in E. apply word_inj in E as [-> ->]; [|lia..]. split; [by left|]. split; [done|]. split; [done|].
      right. done.
    + split; [by left|]. split; [done|]. split; [done|]. left. done.
Qed.

Lemma tame_more wakes wake pc : tame_sealed wakes pc -> tame_sealed (wakes ++ [wake]) pc.
Proof. destruct pc; cbn; try done. intros _. by destruct wakes. Qed.
Lemma sealed_step w e : sealed_phase w -> own_event e -> ring_takes e -> sealed_phase (gate_event_step w e).
Proof.
  intros (Ho & Ht & Hs) He Hr. pose proof (ou_inv _ Ho) as Hi. pose proof (gi_word _ Hi) as Hw.
  assert (0 <= inside w < 2 ^ 60) as Hn by (by destruct Hw as (? & _ & ? & _)).
  assert (exists q, gk_state (gw_kernel w) = word q (inside w) /\ (q = 5 \/ q = 4 /\ inside w = 0)) as (q & Hst & Hq).
  { destruct Hs as [[Hs _]|(Hs & H0 & _)]; [by exists 5; auto|]. exists 4. rewrite H0. auto. }
  destruct e as [cpu g'|cpu ok].
  { cbn [gate_event_step] in *. destruct (pc_of w cpu) eqn:E; try done. split; [|split].
    - pose proof (ours_step w (EvPacket cpu g') Ho He) as Ho'. cbn [gate_event_step] in Ho'. rewrite E in Ho'. apply Ho'. by left.
    - intros cpu'. rewrite pc_of_set. case_decide; [done|apply Ht].
    - rewrite inside_set, E. cbn [weight]. rewrite Z.sub_0_r, Z.add_0_r. cbn [set_thread gw_kernel].
      destruct Hs as [[Hs Hx]|Hs]; [left|by right]. split; [done|]. destruct Hx as [?|[?|[cpu' Hc]]]; auto. right. right. exists cpu'.
      rewrite pc_of_set. case_decide as D; [|done]. subst. by rewrite E in Hc. }
  cbn in Hr. subst ok. pose proof (pc_of_ok w cpu Hi) as Hok. rewrite (ou_generation _ Ho) in Hok.
  assert (weight (pc_of w cpu) = 1 -> 1 <= inside w) as H1.
  { intros E. destruct (pc_of w cpu) eqn:Ep; try done. by eapply weight_inside. }
  pose proof (sealed_packet _ _ _ _ (ou_generation _ Ho) (ou_identity _ Ho) Hst Hq Hn (Ht cpu) Hok H1) as Hp.
  pose proof (ours_step w (EvRun cpu true) Ho He) as Ho'. cbn [gate_event_step] in *.
  destruct (packet_step true (pc_of w cpu) (gw_kernel w)) as [pc' k']. cbn [set_thread gw_kernel] in Ho'. destruct Hp as (Hwk & Htp & Hw0 & Hcase).
  split; [by apply Ho'|]. split.
  { intros cpu'. rewrite pc_of_set. case_decide; [done|]. destruct Hwk as [E|E]; cbn [set_thread gw_kernel]; rewrite E; [apply Ht|apply tame_more, Ht]. }
  rewrite inside_set, Hw0, Z.add_0_r. cbn [set_thread gw_kernel].
  assert (gk_wakes (gw_kernel w) <> [] -> gk_wakes k' <> []) as Hmono.
  { intros Hne. destruct Hwk as [-> | ->]; [done|]. by destruct (gk_wakes (gw_kernel w)). }
  destruct Hcase as [(Hst' & Howe & Hlast)|(-> & H0 & Hwz & Hst' & Hne)].
  - destruct Hq as [-> |[-> H0]].
    + left. split; [done|]. destruct Hs as [[_ Hx]|(Hs & H0 & Hx)]; [|right; left; by apply Hmono].
      assert (weight (pc_of w cpu) = 1 \/ weight (pc_of w cpu) = 0) as [E1|E0] by (destruct (pc_of w cpu); auto).
      * destruct (Z.eq_dec (inside w) 1) as [E|E]; [|left; specialize (H1 E1); lia]. right. right. exists cpu. rewrite pc_of_set, decide_True by done. by apply Hlast.
      * destruct Hx as [?|[?|[cpu' Hc]]]; [left; lia|right; left; by apply Hmono|]. destruct (decide (cpu' = cpu)) as [-> |D].
        -- destruct (Howe Hc) as [?|?]; [|by right; left]. right. right. exists cpu. by rewrite pc_of_set, decide_True.
        -- right. right. exists cpu'. by rewrite pc_of_set, decide_False.
    + right. destruct Hs as [[Hs _]|(_ & _ & Hx)]; [rewrite Hst in Hs; apply word_inj in Hs; lia|].
      assert (weight (pc_of w cpu) = 0) as E0 by (destruct (pc_of w cpu); try done; specialize (H1 eq_refl); lia).
      rewrite H0, E0 in *. split; [done|]. split; [lia|by apply Hmono].
  - right. rewrite H0, Hwz. split; [done|]. split; [lia|done].
Qed.
Lemma sealed_events es : forall w, sealed_phase w -> Forall own_event es -> Forall ring_takes es -> sealed_phase (gate_events w es).
Proof.
  induction es as [|e es IH]; intros w Hs He Hr; [done|]. apply Forall_cons_1 in He as [He Hes]. apply Forall_cons_1 in Hr as [Hr Hrs].
  cbn. apply IH; [by apply sealed_step|done..].
Qed.

(** The control program and the barrier with nothing in between. *)
Abbreviation gate_at state wakes threads waiting := (mkGateWorld (mkGate g state wakes (Some own)) threads [] waiting).

Lemma open_quiet threads waiting : wg_faketcp_generation_control own FakeTCPGenerationControlOpen
    (mkGateWorld (mkGate 0 0 [] (Some own)) threads [] waiting) =
  (inl FakeTCPGenerationResultOpen, gate_at (word 8 0) [] threads waiting).
Proof.
  unfold wg_faketcp_generation_control. cbn [RI_Generation RI_Incarnation]. rewrite (proj2 (Z.eqb_neq g 0) Hg). cbn [orb]. change (_ || _) with false. cbv iota.
  unfold sbind at 1. unfold access at 1. cbn [next_slot gw_oracle gw_kernel set_kernel gw_threads gw_waiting].
  rewrite (identity_own (mkGate 0 0 [] (Some own))) by done. rewrite bool_decide_eq_true_2 by done. reflexivity.
Qed.

Lemma event_schedule w e : gw_oracle (gate_event_step w e) = gw_oracle w /\ gw_waiting (gate_event_step w e) = gw_waiting w.
Proof. destruct e as [cpu g'|cpu ok]; cbn; [by destruct (pc_of w cpu)|by destruct (packet_step _ _ _)]. Qed.
Lemma events_schedule es : forall w, gw_oracle (gate_events w es) = gw_oracle w /\ gw_waiting (gate_events w es) = gw_waiting w.
Proof.
  induction es as [|e es IH]; intros w; [done|]. cbn. destruct (event_schedule w e) as [<- <-]. apply IH.
Qed.
Lemma all_outside w : (forall cpu, pc_of w cpu = Outside) -> inside w = 0.
Proof.
  intros Ho. unfold inside. rewrite (msum_ext _ (fun _ => 0)); [apply msum_zero|]. intros cpu pc Hl. specialize (Ho cpu).
  unfold pc_of in Ho. rewrite Hl in Ho. cbn in Ho. by subst.
Qed.
Lemma lock_quiet w : gw_oracle w = [] -> barrier_lock (mkBarrier g own true) g w = (inl tt, w).
Proof.
  destruct w as [k threads oracle waiting]. cbn. intros ->. unfold barrier_lock. cbn [lb_generation lb_bound].
  by rewrite (proj2 (Z.eqb_neq g 0) Hg), Z.eqb_refl.
Qed.
Lemma run_quiet operation w : gw_oracle w = [] ->
  runLocked (mkBarrier g own true) operation w = wg_faketcp_generation_control own operation w.
Proof. intros Ho. unfold runLocked, syscall, next_slot. by rewrite Ho. Qed.
Lemma activated : open_phase (Activate (mkBarrier g own true) g (fresh_gate (Some own))).2 /\
  gw_threads (Activate (mkBarrier g own true) g (fresh_gate (Some own))).2 = ∅ /\
  gw_oracle (Activate (mkBarrier g own true) g (fresh_gate (Some own))).2 = [] /\
  gw_waiting (Activate (mkBarrier g own true) g (fresh_gate (Some own))).2 = [].
Proof.
  assert (Activate (mkBarrier g own true) g (fresh_gate (Some own)) = (inl tt, gate_at (word 8 0) [] ∅ [])) as E.
  { unfold Activate, sbind, swrap. rewrite lock_quiet by done. unfold expectLocked, sbind, swrap. rewrite run_quiet by done.
    unfold fresh_gate. by rewrite open_quiet. }
  pose proof (safe_world (Activate (mkBarrier g own true) g) _ (safe_activate _ _) (fresh_inv (Some own))) as [Hi _].
  rewrite E in *. cbn [snd] in *. assert (inside (gate_at (word 8 0) [] ∅ []) = 0) as H0 by (unfold inside; cbn; apply msum_empty).
  split; [|done]. split; [by constructor|]. split; [done|]. split; [by rewrite H0|]. intros cpu. unfold pc_of. cbn. by rewrite lookup_empty.
Qed.


(** *** Under interleaving *)
(** A call that does not fail, with whatever own packets run before it. *)
Definition benign (s : slot) : Prop := so_fault s = None /\ Forall own_event (so_events s) /\ Forall ring_takes (so_events s).
Definition ready (w : gate_world) : Prop := Forall benign (gw_oracle w).
Definition pending (oracle : list slot) : Z := len (concat (map so_events oracle)).
(** The gate is open, and what is to come fits the counter. *)
Definition open_room (w : gate_world) : Prop :=
  open_phase w /\ Z.of_nat (size (gw_threads w)) + pending (gw_oracle w) <= FakeTCPGenerationInflightMask.
Definition calm_slot (s : option slot) : Prop := match s with Some s => so_events s = [] | None => True end.

Lemma events_size es : forall w, (size (gw_threads (gate_events w es)) <= size (gw_threads w) + length es)%nat.
Proof.
  induction es as [|e es IH]; intros w; [cbn; lia|]. change (gate_events w (e :: es)) with (gate_events (gate_event_step w e) es).
  pose proof (event_size w e). specialize (IH (gate_event_step w e)). cbn [length]. lia.
Qed.
Lemma ready_tail w w' : ready w -> gw_oracle w' = tail (gw_oracle w) -> ready w'.
Proof. unfold ready. intros Hr ->. destruct (gw_oracle w); [done|]. by inversion Hr. Qed.
Lemma ours_sched w oracle waiting : ours w -> ours (mkGateWorld (gw_kernel w) (gw_threads w) oracle waiting).
Proof. intros [[A B] C D F]. constructor; [by constructor|done..]. Qed.
Lemma open_sched w oracle waiting : open_phase w -> open_phase (mkGateWorld (gw_kernel w) (gw_threads w) oracle waiting).
Proof. intros (Ho & Hr). split; [by apply ours_sched|exact Hr]. Qed.
Lemma sealed_sched w oracle waiting : sealed_phase w -> sealed_phase (mkGateWorld (gw_kernel w) (gw_threads w) oracle waiting).
Proof. intros (Ho & Hr). split; [by apply ours_sched|exact Hr]. Qed.
Lemma open_slot w : open_room w -> ready w -> exists w', next_slot w = (None, w') /\ open_room w' /\ ready w' /\
  gw_oracle w' = tail (gw_oracle w) /\ gw_waiting w' = gw_waiting w /\ (calm_slot (head (gw_oracle w)) -> gw_kernel w' = gw_kernel w).
Proof.
  intros Hor Hb. pose proof Hor as [Ho Hr]. unfold next_slot, ready in *. destruct (gw_oracle w) as [|s rest] eqn:E.
  { exists w. rewrite E. split; [done|]. split; [exact Hor|]. by split_and!. }
  apply Forall_cons_1 in Hb as [(Hf & He & _) Hb]. rewrite Hf. eexists. split; [done|]. set (w1 := mkGateWorld _ _ rest _).
  destruct (events_schedule (so_events s) w1) as [Eo Ew]. unfold pending in Hr. cbn [map concat] in Hr. unfold len in Hr. rewrite length_app in Hr.
  pose proof (events_size (so_events s) w1) as Hsz. change (gw_threads w1) with (gw_threads w) in Hsz. split; [|rewrite Eo, Ew; split_and!; try done].
  - split; [|unfold pending, len; rewrite Eo; cbn [gw_oracle w1]; lia]. apply open_events; [by apply open_sched|done|unfold len; cbn [gw_threads w1]; lia].
  - cbn. by intros ->.
Qed.

(** A property that packet events keep. *)
Definition stable (P : gate_world -> Prop) : Prop :=
  (forall w oracle waiting, P w -> P (mkGateWorld (gw_kernel w) (gw_threads w) oracle waiting)) /\
  forall es w, P w -> Forall own_event es -> Forall ring_takes es -> P (gate_events w es).
Lemma stable_slot P w : stable P -> P w -> ready w -> exists w', next_slot w = (None, w') /\ P w' /\ ready w' /\ gw_waiting w' = gw_waiting w.
Proof.
  intros [Hs He] Hp Hb. unfold next_slot, ready in *. destruct (gw_oracle w) as [|s rest] eqn:E.
  { exists w. rewrite E. split; [done|]. split; [exact Hp|]. by split. }
  apply Forall_cons_1 in Hb as [(Hf & Hown & Hring) Hb]. rewrite Hf. eexists. split; [done|]. set (w1 := mkGateWorld _ _ rest _).
  destruct (events_schedule (so_events s) w1) as [Eo Ew]. rewrite Eo, Ew. split_and!; [|done..]. apply He; [by apply Hs|done..].
Qed.
Lemma stable_access {A} P (f : gate_kernel -> A * gate_kernel) Q w : stable P -> P w -> ready w ->
  (forall w1, P w1 -> ready w1 -> gw_waiting w1 = gw_waiting w -> Q (f (gw_kernel w1)).1 (set_kernel (f (gw_kernel w1)).2 w1)) ->
  swp (access f) Q (fun _ => False) w.
Proof.
  intros Hs Hp Hb HQ. destruct (stable_slot P w Hs Hp Hb) as (w1 & E & Hp1 & Hb1 & Ew). unfold swp, access. rewrite E.
  specialize (HQ w1 Hp1 Hb1 Ew). by destruct (f (gw_kernel w1)).
Qed.
Lemma stable_read {A} P (f : gate_kernel -> A) (Q : A -> gate_world -> Prop) w : stable P -> P w -> ready w ->
  (forall w1, P w1 -> ready w1 -> gw_waiting w1 = gw_waiting w -> Q (f (gw_kernel w1)) w1) -> swp (access (fun k => (f k, k))) Q (fun _ => False) w.
Proof. intros Hs Hp Hb HQ. eapply stable_access; [done..|]. intros w1 H1 H2 H3. specialize (HQ w1 H1 H2 H3). by destruct w1. Qed.
Lemma stable_syscall {A} P (m : SM gate_world A) Q w : stable P -> P w -> ready w ->
  (forall w1, P w1 -> ready w1 -> gw_waiting w1 = gw_waiting w -> swp m Q (fun _ => False) w1) -> swp (syscall m) Q (fun _ => False) w.
Proof. intros Hs Hp Hb HQ. destruct (stable_slot P w Hs Hp Hb) as (w1 & E & Hp1 & Hb1 & Ew). unfold swp, syscall. rewrite E. by apply HQ. Qed.
Lemma stable_sealed : stable sealed_phase.
Proof. split; [intros; by apply sealed_sched|]. intros. by apply sealed_events. Qed.

(** *** Nobody inside *)
(** Neither inside nor about to write the record. *)
Definition through (pc : packet_pc) : Prop := match pc with Inside _ | ExitCheck _ _ | ExitIdentity _ | ExitWake _ _ => False | _ => True end.
Definition quiet (pc : packet_pc) : Prop :=
  match pc with
  | Outside | EnterLoad _ _ | EnterSwap _ _ _ | ExitDisarm => True
  | EnterCheck g' => g' = g
  | ExitCheck _ old => exists q n, (q = 8 \/ q = 5) /\ old = word q n /\ 1 <= n < 2 ^ 60 /\ old <> word 5 1
  | _ => False
  end.
Definition drained (w : gate_world) : Prop := ours w /\ inside w = 0 /\ (forall cpu, quiet (pc_of w cpu)) /\
  exists q, gk_state (gw_kernel w) = word q 0 /\ (q = 5 \/ q = 4).
Definition idle (w : gate_world) : Prop := drained w /\ gk_state (gw_kernel w) = word 4 0.
Lemma quiet_weight pc : quiet pc -> weight pc = 0.
Proof. by destruct pc. Qed.
Lemma quiet_packet ok pc k q : gk_generation k = g -> gk_state k = word q 0 -> (q = 5 \/ q = 4) -> quiet pc -> pc_ok g pc ->
  let '(pc', k') := packet_step ok pc k in
  gk_wakes k' = gk_wakes k /\ quiet pc' /\ (gk_state k' = word q 0 \/ gk_state k' = word 4 0).
Proof.
  intros Hgen Hst Hq Ht Hok. destruct pc as [|g'|g'| | |g' a|g' a old|g'|g' old|g'|g' i'|]; cbn [packet_step quiet pc_ok] in *; try done.
  - (split_and!; [done|done|by left]).
  - subst g'. rewrite (proj2 (Z.eqb_neq g 0) Hg), Hgen, Z.eqb_refl. cbn [negb quiet]. auto.
  - assert ((if (FAKETCP_GENERATION_CAS_ATTEMPTS <=? a)%nat then (Outside, k) else (enter_decide g' a (gk_state k), k)) = (Outside, k)) as ->.
    { destruct (_ <=? _)%nat; [done|]. rewrite Hst, enter_sealed; [done| |lia]. destruct Hq as [-> | ->]; auto. }
    (split_and!; [done|done|by left]).
  - destruct Hok as (_ & _ & c & -> & Hcb). unfold FakeTCPGenerationInflightMask, FakeTCPGenerationStateWakeArmed in Hcb.
    unfold cas_state. rewrite Hst. destruct (Z.eqb_spec (word q 0) (word 8 c)) as [E|E]; [apply word_inj in E; lia|]. (split_and!; [done|done|by left]).
  - destruct Hok as (<- & _). destruct Ht as (q' & m & Hq' & -> & Hm & Hne). rewrite Hgen. destruct Hq' as [-> | ->].
    + rewrite exit_open by done. (split_and!; [done|done|by left]).
    + rewrite exit_sealed by done. destruct (Z.eqb_spec m 1) as [-> |Hm1]; [done|]. (split_and!; [done|done|by left]).
  - unfold cas_state. cbn [snd]. destruct (gk_state k =? sealed_armed); (split_and!; [done|done|by (left + right)]).
Qed.
Lemma drained_step w e : drained w -> own_event e ->
  drained (gate_event_step w e) /\ (gk_state (gw_kernel w) = word 4 0 -> gk_state (gw_kernel (gate_event_step w e)) = word 4 0).
Proof.
  intros (Ho & H0 & Ht & q & Hst & Hq) He. pose proof (ours_step w e Ho He) as Ho'. destruct e as [cpu g'|cpu ok]; cbn [gate_event_step] in *.
  - destruct (pc_of w cpu) eqn:E; try (split; [split; [exact Ho|]; split; [exact H0|]; split; [exact Ht|]; by exists q|exact id]). split; [|exact id]. split; [apply Ho'; by left|].
    rewrite inside_set, E, H0. split; [done|]. split; [|by eauto]. intros cpu'. rewrite pc_of_set. case_decide; [done|apply Ht].
  - pose proof (pc_of_ok w cpu (ou_inv _ Ho)) as Hok. rewrite (ou_generation _ Ho) in Hok.
    pose proof (quiet_packet ok _ _ q (ou_generation _ Ho) Hst Hq (Ht cpu) Hok) as Hp.
    destruct (packet_step ok (pc_of w cpu) (gw_kernel w)) as [pc' k']. destruct Hp as (Hw & Hq' & Hs). cbn [set_thread gw_kernel] in Ho'.
    split; [|intros E; cbn [set_thread gw_kernel]; rewrite Hst in E; destruct Hs as [-> | ->]; done].
    split; [apply Ho'; by left|]. rewrite inside_set, H0, (quiet_weight _ (Ht cpu)), (quiet_weight _ Hq'). split; [done|].
    split; [intros cpu'; rewrite pc_of_set; case_decide; [done|apply Ht]|]. cbn [set_thread gw_kernel]. destruct Hs as [-> | ->]; eauto.
Qed.
Lemma drained_sched w oracle waiting : drained w -> drained (mkGateWorld (gw_kernel w) (gw_threads w) oracle waiting).
Proof. intros (Ho & Hr). split; [by apply ours_sched|exact Hr]. Qed.
Lemma stable_drained : stable drained.
Proof.
  split; [intros; by apply drained_sched|]. intros es. induction es as [|e es IH]; intros w Hd He Hr; [done|].
  apply Forall_cons_1 in He as [He Hes]. apply Forall_cons_1 in Hr as [_ Hr]. apply IH; [by apply drained_step|done..].
Qed.
Lemma stable_idle : stable idle.
Proof.
  split; [intros w o v [Hd Hs]; split; [by apply drained_sched|done]|]. intros es. induction es as [|e es IH]; intros w Hd He Hr; [done|].
  apply Forall_cons_1 in He as [He Hes]. apply Forall_cons_1 in Hr as [_ Hr]. apply IH; [|done..]. destruct Hd as [Hd Hs].
  destruct (drained_step w e Hd He) as [? Hst]. split; auto.
Qed.
(** *** CLOSE *)
Lemma set_kernel_id w : set_kernel (gw_kernel w) w = w.
Proof. by destruct w. Qed.
(** A write of the word alone. *)
Lemma ours_word w state : ours w -> word_ok state (inside w) -> ours (set_kernel (set_state state (gw_kernel w)) w).
Proof. intros [[A B] C D F] Hw. constructor; [by constructor|done..]. Qed.
Lemma word_pos q n : 4 <= q -> 0 <= n -> word q n <> 0.
Proof. unfold word. lia. Qed.
(** The closing of an open gate: idle if nobody is inside. *)
Lemma open_sealed w n : open_phase w -> gk_state (gw_kernel w) = word 8 n -> 0 <= n < 2 ^ 60 ->
  let w' := set_kernel (set_state (if n =? 0 then word 4 0 else word 5 n) (gw_kernel w)) w in
  if n =? 0 then idle w' else sealed_phase w'.
Proof.
  intros (Ho & Hwk & Hst & Ht) Hs Hn. cbv zeta. pose proof (gi_word _ (ou_inv _ Ho)) as Hw.
  assert (0 <= inside w < 2 ^ 60) as Hi by (by destruct Hw as (? & _ & ? & _)).
  assert (n = inside w) as -> by (rewrite Hs in Hst; by destruct (word_inj _ _ _ _ Hn Hi Hst)). destruct (Z.eqb_spec (inside w) 0) as [E0|E0].
  - split; [|done]. split; [apply ours_word; [done|]; rewrite E0; apply (word_at 4 0); unfold flag_ok; lia|]. split; [exact E0|].
    split; [|exists 4; auto]. intros cpu. specialize (Ht cpu). change (pc_of (set_kernel _ w) cpu) with (pc_of w cpu).
    destruct (pc_of w cpu) eqn:Ep; cbn in *; try done; [by apply weight_inside in Ep; lia|].
    destruct Ht as (m & -> & Hm). exists 8, m. split_and!; auto; try lia. intros E. apply word_inj in E; lia.
  - split; [apply ours_word; [done|]; apply (word_at 5); unfold flag_ok; lia|]. change (inside (set_kernel _ w)) with (inside w).
    split; [|left; split; [done|left; lia]]. intros cpu. specialize (Ht cpu). change (pc_of (set_kernel _ w) cpu) with (pc_of w cpu).
    destruct (pc_of w cpu) eqn:Ep; cbn in *; try done. destruct Ht as (m & -> & Hm). exists 8, m. auto.
Qed.
Lemma open_word w : open_phase w -> exists n, gk_state (gw_kernel w) = word 8 n /\ 0 <= n < 2 ^ 60.
Proof. intros (Ho & _ & Hst & _). exists (inside w). split; [done|]. by destruct (gi_word _ (ou_inv _ Ho)) as (? & _ & ? & _). Qed.
Definition closed_to (waiting : list gate_event) (r : Z) (w : gate_world) : Prop :=
  ready w /\ gw_waiting w = waiting /\
  (r = FakeTCPGenerationResultIdle /\ idle w \/ r = FakeTCPGenerationResultWait /\ sealed_phase w).
(** One of the attempts meets no packet between its load and its swap. *)
Definition calm_swap (offset n : nat) (oracle : list slot) : Prop := exists i, (i < n)%nat /\ calm_slot (oracle !! (offset + 2 * i)%nat).
Lemma calm_tail offset n oracle : calm_swap (S offset) n oracle -> calm_swap offset n (tail oracle).
Proof. intros (i & Hi & Hc). exists i. split; [done|]. by destruct oracle. Qed.
Lemma close_open n : forall w, open_room w -> ready w -> calm_swap 1 n (gw_oracle w) -> swp (close_attempts n) (closed_to (gw_waiting w)) (fun _ => False) w.
Proof.
  induction n as [|n IH]; intros w Hw Hb (i & Hi & Hc); [lia|]. cbn [close_attempts]. apply swp_bind. unfold swp at 1, load_state, access.
  destruct (open_slot w Hw Hb) as (w1 & -> & Hw1 & Hb1 & Eo1 & Ew1 & _). rewrite set_kernel_id.
  destruct (open_word w1 (proj1 Hw1)) as (m & Hm & Hmb). rewrite Hm. destruct (word_bits 8 m) as [-> ->]; [lia..|].
  destruct (close_word m Hmb) as [-> _]. change (poisoned (2 ^ 60 * 8)) with false. cbv iota.
  rewrite (proj2 (Z.eqb_neq (word 8 m) 0)) by (apply word_pos; lia). change (2 ^ 60 * 8 =? FakeTCPGenerationStateOpen) with true. cbv iota zeta.
  apply swp_bind. unfold swp at 1, access. destruct (open_slot w1 Hw1 Hb1) as (w2 & -> & Hw2 & Hb2 & Eo2 & Ew2 & Hcalm).
  destruct (open_word w2 (proj1 Hw2)) as (m2 & Hm2 & Hm2b). unfold cas_state. rewrite Hm2. destruct (Z.eqb_spec (word 8 m2) (word 8 m)) as [E|E].
  - destruct (word_inj _ _ _ _ Hm2b Hmb E) as [_ ->]. cbn [negb]. apply swp_ret. pose proof (open_sealed w2 m (proj1 Hw2) Hm2 Hmb) as Hs. cbv zeta in Hs.
    destruct (Z.eqb_spec m 0) as [-> |E0]; cbn [negb]; split; [done| |done|]; (split; [by rewrite <- Ew1, <- Ew2|]); [by left|right].
    split; [done|]. destruct (close_word m Hmb) as [H4 H5]. rewrite H4 in H5. by rewrite H5.
  - cbn [negb]. rewrite set_kernel_id. rewrite <- Ew1, <- Ew2. apply IH; [done..|]. rewrite Eo2, Eo1. destruct i as [|i].
    + exfalso. apply E. cbn in Hc. rewrite <- Hm, <- Hm2, Hcalm; [done|]. rewrite Eo1. by destruct (gw_oracle w) as [|? [|? ?]].
    + exists i. split; [lia|]. replace (1 + 2 * S i)%nat with (S (S (1 + 2 * i))) in Hc by lia. by destruct (gw_oracle w) as [|? [|? ?]].
Qed.
Lemma close_idle n w : idle w -> ready w -> swp (close_attempts (S n))
  (fun r w' => ready w' /\ r = FakeTCPGenerationResultIdle /\ idle w') (fun _ => False) w.
Proof.
  intros Hw Hb. cbn [close_attempts]. apply swp_bind. apply (stable_read idle); [apply stable_idle|done..|]. intros w1 [Hd Hs] Hb1 _. rewrite Hs.
  by apply swp_ret.
Qed.
Lemma close_drained n w : drained w -> ready w -> swp (close_attempts (S (S n)))
  (fun r w' => ready w' /\ r = FakeTCPGenerationResultIdle /\ idle w') (fun _ => False) w.
Proof.
  intros Hw Hb. change (close_attempts (S (S n))) with (close_attempts (S (S n))). remember (S n) as more eqn:Hmore. cbn [close_attempts].
  apply swp_bind. apply (stable_read drained); [apply stable_drained|done..|]. intros w1 Hd1 Hb1 _. pose proof Hd1 as (_ & _ & _ & q & Hs & Hq).
  rewrite Hs. destruct Hq as [-> | ->]; [|by apply swp_ret]. cbv -[swp sbind access cas_state close_attempts drained ready idle sret].
  apply swp_bind. apply (stable_access drained); [apply stable_drained|done..|]. intros w2 Hd2 Hb2 _. unfold cas_state. cbn [fst snd].
  pose proof Hd2 as (Ho2 & H02 & Ht2 & q2 & Hs2 & Hq2). rewrite Hs2. destruct Hq2 as [-> | ->].
  - change (word 5 0 =? _) with true. cbv iota. apply swp_ret. split; [done|]. split; [done|]. split; [|done].
    split; [apply ours_word; [done|]; rewrite H02; apply (word_at 4 0); unfold flag_ok; lia|]. split; [exact H02|]. split; [exact Ht2|]. exists 4. auto.
  - change (word 4 0 =? _) with false. cbv iota. rewrite set_kernel_id. subst more. by apply close_idle.
Qed.
(** The request and the generation are the gate's. *)
Lemma control_close w Q E : swp (try! identity := access (fun k => (faketcp_runtime_identity g k, k)) in
    if negb (bool_decide (identity = Some inc)) then sret FakeTCPGenerationResultMalformed else faketcp_generation_close g) Q E w ->
  swp (wg_faketcp_generation_control own FakeTCPGenerationControlClose) Q E w.
Proof. unfold wg_faketcp_generation_control. cbn [RI_Generation RI_Incarnation]. by rewrite (proj2 (Z.eqb_neq g 0) Hg). Qed.
Lemma bound_own k : gk_generation k = g -> cas_generation 0 g k = (g, k).
Proof. intros E. unfold cas_generation. by rewrite E, (proj2 (Z.eqb_neq g 0) Hg). Qed.
Lemma not_bound : negb (g =? 0) && negb (g =? g) = false.
Proof. by rewrite Z.eqb_refl, andb_false_r. Qed.
Abbreviation b_own := (mkBarrier g own true).
Lemma control_open w : open_room w -> ready w -> calm_swap 3 FAKETCP_GENERATION_CAS_ATTEMPTS (gw_oracle w) ->
  swp (wg_faketcp_generation_control own FakeTCPGenerationControlClose) (closed_to (gw_waiting w)) (fun _ => False) w.
Proof.
  intros Hw Hb Hc. apply control_close, swp_bind. unfold swp at 1, access. destruct (open_slot w Hw Hb) as (w1 & -> & Hw1 & Hb1 & Eo1 & Ew1 & _).
  rewrite set_kernel_id, identity_own by apply (ou_identity _ (proj1 (proj1 Hw1))). rewrite bool_decide_eq_true_2 by done. cbn [negb].
  unfold faketcp_generation_close, bind_then. apply swp_bind. unfold swp at 1, access. destruct (open_slot w1 Hw1 Hb1) as (w2 & -> & Hw2 & Hb2 & Eo2 & Ew2 & _).
  rewrite bound_own by apply (ou_generation _ (proj1 (proj1 Hw2))). rewrite set_kernel_id, not_bound. rewrite <- Ew1, <- Ew2.
  apply close_open; [done..|]. rewrite Eo2, Eo1. by apply calm_tail, calm_tail.
Qed.
Lemma control_drained w : drained w -> ready w ->
  swp (wg_faketcp_generation_control own FakeTCPGenerationControlClose) (fun r w' => ready w' /\ r = FakeTCPGenerationResultIdle /\ idle w') (fun _ => False) w.
Proof.
  intros Hw Hb. apply control_close, swp_bind. apply (stable_read drained); [apply stable_drained|done..|]. intros w1 Hd1 Hb1 _.
  rewrite identity_own by apply (ou_identity _ (proj1 Hd1)). rewrite bool_decide_eq_true_2 by done. cbn [negb].
  unfold faketcp_generation_close, bind_then. apply swp_bind. apply (stable_access drained); [apply stable_drained|done..|]. intros w2 Hd2 Hb2 _.
  rewrite bound_own by apply (ou_generation _ (proj1 Hd2)). cbn [fst snd]. rewrite set_kernel_id, not_bound. by apply close_drained.
Qed.
Lemma lock_open w : open_room w -> ready w -> exists w', barrier_lock b_own g w = (inl tt, w') /\ open_room w' /\ ready w' /\
  gw_oracle w' = tail (tail (gw_oracle w)) /\ gw_waiting w' = gw_waiting w.
Proof.
  intros Hw Hb. unfold barrier_lock. cbn [lb_generation lb_bound]. rewrite (proj2 (Z.eqb_neq g 0) Hg), Z.eqb_refl. cbn [negb orb].
  unfold sbind at 1, ctx_alive, syscall at 1. destruct (open_slot w Hw Hb) as (w1 & -> & Hw1 & Hb1 & Eo1 & Ew1 & _). unfold sret at 1.
  unfold sbind at 1, syscall at 1. destruct (open_slot w1 Hw1 Hb1) as (w2 & -> & Hw2 & Hb2 & Eo2 & Ew2 & _). unfold sret at 1.
  exists w2. by rewrite Eo2, Eo1, Ew2, Ew1.
Qed.
Lemma run_open w : open_room w -> ready w -> calm_swap 4 FAKETCP_GENERATION_CAS_ATTEMPTS (gw_oracle w) ->
  swp (runLocked b_own FakeTCPGenerationControlClose) (closed_to (gw_waiting w)) (fun _ => False) w.
Proof.
  intros Hw Hb Hc. unfold runLocked, swp, syscall. destruct (open_slot w Hw Hb) as (w1 & -> & Hw1 & Hb1 & Eo1 & Ew1 & _). rewrite <- Ew1.
  apply control_open; [done..|]. rewrite Eo1. by apply calm_tail.
Qed.
Lemma idle_verified w : idle w -> ready w -> swp (verifyIdleLocked b_own) (fun _ w' => idle w') (fun _ => False) w.
Proof.
  intros Hw Hb. unfold verifyIdleLocked. apply swp_bind, swp_wrap. apply (stable_syscall idle); [apply stable_idle|done..|]. intros w1 [Hd1 Hs1] Hb1 _.
  unfold swp at 1. cbn [fst snd lb_identity RI_Generation]. rewrite (ou_generation _ (proj1 Hd1)), Hs1, Z.eqb_refl. by apply swp_ret.
Qed.
(** The world when the wait for the ring ends. *)
Definition after_wait (w : gate_world) : gate_world :=
  let w' := (next_slot w).2 in gate_events (mkGateWorld (gw_kernel w') (gw_threads w') (gw_oracle w') []) (gw_waiting w').
Lemma woken w : sealed_phase w -> (forall cpu, through (pc_of w cpu)) ->
  exists wakes, gk_wakes (gw_kernel w) = own_wake :: wakes /\ drained (set_kernel (set_wakes wakes (gw_kernel w)) w).
Proof.
  intros (Ho & Ht & Hs) Hthrough. assert (inside w = 0) as H0.
  { unfold inside. rewrite (msum_ext _ (fun _ => 0)); [apply msum_zero|]. intros cpu pc Hl. specialize (Hthrough cpu). unfold pc_of in Hthrough. rewrite Hl in Hthrough.
    by destruct pc. }
  assert (gk_wakes (gw_kernel w) <> [] /\ exists q, gk_state (gw_kernel w) = word q 0 /\ (q = 5 \/ q = 4)) as (Hne & q & Hst & Hq).
  { destruct Hs as [[Hst Hx]|(Hst & _ & Hx)]; [|split; [done|by exists 4; auto]]. rewrite H0 in *. split; [|by exists 5; auto].
    destruct Hx as [?|[?|[cpu Hx]]]; [lia|done|]. specialize (Hthrough cpu). by destruct (pc_of w cpu). }
  pose proof (ou_wakes _ Ho) as Hwk. destruct (gk_wakes (gw_kernel w)) as [|wake wakes] eqn:Ek; [done|]. apply Forall_cons_1 in Hwk as [-> Hwk].
  exists wakes. split; [done|]. destruct Ho as [[A B] C D F]. split; [constructor; [by constructor|done..]|]. split; [exact H0|].
  split; [|by exists q]. intros cpu. change (pc_of (set_kernel _ w) cpu) with (pc_of w cpu). specialize (Ht cpu). specialize (Hthrough cpu). by destruct (pc_of w cpu).
Qed.
Lemma quiesce_drains w : open_room w -> ready w -> Forall own_event (gw_waiting w) -> Forall ring_takes (gw_waiting w) ->
  calm_swap 6 FAKETCP_GENERATION_CAS_ATTEMPTS (gw_oracle w) ->
  (forall closed, runLocked b_own FakeTCPGenerationControlClose (barrier_lock b_own g w).2 = (inl FakeTCPGenerationResultWait, closed) ->
     forall cpu, through (pc_of (after_wait closed) cpu)) ->
  swp (Quiesce b_own g) (fun _ w' => idle w') (fun _ => False) w.
Proof.
  intros Hw Hb He Hr Hc Hout. unfold Quiesce. apply swp_bind, swp_wrap. unfold swp at 1. destruct (lock_open w Hw Hb) as (w1 & E1 & Hw1 & Hb1 & Eo1 & Ew1).
  rewrite E1 in *. cbn [snd] in Hout. apply swp_bind, swp_wrap. unfold swp at 1.
  assert (calm_swap 4 FAKETCP_GENERATION_CAS_ATTEMPTS (gw_oracle w1)) as Hc1 by (rewrite Eo1; by apply calm_tail, calm_tail).
  pose proof (run_open w1 Hw1 Hb1 Hc1) as Hrun. unfold swp in Hrun. destruct (runLocked b_own FakeTCPGenerationControlClose w1) as [[r|e] w2]; [|done].
  destruct Hrun as (Hb2 & Ew2 & Hcase). destruct Hcase as [[-> Hidle]|[-> Hs2]]; [by apply idle_verified|].
  change (FakeTCPGenerationResultWait =? FakeTCPGenerationResultIdle) with false. change (FakeTCPGenerationResultWait =? FakeTCPGenerationResultWait) with true. cbn [negb].
  specialize (Hout w2 eq_refl). apply swp_bind, swp_wrap. unfold readWakeLocked, swp at 1, syscall. unfold after_wait in Hout.
  destruct (stable_slot sealed_phase w2 stable_sealed Hs2 Hb2) as (w3 & E3 & Hs3 & Hb3 & Ew3). rewrite E3 in *. cbn [snd] in Hout.
  assert (Forall own_event (gw_waiting w3) /\ Forall ring_takes (gw_waiting w3)) as [He3 Hr3] by (by rewrite Ew3, Ew2, Ew1).
  set (w4 := gate_events _ (gw_waiting w3)) in *. assert (sealed_phase w4) as Hs4 by (apply sealed_events; [by apply sealed_sched|done..]).
  assert (ready w4) as Hb4 by (unfold ready, w4; by rewrite (proj1 (events_schedule _ _))).
  destruct (woken w4 Hs4 Hout) as (wakes & Ek & Hd4). rewrite Ek. clearbody w4.
  assert (wake_matches b_own own_wake = true) as Hm by (unfold wake_matches; cbn; by rewrite !Z.eqb_refl, bool_decide_eq_true_2).
  rewrite Hm. cbn [negb]. apply swp_bind. apply (stable_syscall drained); [apply stable_drained|done..|]. intros w5 Hd5 Hb5 _. apply swp_ret.
  apply swp_bind. unfold expectLocked. apply swp_bind, swp_wrap. unfold runLocked. cbn [lb_identity].
  apply (stable_syscall drained); [apply stable_drained|done..|]. intros w6 Hd6 Hb6 _.
  eapply swp_mono; [by apply control_drained| |done]. intros r w7 (Hb7 & -> & Hi7). rewrite Z.eqb_refl. apply swp_ret. by apply idle_verified.
Qed.
End progress.

(** C15: quiescing ends.  Open the gate of a fresh runtime and let its packet
    programs run, before the calls of [Quiesce], before every access and call it
    makes, and while it waits; let there be fewer of them than the counter holds,
    let no system call fail and the ring take the record of the last one out.  If
    one of the eight attempts of CLOSE meets no packet between its load and its
    swap, however many of the others lose theirs, and if the programs still inside
    have left when the wait ends, then [Quiesce] succeeds: no entry or exit that
    runs against CLOSE is lost or counted twice, no exit loses the wake-up, the
    gate is not poisoned, and it ends sealed with nobody inside. *)
Theorem quiesce_completes (g : Z) (inc : list Z) (before during : list gate_event) (oracle : list slot) :
  g <> 0 -> inc <> zeros 16 -> Forall (own_event g) before -> Forall (benign g) oracle -> Forall (own_event g) during -> Forall ring_takes during ->
  len before + pending oracle <= FakeTCPGenerationInflightMask -> calm_swap 6 FAKETCP_GENERATION_CAS_ATTEMPTS oracle ->
  let b := mkBarrier g (mkRuntimeIdentity g inc) true in
  let w := gate_run (fresh_gate (Some (mkRuntimeIdentity g inc))) (GActivate b g :: map GEvent before ++ [GSchedule oracle during]) in
  (forall closed, runLocked b FakeTCPGenerationControlClose (barrier_lock b g w).2 = (inl FakeTCPGenerationResultWait, closed) ->
     forall cpu, through (pc_of (after_wait closed) cpu)) ->
  exists w', Quiesce b g w = (inl tt, w') /\ gk_state (gw_kernel w') = FakeTCPGenerationStateSealed /\ inside w' = 0.
Proof.
  intros Hg Hinc Hbe Hor Hd Hr Hl Hc. cbv zeta. destruct (activated g inc Hg Hinc) as (Ha & Hth & _ & _).
  assert (forall w, gate_run w (map GEvent before ++ [GSchedule oracle during]) =
    mkGateWorld (gw_kernel (gate_events w before)) (gw_threads (gate_events w before)) oracle during) as Hrun.
  { intros w. unfold gate_run. rewrite foldl_app. unfold gate_events. cbn [foldl gate_step]. revert w. clear. induction before as [|e es IH]; intros w; [done|apply IH]. }
  change (gate_run (fresh_gate (Some (mkRuntimeIdentity g inc))) (GActivate (mkBarrier g (mkRuntimeIdentity g inc) true) g :: map GEvent before ++ [GSchedule oracle during]))
    with (gate_run (Activate (mkBarrier g (mkRuntimeIdentity g inc) true) g (fresh_gate (Some (mkRuntimeIdentity g inc)))).2 (map GEvent before ++ [GSchedule oracle during])).
  rewrite Hrun. set (w1 := (Activate _ _ _).2) in *. pose proof (events_size before w1) as Hsz. rewrite Hth, map_size_empty in Hsz.
  unfold pending, len in *. assert (open_phase g inc (gate_events w1 before)) as Ho.
  { apply open_events; try done. rewrite Hth, map_size_empty. unfold len. lia. }
  intros Hout. set (w := mkGateWorld _ _ oracle during) in *. assert (open_room g inc w) as Hroom.
  { split; [by apply open_sched|]. unfold pending, len. cbn [w gw_threads gw_oracle]. lia. }
  pose proof (quiesce_drains g inc Hg Hinc w Hroom Hor Hd Hr Hc Hout) as Hq. unfold swp in Hq.
  destruct (Quiesce _ g w) as [[[]|e] w']; [|done]. exists w'. split; [done|]. destruct Hq as [Hdr Hst]. split; [exact Hst|apply Hdr].
Qed.


(** ** One packet at the gate *)

Definition sample_runtime : RuntimeIdentity := mkRuntimeIdentity 7 (replicate 16 3).
Definition sample_barrier : liveFakeTCPGenerationBarrier := mkBarrier 7 sample_runtime true.
Definition one_enters : list gate_event := EvPacket 0 7 :: replicate 3 (EvRun 0 true).
Definition one_leaves : list gate_event := replicate 5 (EvRun 0 true).
Definition busy_gate : gate_world := gate_run (fresh_gate (Some sample_runtime)) (GActivate sample_barrier 7 :: map GEvent one_enters).

Lemma busy_then op : gate_run (fresh_gate (Some sample_runtime)) ((GActivate sample_barrier 7 :: map GEvent one_enters) ++ [op]) =
  gate_step busy_gate op.
Proof. unfold busy_gate, gate_run. by rewrite foldl_app. Qed.

Lemma quiesced_stays_empty_witness : exists w',
  pc_of busy_gate 0 = Inside 7 /\
  Quiesce sample_barrier 7 (gate_step busy_gate (GSchedule [] one_leaves)) = (inl tt, w') /\
  forall later_ops cpu g, pc_of (gate_run w' later_ops) cpu <> Inside g.
Proof.
  pose proof (quiesced_stays_empty (Some sample_runtime)
    ((GActivate sample_barrier 7 :: map GEvent one_enters) ++ [GSchedule [] one_leaves])) as (_ & _ & Hq).
  rewrite busy_then in Hq.
  destruct (Quiesce sample_barrier 7 (gate_step busy_gate (GSchedule [] one_leaves))) as [[[]|e] w'] eqn:E;
    [|vm_compute in E; discriminate].
  exists w'. split; [vm_compute; reflexivity|]. split; [reflexivity|]. exact (proj2 (Hq _ _ _ E)).
Defined.

(** A second packet enters between the load and the swap of CLOSE, whose first
    attempt is lost; both leave while it waits. *)
Definition second_enters : list slot :=
  replicate 6 (mkOracleSlot [] None) ++ [mkOracleSlot (EvPacket 1 7 :: replicate 3 (EvRun 1 true)) None].
Definition both_leave : list gate_event := replicate 5 (EvRun 0 true) ++ replicate 5 (EvRun 1 true).
Definition contended_gate : gate_world :=
  gate_run (fresh_gate (Some sample_runtime)) (GActivate sample_barrier 7 :: map GEvent one_enters ++ [GSchedule second_enters both_leave]).
Lemma quiesce_completes_witness : exists w',
  Quiesce sample_barrier 7 contended_gate = (inl tt, w') /\ gk_state (gw_kernel w') = FakeTCPGenerationStateSealed /\ inside w' = 0.
Proof.
  apply (quiesce_completes 7 (replicate 16 3) one_enters both_leave second_enters).
  - discriminate.
  - intros E. discriminate E.
  - repeat constructor.
  - repeat constructor.
  - repeat constructor.
  - repeat constructor.
  - vm_compute. discriminate.
  - exists 1%nat. split; [unfold FAKETCP_GENERATION_CAS_ATTEMPTS; lia|exact I].
  - intros closed E cpu. apply (f_equal snd) in E. cbn [snd] in E. rewrite <- E.
    match goal with |- through (pc_of ?w cpu) => assert (gw_threads w = <[0%nat := Outside]> {[1%nat := Outside]}) as Ht by (vm_compute; reflexivity) end.
    unfold pc_of. rewrite Ht. destruct (decide (cpu = 0%nat)) as [-> |H0]; [by rewrite lookup_insert_eq|rewrite lookup_insert_ne by done].
    destruct (decide (cpu = 1%nat)) as [-> |H1]; [by rewrite lookup_singleton_eq|by rewrite lookup_singleton_ne].
Defined.

(** Why a generation is opened before it is published: a program of it that read
    the gate just before [OPEN] bound it poisons the gate. *)
Lemma entering_before_open_poisons :
  poisoned (flags_of (gk_state (gw_kernel
    (gate_run (fresh_gate (Some sample_runtime))
       [GEvent (EvPacket 0 7); GEvent (EvRun 0 true); GActivate sample_barrier 7;
        GEvent (EvRun 0 true); GEvent (EvRun 0 true)])))) = true.
Proof. vm_compute. reflexivity. Qed.
