(* ===== verification/PolicyStage.v ===== *)
(** * Publishing the policy of a generation
    (internal/dataplane/faketcp_policy_linux.go, faketcp_program_array_linux.go)

    A generation transaction holds a retained lifecycle lease while it stages the
    entries of a plan in the three policy maps, and the tail program of the
    generation.  The interface markers make the policy reachable for packets: they
    are written last and removed first, and nothing is removed before the
    generation is quiescent.  The maps, the lease, the context and the generation
    barrier are the class [PolicyEnv]. *)
From Stdlib Require Import ZArith Lia.
From stdpp Require Import base option list gmap strings numbers.
From S2P Require Import Prelude Abi Policy MapBatch ErrorState.

(** ** Entries *)

(** A key and a value of the three maps. *)
Inductive policy_key :=
  | PKControl (generation wgID : Z)
  | PKPort (generation underlay port : Z)
  | PKInterface (generation underlay : Z).
Inductive policy_value :=
  | PVControl (v : FakeTCPControlPolicyValue)
  | PVPort (v : FakeTCPManagedPortValue)
  | PVInterface (v : FakeTCPManagedIfValue).
#[export] Instance policy_key_eq_dec : EqDecision policy_key.
Proof. solve_decision. Defined.
#[export] Instance policy_value_eq_dec : EqDecision policy_value.
Proof. solve_decision. Defined.
#[export] Instance policy_key_countable : Countable policy_key.
Proof.
  refine (inj_countable' (fun k => match k with
    | PKControl g w => inl (g, w) | PKPort g u p => inr (inl (g, u, p)) | PKInterface g u => inr (inr (g, u)) end)
    (fun t => match t with
    | inl (g, w) => PKControl g w | inr (inl (g, u, p)) => PKPort g u p | inr (inr (g, u)) => PKInterface g u end) _).
  by intros [].
Defined.

Inductive fakeTCPPolicyPhase := fakeTCPPolicyPhaseControl | fakeTCPPolicyPhasePort | fakeTCPPolicyPhaseInterface.
#[export] Instance fakeTCPPolicyPhase_eq_dec : EqDecision fakeTCPPolicyPhase.
Proof. solve_decision. Defined.
Inductive fakeTCPPolicyRollbackMode := fakeTCPPolicyRollbackExact | fakeTCPPolicyRollbackQuiescedControl.
Record fakeTCPPolicyOperation := mkOperation { po_phase : fakeTCPPolicyPhase; po_key : policy_key; po_value : policy_value }.

Definition control_operation (e : fakeTCPControlPolicyPlanEntry) : fakeTCPPolicyOperation :=
  mkOperation fakeTCPPolicyPhaseControl (PKControl e.1.1 e.1.2) (PVControl e.2).
Definition port_operation (e : fakeTCPManagedPortPlanEntry) : fakeTCPPolicyOperation :=
  mkOperation fakeTCPPolicyPhasePort (PKPort e.1.1.1 e.1.1.2 e.1.2) (PVPort e.2).
Definition interface_operation (e : fakeTCPManagedInterfacePlanEntry) : fakeTCPPolicyOperation :=
  mkOperation fakeTCPPolicyPhaseInterface (PKInterface e.1.1 e.1.2) (PVInterface e.2).
Definition fakeTCPPolicyOperations (plan : fakeTCPPolicyGenerationPlan) : list fakeTCPPolicyOperation :=
  map control_operation (pl_controlPolicies plan) ++ map port_operation (pl_managedPorts plan) ++
  map interface_operation (pl_managedInterfaces plan).

(** Equality but for the cursor that the packet programs own. *)
Definition fakeTCPControlPolicyRollbackMatches (actual inserted : FakeTCPControlPolicyValue) : bool :=
  bool_decide (mkPolicy (cpv_Generation actual) (cpv_VirtualTimeNanos inserted) (cpv_IntervalNanos actual)
                 (cpv_Burst actual) (cpv_Reserved actual) = inserted).
Definition rollback_matches (mode : fakeTCPPolicyRollbackMode) (actual inserted : policy_value) : bool :=
  bool_decide (actual = inserted) ||
  match mode, actual, inserted with
  | fakeTCPPolicyRollbackQuiescedControl, PVControl a, PVControl i => fakeTCPControlPolicyRollbackMatches a i
  | _, _, _ => false
  end.

(** ** The environment *)

Class PolicyEnv (W : Type) := {
  pe_Lookup : policy_key -> W -> (policy_value + map_error) * W;
  (** [Update] with [UpdateNoExist]. *)
  pe_InsertNew : policy_key -> policy_value -> W -> option map_error * W;
  pe_Delete : policy_key -> W -> option map_error * W;
  pe_LookupProgram : Z -> W -> (Z + map_error) * W;
  pe_InsertProgram : Z -> Z -> W -> option map_error * W;
  pe_DeleteProgram : Z -> W -> option map_error * W;
  pe_ctxErr : W -> option error * W;
  (** The caller's lease, and its retained copy, at the lifecycle path. *)
  pe_CallerHeldAt : string -> W -> bool * W;
  pe_Retain : W -> option error * W;
  pe_HeldAt : string -> W -> bool * W;
  pe_closeLease : W -> option error * W;
  (** The generation barrier. *)
  pe_AssertInactive : Z -> W -> option error * W;
  pe_Activate : Z -> W -> option error * W;
  pe_Quiesce : Z -> W -> option error * W
}.

(** ** Transactions *)

Inductive stage_state := fakeTCPPolicyStageActive | fakeTCPPolicyStageRollbackPending
  | fakeTCPPolicyStageRolledBack | fakeTCPPolicyStageDisarmed.
Record fakeTCPPolicyStage := mkStage {
  ps_operations : list fakeTCPPolicyOperation; ps_state : stage_state; ps_collectionOwner : option Z
}.
(** The lease is the retained one; a transaction has at most one stage and one
    claim in its life. *)
Record policyTransaction := mkTransaction {
  pt_plan : fakeTCPPolicyGenerationPlan; pt_lifecyclePath : string; pt_lease : bool;
  pt_stage : option fakeTCPPolicyStage; pt_claimed : bool; pt_closed : bool
}.
(** What a caller presents: no claim, the transaction's, or another's. *)
Inductive claim_handle := NoClaim | OwnClaim | ForeignClaim.
(** A context with its lifecycle path; [None]: a nil context. *)
Abbreviation policy_context := (option string).

Definition errFakeTCPPolicyGenerationLeaseRequired : error :=
  "FakeTCP policy mutation requires a held generation transaction lease".
Definition set_stage (s : option fakeTCPPolicyStage) (t : policyTransaction) : policyTransaction :=
  mkTransaction (pt_plan t) (pt_lifecyclePath t) (pt_lease t) s (pt_claimed t) (pt_closed t).
Definition set_claimed (t : policyTransaction) : policyTransaction :=
  mkTransaction (pt_plan t) (pt_lifecyclePath t) (pt_lease t) (pt_stage t) true (pt_closed t).
Definition set_closed (t : policyTransaction) : policyTransaction :=
  mkTransaction (pt_plan t) (pt_lifecyclePath t) false (pt_stage t) false true.

Section transaction.
Context {W : Type} `{PolicyEnv W}.

Definition newFakeTCPPolicyGenerationTransaction (ctx : policy_context) (plan : fakeTCPPolicyGenerationPlan) (lease : bool)
    : SM W policyTransaction :=
  match ctx with
  | None => sfail errFakeTCPPolicyGenerationLeaseRequired
  | Some path =>
      must! scall pe_ctxErr in
      match validateFakeTCPPolicyGenerationPlan plan with
      | Ret _ =>
          reject negb lease with errFakeTCPPolicyGenerationLeaseRequired in
          try! held := (fun w => let '(b, w) := pe_CallerHeldAt path w in (inl b, w)) in
          reject negb held with errFakeTCPPolicyGenerationLeaseRequired in
          must! scall pe_Retain in
          try! held := (fun w => let '(b, w) := pe_HeldAt path w in (inl b, w)) in
          if held then sret (mkTransaction plan path true None false false)
          else must! (fun w => let '(_, w) := pe_closeLease w in (inl tt, w)) in
               sfail errFakeTCPPolicyGenerationLeaseRequired
      | _ => sfail errFakeTCPPolicyGenerationLeaseRequired
      end
  end.

(** *** The world of a transaction *)

Record policy_world := mkPolicyWorld { pw_env : W; pw_txn : policyTransaction }.
Definition in_env {A} (m : SM W A) : SM policy_world A := fun x =>
  let '(r, w) := m (pw_env x) in (r, mkPolicyWorld w (pw_txn x)).
Definition get_txn : SM policy_world policyTransaction := fun x => (inl (pw_txn x), x).
Definition put_txn (t : policyTransaction) : SM policy_world unit := fun x => (inl tt, mkPolicyWorld (pw_env x) t).

Definition assertHeldLocked (ctx : policy_context) : SM policy_world unit :=
  match ctx with
  | None => sfail errFakeTCPPolicyGenerationLeaseRequired
  | Some path =>
      must! in_env (scall pe_ctxErr) in
      try! t := get_txn in
      reject negb (String.eqb path (pt_lifecyclePath t)) with errFakeTCPPolicyGenerationLeaseRequired in
      reject pt_closed t || negb (pt_lease t) with errFakeTCPPolicyGenerationLeaseRequired in
      try! held := in_env (fun w => let '(b, w) := pe_HeldAt (pt_lifecyclePath t) w in (inl b, w)) in
      reject negb held with errFakeTCPPolicyGenerationLeaseRequired in
      reject pl_generation (pt_plan t) =? 0 with errFakeTCPPolicyGenerationLeaseRequired in
      sret tt
  end.
Definition assertAccessLocked (ctx : policy_context) (claim : claim_handle) : SM policy_world unit :=
  must! assertHeldLocked ctx in
  try! t := get_txn in
  match claim with
  | NoClaim =>
      reject pt_claimed t with "FakeTCP generation transaction is exclusively claimed by a runtime build" in sret tt
  | OwnClaim =>
      reject negb (pt_claimed t) with "FakeTCP runtime build claim does not own this generation transaction" in sret tt
  | ForeignClaim => sfail "FakeTCP runtime build claim does not own this generation transaction"
  end.
(** [exact]: the caller presents the transaction's stage. *)
Definition assertStageLocked (ctx : policy_context) (claim : claim_handle) (exact : bool) : SM policy_world fakeTCPPolicyStage :=
  must! assertAccessLocked ctx claim in
  try! t := get_txn in
  match pt_stage t with
  | Some s => if exact then sret s else sfail "FakeTCP policy stage is not owned by this generation transaction"
  | None => sfail "FakeTCP policy stage is not owned by this generation transaction"
  end.
Definition put_stage (s : fakeTCPPolicyStage) : SM policy_world unit :=
  try! t := get_txn in put_txn (set_stage (Some s) t).

Definition claimRuntimeBuild (ctx : policy_context) : SM policy_world unit :=
  must! swrap "claim FakeTCP runtime build: " (assertHeldLocked ctx) in
  try! t := get_txn in
  reject bool_decide (is_Some (pt_stage t)) with "claim FakeTCP runtime build: generation transaction is not fresh" in
  reject pt_claimed t with "claim FakeTCP runtime build: generation transaction is already claimed" in
  put_txn (set_claimed t).

(** *** Operations *)

Definition lookup_entry (key : policy_key) : SM W (policy_value + map_error) := fun w =>
  let '(r, w) := pe_Lookup key w in (inl r, w).
Definition requireAbsent (op : fakeTCPPolicyOperation) : SM W unit :=
  try! r := lookup_entry (po_key op) in
  match r with
  | inl _ => sfail "exact key already exists"
  | inr (ErrKeyNotExist _) => sret tt
  | inr e => sfail ("lookup existing key: " +:+ map_error_message e)
  end.
Definition insert_entry (op : fakeTCPPolicyOperation) : SM W unit := fun w =>
  let '(err, w) := pe_InsertNew (po_key op) (po_value op) w in
  (match err with Some e => inr (map_error_message e) | None => inl tt end, w).
Definition verify_entry (op : fakeTCPPolicyOperation) : SM W unit :=
  try! r := lookup_entry (po_key op) in
  match r with
  | inr e => sfail ("read back inserted value: " +:+ map_error_message e)
  | inl actual =>
      reject negb (bool_decide (actual = po_value op)) with "read back value differs from inserted value" in sret tt
  end.
Definition rollback_entry (mode : fakeTCPPolicyRollbackMode) (op : fakeTCPPolicyOperation) : SM W unit :=
  try! r := lookup_entry (po_key op) in
  match r with
  | inr (ErrKeyNotExist _) => sret tt
  | inr e => sfail ("read back before rollback: " +:+ map_error_message e)
  | inl actual =>
      reject negb (rollback_matches mode actual (po_value op)) with "refusing rollback because inserted value changed" in
      try! deleted := (fun w => let '(err, w) := pe_Delete (po_key op) w in (inl err, w)) in
      match deleted with
      | Some (ErrKeyNotExist _) => sret tt
      | Some e => sfail ("delete exact inserted key: " +:+ map_error_message e)
      | None =>
          try! r := lookup_entry (po_key op) in
          match r with
          | inr (ErrKeyNotExist _) => sret tt
          | inr e => sfail ("confirm deleted key is absent: " +:+ map_error_message e)
          | inl _ => sfail "deleted key is still present"
          end
      end
  end.

(** The entries of a phase, last first; every one is tried. *)
Fixpoint rollback_entries (mode : fakeTCPPolicyRollbackMode) (ops : list fakeTCPPolicyOperation) (w : W) : list error * W :=
  match ops with
  | [] => ([], w)
  | op :: ops =>
      let '(r, w) := rollback_entry mode op w in
      let '(errs, w) := rollback_entries mode ops w in
      (match r with inl _ => errs | inr e => ("rollback: " +:+ e) :: errs end, w)
  end.
Definition rollbackFakeTCPPolicyPhase (applied : list fakeTCPPolicyOperation) (phase : fakeTCPPolicyPhase)
    (mode : fakeTCPPolicyRollbackMode) : SM W unit := fun w =>
  let '(errs, w) := rollback_entries mode (filter (fun op => po_phase op = phase) (rev applied)) w in
  (match errors_Join_all errs with Some e => inr e | None => inl tt end, w).
Definition rollbackFakeTCPPolicyOperationsLocked (ctx : policy_context) (applied : list fakeTCPPolicyOperation)
    : SM policy_world unit :=
  must! assertHeldLocked ctx in
  try! t := get_txn in
  must! swrap "quiesce FakeTCP policy generation before removing policy: "
          (in_env (scall (pe_Quiesce (pl_generation (pt_plan t))))) in
  must! assertHeldLocked ctx in
  must! swrap "remove FakeTCP interface reachability latches: "
          (in_env (rollbackFakeTCPPolicyPhase applied fakeTCPPolicyPhaseInterface fakeTCPPolicyRollbackExact)) in
  must! assertHeldLocked ctx in
  must! swrap "remove FakeTCP managed ports: "
          (in_env (rollbackFakeTCPPolicyPhase applied fakeTCPPolicyPhasePort fakeTCPPolicyRollbackExact)) in
  must! assertHeldLocked ctx in
  swrap "remove FakeTCP control policies: "
    (in_env (rollbackFakeTCPPolicyPhase applied fakeTCPPolicyPhaseControl fakeTCPPolicyRollbackQuiescedControl)).
Definition failStageLocked (ctx : policy_context) (cause : error) (applied : list fakeTCPPolicyOperation)
    : SM policy_world unit := fun x =>
  match rollbackFakeTCPPolicyOperationsLocked ctx applied x with
  | (inl _, x) => (inr cause, x)
  | (inr e, x) =>
      let t := set_stage (Some (mkStage applied fakeTCPPolicyStageRollbackPending None)) (pw_txn x) in
      (inr (cause +:+ newline +:+ "FakeTCP policy rollback incomplete: " +:+ e), mkPolicyWorld (pw_env x) t)
  end.

(** *** Staging *)

Fixpoint preflight_entries (ops : list fakeTCPPolicyOperation) : SM W unit :=
  match ops with
  | [] => sret tt
  | op :: ops =>
      must! scall pe_ctxErr in
      must! swrap "stage FakeTCP policy preflight: " (requireAbsent op) in
      preflight_entries ops
  end.
(** What was applied, with the error that stopped it. *)
Fixpoint insert_entries (applied ops : list fakeTCPPolicyOperation) (w : W) : option error * list fakeTCPPolicyOperation * W :=
  match ops with
  | [] => let '(err, w) := pe_ctxErr w in (err, applied, w)
  | op :: ops =>
      match pe_ctxErr w with
      | (Some e, w) => (Some e, applied, w)
      | (None, w) =>
          match insert_entry op w with
          | (inr e, w) => (Some ("stage FakeTCP policy insert: " +:+ e), applied, w)
          | (inl _, w) =>
              match verify_entry op w with
              | (inr e, w) => (Some ("stage FakeTCP policy verify: " +:+ e), applied ++ [op], w)
              | (inl _, w) => insert_entries (applied ++ [op]) ops w
              end
          end
      end
  end.
Definition stageForRuntimeClaim (ctx : policy_context) (claim : claim_handle) : SM policy_world unit :=
  must! swrap "stage FakeTCP policy: " (assertAccessLocked ctx claim) in
  try! t := get_txn in
  reject bool_decide (is_Some (pt_stage t)) with "stage FakeTCP policy: generation transaction is single-use" in
  must! swrap "stage FakeTCP policy: prove generation is inactive: "
          (in_env (scall (pe_AssertInactive (pl_generation (pt_plan t))))) in
  let operations := fakeTCPPolicyOperations (pt_plan t) in
  must! in_env (preflight_entries operations) in
  fun x =>
    match insert_entries [] operations (pw_env x) with
    | (Some e, applied, w) => failStageLocked ctx e applied (mkPolicyWorld w (pw_txn x))
    | (None, applied, w) => put_stage (mkStage applied fakeTCPPolicyStageActive None) (mkPolicyWorld w (pw_txn x))
    end.
Definition claim_Activate (ctx : policy_context) (claim : claim_handle) (exact : bool) : SM policy_world unit :=
  try! s := swrap "activate FakeTCP policy generation: " (assertStageLocked ctx claim exact) in
  match ps_state s with
  | fakeTCPPolicyStageActive =>
      try! t := get_txn in
      swrap "activate FakeTCP policy generation: " (in_env (scall (pe_Activate (pl_generation (pt_plan t)))))
  | _ => sfail "activate FakeTCP policy generation: policy stage is not rollback-owned"
  end.

(** *** Ending a stage *)

Definition rollbackForRuntimeClaim (ctx : policy_context) (claim : claim_handle) (exact : bool) : SM policy_world unit :=
  try! s := assertStageLocked ctx claim exact in
  match ps_state s with
  | fakeTCPPolicyStageRolledBack | fakeTCPPolicyStageDisarmed => sret tt
  | _ =>
      must! put_stage (mkStage (ps_operations s) fakeTCPPolicyStageRollbackPending (ps_collectionOwner s)) in
      must! rollbackFakeTCPPolicyOperationsLocked ctx (ps_operations s) in
      put_stage (mkStage [] fakeTCPPolicyStageRolledBack (ps_collectionOwner s))
  end.
Definition disarmForRuntimeClaim (ctx : policy_context) (claim : claim_handle) (exact : bool) : SM policy_world unit :=
  try! s := assertStageLocked ctx claim exact in
  match ps_state s with
  | fakeTCPPolicyStageActive => put_stage (mkStage [] fakeTCPPolicyStageDisarmed (ps_collectionOwner s))
  | fakeTCPPolicyStageDisarmed => sret tt
  | fakeTCPPolicyStageRollbackPending => sfail "cannot disarm FakeTCP policy stage after an incomplete rollback"
  | fakeTCPPolicyStageRolledBack => sfail "cannot disarm a rolled-back FakeTCP policy stage"
  end.
Definition bindStageCollectionOwnerForRuntimeClaim (ctx : policy_context) (claim : claim_handle) (exact : bool)
    (owner : option Z) : SM policy_world unit :=
  match owner with
  | None => sfail "bind FakeTCP policy stage: collection owner is nil"
  | Some _ =>
      try! s := assertStageLocked ctx claim exact in
      reject bool_decide (is_Some (ps_collectionOwner s)) && negb (bool_decide (ps_collectionOwner s = owner))
        with "bind FakeTCP policy stage: collection owner changed" in
      put_stage (mkStage (ps_operations s) (ps_state s) owner)
  end.
(** [proof]: the owner of a release proof and whether it is closed. *)
Definition releaseStageAfterCollectionCloseForRuntimeClaim (ctx : policy_context) (claim : claim_handle) (exact : bool)
    (proof : option (Z * bool)) : SM policy_world unit :=
  match proof with
  | None => sfail "release FakeTCP policy stage requires collection close proof"
  | Some (owner, closed) =>
      reject negb closed with "release FakeTCP policy stage requires a closed collection owner" in
      try! s := assertStageLocked ctx claim exact in
      reject negb (bool_decide (ps_collectionOwner s = Some owner))
        with "release FakeTCP policy stage collection proof does not match its bound owner" in
      put_stage (mkStage [] fakeTCPPolicyStageRolledBack (ps_collectionOwner s))
  end.
Definition stage_live (s : option fakeTCPPolicyStage) : bool :=
  match s with
  | Some s => match ps_state s with
              | fakeTCPPolicyStageActive | fakeTCPPolicyStageRollbackPending => true
              | _ => false
              end
  | None => false
  end.
Definition close_lease : SM policy_world unit :=
  in_env (scall pe_closeLease).
(** Who may close: nobody but the claim's holder once it is claimed. *)
Definition close_access (t : policyTransaction) (claim : claim_handle) : SM policy_world unit :=
  match claim with
  | NoClaim => reject pt_claimed t with "cannot close FakeTCP generation transaction claimed by a runtime build" in sret tt
  | OwnClaim =>
      reject negb (pt_claimed t) with "cannot close FakeTCP generation transaction through a foreign runtime build claim" in sret tt
  | ForeignClaim => sfail "cannot close FakeTCP generation transaction through a foreign runtime build claim"
  end.
Definition closeForRuntimeClaim (claim : claim_handle) : SM policy_world unit :=
  try! t := get_txn in
  if pt_closed t then sret tt
  else
    must! close_access t claim in
    reject stage_live (pt_stage t) with "cannot close FakeTCP generation transaction with a live policy stage" in
    must! put_txn (set_closed t) in
    if pt_lease t then close_lease else sret tt.

(** *** Tail programs *)

Inductive program_stage_state := fakeTCPProgramArrayStageActive | fakeTCPProgramArrayStageRolledBack
  | fakeTCPProgramArrayStageDisarmed.
Record fakeTCPProgramArrayStage := mkProgramStage {
  pg_slot : Z; pg_programID : Z; pg_owned : bool; pg_state : program_stage_state
}.
Definition lookup_program (s : Z) : SM policy_world (Z + map_error) := in_env (fun w =>
  let '(r, w) := pe_LookupProgram s w in (inl r, w)).
Definition assertHeld (ctx : policy_context) (claim : claim_handle) : SM policy_world unit := assertAccessLocked ctx claim.
(** [program]: the program's ID or the error of reading it.  A stage is returned
    with an error once the program was inserted. *)
Definition stageFakeTCPEgressProgram (ctx : policy_context) (claim : claim_handle) (program : Z + error) (x : policy_world)
    : option error * option fakeTCPProgramArrayStage * policy_world :=
  match assertHeld ctx claim x with
  | (inr e, x) => (Some ("stage FakeTCP egress program: " +:+ e), None, x)
  | (inl _, x) =>
      match program with
      | inr e => (Some ("stage FakeTCP egress program: inspect program identity: " +:+ e), None, x)
      | inl programID =>
          if programID =? 0 then (Some "stage FakeTCP egress program: program ID is zero", None, x)
          else
            let s := Z.land (pl_generation (pt_plan (pw_txn x))) 1 in
            match lookup_program s x with
            | (inl (inl actual), x) =>
                if negb (actual =? programID)
                then (Some "stage FakeTCP egress program bank: existing program ID differs from desired ID", None, x)
                else (None, Some (mkProgramStage s programID false fakeTCPProgramArrayStageActive), x)
            | (inl (inr (ErrKeyNotExist _)), x) =>
                match pe_InsertProgram s programID (pw_env x) with
                | (Some e, w) => (Some ("stage FakeTCP egress program bank insert: " +:+ map_error_message e), None,
                                  mkPolicyWorld w (pw_txn x))
                | (None, w) =>
                    let stage := Some (mkProgramStage s programID true fakeTCPProgramArrayStageActive) in
                    match assertHeld ctx claim (mkPolicyWorld w (pw_txn x)) with
                    | (inr e, x) => (Some ("stage FakeTCP egress program bank lost ownership: " +:+ e), stage, x)
                    | (inl _, x) =>
                        match lookup_program s x with
                        | (inl (inl actual), x) =>
                            if negb (actual =? programID)
                            then (Some "stage FakeTCP egress program bank verify: program ID differs from inserted ID", stage, x)
                            else (None, stage, x)
                        | (inl (inr e), x) => (Some ("stage FakeTCP egress program bank verify: " +:+ map_error_message e), stage, x)
                        | (inr e, x) => (Some e, stage, x)
                        end
                    end
                end
            | (inl (inr e), x) => (Some ("stage FakeTCP egress program bank preflight: " +:+ map_error_message e), None, x)
            | (inr e, x) => (Some e, None, x)
            end
      end
  end.
Definition rolled_back (owned : bool) (s : fakeTCPProgramArrayStage) : fakeTCPProgramArrayStage :=
  mkProgramStage (pg_slot s) (pg_programID s) owned fakeTCPProgramArrayStageRolledBack.
Definition program_Rollback (ctx : policy_context) (claim : claim_handle) (s : fakeTCPProgramArrayStage)
    : SM policy_world fakeTCPProgramArrayStage :=
  match pg_state s with
  | fakeTCPProgramArrayStageRolledBack | fakeTCPProgramArrayStageDisarmed => sret s
  | fakeTCPProgramArrayStageActive =>
      must! swrap "rollback FakeTCP egress program: " (assertHeld ctx claim) in
      if negb (pg_owned s) then sret (rolled_back false s)
      else
        try! r := lookup_program (pg_slot s) in
        match r with
        | inr (ErrKeyNotExist _) => sret (rolled_back true s)
        | inr e => sfail ("rollback FakeTCP egress program bank lookup: " +:+ map_error_message e)
        | inl actual =>
            reject negb (actual =? pg_programID s) with "rollback FakeTCP egress program bank refused: program ID changed" in
            try! deleted := in_env (fun w => let '(err, w) := pe_DeleteProgram (pg_slot s) w in (inl err, w)) in
            match deleted with
            | Some (ErrNotSupported e) | Some (OtherMapError e) => sfail ("rollback FakeTCP egress program bank delete: " +:+ e)
            | _ =>
                try! r := lookup_program (pg_slot s) in
                match r with
                | inr (ErrKeyNotExist _) => sret (rolled_back false s)
                | inr e => sfail ("rollback FakeTCP egress program bank confirm absent: " +:+ map_error_message e)
                | inl _ => sfail "rollback FakeTCP egress program bank failed: program ID remains"
                end
            end
        end
  end.
Definition program_Disarm (s : fakeTCPProgramArrayStage) : fakeTCPProgramArrayStage + error :=
  match pg_state s with
  | fakeTCPProgramArrayStageRolledBack => inr "cannot disarm a rolled-back FakeTCP egress program stage"
  | _ => inl (mkProgramStage (pg_slot s) (pg_programID s) (pg_owned s) fakeTCPProgramArrayStageDisarmed)
  end.

(** *** Commit *)

(** The program stage after the call, whether the runtime is committed, and an
    error of closing the lease or of the checks. *)
Definition commitRuntimeBuild (ctx : policy_context) (claim : claim_handle) (exact : bool)
    (programStage : option fakeTCPProgramArrayStage) (x : policy_world)
    : bool * option error * option fakeTCPProgramArrayStage * policy_world :=
  match assertAccessLocked ctx claim x with
  | (inr e, x) => (false, Some e, programStage, x)
  | (inl _, x) =>
      let refuse e := (false, Some ("commit FakeTCP runtime: " +:+ e), programStage, x) in
      match pt_stage (pw_txn x) with
      | None => refuse "policy stage is not owned by the generation transaction"
      | Some s =>
          if negb exact then refuse "policy stage is not owned by the generation transaction"
          else match ps_state s with
          | fakeTCPPolicyStageActive =>
              match ps_collectionOwner s, programStage with
              | None, _ => refuse "policy stage has no collection owner"
              | _, None => refuse "program-array stage is not rollback-owned"
              | Some _, Some p =>
                  match pg_state p with
                  | fakeTCPProgramArrayStageActive =>
                      let t := set_closed (set_stage (Some (mkStage [] fakeTCPPolicyStageDisarmed (ps_collectionOwner s))) (pw_txn x)) in
                      let p := mkProgramStage (pg_slot p) (pg_programID p) (pg_owned p) fakeTCPProgramArrayStageDisarmed in
                      let x := mkPolicyWorld (pw_env x) t in
                      match close_lease x with
                      | (inl _, x) => (true, None, Some p, x)
                      | (inr e, x) => (true, Some ("close committed FakeTCP generation lifecycle lease: " +:+ e), Some p, x)
                      end
                  | _ => refuse "program-array stage is not rollback-owned"
                  end
              end
          | _ => refuse "policy stage is not rollback-owned"
          end
      end
  end.
End transaction.
Arguments mkPolicyWorld {W}.
Arguments pw_env {W}.
Arguments pw_txn {W}.
Arguments policy_world : clear implicits.
