(* ===== verification/PolicyStageProps.v ===== *)
(** * What publishing a policy promises

    Whatever fails, a staged generation is either complete, or on record for its
    removal, or gone; packets that enter the generation always find it complete;
    and the entries of other generations are never touched. *)
From Stdlib Require Import ZArith Lia.
From stdpp Require Import sorting base option list gmap strings numbers.
From S2P Require Import Prelude Abi Policy MapBatch ErrorState PolicyStage.

(** ** The maps *)

(** A value without the cursor that the packet programs move. *)
Definition erase (v : policy_value) : policy_value :=
  match v with
  | PVControl c => PVControl (mkPolicy (cpv_Generation c) 0 (cpv_IntervalNanos c) (cpv_Burst c) (cpv_Reserved c))
  | _ => v
  end.
Lemma rollback_matches_erase mode actual inserted : rollback_matches mode actual inserted = true -> erase actual = erase inserted.
Proof.
  unfold rollback_matches. rewrite orb_true_iff, bool_decide_eq_true. intros [->|Hm]; [done|].
  destruct mode, actual as [[]| |], inserted as [[]| |]; try done.
  unfold fakeTCPControlPolicyRollbackMatches in Hm. apply bool_decide_eq_true in Hm. cbn in *. congruence.
Qed.
Lemma erase_matches actual inserted : erase actual = erase inserted ->
  rollback_matches fakeTCPPolicyRollbackQuiescedControl actual inserted = true /\
  ((forall c, inserted <> PVControl c) -> rollback_matches fakeTCPPolicyRollbackExact actual inserted = true).
Proof.
  unfold rollback_matches, fakeTCPControlPolicyRollbackMatches.
  destruct actual as [a| |], inserted as [i| |]; intros E; try discriminate E.
  - split; [|by intros Hc; edestruct Hc]. destruct a, i. cbn in *. simplify_eq.
    apply orb_true_iff. right. by apply bool_decide_eq_true.
  - injection E as ->. by rewrite bool_decide_true.
  - injection E as ->. by rewrite bool_decide_true.
Qed.

(** Every change that the calls made, newest first: the keys that are present and
    the generations that admit packets. *)
Abbreviation published := (list (gset policy_key * gset Z)).

(** The contract of the maps and of the barrier.  The retained lease excludes other
    writers, so between two calls only cursors change. *)
Class PolicyLaws (W : Type) `{PolicyEnv W} := {
  pl_map : W -> gmap policy_key policy_value;
  pl_running : W -> gset Z;
  pl_history : W -> published;
  pl_frame w := erase <$> pl_map w;
  pl_same w w' := pl_frame w' = pl_frame w /\ pl_running w' = pl_running w /\ pl_history w' = pl_history w;
  pl_Lookup k w : let '(r, w') := pe_Lookup k w in
    pl_same w w' /\
    match r with
    | inl v => pl_frame w !! k = Some (erase v)
    | inr (ErrKeyNotExist _) => pl_frame w !! k = None
    | inr _ => True
    end;
  pl_InsertNew k v w : let '(err, w') := pe_InsertNew k v w in
    if err is Some _ then pl_same w w'
    else pl_frame w !! k = None /\ pl_frame w' = <[k := erase v]> (pl_frame w) /\ pl_running w' = pl_running w /\
         pl_history w' = (dom (pl_frame w'), pl_running w') :: pl_history w;
  pl_Delete k w : let '(err, w') := pe_Delete k w in
    match err with
    | None => pl_frame w' = delete k (pl_frame w) /\ pl_running w' = pl_running w /\
              pl_history w' = (dom (pl_frame w'), pl_running w') :: pl_history w
    | Some (ErrKeyNotExist _) => pl_same w w' /\ pl_frame w !! k = None
    | Some _ => pl_same w w'
    end;
  pl_LookupProgram s w : pl_same w (pe_LookupProgram s w).2;
  pl_InsertProgram s p w : pl_same w (pe_InsertProgram s p w).2;
  pl_DeleteProgram s w : pl_same w (pe_DeleteProgram s w).2;
  pl_ctxErr w : pl_same w (pe_ctxErr w).2;
  pl_CallerHeldAt p w : pl_same w (pe_CallerHeldAt p w).2;
  pl_Retain w : pl_same w (pe_Retain w).2;
  pl_HeldAt p w : pl_same w (pe_HeldAt p w).2;
  pl_closeLease w : pl_same w (pe_closeLease w).2;
  pl_AssertInactive g w : let '(err, w') := pe_AssertInactive g w in
    pl_same w w' /\ (err = None -> g ∉ pl_running w');
  (** A failed transition of the barrier may have happened. *)
  pl_Activate g w : let '(err, w') := pe_Activate g w in
    pl_frame w' = pl_frame w /\
    (pl_running w' = pl_running w /\ pl_history w' = pl_history w \/
     pl_running w' = {[ g ]} ∪ pl_running w /\ pl_history w' = (dom (pl_frame w'), pl_running w') :: pl_history w);
  pl_Quiesce g w : let '(err, w') := pe_Quiesce g w in
    pl_frame w' = pl_frame w /\
    (pl_running w' = pl_running w /\ pl_history w' = pl_history w \/
     pl_running w' = pl_running w ∖ {[ g ]} /\ pl_history w' = (dom (pl_frame w'), pl_running w') :: pl_history w) /\
    (err = None -> g ∉ pl_running w')
}.

(** ** Clients *)

Inductive policy_op :=
  | OpClaim (ctx : policy_context)
  | OpStage (ctx : policy_context) (claim : claim_handle)
  | OpActivate (ctx : policy_context) (claim : claim_handle) (exact : bool)
  | OpRollback (ctx : policy_context) (claim : claim_handle) (exact : bool)
  | OpDisarm (ctx : policy_context) (claim : claim_handle) (exact : bool)
  | OpBind (ctx : policy_context) (claim : claim_handle) (exact : bool) (owner : option Z)
  | OpRelease (ctx : policy_context) (claim : claim_handle) (exact : bool) (proof : option (Z * bool))
  | OpStageProgram (ctx : policy_context) (claim : claim_handle) (program : Z + error)
  | OpRollbackProgram (ctx : policy_context) (claim : claim_handle) (s : fakeTCPProgramArrayStage)
  | OpCommit (ctx : policy_context) (claim : claim_handle) (exact : bool) (p : option fakeTCPProgramArrayStage)
  | OpClose (claim : claim_handle).

Section clients.
Context {W : Type} `{PolicyEnv W}.

Definition policy_step (x : policy_world W) (op : policy_op) : policy_world W :=
  match op with
  | OpClaim ctx => (claimRuntimeBuild ctx x).2
  | OpStage ctx c => (stageForRuntimeClaim ctx c x).2
  | OpActivate ctx c e => (claim_Activate ctx c e x).2
  | OpRollback ctx c e => (rollbackForRuntimeClaim ctx c e x).2
  | OpDisarm ctx c e => (disarmForRuntimeClaim ctx c e x).2
  | OpBind ctx c e o => (bindStageCollectionOwnerForRuntimeClaim ctx c e o x).2
  | OpRelease ctx c e p => (releaseStageAfterCollectionCloseForRuntimeClaim ctx c e p x).2
  | OpStageProgram ctx c p => (stageFakeTCPEgressProgram ctx c p x).2
  | OpRollbackProgram ctx c s => (program_Rollback ctx c s x).2
  | OpCommit ctx c e p => (commitRuntimeBuild ctx c e p x).2
  | OpClose c => (closeForRuntimeClaim c x).2
  end.
Definition policy_run : list policy_op -> policy_world W -> policy_world W := fold_left policy_step.
End clients.

(** ** Staging from a base *)

Abbreviation keys := (map po_key).
Definition is_latch (op : fakeTCPPolicyOperation) : Prop := po_phase op = fakeTCPPolicyPhaseInterface.
#[export] Instance is_latch_dec op : Decision (is_latch op) := decide (po_phase op = _).
(** A reachable interface has all the ports and control policies. *)
Definition latched (ops : list fakeTCPPolicyOperation) (d : gset policy_key) : Prop :=
  (exists op, op ∈ ops /\ is_latch op /\ po_key op ∈ d) ->
  forall op, op ∈ ops -> ~ is_latch op -> po_key op ∈ d.
Definition complete (ops : list fakeTCPPolicyOperation) (d : gset policy_key) : Prop :=
  forall op, op ∈ ops -> po_key op ∈ d.

Section staging.
Context {W : Type} `{Hpe : PolicyEnv W} `{Hpl : !PolicyLaws W}.
Variables (plan : fakeTCPPolicyGenerationPlan) (w0 : W).
Implicit Types (w : W) (x : policy_world W).

Definition planned : list fakeTCPPolicyOperation := fakeTCPPolicyOperations plan.
Definition present w : gset policy_key := dom (pl_frame w).

(** The changes since [w0] left a state that packets can meet. *)
Definition safe_event (e : gset policy_key * gset Z) : Prop :=
  latched planned e.1 /\ (pl_generation plan ∈ e.2 -> complete planned e.1).
Definition witnessed w : Prop := exists new, pl_history w = new ++ pl_history w0 /\ Forall safe_event new.
(** The plan was absent from [w0], and only its entries were written. *)
Record staged w : Prop := {
  sg_absent : forall op, op ∈ planned -> pl_frame w0 !! po_key op = None;
  sg_rest : forall k, k ∉ keys planned -> pl_frame w !! k = pl_frame w0 !! k;
  sg_values : forall k v, k ∈ keys planned -> pl_frame w !! k = Some v ->
    exists op, op ∈ planned /\ po_key op = k /\ v = erase (po_value op);
  sg_safe : safe_event (present w, pl_running w);
  sg_history : witnessed w
}.
Definition recorded (ops : list fakeTCPPolicyOperation) w : Prop :=
  (forall op, op ∈ ops -> op ∈ planned) /\ forall k, k ∈ keys planned -> k ∈ present w -> k ∈ keys ops.
Definition filled (ops : list fakeTCPPolicyOperation) w : Prop :=
  forall k, k ∈ keys planned -> k ∈ present w <-> k ∈ keys ops.

(** *** Calls that change nothing *)

Lemma same_refl w : pl_same w w.
Proof. by repeat split. Qed.
Lemma same_trans w1 w2 w3 : pl_same w1 w2 -> pl_same w2 w3 -> pl_same w1 w3.
Proof. intros (E1 & E2 & E3) (F1 & F2 & F3). unfold pl_same. by rewrite F1, F2, F3. Qed.
Lemma same_present w w' : pl_same w w' -> present w' = present w.
Proof. intros (E & _). unfold present. by rewrite E. Qed.
Lemma staged_same w w' : pl_same w w' -> staged w -> staged w'.
Proof.
  intros Hs [? Hr Hv Hf Hh]. pose proof (same_present _ _ Hs) as Hp. destruct Hs as (E1 & E2 & E3).
  split; [done|intros; rewrite E1; auto|intros ??; rewrite E1; auto|by rewrite Hp, E2|].
  destruct Hh as (new & ? & ?). exists new. by rewrite E3.
Qed.
Lemma witnessed_same w w' : pl_same w w' -> witnessed w -> witnessed w'.
Proof. intros (_ & _ & E) (new & ? & ?). exists new. by rewrite E. Qed.
Lemma recorded_same ops w w' : pl_same w w' -> recorded ops w -> recorded ops w'.
Proof. intros Hs. unfold recorded. by rewrite (same_present _ _ Hs). Qed.

Definition hushed {A} (m : SM W A) : Prop := forall w, pl_same w (m w).2.
Definition still {A} (m : SM (policy_world W) A) : Prop := forall x,
  pl_same (pw_env x) (pw_env (m x).2) /\ pw_txn (m x).2 = pw_txn x.
Lemma hushed_call (f : W -> option error * W) : (forall w, pl_same w (f w).2) -> hushed (scall f).
Proof. intros Hf w. unfold scall. specialize (Hf w). by destruct (f w). Qed.
Lemma hushed_bind {A B} (m : SM W A) (k : A -> SM W B) : hushed m -> (forall a, hushed (k a)) -> hushed (sbind m k).
Proof.
  intros Hm Hk w. unfold sbind. specialize (Hm w). destruct (m w) as [[a|e] w']; [|done].
  exact (same_trans _ _ _ Hm (Hk a w')).
Qed.
Lemma hushed_wrap {A} p (m : SM W A) : hushed m -> hushed (swrap p m).
Proof. intros Hm w. unfold swrap. specialize (Hm w). by destruct (m w) as [[a|e] w']. Qed.
Lemma still_in_env {A} (m : SM W A) : hushed m -> still (in_env m).
Proof. intros Hm x. unfold in_env. specialize (Hm (pw_env x)). by destruct (m (pw_env x)). Qed.
Lemma still_ret {A} (a : A) : still (sret a).
Proof. intros x. split; [apply same_refl|done]. Qed.
Lemma still_fail {A} e : still (sfail (A := A) e).
Proof. intros x. split; [apply same_refl|done]. Qed.
Lemma still_bind {A B} (m : SM (policy_world W) A) (k : A -> SM (policy_world W) B) :
  still m -> (forall a, still (k a)) -> still (sbind m k).
Proof.
  intros Hm Hk x. unfold sbind. specialize (Hm x). destruct (m x) as [[a|e] x']; [|done].
  destruct (Hk a x') as [? E], Hm as [? E']. cbn in *. split; [by eapply same_trans|congruence].
Qed.
Lemma still_wrap {A} p (m : SM (policy_world W) A) : still m -> still (swrap p m).
Proof. intros Hm x. unfold swrap. specialize (Hm x). by destruct (m x) as [[a|e] w']. Qed.
Lemma still_get {A} (k : policyTransaction -> SM (policy_world W) A) : (forall t, still (k t)) -> still (sbind get_txn k).
Proof. intros Hk x. apply Hk. Qed.
Lemma still_reject {A} (b : bool) e (k : SM (policy_world W) A) : still k -> still (reject b with e in k).
Proof. destruct b; [intros _; apply still_fail|done]. Qed.
Lemma hushed_ask {A} (f : W -> A * W) : (forall w, pl_same w (f w).2) -> hushed (fun w => let '(a, w') := f w in (inl a, w')).
Proof. intros Hf w. specialize (Hf w). by destruct (f w). Qed.

Lemma still_assertHeldLocked ctx : still (assertHeldLocked ctx).
Proof.
  destruct ctx as [path|]; [|apply still_fail]. apply still_bind; [apply still_in_env, hushed_call, pl_ctxErr|intros _].
  apply still_get. intros t. do 2 apply still_reject.
  apply still_bind; [apply still_in_env, hushed_ask, pl_HeldAt|intros held]. do 2 apply still_reject. apply still_ret.
Qed.
Lemma still_assertAccessLocked ctx c : still (assertAccessLocked ctx c).
Proof.
  apply still_bind; [apply still_assertHeldLocked|intros _]. apply still_get. intros t.
  destruct c; [apply still_reject, still_ret|apply still_reject, still_ret|apply still_fail].
Qed.
Lemma still_assertStageLocked ctx c e : still (assertStageLocked ctx c e).
Proof.
  apply still_bind; [apply still_assertAccessLocked|intros _]. apply still_get. intros t.
  destruct (pt_stage t); [|apply still_fail]. destruct e; [apply still_ret|apply still_fail].
Qed.
Lemma hushed_lookup k : hushed (lookup_entry k).
Proof. apply hushed_ask. intros w. pose proof (pl_Lookup k w). destruct (pe_Lookup k w). tauto. Qed.

(** *** The order of the operations *)

Definition under_latches : list fakeTCPPolicyOperation :=
  map control_operation (pl_controlPolicies plan) ++ map port_operation (pl_managedPorts plan).
Definition latches : list fakeTCPPolicyOperation := map interface_operation (pl_managedInterfaces plan).
Lemma planned_split : planned = under_latches ++ latches.
Proof. unfold planned, fakeTCPPolicyOperations, under_latches. by rewrite <- app_assoc. Qed.
Lemma latches_spec op : op ∈ latches -> is_latch op /\ exists g u, po_key op = PKInterface g u.
Proof. intros (e & -> & _)%list_elem_of_fmap. split; [done|]. by eexists _, _. Qed.
Lemma under_latches_spec op : op ∈ under_latches -> ~ is_latch op /\ forall g u, po_key op <> PKInterface g u.
Proof. unfold under_latches. rewrite elem_of_app. by intros [(e & -> & _)%list_elem_of_fmap|(e & -> & _)%list_elem_of_fmap]. Qed.
Lemma latch_iff op : op ∈ planned -> is_latch op <-> exists g u, po_key op = PKInterface g u.
Proof.
  rewrite planned_split, elem_of_app. intros [Ho|Ho].
  - destruct (under_latches_spec op Ho) as [Hl Hk]. split; [done|]. intros (g & u & Hg). by destruct (Hk g u).
  - destruct (latches_spec op Ho). tauto.
Qed.
Lemma key_of op : op ∈ planned -> po_key op ∈ keys planned.
Proof. intros Ho. apply list_elem_of_fmap. eauto. Qed.
Lemma prefix_latched applied rest d : applied ++ rest = planned ->
  (forall k, k ∈ keys planned -> k ∈ d <-> k ∈ keys applied) -> latched planned d.
Proof.
  intros Ha Hd (op & Ho & Hl & Hin). apply Hd in Hin; [|by apply key_of].
  apply list_elem_of_fmap in Hin as (op' & Ek & Ho'). apply latch_iff in Hl as (g & u & Eg); [|done].
  rewrite planned_split in Ha. destruct (app_eq_inv _ _ _ _ Ha) as [(k & -> & _)|(k & E & _)].
  2: { exfalso. eapply (under_latches_spec op'); [rewrite E, elem_of_app; by left|]. by rewrite <- Ek. }
  - intros op2 H2 Hn. apply Hd; [by apply key_of|]. apply list_elem_of_fmap. exists op2. split; [done|].
    rewrite elem_of_app. left. rewrite planned_split, elem_of_app in H2. destruct H2 as [|H2]; [done|].
    by destruct (latches_spec _ H2).
Qed.

(** *** Writing *)

Lemma witnessed_cons w w' : witnessed w -> pl_history w' = (present w', pl_running w') :: pl_history w ->
  safe_event (present w', pl_running w') -> witnessed w'.
Proof. intros (new & E & Hf) E' Hs. exists ((present w', pl_running w') :: new). rewrite E', E. by split; [|constructor]. Qed.
Lemma insert_step applied op rest w : applied ++ op :: rest = planned -> staged w -> filled applied w ->
  pl_generation plan ∉ pl_running w ->
  let '(r, w') := insert_entry op w in
  staged w' /\ pl_running w' = pl_running w /\ filled (if r is inl _ then applied ++ [op] else applied) w'.
Proof.
  intros Ha Hg Hf Hr. unfold insert_entry. pose proof (pl_InsertNew (po_key op) (po_value op) w) as Hl.
  destruct (pe_InsertNew _ _ w) as [[e|] w'].
  { split; [by eapply staged_same|]. split; [apply Hl|]. unfold filled. by rewrite (same_present _ _ Hl). }
  destruct Hl as (Hn & E1 & E2 & E3).
  assert (Ho : op ∈ planned) by (rewrite <- Ha, elem_of_app; right; by left).
  assert (Hf' : filled (applied ++ [op]) w').
  { intros k Hk. unfold present. rewrite E1, dom_insert, elem_of_union, elem_of_singleton, map_app, elem_of_app.
    cbn. rewrite list_elem_of_singleton, <- (Hf k Hk). unfold present. tauto. }
  assert (Hs : safe_event (present w', pl_running w')).
  { split; cbn; [|by rewrite E2]. apply (prefix_latched (applied ++ [op]) rest); [by rewrite <- app_assoc|exact Hf']. }
  split; [|by split]. destruct Hg as [Ab Hrest Hv _ Hh]. split; [done| | |done|].
  - intros k Hk. rewrite E1, lookup_insert_ne; [by apply Hrest|]. intros <-. by apply Hk, key_of.
  - intros k v Hk. rewrite E1. destruct (decide (po_key op = k)) as [<-|Hne].
    + rewrite lookup_insert_eq. intros [= <-]. eauto.
    + rewrite lookup_insert_ne by done. auto.
  - by eapply witnessed_cons.
Qed.
Lemma filled_same ops w w' : pl_same w w' -> filled ops w -> filled ops w'.
Proof. intros Hs. unfold filled. by rewrite (same_present _ _ Hs). Qed.
Lemma hushed_verify op : hushed (verify_entry op).
Proof.
  apply hushed_bind; [apply hushed_lookup|]. intros [v|e] w; [|apply same_refl]. destruct (negb _); apply same_refl.
Qed.
Lemma insert_entries_spec rest : forall applied w, applied ++ rest = planned -> staged w -> filled applied w ->
  pl_generation plan ∉ pl_running w ->
  let '(err, applied', w') := insert_entries applied rest w in
  staged w' /\ filled applied' w' /\ (exists more, applied' ++ more = planned) /\ (err = None -> applied' = planned).
Proof.
  induction rest as [|op rest IH]; intros applied w Ha Hg Hf Hr; cbn.
  - pose proof (pl_ctxErr w) as Hc. destruct (pe_ctxErr w) as [err w']. split; [by eapply staged_same|].
    split; [by eapply filled_same|]. rewrite app_nil_r in Ha. split; [exists []; by rewrite app_nil_r|done].
  - pose proof (pl_ctxErr w) as Hc. destruct (pe_ctxErr w) as [err w']. cbn in Hc.
    assert (Hg' : staged w') by by eapply staged_same. assert (Hf' : filled applied w') by by eapply filled_same.
    destruct err as [e|]; [by split_and!; eauto|]. destruct Hc as (_ & Er & _).
    pose proof (insert_step applied op rest w' Ha Hg' Hf') as Hi. rewrite Er in Hi. specialize (Hi Hr).
    destruct (insert_entry op w') as [[[]|e] w2]; destruct Hi as (G2 & R2 & F2); [|by split_and!; eauto].
    rewrite (cons_middle op applied rest), app_assoc in Ha.
    pose proof (hushed_verify op w2) as Hv. destruct (verify_entry op w2) as [[[]|e] w3]; cbn in Hv.
    + apply IH; [done|by eapply staged_same|by eapply filled_same|]. destruct Hv as (_ & -> & _). by rewrite R2.
    + split; [by eapply staged_same|]. split; [by eapply filled_same|]. by split; [eexists|].
Qed.

(** *** Removing *)

(** Entries of the plan may be gone, nothing else changed. *)
Definition fewer w w' : Prop := staged w' /\ pl_running w' = pl_running w /\ present w' ⊆ present w.
Lemma fewer_trans w1 w2 w3 : fewer w1 w2 -> fewer w2 w3 -> fewer w1 w3.
Proof. intros (? & E1 & H1) (? & E2 & H2). split; [done|]. split; [congruence|set_solver]. Qed.
Lemma fewer_same w w' : staged w -> pl_same w w' -> fewer w w'.
Proof. intros Hg Hs. split; [by eapply staged_same|]. split; [apply Hs|]. by rewrite (same_present _ _ Hs). Qed.
Lemma recorded_fewer ops w w' : fewer w w' -> recorded ops w -> recorded ops w'.
Proof. intros (_ & _ & Hp) [? Hr]. split; [done|]. intros k Hk Hin. apply Hr; [done|]. by apply Hp. Qed.

(** An entry may go once no packet is in the generation, and the ports and control
    policies only when the latches are gone. *)
Definition removable (op : fakeTCPPolicyOperation) w : Prop :=
  op ∈ planned /\ pl_generation plan ∉ pl_running w /\
  (is_latch op \/ forall op', op' ∈ planned -> is_latch op' -> po_key op' ∉ present w).
Lemma removable_fewer op w w' : fewer w w' -> removable op w -> removable op w'.
Proof.
  intros (_ & Er & Hp) (? & ? & Hl). split; [done|]. split; [by rewrite Er|]. destruct Hl as [|Hl]; [by left|right].
  intros op' H1 H2 H3. by eapply Hl, Hp.
Qed.
Lemma delete_step op w : staged w -> removable op w ->
  let '(err, w') := pe_Delete (po_key op) w in
  fewer w w' /\ (match err with Some (ErrKeyNotExist _) => po_key op ∉ present w' | _ => True end).
Proof.
  intros Hg (Ho & Hr & Hl). pose proof (pl_Delete (po_key op) w) as Hd. destruct (pe_Delete _ w) as [[e|] w'].
  { destruct e; [by split; [apply fewer_same|]| |by split; [apply fewer_same|]]. destruct Hd as [Hs Hn].
    split; [by apply fewer_same|]. rewrite (same_present _ _ Hs). by apply not_elem_of_dom. }
  destruct Hd as (E1 & E2 & E3). split; [|done].
  assert (Hp : present w' = present w ∖ {[ po_key op ]}) by (unfold present; by rewrite E1, dom_delete_L).
  assert (Hs : safe_event (present w', pl_running w')).
  { split; cbn; [|by rewrite E2]. rewrite Hp. intros (op1 & H1 & L1 & K1) op2 H2 N2. destruct Hl as [Hl|Hl].
    - apply elem_of_difference. split.
      + refine (proj1 (sg_safe _ Hg) _ op2 H2 N2). exists op1. split; [done|]. split; [done|]. set_solver.
      + rewrite elem_of_singleton. intros E. apply N2. apply latch_iff; [done|]. rewrite E. by apply latch_iff.
    - exfalso. apply (Hl op1); [done|done|set_solver]. }
  split; [|split; [done|rewrite Hp; set_solver]]. destruct Hg as [Ab Hrest Hv _ Hh]. split; [done| | |done|].
  - intros k Hk. rewrite E1, lookup_delete_ne; [by apply Hrest|]. intros <-. by apply Hk, key_of.
  - intros k v Hk. rewrite E1, lookup_delete_Some. intros [_ ?]. auto.
  - by eapply witnessed_cons.
Qed.
Lemma lookup_spec k w : exists r w', lookup_entry k w = (inl r, w') /\ pl_same w w' /\
  match r with inl v => pl_frame w !! k = Some (erase v) | inr (ErrKeyNotExist _) => k ∉ present w' | inr _ => True end.
Proof.
  unfold lookup_entry. pose proof (pl_Lookup k w) as Hl. destruct (pe_Lookup k w) as [r w']. exists r, w'.
  destruct Hl as [Hs Hl]. split; [done|]. split; [done|]. destruct r as [|[]]; [done|done| |done].
  rewrite (same_present _ _ Hs). by apply not_elem_of_dom.
Qed.
Lemma rollback_entry_spec mode op w : staged w -> removable op w ->
  let '(r, w') := rollback_entry mode op w in fewer w w' /\ (if r is inl _ then po_key op ∉ present w' else True).
Proof.
  intros Hg Hm. unfold rollback_entry, sbind. destruct (lookup_spec (po_key op) w) as (r & w1 & -> & Hs & Hr).
  pose proof (fewer_same _ _ Hg Hs) as F1. destruct r as [v|[]]; [|by split|by split|by split].
  destruct (negb _); [by split|]. pose proof (delete_step op w1 (proj1 F1) (removable_fewer _ _ _ F1 Hm)) as Hd.
  destruct (pe_Delete (po_key op) w1) as [err w2]. destruct Hd as [F2 Hd]. pose proof (fewer_trans _ _ _ F1 F2) as F3.
  destruct err as [[]|]; [by split|by split|by split|].
  destruct (lookup_spec (po_key op) w2) as (r & w3 & -> & Hs3 & Hr3).
  pose proof (fewer_trans _ _ _ F3 (fewer_same _ _ (proj1 F3) Hs3)) as F4. by destruct r as [|[]]; split.
Qed.
Lemma rollback_entries_spec mode ops : forall w, staged w -> Forall (fun op => removable op w) ops ->
  let '(errs, w') := rollback_entries mode ops w in
  fewer w w' /\ (errs = [] -> forall op, op ∈ ops -> po_key op ∉ present w').
Proof.
  induction ops as [|op ops IH]; intros w Hg Ha; cbn.
  { split; [by apply fewer_same, same_refl|]. by intros _ op ?%not_elem_of_nil. }
  apply Forall_cons_1 in Ha as [Ho Ha]. pose proof (rollback_entry_spec mode op w Hg Ho) as H1.
  destruct (rollback_entry mode op w) as [r w1]. destruct H1 as [F1 H1].
  specialize (IH w1 (proj1 F1)). destruct (rollback_entries mode ops w1) as [errs w2].
  destruct IH as [F2 H2]; [eapply Forall_impl; [|exact Ha]; intros o; by apply removable_fewer|].
  split; [by eapply fewer_trans|]. destruct r as [[]|e]; [|done]. intros -> op' [->|Ho']%elem_of_cons; [|auto].
  intros Hin. apply H1. by apply F2.
Qed.
Lemma join_all_nil errs : errors_Join_all errs = None -> errs = [].
Proof. by destruct errs. Qed.
Lemma rollback_phase_spec applied phase mode w : staged w ->
  (forall op, op ∈ applied -> po_phase op = phase -> removable op w) ->
  let '(r, w') := rollbackFakeTCPPolicyPhase applied phase mode w in
  fewer w w' /\ (if r is inl _ then forall op, op ∈ applied -> po_phase op = phase -> po_key op ∉ present w' else True).
Proof.
  intros Hg Ha. unfold rollbackFakeTCPPolicyPhase.
  pose proof (rollback_entries_spec mode (filter (fun op => po_phase op = phase) (rev applied)) w Hg) as Hs.
  destruct (rollback_entries _ _ w) as [errs w']. destruct Hs as [F Hs].
  { apply Forall_forall. intros op [E Ho]%list_elem_of_In%list_elem_of_filter. apply Ha; [|done]. by apply (elem_of_rev op). }
  split; [done|]. destruct (errors_Join_all errs) eqn:Ej; [done|]. intros op Ho E. apply Hs; [by apply join_all_nil|].
  apply list_elem_of_filter. split; [done|]. by apply elem_of_rev.
Qed.

(** *** A whole rollback *)

Lemma unstaged w : staged w -> (forall op, op ∈ planned -> po_key op ∉ present w) -> pl_frame w = pl_frame w0.
Proof.
  intros Hg Hn. apply map_eq. intros k. destruct (decide (k ∈ keys planned)) as [Hk|Hk]; [|by apply sg_rest].
  apply list_elem_of_fmap in Hk as (op & -> & Ho). rewrite (sg_absent _ Hg) by done. by apply not_elem_of_dom, Hn.
Qed.
Lemma quiesce_spec w : staged w -> let '(err, w') := pe_Quiesce (pl_generation plan) w in
  staged w' /\ present w' = present w /\ (err = None -> pl_generation plan ∉ pl_running w').
Proof.
  intros Hg. pose proof (pl_Quiesce (pl_generation plan) w) as Hq. destruct (pe_Quiesce _ w) as [err w'].
  destruct Hq as (E & Hr & Hn). assert (Hp : present w' = present w) by (unfold present; by rewrite E).
  split; [|done]. assert (Hs : safe_event (present w', pl_running w')).
  { rewrite Hp. destruct (sg_safe _ Hg) as [? Hc]. destruct Hr as [[-> _]|[-> _]]; [done|]. split; [done|]. set_solver. }
  destruct Hg as [? Hrest Hv _ Hh]. split; [done|intros; rewrite E; auto|intros ??; rewrite E; auto|done|].
  destruct Hr as [[_ Eh]|[_ Eh]]; [|by eapply witnessed_cons]. destruct Hh as (new & ? & ?). exists new. by rewrite Eh.
Qed.

(** Only control policies are compared with their cursors ignored. *)
Definition mode_of (phase : fakeTCPPolicyPhase) : fakeTCPPolicyRollbackMode :=
  match phase with fakeTCPPolicyPhaseControl => fakeTCPPolicyRollbackQuiescedControl | _ => fakeTCPPolicyRollbackExact end.
Definition keeps (x x' : policy_world W) (ops : list fakeTCPPolicyOperation) : Prop :=
  staged (pw_env x') /\ recorded ops (pw_env x') /\ pw_txn x' = pw_txn x.
(** [F]: what a failed call shows. *)
Lemma assert_then {A} (F : Prop) (ctx : policy_context) (k : SM (policy_world W) A) (Q : A -> policy_world W -> Prop) ops x y :
  keeps x y ops -> ((assertHeldLocked ctx y).1 <> inl tt -> F) ->
  (forall y', pl_same (pw_env y) (pw_env y') -> keeps x y' ops -> swp k Q (fun x' => keeps x x' ops /\ F) y') ->
  swp (must! assertHeldLocked ctx in k) Q (fun x' => keeps x x' ops /\ F) y.
Proof.
  intros (Hg & Hr & Ht) HF Hk. pose proof (still_assertHeldLocked ctx y) as [Hs Ht'].
  assert (HK : keeps x (assertHeldLocked ctx y).2 ops).
  { split; [by eapply staged_same|]. split; [by eapply recorded_same|congruence]. }
  apply swp_bind. unfold swp at 1. destruct (assertHeldLocked ctx y) as [[[]|e] y']; [by apply Hk|]. split; [done|by apply HF].
Qed.
(** The phases so far removed [gone]; the next one removes [phase]. *)
Lemma phase_then {A} (F : Prop) applied phase prefix (gone : list fakeTCPPolicyPhase) (k : SM (policy_world W) A)
    (Q : A -> policy_world W -> Prop) x y : keeps x y applied ->
  pl_generation plan ∉ pl_running (pw_env y) ->
  (phase = fakeTCPPolicyPhaseInterface \/ fakeTCPPolicyPhaseInterface ∈ gone) ->
  (forall op, op ∈ applied -> po_phase op ∈ gone -> po_key op ∉ present (pw_env y)) ->
  (forall w, staged w -> (forall op, op ∈ applied -> po_phase op = phase -> removable op w) ->
     (rollbackFakeTCPPolicyPhase applied phase (mode_of phase) w).1 <> inl tt -> F) ->
  (forall y', keeps x y' applied -> pl_generation plan ∉ pl_running (pw_env y') ->
     (forall op, op ∈ applied -> po_phase op ∈ phase :: gone -> po_key op ∉ present (pw_env y')) ->
     swp k Q (fun x' => keeps x x' applied /\ F) y') ->
  swp (must! swrap prefix (in_env (rollbackFakeTCPPolicyPhase applied phase (mode_of phase))) in k) Q
    (fun x' => keeps x x' applied /\ F) y.
Proof.
  intros (Hg & Hr & Ht) Hq Hp Hgone HF Hk. apply swp_bind, swp_wrap. unfold swp at 1, in_env.
  pose proof (rollback_phase_spec applied phase (mode_of phase) (pw_env y) Hg) as Hs. specialize (HF _ Hg).
  assert (Hrem : forall op, op ∈ applied -> po_phase op = phase -> removable op (pw_env y)).
  { intros op Ho Eop. split; [by apply Hr|]. split; [done|]. destruct Hp as [->|Hp]; [by left|right].
    intros op' Ho' Hl Hin. apply Hr in Hin as Hin'; [|by apply key_of]. apply list_elem_of_fmap in Hin' as (op2 & E2 & H2).
    eapply (Hgone op2); [done| |by rewrite <- E2]. replace (po_phase op2) with fakeTCPPolicyPhaseInterface; [done|].
    symmetry. apply latch_iff; [by apply Hr|]. rewrite <- E2. by apply latch_iff. }
  specialize (Hs Hrem). specialize (HF Hrem).
  destruct (rollbackFakeTCPPolicyPhase _ _ _ (pw_env y)) as [r w']. destruct Hs as [Hfew Hs].
  assert (HK : keeps x (mkPolicyWorld w' (pw_txn y)) applied).
  { split; [apply Hfew|]. split; [by eapply recorded_fewer|done]. }
  destruct r as [[]|e]; [|by split; [|apply HF]]. apply Hk; [done| |].
  - cbn. destruct Hfew as (_ & -> & _). done.
  - intros op Ho [Ep|Hin]%elem_of_cons; [by apply Hs|]. intros Hin'. eapply Hgone; [done|done|]. by apply Hfew.
Qed.
Lemma swp_last {S} (m : SM S unit) Q E (s : S) : swp (must! m in sret tt) Q E s -> swp m Q E s.
Proof. unfold swp, sbind. by destruct (m s) as [[[]|e] s']. Qed.
Lemma rollback_operations_run (F : Prop) ctx applied x :
  pt_plan (pw_txn x) = plan -> staged (pw_env x) -> recorded applied (pw_env x) ->
  (forall y, pw_txn y = pw_txn x -> (assertHeldLocked ctx y).1 <> inl tt -> F) ->
  (forall w, (pe_Quiesce (pl_generation plan) w).1 <> None -> F) ->
  (forall phase w, staged w -> (forall op, op ∈ applied -> po_phase op = phase -> removable op w) ->
     (rollbackFakeTCPPolicyPhase applied phase (mode_of phase) w).1 <> inl tt -> F) ->
  swp (rollbackFakeTCPPolicyOperationsLocked ctx applied)
    (fun _ x' => keeps x x' applied /\ pl_frame (pw_env x') = pl_frame w0) (fun x' => keeps x x' applied /\ F) x.
Proof.
  intros Hp Hg Hr HA HQ HP. unfold rollbackFakeTCPPolicyOperationsLocked. eapply assert_then; [by split|by apply HA|].
  intros y1 _ (G1 & R1 & T1). apply swp_bind. unfold get_txn, swp at 1. cbn. rewrite T1, Hp.
  apply swp_bind, swp_wrap. unfold swp at 1, in_env, scall. pose proof (quiesce_spec _ G1) as Hq. specialize (HQ (pw_env y1)).
  destruct (pe_Quiesce _ (pw_env y1)) as [err w2]. destruct Hq as (G2 & P2 & N2).
  assert (R2 : recorded applied w2) by (unfold recorded; by rewrite P2).
  destruct err as [e|]; [by split_and!; try apply HQ|]. specialize (N2 eq_refl).
  eapply assert_then; [by split_and!|by apply HA|]. intros y3 S3 K3. destruct (S3) as (_ & E3 & _). cbn in E3.
  eapply (phase_then _ _ fakeTCPPolicyPhaseInterface _ []); [done|by rewrite E3|by left|by intros ?? ?%not_elem_of_nil|apply HP|].
  intros y4 K4 Q4 A4. eapply assert_then; [done|apply HA, K4|].
  intros y5 S5 K5. pose proof (same_present _ _ S5) as P5. destruct (S5) as (_ & E5 & _).
  eapply (phase_then _ _ fakeTCPPolicyPhasePort); [done|by rewrite E5|right; by left|rewrite P5; exact A4|apply HP|].
  intros y6 K6 Q6 A6. eapply assert_then; [done|apply HA, K6|].
  intros y7 S7 K7. pose proof (same_present _ _ S7) as P7. destruct (S7) as (_ & E7 & _). apply swp_last.
  eapply (phase_then _ _ fakeTCPPolicyPhaseControl); [done|by rewrite E7|right; right; by left|rewrite P7; exact A6|apply HP|].
  intros y8 K8 Q8 A8. split; [done|]. apply unstaged; [apply K8|]. intros op Ho Hin. apply K8 in Hin as Hin'; [|by apply key_of].
  apply list_elem_of_fmap in Hin' as (op' & Ek & Ho'). eapply A8; [done| |by rewrite <- Ek].
  destruct (po_phase op'); set_solver.
Qed.
Lemma rollback_operations_spec ctx applied x : pt_plan (pw_txn x) = plan -> staged (pw_env x) -> recorded applied (pw_env x) ->
  swp (rollbackFakeTCPPolicyOperationsLocked ctx applied)
    (fun _ x' => keeps x x' applied /\ pl_frame (pw_env x') = pl_frame w0) (fun x' => keeps x x' applied) x.
Proof. intros Hp Hg Hr. eapply swp_mono; [by apply (rollback_operations_run True)|done|by intros ? [? _]]. Qed.

(** *** The invariant of a transaction *)

Definition stage_inv (s : option fakeTCPPolicyStage) w : Prop :=
  match s with
  | None => pl_frame w = pl_frame w0 /\ witnessed w
  | Some s => staged w /\
      match ps_state s with
      | fakeTCPPolicyStageActive => ps_operations s = planned /\ complete planned (present w)
      | fakeTCPPolicyStageRollbackPending => recorded (ps_operations s) w
      | _ => True
      end
  end.
(** A transaction holds its lease until it is closed, and never closes with a live
    stage. *)
Definition closed_inv (t : policyTransaction) : Prop :=
  if pt_closed t then stage_live (pt_stage t) = false /\ pt_lease t = false else pt_lease t = true.
Record policy_inv x : Prop := {
  pi_plan : pt_plan (pw_txn x) = plan;
  pi_closed : closed_inv (pw_txn x);
  pi_stage : stage_inv (pt_stage (pw_txn x)) (pw_env x)
}.
Abbreviation keeps_inv m x := (swp m (fun _ => policy_inv) policy_inv x).

Lemma closed_stage t s : pt_closed t = false -> closed_inv t -> closed_inv (set_stage s t).
Proof. unfold closed_inv. cbn. by intros ->. Qed.
Lemma stage_inv_same s w w' : pl_same w w' -> stage_inv s w -> stage_inv s w'.
Proof.
  intros Hs. destruct s as [s|]; cbn.
  - intros [Hg Hc]. split; [by eapply staged_same|]. unfold recorded. by rewrite (same_present _ _ Hs).
  - intros [E Hh]. split; [|by eapply witnessed_same]. by rewrite (proj1 Hs).
Qed.
Lemma inv_same x x' : pl_same (pw_env x) (pw_env x') -> pw_txn x' = pw_txn x -> policy_inv x -> policy_inv x'.
Proof. intros Hs E [? ? ?]. split; rewrite E; [done|done|]. by eapply stage_inv_same. Qed.
Lemma still_inv {A} (m : SM (policy_world W) A) x : still m -> policy_inv x -> keeps_inv m x.
Proof. intros Hm Hi. destruct (Hm x) as [Hs E]. unfold swp. destruct (m x) as [[a|e] x']; by eapply inv_same. Qed.

(** What a passed check tells. *)
Lemma assertHeld_open ctx x x' : assertHeldLocked ctx x = (inl tt, x') -> pt_closed (pw_txn x) = false.
Proof.
  destruct ctx as [path|]; [|done]. unfold assertHeldLocked, sbind, in_env, scall.
  destruct (pe_ctxErr (pw_env x)) as [[e|] w']; [done|]. unfold get_txn. cbn. destruct (negb _); [done|].
  by destruct (pt_closed (pw_txn x)).
Qed.
Lemma still_run {A} (m : SM (policy_world W) A) a x x' : still m -> m x = (a, x') ->
  pl_same (pw_env x) (pw_env x') /\ pw_txn x' = pw_txn x.
Proof. intros Hm E. specialize (Hm x). by rewrite E in Hm. Qed.
Lemma access_then {A} ctx c (k : SM (policy_world W) A) (Q : A -> policy_world W -> Prop) x : policy_inv x ->
  (forall x', policy_inv x' -> pt_closed (pw_txn x') = false -> pw_txn x' = pw_txn x -> swp k Q policy_inv x') ->
  swp (must! assertAccessLocked ctx c in k) Q policy_inv x.
Proof.
  intros Hi Hk. apply swp_bind. unfold swp at 1. destruct (assertAccessLocked ctx c x) as [r x'] eqn:E.
  destruct (still_run _ _ _ _ (still_assertAccessLocked ctx c) E) as [Hs Et].
  pose proof (inv_same _ _ Hs Et Hi) as Hi'. destruct r as [[]|e]; [|done]. apply Hk; [done| |done]. rewrite Et.
  unfold assertAccessLocked, sbind in E. destruct (assertHeldLocked ctx x) as [[[]|e] x1] eqn:Ea; [|done].
  by eapply assertHeld_open.
Qed.
Lemma stage_then {A} ctx c e prefix (k : fakeTCPPolicyStage -> SM (policy_world W) A) (Q : A -> policy_world W -> Prop) x : policy_inv x ->
  (forall s x', policy_inv x' -> pt_closed (pw_txn x') = false -> pt_stage (pw_txn x') = Some s ->
     pw_txn x' = pw_txn x -> swp (k s) Q policy_inv x') ->
  swp (sbind (assertStageLocked ctx c e) k) Q policy_inv x /\
  swp (sbind (swrap prefix (assertStageLocked ctx c e)) k) Q policy_inv x.
Proof.
  intros Hi Hk. assert (Hw : swp (assertStageLocked ctx c e) (fun s x' => swp (k s) Q policy_inv x') policy_inv x).
  { apply access_then; [done|]. intros x' Hi' Hc Et. apply swp_bind. unfold get_txn, swp at 1.
    destruct (pt_stage (pw_txn x')) eqn:Es; [|done]. destruct e; [|done]. by apply Hk. }
  split; apply swp_bind; [done|by apply swp_wrap].
Qed.
Lemma put_stage_inv s s' x : policy_inv x -> pt_closed (pw_txn x) = false -> pt_stage (pw_txn x) = Some s ->
  (staged (pw_env x) -> stage_inv (Some s) (pw_env x) -> stage_inv (Some s') (pw_env x)) ->
  policy_inv (put_stage s' x).2.
Proof.
  intros [Hp Hl Hs] Hc Es Hi. rewrite Es in Hs. split; [done|by apply closed_stage|]. apply Hi; [apply Hs|done].
Qed.

(** *** Staging *)

Lemma preflight_spec ops : hushed (preflight_entries ops) /\
  forall w w', preflight_entries ops w = (inl tt, w') -> forall op, op ∈ ops -> pl_frame w !! po_key op = None.
Proof.
  induction ops as [|op ops [IHq IHs]]; [by split; [intros w; apply same_refl|intros w w' _ op ?%not_elem_of_nil]|].
  assert (Ha : hushed (requireAbsent op)).
  { apply hushed_bind; [apply hushed_lookup|]. intros [v|[]] w; apply same_refl. }
  split.
  - apply hushed_bind; [apply hushed_call, pl_ctxErr|intros _]. by apply hushed_bind; [apply hushed_wrap|].
  - intros w w'. cbn. unfold sbind at 1, scall. pose proof (pl_ctxErr w) as Hc. destruct (pe_ctxErr w) as [[e|] w1]; [done|]. cbn in Hc.
    unfold sbind, swrap. specialize (Ha w1). destruct (requireAbsent op w1) as [[[]|e] w2] eqn:Er; [|done]. cbn in Ha.
    intros Hp op' [->|Ho]%elem_of_cons.
    + unfold requireAbsent, sbind in Er. destruct (lookup_spec (po_key op) w1) as (r & w3 & El & Hs & Hr).
      rewrite El in Er. destruct r as [|[]]; [done|done| |done]. rewrite (same_present _ _ Hs) in Hr. unfold present in Hr.
      apply not_elem_of_dom in Hr.      by rewrite (proj1 Hc) in Hr.
    + rewrite <- (proj1 Hc), <- (proj1 Ha). by eapply IHs.
Qed.
Lemma fresh_staged w : pl_frame w = pl_frame w0 -> witnessed w -> pl_generation plan ∉ pl_running w ->
  (forall op, op ∈ planned -> pl_frame w !! po_key op = None) -> staged w /\ filled [] w.
Proof.
  intros E Hh Hr Hn.
  assert (Ha : forall op, op ∈ planned -> po_key op ∉ present w) by (intros op Ho; apply not_elem_of_dom; auto).
  split.
  - split; [intros op Ho; rewrite <- E; auto|by rewrite E| |split; cbn; [|done]|done].
    + intros k v Hk. apply list_elem_of_fmap in Hk as (op & -> & Ho). by rewrite Hn.
    + intros (op & Ho & _ & Hin). by destruct (Ha op Ho).
  - intros k (op & -> & Ho)%list_elem_of_fmap. split; [by intros ?%Ha|]. by intros ?%not_elem_of_nil.
Qed.
Lemma inactive_spec g w : let '(err, w') := pe_AssertInactive g w in pl_same w w' /\ (err = None -> g ∉ pl_running w').
Proof. apply pl_AssertInactive. Qed.
Lemma fail_stage_spec ctx cause applied w t : pt_plan t = plan -> pt_closed t = false -> closed_inv t -> pt_stage t = None -> staged w ->
  recorded applied w -> keeps_inv (failStageLocked ctx cause applied) (mkPolicyWorld w t).
Proof.
  intros Hp Hc Hl Hn Hg Hr. unfold failStageLocked. unfold swp.
  pose proof (rollback_operations_spec ctx applied (mkPolicyWorld w t) Hp Hg Hr) as Hs. unfold swp in Hs.
  destruct (rollbackFakeTCPPolicyOperationsLocked ctx applied _) as [[[]|e] x'].
  - destruct Hs as ((G & _ & E) & F). split; rewrite E; cbn; [done|done|]. rewrite Hn. split; [done|]. apply G.
  - destruct Hs as (G & R & E). cbn in E. rewrite E. split; [done|by apply closed_stage|by split].
Qed.
Lemma stage_step ctx c x : policy_inv x -> keeps_inv (stageForRuntimeClaim ctx c) x.
Proof.
  intros Hi. unfold stageForRuntimeClaim. apply swp_bind, swp_wrap, swp_last, access_then; [done|].
  intros x1 I1 C1 _. cbn. apply swp_bind. unfold swp at 1, get_txn. apply swp_reject; [|done]. intros En.
  apply bool_decide_eq_false in En. destruct (pt_stage (pw_txn x1)) eqn:Es; [by destruct En|].
  apply swp_bind, swp_wrap. unfold swp at 1, in_env, scall. rewrite (pi_plan _ I1).
  pose proof (inactive_spec (pl_generation plan) (pw_env x1)) as Ha. destruct (pe_AssertInactive _ _) as [err w2].
  destruct Ha as [S2 N2]. assert (I2 : policy_inv (mkPolicyWorld w2 (pw_txn x1))) by by apply (inv_same x1).
  destruct err as [e|]; [done|]. specialize (N2 eq_refl). fold planned.
  apply swp_bind. unfold swp at 1, in_env. cbn. destruct (preflight_spec planned) as [Hq Hs]. specialize (Hq w2). specialize (Hs w2).
  destruct (preflight_entries planned w2) as [[[]|e] w3]; cbn in Hq; [|by apply (inv_same (mkPolicyWorld w2 (pw_txn x1)))].
  specialize (Hs w3 eq_refl). destruct (stage_inv_same None _ _ (same_trans _ _ _ S2 Hq)) as [F3 H3].
  { pose proof (pi_stage _ I1) as Hp. by rewrite Es in Hp. }
  destruct (fresh_staged w3 F3 H3) as [G3 L3]; [by destruct Hq as (_ & -> & _)|by intros; rewrite (proj1 Hq); auto|].
  unfold swp. pose proof (insert_entries_spec planned [] w3 eq_refl G3 L3) as Hins. cbn.
  destruct (insert_entries [] planned w3) as [[err applied] w4]. destruct Hins as (G4 & L4 & (more & Em) & E4); [by destruct Hq as (_ & -> & _)|].
  destruct err as [e|].
  - apply fail_stage_spec; [apply I1|done|apply I1|done|done|]. split; [intros op Ho; rewrite <- Em, elem_of_app; by left|].
    intros k Hk. by apply L4.
  - rewrite (E4 eq_refl) in *. split; [apply I1|by apply closed_stage, I1|]. split; [done|]. split; [done|].
    intros op Ho. apply L4; by apply key_of.
Qed.

(** *** The other operations *)

Lemma rollback_step ctx c e x : policy_inv x ->
  swp (rollbackForRuntimeClaim ctx c e)
    (fun _ x' => policy_inv x' /\ (stage_live (pt_stage (pw_txn x)) = true -> pl_frame (pw_env x') = pl_frame w0)) policy_inv x.
Proof.
  intros Hi. assert (Hs : forall s x', policy_inv x' -> pt_closed (pw_txn x') = false -> pt_stage (pw_txn x') = Some s ->
    stage_live (Some s) = true -> swp (must! put_stage (mkStage (ps_operations s) fakeTCPPolicyStageRollbackPending (ps_collectionOwner s)) in
      must! rollbackFakeTCPPolicyOperationsLocked ctx (ps_operations s) in
      put_stage (mkStage [] fakeTCPPolicyStageRolledBack (ps_collectionOwner s)))
      (fun _ x' => policy_inv x' /\ pl_frame (pw_env x') = pl_frame w0) policy_inv x').
  { intros s x1 I1 C1 S1 L1. pose proof (pi_stage _ I1) as Hst. rewrite S1 in Hst. destruct Hst as [G1 St1].
    assert (R1 : recorded (ps_operations s) (pw_env x1)).
    { cbn in L1. destruct (ps_state s); [|done|done|done]. destruct St1 as [-> Hc]. by split. }
    apply swp_bind. unfold swp at 1, put_stage, get_txn, sbind, put_txn. cbn -[swp rollbackFakeTCPPolicyOperationsLocked].
    apply swp_bind. eapply swp_mono; [apply rollback_operations_spec; [apply I1|done|done]| |].
    - intros [] x2 ((G2 & _ & E2) & F2). unfold swp. split; [|done]. cbn in E2. split; cbn [put_stage sbind get_txn put_txn snd pw_txn]; rewrite E2; [apply I1| |done].
      by do 2 (apply closed_stage; [done|]); apply I1.
    - intros x2 (G2 & R2 & E2). split; rewrite E2; [apply I1|by apply closed_stage, I1|done]. }
  apply (stage_then _ _ _ ""); [done|]. intros s x1 I1 C1 S1 Et. rewrite <- Et, S1. specialize (Hs s x1 I1 C1 S1).
  unfold stage_live in *. destruct (ps_state s); [| |done|done].
  all: eapply swp_mono; [by apply Hs|intros _ x2 [? ?]; by split|done].
Qed.
Lemma activate_step ctx c e x : policy_inv x -> keeps_inv (claim_Activate ctx c e) x.
Proof.
  intros Hi. apply stage_then; [done|]. intros s x1 I1 C1 S1 _. destruct (ps_state s) eqn:Es; [|done|done|done].
  apply swp_bind. unfold swp at 1, get_txn. apply swp_wrap. unfold swp, in_env, scall. rewrite (pi_plan _ I1).
  pose proof (pl_Activate (pl_generation plan) (pw_env x1)) as Ha. destruct (pe_Activate _ _) as [err w'].
  destruct I1 as [Hp Hc Hst]. rewrite S1 in Hst. unfold stage_inv in Hst. rewrite Es in Hst.
  destruct Hst as ([Ab Hrest Hv Hf Hh] & Eo & Hcm). destruct Ha as [E Hr].
  assert (P : present w' = present (pw_env x1)) by (unfold present; by rewrite E).
  assert (Hsafe : safe_event (present w', pl_running w')) by (rewrite P; split; cbn; [apply Hf|done]).
  assert (Hi' : policy_inv (mkPolicyWorld w' (pw_txn x1))); [|by destruct err].
  split; cbn; [done|done|]. rewrite S1. unfold stage_inv. rewrite Es, P. split; [|done].
  split; [done|intros; rewrite E; auto|intros ??; rewrite E; auto|done|].
  destruct Hr as [[_ Eh]|[_ Eh]]; [|by eapply witnessed_cons]. destruct Hh as (new & ? & ?). exists new. by rewrite Eh.
Qed.
Lemma disarm_step ctx c e x : policy_inv x -> keeps_inv (disarmForRuntimeClaim ctx c e) x.
Proof.
  intros Hi. apply (stage_then _ _ _ ""); [done|]. intros s x1 I1 C1 S1 _. destruct (ps_state s) eqn:Es; [|done|done|done].
  by apply (put_stage_inv s).
Qed.
Lemma bind_step ctx c e o x : policy_inv x -> keeps_inv (bindStageCollectionOwnerForRuntimeClaim ctx c e o) x.
Proof.
  intros Hi. destruct o as [o|]; [|done]. apply (stage_then _ _ _ ""); [done|]. intros s x1 I1 C1 S1 _.
  destruct (_ && _); [done|]. by apply (put_stage_inv s).
Qed.
Lemma release_step ctx c e p x : policy_inv x -> keeps_inv (releaseStageAfterCollectionCloseForRuntimeClaim ctx c e p) x.
Proof.
  intros Hi. destruct p as [[o closed]|]; [|done]. cbn. destruct (negb closed); [done|]. apply (stage_then _ _ _ ""); [done|].
  intros s x1 I1 C1 S1 _. destruct (negb _); [done|]. by apply (put_stage_inv s).
Qed.
Lemma claim_step ctx x : policy_inv x -> keeps_inv (claimRuntimeBuild ctx) x.
Proof.
  intros Hi. unfold claimRuntimeBuild. apply swp_bind, swp_wrap. eapply swp_mono; [by apply still_inv; [apply still_assertHeldLocked|]| |done].
  intros [] x1 I1. apply swp_bind. unfold swp at 1, get_txn. destruct (bool_decide _); [done|]. destruct (pt_claimed _); [done|].
  destruct I1. by split.
Qed.
Lemma still_close_lease : still close_lease.
Proof. apply still_in_env, hushed_call, pl_closeLease. Qed.
Lemma close_step c x : policy_inv x -> keeps_inv (closeForRuntimeClaim c) x.
Proof.
  intros Hi. unfold closeForRuntimeClaim. apply swp_bind. unfold swp at 1, get_txn. destruct (pt_closed (pw_txn x)); [done|].
  apply swp_bind. apply (swp_mono _ (fun _ x' => x' = x) _ policy_inv); [by destruct c; cbn; try destruct (pt_claimed _)| |done].
  intros [] x' ->. apply swp_reject; [|done]. intros Hl. apply swp_bind. unfold swp at 1, put_txn.
  assert (Hi' : policy_inv (mkPolicyWorld (pw_env x) (set_closed (pw_txn x)))) by (destruct Hi; by split).
  destruct (pt_lease (pw_txn x)); [|done]. by apply still_inv; [apply still_close_lease|].
Qed.
Lemma still_lookup_program s : still (lookup_program s).
Proof. apply still_in_env, hushed_ask. intros w. apply pl_LookupProgram. Qed.
Lemma still_after {A} (m : SM (policy_world W) A) x : still m -> policy_inv x -> policy_inv (m x).2.
Proof. intros Hm Hi. destruct (Hm x). by eapply inv_same. Qed.
Lemma stage_program_step ctx c p x : policy_inv x -> policy_inv (stageFakeTCPEgressProgram ctx c p x).2.
Proof.
  intros Hi. unfold stageFakeTCPEgressProgram, assertHeld.
  pose proof (still_after _ x (still_assertAccessLocked ctx c) Hi) as I1.
  destruct (assertAccessLocked ctx c x) as [[[]|e] x1]; [|done]. cbn in I1. destruct p as [id|e]; [|done]. destruct (id =? 0); [done|]. cbv zeta.
  set (s := Z.land _ 1). pose proof (still_after _ _ (still_lookup_program s) I1) as I2.
  destruct (lookup_program s x1) as [[[actual|[]]|e] x2]; [by destruct (negb _)|done| |done|done]. cbn in I2.
  pose proof (pl_InsertProgram s id (pw_env x2)) as Hs. destruct (pe_InsertProgram s id (pw_env x2)) as [err w3].
  assert (I3 : policy_inv (mkPolicyWorld w3 (pw_txn x2))) by by apply (inv_same x2).
  destruct err; [done|]. pose proof (still_after _ _ (still_assertAccessLocked ctx c) I3) as I4.
  destruct (assertAccessLocked ctx c _) as [[[]|e] x4]; [|done]. cbn in I4. pose proof (still_after _ _ (still_lookup_program s) I4) as I5.
  by destruct (lookup_program s x4) as [[[actual2|e]|e] x5]; [destruct (negb _)| |].
Qed.
Lemma still_rollback_program ctx c s : still (program_Rollback ctx c s).
Proof.
  unfold program_Rollback. destruct (pg_state s); [|apply still_ret|apply still_ret].
  apply still_bind; [apply still_wrap, still_assertAccessLocked|intros _]. destruct (negb _); [apply still_ret|].
  apply still_bind; [apply still_lookup_program|]. intros [a|[]]; [|apply still_fail|apply still_ret|apply still_fail].
  apply still_reject, still_bind; [apply still_in_env, hushed_ask; intros w; apply pl_DeleteProgram|].
  assert (Hc : still (sbind (lookup_program (pg_slot s)) (fun r => match r with
    | inr (ErrKeyNotExist _) => sret (rolled_back false s)
    | inr e => sfail ("rollback FakeTCP egress program bank confirm absent: " +:+ map_error_message e)
    | inl _ => sfail "rollback FakeTCP egress program bank failed: program ID remains"
    end))).
  { apply still_bind; [apply still_lookup_program|]. intros [b|[]]; try apply still_fail. apply still_ret. }
  intros [[]|]; [apply still_fail|exact Hc|apply still_fail|exact Hc].
Qed.
Lemma commit_step ctx c e p x : policy_inv x -> policy_inv (commitRuntimeBuild ctx c e p x).2.
Proof.
  intros Hi. unfold commitRuntimeBuild. pose proof (still_after _ x (still_assertAccessLocked ctx c) Hi) as I1.
  destruct (assertAccessLocked ctx c x) as [[[]|er] x1]; [|done]. cbn in I1. cbv zeta.
  destruct (pt_stage (pw_txn x1)) as [s|] eqn:Es; [|done]. destruct (negb e); [done|]. destruct (ps_state s); [|done|done|done].
  destruct (ps_collectionOwner s); [|done]. destruct p as [p|]; [|done]. destruct (pg_state p); [|done|done].
  set (y := mkPolicyWorld _ _). assert (I2 : policy_inv y).
  { destruct I1 as [? _ Hst]. rewrite Es in Hst. split; cbn; [done|done|]. split; [apply Hst|done]. }
  pose proof (still_after _ y still_close_lease I2) as I3. by destruct (close_lease y) as [[[]|er] x3].
Qed.

Lemma swp_after {A} (m : SM (policy_world W) A) x : keeps_inv m x -> policy_inv (m x).2.
Proof. unfold swp. by destruct (m x) as [[a|e] x']. Qed.
Lemma policy_step_inv x op : policy_inv x -> policy_inv (policy_step x op).
Proof.
  intros Hi. destruct op; cbn -[program_Rollback].
  - by apply swp_after, claim_step.
  - by apply swp_after, stage_step.
  - by apply swp_after, activate_step.
  - apply swp_after. eapply swp_mono; [by apply rollback_step|by intros _ ? [? _]|done].
  - by apply swp_after, disarm_step.
  - by apply swp_after, bind_step.
  - by apply swp_after, release_step.
  - by apply stage_program_step.
  - by apply still_after; [apply still_rollback_program|].
  - by apply commit_step.
  - by apply swp_after, close_step.
Qed.
Lemma policy_run_inv ops x : policy_inv x -> policy_inv (policy_run ops x).
Proof. revert x. induction ops as [|op ops IH]; intros x Hi; [done|]. apply IH. by apply policy_step_inv. Qed.
End staging.

(** ** Rollbacks that complete *)

(** The calls of a rollback at [path] answer. *)
Class Answering (W : Type) `{PolicyEnv W} (path : string) := {
  an_ctxErr w : (pe_ctxErr w).1 = None;
  an_HeldAt w : (pe_HeldAt path w).1 = true;
  an_Quiesce g w : (pe_Quiesce g w).1 = None;
  an_Lookup k w : match (pe_Lookup k w).1 with inl _ | inr (ErrKeyNotExist _) => True | _ => False end;
  an_Delete k w : match (pe_Delete k w).1 with None | Some (ErrKeyNotExist _) => True | _ => False end
}.

Section completes.
Context {W : Type} `{Hpe : PolicyEnv W} `{Hpl : !PolicyLaws W} {path : string} `{Han : !Answering W path}.
Variables (plan : fakeTCPPolicyGenerationPlan) (w0 : W).
Hypothesis Hgen : pl_generation plan <> 0.
Hypothesis Hkeys : NoDup (keys (planned plan)).
Implicit Types (w : W) (x : policy_world W).

Lemma planned_values op : op ∈ planned plan -> po_phase op <> fakeTCPPolicyPhaseControl -> forall c, po_value op <> PVControl c.
Proof.
  rewrite planned_split. unfold under_latches, latches. rewrite !elem_of_app.
  by intros [[(e & -> & _)%list_elem_of_fmap|(e & -> & _)%list_elem_of_fmap]|(e & -> & _)%list_elem_of_fmap].
Qed.
Lemma planned_inj op op' : op ∈ planned plan -> op' ∈ planned plan -> po_key op = po_key op' -> op = op'.
Proof.
  intros (i & Hi)%list_elem_of_lookup (j & Hj)%list_elem_of_lookup E.
  assert (i = j) as ->; [|congruence]. eapply (NoDup_lookup _ i j); [exact Hkeys| |].
  - by rewrite list_lookup_fmap, Hi.
  - by rewrite list_lookup_fmap, Hj, E.
Qed.
Lemma staged_value w op v : staged plan w0 w -> op ∈ planned plan -> pl_frame w !! po_key op = Some v -> v = erase (po_value op).
Proof.
  intros Hg Ho Hv. destruct (sg_values _ _ _ Hg _ _ (key_of plan op Ho) Hv) as (op' & Ho' & E & ->).
  by rewrite (planned_inj op' op).
Qed.
Lemma rollback_entry_completes op w : staged plan w0 w -> removable plan op w ->
  exists w', rollback_entry (mode_of (po_phase op)) op w = (inl tt, w').
Proof.
  intros Hg Hm. unfold rollback_entry, sbind. destruct (lookup_spec (po_key op) w) as (r & w1 & El & Hs & Hr).
  pose proof (an_Lookup (po_key op) w) as Ha. unfold lookup_entry in *. destruct (pe_Lookup (po_key op) w) as [r' w1'].
  injection El as -> ->. cbn in Ha. destruct r as [v|[]]; [|done|by eexists|done].
  pose proof (staged_value _ _ _ Hg (proj1 Hm) Hr) as Ev. destruct (erase_matches v (po_value op) Ev) as [Hq He].
  replace (rollback_matches _ v (po_value op)) with true; cbn.
  2: { symmetry. destruct (po_phase op) eqn:Ep; cbn; [done| |]; apply He, planned_values; [apply Hm|by rewrite Ep|apply Hm|by rewrite Ep]. }
  pose proof (an_Delete (po_key op) w1) as Hd. pose proof (pl_Delete (po_key op) w1) as Hl.
  destruct (pe_Delete (po_key op) w1) as [[[]|] w2]; [done|by eexists|done|]. destruct Hl as (E2 & _ & _).
  pose proof (an_Lookup (po_key op) w2) as Ha2. pose proof (pl_Lookup (po_key op) w2) as Hl2.
  destruct (pe_Lookup (po_key op) w2) as [[v2|[]] w3]; [|done|by eexists|done]. destruct Hl2 as [_ Hl2].
  by rewrite E2, lookup_delete_eq in Hl2.
Qed.
Lemma rollback_entries_completes phase ops : forall w, staged plan w0 w ->
  Forall (fun op => removable plan op w /\ po_phase op = phase) ops -> (rollback_entries (mode_of phase) ops w).1 = [].
Proof.
  induction ops as [|op ops IH]; intros w Hg Ha; [done|]. apply Forall_cons_1 in Ha as [[Ho Ep] Ha]. cbn.
  pose proof (rollback_entry_spec plan w0 (mode_of phase) op w Hg Ho) as Hs.
  destruct (rollback_entry_completes op w Hg Ho) as (w1 & E). rewrite Ep in E. rewrite E in *. destruct Hs as [F _].
  specialize (IH w1 (proj1 F)). destruct (rollback_entries (mode_of phase) ops w1) as [errs w2]. apply IH.
  eapply Forall_impl; [|exact Ha]. intros o [Hr ?]. split; [by eapply removable_fewer|done].
Qed.
Lemma rollback_phase_completes applied phase w : staged plan w0 w ->
  (forall op, op ∈ applied -> po_phase op = phase -> removable plan op w) ->
  (rollbackFakeTCPPolicyPhase applied phase (mode_of phase) w).1 = inl tt.
Proof.
  intros Hg Ha. unfold rollbackFakeTCPPolicyPhase.
  pose proof (rollback_entries_completes phase (filter (fun op => po_phase op = phase) (rev applied)) w Hg) as Hc.
  destruct (rollback_entries _ _ w) as [errs w']. cbn in Hc. rewrite Hc; [done|].
  apply Forall_forall. intros op [E Ho]%list_elem_of_In%list_elem_of_filter. split; [|done]. apply Ha; [|done]. by apply (elem_of_rev op).
Qed.
Definition open_at (t : policyTransaction) : Prop :=
  pt_plan t = plan /\ pt_lifecyclePath t = path /\ pt_closed t = false /\ pt_lease t = true.
Lemma held_completes x : open_at (pw_txn x) -> exists x', assertHeldLocked (Some path) x = (inl tt, x') /\
  pl_same (pw_env x) (pw_env x') /\ pw_txn x' = pw_txn x.
Proof.
  intros (Ep & El & Ec & Eh). destruct (assertHeldLocked (Some path) x) as [r x'] eqn:E.
  destruct (still_run _ _ _ _ (still_assertHeldLocked (Some path)) E) as [Hs Et]. exists x'. split; [|done].
  f_equal. unfold assertHeldLocked, sbind, in_env, scall in E. pose proof (an_ctxErr (pw_env x)) as Hc.
  destruct (pe_ctxErr (pw_env x)) as [err w1]. cbn in Hc. subst err. unfold get_txn in E. cbn in E.
  rewrite El, String.eqb_refl, Ec, Eh in E. cbn in E. pose proof (an_HeldAt (path := path) w1) as Hh.
  destruct (pe_HeldAt path w1) as [b w2]. cbn in Hh. subst b. cbn in E. rewrite Ep in E.
  destruct (Z.eqb_spec (pl_generation plan) 0); [done|]. by injection E as <- _.
Qed.
Lemma rollback_completes c x s : policy_inv plan w0 x -> pt_lifecyclePath (pw_txn x) = path ->
  pt_closed (pw_txn x) = false -> pt_stage (pw_txn x) = Some s -> stage_live (Some s) = true ->
  c = (if pt_claimed (pw_txn x) then OwnClaim else NoClaim) ->
  exists x', rollbackForRuntimeClaim (Some path) c true x = (inl tt, x').
Proof.
  intros Hi El Ec Es Hlive ->. pose proof (pi_closed _ _ _ Hi) as Hl. unfold closed_inv in Hl. rewrite Ec in Hl.
  assert (Ho : open_at (pw_txn x)) by by split_and!; [apply Hi| | |].
  destruct (held_completes x Ho) as (x1 & Eh & S1 & T1).
  assert (Ea : assertStageLocked (Some path) (if pt_claimed (pw_txn x) then OwnClaim else NoClaim) true x = (inl s, x1)).
  { unfold assertStageLocked, assertAccessLocked, sbind, get_txn. rewrite Eh, T1.
    destruct (pt_claimed (pw_txn x)); cbn; by rewrite T1, Es. }
  unfold rollbackForRuntimeClaim, sbind. rewrite Ea. pose proof (pi_stage _ _ _ Hi) as Hst. rewrite Es in Hst.
  assert (HR : staged plan w0 (pw_env x1) /\ recorded plan (ps_operations s) (pw_env x1)).
  { destruct Hst as [G St]. split; [by eapply staged_same|]. apply (recorded_same _ _ (pw_env x)); [done|].
    cbn in Hlive. destruct (ps_state s); [|done|done|done]. destruct St as [-> ?]. by split. }
  set (y := mkPolicyWorld (pw_env x1) (set_stage (Some (mkStage (ps_operations s) fakeTCPPolicyStageRollbackPending (ps_collectionOwner s))) (pw_txn x1))).
  assert (Hrun : exists z, rollbackFakeTCPPolicyOperationsLocked (Some path) (ps_operations s) y = (inl tt, z)).
  { pose proof (rollback_operations_run plan w0 False (Some path) (ps_operations s) y) as Hw. unfold swp in Hw.
    destruct (rollbackFakeTCPPolicyOperationsLocked _ _ y) as [[[]|e] z]; [by eexists|].
    destruct Hw as [_ []]; [cbn; rewrite T1; apply Hi|apply HR|apply HR| | |].
    - intros y' Ey. destruct (held_completes y') as (y2 & -> & _); [|done]. rewrite Ey. unfold open_at. cbn. by rewrite T1.
    - intros w. by rewrite an_Quiesce.
    - intros phase w Hg Hm. by rewrite rollback_phase_completes. }
  destruct Hrun as (z & Ez). subst y. unfold put_stage, sbind, get_txn, put_txn.
  cbn -[rollbackFakeTCPPolicyOperationsLocked] in *. destruct (ps_state s); try done; rewrite Ez; by eexists.
Qed.
End completes.

Section theorem.
Context {W : Type} `{Hpe : PolicyEnv W} `{Hpl : !PolicyLaws W}.

Lemma new_transaction_spec ctx plan lease (w w1 : W) t :
  newFakeTCPPolicyGenerationTransaction ctx plan lease w = (inl t, w1) ->
  pl_same w w1 /\ validateFakeTCPPolicyGenerationPlan plan = Ret tt /\
  exists path, t = mkTransaction plan path true None false false.
Proof.
  destruct ctx as [path|]; [|done]. unfold newFakeTCPPolicyGenerationTransaction, sbind, scall. intros Hn.
  pose proof (pl_ctxErr w) as S1. destruct (pe_ctxErr w) as [[e|] w2]; [done|].
  destruct (validateFakeTCPPolicyGenerationPlan plan) as [[]| |]; [|done|done]. destruct (negb lease); [done|].
  pose proof (pl_CallerHeldAt path w2) as S2. destruct (pe_CallerHeldAt path w2) as [b w3]. destruct (negb b); [done|].
  pose proof (pl_Retain w3) as S3. destruct (pe_Retain w3) as [[e|] w4]; [done|].
  pose proof (pl_HeldAt path w4) as S4. destruct (pe_HeldAt path w4) as [b' w5].
  destruct b'; [|by destruct (pe_closeLease w5)]. injection Hn as <- <-. cbn in *.
  split; [eauto using same_trans|]. split; [done|by eexists].
Qed.
Lemma fresh_transaction_inv plan (w0 w1 : W) path : pl_same w0 w1 ->
  policy_inv plan w0 (mkPolicyWorld w1 (mkTransaction plan path true None false false)).
Proof.
  intros (E1 & _ & E3). split; [done|done|]. cbn. split; [done|]. exists []. rewrite E3. by split.
Qed.
Lemma keys_nodup {K V} `{Countable K} (m : gmap K V) (R : relation (K * V)) `{!RelDecision R} (f : K -> policy_key) (op : K * V -> fakeTCPPolicyOperation) :
  Inj (=) (=) f -> (forall e, po_key (op e) = f e.1) -> NoDup (keys (map op (merge_sort R (map_to_list m)))).
Proof.
  intros Hf Hop. assert (E : keys (map op (merge_sort R (map_to_list m))) = f <$> (merge_sort R (map_to_list m)).*1).
  { rewrite map_map, <- list_fmap_compose. by apply list_fmap_ext. }
  rewrite E. apply (NoDup_fmap_2 f). rewrite (merge_sort_Permutation R (map_to_list m)). apply NoDup_fst_map_to_list.
Qed.
Lemma valid_plan plan : validateFakeTCPPolicyGenerationPlan plan = Ret tt ->
  NoDup (keys (planned plan)) /\ pl_generation plan <> 0.
Proof.
  intros (Hv & E)%plan_canonical. split.
  - rewrite E. generalize (plan_snapshot plan). clear. intros s. unfold planned, fakeTCPPolicyOperations.
    cbn [freezeFakeTCPPolicyGenerationPlan pl_controlPolicies pl_managedPorts pl_managedInterfaces].
    rewrite !map_app. apply list.NoDup_app. split; [|split; [|apply list.NoDup_app; split; [|split]]].
    + apply (keys_nodup _ _ (fun k => PKControl k.1 k.2)); [|done]. intros [] []. cbn. congruence.
    + intros k. rewrite elem_of_app. intros (o & -> & (e & -> & _)%list_elem_of_fmap)%list_elem_of_fmap.
      by intros [(o2 & E2 & (e2 & -> & _)%list_elem_of_fmap)%list_elem_of_fmap|(o2 & E2 & (e2 & -> & _)%list_elem_of_fmap)%list_elem_of_fmap].
    + apply (keys_nodup _ _ (fun k => PKPort k.1.1 k.1.2 k.2)); [|done]. intros [[] ?] [[] ?]. cbn. congruence.
    + intros k (o & -> & (e & -> & _)%list_elem_of_fmap)%list_elem_of_fmap.
      by intros (o2 & E2 & (e2 & -> & _)%list_elem_of_fmap)%list_elem_of_fmap.
    + apply (keys_nodup _ _ (fun k => PKInterface k.1 k.2)); [|done]. intros [] []. cbn. congruence.
  - unfold validateFakeTCPPolicySnapshot in Hv. cbn [fs_Generation plan_snapshot] in Hv.
    by destruct (Z.eqb_spec (pl_generation plan) 0).
Qed.

(** C28: a policy is published whole and can be taken back.  Start a transaction
    on a plan and let its clients claim, stage, activate, roll back, disarm, bind,
    release, commit and close in any order, with any handles and contexts, while
    any call fails.  After every change of the maps and of the barrier, an
    interface marker is present only with all the ports and control policies, and
    packets are admitted to the generation only while every entry is present.  The
    entries of other generations are untouched but for the cursors that the packet
    programs move, and so are all entries as long as there is no stage; an active
    stage has every entry with its value; a transaction never closes with a stage
    that may need a rollback.  A successful rollback of a live stage restores the
    maps, and if the calls answer, the rollback by its holder is successful. *)
Theorem policy_publication ctx plan lease (w w1 : W) t ops :
  newFakeTCPPolicyGenerationTransaction ctx plan lease w = (inl t, w1) ->
  let x := policy_run ops (mkPolicyWorld w1 t) in
  let entries := fakeTCPPolicyOperations plan in
  (exists new, pl_history (pw_env x) = new ++ pl_history w /\
     forall d running, (d, running) ∈ new -> latched entries d /\ (pl_generation plan ∈ running -> complete entries d)) /\
  (forall k, k ∉ keys entries -> pl_frame (pw_env x) !! k = pl_frame w !! k) /\
  match pt_stage (pw_txn x) with
  | None => pl_frame (pw_env x) = pl_frame w
  | Some s => ps_state s = fakeTCPPolicyStageActive ->
      forall op, op ∈ entries -> pl_frame (pw_env x) !! po_key op = Some (erase (po_value op))
  end /\
  (pt_closed (pw_txn x) = true -> stage_live (pt_stage (pw_txn x)) = false) /\
  (stage_live (pt_stage (pw_txn x)) = true ->
     (forall ctx c e x', rollbackForRuntimeClaim ctx c e x = (inl tt, x') -> pl_frame (pw_env x') = pl_frame w) /\
     (Answering W (pt_lifecyclePath (pw_txn x)) ->
      exists x', rollbackForRuntimeClaim (Some (pt_lifecyclePath (pw_txn x)))
                   (if pt_claimed (pw_txn x) then OwnClaim else NoClaim) true x = (inl tt, x'))).
Proof.
  intros (Hs & Hv & path & ->)%new_transaction_spec x entries.
  assert (Hi : policy_inv plan w x) by by apply policy_run_inv, fresh_transaction_inv. destruct (valid_plan plan Hv) as [Hnd Hgen].
  pose proof (pi_stage _ _ _ Hi) as Hst. pose proof (pi_closed _ _ _ Hi) as Hcl. split_and!.
  - assert (Hh : witnessed plan w (pw_env x)) by (destruct (pt_stage (pw_txn x)); [apply Hst|apply Hst]).
    destruct Hh as (new & E & Hf). exists new. split; [done|]. intros d r Hin. rewrite Forall_forall in Hf.
    by apply (Hf (d, r)), list_elem_of_In.
  - intros k Hk. destruct (pt_stage (pw_txn x)); [by apply Hst|]. destruct Hst as [-> _]. done.
  - destruct (pt_stage (pw_txn x)) as [s|]; [|apply Hst]. intros Ea op Ho. destruct Hst as [Hg Hc]. rewrite Ea in Hc.
    destruct Hc as [_ Hc]. specialize (Hc op Ho). unfold present in Hc. apply elem_of_dom in Hc as [v Hop]. rewrite Hop. f_equal.
    by eapply staged_value.
  - intros Ec. unfold closed_inv in Hcl. rewrite Ec in Hcl. apply Hcl.
  - intros Hlive. split.
    + intros ctx' c e x' Er. pose proof (rollback_step plan w ctx' c e x Hi) as Hr. unfold swp in Hr. rewrite Er in Hr. by apply Hr.
    + intros Ha. unfold closed_inv in Hcl. destruct (pt_closed (pw_txn x)) eqn:Ec; [destruct Hcl; congruence|].
      destruct (pt_stage (pw_txn x)) as [s|] eqn:Es; [|done]. by eapply rollback_completes.
Qed.
End theorem.

(** ** A kernel *)

(** Maps and a barrier without failures; the cursor of a control policy moves
    whenever it is read. *)
Record toy_kernel := mkToy { tk_map : gmap policy_key policy_value; tk_running : gset Z; tk_history : published }.
Definition tick (v : policy_value) : policy_value :=
  match v with
  | PVControl c => PVControl (mkPolicy (cpv_Generation c) (cpv_VirtualTimeNanos c + 5) (cpv_IntervalNanos c)
                                (cpv_Burst c) (cpv_Reserved c))
  | _ => v
  end.
Definition toy_log (m : gmap policy_key policy_value) (r : gset Z) (w : toy_kernel) : toy_kernel :=
  mkToy m r ((dom (erase <$> m), r) :: tk_history w).
Definition absent_key : map_error := ErrKeyNotExist "key does not exist".
#[export] Instance toy_env : PolicyEnv toy_kernel := {
  pe_Lookup k w := match tk_map w !! k with
    | Some v => (inl v, mkToy (if bool_decide (tk_running w = ∅) then tk_map w else tick <$> tk_map w) (tk_running w) (tk_history w))
    | None => (inr absent_key, w) end;
  pe_InsertNew k v w := match tk_map w !! k with
    | Some _ => (Some (OtherMapError "key exists"), w)
    | None => (None, toy_log (<[k := v]> (tk_map w)) (tk_running w) w) end;
  pe_Delete k w := match tk_map w !! k with
    | Some _ => (None, toy_log (delete k (tk_map w)) (tk_running w) w)
    | None => (Some absent_key, w) end;
  pe_LookupProgram _ w := (inr absent_key, w);
  pe_InsertProgram _ _ w := (None, w);
  pe_DeleteProgram _ w := (None, w);
  pe_ctxErr w := (None, w);
  pe_CallerHeldAt _ w := (true, w);
  pe_Retain w := (None, w);
  pe_HeldAt _ w := (true, w);
  pe_closeLease w := (None, w);
  pe_AssertInactive g w := (if bool_decide (g ∈ tk_running w) then Some "active" else None, w);
  pe_Activate g w := (None, toy_log (tk_map w) ({[ g ]} ∪ tk_running w) w);
  pe_Quiesce g w := (None, toy_log (tk_map w) (tk_running w ∖ {[ g ]}) w)
}.
Lemma erase_tick (m : gmap policy_key policy_value) : erase <$> (tick <$> m) = erase <$> m.
Proof. rewrite <- map_fmap_compose. apply map_fmap_ext. by intros k [] _. Qed.
#[export, refine] Instance toy_laws : PolicyLaws toy_kernel :=
  {| pl_map := tk_map; pl_running := tk_running; pl_history := tk_history |}.
Proof.
  all: try (intros; cbn; by repeat split).
  - intros k w. cbn. rewrite lookup_fmap. destruct (tk_map w !! k) as [v|] eqn:E; cbn.
    + split; [|done]. destruct (bool_decide _); cbn; [done|]. by rewrite erase_tick.
    + by repeat split.
  - intros k v w. cbn. rewrite lookup_fmap. destruct (tk_map w !! k) as [u|] eqn:E; cbn; [by repeat split|].
    by rewrite fmap_insert.
  - intros k w. cbn. rewrite lookup_fmap. destruct (tk_map w !! k) as [u|] eqn:E; cbn; [|by repeat split].
    by rewrite fmap_delete.
  - intros g w. cbn. split; [by repeat split|]. by destruct (bool_decide_reflect (g ∈ tk_running w)).
  - intros g w. cbn. split; [done|]. by right.
  - intros g w. cbn. split; [done|]. split; [by right|]. intros _. set_solver.
Defined.
#[export] Instance toy_answering path : Answering toy_kernel path.
Proof.
  split; try done; intros k w; cbn; by destruct (tk_map w !! k).
Qed.

(** A generation is staged and opened, its cursor moves, and it is rolled back. *)
Definition toy_start : toy_kernel := mkToy {[ PKInterface 2 9 := PVInterface (mkIf 2) ]} ∅ [].
Definition toy_plan : fakeTCPPolicyGenerationPlan := freezeFakeTCPPolicyGenerationPlan sample_policy.
Definition toy_transaction : policyTransaction := mkTransaction toy_plan "/run/lease" true None false false.
Definition toy_ops : list policy_op := [OpClaim (Some "/run/lease"); OpStage (Some "/run/lease") OwnClaim;
  OpActivate (Some "/run/lease") OwnClaim true].
Lemma policy_publication_witness :
  let x := policy_run toy_ops (mkPolicyWorld toy_start toy_transaction) in
  length (tk_history (pw_env x)) = 4%nat /\ stage_live (pt_stage (pw_txn x)) = true /\ tk_running (pw_env x) = {[ 3 ]} /\
  exists x', rollbackForRuntimeClaim (Some "/run/lease") OwnClaim true x = (inl tt, x') /\
             pl_frame (pw_env x') = pl_frame toy_start.
Proof.
  intros x. assert (E : length (tk_history (pw_env x)) = 4%nat /\ stage_live (pt_stage (pw_txn x)) = true /\
    tk_running (pw_env x) = {[ 3 ]} /\ pt_lifecyclePath (pw_txn x) = "/run/lease" /\ pt_claimed (pw_txn x) = true).
  { split_and!; by vm_compute. }
  destruct E as (E1 & E2 & E3 & E4 & E5). subst x.
  pose proof (policy_publication (Some "/run/lease") toy_plan true toy_start toy_start toy_transaction toy_ops) as Ht.
  destruct Ht as (_ & _ & _ & _ & Ht); [by vm_compute|]. destruct (Ht E2) as [Hr Ha]. rewrite E4, E5 in Ha.
  split; [done|]. split; [done|]. split; [done|]. destruct Ha as [x' Ex]; [apply _|]. exists x'. split; [done|]. by eapply Hr.
Defined.
