(* ===== verification/DaemonRequest.v ===== *)
(** * The request protocol of the daemon (internal/daemon/request.go)

    Clients queue a request as a file under requests/; the daemon answers with a
    file of the same name under acks/ and then removes the request.  The
    directories are shared by processes: every call on them may meet changes made
    by others, and may fail. *)
From Stdlib Require Import ZArith Lia String Ascii.
From stdpp Require Import sorting base option list gmap strings numbers.
From S2P Require Import Prelude Control Token Guard ErrorState.

(** ** Data *)

Definition requestProtocolVersion : Z := 1.
Definition maxPendingRequestFiles : Z := 256.
Definition maxRetainedAckFiles : Z := 512.
Definition maxControlFileBytes : Z := Z.shiftl 1 20.
Definition ackErrorDaemonChanged : string := "daemon_instance_changed".

(** [dr_CreatedAt] in nanoseconds; 0 is the zero time. *)
Record daemonRequest := mkRequest {
  dr_Version : Z; dr_ID : string; dr_Kind : string; dr_ExpectedInstanceID : string; dr_ExpectedConfigPath : string;
  dr_CreatedAt : Z
}.

(** [dataplane.UnderlayKernelStatus] and [KernelStatus], as far as the daemon reads
    them. *)
Record UnderlayKernelStatus := mkUnderlayStatus {
  uk_IfIndex : Z; uk_IngressAttached : bool; uk_EgressAttached : bool; uk_Error : string
}.
Record KernelStatus := mkKernelStatus {
  ks_Mode : string; ks_ActiveGeneration : Z; ks_MapError : string; ks_Underlays : list UnderlayKernelStatus
}.
(** [reconcile.Observation]: its phase and error, and a name for the rest. *)
Record ReconcileObservation := mkObservation { ob_Phase : string; ob_Error : string; ob_Rest : Z }.
(** [reconcile.Result]. *)
Record Result := mkResult {
  rs_State : option State; rs_Dataplane : option KernelStatus; rs_DataplaneError : string;
  rs_Observation : option ReconcileObservation
}.
(** Times and the build information are left out. *)
Record Status := mkStatus {
  ds_PID : Z; ds_ConfigPath : string; ds_State : string; ds_LastReason : string; ds_LastError : string;
  ds_LastResult : option Result; ds_Current : option ReconcileObservation; ds_NeedReload : bool; ds_RequestProtocol : Z;
  ds_InstanceID : string; ds_LastRequestID : string; ds_LastRequestKind : string
}.
Record requestAck := mkAck {
  ra_Version : Z; ra_ID : string; ra_Kind : string; ra_Status : Status; ra_Error : string; ra_ErrorCode : string
}.
(** [name]: the file of the request. *)
Record pendingRequest := mkPending { pq_request : daemonRequest; pq_path : string }.

(** ** Validation *)

(** [hex.DecodeString] accepts it. *)
Definition hex_digit_char (c : ascii) : bool :=
  let n := Z.of_N (N_of_ascii c) in
  ((48 <=? n) && (n <=? 57)) || ((97 <=? n) && (n <=? 102)) || ((65 <=? n) && (n <=? 70)).
Definition validRequestID (id : string) : bool :=
  (Z.of_nat (String.length id) =? 32) && forallb hex_digit_char (list_ascii_of_string id).
Definition validateRequest (r : daemonRequest) : option error :=
  if negb (dr_Version r =? requestProtocolVersion) then Some "unsupported request protocol version"
  else if negb (validRequestID (dr_ID r)) then Some "invalid request id"
  else if negb (validRequestID (dr_ExpectedInstanceID r)) then Some "invalid expected daemon instance id"
  else if negb (String.eqb (dr_Kind r) "reload" || String.eqb (dr_Kind r) "stop") then Some "invalid request kind"
  else if dr_CreatedAt r =? 0 then Some "request creation time is required"
  else None.
Definition validateAckForRequest (ack : requestAck) (r : daemonRequest) : option error :=
  if negb (String.eqb (ra_Kind ack) (dr_Kind r)) then Some "ack kind does not match request kind"
  else if String.eqb (ra_ErrorCode ack) "" then
    if negb (String.eqb (ds_InstanceID (ra_Status ack)) (dr_ExpectedInstanceID r))
    then Some "ack daemon instance does not match request instance" else None
  else if String.eqb (ra_ErrorCode ack) ackErrorDaemonChanged then
    if String.eqb (ra_Error ack) "" then Some "daemon-instance-changed ack is missing an error"
    else if negb (validRequestID (ds_InstanceID (ra_Status ack)))
    then Some "daemon-instance-changed ack has invalid daemon instance"
    else if String.eqb (ds_InstanceID (ra_Status ack)) (dr_ExpectedInstanceID r)
    then Some "daemon-instance-changed ack was written by request instance" else None
  else Some "unsupported ack error code".

(** ** Control files *)

Inductive control_path :=
  | RunDir | RequestsDir | AcksDir
  | RequestFile (name : string) | AckFile (name : string) | RunFile (name : string)
  | TempFile (path : string).
#[export] Instance control_path_eq_dec : EqDecision control_path.
Proof. solve_decision. Defined.
(** What [errors.Is(err, os.ErrNotExist)] tells apart. *)
Inductive file_error := NotExist | FileError (e : error).
Definition file_error_message (e : file_error) : error :=
  match e with NotExist => "no such file or directory" | FileError e => e end.
(** An opened file: what [fstat] says of it (regular, links), and its bytes. *)
Record open_file := mkOpenFile { of_stat : (bool * Z) + error; of_read : list Z + error }.
Record dir_entry := mkEntry { en_Name : string; en_IsDir : bool }.

Class ControlFS (W : Type) := {
  cf_open : control_path -> W -> (open_file + file_error) * W;
  cf_readDir : control_path -> W -> (list dir_entry + file_error) * W;
  (** Whether it is a real directory. *)
  cf_lstat : control_path -> W -> (bool + file_error) * W;
  cf_stat : control_path -> W -> (unit + file_error) * W;
  cf_modTime : control_path -> W -> (Z + file_error) * W;
  cf_mkdirAll : control_path -> W -> option error * W;
  cf_chmod : control_path -> W -> option error * W;
  cf_createTemp : control_path -> W -> (control_path + error) * W;
  cf_write : control_path -> list Z -> W -> option error * W;
  cf_sync : control_path -> W -> option error * W;
  cf_close : control_path -> W -> option error * W;
  cf_rename : control_path -> control_path -> W -> option error * W;
  cf_remove : control_path -> W -> option file_error * W;
  cf_lock : control_path -> W -> option error * W;
  cf_unlock : control_path -> W -> W;
  cf_random : W -> (list Z + error) * W;
  cf_now : W -> Z * W
}.
(** [encoding/json] on the three kinds of control file. *)
Class ControlJSON := {
  cj_encodeRequest : daemonRequest -> list Z + error;
  cj_decodeRequest : list Z -> daemonRequest + error;
  cj_encodeAck : requestAck -> list Z + error;
  cj_decodeAck : list Z -> requestAck + error;
  cj_encodeStatus : Status -> list Z + error;
  cj_decodeStatus : list Z -> Status + error
}.

(** [strings.HasSuffix] and [strings.TrimSuffix]. *)
Definition HasSuffix (s suffix : string) : bool :=
  let n := String.length s in let m := String.length suffix in
  (m <=? n)%nat && String.eqb (String.substring (n - m) m s) suffix.
Definition TrimSuffix (s suffix : string) : string :=
  if HasSuffix s suffix then String.substring 0 (String.length s - String.length suffix) s else s.
Definition json_name (id : string) : string := id +:+ ".json".
Definition requestPath (id : string) : control_path := RequestFile (json_name id).
Definition ackPath (id : string) : control_path := AckFile (json_name id).
Definition is_json (e : dir_entry) : bool := negb (en_IsDir e) && HasSuffix (en_Name e) ".json".

Section files.
Context {W : Type} `{ControlFS W} `{ControlJSON}.

(** A call whose answer is used by the caller. *)
Definition sask {A} (f : W -> A * W) : SM W A := fun w => let '(a, w) := f w in (inl a, w).
Definition pure {A} (r : A + error) : SM W A := fun w => (r, w).
Definition file_call {A} (prefix : error) (f : W -> (A + file_error) * W) : SM W A := fun w =>
  let '(r, w) := f w in (match r with inl a => inl a | inr e => inr (prefix +:+ file_error_message e) end, w).

Definition ensure_dir (dir : control_path) : SM W unit :=
  must! swrap "create daemon directory: " (scall (cf_mkdirAll dir)) in
  try! real := file_call "inspect daemon directory: " (cf_lstat dir) in
  reject negb real with "daemon path is not a real directory" in
  swrap "secure daemon directory: " (scall (cf_chmod dir)).
Definition ensureRequestDirs : SM W unit :=
  must! ensure_dir RequestsDir in ensure_dir AcksDir.

Definition readOpenedRegularControlFile (f : open_file) : list Z + file_error :=
  match of_stat f with
  | inr e => inr (FileError e)
  | inl (regular, links) =>
      if negb regular then inr (FileError "control path is not a regular file")
      else if 1 <? links then inr (FileError "refuse control file with several links")
      else match of_read f with
           | inr e => inr (FileError e)
           | inl data => if maxControlFileBytes <? len data then inr (FileError "control file exceeds its bound")
                         else inl data
           end
  end.
Definition readRegularControlFile (path : control_path) (w : W) : (list Z + file_error) * W :=
  match cf_open path w with
  | (inr e, w) => (inr e, w)
  | (inl f, w) => (readOpenedRegularControlFile f, w)
  end.

(** The temporary file is removed on every path once it is created. *)
Definition write_temp (tmp : control_path) (data : list Z) (target : control_path) : SM W unit :=
  must! (fun w => match cf_chmod tmp w with
                  | (Some e, w) => (inr e, (cf_close tmp w).2)
                  | (None, w) => (inl tt, w) end) in
  must! (fun w => match cf_write tmp data w with
                  | (Some e, w) => (inr e, (cf_close tmp w).2)
                  | (None, w) => (inl tt, w) end) in
  must! (fun w => match cf_sync tmp w with
                  | (Some e, w) => (inr e, (cf_close tmp w).2)
                  | (None, w) => (inl tt, w) end) in
  must! scall (cf_close tmp) in
  scall (cf_rename tmp target).
Definition writeJSONAtomicMode (dir : control_path) (target : control_path) (data : list Z + error) : SM W unit :=
  must! scall (cf_mkdirAll dir) in
  try! data := pure data in
  try! tmp := cf_createTemp dir in
  fun w => let '(r, w) := write_temp tmp data target w in (r, (cf_remove tmp w).2).

(** ** The client's side *)

Definition newRequestID : SM W string :=
  try! raw := swrap "generate daemon request id: " cf_random in sret (hex_encode raw).
Definition countJSONFiles (dir : control_path) : SM W Z :=
  try! entries := file_call "" (cf_readDir dir) in
  sret (len (List.filter is_json entries)).
Definition writeRequestFile (r : daemonRequest) : SM W unit :=
  match validateRequest r with
  | Some e => sfail e
  | None =>
      must! ensureRequestDirs in
      try! stat := sask (cf_stat (requestPath (dr_ID r))) in
      match stat with
      | inl _ => sfail "daemon request already exists"
      | inr (FileError e) => sfail e
      | inr NotExist =>
          swrap "write daemon request: " (writeJSONAtomicMode RequestsDir (requestPath (dr_ID r)) (cj_encodeRequest r))
      end
  end.
Definition with_lock {A} (dir : control_path) (fn : SM W A) : SM W A :=
  must! scall (cf_lock dir) in
  fun w => let '(r, w) := fn w in (r, cf_unlock dir w).
Definition enqueueRequest (kind expectedConfigPath expectedInstanceID : string) : SM W daemonRequest :=
  try! id := newRequestID in
  try! now := sask cf_now in
  let r := mkRequest requestProtocolVersion id kind expectedInstanceID expectedConfigPath now in
  must! ensureRequestDirs in
  must! with_lock RequestsDir (
    try! count := swrap "count queued daemon requests: " (countJSONFiles RequestsDir) in
    reject maxPendingRequestFiles <=? count with "daemon request queue is full" in
    writeRequestFile r) in
  sret r.
Definition consumeAckIfRequestRemoved (id : string) : SM W bool :=
  try! stat := sask (cf_lstat (requestPath id)) in
  match stat with
  | inl _ => sret false
  | inr (FileError e) => sfail e
  | inr NotExist =>
      try! removed := sask (cf_remove (ackPath id)) in
      match removed with
      | Some (FileError e) => sfail e
      | _ => sret true
      end
  end.

(** ** The daemon's side *)

Definition readRequestAck (id : string) (w : W) : (requestAck + file_error) * W :=
  match readRegularControlFile (ackPath id) w with
  | (inr e, w) => (inr e, w)
  | (inl data, w) =>
      (match cj_decodeAck data with
       | inr e => inr (FileError e)
       | inl ack =>
           if negb (ra_Version ack =? requestProtocolVersion) || negb (String.eqb (ra_ID ack) id)
           then inr (FileError "invalid daemon request ack") else inl ack
       end, w)
  end.
(** [Some e] unless the file is gone. *)
Definition removal_error (r : option file_error) : option error :=
  match r with Some (FileError e) => Some e | _ => None end.
Definition remove_file (prefix : error) (path : control_path) : SM W unit :=
  swrap prefix (scall (fun w => let '(r, w) := cf_remove path w in (removal_error r, w))).
Definition readPendingRequest (name id : string) : SM W (option pendingRequest) :=
  try! data := sask (readRegularControlFile (RequestFile name)) in
  match data with
  | inr NotExist => sret None
  | inr (FileError e) => sfail ("read daemon request: " +:+ e)
  | inl data =>
      try! r := swrap "parse daemon request: " (pure (cj_decodeRequest data)) in
      reject negb (String.eqb (dr_ID r) id) with "daemon request filename id does not match payload id" in
      match validateRequest r with
      | Some e => sfail ("validate daemon request: " +:+ e)
      | None =>
          try! ack := sask (readRequestAck id) in
          match ack with
          | inl ack =>
              match validateAckForRequest ack r with
              | Some e => sfail ("validate existing daemon request ack: " +:+ e)
              | None => must! remove_file "remove already-acknowledged request: " (RequestFile name) in sret None
              end
          | inr (FileError e) => sfail ("validate existing daemon request ack: " +:+ e)
          | inr NotExist => sret (Some (mkPending r name))
          end
      end
  end.
Fixpoint read_pending (entries : list dir_entry) : SM W (list pendingRequest) :=
  match entries with
  | [] => sret []
  | e :: entries =>
      if negb (is_json e) then read_pending entries
      else
        try! p := readPendingRequest (en_Name e) (TrimSuffix (en_Name e) ".json") in
        try! rest := read_pending entries in
        sret (match p with Some p => p :: rest | None => rest end)
  end.
(** Oldest first, then by ID. *)
Definition request_before (a b : pendingRequest) : Prop :=
  (dr_CreatedAt (pq_request a) < dr_CreatedAt (pq_request b))%Z \/
  dr_CreatedAt (pq_request a) = dr_CreatedAt (pq_request b) /\
  String.leb (dr_ID (pq_request a)) (dr_ID (pq_request b)) = true.
#[export] Instance request_before_dec a b : Decision (request_before a b).
Proof. unfold request_before. apply _. Defined.
Definition pendingRequests : SM W (list pendingRequest) :=
  must! ensureRequestDirs in
  try! entries := file_call "read daemon request directory: " (cf_readDir RequestsDir) in
  try! pending := read_pending entries in
  sret (merge_sort request_before pending).

(** [requestErr]: its text, and whether it wraps [ErrDaemonNotRunning]. *)
Definition ack_for (r : daemonRequest) (status : Status) (requestErr : option (error * bool)) : requestAck :=
  mkAck requestProtocolVersion (dr_ID r) (dr_Kind r) status
    (match requestErr with Some (e, _) => e | None => "" end)
    (match requestErr with Some (_, true) => ackErrorDaemonChanged | _ => "" end).
Definition acknowledgeRequest (p : pendingRequest) (status : Status) (requestErr : option (error * bool)) : SM W unit :=
  must! swrap "write daemon request ack: "
          (writeJSONAtomicMode AcksDir (ackPath (dr_ID (pq_request p))) (cj_encodeAck (ack_for (pq_request p) status requestErr))) in
  remove_file "remove completed daemon request: " (RequestFile (pq_path p)).

(** *** Old acknowledgements *)

Record ack_candidate := mkCandidate { ca_name : string; ca_modTime : Z }.
Definition ca_id (c : ack_candidate) : string := TrimSuffix (ca_name c) ".json".
Definition candidate_before (a b : ack_candidate) : Prop :=
  (ca_modTime a < ca_modTime b)%Z \/ ca_modTime a = ca_modTime b /\ String.leb (ca_name a) (ca_name b) = true.
#[export] Instance candidate_before_dec a b : Decision (candidate_before a b).
Proof. unfold candidate_before. apply _. Defined.
Fixpoint ack_candidates (entries : list dir_entry) : SM W (list ack_candidate) :=
  match entries with
  | [] => sret []
  | e :: entries =>
      if negb (is_json e) then ack_candidates entries
      else
        try! info := sask (cf_modTime (AckFile (en_Name e))) in
        match info with
        | inr NotExist => ack_candidates entries
        | inr (FileError e) => sfail ("inspect daemon ack: " +:+ e)
        | inl t => try! rest := ack_candidates entries in sret (mkCandidate (en_Name e) t :: rest)
        end
  end.
Fixpoint prune_candidates (remaining : Z) (l : list ack_candidate) : SM W Z :=
  match l with
  | [] => sret remaining
  | c :: l =>
      if remaining <=? maxRetainedAckFiles then sret remaining
      else
        try! stat := sask (cf_lstat (requestPath (ca_id c))) in
        match stat with
        | inl _ => prune_candidates remaining l
        | inr (FileError e) => sfail ("inspect request paired with daemon ack: " +:+ e)
        | inr NotExist => must! remove_file "prune daemon ack: " (AckFile (ca_name c)) in prune_candidates (remaining - 1) l
        end
  end.
Definition pruneAcknowledgements : SM W unit :=
  try! entries := sask (cf_readDir AcksDir) in
  match entries with
  | inr NotExist => sret tt
  | inr (FileError e) => sfail ("read daemon ack directory: " +:+ e)
  | inl entries =>
      try! candidates := ack_candidates entries in
      if len candidates <=? maxRetainedAckFiles then sret tt
      else
        try! remaining := prune_candidates (len candidates) (merge_sort candidate_before candidates) in
        reject maxRetainedAckFiles <? remaining with "cannot bound daemon ack history" in sret tt
  end.
End files.
