(* ===== verification/Daemon.v ===== *)
(** * The daemon (internal/daemon/daemon.go, internal/diagnostic/error.go)

    [Run] takes the lifecycle lease, applies the configuration, and then serves
    polls, requests and signals until it shuts down.  What the daemon does is
    recorded in a log; the reconciler, the lease and the clock are the class
    [DaemonHooks].  A run is driven by the list of events that the select loop
    picks; times and build information are left out of the status. *)
From Stdlib Require Import ZArith Lia String Ascii.
From stdpp Require Import sorting base option list gmap strings numbers.
From S2P Require Import Prelude Config Control Paths Guard ErrorState DaemonRequest.

(** ** Error texts *)

Definition guardMarkerPrefix : string := "wg-mix-ebpf-guard-v2:".
Definition guardMarkerDigits : nat := 64.
Definition redactedMarker : string := guardMarkerPrefix +:+ "<redacted>".
(** The pattern matches at the start of the text. *)
Definition marker_here (text : string) : bool :=
  String.prefix guardMarkerPrefix text &&
  (let digits := String.substring (String.length guardMarkerPrefix) guardMarkerDigits text in
   (String.length digits =? guardMarkerDigits)%nat && forallb hex_digit_char (list_ascii_of_string digits)).
(** [skip]: characters of a replaced match that are left. *)
Fixpoint redact_from (skip : nat) (text : string) : string :=
  match text with
  | EmptyString => EmptyString
  | String c rest =>
      match skip with
      | S skip => redact_from skip rest
      | O => if marker_here text
             then redactedMarker +:+ redact_from (String.length guardMarkerPrefix + guardMarkerDigits - 1) rest
             else String c (redact_from 0 rest)
      end
  end.
Definition Redact (text : string) : string := redact_from 0 text.
(** The expansion of verifier logs is part of the error text of the model. *)
Definition ErrorText (err : option error) : string :=
  match err with Some e => Redact e | None => "" end.

(** ** Options, status and hooks *)

Definition DefaultConfigPath : string := "/etc/wg-mix-ebpf/config.yaml".
Record Options := mkOptions {
  op_ConfigPath : string; op_PollInterval : Z; op_ShutdownTimeout : Z; op_Once : bool; op_Offline : bool;
  op_DryRun : bool; op_ProgressStatus : option bool
}.
Definition configPath (path : string) : string := if String.eqb path "" then DefaultConfigPath else path.
Definition progressStatusEnabled (opts : Options) : bool := default true (op_ProgressStatus opts).

(** How the bounded stop ends: in time, within the grace after the deadline, or
    not at all; [deadline] is the error of its context. *)
Inductive stop_race :=
  | StopDone (result : option Result) (err closeErr deadline : option error)
  | StopLate (result : option Result) (err closeErr : option error) (deadline : error)
  | StopAbandoned (deadline : error).
Record legacyRequestValue := mkLegacyValue { lv_Value : string; lv_ReadError : string }.
Record legacyRequestStamp := mkStamp { lr_Reload : legacyRequestValue; lr_Runtime : legacyRequestValue }.
#[export] Instance legacyRequestValue_eq_dec : EqDecision legacyRequestValue.
Proof. solve_decision. Defined.
#[export] Instance legacyRequestStamp_eq_dec : EqDecision legacyRequestStamp.
Proof. solve_decision. Defined.

(** A reload makes some progress reports and then ends. *)
Class DaemonHooks (W : Type) := {
  dh_ctxErr : W -> option error * W;
  dh_acquireLease : W -> option error * W;
  dh_retainLease : W -> option error * W;
  dh_closeLease : W -> option error * W;
  dh_reloadBegin : W -> nat * W;
  dh_reloadProgress : W -> ReconcileObservation * W;
  dh_reloadEnd : W -> (option Result * option error) * W;
  dh_validate : W -> (option Result * option error) * W;
  dh_observe : W -> (option Result * option error) * W;
  dh_productionHealthy : State -> W -> option bool * W;
  dh_inspect : State -> W -> (option KernelStatus + error) * W;
  dh_stop : W -> stop_race * W;
  dh_fileHash : W -> string * W;
  dh_configPollInterval : W -> Z * W;
  dh_fingerprint : State -> string + error;
  dh_pid : Z
}.

(** What was done; a reload or stop with its error, an acknowledgement with the
    error it reports. *)
Inductive daemon_action :=
  | ActAcquire
  | ActReload (reason : string) (request : option daemonRequest) (err : option error)
  | ActStop (err : option error)
  | ActStopRefused (err : error)
  | ActStatus (status : Status) (err : option error)
  | ActAck (id : string) (status : Status) (reported : option (error * bool)) (err : option error)
  | ActRelease.

Section run.
Context {W : Type} `{ControlFS W} `{ControlJSON} `{DaemonHooks W}.

(** The variables of [Run]. *)
Record daemon_run := mkRun {
  ru_env : W; ru_status : Status; ru_lastFingerprint : string; ru_lastConfigHash : string;
  ru_lastLegacy : legacyRequestStamp; ru_ackChecked : bool; ru_log : list daemon_action
}.
Definition set_env (w : W) (x : daemon_run) : daemon_run :=
  mkRun w (ru_status x) (ru_lastFingerprint x) (ru_lastConfigHash x) (ru_lastLegacy x) (ru_ackChecked x) (ru_log x).
Definition set_status (s : Status) (x : daemon_run) : daemon_run :=
  mkRun (ru_env x) s (ru_lastFingerprint x) (ru_lastConfigHash x) (ru_lastLegacy x) (ru_ackChecked x) (ru_log x).
Definition log_action (a : daemon_action) (x : daemon_run) : daemon_run :=
  mkRun (ru_env x) (ru_status x) (ru_lastFingerprint x) (ru_lastConfigHash x) (ru_lastLegacy x) (ru_ackChecked x)
    (ru_log x ++ [a]).
Definition set_applied (fingerprint hash : string) (x : daemon_run) : daemon_run :=
  mkRun (ru_env x) (ru_status x) fingerprint hash (ru_lastLegacy x) (ru_ackChecked x) (ru_log x).
Definition set_legacy (stamp : legacyRequestStamp) (x : daemon_run) : daemon_run :=
  mkRun (ru_env x) (ru_status x) (ru_lastFingerprint x) (ru_lastConfigHash x) stamp (ru_ackChecked x) (ru_log x).
Definition set_ackChecked (x : daemon_run) : daemon_run :=
  mkRun (ru_env x) (ru_status x) (ru_lastFingerprint x) (ru_lastConfigHash x) (ru_lastLegacy x) true (ru_log x).
(** A call of the environment. *)
Definition call_env {A} (f : W -> A * W) (x : daemon_run) : A * daemon_run :=
  let '(a, w) := f (ru_env x) in (a, set_env w x).
Definition sum_error {A} (r : A + error) : option error := match r with inl _ => None | inr e => Some e end.

(** [status] with new state, reason, error and need for a reload. *)
Definition with_outcome (state reason err : string) (need : bool) (cfg : string) (s : Status) : Status :=
  mkStatus (ds_PID s) cfg state reason err (ds_LastResult s) (ds_Current s) need (ds_RequestProtocol s) (ds_InstanceID s)
    (ds_LastRequestID s) (ds_LastRequestKind s).
Definition with_result (r : option Result) (s : Status) : Status :=
  mkStatus (ds_PID s) (ds_ConfigPath s) (ds_State s) (ds_LastReason s) (ds_LastError s) r (ds_Current s) (ds_NeedReload s)
    (ds_RequestProtocol s) (ds_InstanceID s) (ds_LastRequestID s) (ds_LastRequestKind s).
Definition with_current (c : option ReconcileObservation) (s : Status) : Status :=
  mkStatus (ds_PID s) (ds_ConfigPath s) (ds_State s) (ds_LastReason s) (ds_LastError s) (ds_LastResult s) c (ds_NeedReload s)
    (ds_RequestProtocol s) (ds_InstanceID s) (ds_LastRequestID s) (ds_LastRequestKind s).
Definition with_request (id kind : string) (s : Status) : Status :=
  mkStatus (ds_PID s) (ds_ConfigPath s) (ds_State s) (ds_LastReason s) (ds_LastError s) (ds_LastResult s) (ds_Current s)
    (ds_NeedReload s) (ds_RequestProtocol s) (ds_InstanceID s) id kind.

Definition writeStatus (x : daemon_run) : option error * daemon_run :=
  let s := ru_status x in
  let '(r, x) := call_env (writeJSONAtomicMode RunDir (RunFile "status.json") (cj_encodeStatus s)) x in
  (sum_error r, log_action (ActStatus s (sum_error r)) x).
Definition write_status_as (prefix : error) (x : daemon_run) : option error * daemon_run :=
  let '(err, x) := writeStatus x in (option_map (fun e => prefix +:+ e) err, x).
Definition acknowledge (p : pendingRequest) (reported : option (error * bool)) (x : daemon_run) : option error * daemon_run :=
  let s := ru_status x in
  let '(r, x) := call_env (acknowledgeRequest p s reported) x in
  (sum_error r, log_action (ActAck (dr_ID (pq_request p)) s reported (sum_error r)) x).

Definition stateFingerprint (r : option Result) : string :=
  match r with
  | Some r => match rs_State r with
              | Some s => match dh_fingerprint s with inl f => f | inr _ => "" end
              | None => ""
              end
  | None => ""
  end.
Definition preserveResidentDataplaneSnapshot (current : Result) (previous : option Result) : Result :=
  match previous with
  | Some p =>
      match rs_Dataplane p with
      | Some d => if String.eqb (ks_Mode d) "faketcp"
                  then mkResult (rs_State current) (Some d) (rs_DataplaneError p) (rs_Observation current) else current
      | None => current
      end
  | None => current
  end.

(** ** Health *)

(** The last entry of an index counts. *)
Definition underlay_at (i : Z) (l : list UnderlayKernelStatus) : option UnderlayKernelStatus :=
  head (rev (List.filter (fun u => uk_IfIndex u =? i) l)).
Definition underlay_healthy (l : list UnderlayKernelStatus) (d : UnderlayState) : bool :=
  if negb (us_Resolved d) || String.eqb (us_Role d) "parse_only" || String.eqb (us_Role d) "disabled" then true
  else match underlay_at (us_IfIndex d) l with
       | Some u => String.eqb (uk_Error u) "" && uk_IngressAttached u && uk_EgressAttached u
       | None => false
       end.
Definition dataplaneHealthy (st : option State) (w : W) : bool * W :=
  match st with
  | None => (false, w)
  | Some st =>
      match dh_productionHealthy st w with
      | (Some healthy, w) => (healthy, w)
      | (None, w) =>
          match dh_inspect st w with
          | (inl (Some k), w) =>
              if negb (String.eqb (ks_MapError k) "") || (ks_ActiveGeneration k =? 0) then (false, w)
              else (forallb (underlay_healthy (ks_Underlays k)) (st_Underlays st), w)
          | (_, w) => (false, w)
          end
      end
  end.

Variable opts : Options.
Definition cfg_path : string := configPath (op_ConfigPath opts).

(** ** Shutdown *)

Definition runStopBounded (x : daemon_run) : (option Result * option error) * daemon_run :=
  match call_env dh_retainLease x with
  | (Some e, x) => ((None, Some e), log_action (ActStopRefused e) x)
  | (None, x) =>
      let '(race, x) := call_env dh_stop x in
      let '(result, err) :=
        match race with
        | StopDone result err closeErr deadline => (result, errors_Join (errors_Join err closeErr) deadline)
        | StopLate result err closeErr deadline => (result, errors_Join (errors_Join err closeErr) (Some deadline))
        | StopAbandoned deadline => (None, Some deadline)
        end in
      ((result, err), log_action (ActStop err) x)
  end.
Definition shutdown (reason : string) (triggerErr : option error) (x : daemon_run) : option error * daemon_run :=
  let x := set_status (with_outcome (ds_State (ru_status x)) reason (ds_LastError (ru_status x)) false cfg_path (ru_status x)) x in
  let '(cleanupErr, x) :=
    if op_DryRun opts then (None, x)
    else
      let '((result, err), x) := runStopBounded x in
      let x := match result with Some _ => set_status (with_result result (ru_status x)) x | None => x end in
      (option_map (fun e => "daemon stop cleanup: " +:+ e) err, x) in
  let finalErr := errors_Join triggerErr cleanupErr in
  let x := set_status (match finalErr with
    | Some e => with_outcome "degraded" reason (ErrorText finalErr) false cfg_path (ru_status x)
    | None => with_outcome "stopped" reason "" false cfg_path (ru_status x)
    end) x in
  let '(statusErr, x) := write_status_as "write final daemon status: " x in
  (errors_Join finalErr statusErr, x).

(** ** Applying the configuration *)

Definition observeCurrent (x : daemon_run) : option ReconcileObservation * daemon_run :=
  let '((result, err), x) := call_env dh_observe x in
  (match result with
   | Some r => match rs_Observation r with
               | Some o => Some (match err with
                                 | Some _ => mkObservation (ob_Phase o) (ErrorText err) (ob_Rest o)
                                 | None => o
                                 end)
               | None => None
               end
   | None => None
   end, x).
Definition ReconcilePhaseFailed : string := "failed".

(** The progress reports of a reload. *)
Fixpoint reload_progress (reason : string) (n : nat) (errs : option error) (x : daemon_run) : option error * daemon_run :=
  match n with
  | O => (errs, x)
  | S n =>
      let '(o, x) := call_env dh_reloadProgress x in
      if negb (progressStatusEnabled opts) then reload_progress reason n errs x
      else
        let x := set_status (with_current (Some o) (with_outcome "reloading" reason "" false cfg_path (ru_status x))) x in
        let '(err, x) := write_status_as ("write " +:+ reason +:+ " progress status: ") x in
        reload_progress reason n (errors_Join errs err) x
  end.
Definition failed_observation (err : string) (o : ReconcileObservation) : ReconcileObservation :=
  mkObservation ReconcilePhaseFailed err (ob_Rest o).
(** A degraded status shows a failed observation. *)
Definition observe_failure (x : daemon_run) : daemon_run :=
  let shown := match ds_Current (ru_status x) with
    | Some o => String.eqb (ob_Phase o) ReconcilePhaseFailed
    | None => false
    end in
  if shown then x
  else
    let '(current, x) := observeCurrent x in
    set_status (with_current (option_map (failed_observation (ds_LastError (ru_status x))) current) (ru_status x)) x.
Definition observe_success (result : option Result) (x : daemon_run) : daemon_run :=
  match result with
  | Some (mkResult _ _ _ (Some o)) => set_status (with_current (Some o) (ru_status x)) x
  | _ => let '(current, x) := observeCurrent x in
         match current with Some _ => set_status (with_current current (ru_status x)) x | None => x end
  end.
(** The reload of [forceReload]; [request]: the request that asked for it. *)
Definition force_reload (reason : string) (request : option daemonRequest) (hash : string) (x : daemon_run) : option error * daemon_run :=
  let '(n, x) := call_env dh_reloadBegin x in
  let '(progressErr, x) := reload_progress reason n None x in
  let '((result, err), x) := call_env dh_reloadEnd x in
  let x := log_action (ActReload reason request err) x in
  let x := match err with
    | Some _ =>
        observe_failure (set_status (with_outcome "degraded" reason (ErrorText err) (ds_NeedReload (ru_status x)) cfg_path (ru_status x)) x)
    | None =>
        let x := set_status (with_result result (with_outcome "active" reason "" false cfg_path (ru_status x))) x in
        set_applied (stateFingerprint result) hash (observe_success result x)
    end in
  let '(statusErr, x) := write_status_as ("write " +:+ reason +:+ " daemon status: ") x in
  (errors_Join progressErr statusErr, x).
Definition config_changed_text : string :=
  "config file changed; run wg-mix-ebpf reload or systemctl reload wg-mix-ebpf to apply".
(** The configuration is not the one that was applied. *)
Definition config_changed (reason hash : string) (x : daemon_run) : bool :=
  (String.eqb reason "poll" || String.eqb reason "runtime-event") && negb (String.eqb (ru_lastConfigHash x) "") &&
  negb (String.eqb hash "") && negb (String.eqb hash (ru_lastConfigHash x)).
(** The result of a poll that finds nothing to do. *)
Definition poll_unchanged (x : daemon_run) : option Result * daemon_run :=
  let '((result, err), x) := call_env dh_validate x in
  match err, result with
  | None, Some r =>
      if negb (String.eqb (stateFingerprint result) (ru_lastFingerprint x)) then (None, x)
      else if op_Offline opts || op_DryRun opts then (Some r, x)
      else let '(healthy, x) := call_env (dataplaneHealthy (rs_State r)) x in
           (if healthy then Some r else None, x)
  | _, _ => (None, x)
  end.
Definition runOnce (reason : string) (request : option daemonRequest) (x : daemon_run) : option error * daemon_run :=
  let '(hash, x) := call_env dh_fileHash x in
  if config_changed reason hash x then
    let x := set_status (with_outcome "config_changed" reason config_changed_text true cfg_path (ru_status x)) x in
    let '(current, x) := observeCurrent x in
    let x := set_status (with_current current (ru_status x)) x in
    write_status_as "write config-changed daemon status: " x
  else
    let '(unchanged, x) :=
      if String.eqb reason "poll" && negb (String.eqb (ru_lastFingerprint x) "") then poll_unchanged x else (None, x) in
    match unchanged with
    | Some r =>
        let r := preserveResidentDataplaneSnapshot r (ds_LastResult (ru_status x)) in
        let '(current, x) := observeCurrent x in
        let x := match current with Some _ => set_status (with_current current (ru_status x)) x | None => x end in
        let x := set_status (with_result (Some r) (with_outcome "active" "poll-noop" "" false cfg_path (ru_status x))) x in
        write_status_as "write poll-noop daemon status: " x
    | None => force_reload reason request hash x
    end.

(** ** Requests *)

(** [filepath.Clean], of relative paths too: leading [..] elements stay. *)
Fixpoint clean_relative (kept : list string) (l : list string) : list string :=
  match l with
  | [] => rev kept
  | e :: l =>
      if String.eqb e "" || String.eqb e "." then clean_relative kept l
      else if String.eqb e ".." then
        match kept with
        | k :: rest => if String.eqb k ".." then clean_relative (e :: kept) l else clean_relative rest l
        | [] => clean_relative [e] l
        end
      else clean_relative (e :: kept) l
  end.
Definition filepath_Clean (path : string) : string :=
  if path_IsAbs path then path_Clean path
  else match clean_relative [] (path_elements "" path) with
       | [] => "."
       | l => String.concat "/" l
       end.
Definition ValidateConfigPathForRequest (status : Status) (expected : string) : option error :=
  if String.eqb expected "" then None
  else if negb (String.eqb (filepath_Clean (ds_ConfigPath status)) (filepath_Clean (configPath expected)))
  then Some "daemon is running with another config, refusing request" else None.
(** Requests of others are answered; the rest is taken up. *)
Fixpoint admit_requests (pending : list pendingRequest) (x : daemon_run) : (list pendingRequest + error) * daemon_run :=
  match pending with
  | [] => (inl [], x)
  | p :: pending =>
      let refuse e changed :=
        match acknowledge p (Some (e, changed)) x with
        | (Some ackErr, x) => (inr (e +:+ newline +:+ ackErr), x)
        | (None, x) => admit_requests pending x
        end in
      if negb (String.eqb (dr_ExpectedInstanceID (pq_request p)) (ds_InstanceID (ru_status x)))
      then refuse "wg-mix-ebpf daemon is not running: request targets another daemon instance" true
      else match ValidateConfigPathForRequest (ru_status x) (dr_ExpectedConfigPath (pq_request p)) with
           | Some e => refuse e false
           | None =>
               match admit_requests pending x with
               | (inl valid, x) => (inl (p :: valid), x)
               | (inr e, x) => (inr e, x)
               end
           end
  end.
Definition is_stop (p : pendingRequest) : bool := String.eqb (dr_Kind (pq_request p)) "stop".
Fixpoint acknowledge_all (reported : option (error * bool)) (l : list pendingRequest) (x : daemon_run) : option error * daemon_run :=
  match l with
  | [] => (None, x)
  | p :: l =>
      let '(err, x) := acknowledge p reported x in
      let '(errs, x) := acknowledge_all reported l x in
      (errors_Join err errs, x)
  end.
Definition pruneAckHistory (pending : list pendingRequest) (x : daemon_run) : option error * daemon_run :=
  if ru_ackChecked x && (len pending =? 0) then (None, x)
  else let '(r, x) := call_env pruneAcknowledgements (set_ackChecked x) in (sum_error r, x).
Definition plain (err : option error) : option (error * bool) := option_map (fun e => (e, false)) err.
Definition status_error (s : Status) : option error :=
  if String.eqb (ds_LastError s) "" then None else Some (ds_LastError s).
(** The second part of the pair: the daemon exits. *)
Fixpoint serve_reloads (pending reloads : list pendingRequest) (x : daemon_run) : (option error * bool) * daemon_run :=
  match reloads with
  | [] => let '(err, x) := pruneAckHistory pending x in ((err, false), x)
  | p :: reloads =>
      let id := dr_ID (pq_request p) in
      let x := set_status (with_request id "reload" (ru_status x)) x in
      match runOnce "reload-request" (Some (pq_request p)) x with
      | (Some e, x) =>
          let '(shutdownErr, x) := shutdown "status-write-error" (Some e) x in
          let '(ackErr, x) := acknowledge p (plain shutdownErr) x in
          let '(pruneErr, x) := pruneAckHistory pending x in
          ((errors_Join shutdownErr (errors_Join ackErr pruneErr), true), x)
      | (None, x) =>
          match acknowledge p (plain (status_error (ru_status x))) x with
          | (Some e, x) => ((Some e, false), x)
          | (None, x) => serve_reloads pending reloads x
          end
      end
  end.
Definition processRequests (x : daemon_run) : (option error * bool) * daemon_run :=
  match call_env pendingRequests x with
  | (inr e, x) => ((Some e, false), x)
  | (inl pending, x) =>
      match admit_requests pending x with
      | (inr e, x) => ((Some e, false), x)
      | (inl valid, x) =>
          let reloads := List.filter (fun p => negb (is_stop p)) valid in
          match List.filter is_stop valid with
          | [] => serve_reloads pending reloads x
          | stop :: stops =>
              let id := dr_ID (pq_request stop) in
              let x := set_status (with_request id "stop" (ru_status x)) x in
              let '(shutdownErr, x) := shutdown "stop-request" None x in
              let '(e1, x) := acknowledge_all (Some ("reload request superseded by stop request " +:+ id, false)) reloads x in
              let '(e2, x) := acknowledge_all (plain shutdownErr) (stop :: stops) x in
              let '(pruneErr, x) := pruneAckHistory pending x in
              ((errors_Join shutdownErr (errors_Join (errors_Join e1 e2) pruneErr), true), x)
          end
      end
  end.

(** *** Legacy notifications *)

Definition string_of (l : list Z) : string := String.string_of_list_ascii (map (fun z => ascii_of_N (Z.to_N z)) l).
Definition readLegacyRequestValue (name : string) (w : W) : legacyRequestValue * W :=
  match readRegularControlFile (RunFile name) w with
  | (inr NotExist, w) => (mkLegacyValue "" "", w)
  | (inr (FileError e), w) => (mkLegacyValue "" (name +:+ ": " +:+ e), w)
  | (inl data, w) => (mkLegacyValue (string_of (TrimSpace data)) "", w)
  end.
Definition requestStamp (w : W) : legacyRequestStamp * W :=
  let '(r, w) := readLegacyRequestValue "reload.request" w in
  let '(t, w) := readLegacyRequestValue "runtime.request" w in
  (mkStamp r t, w).
Definition legacyRequestWarnings (s : legacyRequestStamp) : list string :=
  (if negb (String.eqb (lv_ReadError (lr_Reload s)) "") then [lv_ReadError (lr_Reload s)]
   else if negb (String.eqb (lv_Value (lr_Reload s)) "") && negb (String.prefix "reload:" (lv_Value (lr_Reload s)))
   then if String.prefix "stop:" (lv_Value (lr_Reload s))
        then ["legacy stop request is disabled; use the versioned request protocol"]
        else ["reload.request has an unsupported notification"]
   else []) ++
  (if negb (String.eqb (lv_ReadError (lr_Runtime s)) "") then [lv_ReadError (lr_Runtime s)] else []).
Definition recordLegacyWarnings (warnings : list string) (x : daemon_run) : option error * daemon_run :=
  match warnings with
  | [] => (None, x)
  | _ =>
      let warning := "ignored legacy request notification: " +:+ String.concat "; " warnings in
      let s := ru_status x in
      let s := if negb (String.eqb (ds_LastError s) "")
        then with_outcome (ds_State s) (ds_LastReason s) (ds_LastError s +:+ newline +:+ warning) (ds_NeedReload s) (ds_ConfigPath s) s
        else with_outcome "degraded" "legacy-request-ignored" warning (ds_NeedReload s) (ds_ConfigPath s) s in
      write_status_as "write ignored legacy request status: " (set_status s x)
  end.
Definition no_value : legacyRequestValue := mkLegacyValue "" "".
Definition serve_legacy (x : daemon_run) : option error * daemon_run :=
  let '(stamp, x) := call_env requestStamp x in
  let old := ru_lastLegacy x in
  if bool_decide (stamp = old) then (None, x)
  else
    let reloadChanged := negb (bool_decide (lr_Reload stamp = lr_Reload old)) in
    let runtimeChanged := negb (bool_decide (lr_Runtime stamp = lr_Runtime old)) in
    let x := set_legacy stamp x in
    let reloadEvent := reloadChanged && String.eqb (lv_ReadError (lr_Reload stamp)) "" &&
                       String.prefix "reload:" (lv_Value (lr_Reload stamp)) in
    let runtimeEvent := runtimeChanged && String.eqb (lv_ReadError (lr_Runtime stamp)) "" &&
                        negb (String.eqb (lv_Value (lr_Runtime stamp)) "") in
    let '(err, x) :=
      if reloadEvent then runOnce "reload-request" None x
      else if runtimeEvent then runOnce "runtime-event" None x
      else (None, x) in
    match err with
    | Some e => (Some e, x)
    | None =>
        recordLegacyWarnings (legacyRequestWarnings
          (mkStamp (if reloadChanged then lr_Reload stamp else no_value) (if runtimeChanged then lr_Runtime stamp else no_value))) x
    end.

(** ** The loop *)

Inductive daemon_event := EventDone | EventRequests | EventPoll.
(** [inl]: the loop goes on; [inr]: [Run] returns. *)
Definition exit_with (r : option error * daemon_run) : (unit + option error) * daemon_run := (inr r.1, r.2).
Definition serve_requests (x : daemon_run) : (unit + option error) * daemon_run :=
  match processRequests x with
  | ((err, true), x) => (inr err, x)
  | ((Some e, false), x) => exit_with (shutdown "request-processing-error" (Some e) x)
  | ((None, false), x) => (inl tt, x)
  end.
Definition after (r : option error * daemon_run) : (unit + option error) * daemon_run :=
  match r with
  | (Some e, x) => exit_with (shutdown "status-write-error" (Some e) x)
  | (None, x) => (inl tt, x)
  end.
Definition handle_event (ev : daemon_event) (x : daemon_run) : (unit + option error) * daemon_run :=
  match ev with
  | EventDone => exit_with (shutdown "signal" None x)
  | EventRequests =>
      match serve_requests x with
      | (inl _, x) => after (serve_legacy x)
      | r => r
      end
  | EventPoll => after (runOnce "poll" None x)
  end.
Fixpoint loop (events : list daemon_event) (x : daemon_run) : (unit + option error) * daemon_run :=
  match events with
  | [] => (inl tt, x)
  | ev :: events =>
      match handle_event ev x with
      | (inl _, x) => loop events x
      | r => r
      end
  end.

(** ** Run *)

(** What follows the first status. *)
Definition run_started (events : list daemon_event) (x : daemon_run) : (unit + option error) * daemon_run :=
  let '(startupErr, x) := runOnce "startup" None x in
  if op_Once opts then (inr (errors_Join (status_error (ru_status x)) startupErr), x)
  else match startupErr with
  | Some e => exit_with (shutdown "startup-status-error" (Some e) x)
  | None =>
      match after (recordLegacyWarnings (legacyRequestWarnings (ru_lastLegacy x)) x) with
      | (inl _, x) =>
          match serve_requests x with
          | (inl _, x) => loop events x
          | r => r
          end
      | r => r
      end
  end.
Definition starting_status (instanceID : string) : Status :=
  mkStatus dh_pid cfg_path "starting" "" "" None None false requestProtocolVersion instanceID "" "".
(** The poll interval is checked after the first status. *)
Definition run_interval (events : list daemon_event) (x : daemon_run) : (unit + option error) * daemon_run :=
  let '(interval, x) :=
    if op_PollInterval opts =? 0 then call_env dh_configPollInterval x else (op_PollInterval opts, x) in
  let interval := if interval =? 0 then 5 * Second else interval in
  if interval <? MinimumPollInterval then (inr (Some "poll interval is too short"), x)
  else run_started events x.
(** [instance]: the ID of the test hooks, [None] in production. *)
Definition run_leased (instance : option string) (events : list daemon_event) (x : daemon_run)
    : (unit + option error) * daemon_run :=
  match call_env (scall (cf_mkdirAll RunDir)) x with
  | (inr e, x) => (inr (Some ("create run dir: " +:+ e)), x)
  | (inl _, x) =>
      match call_env ensureRequestDirs x with
      | (inr e, x) => (inr (Some e), x)
      | (inl _, x) =>
          match call_env (match instance with Some id => sret id | None => newRequestID end) x with
          | (inr e, x) => (inr (Some e), x)
          | (inl id, x) =>
              if negb (validRequestID id) then (inr (Some "invalid daemon instance id"), x)
              else
                let '(stamp, x) := call_env requestStamp x in
                let x := set_legacy stamp (set_status (starting_status id) x) in
                match write_status_as "write starting daemon status: " x with
                | (Some e, x) => (inr (Some e), x)
                | (None, x) => run_interval events x
                end
          end
      end
  end.
Definition no_status : Status := mkStatus 0 "" "" "" "" None None false 0 "" "" "".
(** The lease is closed on every return after it was acquired. *)
Definition Run (instance : option string) (events : list daemon_event) (w : W) : (unit + option error) * daemon_run :=
  let x := mkRun w no_status "" "" (mkStamp no_value no_value) false [] in
  if op_Offline opts && negb (op_DryRun opts) then (inr (Some "offline daemon mode requires --dry-run"), x)
  else if op_PollInterval opts <? 0 then (inr (Some "poll interval must not be negative"), x)
  else if op_ShutdownTimeout opts <? 0 then (inr (Some "shutdown timeout must not be negative"), x)
  else match call_env dh_ctxErr x with
  | (Some e, x) => (inr (Some e), x)
  | (None, x) =>
      match call_env dh_acquireLease x with
      | (Some e, x) => (inr (Some e), x)
      | (None, x) =>
          match run_leased instance events (log_action ActAcquire x) with
          | (inl _, x) => (inl tt, x)
          | (inr err, x) =>
              let '(closeErr, x) := call_env dh_closeLease x in
              (inr (errors_Join err closeErr), log_action ActRelease x)
          end
      end
  end.

(** ** Clients *)

(** [dc_procExists]: the process of a PID. *)
Class DaemonClient (V : Type) := { dc_procExists : Z -> V -> bool * V }.
Context `{DaemonClient W}.
(** What the wait picks: the context is done (with the deadline or otherwise), or a
    tick. *)
Inductive client_event := ClientDone (deadline : bool) (err : error) | ClientTick.
(** The status, and the error with whether it wraps [ErrDaemonNotRunning]. *)
Definition client_answer : Type := option Status * option (error * bool).

Definition ReadStatus (w : W) : (Status + file_error) * W :=
  match readRegularControlFile (RunFile "status.json") w with
  | (inr e, w) => (inr e, w)
  | (inl data, w) => (match cj_decodeStatus data with inl s => inl s | inr e => inr (FileError e) end, w)
  end.
Definition IsRunning (s : Status) (w : W) : bool * W :=
  if ds_PID s <=? 0 then (false, w) else dc_procExists (ds_PID s) w.
Definition daemonInstanceIsRunning (instanceID : string) (w : W) : (bool + error) * W :=
  match ReadStatus w with
  | (inr NotExist, w) => (inl false, w)
  | (inr (FileError e), w) => (inr ("read daemon status while waiting for request: " +:+ e), w)
  | (inl s, w) => if String.eqb (ds_InstanceID s) instanceID
                  then let '(b, w) := IsRunning s w in (inl b, w) else (inl false, w)
  end.
(** The answer of an acknowledgement. *)
Definition answer_of (ack : requestAck) : client_answer :=
  (Some (ra_Status ack),
   if String.eqb (ra_Error ack) "" then None
   else Some (ra_Error ack, String.eqb (ra_ErrorCode ack) ackErrorDaemonChanged)).
(** [None]: the wait goes on. *)
Definition client_tick (r : daemonRequest) (instanceID : string) (w : W) : option client_answer * W :=
  match readRequestAck (dr_ID r) w with
  | (inr NotExist, w) =>
      match daemonInstanceIsRunning instanceID w with
      | (inr e, w) => (Some (None, Some (e, false)), w)
      | (inl true, w) => (None, w)
      | (inl false, w) =>
          match cf_remove (requestPath (dr_ID r)) w with
          | (None, w) => (Some (None, Some ("wg-mix-ebpf daemon is not running: daemon instance exited before accepting request", true)), w)
          | (Some (FileError e), w) => (Some (None, Some ("withdraw daemon request after owner exit: " +:+ e, false)), w)
          | (Some NotExist, w) => (None, w)
          end
      end
  | (inr (FileError e), w) => (Some (None, Some ("read daemon request ack: " +:+ e, false)), w)
  | (inl ack, w) =>
      match validateAckForRequest ack r with
      | Some e => (Some (None, Some ("validate daemon request ack: " +:+ e, false)), w)
      | None =>
          match consumeAckIfRequestRemoved (dr_ID r) w with
          | (inr e, w) => (Some (None, Some ("consume daemon request ack: " +:+ e, false)), w)
          | (inl _, w) => (Some (answer_of ack), w)
          end
      end
  end.
Fixpoint client_wait (r : daemonRequest) (instanceID : string) (events : list client_event) (w : W) : option client_answer * W :=
  match events with
  | [] => (None, w)
  | ClientDone true _ :: _ => (Some (None, Some ("daemon request timed out; it may still complete", false)), w)
  | ClientDone false e :: _ => (Some (None, Some ("wait for daemon request: " +:+ e, false)), w)
  | ClientTick :: events =>
      match client_tick r instanceID w with
      | (None, w) => client_wait r instanceID events w
      | answer => answer
      end
  end.
Definition writeRequestAndWait (kind expectedConfigPath : string) (events : list client_event) (w : W)
    : option client_answer * W :=
  match ReadStatus w with
  | (inr e, w) => (Some (None, Some ("wg-mix-ebpf daemon is not running: read daemon status: " +:+ file_error_message e, true)), w)
  | (inl current, w) =>
      let refuse e := Some (Some current, Some (e, false)) in
      match IsRunning current w with
      | (false, w) => (Some (Some current, Some ("wg-mix-ebpf daemon is not running", true)), w)
      | (true, w) =>
          if negb (ds_RequestProtocol current =? requestProtocolVersion)
          then (refuse "running daemon request protocol differs; restart the daemon", w)
          else if negb (validRequestID (ds_InstanceID current))
          then (refuse "running daemon has invalid instance id; restart the daemon", w)
          else match ValidateConfigPathForRequest current expectedConfigPath with
          | Some e => (refuse e, w)
          | None =>
              match scall (cf_mkdirAll RunDir) w with
              | (inr e, w) => (Some (None, Some ("create run dir: " +:+ e, false)), w)
              | (inl _, w) =>
                  let expected := if String.eqb expectedConfigPath "" then "" else configPath expectedConfigPath in
                  match enqueueRequest kind expected (ds_InstanceID current) w with
                  | (inr e, w) => (Some (None, Some (e, false)), w)
                  | (inl r, w) => client_wait r (ds_InstanceID current) events w
                  end
              end
          end
      end
  end.
Definition RequestReload (expectedConfigPath : string) : list client_event -> W -> option client_answer * W :=
  writeRequestAndWait "reload" expectedConfigPath.
Definition RequestStop (expectedConfigPath : string) (events : list client_event) (w : W) : option client_answer * W :=
  match writeRequestAndWait "stop" expectedConfigPath events w with
  | (Some (Some s, None), w) =>
      (Some (Some s, if String.eqb (ds_State s) "stopped" then None else Some ("daemon stop request ended in another state", false)), w)
  | answer => answer
  end.
End run.
Arguments daemon_run : clear implicits.
