(* ===== verification/DaemonProps.v ===== *)
(** * What the daemon promises

    The log of a run is a path of a small life cycle and tells the truth: a status
    or an acknowledgement reports a success only after it happened, and requests
    are carried out once, by the daemon they were meant for, and answered. *)
From Stdlib Require Import ZArith Lia String Ascii.
From stdpp Require Import sorting base option list gmap strings numbers.
From S2P Require Import Prelude Config Control Paths Guard ErrorState DaemonRequest Daemon.

(** ** Specification *)

Inductive life := Unleased | Leased | Stopping | Released.
Definition life_step (l : life) (a : daemon_action) : option life :=
  match l, a with
  | Unleased, ActAcquire => Some Leased
  | Leased, (ActReload _ _ _ | ActStatus _ _ | ActAck _ _ _ _) => Some Leased
  | Leased, (ActStop _ | ActStopRefused _) => Some Stopping
  | Stopping, (ActStatus _ _ | ActAck _ _ _ _) => Some Stopping
  | (Leased | Stopping), ActRelease => Some Released
  | _, _ => None
  end.
Definition life_of (log : list daemon_action) : option life :=
  foldl (fun l a => l ≫= fun l => life_step l a) (Some Unleased) log.
Lemma life_snoc log a : life_of (log ++ [a]) = (life_of log ≫= fun l => life_step l a).
Proof. unfold life_of. by rewrite foldl_app. Qed.

Definition reload_done (log : list daemon_action) : Prop := exists reason r, ActReload reason r None ∈ log.
Definition stop_done (opts : Options) (log : list daemon_action) : Prop := op_DryRun opts = true \/ ActStop None ∈ log.
(** What an action asserts of the actions before it, in a run of [instance]. *)
Definition asserts (opts : Options) (instance : string) (log : list daemon_action) (a : daemon_action) : Prop :=
  match a with
  | ActStatus s _ => (ds_State s = "stopped" -> stop_done opts log) /\ (ds_State s = "active" -> reload_done log)
  | ActAck id s None _ =>
      (exists reason r, ActReload reason (Some r) None ∈ log /\ dr_ID r = id) \/
      ds_State s = "stopped" /\ stop_done opts log
  | ActReload _ (Some r) _ =>
      dr_ExpectedInstanceID r = instance /\ dr_Kind r <> "stop" /\
      (dr_ExpectedConfigPath r = "" \/
       filepath_Clean (configPath (op_ConfigPath opts)) = filepath_Clean (configPath (dr_ExpectedConfigPath r)))
  | _ => True
  end.
Inductive truthful (opts : Options) (instance : string) : list daemon_action -> Prop :=
  | truthful_nil : truthful opts instance []
  | truthful_snoc log a : truthful opts instance log -> asserts opts instance log a -> truthful opts instance (log ++ [a]).
Lemma truthful_at opts instance log : truthful opts instance log ->
  forall l1 a l2, log = l1 ++ a :: l2 -> asserts opts instance l1 a.
Proof.
  induction 1 as [|log b Ht IH Hb]; intros l1 a l2 E; [by destruct l1|].
  destruct l2 as [|c l2 _] using rev_ind.
  - apply app_inj_tail in E as [<- <-]. done.
  - rewrite (app_assoc l1 [a]) in E || idtac. change (log ++ [b] = l1 ++ (a :: l2) ++ [c]) in E. rewrite app_assoc in E.
    apply app_inj_tail in E as [E _]. by eapply IH.
Qed.

(** ** Redaction *)

Lemma redact_nonempty text : text <> "" -> Redact text <> "".
Proof. destruct text; [done|]. intros _. unfold Redact. cbn [redact_from]. by destruct (marker_here _). Qed.

(** ** Predicates on the environment that every call of the daemon preserves

    The daemon makes directories and renames files only onto paths that are not
    request files, and writes only into temporary files it created. *)
Definition not_request (p : control_path) : Prop := match p with RequestFile _ => False | _ => True end.

Section preserved.
Context {W : Type} `{Hfs : ControlFS W} `{Hj : ControlJSON} `{Hd : DaemonHooks W}.

Record closed (E : W -> Prop) : Prop := {
  cl_open p w : E w -> E (cf_open p w).2; cl_readDir p w : E w -> E (cf_readDir p w).2;
  cl_lstat p w : E w -> E (cf_lstat p w).2; cl_stat p w : E w -> E (cf_stat p w).2;
  cl_modTime p w : E w -> E (cf_modTime p w).2; cl_mkdirAll p w : not_request p -> E w -> E (cf_mkdirAll p w).2;
  cl_chmod p w : E w -> E (cf_chmod p w).2; cl_createTemp p w : E w -> E (cf_createTemp p w).2;
  cl_write tmp d dir w0 w : (cf_createTemp dir w0).1 = inl tmp -> E w -> E (cf_write tmp d w).2; cl_sync p w : E w -> E (cf_sync p w).2;
  cl_close p w : E w -> E (cf_close p w).2; cl_rename p q w : not_request q -> E w -> E (cf_rename p q w).2;
  cl_remove p w : E w -> E (cf_remove p w).2; cl_random w : E w -> E (cf_random w).2;
  cl_ctxErr w : E w -> E (dh_ctxErr w).2; cl_acquire w : E w -> E (dh_acquireLease w).2;
  cl_retain w : E w -> E (dh_retainLease w).2; cl_closeLease w : E w -> E (dh_closeLease w).2;
  cl_reloadBegin w : E w -> E (dh_reloadBegin w).2; cl_reloadProgress w : E w -> E (dh_reloadProgress w).2;
  cl_reloadEnd w : E w -> E (dh_reloadEnd w).2; cl_validate w : E w -> E (dh_validate w).2;
  cl_observe w : E w -> E (dh_observe w).2; cl_healthy s w : E w -> E (dh_productionHealthy s w).2;
  cl_inspect s w : E w -> E (dh_inspect s w).2; cl_stop w : E w -> E (dh_stop w).2;
  cl_fileHash w : E w -> E (dh_fileHash w).2; cl_pollInterval w : E w -> E (dh_configPollInterval w).2
}.

Variable E : W -> Prop.
Hypothesis HE : closed E.
Definition keeps {A} (f : W -> A * W) : Prop := forall w, E w -> E (f w).2.

Lemma stays_bind {A B} (m : SM W A) (k : A -> SM W B) : keeps m -> (forall a, keeps (k a)) -> keeps (sbind m k).
Proof.
  intros Hm Hk w Hw. unfold sbind. specialize (Hm w Hw). destruct (m w) as [[a|e] w']; [by apply Hk|done].
Qed.
Lemma keeps_wrap {A} p (m : SM W A) : keeps m -> keeps (swrap p m).
Proof. intros Hm w Hw. unfold swrap. specialize (Hm w Hw). by destruct (m w) as [[a|e] w']. Qed.
Lemma stays_call (f : W -> option error * W) : keeps f -> keeps (scall f).
Proof. intros Hm w Hw. unfold scall. specialize (Hm w Hw). by destruct (f w). Qed.
Lemma keeps_ask {A} (f : W -> A * W) : keeps f -> keeps (sask f).
Proof. intros Hm w Hw. unfold sask. specialize (Hm w Hw). by destruct (f w). Qed.
Lemma keeps_file {A} p (f : W -> (A + file_error) * W) : keeps f -> keeps (file_call p f).
Proof. intros Hm w Hw. unfold file_call. specialize (Hm w Hw). by destruct (f w). Qed.
Lemma stays_ret {A} (a : A) : keeps (sret (W := W) a).
Proof. by intros w. Qed.
Lemma keeps_fail {A} e : keeps (sfail (W := W) (A := A) e).
Proof. by intros w. Qed.
Lemma keeps_pure {A} (r : A + error) : keeps (pure (W := W) r).
Proof. by intros w. Qed.
Lemma keeps_reject {A} (b : bool) e (k : SM W A) : keeps k -> keeps (reject b with e in k).
Proof. intros Hk. destruct b; [by intros w|done]. Qed.

Lemma keeps_ensure_dir d : not_request d -> keeps (ensure_dir d).
Proof.
  intros Hd'.
  apply stays_bind; [apply keeps_wrap, stays_call; intros w; by apply cl_mkdirAll|intros _].
  apply stays_bind; [apply keeps_file; intros w; by apply cl_lstat|intros b]. apply keeps_reject, keeps_wrap, stays_call.
  intros w. by apply cl_chmod.
Qed.
Lemma keeps_ensureRequestDirs : keeps ensureRequestDirs.
Proof. apply stays_bind; [by apply keeps_ensure_dir|intros _; by apply keeps_ensure_dir]. Qed.
Lemma keeps_read p : keeps (readRegularControlFile p).
Proof. intros w Hw. unfold readRegularControlFile. pose proof (cl_open _ HE p w Hw). by destruct (cf_open p w) as [[]]. Qed.
Lemma keeps_then_close {A} (f : W -> option error * W) (tmp : control_path) (k : unit -> SM W A) : keeps f -> (forall u, keeps (k u)) ->
  keeps (sbind (fun w => match f w with (Some e, w) => (inr e, (cf_close tmp w).2) | (None, w) => (inl tt, w) end) k).
Proof.
  intros Hf Hk. apply stays_bind; [|done]. intros w Hw. specialize (Hf w Hw). destruct (f w) as [[e|] w']; [by apply cl_close|done].
Qed.
Lemma keeps_write_temp tmp data target dir w0 : (cf_createTemp dir w0).1 = inl tmp -> not_request target ->
  keeps (write_temp tmp data target).
Proof.
  intros Htmp Ht. apply keeps_then_close; [intros w; by apply cl_chmod|intros _].
  apply keeps_then_close; [intros w; by eapply cl_write|intros _].
  apply keeps_then_close; [intros w; by apply cl_sync|intros _].
  apply stays_bind; [apply stays_call; intros w; by apply cl_close|intros _]. apply stays_call. intros w. by apply cl_rename.
Qed.
Lemma keeps_writeJSON dir target data : not_request dir -> not_request target -> keeps (writeJSONAtomicMode dir target data).
Proof.
  intros Hdir Ht. apply stays_bind; [apply stays_call; intros w; by apply cl_mkdirAll|intros _]. apply stays_bind; [apply keeps_pure|intros d].
  intros w Hw. unfold sbind. pose proof (cl_createTemp _ HE dir w Hw) as H1.
  destruct (cf_createTemp dir w) as [[tmp|e] w1] eqn:E1; [|done].
  pose proof (keeps_write_temp tmp d target dir w ltac:(by rewrite E1) Ht w1 H1) as H2.
  destruct (write_temp tmp d target w1). by apply cl_remove.
Qed.
Lemma keeps_newRequestID : keeps newRequestID.
Proof. apply stays_bind; [apply keeps_wrap; intros w; by apply cl_random|intros r; apply stays_ret]. Qed.
Lemma keeps_readRequestAck id : keeps (readRequestAck id).
Proof.
  intros w Hw. unfold readRequestAck. pose proof (keeps_read (ackPath id) w Hw). by destruct (readRegularControlFile _ w) as [[]].
Qed.
Lemma stays_remove p f : keeps (remove_file p f).
Proof.
  apply keeps_wrap, stays_call. intros w Hw. pose proof (cl_remove _ HE f w Hw). by destruct (cf_remove f w).
Qed.
Lemma keeps_readPending name id : keeps (readPendingRequest name id).
Proof.
  apply stays_bind; [apply keeps_ask, keeps_read|]. intros [data|[]]; [|apply stays_ret|apply keeps_fail].
  apply stays_bind; [apply keeps_wrap, keeps_pure|intros r]. apply keeps_reject. destruct (validateRequest r); [apply keeps_fail|].
  apply stays_bind; [apply keeps_ask, keeps_readRequestAck|]. intros [ack|[]]; [|apply stays_ret|apply keeps_fail].
  destruct (validateAckForRequest ack r); [apply keeps_fail|]. apply stays_bind; [apply stays_remove|intros _; apply stays_ret].
Qed.
Lemma keeps_read_pending l : keeps (read_pending l).
Proof.
  induction l as [|e l IH]; [apply stays_ret|]. cbn. destruct (negb (is_json e)); [done|].
  apply stays_bind; [apply keeps_readPending|intros p]. apply stays_bind; [done|intros rest; apply stays_ret].
Qed.
Lemma keeps_pendingRequests : keeps pendingRequests.
Proof.
  apply stays_bind; [apply keeps_ensureRequestDirs|intros _]. apply stays_bind; [apply keeps_file; intros w; by apply cl_readDir|intros l].
  apply stays_bind; [apply keeps_read_pending|intros p; apply stays_ret].
Qed.
Lemma keeps_acknowledge p s e : keeps (acknowledgeRequest p s e).
Proof. apply stays_bind; [by apply keeps_wrap, keeps_writeJSON|intros _; apply stays_remove]. Qed.
Lemma keeps_candidates l : keeps (ack_candidates l).
Proof.
  induction l as [|e l IH]; [apply stays_ret|]. cbn. destruct (negb (is_json e)); [done|].
  apply stays_bind; [apply keeps_ask; intros w; by apply cl_modTime|]. intros [t|[]]; [|done|apply keeps_fail].
  apply stays_bind; [done|intros r; apply stays_ret].
Qed.
Lemma keeps_prune_candidates l : forall n, keeps (prune_candidates n l).
Proof.
  induction l as [|c l IH]; intros n; [apply stays_ret|]. cbn. destruct (n <=? _); [apply stays_ret|].
  apply stays_bind; [apply keeps_ask; intros w; by apply cl_lstat|]. intros [t|[]]; [done| |apply keeps_fail].
  apply stays_bind; [apply stays_remove|done].
Qed.
Lemma keeps_prune : keeps pruneAcknowledgements.
Proof.
  apply stays_bind; [apply keeps_ask; intros w; by apply cl_readDir|]. intros [l|[]]; [|apply stays_ret|apply keeps_fail].
  apply stays_bind; [apply keeps_candidates|intros cs]. destruct (_ <=? _); [apply stays_ret|].
  apply stays_bind; [apply keeps_prune_candidates|intros r]. apply keeps_reject, stays_ret.
Qed.
Lemma keeps_healthy s : keeps (dataplaneHealthy s).
Proof.
  intros w Hw. destruct s as [s|]; [|done]. cbn. pose proof (cl_healthy _ HE s w Hw) as H1.
  destruct (dh_productionHealthy s w) as [[b|] w1]; [done|]. pose proof (cl_inspect _ HE s w1 H1) as H2.
  destruct (dh_inspect s w1) as [[[k|]|e] w2]; [|done|done]. by destruct (_ || _).
Qed.
Lemma keeps_legacy n : keeps (readLegacyRequestValue n).
Proof.
  intros w Hw. unfold readLegacyRequestValue. pose proof (keeps_read (RunFile n) w Hw). by destruct (readRegularControlFile _ w) as [[|[]]].
Qed.
Lemma keeps_requestStamp : keeps requestStamp.
Proof.
  intros w Hw. unfold requestStamp. pose proof (keeps_legacy "reload.request" w Hw) as H1.
  destruct (readLegacyRequestValue _ w) as [r w1]. pose proof (keeps_legacy "runtime.request" w1 H1) as H2.
  by destruct (readLegacyRequestValue _ w1) as [t w2].
Qed.
End preserved.

(** ** A run, call by call *)

(** The requests that were carried out, and the answers with whether they were
    delivered. *)
Definition executed_of (a : daemon_action) : list string :=
  match a with ActReload _ (Some r) _ => [dr_ID r] | _ => [] end.
Definition answered_of (a : daemon_action) : list (string * bool) :=
  match a with ActAck id _ _ err => [(id, match err with None => true | Some _ => false end)] | _ => [] end.
Definition executed : list daemon_action -> list string := flat_map executed_of.
Definition answered : list daemon_action -> list (string * bool) := flat_map answered_of.
Definition open_life (l : life) : Prop := l = Leased \/ l = Stopping.

Section walk.
Context {W : Type} `{Hfs : ControlFS W} `{Hj : ControlJSON} `{Hd : DaemonHooks W}.
Variables (opts : Options) (instance : string) (E : W -> Prop).
Hypothesis HE : closed E.
Hypothesis Htext : forall w r e, (dh_reloadEnd w).1 = (r, Some e) -> e <> "".
Implicit Types (x : daemon_run W) (ex : list string) (ak : list (string * bool)).

Record ok (l : life) ex ak x : Prop := {
  ok_env : E (ru_env x);
  ok_truth : truthful opts instance (ru_log x);
  ok_life : life_of (ru_log x) = Some l;
  ok_ex : executed (ru_log x) = ex;
  ok_ak : answered (ru_log x) = ak;
  ok_stopped : ds_State (ru_status x) = "stopped" -> stop_done opts (ru_log x);
  ok_active : ds_State (ru_status x) = "active" -> reload_done (ru_log x);
  ok_fingerprint : ru_lastFingerprint x <> "" -> reload_done (ru_log x);
  ok_instance : ds_InstanceID (ru_status x) = instance;
  ok_config : ds_ConfigPath (ru_status x) = cfg_path opts
}.

Lemma ok_call {A} (f : W -> A * W) a l ex ak x x' : keeps E f -> call_env f x = (a, x') -> ok l ex ak x -> ok l ex ak x'.
Proof.
  intros Hf Hc [? ? ? ? ? ? ? ? ? ?]. unfold call_env in Hc. specialize (Hf (ru_env x)). destruct (f (ru_env x)) as [b w].
  injection Hc as <- <-. split; try done. by apply Hf.
Qed.
Lemma call_status {A} (f : W -> A * W) a x x' : call_env f x = (a, x') ->
  ru_status x' = ru_status x /\ ru_log x' = ru_log x /\ ru_lastFingerprint x' = ru_lastFingerprint x.
Proof. unfold call_env. destruct (f (ru_env x)) as [b w]. by intros [= <- <-]. Qed.
Lemma ok_set_status s l ex ak x : ok l ex ak x -> (ds_State s = "stopped" -> stop_done opts (ru_log x)) ->
  (ds_State s = "active" -> reload_done (ru_log x)) -> ds_InstanceID s = instance -> ds_ConfigPath s = cfg_path opts ->
  ok l ex ak (set_status s x).
Proof. intros []. by split. Qed.
Lemma ok_outcome st reason err need l ex ak x : ok l ex ak x -> st <> "stopped" -> (st = "active" -> reload_done (ru_log x)) ->
  ok l ex ak (set_status (with_outcome st reason err need (cfg_path opts) (ru_status x)) x).
Proof. intros Hk Hs Ha. apply ok_set_status; [done|done|done|apply Hk|done]. Qed.
Lemma ok_current c l ex ak x : ok l ex ak x -> ok l ex ak (set_status (with_current c (ru_status x)) x).
Proof. intros Hk. apply ok_set_status; [done|apply Hk|apply Hk|apply Hk|apply Hk]. Qed.
Lemma ok_result r l ex ak x : ok l ex ak x -> ok l ex ak (set_status (with_result r (ru_status x)) x).
Proof. intros Hk. apply ok_set_status; [done|apply Hk|apply Hk|apply Hk|apply Hk]. Qed.
Lemma ok_request id kind l ex ak x : ok l ex ak x -> ok l ex ak (set_status (with_request id kind (ru_status x)) x).
Proof. intros Hk. apply ok_set_status; [done|apply Hk|apply Hk|apply Hk|apply Hk]. Qed.
Lemma stop_done_app log log' : stop_done opts log -> stop_done opts (log ++ log').
Proof. intros [|]; [by left|right]. apply elem_of_app. by left. Qed.
Lemma reload_done_app log log' : reload_done log -> reload_done (log ++ log').
Proof. intros (reason & r & Hr). exists reason, r. apply elem_of_app. by left. Qed.
Lemma ok_log a l l' ex ak x : ok l ex ak x -> life_step l a = Some l' -> asserts opts instance (ru_log x) a ->
  ok l' (ex ++ executed_of a) (ak ++ answered_of a) (log_action a x).
Proof.
  intros [] Hl Ha. split; cbn; try done.
  - by constructor.
  - by rewrite life_snoc, ok_life0.
  - unfold executed in *. rewrite flat_map_app, ok_ex0. cbn. by rewrite app_nil_r.
  - unfold answered in *. rewrite flat_map_app, ok_ak0. cbn. by rewrite app_nil_r.
  - intros Hs. by apply stop_done_app, ok_stopped0.
  - intros Hs. by apply reload_done_app, ok_active0.
  - intros Hs. by apply reload_done_app, ok_fingerprint0.
Qed.
Lemma ok_log_quiet a l ex ak x : ok l ex ak x -> open_life l -> life_step l a = Some l -> executed_of a = [] -> answered_of a = [] ->
  asserts opts instance (ru_log x) a -> ok l ex ak (log_action a x).
Proof.
  intros Hk Hl Hs He Ha Hc. pose proof (ok_log a l l ex ak x Hk Hs Hc) as Ho. by rewrite He, Ha, !app_nil_r in Ho.
Qed.

(** *** Status and acknowledgements *)

Lemma write_status_ok p l ex ak x : ok l ex ak x -> open_life l ->
  let '(err, x') := write_status_as p x in ok l ex ak x' /\ ru_status x' = ru_status x /\ ru_lastFingerprint x' = ru_lastFingerprint x /\
  exists e, ru_log x' = ru_log x ++ [ActStatus (ru_status x) e].
Proof.
  intros Hk Hl. unfold write_status_as, writeStatus. destruct (call_env _ x) as [r x1] eqn:Ec. cbn.
  pose proof (call_status _ _ _ _ Ec) as (Es & El & Ef).
  pose proof (ok_call _ _ _ _ _ _ _ (keeps_writeJSON _ HE RunDir (RunFile "status.json") _ I I) Ec Hk) as H1.
  split; [|cbn; rewrite Es, El, Ef; eauto]. apply ok_log_quiet; [done|done|by destruct Hl as [->| ->]|done|done|].
  rewrite El. split; apply Hk.
Qed.
Lemma acknowledge_ok p rep l ex ak x : ok l ex ak x -> open_life l ->
  (rep = None -> asserts opts instance (ru_log x) (ActAck (dr_ID (pq_request p)) (ru_status x) None None)) ->
  let '(err, x') := acknowledge p rep x in
  ok l ex (ak ++ [(dr_ID (pq_request p), match err with None => true | Some _ => false end)]) x' /\
  ru_status x' = ru_status x /\ exists e, ru_log x' = ru_log x ++ [ActAck (dr_ID (pq_request p)) (ru_status x) rep e].
Proof.
  intros Hk Hl Hr. unfold acknowledge. destruct (call_env _ x) as [r x1] eqn:Ec. pose proof (call_status _ _ _ _ Ec) as (Es & El & Ef).
  pose proof (ok_call _ _ _ _ _ _ _ (keeps_acknowledge _ HE _ _ _) Ec Hk) as H1.
  split; [|cbn; rewrite Es, El; eauto].
  pose proof (ok_log (ActAck (dr_ID (pq_request p)) (ru_status x) rep (sum_error r)) l l _ _ x1 H1) as Hf.
  cbn [executed_of answered_of] in Hf. rewrite app_nil_r in Hf. apply Hf; [by destruct Hl as [->| ->]|].
  rewrite El. destruct rep; [done|]. by apply Hr.
Qed.

(** *** Shutdown *)

Definition downed : life := if op_DryRun opts then Leased else Stopping.
Lemma downed_open : open_life downed.
Proof. unfold downed, open_life. destruct (op_DryRun opts); auto. Qed.
Lemma run_stop_ok ex ak x : ok Leased ex ak x ->
  let '((r, err), x') := runStopBounded x in ok Stopping ex ak x' /\ ru_status x' = ru_status x /\
  (err = None -> ActStop None ∈ ru_log x').
Proof.
  intros Hk. unfold runStopBounded. destruct (call_env dh_retainLease x) as [[e|] x1] eqn:E1.
  - pose proof (call_status _ _ _ _ E1) as (Es & _). pose proof (ok_call _ _ _ _ _ _ _ (cl_retain _ HE) E1 Hk) as H1.
    split; [|by split]. pose proof (ok_log (ActStopRefused e) Leased Stopping _ _ x1 H1 eq_refl I) as Hf. by rewrite !app_nil_r in Hf.
  - pose proof (call_status _ _ _ _ E1) as (Es & _). pose proof (ok_call _ _ _ _ _ _ _ (cl_retain _ HE) E1 Hk) as H1.
    destruct (call_env dh_stop x1) as [race x2] eqn:E2. pose proof (call_status _ _ _ _ E2) as (Es2 & _).
    pose proof (ok_call _ _ _ _ _ _ _ (cl_stop _ HE) E2 H1) as H2.
    destruct (match race with StopDone _ _ _ _ => _ | StopLate _ _ _ _ => _ | StopAbandoned _ => _ end) as [r err].
    pose proof (ok_log (ActStop err) Leased Stopping _ _ x2 H2 eq_refl I) as Hf. rewrite !app_nil_r in Hf.
    split; [done|]. split; [cbn; congruence|]. intros ->. cbn. apply elem_of_app. right. by left.
Qed.
Lemma join_none a b : errors_Join a b = None <-> a = None /\ b = None.
Proof. by destruct a, b; split; [| intros [? ?]|..]; cbn; try done; intros [? ?]. Qed.
Lemma shutdown_ok reason trig ex ak x : ok Leased ex ak x ->
  let '(err, x') := shutdown opts reason trig x in ok downed ex ak x' /\
  (err = None -> ds_State (ru_status x') = "stopped" /\ stop_done opts (ru_log x')).
Proof.
  intros Hk. unfold shutdown.
  set (x0 := set_status _ x). assert (H0 : ok Leased ex ak x0) by (apply ok_set_status; [done|apply Hk|apply Hk|apply Hk|done]).
  set (cleanup := if op_DryRun opts then _ else _).
  assert (Hc : ok downed ex ak cleanup.2 /\ (cleanup.1 = None -> stop_done opts (ru_log cleanup.2))).
  { subst cleanup. unfold downed, stop_done. destruct (op_DryRun opts); [by split; [|left]|]. pose proof (run_stop_ok _ _ _ H0) as Hs.
    destruct (runStopBounded x0) as [[r err] x1]. destruct Hs as (H1 & _ & Hn).
    set (x2 := match r with Some _ => _ | None => x1 end).
    assert (H2 : ok Stopping ex ak x2 /\ ru_log x2 = ru_log x1) by (subst x2; destruct r; [by split; [apply ok_result|]|by split]).
    cbn. split; [apply H2|]. destruct H2 as [_ ->]. destruct err; [done|]. intros _. right. auto. }
  destruct cleanup as [cleanupErr x1]. cbn in Hc. destruct Hc as [H1 Hs].
  set (x2 := set_status _ x1).
  assert (H2 : ok downed ex ak x2).
  { subst x2. destruct (errors_Join trig cleanupErr) eqn:Ej; [by apply ok_outcome|].
    apply join_none in Ej as [_ ->]. apply ok_set_status; [done|auto|done|apply H1|done]. }
  pose proof (write_status_ok "write final daemon status: " _ _ _ _ H2 downed_open) as Hw.
  destruct (write_status_as _ x2) as [statusErr x3]. destruct Hw as (H3 & Es & _ & e & El). split; [done|].
  intros [Ej _]%join_none. rewrite Es, El. subst x2. rewrite Ej. cbn. split; [done|]. apply stop_done_app, Hs.
  by apply join_none in Ej as [_ ->].
Qed.

(** *** Applying the configuration *)

Lemma daemon_observe_ok l ex ak x : ok l ex ak x -> let '(c, x') := observeCurrent x in ok l ex ak x' /\
  ru_status x' = ru_status x /\ ru_log x' = ru_log x /\ ru_lastFingerprint x' = ru_lastFingerprint x.
Proof.
  intros Hk. unfold observeCurrent. destruct (call_env dh_observe x) as [[r e] x1] eqn:E1.
  split; [exact (ok_call _ _ _ _ _ _ _ (cl_observe _ HE) E1 Hk)|]. by apply call_status in E1.
Qed.
Lemma progress_ok reason n : forall errs ex ak x, ok Leased ex ak x ->
  let '(_, x') := reload_progress opts reason n errs x in ok Leased ex ak x'.
Proof.
  induction n as [|n IH]; intros errs ex ak x Hk; cbn; [done|]. destruct (call_env dh_reloadProgress x) as [o x1] eqn:E1.
  pose proof (ok_call _ _ _ _ _ _ _ (cl_reloadProgress _ HE) E1 Hk) as H1. destruct (negb _); [by apply IH|].
  set (x2 := set_status _ x1). assert (H2 : ok Leased ex ak x2) by (apply ok_set_status; [done|done|done|apply H1|done]).
  pose proof (write_status_ok ("write " +:+ reason +:+ " progress status: ") _ _ _ _ H2 (or_introl eq_refl)) as Hw.
  destruct (write_status_as _ x2) as [err x3]. by apply IH, Hw.
Qed.
Lemma observe_failure_ok l ex ak x : ok l ex ak x -> ok l ex ak (observe_failure x) /\
  ds_LastError (ru_status (observe_failure x)) = ds_LastError (ru_status x) /\ ru_log (observe_failure x) = ru_log x.
Proof.
  intros Hk. unfold observe_failure. destruct (match ds_Current _ with Some _ => _ | None => _ end); [done|].
  pose proof (daemon_observe_ok _ _ _ _ Hk) as Ho. destruct (observeCurrent x) as [c x1]. destruct Ho as (H1 & Es & El & _).
  split; [by apply ok_current|]. cbn. by rewrite Es, El.
Qed.
Lemma observe_success_ok r l ex ak x : ok l ex ak x -> ok l ex ak (observe_success r x) /\
  ds_LastError (ru_status (observe_success r x)) = ds_LastError (ru_status x) /\ ru_log (observe_success r x) = ru_log x.
Proof.
  intros Hk.
  assert (Hf : let x' := (let '(current, x) := observeCurrent x in
    match current with Some _ => set_status (with_current current (ru_status x)) x | None => x end) in
    ok l ex ak x' /\ ds_LastError (ru_status x') = ds_LastError (ru_status x) /\ ru_log x' = ru_log x).
  { pose proof (daemon_observe_ok _ _ _ _ Hk) as Ho. destruct (observeCurrent x) as [c x1]. destruct Ho as (H1 & Es & El & _).
    destruct c; (split; [by try apply ok_current|]); cbn; by rewrite Es, El. }
  destruct r as [[? ? ? [o|]]|]; [|exact Hf|exact Hf]. split; [by apply ok_current|done].
Qed.
(** The request that may be carried out. *)
Definition admissible (r : daemonRequest) : Prop := asserts opts instance [] (ActReload "" (Some r) None).
Definition new_request (req : option daemonRequest) : list string := match req with Some r => [dr_ID r] | None => [] end.
Lemma force_reload_ok reason req hash ex ak x : ok Leased ex ak x -> (forall r, req = Some r -> admissible r) ->
  let '(_, x') := force_reload opts reason req hash x in ok Leased (ex ++ new_request req) ak x' /\
  (ds_LastError (ru_status x') = "" -> ActReload reason req None ∈ ru_log x').
Proof.
  intros Hk Hr. unfold force_reload. destruct (call_env dh_reloadBegin x) as [n x1] eqn:E1.
  pose proof (ok_call _ _ _ _ _ _ _ (cl_reloadBegin _ HE) E1 Hk) as H1. pose proof (progress_ok reason n None _ _ _ H1) as H2.
  destruct (reload_progress opts reason n None x1) as [pe x2]. destruct (call_env dh_reloadEnd x2) as [[result err] x3] eqn:E3.
  pose proof (ok_call _ _ _ _ _ _ _ (cl_reloadEnd _ HE) E3 H2) as H3.
  assert (Hne : forall e, err = Some e -> e <> "").
  { intros e ->. apply (Htext (ru_env x2) result). unfold call_env in E3. destruct (dh_reloadEnd (ru_env x2)). by injection E3 as -> _. }
  assert (Ha : asserts opts instance (ru_log x3) (ActReload reason req err)).
  { cbn. destruct req as [r|]; [|done]. exact (Hr r eq_refl). }
  pose proof (ok_log (ActReload reason req err) Leased Leased _ _ x3 H3 eq_refl Ha) as H4. cbn [answered_of] in H4.
  rewrite app_nil_r in H4. change (executed_of (ActReload reason req err)) with (new_request req) in H4.
  set (x4 := log_action _ x3) in *. cbv zeta.
  set (x5 := match err with Some _ => _ | None => _ end).
  assert (H5 : ok Leased (ex ++ new_request req) ak x5 /\ (ds_LastError (ru_status x5) = "" -> err = None) /\ ru_log x5 = ru_log x4).
  { subst x5. destruct err as [e|].
    - set (y := set_status _ x4). assert (Hy : ok Leased (ex ++ new_request req) ak y) by by apply ok_outcome.
      destruct (observe_failure_ok _ _ _ _ Hy) as (Hf & El & Eg). split; [done|]. rewrite El, Eg. split; [|done].
      cbn. intros Hz. exfalso. by apply (redact_nonempty e (Hne e eq_refl)).
    - assert (Hrd : reload_done (ru_log x4)) by (exists reason, req; cbn; apply elem_of_app; right; by left).
      set (y := set_status _ x4). assert (Hy : ok Leased (ex ++ new_request req) ak y) by (apply ok_set_status; [done|done|done|apply H4|done]).
      destruct (observe_success_ok result _ _ _ _ Hy) as (Hf & El & Eg). split; [|split; [done|exact Eg]].
      destruct Hf. split; try done. intros _. cbn. rewrite Eg. done. }
  destruct H5 as (H5 & He & El). pose proof (write_status_ok ("write " +:+ reason +:+ " daemon status: ") _ _ _ _ H5 (or_introl eq_refl)) as Hw.
  destruct (write_status_as _ x5) as [se x6]. destruct Hw as (H6 & Es & _ & e' & El'). split; [done|]. rewrite Es, El', El.
  intros Hz. subst x4. cbn. rewrite (He Hz), !elem_of_app. left. right. by left.
Qed.
Lemma poll_unchanged_ok l ex ak x : ok l ex ak x -> let '(r, x') := poll_unchanged opts x in ok l ex ak x' /\
  (is_Some r -> ru_lastFingerprint x' = ru_lastFingerprint x).
Proof.
  intros Hk. unfold poll_unchanged. destruct (call_env dh_validate x) as [[r e] x1] eqn:E1.
  pose proof (ok_call _ _ _ _ _ _ _ (cl_validate _ HE) E1 Hk) as H1. apply call_status in E1 as (_ & _ & Ef).
  destruct e; [by split; [|intros []]|]. destruct r as [r|]; [|by split; [|intros []]].
  destruct (negb _); [by split; [|intros []]|]. destruct (_ || _); [by split|].
  destruct (call_env (dataplaneHealthy (rs_State r)) x1) as [h x2] eqn:E2.
  pose proof (ok_call _ _ _ _ _ _ _ (keeps_healthy _ HE _) E2 H1) as H2. apply call_status in E2 as (_ & _ & Ef2).
  split; [done|]. by rewrite Ef2.
Qed.
Lemma runOnce_ok reason req ex ak x : ok Leased ex ak x -> (forall r, req = Some r -> admissible r /\ reason = "reload-request") ->
  let '(_, x') := runOnce opts reason req x in ok Leased (ex ++ new_request req) ak x' /\
  (reason = "reload-request" -> ds_LastError (ru_status x') = "" -> ActReload reason req None ∈ ru_log x').
Proof.
  intros Hk Hr. unfold runOnce. destruct (call_env dh_fileHash x) as [hash x1] eqn:E1.
  pose proof (ok_call _ _ _ _ _ _ _ (cl_fileHash _ HE) E1 Hk) as H1. destruct (config_changed reason hash x1) eqn:Ecc.
  - assert (Hn : reason <> "reload-request") by by intros ->.
    assert (Hnew : new_request req = []) by (destruct req as [r|]; [by destruct (Hr r eq_refl)|done]). rewrite Hnew, app_nil_r.
    set (x2 := set_status _ x1). assert (H2 : ok Leased ex ak x2) by by apply ok_outcome.
    pose proof (daemon_observe_ok _ _ _ _ H2) as Ho. destruct (observeCurrent x2) as [c x3]. destruct Ho as (H3 & _).
    pose proof (write_status_ok "write config-changed daemon status: " _ _ _ _ (ok_current c _ _ _ _ H3) (or_introl eq_refl)) as Hw.
    destruct (write_status_as _ _) as [se x4]. by split; [apply Hw|].
  - set (u := if String.eqb reason "poll" && negb (String.eqb (ru_lastFingerprint x1) "") then poll_unchanged opts x1 else (None, x1)).
    assert (Hu : ok Leased ex ak u.2 /\ (is_Some u.1 -> reason = "poll" /\ reload_done (ru_log u.2))).
    { subst u. destruct (String.eqb reason "poll" && negb (String.eqb (ru_lastFingerprint x1) "")) eqn:Ep; [|by split; [|intros []]].
      apply andb_true_iff in Ep as [Ep Ef]. pose proof (poll_unchanged_ok _ _ _ _ H1) as Hp.
      destruct (poll_unchanged opts x1) as [r x2]. destruct Hp as [H2 Hfp]. split; [done|]. intros Hsome. split; [by apply String.eqb_eq|].
      apply (ok_fingerprint _ _ _ _ H2). cbn. rewrite (Hfp Hsome). intros Ee. by rewrite Ee in Ef. }
    destruct u as [r x2]. cbn in Hu. destruct Hu as [H2 Hsome]. destruct r as [r|].
    + destruct (Hsome (ex_intro _ r eq_refl)) as [-> Hrd]. assert (Hnew : new_request req = []).
      { destruct req as [q|]; [by destruct (Hr q eq_refl)|done]. } rewrite Hnew, app_nil_r.
      pose proof (daemon_observe_ok _ _ _ _ H2) as Ho. destruct (observeCurrent x2) as [c x3]. destruct Ho as (H3 & Es & El & _).
      set (x4 := match c with Some _ => _ | None => x3 end).
      assert (H4 : ok Leased ex ak x4 /\ ru_log x4 = ru_log x2) by (subst x4; destruct c; [by split; [apply ok_current|]|by split]).
      set (x5 := set_status _ x4). assert (H5 : ok Leased ex ak x5).
      { apply ok_set_status; [apply H4|done| |apply H4|done]. intros _. by rewrite (proj2 H4). }
      pose proof (write_status_ok "write poll-noop daemon status: " _ _ _ _ H5 (or_introl eq_refl)) as Hw.
      destruct (write_status_as _ x5) as [se x6]. by split; [apply Hw|].
    + pose proof (force_reload_ok reason req hash _ _ _ H2) as Hf. destruct (force_reload opts reason req hash x2) as [err x3].
      destruct Hf as [H3 He]; [intros q Eq; by apply Hr|]. by split.
Qed.
Lemma legacy_warnings_ok warnings l ex ak x : ok l ex ak x -> open_life l ->
  let '(_, x') := recordLegacyWarnings warnings x in ok l ex ak x'.
Proof.
  intros Hk Hl. destruct warnings as [|w ws]; [done|]. unfold recordLegacyWarnings. cbv zeta.
  set (s := if negb _ then _ else _). assert (H1 : ok l ex ak (set_status s x)).
  { subst s. destruct (negb _); apply ok_set_status; try apply Hk; done. }
  pose proof (write_status_ok "write ignored legacy request status: " _ _ _ _ H1 Hl) as Hw.
  destruct (write_status_as _ _) as [e x1]. apply Hw.
Qed.
Lemma prune_ok pending l ex ak x : ok l ex ak x -> let '(_, x') := pruneAckHistory pending x in ok l ex ak x'.
Proof.
  intros Hk. unfold pruneAckHistory. destruct (_ && _); [done|]. destruct (call_env _ _) as [r x1] eqn:E1.
  refine (ok_call _ _ _ _ _ _ _ (keeps_prune _ HE) E1 _). by destruct Hk.
Qed.
Lemma serve_legacy_ok ex ak x : ok Leased ex ak x -> let '(_, x') := serve_legacy opts x in ok Leased ex ak x'.
Proof.
  intros Hk. unfold serve_legacy. destruct (call_env requestStamp x) as [stamp x1] eqn:E1.
  pose proof (ok_call _ _ _ _ _ _ _ (keeps_requestStamp _ HE) E1 Hk) as H1. destruct (bool_decide _); [done|]. cbv zeta.
  assert (H2 : ok Leased ex ak (set_legacy stamp x1)) by (destruct H1; by split).
  assert (Hr : forall reason, let '(_, x') := runOnce opts reason None (set_legacy stamp x1) in ok Leased ex ak x').
  { intros reason. pose proof (runOnce_ok reason None _ _ _ H2) as Hf. destruct (runOnce _ _ _ _) as [e x2].
    destruct Hf as [Hf _]; [done|]. by rewrite app_nil_r in Hf. }
  set (reloadChanged := negb _). set (runtimeChanged := negb _).
  set (ev := if reloadChanged && _ && _ then _ else _).
  assert (Hev : ok Leased ex ak ev.2).
  { subst ev. destruct (reloadChanged && _ && _); [specialize (Hr "reload-request"); by destruct (runOnce _ _ _ _)|].
    destruct (runtimeChanged && _ && _); [specialize (Hr "runtime-event"); by destruct (runOnce _ _ _ _)|done]. }
  destruct ev as [[e|] x2]; [done|]. by apply legacy_warnings_ok; [|left].
Qed.
End walk.

(** ** Requests *)

Lemma substring_all s : String.substring 0 (String.length s) s = s.
Proof. induction s as [|c s IH]; cbn; [done|]. by rewrite IH. Qed.
Lemma substring_split s : forall k, (k <= String.length s)%nat ->
  String.substring 0 k s +:+ String.substring k (String.length s - k) s = s.
Proof.
  induction s as [|c s IH]; intros [|k] Hk; cbn in *; [done|lia| |].
  - change (String c (String.substring 0 (String.length s) s) = String c s). by rewrite substring_all.
  - change (String c (String.substring 0 k s +:+ String.substring k (String.length s - k) s) = String c s).
    f_equal. apply IH. lia.
Qed.
Lemma suffix_split s : HasSuffix s ".json" = true -> json_name (TrimSuffix s ".json") = s.
Proof.
  intros Hs. unfold TrimSuffix. rewrite Hs. unfold HasSuffix in Hs. cbv zeta in Hs. apply andb_true_iff in Hs as [Hl He].
  apply Nat.leb_le in Hl. apply String.eqb_eq in He. unfold json_name. rewrite <- He at 2.
  replace (String.length ".json") with (String.length s - (String.length s - String.length ".json"))%nat at 3 by (cbn in *; lia).
  apply substring_split. lia.
Qed.

Section pending.
Context {W : Type} `{Hfs : ControlFS W} `{Hj : ControlJSON}.
Implicit Types w : W.

(** A pending request is valid and was read from its own file. *)
Definition proper (p : pendingRequest) : Prop :=
  validateRequest (pq_request p) = None /\ pq_path p = json_name (dr_ID (pq_request p)).
Lemma read_pending_name name id w p w' : readPendingRequest name id w = (inl (Some p), w') ->
  pq_path p = name /\ dr_ID (pq_request p) = id /\ validateRequest (pq_request p) = None /\
  exists data w1, readRegularControlFile (RequestFile name) w = (inl data, w1).
Proof.
  unfold readPendingRequest, sbind, sask. destruct (readRegularControlFile _ w) as [[data|[]] w1]; [|done|done]. unfold swrap, pure.
  destruct (cj_decodeRequest data) as [r|e]; [|done]. destruct (negb (String.eqb (dr_ID r) id)) eqn:Ei; [done|].
  destruct (validateRequest r) eqn:Ev; [done|]. destruct (readRequestAck id w1) as [[ack|[]] w2]; [|intros [= <- <-]|done].
  - destruct (validateAckForRequest ack r); [done|]. by destruct (remove_file _ _ w2) as [[]].
  - cbn. apply negb_false_iff, String.eqb_eq in Ei. eauto 10.
Qed.
Lemma read_pending_spec entries : forall w ps w', read_pending entries w = (inl ps, w') ->
  Forall proper ps /\ map pq_path ps `sublist_of` map en_Name entries.
Proof.
  induction entries as [|e entries IH]; intros w ps w'; cbn; [by intros [= <- <-]|]. destruct (negb (is_json e)) eqn:Ej.
  - intros [Hp Hs]%IH. split; [done|]. by constructor.
  - unfold sbind. destruct (readPendingRequest _ _ w) as [[p|er] w1] eqn:E1; [|done].
    destruct (read_pending entries w1) as [[rest|er] w2] eqn:E2; [|done]. intros [= <- <-].
    destruct (IH _ _ _ E2) as [Hp Hs]. destruct p as [p|]; [|by split; [|constructor]].
    destruct (read_pending_name _ _ _ _ _ E1) as (Ep & Ei & Ev & _). apply negb_false_iff, andb_true_iff in Ej as [_ Ej]. split.
    + constructor; [|done]. split; [done|]. by rewrite Ei, Ep, suffix_split.
    + cbn. rewrite Ep. by constructor.
Qed.
Lemma daemon_pending_spec w ps w' : pendingRequests w = (inl ps, w') -> Forall proper ps /\
  exists entries w1 w2, cf_readDir RequestsDir w1 = (inl entries, w2) /\ exists l, l ≡ₚ map pq_path ps /\ l `sublist_of` map en_Name entries.
Proof.
  unfold pendingRequests, sbind. destruct (ensureRequestDirs w) as [[[]|e] w1]; [|done]. unfold file_call.
  destruct (cf_readDir RequestsDir w1) as [[entries|e] w2] eqn:Er; [|done].
  destruct (read_pending entries w2) as [[l|e] w3] eqn:E3; [|done]. intros [= <- <-].
  destruct (read_pending_spec _ _ _ _ E3) as [Hp Hs]. split; [by rewrite (merge_sort_Permutation request_before l)|].
  exists entries, w1, w2. split; [done|]. exists (map pq_path l). split; [|done]. by rewrite (merge_sort_Permutation request_before l).
Qed.
End pending.

Abbreviation request_id p := (dr_ID (pq_request p)).

Section serving.
Context {W : Type} `{Hfs : ControlFS W} `{Hj : ControlJSON} `{Hd : DaemonHooks W}.
Variables (opts : Options) (instance : string).
Hypothesis Htext : forall w r e, (dh_reloadEnd w).1 = (r, Some e) -> e <> "".
(** What reading a request establishes of its file, and what delivering its
    answer does. *)
Variables used settled : string -> W -> Prop.
Hypothesis Hused : forall name, closed (used name).
Hypothesis Hclosed : forall name, closed (settled name).
Hypothesis Hread : forall name w f w', cf_open (RequestFile name) w = (inl f, w') -> used name w'.
Hypothesis Hsettle : forall p s e w w', used (pq_path p) w -> acknowledgeRequest p s e w = (inl tt, w') -> settled (pq_path p) w'.
Implicit Types (x : daemon_run W) (ex : list string) (ak : list (string * bool)).

Definition all_settled (ids : list string) (w : W) : Prop := forall id, id ∈ ids -> settled (json_name id) w.
Lemma all_settled_closed ids : closed (all_settled ids).
Proof.
  split; intros; intros id Hid; match goal with Ha : all_settled ids _ |- _ => specialize (Ha id Hid) end.
  all: try (by eapply (cl_write _ (Hclosed (json_name id)))). all: by apply (Hclosed (json_name id)).
Qed.
Lemma ok_weaken (E E' : W -> Prop) l ex ak x : ok opts instance E l ex ak x -> E' (ru_env x) -> ok opts instance E' l ex ak x.
Proof. intros [] He. by split. Qed.


(** The requests being served were read from their files [u]; the requests [s] are
    settled. *)
Section holding.
Variable u : list string.
Definition kept (s : list string) (w : W) : Prop := all_settled s w /\ forall name, name ∈ u -> used name w.
Lemma kept_closed s : closed (kept s).
Proof.
  pose proof (all_settled_closed s) as Hs.
  split; intros; match goal with Hk : kept s _ |- _ => destruct Hk as [Hk1 Hk2] end; split;
    first [intros name Hname; specialize (Hk2 name Hname)|clear Hk2].
  all: first [by eapply (cl_write _ Hs)|by eapply (cl_write _ (Hused name))|by apply Hs|by apply (Hused name)].
Qed.
Definition held (p : pendingRequest) : Prop := proper p /\ pq_path p ∈ u.
Abbreviation okr s := (ok opts instance (kept s)).

Lemma answer_ok p rep s l ex ak x : okr s l ex ak x -> open_life l -> held p ->
  (rep = None -> asserts opts instance (ru_log x) (ActAck (request_id p) (ru_status x) None None)) ->
  match acknowledge p rep x with
  | (None, x') => okr (s ++ [request_id p]) l ex (ak ++ [(request_id p, true)]) x'
  | (Some _, x') => okr s l ex (ak ++ [(request_id p, false)]) x'
  end /\ ru_status (acknowledge p rep x).2 = ru_status x /\
  exists e, ru_log (acknowledge p rep x).2 = ru_log x ++ [ActAck (request_id p) (ru_status x) rep e].
Proof.
  intros Hk Hl [[_ Hp] Hu] Hr. pose proof (acknowledge_ok opts instance _ (kept_closed s) p rep l ex ak x Hk Hl Hr) as Ha.
  destruct (acknowledge p rep x) as [err x'] eqn:E. destruct Ha as (H1 & H2 & H3). split; [|done]. destruct err; [done|].
  apply (ok_weaken _ _ _ _ _ _ H1). split; [|apply (ok_env _ _ _ _ _ _ _ H1)].
  intros id [Hid|Hid]%elem_of_app; [by apply (ok_env _ _ _ _ _ _ _ H1)|].
  apply list_elem_of_singleton in Hid as ->. rewrite <- Hp. unfold acknowledge, call_env in E.
  destruct (acknowledgeRequest p (ru_status x) rep (ru_env x)) as [[[]|er] w'] eqn:Ea; [|done]. injection E as <-.
  apply Hsettle in Ea; [done|]. by apply (ok_env _ _ _ _ _ _ _ Hk).
Qed.

(** A request that the daemon takes up. *)
Definition taken (p : pendingRequest) : Prop := held p /\ dr_ExpectedInstanceID (pq_request p) = instance /\
  ValidateConfigPathForRequest (mkStatus 0 (cfg_path opts) "" "" "" None None false 0 "" "" "") (dr_ExpectedConfigPath (pq_request p)) = None.
Lemma taken_admissible p : taken p -> is_stop p = false -> admissible opts instance (pq_request p).
Proof.
  intros (_ & Hi & Hv) Hs. split; [done|]. split; [by apply String.eqb_neq|]. unfold ValidateConfigPathForRequest in Hv.
  destruct (String.eqb_spec (dr_ExpectedConfigPath (pq_request p)) ""); [by left|right]. cbn in Hv.
  destruct (String.eqb_spec (filepath_Clean (cfg_path opts)) (filepath_Clean (configPath (dr_ExpectedConfigPath (pq_request p))))); done.
Qed.
Lemma validate_config_eq s e : ds_ConfigPath s = cfg_path opts ->
  ValidateConfigPathForRequest s e = ValidateConfigPathForRequest (mkStatus 0 (cfg_path opts) "" "" "" None None false 0 "" "" "") e.
Proof. unfold ValidateConfigPathForRequest. by intros ->. Qed.
Lemma admit_ok pending : forall s ex ak x, Forall held pending -> okr s Leased ex ak x ->
  let '(r, x') := admit_requests pending x in
  exists s1 ak1, okr (s ++ s1) Leased ex (ak ++ ak1) x' /\
  match r with
  | inl valid => valid `sublist_of` pending /\ Forall taken valid /\ forall p, p ∈ pending -> p ∈ valid \/ (request_id p, true) ∈ ak1
  | inr _ => True
  end.
Proof.
  induction pending as [|p pending IH]; intros s ex ak x Hp Hk; cbn -[acknowledge].
  { exists [], []. rewrite !app_nil_r. split_and!; try done. by intros p ?%not_elem_of_nil. }
  apply Forall_cons_1 in Hp as [Hp1 Hp].
  assert (Href : forall e b, let '(r, x') := match acknowledge p (Some (e, b)) x with
      | (Some ackErr, x) => (inr (e +:+ newline +:+ ackErr), x) | (None, x) => admit_requests pending x end in
    exists s1 ak1, okr (s ++ s1) Leased ex (ak ++ ak1) x' /\
    match r with
    | inl valid => valid `sublist_of` p :: pending /\ Forall taken valid /\ forall q, q ∈ p :: pending -> q ∈ valid \/ (request_id q, true) ∈ ak1
    | inr _ => True
    end).
  { intros e b. destruct (answer_ok p (Some (e, b)) s Leased ex ak x Hk (or_introl eq_refl) Hp1) as (Ha & _); [done|].
    destruct (acknowledge p (Some (e, b)) x) as [[er|] x1].
    - exists [], [(request_id p, false)]. by rewrite app_nil_r.
    - specialize (IH _ _ _ _ Hp Ha). destruct (admit_requests pending x1) as [r x2]. destruct IH as (s1 & ak1 & H2 & Hr).
      exists ([request_id p] ++ s1), ([(request_id p, true)] ++ ak1). rewrite !app_assoc. split; [done|]. destruct r as [valid|]; [|done].
      destruct Hr as (Hs & Ht & Hc). split; [by constructor|]. split; [done|]. intros q [->|Hq]%elem_of_cons; [right; by left|].
      destruct (Hc q Hq); [by left|right; by right]. }
  destruct (String.eqb_spec (dr_ExpectedInstanceID (pq_request p)) (ds_InstanceID (ru_status x))) as [Ei|Ei]; cbn; [|apply Href].
  destruct (ValidateConfigPathForRequest _ _) eqn:Ev; [apply Href|].
  specialize (IH _ _ _ _ Hp Hk). destruct (admit_requests pending x) as [r x2]. destruct IH as (s1 & ak1 & H2 & Hr).
  destruct r as [valid|e]; exists s1, ak1; [|done]. destruct Hr as (Hs & Ht & Hc). split; [done|]. split; [by constructor|]. split.
  - constructor; [|done]. split; [done|]. split; [rewrite Ei; apply Hk|].
    rewrite <- (validate_config_eq (ru_status x)); [done|]. apply Hk.
  - intros q [->|Hq]%elem_of_cons; [left; by left|]. destruct (Hc q Hq); [left; by right|by right].
Qed.

Lemma answer_all_ok rep l : forall s lf ex ak x, okr s lf ex ak x -> open_life lf -> Forall held l ->
  (rep = None -> ds_State (ru_status x) = "stopped" /\ stop_done opts (ru_log x)) ->
  let '(err, x') := acknowledge_all rep l x in
  exists s1 ak1, okr (s ++ s1) lf ex (ak ++ ak1) x' /\ ru_status x' = ru_status x /\ (exists more, ru_log x' = ru_log x ++ more) /\
  (forall p, p ∈ l -> exists b, (request_id p, b) ∈ ak1) /\ (err = None -> forall p, p ∈ l -> (request_id p, true) ∈ ak1).
Proof.
  induction l as [|p l IH]; intros s lf ex ak x Hk Hl Hp Hr; cbn -[acknowledge].
  { exists [], []. rewrite !app_nil_r. split_and!; try done; [exists []; by rewrite app_nil_r|by intros p ?%not_elem_of_nil|].
    by intros _ p ?%not_elem_of_nil. }
  apply Forall_cons_1 in Hp as [Hp1 Hp]. destruct (answer_ok p rep s lf ex ak x Hk Hl Hp1) as (Ha & Es & e & El).
  { intros Hn. right. by apply Hr. }
  destruct (acknowledge p rep x) as [err x1]. cbn in Es, El.
  assert (H1 : exists s1, okr (s ++ s1) lf ex (ak ++ [(request_id p, match err with None => true | Some _ => false end)]) x1).
  { destruct err; [exists []; by rewrite app_nil_r|by exists [request_id p]]. }
  destruct H1 as (s1 & H1). specialize (IH _ _ _ _ _ H1 Hl Hp).
  destruct (acknowledge_all rep l x1) as [errs x2]. destruct IH as (s2 & ak2 & H2 & Es2 & (more & El2) & Hb & Ht).
  { intros Hn. rewrite Es, El. destruct (Hr Hn). split; [done|]. by apply stop_done_app. }
  exists (s1 ++ s2), ([(request_id p, match err with None => true | Some _ => false end)] ++ ak2). rewrite !app_assoc.
  split; [done|]. split; [congruence|]. split; [eexists; rewrite El2, El, <- app_assoc; done|]. split.
  - intros q [->|Hq]%elem_of_cons; [eexists; by left|]. destruct (Hb q Hq) as [b ?]. exists b. by right.
  - intros [-> Hn]%join_none q [->|Hq]%elem_of_cons; [by left|]. right. by apply Ht.
Qed.
Lemma plain_none err : plain err = None -> err = None.
Proof. by destruct err. Qed.
Lemma status_error_none s : status_error s = None -> ds_LastError s = "".
Proof. unfold status_error. by destruct (String.eqb_spec (ds_LastError s) ""). Qed.
Lemma serve_reloads_ok pending reloads : forall s ex ak x, okr s Leased ex ak x -> Forall taken reloads ->
  Forall (fun p => is_stop p = false) reloads ->
  let '((err, exit), x') := serve_reloads opts pending reloads x in
  exists s1 ex1 ak1, okr (s ++ s1) (if exit then downed opts else Leased) (ex ++ ex1) (ak ++ ak1) x' /\
  ex1 `prefix_of` map (fun p => request_id p) reloads /\ (forall id, id ∈ ex1 -> exists b, (id, b) ∈ ak1) /\
  (err = None -> exit = false /\ (forall p, p ∈ reloads -> (request_id p, true) ∈ ak1) /\ forall id, id ∈ ex1 -> id ∈ s1).
Proof.
  induction reloads as [|p reloads IH]; intros s ex ak x Hk Ht Hs; cbn -[acknowledge shutdown runOnce pruneAckHistory].
  { pose proof (prune_ok opts instance _ (kept_closed s) pending _ _ _ _ Hk) as Hp.
    destruct (pruneAckHistory pending x) as [err x1]. exists [], [], []. rewrite !app_nil_r.
    split_and!; try done; [by intros id ?%not_elem_of_nil|]. intros _. split_and!; [done|by intros p ?%not_elem_of_nil|by intros id ?%not_elem_of_nil]. }
  apply Forall_cons_1 in Ht as [Ht1 Ht]. apply Forall_cons_1 in Hs as [Hs1 Hs].
  set (x1 := set_status _ x). assert (H1 : okr s Leased ex ak x1) by by apply ok_request.
  pose proof (runOnce_ok opts instance _ (kept_closed s) Htext "reload-request" (Some (pq_request p)) _ _ _ H1) as Hro.
  destruct (runOnce opts _ _ x1) as [err x2]. destruct Hro as [H2 Hdone]; [intros r [= <-]; split; [by apply taken_admissible|done]|].
  cbn [new_request] in H2. destruct err as [e|].
  - pose proof (shutdown_ok opts instance _ (kept_closed s) "status-write-error" (Some e) _ _ _ H2) as Hsd.
    destruct (shutdown opts "status-write-error" (Some e) x2) as [se x3] eqn:Esd. destruct Hsd as [H3 Hst].
    destruct (answer_ok p (plain se) s (downed opts) _ _ x3 H3 (downed_open opts) (proj1 Ht1)) as (Ha & _).
    { intros Hn. right. by apply Hst, plain_none. }
    assert (Hse : se <> None).
    { intros ->. unfold shutdown in Esd. destruct (if op_DryRun opts then _ else _) as [ce y] in Esd.
      destruct (write_status_as _ _) as [we z] in Esd. injection Esd as Ej _. by destruct ce, we. }
    destruct (acknowledge p (plain se) x3) as [ae x4].
    assert (H4 : exists s1 b, okr (s ++ s1) (downed opts) (ex ++ [request_id p]) (ak ++ [(request_id p, b)]) x4).
    { destruct ae; [exists [], false; by rewrite app_nil_r|by exists [request_id p], true]. }
    destruct H4 as (s1 & b & H4). pose proof (prune_ok opts instance _ (kept_closed (s ++ s1)) pending _ _ _ _ H4) as Hp.
    destruct (pruneAckHistory pending x4) as [pe x5]. exists s1, [request_id p], [(request_id p, b)]. split; [done|].
    split; [by exists (map (fun p => request_id p) reloads)|]. split.
    + intros id ->%list_elem_of_singleton. exists b. by left.
    + by intros [? _]%join_none.
  - destruct (answer_ok p (plain (status_error (ru_status x2))) s Leased _ _ x2 H2 (or_introl eq_refl) (proj1 Ht1)) as (Ha & _).
    { intros Hn%plain_none%status_error_none. left. exists "reload-request", (pq_request p). split; [|done]. by apply Hdone. }
    destruct (acknowledge p _ x2) as [[e|] x3].
    + exists [], [request_id p], [(request_id p, false)]. rewrite app_nil_r. split; [done|].
      split; [by exists (map (fun p => request_id p) reloads)|]. split; [|done]. intros id ->%list_elem_of_singleton. exists false. by left.
    + specialize (IH _ _ _ _ Ha Ht Hs). destruct (serve_reloads opts pending reloads x3) as [[err exit] x4].
      destruct IH as (s1 & ex1 & ak1 & H4 & Hpre & Hb & Hn).
      exists (request_id p :: s1), (request_id p :: ex1), ((request_id p, true) :: ak1).
      rewrite <- !app_assoc in H4. split; [exact H4|]. split; [by apply prefix_cons|]. split.
      * intros id [->|Hid]%elem_of_cons; [exists true; by left|]. destruct (Hb id Hid) as [b ?]. exists b. by right.
      * intros Hnone. destruct (Hn Hnone) as (He & Hc & Hs1'). split; [done|]. split.
        -- intros q [->|Hq]%elem_of_cons; [by left|right; auto].
        -- intros id [->|Hid]%elem_of_cons; [by left|right; auto].
Qed.
End holding.
Abbreviation okr s := (ok opts instance (all_settled s)).

(** Pending requests were read from their files. *)
Lemma read_pending_used entries : forall w ps w', read_pending entries w = (inl ps, w') -> forall p, p ∈ ps -> used (pq_path p) w'.
Proof.
  induction entries as [|e entries IH]; intros w ps w'; cbn; [by intros [= <- <-] p ?%not_elem_of_nil|].
  destruct (negb (is_json e)); [apply IH|]. unfold sbind.
  destruct (readPendingRequest _ _ w) as [[p|er] w1] eqn:E1; [|done].
  destruct (read_pending entries w1) as [[rest|er] w2] eqn:E2; [|done]. intros [= <- <-] q Hq.
  assert (q ∈ rest \/ p = Some q) as [Hr|Hp] by (destruct p; [apply elem_of_cons in Hq as [->|]|]; auto); [by eapply IH|].
  subst p. destruct (read_pending_name _ _ _ _ _ E1) as (-> & _).
  pose proof (keeps_read_pending _ (Hused (en_Name e)) entries w1) as Hk. rewrite E2 in Hk. apply Hk.
  unfold readPendingRequest, sbind, sask in E1. destruct (readRegularControlFile _ w) as [[data|[]] w3] eqn:E3; [|done|done].
  unfold readRegularControlFile in E3. destruct (cf_open (RequestFile (en_Name e)) w) as [[f|]] eqn:Ef; [|done].
  apply Hread in Ef. injection E3 as _ ->. unfold swrap, pure in E1.
  destruct (cj_decodeRequest data) as [r|]; [|done]. destruct (negb _); [done|]. destruct (validateRequest r); [done|].
  pose proof (keeps_readRequestAck _ (Hused (en_Name e)) (TrimSuffix (en_Name e) ".json") w3 Ef) as Ha.
  destruct (readRequestAck _ w3) as [[ack|[]] w4]; [|by injection E1 as _ <-|done].
  destruct (validateAckForRequest ack r); [done|]. by destruct (remove_file _ _ w4) as [[]].
Qed.
Lemma pending_used w ps w' : pendingRequests w = (inl ps, w') -> forall p, p ∈ ps -> used (pq_path p) w'.
Proof.
  unfold pendingRequests, sbind. destruct (ensureRequestDirs w) as [[[]|e] w1]; [|done]. unfold file_call.
  destruct (cf_readDir RequestsDir w1) as [[entries|e] w2]; [|done].
  destruct (read_pending entries w2) as [[l|e] w3] eqn:E3; [|done]. intros [= <- <-] p.
  rewrite (merge_sort_Permutation request_before l). by eapply read_pending_used.
Qed.
Lemma sublist_Forall {A} (P : A -> Prop) l k : l `sublist_of` k -> Forall P k -> Forall P l.
Proof. intros Hs. rewrite !Forall_forall. intros Hk y Hy. apply Hk. apply list_elem_of_In. eapply elem_of_sublist; [by apply list_elem_of_In|done]. Qed.
Lemma filter_sublist {A} (f : A -> bool) l : List.filter f l `sublist_of` l.
Proof. induction l as [|a l IH]; cbn; [constructor|]. destruct (f a); [by apply sublist_skip|by apply sublist_cons]. Qed.
Lemma filter_all {A} (f : A -> bool) l : Forall (fun a => f a = true) (List.filter f l).
Proof. apply Forall_forall. intros a Ha. by apply filter_In in Ha as [_ ?]. Qed.
(** What one scan of the requests does. *)
Definition scan_post (s ex : list string) (ak : list (string * bool)) x (err : option error) (exit : bool) x' : Prop :=
  exists s1 ex1 ak1, okr (s ++ s1) (if exit then downed opts else Leased) (ex ++ ex1) (ak ++ ak1) x' /\
  (forall id, id ∈ ex1 -> exists b, (id, b) ∈ ak1) /\
  (ex1 = [] \/ exists ps w', pendingRequests (ru_env x) = (inl ps, w') /\ Forall proper ps /\ ex1 `sublist_of` map (fun p => request_id p) ps) /\
  (err = None -> (exit = false -> forall id, id ∈ ex1 -> id ∈ s1) /\
     exists ps w', pendingRequests (ru_env x) = (inl ps, w') /\ forall p, p ∈ ps -> (request_id p, true) ∈ ak1).
Lemma scan_ok s ex ak x : okr s Leased ex ak x ->
  let '((err, exit), x') := processRequests opts x in scan_post s ex ak x err exit x'.
Proof.
  intros Hk. unfold processRequests. destruct (call_env pendingRequests x) as [r x1] eqn:E1.
  pose proof (ok_call opts instance _ _ _ _ _ _ _ _ (keeps_pendingRequests _ (all_settled_closed s)) E1 Hk) as H1.
  destruct r as [ps|e].
  2: { exists [], [], []. rewrite !app_nil_r. split_and!; try done; [by intros id ?%not_elem_of_nil|by left]. }
  assert (Epend : exists w', pendingRequests (ru_env x) = (inl ps, w')).
  { unfold call_env in E1. destruct (pendingRequests (ru_env x)) as [r w]. injection E1 as -> _. eauto. }
  destruct Epend as (w' & Epend). pose proof (proj1 (daemon_pending_spec _ _ _ Epend)) as Hps.
  set (u := map pq_path ps).
  assert (Hheld : Forall (held u) ps).
  { apply list.Forall_forall. intros p Hp. split; [by eapply list.Forall_forall in Hps|]. by apply list_elem_of_fmap_2. }
  assert (Hback : forall s l ex ak x, ok opts instance (kept u s) l ex ak x -> okr s l ex ak x).
  { intros s1 l ex1 ak1 y Hy. apply (ok_weaken _ _ _ _ _ _ Hy). apply Hy. }
  assert (H1' : ok opts instance (kept u s) Leased ex ak x1).
  { apply (ok_weaken _ _ _ _ _ _ H1). split; [apply H1|]. intros name (p & -> & Hp)%list_elem_of_fmap.
    unfold call_env in E1. rewrite Epend in E1. injection E1 as <-. by eapply pending_used. }
  pose proof (admit_ok u ps _ _ _ _ Hheld H1') as Ha. destruct (admit_requests ps x1) as [r x2]. destruct Ha as (s1 & ak1 & H2 & Hr).
  destruct r as [valid|e].
  2: { exists s1, [], ak1. rewrite app_nil_r. split_and!; try done; [by apply Hback|..]; [by intros id ?%not_elem_of_nil|by left]. }
  destruct Hr as (Hsub & Htk & Hcov).
  pose proof (sublist_Forall _ _ _ (filter_sublist (fun p => negb (is_stop p)) valid) Htk) as Htr.
  assert (Hns : Forall (fun p => is_stop p = false) (List.filter (fun p => negb (is_stop p)) valid)).
  { eapply Forall_impl; [|apply filter_all]. intros p. cbn. apply negb_true_iff. }
  assert (Hcase : forall p, p ∈ valid -> p ∈ List.filter (fun p => negb (is_stop p)) valid \/ p ∈ List.filter is_stop valid).
  { intros p Hp. rewrite !list_elem_of_In, !filter_In, <- list_elem_of_In. destruct (is_stop p); auto. }
  destruct (List.filter is_stop valid) as [|stop stops] eqn:Est.
  - pose proof (serve_reloads_ok u ps _ _ _ _ _ H2 Htr Hns) as Hsr. destruct (serve_reloads opts ps _ x2) as [[err exit] x3].
    destruct Hsr as (s2 & ex2 & ak2 & H3 & Hpre & Hb & Hn). exists (s1 ++ s2), ex2, (ak1 ++ ak2). rewrite !app_assoc. split; [by apply Hback|]. split.
    { intros id Hid. destruct (Hb id Hid) as [b ?]. exists b. apply elem_of_app. by right. } split.
    { right. exists ps, w'. split; [done|]. split; [done|]. destruct Hpre as [rest Hpre].
      transitivity (map (fun p => request_id p) (List.filter (fun p => negb (is_stop p)) valid)).
      - rewrite Hpre. apply sublist_inserts_r. reflexivity.
      - apply fmap_sublist. etransitivity; [apply filter_sublist|done]. }
    intros Hnone. destruct (Hn Hnone) as (He & Hc & Hs2). split.
    { intros _ id Hid. apply elem_of_app. right. auto. }
    exists ps, w'. split; [done|]. intros p Hp. apply elem_of_app. destruct (Hcov p Hp) as [Hv|]; [|by left]. right. apply Hc.
    destruct (Hcase p Hv) as [|Hnil]; [done|]. by apply not_elem_of_nil in Hnil.
  - set (x3 := set_status _ x2). assert (H3 : ok opts instance (kept u (s ++ s1)) Leased ex (ak ++ ak1) x3) by by apply ok_request.
    pose proof (shutdown_ok opts instance _ (kept_closed u (s ++ s1)) "stop-request" None _ _ _ H3) as Hsd.
    destruct (shutdown opts "stop-request" None x3) as [se x4]. destruct Hsd as [H4 Hst].
    assert (Hpv : Forall (held u) valid) by (eapply Forall_impl; [|exact Htk]; by intros p [? _]).
    pose proof (answer_all_ok u (Some ("reload request superseded by stop request " +:+ dr_ID (pq_request stop), false)) _ _ _ _ _ _ H4 (downed_open opts)
      (sublist_Forall _ _ _ (filter_sublist (fun p => negb (is_stop p)) valid) Hpv)) as H5.
    destruct (acknowledge_all _ _ x4) as [e1 x5]. destruct H5 as (s2 & ak2 & H5 & Es5 & (more & El5) & _ & Ht5); [done|].
    assert (Hpst : Forall (held u) (stop :: stops)) by (rewrite <- Est; exact (sublist_Forall _ _ _ (filter_sublist is_stop valid) Hpv)).
    pose proof (answer_all_ok u (plain se) (stop :: stops) _ _ _ _ _ H5 (downed_open opts) Hpst) as H6.
    destruct (acknowledge_all _ _ x5) as [e2 x6]. destruct H6 as (s3 & ak3 & H6 & _ & _ & _ & Ht6).
    { intros Hn%plain_none. rewrite Es5, El5. destruct (Hst Hn). split; [done|]. by apply stop_done_app. }
    pose proof (prune_ok opts instance _ (kept_closed u (((s ++ s1) ++ s2) ++ s3)) ps _ _ _ _ H6) as H7.
    destruct (pruneAckHistory ps x6) as [pe x7]. exists (s1 ++ s2 ++ s3), [], (ak1 ++ ak2 ++ ak3). rewrite app_nil_r, !app_assoc.
    split; [by apply Hback|]. split; [by intros id ?%not_elem_of_nil|]. split; [by left|]. intros [_ [[-> ->]%join_none _]%join_none]%join_none.
    split; [done|]. exists ps, w'. split; [done|]. intros p Hp. rewrite !elem_of_app. destruct (Hcov p Hp) as [Hv|]; [|by left; left].
    destruct (Hcase p Hv); [left; right; by apply Ht5|right; by apply Ht6].
Qed.

(** *** The loop *)

(** What the requests carried out so far have in common. *)
Variable Q : list string -> Prop.
Hypothesis HQ : forall ex w ps w' ex1, all_settled ex w -> Q ex -> pendingRequests w = (inl ps, w') -> Forall proper ps ->
  ex1 `sublist_of` map (fun p => request_id p) ps -> Q (ex ++ ex1).
Hypothesis HQ0 : Q [].

Definition running x : Prop := exists ex ak, okr ex Leased ex ak x /\ Q ex /\ forall id, id ∈ ex -> (id, true) ∈ ak.
Definition over (l : life) x : Prop := exists ex ak, okr [] l ex ak x /\ Q ex /\ forall id, id ∈ ex -> exists b, (id, b) ∈ ak.
Definition goes_on (l : life) (r : (unit + option error) * daemon_run W) : Prop :=
  match r with (inl _, x) => running x | (inr _, x) => over l x end.

Lemma settled_nil (w : W) : all_settled [] w.
Proof. by intros id ?%not_elem_of_nil. Qed.
Lemma ok_nil s l ex ak x : okr s l ex ak x -> okr [] l ex ak x.
Proof. intros Hk. apply (ok_weaken _ _ _ _ _ _ Hk), settled_nil. Qed.
Lemma shutdown_over reason trig s ex ak x : okr s Leased ex ak x -> Q ex -> (forall id, id ∈ ex -> exists b, (id, b) ∈ ak) ->
  goes_on (downed opts) (exit_with (shutdown opts reason trig x)).
Proof.
  intros Hk Hq Ha. pose proof (shutdown_ok opts instance _ (all_settled_closed s) reason trig _ _ _ Hk) as Hs.
  unfold exit_with. destruct (shutdown opts reason trig x) as [err x1]. destruct Hs as [Hs _]. exists ex, ak. by split; [eapply ok_nil|].
Qed.
Lemma after_ok r ex ak : Q ex -> (forall id, id ∈ ex -> (id, true) ∈ ak) -> okr ex Leased ex ak r.2 ->
  goes_on (downed opts) (after opts r).
Proof.
  intros Hq Ha Hk. destruct r as [[e|] x]; cbn in *; [|by exists ex, ak]. eapply shutdown_over; [exact Hk|done|]. intros id Hid. exists true. auto.
Qed.
Lemma serve_requests_ok x : running x -> goes_on (downed opts) (serve_requests opts x).
Proof.
  intros (ex & ak & Hk & Hq & Ha). unfold serve_requests. pose proof (scan_ok ex ex ak x Hk) as Hs.
  destruct (processRequests opts x) as [[err exit] x1]. destruct Hs as (s1 & ex1 & ak1 & H1 & Hb & Hex & Hn).
  assert (Hq1 : Q (ex ++ ex1)).
  { destruct Hex as [->|(ps & w' & Ep & Hp & Hsub)]; [by rewrite app_nil_r|]. eapply HQ; [apply Hk|done|done|done|done]. }
  assert (Hb1 : forall id, id ∈ ex ++ ex1 -> exists b, (id, b) ∈ ak ++ ak1).
  { intros id. setoid_rewrite elem_of_app. intros [Hid|Hid]; [exists true; left; auto|]. destruct (Hb id Hid) as [b ?]. exists b. by right. }
  destruct exit; cbn in H1.
  - destruct err; exists (ex ++ ex1), (ak ++ ak1); (split; [by eapply ok_nil|done]).
  - destruct err as [e|]; [by eapply shutdown_over|]. destruct (Hn eq_refl) as [Hset (ps & w' & Ep & Hcov)]. specialize (Hset eq_refl).
    exists (ex ++ ex1), (ak ++ ak1). split; [|split; [done|]].
    + apply (ok_weaken _ _ _ _ _ _ H1). intros id Hid. apply (ok_env _ _ _ _ _ _ _ H1). rewrite elem_of_app in *. destruct Hid; auto.
    + intros id. rewrite !elem_of_app. intros [Hid|Hid]; [left; auto|right]. destruct Hex as [->|(ps' & w2 & Ep' & Hp & Hsub)]; [by apply not_elem_of_nil in Hid|].
      rewrite Ep in Ep'. injection Ep' as <- _. pose proof (elem_of_sublist _ _ _ Hid Hsub) as Hin.
      apply list_elem_of_fmap in Hin as (p & -> & Hin). auto.
Qed.
Lemma event_ok ev x : running x -> goes_on (downed opts) (handle_event opts ev x).
Proof.
  intros Hr. destruct ev; cbn -[shutdown runOnce serve_requests].
  - destruct Hr as (ex & ak & Hk & Hq & Ha). eapply shutdown_over; [exact Hk|done|]. intros id Hid. exists true. auto.
  - pose proof (serve_requests_ok x Hr) as Hs. destruct (serve_requests opts x) as [[[]|err] x1]; [|done].
    destruct Hs as (ex & ak & Hk & Hq & Ha). pose proof (serve_legacy_ok opts instance _ (all_settled_closed ex) Htext _ _ _ Hk) as Hl.
    apply (after_ok _ ex ak); [done|done|]. by destruct (serve_legacy opts x1).
  - destruct Hr as (ex & ak & Hk & Hq & Ha). pose proof (runOnce_ok opts instance _ (all_settled_closed ex) Htext "poll" None _ _ _ Hk) as Hp.
    apply (after_ok _ ex ak); [done|done|]. destruct (runOnce opts "poll" None x) as [e x1]. destruct Hp as [Hp _]; [done|].
    cbn. by rewrite app_nil_r in Hp.
Qed.
Lemma loop_ok events : forall x, running x -> goes_on (downed opts) (loop opts events x).
Proof.
  induction events as [|ev events IH]; intros x Hr; cbn -[handle_event]; [done|].
  pose proof (event_ok ev x Hr) as He. destruct (handle_event opts ev x) as [[[]|err] x1]; [by apply IH|done].
Qed.
Definition final_life (opts : Options) : life := if op_Once opts then Leased else downed opts.
Lemma started_ok events x : okr [] Leased [] [] x -> goes_on (final_life opts) (run_started opts events x).
Proof.
  intros Hk. unfold run_started, final_life.
  pose proof (runOnce_ok opts instance _ (all_settled_closed []) Htext "startup" None _ _ _ Hk) as Hr.
  destruct (runOnce opts "startup" None x) as [err x1]. destruct Hr as [H1 _]; [done|]. cbn in H1.
  destruct (op_Once opts); [exists [], []; split_and!; [done|done|by intros id ?%not_elem_of_nil]|].
  destruct err as [e|]; [eapply shutdown_over; [exact H1|done|by intros id ?%not_elem_of_nil]|].
  pose proof (legacy_warnings_ok opts instance _ (all_settled_closed []) (legacyRequestWarnings (ru_lastLegacy x1)) _ _ _ _ H1 (or_introl eq_refl)) as H2.
  set (r := recordLegacyWarnings _ x1) in *.
  assert (Hg : goes_on (downed opts) (after opts r)).
  { apply (after_ok _ [] []); [done|by intros id ?%not_elem_of_nil|by destruct r]. }
  destruct (after opts r) as [[[]|e] x2]; [|done]. pose proof (serve_requests_ok x2 Hg) as Hs.
  destruct (serve_requests opts x2) as [[[]|e] x3]; [|done]. by apply loop_ok.
Qed.
End serving.

Section running.
Context {W : Type} `{Hfs : ControlFS W} `{Hj : ControlJSON} `{Hd : DaemonHooks W}.
Variable opts : Options.
Hypothesis Htext : forall w r e, (dh_reloadEnd w).1 = (r, Some e) -> e <> "".
Variables used settled : string -> W -> Prop.
Hypothesis Hused : forall name, closed (used name).
Hypothesis Hclosed : forall name, closed (settled name).
Hypothesis Hread : forall name w f w', cf_open (RequestFile name) w = (inl f, w') -> used name w'.
Hypothesis Hsettle : forall p s e w w', used (pq_path p) w -> acknowledgeRequest p s e w = (inl tt, w') -> settled (pq_path p) w'.
Variable Q : list string -> Prop.
Hypothesis HQ : forall ex w ps w' ex1, all_settled settled ex w -> Q ex -> pendingRequests w = (inl ps, w') -> Forall proper ps ->
  ex1 `sublist_of` map (fun p => request_id p) ps -> Q (ex ++ ex1).
Hypothesis HQ0 : Q [].
Implicit Types x : daemon_run W.

(** A run that ends before the first reload. *)
Definition early (log : list daemon_action) : Prop :=
  log = [ActAcquire] \/ exists s e, log = [ActAcquire; ActStatus s e] /\ ds_State s = "starting".
Definition leased_post (r : (unit + option error) * daemon_run W) : Prop :=
  match r with
  | (inl _, x) => exists instance, running opts instance settled Q x
  | (inr _, x) => early (ru_log x) \/ exists instance, over opts instance settled Q (final_life opts) x
  end.
Lemma call_log {A} (f : W -> A * W) x : ru_log (call_env f x).2 = ru_log x.
Proof. unfold call_env. by destruct (f (ru_env x)). Qed.
Lemma interval_ok instance events x : ok opts instance (all_settled settled []) Leased [] [] x -> early (ru_log x) ->
  leased_post (run_interval opts events x).
Proof.
  intros Hk He. unfold run_interval. set (r := if _ =? 0 then _ else _).
  assert (Hr : ok opts instance (all_settled settled []) Leased [] [] r.2 /\ ru_log r.2 = ru_log x).
  { subst r. destruct (_ =? 0); [|done]. destruct (call_env dh_configPollInterval x) as [i x1] eqn:E1.
    split; [exact (ok_call opts instance _ _ _ _ _ _ _ _ (cl_pollInterval _ (all_settled_closed settled Hclosed [])) E1 Hk)|].
    destruct (call_status _ _ _ _ E1) as (_ & El & _). exact El. }
  destruct r as [i x1]. cbn in Hr. destruct Hr as [H1 El]. cbv zeta. destruct (_ <? _); [left; by rewrite El|].
  pose proof (started_ok opts instance Htext used settled Hused Hclosed Hread Hsettle Q HQ HQ0 events x1 H1) as Hs.
  destruct (run_started opts events x1) as [[[]|e] x2]; [by exists instance|right; by exists instance].
Qed.
Lemma leased_ok instance events x : ru_log x = [ActAcquire] -> ru_lastFingerprint x = "" ->
  leased_post (run_leased opts instance events x).
Proof.
  intros El Ef. unfold run_leased. destruct (call_env (scall (cf_mkdirAll RunDir)) x) as [r1 x1] eqn:E1.
  apply call_status in E1 as (_ & L1 & F1). destruct r1 as [[]|e]; [|left; left; congruence].
  destruct (call_env ensureRequestDirs x1) as [r2 x2] eqn:E2. apply call_status in E2 as (_ & L2 & F2).
  destruct r2 as [[]|e]; [|left; left; congruence].
  destruct (call_env (match instance with Some id => _ | None => _ end) x2) as [r3 x3] eqn:E3. apply call_status in E3 as (_ & L3 & F3).
  destruct r3 as [id|e]; [|left; left; congruence]. destruct (negb (validRequestID id)); [left; left; congruence|].
  destruct (call_env requestStamp x3) as [stamp x4] eqn:E4. apply call_status in E4 as (_ & L4 & F4). cbv zeta.
  set (x5 := set_legacy stamp _). assert (H5 : ok opts id (all_settled settled []) Leased [] [] x5).
  { split; cbn -[life_of executed answered]; rewrite ?L4, ?L3, ?L2, ?L1, ?El; try done; [apply settled_nil| |].
    - apply (truthful_snoc _ _ []); [constructor|done].
    - congruence. }
  pose proof (write_status_ok opts id _ (all_settled_closed settled Hclosed []) "write starting daemon status: " _ _ _ _ H5 (or_introl eq_refl)) as Hw.
  destruct (write_status_as _ x5) as [e x6]. destruct Hw as (H6 & Es & _ & e' & L6).
  assert (He : early (ru_log x6)).
  { right. exists (ru_status x5), e'. split; [|done]. rewrite L6. change (ru_log x5) with (ru_log x4). by rewrite L4, L3, L2, L1, El. }
  destruct e; [by left|]. by eapply interval_ok.
Qed.
Lemma run_spec instance events w : let '(r, x) := Run opts instance events w in
  match r with
  | inl _ => exists instance, running opts instance settled Q x
  | inr _ => ru_log x = [] \/ exists y, ru_log x = ru_log y ++ [ActRelease] /\ ru_status x = ru_status y /\
      (early (ru_log y) \/ exists instance, over opts instance settled Q (final_life opts) y)
  end.
Proof.
  unfold Run. set (x0 := mkRun w _ _ _ _ _ _). destruct (_ && _); [by left|].
  destruct (op_PollInterval opts <? 0); [by left|]. destruct (op_ShutdownTimeout opts <? 0); [by left|].
  destruct (call_env dh_ctxErr x0) as [[e|] x1] eqn:E1; apply call_status in E1 as (_ & L1 & F1); [by left|].
  destruct (call_env dh_acquireLease x1) as [[e|] x2] eqn:E2; apply call_status in E2 as (_ & L2 & F2); [left; by rewrite L2, L1|].
  pose proof (leased_ok instance events (log_action ActAcquire x2)) as Hl. unfold leased_post in Hl.
  destruct (run_leased opts instance events _) as [[[]|e] x3]; [apply Hl; cbn; [by rewrite L2, L1|by rewrite F2, F1]|].
  destruct (call_env dh_closeLease x3) as [ce x4] eqn:E4. apply call_status in E4 as (S4 & L4 & _). right. exists x3. cbn.
  rewrite L4, S4. split; [done|]. split; [done|]. apply Hl; cbn; [by rewrite L2, L1|by rewrite F2, F1].
Qed.
End running.

(** ** Theorems *)

Lemma closed_true {W : Type} `{ControlFS W} `{DaemonHooks W} : closed (fun _ : W => True).
Proof. by split. Qed.


(** The request directory: a request file that was there ([rd_used]) and was
    removed ([rd_gone]) does not come back while the daemon runs.  This is asked of the other processes that use the
    directory (the IDs of requests are random, and a client queues each once), and
    of the daemon's calls only where they do not target a request file: a rename
    onto one or a directory made in its place may bring it back. *)
Class RequestDirLaws (W : Type) `{ControlFS W} `{DaemonHooks W} := {
  rd_used : string -> W -> Prop;
  rd_gone : string -> W -> Prop;
  rd_used_closed name : closed (rd_used name);
  rd_closed name : closed (rd_gone name);
  rd_read name w f w' : cf_open (RequestFile name) w = (inl f, w') -> rd_used name w';
  rd_remove name w : rd_used name w -> let '(r, w') := cf_remove (RequestFile name) w in
    match r with Some (FileError _) => True | _ => rd_gone name w' end;
  rd_open name w : rd_gone name w -> (cf_open (RequestFile name) w).1 = inr NotExist;
  rd_names w : match (cf_readDir RequestsDir w).1 with inl entries => NoDup (map en_Name entries) | inr _ => True end
}.

Section once.
Context {W : Type} `{Hfs : ControlFS W} `{Hj : ControlJSON} `{Hd : DaemonHooks W} `{Hl : !RequestDirLaws W}.
Implicit Types w : W.

Lemma answer_settles p s e w w' : rd_used (pq_path p) w -> acknowledgeRequest p s e w = (inl tt, w') -> rd_gone (pq_path p) w'.
Proof.
  intros Hu. unfold acknowledgeRequest, sbind.
  pose proof (keeps_wrap (rd_used (pq_path p)) "write daemon request ack: " _
    (keeps_writeJSON _ (rd_used_closed (pq_path p)) AcksDir (ackPath (dr_ID (pq_request p)))
       (cj_encodeAck (ack_for (pq_request p) s e)) I I) w Hu) as Hu1.
  destruct (swrap _ _ w) as [[[]|er] w1]; [|done]. unfold remove_file, swrap, scall.
  pose proof (rd_remove (pq_path p) w1 Hu1) as Hr. destruct (cf_remove _ w1) as [[[]|] w2]; cbn; by intros [= <-].
Qed.
Lemma gone_not_read name entries : forall w ps w', rd_gone name w -> read_pending entries w = (inl ps, w') -> name ∉ map pq_path ps.
Proof.
  induction entries as [|e entries IH]; intros w ps w' Hg; cbn; [intros [= <- <-]; apply not_elem_of_nil|].
  destruct (negb (is_json e)); [by apply IH|]. unfold sbind. destruct (readPendingRequest _ _ w) as [[p|er] w1] eqn:E1; [|done].
  pose proof (keeps_readPending _ (rd_closed name) _ _ w Hg : rd_gone name (readPendingRequest (en_Name e) (TrimSuffix (en_Name e) ".json") w).2) as Hg1.
  rewrite E1 in Hg1. destruct (read_pending entries w1) as [[rest|er] w2] eqn:E2; [|done]. intros [= <- <-].
  pose proof (IH _ _ _ Hg1 E2) as Hn. destruct p as [p|]; [|done]. destruct (read_pending_name _ _ _ _ _ E1) as (Ep & _ & _ & data & w3 & Er).
  cbn. rewrite not_elem_of_cons. split; [|done]. rewrite Ep. intros ->. unfold readRegularControlFile in Er.
  pose proof (rd_open _ _ Hg) as Ho. by destruct (cf_open _ w) as [[]]; cbn in Ho; simplify_eq.
Qed.
Lemma pending_fresh ids w ps w' : all_settled rd_gone ids w -> NoDup ids -> pendingRequests w = (inl ps, w') -> Forall proper ps ->
  NoDup (ids ++ map (fun p => request_id p) ps).
Proof.
  intros Hs Hnd Hp Hpr. destruct (daemon_pending_spec _ _ _ Hp) as (_ & entries & w1 & w2 & Er & l & Hperm & Hsub).
  assert (Epath : map pq_path ps = json_name <$> map (fun p => request_id p) ps).
  { clear -Hpr. induction Hpr as [|p ps [_ Hp] _ IH]; [done|]. cbn. by rewrite Hp, IH. }
  apply list.NoDup_app. split; [done|]. split.
  - intros id Hid Hin. unfold pendingRequests, sbind in Hp.
    pose proof (keeps_ensureRequestDirs _ (rd_closed (json_name id)) w (Hs id Hid)) as H1.
    destruct (ensureRequestDirs w) as [[[]|e] w3]; [|done]. unfold file_call in Hp.
    pose proof (cl_readDir _ (rd_closed (json_name id)) RequestsDir w3 H1) as H2.
    destruct (cf_readDir RequestsDir w3) as [[es|e] w4]; [|done]. destruct (read_pending es w4) as [[ps'|e] w5] eqn:E5; [|done].
    injection Hp as <- _. apply (gone_not_read _ _ _ _ _ H2 E5).
    rewrite <- (merge_sort_Permutation request_before ps'). rewrite Epath. by apply list_elem_of_fmap_2.
  - apply (NoDup_fmap_1 json_name). rewrite <- Epath, <- Hperm. eapply sublist_NoDup; [|exact Hsub].
    pose proof (rd_names w1) as Hn. by rewrite Er in Hn.
Qed.

End once.

(** ** A machine *)

(** Files in memory, a reconciler that succeeds, and one kind of request. *)
Record toy_machine := mkMachine { tm_files : list (control_path * list Z) }.
Definition tm_lookup (p : control_path) (w : toy_machine) : option (list Z) :=
  option_map snd (head (List.filter (fun f => bool_decide (f.1 = p)) (tm_files w))).
Definition tm_delete (p : control_path) (w : toy_machine) : toy_machine :=
  mkMachine (List.filter (fun f => negb (bool_decide (f.1 = p))) (tm_files w)).
Definition tm_put (p : control_path) (d : list Z) (w : toy_machine) : toy_machine :=
  mkMachine ((p, d) :: tm_files (tm_delete p w)).
Definition tm_names (w : toy_machine) : list string :=
  remove_dups (omap (fun f => match f.1 with RequestFile n => Some n | _ => None end) (tm_files w)).
Definition toy_instance : string := "0123456789abcdef0123456789abcdef".
Definition toy_id : string := "aaaaaaaaaaaaaaaabbbbbbbbbbbbbbbb".
Definition toy_request : daemonRequest := mkRequest 1 toy_id "reload" toy_instance "" 7.
#[export] Instance toy_files : ControlFS toy_machine := {
  cf_open p w := (match tm_lookup p w with Some d => inl (mkOpenFile (inl (true, 1)) (inl d)) | None => inr NotExist end, w);
  cf_readDir p w := (inl (match p with RequestsDir => map (fun n => mkEntry n false) (tm_names w) | _ => [] end), w);
  cf_lstat p w := (match p with RequestsDir | AcksDir => inl true | _ => match tm_lookup p w with Some _ => inl false | None => inr NotExist end end, w);
  cf_stat p w := (match tm_lookup p w with Some _ => inl tt | None => inr NotExist end, w);
  cf_modTime _ w := (inl 0, w); cf_mkdirAll _ w := (None, w); cf_chmod _ w := (None, w);
  cf_createTemp _ w := (inl (TempFile "t"), w);
  cf_write p d w := (None, tm_put p d w); cf_sync _ w := (None, w); cf_close _ w := (None, w);
  cf_rename p q w := match tm_lookup p w with Some d => (None, tm_put q d (tm_delete p w)) | None => (Some "missing", w) end;
  cf_remove p w := (match tm_lookup p w with Some _ => None | None => Some NotExist end, tm_delete p w);
  cf_lock _ w := (None, w); cf_unlock _ w := w; cf_random w := (inr "no entropy", w); cf_now w := (1, w)
}.
#[export] Instance toy_json : ControlJSON := {
  cj_encodeRequest _ := inl [1]; cj_decodeRequest _ := inl toy_request; cj_encodeAck _ := inl [2];
  cj_decodeAck _ := inr "no ack"; cj_encodeStatus _ := inl [3]; cj_decodeStatus _ := inr "no status"
}.
#[export] Instance toy_hooks : DaemonHooks toy_machine := {
  dh_ctxErr w := (None, w); dh_acquireLease w := (None, w); dh_retainLease w := (None, w); dh_closeLease w := (None, w);
  dh_reloadBegin w := (1%nat, w); dh_reloadProgress w := (mkObservation "applying" "" 0, w); dh_reloadEnd w := ((None, None), w);
  dh_validate w := ((None, None), w); dh_observe w := ((None, None), w); dh_productionHealthy _ w := (None, w);
  dh_inspect _ w := (inl None, w); dh_stop w := (StopDone None None None None, w); dh_fileHash w := ("hash", w);
  dh_configPollInterval w := (0, w); dh_fingerprint _ := inl "fingerprint"; dh_pid := 100
}.
Lemma toy_text (w : toy_machine) r e : (dh_reloadEnd w).1 = (r, Some e) -> e <> "".
Proof. done. Qed.
Definition tm_gone (name : string) (w : toy_machine) : Prop := forall d, (RequestFile name, d) ∉ tm_files w.
Lemma tm_gone_delete name p w : tm_gone name w -> tm_gone name (tm_delete p w).
Proof. intros Hg d Hin. apply (Hg d). apply list_elem_of_In in Hin. apply list_elem_of_In. by apply filter_In in Hin as [? _]. Qed.
Lemma tm_gone_put name p d w : not_request p -> tm_gone name w -> tm_gone name (tm_put p d w).
Proof.
  intros Hp Hg d' [[= <- <-]|Hin]%elem_of_cons; [done|]. by eapply (tm_gone_delete name _ w Hg).
Qed.
Lemma tm_lookup_gone name w : tm_gone name w -> tm_lookup (RequestFile name) w = None.
Proof.
  intros Hg. unfold tm_lookup. destruct (List.filter _ (tm_files w)) as [|[p d] l] eqn:E; [done|]. exfalso.
  assert (Hin : In (p, d) (List.filter (fun f => bool_decide (f.1 = RequestFile name)) (tm_files w))) by (rewrite E; by left).
  apply filter_In in Hin as [Hin Hp]. apply bool_decide_eq_true in Hp. cbn in Hp. subst p. by apply (Hg d), list_elem_of_In.
Qed.
#[export, refine] Instance toy_dir_laws : RequestDirLaws toy_machine :=
  {| rd_used := fun _ _ => True; rd_gone := tm_gone |}.
Proof.
  - intros name. by split.
  - intros name. split; try done; cbn.
    + intros tmp d dir w0 w [= <-]. by apply tm_gone_put.
    + intros p q w Hq Hg. destruct (tm_lookup p w); [|done]. by apply tm_gone_put, tm_gone_delete.
    + intros. by apply tm_gone_delete.
  - done.
  - intros name w _. cbn. assert (Hg : tm_gone name (tm_delete (RequestFile name) w)).
    { intros d Hin. apply list_elem_of_In, filter_In in Hin as [_ Hb]. cbn in Hb. by rewrite bool_decide_true in Hb. }
    by destruct (tm_lookup _ w).
  - intros name w Hg. cbn. by rewrite tm_lookup_gone.
  - intros w. cbn. rewrite map_map, map_id. apply NoDup_remove_dups.
Defined.

(** A request is waiting when the daemon starts; later it is told to stop. *)
Definition toy_disk : toy_machine := mkMachine [(requestPath toy_id, [1])].
Definition toy_options : Options := mkOptions "" 0 0 false false false (Some true).
