(* ===== verification/LifecycleLease.v ===== *)
(** * The lifecycle lease and its maintenance gate (internal/lockfile/lifecycle.go,
    lifecycle_maintenance.go, lifecycle_path_lock.go, lifecycle_identity_linux.go) and
    the operation lock (lockfile.go)

    A lock is an flock on a file that is anchored by the identities of the file and
    of its directory.  The lease is taken under the gate; a retained lease shares
    the open file description of the original.  The system calls are the class
    [LockKernel], in which other processes act between any two calls. *)
From Stdlib Require Import ZArith Lia String.
From stdpp Require Import base option list gmap strings numbers.
From S2P Require Import Prelude Paths ErrorState.

(** ** Identities *)

Definition S_IFMT : Z := 61440.
Definition S_IFREG : Z := 32768.
Definition S_IFDIR : Z := 16384.
Definition permission_bits : Z := 4095.
Definition lock_mode : Z := 384.
Definition shared_write_bits : Z := 18.
Definition STATX_MNT_ID : Z := 4096.

(** [unix.Statx_t]. *)
Record statx_t := mkStatx {
  sx_Mask : Z; sx_Dev_major : Z; sx_Dev_minor : Z; sx_Ino : Z; sx_Mnt_id : Z; sx_Mode : Z; sx_Uid : Z; sx_Gid : Z; sx_Nlink : Z
}.
Record lifecycleLockIdentity := mkIdentity {
  li_device : Z; li_inode : Z; li_mountID : Z; li_mode : Z; li_uid : Z; li_gid : Z; li_links : Z
}.
Definition lifecycleLockIdentityFromStatx (s : statx_t) : lifecycleLockIdentity + error :=
  if Z.land (sx_Mask s) STATX_MNT_ID =? 0 then inr "statx did not return a mount identity"
  else inl (mkIdentity (Z.lor (u64 (Z.shiftl (sx_Dev_major s) 32)) (sx_Dev_minor s)) (sx_Ino s) (sx_Mnt_id s) (sx_Mode s)
              (sx_Uid s) (sx_Gid s) (sx_Nlink s)).
Definition sameObject (a b : lifecycleLockIdentity) : bool :=
  (li_device a =? li_device b) && (li_inode a =? li_inode b) && (li_mountID a =? li_mountID b) &&
  (Z.land (li_mode a) S_IFMT =? Z.land (li_mode b) S_IFMT).
Definition sameSecuredDirectory (a b : lifecycleLockIdentity) : bool :=
  sameObject a b && (li_uid a =? li_uid b) && (li_gid a =? li_gid b) &&
  (Z.land (li_mode a) permission_bits =? Z.land (li_mode b) permission_bits).
Definition sameSecuredFile (a b : lifecycleLockIdentity) : bool :=
  sameSecuredDirectory a b && (li_links a =? li_links b).
Definition validateFile (euid : Z) (i : lifecycleLockIdentity) : option error :=
  if negb (Z.land (li_mode i) S_IFMT =? S_IFREG) then Some "lock path is not a regular file"
  else if negb (li_uid i =? euid) then Some "lock path has another owner"
  else if negb (Z.land (li_mode i) permission_bits =? lock_mode) then Some "lock path mode is not 0600"
  else if negb (li_links i =? 1) then Some "refuse lock file with several links"
  else None.
Definition validateDirectory (euid : Z) (i : lifecycleLockIdentity) : option error :=
  if negb (Z.land (li_mode i) S_IFMT =? S_IFDIR) then Some "lock parent is not a directory"
  else if negb (li_uid i =? euid) then Some "lock parent has another owner"
  else if negb (Z.land (li_mode i) shared_write_bits =? 0) then Some "lock parent has group/other writable mode"
  else None.

(** ** Paths *)

(** [filepath.Dir] and [filepath.Base] of a clean absolute path. *)
Definition path_Dir (path : string) : string := "/" +:+ String.concat "/" (removelast (tail (path_elements "" path))).
Definition path_Base (path : string) : string :=
  if String.eqb path "/" then "/" else List.last (path_elements "" path) "".
Definition clean_absolute (path : string) : bool :=
  negb (String.eqb path "") && path_IsAbs path && String.eqb (path_Clean path) path.
Definition DefaultLifecycleLeasePath : string := "/run/wg-mix-ebpf/daemon.lease".
Definition DefaultLifecycleMaintenancePath : string := "/run/.wg-mix-ebpf-daemon.lease.maintenance".
Definition validateLifecycleLockPath (path : string) : option error :=
  if String.eqb path "" then Some "lock path is empty"
  else if negb (String.eqb (path_Clean path) path) || negb (path_IsAbs path) then Some "lock path must be a clean absolute path"
  else if String.eqb (path_Dir path) "/" then Some "lock parent may not be the filesystem root"
  else None.
Definition validateLifecyclePathPair (lifecyclePath maintenancePath : string) : option error :=
  match validateLifecycleLockPath lifecyclePath, validateLifecycleLockPath maintenancePath with
  | Some e, _ => Some e
  | None, Some e => Some e
  | None, None =>
      if String.eqb lifecyclePath maintenancePath then Some "global lifecycle lease and maintenance gate paths must differ"
      else if negb (Bool.eqb (String.eqb lifecyclePath DefaultLifecycleLeasePath)
                             (String.eqb maintenancePath DefaultLifecycleMaintenancePath))
      then Some "default lifecycle paths must use the fixed pair" else None
  end.

(** ** System calls *)

Inductive open_error := OpenExists | OpenLoop | OpenError (e : error).
Definition open_error_message (e : open_error) : error :=
  match e with OpenExists => "file exists" | OpenLoop => "too many levels of symbolic links" | OpenError e => e end.
Inductive flock_error := WouldBlock | FlockError (e : error).
(** Descriptors are numbers. *)
Class LockKernel (W : Type) := {
  lk_euid : Z;
  lk_mkdirAll : string -> W -> option error * W;
  lk_openDir : string -> W -> (Z + error) * W;
  (** [openat] with and without [O_CREAT|O_EXCL]. *)
  lk_create : Z -> string -> W -> (Z + open_error) * W;
  lk_open : Z -> string -> W -> (Z + open_error) * W;
  (** [open] of the operation lock, and [fstat]: mode and links. *)
  lk_openLock : string -> W -> (Z + open_error) * W;
  lk_fstat : Z -> W -> ((Z * Z) + error) * W;
  lk_chmod : Z -> W -> option error * W;
  lk_sync : Z -> W -> option error * W;
  lk_statx : Z -> W -> (statx_t + error) * W;
  lk_statxAt : Z -> string -> W -> (statx_t + error) * W;
  lk_flock : Z -> W -> option flock_error * W;
  lk_unlock : Z -> W -> option error * W;
  lk_dup : Z -> W -> (Z + error) * W;
  lk_close : Z -> W -> option error * W;
  lk_readAt : Z -> W -> string * W;
  lk_truncate : Z -> W -> option error * W;
  lk_seek : Z -> W -> option error * W;
  lk_write : Z -> list Z -> W -> option error * W;
  lk_ctxErr : W -> option error * W;
  (** A pause of the wait, or the end of its context. *)
  lk_pause : W -> option error * W;
  lk_validateContext : W -> option error * W
}.

Record anchoredLifecycleLock := mkAnchored {
  al_path : string; al_parentPath : string; al_name : string; al_parent : Z; al_file : Z;
  al_parentIdentity : lifecycleLockIdentity; al_fileIdentity : lifecycleLockIdentity
}.

Section locks.
Context {W : Type} `{LockKernel W}.

Definition check (e : option error) : SM W unit := fun w => (match e with Some e => inr e | None => inl tt end, w).
(** Close the descriptors and fail; the errors of the closes are dropped. *)
Fixpoint close_quietly (fds : list Z) (w : W) : W :=
  match fds with [] => w | fd :: fds => close_quietly fds (lk_close fd w).2 end.
Definition or_close {A} (fds : list Z) (m : SM W A) : SM W A := fun w =>
  match m w with
  | (inr e, w) => (inr e, close_quietly fds w)
  | r => r
  end.

Definition lifecycleLockIdentityForFD (fd : Z) : SM W lifecycleLockIdentity :=
  try! s := lk_statx fd in fun w => (lifecycleLockIdentityFromStatx s, w).
Definition lifecycleLockIdentityAt (fd : Z) (name : string) : SM W lifecycleLockIdentity :=
  try! s := lk_statxAt fd name in fun w => (lifecycleLockIdentityFromStatx s, w).

Definition lock_validate (l : anchoredLifecycleLock) : SM W unit :=
  try! parent := swrap "inspect held lock parent: " (lifecycleLockIdentityForFD (al_parent l)) in
  must! check (validateDirectory lk_euid parent) in
  reject negb (sameSecuredDirectory (al_parentIdentity l) parent) with "lock parent identity changed" in
  try! namedFD := swrap "reopen lock parent: " (lk_openDir (al_parentPath l)) in
  try! named := (fun w =>
    let '(r, w) := lifecycleLockIdentityForFD namedFD w in
    let '(closeErr, w) := lk_close namedFD w in
    (match r, closeErr with
     | inr e, _ => inr ("inspect reopened lock parent: " +:+ e)
     | inl _, Some e => inr ("close reopened lock parent: " +:+ e)
     | inl i, None => inl i
     end, w)) in
  reject negb (sameSecuredDirectory parent named) with "lock parent pathname identity changed" in
  try! file := swrap "inspect held lock file: " (lifecycleLockIdentityForFD (al_file l)) in
  must! check (validateFile lk_euid file) in
  reject negb (sameSecuredFile (al_fileIdentity l) file) with "held lock file identity changed" in
  try! namedFile := swrap "revalidate lock pathname: " (lifecycleLockIdentityAt (al_parent l) (al_name l)) in
  reject negb (sameSecuredFile file namedFile) with "lock pathname identity changed" in
  sret tt.
(** Both descriptors are closed; the errors are joined. *)
Definition lock_close (l : anchoredLifecycleLock) (w : W) : option error * W :=
  let '(e1, w) := lk_close (al_file l) w in
  let '(e2, w) := lk_close (al_parent l) w in
  (errors_Join e1 e2, w).

(** The descriptor, and whether the file is new. *)
Definition open_lock_file (parent : Z) (name : string) : SM W (Z * bool) := fun w =>
  match lk_create parent name w with
  | (inl fd, w) => (inl (fd, true), w)
  | (inr OpenExists, w) =>
      match lk_open parent name w with
      | (inl fd, w) => (inl (fd, false), w)
      | (inr OpenLoop, w) => (inr "refuse symbolic-link lock file", w)
      | (inr e, w) => (inr ("open lock file: " +:+ open_error_message e), w)
      end
  | (inr OpenLoop, w) => (inr "refuse symbolic-link lock file", w)
  | (inr e, w) => (inr ("open lock file: " +:+ open_error_message e), w)
  end.
Definition secure_new_file (parent file : Z) : SM W unit :=
  must! swrap "secure new lock file: " (scall (lk_chmod file)) in
  must! swrap "sync new lock file: " (scall (lk_sync file)) in
  swrap "sync lock parent: " (scall (lk_sync parent)).
Definition openAnchoredLifecycleLock (path : string) : SM W anchoredLifecycleLock :=
  reject negb (clean_absolute path) with "lock path must be a clean absolute path" in
  let parentPath := path_Dir path in
  let name := path_Base path in
  reject String.eqb name "." || String.eqb name "/" with "lock path has invalid basename" in
  must! swrap "create lock parent: " (scall (lk_mkdirAll parentPath)) in
  try! parent := swrap "open lock parent: " (lk_openDir parentPath) in
  try! parentIdentity := or_close [parent] (swrap "inspect lock parent: " (lifecycleLockIdentityForFD parent)) in
  must! or_close [parent] (check (validateDirectory lk_euid parentIdentity)) in
  try! f := or_close [parent] (open_lock_file parent name) in
  must! or_close [f.1; parent] (if snd f then secure_new_file parent f.1 else sret tt) in
  try! fileIdentity := or_close [f.1; parent] (swrap "inspect lock file: " (lifecycleLockIdentityForFD f.1)) in
  must! or_close [f.1; parent] (check (validateFile lk_euid fileIdentity)) in
  try! namedIdentity := or_close [f.1; parent] (swrap "inspect named lock file: " (lifecycleLockIdentityAt parent name)) in
  must! or_close [f.1; parent] (reject negb (sameSecuredFile fileIdentity namedIdentity)
    with "lock pathname does not name the opened file" in sret tt) in
  let l := mkAnchored path parentPath name parent f.1 parentIdentity fileIdentity in
  must! or_close [f.1; parent] (lock_validate l) in
  sret l.
Definition lock_duplicate (l : anchoredLifecycleLock) : SM W anchoredLifecycleLock :=
  must! lock_validate l in
  try! parent := swrap "duplicate lock parent: " (lk_dup (al_parent l)) in
  try! file := or_close [parent] (swrap "duplicate lock file: " (lk_dup (al_file l))) in
  let d := mkAnchored (al_path l) (al_parentPath l) (al_name l) parent file (al_parentIdentity l) (al_fileIdentity l) in
  must! or_close [file; parent] (lock_validate d) in
  sret d.

(** ** Leases and gates *)

(** An error, and which locks it reports as held by others. *)
Record failure := mkFailure { fl_leaseHeld : bool; fl_gateHeld : bool; fl_text : error }.
Inductive lock_kind := LeaseLock | GateLock.
Definition plain_failure (e : error) : failure := mkFailure false false e.
Definition held_failure (k : lock_kind) (e : error) : failure :=
  match k with LeaseLock => mkFailure true false e | GateLock => mkFailure false true e end.
Definition join_failure (f : failure) (e : option error) : failure :=
  match e with Some e => mkFailure (fl_leaseHeld f) (fl_gateHeld f) (fl_text f +:+ newline +:+ e) | None => f end.
Definition LM (A : Type) : Type := W -> (A + failure) * W.
Definition plain_fail {A} (m : SM W A) : LM A := fun w =>
  let '(r, w) := m w in (match r with inl a => inl a | inr e => inr (plain_failure e) end, w).

Definition recordLifecycleOwner (fd : Z) (data : list Z + error) : SM W unit :=
  try! data := (fun w => (data, w)) in
  must! scall (lk_truncate fd) in
  must! scall (lk_seek fd) in
  must! scall (lk_write fd (data ++ [10])) in
  scall (lk_sync fd).
Definition releaseAnchoredLifecycleLock (l : anchoredLifecycleLock) (cause : error) (w : W) : failure * W :=
  let '(e1, w) := lk_unlock (al_file l) w in
  let '(e2, w) := lock_close l w in
  (join_failure (join_failure (plain_failure cause) e1) e2, w).
(** A step after the flock: on failure the lock is released. *)
Definition or_release (l : anchoredLifecycleLock) (prefix : error) (m : SM W unit) (k : LM anchoredLifecycleLock)
    : LM anchoredLifecycleLock := fun w =>
  match m w with
  | (inl _, w) => k w
  | (inr e, w) => let '(f, w) := releaseAnchoredLifecycleLock l (prefix +:+ e) w in (inr f, w)
  end.
(** [owner]: the encoded owner record. *)
Definition acquireAnchoredLifecycleLock (path : string) (owner : list Z + error) (kind : lock_kind) : LM anchoredLifecycleLock := fun w =>
  match openAnchoredLifecycleLock path w with
  | (inr e, w) => (inr (plain_failure ("open lock: " +:+ e)), w)
  | (inl l, w) =>
      match lk_flock (al_file l) w with
      | (Some WouldBlock, w) =>
          let '(detail, w) := lk_readAt (al_file l) w in
          let '(closeErr, w) := lock_close l w in
          (inr (join_failure (held_failure kind ("lock is already held" +:+ detail)) closeErr), w)
      | (Some (FlockError e), w) =>
          let '(closeErr, w) := lock_close l w in
          (inr (join_failure (plain_failure ("acquire lock: " +:+ e)) closeErr), w)
      | (None, w) =>
          or_release l "validate acquired lock: " (lock_validate l)
            (or_release l "record lock owner: " (recordLifecycleOwner (al_file l) owner)
              (or_release l "revalidate acquired lock: " (lock_validate l) (fun w => (inl l, w)))) w
      end
  end.

Record LifecycleLease := mkLease { ll_path : string; ll_lock : option anchoredLifecycleLock }.
Record LifecycleMaintenance := mkMaintenance { lm_lifecyclePath : string; lm_path : string; lm_lock : option anchoredLifecycleLock }.

Definition acquireLifecycleWithoutMaintenance (path : string) (owner : list Z + error) : LM LifecycleLease := fun w =>
  if String.eqb path "" then (inr (plain_failure "global lifecycle lease path is empty"), w)
  else if negb (String.eqb (path_Clean path) path) || negb (path_IsAbs path)
  then (inr (plain_failure "global lifecycle lease path must be a clean absolute path"), w)
  else match acquireAnchoredLifecycleLock path owner LeaseLock w with
       | (inl l, w) => (inl (mkLease path (Some l)), w)
       | (inr f, w) => (inr f, w)
       end.
Definition HeldAt (l : LifecycleLease) (path : string) (w : W) : bool * W :=
  match ll_lock l with
  | None => (false, w)
  | Some lock =>
      if negb (path_IsAbs path) || negb (String.eqb (path_Clean path) path) || negb (String.eqb path (ll_path l)) then (false, w)
      else let '(r, w) := lock_validate lock w in (match r with inl _ => true | inr _ => false end, w)
  end.
Definition lease_Retain (l : LifecycleLease) : SM W LifecycleLease :=
  match ll_lock l with
  | None => sfail "cannot retain closed lifecycle lease"
  | Some lock => try! d := swrap "retain global lifecycle lease: " (lock_duplicate lock) in sret (mkLease (ll_path l) (Some d))
  end.
(** With the lease as it is afterwards. *)
Definition lease_Close (l : LifecycleLease) (w : W) : option error * LifecycleLease * W :=
  match ll_lock l with
  | None => (None, l, w)
  | Some lock =>
      let '(err, w) := lock_close lock w in
      (option_map (fun e => "close global lifecycle lease: " +:+ e) err, mkLease (ll_path l) None, w)
  end.
Definition close_lease_of (l : LifecycleLease) (w : W) : option error * W := let '(err, _, w) := lease_Close l w in (err, w).

Definition tryBeginLifecycleMaintenanceAt (lifecyclePath maintenancePath : string) (owner : list Z + error) : LM LifecycleMaintenance := fun w =>
  match validateLifecyclePathPair lifecyclePath maintenancePath with
  | Some e => (inr (plain_failure e), w)
  | None =>
      match acquireAnchoredLifecycleLock maintenancePath owner GateLock w with
      | (inl l, w) => (inl (mkMaintenance lifecyclePath maintenancePath (Some l)), w)
      | (inr f, w) => (inr f, w)
      end
  end.
Definition gate_validateLocked (g : LifecycleMaintenance) : SM W unit :=
  match lm_lock g with
  | None => sfail "lifecycle maintenance gate is closed"
  | Some l =>
      must! check (validateLifecyclePathPair (lm_lifecyclePath g) (lm_path g)) in
      reject negb (String.eqb (al_path l) (lm_path g)) with "lifecycle maintenance gate path changed" in
      swrap "validate lifecycle maintenance gate: " (lock_validate l)
  end.
Definition tryAcquireLifecycleLocked (g : LifecycleMaintenance) (owner : list Z + error) : LM LifecycleLease := fun w =>
  match lm_lock g with
  | None => (inr (plain_failure "cannot acquire lifecycle through closed maintenance gate"), w)
  | Some _ =>
      match gate_validateLocked g w with
      | (inr e, w) => (inr (plain_failure e), w)
      | (inl _, w) =>
          match acquireLifecycleWithoutMaintenance (lm_lifecyclePath g) owner w with
          | (inr f, w) => (inr f, w)
          | (inl lease, w) =>
              match gate_validateLocked g w with
              | (inr e, w) => let '(ce, w) := close_lease_of lease w in (inr (join_failure (plain_failure e) ce), w)
              | (inl _, w) =>
                  match HeldAt lease (lm_lifecyclePath g) w with
                  | (true, w) => (inl lease, w)
                  | (false, w) =>
                      let '(ce, w) := close_lease_of lease w in
                      (inr (join_failure (plain_failure "acquired lifecycle lease no longer owns its path") ce), w)
                  end
              end
          end
      end
  end.
Definition gate_Close (g : LifecycleMaintenance) (w : W) : option error * LifecycleMaintenance * W :=
  match lm_lock g with
  | None => (None, g, w)
  | Some l =>
      let '(r, w) := gate_validateLocked g w in
      let '(closeErr, w) := lock_close l w in
      let err := errors_Join (match r with inr e => Some e | inl _ => None end) closeErr in
      (option_map (fun e => "close lifecycle maintenance gate: " +:+ e) err,
       mkMaintenance (lm_lifecyclePath g) (lm_path g) None, w)
  end.
Definition AcquireLifecycleAt (path maintenancePath : string) (owner : list Z + error) : LM LifecycleLease := fun w =>
  match tryBeginLifecycleMaintenanceAt path maintenancePath owner w with
  | (inr f, w) => (inr (if fl_gateHeld f then mkFailure true true (fl_text f) else f), w)
  | (inl g, w) =>
      let '(r, w) := tryAcquireLifecycleLocked g owner w in
      let '(closeErr, _, w) := gate_Close g w in
      match r, closeErr with
      | inr f, _ => (inr (join_failure f closeErr), w)
      | inl lease, Some e => let '(ce, w) := close_lease_of lease w in (inr (join_failure (plain_failure e) ce), w)
      | inl lease, None => (inl lease, w)
      end
  end.

(** *** Waiting *)

(** [None]: the wait goes on.  [fuel] bounds the number of pauses; the context of
    the wait ends after thirty seconds. *)
Fixpoint begin_wait (fuel : nat) (path maintenancePath : string) (owner : list Z + error) (w : W)
    : option (LifecycleMaintenance + failure) * W :=
  match fuel with
  | O => (None, w)
  | S fuel =>
      match lk_ctxErr w with
      | (Some e, w) => (Some (inr (plain_failure e)), w)
      | (None, w) =>
          match tryBeginLifecycleMaintenanceAt path maintenancePath owner w with
          | (inl g, w) =>
              match lk_ctxErr w with
              | (Some e, w) => let '(ce, _, w) := gate_Close g w in (Some (inr (join_failure (plain_failure e) ce)), w)
              | (None, w) => (Some (inl g), w)
              end
          | (inr f, w) =>
              if negb (fl_gateHeld f) then (Some (inr f), w)
              else match lk_pause w with
                   | (Some e, w) => (Some (inr (join_failure f (Some e))), w)
                   | (None, w) => begin_wait fuel path maintenancePath owner w
                   end
          end
      end
  end.
Definition BeginLifecycleMaintenance (fuel : nat) (path maintenancePath : string) (owner : list Z + error) (w : W)
    : option (LifecycleMaintenance + failure) * W :=
  match lk_ctxErr w with
  | (Some e, w) => (Some (inr (plain_failure e)), w)
  | (None, w) => begin_wait fuel path maintenancePath owner w
  end.
(** A check after the lease is held; on failure it is closed. *)
Definition or_close_lease (lease : LifecycleLease) (c : W -> option error * W) (k : LM LifecycleLease) : LM LifecycleLease := fun w =>
  match c w with
  | (Some e, w) => let '(ce, w) := close_lease_of lease w in (inr (join_failure (plain_failure e) ce), w)
  | (None, w) => k w
  end.
Definition tryAcquireValidatedLifecycle (g : LifecycleMaintenance) (owner : list Z + error) : LM LifecycleLease := fun w =>
  match tryAcquireLifecycleLocked g owner w with
  | (inr f, w) => (inr f, w)
  | (inl lease, w) =>
      or_close_lease lease lk_ctxErr (or_close_lease lease lk_validateContext
        (or_close_lease lease lk_ctxErr (fun w => (inl lease, w)))) w
  end.
Fixpoint acquire_wait (fuel : nat) (g : LifecycleMaintenance) (owner : list Z + error) (w : W)
    : option (LifecycleLease + failure) * W :=
  match fuel with
  | O => (None, w)
  | S fuel =>
      match lk_ctxErr w with
      | (Some e, w) => (Some (inr (plain_failure e)), w)
      | (None, w) =>
          match tryAcquireValidatedLifecycle g owner w with
          | (inl lease, w) => (Some (inl lease), w)
          | (inr f, w) =>
              if negb (fl_leaseHeld f) then (Some (inr f), w)
              else match lk_pause w with
                   | (Some e, w) => (Some (inr (join_failure f (Some e))), w)
                   | (None, w) => acquire_wait fuel g owner w
                   end
          end
      end
  end.
Definition WaitAcquireLifecycle (fuel : nat) (g : LifecycleMaintenance) (owner : list Z + error) (w : W)
    : option (LifecycleLease + failure) * W :=
  match lk_ctxErr w with
  | (Some e, w) => (Some (inr (plain_failure e)), w)
  | (None, w) => acquire_wait fuel g owner w
  end.
(** [held]: the caller's lease, used and left open. *)
Definition WithLifecycle {A} (path maintenancePath : string) (held : option LifecycleLease) (owner : list Z + error)
    (fn : LifecycleLease -> W -> (A + error) * W) : LM A := fun w =>
  match lk_ctxErr w with
  | (Some e, w) => (inr (plain_failure e), w)
  | (None, w) =>
      match held with
      | Some lease =>
          match HeldAt lease path w with
          | (false, w) => (inr (plain_failure "provided lifecycle lease does not own its path"), w)
          | (true, w) =>
              match lk_validateContext w with
              | (Some e, w) => (inr (plain_failure e), w)
              | (None, w) => plain_fail (fn lease) w
              end
          end
      | None =>
          match AcquireLifecycleAt path maintenancePath owner w with
          | (inr f, w) => (inr f, w)
          | (inl lease, w) =>
              let '(r, w) := match lk_validateContext w with
                | (Some e, w) => (inr e, w)
                | (None, w) => fn lease w
                end in
              let '(ce, w) := close_lease_of lease w in
              (match r, ce with
               | inl a, None => inl a
               | inl _, Some e => inr (plain_failure e)
               | inr e, ce => inr (join_failure (plain_failure e) ce)
               end, w)
          end
      end
  end.

(** ** The operation lock *)

Definition FileName : string := "lock".
Definition openRegularSingleLinkLock (path : string) : SM W Z := fun w =>
  match lk_openLock path w with
  | (inr OpenLoop, w) => (inr "refuse symbolic-link lock file", w)
  | (inr e, w) => (inr (open_error_message e), w)
  | (inl fd, w) =>
      or_close [fd]
        (try! stat := lk_fstat fd in
         reject negb (Z.land stat.1 S_IFMT =? S_IFREG) with "lock path is not a regular file" in
         reject negb (stat.2 =? 1) with "refuse lock file with several links" in
         sret fd) w
  end.
(** [None]: the lock is still awaited; [fuel] bounds the attempts. *)
Fixpoint flock_wait (fuel : nat) (fd : Z) (w : W) : option (unit + error) * W :=
  match fuel with
  | O => (None, w)
  | S fuel =>
      match lk_flock fd w with
      | (None, w) => (Some (inl tt), w)
      | (Some (FlockError e), w) => (Some (inr ("acquire lock: " +:+ e)), w)
      | (Some WouldBlock, w) =>
          match lk_pause w with
          | (Some e, w) => (Some (inr e), w)
          | (None, w) => flock_wait fuel fd w
          end
      end
  end.
Definition WithLock {A} (fuel : nat) (runDir : string) (fn : SM W A) (w : W) : option (A + error) * W :=
  match (must! scall lk_ctxErr in
         must! swrap "create lock dir: " (scall (lk_mkdirAll runDir)) in
         try! fd := swrap "open operation lock file: " (openRegularSingleLinkLock (runDir +:+ "/" +:+ FileName)) in
         must! or_close [fd] (swrap "secure operation lock file: " (scall (lk_chmod fd))) in
         sret fd) w with
  | (inr e, w) => (Some (inr e), w)
  | (inl fd, w) =>
      match flock_wait fuel fd w with
      | (None, w) => (None, w)
      | (Some (inr e), w) => (Some (inr e), (lk_close fd w).2)
      | (Some (inl _), w) =>
          let '(r, w) := (must! scall lk_ctxErr in fn) w in
          (Some r, (lk_close fd (lk_unlock fd w).2).2)
      end
  end.
End locks.
