(* ===== verification/LifecycleLeaseProps.v ===== *)
(** * The lifecycle lease: exclusion and descriptors

    [LockLaws] says what flock, open, dup and close do to the descriptors of this
    process and to the holders of locks, and that nothing another process does
    changes either.  [step] is one operation on the leases and gates a process
    holds; the invariant [held_inv] is kept by every step on every path. *)
From Stdlib Require Import ZArith Lia String.
From stdpp Require Import base option list gmap strings numbers fin_maps.
From S2P Require Import Prelude Paths ErrorState LifecycleLease.

(** A file: its device and inode.  An open file description has a number. *)
Abbreviation object := (Z * Z)%type.
Abbreviation descriptor := (Z * object)%type.
Definition identity_object (i : lifecycleLockIdentity) : object := (li_device i, li_inode i).

(** The descriptors of this process, and the description that holds the lock of a file. *)
Class LockView (W : Type) := { lv_fds : W -> gmap Z descriptor; lv_locks : W -> gmap object Z }.

Section relations.
Context {W : Type} {Hv : LockView W}.
Implicit Types w : W.

(** The descriptors [A] are new; every description that was open keeps its lock. *)
Definition gains (A : gmap Z descriptor) w w' : Prop :=
  lv_fds w' = A ∪ lv_fds w /\ A ##ₘ lv_fds w /\
  forall fd v o, lv_fds w !! fd = Some v -> lv_locks w !! o = Some v.1 -> lv_locks w' !! o = Some v.1.
Definition quiet w w' : Prop := gains ∅ w w'.
Definition unused (ofd : Z) w : Prop := forall fd v, lv_fds w !! fd = Some v -> v.1 <> ofd.
Definition opened (fd : Z) w w' : Prop := exists v, gains {[fd := v]} w w' /\ unused v.1 w.
Definition closed (fd : Z) w w' : Prop :=
  lv_fds w' = delete fd (lv_fds w) /\
  (forall fd' v o, lv_fds w' !! fd' = Some v -> lv_locks w !! o = Some v.1 -> lv_locks w' !! o = Some v.1) /\
  forall v, lv_fds w !! fd = Some v -> unused v.1 w' -> forall o, lv_locks w' !! o <> Some v.1.
End relations.

(** What the calls do.  The lock of a file has one holder: a successful flock
    leaves the locks of the other descriptions of this process alone, so none of them holds that file. *)
Class LockLaws (W : Type) {Hk : LockKernel W} {Hv : LockView W} := {
  ll_mkdirAll p w : quiet w (lk_mkdirAll p w).2;
  ll_openDir p w : match lk_openDir p w with (inl fd, w') => opened fd w w' | (inr _, w') => quiet w w' end;
  ll_create d n w : match lk_create d n w with (inl fd, w') => opened fd w w' | (inr _, w') => quiet w w' end;
  ll_open d n w : match lk_open d n w with (inl fd, w') => opened fd w w' | (inr _, w') => quiet w w' end;
  ll_openLock p w : match lk_openLock p w with (inl fd, w') => opened fd w w' | (inr _, w') => quiet w w' end;
  ll_fstat fd w : quiet w (lk_fstat fd w).2;
  ll_chmod fd w : quiet w (lk_chmod fd w).2;
  ll_sync fd w : quiet w (lk_sync fd w).2;
  ll_statx fd w : quiet w (lk_statx fd w).2;
  (** [statx] of a descriptor reports its file. *)
  ll_statx_file fd w s w' i v : lk_statx fd w = (inl s, w') -> lifecycleLockIdentityFromStatx s = inl i ->
    lv_fds w !! fd = Some v -> identity_object i = v.2;
  ll_statxAt fd n w : quiet w (lk_statxAt fd n w).2;
  ll_flock fd w v : lv_fds w !! fd = Some v ->
    quiet w (lk_flock fd w).2 /\ ((lk_flock fd w).1 = None -> lv_locks (lk_flock fd w).2 !! v.2 = Some v.1);
  ll_unlock fd w v : lv_fds w !! fd = Some v -> lv_fds (lk_unlock fd w).2 = lv_fds w /\
    forall fd' u o, lv_fds w !! fd' = Some u -> u.1 <> v.1 -> lv_locks w !! o = Some u.1 -> lv_locks (lk_unlock fd w).2 !! o = Some u.1;
  ll_dup fd w v : lv_fds w !! fd = Some v ->
    match lk_dup fd w with (inl fd', w') => gains {[fd' := v]} w w' | (inr _, w') => quiet w w' end;
  ll_close fd w : is_Some (lv_fds w !! fd) -> closed fd w (lk_close fd w).2;
  ll_readAt fd w : quiet w (lk_readAt fd w).2;
  ll_truncate fd w : quiet w (lk_truncate fd w).2;
  ll_seek fd w : quiet w (lk_seek fd w).2;
  ll_write fd d w : quiet w (lk_write fd d w).2;
  ll_ctxErr w : quiet w (lk_ctxErr w).2;
  ll_pause w : quiet w (lk_pause w).2;
  ll_validateContext w : quiet w (lk_validateContext w).2
}.

(** ** The algebra of gained descriptors *)

Section algebra.
Context {W : Type} {Hk : LockKernel W} {Hv : LockView W} {Hl : LockLaws W}.
Implicit Types w : W.

Lemma gains_refl w : quiet w w.
Proof. split_and!; [by rewrite (left_id_L ∅ (∪))|apply map_disjoint_empty_l|done]. Qed.
Lemma gains_trans A B w1 w2 w3 : gains A w1 w2 -> gains B w2 w3 -> gains (B ∪ A) w1 w3.
Proof.
  intros (H1&D1&L1) (H2&D2&L2). rewrite H1 in D2. apply map_disjoint_union_r in D2 as [D2a D2b]. split_and!.
  - by rewrite H2, H1, (assoc_L (∪)).
  - by apply map_disjoint_union_l.
  - intros fd v o Hfd Hlk. eapply L2; [|by eapply L1]. rewrite H1. apply lookup_union_Some_raw. right.
    split; [|done]. by eapply map_disjoint_Some_r.
Qed.
Lemma gains_quiet A w1 w2 w3 : gains A w1 w2 -> quiet w2 w3 -> gains A w1 w3.
Proof. intros H1 H2. pose proof (gains_trans _ _ _ _ _ H1 H2) as H. by rewrite (left_id_L ∅ (∪)) in H. Qed.
Lemma quiet_gains A w1 w2 w3 : quiet w1 w2 -> gains A w2 w3 -> gains A w1 w3.
Proof. intros H1 H2. pose proof (gains_trans _ _ _ _ _ H1 H2) as H. by rewrite (right_id_L ∅ (∪)) in H. Qed.
Lemma gains_lookup A w w' fd v : gains A w w' -> A !! fd = Some v -> lv_fds w' !! fd = Some v.
Proof. intros (H&_&_) HA. rewrite H. by apply lookup_union_Some_l. Qed.
Lemma gains_keep A w w' fd v : gains A w w' -> lv_fds w !! fd = Some v -> lv_fds w' !! fd = Some v.
Proof. intros (H&D&_) Hfd. rewrite H. by apply lookup_union_Some_r. Qed.
Lemma quiet_fds w w' : quiet w w' -> lv_fds w' = lv_fds w.
Proof. intros (H&_&_). by rewrite H, (left_id_L ∅ (∪)). Qed.
Lemma gains_lock A w w' fd v o : gains A w w' -> lv_fds w !! fd = Some v -> lv_locks w !! o = Some v.1 -> lv_locks w' !! o = Some v.1.
Proof. intros (_&_&H). apply H. Qed.
Lemma unused_gains A ofd w w' : gains A w w' -> unused ofd w' -> unused ofd w.
Proof. intros G U fd v Hfd. eapply U, gains_keep; eauto. Qed.

(** Closing a gained descriptor. *)
Lemma gains_closed A fd w1 w2 w3 : gains A w1 w2 -> is_Some (A !! fd) -> closed fd w2 w3 -> gains (delete fd A) w1 w3.
Proof.
  intros (H1&D1&L1) HA (H2&L2&_). assert (lv_fds w1 !! fd = None) as Hn.
  { destruct HA as [v HA]. by eapply map_disjoint_Some_l. }
  split_and!.
  - rewrite H2, H1, delete_union. by rewrite (delete_id (lv_fds w1)).
  - by apply map_disjoint_delete_l.
  - intros fd' v o Hfd Hlk. assert (fd <> fd') as Hne by (intros E; rewrite E in Hn; congruence).
    apply (L2 fd'); [|by eapply L1]. rewrite H2, lookup_delete_ne, H1 by done. by apply lookup_union_Some_r.
Qed.
Lemma gains_close A fd w1 w2 : gains A w1 w2 -> is_Some (A !! fd) -> gains (delete fd A) w1 (lk_close fd w2).2.
Proof. intros G HA. eapply gains_closed; [done..|]. apply ll_close. destruct HA as [v HA]. exists v. by eapply gains_lookup. Qed.
Lemma close_quietly_gains fds A w1 w2 : gains A w1 w2 -> NoDup fds -> dom A = list_to_set fds -> quiet w1 (close_quietly fds w2).
Proof.
  revert A w2. induction fds as [|fd fds IH]; cbn; intros A w2 G Hnd HA.
  - apply dom_empty_inv_L in HA. by subst.
  - apply NoDup_cons in Hnd as [Hnin Hnd]. eapply (IH (delete fd A)); [|done|].
    + apply gains_close; [done|]. apply elem_of_dom. rewrite HA. set_solver.
    + rewrite dom_delete_L, HA. set_solver.
Qed.

(** ** Computations that leave no descriptor *)

Definition still {A} (m : SM W A) : Prop := forall w, quiet w (m w).2.
Lemma idle_ret {A} (a : A) : still (sret a).
Proof. intros w. apply gains_refl. Qed.
Lemma idle_fail {A} e : still (A := A) (sfail e).
Proof. intros w. apply gains_refl. Qed.
Lemma still_check e : still (check e).
Proof. intros w. apply gains_refl. Qed.
Lemma still_pure {A} (r : A + error) : still (fun w => (r, w)).
Proof. intros w. apply gains_refl. Qed.
Lemma idle_bind {A B} (m : SM W A) (k : A -> SM W B) : still m -> (forall a, still (k a)) -> still (sbind m k).
Proof.
  intros Hm HK w. unfold sbind. specialize (Hm w). destruct (m w) as [[a|e] w']; cbn in *; [|done].
  eapply gains_quiet; [done|]. apply HK.
Qed.
Lemma idle_wrap {A} p (m : SM W A) : still m -> still (swrap p m).
Proof. intros Hm w. unfold swrap. specialize (Hm w). by destruct (m w) as [[a|e] w']. Qed.
Lemma still_call (f : W -> option error * W) : (forall w, quiet w (f w).2) -> still (scall f).
Proof. intros Hf w. unfold scall. specialize (Hf w). by destruct (f w) as [[e|] w']. Qed.
Lemma idle_reject {A} (b : bool) e (k : SM W A) : still k -> still (reject b with e in k).
Proof. destruct b; [intros _; apply idle_fail|done]. Qed.
Lemma still_statx fd : still (lk_statx fd).
Proof. intros w. apply ll_statx. Qed.
Lemma still_statxAt fd n : still (lk_statxAt fd n).
Proof. intros w. apply ll_statxAt. Qed.
End algebra.

Create HintDb lease.
#[export] Hint Resolve idle_ret idle_fail still_check still_pure idle_bind idle_wrap still_call idle_reject
  still_statx still_statxAt ll_mkdirAll ll_chmod ll_sync ll_truncate ll_seek ll_write ll_ctxErr ll_pause
  ll_validateContext ll_readAt : lease.

Section programs.
Context {W : Type} {Hk : LockKernel W} {Hv : LockView W} {Hl : LockLaws W}.
Implicit Types w : W.

Lemma still_identity fd : still (lifecycleLockIdentityForFD fd).
Proof. unfold lifecycleLockIdentityForFD. auto 8 with lease. Qed.
Lemma still_identity_at fd n : still (lifecycleLockIdentityAt fd n).
Proof. unfold lifecycleLockIdentityAt. auto with lease. Qed.
Lemma identity_file fd w i w' v : lifecycleLockIdentityForFD fd w = (inl i, w') -> lv_fds w !! fd = Some v -> identity_object i = v.2.
Proof.
  unfold lifecycleLockIdentityForFD, sbind. destruct (lk_statx fd w) as [[s|e] w1] eqn:Es; [|done]. intros [= Hi ->] Hfd.
  by eapply ll_statx_file.
Qed.

(** A directory opened, read and closed again. *)
Lemma reopened p w :
  match lk_openDir p w with
  | (inl fd, w1) => quiet w (lk_close fd (lifecycleLockIdentityForFD fd w1).2).2
  | (inr _, w1) => quiet w w1
  end.
Proof.
  pose proof (ll_openDir p w) as H. destruct (lk_openDir p w) as [[fd|e] w1]; [|done].
  destruct H as (v & G & _). pose proof (gains_quiet _ _ _ _ G (still_identity fd w1)) as G'.
  eapply gains_close in G'; [|by rewrite lookup_singleton_eq]. by rewrite delete_singleton_eq in G'.
Qed.
Lemma still_validate l : still (lock_validate l).
Proof.
  unfold lock_validate. apply idle_bind; [auto using still_identity with lease|intros parent].
  apply idle_bind; [auto with lease|intros _]. apply idle_reject. intros w.
  unfold sbind at 1, swrap at 1. pose proof (reopened (al_parentPath l) w) as Hr.
  destruct (lk_openDir (al_parentPath l) w) as [[fd|e] w1]; [|done]. unfold sbind at 1.
  destruct (lifecycleLockIdentityForFD fd w1) as [r w2]. cbn in Hr. destruct (lk_close fd w2) as [ce w3]. cbn in Hr.
  destruct r as [named|e]; [|done]. destruct ce as [e|]; [done|]. eapply gains_quiet; [done|].
  generalize w3. change (still (reject negb (sameSecuredDirectory parent named) with "lock parent pathname identity changed" in
    try! file := swrap "inspect held lock file: " (lifecycleLockIdentityForFD (al_file l)) in
    must! check (validateFile lk_euid file) in
    reject negb (sameSecuredFile (al_fileIdentity l) file) with "held lock file identity changed" in
    try! namedFile := swrap "revalidate lock pathname: " (lifecycleLockIdentityAt (al_parent l) (al_name l)) in
    reject negb (sameSecuredFile file namedFile) with "lock pathname identity changed" in sret tt)).
  auto 12 using still_identity, still_identity_at with lease.
Qed.

(** A failing step closes what was gained. *)
Lemma swp_or_close {A} fds D (m : SM W A) w0 w Q : NoDup fds -> dom D = list_to_set fds ->
  swp m Q (gains D w0) w -> swp (or_close fds m) Q (quiet w0) w.
Proof.
  intros Hnd HD. unfold swp, or_close. destruct (m w) as [[a|e] w']; [done|]. intros G. by eapply close_quietly_gains.
Qed.
Lemma swp_still {A} D (m : SM W A) w0 w (Q : A -> W -> Prop) : gains D w0 w -> still m ->
  (forall a w', m w = (inl a, w') -> gains D w0 w' -> Q a w') -> swp m Q (gains D w0) w.
Proof.
  intros G Hm HQ. unfold swp. specialize (Hm w). destruct (m w) as [[a|e] w']; cbn in Hm.
  - apply HQ; [done|]. by eapply gains_quiet.
  - by eapply gains_quiet.
Qed.
Lemma swp_or_close_still {A} fds D (m : SM W A) w0 w (Q : A -> W -> Prop) : NoDup fds -> dom D = list_to_set fds -> gains D w0 w ->
  still m -> (forall a w', m w = (inl a, w') -> gains D w0 w' -> Q a w') -> swp (or_close fds m) Q (quiet w0) w.
Proof. intros. eapply swp_or_close; [done..|]. by apply swp_still. Qed.

Definition lock_fds (l : anchoredLifecycleLock) (v u : descriptor) : gmap Z descriptor := {[al_file l := v; al_parent l := u]}.
(** The lock's two descriptors are new, and its file's description is of its own. *)
Definition takes l v u w w' : Prop :=
  al_file l <> al_parent l /\ gains (lock_fds l v u) w w' /\ unused v.1 w /\ unused u.1 w /\ u.1 <> v.1 /\
  identity_object (al_fileIdentity l) = v.2.

Lemma open_lock_file_spec parent name w : match open_lock_file parent name w with
  | (inl (fd, _), w') => opened fd w w' | (inr _, w') => quiet w w' end.
Proof.
  unfold open_lock_file. pose proof (ll_create parent name w) as Hc. destruct (lk_create parent name w) as [[fd|[| |e]] w1]; try done.
  pose proof (ll_open parent name w1) as Ho. destruct (lk_open parent name w1) as [[fd|[| |e]] w2]; try by eapply gains_quiet.
  destruct Ho as (v & G & U). exists v. split; [by eapply quiet_gains|]. by eapply unused_gains.
Qed.
Lemma still_secure parent file : still (secure_new_file parent file).
Proof. unfold secure_new_file. auto 12 with lease. Qed.
Lemma dom_pair (a b : Z) (v u : descriptor) : dom ({[a := v]} ∪ {[b := u]} : gmap Z descriptor) = list_to_set [a; b].
Proof. set_solver. Qed.
Lemma lock_fds_union l v u : lock_fds l v u = {[al_file l := v]} ∪ {[al_parent l := u]}.
Proof. unfold lock_fds. by rewrite insert_union_singleton_l. Qed.

Lemma open_spec path w : swp (openAnchoredLifecycleLock path) (fun l w' => exists v u, takes l v u w w') (quiet w) w.
Proof.
  unfold openAnchoredLifecycleLock. apply swp_reject; intros _; [|apply gains_refl]. apply swp_reject; intros _; [|apply gains_refl].
  apply swp_bind. apply (swp_still ∅ _ w w); [apply gains_refl|auto with lease|].
  intros _ w1 _ G1. apply swp_bind, swp_wrap. unfold swp. pose proof (ll_openDir (path_Dir path) w1) as Ho.
  destruct (lk_openDir (path_Dir path) w1) as [[parent|e] w2]; [|by eapply gains_quiet].
  destruct Ho as (u & G2 & U2). eapply unused_gains in U2; [|exact G1]. eapply quiet_gains in G2; [|done].
  assert (dom ({[parent := u]} : gmap Z descriptor) = list_to_set [parent]) as Hd by set_solver.
  apply swp_bind. eapply swp_or_close_still; [apply NoDup_singleton|exact Hd|exact G2|auto using still_identity with lease|].
  intros pi w3 _ G3. apply swp_bind. eapply swp_or_close_still; [apply NoDup_singleton|exact Hd|exact G3|auto with lease|].
  intros _ w4 _ G4. apply swp_bind. eapply swp_or_close; [apply NoDup_singleton|exact Hd|]. unfold swp.
  pose proof (open_lock_file_spec parent (path_Base path) w4) as Ho.
  destruct (open_lock_file parent (path_Base path) w4) as [[[file new]|e] w5]; [|by eapply gains_quiet].
  destruct Ho as (v & G5 & U5). assert (file <> parent) as Hne.
  { intros ->. destruct G5 as (_&D5&_). eapply gains_lookup in G4; [|apply lookup_singleton_eq].
    apply map_disjoint_singleton_l in D5. congruence. }
  pose proof (gains_trans _ _ _ _ _ G4 G5) as G6. pose proof (unused_gains _ _ _ _ G4 U5) as U.
  assert (NoDup [file; parent]) as Hnd by (repeat constructor; set_solver).
  pose proof (dom_pair file parent v u) as Hp. cbn [fst snd].
  apply swp_bind. eapply swp_or_close_still; [done|exact Hp|exact G6|destruct new; auto using still_secure with lease|].
  intros _ w6 _ G7. apply swp_bind. eapply swp_or_close_still; [done|exact Hp|exact G7|auto using still_identity with lease|].
  intros fi w7 Hfi G8. apply swp_bind. eapply swp_or_close_still; [done|exact Hp|exact G8|auto with lease|].
  intros _ w8 _ G9. apply swp_bind. eapply swp_or_close_still; [done|exact Hp|exact G9|auto using still_identity_at with lease|].
  intros ni w9 _ G10. apply swp_bind. eapply swp_or_close_still; [done|exact Hp|exact G10|auto with lease|].
  intros _ w10 _ G11. apply swp_bind. eapply swp_or_close_still; [done|exact Hp|exact G11|apply still_validate|].
  intros _ w11 _ G12. apply swp_ret. exists v, u. split_and!; [done| |done|done| |].
  - rewrite lock_fds_union. done.
  - eapply U5, gains_lookup; [exact G4|]. apply lookup_singleton_eq.
  - unfold swrap in Hfi. destruct (lifecycleLockIdentityForFD file w6) as [[i|e] w'] eqn:Ei; [|done]. injection Hfi as -> ->.
    eapply identity_file; [done|]. eapply gains_lookup; [exact G7|]. apply lookup_union_Some_l, lookup_singleton_eq.
Qed.

(** The lock's descriptors are closed; what else is open keeps its locks. *)
Definition dropped l w w' : Prop :=
  lv_fds w' = delete (al_parent l) (delete (al_file l) (lv_fds w)) /\
  forall fd v o, lv_fds w' !! fd = Some v -> lv_locks w !! o = Some v.1 -> lv_locks w' !! o = Some v.1.
Lemma lock_close_spec l w : al_file l <> al_parent l -> is_Some (lv_fds w !! al_file l) -> is_Some (lv_fds w !! al_parent l) ->
  dropped l w (lock_close l w).2.
Proof.
  intros Hne Hf Hp. unfold lock_close. pose proof (ll_close _ w Hf) as (F1&L1&_). destruct (lk_close (al_file l) w) as [e1 w1]; cbn in *.
  assert (is_Some (lv_fds w1 !! al_parent l)) as Hp1 by (by rewrite F1, lookup_delete_ne).
  pose proof (ll_close _ w1 Hp1) as (F2&L2&_). destruct (lk_close (al_parent l) w1) as [e2 w2]; cbn in *. split; [by rewrite F2, F1|].
  intros fd v o Hfd Hlk. eapply L2; [done|]. eapply L1; [|done]. rewrite F2 in Hfd. by apply lookup_delete_Some in Hfd as [_ ?].
Qed.
Lemma lock_fds_file l v u : lock_fds l v u !! al_file l = Some v.
Proof. apply lookup_insert_eq. Qed.
Lemma lock_fds_parent l v u : al_file l <> al_parent l -> lock_fds l v u !! al_parent l = Some u.
Proof. intros Hne. unfold lock_fds. rewrite lookup_insert_ne by done. apply lookup_singleton_eq. Qed.
Lemma lock_fds_cases l v u fd x : lock_fds l v u !! fd = Some x -> fd = al_file l /\ x = v \/ fd = al_parent l /\ x = u.
Proof.
  unfold lock_fds. intros [[<- ->]|[_ H]]%lookup_insert_Some; [by left|]. apply lookup_singleton_Some in H as [<- ->]. by right.
Qed.
Lemma delete_lock_fds l v u : delete (al_parent l) (delete (al_file l) (lock_fds l v u)) = ∅.
Proof.
  apply map_empty. intros fd. apply eq_None_not_Some. intros [x [Hp [Hf Hx]%lookup_delete_Some]%lookup_delete_Some].
  apply lock_fds_cases in Hx as [[-> _]|[-> _]]; done.
Qed.
Lemma dropped_gains D l v u w0 w w' : al_file l <> al_parent l -> D ##ₘ lock_fds l v u ->
  gains (D ∪ lock_fds l v u) w0 w -> dropped l w w' -> gains D w0 w'.
Proof.
  intros Hne HD (F&DJ&L) (F'&L'). apply map_disjoint_union_l in DJ as [D1 D2].
  pose proof (map_disjoint_Some_r _ _ _ _ HD (lock_fds_file l v u)) as Df.
  pose proof (map_disjoint_Some_r _ _ _ _ HD (lock_fds_parent l v u Hne)) as Dp.
  pose proof (map_disjoint_Some_l _ _ _ _ D2 (lock_fds_file l v u)) as Wf.
  pose proof (map_disjoint_Some_l _ _ _ _ D2 (lock_fds_parent l v u Hne)) as Wp.
  assert (lv_fds w' = D ∪ lv_fds w0) as E.
  { rewrite F', F, !delete_union, delete_lock_fds, (right_id_L ∅ (∪)), !(delete_id D), !(delete_id (lv_fds w0)); done. }
  split_and!; [done|done|]. intros fd x o Hfd Hlk. apply (L' fd); [|by eapply L]. rewrite E. by apply lookup_union_Some_r.
Qed.
Lemma close_gains l v u w0 w : al_file l <> al_parent l -> gains (lock_fds l v u) w0 w -> quiet w0 (lock_close l w).2.
Proof.
  intros Hne G. eapply (dropped_gains ∅); [done|apply map_disjoint_empty_l| |].
  - by rewrite (left_id_L ∅ (∪)).
  - apply lock_close_spec; [done|..]; eexists; eapply gains_lookup; eauto using lock_fds_file, lock_fds_parent.
Qed.

(** ** Acquiring *)

Definition grabs l w w' : Prop := exists v u, takes l v u w w' /\ lv_locks w' !! v.2 = Some v.1.
Definition grabbing {A} (lk : A -> option anchoredLifecycleLock) (m : LM A) : Prop := forall w,
  match m w with (inl a, w') => exists l, lk a = Some l /\ grabs l w w' | (inr _, w') => quiet w w' end.
(** The lock is held between [w0] and [w]. *)
Definition holding l v u w0 w : Prop := takes l v u w0 w /\ lv_locks w !! v.2 = Some v.1.
Lemma takes_quiet l v u w0 w w' : takes l v u w0 w -> quiet w w' -> takes l v u w0 w'.
Proof. intros (?&G&?) Q. split_and!; [done| |naive_solver..]. by eapply gains_quiet. Qed.
Lemma quiet_takes l v u w0 w w' : quiet w0 w -> takes l v u w w' -> takes l v u w0 w'.
Proof. intros Q (?&G&?&?&?&?). split_and!; [done|by eapply quiet_gains|eauto using unused_gains..|done|done]. Qed.
Lemma holding_quiet l v u w0 w w' : holding l v u w0 w -> quiet w w' -> holding l v u w0 w'.
Proof.
  intros [T L] Q. split; [by eapply takes_quiet|]. destruct T as (_&G&_). eapply gains_lock; [done| |done].
  eapply gains_lookup; [done|apply lock_fds_file].
Qed.
Lemma holding_closed l v u w0 w : holding l v u w0 w -> quiet w0 (lock_close l w).2.
Proof. intros [(Hne&G&_) _]. by eapply close_gains. Qed.
Lemma release_quiet l v u e w0 w : takes l v u w0 w -> quiet w0 (releaseAnchoredLifecycleLock l e w).2.
Proof.
  intros (Hne&G&U&_). unfold releaseAnchoredLifecycleLock.
  pose proof (ll_unlock (al_file l) w v (gains_lookup _ _ _ _ _ G (lock_fds_file l v u))) as [F L].
  destruct (lk_unlock (al_file l) w) as [e1 w1]; cbn in *. assert (gains (lock_fds l v u) w0 w1) as G1.
  { pose proof G as (Fg&Dg&Lg). split_and!; [by rewrite F|done|]. intros fd x o Hfd Hlk. eapply (L fd); [by eapply gains_keep|by eapply U|].
    by eapply Lg. }
  pose proof (close_gains _ _ _ _ _ Hne G1) as Q. by destruct (lock_close l w1).
Qed.
Lemma or_release_spec l v u p m k w0 w : holding l v u w0 w -> still m ->
  (forall w', holding l v u w0 w' -> match k w' with (inl a, w'') => exists l', Some a = Some l' /\ grabs l' w0 w'' | (inr _, w'') => quiet w0 w'' end) ->
  match or_release l p m k w with (inl a, w'') => exists l', Some a = Some l' /\ grabs l' w0 w'' | (inr _, w'') => quiet w0 w'' end.
Proof.
  intros Hh Hm HK. unfold or_release. specialize (Hm w). destruct (m w) as [[a|e] w1]; cbn in Hm.
  - apply HK. by eapply holding_quiet.
  - destruct Hh as [T _]. pose proof (release_quiet _ _ _ (p +:+ e) _ _ (takes_quiet _ _ _ _ _ _ T Hm)) as Q.
    by destruct (releaseAnchoredLifecycleLock l (p +:+ e) w1).
Qed.
Lemma still_record fd d : still (recordLifecycleOwner fd d).
Proof. unfold recordLifecycleOwner. auto 12 with lease. Qed.
Lemma acquire_spec path owner kind : grabbing Some (acquireAnchoredLifecycleLock path owner kind).
Proof.
  intros w. unfold acquireAnchoredLifecycleLock. pose proof (open_spec path w) as Ho. unfold swp in Ho.
  destruct (openAnchoredLifecycleLock path w) as [[l|e] w1]; [|done]. destruct Ho as (v & u & T).
  pose proof T as (Hne&G&_). pose proof (ll_flock (al_file l) w1 v (gains_lookup _ _ _ _ _ G (lock_fds_file l v u))) as [Q Hok].
  destruct (lk_flock (al_file l) w1) as [[[|e]|] w2]; cbn in Q, Hok; pose proof (takes_quiet _ _ _ _ _ _ T Q) as T2.
  - pose proof (ll_readAt (al_file l) w2) as Qr. destruct (lk_readAt (al_file l) w2) as [d w3]; cbn in Qr.
    destruct (takes_quiet _ _ _ _ _ _ T2 Qr) as (_&G3&_). pose proof (close_gains _ _ _ _ _ Hne G3) as Qc. by destruct (lock_close l w3).
  - destruct T2 as (_&G2&_). pose proof (close_gains _ _ _ _ _ Hne G2) as Qc. by destruct (lock_close l w2).
  - apply (or_release_spec _ v u); [by split; auto|apply still_validate|intros w3 H3].
    apply (or_release_spec _ v u); [done|apply still_record|intros w4 H4].
    apply (or_release_spec _ v u); [done|apply still_validate|intros w5 [T5 L5]]. exists l. split; [done|]. by exists v, u.
Qed.

(** The copy has new descriptors of the same descriptions. *)
Lemma duplicate_spec l v u w : al_file l <> al_parent l -> lv_fds w !! al_file l = Some v -> lv_fds w !! al_parent l = Some u ->
  swp (lock_duplicate l) (fun d w' => al_file d <> al_parent d /\ gains (lock_fds d v u) w w' /\ al_fileIdentity d = al_fileIdentity l)
    (quiet w) w.
Proof.
  intros Hne Hf Hp. unfold lock_duplicate. apply swp_bind. apply (swp_still ∅ _ w w); [apply gains_refl|apply still_validate|].
  intros _ w1 _ G1. apply swp_bind, swp_wrap. unfold swp.
  pose proof (ll_dup (al_parent l) w1 u (gains_keep _ _ _ _ _ G1 Hp)) as Hd.
  destruct (lk_dup (al_parent l) w1) as [[parent|e] w2]; [|by eapply gains_quiet]. eapply quiet_gains in Hd; [|done].
  assert (dom ({[parent := u]} : gmap Z descriptor) = list_to_set [parent]) as Hdp by set_solver.
  apply swp_bind. eapply swp_or_close; [apply (NoDup_singleton parent)|exact Hdp|]. apply swp_wrap. unfold swp.
  pose proof (ll_dup (al_file l) w2 v (gains_keep _ _ _ _ _ Hd Hf)) as Hd2.
  destruct (lk_dup (al_file l) w2) as [[file|e] w3]; [|by eapply gains_quiet].
  assert (file <> parent) as Hne2.
  { intros ->. destruct Hd2 as (_&D5&_). eapply gains_lookup in Hd; [|apply lookup_singleton_eq].
    apply map_disjoint_singleton_l in D5. congruence. }
  pose proof (gains_trans _ _ _ _ _ Hd Hd2) as G3. apply swp_bind.
  eapply swp_or_close_still; [repeat constructor; set_solver|apply (dom_pair file parent v u)|exact G3|apply still_validate|].
  intros _ w4 _ G4. apply swp_ret. split_and!; [done| |done]. by rewrite lock_fds_union.
Qed.

Lemma acquire_lease_spec path owner : grabbing ll_lock (acquireLifecycleWithoutMaintenance path owner).
Proof.
  intros w. unfold acquireLifecycleWithoutMaintenance. destruct (String.eqb path ""); [apply gains_refl|].
  destruct (_ || _); [apply gains_refl|]. pose proof (acquire_spec path owner LeaseLock w) as Ha.
  destruct (acquireAnchoredLifecycleLock path owner LeaseLock w) as [[l|f] w1]; [|done]. destruct Ha as (l' & [= <-] & G). by exists l.
Qed.
Lemma begin_spec path mp owner : grabbing lm_lock (tryBeginLifecycleMaintenanceAt path mp owner).
Proof.
  intros w. unfold tryBeginLifecycleMaintenanceAt. destruct (validateLifecyclePathPair path mp); [apply gains_refl|].
  pose proof (acquire_spec mp owner GateLock w) as Ha.
  destruct (acquireAnchoredLifecycleLock mp owner GateLock w) as [[l|f] w1]; [|done]. destruct Ha as (l' & [= <-] & G). by exists l.
Qed.
Lemma still_gate g : still (gate_validateLocked g).
Proof.
  unfold gate_validateLocked. destruct (lm_lock g) as [l|]; [|apply idle_fail]. auto 8 using still_validate with lease.
Qed.
Lemma quiet_HeldAt l path w : quiet w (HeldAt l path w).2.
Proof.
  unfold HeldAt. destruct (ll_lock l) as [lock|]; [|apply gains_refl]. destruct (_ || _); [apply gains_refl|].
  pose proof (still_validate lock w) as Q. by destruct (lock_validate lock w).
Qed.
Lemma close_lease_quiet lease l v u w0 w : ll_lock lease = Some l -> holding l v u w0 w -> quiet w0 (close_lease_of lease w).2.
Proof.
  intros El Hh. unfold close_lease_of, lease_Close. rewrite El. pose proof (holding_closed _ _ _ _ _ Hh) as Q. by destruct (lock_close l w).
Qed.
Lemma try_acquire_spec g owner : grabbing ll_lock (tryAcquireLifecycleLocked g owner).
Proof.
  intros w. unfold tryAcquireLifecycleLocked. destruct (lm_lock g) as [gl|]; [|apply gains_refl].
  pose proof (still_gate g w) as Q1. destruct (gate_validateLocked g w) as [[[]|e] w1]; cbn in Q1; [|done].
  pose proof (acquire_lease_spec (lm_lifecyclePath g) owner w1) as Ha.
  destruct (acquireLifecycleWithoutMaintenance (lm_lifecyclePath g) owner w1) as [[lease|f] w2]; [|by eapply gains_quiet].
  destruct Ha as (l & El & v & u & T & L). assert (holding l v u w w2) as Hh by (split; [by eapply quiet_takes|done]).
  pose proof (still_gate g w2) as Q2. destruct (gate_validateLocked g w2) as [[[]|e] w3]; cbn in Q2;
    pose proof (holding_quiet _ _ _ _ _ _ Hh Q2) as H3; [|pose proof (close_lease_quiet _ _ _ _ _ _ El H3) as Qc; by destruct (close_lease_of lease w3)].
  pose proof (quiet_HeldAt lease (lm_lifecyclePath g) w3) as Q3. destruct (HeldAt lease (lm_lifecyclePath g) w3) as [[] w4]; cbn in Q3;
    pose proof (holding_quiet _ _ _ _ _ _ H3 Q3) as H4; [|pose proof (close_lease_quiet _ _ _ _ _ _ El H4) as Qc; by destruct (close_lease_of lease w4)].
  exists l. split; [done|]. by exists v, u.
Qed.
Lemma gate_close_spec g gl w : lm_lock g = Some gl -> al_file gl <> al_parent gl ->
  is_Some (lv_fds w !! al_file gl) -> is_Some (lv_fds w !! al_parent gl) ->
  exists w1, quiet w w1 /\ dropped gl w1 (gate_Close g w).2 /\ lm_lock (gate_Close g w).1.2 = None.
Proof.
  intros Eg Hne Hf Hp. unfold gate_Close. rewrite Eg. pose proof (still_gate g w) as Q. destruct (gate_validateLocked g w) as [r w1]; cbn in Q.
  exists w1. split; [done|]. rewrite <- (quiet_fds _ _ Q) in Hf, Hp. pose proof (lock_close_spec _ _ Hne Hf Hp) as Hd. by destruct (lock_close gl w1).
Qed.

(** A lease taken while a gate is held survives the gate's close. *)
Lemma holding_drop gl gv gu l v u w0 w1 w2 w3 : takes gl gv gu w0 w1 -> holding l v u w1 w2 -> dropped gl w2 w3 -> holding l v u w0 w3.
Proof.
  intros (Gne&GG&_) [(Hne&G&U&Uu&Huv&Hi) L] Hd. pose proof (gains_trans _ _ _ _ _ GG G) as GT.
  assert (lock_fds l v u ##ₘ lock_fds gl gv gu) as Hdj.
  { destruct G as (_&D&_). destruct GG as (F&_&_). rewrite F in D. by apply map_disjoint_union_r in D as [D _]. }
  pose proof (dropped_gains _ _ _ _ _ _ _ Gne Hdj GT Hd) as G3. split; [split_and!; eauto using unused_gains|].
  destruct Hd as (_&L3). eapply L3; [|done]. eapply gains_lookup; [done|apply lock_fds_file].
Qed.
Lemma AcquireLifecycleAt_spec path mp owner : grabbing ll_lock (AcquireLifecycleAt path mp owner).
Proof.
  intros w. unfold AcquireLifecycleAt. pose proof (begin_spec path mp owner w) as Hb.
  destruct (tryBeginLifecycleMaintenanceAt path mp owner w) as [[g|f] w1]; [|done]. destruct Hb as (gl & Eg & gv & gu & GT & GL).
  pose proof (try_acquire_spec g owner w1) as Ha. destruct (tryAcquireLifecycleLocked g owner w1) as [r w2].
  pose proof GT as (Gne&GG&_). assert (quiet w1 w2 \/ exists l v u, holding l v u w1 w2) as Hcase.
  { destruct r as [lease|f]; [|by left]. destruct Ha as (l & _ & v & u & Hh). right. by exists l, v, u. }
  assert (lv_fds w2 !! al_file gl = Some gv /\ lv_fds w2 !! al_parent gl = Some gu) as [Hf Hp].
  { pose proof (gains_lookup _ _ _ _ _ GG (lock_fds_file gl gv gu)). pose proof (gains_lookup _ _ _ _ _ GG (lock_fds_parent gl gv gu Gne)).
    destruct Hcase as [Q|(l&v&u&(_&G&_)&_)]; eauto using gains_keep. }
  destruct (gate_close_spec g gl w2 Eg Gne (ex_intro _ _ Hf) (ex_intro _ _ Hp)) as (w2' & Q & Hd & _).
  destruct (gate_Close g w2) as [[ce g'] w3]; cbn in Hd. destruct r as [lease|f].
  - destruct Ha as (l & El & v & u & Hh). pose proof (holding_drop _ _ _ _ _ _ _ _ _ _ GT (holding_quiet _ _ _ _ _ _ Hh Q) Hd) as H3.
    destruct ce as [e|].
    + pose proof (close_lease_quiet _ _ _ _ _ _ El H3) as Qc. by destruct (close_lease_of lease w3).
    + exists l. split; [done|]. by exists v, u.
  - pose proof (takes_quiet _ _ _ _ _ _ GT (gains_quiet _ _ _ _ Ha Q)) as (_&G&_).
    eapply (dropped_gains ∅); [done|apply map_disjoint_empty_l| |done]. by rewrite (left_id_L ∅ (∪)).
Qed.

(** Waits: [None] is a wait that goes on. *)
Definition waiting {A} (lk : A -> option anchoredLifecycleLock) (m : W -> option (A + failure) * W) : Prop := forall w,
  match m w with (Some (inl a), w') => exists l, lk a = Some l /\ grabs l w w' | (_, w') => quiet w w' end.
Lemma grabs_after l w0 w w' : quiet w0 w -> grabs l w w' -> grabs l w0 w'.
Proof. intros Q (v & u & T & L). exists v, u. split; [by eapply quiet_takes|done]. Qed.
Lemma waiting_after {A} (lk : A -> option anchoredLifecycleLock) m w0 w : quiet w0 w -> waiting lk m ->
  match m w with (Some (inl a), w') => exists l, lk a = Some l /\ grabs l w0 w' | (_, w') => quiet w0 w' end.
Proof.
  intros Q Hm. specialize (Hm w). destruct (m w) as [[[a|f]|] w']; try by eapply gains_quiet.
  destruct Hm as (l & El & G). eauto using grabs_after.
Qed.
Lemma waiting_ctx {A} (lk : A -> option anchoredLifecycleLock) m : waiting lk m -> waiting lk (fun w =>
  match lk_ctxErr w with (Some e, w) => (Some (inr (plain_failure e)), w) | (None, w) => m w end).
Proof.
  intros Hm w. pose proof (ll_ctxErr w) as Q. destruct (lk_ctxErr w) as [[e|] w1]; cbn in Q; [done|]. by apply waiting_after.
Qed.
Lemma waiting_pause {A} (lk : A -> option anchoredLifecycleLock) f m w0 w : quiet w0 w -> waiting lk m ->
  match (match lk_pause w with (Some e, w) => (Some (inr (join_failure f (Some e))), w) | (None, w) => m w end) with
  | (Some (inl a), w') => exists l, lk a = Some l /\ grabs l w0 w' | (_, w') => quiet w0 w' end.
Proof.
  intros Q Hm. pose proof (ll_pause w) as Qp. destruct (lk_pause w) as [[e|] w1]; cbn in Qp; [by eapply gains_quiet|].
  apply waiting_after; [by eapply gains_quiet|done].
Qed.
Lemma begin_wait_spec fuel path mp owner : waiting lm_lock (begin_wait fuel path mp owner).
Proof.
  induction fuel as [|fuel IH]; [intros w; apply gains_refl|]. cbn [begin_wait]. apply waiting_ctx. intros w.
  pose proof (begin_spec path mp owner w) as Hb. destruct (tryBeginLifecycleMaintenanceAt path mp owner w) as [[g|f] w1].
  - destruct Hb as (gl & Eg & gv & gu & T & L). pose proof (ll_ctxErr w1) as Q. destruct (lk_ctxErr w1) as [[e|] w2]; cbn in Q;
      pose proof (holding_quiet _ _ _ _ _ _ (conj T L) Q) as [(Gne&G&U) L2].
    + destruct (gate_close_spec g gl w2 Eg Gne) as (w3 & Q3 & Hd & _); [eexists; eapply gains_lookup; eauto using lock_fds_file, lock_fds_parent..|].
      destruct (gate_Close g w2) as [[ce g'] w4]; cbn in Hd. eapply (dropped_gains ∅); [done|apply map_disjoint_empty_l| |done].
      rewrite (left_id_L ∅ (∪)). by eapply gains_quiet.
    + exists gl. split; [done|]. by exists gv, gu.
  - destruct (negb (fl_gateHeld f)); [done|]. by apply waiting_pause.
Qed.
Lemma or_close_lease_spec lease l v u c k w0 w : ll_lock lease = Some l -> holding l v u w0 w -> (forall w, quiet w (c w).2) ->
  (forall w', holding l v u w0 w' -> match k w' with (inl a, w'') => exists l', ll_lock a = Some l' /\ grabs l' w0 w'' | (inr _, w'') => quiet w0 w'' end) ->
  match or_close_lease lease c k w with (inl a, w'') => exists l', ll_lock a = Some l' /\ grabs l' w0 w'' | (inr _, w'') => quiet w0 w'' end.
Proof.
  intros El Hh Hc HK. unfold or_close_lease. specialize (Hc w). destruct (c w) as [[e|] w1]; cbn in Hc;
    pose proof (holding_quiet _ _ _ _ _ _ Hh Hc) as H1; [|by apply HK].
  pose proof (close_lease_quiet _ _ _ _ _ _ El H1) as Q. by destruct (close_lease_of lease w1).
Qed.
Lemma try_validated_spec g owner : grabbing ll_lock (tryAcquireValidatedLifecycle g owner).
Proof.
  intros w. unfold tryAcquireValidatedLifecycle. pose proof (try_acquire_spec g owner w) as Ha.
  destruct (tryAcquireLifecycleLocked g owner w) as [[lease|f] w1]; [|done]. destruct Ha as (l & El & v & u & Hh).
  apply (or_close_lease_spec _ l v u); [done|exact Hh|apply ll_ctxErr|intros w2 H2].
  apply (or_close_lease_spec _ l v u); [done|done|apply ll_validateContext|intros w3 H3].
  apply (or_close_lease_spec _ l v u); [done|done|apply ll_ctxErr|intros w4 H4]. exists l. split; [done|]. by exists v, u.
Qed.
Lemma acquire_wait_spec fuel g owner : waiting ll_lock (acquire_wait fuel g owner).
Proof.
  induction fuel as [|fuel IH]; [intros w; apply gains_refl|]. cbn [acquire_wait]. apply waiting_ctx. intros w.
  pose proof (try_validated_spec g owner w) as Ha. destruct (tryAcquireValidatedLifecycle g owner w) as [[lease|f] w1]; [done|].
  destruct (negb (fl_leaseHeld f)); [done|]. by apply waiting_pause.
Qed.

(** The body runs with the lease held, and nothing is left open. *)
Lemma with_lifecycle_spec {A} path mp owner (fn : LifecycleLease -> SM W A) w :
  (forall lease w1, (exists l v u, ll_lock lease = Some l /\ holding l v u w w1) -> quiet w1 (fn lease w1).2) ->
  quiet w (WithLifecycle path mp None owner fn w).2.
Proof.
  intros Hfn. unfold WithLifecycle. pose proof (ll_ctxErr w) as Q. destruct (lk_ctxErr w) as [[e|] w1]; cbn in Q; [done|].
  pose proof (AcquireLifecycleAt_spec path mp owner w1) as Ha. destruct (AcquireLifecycleAt path mp owner w1) as [[lease|f] w2]; [|by eapply gains_quiet].
  destruct Ha as (l & El & v & u & T & L). assert (holding l v u w w2) as Hh by (split; [by eapply quiet_takes|done]).
  pose proof (ll_validateContext w2) as Qv. destruct (lk_validateContext w2) as [c w3]; cbn in Qv.
  pose proof (holding_quiet _ _ _ _ _ _ Hh Qv) as H3.
  assert (exists w4, (match c with Some e => (inr e, w3) | None => fn lease w3 end).2 = w4 /\ holding l v u w w4) as (w4 & E4 & H4).
  { destruct c as [e|]; [by exists w3|]. eexists; split; [done|]. eapply holding_quiet; [done|]. apply Hfn. by exists l, v, u. }
  destruct (match c with Some e => (inr e, w3) | None => fn lease w3 end) as [r w5] eqn:Er. cbn in E4. subst w5.
  replace (match c with Some e => (inr e, w3) | None => fn lease w3 end) with (r, w4) by done.
  pose proof (close_lease_quiet _ _ _ _ _ _ El H4) as Qc. by destruct (close_lease_of lease w4) as [ce w6].
Qed.

(** The operation lock: the body runs with it held, and nothing is left open. *)
Lemma open_single_spec path w : swp (openRegularSingleLinkLock path) (fun fd w' => opened fd w w') (quiet w) w.
Proof.
  unfold openRegularSingleLinkLock, swp at 1. pose proof (ll_openLock path w) as Ho.
  destruct (lk_openLock path w) as [[fd|[| |e]] w1]; try done. destruct Ho as (v & G & U).
  assert (dom ({[fd := v]} : gmap Z descriptor) = list_to_set [fd]) as Hd by set_solver.
  change (swp (or_close [fd] (try! stat := lk_fstat fd in
    reject negb (Z.land stat.1 S_IFMT =? S_IFREG) with "lock path is not a regular file" in
    reject negb (stat.2 =? 1) with "refuse lock file with several links" in sret fd)) (fun fd w' => opened fd w w') (quiet w) w1).
  eapply swp_or_close; [apply NoDup_singleton|exact Hd|]. apply swp_bind.
  apply (swp_still _ _ w); [done|intros w2; apply ll_fstat|]. intros stat w2 _ G2.
  apply swp_reject; [intros _|done]. apply swp_reject; [intros _|done]. apply swp_ret. by exists v.
Qed.
Lemma flock_wait_spec fuel fd v w0 w : gains {[fd := v]} w0 w -> let '(r, w') := flock_wait fuel fd w in
  gains {[fd := v]} w0 w' /\ (r = Some (inl tt) -> lv_locks w' !! v.2 = Some v.1).
Proof.
  revert w. induction fuel as [|fuel IH]; intros w G; cbn [flock_wait]; [done|].
  pose proof (ll_flock fd w v (gains_lookup _ _ _ _ _ G (lookup_singleton_eq _ _))) as [Q Hok].
  destruct (lk_flock fd w) as [[[|e]|] w1]; cbn in Q, Hok; pose proof (gains_quiet _ _ _ _ G Q) as G1; [|done|by auto].
  pose proof (ll_pause w1) as Qp. destruct (lk_pause w1) as [[e|] w2]; cbn in Qp; pose proof (gains_quiet _ _ _ _ G1 Qp) as G2; [done|].
  by apply IH.
Qed.
Lemma close_one fd v w0 w : gains {[fd := v]} w0 w -> quiet w0 (lk_close fd w).2.
Proof. intros G. eapply gains_close in G; [|by rewrite lookup_singleton_eq]. by rewrite delete_singleton_eq in G. Qed.
Lemma gains_unlock fd v w0 w : gains {[fd := v]} w0 w -> unused v.1 w0 -> gains {[fd := v]} w0 (lk_unlock fd w).2.
Proof.
  intros G U. destruct (ll_unlock fd w v (gains_lookup _ _ _ _ _ G (lookup_singleton_eq _ _))) as [F L].
  pose proof G as (Fg&Dg&Lg). split_and!; [by rewrite F|done|]. intros x y o Hf Hlk. eapply (L x); [by eapply gains_keep|by eapply U|].
  by eapply Lg.
Qed.
Theorem with_lock_spec {A} fuel runDir (fn : SM W A) w :
  (forall fd v w1, gains {[fd := v]} w w1 -> lv_locks w1 !! v.2 = Some v.1 -> quiet w1 (fn w1).2) ->
  (WithLock fuel runDir fn w).1 <> None -> quiet w (WithLock fuel runDir fn w).2.
Proof.
  intros Hfn. unfold WithLock.
  match goal with |- context [match ?m w with _ => _ end] => assert (swp m (fun fd w' => opened fd w w') (quiet w) w) as Hm end.
  { apply swp_bind, (swp_still ∅ _ w w); [apply gains_refl|auto with lease|]. intros _ w1 _ G1.
    apply swp_bind, (swp_still ∅ _ w w1); [done|auto with lease|]. intros _ w2 _ G2.
    apply swp_bind, swp_wrap. eapply swp_mono; [apply open_single_spec| |intros w3 Q; by eapply gains_quiet].
    intros fd w3 (v & G3 & U). apply swp_bind.
    assert (dom ({[fd := v]} : gmap Z descriptor) = list_to_set [fd]) as Hd by set_solver.
    eapply swp_or_close_still; [apply NoDup_singleton|exact Hd|by eapply quiet_gains|auto with lease|].
    intros _ w4 _ G4. apply swp_ret. exists v. split; [done|]. exact (unused_gains _ _ _ _ G2 U). }
  unfold swp in Hm. destruct (sbind _ _ w) as [[fd|e] w1]; [|done]. destruct Hm as (v & G & U).
  pose proof (flock_wait_spec fuel fd v w w1 G) as Hw. destruct (flock_wait fuel fd w1) as [[[[]|e]|] w2]; [|intros _|done].
  - destruct Hw as [G2 L2]. assert (quiet w2 ((must! scall lk_ctxErr in fn) w2).2) as Q.
    { pose proof (ll_ctxErr w2) as Qc. unfold sbind, scall. destruct (lk_ctxErr w2) as [[e|] w3]; cbn in *; [done|].
      eapply gains_quiet; [done|]. apply (Hfn fd v); [by eapply gains_quiet|]. eapply gains_lock; [done| |by apply L2].
      eapply gains_lookup; [done|apply lookup_singleton_eq]. }
    destruct ((must! scall lk_ctxErr in fn) w2) as [r w3]; cbn in Q |- *. intros _. eapply close_one, gains_unlock; [|done].
    by eapply gains_quiet.
  - destruct Hw as [G2 _]. by eapply close_one.
Qed.
End programs.

(** ** What a process holds *)

Inductive holder := HLease (l : LifecycleLease) | HGate (g : LifecycleMaintenance).
Definition holder_lock (x : holder) : option anchoredLifecycleLock := match x with HLease l => ll_lock l | HGate g => lm_lock g end.
Definition uses (l : anchoredLifecycleLock) (fd : Z) : Prop := fd = al_file l \/ fd = al_parent l.
(** A lease or gate by a number of its own, with the acquisition it stems from. *)
Abbreviation pool := (gmap nat (nat * holder)).
Definition open_at (P : pool) (h r : nat) (l : anchoredLifecycleLock) : Prop :=
  exists x, P !! h = Some (r, x) /\ holder_lock x = Some l.

Section pool.
Context {W : Type} {Hk : LockKernel W} {Hv : LockView W} {Hl : LockLaws W}.
Implicit Types w : W.
Implicit Types P : pool.

(** One operation on what the process holds ([n]: the acquisitions so far), or
    something that touches none of its descriptors. *)
Inductive step : W * pool * nat -> W * pool * nat -> Prop :=
| step_other w w' P n : quiet w w' -> step (w, P, n) (w', P, n)
| step_acquire h path mp owner w lease w' P n : AcquireLifecycleAt path mp owner w = (inl lease, w') -> P !! h = None ->
    step (w, P, n) (w', <[h := (n, HLease lease)]> P, S n)
| step_acquire_fails path mp owner w f w' P n : AcquireLifecycleAt path mp owner w = (inr f, w') -> step (w, P, n) (w', P, n)
| step_begin h fuel path mp owner w g w' P n : BeginLifecycleMaintenance fuel path mp owner w = (Some (inl g), w') -> P !! h = None ->
    step (w, P, n) (w', <[h := (n, HGate g)]> P, S n)
| step_begin_fails fuel path mp owner w f w' P n : BeginLifecycleMaintenance fuel path mp owner w = (Some (inr f), w') ->
    step (w, P, n) (w', P, n)
| step_wait h i r g fuel owner w lease w' P n : P !! i = Some (r, HGate g) ->
    WaitAcquireLifecycle fuel g owner w = (Some (inl lease), w') -> P !! h = None ->
    step (w, P, n) (w', <[h := (n, HLease lease)]> P, S n)
| step_wait_fails i r g fuel owner w f w' P n : P !! i = Some (r, HGate g) ->
    WaitAcquireLifecycle fuel g owner w = (Some (inr f), w') -> step (w, P, n) (w', P, n)
| step_held i r lease path w P n : P !! i = Some (r, HLease lease) -> step (w, P, n) ((HeldAt lease path w).2, P, n)
| step_retain h i r lease w lease' w' P n : P !! i = Some (r, HLease lease) -> lease_Retain lease w = (inl lease', w') -> P !! h = None ->
    step (w, P, n) (w', <[h := (r, HLease lease')]> P, n)
| step_retain_fails i r lease w e w' P n : P !! i = Some (r, HLease lease) -> lease_Retain lease w = (inr e, w') ->
    step (w, P, n) (w', P, n)
| step_close i r lease w e lease' w' P n : P !! i = Some (r, HLease lease) -> lease_Close lease w = (e, lease', w') ->
    step (w, P, n) (w', <[i := (r, HLease lease')]> P, n)
| step_close_gate i r g w e g' w' P n : P !! i = Some (r, HGate g) -> gate_Close g w = (e, g', w') ->
    step (w, P, n) (w', <[i := (r, HGate g')]> P, n).

(** Every open lease or gate holds the lock of the file it recorded, through
    descriptors of its own; descriptions are shared by copies of one acquisition
    only; nothing else is open but [base]. *)
Record held_inv (base : gmap Z descriptor) w P (n : nat) : Prop := {
  hi_origin h r l : open_at P h r l -> (r < n)%nat;
  hi_lock h r l : open_at P h r l -> al_file l <> al_parent l /\ exists v u, lv_fds w !! al_file l = Some v /\
    lv_fds w !! al_parent l = Some u /\ lv_locks w !! v.2 = Some v.1 /\ identity_object (al_fileIdentity l) = v.2;
  hi_apart h r l h' r' l' fd : open_at P h r l -> open_at P h' r' l' -> uses l fd -> uses l' fd -> h = h';
  hi_base fd v : base !! fd = Some v -> lv_fds w !! fd = Some v /\ forall h r l, open_at P h r l -> ~ uses l fd;
  hi_all fd v : lv_fds w !! fd = Some v -> base !! fd = Some v \/ exists h r l, open_at P h r l /\ uses l fd;
  hi_desc h r l v fd v' : open_at P h r l -> lv_fds w !! al_file l = Some v -> lv_fds w !! fd = Some v' -> v'.1 = v.1 ->
    exists h' l', open_at P h' r l' /\ fd = al_file l';
  hi_same h h' r l l' v v' : open_at P h r l -> open_at P h' r l' -> lv_fds w !! al_file l = Some v -> lv_fds w !! al_file l' = Some v' ->
    v.1 = v'.1
}.

Lemma open_at_insert P h r x h' r' l : open_at (<[h := (r, x)]> P) h' r' l <->
  h = h' /\ r = r' /\ holder_lock x = Some l \/ h <> h' /\ open_at P h' r' l.
Proof.
  unfold open_at. split.
  - intros (y & [[-> [= -> ->]]|[Hne Hy]]%lookup_insert_Some & Hl'); [by left|]. right. eauto.
  - intros [(<- & <- & Hl')|(Hne & y & Hy & Hl')].
    + exists x. by rewrite lookup_insert_eq.
    + exists y. by rewrite lookup_insert_ne.
Qed.
Lemma open_at_fun P h r l r' l' : open_at P h r l -> open_at P h r' l' -> r = r' /\ l = l'.
Proof. intros (x & E & L) (x' & E' & L'). by simplify_eq. Qed.

Lemma inv_quiet base w w' P n : held_inv base w P n -> quiet w w' -> held_inv base w' P n.
Proof.
  intros [] Q. pose proof (quiet_fds _ _ Q) as F. split; rewrite ?F; try done.
  intros h r l Ho. destruct (hi_lock0 _ _ _ Ho) as (Hne & v & u & Hf & Hp & L & I). split; [done|]. exists v, u.
  split_and!; try done. by eapply gains_lock.
Qed.

Lemma file_owner base w P n h r l h' r' l' : held_inv base w P n -> open_at P h r l -> open_at P h' r' l' ->
  uses l (al_file l') -> h = h' /\ r = r' /\ l = l'.
Proof.
  intros Hi Ho Ho' Hu. assert (h = h') as -> by (eapply (hi_apart _ _ _ _ Hi h r l h' r' l' (al_file l')); [done..|by left]).
  destruct (open_at_fun _ _ _ _ _ _ Ho Ho') as [-> ->]. done.
Qed.
Lemma gain_apart base w w' P n d v u : held_inv base w P n -> al_file d <> al_parent d -> gains (lock_fds d v u) w w' ->
  (forall fd, uses d fd -> lv_fds w !! fd = None) /\
  (forall h' r' l' fd, open_at P h' r' l' -> uses l' fd -> ~ uses d fd) /\
  (forall h' r' l' v', open_at P h' r' l' -> lv_fds w' !! al_file l' = Some v' -> lv_fds w !! al_file l' = Some v').
Proof.
  intros Hi Hne G. pose proof G as (F & D & _).
  assert (forall fd, uses d fd -> lv_fds w !! fd = None) as Hnew.
  { intros fd [->| ->]; eapply map_disjoint_Some_l; eauto using lock_fds_file, lock_fds_parent. }
  assert (forall h' r' l' fd, open_at P h' r' l' -> uses l' fd -> is_Some (lv_fds w !! fd)) as Hold.
  { intros h' r' l' fd Ho [->| ->]; destruct (hi_lock _ _ _ _ Hi _ _ _ Ho) as (_ & v0 & u0 & ? & ? & _); eauto. }
  assert (forall h' r' l' fd, open_at P h' r' l' -> uses l' fd -> ~ uses d fd) as Hdis.
  { intros h' r' l' fd Ho Hu Hd. destruct (Hold _ _ _ _ Ho Hu) as [y Hy]. by rewrite (Hnew _ Hd) in Hy. }
  assert (forall h' r' l' v', open_at P h' r' l' -> lv_fds w' !! al_file l' = Some v' -> lv_fds w !! al_file l' = Some v') as Hback.
  { intros h' r' l' v' Ho Hf. destruct (Hold h' r' l' (al_file l') Ho (or_introl eq_refl)) as [y Hy].
    rewrite (gains_keep _ _ _ _ _ G Hy) in Hf. congruence. }
  done.
Qed.
(** A new lock: its descriptors are new, and its description is that of the
    copies of its acquisition. *)
Lemma inv_gain base w w' P n n' h r x d v u : held_inv base w P n -> P !! h = None -> holder_lock x = Some d -> (n <= n')%nat -> (r < n')%nat ->
  al_file d <> al_parent d -> gains (lock_fds d v u) w w' -> identity_object (al_fileIdentity d) = v.2 -> lv_locks w' !! v.2 = Some v.1 ->
  (forall fd v', lv_fds w !! fd = Some v' -> v'.1 = v.1 -> exists h' l', open_at P h' r l' /\ fd = al_file l') ->
  (forall h' l' v', open_at P h' r l' -> lv_fds w !! al_file l' = Some v' -> v'.1 = v.1) ->
  u.1 <> v.1 -> (forall h' r' l' v', open_at P h' r' l' -> lv_fds w !! al_file l' = Some v' -> u.1 <> v'.1) ->
  held_inv base w' (<[h := (r, x)]> P) n'.
Proof.
  intros Hi Hh Hx Hn Hr Hne G I L C1 C2 C3 C4. pose proof G as (F & D & _).
  assert (forall h' r' l', open_at P h' r' l' -> h <> h') as Hfresh by (intros h' r' l' (y & Hy & _) ->; congruence).
  destruct (gain_apart _ _ _ _ _ _ _ _ Hi Hne G) as (Hnew & Hdis & Hback).
  pose proof (gains_lookup _ _ _ _ _ G (lock_fds_file d v u)) as Gf.
  split.
  - intros h' r' l' [(_ & <- & _)|(_ & Ho)]%open_at_insert; [done|]. pose proof (hi_origin _ _ _ _ Hi _ _ _ Ho). lia.
  - intros h' r' l' [(_ & _ & Hl')|(_ & Ho)]%open_at_insert.
    + rewrite Hx in Hl'. injection Hl' as <-. split; [done|]. exists v, u. split_and!; try done.
      by eapply gains_lookup, lock_fds_parent.
    + destruct (hi_lock _ _ _ _ Hi _ _ _ Ho) as (? & v0 & u0 & ? & ? & ? & ?). split; [done|]. exists v0, u0.
      split_and!; eauto using gains_keep, gains_lock.
  - intros h1 r1 l1 h2 r2 l2 fd [(<- & _ & E1)|(_ & O1)]%open_at_insert [(<- & _ & E2)|(_ & O2)]%open_at_insert U1 U2.
    + done.
    + rewrite Hx in E1. injection E1 as <-. by destruct (Hdis _ _ _ _ O2 U2).
    + rewrite Hx in E2. injection E2 as <-. by destruct (Hdis _ _ _ _ O1 U1).
    + by eapply (hi_apart _ _ _ _ Hi h1 _ _ h2).
  - intros fd y Hb. destruct (hi_base _ _ _ _ Hi _ _ Hb) as [Hy Hn']. split; [by eapply gains_keep|].
    intros h' r' l' [(_ & _ & E)|(_ & O)]%open_at_insert; [|by eapply Hn']. rewrite Hx in E. injection E as <-.
    intros Hd. by rewrite (Hnew _ Hd) in Hy.
  - intros fd y Hy. rewrite F in Hy. apply lookup_union_Some in Hy as [Hy|Hy]; [| |done].
    + right. exists h, r, d. split; [apply open_at_insert; by left|]. apply lock_fds_cases in Hy as [[-> _]|[-> _]]; [by left|by right].
    + destruct (hi_all _ _ _ _ Hi _ _ Hy) as [?|(h' & r' & l' & O & U)]; [by left|right]. exists h', r', l'.
      split; [apply open_at_insert; right; eauto|done].
  - intros h' r' l' v1 fd v2 [(_ & <- & E)|(_ & O)]%open_at_insert Hf Hy Heq.
    + rewrite Hx in E. injection E as <-. rewrite Gf in Hf. injection Hf as <-. rewrite F in Hy.
      apply lookup_union_Some in Hy as [Hy|Hy]; [| |done].
      * apply lock_fds_cases in Hy as [[-> ->]|[-> ->]]; [|done]. exists h, d. split; [apply open_at_insert; by left|done].
      * destruct (C1 _ _ Hy Heq) as (h1 & l1 & O1 & ->). exists h1, l1. split; [apply open_at_insert; right; eauto|done].
    + pose proof (Hback _ _ _ _ O Hf) as Hf0. rewrite F in Hy. apply lookup_union_Some in Hy as [Hy|Hy]; [| |done].
      * apply lock_fds_cases in Hy as [[-> ->]|[-> ->]]; [|by destruct (C4 _ _ _ _ O Hf0)].
        destruct (C1 _ _ Hf0 (eq_sym Heq)) as (h1 & l1 & O1 & E1).
        destruct (file_owner _ _ _ _ _ _ _ _ _ _ Hi O O1) as (_ & -> & _); [by left|].
        exists h, d. split; [apply open_at_insert; by left|done].
      * destruct (hi_desc _ _ _ _ Hi _ _ _ _ _ _ O Hf0 Hy Heq) as (h1 & l1 & O1 & ->). exists h1, l1.
        split; [apply open_at_insert; right; eauto|done].
  - intros h1 h2 r0 l1 l2 v1 v2 O1 O2 H1 H2. apply open_at_insert in O1 as [(_ & E1 & X1)|(_ & O1)];
      apply open_at_insert in O2 as [(_ & E2 & X2)|(_ & O2)]; simplify_eq; try done.
    + symmetry. eauto.
    + eauto.
    + eapply (hi_same _ _ _ _ Hi h1 h2); eauto.
Qed.

Lemma dropped_lookup l w w' fd v : dropped l w w' -> lv_fds w' !! fd = Some v <-> ~ uses l fd /\ lv_fds w !! fd = Some v.
Proof.
  intros [F _]. rewrite F, !lookup_delete_Some. unfold uses. split.
  - intros (Hp & Hf & Hy). split; [|done]. intros [->| ->]; done.
  - intros [Hn Hy]. split_and!; [intros <-; apply Hn; by right|intros <-; apply Hn; by left|done].
Qed.
Lemma inv_drop base w w' P n i r l x' : held_inv base w P n -> open_at P i r l -> dropped l w w' -> holder_lock x' = None ->
  held_inv base w' (<[i := (r, x')]> P) n.
Proof.
  intros Hi Oi Hd Hx. assert (forall h r' l', open_at (<[i := (r, x')]> P) h r' l' <-> i <> h /\ open_at P h r' l') as HO.
  { intros h r' l'. rewrite open_at_insert. split; [intros [(_ & _ & E)|?]; [congruence|done]|by right]. }
  assert (forall h r' l' fd, i <> h -> open_at P h r' l' -> uses l' fd -> ~ uses l fd) as Hdis.
  { intros h r' l' fd Hne Oh U U'. apply Hne. by eapply (hi_apart _ _ _ _ Hi i _ _ h). }
  split.
  - intros h r' l' [_ Oh]%HO. by eapply hi_origin.
  - intros h r' l' [Hne Oh]%HO. destruct (hi_lock _ _ _ _ Hi _ _ _ Oh) as (? & v & u & Hf & Hp & L & I). split; [done|]. exists v, u.
    assert (lv_fds w' !! al_file l' = Some v) as Hf' by (apply (dropped_lookup l w); [done|]; split; [eapply Hdis; eauto; by left|done]).
    assert (lv_fds w' !! al_parent l' = Some u) as Hp' by (apply (dropped_lookup l w); [done|]; split; [eapply Hdis; eauto; by right|done]).
    split_and!; try done. destruct Hd as [_ HL]. by eapply HL.
  - intros h1 r1 l1 h2 r2 l2 fd [_ O1]%HO [_ O2]%HO. by eapply hi_apart.
  - intros fd v Hb. destruct (hi_base _ _ _ _ Hi _ _ Hb) as [Hy Hn]. split.
    + apply (dropped_lookup l w); [done|]. split; [by eapply Hn|done].
    + intros h r' l' [_ Oh]%HO. by eapply Hn.
  - intros fd v [Hu Hy]%(dropped_lookup l w); [|done]. destruct (hi_all _ _ _ _ Hi _ _ Hy) as [?|(h & r' & l' & Oh & U)]; [by left|right].
    exists h, r', l'. split; [|done]. apply HO. split; [|done]. intros <-. by destruct (open_at_fun _ _ _ _ _ _ Oi Oh) as [-> ->].
  - intros h r' l' v fd v' [Hne Oh]%HO [_ Hf]%(dropped_lookup l w) [Hu Hy]%(dropped_lookup l w) E; [|done..].
    destruct (hi_desc _ _ _ _ Hi _ _ _ _ _ _ Oh Hf Hy E) as (h1 & l1 & O1 & ->). exists h1, l1. split; [|done]. apply HO. split; [|done].
    intros <-. destruct (open_at_fun _ _ _ _ _ _ Oi O1) as [-> ->]. apply Hu. by left.
  - intros h1 h2 r0 l1 l2 v1 v2 [_ O1]%HO [_ O2]%HO [_ H1]%(dropped_lookup l w) [_ H2]%(dropped_lookup l w); [|done..].
    by eapply (hi_same _ _ _ _ Hi h1 h2).
Qed.
(** Closing what is closed changes nothing. *)
Lemma inv_idle base w P n i r x x' : held_inv base w P n -> P !! i = Some (r, x) -> holder_lock x = None -> holder_lock x' = None ->
  held_inv base w (<[i := (r, x')]> P) n.
Proof.
  intros Hi E Hx Hx'. assert (forall h r' l', open_at (<[i := (r, x')]> P) h r' l' <-> open_at P h r' l') as HO.
  { intros h r' l'. rewrite open_at_insert. split; [intros [(_ & _ & ?)|[_ ?]]; [congruence|done]|].
    intros Oh. right. split; [|done]. intros <-. destruct Oh as (y & Ey & Ly). congruence. }
  destruct Hi as [H1 H2 H3 H4 H5 H6 H7]. split; intros *; rewrite ?HO; eauto.
  - intros Hb. destruct (H4 _ _ Hb) as [? Hn]. split; [done|]. intros h r' l' Oh%HO. by eapply Hn.
  - intros Hy. destruct (H5 _ _ Hy) as [?|(h & r' & l' & Oh & U)]; [by left|right]. exists h, r', l'. by rewrite HO.
  - intros Oh Hf Hy He. destruct (H6 _ _ _ _ _ _ Oh Hf Hy He) as (h1 & l1 & O1 & ->). exists h1, l1. by rewrite HO.
Qed.
Lemma inv_grab base w w' P n h x l : held_inv base w P n -> P !! h = None -> holder_lock x = Some l -> grabs l w w' ->
  held_inv base w' (<[h := (n, x)]> P) (S n).
Proof.
  intros Hi Hh Hx (v & u & (Hne & G & Uv & Uu & Huv & I) & L).
  eapply (inv_gain _ _ _ _ n (S n) h n x l v u); try done; try lia.
  - intros fd v' Hy E. by destruct (Uv _ _ Hy).
  - intros h' l' v' Oh. pose proof (hi_origin _ _ _ _ Hi _ _ _ Oh). lia.
  - intros h' r' l' v' _ Hy E. by destruct (Uu _ _ Hy).
Qed.
Lemma inv_retain base w w' P n h i r lease lease' : held_inv base w P n -> P !! i = Some (r, HLease lease) -> P !! h = None ->
  lease_Retain lease w = (inl lease', w') -> held_inv base w' (<[h := (r, HLease lease')]> P) n.
Proof.
  intros Hi Ei Hh. unfold lease_Retain. destruct (ll_lock lease) as [l|] eqn:El; [|done].
  assert (open_at P i r l) as Oi by (by exists (HLease lease)).
  destruct (hi_lock _ _ _ _ Hi _ _ _ Oi) as (Hne & v & u & Hf & Hp & L & I). pose proof (duplicate_spec l v u w Hne Hf Hp) as Hd.
  unfold swp in Hd. unfold sbind, swrap. destruct (lock_duplicate l w) as [[d|e] w1]; [|done]. destruct Hd as (Hned & G & Ed).
  intros [= <- <-]. assert (forall h' r' l', open_at P h' r' l' -> al_parent l <> al_file l') as Hpf.
  { intros h' r' l' Oh E. destruct (file_owner _ _ _ _ _ _ _ _ _ _ Hi Oi Oh) as (_ & _ & <-); [right; by rewrite E|]. done. }
  eapply (inv_gain _ _ _ _ n n h r _ d v u); try done; try lia.
  - by eapply hi_origin.
  - by rewrite Ed.
  - by eapply gains_lock.
  - intros fd v' Hy E. by eapply (hi_desc _ _ _ _ Hi i r l).
  - intros h' l' v' Oh Hy. by eapply (hi_same _ _ _ _ Hi h' i r).
  - intros E. destruct (hi_desc _ _ _ _ Hi _ _ _ _ _ _ Oi Hf Hp E) as (h' & l' & Oh & E'). by eapply Hpf.
  - intros h' r' l' v' Oh Hy E. destruct (hi_desc _ _ _ _ Hi _ _ _ _ _ _ Oh Hy Hp E) as (h1 & l1 & O1 & E'). by eapply Hpf.
Qed.
Lemma retain_fails_quiet base w w' P n i r lease e : held_inv base w P n -> P !! i = Some (r, HLease lease) ->
  lease_Retain lease w = (inr e, w') -> quiet w w'.
Proof.
  intros Hi Ei. unfold lease_Retain. destruct (ll_lock lease) as [l|] eqn:El; [|intros [= _ <-]; apply gains_refl].
  assert (open_at P i r l) as Oi by (by exists (HLease lease)).
  destruct (hi_lock _ _ _ _ Hi _ _ _ Oi) as (Hne & v & u & Hf & Hp & _). pose proof (duplicate_spec l v u w Hne Hf Hp) as Hd.
  unfold swp in Hd. unfold sbind, swrap. destruct (lock_duplicate l w) as [[d|e'] w1]; [done|]. by intros [= _ <-].
Qed.
Lemma inv_close base w w' P n i r lease e lease' : held_inv base w P n -> P !! i = Some (r, HLease lease) ->
  lease_Close lease w = (e, lease', w') -> held_inv base w' (<[i := (r, HLease lease')]> P) n.
Proof.
  intros Hi Ei. unfold lease_Close. destruct (ll_lock lease) as [l|] eqn:El.
  - assert (open_at P i r l) as Oi by (by exists (HLease lease)).
    destruct (hi_lock _ _ _ _ Hi _ _ _ Oi) as (Hne & v & u & Hf & Hp & _).
    pose proof (lock_close_spec l w Hne (ex_intro _ _ Hf) (ex_intro _ _ Hp)) as Hd. destruct (lock_close l w) as [e1 w1].
    intros [= <- <- <-]. by eapply inv_drop.
  - intros [= <- <- <-]. by eapply inv_idle.
Qed.
Lemma inv_close_gate base w w' P n i r g e g' : held_inv base w P n -> P !! i = Some (r, HGate g) ->
  gate_Close g w = (e, g', w') -> held_inv base w' (<[i := (r, HGate g')]> P) n.
Proof.
  intros Hi Ei Ec. destruct (lm_lock g) as [l|] eqn:El.
  - assert (open_at P i r l) as Oi by (by exists (HGate g)).
    destruct (hi_lock _ _ _ _ Hi _ _ _ Oi) as (Hne & v & u & Hf & Hp & _).
    destruct (gate_close_spec g l w El Hne (ex_intro _ _ Hf) (ex_intro _ _ Hp)) as (w1 & Q & Hd & En). rewrite Ec in Hd, En.
    eapply inv_drop; [by eapply inv_quiet|done..].
  - unfold gate_Close in Ec. rewrite El in Ec. injection Ec as <- <- <-. by eapply inv_idle.
Qed.
Lemma lease_step_inv base w P n w' P' n' : step (w, P, n) (w', P', n') -> held_inv base w P n -> held_inv base w' P' n'.
Proof.
  intros Hs Hi. inversion Hs as
    [? ? ? ? Q|? p mp o ? ? ? ? ? E Hh|p mp o ? ? ? ? ? E|? fu p mp o ? ? ? ? ? E Hh|fu p mp o ? ? ? ? ? E|? ? ? g fu o ? ? ? ? ? Eg E Hh
    |? ? g fu o ? ? ? ? ? Eg E|? ? l p ? ? ? Eg|? ? ? ? ? ? ? ? ? Eg E Hh|? ? ? ? ? ? ? ? Eg E|? ? ? ? ? ? ? ? ? Eg E|? ? ? ? ? ? ? ? ? Eg E]; subst.
  - by eapply inv_quiet.
  - pose proof (AcquireLifecycleAt_spec p mp o w) as H. rewrite E in H. destruct H as (l & El & G). by eapply inv_grab.
  - pose proof (AcquireLifecycleAt_spec p mp o w) as H. rewrite E in H. by eapply inv_quiet.
  - pose proof (waiting_ctx _ _ (begin_wait_spec fu p mp o) w) as H. unfold BeginLifecycleMaintenance in E. cbn in H. rewrite E in H.
    destruct H as (l & El & G). by eapply inv_grab.
  - pose proof (waiting_ctx _ _ (begin_wait_spec fu p mp o) w) as H. unfold BeginLifecycleMaintenance in E. cbn in H. rewrite E in H.
    by eapply inv_quiet.
  - pose proof (waiting_ctx _ _ (acquire_wait_spec fu g o) w) as H. unfold WaitAcquireLifecycle in E. cbn in H. rewrite E in H.
    destruct H as (l & El & G). by eapply inv_grab.
  - pose proof (waiting_ctx _ _ (acquire_wait_spec fu g o) w) as H. unfold WaitAcquireLifecycle in E. cbn in H. rewrite E in H.
    by eapply inv_quiet.
  - eapply inv_quiet; [done|apply quiet_HeldAt].
  - by eapply inv_retain.
  - eapply inv_quiet; [done|by eapply retain_fails_quiet].
  - by eapply inv_close.
  - by eapply inv_close_gate.
Qed.
Lemma inv_start w : held_inv (lv_fds w) w ∅ 0.
Proof. split; unfold open_at; intros; try (destruct_and?; naive_solver); naive_solver. Qed.
Lemma steps_inv base s s' : rtc step s s' -> held_inv base s.1.1 s.1.2 s.2 -> held_inv base s'.1.1 s'.1.2 s'.2.
Proof. induction 1 as [|[[w P] n] [[w1 P1] n1] s' Hs _ IH]; [done|]. intros Hi. apply IH. by eapply lease_step_inv. Qed.

(** Two open locks of one file stem from one acquisition. *)
Lemma inv_exclusive base w P n h r l h' r' l' : held_inv base w P n -> open_at P h r l -> open_at P h' r' l' ->
  sameObject (al_fileIdentity l) (al_fileIdentity l') = true -> r = r'.
Proof.
  intros Hi Oh Oh' Hs. destruct (hi_lock _ _ _ _ Hi _ _ _ Oh) as (_ & v & u & Hf & _ & L & I).
  destruct (hi_lock _ _ _ _ Hi _ _ _ Oh') as (_ & v' & u' & Hf' & _ & L' & I').
  assert (v.2 = v'.2) as E.
  { rewrite <- I, <- I'. unfold sameObject in Hs. unfold identity_object.
    rewrite !andb_true_iff, !Z.eqb_eq in Hs. destruct Hs as [[[-> ->] _] _]. done. }
  rewrite E, L' in L. injection L as Ev. destruct (hi_desc _ _ _ _ Hi _ _ _ _ _ _ Oh Hf Hf' Ev) as (h1 & l1 & O1 & E1).
  destruct (file_owner _ _ _ _ _ _ _ _ _ _ Hi O1 Oh') as (_ & E2 & _); [left; by rewrite E1|done].
Qed.
(** The close of the last copy frees the lock. *)
Lemma inv_freed base w P n h r l v : held_inv base w P n -> open_at P h r l -> lv_fds w !! al_file l = Some v ->
  (forall h' l', open_at P h' r l' -> h' = h) -> forall o, lv_locks (lk_close (al_file l) w).2 !! o <> Some v.1.
Proof.
  intros Hi Oh Hf Hlast. destruct (ll_close (al_file l) w (ex_intro _ _ Hf)) as (F & _ & Hfree). apply Hfree; [done|].
  intros fd v' Hy E. rewrite F in Hy. apply lookup_delete_Some in Hy as [Hne Hy].
  destruct (hi_desc _ _ _ _ Hi _ _ _ _ _ _ Oh Hf Hy E) as (h' & l' & O' & ->). pose proof (Hlast _ _ O') as ->.
  destruct (open_at_fun _ _ _ _ _ _ Oh O') as [_ ->]. done.
Qed.
(** With everything closed, the descriptors are those of the start. *)
Lemma inv_no_leak base w P n : held_inv base w P n -> (forall h r l, ~ open_at P h r l) -> lv_fds w = base.
Proof.
  intros Hi Hc. apply map_eq. intros fd. apply option_eq. intros v. split.
  - intros Hy. destruct (hi_all _ _ _ _ Hi _ _ Hy) as [?|(h & r & l & Oh & _)]; [done|by destruct (Hc _ _ _ Oh)].
  - intros Hb. by destruct (hi_base _ _ _ _ Hi _ _ Hb).
Qed.

(** C23: the lease excludes, through any operations on leases and gates with
    actions of other processes and failures between any two system calls.  An open lease or gate holds the
    flock of the file it recorded; two open ones on one file stem from one
    acquisition, the one being retained from the other; closing one frees the lock when it is the last of its acquisition
    and not before; and no path, failing ones included, leaves a descriptor open. *)
Theorem lease_exclusive w0 w P n : rtc step (w0, ∅, 0%nat) (w, P, n) ->
  (forall h r l, open_at P h r l -> exists v, lv_fds w !! al_file l = Some v /\
     v.2 = identity_object (al_fileIdentity l) /\ lv_locks w !! v.2 = Some v.1 /\
     ((forall h' l', open_at P h' r l' -> h' = h) -> forall o, lv_locks (lk_close (al_file l) w).2 !! o <> Some v.1)) /\
  (forall h r l h' r' l', open_at P h r l -> open_at P h' r' l' ->
     sameObject (al_fileIdentity l) (al_fileIdentity l') = true -> r = r') /\
  ((forall h r l, ~ open_at P h r l) -> lv_fds w = lv_fds w0).
Proof.
  intros Hs. pose proof (steps_inv (lv_fds w0) _ _ Hs (inv_start w0)) as Hi. cbn in Hi. split_and!.
  - intros h r l Oh. destruct (hi_lock _ _ _ _ Hi _ _ _ Oh) as (_ & v & u & Hf & _ & L & I). exists v. split_and!; try done.
    intros Hlast. by eapply inv_freed.
  - intros *. by eapply inv_exclusive.
  - by eapply inv_no_leak.
Qed.
End pool.

(** ** The waits end *)

(** Every pause that does not end the wait uses up some of its time, of which
    the other calls give none back. *)
Class WaitClock (W : Type) {Hk : LockKernel W} (left : W -> nat) := {
  wc_ctx w : (left (lk_ctxErr w).2 <= left w)%nat;
  wc_begin path mp owner w : (left (tryBeginLifecycleMaintenanceAt path mp owner w).2 <= left w)%nat;
  wc_acquire g owner w : (left (tryAcquireValidatedLifecycle g owner w).2 <= left w)%nat;
  wc_pause w : match lk_pause w with (None, w') => (left w' < left w)%nat | _ => True end
}.
Section waits.
Context {W : Type} {Hk : LockKernel W} {left : W -> nat} {Hc : WaitClock W left}.
Lemma begin_wait_ends fuel path mp owner w : (left w < fuel)%nat -> (begin_wait fuel path mp owner w).1 <> None.
Proof.
  revert w. induction fuel as [|fuel IH]; intros w Hf; [lia|]. cbn [begin_wait]. pose proof (wc_ctx w) as H1.
  destruct (lk_ctxErr w) as [[e|] w1]; cbn in H1; [done|]. pose proof (wc_begin path mp owner w1) as H2.
  destruct (tryBeginLifecycleMaintenanceAt path mp owner w1) as [[g|f] w2]; cbn in H2.
  - destruct (lk_ctxErr w2) as [[e|] w3]; [|done]. by destruct (gate_Close g w3) as [[? ?] ?].
  - destruct (negb (fl_gateHeld f)); [done|]. pose proof (wc_pause w2) as H3. destruct (lk_pause w2) as [[e|] w3]; [done|]. apply IH. lia.
Qed.
Lemma acquire_wait_ends fuel g owner w : (left w < fuel)%nat -> (acquire_wait fuel g owner w).1 <> None.
Proof.
  revert w. induction fuel as [|fuel IH]; intros w Hf; [lia|]. cbn [acquire_wait]. pose proof (wc_ctx w) as H1.
  destruct (lk_ctxErr w) as [[e|] w1]; cbn in H1; [done|]. pose proof (wc_acquire g owner w1) as H2.
  destruct (tryAcquireValidatedLifecycle g owner w1) as [[l|f] w2]; cbn in H2; [done|].
  destruct (negb (fl_leaseHeld f)); [done|]. pose proof (wc_pause w2) as H3. destruct (lk_pause w2) as [[e|] w3]; [done|]. apply IH. lia.
Qed.
End waits.

(** ** A kernel with two lock files *)

Record toy := mkToy { toy_fds : gmap Z descriptor; toy_locks : gmap object Z; toy_next : Z }.
#[local] Instance toy_view : LockView toy := { lv_fds := toy_fds; lv_locks := toy_locks }.
Definition toy_new (o : object) (w : toy) : (Z + error) * toy :=
  if decide (toy_fds w !! toy_next w = None /\ map_Forall (fun _ v => v.1 <> toy_next w) (toy_fds w))
  then (inl (toy_next w), mkToy (<[toy_next w := (toy_next w, o)]> (toy_fds w)) (toy_locks w) (toy_next w + 1))
  else (inr "too many open files", w).
Definition toy_file (name : string) : object := (0, if String.eqb name "daemon.lease" then 3 else 4).
Definition toy_stat (o : object) : statx_t :=
  mkStatx STATX_MNT_ID 0 0 o.2 1 (if o.2 <=? 2 then S_IFDIR + 493 else S_IFREG + lock_mode) 0 0 1.
Definition toy_close (fd : Z) (w : toy) : option error * toy :=
  match toy_fds w !! fd with
  | None => (Some "bad file descriptor", w)
  | Some v =>
      let fds := delete fd (toy_fds w) in
      (None, mkToy fds (if decide (map_Forall (fun _ v' => v'.1 <> v.1) fds) then filter (fun p => p.2 <> v.1) (toy_locks w) else toy_locks w)
         (toy_next w))
  end.
#[local] Instance toy_kernel : LockKernel toy := {
  lk_euid := 0;
  lk_mkdirAll _ w := (None, w);
  lk_openDir p w := toy_new (0, if String.eqb p "/run" then 1 else 2) w;
  lk_create _ _ w := (inr OpenExists, w);
  lk_open _ n w := let '(r, w) := toy_new (toy_file n) w in (match r with inl fd => inl fd | inr e => inr (OpenError e) end, w);
  lk_openLock _ w := (inr (OpenError "no such file"), w); lk_fstat _ w := (inr "bad file descriptor", w);
  lk_chmod _ w := (None, w); lk_sync _ w := (None, w);
  lk_statx fd w := (match toy_fds w !! fd with Some v => if decide (v.2.1 = 0) then inl (toy_stat v.2) else inr "no such device"
                    | None => inr "bad file descriptor" end, w);
  lk_statxAt _ n w := (inl (toy_stat (toy_file n)), w);
  lk_flock fd w := match toy_fds w !! fd with
    | None => (Some (FlockError "bad file descriptor"), w)
    | Some v => match toy_locks w !! v.2 with
                | Some o => if decide (o = v.1) then (None, w) else (Some WouldBlock, w)
                | None => (None, mkToy (toy_fds w) (<[v.2 := v.1]> (toy_locks w)) (toy_next w))
                end
    end;
  lk_unlock fd w := match toy_fds w !! fd with
    | None => (Some "bad file descriptor", w)
    | Some v => (None, mkToy (toy_fds w) (filter (fun p => p.2 <> v.1) (toy_locks w)) (toy_next w))
    end;
  lk_dup fd w := match toy_fds w !! fd with
    | None => (inr "bad file descriptor", w)
    | Some v => if decide (toy_fds w !! toy_next w = None)
                then (inl (toy_next w), mkToy (<[toy_next w := v]> (toy_fds w)) (toy_locks w) (toy_next w + 1))
                else (inr "too many open files", w)
    end;
  lk_close := toy_close;
  lk_readAt _ w := ("", w); lk_truncate _ w := (None, w); lk_seek _ w := (None, w); lk_write _ _ w := (None, w);
  lk_ctxErr w := (None, w); lk_pause w := (Some "deadline exceeded", w); lk_validateContext w := (None, w)
}.
Lemma toy_insert fd v (w : toy) n : toy_fds w !! fd = None -> gains {[fd := v]} w (mkToy (<[fd := v]> (toy_fds w)) (toy_locks w) n).
Proof.
  intros Hn. split_and!; cbn; [by rewrite insert_union_singleton_l|by apply map_disjoint_singleton_l_2|done].
Qed.
Lemma toy_new_spec o w : match toy_new o w with (inl fd, w') => opened fd w w' | (inr _, w') => quiet w w' end.
Proof.
  unfold toy_new. destruct (decide _) as [[Hn Hu]|_]; [|apply gains_refl]. exists (toy_next w, o). split; [by apply toy_insert|].
  intros fd v Hy. by apply (Hu fd).
Qed.
#[local] Instance toy_laws : LockLaws toy.
Proof.
  split; intros; try apply gains_refl; cbn in *.
  - apply toy_new_spec.
  - pose proof (toy_new_spec (toy_file n) w) as H. by destruct (toy_new (toy_file n) w) as [[?|?] ?].
  - rewrite H1 in H. destruct (decide _); [|done]. injection H as <- <-. unfold lifecycleLockIdentityFromStatx in H0. cbn in H0.
    injection H0 as <-. destruct v as [? [d i']]; cbn in *. by subst.
  - rewrite H. destruct (toy_locks w !! v.2) as [o|] eqn:E; [destruct (decide _) as [->|]|]; (split; [|done || (intros _; cbn; by rewrite ?lookup_insert_eq)]);
      try apply gains_refl. split_and!; cbn; [by rewrite (left_id_L ∅ (∪))|apply map_disjoint_empty_l|].
    intros fd' v' o Hf Hlk. rewrite lookup_insert_ne; [done|]. intros <-. congruence.
  - rewrite H. cbn. split; [done|]. intros fd' u o Hf Hne Hlk. by apply map_lookup_filter_Some.
  - rewrite H. destruct (decide _) as [Hn|_]; [|apply gains_refl]. by apply toy_insert.
  - unfold toy_close. destruct (toy_fds w !! fd) as [v|] eqn:E; [|by destruct H]. cbn. split_and!; cbn; [done|..].
    + intros fd' v' o Hf Hlk. destruct (decide _) as [Hu|_]; [|done]. apply map_lookup_filter_Some. split; [done|]. by apply (Hu fd').
    + intros v' Ev Hu o. cbn in Ev. rewrite E in Ev. injection Ev as <-. destruct (decide _) as [_|Hn]; [|by destruct Hn; intros fd' v' Hf; apply (Hu fd')].
      by intros [_ Hx]%map_lookup_filter_Some.
Qed.

(** Acquire, retain, close the first: the copy holds the lock, and a new acquisition is refused. *)
Definition toy_start : toy := mkToy ∅ ∅ 3.
Definition toy_acquire : toy -> (LifecycleLease + failure) * toy :=
  AcquireLifecycleAt DefaultLifecycleLeasePath DefaultLifecycleMaintenancePath (inl []).
Definition closed_lease : LifecycleLease := mkLease "" None.
Definition toy_lease : LifecycleLease := match (toy_acquire toy_start).1 with inl l => l | inr _ => closed_lease end.
Definition toy_held : toy := (toy_acquire toy_start).2.
Definition toy_copy : LifecycleLease := match (lease_Retain toy_lease toy_held).1 with inl l => l | inr _ => closed_lease end.
Definition toy_shared : toy := (lease_Retain toy_lease toy_held).2.
Definition toy_left : toy := (lease_Close toy_lease toy_shared).2.
Definition toy_pool : pool := <[0%nat := (0%nat, HLease (mkLease DefaultLifecycleLeasePath None))]>
  (<[1%nat := (0%nat, HLease toy_copy)]> (<[0%nat := (0%nat, HLease toy_lease)]> ∅)).
Lemma toy_run : rtc step (toy_start, ∅, 0%nat) (toy_left, toy_pool, 1%nat).
Proof.
  eapply rtc_l; [apply (step_acquire 0%nat DefaultLifecycleLeasePath DefaultLifecycleMaintenancePath (inl []) toy_start toy_lease toy_held);
    vm_compute; reflexivity|].
  eapply rtc_l; [apply (step_retain 1%nat 0%nat 0%nat toy_lease toy_held toy_copy toy_shared); vm_compute; reflexivity|].
  eapply rtc_l; [apply (step_close 0%nat 0%nat toy_lease toy_shared (lease_Close toy_lease toy_shared).1.1
    (mkLease DefaultLifecycleLeasePath None) toy_left); vm_compute; reflexivity|].
  apply rtc_refl.
Qed.
Lemma lease_exclusive_witness :
  (exists l, ll_lock toy_copy = Some l /\ exists v, lv_fds toy_left !! al_file l = Some v /\ lv_locks toy_left !! v.2 = Some v.1 /\
     forall o, lv_locks (lk_close (al_file l) toy_left).2 !! o <> Some v.1) /\
  match (toy_acquire toy_left).1 with inr f => fl_leaseHeld f = true | inl _ => False end.
Proof.
  split; [|vm_compute; reflexivity]. destruct (lease_exclusive toy_start toy_left toy_pool 1 toy_run) as (H & _).
  destruct (ll_lock toy_copy) as [l|] eqn:El; [|vm_compute in El; discriminate El]. exists l. split; [reflexivity|].
  destruct (H 1%nat 0%nat l) as (v & Hf & _ & Hl & Hlast); [exists (HLease toy_copy); split; [vm_compute; reflexivity|exact El]|].
  exists v. split; [exact Hf|split; [exact Hl|]].
  apply Hlast. intros h' l' (x & Hx & Lx). unfold toy_pool in Hx.
  apply lookup_insert_Some in Hx as [[E0 [= E1]]|[E0 Hx]]; [rewrite <- E1 in Lx; discriminate Lx|].
  apply lookup_insert_Some in Hx as [[E1 _]|[_ Hx]]; [by rewrite E1|]. apply lookup_insert_Some in Hx as [[E1 _]|[_ Hx]]; [by destruct E0|].
  by rewrite lookup_empty in Hx.
Defined.
