(* ===== verification/PinMaps.v ===== *)
(** * The pinned maps of a detach (internal/dataplane/pin_map_transaction_linux.go)

    A detach pins every map of the owner record a second time under a stage name,
    takes the canonical pins away by way of a retired name, and removes the stages
    last; a failed detach puts the canonical pins back from the stages.  With it the
    checks of loader_linux.go, pin_owner_linux.go and pin_recovery_linux.go that it
    calls.  The pin directory and the maps are the class [PinKernel]. *)
From Stdlib Require Import ZArith Lia Ascii String.
From stdpp Require Import base option list gmap strings numbers.
From S2P Require Import Prelude Abi AbiSnapshot.

(** An error, and whether it wraps [ENOENT]. *)
Record pin_error := mkPinError { pe_noent : bool; pe_text : error }.
Definition refusal (e : error) : pin_error := mkPinError false e.
Definition wrap_pin (prefix : error) (e : pin_error) : pin_error := mkPinError (pe_noent e) (prefix +:+ pe_text e).
Definition join_pin (e : pin_error) (e' : option pin_error) : pin_error :=
  match e' with Some e' => mkPinError (pe_noent e || pe_noent e') (pe_text e +:+ newline +:+ pe_text e') | None => e end.

(** ** Data *)

Record pin_stat := mkPinStat { st_Dev : Z; st_Ino : Z; st_Mode : Z; st_Uid : Z; st_Gid : Z; st_Nlink : Z }.
Record pinPathInodeIdentity := mkPinInode { pi_device : Z; pi_inode : Z; pi_mode : Z; pi_uid : Z; pi_gid : Z; pi_nlink : Z }.
Definition pinPathInodeFromStat (s : pin_stat) : pinPathInodeIdentity :=
  mkPinInode (st_Dev s) (st_Ino s) (st_Mode s) (st_Uid s) (st_Gid s) (st_Nlink s).
Definition pin_S_IFMT : Z := 61440.
Definition pin_S_IFREG : Z := 32768.
Definition samePinPathInode (l r : pinPathInodeIdentity) : bool :=
  (pi_device l =? pi_device r) && (pi_inode l =? pi_inode r) && (Z.land (pi_mode l) pin_S_IFMT =? Z.land (pi_mode r) pin_S_IFMT).

Inductive map_type := MapHash | MapArray | MapProgramArray | MapPerCPUArray | MapOther (t : Z).
#[global] Instance map_type_eq_dec : EqDecision map_type.
Proof. solve_decision. Defined.
Record pinnedMapDescriptor := mkDescriptor {
  md_name : string; md_mapType : map_type; md_keySize : Z; md_valueSize : Z; md_maxEntries : Z; md_flags : Z
}.
Definition pinnedMapDescriptors : list pinnedMapDescriptor :=
  [ mkDescriptor "control_map" MapArray 4 16 1 0; mkDescriptor "owner_map" MapArray 4 72 1 0;
    mkDescriptor "profile_map" MapHash 16 48 128 0; mkDescriptor "cipher_map" MapHash 16 288 128 0;
    mkDescriptor "underlay_config_map" MapHash 16 16 512 0; mkDescriptor "managed_fwmark_map" MapHash 16 16 512 0;
    mkDescriptor "egress_rule_map" MapHash 24 32 2048 0; mkDescriptor "ingress_listener_map" MapHash 16 24 2048 0;
    mkDescriptor "icmp_listener_map" MapHash 16 24 2048 0; mkDescriptor "stats_map" MapPerCPUArray 4 8 36 0;
    mkDescriptor "xor_egress_programs" MapProgramArray 4 4 16 0; mkDescriptor "xor_ingress_programs" MapProgramArray 4 4 16 0 ].

Record pinOwnerSentinel := mkSentinel { os_Version : Z; os_Flags : Z; os_ResourceDigest : list Z; os_Token : list Z }.
#[global] Instance pinOwnerSentinel_eq_dec : EqDecision pinOwnerSentinel.
Proof. solve_decision. Defined.
#[global] Instance pin_control_eq_dec : EqDecision ControlValue.
Proof. solve_decision. Defined.
(** [ob_fd]: the open map; [ob_pin]: whether it can be pinned. *)
Record pinnedMapObservation := mkMapObservation {
  ob_fd : Z; ob_id : Z; ob_mapType : map_type; ob_keySize : Z; ob_valueSize : Z; ob_maxEntries : Z; ob_flags : Z;
  ob_kernelName : string; ob_mapExtra : Z; ob_frozen : bool; ob_control : ControlValue; ob_controlSeen : bool;
  ob_owner : pinOwnerSentinel; ob_ownerSeen : bool; ob_pin : bool
}.
Record pinnedMapPin := mkMapPin { mp_descriptor : pinnedMapDescriptor; mp_inode : pinPathInodeIdentity; mp_observation : option pinnedMapObservation }.

Record pinOwnerMapIdentity := mkMapIdentity { om_Name : string; om_ID : Z }.
Record pinOwnerMapStage := mkMapStage { ms_Name : string; ms_FileName : string; ms_MapID : Z }.
(** The fields these operations read. *)
Record pinOwnerRecord := mkOwnerRecord {
  or_RecordVersion : Z; or_Token : string; or_ActiveGeneration : Z; or_Maps : list pinOwnerMapIdentity; or_MapStages : list pinOwnerMapStage
}.
Definition pinOwnerRecordVersion : Z := 4.

Class PinKernel (W : Type) := {
  (** The handle's user and mount. *)
  pk_expectedUID : Z;
  pk_mountID : Z;
  pk_fstatat : string -> W -> (pin_stat + pin_error) * W;
  pk_mountIDAt : string -> W -> (Z + pin_error) * W;
  pk_loadPinnedMap : string -> string -> W -> (pinnedMapObservation + pin_error) * W;
  pk_close : pinnedMapObservation -> W -> option pin_error * W;
  pk_pin : pinnedMapObservation -> string -> W -> option pin_error * W;
  pk_renameNoReplace : string -> string -> W -> option pin_error * W;
  pk_unlink : string -> W -> option pin_error * W;
  (** Open, list at most 257 entries, close. *)
  pk_readDir : W -> (list string + pin_error) * W;
  pk_beforePinQuarantine : string -> W -> option pin_error * W;
  pk_beforePinUnlink : string -> W -> option pin_error * W;
  (** The sentinel of a record's token on this resource. *)
  pk_sentinelFor : pinOwnerRecord -> pinOwnerSentinel + pin_error;
  (** A map of a loaded collection: its id, if it has one, and its pin. *)
  pk_mapInfo : Z -> W -> (option Z + pin_error) * W;
  pk_pinMap : Z -> string -> W -> option pin_error * W
}.

(** ** Sequencing *)

Definition PM (W A : Type) : Type := W -> (A + pin_error) * W.
Definition pret {W A} (a : A) : PM W A := fun w => (inl a, w).
Definition pfail {W A} (e : pin_error) : PM W A := fun w => (inr e, w).
Definition pbind {W A B} (m : PM W A) (k : A -> PM W B) : PM W B := fun w =>
  match m w with (inl a, w) => k a w | (inr e, w) => (inr e, w) end.
Definition pcall {W} (f : W -> option pin_error * W) : PM W unit := fun w =>
  let '(e, w) := f w in (match e with Some e => inr e | None => inl tt end, w).
Definition pwrap {W A} (prefix : error) (m : PM W A) : PM W A := fun w =>
  let '(r, w) := m w in (match r with inl a => inl a | inr e => inr (wrap_pin prefix e) end, w).
Definition pcheck {W} (e : option pin_error) : PM W unit := fun w => (match e with Some e => inr e | None => inl tt end, w).
Declare Scope pin_scope.
Delimit Scope pin_scope with pin.
Notation "'pin!' x ':=' m 'in' k" := (pbind m (fun x => k)) (at level 10, x pattern, m at level 100, k at level 200) : pin_scope.
Notation "'do!' m 'in' k" := (pbind m (fun _ => k)) (at level 10, m at level 100, k at level 200) : pin_scope.
Notation "'refuse' b 'with' e 'in' k" := (if b then pfail (refusal e) else k)
  (at level 10, b at level 100, e at level 100, k at level 200) : pin_scope.
#[local] Open Scope pin_scope.
Fixpoint pfor {W A} (l : list A) (f : A -> PM W unit) : PM W unit :=
  match l with [] => pret tt | a :: l => do! f a in pfor l f end.

(** ** Checks *)

(** [filepath.Base(name) == name]. *)
Fixpoint has_slash (s : string) : bool :=
  match s with EmptyString => false | String c s => Ascii.eqb c "/"%char || has_slash s end.
Definition is_base_name (name : string) : bool := negb (String.eqb name "") && (negb (has_slash name) || String.eqb name "/").
Definition ownerMapDescriptor (name : string) : pinnedMapDescriptor + pin_error :=
  match find (fun d => String.eqb (md_name d) name) pinnedMapDescriptors with
  | Some d => inl d
  | None => inr (refusal "unknown canonical owner map")
  end.
Definition validatePinnedMapObservation (d : pinnedMapDescriptor) (o : pinnedMapObservation) (requireCommittedControl : bool)
    : option pin_error :=
  if ob_id o =? 0 then Some (refusal "pinned map has no stable map ID")
  else if negb (bool_decide (ob_mapType o = md_mapType d)) || negb (ob_keySize o =? md_keySize d) ||
          negb (ob_valueSize o =? md_valueSize d) || negb (ob_maxEntries o =? md_maxEntries d) || negb (ob_flags o =? md_flags d)
  then Some (refusal "pinned map schema differs")
  else if negb (ob_mapExtra o =? 0) then Some (refusal "pinned map has unsupported map_extra")
  else if ob_frozen o then Some (refusal "pinned map is frozen")
  else if negb (String.eqb (ob_kernelName o) (String.substring 0 15 (md_name d))) then Some (refusal "pinned map reports another kernel name")
  else if negb (String.eqb (md_name d) "control_map") then
    if String.eqb (md_name d) "owner_map" && negb (ob_ownerSeen o)
    then Some (refusal "pinned owner_map sentinel value is unavailable") else None
  else if negb (ob_controlSeen o) then Some (refusal "pinned control_map identity value is unavailable")
  else if negb requireCommittedControl && bool_decide (ob_control o = mkControlValue 0 0 0) then None
  else if negb (cv_ABIVersion (ob_control o) =? Version) then Some (refusal "pinned control_map ABI version differs")
  else if negb (cv_Flags (ob_control o) =? 0) then Some (refusal "pinned control_map flags are set")
  else if requireCommittedControl && (cv_ActiveGeneration (ob_control o) =? 0)
  then Some (refusal "pinned control_map has no committed generation") else None.
Definition ownerControlValue (pins : list pinnedMapPin) : ControlValue + pin_error :=
  match find (fun p => String.eqb (md_name (mp_descriptor p)) "control_map") pins with
  | None => inr (refusal "owner canonical set is missing control_map")
  | Some p =>
      match mp_observation p with
      | Some o => if ob_controlSeen o then inl (ob_control o) else inr (refusal "owner control_map value is unavailable")
      | None => inr (refusal "owner control_map value is unavailable")
      end
  end.
Definition validateOwnerControlGeneration (pins : list pinnedMapPin) (generation : Z) : option pin_error :=
  match ownerControlValue pins with
  | inr e =>
      if (generation =? 0) && negb (existsb (fun p => String.eqb (md_name (mp_descriptor p)) "control_map") pins) then None else Some e
  | inl value =>
      if generation =? 0
      then if bool_decide (value = mkControlValue 0 0 0) then None else Some (refusal "fresh owner control value is not zero")
      else if negb (cv_ActiveGeneration value =? generation) || negb (cv_ABIVersion value =? Version)
      then Some (refusal "owner control value generation/ABI differs") else None
  end.

Definition ownerMapRetiredNames (r : pinOwnerRecord) (fileName : string) : list string :=
  (fileName +:+ "-retired") :: (if or_RecordVersion r =? pinOwnerRecordVersion then [fileName +:+ ".retired"] else []).
Definition ownerCanonicalMapRetiredNames (r : pinOwnerRecord) (fileName : string) : list string :=
  (fileName +:+ "-canonical-retired") ::
  (if or_RecordVersion r =? pinOwnerRecordVersion then [fileName +:+ ".canonical-retired"] else []).
(** The requested names must be distinct and not empty. *)
Fixpoint check_wanted (seen names : list string) : option pin_error :=
  match names with
  | [] => None
  | n :: names =>
      if String.eqb n "" then Some (refusal "retired BPF pin entry name is empty")
      else if existsb (String.eqb n) seen then Some (refusal "retired BPF pin entry name is duplicated")
      else check_wanted (n :: seen) names
  end.
Fixpoint find_wanted (found : option string) (wanted entries : list string) : option string + pin_error :=
  match entries with
  | [] => inl found
  | n :: entries =>
      if negb (existsb (String.eqb n) wanted) then find_wanted found wanted entries
      else match found with
           | Some _ => inr (refusal "multiple retired BPF pin entries exist")
           | None => find_wanted (Some n) wanted entries
           end
  end.

Section transaction.
Context {W : Type} {Hk : PinKernel W}.
Implicit Types r : pinOwnerRecord.

(** The retired name that exists, if any. *)
Definition existingOwnerRetiredName (names : list string) : PM W (option string) :=
  pin! entries := pwrap "list BPF pin directory for retired entry lookup: " pk_readDir in
  refuse (256 <? length entries)%nat with "BPF pin directory has more than 256 entries" in
  do! pcheck (check_wanted [] names) in
  fun w => (find_wanted None names entries, w).
Definition validateOwnerSentinel (owner : pinOwnerSentinel) (seen : bool) r : option pin_error :=
  if negb seen then Some (refusal "owner_map sentinel is unavailable")
  else match pk_sentinelFor r with
       | inr e => Some e
       | inl want => if bool_decide (owner = want) then None
                     else Some (refusal "owner_map sentinel does not match the persistent owner record")
       end.

(** A step after the map is open: on failure it is closed. *)
Definition or_close_map (o : pinnedMapObservation) (m : PM W unit) : PM W unit := fun w =>
  match m w with
  | (inr e, w) => let '(ce, w) := pk_close o w in (inr (join_pin e ce), w)
  | res => res
  end.
(** The same where the error of the close is dropped. *)
Definition or_close_map_quietly (o : pinnedMapObservation) (m : PM W unit) : PM W unit := fun w =>
  match m w with
  | (inr e, w) => (inr e, (pk_close o w).2)
  | res => res
  end.
Definition validatePinnedMapAt (d : pinnedMapDescriptor) (fileName : string) (expectedID : Z) : PM W (pinPathInodeIdentity * pinnedMapObservation) :=
  refuse negb (is_base_name fileName) || (expectedID =? 0) with "unsafe pinned-map validation target" in
  pin! stat := pk_fstatat fileName in
  refuse negb (Z.land (st_Mode stat) pin_S_IFMT =? pin_S_IFREG) || negb (Z.land (st_Mode stat) 4095 =? 384) ||
         negb (st_Uid stat =? pk_expectedUID) || negb (st_Nlink stat =? 1) with "unsafe map pin" in
  pin! mountID := pk_mountIDAt fileName in
  refuse negb (mountID =? pk_mountID) with "map pin is on another mount" in
  pin! o := pk_loadPinnedMap fileName (md_name d) in
  do! or_close_map o (pcheck (validatePinnedMapObservation d o false)) in
  do! or_close_map o (refuse negb (ob_id o =? expectedID) with "map pin has another ID than the owner journal" in pret tt) in
  do! or_close_map o (pin! after := pk_fstatat fileName in
    refuse negb (samePinPathInode (pinPathInodeFromStat stat) (pinPathInodeFromStat after)) with "map pin changed while validating" in
    pret tt) in
  pret (pinPathInodeFromStat stat, o).
(** Validate and close again. *)
Definition validate_and_close (d : pinnedMapDescriptor) (fileName : string) (id : Z) : PM W unit :=
  pin! p := validatePinnedMapAt d fileName id in
  pcall (pk_close p.2).

(** ** A fresh collection *)

Fixpoint insert_by_name (m : pinOwnerMapIdentity) (l : list pinOwnerMapIdentity) : list pinOwnerMapIdentity :=
  match l with
  | [] => [m]
  | x :: l' => if String.ltb (om_Name m) (om_Name x) then m :: l else x :: insert_by_name m l'
  end.
Definition sort_by_name (l : list pinOwnerMapIdentity) : list pinOwnerMapIdentity := foldr insert_by_name [] l.
Fixpoint collect_identities (collection : gmap string Z) (ds : list pinnedMapDescriptor) : PM W (list pinOwnerMapIdentity) :=
  match ds with
  | [] => pret []
  | d :: ds =>
      match collection !! md_name d with
      | None => pfail (refusal "BPF collection missing map")
      | Some bpfMap =>
          pin! id := pwrap "inspect collection map: " (pk_mapInfo bpfMap) in
          match id with
          | Some id =>
              refuse id =? 0 with "collection map has no stable ID" in
              pin! rest := collect_identities collection ds in
              pret (mkMapIdentity (md_name d) id :: rest)
          | None => pfail (refusal "collection map has no stable ID")
          end
      end
  end.
Definition ownerMapsFromCollection (collection : gmap string Z) : PM W (list pinOwnerMapIdentity) :=
  pin! maps := collect_identities collection pinnedMapDescriptors in
  pret (sort_by_name maps).

(** [fstatat] where [ENOENT] is an answer. *)
Definition stat_name (name : string) : PM W (option pin_stat) := fun w =>
  match pk_fstatat name w with
  | (inl s, w) => (inl (Some s), w)
  | (inr e, w) => (if pe_noent e then inl None else inr e, w)
  end.
(** The [ids] of a record: the last entry of a name counts, and zero is none. *)
Definition record_id r (name : string) : Z :=
  foldl (fun id m => if String.eqb (om_Name m) name then om_ID m else id) 0 (or_Maps r).
Definition pin_fresh r (collection : gmap string Z) (d : pinnedMapDescriptor) : PM W unit :=
  pin! s := stat_name (md_name d) in
  match s with
  | Some _ => pfail (refusal "fresh canonical map unexpectedly already exists")
  | None =>
      match collection !! md_name d with
      | None => pfail (refusal "fresh owner record does not cover collection map")
      | Some bpfMap =>
          refuse record_id r (md_name d) =? 0 with "fresh owner record does not cover collection map" in
          do! pwrap "pin fresh collection map: " (pcall (pk_pinMap bpfMap (md_name d))) in
          pin! p := validatePinnedMapAt d (md_name d) (record_id r (md_name d)) in
          do! or_close_map_quietly p.2 (if String.eqb (md_name d) "owner_map"
                then pcheck (validateOwnerSentinel (ob_owner p.2) (ob_ownerSeen p.2) r) else pret tt) in
          pcall (pk_close p.2)
      end
  end.
Definition pinFreshCollectionMaps r (collection : gmap string Z) : PM W unit := pfor pinnedMapDescriptors (pin_fresh r collection).

(** ** Staging *)

Definition validateAuthority r (d : pinnedMapDescriptor) (inode : pinPathInodeIdentity) (o : pinnedMapObservation) : option pin_error :=
  match (if String.eqb (md_name d) "owner_map" then validateOwnerSentinel (ob_owner o) (ob_ownerSeen o) r else None) with
  | Some e => Some e
  | None => if String.eqb (md_name d) "control_map"
            then validateOwnerControlGeneration [mkMapPin d inode (Some o)] (or_ActiveGeneration r) else None
  end.
(** The canonical pin of a name: the last in the list. *)
Definition canonicalByName (canonical : list pinnedMapPin) : gmap string pinnedMapPin :=
  foldl (fun m p => <[md_name (mp_descriptor p) := p]> m) ∅ canonical.
(** A canonical pin that can be staged. *)
Definition stage_source (canonical : list pinnedMapPin) (s : pinOwnerMapStage) : option (pinnedMapDescriptor * pinPathInodeIdentity * pinnedMapObservation) :=
  match canonicalByName canonical !! ms_Name s with
  | Some (mkMapPin d i (Some o)) => if ob_pin o && (ob_id o =? ms_MapID s) then Some (d, i, o) else None
  | _ => None
  end.
Definition stage_validated r (d : pinnedMapDescriptor) (s : pinOwnerMapStage) : PM W unit :=
  pin! p := validatePinnedMapAt d (ms_FileName s) (ms_MapID s) in
  do! or_close_map_quietly p.2 (pcheck (validateAuthority r d p.1 p.2)) in
  pcall (pk_close p.2).
(** Whether the stage exists already. *)
Definition preflight_stage r (canonical : list pinnedMapPin) (s : pinOwnerMapStage) : PM W bool :=
  pin! d := (fun w => (ownerMapDescriptor (ms_Name s), w)) in
  pin! st := stat_name (ms_FileName s) in
  match st with
  | Some _ => do! stage_validated r d s in pret true
  | None =>
      match stage_source canonical s with
      | None => if or_ActiveGeneration r =? 0 then pret false else pfail (refusal "canonical owner map is unavailable for staging")
      | Some (d, i, o) => do! pcheck (validateAuthority r d i o) in pret false
      end
  end.
Fixpoint preflight_stages r (canonical : list pinnedMapPin) (l : list pinOwnerMapStage) : PM W (list string) :=
  match l with
  | [] => pret []
  | s :: l =>
      pin! exists_ := preflight_stage r canonical s in
      pin! rest := preflight_stages r canonical l in
      pret (if exists_ : bool then ms_Name s :: rest else rest)
  end.
Definition stage_map r (canonical : list pinnedMapPin) (stageExists : list string) (s : pinOwnerMapStage) : PM W unit :=
  if existsb (String.eqb (ms_Name s)) stageExists then pret tt
  else
    pin! d := (fun w => (ownerMapDescriptor (ms_Name s), w)) in
    match stage_source canonical s with
    | None => if or_ActiveGeneration r =? 0 then pret tt else pfail (refusal "canonical owner map is unavailable for staging")
    | Some (_, _, o) =>
        do! pwrap "stage owner map: " (pcall (pk_pin o (ms_FileName s))) in
        stage_validated r d s
    end.
Definition stageOwnerMaps r (canonical : list pinnedMapPin) : PM W unit :=
  pin! stageExists := preflight_stages r canonical (or_MapStages r) in
  pfor (or_MapStages r) (stage_map r canonical stageExists).

(** ** Loading the stages *)

Definition loadedOwnerMapStages : Type := list (string * pinnedMapObservation).
Fixpoint close_stages (l : loadedOwnerMapStages) (w : W) : option pin_error * W :=
  match l with
  | [] => (None, w)
  | (_, o) :: l =>
      let '(e, w) := pk_close o w in
      let '(e', w) := close_stages l w in
      (match e with Some e => Some (join_pin (wrap_pin "close pinned map: " e) e') | None => e' end, w)
  end.
Definition stages_byName (l : loadedOwnerMapStages) (name : string) : option pinnedMapObservation :=
  foldl (fun o p => if String.eqb p.1 name then Some p.2 else o) None l.
(** [None]: a fresh owner has neither stage nor canonical pin of this map. *)
Definition load_stage r (s : pinOwnerMapStage) : PM W (option pinnedMapObservation) :=
  pin! d := (fun w => (ownerMapDescriptor (ms_Name s), w)) in
  fun w =>
    match validatePinnedMapAt d (ms_FileName s) (ms_MapID s) w with
    | (inl p, w) =>
        (do! or_close_map_quietly p.2 (if String.eqb (md_name d) "owner_map"
               then pcheck (validateOwnerSentinel (ob_owner p.2) (ob_ownerSeen p.2) r) else pret tt) in
         pret (Some p.2)) w
    | (inr e, w) =>
        if (or_ActiveGeneration r =? 0) && pe_noent e
        then match pk_fstatat (ms_Name s) w with
             | (inr ce, w) => if pe_noent ce then (inl None, w) else (inr ce, w)
             | (inl _, w) => (inr (wrap_pin "load owner map stage: " e), w)
             end
        else (inr (wrap_pin "load owner map stage: " e), w)
    end.
Fixpoint load_stages r (loaded : loadedOwnerMapStages) (l : list pinOwnerMapStage) (w : W) : (loadedOwnerMapStages + pin_error) * W :=
  match l with
  | [] => (inl loaded, w)
  | s :: l =>
      match load_stage r s w with
      | (inl (Some o), w) => load_stages r (loaded ++ [(ms_Name s, o)]) l w
      | (inl None, w) => load_stages r loaded l w
      | (inr e, w) => let '(ce, w) := close_stages loaded w in (inr (join_pin e ce), w)
      end
  end.
Definition loadOwnerMapStages r : PM W loadedOwnerMapStages := load_stages r [] (or_MapStages r).

(** ** Unlinking *)

Definition unlinkValidatedOwnerMap (d : pinnedMapDescriptor) (fileName : string) (mapID : Z) : PM W unit :=
  pin! p := validatePinnedMapAt d fileName mapID in
  do! pcall (pk_close p.2) in
  do! pwrap "map pin unlink hook: " (pcall (pk_beforePinUnlink fileName)) in
  pin! q := pwrap "map pin changed at unlink hook: " (validatePinnedMapAt d fileName mapID) in
  do! or_close_map_quietly q.2 (refuse negb (samePinPathInode p.1 q.1) with "map pin changed at unlink hook" in pret tt) in
  do! pcall (pk_close q.2) in
  pwrap "unlink owner map pin: " (pcall (pk_unlink fileName)).
(** Rename to the retired name, then unlink that. *)
Definition quarantine_and_unlink (d : pinnedMapDescriptor) (name retiredName : string) (mapID : Z) : PM W unit :=
  pin! p := validatePinnedMapAt d name mapID in
  do! pcall (pk_close p.2) in
  do! pwrap "quarantine hook: " (pcall (pk_beforePinQuarantine name)) in
  pin! q := pwrap "changed at quarantine hook: " (validatePinnedMapAt d name mapID) in
  do! or_close_map_quietly q.2 (refuse negb (samePinPathInode p.1 q.1) with "changed at quarantine hook" in pret tt) in
  do! pcall (pk_close q.2) in
  do! pwrap "quarantine owner map: " (pcall (pk_renameNoReplace name retiredName)) in
  unlinkValidatedOwnerMap d retiredName mapID.

Definition preflight_removal r (stages : loadedOwnerMapStages) (s : pinOwnerMapStage) : PM W unit :=
  pin! d := (fun w => (ownerMapDescriptor (ms_Name s), w)) in
  pin! retired := existingOwnerRetiredName (ownerCanonicalMapRetiredNames r (ms_FileName s)) in
  pin! canonical := (fun w =>
    match pk_fstatat (ms_Name s) w with
    | (inl _, w) => (match retired with Some _ => inr (refusal "both canonical and retired owner map exist") | None => inl true end, w)
    | (inr e, w) => (if pe_noent e then inl false else inr e, w)
    end) in
  match stages_byName stages (ms_Name s) with
  | Some o =>
      if ob_id o =? ms_MapID s
      then if canonical : bool then validate_and_close d (ms_Name s) (ms_MapID s)
           else match retired with Some n => validate_and_close d n (ms_MapID s) | None => pret tt end
      else if (or_ActiveGeneration r =? 0) && negb canonical && negb (bool_decide (is_Some retired)) then pret tt
           else pfail (refusal "owner map stage is unavailable")
  | None => if (or_ActiveGeneration r =? 0) && negb canonical && negb (bool_decide (is_Some retired)) then pret tt
            else pfail (refusal "owner map stage is unavailable")
  end.
Definition remove_canonical r (s : pinOwnerMapStage) : PM W unit :=
  pin! d := (fun w => (ownerMapDescriptor (ms_Name s), w)) in
  pin! retired := existingOwnerRetiredName (ownerCanonicalMapRetiredNames r (ms_FileName s)) in
  match retired with
  | Some n => unlinkValidatedOwnerMap d n (ms_MapID s)
  | None =>
      pin! st := stat_name (ms_Name s) in
      match st with
      | None => pret tt
      | Some _ => quarantine_and_unlink d (ms_Name s) (ms_FileName s +:+ "-canonical-retired") (ms_MapID s)
      end
  end.
Definition removeCanonicalOwnerMaps r (stages : loadedOwnerMapStages) : PM W unit :=
  do! pfor (or_MapStages r) (preflight_removal r stages) in
  pfor (or_MapStages r) (remove_canonical r).

(** ** Restoring *)

Definition restore_stage r (stages : loadedOwnerMapStages) (s : pinOwnerMapStage) : PM W unit :=
  pin! d := (fun w => (ownerMapDescriptor (ms_Name s), w)) in
  match stages_byName stages (ms_Name s) with
  | Some o =>
      refuse negb (ob_id o =? ms_MapID s) || negb (ob_pin o) with "owner map stage cannot restore canonical pin" in
      pin! st := stat_name (ms_Name s) in
      do! (match st with Some _ => pret tt | None => pwrap "restore canonical owner map: " (pcall (pk_pin o (ms_Name s))) end) in
      do! validate_and_close d (ms_Name s) (ms_MapID s) in
      pin! retired := existingOwnerRetiredName (ownerCanonicalMapRetiredNames r (ms_FileName s)) in
      match retired with Some n => unlinkValidatedOwnerMap d n (ms_MapID s) | None => pret tt end
  | None => pfail (refusal "owner map stage cannot restore canonical pin")
  end.
(** Every stage is tried; the errors are joined. *)
Fixpoint restore_stages r (stages : loadedOwnerMapStages) (l : list pinOwnerMapStage) (w : W) : option pin_error * W :=
  match l with
  | [] => (None, w)
  | s :: l =>
      let '(res, w) := restore_stage r stages s w in
      let '(e, w) := restore_stages r stages l w in
      (match res with inr e0 => Some (join_pin e0 e) | inl _ => e end, w)
  end.
Definition restoreCanonicalOwnerMaps r (stages : loadedOwnerMapStages) (w : W) : option pin_error * W :=
  restore_stages r stages (or_MapStages r) w.

(** ** Removing the stages *)

(** [owner_map] goes last (the first of that name). *)
Fixpoint take_owner (l : list pinOwnerMapStage) : option pinOwnerMapStage * list pinOwnerMapStage :=
  match l with
  | [] => (None, [])
  | s :: l => if String.eqb (ms_Name s) "owner_map" then (Some s, l)
              else let '(o, l) := take_owner l in (o, s :: l)
  end.
Definition owner_last (l : list pinOwnerMapStage) : list pinOwnerMapStage :=
  match take_owner l with (Some s, l) => l ++ [s] | (None, l) => l end.
Definition remove_stage r (s : pinOwnerMapStage) : PM W unit :=
  pin! d := (fun w => (ownerMapDescriptor (ms_Name s), w)) in
  fun w =>
    let '(stageErr, w) := pk_fstatat (ms_FileName s) w in
    (pin! retired := existingOwnerRetiredName (ownerMapRetiredNames r (ms_FileName s)) in
     match stageErr, retired with
     | inl _, Some _ => pfail (refusal "both active and retired map stage exist")
     | inr e, _ =>
         if negb (pe_noent e) then pfail e
         else match retired with
              | Some n => unlinkValidatedOwnerMap d n (ms_MapID s)
              | None => pret tt
              end
     | inl _, None => quarantine_and_unlink d (ms_FileName s) (ms_FileName s +:+ "-retired") (ms_MapID s)
     end) w.
Definition removeOwnerMapStages r : PM W unit := pfor (owner_last (or_MapStages r)) (remove_stage r).
End transaction.
