(* ===== verification/PinMapsProps.v ===== *)
(** * The pinned maps of a detach: no map is lost

    [PinLaws] says what the calls do to the pin directory, which only the holder of
    the pin-path lock changes.  A call may fail at any time without effect, so that
    the world a failing run leaves is also what a crash at that call leaves. *)
From Stdlib Require Import ZArith Lia Ascii String.
From stdpp Require Import base option list gmap strings numbers.
From S2P Require Import Prelude Abi AbiSnapshot PinMaps.
#[local] Open Scope pin_scope.

(** The names of the pin directory with the map each pins. *)
Class PinView (W : Type) := { pv_dir : W -> gmap string Z }.
Class PinLaws (W : Type) {Hk : PinKernel W} {Hv : PinView W} := {
  pl_fstatat n w : let '(r, w') := pk_fstatat n w in pv_dir w' = pv_dir w /\
    match r with inl _ => is_Some (pv_dir w !! n) | inr e => pe_noent e = true -> pv_dir w !! n = None end;
  pl_mountIDAt n w : pv_dir (pk_mountIDAt n w).2 = pv_dir w;
  pl_load n k w : let '(r, w') := pk_loadPinnedMap n k w in pv_dir w' = pv_dir w /\
    match r with inl o => pv_dir w !! n = Some (ob_id o) | inr _ => True end;
  pl_close o w : pv_dir (pk_close o w).2 = pv_dir w;
  pl_pin o n w : let '(e, w') := pk_pin o n w in
    match e with None => pv_dir w !! n = None /\ pv_dir w' = <[n := ob_id o]> (pv_dir w) | Some _ => pv_dir w' = pv_dir w end;
  pl_rename a b w : let '(e, w') := pk_renameNoReplace a b w in
    match e with
    | None => pv_dir w !! b = None /\ exists id, pv_dir w !! a = Some id /\ pv_dir w' = <[b := id]> (delete a (pv_dir w))
    | Some _ => pv_dir w' = pv_dir w
    end;
  pl_unlink n w : let '(e, w') := pk_unlink n w in
    match e with None => pv_dir w' = delete n (pv_dir w) | Some _ => pv_dir w' = pv_dir w end;
  pl_readDir w : let '(r, w') := pk_readDir w in pv_dir w' = pv_dir w /\
    match r with inl l => (length l <= 256)%nat -> forall n, n ∈ l <-> is_Some (pv_dir w !! n) | inr _ => True end;
  pl_quarantine n w : pv_dir (pk_beforePinQuarantine n w).2 = pv_dir w;
  pl_before_unlink n w : pv_dir (pk_beforePinUnlink n w).2 = pv_dir w;
  pl_mapInfo m w : pv_dir (pk_mapInfo m w).2 = pv_dir w;
  pl_pinMap m n w : let '(e, w') := pk_pinMap m n w in
    match e with None => pv_dir w !! n = None /\ exists id, pv_dir w' = <[n := id]> (pv_dir w) | Some _ => pv_dir w' = pv_dir w end
}.

(** ** Weakest preconditions *)

Definition pwp {W A} (m : PM W A) (Q : A -> W -> Prop) (E : W -> Prop) (w : W) : Prop :=
  match m w with (inl a, w') => Q a w' | (inr _, w') => E w' end.

Section wp.
Context {W : Type} {Hk : PinKernel W} {Hv : PinView W} {Hl : PinLaws W}.
Implicit Types w : W.

Lemma pwp_ret {A} (a : A) (Q : A -> W -> Prop) E w : Q a w -> pwp (pret a) Q E w.
Proof. done. Qed.
Lemma pwp_fail {A} e (Q : A -> W -> Prop) (E : W -> Prop) w : E w -> pwp (pfail e) Q E w.
Proof. done. Qed.
Lemma pwp_bind {A B} (m : PM W A) (k : A -> PM W B) Q E w : pwp m (fun a w' => pwp (k a) Q E w') E w -> pwp (pbind m k) Q E w.
Proof. unfold pwp, pbind. by destruct (m w) as [[a|e] w']. Qed.
Lemma pwp_mono {A} (m : PM W A) (Q Q' : A -> W -> Prop) (E E' : W -> Prop) w :
  pwp m Q E w -> (forall a w', Q a w' -> Q' a w') -> (forall w', E w' -> E' w') -> pwp m Q' E' w.
Proof. unfold pwp. destruct (m w) as [[a|e] w']; auto. Qed.
Lemma pwp_wrap {A} p (m : PM W A) Q E w : pwp m Q E w -> pwp (pwrap p m) Q E w.
Proof. unfold pwp, pwrap. by destruct (m w) as [[a|e] w']. Qed.
Lemma pwp_refuse {A} (b : bool) e (k : PM W A) Q (E : W -> Prop) w :
  (b = false -> pwp k Q E w) -> (b = true -> E w) -> pwp (refuse b with e in k) Q E w.
Proof. destruct b; intros HQ HE; [by apply HE|by apply HQ]. Qed.

(** Steps that leave the directory alone. *)
Definition steady {A} (m : PM W A) : Prop := forall w, pv_dir (m w).2 = pv_dir w.
Lemma pwp_steady {A} (m : PM W A) (Q : A -> W -> Prop) (E : W -> Prop) d w : pv_dir w = d -> steady m -> (forall w', pv_dir w' = d -> E w') ->
  (forall a w', m w = (inl a, w') -> pv_dir w' = d -> Q a w') -> pwp m Q E w.
Proof.
  intros <- Hs HE HQ. unfold pwp. specialize (Hs w). destruct (m w) as [[a|e] w'] eqn:Em; cbn in Hs; [|by apply HE]. by apply HQ.
Qed.
Lemma steady_ret {A} (a : A) : steady (pret a).
Proof. done. Qed.
Lemma steady_fail {A} e : steady (A := A) (pfail e).
Proof. done. Qed.
Lemma steady_pure {A} (x : A + pin_error) : steady (fun w => (x, w)).
Proof. done. Qed.
Lemma steady_check e : steady (pcheck e).
Proof. done. Qed.
Lemma steady_bind {A B} (m : PM W A) (k : A -> PM W B) : steady m -> (forall a, steady (k a)) -> steady (pbind m k).
Proof.
  intros Hm HK w. unfold pbind. specialize (Hm w). destruct (m w) as [[a|e] w']; cbn in Hm; [|done]. by rewrite HK.
Qed.
Lemma steady_call f : (forall w, pv_dir (f w).2 = pv_dir w) -> steady (pcall f).
Proof. intros Hf w. unfold pcall. specialize (Hf w). by destruct (f w) as [[e|] w']. Qed.
Lemma steady_wrap {A} p (m : PM W A) : steady m -> steady (pwrap p m).
Proof. intros Hm w. unfold pwrap. specialize (Hm w). by destruct (m w) as [r w']. Qed.
Lemma steady_refuse {A} (b : bool) e (k : PM W A) : steady k -> steady (refuse b with e in k).
Proof. by destruct b. Qed.
Lemma steady_or_close o m : steady m -> steady (or_close_map o m).
Proof.
  intros Hm w. unfold or_close_map. specialize (Hm w). destruct (m w) as [[a|e] w']; cbn in Hm; [done|].
  pose proof (pl_close o w') as Hc. destruct (pk_close o w'); cbn in *. congruence.
Qed.
Lemma steady_or_close_quietly o m : steady m -> steady (or_close_map_quietly o m).
Proof.
  intros Hm w. unfold or_close_map_quietly. specialize (Hm w). destruct (m w) as [[a|e] w']; cbn in Hm; [done|]. cbn. by rewrite pl_close.
Qed.
Lemma steady_fstatat n : steady (pk_fstatat n).
Proof. intros w. pose proof (pl_fstatat n w) as H. by destruct (pk_fstatat n w) as [r w']; destruct H. Qed.
Lemma steady_load n k : steady (pk_loadPinnedMap n k).
Proof. intros w. pose proof (pl_load n k w) as H. by destruct (pk_loadPinnedMap n k w) as [r w']; destruct H. Qed.
Lemma steady_mount n : steady (pk_mountIDAt n).
Proof. intros w. apply pl_mountIDAt. Qed.
Lemma steady_readDir : steady pk_readDir.
Proof. intros w. pose proof (pl_readDir w) as H. by destruct (pk_readDir w) as [r w']; destruct H. Qed.
Lemma steady_stat n : steady (stat_name n).
Proof.
  intros w. unfold stat_name. pose proof (steady_fstatat n w) as H. destruct (pk_fstatat n w) as [[s|e] w']; cbn in *; [done|].
  by destruct (pe_noent e).
Qed.
End wp.
Create HintDb pins.
#[export] Hint Resolve steady_ret steady_fail steady_pure steady_check steady_bind steady_call steady_wrap steady_refuse steady_or_close
  steady_or_close_quietly steady_fstatat steady_load steady_mount steady_readDir steady_stat pl_close pl_quarantine pl_before_unlink
  pl_mapInfo : pins.

(** ** The single operations *)

Section operations.
Context {W : Type} {Hk : PinKernel W} {Hv : PinView W} {Hl : PinLaws W}.
Implicit Types w : W.
Implicit Types d : pinnedMapDescriptor.

Lemma steady_validate d n id : steady (validatePinnedMapAt d n id).
Proof. unfold validatePinnedMapAt. auto 30 with pins. Qed.
Lemma steady_validate_close d n id : steady (validate_and_close d n id).
Proof. unfold validate_and_close. auto using steady_validate with pins. Qed.
(** A validated pin is of the expected map. *)
Lemma validate_id d n id w p w' : validatePinnedMapAt d n id w = (inl p, w') -> pv_dir w !! n = Some id /\ ob_id p.2 = id.
Proof.
  intros H. assert (pwp (validatePinnedMapAt d n id) (fun q _ => pv_dir w !! n = Some id /\ ob_id q.2 = id) (fun _ => True) w) as Hp;
    [|unfold pwp in Hp; by rewrite H in Hp].
  unfold validatePinnedMapAt. apply pwp_refuse; [intros _|done].
  apply pwp_bind; eapply pwp_steady; [done|auto with pins|done|]. intros st w1 _ E1. apply pwp_refuse; [intros _|done].
  apply pwp_bind; eapply pwp_steady; [done|auto with pins|done|]. intros mid w2 _ E2. apply pwp_refuse; [intros _|done].
  apply pwp_bind. unfold pwp at 1. pose proof (pl_load n (md_name d) w2) as Hld.
  destruct (pk_loadPinnedMap n (md_name d) w2) as [[o|e] w3]; [|done]. destruct Hld as [E3 Ho]. rewrite E2 in Ho.
  apply pwp_bind; eapply pwp_steady; [done|auto with pins|done|]. intros _ w4 _ _.
  apply pwp_bind. unfold pwp at 1, or_close_map at 1. destruct (ob_id o =? id) eqn:Eid; cbn; [|by destruct (pk_close o w4)].
  apply Z.eqb_eq in Eid. apply pwp_bind; eapply pwp_steady; [done|auto 12 with pins|done|]. intros _ w5 _ _. apply pwp_ret.
  cbn. split; [by rewrite Ho, Eid|done].
Qed.
Lemma validate_close_id d n id w x w' : validate_and_close d n id w = (inl x, w') -> pv_dir w !! n = Some id.
Proof.
  unfold validate_and_close, pbind. pose proof (validate_id d n id w) as H. destruct (validatePinnedMapAt d n id w) as [[p|e] w1]; [|done].
  intros _. by destruct (H _ _ eq_refl).
Qed.
Lemma stat_none n w w' : stat_name n w = (inl None, w') -> pv_dir w !! n = None.
Proof.
  unfold stat_name. pose proof (pl_fstatat n w) as H. destruct (pk_fstatat n w) as [[s|e] w1]; [done|]. destruct H as [_ H].
  destruct (pe_noent e); [by auto|done].
Qed.
Lemma stat_some n w s w' : stat_name n w = (inl (Some s), w') -> is_Some (pv_dir w !! n).
Proof.
  unfold stat_name. pose proof (pl_fstatat n w) as H. destruct (pk_fstatat n w) as [[s'|e] w1]; [by destruct H|]. by destruct (pe_noent e).
Qed.

Definition unlinked (n : string) (id : Z) (m : gmap string Z) (x : unit + pin_error) (m' : gmap string Z) : Prop :=
  match x with inl _ => m !! n = Some id /\ m' = delete n m | inr _ => m' = m end.
Lemma unlink_spec d n id w : let '(x, w') := unlinkValidatedOwnerMap d n id w in unlinked n id (pv_dir w) x (pv_dir w').
Proof.
  assert (pwp (unlinkValidatedOwnerMap d n id) (fun _ w' => pv_dir w !! n = Some id /\ pv_dir w' = delete n (pv_dir w))
    (fun w' => pv_dir w' = pv_dir w) w) as H; [|unfold pwp in H; by destruct (unlinkValidatedOwnerMap d n id w) as [[[]|e] w']].
  unfold unlinkValidatedOwnerMap. apply pwp_bind; eapply pwp_steady; [done|apply steady_validate|done|]. intros p w1 Hp E1.
  apply validate_id in Hp as [Hp _]. apply pwp_bind; eapply pwp_steady; [done|auto with pins|congruence|]. intros _ w2 _ E2.
  apply pwp_bind; eapply pwp_steady; [done|auto with pins|congruence|]. intros _ w3 _ E3.
  apply pwp_bind; eapply pwp_steady; [done|auto using steady_validate with pins|congruence|]. intros q w4 _ E4.
  apply pwp_bind; eapply pwp_steady; [done|auto with pins|congruence|]. intros _ w5 _ E5.
  apply pwp_bind; eapply pwp_steady; [done|auto with pins|congruence|]. intros _ w6 _ E6.
  apply pwp_wrap. unfold pwp, pcall. pose proof (pl_unlink n w6) as Hu. destruct (pk_unlink n w6) as [[e|] w7]; [congruence|].
  split; [done|]. congruence.
Qed.
(** On failure the pin is where it was or under its retired name. *)
Definition quarantined (a b : string) (id : Z) (m : gmap string Z) (x : unit + pin_error) (m' : gmap string Z) : Prop :=
  match x with
  | inl _ => m !! a = Some id /\ m !! b = None /\ m' = delete a m
  | inr _ => m' = m \/ m !! a = Some id /\ m !! b = None /\ m' = <[b := id]> (delete a m)
  end.
Lemma quarantine_spec d a b id w : a <> b -> let '(x, w') := quarantine_and_unlink d a b id w in quarantined a b id (pv_dir w) x (pv_dir w').
Proof.
  intros Hab. assert (pwp (quarantine_and_unlink d a b id) (fun _ w' => quarantined a b id (pv_dir w) (inl tt) (pv_dir w'))
    (fun w' => quarantined a b id (pv_dir w) (inr (refusal "")) (pv_dir w')) w) as H;
    [|unfold pwp in H; by destruct (quarantine_and_unlink d a b id w) as [[[]|e] w']].
  assert (forall w', pv_dir w' = pv_dir w -> quarantined a b id (pv_dir w) (inr (refusal "")) (pv_dir w')) as Hsame by (by left).
  unfold quarantine_and_unlink. apply pwp_bind; eapply pwp_steady; [done|apply steady_validate|done|]. intros p w1 Hp E1.
  apply validate_id in Hp as [Hp _]. apply pwp_bind; eapply pwp_steady; [exact E1|auto with pins|done|]. intros _ w2 _ E2.
  apply pwp_bind; eapply pwp_steady; [exact E2|auto with pins|done|]. intros _ w3 _ E3.
  apply pwp_bind; eapply pwp_steady; [exact E3|auto using steady_validate with pins|done|]. intros q w4 _ E4.
  apply pwp_bind; eapply pwp_steady; [exact E4|auto with pins|done|]. intros _ w5 _ E5.
  apply pwp_bind; eapply pwp_steady; [exact E5|auto with pins|done|]. intros _ w6 _ E6.
  apply pwp_bind, pwp_wrap. unfold pwp at 1, pcall. pose proof (pl_rename a b w6) as Hr.
  destruct (pk_renameNoReplace a b w6) as [[e|] w7]; [apply Hsame; congruence|]. rewrite E6 in Hr. destruct Hr as (Hb & id' & Ha & E7).
  rewrite Hp in Ha. injection Ha as <-. unfold pwp. pose proof (unlink_spec d b id w7) as Hu.
  destruct (unlinkValidatedOwnerMap d b id w7) as [[[]|e] w8]; cbn in Hu |- *.
  - destruct Hu as [_ ->]. rewrite E7. split_and!; [done..|]. apply delete_insert_id. by rewrite lookup_delete_ne.
  - right. by rewrite Hu, E7.
Qed.
End operations.

(** ** What an operation may change *)

(** Only pins of the map [id] under the names [K] come and go. *)
Definition moved (K : list string) (id : Z) (m m' : gmap string Z) : Prop :=
  (forall n, n ∉ K -> m' !! n = m !! n) /\
  (forall n j, m !! n = Some j -> j <> id -> m' !! n = Some j) /\
  (forall n j, m' !! n = Some j -> j = id \/ m !! n = Some j).
Lemma moved_refl K id m : moved K id m m.
Proof. split_and!; auto. Qed.
Lemma moved_trans K id m1 m2 m3 : moved K id m1 m2 -> moved K id m2 m3 -> moved K id m1 m3.
Proof.
  intros (A1 & B1 & C1) (A2 & B2 & C2). split_and!.
  - intros n Hn. by rewrite A2, A1.
  - auto.
  - intros n j Hj. destruct (C2 _ _ Hj); auto.
Qed.
Lemma moved_delete (K : list string) id m n : n ∈ K -> m !! n = Some id -> moved K id m (delete n m).
Proof.
  intros Hn Hid. split_and!.
  - intros n' Hn'. apply lookup_delete_ne. by intros ->.
  - intros n' j Hj Hne. rewrite lookup_delete_ne; [done|]. intros <-. congruence.
  - intros n' j [_ Hj]%lookup_delete_Some. by right.
Qed.
Lemma moved_insert (K : list string) id m n : n ∈ K -> m !! n = None -> moved K id m (<[n := id]> m).
Proof.
  intros Hn Hid. split_and!.
  - intros n' Hn'. apply lookup_insert_ne. by intros ->.
  - intros n' j Hj Hne. rewrite lookup_insert_ne; [done|]. intros <-. congruence.
  - intros n' j [[_ ->]|[_ Hj]]%lookup_insert_Some; [by left|by right].
Qed.
Lemma moved_unlinked (K : list string) id m n x m' : n ∈ K -> unlinked n id m x m' -> moved K id m m'.
Proof. intros Hn H. destruct x; cbn in H; [destruct H as [Hid ->]; by apply moved_delete|rewrite H; apply moved_refl]. Qed.
Lemma moved_quarantined (K : list string) id m a b x m' : a ∈ K -> b ∈ K -> quarantined a b id m x m' -> moved K id m m'.
Proof.
  intros Ha Hb H. destruct x; cbn in H.
  - destruct H as (Hid & _ & ->). by apply moved_delete.
  - destruct H as [->|(Hid & Hn & ->)]; [apply moved_refl|]. apply (moved_trans _ _ _ (delete a m)); [by apply moved_delete|]. apply moved_insert; [done|].
    apply lookup_delete_None. by right.
Qed.

(** The same for a list of stages with names of their own. *)
Definition edits (K : pinOwnerMapStage -> list string) (l : list pinOwnerMapStage) (m m' : gmap string Z) : Prop :=
  (forall n, (forall s, s ∈ l -> n ∉ K s) -> m' !! n = m !! n) /\
  forall s n, s ∈ l -> n ∈ K s -> (forall j, m !! n = Some j -> j <> ms_MapID s -> m' !! n = Some j) /\
    forall j, m' !! n = Some j -> j = ms_MapID s \/ m !! n = Some j.
Definition disjoint_names (K : pinOwnerMapStage -> list string) (l : list pinOwnerMapStage) : Prop :=
  NoDup l /\ forall s s' n, s ∈ l -> s' ∈ l -> n ∈ K s -> n ∈ K s' -> s = s'.
Lemma disjoint_cons K s l : disjoint_names K (s :: l) -> disjoint_names K l /\ forall s' n, s' ∈ l -> n ∈ K s -> n ∉ K s'.
Proof.
  intros [Hnd Hd]. apply list.NoDup_cons in Hnd as [Hs Hnd]. split.
  - split; [done|]. intros s1 s2 n H1 H2. apply Hd; by right.
  - intros s' n Hs' Hn Hn'. assert (s = s') as -> by (eapply (Hd s s' n); [left|by right|done..]). done.
Qed.
Lemma edits_refl K l m : edits K l m m.
Proof. split; auto. Qed.
Lemma edits_cons K s l m1 m2 m3 : disjoint_names K (s :: l) -> moved (K s) (ms_MapID s) m1 m2 -> edits K l m2 m3 ->
  edits K (s :: l) m1 m3 /\ forall n, n ∈ K s -> m3 !! n = m2 !! n.
Proof.
  intros Hd (A & B & C) [F G]. destruct (disjoint_cons _ _ _ Hd) as [_ Hx].
  assert (forall n, n ∈ K s -> m3 !! n = m2 !! n) as Hs by (intros n Hn; apply F; intros s' Hs' Hn'; by eapply Hx).
  split; [split|done].
  - intros n Hn. rewrite F, A; [done| |].
    + apply Hn. left.
    + intros s' Hs'. apply Hn. by right.
  - intros s' n [->|Hs']%elem_of_cons Hn.
    + rewrite Hs by done. split; [by eauto|]. by eauto.
    + assert (m2 !! n = m1 !! n) as E by (apply A; intros Hn'; by eapply Hx). rewrite <- E. by apply G.
Qed.

Section loops.
Context {W : Type} {Hv : PinView W}.
Context (K : pinOwnerMapStage -> list string) (pre post : pinOwnerMapStage -> gmap string Z -> Prop)
  (always : pinOwnerMapStage -> gmap string Z -> gmap string Z -> Prop).
(** What is said of a stage depends on its own names only. *)
Definition agree (s : pinOwnerMapStage) (m m' : gmap string Z) : Prop := forall n, n ∈ K s -> m' !! n = m !! n.
Hypothesis pre_local : forall s m m', agree s m m' -> pre s m -> pre s m'.
Hypothesis post_local : forall s m m', agree s m m' -> post s m -> post s m'.
Hypothesis always_local : forall s m1 m2 m1' m2', agree s m1 m1' -> agree s m2 m2' -> always s m1 m2 -> always s m1' m2'.
Hypothesis always_refl : forall s m, always s m m.
Definition stage_result (s : pinOwnerMapStage) (m : gmap string Z) (x : unit + pin_error) (m' : gmap string Z) : Prop :=
  moved (K s) (ms_MapID s) m m' /\ always s m m' /\ (x = inl tt -> post s m').
Definition stages_result (l : list pinOwnerMapStage) (m : gmap string Z) (ok : Prop) (m' : gmap string Z) : Prop :=
  edits K l m m' /\ (forall s, s ∈ l -> always s m m') /\ (ok -> forall s, s ∈ l -> post s m').

Lemma moved_agree s s' m m' l : disjoint_names K (s :: l) -> s' ∈ l -> moved (K s) (ms_MapID s) m m' -> agree s' m m'.
Proof.
  intros Hd Hs' (A & _) n Hn. apply A. intros Hn'. destruct (disjoint_cons _ _ _ Hd) as [_ Hx]. by eapply Hx.
Qed.
Lemma stages_result_cons s l m1 x m2 ok m3 : disjoint_names K (s :: l) -> stage_result s m1 x m2 -> stages_result l m2 ok m3 ->
  stages_result (s :: l) m1 (x = inl tt /\ ok) m3.
Proof.
  intros Hd (Hm & Ha & Hp) (He & Hal & Hpo). destruct (edits_cons _ _ _ _ _ _ Hd Hm He) as [He' Hs]. split_and!; [done|..].
  - intros s' [->|Hs']%elem_of_cons; [by eapply always_local; [|exact Hs|exact Ha]|].
    eapply always_local; [|by intros n _|by apply Hal]. intros n Hn. symmetry. by eapply (moved_agree s s' _ _ l).
  - intros [-> Hok] s' [->|Hs']%elem_of_cons; [by eapply post_local; [exact Hs|auto]|by auto].
Qed.
Lemma stages_result_nil m ok : stages_result [] m ok m.
Proof. split_and!; [apply edits_refl|..]; [|intros _]; intros s Hs; by apply not_elem_of_nil in Hs. Qed.
Lemma stages_result_idle l m : stages_result l m False m.
Proof. split_and!; [apply edits_refl|by auto|done]. Qed.
Lemma stages_result_mono l m (ok ok' : Prop) m' : (ok' -> ok) -> stages_result l m ok m' -> stages_result l m ok' m'.
Proof. intros H (? & ? & ?). split_and!; auto. Qed.
Lemma pre_rest s l m m' : disjoint_names K (s :: l) -> moved (K s) (ms_MapID s) m m' -> (forall s', s' ∈ l -> pre s' m) ->
  forall s', s' ∈ l -> pre s' m'.
Proof. intros Hd Hm Hp s' Hs'. eapply pre_local; [|by apply Hp]. by eapply moved_agree. Qed.
Lemma pfor_spec f l w : (forall s w, s ∈ l -> pre s (pv_dir w) -> let '(x, w') := f s w in stage_result s (pv_dir w) x (pv_dir w')) ->
  disjoint_names K l -> (forall s, s ∈ l -> pre s (pv_dir w)) ->
  let '(x, w') := pfor l f w in stages_result l (pv_dir w) (x = inl tt) (pv_dir w').
Proof.
  revert w. induction l as [|s l IH]; intros w Hf Hd Hp; cbn [pfor]; [apply stages_result_nil|].
  pose proof (Hf s w (list_elem_of_here _ _) (Hp s (list_elem_of_here _ _))) as H1. unfold pbind. destruct (disjoint_cons _ _ _ Hd) as [Hd' _].
  destruct (f s w) as [[[]|e] w1].
  - pose proof (IH w1 (fun s' w' Hs' => Hf s' w' (list_elem_of_further _ _ _ Hs')) Hd') as H2.
    assert (forall s', s' ∈ l -> pre s' (pv_dir w1)) as Hp1.
    { destruct H1 as [Hm _]. eapply pre_rest; [done..|]. intros; apply Hp; by right. }
    specialize (H2 Hp1). destruct (pfor l f w1) as [x w2]. eapply stages_result_mono; [|by eapply stages_result_cons]. done.
  - eapply stages_result_mono; [|eapply stages_result_cons; [done..|apply stages_result_idle]]. done.
Qed.
End loops.

(** ** The names of a record *)

Definition canon_names (r : pinOwnerRecord) (s : pinOwnerMapStage) : list string := ms_Name s :: ownerCanonicalMapRetiredNames r (ms_FileName s).
Definition stage_names (r : pinOwnerRecord) (s : pinOwnerMapStage) : list string := ms_FileName s :: ownerMapRetiredNames r (ms_FileName s).
Definition record_names (r : pinOwnerRecord) (s : pinOwnerMapStage) : list string := canon_names r s ++ stage_names r s.
Definition names_apart (r : pinOwnerRecord) : Prop := NoDup (concat (map (record_names r) (or_MapStages r))).

Lemma NoDup_concat_same {A B} (f : A -> list B) l a a' n : NoDup (concat (map f l)) -> a ∈ l -> a' ∈ l -> n ∈ f a -> n ∈ f a' -> a = a'.
Proof.
  induction l as [|x l IH]; cbn; intros Hnd Ha Ha' Hn Hn'; [by apply not_elem_of_nil in Ha|].
  apply list.NoDup_app in Hnd as (_ & Hx & Hnd).
  assert (forall y, y ∈ l -> n ∈ f y -> n ∈ concat (map f l)) as Hc.
  { intros y Hy Hny. apply list_elem_of_In, in_concat. exists (f y). split; [by apply in_map, list_elem_of_In|by apply list_elem_of_In]. }
  apply elem_of_cons in Ha as [->|Ha], Ha' as [->|Ha']; try done; [|by destruct (Hx n Hn'); eauto|by apply IH].
  destruct (Hx n Hn); eauto.
Qed.
Lemma NoDup_concat_list {A B} (f : A -> list B) l : (forall a, f a <> []) -> NoDup (concat (map f l)) -> NoDup l /\ forall a, a ∈ l -> NoDup (f a).
Proof.
  intros Hne. induction l as [|x l IH]; cbn; intros Hnd; [split; [constructor|]; intros a Ha; by apply not_elem_of_nil in Ha|].
  apply list.NoDup_app in Hnd as (Hx & Hd & Hnd). destruct (IH Hnd) as [Hl Hf]. split.
  - apply list.NoDup_cons. split; [|done]. intros Hin. destruct (f x) as [|n ns] eqn:E; [by destruct (Hne x)|]. apply (Hd n); [left|].
    apply list_elem_of_In, in_concat. exists (f x). split; [by apply in_map, list_elem_of_In|]. apply list_elem_of_In. rewrite E. left.
  - intros a [->|Ha]%elem_of_cons; [done|by auto].
Qed.
Section names.
Context (r : pinOwnerRecord) (Hr : names_apart r).
Lemma stages_NoDup : NoDup (or_MapStages r) /\ forall s, s ∈ or_MapStages r -> NoDup (record_names r s).
Proof. by apply NoDup_concat_list. Qed.
Lemma record_names_same s s' n : s ∈ or_MapStages r -> s' ∈ or_MapStages r -> n ∈ record_names r s -> n ∈ record_names r s' -> s = s'.
Proof. apply NoDup_concat_same, Hr. Qed.
Lemma canon_stage_disjoint s s' n : s ∈ or_MapStages r -> s' ∈ or_MapStages r -> n ∈ canon_names r s -> n ∉ stage_names r s'.
Proof.
  intros Hs Hs' Hn Hn'. assert (s = s') as -> by (eapply (record_names_same s s' n); [done..|apply elem_of_app; auto|apply elem_of_app; auto]).
  destruct stages_NoDup as [_ Hf]. apply Hf, list.NoDup_app in Hs' as (_ & Hx & _). by apply (Hx n).
Qed.
Lemma disjoint_sub K l : (forall s, K s ⊆ record_names r s) -> l ≡ₚ or_MapStages r -> disjoint_names K l.
Proof.
  intros HK Hp. split; [rewrite Hp; apply stages_NoDup|]. intros s s' n Hs Hs' Hn Hn'. rewrite Hp in Hs, Hs'.
  eapply record_names_same; [done..|by apply HK|by apply HK].
Qed.
Lemma canon_sub s : canon_names r s ⊆ record_names r s.
Proof. intros n Hn. apply elem_of_app. by left. Qed.
Lemma stage_sub s : stage_names r s ⊆ record_names r s.
Proof. intros n Hn. apply elem_of_app. by right. Qed.
Lemma canon_NoDup s : s ∈ or_MapStages r -> NoDup (canon_names r s) /\ NoDup (stage_names r s).
Proof. intros Hs. destruct stages_NoDup as [_ Hf]. apply Hf, list.NoDup_app in Hs as (? & _ & ?). done. Qed.
Lemma owner_last_perm l : owner_last l ≡ₚ l.
Proof.
  unfold owner_last. assert (forall l, let '(o, l') := take_owner l in match o with Some s => s :: l' | None => l' end ≡ₚ l) as H.
  { clear. induction l as [|s l IH]; cbn; [done|]. destruct (String.eqb (ms_Name s) "owner_map"); [done|].
    destruct (take_owner l) as [[o|] l']; rewrite <- IH; [apply Permutation_swap|done]. }
  specialize (H l). destruct (take_owner l) as [[s|] l']; [|done]. rewrite <- H. by rewrite Permutation_app_comm.
Qed.
End names.

Lemma find_wanted_found n wanted entries x : find_wanted (Some n) wanted entries = inl x -> x = Some n /\ forall n', n' ∈ wanted -> n' ∉ entries.
Proof.
  induction entries as [|e entries IH]; cbn; [intros [= <-]; split; [done|]; intros n' _ H; by apply not_elem_of_nil in H|].
  destruct (existsb (String.eqb e) wanted) eqn:E; cbn; [done|]. intros H. destruct (IH H) as [-> Hn]. split; [done|].
  intros n' Hw [->|He]%elem_of_cons; [|by eapply Hn]. apply Bool.not_true_iff_false in E. apply E.
  apply existsb_exists. exists e. split; [by apply list_elem_of_In|apply String.eqb_refl].
Qed.
Lemma find_wanted_spec wanted entries x : find_wanted None wanted entries = inl x ->
  match x with
  | Some n => n ∈ wanted /\ n ∈ entries /\ forall n', n' ∈ wanted -> n' <> n -> n' ∉ entries
  | None => forall n', n' ∈ wanted -> n' ∉ entries
  end.
Proof.
  induction entries as [|e entries IH]; cbn; [intros [= <-]; intros n' _ H; by apply not_elem_of_nil in H|].
  destruct (existsb (String.eqb e) wanted) eqn:E; cbn.
  - apply existsb_exists in E as (y & Hy & ->%String.eqb_eq). intros [-> Hn]%find_wanted_found. split_and!; [by apply list_elem_of_In|left|].
    intros n' Hw Hne [->|He]%elem_of_cons; [done|by eapply Hn].
  - assert (forall n', n' ∈ wanted -> n' <> e) as Hw.
    { intros n' Hw ->. apply Bool.not_true_iff_false in E. apply E, existsb_exists. exists e. split; [by apply list_elem_of_In|apply String.eqb_refl]. }
    intros H. specialize (IH H). destruct x as [n|].
    + destruct IH as (? & ? & Hn). split_and!; [done|by right|]. intros n' Hw' Hne [->|He]%elem_of_cons; [by eapply Hw|by eapply Hn].
    + intros n' Hw' [->|He]%elem_of_cons; [by eapply Hw|by eapply IH].
Qed.

(** ** The operations on one stage *)

Section stages.
Context {W : Type} {Hk : PinKernel W} {Hv : PinView W} {Hl : PinLaws W}.
Implicit Types w : W.
Implicit Types r : pinOwnerRecord.
Implicit Types s : pinOwnerMapStage.

Lemma existing_steady names : steady (existingOwnerRetiredName names).
Proof. unfold existingOwnerRetiredName. auto 10 with pins. Qed.
Lemma existing_spec names w x w' : existingOwnerRetiredName names w = (inl x, w') -> pv_dir w' = pv_dir w /\
  match x with
  | Some n => n ∈ names /\ is_Some (pv_dir w !! n) /\ forall n', n' ∈ names -> n' <> n -> pv_dir w !! n' = None
  | None => forall n, n ∈ names -> pv_dir w !! n = None
  end.
Proof.
  intros H. split; [pose proof (existing_steady names w) as E; by rewrite H in E|].
  unfold existingOwnerRetiredName, pbind, pwrap in H. pose proof (pl_readDir w) as Hd. destruct (pk_readDir w) as [[l|e] w1]; [|done].
  destruct Hd as [_ Hd]. destruct (256 <? length l)%nat eqn:El; [done|]. apply Nat.ltb_ge in El. specialize (Hd El).
  unfold pcheck in H. destruct (check_wanted [] names); [done|]. injection H as H _. apply find_wanted_spec in H.
  assert (forall n, n ∉ l -> pv_dir w !! n = None) as Hnone by (intros n Hn; apply eq_None_not_Some; by rewrite <- Hd).
  destruct x as [n|]; [|by eauto]. destruct H as (Hn & Hin & Ho). split_and!; [done|by apply Hd|by eauto].
Qed.

Definition retired_of r s : list string := ownerCanonicalMapRetiredNames r (ms_FileName s).
Lemma retired_in r s n : n ∈ retired_of r s -> n ∈ canon_names r s.
Proof. intros Hn. by right. Qed.
Definition no_both r s (m : gmap string Z) : Prop := m !! ms_Name s = None \/ forall n, n ∈ retired_of r s -> m !! n = None.
Definition gone (K : list string) (m : gmap string Z) : Prop := forall n, n ∈ K -> m !! n = None.
Definition restored r s (m : gmap string Z) : Prop := m !! ms_Name s = Some (ms_MapID s) /\ gone (retired_of r s) m.

Lemma first_retired r s : (ms_FileName s +:+ "-canonical-retired") ∈ retired_of r s.
Proof. left. Qed.
(** Removing one canonical pin. *)
Lemma remove_canonical_spec r s w : NoDup (canon_names r s) -> no_both r s (pv_dir w) -> let '(x, w') := remove_canonical r s w in
  moved (canon_names r s) (ms_MapID s) (pv_dir w) (pv_dir w') /\ (x = inl tt -> gone (canon_names r s) (pv_dir w')).
Proof.
  intros Hnd Hb. apply list.NoDup_cons in Hnd as [Hnr _]. unfold remove_canonical, pbind at 1. destruct (ownerMapDescriptor (ms_Name s)) as [d|e]; [|split; [apply moved_refl|done]].
  unfold pbind at 1. pose proof (existing_steady (retired_of r s) w) as Es. pose proof (existing_spec (retired_of r s) w) as He. unfold retired_of in He, Es.
  destruct (existingOwnerRetiredName (ownerCanonicalMapRetiredNames r (ms_FileName s)) w) as [[x|e] w1]; cbn in Es; [|rewrite Es; split; [apply moved_refl|done]].
  destruct (He _ _ eq_refl) as [_ Hx]. clear He. destruct x as [n|].
  - destruct Hx as (Hn & Hin & Ho). pose proof (unlink_spec d n (ms_MapID s) w1) as Hu. destruct (unlinkValidatedOwnerMap d n (ms_MapID s) w1) as [x w2].
    rewrite Es in Hu. split; [eapply moved_unlinked; [|exact Hu]; by right|]. intros ->. destruct Hu as [_ ->].
    assert (pv_dir w !! ms_Name s = None) as Hc by (destruct Hb as [?|Hb]; [done|]; destruct Hin as [? Hin]; by rewrite (Hb n Hn) in Hin).
    intros n' [->|Hn']%elem_of_cons; apply lookup_delete_None; [by right|]. destruct (decide (n = n')) as [->|Hne]; [by left|right]. by apply Ho.
  - pose proof (steady_stat (ms_Name s) w1) as Es1. unfold pbind. destruct (stat_name (ms_Name s) w1) as [[[st|]|e] w2] eqn:Est; cbn in Es1.
    + assert (ms_Name s <> ms_FileName s +:+ "-canonical-retired") as Hne by (intros E; apply Hnr; rewrite E; apply first_retired).
      pose proof (quarantine_spec d (ms_Name s) (ms_FileName s +:+ "-canonical-retired") (ms_MapID s) w2 Hne) as Hq.
      destruct (quarantine_and_unlink d (ms_Name s) (ms_FileName s +:+ "-canonical-retired") (ms_MapID s) w2) as [x w3]. rewrite Es1, Es in Hq.
      split; [eapply moved_quarantined; [left|right; left|exact Hq]|]. intros ->. destruct Hq as (_ & _ & ->).
      intros n' [->|Hn']%elem_of_cons; apply lookup_delete_None; [by left|right]. by apply Hx.
    + cbn -[canon_names]. rewrite Es1, Es. split; [apply moved_refl|]. intros _ n' [->|Hn']%elem_of_cons; [|by apply Hx]. apply stat_none in Est. by rewrite <- Es.
    + cbn -[canon_names]. rewrite Es1, Es. split; [apply moved_refl|done].
Qed.

(** Putting one canonical pin back. *)
Definition canon_kept s (m m' : gmap string Z) : Prop := forall j, m !! ms_Name s = Some j -> m' !! ms_Name s = Some j.
Definition restoring r s (m m' : gmap string Z) : Prop := moved (canon_names r s) (ms_MapID s) m m' /\ canon_kept s m m'.
Lemma restoring_unlinked r s m n x m' m'' : ms_Name s ∉ retired_of r s -> n ∈ retired_of r s -> restoring r s m m' ->
  unlinked n (ms_MapID s) m' x m'' -> restoring r s m m''.
Proof.
  intros Hnr Hn [M C] Hu. split; [eapply moved_trans; [exact M|]; by eapply moved_unlinked; [apply retired_in|]|].
  intros j Hj. apply C in Hj. destruct x; cbn in Hu; [|by rewrite Hu]. destruct Hu as [_ ->]. rewrite lookup_delete_ne; [done|].
  intros ->. by apply Hnr.
Qed.
Lemma restore_stage_spec r stages s w : NoDup (canon_names r s) -> let '(x, w') := restore_stage r stages s w in
  restoring r s (pv_dir w) (pv_dir w') /\ (x = inl tt -> restored r s (pv_dir w')).
Proof.
  intros Hnd. apply list.NoDup_cons in Hnd as [Hnr _].
  assert (pwp (restore_stage r stages s) (fun _ w' => restoring r s (pv_dir w) (pv_dir w') /\ restored r s (pv_dir w'))
    (fun w' => restoring r s (pv_dir w) (pv_dir w')) w) as H.
  2: { unfold pwp in H. by destruct (restore_stage r stages s w) as [[[]|e] w']; [destruct H|]. }
  assert (restoring r s (pv_dir w) (pv_dir w)) as M0 by (split; [apply moved_refl|by intros j]). unfold restore_stage. apply pwp_bind.
  eapply pwp_steady; [done|auto with pins|by intros ? ->|]. intros d w0 _ E0.
  destruct (stages_byName stages (ms_Name s)) as [o|]; [|apply pwp_fail; by rewrite E0].
  apply pwp_refuse; [intros [Hid _]%orb_false_iff|by rewrite E0]. apply negb_false_iff, Z.eqb_eq in Hid. apply pwp_bind.
  eapply pwp_steady; [exact E0|auto with pins|by intros ? ->|]. intros st w1 Hst E1. apply pwp_bind.
  assert (forall w2, restoring r s (pv_dir w) (pv_dir w2) -> pwp (do! validate_and_close d (ms_Name s) (ms_MapID s) in
      pin! retired := existingOwnerRetiredName (ownerCanonicalMapRetiredNames r (ms_FileName s)) in
      match retired with Some n => unlinkValidatedOwnerMap d n (ms_MapID s) | None => pret tt end)
    (fun _ w' => restoring r s (pv_dir w) (pv_dir w') /\ restored r s (pv_dir w'))
    (fun w' => restoring r s (pv_dir w) (pv_dir w')) w2) as Hrest.
  { intros w2 M2. apply pwp_bind. eapply pwp_steady; [done|apply steady_validate_close|by intros ? ->|]. intros y w3 Hv3 E3.
    apply validate_close_id in Hv3 as Hc.
    apply pwp_bind. eapply pwp_steady; [exact E3|apply existing_steady|by intros ? ->|]. intros x w4 Hx E4. apply existing_spec in Hx as [_ Hx].
    rewrite E3 in Hx. destruct x as [n|].
    - destruct Hx as (Hn & _ & Ho). unfold pwp. pose proof (unlink_spec d n (ms_MapID s) w4) as Hu. rewrite E4 in Hu.
      destruct (unlinkValidatedOwnerMap d n (ms_MapID s) w4) as [x w5].
      pose proof (restoring_unlinked _ _ _ _ _ _ _ Hnr Hn M2 Hu) as Hm. destruct x as [[]|e]; [|done].
      split; [done|]. destruct Hu as [_ ->]. split.
      + rewrite lookup_delete_ne; [done|]. intros ->. by apply Hnr.
      + intros n' Hn'. apply lookup_delete_None. destruct (decide (n = n')) as [->|Hne]; [by left|right]. by apply Ho.
    - apply pwp_ret. rewrite E4. split; [done|]. split; [done|exact Hx]. }
  destruct st as [st|]; [apply pwp_ret; rewrite <- E1 in M0; apply Hrest; by rewrite E1 in M0 |- *|].
  apply pwp_wrap. unfold pwp at 1, pcall. pose proof (pl_pin o (ms_Name s) w1) as Hp. destruct (pk_pin o (ms_Name s) w1) as [[e|] w2].
  - by rewrite Hp, E1.
  - destruct Hp as [Hn E2]. apply Hrest. rewrite E2, E1, Hid. rewrite E1 in Hn. split; [apply moved_insert; [left|done]|]. intros j Hj. congruence.
Qed.

(** Removing one stage. *)
Lemma remove_stage_spec r s w : NoDup (stage_names r s) -> let '(x, w') := remove_stage r s w in
  moved (stage_names r s) (ms_MapID s) (pv_dir w) (pv_dir w') /\ (x = inl tt -> gone (stage_names r s) (pv_dir w')).
Proof.
  intros Hnd. apply list.NoDup_cons in Hnd as [Hnr _]. unfold remove_stage, pbind at 1.
  destruct (ownerMapDescriptor (ms_Name s)) as [d|e]; [|split; [apply moved_refl|done]].
  pose proof (pl_fstatat (ms_FileName s) w) as Hst. destruct (pk_fstatat (ms_FileName s) w) as [st w1]. destruct Hst as [E1 Hst].
  unfold pbind. pose proof (existing_steady (ownerMapRetiredNames r (ms_FileName s)) w1) as E2.
  pose proof (existing_spec (ownerMapRetiredNames r (ms_FileName s)) w1) as He. rewrite E1 in E2.
  destruct (existingOwnerRetiredName (ownerMapRetiredNames r (ms_FileName s)) w1) as [[x|e] w2]; cbn in E2; [|rewrite E2; split; [apply moved_refl|done]].
  destruct (He _ _ eq_refl) as [_ Hx]. rewrite E1 in Hx. clear He.
  assert (forall e', let '(x', w') := pfail (W := W) (A := unit) e' w2 in moved (stage_names r s) (ms_MapID s) (pv_dir w) (pv_dir w') /\
    (x' = inl tt -> gone (stage_names r s) (pv_dir w'))) as Hfail by (intros e'; cbn -[stage_names]; rewrite E2; split; [apply moved_refl|done]).
  destruct st as [st|e].
  - destruct x as [n|]; [apply Hfail|].
    assert (ms_FileName s <> ms_FileName s +:+ "-retired") as Hne by (intros E; apply Hnr; rewrite E at 1; left).
    pose proof (quarantine_spec d (ms_FileName s) (ms_FileName s +:+ "-retired") (ms_MapID s) w2 Hne) as Hq.
    destruct (quarantine_and_unlink d (ms_FileName s) (ms_FileName s +:+ "-retired") (ms_MapID s) w2) as [x w3]. rewrite E2 in Hq.
    split; [eapply moved_quarantined; [left|right; left|exact Hq]|]. intros ->. destruct Hq as (_ & _ & ->).
    intros n' [->|Hn']%elem_of_cons; apply lookup_delete_None; [by left|right]. by apply Hx.
  - destruct (pe_noent e) eqn:Ee; cbn [negb]; [|apply Hfail]. specialize (Hst eq_refl). destruct x as [n|].
    + destruct Hx as (Hn & Hin & Ho). pose proof (unlink_spec d n (ms_MapID s) w2) as Hu. destruct (unlinkValidatedOwnerMap d n (ms_MapID s) w2) as [x w3].
      rewrite E2 in Hu. split; [eapply moved_unlinked; [|exact Hu]; by right|]. intros ->. destruct Hu as [_ ->].
      intros n' [->|Hn']%elem_of_cons; apply lookup_delete_None; [by right|]. destruct (decide (n = n')) as [->|Hne]; [by left|right]. by apply Ho.
    + cbn -[stage_names]. rewrite E2. split; [apply moved_refl|]. intros _ n' [->|Hn']%elem_of_cons; [done|by apply Hx].
Qed.

Lemma steady_stage_validated r d s : steady (stage_validated r d s).
Proof. unfold stage_validated. auto 10 using steady_validate with pins. Qed.
Lemma stage_validated_id r d s w x w' : stage_validated r d s w = (inl x, w') -> pv_dir w !! ms_FileName s = Some (ms_MapID s).
Proof.
  unfold stage_validated, pbind. pose proof (validate_id d (ms_FileName s) (ms_MapID s) w) as H.
  destruct (validatePinnedMapAt d (ms_FileName s) (ms_MapID s) w) as [[p|e] w1]; [|done]. intros _. by destruct (H _ _ eq_refl).
Qed.
Definition staged s (m : gmap string Z) : Prop := m !! ms_FileName s = Some (ms_MapID s).
Lemma steady_preflight r canonical s : steady (preflight_stage r canonical s).
Proof.
  unfold preflight_stage. apply steady_bind; [auto with pins|intros d]. apply steady_bind; [auto with pins|intros [st|]].
  - auto using steady_stage_validated with pins.
  - destruct (stage_source canonical s) as [[[d' i] o]|]; [auto with pins|]. destruct (_ =? _); auto with pins.
Qed.
Lemma preflight_staged r canonical s w w' : preflight_stage r canonical s w = (inl true, w') -> staged s (pv_dir w).
Proof.
  unfold preflight_stage, pbind. destruct (ownerMapDescriptor (ms_Name s)) as [d|e]; [|done].
  pose proof (steady_stat (ms_FileName s) w) as E1. destruct (stat_name (ms_FileName s) w) as [[[st|]|e] w1]; cbn in E1; [| |done].
  - pose proof (stage_validated_id r d s w1) as H. destruct (stage_validated r d s w1) as [[x|e] w2]; [|done]. intros _.
    unfold staged. rewrite <- E1. by eapply H.
  - destruct (stage_source canonical s) as [[[d' i] o]|]; [unfold pcheck; destruct (validateAuthority r d' i o); done|].
    by destruct (_ =? _).
Qed.
Lemma preflight_stages_spec r canonical l w : pwp (preflight_stages r canonical l)
  (fun names w' => pv_dir w' = pv_dir w /\ forall n, n ∈ names -> exists s, s ∈ l /\ ms_Name s = n /\ staged s (pv_dir w)) (fun w' => pv_dir w' = pv_dir w) w.
Proof.
  assert (forall m, pv_dir m = pv_dir w -> pwp (preflight_stages r canonical l)
    (fun names w' => pv_dir w' = pv_dir w /\ forall n, n ∈ names -> exists s, s ∈ l /\ ms_Name s = n /\ staged s (pv_dir w)) (fun w' => pv_dir w' = pv_dir w) m) as H;
    [|by apply H]. induction l as [|s l IH]; intros m Em; cbn [preflight_stages].
  { apply pwp_ret. split; [done|]. intros n Hn. by apply not_elem_of_nil in Hn. }
  apply pwp_bind. eapply pwp_steady; [exact Em|apply steady_preflight|done|]. intros b w1 Hb E1. apply pwp_bind.
  eapply pwp_mono; [by apply IH| |done]. intros names w2 [E2 Hn]. apply pwp_ret. split; [done|].
  assert (forall n, n ∈ names -> exists s', s' ∈ s :: l /\ ms_Name s' = n /\ staged s' (pv_dir w)) as Hr.
  { intros n Hin. destruct (Hn n Hin) as (s' & ? & ? & ?). exists s'. split; [by right|done]. }
  destruct b; [|done]. intros n [->|Hin]%elem_of_cons; [|by auto]. exists s. split_and!; [left|done|]. apply preflight_staged in Hb. by rewrite Em in Hb.
Qed.
(** Staging one map. *)
Definition extends (m m' : gmap string Z) : Prop := forall n j, m !! n = Some j -> m' !! n = Some j.
Lemma stage_map_spec r canonical names s w : (ms_Name s ∈ names -> staged s (pv_dir w)) ->
  let '(x, w') := stage_map r canonical names s w in
  moved [ms_FileName s] (ms_MapID s) (pv_dir w) (pv_dir w') /\ extends (pv_dir w) (pv_dir w') /\
  (x = inl tt -> or_ActiveGeneration r <> 0 -> staged s (pv_dir w')).
Proof.
  intros Hpre. unfold stage_map. destruct (existsb (String.eqb (ms_Name s)) names) eqn:Ex.
  { apply existsb_exists in Ex as (y & Hy & <-%String.eqb_eq). cbn. split_and!; [apply moved_refl|by intros ? ?|]. intros _ _. by apply Hpre, list_elem_of_In. }
  unfold pbind at 1. destruct (ownerMapDescriptor (ms_Name s)) as [d|e]; [|split_and!; [apply moved_refl|by intros ? ?|done]].
  unfold stage_source. destruct (canonicalByName canonical !! ms_Name s) as [[d' i [o|]]|];
    [destruct (ob_pin o && (ob_id o =? ms_MapID s)) eqn:Eo|..];
    try (destruct (or_ActiveGeneration r =? 0) eqn:Eg; cbn; (split_and!; [apply moved_refl|by intros ? ?|]); [apply Z.eqb_eq in Eg; done|done]).
  apply andb_true_iff in Eo as [_ Eid%Z.eqb_eq]. unfold pbind, pwrap, pcall. pose proof (pl_pin o (ms_FileName s) w) as Hp.
  destruct (pk_pin o (ms_FileName s) w) as [[e|] w1]; [rewrite Hp; split_and!; [apply moved_refl|by intros ? ?|done]|]. destruct Hp as [Hn E1].
  pose proof (steady_stage_validated r d s w1) as E2. pose proof (stage_validated_id r d s w1) as Hs.
  destruct (stage_validated r d s w1) as [x w2]; cbn in E2. rewrite E2, E1, Eid. split_and!.
  - apply moved_insert; [left|done].
  - intros n j Hj. rewrite lookup_insert_ne; [done|]. intros <-. congruence.
  - intros _ _. apply lookup_insert_eq.
Qed.

(** ** Loading *)

Lemma byName_in stages n o : stages_byName stages n = Some o -> (n, o) ∈ stages.
Proof.
  unfold stages_byName. assert (forall acc, foldl (fun o p => if String.eqb p.1 n then Some p.2 else o) acc stages = Some o -> (n, o) ∈ stages \/ acc = Some o) as H.
  { induction stages as [|[k y] l IH]; cbn; intros acc Hf; [by right|]. destruct (IH _ Hf) as [Hin|Ha]; [left; by right|].
    destruct (String.eqb k n) eqn:E; [|by right]. apply String.eqb_eq in E as ->. injection Ha as ->. left. left. }
  intros Hf. by destruct (H None Hf).
Qed.
Lemma steady_load_stage r s : steady (load_stage r s).
Proof.
  unfold load_stage. apply steady_bind; [auto with pins|intros d]. intros w. pose proof (steady_validate d (ms_FileName s) (ms_MapID s) w) as E1.
  destruct (validatePinnedMapAt d (ms_FileName s) (ms_MapID s) w) as [[p|e] w1]; cbn in E1.
  - rewrite <- E1. generalize w1. change (steady (do! or_close_map_quietly p.2 (if String.eqb (md_name d) "owner_map"
      then pcheck (validateOwnerSentinel (ob_owner p.2) (ob_ownerSeen p.2) r) else pret tt) in pret (Some p.2))).
    destruct (String.eqb (md_name d) "owner_map"); auto with pins.
  - destruct (_ && _); [|done]. pose proof (steady_fstatat (ms_Name s) w1) as E2. destruct (pk_fstatat (ms_Name s) w1) as [[st|ce] w2]; cbn in E2; cbn; [congruence|].
    destruct (pe_noent ce); cbn; congruence.
Qed.
Lemma load_stage_id r s w o w' : load_stage r s w = (inl (Some o), w') -> staged s (pv_dir w) /\ ob_id o = ms_MapID s.
Proof.
  unfold load_stage, pbind at 1. destruct (ownerMapDescriptor (ms_Name s)) as [d|e]; [|done].
  pose proof (validate_id d (ms_FileName s) (ms_MapID s) w) as H. destruct (validatePinnedMapAt d (ms_FileName s) (ms_MapID s) w) as [[p|e] w1].
  - destruct (H _ _ eq_refl) as [Hs Hid]. unfold pbind. destruct (or_close_map_quietly p.2 _ w1) as [[[]|e] w2]; [|done]. by intros [= <- _].
  - destruct (_ && _); [|done]. destruct (pk_fstatat (ms_Name s) w1) as [[st|ce] w2]; [done|]. by destruct (pe_noent ce).
Qed.
Lemma load_stages_spec r acc l w : pwp (load_stages r acc l)
  (fun stages w' => pv_dir w' = pv_dir w /\ forall n o, (n, o) ∈ stages -> (n, o) ∈ acc \/ exists s, s ∈ l /\ ms_Name s = n /\ staged s (pv_dir w) /\ ob_id o = ms_MapID s)
  (fun w' => pv_dir w' = pv_dir w) w.
Proof.
  revert acc w. induction l as [|s l IH]; intros acc w; unfold pwp; cbn [load_stages]; [split; [done|]; by left|].
  pose proof (steady_load_stage r s w) as E1. pose proof (load_stage_id r s w) as Hs. destruct (load_stage r s w) as [[[o|]|e] w1]; cbn in E1.
  - pose proof (IH (acc ++ [(ms_Name s, o)]) w1) as H. unfold pwp in H. rewrite E1 in H.
    destruct (load_stages r (acc ++ [(ms_Name s, o)]) l w1) as [[stages|e] w2]; [|done]. destruct H as [E2 H]. split; [done|].
    intros n o' Hin. destruct (H n o' Hin) as [[?|Hs']%elem_of_app|(s' & ? & ?)]; [by left| |right; exists s'; split; [by right|done]].
    apply list_elem_of_singleton in Hs'. injection Hs' as -> ->. right. exists s. destruct (Hs _ _ eq_refl). split_and!; [left|done..].
  - pose proof (IH acc w1) as H. unfold pwp in H. rewrite E1 in H. destruct (load_stages r acc l w1) as [[stages|e] w2]; [|done].
    destruct H as [E2 H]. split; [done|]. intros n o' Hin. destruct (H n o' Hin) as [?|(s' & ? & ?)]; [by left|right]. exists s'. split; [by right|done].
  - assert (forall w, pv_dir (close_stages acc w).2 = pv_dir w) as Hc.
    { clear -Hl. induction acc as [|[k o] acc IH]; intros w; cbn; [done|]. pose proof (pl_close o w) as E. destruct (pk_close o w) as [e1 w1]; cbn in E.
      specialize (IH w1). destruct (close_stages acc w1); cbn in *. congruence. }
    specialize (Hc w1). destruct (close_stages acc w1) as [ce w2]; cbn in *. congruence.
Qed.
End stages.

(** ** The operations on all stages *)

Section whole.
Context {W : Type} {Hk : PinKernel W} {Hv : PinView W} {Hl : PinLaws W}.
Context (r : pinOwnerRecord) (Hr : names_apart r).
Implicit Types w : W.

Definition present (m : gmap string Z) : Prop :=
  forall s, s ∈ or_MapStages r -> m !! ms_Name s = Some (ms_MapID s) \/ staged s m.
Definition all_staged (m : gmap string Z) : Prop := forall s, s ∈ or_MapStages r -> staged s m.
Lemma edits_canon_staged m m' s : edits (canon_names r) (or_MapStages r) m m' -> s ∈ or_MapStages r ->
  forall n, n ∈ stage_names r s -> m' !! n = m !! n.
Proof. intros [F _] Hs n Hn. apply F. intros s' Hs' Hn'. by eapply (canon_stage_disjoint r Hr s' s). Qed.
Lemma edits_stage_canon m m' s l : l ≡ₚ or_MapStages r -> edits (stage_names r) l m m' -> s ∈ or_MapStages r ->
  forall n, n ∈ canon_names r s -> m' !! n = m !! n.
Proof. intros Hp [F _] Hs n Hn. apply F. intros s' Hs' Hn'. rewrite Hp in Hs'. by eapply (canon_stage_disjoint r Hr s s'). Qed.

Lemma agree_no_both s m m' : agree (canon_names r) s m m' -> no_both r s m -> no_both r s m'.
Proof. intros Ha [H|H]; [left|right]. - by rewrite Ha by left. - intros n Hn. rewrite Ha; [by apply H|by right]. Qed.
Lemma agree_gone (K : pinOwnerMapStage -> list string) s m m' : agree K s m m' -> gone (K s) m -> gone (K s) m'.
Proof. intros Ha H n Hn. rewrite Ha by done. by apply H. Qed.

Lemma stage_spec canonical w : let '(x, w') := stageOwnerMaps r canonical w in
  edits (fun s => [ms_FileName s]) (or_MapStages r) (pv_dir w) (pv_dir w') /\ extends (pv_dir w) (pv_dir w') /\
  (x = inl tt -> or_ActiveGeneration r <> 0 -> all_staged (pv_dir w')).
Proof.
  unfold stageOwnerMaps, pbind. pose proof (preflight_stages_spec r canonical (or_MapStages r) w) as Hp. unfold pwp in Hp.
  destruct (preflight_stages r canonical (or_MapStages r) w) as [[names|e] w1]; [|rewrite Hp; split_and!; [apply edits_refl|by intros ? ?|done]].
  destruct Hp as [E1 Hn].
  set (K := fun s => [ms_FileName s]).
  assert (let '(x, w2) := pfor (or_MapStages r) (stage_map r canonical names) w1 in
    stages_result K (fun s m => or_ActiveGeneration r <> 0 -> staged s m)
      (fun s m m' => forall j, m !! ms_FileName s = Some j -> m' !! ms_FileName s = Some j) (or_MapStages r) (pv_dir w1) (x = inl tt) (pv_dir w2)) as H.
  { assert (forall s m m', agree K s m m' -> m' !! ms_FileName s = m !! ms_FileName s) as Hag by (intros s m m' Ha; apply Ha; left).
    apply pfor_spec with (pre := fun s m => ms_Name s ∈ names -> staged s m); unfold staged.
    - intros s m m' ->%Hag. done.
    - intros s m m' ->%Hag. done.
    - intros s m1 m2 m1' m2' ->%Hag ->%Hag. done.
    - done.
    - intros s w' Hs Hpre. pose proof (stage_map_spec r canonical names s w' Hpre) as Hm. destruct (stage_map r canonical names s w') as [x' w''].
      destruct Hm as (? & Hx & ?). split_and!; [done|intros j; apply Hx|done].
    - apply (disjoint_sub r Hr); [|done]. intros s n ->%list_elem_of_singleton. apply stage_sub. left.
    - intros s Hs Hin. destruct (Hn _ Hin) as (s' & Hs' & En & Hst). rewrite E1.
      rewrite (record_names_same r Hr s s' (ms_Name s)); [done|done|done|apply canon_sub; left|apply canon_sub; rewrite <- En; left]. }
  destruct (pfor (or_MapStages r) (stage_map r canonical names) w1) as [x w2]. destruct H as (He & Ha & Hpo). rewrite E1 in He, Ha.
  split_and!; [done| |by intros ? ? ? ?; eapply Hpo].
  intros n j Hj. destruct (decide (Exists (fun s => n = ms_FileName s) (or_MapStages r))) as [Hex|Hno].
  - apply list.Exists_exists in Hex as (s & Hs & ->). by apply Ha.
  - destruct He as [F _]. rewrite F; [done|]. intros s Hs ->%list_elem_of_singleton. apply Hno, list.Exists_exists. eauto.
Qed.

(** What loaded stages say of the directory. *)
Definition loaded_ok (stages : loadedOwnerMapStages) (m : gmap string Z) : Prop :=
  forall s o, s ∈ or_MapStages r -> stages_byName stages (ms_Name s) = Some o -> staged s m.
Lemma load_spec w : pwp (loadOwnerMapStages r) (fun stages w' => pv_dir w' = pv_dir w /\ loaded_ok stages (pv_dir w)) (fun w' => pv_dir w' = pv_dir w) w.
Proof.
  eapply pwp_mono; [apply load_stages_spec| |done]. intros stages w' [E H]. split; [done|]. intros s o Hs Ho%byName_in.
  destruct (H _ _ Ho) as [Hn|(s' & Hs' & En & Hst & _)]; [by apply not_elem_of_nil in Hn|].
  rewrite (record_names_same r Hr s s' (ms_Name s)); [done|done|done|apply canon_sub; left|apply canon_sub; rewrite <- En; left].
Qed.

(** The stages of an owner with a generation are all there. *)
Lemma load_all w stages w' : or_ActiveGeneration r <> 0 -> loadOwnerMapStages r w = (inl stages, w') -> all_staged (pv_dir w).
Proof.
  intros Hg. unfold loadOwnerMapStages, all_staged. generalize (@nil (string * pinnedMapObservation)). revert w.
  induction (or_MapStages r) as [|s l IH]; intros w acc; cbn [load_stages]; [intros _ s Hs; by apply not_elem_of_nil in Hs|].
  pose proof (load_stage_id r s w) as Hid. pose proof (steady_load_stage r s w) as E.
  assert (forall w1, load_stage r s w <> (inl None, w1)) as Hn.
  { intros w1. unfold load_stage, pbind at 1. destruct (ownerMapDescriptor (ms_Name s)) as [d|e]; [|done].
    destruct (validatePinnedMapAt d (ms_FileName s) (ms_MapID s) w) as [[p|e] w2].
    - unfold pbind. by destruct (or_close_map_quietly p.2 _ w2) as [[[]|e] w3].
    - apply Z.eqb_neq in Hg. by rewrite Hg. }
  destruct (load_stage r s w) as [[[o|]|e] w1]; cbn in E; [|by destruct (Hn w1)|by destruct (close_stages acc w1)].
  intros H. pose proof (IH _ _ H) as Hrest. rewrite E in Hrest. intros s' [->|Hs']%elem_of_cons; [|by apply Hrest]. by destruct (Hid _ _ eq_refl).
Qed.

Lemma preflight_removal_spec stages s w : pwp (preflight_removal r stages s)
  (fun _ w' => pv_dir w' = pv_dir w /\ no_both r s (pv_dir w) /\ (is_Some (stages_byName stages (ms_Name s)) \/ gone (canon_names r s) (pv_dir w)))
  (fun w' => pv_dir w' = pv_dir w) w.
Proof.
  unfold preflight_removal. apply pwp_bind. eapply pwp_steady; [done|auto with pins|done|]. intros d w0 _ E0.
  apply pwp_bind. eapply pwp_steady; [exact E0|apply existing_steady|done|]. intros x w1 Hx E1. apply existing_spec in Hx as [_ Hx]. rewrite E0 in Hx.
  apply pwp_bind. unfold pwp at 1. pose proof (pl_fstatat (ms_Name s) w1) as Hf. destruct (pk_fstatat (ms_Name s) w1) as [[st|e] w2]; destruct Hf as [E2 Hf]; rewrite E1 in E2, Hf.
  - destruct x as [n|]; [done|]. assert (no_both r s (pv_dir w)) as Hnb by (right; exact Hx).
    destruct (stages_byName stages (ms_Name s)) as [o|]; [|destruct (_ && _) eqn:Eb; [rewrite andb_false_r in Eb; discriminate Eb|done]].
    destruct (ob_id o =? ms_MapID s); [|destruct (_ && _) eqn:Eb; [rewrite andb_false_r in Eb; discriminate Eb|done]].
    eapply pwp_steady; [exact E2|apply steady_validate_close|done|]. intros _ w3 _ E3. split_and!; [done|done|left; eauto].
  - destruct (pe_noent e); [|done]. specialize (Hf eq_refl). assert (no_both r s (pv_dir w)) as Hnb by (by left).
    assert (pwp (if (or_ActiveGeneration r =? 0) && negb false && negb (bool_decide (is_Some x)) then pret tt else pfail (refusal "owner map stage is unavailable"))
      (fun _ w' => pv_dir w' = pv_dir w /\ no_both r s (pv_dir w) /\ (is_Some (stages_byName stages (ms_Name s)) \/ gone (canon_names r s) (pv_dir w)))
      (fun w' => pv_dir w' = pv_dir w) w2) as Hskip.
    { destruct x as [n|]; [rewrite bool_decide_true, andb_false_r by eauto; done|]. destruct (_ && _); [|done]. apply pwp_ret. split_and!; [done|done|].
      right. intros n [->|Hn]%elem_of_cons; [done|by apply Hx]. }
    destruct (stages_byName stages (ms_Name s)) as [o|]; [|exact Hskip]. destruct (ob_id o =? ms_MapID s); [|exact Hskip].
    destruct x as [n|]; [|apply pwp_ret; split_and!; [done|done|left; eauto]].
    eapply pwp_steady; [exact E2|apply steady_validate_close|done|]. intros _ w3 _ E3. split_and!; [done|done|left; eauto].
Qed.
Lemma pfor_checks (f : pinOwnerMapStage -> PM W unit) (P : pinOwnerMapStage -> gmap string Z -> Prop) l w :
  (forall s w, pwp (f s) (fun _ w' => pv_dir w' = pv_dir w /\ P s (pv_dir w)) (fun w' => pv_dir w' = pv_dir w) w) ->
  pwp (pfor l f) (fun _ w' => pv_dir w' = pv_dir w /\ forall s, s ∈ l -> P s (pv_dir w)) (fun w' => pv_dir w' = pv_dir w) w.
Proof.
  intros Hf. revert w. induction l as [|s l IH]; intros w; cbn [pfor].
  { apply pwp_ret. split; [done|]. intros s Hs. by apply not_elem_of_nil in Hs. }
  apply pwp_bind. eapply pwp_mono; [apply Hf| |done]. intros _ w1 [E1 P1]. eapply pwp_mono; [apply IH| |by intros ? ->]. intros _ w2 [E2 P2].
  rewrite E1 in E2, P2. split; [done|]. intros s' [->|Hs']%elem_of_cons; auto.
Qed.

(** Removing the canonical pins loses no map. *)
Lemma remove_spec stages w : loaded_ok stages (pv_dir w) -> let '(x, w') := removeCanonicalOwnerMaps r stages w in
  edits (canon_names r) (or_MapStages r) (pv_dir w) (pv_dir w') /\ (present (pv_dir w) -> present (pv_dir w')) /\
  (x = inl tt -> forall s, s ∈ or_MapStages r -> gone (canon_names r s) (pv_dir w')).
Proof.
  intros Hld. unfold removeCanonicalOwnerMaps, pbind.
  pose proof (pfor_checks (preflight_removal r stages) (fun s m => no_both r s m /\ (is_Some (stages_byName stages (ms_Name s)) \/ gone (canon_names r s) m))
    (or_MapStages r) w (preflight_removal_spec stages)) as Hp. unfold pwp in Hp.
  destruct (pfor (or_MapStages r) (preflight_removal r stages) w) as [[[]|e] w1]; [|rewrite Hp; split_and!; [apply edits_refl|done|done]].
  destruct Hp as [E1 Hp].
  assert (let '(x, w2) := pfor (or_MapStages r) (remove_canonical r) w1 in
    stages_result (canon_names r) (fun s => gone (canon_names r s)) (fun _ _ _ => True) (or_MapStages r) (pv_dir w1) (x = inl tt) (pv_dir w2)) as H.
  { apply pfor_spec with (pre := no_both r); try done.
    - apply agree_no_both.
    - intros s. apply agree_gone.
    - intros s w' Hs Hpre. destruct (canon_NoDup r Hr s Hs) as [Hnd _]. pose proof (remove_canonical_spec r s w' Hnd Hpre) as Hm.
      destruct (remove_canonical r s w') as [x w'']. by destruct Hm.
    - apply (disjoint_sub r Hr); [apply canon_sub|done].
    - intros s Hs. rewrite E1. by apply Hp. }
  destruct (pfor (or_MapStages r) (remove_canonical r) w1) as [x w2]. destruct H as (He & _ & Hpo). rewrite E1 in He. split_and!; [done| |done].
  intros Hpres s Hs. right. unfold staged. rewrite (edits_canon_staged _ _ s He Hs) by left. destruct (Hp s Hs) as [_ [[o Ho]|Hg]].
  - by eapply Hld.
  - destruct (Hpres s Hs) as [Hc|?]; [|done]. rewrite Hg in Hc; [done|left].
Qed.
Lemma restore_spec stages w : let '(e, w') := restoreCanonicalOwnerMaps r stages w in
  edits (canon_names r) (or_MapStages r) (pv_dir w) (pv_dir w') /\ (present (pv_dir w) -> present (pv_dir w')) /\
  (e = None -> forall s, s ∈ or_MapStages r -> restored r s (pv_dir w')) /\ (forall s, s ∈ or_MapStages r -> canon_kept s (pv_dir w) (pv_dir w')).
Proof.
  unfold restoreCanonicalOwnerMaps. assert (forall l w, disjoint_names (canon_names r) l -> (forall s, s ∈ l -> s ∈ or_MapStages r) ->
    let '(e, w') := restore_stages r stages l w in
    stages_result (canon_names r) (restored r) canon_kept l (pv_dir w) (e = None) (pv_dir w')) as H.
  { clear w. induction l as [|s l IH]; intros w Hd Hsub; cbn [restore_stages]; [apply stages_result_nil; by intros ? ? ?|].
    destruct (canon_NoDup r Hr s (Hsub s (list_elem_of_here _ _))) as [Hnd _]. pose proof (restore_stage_spec r stages s w Hnd) as Hs.
    destruct (restore_stage r stages s w) as [x w1]. destruct (disjoint_cons _ _ _ Hd) as [Hd' _].
    pose proof (IH w1 Hd' (fun s' Hs' => Hsub s' (list_elem_of_further _ _ _ Hs'))) as H2. destruct (restore_stages r stages l w1) as [e w2].
    eapply stages_result_mono; [|eapply stages_result_cons; [..|exact Hd| |exact H2]].
    - instantiate (1 := x). destruct x as [[]|e0]; [done|by intros].
    - intros s' m m' Ha [Hc Hg]. split; [by rewrite Ha by left|]. intros n Hn. rewrite Ha by (by right). by apply Hg.
    - intros s' m1 m2 m1' m2' A1 A2 Hc j. rewrite A1, A2 by left. apply Hc.
    - destruct Hs as [[] ?]. by split_and!. }
  pose proof (H (or_MapStages r) w (disjoint_sub r Hr _ _ (canon_sub r) (reflexivity _)) (fun _ Hs => Hs)) as H1.
  destruct (restore_stages r stages (or_MapStages r) w) as [e w']. destruct H1 as (He & Ha & Hpo). split_and!; [done| |done|done].
  intros Hpres s Hs. destruct (Hpres s Hs) as [Hc|Hst]; [left; by apply Ha|right]. unfold staged. by rewrite (edits_canon_staged _ _ s He Hs) by left.
Qed.

Lemma edits_perm K l l' m m' : l ≡ₚ l' -> edits K l m m' -> edits K l' m m'.
Proof.
  intros Hp [F G]. split.
  - intros n Hn. apply F. intros s Hs. apply Hn. by rewrite <- Hp.
  - intros s n Hs. apply G. by rewrite Hp.
Qed.
Lemma edits_trans K l m1 m2 m3 : edits K l m1 m2 -> edits K l m2 m3 -> edits K l m1 m3.
Proof.
  intros [F G] [F' G']. split; [intros n Hn; by rewrite F', F|]. intros s n Hs Hn. destruct (G s n Hs Hn) as [G1 G2], (G' s n Hs Hn) as [G3 G4].
  split; [by auto|]. intros j Hj. destruct (G4 j Hj); auto.
Qed.
Lemma edits_widen K m m' : (forall s, K s ⊆ record_names r s) -> edits K (or_MapStages r) m m' -> edits (record_names r) (or_MapStages r) m m'.
Proof.
  intros HK [F G]. split; [intros n Hn; apply F; intros s Hs Hn'; by eapply Hn, HK|]. intros s n Hs Hn.
  destruct (decide (n ∈ K s)) as [Hin|Hout]; [by apply G|]. rewrite F; [auto|]. intros s' Hs' Hn'.
  assert (s = s') as -> by (eapply (record_names_same r Hr s s' n); [done..|by apply HK]). done.
Qed.

(** *** The stages at the end *)
Lemma take_owner_spec l : match take_owner l with
  | (Some o, l') => ms_Name o = "owner_map" /\ l ≡ₚ o :: l' | (None, l') => l' = l /\ forall s, s ∈ l -> ms_Name s <> "owner_map" end.
Proof.
  induction l as [|s l IH]; cbn; [split; [done|]; intros s Hs; by apply not_elem_of_nil in Hs|].
  destruct (String.eqb (ms_Name s) "owner_map") eqn:E; [split; [by apply String.eqb_eq|done]|].
  destruct (take_owner l) as [[o|] l'].
  - destruct IH as [? ->]. split; [done|]. apply Permutation_swap.
  - destruct IH as [-> Hn]. split; [done|]. intros s' [->|Hs']%elem_of_cons; [by apply String.eqb_neq|by auto].
Qed.
Lemma pfor_app (f : pinOwnerMapStage -> PM W unit) l1 l2 w : pfor (l1 ++ l2) f w = pbind (pfor l1 f) (fun _ => pfor l2 f) w.
Proof.
  revert w. induction l1 as [|s l1 IH]; intros w; cbn; [done|]. unfold pbind in *. destruct (f s w) as [[[]|e] w1]; [apply IH|done].
Qed.
Lemma remove_stages_spec l w : disjoint_names (stage_names r) l -> (forall s, s ∈ l -> s ∈ or_MapStages r) ->
  let '(x, w') := pfor l (remove_stage r) w in
  stages_result (stage_names r) (fun s => gone (stage_names r s)) (fun _ _ _ => True) l (pv_dir w) (x = inl tt) (pv_dir w').
Proof.
  intros Hd Hsub. apply pfor_spec with (pre := fun _ _ => True); try done.
  - intros s. apply agree_gone.
  - intros s w' Hs _. destruct (canon_NoDup r Hr s (Hsub s Hs)) as [_ Hnd]. pose proof (remove_stage_spec r s w' Hnd) as Hm.
    destruct (remove_stage r s w') as [x w'']. by destruct Hm.
Qed.
Lemma owner_last_sub s : s ∈ owner_last (or_MapStages r) -> s ∈ or_MapStages r.
Proof. by rewrite owner_last_perm. Qed.
Lemma clean_spec w : let '(x, w') := removeOwnerMapStages r w in
  edits (stage_names r) (or_MapStages r) (pv_dir w) (pv_dir w') /\
  (x = inl tt -> forall s, s ∈ or_MapStages r -> gone (stage_names r s) (pv_dir w')).
Proof.
  unfold removeOwnerMapStages.
  pose proof (remove_stages_spec (owner_last (or_MapStages r)) w (disjoint_sub r Hr _ _ (stage_sub r) (owner_last_perm _)) owner_last_sub) as H.
  destruct (pfor (owner_last (or_MapStages r)) (remove_stage r) w) as [x w']. destruct H as (He & _ & Hpo).
  split; [eapply edits_perm; [|exact He]; apply owner_last_perm|]. intros Hx s Hs. apply Hpo; [done|]. by rewrite owner_last_perm.
Qed.
(** The sentinel's stage is the last to go. *)
Lemma owner_outlives o s w : o ∈ or_MapStages r -> s ∈ or_MapStages r -> ms_Name o = "owner_map" -> ms_Name s <> "owner_map" ->
  staged o (pv_dir w) -> ~ gone (stage_names r s) (pv_dir (removeOwnerMapStages r w).2) -> staged o (pv_dir (removeOwnerMapStages r w).2).
Proof.
  intros Ho Hs En Ens Hst. unfold removeOwnerMapStages. pose proof (disjoint_sub r Hr _ _ (stage_sub r) (owner_last_perm (or_MapStages r))) as Hd.
  pose proof owner_last_sub as Hsub. unfold owner_last in *. pose proof (take_owner_spec (or_MapStages r)) as Ht.
  destruct (take_owner (or_MapStages r)) as [[o'|] l]; [|destruct Ht as [_ Ht]; by destruct (Ht o Ho)]. destruct Ht as [En' Hp].
  assert (o' ∈ or_MapStages r) as Ho' by (rewrite Hp; left).
  assert (o' = o) as -> by (eapply (record_names_same r Hr o' o (ms_Name o)); [done|done|rewrite En, <- En'; apply canon_sub; left|apply canon_sub; left]).
  assert (s ∈ l) as Hsl. { rewrite Hp in Hs. apply elem_of_cons in Hs as [->|?]; [by destruct Ens|done]. }
  assert (disjoint_names (stage_names r) (o :: l)) as Hd2 by (by apply (disjoint_sub r Hr); [apply stage_sub|symmetry]).
  destruct (disjoint_cons _ _ _ Hd2) as [Hdl Hx]. rewrite pfor_app. unfold pbind.
  pose proof (remove_stages_spec l w Hdl (fun s' Hs' => Hsub s' (proj2 (elem_of_app _ _ _) (or_introl Hs')))) as H1.
  destruct (pfor l (remove_stage r) w) as [[[]|e] w1]; destruct H1 as ([F _] & _ & Hpo).
  - intros Hng. destruct Hng. pose proof (remove_stages_spec [o] w1) as H2.
    destruct (pfor [o] (remove_stage r) w1) as [x w2]. destruct H2 as ([F2 _] & _).
    + split; [apply NoDup_singleton|]. by intros s1 s2 n ->%list_elem_of_singleton ->%list_elem_of_singleton.
    + by intros s' ->%list_elem_of_singleton.
    + intros n Hn. cbn. rewrite F2; [by apply (Hpo eq_refl s Hsl)|]. intros s' ->%list_elem_of_singleton Hn'. by eapply Hx.
  - intros _. cbn. unfold staged. rewrite F; [done|]. intros s' Hs' Hn'. eapply Hx; [exact Hs'| |exact Hn']. left.
Qed.

(** ** Runs of a detach *)

(** The map operations of a detach, its rollback and their recovery, in any order,
    with failures and crashes; [ds_other] is everything that leaves the directory alone. *)
Inductive detach_step : W -> W -> Prop :=
| ds_other w w' : pv_dir w' = pv_dir w -> detach_step w w'
| ds_stage canonical w : detach_step w (stageOwnerMaps r canonical w).2
| ds_remove stages w w1 : loadOwnerMapStages r w = (inl stages, w1) -> detach_step w (removeCanonicalOwnerMaps r stages w1).2
| ds_rollback stages w w1 : loadOwnerMapStages r w = (inl stages, w1) ->
    detach_step w (restoreCanonicalOwnerMaps r stages (removeCanonicalOwnerMaps r stages w1).2).2
| ds_restore stages w w1 : loadOwnerMapStages r w = (inl stages, w1) -> detach_step w (restoreCanonicalOwnerMaps r stages w1).2.

Lemma loaded w stages w1 : loadOwnerMapStages r w = (inl stages, w1) -> pv_dir w1 = pv_dir w /\ loaded_ok stages (pv_dir w1).
Proof. intros H. pose proof (load_spec w) as Hl'. unfold pwp in Hl'. rewrite H in Hl'. destruct Hl' as [E Hok]. by rewrite E. Qed.
Definition safe_change (m m' : gmap string Z) : Prop := edits (record_names r) (or_MapStages r) m m' /\ (present m -> present m').
Lemma safe_trans m1 m2 m3 : safe_change m1 m2 -> safe_change m2 m3 -> safe_change m1 m3.
Proof. intros [] []. split; [by eapply edits_trans|auto]. Qed.
Lemma step_safe w w' : detach_step w w' -> safe_change (pv_dir w) (pv_dir w').
Proof.
  assert (forall stages w1, loaded_ok stages (pv_dir w1) -> safe_change (pv_dir w1) (pv_dir (removeCanonicalOwnerMaps r stages w1).2)) as Hrm.
  { intros stages w1 Hld. pose proof (remove_spec stages w1 Hld) as H. destruct (removeCanonicalOwnerMaps r stages w1) as [x w2].
    destruct H as (He & Hp & _). split; [eapply edits_widen; [apply canon_sub|done]|done]. }
  assert (forall stages w1, safe_change (pv_dir w1) (pv_dir (restoreCanonicalOwnerMaps r stages w1).2)) as Hrs.
  { intros stages w1. pose proof (restore_spec stages w1) as H. destruct (restoreCanonicalOwnerMaps r stages w1) as [x w2].
    destruct H as (He & Hp & _). split; [eapply edits_widen; [apply canon_sub|done]|done]. }
  intros [w1 w2 ->|canonical w1|stages w1 w2 Hld|stages w1 w2 Hld|stages w1 w2 Hld].
  - split; [apply edits_refl|done].
  - pose proof (stage_spec canonical w1) as H. destruct (stageOwnerMaps r canonical w1) as [x w2]. destruct H as (He & Hx & _). split.
    + eapply edits_widen; [|done]. intros s n ->%list_elem_of_singleton. apply stage_sub. left.
    + intros Hp s Hs. destruct (Hp s Hs); [left|right]; by apply Hx.
  - destruct (loaded _ _ _ Hld) as [<- Hok]. by apply Hrm.
  - destruct (loaded _ _ _ Hld) as [<- Hok]. eapply safe_trans; [by apply Hrm|apply Hrs].
  - destruct (loaded _ _ _ Hld) as [<- Hok]. apply Hrs.
Qed.
Lemma steps_safe w w' : rtc detach_step w w' -> safe_change (pv_dir w) (pv_dir w').
Proof. induction 1 as [|w1 w2 w3 Hs _ IH]; [split; [apply edits_refl|done]|]. eapply safe_trans; [by apply step_safe|done]. Qed.
End whole.

(** C10: through any sequence of the map operations of a detach, its rollback and
    its recovery, with failures and crashes at any call, every map of the owner
    record stays pinned under its canonical or its stage name, and nothing outside
    the record's names and no pin of another map under them is touched.  From every
    such state, a removal that succeeds leaves no canonical or retired pin, a restore
    that succeeds puts every canonical pin back, and the removal of the stages leaves
    the canonical pins alone, takes the sentinel's stage last, and on success leaves none. *)
Theorem owner_maps_never_lost {W} `{PinLaws W} (r : pinOwnerRecord) (w w' : W) : names_apart r -> present r (pv_dir w) -> rtc (detach_step r) w w' ->
  present r (pv_dir w') /\ edits (record_names r) (or_MapStages r) (pv_dir w) (pv_dir w') /\
  (forall stages w1 w2, loadOwnerMapStages r w' = (inl stages, w1) ->
     (removeCanonicalOwnerMaps r stages w1 = (inl tt, w2) -> forall s, s ∈ or_MapStages r -> gone (canon_names r s) (pv_dir w2)) /\
     (restoreCanonicalOwnerMaps r stages w1 = (None, w2) -> forall s, s ∈ or_MapStages r -> restored r s (pv_dir w2))) /\
  (forall x w2, removeOwnerMapStages r w' = (x, w2) ->
     (forall s n, s ∈ or_MapStages r -> n ∈ canon_names r s -> pv_dir w2 !! n = pv_dir w' !! n) /\
     (x = inl tt -> forall s, s ∈ or_MapStages r -> gone (stage_names r s) (pv_dir w2)) /\
     (forall o s, o ∈ or_MapStages r -> s ∈ or_MapStages r -> ms_Name o = "owner_map" -> ms_Name s <> "owner_map" ->
        staged o (pv_dir w') -> ~ gone (stage_names r s) (pv_dir w2) -> staged o (pv_dir w2))).
Proof.
  intros Hr Hp Hs. destruct (steps_safe r Hr _ _ Hs) as [He Hk']. split_and!; [by auto|done|..].
  - intros stages w1 w2 Hld. destruct (loaded r Hr _ _ _ Hld) as [_ Hok]. split; intros Hx.
    + pose proof (remove_spec r Hr stages w1 Hok) as Hm. rewrite Hx in Hm. by destruct Hm as (_ & _ & ?); auto.
    + pose proof (restore_spec r Hr stages w1) as Hm. rewrite Hx in Hm. by destruct Hm as (_ & _ & ? & _); auto.
  - intros x w2 Hx. pose proof (clean_spec r Hr w') as Hc. rewrite Hx in Hc. destruct Hc as [Hc Hg]. split_and!; [|done|].
    + intros s n Hin Hn. by eapply (edits_stage_canon r Hr _ _ s (or_MapStages r)).
    + intros o s Ho Hs' En Ens Hst. pose proof (owner_outlives r Hr o s w' Ho Hs' En Ens Hst) as Hl'. by rewrite Hx in Hl'.
Qed.

(** ** A fresh collection *)

Section fresh.
Context {W : Type} {Hk : PinKernel W} {Hv : PinView W} {Hl : PinLaws W}.
Context (r : pinOwnerRecord) (collection : gmap string Z).
Lemma pin_fresh_spec d (w : W) : let '(x, w') := pin_fresh r collection d w in
  extends (pv_dir w) (pv_dir w') /\ (forall n, n <> md_name d -> pv_dir w' !! n = pv_dir w !! n) /\
  (x = inl tt -> pv_dir w' !! md_name d = Some (record_id r (md_name d))).
Proof.
  assert (pwp (pin_fresh r collection d) (fun _ w' => extends (pv_dir w) (pv_dir w') /\ (forall n, n <> md_name d -> pv_dir w' !! n = pv_dir w !! n) /\
      pv_dir w' !! md_name d = Some (record_id r (md_name d)))
    (fun w' => extends (pv_dir w) (pv_dir w') /\ forall n, n <> md_name d -> pv_dir w' !! n = pv_dir w !! n) w) as H.
  2: { unfold pwp in H. destruct (pin_fresh r collection d w) as [[[]|e] w']; naive_solver. }
  assert (forall w', pv_dir w' = pv_dir w -> extends (pv_dir w) (pv_dir w') /\ forall n, n <> md_name d -> pv_dir w' !! n = pv_dir w !! n) as Hsame.
  { intros w' ->. split; [by intros ? ?|done]. }
  unfold pin_fresh. apply pwp_bind. eapply pwp_steady; [done|auto with pins|done|]. intros [s|] w1 Hs E1; [by apply pwp_fail, Hsame|].
  apply stat_none in Hs. destruct (collection !! md_name d) as [m|]; [|by apply pwp_fail, Hsame].
  apply pwp_refuse; [intros _|intros _; by apply Hsame]. apply pwp_bind, pwp_wrap. unfold pwp at 1, pcall. pose proof (pl_pinMap m (md_name d) w1) as Hp.
  destruct (pk_pinMap m (md_name d) w1) as [[e|] w2]; [apply Hsame; congruence|]. destruct Hp as (_ & id & E2). rewrite E1 in E2.
  assert (forall w', pv_dir w' = pv_dir w2 -> extends (pv_dir w) (pv_dir w') /\ forall n, n <> md_name d -> pv_dir w' !! n = pv_dir w !! n) as Hadd.
  { intros w' ->. rewrite E2. split; [intros n j Hj; rewrite lookup_insert_ne; [done|intros <-; congruence]|]. intros n Hn. by apply lookup_insert_ne. }
  apply pwp_bind. eapply pwp_steady; [reflexivity|apply steady_validate|exact Hadd|]. intros p w3 Hv3 E3. apply validate_id in Hv3 as [Hid _].
  apply pwp_bind. eapply pwp_steady; [exact E3|apply steady_or_close_quietly; destruct (String.eqb _ _); auto with pins|exact Hadd|]. intros _ w4 _ E4.
  eapply pwp_steady; [exact E4|apply steady_call; intros; apply pl_close|exact Hadd|]. intros _ w5 _ E5. destruct (Hadd _ E5). split_and!; [done..|]. by rewrite E5.
Qed.
(** Nothing that was pinned changes, and on success every canonical name pins the
    map of the record. *)
Theorem fresh_maps_pinned (w : W) : let '(x, w') := pinFreshCollectionMaps r collection w in
  extends (pv_dir w) (pv_dir w') /\
  (x = inl tt -> forall d, d ∈ pinnedMapDescriptors -> pv_dir w' !! md_name d = Some (record_id r (md_name d))).
Proof.
  unfold pinFreshCollectionMaps. generalize pinnedMapDescriptors as l. intros l. revert w. induction l as [|d l IH]; intros w; cbn [pfor].
  { split; [by intros ? ?|]. intros _ d Hd. by apply not_elem_of_nil in Hd. }
  unfold pbind. pose proof (pin_fresh_spec d w) as H1. destruct (pin_fresh r collection d w) as [[[]|e] w1]; destruct H1 as (X1 & _ & P1); [|done].
  pose proof (IH w1) as H2. destruct (pfor l (pin_fresh r collection) w1) as [x w2]. destruct H2 as [X2 P2]. split; [by intros n j Hj; apply X2, X1|].
  intros Hx d' [->|Hd']%elem_of_cons; [by apply X2, P1|by apply P2].
Qed.
End fresh.

(** ** A pin directory in memory *)

Definition toy_observation (name : string) (id : Z) : pinnedMapObservation :=
  match ownerMapDescriptor name with
  | inl d => mkMapObservation 3 id (md_mapType d) (md_keySize d) (md_valueSize d) (md_maxEntries d) (md_flags d)
               (String.substring 0 15 name) 0 false (mkControlValue 1 Version 0) true (mkSentinel 1 0 [] []) true true
  | inr _ => mkMapObservation 3 id MapHash 0 0 0 0 "" 0 false (mkControlValue 1 Version 0) true (mkSentinel 1 0 [] []) true true
  end.
Abbreviation toy_dir := (gmap string Z).
#[local] Instance toy_pins : PinView toy_dir := { pv_dir := fun w => w }.
Definition toy_add (n : string) (id : Z) (w : toy_dir) : option pin_error * toy_dir :=
  match w !! n with Some _ => (Some (refusal "file exists"), w) | None => (None, <[n := id]> w) end.
#[local] Instance toy_pin_kernel : PinKernel toy_dir := {
  pk_expectedUID := 0; pk_mountID := 1;
  pk_fstatat n w := (match w !! n with Some _ => inl (mkPinStat 1 7 (pin_S_IFREG + 384) 0 0 1) | None => inr (mkPinError true "no such file") end, w);
  pk_mountIDAt _ w := (inl 1, w);
  pk_loadPinnedMap n k w := (match w !! n with Some id => inl (toy_observation k id) | None => inr (mkPinError true "no such file") end, w);
  pk_close _ w := (None, w);
  pk_pin o n w := toy_add n (ob_id o) w;
  pk_renameNoReplace a b w := match w !! a, w !! b with
    | Some id, None => (None, <[b := id]> (delete a w))
    | _, _ => (Some (refusal "rename"), w)
    end;
  pk_unlink n w := (None, delete n w);
  pk_readDir w := (inl (map fst (map_to_list w)), w);
  pk_beforePinQuarantine _ w := (None, w); pk_beforePinUnlink _ w := (None, w);
  pk_sentinelFor _ := inl (mkSentinel 1 0 [] []);
  pk_mapInfo m w := (inl (Some m), w);
  pk_pinMap m n w := toy_add n m w
}.
Lemma toy_add_spec n id (w : toy_dir) : let '(e, w') := toy_add n id w in
  match e with None => w !! n = None /\ w' = <[n := id]> w | Some _ => w' = w end.
Proof. unfold toy_add. by destruct (w !! n) eqn:E. Qed.
#[local] Instance toy_pin_laws : PinLaws toy_dir.
Proof.
  split; intros; cbn; try done.
  - split; [done|]. destruct (w !! n) eqn:E; [by eauto|done].
  - split; [done|]. destruct (w !! n) as [id|] eqn:E; [|done]. unfold toy_observation. by destruct (ownerMapDescriptor k).
  - pose proof (toy_add_spec n (ob_id o) w) as H. by destruct (toy_add n (ob_id o) w).
  - destruct (w !! a) eqn:Ea; [|done]. destruct (w !! b) eqn:Eb; [done|]. eauto.
  - split; [done|]. intros _ n. rewrite list_elem_of_In, in_map_iff. split.
    + intros ([k v] & <- & Hin%list_elem_of_In). apply elem_of_map_to_list in Hin. by eauto.
    + intros [v Hv']. exists (n, v). split; [done|]. by apply list_elem_of_In, elem_of_map_to_list.
  - pose proof (toy_add_spec n m w) as H. destruct (toy_add n m w) as [[e|] w']; [done|]. destruct H. eauto.
Qed.
Definition toy_record : pinOwnerRecord := mkOwnerRecord pinOwnerRecordVersion "" 1 [mkMapIdentity "control_map" 11; mkMapIdentity "owner_map" 12]
  [mkMapStage "control_map" "stage-control" 11; mkMapStage "owner_map" "stage-owner" 12].
Definition toy_pinned : toy_dir := <["control_map" := 11]> (<["owner_map" := 12]> (<["other" := 99]> ∅)).
Definition toy_canonical : list pinnedMapPin :=
  map (fun m => mkMapPin (mkDescriptor (om_Name m) MapArray 4 16 1 0) (mkPinInode 1 7 (pin_S_IFREG + 384) 0 0 1) (Some (toy_observation (om_Name m) (om_ID m))))
    (or_Maps toy_record).
Definition toy_after_stage : toy_dir := (stageOwnerMaps toy_record toy_canonical toy_pinned).2.
Definition toy_loaded : loadedOwnerMapStages := match (loadOwnerMapStages toy_record toy_after_stage).1 with inl l => l | inr _ => [] end.
Definition toy_removed : toy_dir := (removeCanonicalOwnerMaps toy_record toy_loaded toy_after_stage).2.
Lemma toy_apart : names_apart toy_record.
Proof. unfold names_apart. apply (bool_decide_unpack _). vm_compute. exact I. Qed.
Lemma toy_present : present toy_record (pv_dir toy_pinned).
Proof.
  intros s Hs. left. cbn in Hs. apply elem_of_cons in Hs as [->|Hs]; [vm_compute; reflexivity|].
  apply list_elem_of_singleton in Hs as ->. vm_compute. reflexivity.
Qed.
Lemma toy_detach : rtc (detach_step toy_record) toy_pinned toy_removed.
Proof.
  eapply rtc_l; [apply (ds_stage toy_record toy_canonical)|]. eapply rtc_l; [|apply rtc_refl].
  apply (ds_remove toy_record toy_loaded _ toy_after_stage). vm_compute. reflexivity.
Qed.
(** Staged and removed: the maps are under their stage names, and a restore puts the canonical pins back. *)
Lemma owner_maps_never_lost_witness :
  present toy_record toy_removed /\
  toy_removed = <["stage-control" := 11]> (<["stage-owner" := 12]> (<["other" := 99]> ∅)) /\
  (restoreCanonicalOwnerMaps toy_record toy_loaded toy_removed).1 = None.
Proof.
  split; [|split; vm_compute; reflexivity].
  exact (proj1 (owner_maps_never_lost toy_record toy_pinned toy_removed toy_apart toy_present toy_detach)).
Defined.
