(* ===== verification/TcTransaction.v ===== *)
(** * Attaching the classic TC programs (internal/dataplane/tc_transaction_linux.go)

    The plan of an attachment (links, the filters found in the managed slots, the
    stale filters to remove), its execution with rollback, and the checks against
    the owner record.  netlink and the program loader are the class [TcRuntime];
    a link is its index; filter chains are left out. *)
From Stdlib Require Import ZArith Lia.
From stdpp Require Import base option list gmap strings numbers sorting pretty.
From S2P Require Import Prelude ErrorState Config Profile Control Coordinator Guard.

Definition HANDLE_CLSACT : Z := 4294967281.
Definition HANDLE_MIN_INGRESS : Z := 4294967282.
Definition HANDLE_MIN_EGRESS : Z := 4294967283.
(** [netlink.MakeHandle(0xffff, 0)]. *)
Definition clsact_handle : Z := 4294901760.
Definition ETH_P_ALL : Z := 3.
Definition ingressFilterName : string := "wg_mix_ingress".
Definition egressFilterName : string := "wg_mix_egress".
Definition filterPriority : Z := 49152.
Definition tc_ingressHandle : Z := 65537.
Definition tc_egressHandle : Z := 65538.

(** ** netlink *)

Record Qdisc := mkQdisc { qd_Type : string; qd_LinkIndex : Z; qd_Handle : Z; qd_Parent : Z }.
Record FilterAttrs := mkAttrs {
  fa_LinkIndex : Z; fa_Handle : Z; fa_Parent : Z; fa_Priority : Z; fa_Protocol : Z
}.
Record BpfFilter := mkBpf { bf_Name : string; bf_DirectAction : bool; bf_Id : Z; bf_ClassId : Z }.
(** A filter as the kernel lists it; [None]: not a BPF filter. *)
Record TcFilter := mkFilter { tf_attrs : FilterAttrs; tf_bpf : option BpfFilter }.
#[export] Instance FilterAttrs_eq_dec : EqDecision FilterAttrs.
Proof. solve_decision. Defined.
#[export] Instance BpfFilter_eq_dec : EqDecision BpfFilter.
Proof. solve_decision. Defined.
#[export] Instance TcFilter_eq_dec : EqDecision TcFilter.
Proof. solve_decision. Defined.
(** A [netlink.BpfFilter] in a request, which names its program by descriptor. *)
Record FilterRequest := mkRequest {
  rq_attrs : FilterAttrs; rq_Name : string; rq_DirectAction : bool; rq_ClassId : Z; rq_Fd : Z; rq_Id : Z
}.

(** The functions of [tcRuntime].  A nil link, program, qdisc or filter is
    [None]; a program is its descriptor; the flag of a deletion's error is
    [isNotFound]. *)
Class TcRuntime (W : Type) := {
  tc_linkByIndex : Z -> SM W (option Z);
  tc_qdiscList : Z -> SM W (list (option Qdisc));
  tc_qdiscAdd : Qdisc -> W -> option error * W;
  tc_filterList : Z -> Z -> SM W (list (option TcFilter));
  tc_filterAdd : FilterRequest -> W -> option error * W;
  tc_filterReplace : FilterRequest -> W -> option error * W;
  tc_filterDelete : FilterRequest -> W -> option (error * bool) * W;
  tc_loadProgram : Z -> SM W (option Z);
  tc_closeProgram : Z -> W -> option error * W
}.

(** ** Plans *)

Record tcProgramIdentity := mkProgram { pi_fd : Z; pi_id : Z }.
Record tcFilterSlot := mkSlot { sl_parent : Z; sl_handle : Z; sl_name : string }.
Record tcFilterSnapshot := mkSnapshot {
  sn_slot : tcFilterSlot; sn_existed : bool; sn_programID : Z; sn_oldProgram : option Z;
  sn_attrs : FilterAttrs; sn_classID : Z
}.
Record tcLinkAttachPlan := mkLinkPlan {
  lp_ifindex : Z; lp_link : Z; lp_clsactExists : bool; lp_filters : list tcFilterSnapshot
}.
Record tcOwnedStaleFilter := mkStale { os_key : string; os_link : Z; os_snapshot : tcFilterSnapshot }.
Record tcAttachPlan := mkPlan {
  ap_links : list tcLinkAttachPlan; ap_stale : list tcOwnedStaleFilter;
  ap_ingress : tcProgramIdentity; ap_egress : tcProgramIdentity; ap_closed : bool
}.
Record tcFilterBinding := mkBinding {
  tb_IfIndex : Z; tb_Direction : string; tb_Parent : Z; tb_Handle : Z; tb_Priority : Z; tb_ProgramID : Z
}.
#[export] Instance tcFilterBinding_eq_dec : EqDecision tcFilterBinding.
Proof. solve_decision. Defined.
Record tcAppliedFilter := mkApplied { af_link : Z; af_snapshot : tcFilterSnapshot; af_program : tcProgramIdentity }.

Definition attrs_zero : FilterAttrs := mkAttrs 0 0 0 0 0.
Definition snapshot_zero (slot : tcFilterSlot) : tcFilterSnapshot := mkSnapshot slot false 0 None attrs_zero 0.

Definition canonicalTCFilterSlots : list tcFilterSlot :=
  [mkSlot HANDLE_MIN_INGRESS tc_ingressHandle ingressFilterName;
   mkSlot HANDLE_MIN_EGRESS tc_egressHandle egressFilterName].
Definition direction_of (slot : tcFilterSlot) : string :=
  if sl_parent slot =? HANDLE_MIN_EGRESS then "egress" else "ingress".
Definition slot_key (ifindex : Z) (direction : string) : string := fmt_d ifindex +:+ "/" +:+ direction.

Definition canonicalClsact (ifindex : Z) : Qdisc := mkQdisc "clsact" ifindex clsact_handle HANDLE_CLSACT.
Definition managedAttrs (ifindex : Z) (slot : tcFilterSlot) : FilterAttrs :=
  mkAttrs ifindex (sl_handle slot) (sl_parent slot) filterPriority ETH_P_ALL.
Definition managedBpfFilter (ifindex : Z) (slot : tcFilterSlot) (fd : Z) : FilterRequest :=
  mkRequest (managedAttrs ifindex slot) (sl_name slot) true 0 fd 0.
Definition with_id (id : Z) (rq : FilterRequest) : FilterRequest :=
  mkRequest (rq_attrs rq) (rq_Name rq) (rq_DirectAction rq) (rq_ClassId rq) (rq_Fd rq) id.
(** The request that puts a snapshot back, or deletes it. *)
Definition snapshot_request (link : Z) (sn : tcFilterSnapshot) : FilterRequest :=
  let rq := managedBpfFilter link (sn_slot sn) (default 0 (sn_oldProgram sn)) in
  mkRequest (sn_attrs sn) (rq_Name rq) (rq_DirectAction rq) (sn_classID sn) (rq_Fd rq) (rq_Id rq).

(** ** The interfaces of a state *)

Fixpoint attach_ifindexes (seen : list Z) (us : list UnderlayState) : outcome (list Z) :=
  match us with
  | [] => Ret []
  | u :: us =>
      if negb (productionUnderlayIsAttachable u) then attach_ifindexes seen us
      else
        fail_if us_IfIndex u <=? 0 with "underlay has invalid ifindex" in
        fail_if bool_decide (us_IfIndex u ∈ seen) with "underlays resolve to duplicate ifindex" in
        let! rest := attach_ifindexes (us_IfIndex u :: seen) us in
        Ret (us_IfIndex u :: rest)
  end.
Definition activeAttachIfindexes (st : State) : outcome (list Z) :=
  let! l := attach_ifindexes [] (st_Underlays st) in Ret (merge_sort Z.le l).

Section tc.
Context {W : Type} `{TcRuntime W}.

(** ** Inspection *)

Definition clsact_collides (q : Qdisc) : bool :=
  (qd_Handle q =? clsact_handle) || (qd_Parent q =? HANDLE_CLSACT) || String.eqb (qd_Type q) "clsact".
Definition clsact_canonical (link : Z) (q : Qdisc) : bool :=
  String.eqb (qd_Type q) "clsact" && (qd_LinkIndex q =? link) && (qd_Handle q =? clsact_handle) &&
  (qd_Parent q =? HANDLE_CLSACT).
Fixpoint count_clsacts (link : Z) (count : Z) (l : list (option Qdisc)) : Z + error :=
  match l with
  | [] => inl count
  | None :: _ => inr "kernel returned a nil qdisc"
  | Some q :: l =>
      if negb (clsact_collides q) then count_clsacts link count l
      else if negb (clsact_canonical link q) then inr "foreign qdisc collides with the clsact slot"
      else count_clsacts link (count + 1) l
  end.
Definition spure {A} (r : A + error) : SM W A := fun w => (r, w).
Definition inspectClsact (link : Z) : SM W bool :=
  try! qdiscs := tc_qdiscList link in
  try! count := spure (count_clsacts link 0 qdiscs) in
  reject 1 <? count with "duplicate clsact qdiscs" in
  sret (count =? 1).

(** Whether a filter is at least in part the slot's, and whether it is its own. *)
Definition slot_collides (slot : tcFilterSlot) (f : TcFilter) : bool :=
  match tf_bpf f with Some b => String.eqb (bf_Name b) (sl_name slot) | None => false end ||
  (fa_Handle (tf_attrs f) =? sl_handle slot).
Definition slot_owns (link : Z) (slot : tcFilterSlot) (f : TcFilter) : option BpfFilter :=
  match tf_bpf f with
  | Some b =>
      if String.eqb (bf_Name b) (sl_name slot) && bool_decide (tf_attrs f = managedAttrs link slot) &&
         bf_DirectAction b && (0 <? bf_Id b) then Some b else None
  | None => None
  end.
(** The snapshot of the last match, and the number of matches. *)
Fixpoint scan_filters (link : Z) (sn : tcFilterSnapshot) (matches : Z) (l : list (option TcFilter))
    : tcFilterSnapshot * Z + error :=
  match l with
  | [] => inl (sn, matches)
  | None :: _ => inr "kernel returned a nil TC filter"
  | Some f :: l =>
      if negb (slot_collides (sn_slot sn) f) then scan_filters link sn matches l
      else match slot_owns link (sn_slot sn) f with
           | None => inr "foreign filter collides with managed slot"
           | Some b =>
               scan_filters link
                 (mkSnapshot (sn_slot sn) true (u32 (bf_Id b)) (sn_oldProgram sn) (tf_attrs f) (bf_ClassId b))
                 (matches + 1) l
           end
  end.
Definition retain_program (sn : tcFilterSnapshot) : SM W tcFilterSnapshot :=
  try! program := swrap "retain old program: " (tc_loadProgram (sn_programID sn)) in
  match program with
  | None => sfail "retain old program returned an invalid FD"
  | Some fd => fun w =>
      if fd <? 0 then let '(_, w) := tc_closeProgram fd w in (inr "retain old program returned an invalid FD", w)
      else (inl (mkSnapshot (sn_slot sn) (sn_existed sn) (sn_programID sn) (Some fd) (sn_attrs sn) (sn_classID sn)), w)
  end.
Definition inspectTCFilterSlot (link : Z) (slot : tcFilterSlot) (retainProgram : bool) : SM W tcFilterSnapshot :=
  try! filters := tc_filterList link (sl_parent slot) in
  try! scanned := spure (scan_filters link (snapshot_zero slot) 0 filters) in
  reject 1 <? scanned.2 with "duplicate managed filters" in
  if sn_existed scanned.1 && retainProgram then retain_program scanned.1 else sret scanned.1.

Definition recheckFilterSnapshot (link : Z) (want : tcFilterSnapshot) : SM W unit :=
  try! current := inspectTCFilterSlot link (sn_slot want) false in
  reject negb (Bool.eqb (sn_existed current) (sn_existed want)) with "filter presence changed after preflight" in
  reject sn_existed current && negb (sn_programID current =? sn_programID want)
    with "filter program changed after preflight" in
  sret tt.
Definition verifyManagedFilter (link : Z) (slot : tcFilterSlot) (programID : Z) : SM W unit :=
  try! current := inspectTCFilterSlot link slot false in
  reject negb (sn_existed current) with "managed filter is absent" in
  reject negb (sn_programID current =? programID) with "managed filter has another program ID" in
  sret tt.
(** [linkByIndex] with the check of its answer. *)
Definition find_link (ifindex : Z) : SM W Z :=
  try! link := tc_linkByIndex ifindex in
  match link with
  | Some index => reject negb (index =? ifindex) with "returned a mismatched link" in sret index
  | None => sfail "returned a mismatched link"
  end.

(** ** Closing *)

Definition forget_program (sn : tcFilterSnapshot) : tcFilterSnapshot :=
  mkSnapshot (sn_slot sn) (sn_existed sn) (sn_programID sn) None (sn_attrs sn) (sn_classID sn).
Fixpoint close_programs (prefix : error) (l : list tcFilterSnapshot) (w : W) : list error * W :=
  match l with
  | [] => ([], w)
  | sn :: l =>
      match sn_oldProgram sn with
      | None => close_programs prefix l w
      | Some fd =>
          let '(err, w) := tc_closeProgram fd w in
          let '(errs, w) := close_programs prefix l w in
          (match err with Some e => (prefix +:+ e) :: errs | None => errs end, w)
      end
  end.
Definition plan_Close (plan : tcAttachPlan) (w : W) : option error * tcAttachPlan * W :=
  if ap_closed plan then (None, plan, w)
  else
    let '(errs, w) := close_programs "close retained old TC program: " (flat_map lp_filters (ap_links plan)) w in
    let '(errs', w) := close_programs "close retained stale TC program: " (map os_snapshot (ap_stale plan)) w in
    (errors_Join_all (errs ++ errs'),
     mkPlan (map (fun lp => mkLinkPlan (lp_ifindex lp) (lp_link lp) (lp_clsactExists lp)
                              (map forget_program (lp_filters lp))) (ap_links plan))
            (map (fun os => mkStale (os_key os) (os_link os) (forget_program (os_snapshot os))) (ap_stale plan))
            (ap_ingress plan) (ap_egress plan) true, w).

(** ** Preflight *)

Fixpoint snapshot_slots (link : Z) (slots : list tcFilterSlot) : SM W (list tcFilterSnapshot) :=
  match slots with
  | [] => sret []
  | slot :: slots =>
      try! sn := swrap "preflight filter: " (inspectTCFilterSlot link slot true) in
      try! sns := snapshot_slots link slots in
      sret (sn :: sns)
  end.
Definition preflight_link (ifindex : Z) : SM W tcLinkAttachPlan :=
  try! link := swrap "preflight underlay: " (find_link ifindex) in
  try! clsact := swrap "preflight clsact: " (inspectClsact link) in
  try! filters := snapshot_slots link canonicalTCFilterSlots in
  sret (mkLinkPlan ifindex link clsact filters).
Definition add_link (plan : tcAttachPlan) (lp : tcLinkAttachPlan) : tcAttachPlan :=
  mkPlan (ap_links plan ++ [lp]) (ap_stale plan) (ap_ingress plan) (ap_egress plan) (ap_closed plan).
Fixpoint preflight_links (plan : tcAttachPlan) (ifindexes : list Z) : SM W tcAttachPlan :=
  match ifindexes with
  | [] => sret plan
  | i :: ifindexes => fun w =>
      match preflight_link i w with
      | (inl lp, w) => preflight_links (add_link plan lp) ifindexes w
      | (inr e, w) => let '(_, _, w) := plan_Close plan w in (inr e, w)
      end
  end.
Definition valid_program (p : tcProgramIdentity) : bool := negb (pi_fd p <? 0) && negb (pi_id p =? 0).
Definition prepareTCAttachPlan (st : State) (ingress egress : tcProgramIdentity) : SM W tcAttachPlan :=
  reject negb (valid_program ingress && valid_program egress)
    with "TC attach requires non-zero program IDs and valid program FDs" in
  match activeAttachIfindexes st with
  | Ret ifindexes => preflight_links (mkPlan [] [] ingress egress false) ifindexes
  | Fail e => sfail e
  | Panic => sfail "panic"
  end.

(** ** Bindings *)

Definition programForSlot (plan : tcAttachPlan) (slot : tcFilterSlot) : tcProgramIdentity :=
  if sl_parent slot =? HANDLE_MIN_EGRESS then ap_egress plan else ap_ingress plan.
Definition slot_binding (ifindex : Z) (slot : tcFilterSlot) (programID : Z) : tcFilterBinding :=
  mkBinding ifindex (direction_of slot) (sl_parent slot) (sl_handle slot) filterPriority programID.
Definition Bindings (plan : tcAttachPlan) : list tcFilterBinding :=
  flat_map (fun lp => map (fun sn => slot_binding (lp_ifindex lp) (sn_slot sn) (pi_id (programForSlot plan (sn_slot sn))))
                        (lp_filters lp)) (ap_links plan).

(** Bindings in the order of interface, direction, parent, handle, priority, program. *)
Definition binding_keys (b : tcFilterBinding) : list Z :=
  [tb_IfIndex b; if String.eqb (tb_Direction b) "egress" then 1 else 0; tb_Parent b; tb_Handle b;
   tb_Priority b; tb_ProgramID b].
Fixpoint keys_leb (l r : list Z) : bool :=
  match l, r with
  | x :: l, y :: r => (x <? y) || ((x =? y) && keys_leb l r)
  | _, _ => true
  end.
Definition binding_le (l r : tcFilterBinding) : Prop := keys_leb (binding_keys l) (binding_keys r) = true.
#[export] Instance binding_le_dec l r : Decision (binding_le l r).
Proof. unfold binding_le. apply _. Defined.
Definition sortTCFilterBindings (l : list tcFilterBinding) : list tcFilterBinding := merge_sort binding_le l.
Definition ObservedBindings (plan : tcAttachPlan) : list tcFilterBinding :=
  sortTCFilterBindings
    (flat_map (fun lp => map (fun sn => slot_binding (lp_ifindex lp) (sn_slot sn) (sn_programID sn))
                           (filter (fun sn => sn_existed sn = true) (lp_filters lp))) (ap_links plan)).

(** *** Against the owner record *)

Definition binding_key (b : tcFilterBinding) : string := slot_key (tb_IfIndex b) (tb_Direction b).
Fixpoint bindings_by_slot (acc : gmap string tcFilterBinding) (l : list tcFilterBinding)
    : gmap string tcFilterBinding + error :=
  match l with
  | [] => inl acc
  | b :: l =>
      match acc !! binding_key b with
      | Some _ => inr "owner record repeats active TC slot"
      | None => bindings_by_slot (<[binding_key b := b]> acc) l
      end
  end.
Definition validate_slot (bySlot : gmap string tcFilterBinding) (fresh : bool) (ifindex : Z) (sn : tcFilterSnapshot)
    : option error :=
  if fresh then
    if sn_existed sn then Some "fresh BPF instance found a pre-existing managed-looking TC filter; refusing ownership"
    else None
  else match sn_existed sn, bySlot !! slot_key ifindex (direction_of (sn_slot sn)) with
       | true, None => Some "TC filter is not owned by the persistent record"
       | false, Some _ => Some "owned TC filter is missing"
       | true, Some b => if negb (sn_programID sn =? tb_ProgramID b)
                         then Some "TC filter has another program ID than the owner record requires" else None
       | false, None => None
       end.
(** The first error of a list of checks. *)
Fixpoint first_error (l : list (option error)) : option error :=
  match l with [] => None | Some e :: _ => Some e | None :: l => first_error l end.
Definition ValidatePreviousBindings (plan : tcAttachPlan) (active : list tcFilterBinding) (fresh : bool) : option error :=
  match bindings_by_slot ∅ active with
  | inr e => Some e
  | inl bySlot =>
      first_error (flat_map (fun lp => map (validate_slot bySlot fresh (lp_ifindex lp)) (lp_filters lp)) (ap_links plan))
  end.

Fixpoint ownerFilterSlot_in (slots : list tcFilterSlot) (b : tcFilterBinding) : tcFilterSlot + error :=
  match slots with
  | [] => inr "owner filter has invalid direction"
  | slot :: slots =>
      if negb (String.eqb (tb_Direction b) (direction_of slot)) then ownerFilterSlot_in slots b
      else if negb ((tb_Parent b =? sl_parent slot) && (tb_Handle b =? sl_handle slot) && (tb_Priority b =? filterPriority))
      then inr "owner filter does not use its canonical slot"
      else inl slot
  end.
Definition ownerFilterSlot : tcFilterBinding -> tcFilterSlot + error := ownerFilterSlot_in canonicalTCFilterSlots.

Definition current_keys (plan : tcAttachPlan) : list string :=
  flat_map (fun lp => map (fun sn => slot_key (lp_ifindex lp) (direction_of (sn_slot sn))) (lp_filters lp)) (ap_links plan).
Definition stale_filter (b : tcFilterBinding) : SM W tcOwnedStaleFilter :=
  try! slot := spure (ownerFilterSlot b) in
  try! link := swrap "preflight stale owner TC slot: " (find_link (tb_IfIndex b)) in
  try! clsact := swrap "preflight stale owner clsact: " (inspectClsact link) in
  reject negb clsact with "owned stale TC slot has no clsact" in
  try! sn := swrap "preflight stale owner filter: " (inspectTCFilterSlot link slot true) in
  if negb (sn_existed sn) || negb (sn_programID sn =? tb_ProgramID b) then fun w =>
    let '(_, w) := close_programs "" [sn] w in (inr "stale owner TC slot has another program", w)
  else sret (mkStale (binding_key b) link sn).
Definition add_stale (plan : tcAttachPlan) (os : tcOwnedStaleFilter) : tcAttachPlan :=
  mkPlan (ap_links plan) (ap_stale plan ++ [os]) (ap_ingress plan) (ap_egress plan) (ap_closed plan).
Definition sort_stale (plan : tcAttachPlan) : tcAttachPlan :=
  mkPlan (ap_links plan) (merge_sort (fun a b => string_leb (os_key a) (os_key b)) (ap_stale plan))
    (ap_ingress plan) (ap_egress plan) (ap_closed plan).
(** The plan is changed in place: what an error leaves behind is returned too. *)
Fixpoint add_stales (plan : tcAttachPlan) (active : list tcFilterBinding) (w : W)
    : option error * tcAttachPlan * W :=
  match active with
  | [] => (None, sort_stale plan, w)
  | b :: active =>
      if bool_decide (binding_key b ∈ current_keys plan) then add_stales plan active w
      else match stale_filter b w with
           | (inl os, w) => add_stales (add_stale plan os) active w
           | (inr e, w) => (Some e, plan, w)
           end
  end.
Definition AddOwnedStaleRemovals (plan : tcAttachPlan) (active : list tcFilterBinding) (w : W)
    : option error * tcAttachPlan * W :=
  if ap_closed plan then (Some "TC attach plan is unavailable", plan, w) else add_stales plan active w.

(** ** Rollback *)

Definition restore_stale (change : tcOwnedStaleFilter) : SM W unit :=
  let sn := os_snapshot change in
  try! current := inspectTCFilterSlot (os_link change) (sn_slot sn) false in
  reject sn_existed current with "refuse restore of stale owner TC slot because it was repopulated" in
  must! swrap "restore stale owner TC slot: " (scall (tc_filterAdd (snapshot_request (os_link change) sn))) in
  swrap "verify restored stale owner TC slot: " (verifyManagedFilter (os_link change) (sn_slot sn) (sn_programID sn)).
Definition delete_ignoring_absence (rq : FilterRequest) : SM W unit := fun w =>
  let '(err, w) := tc_filterDelete rq w in
  (match err with Some (e, false) => inr e | _ => inl tt end, w).
Definition undo_applied (change : tcAppliedFilter) : SM W unit :=
  let sn := af_snapshot change in let link := af_link change in
  must! swrap "refuse rollback because the slot changed: "
          (verifyManagedFilter link (sn_slot sn) (pi_id (af_program change))) in
  if sn_existed sn then
    must! swrap "restore: " (scall (tc_filterReplace (snapshot_request link sn))) in
    swrap "verify restored: " (verifyManagedFilter link (sn_slot sn) (sn_programID sn))
  else
    try! current := inspectTCFilterSlot link (sn_slot sn) false in
    must! swrap "delete newly added: "
            (delete_ignoring_absence
               (with_id (sn_programID current) (managedBpfFilter link (sn_slot sn) (pi_fd (af_program change))))) in
    try! after := inspectTCFilterSlot link (sn_slot sn) false in
    reject sn_existed after with "newly added filter remains after rollback" in
    sret tt.
(** Every step is tried; the errors are collected. *)
Fixpoint collect {A} (f : A -> SM W unit) (l : list A) (w : W) : list error * W :=
  match l with
  | [] => ([], w)
  | a :: l =>
      let '(r, w) := f a w in
      let '(errs, w) := collect f l w in
      (match r with inr e => e :: errs | inl _ => errs end, w)
  end.
Definition tc_rollback (applied : list tcAppliedFilter) (deleted : list tcOwnedStaleFilter) (w : W) : list error * W :=
  let '(errs, w) := collect restore_stale (rev deleted) w in
  let '(errs', w) := collect undo_applied (rev applied) w in
  (errs ++ errs', w).

(** ** Execution *)

(** The world and what the transaction has done. *)
Record exec := mkExec { ex_world : W; ex_applied : list tcAppliedFilter; ex_deleted : list tcOwnedStaleFilter }.
Definition on_world {A} (m : SM W A) : SM exec A := fun x =>
  let '(r, w) := m (ex_world x) in (r, mkExec w (ex_applied x) (ex_deleted x)).
Definition push_applied (change : tcAppliedFilter) : SM exec unit := fun x =>
  (inl tt, mkExec (ex_world x) (ex_applied x ++ [change]) (ex_deleted x)).
Definition push_deleted (change : tcOwnedStaleFilter) : SM exec unit := fun x =>
  (inl tt, mkExec (ex_world x) (ex_applied x) (ex_deleted x ++ [change])).
Fixpoint siter {S A} (f : A -> SM S unit) (l : list A) : SM S unit :=
  match l with
  | [] => sret tt
  | a :: l => must! f a in siter f l
  end.

Definition ensure_clsact (lp : tcLinkAttachPlan) : SM W unit :=
  try! current := swrap "recheck clsact: " (inspectClsact (lp_link lp)) in
  reject negb (Bool.eqb current (lp_clsactExists lp)) with "clsact state changed after preflight" in
  if lp_clsactExists lp then sret tt
  else
    must! swrap "add clsact: " (scall (tc_qdiscAdd (canonicalClsact (lp_ifindex lp)))) in
    try! present := swrap "verify clsact: " (inspectClsact (lp_link lp)) in
    reject negb present with "clsact did not appear" in
    sret tt.
Definition attach_filter (plan : tcAttachPlan) (lp : tcLinkAttachPlan) (sn : tcFilterSnapshot) : SM exec unit :=
  let program := programForSlot plan (sn_slot sn) in
  let filter := managedBpfFilter (lp_ifindex lp) (sn_slot sn) (pi_fd program) in
  must! on_world (swrap "recheck before mutation: " (recheckFilterSnapshot (lp_link lp) sn)) in
  must! on_world (if sn_existed sn then swrap "replace: " (scall (tc_filterReplace filter))
                  else swrap "add: " (scall (tc_filterAdd filter))) in
  must! push_applied (mkApplied (lp_link lp) sn program) in
  on_world (swrap "verify after mutation: " (verifyManagedFilter (lp_link lp) (sn_slot sn) (pi_id program))).
Definition attach_link (plan : tcAttachPlan) (lp : tcLinkAttachPlan) : SM exec unit :=
  must! on_world (ensure_clsact lp) in
  siter (attach_filter plan lp) (lp_filters lp).
Definition delete_filter (rq : FilterRequest) : SM W unit := fun w =>
  let '(err, w) := tc_filterDelete rq w in
  (match err with Some (e, _) => inr e | None => inl tt end, w).
Definition remove_stale (stale : tcOwnedStaleFilter) : SM exec unit :=
  let sn := os_snapshot stale in
  must! on_world (swrap "recheck stale owner TC slot before delete: " (recheckFilterSnapshot (os_link stale) sn)) in
  must! on_world (swrap "delete stale owner TC slot: "
                    (delete_filter (with_id (sn_programID sn) (snapshot_request (os_link stale) sn)))) in
  must! push_deleted stale in
  try! after := on_world (inspectTCFilterSlot (os_link stale) (sn_slot sn) false) in
  reject sn_existed after with "stale owner TC slot remains after delete" in
  sret tt.
Definition execute_steps (plan : tcAttachPlan) (commit : W -> option error * W) : SM exec unit :=
  must! siter (attach_link plan) (ap_links plan) in
  must! siter remove_stale (ap_stale plan) in
  on_world (swrap "activate attached TC programs: " (scall commit)).

(** The error of a failed execution, with those of its rollback. *)
Record tc_failure := mkFailure { fl_err : error; fl_rollback : list error }.
Definition Execute (plan : tcAttachPlan) (commit : W -> option error * W) (w : W) : option tc_failure * W :=
  if ap_closed plan then (Some (mkFailure "TC attach plan is closed" []), w)
  else match execute_steps plan commit (mkExec w [] []) with
       | (inl _, x) => (None, ex_world x)
       | (inr e, x) =>
           let '(errs, w) := tc_rollback (ex_applied x) (ex_deleted x) (ex_world x) in
           (Some (mkFailure e errs), w)
       end.
End tc.
