(* ===== verification/TcTransactionProps.v ===== *)
(** * A TC attachment is all or nothing

    For every kernel that obeys [TcLaws]: calls may fail anywhere, but a filter
    changes only through this code (the lifecycle lock), and a failed call changes
    nothing. *)
From Stdlib Require Import ZArith Lia Ascii.
From stdpp Require Import base option list gmap strings numbers sorting pretty.
From S2P Require Import Prelude ErrorState Config Profile Control Coordinator Guard TcTransaction.

(** Interface, parent, priority and handle identify a filter. *)
Abbreviation filter_id := (Z * Z * Z * Z)%type (only parsing).
Definition attrs_id (a : FilterAttrs) : filter_id := (fa_LinkIndex a, fa_Parent a, fa_Priority a, fa_Handle a).
Abbreviation filters := (gmap (Z * Z * Z * Z) TcFilter) (only parsing).
Definition on_parent (link parent : Z) (e : filter_id * TcFilter) : Prop := e.1.1.1.1 = link /\ e.1.1.1.2 = parent.
#[export] Instance on_parent_dec link parent e : Decision (on_parent link parent e).
Proof. unfold on_parent. apply _. Defined.
Definition listed (link parent : Z) (m : filters) : list TcFilter :=
  map snd (filter (on_parent link parent) (map_to_list m)).
(** What the kernel installs for a request whose program has this identifier. *)
Definition installed (rq : FilterRequest) (id : Z) : TcFilter :=
  mkFilter (rq_attrs rq) (Some (mkBpf (rq_Name rq) (rq_DirectAction rq) id (rq_ClassId rq))).

Class TcLaws (W : Type) `{TcRuntime W} := {
  tl_filters : W -> filters;
  tl_list link parent w : let '(r, w') := tc_filterList link parent w in
    tl_filters w' = tl_filters w /\
    forall l, r = inl l -> l ≡ₚ map Some (listed link parent (tl_filters w));
  tl_add rq w : let '(err, w') := tc_filterAdd rq w in
    match err with
    | Some _ => tl_filters w' = tl_filters w
    | None => tl_filters w !! attrs_id (rq_attrs rq) = None /\ exists id, 0 <= id < 2 ^ 32 /\
        tl_filters w' = <[attrs_id (rq_attrs rq) := installed rq id]> (tl_filters w)
    end;
  tl_replace rq w : let '(err, w') := tc_filterReplace rq w in
    match err with
    | Some _ => tl_filters w' = tl_filters w
    | None => exists id, 0 <= id < 2 ^ 32 /\
        tl_filters w' = <[attrs_id (rq_attrs rq) := installed rq id]> (tl_filters w)
    end;
  tl_delete rq w : let '(err, w') := tc_filterDelete rq w in
    match err with
    | Some (_, absent) => tl_filters w' = tl_filters w /\
        (absent = true -> tl_filters w !! attrs_id (rq_attrs rq) = None)
    | None => tl_filters w' = delete (attrs_id (rq_attrs rq)) (tl_filters w)
    end;
  tl_link i w : tl_filters (tc_linkByIndex i w).2 = tl_filters w;
  tl_qdiscs i w : tl_filters (tc_qdiscList i w).2 = tl_filters w;
  tl_qdiscAdd q w : tl_filters (tc_qdiscAdd q w).2 = tl_filters w;
  tl_load id w : tl_filters (tc_loadProgram id w).2 = tl_filters w;
  tl_close fd w : tl_filters (tc_closeProgram fd w).2 = tl_filters w
}.

(** Filters are found under their identity and have 32-bit program identifiers. *)
Record wf_filters (m : filters) : Prop := {
  wff_id : forall k f, m !! k = Some f -> attrs_id (tf_attrs f) = k;
  wff_prog : forall k f b, m !! k = Some f -> tf_bpf f = Some b -> 0 <= bf_Id b < 2 ^ 32
}.

Definition slot_id (link : Z) (slot : tcFilterSlot) : filter_id := (link, sl_parent slot, filterPriority, sl_handle slot).
(** The filter of a slot with its program and class. *)
Definition managed (link : Z) (slot : tcFilterSlot) (program class : Z) : TcFilter :=
  mkFilter (managedAttrs link slot) (Some (mkBpf (sl_name slot) true program class)).

(** What a snapshot says about the filters. *)
Definition shows (link : Z) (m : filters) (sn : tcFilterSnapshot) : Prop :=
  m !! slot_id link (sn_slot sn) =
    (if sn_existed sn then Some (managed link (sn_slot sn) (sn_programID sn) (sn_classID sn)) else None) /\
  (sn_existed sn = true -> sn_attrs sn = managedAttrs link (sn_slot sn)).

Lemma wf_insert m k f : wf_filters m -> attrs_id (tf_attrs f) = k ->
  (forall b, tf_bpf f = Some b -> 0 <= bf_Id b < 2 ^ 32) -> wf_filters (<[k := f]> m).
Proof.
  intros [W1 W2] Hk Hb. constructor.
  - intros k' f' [[<- <-]|[? ?]]%lookup_insert_Some; [done|by apply W1].
  - intros k' f' b [[<- <-]|[? ?]]%lookup_insert_Some; [apply Hb|by eapply W2].
Qed.
Lemma wf_delete m k : wf_filters m -> wf_filters (delete k m).
Proof.
  intros [W1 W2]. constructor.
  - intros k' f' [_ ?]%lookup_delete_Some. by apply W1.
  - intros k' f' b [_ ?]%lookup_delete_Some. by eapply W2.
Qed.

Lemma listed_spec link parent m f : f ∈ listed link parent m <-> exists k, m !! k = Some f /\ k.1.1.1 = link /\ k.1.1.2 = parent.
Proof.
  unfold listed. rewrite list_elem_of_fmap. split.
  - intros ([k f'] & -> & Hin). apply list_elem_of_filter in Hin as [Hp Hin]. apply elem_of_map_to_list in Hin.
    exists k. split; [done|exact Hp].
  - intros (k & Hk & Hp). exists (k, f). split; [done|]. apply list_elem_of_filter.
    split; [exact Hp|by apply elem_of_map_to_list].
Qed.

(** ** Inspection *)

Lemma scan_spec link l : forall sn n sn' n', scan_filters link sn n l = inl (sn', n') ->
  sn_slot sn' = sn_slot sn /\
  ((sn' = sn /\ forall f, Some f ∈ l -> slot_collides (sn_slot sn) f = false) \/
   exists f b, Some f ∈ l /\ slot_owns link (sn_slot sn) f = Some b /\
     sn' = mkSnapshot (sn_slot sn) true (u32 (bf_Id b)) (sn_oldProgram sn) (tf_attrs f) (bf_ClassId b)).
Proof.
  induction l as [|[f|] l IH]; intros sn n sn' n'; cbn [scan_filters].
  - intros [= <- <-]. split; [done|]. left. split; [done|]. by intros f ?%elem_of_nil.
  - destruct (slot_collides (sn_slot sn) f) eqn:Hc; cbn [negb].
    + destruct (slot_owns link (sn_slot sn) f) as [b|] eqn:Ho; [|done]. intros Hs.
      destruct (IH _ _ _ _ Hs) as [Hslot [[-> _]|(f' & b' & Hf' & Ho' & ->)]]; cbn in *; (split; [done|]); right.
      * exists f, b. split; [by left|done].
      * exists f', b'. split; [by right|done].
    + intros Hs. destruct (IH _ _ _ _ Hs) as [Hslot [[-> Hn]|(f' & b' & Hf' & Ho' & ->)]]; (split; [done|]).
      * left. split; [done|]. intros g [[= ->]|Hg]%elem_of_cons; [done|by apply Hn].
      * right. exists f', b'. split; [by right|done].
  - done.
Qed.

Lemma owns_spec link slot f b : slot_owns link slot f = Some b ->
  f = managed link slot (bf_Id b) (bf_ClassId b).
Proof.
  unfold slot_owns, managed. destruct f as [a [b'|]]; [|done]. cbn [tf_bpf tf_attrs].
  destruct (_ && _ && _ && _) eqn:E; [|done]. intros [= ->].
  apply andb_prop in E as [[[E1%String.eqb_eq E2%bool_decide_eq_true]%andb_prop E3]%andb_prop _].
  rewrite E2. destruct b as [nm da id cl]. cbn in *. by subst.
Qed.
Lemma managed_collides link slot p c : slot_collides slot (managed link slot p c) = true.
Proof. unfold slot_collides. cbn. by rewrite String.eqb_refl. Qed.

Section props.
Context {W : Type} `{TcLaws W}.
Implicit Types w : W.

(** Steps that change no filter. *)
Definition quiet {A} (m : SM W A) : Prop := forall w, tl_filters (m w).2 = tl_filters w.
Lemma tc_quiet_bind {A B} (m : SM W A) (k : A -> SM W B) : quiet m -> (forall a, quiet (k a)) -> quiet (sbind m k).
Proof. intros Hm Hk w. unfold sbind. specialize (Hm w). destruct (m w) as [[a|e] w']; [rewrite Hk|]; done. Qed.
Lemma quiet_wrap {A} prefix (m : SM W A) : quiet m -> quiet (swrap prefix m).
Proof. intros Hm w. unfold swrap. specialize (Hm w). by destruct (m w) as [[a|e] w']. Qed.
Lemma quiet_swp {A} (m : SM W A) w : quiet m ->
  swp m (fun _ w' => tl_filters w' = tl_filters w) (fun w' => tl_filters w' = tl_filters w) w.
Proof. intros Hm. specialize (Hm w). unfold swp. by destruct (m w) as [[a|e] w']. Qed.
Lemma quiet_list link parent : quiet (tc_filterList link parent).
Proof. intros w. pose proof (tl_list link parent w) as Hl. destruct (tc_filterList link parent w). by destruct Hl. Qed.
Lemma quiet_retain sn : quiet (retain_program sn).
Proof.
  apply tc_quiet_bind; [apply quiet_wrap; intros w; apply tl_load|]. intros [fd|] w; [|done].
  destruct (fd <? 0); [|done]. pose proof (tl_close fd w) as Hc. by destruct (tc_closeProgram fd w).
Qed.
Lemma quiet_inspect link slot retain : quiet (inspectTCFilterSlot link slot retain).
Proof.
  apply tc_quiet_bind; [apply quiet_list|]. intros l. apply tc_quiet_bind; [done|]. intros [sn n]. cbn [fst snd].
  destruct (1 <? n); [done|]. destruct (_ && _); [apply quiet_retain|done].
Qed.
Lemma quiet_clsact link : quiet (inspectClsact link).
Proof.
  apply tc_quiet_bind; [intros w; apply tl_qdiscs|]. intros l. apply tc_quiet_bind; [done|]. intros n.
  by destruct (1 <? n).
Qed.

Lemma tc_inspect_spec link slot retain w : wf_filters (tl_filters w) ->
  swp (inspectTCFilterSlot link slot retain)
    (fun sn w' => tl_filters w' = tl_filters w /\ sn_slot sn = slot /\ shows link (tl_filters w) sn)
    (fun w' => tl_filters w' = tl_filters w) w.
Proof.
  intros [W1 W2]. apply swp_bind. pose proof (tl_list link (sl_parent slot) w) as Hl. unfold swp at 1.
  destruct (tc_filterList link (sl_parent slot) w) as [[l|e] w1]; destruct Hl as [Hw1 Hl]; [|done].
  specialize (Hl l eq_refl). apply swp_bind. unfold swp at 1, spure.
  destruct (scan_filters link (snapshot_zero slot) 0 l) as [[sn n]|e] eqn:Hs; [|done].
  destruct (scan_spec _ _ _ _ _ _ Hs) as [Hslot Hcase]. cbn [snapshot_zero sn_slot] in *.
  assert (shows link (tl_filters w) sn) as Hsh.
  { destruct Hcase as [[-> Hnone]|(f & b & Hf & Ho & ->)]; split; cbn; [|done| |].
    - destruct (tl_filters w !! slot_id link slot) as [f|] eqn:Hm; [|done]. exfalso.
      assert (Some f ∈ l) as Hin.
      { rewrite Hl. apply list_elem_of_fmap_2, listed_spec. by exists (slot_id link slot). }
      apply Hnone in Hin. apply W1 in Hm. injection Hm as _ _ _ Hh.
      unfold slot_collides in Hin. rewrite Hh, Z.eqb_refl, orb_true_r in Hin. done.
    - pose proof (owns_spec _ _ _ _ Ho) as Hfm. rewrite Hl in Hf.
      apply list_elem_of_fmap in Hf as (f' & [= <-] & Hf). apply listed_spec in Hf as (k & Hk & _ & _).
      pose proof (W1 _ _ Hk) as Hkid. rewrite Hfm in Hkid. cbn in Hkid.
      assert (0 <= bf_Id b < 2 ^ 32) as Hb by (refine (W2 _ _ (mkBpf (sl_name slot) true (bf_Id b) (bf_ClassId b)) Hk _); by rewrite Hfm).
      rewrite u32_id by lia. rewrite <- Hfm. by rewrite <- Hkid in Hk.
    - intros _. by rewrite (owns_spec _ _ _ _ Ho). }
  cbn [fst snd]. apply swp_reject; [intros _|done].
  destruct (sn_existed sn && retain) eqn:Er; [|by cbn].
  apply swp_bind. apply swp_wrap. pose proof (quiet_swp (tc_loadProgram (sn_programID sn)) w1 (fun w => tl_load _ w)) as Hq.
  eapply swp_mono; [exact Hq| |by intros ? ->]. intros [fd|] w2 Hw2; [|cbn; congruence].
  unfold swp. destruct (fd <? 0).
  - pose proof (tl_close fd w2) as Hc. destruct (tc_closeProgram fd w2). cbn in *. congruence.
  - cbn. split_and!; [congruence|done|]. by destruct Hsh.
Qed.

Lemma quiet_recheck link sn : quiet (recheckFilterSnapshot link sn).
Proof.
  apply tc_quiet_bind; [apply quiet_inspect|]. intros current. by repeat (destruct (_ : bool); [done|]).
Qed.

Lemma verify_spec link slot id w : wf_filters (tl_filters w) ->
  swp (verifyManagedFilter link slot id)
    (fun _ w' => tl_filters w' = tl_filters w /\ exists class, tl_filters w !! slot_id link slot = Some (managed link slot id class))
    (fun w' => tl_filters w' = tl_filters w) w.
Proof.
  intros Hwf. apply swp_bind. eapply swp_mono; [exact (tc_inspect_spec link slot false w Hwf)| |done].
  intros sn w1 (Hw & Hslot & [Hs _]). rewrite Hslot in Hs.
  apply swp_reject; [intros He%negb_false_iff|done]. rewrite He in Hs.
  apply swp_reject; [intros Hid%negb_false_iff|done]. apply Z.eqb_eq in Hid. rewrite Hid in Hs.
  cbn. split; [done|by eexists].
Qed.

(** ** One change *)

Definition changed_at (k : filter_id) (m m' : filters) : Prop := forall k', k' <> k -> m' !! k' = m !! k'.
Lemma changed_refl k m : changed_at k m m.
Proof. done. Qed.
Lemma changed_insert k f m : changed_at k m (<[k := f]> m).
Proof. intros k' Hk. by rewrite lookup_insert_ne. Qed.
Lemma changed_delete k m : changed_at k m (delete k m).
Proof. intros k' Hk. by rewrite lookup_delete_ne. Qed.

(** A well-formed table that differs from [m] at most at [k]. *)
Definition step_to (k : filter_id) (m : filters) w : Prop := wf_filters (tl_filters w) /\ changed_at k m (tl_filters w).
Lemma step_refl k w : wf_filters (tl_filters w) -> step_to k (tl_filters w) w.
Proof. intros Hw. split; [done|apply changed_refl]. Qed.
Lemma step_same k m w w' : step_to k m w -> tl_filters w' = tl_filters w -> step_to k m w'.
Proof. intros Hs Hw. unfold step_to. by rewrite Hw. Qed.

(** Installing a filter in a slot, by an addition or a replacement. *)
Definition installs (rq : FilterRequest) (f : FilterRequest -> W -> option error * W) : Prop :=
  forall w, match f rq w with
            | (Some _, w') => tl_filters w' = tl_filters w
            | (None, w') => exists id, 0 <= id < 2 ^ 32 /\
                tl_filters w' = <[attrs_id (rq_attrs rq) := installed rq id]> (tl_filters w)
            end.
Lemma add_installs rq : installs rq tc_filterAdd.
Proof. intros w. pose proof (tl_add rq w) as Ha. destruct (tc_filterAdd rq w) as [[e|] w']; [done|]. by destruct Ha. Qed.
Lemma replace_installs rq : installs rq tc_filterReplace.
Proof. intros w. pose proof (tl_replace rq w) as Ha. by destruct (tc_filterReplace rq w) as [[e|] w']. Qed.

Lemma install_wp rq f m w : installs rq f -> step_to (attrs_id (rq_attrs rq)) m w ->
  swp (scall (f rq))
    (fun _ w' => step_to (attrs_id (rq_attrs rq)) m w' /\
       exists id, tl_filters w' !! attrs_id (rq_attrs rq) = Some (installed rq id))
    (fun w' => tl_filters w' = tl_filters w) w.
Proof.
  intros Hf [Hwf Hc]. specialize (Hf w). unfold swp, scall. destruct (f rq w) as [[e|] w'].
  - done.
  - destruct Hf as (id & Hid & Hw). unfold step_to. rewrite Hw. split; [split|].
    + apply wf_insert; [done|done|]. by intros b [= <-].
    + intros k' Hk. rewrite lookup_insert_ne by done. by apply Hc.
    + exists id. by rewrite lookup_insert_eq.
Qed.

(** ** Rollback *)

(** Putting a snapshot back. *)
Lemma put_back_wp (link : Z) (sn : tcFilterSnapshot) (f : FilterRequest -> W -> option error * W) (m0 m : filters) w : sn_existed sn = true -> shows link m0 sn ->
  installs (snapshot_request link sn) f -> step_to (slot_id link (sn_slot sn)) m w ->
  swp (must! scall (f (snapshot_request link sn)) in verifyManagedFilter link (sn_slot sn) (sn_programID sn))
    (fun _ w' => step_to (slot_id link (sn_slot sn)) m w' /\
       tl_filters w' !! slot_id link (sn_slot sn) = m0 !! slot_id link (sn_slot sn))
    (step_to (slot_id link (sn_slot sn)) m) w.
Proof.
  intros He [Hs Ha] Hf Hst. rewrite He in Hs. specialize (Ha He).
  assert (attrs_id (rq_attrs (snapshot_request link sn)) = slot_id link (sn_slot sn)) as Hid by (cbn; by rewrite Ha).
  apply swp_bind. rewrite <- Hid in Hst.
  eapply swp_mono; [exact (install_wp _ _ _ _ Hf Hst)| |intros w1 Hw1; rewrite <- Hid; by eapply step_same].
  rewrite Hid. intros _ w1 [Hst1 (id & Hat)]. eapply swp_mono; [exact (verify_spec _ _ _ _ (proj1 Hst1))| |].
  - intros _ w2 (Hw2 & class & Hv). split; [by eapply step_same|]. rewrite Hw2, Hs, Hat. rewrite Hat in Hv.
    unfold installed, managed in *. cbn in *. rewrite Ha in *. injection Hv as -> _. done.
  - intros w2 Hw2. by eapply step_same.
Qed.

Lemma restore_stale_wp m0 change w : sn_existed (os_snapshot change) = true ->
  shows (os_link change) m0 (os_snapshot change) -> wf_filters (tl_filters w) ->
  let k := slot_id (os_link change) (sn_slot (os_snapshot change)) in
  swp (restore_stale change)
    (fun _ w' => step_to k (tl_filters w) w' /\ tl_filters w' !! k = m0 !! k) (step_to k (tl_filters w)) w.
Proof.
  intros He Hs Hwf k. unfold restore_stale. apply swp_bind.
  pose proof (step_refl k w Hwf) as Hst.
  eapply swp_mono; [exact (quiet_swp _ w (quiet_inspect _ _ _))| |intros w1 Hw1; by eapply step_same].
  intros current w1 Hw1. apply swp_reject; intros _; [|by eapply step_same].
  pose proof (put_back_wp _ _ tc_filterAdd _ _ w1 He Hs (add_installs _) (step_same _ _ _ _ Hst Hw1)) as Hp.
  unfold swp, sbind, swrap in *. destruct (scall _ w1) as [[a|e] w2]; [|done].
  by destruct (verifyManagedFilter _ _ _ w2) as [[b|e] w3].
Qed.

Lemma delete_wp rq m w : step_to (attrs_id (rq_attrs rq)) m w ->
  swp (delete_ignoring_absence rq)
    (fun _ w' => step_to (attrs_id (rq_attrs rq)) m w' /\ tl_filters w' !! attrs_id (rq_attrs rq) = None)
    (step_to (attrs_id (rq_attrs rq)) m) w.
Proof.
  intros [Hwf Hc]. pose proof (tl_delete rq w) as Hd. unfold swp, delete_ignoring_absence.
  destruct (tc_filterDelete rq w) as [[[e [|]]|] w'].
  - destruct Hd as [Hw Ha]. unfold step_to. rewrite Hw. auto.
  - destruct Hd as [Hw _]. unfold step_to. by rewrite Hw.
  - unfold step_to. rewrite Hd. split; [split; [by apply wf_delete|]|by rewrite lookup_delete_eq].
    intros k' Hk. rewrite lookup_delete_ne by done. by apply Hc.
Qed.

Lemma undo_applied_wp m0 change w : shows (af_link change) m0 (af_snapshot change) -> wf_filters (tl_filters w) ->
  let k := slot_id (af_link change) (sn_slot (af_snapshot change)) in
  swp (undo_applied change)
    (fun _ w' => step_to k (tl_filters w) w' /\ tl_filters w' !! k = m0 !! k) (step_to k (tl_filters w)) w.
Proof.
  intros Hs Hwf k. unfold undo_applied. pose proof (step_refl k w Hwf) as Hst. apply swp_bind, swp_wrap.
  eapply swp_mono; [exact (verify_spec _ _ _ _ Hwf)| |intros w1 Hw1; by eapply step_same].
  intros _ w1 [Hw1 _]. pose proof (step_same _ _ _ _ Hst Hw1) as Hst1.
  destruct (sn_existed (af_snapshot change)) eqn:He.
  - pose proof (put_back_wp _ _ tc_filterReplace _ _ w1 He Hs (replace_installs _) Hst1) as Hp.
    unfold swp, sbind, swrap in *. destruct (scall _ w1) as [[a|e] w2]; [|done].
    by destruct (verifyManagedFilter _ _ _ w2) as [[b|e] w3].
  - apply swp_bind.
    eapply swp_mono; [exact (quiet_swp _ w1 (quiet_inspect _ _ _))| |intros w2 Hw2; by eapply step_same].
    intros current w2 Hw2. pose proof (step_same _ _ _ _ Hst1 Hw2) as Hst2.
    apply swp_bind, swp_wrap.
    eapply swp_mono; [exact (delete_wp (with_id _ (managedBpfFilter _ _ _)) _ _ Hst2)| |done].
    intros _ w3 [Hst3 Hn]. apply swp_bind.
    eapply swp_mono; [exact (quiet_swp _ w3 (quiet_inspect _ _ _))| |intros w4 Hw4; by eapply step_same].
    intros after w4 Hw4. apply swp_reject; intros _; [|by eapply step_same].
    cbn. split; [by eapply step_same|]. rewrite Hw4. destruct Hs as [Hs _]. rewrite He in Hs. transitivity (@None TcFilter); [exact Hn|symmetry; exact Hs].
Qed.

(** All steps, each of which may restore the filter of its key. *)
Lemma collect_spec {A} (f : A -> SM W unit) (key : A -> filter_id) (m0 : filters) (l : list A) :
  (forall a w, a ∈ l -> wf_filters (tl_filters w) ->
     swp (f a) (fun _ w' => step_to (key a) (tl_filters w) w' /\ tl_filters w' !! key a = m0 !! key a)
       (step_to (key a) (tl_filters w)) w) ->
  forall w errs w', wf_filters (tl_filters w) -> collect f l w = (errs, w') ->
  wf_filters (tl_filters w') /\
  (forall k, k ∉ map key l -> tl_filters w' !! k = tl_filters w !! k) /\
  (errs = [] -> forall k, k ∈ map key l -> tl_filters w' !! k = m0 !! k).
Proof.
  induction l as [|a l IH]; intros Hf w errs w' Hwf; cbn [collect].
  { intros [= <- <-]. split_and!; [done|done|]. by intros _ k ?%elem_of_nil. }
  pose proof (Hf a w ltac:(by left) Hwf) as Ha. unfold swp in Ha. destruct (f a w) as [r w1].
  destruct (collect f l w1) as [errs1 w2] eqn:Hc. intros [= <- <-].
  assert (step_to (key a) (tl_filters w) w1 /\ (forall u, r = inl u -> tl_filters w1 !! key a = m0 !! key a)) as [[Hw1 Hch] Hr].
  { destruct r; [destruct Ha; auto|done]. }
  destruct (IH (fun a' w Ha' => Hf a' w (list_elem_of_further _ _ _ Ha')) w1 errs1 w2 Hw1 Hc) as (G1 & G2 & G3).
  split_and!; [done| |].
  - intros k Hk. cbn [map] in Hk. apply not_elem_of_cons in Hk as [Hk1 Hk2]. rewrite G2 by done. by apply Hch.
  - intros He k. cbn [map]. destruct r as [u|]; [|done]. subst errs1. intros Hk.
    destruct (decide (k ∈ map key l)) as [Hin|Hni]; [by apply G3|]. rewrite G2 by done.
    apply elem_of_cons in Hk as [-> |?]; [by eapply Hr|done].
Qed.

Definition applied_key (c : tcAppliedFilter) : filter_id := slot_id (af_link c) (sn_slot (af_snapshot c)).
Definition stale_key (d : tcOwnedStaleFilter) : filter_id := slot_id (os_link d) (sn_slot (os_snapshot d)).
(** The slots a transaction may touch. *)
Context (ks : list filter_id).
Definition stale_ok (m0 : filters) (d : tcOwnedStaleFilter) : Prop :=
  sn_existed (os_snapshot d) = true /\ shows (os_link d) m0 (os_snapshot d) /\ stale_key d ∈ ks.
Definition applied_ok (m0 : filters) (c : tcAppliedFilter) : Prop :=
  shows (af_link c) m0 (af_snapshot c) /\ applied_key c ∈ ks.

Lemma rollback_spec m0 applied deleted w errs w' : wf_filters (tl_filters w) ->
  Forall (applied_ok m0) applied -> Forall (stale_ok m0) deleted ->
  (forall k, k ∉ map applied_key applied -> k ∉ map stale_key deleted -> tl_filters w !! k = m0 !! k) ->
  tc_rollback applied deleted w = (errs, w') ->
  (forall k, k ∉ map applied_key applied -> k ∉ map stale_key deleted -> tl_filters w' !! k = m0 !! k) /\
  (errs = [] -> tl_filters w' = m0).
Proof.
  intros Hwf Ha Hd Hk. unfold tc_rollback. rewrite Forall_forall in Ha. rewrite Forall_forall in Hd.
  destruct (collect restore_stale (rev deleted) w) as [errs1 w1] eqn:E1.
  destruct (collect undo_applied (rev applied) w1) as [errs2 w2] eqn:E2. intros [= <- <-].
  destruct (collect_spec restore_stale stale_key m0 _ ltac:(
    intros d v Hd' Hv; rewrite elem_of_rev in Hd'; destruct (Hd d Hd') as (He & Hs & _); by apply restore_stale_wp)
    _ _ _ Hwf E1) as (R1 & R2 & R3).
  destruct (collect_spec undo_applied applied_key m0 _ ltac:(
    intros c v Hc Hv; rewrite elem_of_rev in Hc; by apply undo_applied_wp; [apply (Ha c Hc)|])
    _ _ _ R1 E2) as (S1 & S2 & S3).
  assert (forall {A} (key : A -> filter_id) l k, k ∈ map key (rev l) <-> k ∈ map key l) as Hrev.
  { intros A key l k. rewrite map_rev. apply elem_of_rev. }
  split.
  - intros k Hk1 Hk2. rewrite S2, R2 by (by rewrite Hrev). by apply Hk.
  - intros [-> ->]%app_eq_nil. apply map_eq. intros k.
    destruct (decide (k ∈ map applied_key applied)) as [?|Hn1]; [apply S3; [done|by rewrite Hrev]|].
    rewrite S2 by (by rewrite Hrev).
    destruct (decide (k ∈ map stale_key deleted)) as [?|Hn2]; [apply R3; [done|by rewrite Hrev]|].
    rewrite R2 by (by rewrite Hrev). by apply Hk.
Qed.

(** ** Execution *)

Lemma on_world_wp {A} (m : SM W A) Q E (x : exec) :
  swp m (fun a w => Q a (mkExec w (ex_applied x) (ex_deleted x)))
    (fun w => E (mkExec w (ex_applied x) (ex_deleted x))) (ex_world x) -> swp (on_world m) Q E x.
Proof. unfold swp, on_world. by destruct (m (ex_world x)) as [[a|e] w]. Qed.
Lemma siter_wp {S A} (f : A -> SM S unit) (l : list A) (I : list A -> S -> Prop) (E : S -> Prop) :
  (forall before a after x, l = before ++ a :: after -> I before x -> swp (f a) (fun _ => I (before ++ [a])) E x) ->
  forall x, I [] x -> swp (siter f l) (fun _ => I l) E x.
Proof.
  assert (forall after before x, l = before ++ after ->
    (forall before a after x, l = before ++ a :: after -> I before x -> swp (f a) (fun _ => I (before ++ [a])) E x) ->
    I before x -> swp (siter f after) (fun _ => I l) E x) as Hgen.
  { induction after as [|a after IH]; intros before x Hl Hf Hx; cbn [siter].
    - rewrite app_nil_r in Hl. by subst.
    - apply swp_bind. eapply swp_mono; [exact (Hf _ _ _ _ Hl Hx)| |done].
      intros ? y Hy. apply (IH (before ++ [a])); [by rewrite <- app_assoc|done|done]. }
  intros Hf x Hx. by apply (Hgen l []).
Qed.

(** The change of one planned filter, and all of them in order. *)
Definition change_of (plan : tcAttachPlan) (lp : tcLinkAttachPlan) (sn : tcFilterSnapshot) : tcAppliedFilter :=
  mkApplied (lp_link lp) sn (programForSlot plan (sn_slot sn)).
Definition link_changes (plan : tcAttachPlan) (lp : tcLinkAttachPlan) : list tcAppliedFilter :=
  map (change_of plan lp) (lp_filters lp).
Definition planned (plan : tcAttachPlan) : list tcAppliedFilter := flat_map (link_changes plan) (ap_links plan).
Definition goal_filter (c : tcAppliedFilter) : TcFilter :=
  managed (af_link c) (sn_slot (af_snapshot c)) (pi_id (af_program c)) 0.

(** A plan that describes [m0] and touches every slot once. *)
Record plan_ok (m0 : filters) (plan : tcAttachPlan) : Prop := {
  po_links : forall lp, lp ∈ ap_links plan ->
    lp_link lp = lp_ifindex lp /\ forall sn, sn ∈ lp_filters lp -> shows (lp_link lp) m0 sn;
  po_stale : Forall (stale_ok m0) (ap_stale plan);
  po_inside : forall k, k ∈ map applied_key (planned plan) -> k ∈ ks;
  po_keys : NoDup (map applied_key (planned plan) ++ map stale_key (ap_stale plan))
}.

(** While the transaction runs; between two changes, they are all in place. *)
Record underway (m0 : filters) (x : exec) : Prop := {
  un_wf : wf_filters (tl_filters (ex_world x));
  un_applied : Forall (applied_ok m0) (ex_applied x);
  un_deleted : Forall (stale_ok m0) (ex_deleted x);
  un_kept : forall k, k ∉ map applied_key (ex_applied x) -> k ∉ map stale_key (ex_deleted x) ->
    tl_filters (ex_world x) !! k = m0 !! k
}.
Record in_place (m0 : filters) (x : exec) : Prop := {
  ip_underway : underway m0 x;
  ip_applied : forall c, c ∈ ex_applied x -> tl_filters (ex_world x) !! applied_key c = Some (goal_filter c);
  ip_deleted : forall d, d ∈ ex_deleted x -> tl_filters (ex_world x) !! stale_key d = None
}.

Lemma underway_same m0 x w : underway m0 x -> tl_filters w = tl_filters (ex_world x) ->
  underway m0 (mkExec w (ex_applied x) (ex_deleted x)).
Proof. intros [U1 U2 U3 U4] Hw. constructor; cbn; rewrite ?Hw; done. Qed.
Lemma in_place_same m0 x w : in_place m0 x -> tl_filters w = tl_filters (ex_world x) ->
  in_place m0 (mkExec w (ex_applied x) (ex_deleted x)).
Proof. intros [U1 U2 U3] Hw. constructor; cbn; rewrite ?Hw; [by apply underway_same|done|done]. Qed.

(** A quiet step. *)
Lemma quiet_on_world {A} (m : SM W A) m0 x : quiet m -> in_place m0 x ->
  swp (on_world m)
    (fun _ x' => in_place m0 x' /\ ex_applied x' = ex_applied x /\ ex_deleted x' = ex_deleted x) (underway m0) x.
Proof.
  intros Hm Hx. apply on_world_wp. eapply swp_mono; [exact (quiet_swp _ _ Hm)| |].
  - intros a w Hw. split; [by apply in_place_same|done].
  - intros w Hw. by apply underway_same; [apply Hx|].
Qed.

Lemma programs_inj link slot p c p' c' : managed link slot p c = managed link slot p' c' -> p = p' /\ c = c'.
Proof. by intros [= -> ->]. Qed.

Lemma attach_filter_wp m0 plan lp sn x : in_place m0 x -> shows (lp_link lp) m0 sn -> lp_link lp = lp_ifindex lp ->
  applied_key (change_of plan lp sn) ∈ ks ->
  applied_key (change_of plan lp sn) ∉ map applied_key (ex_applied x) ->
  applied_key (change_of plan lp sn) ∉ map stale_key (ex_deleted x) ->
  swp (attach_filter plan lp sn)
    (fun _ x' => in_place m0 x' /\ ex_applied x' = ex_applied x ++ [change_of plan lp sn] /\ ex_deleted x' = ex_deleted x)
    (underway m0) x.
Proof.
  intros Hx Hs Hlink Hk Hk1 Hk2. unfold attach_filter. set (k := applied_key (change_of plan lp sn)) in *.
  set (rq := managedBpfFilter _ _ _). apply swp_bind.
  eapply swp_mono; [exact (quiet_on_world _ _ _ (quiet_wrap _ _ (quiet_recheck _ _)) Hx)| |done].
  intros _ x1 (Hx1 & Ha1 & Hd1). apply swp_bind, on_world_wp.
  destruct (ip_underway _ _ Hx1) as [U1 U2 U3 U4]. pose proof (step_refl k (ex_world x1) U1) as Hst.
  assert (attrs_id (rq_attrs rq) = k) as Hrq by (cbn; by rewrite <- Hlink).
  assert (swp (if sn_existed sn then swrap "replace: " (scall (tc_filterReplace rq)) else swrap "add: " (scall (tc_filterAdd rq)))
    (fun _ w' => step_to k (tl_filters (ex_world x1)) w' /\ exists id, tl_filters w' !! k = Some (installed rq id))
    (fun w' => tl_filters w' = tl_filters (ex_world x1)) (ex_world x1)) as Hw.
  { rewrite <- Hrq in *. destruct (sn_existed sn); apply swp_wrap, install_wp; auto using add_installs, replace_installs. }
  eapply swp_mono; [exact Hw| |intros w' Hw'; by apply underway_same; [apply Hx1|]].
  intros _ w2 [[Hwf2 Hc2] (id & Hat)]. apply swp_bind. unfold swp at 1, push_applied. cbn [ex_world ex_applied ex_deleted].
  set (x2 := mkExec w2 _ _).
  assert (underway m0 x2) as Hu2.
  { constructor; cbn; [done| |done|].
    - apply Forall_app. split; [done|]. apply Forall_singleton. by split.
    - intros k' Hk' Hk''. rewrite map_app, not_elem_of_app in Hk'. destruct Hk' as [Hk' Hne].
      rewrite Hc2; [by apply U4|]. intros ->. apply Hne. by left. }
  apply on_world_wp, swp_wrap.
  eapply swp_mono; [exact (verify_spec _ _ _ _ Hwf2)| |intros w3 Hw3; exact (underway_same _ x2 _ Hu2 Hw3)].
  intros _ w3 (Hw3 & class & Hv). split; [|by cbn; rewrite Ha1, Hd1].
  constructor; cbn [ex_world ex_applied ex_deleted].
  - exact (underway_same _ x2 _ Hu2 Hw3).
  - intros c Hc. rewrite Hw3. cbn in Hc. apply elem_of_app in Hc as [Hc| ->%list_elem_of_singleton].
    + rewrite Hc2; [by apply Hx1|]. intros Heq. apply Hk1. rewrite <- Ha1, <- Heq. by apply list_elem_of_fmap_2.
    + assert (tl_filters w2 !! k = Some (managed (lp_link lp) (sn_slot sn) (pi_id (programForSlot plan (sn_slot sn))) class)) as Hv' by exact Hv.
      rewrite Hat in Hv'. assert (class = 0) as -> by (injection Hv' as _ _ ?; done). exact Hv.
  - intros d Hd. rewrite Hw3. rewrite Hc2; [by apply Hx1|]. intros Heq. apply Hk2. rewrite <- Hd1, <- Heq.
    by apply list_elem_of_fmap_2.
Qed.

Lemma quiet_ensure_clsact lp : quiet (ensure_clsact lp).
Proof.
  apply tc_quiet_bind; [apply quiet_wrap, quiet_clsact|]. intros current. destruct (negb _); [done|].
  destruct (lp_clsactExists lp); [done|]. apply tc_quiet_bind.
  - apply quiet_wrap. intros w. unfold scall. pose proof (tl_qdiscAdd (canonicalClsact (lp_ifindex lp)) w) as Hq.
    by destruct (tc_qdiscAdd _ w).
  - intros _. apply tc_quiet_bind; [apply quiet_wrap, quiet_clsact|]. intros present. by destruct (negb _).
Qed.

Lemma attach_link_wp m0 plan lp x rest : in_place m0 x -> ex_deleted x = [] -> lp_link lp = lp_ifindex lp ->
  (forall sn, sn ∈ lp_filters lp -> shows (lp_link lp) m0 sn /\ applied_key (change_of plan lp sn) ∈ ks) ->
  NoDup (map applied_key (ex_applied x ++ link_changes plan lp ++ rest)) ->
  swp (attach_link plan lp)
    (fun _ x' => in_place m0 x' /\ ex_applied x' = ex_applied x ++ link_changes plan lp /\ ex_deleted x' = [])
    (underway m0) x.
Proof.
  intros Hx Hd Hlink Hs Hnd. apply swp_bind.
  eapply swp_mono; [exact (quiet_on_world _ _ _ (quiet_ensure_clsact lp) Hx)| |done].
  intros _ x1 (Hx1 & Ha1 & Hd1).
  refine (siter_wp (attach_filter plan lp) (lp_filters lp)
    (fun before y => in_place m0 y /\ ex_applied y = ex_applied x ++ map (change_of plan lp) before /\ ex_deleted y = [])
    _ _ _ _).
  - intros before sn after y Hl (Hy & Hya & Hyd).
    eapply swp_mono; [refine (attach_filter_wp m0 plan lp sn y Hy _ Hlink _ _ _)| |done].
    + apply Hs. rewrite Hl. apply elem_of_app. right. by left.
    + apply Hs. rewrite Hl. apply elem_of_app. right. by left.
    + rewrite Hya. assert (ex_applied x ++ link_changes plan lp ++ rest =
        (ex_applied x ++ map (change_of plan lp) before) ++ change_of plan lp sn :: map (change_of plan lp) after ++ rest) as Heq.
      { unfold link_changes. rewrite Hl, map_app. cbn [map]. by rewrite <- !app_assoc. }
      rewrite Heq, map_app in Hnd. intros Hin. apply NoDup_app in Hnd as (_ & Hdis & _). apply (Hdis _ Hin). by left.
    + rewrite Hyd. apply not_elem_of_nil.
    + intros ? z (Hz & Hza & Hzd). rewrite Hza, Hzd, Hya, map_app. cbn [map]. by rewrite app_assoc.
  - cbn. rewrite app_nil_r. split_and!; [done|done|congruence].
Qed.

Lemma attach_links_wp m0 plan w : wf_filters (tl_filters w) -> tl_filters w = m0 -> plan_ok m0 plan ->
  swp (siter (attach_link plan) (ap_links plan))
    (fun _ x => in_place m0 x /\ ex_applied x = planned plan /\ ex_deleted x = []) (underway m0) (mkExec w [] []).
Proof.
  intros Hwf Hw [P1 P2 Pk P3]. apply NoDup_app in P3 as (Hnd & _ & _).
  refine (siter_wp (attach_link plan) (ap_links plan)
    (fun before y => in_place m0 y /\ ex_applied y = flat_map (link_changes plan) before /\ ex_deleted y = []) _ _ _ _).
  - intros before lp after y Hl (Hy & Hya & Hyd).
    assert (lp ∈ ap_links plan) as Hlp by (rewrite Hl; apply elem_of_app; right; by left).
    destruct (P1 lp Hlp) as [Hlink Hs0].
    assert (forall sn, sn ∈ lp_filters lp -> shows (lp_link lp) m0 sn /\ applied_key (change_of plan lp sn) ∈ ks) as Hs.
    { intros sn Hsn. split; [by apply Hs0|]. apply Pk, list_elem_of_fmap_2, list_elem_of_In, in_flat_map.
      exists lp. split; [by apply list_elem_of_In|]. by apply in_map, list_elem_of_In. }
    eapply swp_mono; [refine (attach_link_wp m0 plan lp y (flat_map (link_changes plan) after) Hy Hyd Hlink Hs _)| |done].
    + rewrite Hya. unfold planned in Hnd. rewrite Hl, flat_map_app in Hnd. exact Hnd.
    + intros ? z (Hz & Hza & Hzd). rewrite Hza, Hya, flat_map_app. cbn [flat_map]. by rewrite app_nil_r.
  - split_and!; [|done|done]. constructor; cbn; [|by intros c ?%elem_of_nil..].
    constructor; cbn; [done|constructor|constructor|]. intros. by rewrite Hw.
Qed.

Lemma delete_filter_wp rq m w : step_to (attrs_id (rq_attrs rq)) m w ->
  swp (delete_filter rq)
    (fun _ w' => step_to (attrs_id (rq_attrs rq)) m w' /\ tl_filters w' !! attrs_id (rq_attrs rq) = None)
    (fun w' => tl_filters w' = tl_filters w) w.
Proof.
  intros [Hwf Hc]. pose proof (tl_delete rq w) as Hd. unfold swp, delete_filter.
  destruct (tc_filterDelete rq w) as [[[e a]|] w']; [by destruct Hd|].
  unfold step_to. rewrite Hd. split; [split; [by apply wf_delete|]|by rewrite lookup_delete_eq].
  intros k' Hk. rewrite lookup_delete_ne by done. by apply Hc.
Qed.

Lemma remove_stale_wp m0 stale x : in_place m0 x -> stale_ok m0 stale ->
  stale_key stale ∉ map applied_key (ex_applied x) -> stale_key stale ∉ map stale_key (ex_deleted x) ->
  swp (remove_stale stale)
    (fun _ x' => in_place m0 x' /\ ex_applied x' = ex_applied x /\ ex_deleted x' = ex_deleted x ++ [stale])
    (underway m0) x.
Proof.
  intros Hx (He & Hs & Hk) Hk1 Hk2. unfold remove_stale. set (k := stale_key stale) in *.
  set (rq := with_id _ _). apply swp_bind.
  eapply swp_mono; [exact (quiet_on_world _ _ _ (quiet_wrap _ _ (quiet_recheck _ _)) Hx)| |done].
  intros _ x1 (Hx1 & Ha1 & Hd1). apply swp_bind, on_world_wp, swp_wrap.
  destruct (ip_underway _ _ Hx1) as [U1 U2 U3 U4]. pose proof (step_refl k (ex_world x1) U1) as Hst.
  assert (attrs_id (rq_attrs rq) = k) as Hrq by (cbn; by rewrite (proj2 Hs He)).
  rewrite <- Hrq in Hst.
  eapply swp_mono; [exact (delete_filter_wp _ _ _ Hst)| |intros w' Hw'; by apply underway_same; [apply Hx1|]].
  rewrite Hrq. intros _ w2 [[Hwf2 Hc2] Hat]. apply swp_bind. unfold swp at 1, push_deleted. cbn [ex_world ex_applied ex_deleted].
  set (x2 := mkExec w2 _ _).
  assert (in_place m0 x2) as Hx2.
  { constructor; cbn.
    - constructor; cbn; [done|done| |].
      + apply Forall_app. split; [done|]. apply Forall_singleton. by split_and!.
      + intros k' Hk' Hk''. rewrite map_app, not_elem_of_app in Hk''. destruct Hk'' as [Hk'' Hne].
        rewrite Hc2; [by apply U4|]. intros ->. apply Hne. by left.
    - intros c Hc. rewrite Hc2; [by apply Hx1|]. intros Heq. apply Hk1. rewrite <- Ha1, <- Heq. by apply list_elem_of_fmap_2.
    - intros d Hd. apply elem_of_app in Hd as [Hd| ->%list_elem_of_singleton]; [|exact Hat].
      destruct (decide (stale_key d = k)) as [-> |Hne]; [exact Hat|]. rewrite Hc2 by done. by apply Hx1. }
  apply swp_bind.
  eapply swp_mono; [exact (quiet_on_world _ _ _ (quiet_inspect _ _ _) Hx2)| |done].
  intros after x3 (Hx3 & Ha3 & Hd3). apply swp_reject; intros _; [|by apply Hx3].
  cbn. rewrite Ha3, Hd3. cbn. by rewrite Ha1, Hd1.
Qed.

Lemma remove_stales_wp m0 plan x : plan_ok m0 plan -> in_place m0 x -> ex_applied x = planned plan -> ex_deleted x = [] ->
  swp (siter remove_stale (ap_stale plan))
    (fun _ y => in_place m0 y /\ ex_applied y = planned plan /\ ex_deleted y = ap_stale plan) (underway m0) x.
Proof.
  intros [P1 P2 Pk P3] Hx Ha Hd. apply NoDup_app in P3 as (_ & Hdis & Hnd). rewrite Forall_forall in P2.
  refine (siter_wp remove_stale (ap_stale plan)
    (fun before y => in_place m0 y /\ ex_applied y = planned plan /\ ex_deleted y = before) _ _ _ _); [|done].
  intros before stale after y Hl (Hy & Hya & Hyd).
  assert (stale ∈ ap_stale plan) as Hin by (rewrite Hl; apply elem_of_app; right; by left).
  eapply swp_mono; [refine (remove_stale_wp m0 stale y Hy (P2 _ Hin) _ _)| |done].
  - rewrite Hya. intros Hk. apply (Hdis _ Hk). by apply list_elem_of_fmap_2.
  - rewrite Hyd. rewrite Hl, map_app in Hnd. cbn [map] in Hnd. intros Hk.
    apply NoDup_app in Hnd as (_ & Hdis' & _). apply (Hdis' _ Hk). by left.
  - intros ? z (Hz & Hza & Hzd). by rewrite Hza, Hzd, Hya, Hyd.
Qed.

Lemma execute_steps_wp m0 plan commit w : wf_filters (tl_filters w) -> tl_filters w = m0 -> plan_ok m0 plan ->
  (forall v, tl_filters (commit v).2 = tl_filters v) ->
  swp (execute_steps plan commit)
    (fun _ x => in_place m0 x /\ ex_applied x = planned plan /\ ex_deleted x = ap_stale plan /\
       exists v, commit v = (None, ex_world x)) (underway m0) (mkExec w [] []).
Proof.
  intros Hwf Hw Hp Hc. apply swp_bind.
  eapply swp_mono; [exact (attach_links_wp m0 plan w Hwf Hw Hp)| |done]. intros ? x1 (Hx1 & Ha1 & Hd1).
  apply swp_bind. eapply swp_mono; [exact (remove_stales_wp m0 plan x1 Hp Hx1 Ha1 Hd1)| |done].
  intros ? x2 (Hx2 & Ha2 & Hd2). apply on_world_wp, swp_wrap. specialize (Hc (ex_world x2)).
  unfold swp, scall. destruct (commit (ex_world x2)) as [[e|] w3] eqn:E; cbn in Hc.
  - apply underway_same; [apply Hx2|done].
  - split_and!; [by apply in_place_same|done|done|]. by exists (ex_world x2).
Qed.

Lemma execute_spec plan commit w : wf_filters (tl_filters w) -> plan_ok (tl_filters w) plan -> ap_closed plan = false ->
  (forall v, tl_filters (commit v).2 = tl_filters v) ->
  let '(res, w') := Execute plan commit w in
  (forall k, k ∉ ks -> tl_filters w' !! k = tl_filters w !! k) /\
  match res with
  | None => (forall c, c ∈ planned plan -> tl_filters w' !! applied_key c = Some (goal_filter c)) /\
      (forall d, d ∈ ap_stale plan -> tl_filters w' !! stale_key d = None) /\
      exists v, commit v = (None, w') /\ tl_filters v = tl_filters w'
  | Some f => fl_rollback f = [] -> tl_filters w' = tl_filters w
  end.
Proof.
  intros Hwf Hp Hcl Hc. unfold Execute. rewrite Hcl.
  pose proof (execute_steps_wp _ plan commit w Hwf eq_refl Hp Hc) as Hs. unfold swp in Hs.
  assert (forall x, underway (tl_filters w) x -> (forall k, k ∉ ks ->
     (k ∉ map applied_key (ex_applied x)) /\ (k ∉ map stale_key (ex_deleted x)))) as Hout.
  { intros x [U1 U2 U3 U4] k Hk. rewrite Forall_forall in U2. rewrite Forall_forall in U3. split.
    - intros (c & -> & Hin)%list_elem_of_fmap. by apply Hk, (U2 c Hin).
    - intros (d & -> & Hin)%list_elem_of_fmap. by apply Hk, (U3 d Hin). }
  destruct (execute_steps plan commit (mkExec w [] [])) as [[u|e] x].
  - destruct Hs as ([Hu Hia Hid] & Ha & Hd & v & Hv). split.
    + intros k Hk. destruct (Hout x Hu k Hk). by apply (un_kept _ _ Hu).
    + rewrite <- Ha, <- Hd. split_and!; [done|done|]. exists v. split; [done|].
      pose proof (Hc v) as Hcv. rewrite Hv in Hcv. done.
  - destruct (tc_rollback _ _ _) as [errs w'] eqn:Er.
    destruct (rollback_spec (tl_filters w) _ _ _ _ _ (un_wf _ _ Hs) (un_applied _ _ Hs) (un_deleted _ _ Hs) (un_kept _ _ Hs) Er) as [R1 R2].
    split; [|exact R2]. intros k Hk. destruct (Hout x Hs k Hk). by apply R1.
Qed.
End props.

(** ** Keys *)

Definition no_slash (s : string) : Prop := Forall (fun c => c <> "/"%char) (String.list_ascii_of_string s).
Lemma go_no_slash x s : no_slash s -> no_slash (pretty_N_go x s).
Proof.
  revert s. induction (N.lt_wf_0 x) as [x _ IH]. intros s Hs.
  destruct (decide (0 < x)%N) as [Hx|Hx].
  - rewrite pretty_N_go_step by done. apply IH.
    + apply N.div_lt; lia.
    + constructor; [|done]. assert (x mod 10 < 10)%N by (apply N.mod_lt; lia).
      unfold pretty_N_char. repeat case_match; done.
  - assert (x = 0)%N as -> by lia. by rewrite pretty_N_go_0.
Qed.
Lemma pretty_N_no_slash (x : N) : no_slash (pretty x).
Proof. unfold pretty, pretty_N. case_decide; [by repeat constructor|]. apply go_no_slash. constructor. Qed.
Lemma pretty_no_slash (z : Z) : no_slash (pretty z).
Proof.
  destruct z as [|p|p].
  - by repeat constructor.
  - apply (pretty_N_no_slash (N.pos p)).
  - constructor; [done|]. apply (pretty_N_no_slash (N.pos p)).
Qed.
Lemma slash_split s s' t t' : no_slash s -> no_slash s' -> s +:+ "/" +:+ t = s' +:+ "/" +:+ t' -> s = s' /\ t = t'.
Proof.
  revert s'. induction s as [|c s IH]; intros [|c' s'] Hs Hs'; cbn.
  - intros [= Heq]. split; [done|exact Heq].
  - intros [= <- _]. by inversion Hs'.
  - intros [= -> _]. by inversion Hs.
  - intros [= -> Heq]. inversion Hs; subst. inversion Hs'; subst. destruct (IH s') as [-> ->]; done.
Qed.
Lemma slot_key_inj i j d d' : slot_key i d = slot_key j d' -> i = j /\ d = d'.
Proof.
  intros [Hp ->]%slash_split; [|apply pretty_no_slash..]. split; [|done]. by apply (inj pretty) in Hp.
Qed.

Lemma NoDup_map_coarser {A B C} (f : A -> B) (g : A -> C) (l : list A) :
  NoDup (map f l) -> (forall x y, x ∈ l -> y ∈ l -> g x = g y -> f x = f y) -> NoDup (map g l).
Proof.
  induction l as [|x l IH]; cbn; intros Hn Hfg; [constructor|]. inversion Hn as [|? ? Hx Hl]; subst. constructor.
  - intros (y & Heq & Hy)%list_elem_of_fmap. apply Hx. rewrite (Hfg x y); [by apply list_elem_of_fmap_2|by left|by right|done].
  - apply IH; [done|]. intros a b Ha Hb. by apply Hfg; right.
Qed.

(** The slot of a recorded binding is the canonical one of its direction. *)
Lemma owner_slot_spec b slot : ownerFilterSlot b = inl slot -> slot ∈ canonicalTCFilterSlots /\ tb_Direction b = direction_of slot.
Proof.
  unfold ownerFilterSlot, canonicalTCFilterSlots. cbn [ownerFilterSlot_in].
  destruct (String.eqb_spec (tb_Direction b) (direction_of (mkSlot HANDLE_MIN_INGRESS tc_ingressHandle ingressFilterName))) as [Hd|_]; cbn [negb].
  - destruct (negb _); [done|]. intros [= <-]. split; [by left|done].
  - destruct (String.eqb_spec (tb_Direction b) (direction_of (mkSlot HANDLE_MIN_EGRESS tc_egressHandle egressFilterName))) as [Hd|_]; cbn [negb]; [|done].
    destruct (negb _); [done|]. intros [= <-]. split; [right; by left|done].
Qed.
Lemma slot_id_inj i j slot slot' : slot ∈ canonicalTCFilterSlots -> slot' ∈ canonicalTCFilterSlots ->
  slot_id i slot = slot_id j slot' -> i = j /\ slot = slot'.
Proof.
  unfold canonicalTCFilterSlots. rewrite !elem_of_cons, !elem_of_nil.
  by intros [-> |[-> |[]]] [-> |[-> |[]]] [= ->].
Qed.

(** ** Preflight *)

Section preflight.
Context {W : Type} `{TcLaws W}.
Implicit Types w : W.

Lemma find_link_spec ifindex w :
  swp (find_link ifindex) (fun link w' => link = ifindex /\ tl_filters w' = tl_filters w)
    (fun w' => tl_filters w' = tl_filters w) w.
Proof.
  apply swp_bind. eapply swp_mono; [exact (quiet_swp _ w (tl_link ifindex))| |done].
  intros [i|] w1 Hw1; [|done]. apply swp_reject; [intros Hi%negb_false_iff%Z.eqb_eq|done]. done.
Qed.

Lemma snapshot_slots_spec link slots : forall w, wf_filters (tl_filters w) ->
  swp (snapshot_slots link slots)
    (fun sns w' => tl_filters w' = tl_filters w /\ map sn_slot sns = slots /\ forall sn, sn ∈ sns -> shows link (tl_filters w) sn)
    (fun w' => tl_filters w' = tl_filters w) w.
Proof.
  induction slots as [|slot slots IH]; intros w Hwf; cbn [snapshot_slots].
  { split_and!; [done|done|]. by intros sn ?%elem_of_nil. }
  apply swp_bind, swp_wrap. eapply swp_mono; [exact (tc_inspect_spec link slot true w Hwf)| |done].
  intros sn w1 (Hw1 & Hslot & Hs). apply swp_bind.
  eapply swp_mono; [refine (IH w1 _); by rewrite Hw1| |]; rewrite Hw1; [|done].
  intros sns w2 (Hw2 & Hm & Hs2). split_and!; [done|cbn; by rewrite Hslot, Hm|].
  intros sn' [-> |Hin]%elem_of_cons; [done|by apply Hs2].
Qed.

Definition link_ok (m : filters) (lp : tcLinkAttachPlan) : Prop :=
  lp_link lp = lp_ifindex lp /\ map sn_slot (lp_filters lp) = canonicalTCFilterSlots /\
  forall sn, sn ∈ lp_filters lp -> shows (lp_link lp) m sn.

Lemma preflight_link_spec i w : wf_filters (tl_filters w) ->
  swp (preflight_link i) (fun lp w' => tl_filters w' = tl_filters w /\ lp_ifindex lp = i /\ link_ok (tl_filters w) lp)
    (fun w' => tl_filters w' = tl_filters w) w.
Proof.
  intros Hwf. apply swp_bind, swp_wrap. eapply swp_mono; [exact (find_link_spec i w)| |done].
  intros link w1 [-> Hw1]. apply swp_bind, swp_wrap.
  eapply swp_mono; [exact (quiet_swp _ w1 (quiet_clsact i))| |by intros ? ->].
  intros clsact w2 Hw2. apply swp_bind. assert (tl_filters w2 = tl_filters w) as Hw by congruence.
  eapply swp_mono; [refine (snapshot_slots_spec i _ w2 _); by rewrite Hw| |]; rewrite Hw; [|done].
  intros sns w3 (Hw3 & Hm & Hs). done.
Qed.

Lemma close_quiet prefix l : forall w, tl_filters (close_programs prefix l w).2 = tl_filters w.
Proof.
  induction l as [|sn l IH]; intros w; [done|]. cbn [close_programs]. destruct (sn_oldProgram sn) as [fd|]; [|done].
  pose proof (tl_close fd w) as Hc. destruct (tc_closeProgram fd w) as [err w1].
  specialize (IH w1). destruct (close_programs prefix l w1). cbn in *. congruence.
Qed.
Lemma plan_Close_quiet plan w : tl_filters (plan_Close plan w).2 = tl_filters w.
Proof.
  unfold plan_Close. destruct (ap_closed plan); [done|].
  pose proof (close_quiet "close retained old TC program: " (flat_map lp_filters (ap_links plan)) w) as H1.
  destruct (close_programs _ _ w) as [errs w1].
  pose proof (close_quiet "close retained stale TC program: " (map os_snapshot (ap_stale plan)) w1) as H2.
  destruct (close_programs _ _ w1) as [errs' w2]. cbn in *. congruence.
Qed.

Lemma preflight_links_spec ixs : forall plan w, wf_filters (tl_filters w) ->
  swp (preflight_links plan ixs)
    (fun plan' w' => tl_filters w' = tl_filters w /\
       (exists lps, ap_links plan' = ap_links plan ++ lps /\ map lp_ifindex lps = ixs /\
          forall lp, lp ∈ lps -> link_ok (tl_filters w) lp) /\
       ap_stale plan' = ap_stale plan /\ ap_ingress plan' = ap_ingress plan /\ ap_egress plan' = ap_egress plan /\
       ap_closed plan' = ap_closed plan)
    (fun w' => tl_filters w' = tl_filters w) w.
Proof.
  induction ixs as [|i ixs IH]; intros plan w Hwf; cbn [preflight_links].
  { unfold swp, sret. split_and!; try done. exists []. rewrite app_nil_r. split_and!; [done|done|]. by intros lp ?%elem_of_nil. }
  pose proof (preflight_link_spec i w Hwf) as Hl. unfold swp in *.
  destruct (preflight_link i w) as [[lp|e] w1].
  - destruct Hl as (Hw1 & Hi & Hok). specialize (IH (add_link plan lp) w1). rewrite Hw1 in IH. specialize (IH Hwf).
    destruct (preflight_links (add_link plan lp) ixs w1) as [[plan'|e] w2]; [|done].
    destruct IH as (Hw2 & (lps & Hlps & His & Hall) & Hrest). cbn in *. split_and!; [done| |by destruct_and!..].
    exists (lp :: lps). split_and!; [by rewrite Hlps, <- app_assoc|cbn; by rewrite Hi, His|].
    intros lp' [-> |Hin]%elem_of_cons; [done|by apply Hall].
  - pose proof (plan_Close_quiet plan w1) as Hc. destruct (plan_Close plan w1) as [[err plan'] w2]. cbn in Hc. congruence.
Qed.

(** What a recorded binding became. *)
Record stale_of (m : filters) (b : tcFilterBinding) (os : tcOwnedStaleFilter) : Prop := {
  so_key : os_key os = binding_key b;
  so_link : os_link os = tb_IfIndex b;
  so_slot : ownerFilterSlot b = inl (sn_slot (os_snapshot os));
  so_existed : sn_existed (os_snapshot os) = true;
  so_shows : shows (os_link os) m (os_snapshot os)
}.

Lemma stale_filter_spec b w : wf_filters (tl_filters w) ->
  swp (stale_filter b) (fun os w' => tl_filters w' = tl_filters w /\ stale_of (tl_filters w) b os)
    (fun w' => tl_filters w' = tl_filters w) w.
Proof.
  intros Hwf. apply swp_bind. unfold swp at 1, spure. destruct (ownerFilterSlot b) as [slot|e] eqn:Hslot; [|done].
  apply swp_bind, swp_wrap. eapply swp_mono; [exact (find_link_spec (tb_IfIndex b) w)| |done].
  intros link w1 [-> Hw1]. apply swp_bind, swp_wrap.
  eapply swp_mono; [exact (quiet_swp _ w1 (quiet_clsact (tb_IfIndex b)))| |by intros ? ->].
  intros clsact w2 Hw2. assert (tl_filters w2 = tl_filters w) as Hw by congruence.
  apply swp_reject; [intros _|done]. apply swp_bind, swp_wrap.
  eapply swp_mono; [refine (tc_inspect_spec (tb_IfIndex b) slot true w2 _); by rewrite Hw| |]; rewrite Hw; [|done].
  intros sn w3 (Hw3 & Hsn & Hs). destruct (negb (sn_existed sn) || negb (sn_programID sn =? tb_ProgramID b)) eqn:E.
  - unfold swp. pose proof (close_quiet "" [sn] w3) as Hc. destruct (close_programs "" [sn] w3). cbn in Hc. congruence.
  - apply orb_false_iff in E as [E1%negb_false_iff _]. split; [done|].
    apply Build_stale_of; [done|done| |exact E1|exact Hs]. cbn [os_snapshot]. by rewrite Hsn.
Qed.

Lemma current_keys_links plan plan' : ap_links plan' = ap_links plan -> current_keys plan' = current_keys plan.
Proof. unfold current_keys. by intros ->. Qed.

Lemma add_stales_spec active : forall plan w err plan' w', wf_filters (tl_filters w) ->
  add_stales plan active w = (err, plan', w') ->
  tl_filters w' = tl_filters w /\ ap_links plan' = ap_links plan /\ ap_ingress plan' = ap_ingress plan /\
  ap_egress plan' = ap_egress plan /\ ap_closed plan' = ap_closed plan /\
  (err = None -> exists l, ap_stale plan' ≡ₚ ap_stale plan ++ l /\
     Forall2 (stale_of (tl_filters w)) (filter (fun b => binding_key b ∉ current_keys plan) active) l).
Proof.
  induction active as [|b active IH]; intros plan w err plan' w' Hwf; cbn [add_stales].
  { intros [= <- <- <-]. split_and!; try done. intros _. exists []. rewrite app_nil_r. split; [|constructor].
    apply merge_sort_Permutation. }
  case_bool_decide as Hk.
  { intros E. destruct (IH _ _ _ _ _ Hwf E) as (H1 & H2 & H3 & H4 & H5 & H6). split_and!; try done.
    intros He. rewrite filter_cons_False by (by intros Hn). by apply H6. }
  pose proof (stale_filter_spec b w Hwf) as Hs. unfold swp in Hs. destruct (stale_filter b w) as [[os|e] w1].
  2:{ intros [= <- <- <-]. by split_and!. }
  destruct Hs as [Hw1 Hos]. intros E. specialize (IH (add_stale plan os) w1 err plan' w').
  rewrite Hw1 in IH. destruct (IH Hwf E) as (H1 & H2 & H3 & H4 & H5 & H6). split_and!; try done.
  intros He. destruct (H6 He) as (l & Hl & Hf). exists (os :: l). cbn [ap_stale add_stale] in Hl. split.
  - by rewrite Hl, <- app_assoc.
  - rewrite filter_cons_True by done. by constructor.
Qed.
End preflight.

(** ** The whole attachment *)

Lemma attach_ifindexes_spec us : forall seen l, attach_ifindexes seen us = Ret l ->
  NoDup l /\ (forall i, i ∈ l -> i ∉ seen) /\
  forall i, i ∈ l <-> exists u, u ∈ us /\ productionUnderlayIsAttachable u = true /\ us_IfIndex u = i.
Proof.
  induction us as [|u us IH]; intros seen l; cbn [attach_ifindexes].
  { intros [= <-]. split_and!; [constructor|by intros i ?%elem_of_nil|].
    intros i. split; [by intros ?%elem_of_nil|by intros (? & ?%elem_of_nil & _)]. }
  destruct (productionUnderlayIsAttachable u) eqn:Hu; cbn [negb].
  - destruct (us_IfIndex u <=? 0); [done|]. case_bool_decide as Hseen; [done|].
    destruct (attach_ifindexes (us_IfIndex u :: seen) us) as [rest|e|] eqn:E; cbn [obind]; [|done..].
    intros [= <-]. destruct (IH _ _ E) as (H1 & H2 & H3). split_and!.
    + constructor; [|done]. intros Hin. apply (H2 _ Hin). by left.
    + intros i [-> |Hi]%elem_of_cons; [done|]. intros Hs. apply (H2 _ Hi). by right.
    + intros i. rewrite elem_of_cons, H3. split.
      * intros [-> |(v & Hv & Hp)]; [exists u|exists v]; split; try done; [by left|by right].
      * intros (v & [-> |Hv]%elem_of_cons & Ha & <-); [by left|]. right. by exists v.
  - intros E. destruct (IH _ _ E) as (H1 & H2 & H3). split_and!; [done|done|]. intros i. rewrite H3. split.
    + intros (v & Hv & Hp). exists v. split; [by right|done].
    + intros (v & [-> |Hv]%elem_of_cons & Ha & <-); [congruence|]. by exists v.
Qed.

Lemma by_slot_spec l : forall acc m, bindings_by_slot acc l = inl m ->
  NoDup (map binding_key l) /\ forall b, b ∈ l -> acc !! binding_key b = None.
Proof.
  induction l as [|b l IH]; intros acc m; cbn [bindings_by_slot map].
  { intros _. split; [constructor|by intros b ?%elem_of_nil]. }
  destruct (acc !! binding_key b) eqn:Hb; [done|]. intros E. destruct (IH _ _ E) as [H1 H2]. split.
  - constructor; [|done]. intros (b' & Heq & Hb')%list_elem_of_fmap. specialize (H2 _ Hb').
    rewrite Heq, lookup_insert_eq in H2. done.
  - intros b' [-> |Hb']%elem_of_cons; [done|]. specialize (H2 _ Hb').
    destruct (decide (binding_key b = binding_key b')) as [<-|Hne]; [done|]. by rewrite lookup_insert_ne in H2.
Qed.

Definition slot_ids (ixs : list Z) : list filter_id := flat_map (fun i => map (slot_id i) canonicalTCFilterSlots) ixs.
Lemma slot_ids_spec ixs k : k ∈ slot_ids ixs <-> exists i slot, i ∈ ixs /\ slot ∈ canonicalTCFilterSlots /\ k = slot_id i slot.
Proof.
  unfold slot_ids. rewrite list_elem_of_In, in_flat_map. split.
  - intros (i & Hi & (slot & <- & Hs)%in_map_iff). exists i, slot. by rewrite !list_elem_of_In.
  - intros (i & slot & Hi & Hs & ->). exists i. rewrite <- list_elem_of_In. split; [done|].
    apply in_map. by apply list_elem_of_In.
Qed.
Lemma slot_ids_NoDup ixs : NoDup ixs -> NoDup (slot_ids ixs).
Proof.
  induction 1 as [|i ixs Hi Hn IH]; [constructor|]. unfold slot_ids. cbn [flat_map]. apply NoDup_app. split_and!.
  - apply (bool_decide_unpack _). unfold slot_id, canonicalTCFilterSlots. cbn.
    apply bool_decide_pack. constructor; [|apply NoDup_singleton]. rewrite list_elem_of_singleton. by intros [= ?].
  - intros k (slot & -> & Hs)%list_elem_of_fmap Hk. apply slot_ids_spec in Hk as (j & slot' & Hj & Hs' & Heq).
    by destruct (slot_id_inj _ _ _ _ Hs Hs' Heq) as [-> ->].
  - exact IH.
Qed.

Section whole.
Context {W : Type} `{TcLaws W}.
Implicit Types (plan : tcAttachPlan) (m : filters).

Lemma link_keys plan m lp : link_ok m lp ->
  map applied_key (link_changes plan lp) = map (slot_id (lp_ifindex lp)) canonicalTCFilterSlots /\
  map (fun sn => slot_key (lp_ifindex lp) (direction_of (sn_slot sn))) (lp_filters lp) =
  map (fun slot => slot_key (lp_ifindex lp) (direction_of slot)) canonicalTCFilterSlots.
Proof.
  intros (Hl & Hs & _). unfold link_changes. rewrite <- Hs, !map_map. split; [|done].
  apply map_ext. intros sn. unfold applied_key. cbn. by rewrite Hl.
Qed.
Lemma planned_keys plan m : Forall (link_ok m) (ap_links plan) ->
  map applied_key (planned plan) = slot_ids (map lp_ifindex (ap_links plan)) /\
  current_keys plan = flat_map (fun i => map (fun slot => slot_key i (direction_of slot)) canonicalTCFilterSlots)
                        (map lp_ifindex (ap_links plan)).
Proof.
  unfold planned, current_keys, slot_ids. induction 1 as [|lp lps Hlp _ [IH1 IH2]]; [done|]. cbn [flat_map map].
  destruct (link_keys plan m lp Hlp) as [H1 H2]. by rewrite map_app, H1, IH1, H2, IH2.
Qed.

(** The stale filters lie outside the planned slots, one per slot. *)
Lemma stale_keys m plan bs l : Forall (link_ok m) (ap_links plan) -> NoDup (map binding_key bs) ->
  Forall2 (stale_of m) (filter (fun b => binding_key b ∉ current_keys plan) bs) l ->
  NoDup (map stale_key l) /\ forall os, os ∈ l -> stale_key os ∉ slot_ids (map lp_ifindex (ap_links plan)).
Proof.
  intros Hlinks Hnd Hf. set (bs' := filter _ bs) in *.
  assert (map os_key l = map binding_key bs') as Hkeys.
  { clear -Hf. induction Hf as [|b os ? ? Hb _ IH]; [done|]. cbn. by rewrite IH, (so_key _ _ _ Hb). }
  assert (NoDup (map binding_key bs')) as Hnd'.
  { unfold bs'. clear -Hnd. induction bs as [|b bs IH]; [constructor|]. inversion Hnd as [|? ? Hb Hbs]; subst.
    rewrite filter_cons. case_decide; [|by apply IH]. constructor; [|by apply IH].
    intros (b' & Heq & Hb')%list_elem_of_fmap. apply list_elem_of_filter in Hb' as [_ Hb'].
    apply Hb. rewrite Heq. by apply list_elem_of_fmap_2. }
  assert (forall os, os ∈ l -> exists b, b ∈ bs' /\ stale_of m b os) as Hex.
  { intros os Hos. apply list_elem_of_lookup in Hos as [n Hn].
    destruct (Forall2_lookup_r _ _ _ _ _ Hf Hn) as (b & Hb & Hst). exists b. split; [|done].
    by eapply list_elem_of_lookup_2. }
  split.
  - apply (NoDup_map_coarser os_key); [by rewrite Hkeys|]. intros o1 o2 H1 H2 Heq.
    destruct (Hex o1 H1) as (b1 & _ & [K1 L1 S1 _ _]), (Hex o2 H2) as (b2 & _ & [K2 L2 S2 _ _]).
    destruct (owner_slot_spec _ _ S1) as [C1 D1], (owner_slot_spec _ _ S2) as [C2 D2].
    destruct (slot_id_inj _ _ _ _ C1 C2 Heq) as [Hi Hsl].
    rewrite K1, K2. unfold binding_key. congruence.
  - intros os Hos (i & slot & Hi & Hs & Heq)%slot_ids_spec.
    destruct (Hex os Hos) as (b & Hb & [K L S _ _]). apply list_elem_of_filter in Hb as [Hnk _].
    destruct (owner_slot_spec _ _ S) as [C D]. destruct (slot_id_inj _ _ _ _ C Hs Heq) as [Hli Hsl].
    apply Hnk. rewrite (proj2 (planned_keys plan m Hlinks)). apply list_elem_of_In, in_flat_map.
    exists i. split; [by apply list_elem_of_In|]. unfold binding_key. rewrite D, <- L, Hli, Hsl.
    apply in_map_iff. exists slot. split; [done|]. by apply list_elem_of_In.
Qed.

(** The interfaces of a state. *)
Definition attach_to (st : State) (ifindex : Z) : Prop :=
  exists u, u ∈ st_Underlays st /\ productionUnderlayIsAttachable u = true /\ us_IfIndex u = ifindex.
(** The slots an attachment may touch: those of the state and those on record. *)
Definition in_scope (st : State) (active : list tcFilterBinding) (k : filter_id) : Prop :=
  exists i slot, slot ∈ canonicalTCFilterSlots /\ k = slot_id i slot /\
    (attach_to st i \/ exists b, b ∈ active /\ tb_IfIndex b = i /\ ownerFilterSlot b = inl slot).

Lemma prepare_spec st ingress egress (w : W) plan w1 : wf_filters (tl_filters w) ->
  prepareTCAttachPlan st ingress egress w = (inl plan, w1) ->
  tl_filters w1 = tl_filters w /\ Forall (link_ok (tl_filters w)) (ap_links plan) /\
  NoDup (map lp_ifindex (ap_links plan)) /\ (forall i, i ∈ map lp_ifindex (ap_links plan) <-> attach_to st i) /\
  ap_stale plan = [] /\ ap_ingress plan = ingress /\ ap_egress plan = egress /\ ap_closed plan = false.
Proof.
  intros Hwf. unfold prepareTCAttachPlan. destruct (negb _); [done|].
  unfold activeAttachIfindexes. destruct (attach_ifindexes [] (st_Underlays st)) as [l|e|] eqn:E; cbn [obind]; [|done..].
  destruct (attach_ifindexes_spec _ _ _ E) as (Hnd & _ & Hin). intros Hp.
  pose proof (preflight_links_spec (merge_sort Z.le l) (mkPlan [] [] ingress egress false) w Hwf) as Hl.
  unfold swp in Hl. rewrite Hp in Hl. destruct Hl as (Hw & (lps & Hlps & His & Hok) & Hs & Hi & He & Hc).
  cbn in Hlps, Hs, Hi, He, Hc. rewrite Hlps, His. split_and!; try done.
  - apply Forall_forall. exact Hok.
  - by rewrite merge_sort_Permutation.
  - intros i. rewrite merge_sort_Permutation. apply Hin.
Qed.

Lemma whole_plan_ok st active plan plan' m l : Forall (link_ok m) (ap_links plan) ->
  NoDup (map lp_ifindex (ap_links plan)) -> (forall i, i ∈ map lp_ifindex (ap_links plan) <-> attach_to st i) ->
  NoDup (map binding_key active) -> ap_links plan' = ap_links plan -> ap_stale plan' ≡ₚ l ->
  Forall2 (stale_of m) (filter (fun b => binding_key b ∉ current_keys plan) active) l ->
  let ks := slot_ids (map lp_ifindex (ap_links plan)) ++ map stale_key (ap_stale plan') in
  plan_ok ks m plan' /\ (forall k, k ∈ ks -> in_scope st active k) /\
  map applied_key (planned plan') = slot_ids (map lp_ifindex (ap_links plan)).
Proof.
  intros Hlinks Hnd Hix Hb Hl Hst Hf ks. destruct (stale_keys m plan active l Hlinks Hb Hf) as [Hn1 Hn2].
  assert (map applied_key (planned plan') = slot_ids (map lp_ifindex (ap_links plan))) as Hpk.
  { rewrite <- Hl in Hlinks. rewrite <- Hl. by destruct (planned_keys plan' m Hlinks). }
  assert (forall os, os ∈ l -> exists b, b ∈ active /\ stale_of m b os) as Hex.
  { intros os Hos. apply list_elem_of_lookup in Hos as [n Hn].
    destruct (Forall2_lookup_r _ _ _ _ _ Hf Hn) as (b & Hb' & Hs). exists b. split; [|done].
    apply list_elem_of_lookup_2, list_elem_of_filter in Hb'. apply Hb'. }
  split_and!; [constructor| |done].
  - intros lp Hlp. rewrite Hl in Hlp. rewrite Forall_forall in Hlinks. destruct (Hlinks lp Hlp) as (H1 & _ & H3). done.
  - apply Forall_forall. intros os Hos. destruct (Hex os) as (b & _ & [K L S E Sh]); [by rewrite <- Hst|].
    split_and!; [done|done|]. unfold ks. apply elem_of_app. right. by apply list_elem_of_fmap_2.
  - intros k. rewrite Hpk. intros Hk. apply elem_of_app. by left.
  - rewrite Hpk. apply NoDup_app. split_and!; [by apply slot_ids_NoDup| |by rewrite Hst].
    intros k Hk (os & -> & Hos)%list_elem_of_fmap. rewrite Hst in Hos. by apply (Hn2 os Hos).
  - intros k [(i & slot & Hi & Hs & ->)%slot_ids_spec|(os & -> & Hos)%list_elem_of_fmap]%elem_of_app.
    + exists i, slot. split_and!; [done|done|]. left. by apply Hix.
    + rewrite Hst in Hos. destruct (Hex os Hos) as (b & Hb' & [K L S E Sh]).
      destruct (owner_slot_spec _ _ S) as [C _].
      exists (os_link os), (sn_slot (os_snapshot os)). split_and!; [done|done|]. right. by exists b.
Qed.

Lemma planned_at plan m i slot : Forall (link_ok m) (ap_links plan) -> i ∈ map lp_ifindex (ap_links plan) ->
  slot ∈ canonicalTCFilterSlots -> exists c, c ∈ planned plan /\ applied_key c = slot_id i slot /\
    goal_filter c = managed i slot (pi_id (programForSlot plan slot)) 0.
Proof.
  intros Hlinks (lp & -> & Hlp)%list_elem_of_fmap Hslot. rewrite Forall_forall in Hlinks.
  destruct (Hlinks lp Hlp) as (Hl & Hs & _). rewrite <- Hs in Hslot. apply list_elem_of_fmap in Hslot as (sn & -> & Hsn).
  exists (change_of plan lp sn). split.
  - apply list_elem_of_In, in_flat_map. exists lp. split; [by apply list_elem_of_In|]. by apply in_map, list_elem_of_In.
  - unfold applied_key, goal_filter. cbn. by rewrite Hl.
Qed.

Lemma stale_at m plan bs l b slot : Forall (link_ok m) (ap_links plan) ->
  Forall2 (stale_of m) (filter (fun b => binding_key b ∉ current_keys plan) bs) l ->
  b ∈ bs -> ownerFilterSlot b = inl slot -> tb_IfIndex b ∉ map lp_ifindex (ap_links plan) ->
  exists os, os ∈ l /\ stale_key os = slot_id (tb_IfIndex b) slot.
Proof.
  intros Hlinks Hf Hb Hslot Hni.
  assert (b ∈ filter (fun b => binding_key b ∉ current_keys plan) bs) as Hin.
  { apply list_elem_of_filter. split; [|done]. rewrite (proj2 (planned_keys plan m Hlinks)).
    intros (i & Hi & (sl & Heq & _)%in_map_iff)%list_elem_of_In%in_flat_map.
    apply slot_key_inj in Heq as [-> _]. apply Hni. by apply list_elem_of_In. }
  apply list_elem_of_lookup in Hin as [n Hn]. destruct (Forall2_lookup_l _ _ _ _ _ Hf Hn) as (os & Hos & [K L S E Sh]).
  exists os. split; [by eapply list_elem_of_lookup_2|]. unfold stale_key. rewrite L. congruence.
Qed.
End whole.

(** C14: attaching the TC programs is all or nothing.  Take the plan of a state
    as prepared, checked against the owner record and completed with the recorded
    filters that are no longer wanted, on any kernel that obeys [TcLaws] (any call
    may fail), and a commit that leaves filters alone.  Filters outside the slots
    of the state and of the record are never touched.  If the execution succeeds,
    both slots of every interface of the state hold the new programs, every
    recorded filter on another interface is gone, and the commit ran last, with
    all this in place.  If it fails and its rollback reports no error, every
    filter is exactly as before. *)
Theorem tc_attach_atomic {W} `{TcLaws W} (st : State) (ingress egress : tcProgramIdentity)
    (active : list tcFilterBinding) (fresh : bool) (commit : W -> option error * W) (w w1 w2 : W)
    (plan plan' : tcAttachPlan) :
  wf_filters (tl_filters w) -> (forall v, tl_filters (commit v).2 = tl_filters v) ->
  prepareTCAttachPlan st ingress egress w = (inl plan, w1) ->
  ValidatePreviousBindings plan active fresh = None ->
  AddOwnedStaleRemovals plan active w1 = (None, plan', w2) ->
  let '(res, w') := Execute plan' commit w2 in
  (forall k, ~ in_scope st active k -> tl_filters w' !! k = tl_filters w !! k) /\
  match res with
  | None =>
      (forall i, attach_to st i ->
         tl_filters w' !! slot_id i (mkSlot HANDLE_MIN_INGRESS tc_ingressHandle ingressFilterName) =
           Some (managed i (mkSlot HANDLE_MIN_INGRESS tc_ingressHandle ingressFilterName) (pi_id ingress) 0) /\
         tl_filters w' !! slot_id i (mkSlot HANDLE_MIN_EGRESS tc_egressHandle egressFilterName) =
           Some (managed i (mkSlot HANDLE_MIN_EGRESS tc_egressHandle egressFilterName) (pi_id egress) 0)) /\
      (forall b slot, b ∈ active -> ownerFilterSlot b = inl slot -> ~ attach_to st (tb_IfIndex b) ->
         tl_filters w' !! slot_id (tb_IfIndex b) slot = None) /\
      exists v, commit v = (None, w') /\ tl_filters v = tl_filters w'
  | Some failure => fl_rollback failure = [] -> tl_filters w' = tl_filters w
  end.
Proof.
  intros Hwf Hcommit Hprep Hval Hadd.
  destruct (prepare_spec _ _ _ _ _ _ Hwf Hprep) as (Hw1 & Hlinks & Hnd & Hix & Hst0 & Hing & Hegr & Hcl).
  assert (NoDup (map binding_key active)) as Hb.
  { unfold ValidatePreviousBindings in Hval. destruct (bindings_by_slot ∅ active) as [bm|] eqn:E; [|done].
    by destruct (by_slot_spec _ _ _ E). }
  unfold AddOwnedStaleRemovals in Hadd. rewrite Hcl in Hadd.
  assert (wf_filters (tl_filters w1)) as Hwf1 by by rewrite Hw1.
  destruct (add_stales_spec _ _ _ _ _ _ Hwf1 Hadd) as (Hw2 & Hl & Hi' & He & Hc & Hl').
  destruct (Hl' eq_refl) as (l & Hst & Hf). rewrite Hst0 in Hst. cbn [app] in Hst. rewrite Hw1 in *. clear Hl'.
  destruct (whole_plan_ok st active plan plan' _ l Hlinks Hnd Hix Hb Hl Hst Hf) as (Hok & Hscope & Hpk).
  rewrite <- Hw2 in Hok. rewrite Hcl in Hc.
  pose proof (execute_spec _ plan' commit w2 ltac:(by rewrite Hw2) Hok Hc Hcommit) as Hx.
  destruct (Execute plan' commit w2) as [res w']. rewrite Hw2 in Hx. destruct Hx as [Hout Hres].
  split; [intros k Hk; apply Hout; intros Hin; by apply Hk, Hscope|].
  destruct res as [f|]; [exact Hres|]. destruct Hres as (Hap & Hde & Hv). split_and!; [| |done].
  - intros i Hi%Hix. rewrite <- Hl in Hlinks, Hi.
    assert (forall slot, slot ∈ canonicalTCFilterSlots ->
      tl_filters w' !! slot_id i slot = Some (managed i slot (pi_id (programForSlot plan' slot)) 0)) as Hat.
    { intros slot Hs. destruct (planned_at plan' _ i slot Hlinks Hi Hs) as (c & Hcin & <- & <-). by apply Hap. }
    rewrite <- Hing, <- Hi', <- Hegr, <- He. split; apply Hat; [by left|right; by left].
  - intros b slot Hbin Hslot Hna. destruct (stale_at _ plan active l b slot Hlinks Hf Hbin Hslot) as (os & Hos & <-).
    { intros Hin. by apply Hna, Hix. }
    apply Hde. by rewrite Hst.
Qed.

(** ** A kernel that obeys the laws *)

Record tc_kernel := mkTcKernel { tk_filters : filters; tk_clsacts : list Z; tk_commits : Z }.
Definition set_filters (m : filters) (k : tc_kernel) : tc_kernel := mkTcKernel m (tk_clsacts k) (tk_commits k).
(** Descriptors are program identifiers. *)
#[export] Instance tc_kernel_runtime : TcRuntime tc_kernel := {
  tc_linkByIndex i := sret (Some i);
  tc_qdiscList i := fun k => (inl (if bool_decide (i ∈ tk_clsacts k) then [Some (canonicalClsact i)] else []), k);
  tc_qdiscAdd q := fun k => (None, mkTcKernel (tk_filters k) (qd_LinkIndex q :: tk_clsacts k) (tk_commits k));
  tc_filterList i parent := fun k => (inl (map Some (listed i parent (tk_filters k))), k);
  tc_filterAdd rq := fun k =>
    match tk_filters k !! attrs_id (rq_attrs rq) with
    | Some _ => (Some "file exists", k)
    | None => (None, set_filters (<[attrs_id (rq_attrs rq) := installed rq (u32 (rq_Fd rq))]> (tk_filters k)) k)
    end;
  tc_filterReplace rq := fun k =>
    (None, set_filters (<[attrs_id (rq_attrs rq) := installed rq (u32 (rq_Fd rq))]> (tk_filters k)) k);
  tc_filterDelete rq := fun k =>
    match tk_filters k !! attrs_id (rq_attrs rq) with
    | Some _ => (None, set_filters (delete (attrs_id (rq_attrs rq)) (tk_filters k)) k)
    | None => (Some ("no such file", true), k)
    end;
  tc_loadProgram id := sret (Some id);
  tc_closeProgram _ := fun k => (None, k)
}.
#[export] Instance tc_kernel_laws : TcLaws tc_kernel.
Proof.
  refine (Build_TcLaws _ _ tk_filters _ _ _ _ _ _ _ _ _); try done.
  - intros i parent k. cbn. split; [done|]. by intros l [= <-].
  - intros rq k. cbn. destruct (tk_filters k !! _) eqn:E; cbn; [done|]. split; [done|].
    eexists. split; [|done]. apply Z.mod_pos_bound. lia.
  - intros rq k. cbn. eexists. split; [|done]. apply Z.mod_pos_bound. lia.
  - intros rq k. cbn. destruct (tk_filters k !! _) eqn:E; cbn; [done|]. by split.
Defined.

Definition ingress_slot : tcFilterSlot := mkSlot HANDLE_MIN_INGRESS tc_ingressHandle ingressFilterName.
Definition egress_slot : tcFilterSlot := mkSlot HANDLE_MIN_EGRESS tc_egressHandle egressFilterName.
(** Interface 3 carries an old program on record; interface 2 gets the new ones,
    next to a filter of somebody else. *)
Definition tc_start : tc_kernel :=
  mkTcKernel
    (<[slot_id 3 ingress_slot := managed 3 ingress_slot 70 0]>
       {[ (2, HANDLE_MIN_INGRESS, 10, 1) := mkFilter (mkAttrs 2 1 HANDLE_MIN_INGRESS 10 ETH_P_ALL) None ]})
    [3] 0.
Definition tc_record : list tcFilterBinding := [slot_binding 3 ingress_slot 70].
Definition tc_state : State :=
  mkState 1 "tc" "kfunc" [] [] [] [mkUnderlayState 1 "wan" "netdev" "ethernet" "eth0" 2 "device" "transform" true] [] [] [] [].
Definition tc_commit (k : tc_kernel) : option error * tc_kernel :=
  (None, mkTcKernel (tk_filters k) (tk_clsacts k) (tk_commits k + 1)).
Definition tc_plan : tcAttachPlan :=
  match (prepareTCAttachPlan tc_state (mkProgram 80 80) (mkProgram 81 81) tc_start).1 with
  | inl plan => plan
  | inr _ => mkPlan [] [] (mkProgram 0 0) (mkProgram 0 0) true
  end.
Definition tc_full_plan : tcAttachPlan := (AddOwnedStaleRemovals tc_plan tc_record tc_start).1.2.

Lemma tc_start_wf : wf_filters (tl_filters tc_start).
Proof.
  change (wf_filters (tk_filters tc_start)). apply wf_insert; [|done|intros b [= <-]; cbn; lia]. constructor.
  - intros k f Hk. apply lookup_singleton_Some in Hk as [<- <-]. done.
  - intros k f b Hk. by apply lookup_singleton_Some in Hk as [<- <-].
Qed.

Lemma tc_attach_atomic_witness : exists w', Execute tc_full_plan tc_commit tc_start = (None, w') /\
  tk_commits w' = 1 /\
  tk_filters w' !! slot_id 2 ingress_slot = Some (managed 2 ingress_slot 80 0) /\
  tk_filters w' !! slot_id 3 ingress_slot = None.
Proof.
  pose proof (tc_attach_atomic tc_state (mkProgram 80 80) (mkProgram 81 81) tc_record false tc_commit
    tc_start tc_start tc_start tc_plan tc_full_plan tc_start_wf (fun v => eq_refl)) as Hx.
  assert (prepareTCAttachPlan tc_state (mkProgram 80 80) (mkProgram 81 81) tc_start = (inl tc_plan, tc_start)) as H1
    by (vm_compute; reflexivity).
  assert (ValidatePreviousBindings tc_plan tc_record false = None) as H2 by (vm_compute; reflexivity).
  assert (AddOwnedStaleRemovals tc_plan tc_record tc_start = (None, tc_full_plan, tc_start)) as H3 by (vm_compute; reflexivity).
  specialize (Hx H1 H2 H3). destruct (Execute tc_full_plan tc_commit tc_start) as [res w'] eqn:E.
  assert (res = None /\ tk_commits w' = 1) as [-> Hc] by (vm_compute in E; injection E as <- <-; split; reflexivity).
  exists w'. destruct Hx as (_ & Hat & Hgone & _). split; [reflexivity|]. split; [exact Hc|]. split.
  - apply (Hat 2). eexists. split; [left|]. split; reflexivity.
  - apply (Hgone (slot_binding 3 ingress_slot 70) ingress_slot); [left|reflexivity|].
    intros (u & [-> |Hu]%elem_of_cons & _ & Hi); [discriminate Hi|]. exact (not_elem_of_nil _ Hu).
Defined.

(** ** A program that preflight does not close *)

(** Open descriptors; every ingress slot holds program 70, every egress slot a
    foreign filter. *)
Record fd_kernel := mkFdKernel { fk_open : list Z }.
Definition fd_runtime : TcRuntime fd_kernel := {|
  tc_linkByIndex i := sret (Some i);
  tc_qdiscList _ := sret [];
  tc_qdiscAdd _ := fun k => (None, k);
  tc_filterList i parent := sret [Some (if parent =? HANDLE_MIN_INGRESS then managed i ingress_slot 70 0
                                        else mkFilter (managedAttrs i egress_slot) None)];
  tc_filterAdd _ := fun k => (None, k);
  tc_filterReplace _ := fun k => (None, k);
  tc_filterDelete _ := fun k => (None, k);
  tc_loadProgram id := fun k => (inl (Some id), mkFdKernel (id :: fk_open k));
  tc_closeProgram fd := fun k => (None, mkFdKernel (filter (fun fd' => fd' <> fd) (fk_open k)))
|}.
(** When the second slot of an interface fails its preflight, the program retained
    for the first one is not in the plan yet, so closing the plan leaves it open. *)
Lemma preflight_leaks_program :
  let '(res, k) := prepareTCAttachPlan (H := fd_runtime) tc_state (mkProgram 80 80) (mkProgram 81 81) (mkFdKernel []) in
  res = inr "preflight filter: foreign filter collides with managed slot" /\ fk_open k = [70].
Proof. vm_compute. split; reflexivity. Qed.

