(* ===== verification/TcRecovery.v ===== *)
(** * Recovering an interrupted TC attachment
    (internal/dataplane/tc_owner_transaction_linux.go)

    A journal names the filters before ([active]) and after ([desired]) a
    transaction; recovery inspects every slot and rolls forward, or restores the
    old filters.  The staged programs are a map from identifier to descriptor. *)
From Stdlib Require Import ZArith Lia Ascii.
From stdpp Require Import base option list gmap strings numbers sorting pretty.
From S2P Require Import Prelude ErrorState Config Profile Control Coordinator Guard TcTransaction.

Inductive ownerTCTransition := ownerTCApplyTransition | ownerTCDetachTransition.
#[export] Instance ownerTCTransition_eq_dec : EqDecision ownerTCTransition.
Proof. solve_decision. Defined.

Record ownerTCSlotObservation := mkObservation {
  ob_key : string; ob_link : Z; ob_slot : tcFilterSlot; ob_clsactExists : bool;
  ob_snapshot : tcFilterSnapshot; ob_active : option tcFilterBinding; ob_desired : option tcFilterBinding
}.

(** [%010d] of a positive number. *)
Fixpoint zeros (n : nat) : string := match n with O => "" | S n => String "0" (zeros n) end.
Definition fmt_010d (v : Z) : string := zeros (10 - String.length (fmt_d v)) +:+ fmt_d v.
Definition ownerFilterKey (b : tcFilterBinding) : string := fmt_010d (tb_IfIndex b) +:+ "/" +:+ tb_Direction b.

Fixpoint owner_bindings (out : gmap string tcFilterBinding) (l : list tcFilterBinding)
    : gmap string tcFilterBinding + error :=
  match l with
  | [] => inl out
  | b :: l =>
      if (tb_IfIndex b <=? 0) || (tb_ProgramID b =? 0) then inr "owner filter has an invalid ifindex or program ID"
      else match ownerFilterSlot b with
           | inr e => inr e
           | inl _ =>
               match out !! ownerFilterKey b with
               | Some _ => inr "owner filters repeat slot"
               | None => owner_bindings (<[ownerFilterKey b := b]> out) l
               end
           end
  end.
Definition ownerBindingMap : list tcFilterBinding -> gmap string tcFilterBinding + error := owner_bindings ∅.

Definition retainStaleOwnerFilters (desired active : list tcFilterBinding) : list tcFilterBinding :=
  sortTCFilterBindings
    (desired ++ filter (fun b => binding_key b ∉ map binding_key desired) active).
Definition bindingSetsEqual (left right : list tcFilterBinding) : bool :=
  bool_decide (sortTCFilterBindings left = sortTCFilterBindings right).

Section recovery.
Context {W : Type} `{TcRuntime W}.

(** The links seen so far, with their clsact. *)
Definition observe_link (links : gmap Z bool) (ifindex : Z) : SM W (gmap Z bool) :=
  match links !! ifindex with
  | Some _ => sret links
  | None =>
      try! link := swrap "inspect owner TC link: " (find_link ifindex) in
      try! clsact := swrap "inspect owner clsact: " (inspectClsact link) in
      sret (<[ifindex := clsact]> links)
  end.
Definition binding_matches (b : option tcFilterBinding) (programID : Z) : bool :=
  match b with Some b => programID =? tb_ProgramID b | None => false end.
Fixpoint observe_slots (active desired : gmap string tcFilterBinding) (transition : ownerTCTransition)
    (links : gmap Z bool) (keys : list string) : SM W (list ownerTCSlotObservation) :=
  match keys with
  | [] => sret []
  | key :: keys =>
      let a := active !! key in let d := desired !! key in
      match a, d with
      | None, None => sfail "unreachable"
      | Some reference, _ | None, Some reference =>
          try! links := observe_link links (tb_IfIndex reference) in
          try! slot := spure (ownerFilterSlot reference) in
          try! sn := swrap "inspect owner TC slot: " (inspectTCFilterSlot (tb_IfIndex reference) slot false) in
          reject sn_existed sn && negb (binding_matches a (sn_programID sn) || binding_matches d (sn_programID sn))
            with "owner TC slot has program ID outside journal old/new set" in
          reject negb (sn_existed sn) && bool_decide (is_Some a) && bool_decide (is_Some d) &&
                 bool_decide (transition = ownerTCApplyTransition)
            with "owner TC slot disappeared during apply transaction" in
          try! rest := observe_slots active desired transition links keys in
          sret (mkObservation key (tb_IfIndex reference) slot
                  (default false (links !! tb_IfIndex reference)) sn a d :: rest)
      end
  end.
Definition transition_keys (active desired : gmap string tcFilterBinding) : list string :=
  merge_sort string_leb (map fst (map_to_list active) ++
    filter (fun key => active !! key = None) (map fst (map_to_list desired))).
Definition inspectOwnerTCTransition (activeBindings desiredBindings : list tcFilterBinding)
    (transition : ownerTCTransition) : SM W (list ownerTCSlotObservation) :=
  try! active := spure (ownerBindingMap activeBindings) in
  try! desired := spure (ownerBindingMap desiredBindings) in
  observe_slots active desired transition ∅ (transition_keys active desired).

Definition exact_slot (want : gmap string tcFilterBinding) (ob : ownerTCSlotObservation) : option error :=
  match want !! ob_key ob, sn_existed (ob_snapshot ob) with
  | Some _, false => Some "owned TC slot is missing"
  | Some b, true => if negb (sn_programID (ob_snapshot ob) =? tb_ProgramID b)
                    then Some "owned TC slot has another program ID" else None
  | None, true => Some "owned TC slot unexpectedly remains"
  | None, false => None
  end.
Definition scheck_all (l : list (option error)) : SM W unit :=
  match first_error l with Some e => sfail e | None => sret tt end.
Definition validateOwnerTCExact (bindings covered : list tcFilterBinding) : SM W unit :=
  try! observations := inspectOwnerTCTransition covered bindings ownerTCDetachTransition in
  try! want := spure (ownerBindingMap bindings) in
  scheck_all (map (exact_slot want) observations).

(** A staged program with a valid descriptor. *)
Definition staged (programs : gmap Z Z) (id : Z) : SM W Z :=
  match programs !! id with
  | Some fd => reject fd <? 0 with "owner program is not staged" in sret fd
  | None => sfail "owner program is not staged"
  end.

(** The clsacts that desired filters need, once per link. *)
Fixpoint add_clsacts (added : list Z) (l : list ownerTCSlotObservation) : SM W unit :=
  match l with
  | [] => sret tt
  | ob :: l =>
      if bool_decide (ob_desired ob = None) || ob_clsactExists ob || sn_existed (ob_snapshot ob) ||
         bool_decide (ob_link ob ∈ added)
      then add_clsacts added l
      else
        try! present := inspectClsact (ob_link ob) in
        must! (if present then sret tt
               else
                 must! swrap "add owner clsact: " (scall (tc_qdiscAdd (canonicalClsact (ob_link ob)))) in
                 try! present := inspectClsact (ob_link ob) in
                 reject negb present with "owner clsact did not appear" in sret tt) in
        add_clsacts (ob_link ob :: added) l
  end.

(** Deleting the old filter of a slot. *)
Definition delete_owned (link : Z) (slot : tcFilterSlot) (fd : Z) (current : tcFilterSnapshot) : SM W unit :=
  must! swrap "delete owner TC slot: "
          (delete_filter (with_id (sn_programID current) (managedBpfFilter link slot fd))) in
  try! after := inspectTCFilterSlot link slot false in
  reject sn_existed after with "owner TC slot remains after delete" in
  sret tt.
Definition roll_stale (programs : gmap Z Z) (ob : ownerTCSlotObservation) : SM W unit :=
  match ob_active ob with
  | None => sfail "owner apply slot has no old/new binding"
  | Some a =>
      try! current := inspectTCFilterSlot (ob_link ob) (ob_slot ob) false in
      if negb (sn_existed current) then sret tt
      else
        reject negb (sn_programID current =? tb_ProgramID a) with "stale owner TC slot changed immediately before delete" in
        try! fd := staged programs (tb_ProgramID a) in
        delete_owned (ob_link ob) (ob_slot ob) fd current
  end.
Definition converge (ob : ownerTCSlotObservation) (id : Z) : SM W unit :=
  try! after := inspectTCFilterSlot (ob_link ob) (ob_slot ob) false in
  reject negb (sn_existed after) || negb (sn_programID after =? id) with "owner TC slot did not converge" in
  sret tt.
Definition roll_desired (programs : gmap Z Z) (ob : ownerTCSlotObservation) (d : tcFilterBinding) : SM W unit :=
  try! fd := staged programs (tb_ProgramID d) in
  try! current := inspectTCFilterSlot (ob_link ob) (ob_slot ob) false in
  if sn_existed current && (sn_programID current =? tb_ProgramID d) then sret tt
  else
    reject sn_existed current && negb (binding_matches (ob_active ob) (sn_programID current))
      with "owner TC slot changed immediately before replace" in
    let filter := managedBpfFilter (ob_link ob) (ob_slot ob) fd in
    must! (if sn_existed current then swrap "roll forward owner TC slot: " (scall (tc_filterReplace filter))
           else
             reject bool_decide (is_Some (ob_active ob)) with "owner TC slot disappeared immediately before replace" in
             swrap "roll forward owner TC slot: " (scall (tc_filterAdd filter))) in
    converge ob (tb_ProgramID d).
Definition roll_slot (programs : gmap Z Z) (ob : ownerTCSlotObservation) : SM W unit :=
  match ob_desired ob with
  | None => roll_stale programs ob
  | Some d => roll_desired programs ob d
  end.
Definition rollForwardOwnerApplyFilters (active desired : list tcFilterBinding) (programs : gmap Z Z) : SM W unit :=
  try! observations := inspectOwnerTCTransition active desired ownerTCApplyTransition in
  must! add_clsacts [] observations in
  must! siter (roll_slot programs) observations in
  validateOwnerTCExact desired (retainStaleOwnerFilters desired active).

Definition roll_detach (programs : gmap Z Z) (ob : ownerTCSlotObservation) : SM W unit :=
  if negb (sn_existed (ob_snapshot ob)) then sret tt
  else
    match ob_active ob with
    | None => sfail "owner TC slot is not bound to the recorded active program"
    | Some a =>
        reject negb (sn_programID (ob_snapshot ob) =? tb_ProgramID a)
          with "owner TC slot is not bound to the recorded active program" in
        try! fd := staged programs (tb_ProgramID a) in
        try! current := inspectTCFilterSlot (ob_link ob) (ob_slot ob) false in
        if negb (sn_existed current) then sret tt
        else
          reject negb (sn_programID current =? tb_ProgramID a) with "owner TC slot changed immediately before delete" in
          delete_owned (ob_link ob) (ob_slot ob) fd current
    end.
Definition rollForwardOwnerDetachFilters (active : list tcFilterBinding) (programs : gmap Z Z) : SM W unit :=
  try! observations := inspectOwnerTCTransition active [] ownerTCDetachTransition in
  must! siter (roll_detach programs) observations in
  validateOwnerTCExact [] active.

Definition restore_slot (programs : gmap Z Z) (ob : ownerTCSlotObservation) : SM W unit :=
  match ob_active ob with
  | None => sfail "unreachable"
  | Some a =>
      if sn_existed (ob_snapshot ob) then
        reject negb (sn_programID (ob_snapshot ob) =? tb_ProgramID a) with "owner TC slot changed before restore" in
        sret tt
      else
        try! fd := staged programs (tb_ProgramID a) in
        try! present := inspectClsact (ob_link ob) in
        must! (if present then sret tt else scall (tc_qdiscAdd (canonicalClsact (tb_IfIndex a)))) in
        must! swrap "restore owner TC slot: " (scall (tc_filterAdd (managedBpfFilter (tb_IfIndex a) (ob_slot ob) fd))) in
        converge ob (tb_ProgramID a)
  end.
Definition restoreOwnerActiveFilters (active : list tcFilterBinding) (programs : gmap Z Z) : SM W unit :=
  try! observations := inspectOwnerTCTransition active active ownerTCDetachTransition in
  must! siter (restore_slot programs) observations in
  validateOwnerTCExact active active.
End recovery.
