(* ===== verification/TcRecoveryProps.v ===== *)
(** * Recovery brings an interrupted attachment to its end

    Exactness holds on every kernel that obeys [TcLaws]; convergence on those
    whose calls also succeed ([TcReliable]). *)
From Stdlib Require Import ZArith Lia Ascii.
From stdpp Require Import base option list gmap strings numbers sorting pretty.
From S2P Require Import Prelude ErrorState Config Profile Control Coordinator Guard.
From S2P Require Import TcTransaction TcTransactionProps TcRecovery.

(** ** Keys *)

(** The number a string of digits denotes, after [acc]. *)
Definition digit_of (c : ascii) : N := (N_of_ascii c - 48)%N.
Fixpoint decimal (acc : N) (s : string) : N :=
  match s with
  | EmptyString => acc
  | String c s => decimal (10 * acc + digit_of c)%N s
  end.
Lemma decimal_go x s : decimal 0 (pretty_N_go x s) = decimal x s.
Proof.
  revert s. induction (N.lt_wf_0 x) as [x _ IH]. intros s. destruct (decide (0 < x)%N) as [Hx|Hx].
  - rewrite pretty_N_go_step by done. rewrite IH by (apply N.div_lt; lia). cbn [decimal].
    replace (digit_of (pretty_N_char (x `mod` 10))) with (x `mod` 10)%N.
    + f_equal. pose proof (N.div_mod x 10 ltac:(lia)). lia.
    + assert (x `mod` 10 < 10)%N as Hm by (apply N.mod_lt; lia). revert Hm. generalize (x `mod` 10)%N.
      intros y Hy. assert (y = 0 \/ y = 1 \/ y = 2 \/ y = 3 \/ y = 4 \/ y = 5 \/ y = 6 \/ y = 7 \/ y = 8 \/ y = 9)%N as Hc by lia.
      by destruct_or! Hc; subst.
  - assert (x = 0)%N as -> by lia. by rewrite pretty_N_go_0.
Qed.
Lemma decimal_zeros n s : decimal 0 (zeros n +:+ s) = decimal 0 s.
Proof. induction n as [|n IH]; [done|exact IH]. Qed.
Lemma decimal_fmt v : 0 < v -> decimal 0 (fmt_010d v) = Z.to_N v.
Proof.
  intros Hv. unfold fmt_010d. rewrite decimal_zeros. destruct v as [|p|p]; [lia| |lia].
  change (decimal 0 (pretty (N.pos p)) = N.pos p). unfold pretty, pretty_N. case_decide; [done|]. by rewrite decimal_go.
Qed.
Lemma zeros_no_slash n s : no_slash s -> no_slash (zeros n +:+ s).
Proof. intros Hs. induction n as [|n IH]; [done|]. by constructor. Qed.

Lemma owner_key_inj b b' : 0 < tb_IfIndex b -> 0 < tb_IfIndex b' -> ownerFilterKey b = ownerFilterKey b' ->
  tb_IfIndex b = tb_IfIndex b' /\ tb_Direction b = tb_Direction b'.
Proof.
  intros H1 H2 [Hk Hd]%slash_split; [|apply zeros_no_slash, pretty_no_slash..]. split; [|done].
  apply (f_equal (decimal 0)) in Hk. rewrite !decimal_fmt in Hk by done. lia.
Qed.

(** The bindings of a valid list, by key. *)
Definition binding_ok (b : tcFilterBinding) : Prop :=
  0 < tb_IfIndex b /\ tb_ProgramID b <> 0 /\ exists slot, ownerFilterSlot b = inl slot.
Lemma owner_bindings_spec l : forall out M, owner_bindings out l = inl M ->
  Forall binding_ok l /\ (forall b, b ∈ l -> out !! ownerFilterKey b = None) /\
  forall key b, M !! key = Some b <-> out !! key = Some b \/ b ∈ l /\ key = ownerFilterKey b.
Proof.
  induction l as [|b l IH]; intros out M; cbn [owner_bindings].
  { intros [= <-]. split_and!; [constructor|by intros b ?%elem_of_nil|]. intros key b. split; [by left|].
    by intros [?|[?%elem_of_nil _]]. }
  destruct ((tb_IfIndex b <=? 0) || (tb_ProgramID b =? 0)) eqn:E; [done|].
  apply orb_false_iff in E as [E1%Z.leb_gt E2%Z.eqb_neq].
  destruct (ownerFilterSlot b) as [slot|e] eqn:Hslot; [|done].
  destruct (out !! ownerFilterKey b) eqn:Hk; [done|]. intros Hm. destruct (IH _ _ Hm) as (H1 & H2 & H3).
  split_and!.
  - constructor; [|done]. split_and!; [done|done|by eexists].
  - intros b' [-> |Hb']%elem_of_cons; [done|]. specialize (H2 _ Hb').
    destruct (decide (ownerFilterKey b = ownerFilterKey b')) as [<- |Hne]; [done|]. by rewrite lookup_insert_ne in H2.
  - intros key b'. rewrite H3, lookup_insert_Some, elem_of_cons. split.
    + intros [[[<- <-]|[Hne ?]]|[? ?]]; auto.
    + intros [Ho|[[-> |Hb'] ->]]; [|by auto|by auto].
      left. right. split; [|done]. intros <-. congruence.
Qed.
Lemma binding_map_spec l M : ownerBindingMap l = inl M ->
  Forall binding_ok l /\ forall key b, M !! key = Some b <-> b ∈ l /\ key = ownerFilterKey b.
Proof.
  intros Hm. destruct (owner_bindings_spec _ _ _ Hm) as (H1 & _ & H3). split; [done|]. intros key b. rewrite H3.
  split; [by intros [?|?]|by right].
Qed.

(** Two maps of a journal agree on the slot of a key. *)
Lemma same_slot l l' M M' key b b' slot slot' : ownerBindingMap l = inl M -> ownerBindingMap l' = inl M' ->
  M !! key = Some b -> M' !! key = Some b' -> ownerFilterSlot b = inl slot -> ownerFilterSlot b' = inl slot' ->
  tb_IfIndex b = tb_IfIndex b' /\ slot = slot'.
Proof.
  intros [F1 S1]%binding_map_spec [F2 S2]%binding_map_spec Hb Hb' Hs Hs'.
  apply S1 in Hb as [Hb Hk]. apply S2 in Hb' as [Hb' Hk']. rewrite Forall_forall in F1. rewrite Forall_forall in F2.
  destruct (F1 _ Hb) as (P1 & _ & _), (F2 _ Hb') as (P2 & _ & _).
  destruct (owner_key_inj b b' P1 P2) as [Hi Hd]; [congruence|]. split; [done|].
  destruct (owner_slot_spec _ _ Hs) as [C1 D1], (owner_slot_spec _ _ Hs') as [C2 D2].
  revert C1 C2 D1 D2. rewrite Hd. unfold canonicalTCFilterSlots. rewrite !elem_of_cons, !elem_of_nil.
  by intros [-> |[-> |[]]] [-> |[-> |[]]] -> ?.
Qed.
(** Slots of different keys are different. *)
Lemma slot_determines_key b b' slot slot' : ownerFilterSlot b = inl slot -> ownerFilterSlot b' = inl slot' ->
  slot_id (tb_IfIndex b) slot = slot_id (tb_IfIndex b') slot' -> ownerFilterKey b = ownerFilterKey b'.
Proof.
  intros Hs Hs' Heq. destruct (owner_slot_spec _ _ Hs) as [C1 D1], (owner_slot_spec _ _ Hs') as [C2 D2].
  destruct (slot_id_inj _ _ _ _ C1 C2 Heq) as [Hi ->]. unfold ownerFilterKey. by rewrite Hi, D1, D2.
Qed.

(** ** Kernels whose calls succeed *)

Class TcReliable (W : Type) `{TcLaws W} := {
  (** The program behind a descriptor, and the interfaces with a clsact. *)
  tr_program : Z -> Z;
  tr_clsact : W -> Z -> bool;
  tr_link i w : exists w', tc_linkByIndex i w = (inl (Some i), w');
  tr_qdiscs i w : exists w', tc_qdiscList i w =
    (inl (if tr_clsact w i then [Some (canonicalClsact i)] else []), w');
  tr_qdiscAdd i w : exists w', tc_qdiscAdd (canonicalClsact i) w = (None, w') /\ tr_clsact w' i = true;
  tr_list i parent w : exists l w', tc_filterList i parent w = (inl l, w');
  tr_add rq w : tl_filters w !! attrs_id (rq_attrs rq) = None -> exists w', tc_filterAdd rq w = (None, w') /\
    tl_filters w' !! attrs_id (rq_attrs rq) = Some (installed rq (tr_program (rq_Fd rq)));
  tr_replace rq w : exists w', tc_filterReplace rq w = (None, w') /\
    tl_filters w' !! attrs_id (rq_attrs rq) = Some (installed rq (tr_program (rq_Fd rq)));
  tr_delete rq w : tl_filters w !! attrs_id (rq_attrs rq) <> None -> exists w', tc_filterDelete rq w = (None, w')
}.

(** No foreign filter sits in a managed slot of an interface. *)
Definition clean (m : filters) (i : Z) : Prop := forall k f slot, m !! k = Some f -> k.1.1.1 = i ->
  slot ∈ canonicalTCFilterSlots -> k.1.1.2 = sl_parent slot -> slot_collides slot f = true ->
  slot_owns i slot f <> None.

Lemma NoDup_all_equal {A} (l : list A) x : NoDup l -> (forall y, y ∈ l -> y = x) -> (length l <= 1)%nat.
Proof.
  intros Hn Hx. destruct l as [|a [|b l]]; cbn; [lia|lia|]. inversion Hn as [|? ? Ha _]; subst. exfalso. apply Ha.
  rewrite (Hx a), (Hx b); [by left|right; by left|by left].
Qed.
Lemma listed_NoDup i parent m : wf_filters m -> NoDup (listed i parent m).
Proof.
  intros [W1 _]. apply (NoDup_map_coarser fst).
  - assert (forall l : list (filter_id * TcFilter), NoDup (map fst l) -> NoDup (map fst (filter (on_parent i parent) l))) as Hf.
    { induction l as [|e l IH]; [done|]. intros Hn. inversion Hn as [|? ? He Hl]; subst. rewrite filter_cons.
      case_decide; [|by apply IH]. constructor; [|by apply IH].
      intros (e' & Heq & [_ He']%list_elem_of_filter)%list_elem_of_fmap. apply He. rewrite Heq. by apply list_elem_of_fmap_2. }
    apply Hf, NoDup_fst_map_to_list.
  - intros [k f] [k' f'] [_ H1%elem_of_map_to_list]%list_elem_of_filter [_ H2%elem_of_map_to_list]%list_elem_of_filter.
    cbn. intros <-. rewrite <- (W1 _ _ H1). by rewrite <- (W1 _ _ H2).
Qed.
Lemma one_collision i slot m : wf_filters m -> clean m i -> slot ∈ canonicalTCFilterSlots ->
  (length (filter (fun f => slot_collides slot f = true) (listed i (sl_parent slot) m)) <= 1)%nat.
Proof.
  intros Hwf Hc Hs. destruct (m !! slot_id i slot) as [f0|] eqn:Hm.
  - apply (NoDup_all_equal _ f0); [by apply NoDup_filter, listed_NoDup|].
    intros f [Hcol (k & Hk & Hi & Hp)%listed_spec]%list_elem_of_filter.
    pose proof (Hc k f slot Hk Hi Hs Hp Hcol) as Ho. destruct (slot_owns i slot f) as [b|] eqn:Hb; [|done].
    pose proof (owns_spec _ _ _ _ Hb) as Hf. pose proof (wff_id _ Hwf _ _ Hk) as Hid. rewrite Hf in Hid. cbn in Hid.
    change (slot_id i slot) with (attrs_id (managedAttrs i slot)) in Hm. rewrite Hid, Hk in Hm. by injection Hm.
  - destruct (filter _ _) as [|f l] eqn:E; [cbn; lia|]. exfalso.
    assert (f ∈ filter (fun f => slot_collides slot f = true) (listed i (sl_parent slot) m)) as Hin by (rewrite E; by left).
    apply list_elem_of_filter in Hin as [Hcol (k & Hk & Hi & Hp)%listed_spec].
    pose proof (Hc k f slot Hk Hi Hs Hp Hcol) as Ho. destruct (slot_owns i slot f) as [b|] eqn:Hb; [|done].
    pose proof (owns_spec _ _ _ _ Hb) as Hf. pose proof (wff_id _ Hwf _ _ Hk) as Hid. rewrite Hf in Hid. cbn in Hid.
    change (slot_id i slot) with (attrs_id (managedAttrs i slot)) in Hm. by rewrite Hid, Hk in Hm.
Qed.

Definition collides_opt (slot : tcFilterSlot) (o : option TcFilter) : Prop :=
  match o with Some f => slot_collides slot f = true | None => False end.
#[export] Instance collides_opt_dec slot o : Decision (collides_opt slot o).
Proof. destruct o; cbn; apply _. Defined.
Lemma scan_total link l : forall sn n,
  (forall o, o ∈ l -> exists f, o = Some f /\ (slot_collides (sn_slot sn) f = true -> slot_owns link (sn_slot sn) f <> None)) ->
  exists sn', scan_filters link sn n l = inl (sn', n + Z.of_nat (length (filter (collides_opt (sn_slot sn)) l))).
Proof.
  induction l as [|o l IH]; intros sn n Hl; cbn [scan_filters].
  { exists sn. cbn. by rewrite Z.add_0_r. }
  destruct (Hl o ltac:(by left)) as (f & -> & Hf). rewrite filter_cons.
  assert (forall sn', sn_slot sn' = sn_slot sn -> forall o, o ∈ l -> exists f, o = Some f /\
    (slot_collides (sn_slot sn') f = true -> slot_owns link (sn_slot sn') f <> None)) as Hl'.
  { intros sn' Hs o Ho. rewrite Hs. apply Hl. by right. }
  destruct (decide (collides_opt (sn_slot sn) (Some f))) as [Hc|Hc]; cbn [collides_opt] in Hc.
  - rewrite Hc. cbn [negb]. destruct (slot_owns link (sn_slot sn) f) as [b|] eqn:Ho; [|by destruct (Hf Hc)].
    destruct (IH (mkSnapshot (sn_slot sn) true (u32 (bf_Id b)) (sn_oldProgram sn) (tf_attrs f) (bf_ClassId b)) (n + 1))
      as [sn' Hs']; [by apply Hl'|]. exists sn'. rewrite Hs'. cbn [sn_slot length]. do 2 f_equal. lia.
  - apply not_true_is_false in Hc. rewrite Hc. by apply IH, Hl'.
Qed.

Section total.
Context {W : Type} `{TcReliable W}.
Implicit Types w : W.

Lemma inspect_total link slot w : wf_filters (tl_filters w) -> clean (tl_filters w) link -> slot ∈ canonicalTCFilterSlots ->
  swp (inspectTCFilterSlot link slot false)
    (fun sn w' => tl_filters w' = tl_filters w /\ sn_slot sn = slot /\ shows link (tl_filters w) sn) (fun _ => False) w.
Proof.
  intros Hwf Hcl Hs. pose proof (tc_inspect_spec link slot false w Hwf) as Hp. unfold swp in *.
  destruct (inspectTCFilterSlot link slot false w) as [[sn|e] w'] eqn:E; [done|]. revert E.
  unfold inspectTCFilterSlot, sbind. pose proof (tl_list link (sl_parent slot) w) as Hl.
  destruct (tr_list link (sl_parent slot) w) as (l & w1 & Hlist). rewrite Hlist in *. destruct Hl as [_ Hl].
  specialize (Hl l eq_refl). destruct (scan_total link l (snapshot_zero slot) 0) as [sn' Hscan].
  { intros o Ho. rewrite Hl in Ho. apply list_elem_of_fmap in Ho as (f & -> & (k & Hk & Hi & Hpa)%listed_spec).
    exists f. split; [done|]. intros Hcol. by eapply Hcl. }
  unfold spure. rewrite Hscan. cbn [fst snd snapshot_zero sn_slot].
  assert (length (filter (collides_opt slot) l) <= 1)%nat as Hlen.
  { rewrite Hl. pose proof (one_collision link slot _ Hwf Hcl Hs) as Hone. revert Hone.
    generalize (listed link (sl_parent slot) (tl_filters w)). clear. intros l.
    assert (length (filter (collides_opt slot) (map Some l)) = length (filter (fun f => slot_collides slot f = true) l)) as ->; [|done].
    induction l as [|f l IH]; [done|]. cbn [map]. rewrite !filter_cons.
    destruct (decide (collides_opt slot (Some f))) as [Hc|Hc], (decide (slot_collides slot f = true)) as [Hd|Hd];
      cbn [collides_opt] in Hc; try done; cbn [length]; by rewrite IH. }
  destruct (1 <? _) eqn:Elt; [apply Z.ltb_lt in Elt; lia|]. rewrite andb_false_r. done.
Qed.

Lemma find_link_total i w :
  swp (find_link i) (fun link w' => link = i /\ tl_filters w' = tl_filters w) (fun _ => False) w.
Proof.
  pose proof (find_link_spec i w) as Hp. destruct (tr_link i w) as [w' Hl]. unfold swp, find_link, sbind in *.
  rewrite Hl in *. by rewrite Z.eqb_refl in *.
Qed.
Lemma clsact_total i w : swp (inspectClsact i) (fun b w' => tl_filters w' = tl_filters w /\ b = tr_clsact w i) (fun _ => False) w.
Proof.
  pose proof (quiet_swp _ w (quiet_clsact i)) as Hq. destruct (tr_qdiscs i w) as [w' Hl].
  unfold swp, inspectClsact, sbind, spure in *. rewrite Hl in *.
  assert (clsact_canonical i (canonicalClsact i) = true) as Hcan by (unfold clsact_canonical; cbn; by rewrite Z.eqb_refl).
  destruct (tr_clsact w i); cbn in *; rewrite ?Hcan in *; by cbn in *.
Qed.
End total.

(** ** Observation *)

Abbreviation bindings := (gmap string tcFilterBinding) (only parsing).

Record observes (m : filters) (A D : bindings) (key : string) (ob : ownerTCSlotObservation) : Prop := {
  obs_key : ob_key ob = key;
  obs_active : ob_active ob = A !! key;
  obs_desired : ob_desired ob = D !! key;
  obs_ref : exists b, (A !! key = Some b \/ D !! key = Some b) /\ ob_link ob = tb_IfIndex b /\
    ownerFilterSlot b = inl (ob_slot ob);
  obs_slot : sn_slot (ob_snapshot ob) = ob_slot ob;
  obs_shows : shows (ob_link ob) m (ob_snapshot ob)
}.

(** What a crash of the transaction may leave: each slot of the journal holds the
    old or the new program; a slot that had a program and keeps one is not empty. *)
Definition torn (tr : ownerTCTransition) (m : filters) (A D : bindings) : Prop := forall key b slot,
  (A !! key = Some b \/ D !! key = Some b) -> ownerFilterSlot b = inl slot ->
  match m !! slot_id (tb_IfIndex b) slot with
  | Some f => exists id c, f = managed (tb_IfIndex b) slot id c /\
      (binding_matches (A !! key) id || binding_matches (D !! key) id) = true
  | None => tr = ownerTCApplyTransition -> A !! key = None \/ D !! key = None
  end.
Definition journal_clean (m : filters) (A D : bindings) : Prop := forall key b,
  (A !! key = Some b \/ D !! key = Some b) -> clean m (tb_IfIndex b) /\ exists slot, ownerFilterSlot b = inl slot.

Lemma shows_managed link m sn id c : shows link m sn -> m !! slot_id link (sn_slot sn) = Some (managed link (sn_slot sn) id c) ->
  sn_existed sn = true /\ sn_programID sn = id.
Proof. intros [Hs _] Hm. rewrite Hm in Hs. destruct (sn_existed sn); [|done]. injection Hs as -> _. done. Qed.
Lemma shows_absent link m sn : shows link m sn -> m !! slot_id link (sn_slot sn) = None -> sn_existed sn = false.
Proof. intros [Hs _] Hm. rewrite Hm in Hs. by destruct (sn_existed sn). Qed.

Section observe.
Context {W : Type} `{TcLaws W}.
Implicit Types w : W.

Lemma quiet_observe_link links i : quiet (observe_link links i).
Proof.
  unfold observe_link. destruct (links !! i); [done|]. apply tc_quiet_bind.
  - apply quiet_wrap. intros w. pose proof (find_link_spec i w) as Hf. unfold swp in Hf.
    by destruct (find_link i w) as [[l|e] w']; [destruct Hf|].
  - intros link. apply tc_quiet_bind; [apply quiet_wrap, quiet_clsact|done].
Qed.

(** The reference binding of a key. *)
Definition reference (A D : bindings) (key : string) : option tcFilterBinding :=
  match A !! key with Some a => Some a | None => D !! key end.
(** One step of the observation. *)
Definition observe_one (A D : bindings) (tr : ownerTCTransition) (key : string) (b : tcFilterBinding)
    (links : gmap Z bool) (slot : tcFilterSlot) (sn : tcFilterSnapshot) : ownerTCSlotObservation :=
  mkObservation key (tb_IfIndex b) slot (default false (links !! tb_IfIndex b)) sn (A !! key) (D !! key).
Lemma observe_slots_cons A D tr links key keys b : reference A D key = Some b ->
  observe_slots (W := W) A D tr links (key :: keys) =
  (try! links := observe_link links (tb_IfIndex b) in
   try! slot := spure (ownerFilterSlot b) in
   try! sn := swrap "inspect owner TC slot: " (inspectTCFilterSlot (tb_IfIndex b) slot false) in
   reject sn_existed sn && negb (binding_matches (A !! key) (sn_programID sn) || binding_matches (D !! key) (sn_programID sn))
     with "owner TC slot has program ID outside journal old/new set" in
   reject negb (sn_existed sn) && bool_decide (is_Some (A !! key)) && bool_decide (is_Some (D !! key)) &&
          bool_decide (tr = ownerTCApplyTransition)
     with "owner TC slot disappeared during apply transaction" in
   try! rest := observe_slots A D tr links keys in
   sret (observe_one A D tr key b links slot sn :: rest)).
Proof.
  unfold reference, observe_one. cbn [observe_slots]. destruct (A !! key) as [a|]; [by intros [= ->]|]. by intros ->.
Qed.
Lemma reference_in A D key b : reference A D key = Some b -> A !! key = Some b \/ D !! key = Some b.
Proof. unfold reference. destruct (A !! key) as [a|]; [intros [= ->]; by left|by right]. Qed.

Lemma observe_slots_spec A D tr keys : forall links w, wf_filters (tl_filters w) ->
  swp (observe_slots A D tr links keys)
    (fun obs w' => tl_filters w' = tl_filters w /\ Forall2 (observes (tl_filters w) A D) keys obs)
    (fun w' => tl_filters w' = tl_filters w) w.
Proof.
  induction keys as [|key keys IH]; intros links w Hwf; [by split; [|constructor]|].
  destruct (reference A D key) as [b|] eqn:Hr.
  2:{ unfold reference in Hr. cbn [observe_slots]. destruct (A !! key); [done|]. by rewrite Hr. }
  rewrite (observe_slots_cons _ _ _ _ _ _ _ Hr). apply swp_bind.
  eapply swp_mono; [exact (quiet_swp _ w (quiet_observe_link links _))| |done]. intros links1 w1 Hw1.
  apply swp_bind. unfold swp at 1, spure. destruct (ownerFilterSlot b) as [slot|e] eqn:Hslot; [|done].
  apply swp_bind, swp_wrap. eapply swp_mono; [refine (tc_inspect_spec _ slot false w1 _); by rewrite Hw1| |]; rewrite Hw1; [|done].
  intros sn w2 (Hw2 & Hsn & Hs). apply swp_reject; intros _; [|done]. apply swp_reject; intros _; [|done].
  apply swp_bind. eapply swp_mono; [refine (IH links1 w2 _); by rewrite Hw2| |]; rewrite Hw2; [|done].
  intros obs w3 [Hw3 Hobs]. split; [done|]. constructor; [|done].
  apply Build_observes; [done|done|done| |done|exact Hs]. exists b. split; [by apply reference_in|by split].
Qed.
End observe.

Section observe_total.
Context {W : Type} `{TcReliable W}.
Implicit Types w : W.

Lemma observe_link_total links i w :
  swp (observe_link links i) (fun _ w' => tl_filters w' = tl_filters w) (fun _ => False) w.
Proof.
  unfold observe_link. destruct (links !! i); [done|]. apply swp_bind, swp_wrap.
  eapply swp_mono; [exact (find_link_total i w)| |done]. intros link w1 [-> Hw1].
  apply swp_bind, swp_wrap. eapply swp_mono; [exact (clsact_total i w1)| |done]. intros b w2 [Hw2 _]. cbn. congruence.
Qed.

Lemma observe_slots_total A D tr keys : forall links w, wf_filters (tl_filters w) ->
  torn tr (tl_filters w) A D -> journal_clean (tl_filters w) A D ->
  (forall key, key ∈ keys -> is_Some (reference A D key)) ->
  swp (observe_slots A D tr links keys)
    (fun obs w' => tl_filters w' = tl_filters w /\ Forall2 (observes (tl_filters w) A D) keys obs) (fun _ => False) w.
Proof.
  induction keys as [|key keys IH]; intros links w Hwf Ht Hc Hk; [by split; [|constructor]|].
  destruct (Hk key ltac:(by left)) as [b Hr]. pose proof (reference_in _ _ _ _ Hr) as Hb.
  destruct (Hc key b Hb) as [Hcl [slot Hslot]]. destruct (owner_slot_spec _ _ Hslot) as [Hcan _].
  rewrite (observe_slots_cons _ _ _ _ _ _ _ Hr). apply swp_bind.
  eapply swp_mono; [exact (observe_link_total links _ w)| |done]. intros links1 w1 Hw1.
  apply swp_bind. unfold swp at 1, spure. rewrite Hslot.
  apply swp_bind, swp_wrap. eapply swp_mono; [apply (inspect_total (tb_IfIndex b) slot w1); rewrite ?Hw1; done| |done].
  rewrite Hw1. intros sn w2 (Hw2 & Hsn & Hs). pose proof (Ht key b slot Hb Hslot) as Hts. rewrite <- Hsn in Hts.
  assert (sn_existed sn && negb (binding_matches (A !! key) (sn_programID sn) || binding_matches (D !! key) (sn_programID sn)) = false /\
    negb (sn_existed sn) && bool_decide (is_Some (A !! key)) && bool_decide (is_Some (D !! key)) &&
      bool_decide (tr = ownerTCApplyTransition) = false) as [R1 R2].
  { destruct (tl_filters w !! slot_id (tb_IfIndex b) (sn_slot sn)) as [f|] eqn:Hm.
    - destruct Hts as (id & c & -> & Hmatch). destruct (shows_managed _ _ _ _ _ Hs Hm) as [-> ->]. by rewrite Hmatch.
    - rewrite (shows_absent _ _ _ Hs Hm). cbn. split; [done|]. destruct (decide (tr = ownerTCApplyTransition)) as [Htr|Hn].
      + destruct (Hts Htr) as [-> | ->]; cbn; [done|]. by rewrite andb_false_r.
      + rewrite (bool_decide_eq_false_2 _ Hn). by rewrite andb_false_r. }
  rewrite R1, R2. apply swp_bind.
  eapply swp_mono; [apply (IH links1 w2); rewrite ?Hw2; [done|done|done|]| |done].
  - intros key' Hkey'. apply Hk. by right.
  - rewrite Hw2. intros obs w3 [Hw3 Hobs]. split; [done|]. constructor; [|done].
    apply Build_observes; [done|done|done| |done|exact Hs]. exists b. split; [done|by split].
Qed.
End observe_total.

(** ** The final check *)

Lemma transition_keys_spec A D key : key ∈ transition_keys A D <-> is_Some (reference A D key).
Proof.
  unfold transition_keys, reference. rewrite merge_sort_Permutation, elem_of_app, list_elem_of_filter, !list_elem_of_fmap.
  destruct (A !! key) as [a|] eqn:Ha.
  - split; [by intros _|]. intros _. left. exists (key, a). by rewrite elem_of_map_to_list.
  - split.
    + intros [([k x] & -> & Hx%elem_of_map_to_list)|[_ ([k x] & -> & Hx%elem_of_map_to_list)]]; cbn in *; [congruence|by eexists].
    + intros [d Hd]. right. split; [done|]. exists (key, d). by rewrite elem_of_map_to_list.
Qed.

(** The desired filters are there, and no other filter on record is. *)
Definition exact (m : filters) (B C : bindings) : Prop := forall key b slot,
  (C !! key = Some b \/ B !! key = Some b) -> ownerFilterSlot b = inl slot ->
  match B !! key with
  | Some d => exists c, m !! slot_id (tb_IfIndex b) slot = Some (managed (tb_IfIndex b) slot (tb_ProgramID d) c)
  | None => m !! slot_id (tb_IfIndex b) slot = None
  end.

Lemma first_error_none l : first_error l = None <-> Forall (fun o => o = None) l.
Proof.
  induction l as [|[e|] l IH]; cbn; [by split|split; [done|by inversion 1]|]. rewrite IH. split; [by constructor|by inversion 1].
Qed.

(** What an observation says about the slot of a binding with its key. *)
Lemma observes_at lc lb C B m key ob b slot : ownerBindingMap lc = inl C -> ownerBindingMap lb = inl B ->
  observes m C B key ob -> (C !! key = Some b \/ B !! key = Some b) -> ownerFilterSlot b = inl slot ->
  ob_link ob = tb_IfIndex b /\ ob_slot ob = slot.
Proof.
  intros HC HB [_ _ _ (b0 & Hb0 & Hl & Hs) _ _] Hb Hslot.
  assert (tb_IfIndex b0 = tb_IfIndex b /\ ob_slot ob = slot) as [Hi Hsl]; [|by rewrite Hl].
  destruct Hb0 as [Hb0|Hb0], Hb as [Hb|Hb];
    [exact (same_slot _ _ _ _ _ _ _ _ _ HC HC Hb0 Hb Hs Hslot)|exact (same_slot _ _ _ _ _ _ _ _ _ HC HB Hb0 Hb Hs Hslot)
    |exact (same_slot _ _ _ _ _ _ _ _ _ HB HC Hb0 Hb Hs Hslot)|exact (same_slot _ _ _ _ _ _ _ _ _ HB HB Hb0 Hb Hs Hslot)].
Qed.

Lemma observed_key m A D obs key b : Forall2 (observes m A D) (transition_keys A D) obs ->
  (A !! key = Some b \/ D !! key = Some b) -> exists ob, ob ∈ obs /\ observes m A D key ob.
Proof.
  intros Hf Hb. assert (key ∈ transition_keys A D) as [n Hn]%list_elem_of_lookup.
  { apply transition_keys_spec. unfold reference. destruct (A !! key); [done|]. destruct Hb as [?|Hb]; [done|]. by rewrite Hb. }
  destruct (Forall2_lookup_l _ _ _ _ _ Hf Hn) as (ob & Ho & Hob). exists ob. split; [by eapply list_elem_of_lookup_2|done].
Qed.

Section validate.
Context {W : Type} `{TcLaws W}.
Implicit Types w : W.

Lemma inspect_transition_spec lc lb tr w : wf_filters (tl_filters w) ->
  swp (inspectOwnerTCTransition lc lb tr)
    (fun obs w' => tl_filters w' = tl_filters w /\ exists C B, ownerBindingMap lc = inl C /\ ownerBindingMap lb = inl B /\
       Forall2 (observes (tl_filters w) C B) (transition_keys C B) obs)
    (fun w' => tl_filters w' = tl_filters w) w.
Proof.
  intros Hwf. apply swp_bind. unfold swp at 1, spure. destruct (ownerBindingMap lc) as [C|e]; [|done].
  apply swp_bind. unfold swp at 1, spure. destruct (ownerBindingMap lb) as [B|e]; [|done].
  eapply swp_mono; [exact (observe_slots_spec C B tr _ ∅ w Hwf)| |done].
  intros obs w' [Hw Ho]. split; [done|]. by exists C, B.
Qed.

Lemma exact_slot_sound lc lb C B m obs : ownerBindingMap lc = inl C -> ownerBindingMap lb = inl B ->
  Forall2 (observes m C B) (transition_keys C B) obs -> Forall (fun o => o = None) (map (exact_slot B) obs) -> exact m B C.
Proof.
  intros HC HB Ho Hall key b slot Hb Hslot.
  destruct (observed_key m C B obs key b Ho) as (ob & Hin & Hob); [done|].
  rewrite Forall_map, Forall_forall in Hall. specialize (Hall ob Hin).
  destruct (observes_at _ _ _ _ _ _ _ _ _ HC HB Hob Hb Hslot) as [Hl Hs].
  destruct Hob as [K1 _ _ _ K5 [K6 _]]. unfold exact_slot in Hall. rewrite K1 in Hall. rewrite K5, Hl, Hs in K6.
  destruct (B !! key) as [d|], (sn_existed (ob_snapshot ob)); try done.
  destruct (negb _) eqn:E; [done|]. apply negb_false_iff, Z.eqb_eq in E. eexists. rewrite <- E. exact K6.
Qed.
Lemma exact_slot_complete lc lb C B m obs : ownerBindingMap lc = inl C -> ownerBindingMap lb = inl B ->
  Forall2 (observes m C B) (transition_keys C B) obs -> exact m B C -> Forall (fun o => o = None) (map (exact_slot B) obs).
Proof.
  intros HC HB Ho Hex. apply Forall_map, Forall_forall. intros ob [n Hn]%list_elem_of_lookup.
  destruct (Forall2_lookup_r _ _ _ _ _ Ho Hn) as (key & _ & [K1 K2 K3 (b & Hb & Hl & Hs) K5 K6]).
  specialize (Hex key b _ Hb Hs). rewrite <- Hl, <- K5 in Hex. cbn. unfold exact_slot. rewrite K1.
  destruct (B !! key) as [d|].
  - destruct Hex as [c Hm]. destruct (shows_managed _ _ _ _ _ K6 Hm) as [-> ->]. by rewrite Z.eqb_refl.
  - by rewrite (shows_absent _ _ _ K6 Hex).
Qed.

Lemma validate_spec lb lc w : wf_filters (tl_filters w) ->
  swp (validateOwnerTCExact lb lc)
    (fun _ w' => tl_filters w' = tl_filters w /\ exists C B, ownerBindingMap lc = inl C /\ ownerBindingMap lb = inl B /\
       exact (tl_filters w) B C)
    (fun w' => tl_filters w' = tl_filters w) w.
Proof.
  intros Hwf. apply swp_bind. eapply swp_mono; [exact (inspect_transition_spec lc lb _ w Hwf)| |done].
  intros obs w1 (Hw1 & C & B & HC & HB & Ho). apply swp_bind. unfold swp at 1, spure. rewrite HB.
  unfold scheck_all. destruct (first_error (map (exact_slot B) obs)) eqn:E; [done|]. apply first_error_none in E.
  cbn. split; [done|]. exists C, B. split_and!; [done|done|]. by eapply exact_slot_sound.
Qed.
End validate.

Section validate_total.
Context {W : Type} `{TcReliable W}.

Lemma exact_torn m B C : exact m B C -> torn ownerTCDetachTransition m C B.
Proof.
  intros Hex key b slot Hb Hslot. specialize (Hex key b slot Hb Hslot). destruct (B !! key) as [d|].
  - destruct Hex as [c ->]. exists (tb_ProgramID d), c. split; [done|]. cbn. by rewrite Z.eqb_refl, orb_true_r.
  - by rewrite Hex.
Qed.
Lemma validate_total lb lc C B (w : W) : ownerBindingMap lc = inl C -> ownerBindingMap lb = inl B ->
  wf_filters (tl_filters w) -> journal_clean (tl_filters w) C B -> exact (tl_filters w) B C ->
  swp (validateOwnerTCExact lb lc) (fun _ w' => tl_filters w' = tl_filters w) (fun _ => False) w.
Proof.
  intros HC HB Hwf Hcl Hex. apply swp_bind, swp_bind. unfold swp at 1, spure. rewrite HC.
  apply swp_bind. unfold swp at 1, spure. rewrite HB.
  eapply swp_mono; [apply (observe_slots_total C B _ _ ∅ w Hwf (exact_torn _ _ _ Hex) Hcl)| |done].
  { intros key. by rewrite transition_keys_spec. }
  intros obs w1 [Hw1 Ho]. apply swp_bind. unfold swp at 1, spure.
  unfold scheck_all. pose proof (exact_slot_complete _ _ _ _ _ _ HC HB Ho Hex) as Hall.
  apply first_error_none in Hall. by rewrite Hall.
Qed.
End validate_total.

(** ** One slot *)

Definition ob_id (ob : ownerTCSlotObservation) : filter_id := slot_id (ob_link ob) (ob_slot ob).

Section slots.
Context {W : Type} `{TcLaws W}.
Implicit Types w : W.

(** A step that touches one slot at most, whether it fails or not. *)
Definition local_at {A} (k : filter_id) (m : SM W A) : Prop := forall w, wf_filters (tl_filters w) ->
  step_to k (tl_filters w) (m w).2.
Lemma step_trans k m w w' : step_to k m w -> step_to k (tl_filters w) w' -> step_to k m w'.
Proof. intros [_ H1] [H2 H3]. split; [done|]. intros k' Hk. rewrite H3 by done. by apply H1. Qed.
Lemma local_quiet {A} k (m : SM W A) : quiet m -> local_at k m.
Proof. intros Hm w Hw. specialize (Hm w). eapply step_same; [by apply step_refl|done]. Qed.
Lemma local_bind {A B} k (m : SM W A) (g : A -> SM W B) : local_at k m -> (forall a, local_at k (g a)) -> local_at k (sbind m g).
Proof.
  intros Hm Hg w Hw. specialize (Hm w Hw). unfold sbind. destruct (m w) as [[a|e] w1]; [|done].
  eapply step_trans; [exact Hm|]. apply Hg. apply Hm.
Qed.
Lemma local_wrap {A} k prefix (m : SM W A) : local_at k m -> local_at k (swrap prefix m).
Proof. intros Hm w Hw. specialize (Hm w Hw). unfold swrap. by destruct (m w) as [[a|e] w1]. Qed.
Lemma local_reject {A} k (b : bool) (e : error) (m : SM W A) : local_at k m -> local_at k (if b then sfail e else m).
Proof. intros Hm. destruct b; [by apply local_quiet|done]. Qed.
Lemma local_install link slot fd f : installs (managedBpfFilter link slot fd) f ->
  local_at (slot_id link slot) (scall (f (managedBpfFilter link slot fd))).
Proof.
  intros Hf w Hw. pose proof (install_wp _ _ _ w Hf (step_refl _ w Hw)) as Hi. unfold swp in Hi.
  destruct (scall _ w) as [[a|e] w1]; [by destruct Hi|]. by eapply step_same; [apply step_refl|].
Qed.
Lemma local_delete link slot fd id : local_at (slot_id link slot) (delete_filter (with_id id (managedBpfFilter link slot fd))).
Proof.
  intros w Hw. pose proof (delete_filter_wp (with_id id (managedBpfFilter link slot fd)) _ w (step_refl _ w Hw)) as Hi.
  unfold swp in Hi. destruct (delete_filter _ w) as [[a|e] w1]; [by destruct Hi|]. by eapply step_same; [apply step_refl|].
Qed.
Lemma quiet_staged programs id : quiet (W := W) (staged programs id).
Proof. unfold staged. destruct (programs !! id); [|done]. by destruct (_ <? 0). Qed.

Lemma local_roll programs ob : local_at (ob_id ob) (roll_slot (W := W) programs ob).
Proof.
  unfold roll_slot, roll_stale, roll_desired, delete_owned, converge. destruct (ob_desired ob) as [d|].
  - apply local_bind; [apply local_quiet, quiet_staged|]. intros fd.
    apply local_bind; [apply local_quiet, quiet_inspect|]. intros current.
    destruct (_ && _); [by apply local_quiet|]. apply local_reject, local_bind.
    + destruct (sn_existed current); [apply local_wrap, local_install, replace_installs|].
      apply local_reject, local_wrap, local_install, add_installs.
    + intros _. apply local_bind; [apply local_quiet, quiet_inspect|]. intros after. by apply local_reject, local_quiet.
  - destruct (ob_active ob) as [a|]; [|by apply local_quiet].
    apply local_bind; [apply local_quiet, quiet_inspect|]. intros current.
    destruct (negb _); [by apply local_quiet|]. apply local_reject, local_bind; [apply local_quiet, quiet_staged|]. intros fd.
    apply local_bind; [apply local_wrap, local_delete|]. intros _.
    apply local_bind; [apply local_quiet, quiet_inspect|]. intros after. by apply local_reject, local_quiet.
Qed.

(** All slots, in a row. *)
Lemma siter_local {A} (f : A -> SM W unit) (key : A -> filter_id) l : (forall a, a ∈ l -> local_at (key a) (f a)) ->
  forall w, wf_filters (tl_filters w) ->
  wf_filters (tl_filters (siter f l w).2) /\
  forall k, k ∉ map key l -> tl_filters (siter f l w).2 !! k = tl_filters w !! k.
Proof.
  induction l as [|a l IH]; intros Hf w Hw; [done|]. cbn [siter]. unfold sbind.
  destruct (Hf a ltac:(by left) w Hw) as [H1 H2]. destruct (f a w) as [[u|e] w1]; cbn [snd] in *.
  - destruct (IH (fun a' Ha => Hf a' (list_elem_of_further _ _ _ Ha)) w1 H1) as [G1 G2]. split; [done|].
    intros k Hk. cbn [map] in Hk. apply not_elem_of_cons in Hk as [Hk1 Hk2]. rewrite G2 by done. by apply H2.
  - split; [done|]. intros k Hk. cbn [map] in Hk. apply not_elem_of_cons in Hk as [Hk1 _]. by apply H2.
Qed.
Lemma quiet_add_clsacts l : forall added, quiet (W := W) (add_clsacts added l).
Proof.
  induction l as [|ob l IH]; intros added; [done|]. cbn [add_clsacts]. destruct (_ || _); [apply IH|].
  apply tc_quiet_bind; [apply quiet_clsact|]. intros present. apply tc_quiet_bind; [|intros _; apply IH].
  destruct present; [done|]. apply tc_quiet_bind.
  - apply quiet_wrap. intros w. unfold scall. pose proof (tl_qdiscAdd (canonicalClsact (ob_link ob)) w) as Hq.
    by destruct (tc_qdiscAdd _ w).
  - intros _. apply tc_quiet_bind; [apply quiet_clsact|]. intros p. by destruct (negb p).
Qed.
End slots.

Lemma clean_step m m' i slot j : clean m j -> slot ∈ canonicalTCFilterSlots -> changed_at (slot_id i slot) m m' ->
  (forall f, m' !! slot_id i slot = Some f -> exists id c, f = managed i slot id c /\ 0 < id) -> clean m' j.
Proof.
  intros Hc Hs Hch Hf k f slot' Hk Hi Hs' Hp Hcol. destruct (decide (k = slot_id i slot)) as [-> |Hne].
  - destruct (Hf f Hk) as (id & c & -> & Hid). cbn in Hi, Hp. subst j.
    assert (slot' = slot) as ->.
    { revert Hs Hs' Hp. unfold canonicalTCFilterSlots. rewrite !elem_of_cons, !elem_of_nil.
      by intros [-> |[-> |[]]] [-> |[-> |[]]]. }
    unfold slot_owns, managed. cbn. rewrite String.eqb_refl, bool_decide_eq_true_2 by done.
    apply Z.ltb_lt in Hid. by rewrite Hid.
  - rewrite (Hch k Hne) in Hk. by eapply Hc.
Qed.

Section slots_total.
Context {W : Type} `{TcReliable W}.
Implicit Types w : W.

(** The programs of the journal are staged. *)
Definition staged_ok (programs : gmap Z Z) (b : tcFilterBinding) : Prop := 0 < tb_ProgramID b /\
  exists fd, programs !! tb_ProgramID b = Some fd /\ 0 <= fd /\ tr_program (W := W) fd = tb_ProgramID b.

Lemma staged_total programs b w : staged_ok programs b ->
  swp (staged programs (tb_ProgramID b)) (fun fd w' => w' = w /\ tr_program (W := W) fd = tb_ProgramID b) (fun _ => False) w.
Proof.
  intros (_ & fd & Hp & Hfd & Hid). unfold staged. rewrite Hp. apply swp_reject; [done|]. intros ?%Z.ltb_lt. lia.
Qed.

(** Installing the program of a descriptor in a slot. *)
Lemma install_total link slot fd (f : FilterRequest -> W -> option error * W) w : installs (managedBpfFilter link slot fd) f ->
  (exists w', f (managedBpfFilter link slot fd) w = (None, w') /\
     tl_filters w' !! slot_id link slot = Some (installed (managedBpfFilter link slot fd) (tr_program (W := W) fd))) ->
  wf_filters (tl_filters w) ->
  swp (scall (f (managedBpfFilter link slot fd)))
    (fun _ w' => step_to (slot_id link slot) (tl_filters w) w' /\
       tl_filters w' !! slot_id link slot = Some (managed link slot (tr_program (W := W) fd) 0)) (fun _ => False) w.
Proof.
  intros Hf (w' & Hc & Hat) Hw. pose proof (install_wp _ _ _ w Hf (step_refl _ w Hw)) as Hi.
  unfold swp, scall in *. rewrite Hc in *. by destruct Hi as [Hi _].
Qed.

(** The slot holds what the journal wants in the end. *)
Definition slot_done (m : filters) (D : bindings) (key : string) (ob : ownerTCSlotObservation) : Prop :=
  match D !! key with
  | Some d => exists c, m !! ob_id ob = Some (managed (ob_link ob) (ob_slot ob) (tb_ProgramID d) c)
  | None => m !! ob_id ob = None
  end.

Lemma converge_total ob id c w : wf_filters (tl_filters w) -> clean (tl_filters w) (ob_link ob) ->
  ob_slot ob ∈ canonicalTCFilterSlots -> tl_filters w !! ob_id ob = Some (managed (ob_link ob) (ob_slot ob) id c) ->
  swp (converge ob id) (fun _ w' => tl_filters w' = tl_filters w) (fun _ => False) w.
Proof.
  intros Hw Hc Hs Hm. apply swp_bind. eapply swp_mono; [exact (inspect_total _ _ w Hw Hc Hs)| |done].
  intros sn w1 (Hw1 & Hsn & Hsh). unfold ob_id in Hm. rewrite <- Hsn in Hm.
  destruct (shows_managed _ _ _ _ _ Hsh Hm) as [-> ->]. by rewrite Z.eqb_refl.
Qed.

(** What [inspect] reads in a slot. *)
Lemma read_slot ob w : wf_filters (tl_filters w) -> clean (tl_filters w) (ob_link ob) -> ob_slot ob ∈ canonicalTCFilterSlots ->
  swp (inspectTCFilterSlot (ob_link ob) (ob_slot ob) false)
    (fun sn w' => tl_filters w' = tl_filters w /\ tl_filters w !! ob_id ob =
       if sn_existed sn then Some (managed (ob_link ob) (ob_slot ob) (sn_programID sn) (sn_classID sn)) else None)
    (fun _ => False) w.
Proof.
  intros Hw Hc Hs. eapply swp_mono; [exact (inspect_total _ _ w Hw Hc Hs)| |done].
  intros sn w1 (Hw1 & Hsn & [Hsh _]). rewrite Hsn in Hsh. done.
Qed.

Lemma roll_desired_total programs ob d w : wf_filters (tl_filters w) -> clean (tl_filters w) (ob_link ob) ->
  ob_slot ob ∈ canonicalTCFilterSlots -> staged_ok programs d ->
  match tl_filters w !! ob_id ob with
  | Some f => exists id c, f = managed (ob_link ob) (ob_slot ob) id c /\
      (id = tb_ProgramID d \/ binding_matches (ob_active ob) id = true)
  | None => ob_active ob = None
  end ->
  swp (roll_desired programs ob d)
    (fun _ w' => step_to (ob_id ob) (tl_filters w) w' /\
       exists c, tl_filters w' !! ob_id ob = Some (managed (ob_link ob) (ob_slot ob) (tb_ProgramID d) c)) (fun _ => False) w.
Proof.
  intros Hw Hc Hs Hst Hstate. pose proof (step_refl (ob_id ob) w Hw) as Hrefl. destruct Hst as [Hpos Hst'] eqn:Est. clear Est.
  apply swp_bind. eapply swp_mono; [exact (staged_total _ _ w (conj Hpos Hst'))| |done].
  intros fd ? [-> Hfd]. apply swp_bind. eapply swp_mono; [exact (read_slot ob w Hw Hc Hs)| |done].
  intros sn w1 [Hw1 Hat].
  assert (wf_filters (tl_filters w1)) as Hwf1 by by rewrite Hw1.
  destruct (sn_existed sn && (sn_programID sn =? tb_ProgramID d)) eqn:E.
  { apply andb_prop in E as [E1 E2%Z.eqb_eq]. rewrite E1, E2 in Hat. cbn. split; [by eapply step_same|].
    rewrite Hw1. by eexists. }
  assert (sn_existed sn && negb (binding_matches (ob_active ob) (sn_programID sn)) = false /\
    (sn_existed sn = false -> tl_filters w !! ob_id ob = None /\ ob_active ob = None)) as [Hr Ha].
  { destruct (sn_existed sn); rewrite Hat in *; [|done]. split; [|done].
    destruct Hstate as (id & c & Heq & Hor). injection Heq as Hid _. cbn in E. apply Z.eqb_neq in E.
    destruct Hor as [?|Hor]; [congruence|]. rewrite Hid. cbn. by rewrite Hor. }
  rewrite Hr. apply swp_bind. eapply (swp_mono _ (fun _ w' => step_to (ob_id ob) (tl_filters w) w' /\
    tl_filters w' !! ob_id ob = Some (managed (ob_link ob) (ob_slot ob) (tb_ProgramID d) 0)) _ (fun _ => False)); [|clear Hstate|done].
  - rewrite <- Hw1, <- Hfd. destruct (sn_existed sn).
    + apply swp_wrap, install_total; [apply replace_installs| |done].
      destruct (tr_replace (managedBpfFilter (ob_link ob) (ob_slot ob) fd) w1) as (w2 & Hw2 & Hat2). by exists w2.
    + destruct (Ha eq_refl) as [Hnone ->]. cbn. apply swp_wrap, install_total; [apply add_installs| |done].
      destruct (tr_add (managedBpfFilter (ob_link ob) (ob_slot ob) fd) w1) as (w2 & Hw2 & Hat2); [by rewrite Hw1|]. by exists w2.
  - intros ? w2 [Hst2 Hat2]. eapply swp_mono; [apply (converge_total ob _ 0 w2 (proj1 Hst2))| |done].
    + eapply clean_step; [exact Hc|exact Hs|exact (proj2 Hst2)|]. intros f Hf. exists (tb_ProgramID d), 0.
      unfold ob_id in Hat2. rewrite Hat2 in Hf. by injection Hf as <-.
    + done.
    + exact Hat2.
    + intros ? w3 Hw3. split; [by eapply step_same|]. rewrite Hw3. by eexists.
Qed.

Lemma roll_stale_total programs ob a w : wf_filters (tl_filters w) -> clean (tl_filters w) (ob_link ob) ->
  ob_slot ob ∈ canonicalTCFilterSlots -> ob_active ob = Some a -> staged_ok programs a ->
  match tl_filters w !! ob_id ob with
  | Some f => exists c, f = managed (ob_link ob) (ob_slot ob) (tb_ProgramID a) c
  | None => True
  end ->
  swp (roll_stale programs ob)
    (fun _ w' => step_to (ob_id ob) (tl_filters w) w' /\ tl_filters w' !! ob_id ob = None) (fun _ => False) w.
Proof.
  intros Hw Hc Hs Ha Hst Hstate. pose proof (step_refl (ob_id ob) w Hw) as Hrefl. unfold roll_stale. rewrite Ha.
  apply swp_bind. eapply swp_mono; [exact (read_slot ob w Hw Hc Hs)| |done]. intros sn w1 [Hw1 Hat].
  destruct (sn_existed sn) eqn:Ee; cbn [negb].
  2:{ cbn. split; [by eapply step_same|]. by rewrite Hw1. }
  assert (sn_programID sn = tb_ProgramID a) as Hid.
  { rewrite Hat in Hstate. destruct Hstate as [c Heq]. by injection Heq. }
  rewrite Hid, Z.eqb_refl. cbn [negb]. apply swp_bind. eapply swp_mono; [exact (staged_total _ _ w1 Hst)| |done].
  intros fd ? [-> _]. assert (wf_filters (tl_filters w1)) as Hwf1 by by rewrite Hw1.
  unfold delete_owned. apply swp_bind, swp_wrap. set (rq := with_id _ _).
  pose proof (delete_filter_wp rq _ w1 (step_refl _ w1 Hwf1)) as Hd. rewrite Hw1 in Hd.
  destruct (tr_delete rq w1) as [w2 Hw2].
  { rewrite Hw1. change (tl_filters w !! ob_id ob <> None). by rewrite Hat. }
  unfold swp in Hd |- * at 1. unfold delete_filter in *. rewrite Hw2 in *. destruct Hd as [Hst2 Hat2].
  change (attrs_id (rq_attrs rq)) with (ob_id ob) in Hst2, Hat2.
  apply swp_bind. eapply swp_mono; [apply (read_slot ob w2 (proj1 Hst2))| |done].
  - eapply clean_step; [exact Hc|exact Hs|exact (proj2 Hst2)|]. intros f Hf. unfold ob_id in Hat2. by rewrite Hat2 in Hf.
  - done.
  - intros after w3 [Hw3 Hat3]. apply swp_reject; [intros _|].
    + cbn. rewrite Hw3. split; [by eapply step_same|exact Hat2].
    + intros Hex. rewrite Hex in Hat3. by rewrite Hat2 in Hat3.
Qed.

Lemma roll_total programs m0 A D key ob w : wf_filters (tl_filters w) -> observes m0 A D key ob ->
  clean (tl_filters w) (ob_link ob) -> torn ownerTCApplyTransition m0 A D -> tl_filters w !! ob_id ob = m0 !! ob_id ob ->
  (forall b, A !! key = Some b \/ D !! key = Some b -> staged_ok programs b) ->
  swp (roll_slot programs ob)
    (fun _ w' => step_to (ob_id ob) (tl_filters w) w' /\ slot_done (tl_filters w') D key ob /\
       forall j, clean (tl_filters w) j -> clean (tl_filters w') j)
    (fun _ => False) w.
Proof.
  intros Hw [K1 K2 K3 (b & Hb & Hl & Hs) K5 K6] Hc Ht Heq Hst. specialize (Ht key b (ob_slot ob) Hb Hs).
  destruct (owner_slot_spec _ _ Hs) as [Hcan _]. rewrite <- Hl in Ht. fold (ob_id ob) in Ht. rewrite <- Heq in Ht.
  unfold roll_slot, slot_done. rewrite K3. destruct (D !! key) as [d|] eqn:HD.
  - destruct (Hst d ltac:(by right)) as [Hdp _].
    eapply swp_mono; [apply (roll_desired_total programs ob d w Hw Hc Hcan (Hst d ltac:(by right)))| |done].
    + rewrite K2. destruct (tl_filters w !! ob_id ob) as [f|]; [|by destruct (Ht eq_refl)].
      destruct Ht as (id & c & -> & Hor). exists id, c. split; [done|]. apply orb_prop in Hor as [?|Hd]; [by right|left].
      cbn in Hd. by apply Z.eqb_eq in Hd.
    + intros ? w' [Hs' [c Hat]]. split_and!; [done|by eexists|]. intros j Hj.
      eapply clean_step; [exact Hj|exact Hcan|exact (proj2 Hs')|]. intros f Hf. exists (tb_ProgramID d), c.
      unfold ob_id in Hat. rewrite Hat in Hf. by injection Hf as <-.
  - destruct Hb as [Ha|?]; [|done].
    eapply swp_mono; [apply (roll_stale_total programs ob b w Hw Hc Hcan); [by rewrite K2|apply Hst; by left|]| |done].
    + rewrite Ha in Ht. destruct (tl_filters w !! ob_id ob) as [f|]; [|done].
      destruct Ht as (id & c & -> & Hor). exists c. rewrite orb_false_r in Hor. cbn in Hor. by apply Z.eqb_eq in Hor as ->.
    + intros ? w' [Hs' Hat]. split_and!; [done|done|]. intros j Hj.
      eapply clean_step; [exact Hj|exact Hcan|exact (proj2 Hs')|]. intros f Hf. unfold ob_id in Hat. by rewrite Hat in Hf.
Qed.
End slots_total.

(** ** The whole recovery *)

Lemma transition_keys_NoDup A D : NoDup (transition_keys A D).
Proof.
  unfold transition_keys. rewrite merge_sort_Permutation. apply NoDup_app. split_and!.
  - apply NoDup_fst_map_to_list.
  - intros key ([k a] & -> & Ha%elem_of_map_to_list)%list_elem_of_fmap [Hn _]%list_elem_of_filter. cbn in *. congruence.
  - apply NoDup_filter, NoDup_fst_map_to_list.
Qed.

Lemma map_keys_NoDup l M : ownerBindingMap l = inl M -> NoDup (map ownerFilterKey l).
Proof.
  unfold ownerBindingMap. generalize (∅ : gmap string tcFilterBinding). revert M.
  induction l as [|b l IH]; intros M out; cbn [owner_bindings map]; [constructor|].
  destruct (_ || _); [done|]. destruct (ownerFilterSlot b); [|done]. destruct (out !! ownerFilterKey b); [done|].
  intros Hm. constructor; [|by eapply IH]. intros (b' & Heq & Hb')%list_elem_of_fmap.
  destruct (owner_bindings_spec _ _ _ Hm) as (_ & H2 & _). specialize (H2 _ Hb').
  by rewrite Heq, lookup_insert_eq in H2.
Qed.
Lemma owner_bindings_total l : forall out, Forall binding_ok l -> NoDup (map ownerFilterKey l) ->
  (forall b, b ∈ l -> out !! ownerFilterKey b = None) -> exists M, owner_bindings out l = inl M.
Proof.
  induction l as [|b l IH]; intros out Hok Hn Ho; cbn [owner_bindings]; [by eexists|].
  inversion Hok as [|? ? (P1 & P2 & slot & P3) Hl]; subst. cbn [map] in Hn. inversion Hn as [|? ? Hb Hn']; subst.
  destruct ((tb_IfIndex b <=? 0) || (tb_ProgramID b =? 0)) eqn:E.
  { apply orb_prop in E as [?%Z.leb_le|?%Z.eqb_eq]; [lia|done]. }
  rewrite P3, (Ho b) by (by left). apply IH; [done|done|]. intros b' Hb'. rewrite lookup_insert_ne.
  - apply Ho. by right.
  - intros Heq. apply Hb. rewrite Heq. by apply list_elem_of_fmap_2.
Qed.

(** The journal for the final check: everything it ever named. *)
Lemma retain_spec active desired A D : ownerBindingMap active = inl A -> ownerBindingMap desired = inl D ->
  exists C, ownerBindingMap (retainStaleOwnerFilters desired active) = inl C /\
    (forall key b, C !! key = Some b -> A !! key = Some b \/ D !! key = Some b) /\
    (forall key b, A !! key = Some b -> D !! key = None -> C !! key = Some b).
Proof.
  intros HA HD. destruct (binding_map_spec _ _ HA) as [FA SA], (binding_map_spec _ _ HD) as [FD SD].
  pose proof (map_keys_NoDup _ _ HA) as NA. pose proof (map_keys_NoDup _ _ HD) as ND.
  assert (forall b b', binding_ok b -> binding_ok b' -> binding_key b = binding_key b' <-> ownerFilterKey b = ownerFilterKey b') as Hkk.
  { intros b b' (P1 & _) (P2 & _). split.
    - intros [Hi Hd]%slot_key_inj. unfold ownerFilterKey. by rewrite Hi, Hd.
    - intros Hk. destruct (owner_key_inj b b' P1 P2 Hk) as [Hi Hd]. unfold binding_key. by rewrite Hi, Hd. }
  unfold retainStaleOwnerFilters, sortTCFilterBindings. set (l := desired ++ _).
  pose proof (merge_sort_Permutation binding_le l) as Hp.
  assert (forall b, b ∈ l <-> b ∈ desired \/ b ∈ active /\ binding_key b ∉ map binding_key desired) as Hl.
  { intros b. unfold l. rewrite elem_of_app, list_elem_of_filter. tauto. }
  rewrite Forall_forall in FA. rewrite Forall_forall in FD.
  destruct (owner_bindings_total (merge_sort binding_le l) ∅) as [C HC].
  - apply Forall_forall. intros b. rewrite Hp, Hl. intros [Hb|[Hb _]]; auto.
  - rewrite Hp. unfold l. rewrite map_app. apply NoDup_app. split_and!; [done| |].
    + intros key (d & -> & Hd)%list_elem_of_fmap (a & Heq & [Hna Ha]%list_elem_of_filter)%list_elem_of_fmap.
      apply Hna. apply list_elem_of_fmap. exists d. split; [|done]. apply Hkk; auto.
    + clear -NA. induction active as [|a active IH]; [constructor|]. cbn [map] in NA. inversion NA as [|? ? Ha Hn]; subst.
      rewrite filter_cons. case_decide; [|by apply IH]. cbn [map]. constructor; [|by apply IH].
      intros (a' & Heq & [_ Ha']%list_elem_of_filter)%list_elem_of_fmap. apply Ha. rewrite Heq. by apply list_elem_of_fmap_2.
  - intros b _. apply lookup_empty.
  - exists C. split; [exact HC|]. destruct (binding_map_spec _ _ HC) as [_ SC]. split.
    + intros key b [Hb ->]%SC. rewrite Hp, Hl in Hb. rewrite SA, SD. tauto.
    + intros key b [Hb ->]%SA HDn. apply SC. split; [|done]. rewrite Hp, Hl. right. split; [done|].
      intros (d & Heq & Hd)%list_elem_of_fmap. apply Hkk in Heq; [|by auto..].
      assert (D !! ownerFilterKey b = Some d) by (by apply SD). congruence.
Qed.

Lemma observed_ids_NoDup m active desired A D obs : ownerBindingMap active = inl A -> ownerBindingMap desired = inl D ->
  Forall2 (observes m A D) (transition_keys A D) obs -> NoDup (map ob_id obs).
Proof.
  intros HA HD Ho. apply (NoDup_map_coarser ob_key).
  - assert (map ob_key obs = transition_keys A D) as ->; [|apply transition_keys_NoDup].
    induction Ho as [|key ob ? ? [K1 _ _ _ _ _] _ IH]; [done|]. cbn. by rewrite K1, IH.
  - assert (forall ob, ob ∈ obs -> exists b, ob_key ob = ownerFilterKey b /\ ob_link ob = tb_IfIndex b /\ ownerFilterSlot b = inl (ob_slot ob)) as Href.
    { intros ob [n Hn]%list_elem_of_lookup. destruct (Forall2_lookup_r _ _ _ _ _ Ho Hn) as (key & _ & [K1 _ _ (b & Hb & Hl & Hs) _ _]).
      exists b. split_and!; [|done|done]. rewrite K1.
      destruct Hb as [Hb|Hb]; [by apply (binding_map_spec _ _ HA) in Hb as [_ ->]|by apply (binding_map_spec _ _ HD) in Hb as [_ ->]]. }
    intros o1 o2 H1 H2 Heq. destruct (Href o1 H1) as (b1 & -> & L1 & S1), (Href o2 H2) as (b2 & -> & L2 & S2).
    unfold ob_id in Heq. rewrite L1, L2 in Heq. by eapply slot_determines_key.
Qed.

(** The journal has come to its end. *)
Definition recovered (active desired : list tcFilterBinding) (m : filters) : Prop :=
  (forall d slot, d ∈ desired -> ownerFilterSlot d = inl slot ->
     exists c, m !! slot_id (tb_IfIndex d) slot = Some (managed (tb_IfIndex d) slot (tb_ProgramID d) c)) /\
  (forall a slot, a ∈ active -> ownerFilterSlot a = inl slot ->
     (forall d, d ∈ desired -> tb_IfIndex d = tb_IfIndex a -> tb_Direction d <> tb_Direction a) ->
     m !! slot_id (tb_IfIndex a) slot = None).
Definition journal_slot (active desired : list tcFilterBinding) (k : filter_id) : Prop :=
  exists b slot, (b ∈ active \/ b ∈ desired) /\ ownerFilterSlot b = inl slot /\ k = slot_id (tb_IfIndex b) slot.
(** A crash of the transaction left this, and its programs are staged. *)
Definition recoverable {W} `{TcReliable W} (active desired : list tcFilterBinding) (programs : gmap Z Z) (m : filters) : Prop :=
  exists A D, ownerBindingMap active = inl A /\ ownerBindingMap desired = inl D /\
    torn ownerTCApplyTransition m A D /\ journal_clean m A D /\
    forall b, b ∈ active \/ b ∈ desired -> staged_ok (W := W) programs b.

Lemma exact_recovered active desired A D C m : ownerBindingMap active = inl A -> ownerBindingMap desired = inl D ->
  (forall key b, A !! key = Some b -> D !! key = None -> C !! key = Some b) -> exact m D C -> recovered active desired m.
Proof.
  intros HA HD HC Hex. destruct (binding_map_spec _ _ HA) as [FA SA], (binding_map_spec _ _ HD) as [FD SD].
  rewrite Forall_forall in FA. rewrite Forall_forall in FD. split.
  - intros d slot Hd Hs. assert (D !! ownerFilterKey d = Some d) as Hk by (by apply SD).
    specialize (Hex _ d slot (or_intror Hk) Hs). by rewrite Hk in Hex.
  - intros a slot Ha Hs Hno. assert (A !! ownerFilterKey a = Some a) as Hk by (by apply SA).
    assert (D !! ownerFilterKey a = None) as Hn.
    { destruct (D !! ownerFilterKey a) as [d|] eqn:E; [|done]. exfalso. apply SD in E as [Hd Heq].
      destruct (owner_key_inj d a) as [Hi Hdir]; [apply (FD d Hd)|apply (FA a Ha)|done|]. by apply (Hno d Hd). }
    specialize (Hex _ a slot (or_introl (HC _ _ Hk Hn)) Hs). by rewrite Hn in Hex.
Qed.

Section loop.
Context {W : Type} `{TcReliable W}.
Implicit Types w : W.

Lemma add_clsacts_total l : forall added w, swp (add_clsacts added l) (fun _ w' => tl_filters w' = tl_filters w) (fun _ => False) w.
Proof.
  induction l as [|ob l IH]; intros added w; [done|]. cbn [add_clsacts]. destruct (_ || _); [apply IH|].
  apply swp_bind. eapply swp_mono; [exact (clsact_total (ob_link ob) w)| |done]. intros present w1 [Hw1 _].
  apply swp_bind. eapply (swp_mono _ (fun _ w' => tl_filters w' = tl_filters w) _ (fun _ => False)); [|intros ? w2 Hw2|done].
  - destruct present; [done|]. destruct (tr_qdiscAdd (ob_link ob) w1) as (w2 & Hq & Hc).
    pose proof (tl_qdiscAdd (canonicalClsact (ob_link ob)) w1) as Ht. rewrite Hq in Ht. cbn in Ht.
    apply swp_bind, swp_wrap. unfold swp at 1, scall. rewrite Hq. apply swp_bind.
    eapply swp_mono; [exact (clsact_total (ob_link ob) w2)| |done]. intros p w3 [Hw3 ->]. rewrite Hc. cbn. congruence.
  - eapply swp_mono; [apply IH| |done]. intros ? w3 Hw3. congruence.
Qed.

Lemma roll_all_total programs m0 active desired A D obs w : ownerBindingMap active = inl A -> ownerBindingMap desired = inl D ->
  tl_filters w = m0 -> wf_filters m0 -> torn ownerTCApplyTransition m0 A D -> journal_clean m0 A D ->
  (forall b, b ∈ active \/ b ∈ desired -> staged_ok (W := W) programs b) ->
  Forall2 (observes m0 A D) (transition_keys A D) obs ->
  swp (siter (roll_slot programs) obs)
    (fun _ w' => wf_filters (tl_filters w') /\ (forall j, clean m0 j -> clean (tl_filters w') j) /\
       forall ob, ob ∈ obs -> slot_done (tl_filters w') D (ob_key ob) ob) (fun _ => False) w.
Proof.
  intros HA HD Hw Hwf Ht Hc Hst Ho. pose proof (observed_ids_NoDup _ _ _ _ _ _ HA HD Ho) as Hnd.
  assert (forall ob, ob ∈ obs -> observes m0 A D (ob_key ob) ob) as Hobs.
  { intros ob [n Hn]%list_elem_of_lookup. destruct (Forall2_lookup_r _ _ _ _ _ Ho Hn) as (key & _ & Hk).
    by rewrite (obs_key _ _ _ _ _ Hk). }
  assert (forall key b, A !! key = Some b \/ D !! key = Some b -> staged_ok (W := W) programs b) as Hst'.
  { intros key b [Hb|Hb]; apply Hst; [left; by apply (binding_map_spec _ _ HA) in Hb as [? _]
      |right; by apply (binding_map_spec _ _ HD) in Hb as [? _]]. }
  eapply swp_mono; [refine (siter_wp (roll_slot programs) obs
    (fun before v => wf_filters (tl_filters v) /\ (forall j, clean m0 j -> clean (tl_filters v) j) /\
       (forall ob, ob ∈ before -> slot_done (tl_filters v) D (ob_key ob) ob) /\
       forall k, k ∉ map ob_id before -> tl_filters v !! k = m0 !! k) (fun _ => False) _ w _)| |done].
  - intros before ob after v Hl (I1 & I2 & I3 & I4).
    assert (ob ∈ obs) as Hin by (rewrite Hl; apply elem_of_app; right; by left).
    assert (ob_id ob ∉ map ob_id before) as Hni.
    { rewrite Hl, map_app in Hnd. apply NoDup_app in Hnd as (_ & Hdis & _). intros Hk. apply (Hdis _ Hk). by left. }
    pose proof (Hobs ob Hin) as Hob. destruct (obs_ref _ _ _ _ _ Hob) as (b & Hb & Hlk & _).
    eapply swp_mono; [refine (roll_total programs m0 A D _ ob v I1 Hob _ Ht (I4 _ Hni) (fun b => Hst' _ b))| |done].
    { apply I2. rewrite Hlk. by apply (Hc _ _ Hb). }
    intros ? v' ([J1 J2] & J3 & J4). split_and!; [done|auto| |].
    + intros ob' [Hob'| ->%list_elem_of_singleton]%elem_of_app; [|done]. specialize (I3 _ Hob').
      unfold slot_done in *. rewrite J2; [done|]. intros Heq. apply Hni. rewrite <- Heq. by apply list_elem_of_fmap_2.
    + intros k Hk. rewrite map_app, not_elem_of_app in Hk. destruct Hk as [Hk1 Hk2]. rewrite J2; [by apply I4|].
      intros ->. apply Hk2. by left.
  - rewrite Hw. split_and!; [done|done|by intros ob ?%elem_of_nil|done].
  - intros ? v (I1 & I2 & I3 & _). done.
Qed.

Lemma recovery_total active desired programs w : wf_filters (tl_filters w) ->
  recoverable active desired programs (tl_filters w) ->
  exists w', rollForwardOwnerApplyFilters active desired programs w = (inl tt, w').
Proof.
  intros Hwf (A & D & HA & HD & Ht & Hc & Hst).
  assert (swp (rollForwardOwnerApplyFilters active desired programs) (fun _ _ => True) (fun _ => False) w) as Hs.
  { apply swp_bind, swp_bind. unfold swp at 1, spure. rewrite HA. apply swp_bind. unfold swp at 1, spure. rewrite HD.
    eapply swp_mono; [apply (observe_slots_total A D _ _ ∅ w Hwf Ht Hc)| |done].
    { intros key. by rewrite transition_keys_spec. }
    intros obs w1 [Hw1 Ho]. apply swp_bind. eapply swp_mono; [exact (add_clsacts_total obs [] w1)| |done].
    intros ? w2 Hw2. apply swp_bind. rewrite Hw1 in Hw2.
    eapply swp_mono; [exact (roll_all_total programs _ _ _ A D obs w2 HA HD Hw2 Hwf Ht Hc Hst Ho)| |done].
    intros ? w3 (Hwf3 & Hcl3 & Hdone). destruct (retain_spec _ _ _ _ HA HD) as (C & HC & HCin & HCst).
    eapply swp_mono; [apply (validate_total desired _ C D w3 HC HD Hwf3)|done|done].
    - intros key b Hb. assert (A !! key = Some b \/ D !! key = Some b) as Hb' by (destruct Hb; auto).
      destruct (Hc key b Hb') as [Hcl Hsl]. split; [by apply Hcl3|done].
    - intros key b slot Hb Hslot. assert (A !! key = Some b \/ D !! key = Some b) as Hb' by (destruct Hb; auto).
      destruct (observed_key _ A D obs key b Ho Hb') as (ob & Hin & Hob). specialize (Hdone ob Hin).
      destruct (observes_at _ _ _ _ _ _ _ _ _ HA HD Hob Hb' Hslot) as [Hl Hs']. unfold slot_done, ob_id in Hdone.
      rewrite (obs_key _ _ _ _ _ Hob), Hl, Hs' in Hdone. exact Hdone. }
  unfold swp in Hs. destruct (rollForwardOwnerApplyFilters active desired programs w) as [[[]|e] w']; [by exists w'|done].
Qed.
End loop.

Lemma observed_scope m active desired A D obs k : ownerBindingMap active = inl A -> ownerBindingMap desired = inl D ->
  Forall2 (observes m A D) (transition_keys A D) obs -> k ∈ map ob_id obs -> journal_slot active desired k.
Proof.
  intros HA HD Ho (ob & -> & [n Hn]%list_elem_of_lookup)%list_elem_of_fmap.
  destruct (Forall2_lookup_r _ _ _ _ _ Ho Hn) as (key & _ & [_ _ _ (b & Hb & Hl & Hs) _ _]).
  exists b, (ob_slot ob). split_and!; [|done|by unfold ob_id; rewrite Hl].
  destruct Hb as [Hb|Hb]; [left; by apply (binding_map_spec _ _ HA) in Hb as [? _]
    |right; by apply (binding_map_spec _ _ HD) in Hb as [? _]].
Qed.

Lemma recovery_partial {W} `{TcLaws W} active desired programs (w : W) : wf_filters (tl_filters w) ->
  let untouched (w' : W) := forall k, ~ journal_slot active desired k -> tl_filters w' !! k = tl_filters w !! k in
  swp (rollForwardOwnerApplyFilters active desired programs)
    (fun _ w' => untouched w' /\ recovered active desired (tl_filters w')) untouched w.
Proof.
  intros Hwf untouched. apply swp_bind.
  eapply swp_mono; [exact (inspect_transition_spec active desired _ w Hwf)| |].
  2:{ intros w' Hw k _. by rewrite Hw. }
  intros obs w1 (Hw1 & A & D & HA & HD & Ho). apply swp_bind.
  eapply swp_mono; [exact (quiet_swp _ w1 (quiet_add_clsacts obs []))| |].
  2:{ intros w' Hw k _. by rewrite Hw, Hw1. }
  intros ? w2 Hw2. assert (tl_filters w2 = tl_filters w) as Hw by congruence. apply swp_bind.
  assert (wf_filters (tl_filters w2)) as Hwf2 by by rewrite Hw.
  destruct (siter_local (roll_slot programs) ob_id obs (fun ob _ => local_roll programs ob) w2 Hwf2) as [Hwf3 Hout].
  assert (untouched (siter (roll_slot programs) obs w2).2) as Hun.
  { intros k Hk. rewrite Hout, Hw; [done|]. intros Hin. apply Hk. by eapply observed_scope. }
  unfold swp at 1. destruct (siter (roll_slot programs) obs w2) as [[[]|e] w3]; cbn [snd] in *; [|done].
  eapply swp_mono; [exact (validate_spec desired _ w3 Hwf3)| |].
  2:{ intros w' Hw' k Hk. rewrite Hw'. by apply Hun. }
  intros ? w4 (Hw4 & C & B & HC & HB & Hex). rewrite HD in HB. injection HB as <-.
  destruct (retain_spec _ _ _ _ HA HD) as (C' & HC' & _ & Hst). rewrite HC in HC'. injection HC' as <-.
  split; [intros k Hk; rewrite Hw4; by apply Hun|]. rewrite Hw4. by eapply exact_recovered.
Qed.

(** C30: recovering an interrupted attachment.  Whatever state and failures
    recovery meets on a kernel that obeys [TcLaws], it touches only the slots its
    journal names, and if it succeeds every desired filter is in its slot and
    every recorded filter that is not desired is gone.  On a kernel whose calls
    succeed, with the programs of the journal staged, it does succeed from every
    state a crash of the transaction can leave: each slot holding its old or its
    new program (and not empty if it had one and keeps one). *)
Theorem tc_recovery {W} `{TcLaws W} (active desired : list tcFilterBinding) (programs : gmap Z Z) (w : W) :
  wf_filters (tl_filters w) ->
  let '(r, w') := rollForwardOwnerApplyFilters active desired programs w in
  (forall k, ~ journal_slot active desired k -> tl_filters w' !! k = tl_filters w !! k) /\
  (r = inl tt -> recovered active desired (tl_filters w')) /\
  (forall (R : TcReliable W), recoverable active desired programs (tl_filters w) -> r = inl tt).
Proof.
  intros Hwf. destruct (rollForwardOwnerApplyFilters active desired programs w) as [r w'] eqn:E.
  pose proof (recovery_partial active desired programs w Hwf) as Hp. unfold swp in Hp. rewrite E in Hp. split_and!.
  - destruct r as [u|e]; [by destruct Hp|done].
  - intros ->. by destruct Hp.
  - intros R Hrec. destruct (recovery_total active desired programs w Hwf Hrec) as [w2 E2]. congruence.
Qed.

(** ** A crash and its recovery *)

#[export] Instance tc_kernel_reliable : TcReliable tc_kernel.
Proof.
  refine (Build_TcReliable _ _ _ u32 (fun k i => bool_decide (i ∈ tk_clsacts k)) _ _ _ _ _ _ _).
  - intros i k. by exists k.
  - intros i k. by exists k.
  - intros i k. eexists. split; [reflexivity|]. apply bool_decide_eq_true. cbn. by left.
  - intros i parent k. by eexists _, k.
  - intros rq k Hn. cbn in *. rewrite Hn. eexists. split; [reflexivity|]. cbn. by rewrite lookup_insert_eq.
  - intros rq k. cbn. eexists. split; [reflexivity|]. cbn. by rewrite lookup_insert_eq.
  - intros rq k Hn. cbn in *. destruct (tk_filters k !! _); [|done]. by eexists.
Defined.

(** The crash came after the ingress program of interface 2 was replaced. *)
Definition crash_active : list tcFilterBinding := [slot_binding 2 ingress_slot 71; slot_binding 3 ingress_slot 70].
Definition crash_desired : list tcFilterBinding := [slot_binding 2 ingress_slot 80; slot_binding 2 egress_slot 81].
Definition crash_programs : gmap Z Z := {[ 70 := 70; 71 := 71; 80 := 80; 81 := 81 ]}.
Definition crash_filters : filters :=
  <[slot_id 3 ingress_slot := managed 3 ingress_slot 70 0]>
    (<[slot_id 2 ingress_slot := managed 2 ingress_slot 80 0]> ∅).
Definition crash_kernel : tc_kernel := mkTcKernel crash_filters [2; 3] 0.

Lemma crash_wf : wf_filters (tl_filters crash_kernel).
Proof.
  change (wf_filters crash_filters). unfold crash_filters.
  apply wf_insert; [|done|intros b [= <-]; cbn; lia]. apply wf_insert; [|done|intros b [= <-]; cbn; lia].
  constructor; intros k f; by rewrite lookup_empty.
Qed.
Lemma crash_clean i : clean (tl_filters crash_kernel) i.
Proof.
  change (clean crash_filters i). apply (clean_step (<[slot_id 2 ingress_slot := managed 2 ingress_slot 80 0]> ∅) _ 3 ingress_slot).
  - apply (clean_step ∅ _ 2 ingress_slot).
    + intros k f slot Hk. by rewrite lookup_empty in Hk.
    + by left.
    + apply changed_insert.
    + rewrite lookup_insert_eq. intros f [= <-]. by exists 80, 0.
  - by left.
  - apply changed_insert.
  - unfold crash_filters. rewrite lookup_insert_eq. intros f [= <-]. by exists 70, 0.
Qed.
Definition crash_A : bindings := match ownerBindingMap crash_active with inl A => A | inr _ => ∅ end.
Definition crash_D : bindings := match ownerBindingMap crash_desired with inl D => D | inr _ => ∅ end.
Lemma crash_A_built : ownerBindingMap crash_active = inl crash_A.
Proof. vm_compute. reflexivity. Qed.
Lemma crash_D_built : ownerBindingMap crash_desired = inl crash_D.
Proof. vm_compute. reflexivity. Qed.
Lemma crash_cases b : b ∈ crash_active \/ b ∈ crash_desired ->
  b = slot_binding 2 ingress_slot 71 \/ b = slot_binding 3 ingress_slot 70 \/
  b = slot_binding 2 ingress_slot 80 \/ b = slot_binding 2 egress_slot 81.
Proof.
  unfold crash_active, crash_desired. rewrite !elem_of_cons, !elem_of_nil. tauto.
Qed.
Lemma crash_journal key b : crash_A !! key = Some b \/ crash_D !! key = Some b ->
  (b ∈ crash_active \/ b ∈ crash_desired) /\ key = ownerFilterKey b.
Proof.
  intros [[Hb ->]%(binding_map_spec _ _ crash_A_built)|[Hb ->]%(binding_map_spec _ _ crash_D_built)]; auto.
Qed.
Lemma crash_torn : torn ownerTCApplyTransition crash_filters crash_A crash_D.
Proof.
  intros key b slot Hb Hslot. destruct (crash_journal key b Hb) as [Hb' ->]. clear Hb.
  apply crash_cases in Hb' as [-> |[-> |[-> | ->]]]; vm_compute in Hslot; injection Hslot as <-; vm_compute.
  - exists 80, 0. split; reflexivity.
  - exists 70, 0. split; reflexivity.
  - exists 80, 0. split; reflexivity.
  - intros _. left. reflexivity.
Qed.
Lemma crash_staged b : b ∈ crash_active \/ b ∈ crash_desired -> staged_ok (W := tc_kernel) crash_programs b.
Proof.
  intros Hb. split; [by apply crash_cases in Hb as [-> |[-> |[-> | ->]]]|]. exists (tb_ProgramID b).
  apply crash_cases in Hb as [-> |[-> |[-> | ->]]]; (split; [vm_compute; reflexivity|]); (split; [cbn; lia|reflexivity]).
Qed.
Lemma crash_recoverable : recoverable (W := tc_kernel) crash_active crash_desired crash_programs (tl_filters crash_kernel).
Proof.
  exists crash_A, crash_D. split; [exact crash_A_built|]. split; [exact crash_D_built|]. split; [exact crash_torn|].
  split; [|exact crash_staged]. intros key b Hb. split; [apply crash_clean|].
  destruct (crash_journal key b Hb) as [Hb' _].
  apply crash_cases in Hb' as [-> |[-> |[-> | ->]]]; eexists; vm_compute; reflexivity.
Qed.

Lemma tc_recovery_witness : exists w', rollForwardOwnerApplyFilters crash_active crash_desired crash_programs crash_kernel = (inl tt, w') /\
  recovered crash_active crash_desired (tl_filters w').
Proof.
  pose proof (tc_recovery crash_active crash_desired crash_programs crash_kernel crash_wf) as Hr.
  destruct (rollForwardOwnerApplyFilters crash_active crash_desired crash_programs crash_kernel) as [r w'] eqn:E.
  destruct Hr as (_ & Hrec & Htot). pose proof (Htot tc_kernel_reliable crash_recoverable) as ->.
  exists w'. split; [reflexivity|]. exact (Hrec eq_refl).
Defined.
