(* ===== verification/OwnerDetach.v ===== *)
(** * Detaching the classic dataplane (internal/dataplane/pin_recovery_linux.go)

    A detach journals each of its steps in the owner record before it takes it:
    programs and maps are staged, the filters removed, the canonical pins unlinked
    and the stages cleaned up; recovery goes on from the step on record, or finishes
    a rollback.  The filters are those of TcRecovery, the pins those of PinMaps; the
    store of records, the program stages and the directory itself are the class
    [OwnerStore]. *)
From Stdlib Require Import ZArith Lia Ascii String.
From stdpp Require Import base option list gmap strings numbers sorting.
From S2P Require Import Prelude ErrorState Abi AbiSnapshot TcTransaction TcRecovery PinMaps.
#[local] Open Scope pin_scope.

(** ** Records *)

Inductive owner_phase := PhaseActive | PhaseApplying | PhaseDetaching.
Inductive owner_step := StepReady | StepStaging | StepMutatingTC | StepUnlinkingMaps | StepCleanupStages | StepOther (name : string).
#[export] Instance owner_phase_eq_dec : EqDecision owner_phase.
Proof. solve_decision. Defined.
#[export] Instance owner_step_eq_dec : EqDecision owner_step.
Proof. solve_decision. Defined.
(** The fields of a record that a classic detach reads or writes; [oj_Programs]:
    the program stages. *)
Record ownerJournal := mkJournal {
  oj_record : pinOwnerRecord; oj_Sequence : Z; oj_Phase : owner_phase; oj_Step : owner_step; oj_NextGeneration : Z;
  oj_ActiveFilters : list tcFilterBinding; oj_Programs : list string; oj_MountIDs : list Z; oj_ResourceKey : string
}.

Definition name_le {A} (f : A -> string) (x y : A) : Prop := String.leb (f x) (f y) = true.
#[export] Instance name_le_dec {A} (f : A -> string) (x y : A) : Decision (name_le f x y).
Proof. unfold name_le. apply _. Defined.
Definition sort_names {A} (f : A -> string) (l : list A) : list A := merge_sort (name_le f) l.
Definition with_maps (maps : list pinOwnerMapIdentity) (stages : list pinOwnerMapStage) (r : pinOwnerRecord) : pinOwnerRecord :=
  mkOwnerRecord (or_RecordVersion r) (or_Token r) (or_ActiveGeneration r) maps stages.
Definition normalizePinOwnerRecord (j : ownerJournal) : ownerJournal :=
  mkJournal (with_maps (sort_names om_Name (or_Maps (oj_record j))) (sort_names ms_Name (or_MapStages (oj_record j))) (oj_record j))
    (oj_Sequence j) (oj_Phase j) (oj_Step j) (oj_NextGeneration j) (sortTCFilterBindings (oj_ActiveFilters j)) (oj_Programs j)
    (merge_sort Z.le (oj_MountIDs j)) (oj_ResourceKey j).
Definition advancePinOwnerRecord (j : ownerJournal) (phase : owner_phase) (step : owner_step) : ownerJournal :=
  normalizePinOwnerRecord (mkJournal (oj_record j) (u64 (oj_Sequence j + 1)) phase step (oj_NextGeneration j) (oj_ActiveFilters j)
    (oj_Programs j) (oj_MountIDs j) (oj_ResourceKey j)).
Definition observeOwnerMount (j : ownerJournal) (mountID : Z) : ownerJournal :=
  if mountID =? 0 then j
  else normalizePinOwnerRecord (mkJournal (oj_record j) (oj_Sequence j) (oj_Phase j) (oj_Step j) (oj_NextGeneration j) (oj_ActiveFilters j)
    (oj_Programs j) (if bool_decide (mountID ∈ oj_MountIDs j) then oj_MountIDs j else oj_MountIDs j ++ [mountID]) (oj_ResourceKey j)).
(** [token]: the record's token in hexadecimal. *)
Definition pinOwnerMapStageName (resourceKey token name : string) : string :=
  "txn-" +:+ resourceKey +:+ "-" +:+ token +:+ "-map-" +:+ name.
Definition buildOwnerMapStages (resourceKey token : string) (maps : list pinOwnerMapIdentity) : list pinOwnerMapStage :=
  sort_names ms_Name (map (fun x => mkMapStage (om_Name x) (pinOwnerMapStageName resourceKey token (om_Name x)) (om_ID x)) maps).

(** The maps of a record are those of the descriptors, by name. *)
Fixpoint check_maps (seen : list Z) (maps : list pinOwnerMapIdentity) (want : list string) : option pin_error :=
  match maps, want with
  | x :: maps, n :: want =>
      if negb (String.eqb (om_Name x) n) then Some (refusal "pin owner map name differs")
      else if om_ID x =? 0 then Some (refusal "pin owner map has zero ID")
      else if bool_decide (om_ID x ∈ seen) then Some (refusal "pin owner maps share an ID")
      else check_maps (om_ID x :: seen) maps want
  | _, _ => None
  end.
Definition wantNames : list string := sort_names (fun n => n) (map md_name pinnedMapDescriptors).
Definition validateOwnerMaps (maps : list pinOwnerMapIdentity) : option pin_error :=
  if negb (Nat.eqb (length maps) (length pinnedMapDescriptors)) then Some (refusal "pin owner record has another number of maps")
  else check_maps [] maps wantNames.

Class OwnerStore (W : Type) := {
  (** The clock of the records. *)
  ow_now : W -> option pin_error * W;
  ow_Persist : ownerJournal -> ownerJournal -> W -> option pin_error * W;
  ow_Remove : ownerJournal -> W -> option pin_error * W;
  (** The checks of a record before and after that of its maps. *)
  ow_validateIdentity : ownerJournal -> option pin_error;
  ow_validateTransaction : ownerJournal -> option pin_error;
  (** The token of a record, in the form of its stage names. *)
  ow_token : pinOwnerRecord -> string + pin_error;
  ow_programStages : ownerJournal -> string -> list string;
  ow_stagePrograms : ownerJournal -> W -> option pin_error * W;
  ow_loadPrograms : ownerJournal -> W -> (gmap Z Z + pin_error) * W;
  ow_closePrograms : gmap Z Z -> W -> W;
  ow_removePrograms : ownerJournal -> W -> option pin_error * W;
  ow_recheckTarget : W -> option pin_error * W;
  ow_dirIsEmpty : W -> (bool + pin_error) * W;
  ow_removeDir : W -> option pin_error * W
}.

Section records.
Context {W : Type} {Ho : OwnerStore W}.
Definition validatePinOwnerRecord (j : ownerJournal) : option pin_error :=
  match ow_validateIdentity j with
  | Some e => Some e
  | None => match validateOwnerMaps (or_Maps (oj_record j)) with Some e => Some e | None => ow_validateTransaction j end
  end.
Definition newDetachingPinOwnerRecord (current : ownerJournal) : ownerJournal + pin_error :=
  if negb (bool_decide (oj_Phase current = PhaseActive)) || negb (bool_decide (oj_Step current = StepReady))
  then inr (refusal "detach requires an active owner record")
  else match ow_token (oj_record current) with
       | inr e => inr e
       | inl token =>
           let next := advancePinOwnerRecord current PhaseDetaching StepStaging in
           let next := normalizePinOwnerRecord (mkJournal
             (with_maps (or_Maps (oj_record next)) (buildOwnerMapStages (oj_ResourceKey next) token (or_Maps (oj_record next))) (oj_record next))
             (oj_Sequence next) (oj_Phase next) (oj_Step next) (oj_NextGeneration next) (oj_ActiveFilters next)
             (ow_programStages next token) (oj_MountIDs next) (oj_ResourceKey next)) in
           match validatePinOwnerRecord next with Some e => inr e | None => inl next end
       end.
Definition abortDetachingPinOwnerRecord (current : ownerJournal) : ownerJournal + pin_error :=
  if negb (bool_decide (oj_Phase current = PhaseDetaching)) || (or_ActiveGeneration (oj_record current) =? 0)
  then inr (refusal "only an owned detach can be rolled back to active")
  else
    let next := advancePinOwnerRecord current PhaseActive StepReady in
    let next := normalizePinOwnerRecord (mkJournal (with_maps (or_Maps (oj_record next)) [] (oj_record next))
      (oj_Sequence next) (oj_Phase next) (oj_Step next) 0 (oj_ActiveFilters next) [] (oj_MountIDs next) (oj_ResourceKey next)) in
    match validatePinOwnerRecord next with Some e => inr e | None => inl next end.
End records.

(** ** The canonical pins *)

Definition ownerMapsFromPins (pins : list pinnedMapPin) : list pinOwnerMapIdentity :=
  sort_names om_Name (omap (fun p => o ← mp_observation p; Some (mkMapIdentity (md_name (mp_descriptor p)) (ob_id o))) pins).
Fixpoint same_identities (l r : list pinOwnerMapIdentity) : bool :=
  match l, r with
  | [], [] => true
  | x :: l, y :: r => String.eqb (om_Name x) (om_Name y) && (om_ID x =? om_ID y) && same_identities l r
  | _, _ => false
  end.
Definition validateOwnerMapsAgainstPins (r : pinOwnerRecord) (pins : list pinnedMapPin) : option pin_error :=
  if negb (Nat.eqb (length (ownerMapsFromPins pins)) (length (or_Maps r))) then Some (refusal "owner record lists another number of maps")
  else if same_identities (ownerMapsFromPins pins) (or_Maps r) then None else Some (refusal "owner map identity mismatch").
Definition ownerMapPin (pins : list pinnedMapPin) : option pinnedMapPin := find (fun p => String.eqb (md_name (mp_descriptor p)) "owner_map") pins.

Section detach.
Context {W : Type} {Hk : PinKernel W} {Hr : TcRuntime W} {Ho : OwnerStore W}.

Definition outside_record (r : pinOwnerRecord) (p : pinnedMapPin) : bool :=
  match mp_observation p with
  | Some o => negb (existsb (fun x => String.eqb (om_Name x) (md_name (mp_descriptor p))) (or_Maps r)) ||
              negb (ob_id o =? record_id r (md_name (mp_descriptor p)))
  | None => true
  end.
Definition validateOwnerPins (r : pinOwnerRecord) (pins : list pinnedMapPin) (requireComplete : bool) : option pin_error :=
  match (if requireComplete then validateOwnerMapsAgainstPins r pins
         else if existsb (outside_record r) pins then Some (refusal "partial canonical pin is outside the owner record") else None) with
  | Some e => Some e
  | None =>
      match ownerMapPin pins with
      | None => if requireComplete then Some (refusal "canonical pinned-map set is missing owner_map") else None
      | Some p =>
          match mp_observation p with
          | Some o => validateOwnerSentinel (W := W) (ob_owner o) (ob_ownerSeen o) r
          | None => Some (refusal "canonical pinned-map set is missing owner_map")
          end
      end
  end.

Definition unsafe_pin (s : pin_stat) : bool :=
  negb (Z.land (st_Mode s) pin_S_IFMT =? pin_S_IFREG) || negb (Z.land (st_Mode s) 4095 =? 384) ||
  negb (st_Uid s =? pk_expectedUID) || negb (st_Nlink s =? 1).
(** The pins that exist, before their maps are opened. *)
Fixpoint find_pins (ds : list pinnedMapDescriptor) : PM W (list (pinnedMapDescriptor * pinPathInodeIdentity)) :=
  match ds with
  | [] => pret []
  | d :: ds =>
      pin! st := pwrap "inspect pinned map: " (stat_name (md_name d)) in
      match st with
      | None => find_pins ds
      | Some st =>
          refuse unsafe_pin st with "refuse unsafe pinned object" in
          pin! mountID := pwrap "inspect pinned map mount: " (pk_mountIDAt (md_name d)) in
          refuse negb (mountID =? pk_mountID) with "refuse pinned object on another mount" in
          pin! rest := find_pins ds in
          pret ((d, pinPathInodeFromStat st) :: rest)
      end
  end.
Fixpoint close_pins (pins : list pinnedMapPin) (w : W) : W :=
  match pins with
  | [] => w
  | p :: pins => close_pins pins (match mp_observation p with Some o => (pk_close o w).2 | None => w end)
  end.
(** [defer]: whatever the result. *)
Definition deferred {A} (close : W -> W) (m : PM W A) : PM W A := fun w => let '(res, w) := m w in (res, close w).
Definition on_error {A} (close : W -> W) (m : PM W A) : PM W A := fun w =>
  match m w with (inr e, w) => (inr e, close w) | res => res end.
Definition check_observation (d : pinnedMapDescriptor) (o : pinnedMapObservation) (committed zero : bool) (seen : list Z) : option pin_error :=
  match validatePinnedMapObservation d o committed with
  | Some e => Some e
  | None =>
      if zero && String.eqb (md_name d) "control_map" && negb (bool_decide (ob_control o = mkControlValue 0 0 0))
      then Some (refusal "freshly created control_map is already initialized; refusing rollback")
      else if bool_decide (ob_id o ∈ seen) then Some (refusal "pinned maps unexpectedly share a map ID") else None
  end.
(** [opened]: the pins opened so far, which a failure closes. *)
Fixpoint open_pins (committed zero : bool) (opened : list pinnedMapPin) (seen : list Z)
    (l : list (pinnedMapDescriptor * pinPathInodeIdentity)) : PM W (list pinnedMapPin) :=
  match l with
  | [] => pret opened
  | (d, i) :: l =>
      pin! o := on_error (close_pins opened) (pwrap "load pinned map: " (pk_loadPinnedMap (md_name d) (md_name d))) in
      do! on_error (close_pins (opened ++ [mkMapPin d i (Some o)])) (pcheck (check_observation d o committed zero seen)) in
      open_pins committed zero (opened ++ [mkMapPin d i (Some o)]) (ob_id o :: seen) l
  end.
Definition recheckPinnedMapEntry (p : pinnedMapPin) : PM W unit :=
  pin! st := pk_fstatat (md_name (mp_descriptor p)) in
  refuse unsafe_pin st || negb (samePinPathInode (pinPathInodeFromStat st) (mp_inode p)) with "pin changed" in
  pin! mountID := pk_mountIDAt (md_name (mp_descriptor p)) in
  refuse negb (mountID =? pk_mountID) with "mount ID changed" in
  pret tt.
Fixpoint recheck_pins (pins : list pinnedMapPin) : PM W unit :=
  match pins with [] => pret tt | p :: pins => do! recheckPinnedMapEntry p in recheck_pins pins end.
Definition inspectPinnedMapSetWithPolicy (requireComplete committed zero : bool) : PM W (list pinnedMapPin) :=
  do! pcall ow_recheckTarget in
  pin! found := find_pins pinnedMapDescriptors in
  if Nat.eqb (length found) 0 then pret []
  else
    refuse requireComplete && negb (Nat.eqb (length found) (length pinnedMapDescriptors)) with "found an incomplete pinned-map set" in
    pin! pins := open_pins committed zero [] [] found in
    do! on_error (close_pins pins) (do! recheck_pins pins in pcall ow_recheckTarget) in
    pret pins.

(** ** The transaction *)

Definition of_tc {A} (m : SM W A) : PM W A := fun w =>
  let '(res, w) := m w in (match res with inl a => inl a | inr e => inr (refusal e) end, w).
Definition journal (j : ownerJournal) (step : owner_step) : ownerJournal := observeOwnerMount (advancePinOwnerRecord j PhaseDetaching step) pk_mountID.
Definition close_loaded (stages : loadedOwnerMapStages) (w : W) : W := (close_stages stages w).2.

(** Both restores are tried. *)
Definition restore_active (j : ownerJournal) (programs : gmap Z Z) (stages : loadedOwnerMapStages) : PM W unit := fun w =>
  let '(e1, w) := restoreCanonicalOwnerMaps (oj_record j) stages w in
  let '(r2, w) := of_tc (restoreOwnerActiveFilters (oj_ActiveFilters j) programs) w in
  (match e1, r2 with
   | None, inl _ => inl tt
   | Some e, inl _ => inr (wrap_pin "restore canonical owner maps: " e)
   | None, inr e => inr (wrap_pin "restore owner TC filters: " e)
   | Some e, inr e' => inr (join_pin (wrap_pin "restore canonical owner maps: " e) (Some (wrap_pin "restore owner TC filters: " e')))
   end, w).
(** The stages go, and the record is active again. *)
Definition finish_rollback (j : ownerJournal) : PM W ownerJournal :=
  do! pcall (ow_removePrograms j) in
  do! removeOwnerMapStages (oj_record j) in
  pin! active := (fun w => (abortDetachingPinOwnerRecord j, w)) in
  do! pcall (ow_Persist (observeOwnerMount active pk_mountID) j) in
  pret (observeOwnerMount active pk_mountID).
Definition rollbackOwnerDetachToActive (j : ownerJournal) (programs : gmap Z Z) (stages : loadedOwnerMapStages) : PM W unit :=
  do! restore_active j programs stages in
  do! pcall (ow_removePrograms j) in
  do! removeOwnerMapStages (oj_record j) in
  do! pcall ow_now in
  pin! active := (fun w => (abortDetachingPinOwnerRecord j, w)) in
  pcall (ow_Persist (observeOwnerMount active pk_mountID) j).

(** The step succeeds, or the detach is rolled back and fails. *)
Definition or_rollback (what : string) (j : ownerJournal) (programs : gmap Z Z) (stages : loadedOwnerMapStages) (m : PM W unit) : PM W unit := fun w =>
  match m w with
  | (inl _, w) => (inl tt, w)
  | (inr e, w) => let '(res, w) := rollbackOwnerDetachToActive j programs stages w in
                  (inr (join_pin e (match res with inr e' => Some (wrap_pin what e') | inl _ => None end)), w)
  end.

(** [None]: the directory is removed. *)
Definition recovery_result : Type := option ownerJournal.
(** Whether the detach was rolled back, which any failing check denies. *)
Definition detach_rolled_back (j : ownerJournal) (pins : list pinnedMapPin) : bool :=
  bool_decide (validateOwnerPins (oj_record j) pins true = None) &&
  bool_decide (validateOwnerControlGeneration pins (or_ActiveGeneration (oj_record j)) = None).
(** [None]: not rolled back. *)
Definition recoverRolledBackOwnerDetach (j : ownerJournal) : W -> option (recovery_result + pin_error) * W := fun w =>
  if (or_ActiveGeneration (oj_record j) =? 0) ||
     negb (bool_decide (oj_Step j = StepMutatingTC) || bool_decide (oj_Step j = StepUnlinkingMaps)) then (None, w)
  else match validateOwnerTCExact (oj_ActiveFilters j) (oj_ActiveFilters j) w with
       | (inr _, w) => (None, w)
       | (inl _, w) =>
           match inspectPinnedMapSetWithPolicy true true false w with
           | (inr _, w) => (None, w)
           | (inl pins, w) =>
               if detach_rolled_back j pins
               then let '(res, w) := finish_rollback j w in
                    (Some (match res with inl a => inl (Some a) | inr e => inr e end), close_pins pins w)
               else (None, close_pins pins w)
           end
       end.
(** A call of the recovery: the rolled-back case first. *)
Definition recover_by (k : ownerJournal -> PM W recovery_result) (j : ownerJournal) : PM W recovery_result := fun w =>
  match recoverRolledBackOwnerDetach j w with
  | (Some res, w) => (res, w)
  | (None, w) => k j w
  end.

Definition recover_cleanup (j : ownerJournal) : PM W recovery_result :=
  do! of_tc (validateOwnerTCExact [] (oj_ActiveFilters j)) in
  do! pcall (ow_removePrograms j) in
  do! removeOwnerMapStages (oj_record j) in
  pin! empty := ow_dirIsEmpty in
  refuse negb empty with "owner detach left unexpected BPF pin entries" in
  do! pcall (ow_Remove j) in
  do! pcall ow_recheckTarget in
  do! pwrap "remove empty owned BPF pin path: " (pcall ow_removeDir) in
  pret None.
Definition recover_unlinking (j : ownerJournal) : PM W recovery_result :=
  do! of_tc (validateOwnerTCExact [] (oj_ActiveFilters j)) in
  pin! stages := loadOwnerMapStages (oj_record j) in
  deferred (close_loaded stages)
    (pin! partial := inspectPinnedMapSetWithPolicy false false false in
     deferred (close_pins partial)
       (do! pcheck (validateOwnerPins (oj_record j) partial false) in
        do! removeCanonicalOwnerMaps (oj_record j) stages in
        let cleanup := journal j StepCleanupStages in
        do! pcall (ow_Persist cleanup j) in
        recover_by recover_cleanup cleanup)).
Definition recover_mutating (j : ownerJournal) : PM W recovery_result :=
  pin! programs := ow_loadPrograms j in
  deferred (ow_closePrograms programs)
    (pin! stages := loadOwnerMapStages (oj_record j) in
     deferred (close_loaded stages)
       (do! of_tc (rollForwardOwnerDetachFilters (oj_ActiveFilters j) programs) in
        let unlinking := journal j StepUnlinkingMaps in
        do! pcall (ow_Persist unlinking j) in
        recover_by recover_unlinking unlinking)).
Definition recover_staging (j : ownerJournal) : PM W recovery_result :=
  let owned := negb (or_ActiveGeneration (oj_record j) =? 0) in
  pin! pins := inspectPinnedMapSetWithPolicy owned owned false in
  deferred (close_pins pins)
    (do! pcheck (validateOwnerPins (oj_record j) pins owned) in
     do! pcheck (validateOwnerControlGeneration pins (or_ActiveGeneration (oj_record j))) in
     do! of_tc (validateOwnerTCExact (oj_ActiveFilters j) (oj_ActiveFilters j)) in
     do! pcall (ow_stagePrograms j) in
     do! stageOwnerMaps (oj_record j) pins in
     let mutating := journal j StepMutatingTC in
     do! pcall (ow_Persist mutating j) in
     recover_by recover_mutating mutating).
Definition recoverDetachingPinOwnerTransaction : ownerJournal -> PM W recovery_result :=
  recover_by (fun j =>
    match oj_Step j with
    | StepStaging => recover_staging j
    | StepMutatingTC => recover_mutating j
    | StepUnlinkingMaps => recover_unlinking j
    | StepCleanupStages => recover_cleanup j
    | _ => pfail (refusal "cannot recover detaching step")
    end).

Definition executeOwnerDetachTransaction (active : ownerJournal) : PM W unit :=
  do! pcall ow_now in
  pin! detaching := (fun w => (newDetachingPinOwnerRecord active, w)) in
  let detaching := observeOwnerMount detaching pk_mountID in
  do! pcall (ow_Persist detaching active) in
  pin! pins := inspectPinnedMapSetWithPolicy true true false in
  deferred (close_pins pins)
    (do! pcheck (validateOwnerPins (oj_record detaching) pins true) in
     do! pcall (ow_stagePrograms detaching) in
     do! stageOwnerMaps (oj_record detaching) pins in
     let mutating := journal detaching StepMutatingTC in
     do! pcall (ow_Persist mutating detaching) in
     pin! programs := ow_loadPrograms mutating in
     deferred (ow_closePrograms programs)
       (pin! stages := loadOwnerMapStages (oj_record mutating) in
        deferred (close_loaded stages)
          (do! or_rollback "rollback failed owner detach: " mutating programs stages (of_tc (rollForwardOwnerDetachFilters (oj_ActiveFilters mutating) programs)) in
           let unlinking := journal mutating StepUnlinkingMaps in
           do! pcall (ow_Persist unlinking mutating) in
           do! or_rollback "rollback failed owner map unlink: " unlinking programs stages (removeCanonicalOwnerMaps (oj_record unlinking) stages) in
           let cleanup := journal unlinking StepCleanupStages in
           do! pcall (ow_Persist cleanup unlinking) in
           do! recoverDetachingPinOwnerTransaction cleanup in
           pret tt))).
End detach.
