(* ===== verification/OwnerDetachProps.v ===== *)
(** * The detach journal tells the truth

    What the record on disk says of the pins is so whenever a detach, its rollback or
    its recovery stops, whichever of their calls fail; a crash is a run in which every
    call fails from some point on.  The three stores involved do not disturb each
    other: [TcQuiet] and [PinQuiet] say that the calls of one leave the view of
    another alone. *)
From Stdlib Require Import ZArith Lia Ascii String.
From stdpp Require Import base option list gmap strings numbers sorting.
From S2P Require Import Prelude ErrorState Abi AbiSnapshot TcTransaction TcTransactionProps TcRecovery PinMaps PinMapsProps OwnerDetach.
#[local] Open Scope pin_scope.

(** ** Calls that leave a view alone *)

Definition holds {W T X} (jr : W -> T) (m : W -> X * W) : Prop := forall w, jr (m w).2 = jr w.

Class TcQuiet {W T} {Hr : TcRuntime W} (jr : W -> T) := {
  tq_linkByIndex i : holds jr (tc_linkByIndex i);
  tq_qdiscList i : holds jr (tc_qdiscList i);
  tq_qdiscAdd q : holds jr (tc_qdiscAdd q);
  tq_filterList l p : holds jr (tc_filterList l p);
  tq_filterAdd f : holds jr (tc_filterAdd f);
  tq_filterDelete f : holds jr (tc_filterDelete f)
}.
(** The calls that only read. *)
Class PinReads {W T} {Hk : PinKernel W} (jr : W -> T) := {
  pq_fstatat n : holds jr (pk_fstatat n);
  pq_mountIDAt n : holds jr (pk_mountIDAt n);
  pq_load n k : holds jr (pk_loadPinnedMap n k);
  pq_close o : holds jr (pk_close o)
}.
Class PinQuiet {W T} {Hk : PinKernel W} (jr : W -> T) := {
  pq_reads :: PinReads jr;
  pq_pin o n : holds jr (pk_pin o n);
  pq_rename a b : holds jr (pk_renameNoReplace a b);
  pq_unlink n : holds jr (pk_unlink n);
  pq_readDir : holds jr pk_readDir;
  pq_quarantine n : holds jr (pk_beforePinQuarantine n);
  pq_before_unlink n : holds jr (pk_beforePinUnlink n)
}.

Section holds.
Context {W T : Type} (jr : W -> T).
Lemma holds_pure {X} (x : X) : holds jr (fun w => (x, w)).
Proof. done. Qed.
Lemma holds_sret {A} (a : A) : holds jr (sret a).
Proof. done. Qed.
Lemma holds_sfail {A} e : holds jr (sfail (A := A) e).
Proof. done. Qed.
Lemma holds_sbind {A B} (m : SM W A) (k : A -> SM W B) : holds jr m -> (forall a, holds jr (k a)) -> holds jr (sbind m k).
Proof. intros Hm HK w. unfold sbind. specialize (Hm w). destruct (m w) as [[a|e] w']; cbn in Hm; [|done]. by rewrite HK. Qed.
Lemma holds_swrap {A} p (m : SM W A) : holds jr m -> holds jr (swrap p m).
Proof. intros Hm w. unfold swrap. specialize (Hm w). by destruct (m w) as [[a|e] w']. Qed.
Lemma holds_scall (f : W -> option error * W) : holds jr f -> holds jr (scall f).
Proof. intros Hf w. unfold scall. specialize (Hf w). by destruct (f w) as [[e|] w']. Qed.
Lemma holds_if {X} (b : bool) (m m' : W -> X * W) : holds jr m -> holds jr m' -> holds jr (if b then m else m').
Proof. by destruct b. Qed.
Lemma holds_siter {A} (f : A -> SM W unit) l : (forall a, holds jr (f a)) -> holds jr (siter f l).
Proof. intros Hf. induction l as [|a l IH]; cbn; [done|]. by apply holds_sbind. Qed.
Lemma holds_pret {A} (a : A) : holds jr (pret a).
Proof. done. Qed.
Lemma holds_pfail {A} e : holds jr (pfail (A := A) e).
Proof. done. Qed.
Lemma holds_pcheck e : holds jr (pcheck e).
Proof. done. Qed.
Lemma holds_pbind {A B} (m : PM W A) (k : A -> PM W B) : holds jr m -> (forall a, holds jr (k a)) -> holds jr (pbind m k).
Proof. intros Hm HK w. unfold pbind. specialize (Hm w). destruct (m w) as [[a|e] w']; cbn in Hm; [|done]. by rewrite HK. Qed.
Lemma holds_pcall f : holds jr f -> holds jr (pcall f).
Proof. intros Hf w. unfold pcall. specialize (Hf w). by destruct (f w) as [[e|] w']. Qed.
Lemma holds_pwrap {A} p (m : PM W A) : holds jr m -> holds jr (pwrap p m).
Proof. intros Hm w. unfold pwrap. specialize (Hm w). by destruct (m w) as [r w']. Qed.
Lemma holds_pfor {A} (l : list A) f : (forall a, holds jr (f a)) -> holds jr (pfor l f).
Proof. intros Hf. induction l as [|a l IH]; cbn; [done|]. by apply holds_pbind. Qed.
Lemma holds_of_tc {A} (m : SM W A) : holds jr m -> holds jr (of_tc m).
Proof. intros Hm w. unfold of_tc. specialize (Hm w). by destruct (m w) as [r w']. Qed.
End holds.
Create HintDb holding.
#[export] Hint Resolve holds_pure holds_sret holds_sfail holds_sbind holds_swrap holds_scall holds_if holds_siter holds_pret holds_pfail
  holds_pcheck holds_pbind holds_pcall holds_pwrap holds_pfor holds_of_tc
  tq_linkByIndex tq_qdiscList tq_qdiscAdd tq_filterList tq_filterAdd tq_filterDelete
  pq_reads pq_fstatat pq_mountIDAt pq_load pq_close pq_pin pq_rename pq_unlink pq_readDir pq_quarantine pq_before_unlink : holding.

Section tc.
Context {W T : Type} {Hr : TcRuntime W} (jr : W -> T) {Hq : TcQuiet jr}.
Lemma holds_inspect link slot : holds jr (inspectTCFilterSlot link slot false).
Proof.
  unfold inspectTCFilterSlot, spure. apply holds_sbind; [auto with holding|intros fs]. apply holds_sbind; [auto with holding|intros sc].
  apply holds_if; [auto with holding|]. rewrite andb_false_r. auto with holding.
Qed.
Lemma holds_clsact link : holds jr (inspectClsact link).
Proof. unfold inspectClsact, spure. auto 10 with holding. Qed.
Lemma holds_find_link i : holds jr (find_link i).
Proof. unfold find_link. apply holds_sbind; [auto with holding|intros [x|]]; auto with holding. Qed.
Lemma holds_observe_link links i : holds jr (observe_link links i).
Proof. unfold observe_link. destruct (links !! i); auto 10 using holds_find_link, holds_clsact with holding. Qed.
Lemma holds_observe_slots active desired tr links keys : holds jr (observe_slots active desired tr links keys).
Proof.
  revert links. induction keys as [|k keys IH]; intros links; cbn [observe_slots]; [auto with holding|]. unfold spure.
  destruct (active !! k) as [a|], (desired !! k) as [d|];
    auto 20 using holds_observe_link, holds_inspect with holding.
Qed.
Lemma holds_transition active desired tr : holds jr (inspectOwnerTCTransition active desired tr).
Proof. unfold inspectOwnerTCTransition, spure. auto 10 using holds_observe_slots with holding. Qed.
Lemma holds_exact bindings covered : holds jr (validateOwnerTCExact bindings covered).
Proof.
  unfold validateOwnerTCExact, spure, scheck_all. apply holds_sbind; [apply holds_transition|intros obs]. apply holds_sbind; [auto with holding|intros want].
  destruct (first_error _); auto with holding.
Qed.
Lemma holds_staged programs id : holds jr (TcRecovery.staged programs id).
Proof. unfold TcRecovery.staged. destruct (programs !! id); auto with holding. Qed.
Lemma holds_delete_filter rq : holds jr (delete_filter rq).
Proof. intros w. unfold delete_filter. pose proof (tq_filterDelete (jr := jr) rq w) as H. by destruct (tc_filterDelete rq w) as [[[e b]|] w']. Qed.
Lemma holds_delete_owned link slot fd current : holds jr (delete_owned link slot fd current).
Proof. unfold delete_owned. auto 10 using holds_delete_filter, holds_inspect with holding. Qed.
Lemma holds_converge ob id : holds jr (converge ob id).
Proof. unfold converge. auto 10 using holds_inspect with holding. Qed.
Lemma holds_detach active programs : holds jr (rollForwardOwnerDetachFilters active programs).
Proof.
  unfold rollForwardOwnerDetachFilters. apply holds_sbind; [apply holds_transition|intros obs]. apply holds_sbind; [|intros _; apply holds_exact].
  apply holds_siter. intros ob. unfold roll_detach. apply holds_if; [auto with holding|]. destruct (ob_active ob); [|auto with holding].
  auto 20 using holds_staged, holds_inspect, holds_delete_owned with holding.
Qed.
Lemma holds_restore active programs : holds jr (restoreOwnerActiveFilters active programs).
Proof.
  unfold restoreOwnerActiveFilters. apply holds_sbind; [apply holds_transition|intros obs]. apply holds_sbind; [|intros _; apply holds_exact].
  apply holds_siter. intros ob. unfold restore_slot. destruct (ob_active ob); [|auto with holding]. apply holds_if; [auto with holding|].
  auto 20 using holds_staged, holds_clsact, holds_converge with holding.
Qed.
End tc.

Section reads.
Context {W T : Type} {Hk : PinKernel W} (jr : W -> T) {Hq : PinReads jr}.
Lemma holds_stat n : holds jr (stat_name n).
Proof.
  intros w. unfold stat_name. pose proof (pq_fstatat (jr := jr) n w) as H. destruct (pk_fstatat n w) as [[s|e] w']; cbn in *; [done|].
  by destruct (pe_noent e).
Qed.
(** The pins that are inspected. *)
Lemma holds_close_pins pins w : jr (close_pins pins w) = jr w.
Proof. revert w. induction pins as [|p l IH]; intros w; cbn; [done|]. rewrite IH. destruct (mp_observation p); [apply pq_close|done]. Qed.
Lemma holds_on_error {A} c (m : PM W A) : (forall w, jr (c w) = jr w) -> holds jr m -> holds jr (on_error c m).
Proof. intros Hc Hm w. unfold on_error. specialize (Hm w). destruct (m w) as [[a|e] w']; cbn in *; [done|]. by rewrite Hc. Qed.
Lemma holds_find_pins ds : holds jr (find_pins ds).
Proof.
  induction ds as [|d ds IH]; cbn [find_pins]; [auto with holding|]. apply holds_pbind; [auto using holds_stat with holding|intros [st|]]; [|done].
  auto 20 with holding.
Qed.
Lemma holds_open_pins c z opened seen l : holds jr (open_pins c z opened seen l).
Proof.
  revert opened seen. induction l as [|[d i] l IH]; intros opened seen; cbn [open_pins]; [auto with holding|].
  apply holds_pbind; [apply holds_on_error; [intros; apply holds_close_pins|auto with holding]|intros o].
  apply holds_pbind; [apply holds_on_error; [intros; apply holds_close_pins|auto with holding]|intros _]. apply IH.
Qed.
Lemma holds_recheck_pins pins : holds jr (recheck_pins pins).
Proof.
  induction pins as [|p l IH]; cbn [recheck_pins]; [auto with holding|]. apply holds_pbind; [|done]. unfold recheckPinnedMapEntry. auto 10 with holding.
Qed.
Lemma holds_inspect_pins {Ho : OwnerStore W} a b c : holds jr ow_recheckTarget -> holds jr (inspectPinnedMapSetWithPolicy a b c).
Proof.
  intros Ht. unfold inspectPinnedMapSetWithPolicy. apply holds_pbind; [auto with holding|intros _]. apply holds_pbind; [apply holds_find_pins|intros found].
  apply holds_if; [auto with holding|]. apply holds_if; [auto with holding|]. apply holds_pbind; [apply holds_open_pins|intros pins].
  apply holds_pbind; [|auto with holding]. apply holds_on_error; [intros; apply holds_close_pins|]. apply holds_pbind; [apply holds_recheck_pins|auto with holding].
Qed.
End reads.

Section pins.
Context {W T : Type} {Hk : PinKernel W} (jr : W -> T) {Hq : PinQuiet jr}.
Lemma holds_or_close_map o m : holds jr m -> holds jr (or_close_map o m).
Proof.
  intros Hm w. unfold or_close_map. specialize (Hm w). destruct (m w) as [[a|e] w']; cbn in Hm; [done|].
  pose proof (pq_close (jr := jr) o w') as Hc. destruct (pk_close o w'); cbn in *. congruence.
Qed.
Lemma holds_or_close_quietly o m : holds jr m -> holds jr (or_close_map_quietly o m).
Proof. intros Hm w. unfold or_close_map_quietly. specialize (Hm w). destruct (m w) as [[a|e] w']; cbn in Hm; [done|]. cbn. by rewrite pq_close. Qed.
Lemma holds_validate d n id : holds jr (validatePinnedMapAt d n id).
Proof. unfold validatePinnedMapAt. auto 30 using holds_or_close_map with holding. Qed.
Lemma holds_validate_close d n id : holds jr (validate_and_close d n id).
Proof. unfold validate_and_close. auto using holds_validate with holding. Qed.
Lemma holds_existing names : holds jr (existingOwnerRetiredName names).
Proof. unfold existingOwnerRetiredName. auto 10 with holding. Qed.
Lemma holds_unlink d n id : holds jr (unlinkValidatedOwnerMap d n id).
Proof. unfold unlinkValidatedOwnerMap. auto 20 using holds_validate, holds_or_close_quietly with holding. Qed.
Lemma holds_quarantine d a b id : holds jr (quarantine_and_unlink d a b id).
Proof. unfold quarantine_and_unlink. auto 20 using holds_validate, holds_or_close_quietly, holds_unlink with holding. Qed.
Lemma holds_stage_validated r d s : holds jr (stage_validated r d s).
Proof. unfold stage_validated. auto 10 using holds_validate, holds_or_close_quietly with holding. Qed.
Lemma holds_stage r canonical : holds jr (stageOwnerMaps r canonical).
Proof.
  unfold stageOwnerMaps. apply holds_pbind.
  - generalize (or_MapStages r). intros l. induction l as [|s l IH]; cbn [preflight_stages]; [auto with holding|].
    apply holds_pbind; [|auto with holding]. unfold preflight_stage. apply holds_pbind; [auto with holding|intros d].
    apply holds_pbind; [apply (holds_stat jr)|intros [st|]]; [auto using holds_stage_validated with holding|].
    destruct (stage_source canonical s) as [[[d' i] o]|]; auto with holding.
  - intros names. apply holds_pfor. intros s. unfold stage_map. apply holds_if; [auto with holding|]. apply holds_pbind; [auto with holding|intros d].
    destruct (stage_source canonical s) as [[[d' i] o]|]; auto using holds_stage_validated with holding.
Qed.
Lemma holds_close_stages stages : holds jr (close_stages stages).
Proof.
  induction stages as [|[k o] l IH]; intros w; cbn; [done|]. pose proof (pq_close (jr := jr) o w) as H. destruct (pk_close o w) as [e w1]; cbn in H.
  specialize (IH w1). destruct (close_stages l w1); cbn in *. congruence.
Qed.
Lemma holds_load r : holds jr (loadOwnerMapStages r).
Proof.
  unfold loadOwnerMapStages. generalize (or_MapStages r), (@nil (string * pinnedMapObservation)). intros l.
  assert (forall s, holds jr (load_stage r s)) as Hs.
  { intros s. unfold load_stage. apply holds_pbind; [auto with holding|intros d w]. pose proof (holds_validate d (ms_FileName s) (ms_MapID s) w) as E1.
    destruct (validatePinnedMapAt d (ms_FileName s) (ms_MapID s) w) as [[p|e] w1]; cbn in E1.
    - rewrite <- E1. generalize w1. change (holds jr (do! or_close_map_quietly p.2 (if String.eqb (md_name d) "owner_map"
        then pcheck (validateOwnerSentinel (ob_owner p.2) (ob_ownerSeen p.2) r) else pret tt) in pret (Some p.2))).
      auto using holds_or_close_quietly with holding.
    - destruct (_ && _); [|done]. pose proof (pq_fstatat (jr := jr) (ms_Name s) w1) as E2.
      destruct (pk_fstatat (ms_Name s) w1) as [[st|ce] w2]; cbn in E2; cbn; [congruence|]. destruct (pe_noent ce); cbn; congruence. }
  induction l as [|s l IH]; intros acc w; cbn [load_stages]; [done|]. specialize (Hs s w).
  destruct (load_stage r s w) as [[[o|]|e] w1]; cbn in Hs; [rewrite IH; done|rewrite IH; done|].
  pose proof (holds_close_stages acc w1) as Hc. destruct (close_stages acc w1); cbn in *. congruence.
Qed.
Lemma holds_remove r stages : holds jr (removeCanonicalOwnerMaps r stages).
Proof.
  unfold removeCanonicalOwnerMaps. apply holds_pbind; [|intros _]; apply holds_pfor; intros s.
  - unfold preflight_removal. apply holds_pbind; [auto with holding|intros d]. apply holds_pbind; [apply holds_existing|intros x].
    apply holds_pbind.
    + intros w. pose proof (pq_fstatat (jr := jr) (ms_Name s) w) as E. destruct (pk_fstatat (ms_Name s) w) as [[st|e] w']; cbn in E; [by destruct x|].
      by destruct (pe_noent e).
    + intros c. destruct (stages_byName stages (ms_Name s)) as [o|]; [|auto with holding]. apply holds_if; [|auto with holding].
      apply holds_if; [apply holds_validate_close|]. destruct x; auto using holds_validate_close with holding.
  - unfold remove_canonical. apply holds_pbind; [auto with holding|intros d]. apply holds_pbind; [apply holds_existing|intros [n|]]; [apply holds_unlink|].
    apply holds_pbind; [apply (holds_stat jr)|intros [st|]]; auto using holds_quarantine with holding.
Qed.
Lemma holds_restore_maps r stages : holds jr (restoreCanonicalOwnerMaps r stages).
Proof.
  unfold restoreCanonicalOwnerMaps. assert (forall s, holds jr (restore_stage r stages s)) as Hs.
  { intros s. unfold restore_stage. apply holds_pbind; [auto with holding|intros d]. destruct (stages_byName stages (ms_Name s)) as [o|]; [|auto with holding].
    apply holds_if; [auto with holding|]. apply holds_pbind; [apply (holds_stat jr)|intros st]. apply holds_pbind; [destruct st; auto with holding|intros _].
    apply holds_pbind; [apply holds_validate_close|intros _]. apply holds_pbind; [apply holds_existing|intros [n|]]; auto using holds_unlink with holding. }
  induction (or_MapStages r) as [|s l IH]; intros w; cbn [restore_stages]; [done|]. specialize (Hs s w).
  destruct (restore_stage r stages s w) as [x w1]; cbn in Hs. pose proof (IH w1) as IH1. cbn in IH1. destruct (restore_stages r stages l w1) as [e w2]; cbn in IH1 |- *. congruence.
Qed.
Lemma holds_clean r : holds jr (removeOwnerMapStages r).
Proof.
  unfold removeOwnerMapStages. apply holds_pfor. intros s. unfold remove_stage. apply holds_pbind; [auto with holding|intros d w].
  pose proof (pq_fstatat (jr := jr) (ms_FileName s) w) as E. destruct (pk_fstatat (ms_FileName s) w) as [st w1]; cbn in E. rewrite <- E.
  generalize w1. match goal with |- forall w', jr (?m w').2 = jr w' => change (holds jr m) end.
  apply holds_pbind; [apply holds_existing|intros x]. destruct st as [st|e].
  - destruct x; [auto with holding|apply holds_quarantine].
  - apply holds_if; [auto with holding|]. destruct x; auto using holds_unlink with holding.
Qed.

End pins.

(** ** The journal and the pins *)

Class OwnerView (W : Type) := { ow_journal : W -> option ownerJournal }.
Definition view {W} {Hv : PinView W} {Hj : OwnerView W} (w : W) : gmap string Z * option ownerJournal := (pv_dir w, ow_journal w).
(** The names of maps are not those of programs. *)
Definition map_names_kept (r : pinOwnerRecord) (m m' : gmap string Z) : Prop :=
  forall s n, s ∈ or_MapStages r -> n ∈ record_names r s -> m' !! n = m !! n.
Class OwnerLaws (W : Type) {Hk : PinKernel W} {Hr : TcRuntime W} {Ho : OwnerStore W} {Hv : PinView W} {Hj : OwnerView W} := {
  ol_pins :: PinLaws W;
  ol_pins_quiet :: PinQuiet ow_journal;
  ol_tc_quiet :: TcQuiet view;
  (** A record that could not be stored may have been. *)
  ol_Persist next prev w : let '(e, w') := ow_Persist next prev w in pv_dir w' = pv_dir w /\
    match e with None => ow_journal w' = Some next | Some _ => ow_journal w' = ow_journal w \/ ow_journal w' = Some next end;
  ol_Remove j w : let '(e, w') := ow_Remove j w in pv_dir w' = pv_dir w /\
    match e with None => ow_journal w' = None | Some _ => ow_journal w' = ow_journal w \/ ow_journal w' = None end;
  ol_now : holds view ow_now;
  ol_stagePrograms j w : ow_journal (ow_stagePrograms j w).2 = ow_journal w /\
    map_names_kept (oj_record j) (pv_dir w) (pv_dir (ow_stagePrograms j w).2);
  ol_removePrograms j w : ow_journal (ow_removePrograms j w).2 = ow_journal w /\
    map_names_kept (oj_record j) (pv_dir w) (pv_dir (ow_removePrograms j w).2);
  ol_loadPrograms j : holds view (ow_loadPrograms j);
  ol_closePrograms p w : view (ow_closePrograms p w) = view w;
  ol_recheckTarget : holds view ow_recheckTarget;
  ol_dirIsEmpty : holds view ow_dirIsEmpty;
  ol_removeDir : holds view ow_removeDir
}.

Definition canonical_maps (r : pinOwnerRecord) (m : gmap string Z) : Prop := forall x, x ∈ or_Maps r -> m !! om_Name x = Some (om_ID x).
Definition staged_maps (r : pinOwnerRecord) (m : gmap string Z) : Prop := forall s, s ∈ or_MapStages r -> m !! ms_FileName s = Some (ms_MapID s).
Definition stages_match (r : pinOwnerRecord) : Prop :=
  (forall s, s ∈ or_MapStages r -> mkMapIdentity (ms_Name s) (ms_MapID s) ∈ or_Maps r) /\
  forall x, x ∈ or_Maps r -> exists s, s ∈ or_MapStages r /\ ms_Name s = om_Name x /\ ms_MapID s = om_ID x.
(** What a record says of the pins. *)
Definition truthful (j : ownerJournal) (m : gmap string Z) : Prop :=
  match oj_Phase j, oj_Step j with
  | PhaseApplying, _ => True
  | PhaseDetaching, StepUnlinkingMaps => canonical_maps (oj_record j) m \/ staged_maps (oj_record j) m
  | PhaseDetaching, StepCleanupStages => forall s, s ∈ or_MapStages (oj_record j) -> gone (canon_names (oj_record j) s) m
  | _, _ => canonical_maps (oj_record j) m
  end.
Definition well_formed (j : ownerJournal) : Prop :=
  (oj_Phase j <> PhaseApplying -> or_ActiveGeneration (oj_record j) <> 0) /\
  (oj_Phase j = PhaseDetaching -> names_apart (oj_record j) /\ stages_match (oj_record j)).
Definition journal_inv {W} {Hv : PinView W} {Hj : OwnerView W} (w : W) : Prop :=
  match ow_journal w with Some j => well_formed j /\ truthful j (pv_dir w) | None => True end.

(** *** Records that differ in order only *)
Definition same_record (r r' : pinOwnerRecord) : Prop :=
  or_RecordVersion r' = or_RecordVersion r /\ or_ActiveGeneration r' = or_ActiveGeneration r /\ or_Maps r' ≡ₚ or_Maps r /\ or_MapStages r' ≡ₚ or_MapStages r.
Lemma same_record_refl r : same_record r r.
Proof. done. Qed.
Lemma same_record_trans r1 r2 r3 : same_record r1 r2 -> same_record r2 r3 -> same_record r1 r3.
Proof. intros (? & ? & ? & ?) (? & ? & ? & ?). split_and!; [congruence|congruence|by etrans|by etrans]. Qed.
Lemma same_normalize j : same_record (oj_record j) (oj_record (normalizePinOwnerRecord j)).
Proof. split_and!; [done|done|apply merge_sort_Permutation|apply merge_sort_Permutation]. Qed.
Lemma same_advance j p s : same_record (oj_record j) (oj_record (advancePinOwnerRecord j p s)).
Proof. apply (same_normalize (mkJournal _ _ _ _ _ _ _ _ _)). Qed.
Lemma same_observe j m : same_record (oj_record j) (oj_record (observeOwnerMount j m)).
Proof. unfold observeOwnerMount. destruct (m =? 0); [apply same_record_refl|]. apply (same_normalize (mkJournal _ _ _ _ _ _ _ _ _)). Qed.
Lemma same_names r r' s : same_record r r' -> record_names r' s = record_names r s /\ canon_names r' s = canon_names r s.
Proof.
  intros (Ev & _). unfold record_names, canon_names, stage_names, ownerCanonicalMapRetiredNames, ownerMapRetiredNames. by rewrite Ev.
Qed.
Lemma same_apart r r' : same_record r r' -> names_apart r -> names_apart r'.
Proof.
  intros Hs. unfold names_apart. pose proof Hs as (_ & _ & _ & Hp). assert (map (record_names r') (or_MapStages r') ≡ₚ map (record_names r) (or_MapStages r)) as Hm.
  { rewrite Hp. erewrite map_ext; [done|]. intros s. by destruct (same_names r r' s Hs). }
  by rewrite Hm.
Qed.
Lemma same_canonical r r' m : same_record r r' -> canonical_maps r m -> canonical_maps r' m.
Proof. intros (_ & _ & Hp & _) H x Hx. apply H. by rewrite <- Hp. Qed.
Lemma same_staged r r' m : same_record r r' -> staged_maps r m -> staged_maps r' m.
Proof. intros (_ & _ & _ & Hp) H x Hx. apply H. by rewrite <- Hp. Qed.
Lemma same_match r r' : same_record r r' -> stages_match r -> stages_match r'.
Proof.
  intros (_ & _ & Hm & Hs) [H1 H2]. split.
  - intros s. rewrite Hm, Hs. apply H1.
  - intros x. rewrite Hm. intros Hx. destruct (H2 x Hx) as (s & ? & ?). exists s. by rewrite Hs.
Qed.

(** ** The operations *)

Section operations.
Context {W : Type} {Hk : PinKernel W} {Hr : TcRuntime W} {Ho : OwnerStore W} {Hv : PinView W} {Hj : OwnerView W} {Hl : OwnerLaws W}.
Implicit Types w : W.
Implicit Types j : ownerJournal.

(** The record on disk is [j], and true. *)
Definition at_record j w : Prop := ow_journal w = Some j /\ well_formed j /\ truthful j (pv_dir w).
Lemma at_inv j w : at_record j w -> journal_inv w.
Proof. intros (E & H). unfold journal_inv. by rewrite E. Qed.
Lemma view_inv w w' : view w' = view w -> journal_inv w -> journal_inv w'.
Proof. intros [= Ed Ej]. unfold journal_inv. by rewrite Ed, Ej. Qed.
Lemma view_at j w w' : view w' = view w -> at_record j w -> at_record j w'.
Proof. intros [= Ed Ej]. unfold at_record. by rewrite Ed, Ej. Qed.
Lemma view_dir w w' : view w' = view w -> pv_dir w' = pv_dir w.
Proof. by intros [=]. Qed.

(** A step that leaves both views alone. *)
Lemma pwp_hold {A} (m : PM W A) Q w : holds view m -> journal_inv w -> (forall a w', m w = (inl a, w') -> view w' = view w -> Q a w') -> pwp m Q journal_inv w.
Proof.
  intros Hm Hi HQ. unfold pwp. specialize (Hm w). destruct (m w) as [[a|e] w'] eqn:Em; cbn in Hm; [by apply HQ|]. by eapply view_inv.
Qed.
Lemma pwp_deferred {A} c (m : PM W A) Q w : (forall w, view (c w) = view w) -> pwp m (fun a w' => forall w'', view w'' = view w' -> Q a w'') journal_inv w ->
  pwp (deferred c m) Q journal_inv w.
Proof.
  intros Hc. unfold pwp, deferred. destruct (m w) as [[a|e] w']; intros H; [apply H, Hc|]. eapply view_inv; [apply Hc|done].
Qed.
(** Storing a record that is true. *)
Lemma pwp_persist next prev Q w : at_record prev w -> well_formed next -> truthful next (pv_dir w) ->
  (forall w', at_record next w' -> pv_dir w' = pv_dir w -> Q tt w') -> pwp (pcall (ow_Persist next prev)) Q journal_inv w.
Proof.
  intros (Ej & Hwf & Ht) Hwf' Ht' HQ. unfold pwp, pcall. pose proof (ol_Persist next prev w) as H. destruct (ow_Persist next prev w) as [[e|] w']; destruct H as [Ed H].
  - unfold journal_inv. destruct H as [-> | ->]; [rewrite Ej|]; by rewrite Ed.
  - apply HQ; [|done]. split_and!; [done..|by rewrite Ed].
Qed.
Lemma holds_both {X} (m : W -> X * W) : holds pv_dir m -> holds ow_journal m -> holds view m.
Proof. intros H1 H2 w. unfold view. by rewrite H1, H2. Qed.

#[local] Instance reads_view : PinReads view.
Proof.
  split; intros; apply holds_both; try apply pq_reads; try (intros w).
  - apply (steady_fstatat n w).
  - apply pl_mountIDAt.
  - apply (steady_load n k w).
  - apply pl_close.
Qed.
Lemma holds_view_pins a b c : holds view (inspectPinnedMapSetWithPolicy a b c).
Proof. apply holds_inspect_pins; [apply _|apply ol_recheckTarget]. Qed.
Lemma view_close_pins pins w : view (close_pins pins w) = view w.
Proof. apply (holds_close_pins view). Qed.
Lemma view_close_loaded stages w : view (close_loaded stages w) = view w.
Proof.
  unfold close_loaded, view. pose proof (holds_close_stages ow_journal stages w) as Ej. f_equal; [|done].
  clear Ej. revert w. induction stages as [|[k o] l IH]; intros w; cbn; [done|]. pose proof (pl_close o w) as E. destruct (pk_close o w) as [e w1]; cbn in E.
  specialize (IH w1). destruct (close_stages l w1); cbn in *. congruence.
Qed.
Lemma holds_view_tc {A} (m : SM W A) : holds view m -> holds view (of_tc m).
Proof. apply holds_of_tc. Qed.
Lemma load_view r w stages w' : names_apart r -> loadOwnerMapStages r w = (inl stages, w') -> view w' = view w /\ loaded_ok r stages (pv_dir w).
Proof.
  intros Hr' H. destruct (loaded r Hr' _ _ _ H) as [E Hok]. rewrite E in Hok. split; [|done]. unfold view. rewrite E.
  pose proof (holds_load ow_journal r w) as Ej. rewrite H in Ej. by cbn in Ej; rewrite Ej.
Qed.
Lemma holds_view_load r : names_apart r -> holds view (loadOwnerMapStages r).
Proof.
  intros Hr'. apply holds_both; [|apply holds_load, _]. intros w. pose proof (load_spec r Hr' w) as H. unfold pwp in H.
  by destruct (loadOwnerMapStages r w) as [[st|e] w']; [destruct H|].
Qed.

(** *** The inspected pins *)
Definition pins_true (pins : list pinnedMapPin) (m : gmap string Z) : Prop :=
  forall p o, p ∈ pins -> mp_observation p = Some o -> m !! md_name (mp_descriptor p) = Some (ob_id o).
Lemma open_pins_true c z opened seen l w pins w' : open_pins c z opened seen l w = (inl pins, w') -> pins_true opened (pv_dir w) -> pins_true pins (pv_dir w).
Proof.
  revert opened seen w. induction l as [|[d i] l IH]; intros opened seen w; cbn [open_pins]; [by intros [= <- _]|].
  unfold pbind at 1, on_error at 1, pwrap. pose proof (pl_load (md_name d) (md_name d) w) as Hld.
  destruct (pk_loadPinnedMap (md_name d) (md_name d) w) as [[o|e] w1]; [|done]. destruct Hld as [E1 Ho']. unfold pbind at 1, on_error, pcheck.
  destruct (check_observation d o c z seen); [done|]. intros H Hp. rewrite <- E1. eapply IH; [exact H|]. rewrite E1.
  intros p o' [Hin|Hin]%elem_of_app Hob; [by eapply Hp|]. apply list_elem_of_singleton in Hin as ->. cbn in *. by simplify_eq.
Qed.
Lemma inspect_true a b c w pins w' : inspectPinnedMapSetWithPolicy a b c w = (inl pins, w') -> pins_true pins (pv_dir w).
Proof.
  unfold inspectPinnedMapSetWithPolicy, pbind at 1. pose proof (holds_pcall _ _ ol_recheckTarget w) as E0.
  destruct (pcall ow_recheckTarget w) as [[[]|e] w0]; [|done]. apply view_dir in E0. cbn in E0. unfold pbind at 1.
  pose proof (holds_find_pins view pinnedMapDescriptors w0) as E1. destruct (find_pins pinnedMapDescriptors w0) as [[found|e] w1]; [|done]. apply view_dir in E1. cbn in E1.
  destruct (Nat.eqb (length found) 0); [intros [= <- _]; intros p o Hp; by apply not_elem_of_nil in Hp|].
  destruct (_ && _); [done|]. unfold pbind at 1. pose proof (open_pins_true b c [] [] found w1) as Ho'.
  destruct (open_pins b c [] [] found w1) as [[ps|e] w2]; [|done]. unfold pbind. destruct (on_error _ _ w2) as [[[]|e] w3]; [|done].
  intros [= <- _]. rewrite <- E0, <- E1. eapply Ho'; [done|]. intros p o Hp. by apply not_elem_of_nil in Hp.
Qed.
Lemma same_identities_eq l r : same_identities l r = true -> l = r.
Proof.
  revert r. induction l as [|x l IH]; intros [|y r]; cbn; try done. rewrite !andb_true_iff, String.eqb_eq, Z.eqb_eq. intros [[? ?] ->%IH].
  destruct x, y; cbn in *. by subst.
Qed.
(** A complete set of valid pins is the canonical maps. *)
Lemma pins_canonical r pins m : validateOwnerPins r pins true = None -> pins_true pins m -> canonical_maps r m.
Proof.
  unfold validateOwnerPins. destruct (validateOwnerMapsAgainstPins r pins) as [e|] eqn:E; [done|]. intros _ Hp x Hx.
  unfold validateOwnerMapsAgainstPins in E. destruct (negb _); [done|]. destruct (same_identities (ownerMapsFromPins pins) (or_Maps r)) eqn:Es; [|done].
  apply same_identities_eq in Es. rewrite <- Es in Hx. unfold ownerMapsFromPins, sort_names in Hx. rewrite merge_sort_Permutation in Hx.
  apply list_elem_of_omap in Hx as (p & Hin & Hx). destruct (mp_observation p) as [o|] eqn:Eo; [|done]. cbn in Hx. injection Hx as <-. cbn. by eapply Hp.
Qed.

(** *** The names of a detach *)
Definition own_name (prefix : string) (x : string + string) : string := match x with inl n => n | inr t => prefix +:+ t end.
Definition own_names (both : bool) (n : string) : list (string + string) :=
  (inl n :: inr (n +:+ "-canonical-retired") :: (if both then [inr (n +:+ ".canonical-retired")] else [])) ++
  (inr n :: inr (n +:+ "-retired") :: (if both then [inr (n +:+ ".retired")] else [])).
Lemma append_assoc (a b c : string) : (a +:+ b) +:+ c = a +:+ (b +:+ c).
Proof. induction a as [|x a IH]; [done|]. change (String x ((a +:+ b) +:+ c) = String x (a +:+ (b +:+ c))). by rewrite IH. Qed.
Lemma built_names r prefix n id :
  record_names r (mkMapStage n (prefix +:+ n) id) = map (own_name prefix) (own_names (or_RecordVersion r =? pinOwnerRecordVersion) n).
Proof.
  unfold record_names, canon_names, stage_names, own_names, ownerCanonicalMapRetiredNames, ownerMapRetiredNames. cbn [ms_Name ms_FileName].
  destruct (_ =? _); cbn [app map own_name]; by rewrite !append_assoc.
Qed.
Lemma check_maps_names seen maps want : check_maps seen maps want = None -> length maps = length want -> map om_Name maps = want.
Proof.
  revert seen want. induction maps as [|x maps IH]; intros seen [|n want]; cbn; try done. destruct (String.eqb (om_Name x) n) eqn:E; [|done].
  apply String.eqb_eq in E as ->. cbn [negb]. destruct (_ =? 0); [done|]. destruct (bool_decide _); [done|]. intros H [= L]. by rewrite (IH _ _ H L).
Qed.
Lemma valid_names maps : validateOwnerMaps maps = None -> map om_Name maps = wantNames.
Proof.
  unfold validateOwnerMaps. destruct (Nat.eqb _ _) eqn:E; [|done]. apply Nat.eqb_eq in E. intros H. eapply check_maps_names; [exact H|]. by rewrite E.
Qed.
Lemma own_names_NoDup b : NoDup (concat (map (own_names b) wantNames)).
Proof. apply (bool_decide_unpack _). destruct b; vm_compute; exact I. Qed.
Lemma own_name_inj b rest x y : x ∈ concat (map (own_names b) wantNames) -> y ∈ concat (map (own_names b) wantNames) ->
  own_name ("txn-" +:+ rest) x = own_name ("txn-" +:+ rest) y -> x = y.
Proof.
  set (plain := fun x : string + string => match x with inl (String c _) => negb (Ascii.eqb c "t") | inl EmptyString => false | inr _ => true end).
  assert (forallb plain (concat (map (own_names b) wantNames)) = true) as Hall by (destruct b; vm_compute; reflexivity).
  rewrite forallb_forall in Hall. intros Hx%list_elem_of_In Hy%list_elem_of_In. apply Hall in Hx, Hy. unfold plain in Hx, Hy. destruct x as [[|c n]|t], y as [[|c' n']|t']; cbn [own_name]; try done.
  - by intros ->.
  - intros [= -> _]. done.
  - intros [= <- _]. done.
  - intros E. f_equal. by eapply (inj (String.append _)).
Qed.
Lemma built_apart r key token maps : or_MapStages r ≡ₚ buildOwnerMapStages key token maps -> map om_Name maps ≡ₚ wantNames -> names_apart r.
Proof.
  intros Hp Hv'. unfold names_apart. rewrite Hp. unfold buildOwnerMapStages, sort_names. rewrite merge_sort_Permutation, map_map.
  set (rest := key +:+ "-" +:+ token +:+ "-map-"). set (b := or_RecordVersion r =? pinOwnerRecordVersion).
  assert (map (fun x => record_names r (mkMapStage (om_Name x) (pinOwnerMapStageName key token (om_Name x)) (om_ID x))) maps =
    map (map (own_name ("txn-" +:+ rest))) (map (own_names b) (map om_Name maps))) as ->.
  { rewrite !map_map. apply map_ext. intros x. unfold b. rewrite <- (built_names r _ _ (om_ID x)). do 2 f_equal. unfold pinOwnerMapStageName, rest. by rewrite !append_assoc. }
  rewrite Hv', <- concat_map. apply NoDup_fmap_2_strong; [|apply own_names_NoDup]. intros x y. apply own_name_inj.
Qed.

(** *** The records of a detach *)
Lemma journal_step j step : oj_Phase (journal j step) = PhaseDetaching /\ oj_Step (journal j step) = step /\
  same_record (oj_record j) (oj_record (journal j step)).
Proof.
  unfold journal. split_and!; [unfold observeOwnerMount; by destruct (_ =? 0)..|]. eapply same_record_trans; [apply same_advance|apply same_observe].
Qed.
Lemma journal_wf j step : well_formed j -> oj_Phase j = PhaseDetaching -> well_formed (journal j step).
Proof.
  intros [Hg Hd] Hp. destruct (journal_step j step) as (Ep & _ & Hs). destruct (Hd Hp) as [Ha Hm]. split.
  - intros _. destruct Hs as (_ & -> & _). apply Hg. by rewrite Hp.
  - intros _. split; [by eapply same_apart|by eapply same_match].
Qed.
Lemma abort_record j a : abortDetachingPinOwnerRecord j = inl a -> oj_Phase (observeOwnerMount a pk_mountID) = PhaseActive /\
  or_ActiveGeneration (oj_record (observeOwnerMount a pk_mountID)) <> 0 /\ or_Maps (oj_record (observeOwnerMount a pk_mountID)) ≡ₚ or_Maps (oj_record j).
Proof.
  unfold abortDetachingPinOwnerRecord. destruct (bool_decide _); cbn [negb orb]; [|done]. destruct (or_ActiveGeneration (oj_record j) =? 0) eqn:Eg; [done|].
  apply Z.eqb_neq in Eg. destruct (validatePinOwnerRecord _); [done|]. intros [= <-].
  match goal with |- context [observeOwnerMount ?x ?y] => pose proof (same_observe x y) as (_ & Ea & Em & _); split_and!; [unfold observeOwnerMount; by destruct (y =? 0)| |] end.
  - rewrite Ea. done.
  - rewrite Em. cbn. unfold sort_names. by rewrite !merge_sort_Permutation.
Qed.
Lemma detaching_record a d : newDetachingPinOwnerRecord a = inl d -> well_formed a ->
  let d := observeOwnerMount d pk_mountID in
  oj_Phase d = PhaseDetaching /\ oj_Step d = StepStaging /\ or_ActiveGeneration (oj_record d) <> 0 /\ stages_match (oj_record d) /\
  or_Maps (oj_record d) ≡ₚ or_Maps (oj_record a) /\ oj_Phase a = PhaseActive /\ names_apart (oj_record d).
Proof.
  unfold newDetachingPinOwnerRecord. destruct (bool_decide (oj_Phase a = PhaseActive)) eqn:Ep; cbn [negb orb]; [|done]. apply bool_decide_eq_true in Ep.
  destruct (bool_decide _); cbn [negb]; [|done]. destruct (ow_token (oj_record a)) as [token|e]; [|done]. destruct (validatePinOwnerRecord _) eqn:Ev; [done|].
  intros [= <-] [Hg _]. cbn zeta.
  match goal with |- context [observeOwnerMount ?x ?y] => pose proof (same_observe x y) as Hs; assert (oj_Phase (observeOwnerMount x y) = PhaseDetaching /\
    oj_Step (observeOwnerMount x y) = StepStaging) as [Eph Est] by (unfold observeOwnerMount; by destruct (y =? 0)) end.
  split_and!; [done|done| | | |done|].
  - destruct Hs as (_ & -> & _). cbn. apply Hg. by rewrite Ep.
  - eapply same_match; [exact Hs|]. cbn. set (maps := sort_names om_Name (or_Maps (oj_record a))). unfold stages_match. cbn. split.
    + intros s Hs'. unfold sort_names, buildOwnerMapStages, sort_names in Hs'. rewrite !merge_sort_Permutation in Hs'.
      apply list_elem_of_fmap in Hs' as (x & -> & Hx). cbn. unfold sort_names. rewrite merge_sort_Permutation. by destruct x.
    + intros x Hx. unfold sort_names in Hx. rewrite merge_sort_Permutation in Hx.
      exists (mkMapStage (om_Name x) (pinOwnerMapStageName (oj_ResourceKey a) token (om_Name x)) (om_ID x)). split; [|done].
      unfold buildOwnerMapStages, sort_names. rewrite !merge_sort_Permutation. apply list_elem_of_fmap. by exists x.
  - destruct Hs as (_ & _ & -> & _). cbn. unfold sort_names. by rewrite !merge_sort_Permutation.
  - eapply same_apart; [exact Hs|]. unfold validatePinOwnerRecord in Ev. destruct (ow_validateIdentity _); [done|].
    destruct (validateOwnerMaps _) eqn:Em; [done|]. eapply built_apart; [apply merge_sort_Permutation|].
    rewrite <- (valid_names _ Em). cbn. apply Permutation_map. symmetry. apply merge_sort_Permutation.
Qed.

(** *** Names that stay *)
Lemma kept_canonical r m m' : stages_match r -> map_names_kept r m m' -> canonical_maps r m -> canonical_maps r m'.
Proof.
  intros [_ Hm] Hkeep Hc x Hx. destruct (Hm x Hx) as (s & Hs & En & Ei). rewrite <- En, (Hkeep s); [rewrite En; by apply Hc|done|apply canon_sub; left].
Qed.
Lemma kept_gone r m m' : map_names_kept r m m' -> (forall s, s ∈ or_MapStages r -> gone (canon_names r s) m) ->
  forall s, s ∈ or_MapStages r -> gone (canon_names r s) m'.
Proof. intros Hkeep Hg s Hs n Hn. rewrite (Hkeep s); [by apply (Hg s)|done|by apply canon_sub]. Qed.
Lemma clean_kept r m m' : names_apart r -> edits (stage_names r) (or_MapStages r) m m' -> forall s n, s ∈ or_MapStages r -> n ∈ canon_names r s -> m' !! n = m !! n.
Proof. intros Hr' He s n Hs. by apply (edits_stage_canon r Hr' _ _ s (or_MapStages r)). Qed.
Lemma canon_unchanged r m m' : stages_match r -> (forall s n, s ∈ or_MapStages r -> n ∈ canon_names r s -> m' !! n = m !! n) ->
  canonical_maps r m -> canonical_maps r m'.
Proof.
  intros [_ Hm] Hkeep Hc x Hx. destruct (Hm x Hx) as (s & Hs & En & Ei). rewrite <- En, (Hkeep s); [rewrite En; by apply Hc|done|left].
Qed.
Lemma restored_canonical r m : stages_match r -> (forall s, s ∈ or_MapStages r -> restored r s m) -> canonical_maps r m.
Proof. intros [_ Hm] H x Hx. destruct (Hm x Hx) as (s & Hs & <- & <-). by destruct (H s Hs). Qed.
Lemma canonical_stage r m s : stages_match r -> s ∈ or_MapStages r -> canonical_maps r m -> m !! ms_Name s = Some (ms_MapID s).
Proof. intros [Hm _] Hs Hc. apply (Hc _ (Hm s Hs)). Qed.

(** *** The steps *)
(** [at_record] with another view of the same pins. *)
Lemma at_kept j w w' : ow_journal w' = ow_journal w -> truthful j (pv_dir w') -> at_record j w -> at_record j w'.
Proof. intros E Ht (Ej & Hwf & _). split_and!; [congruence|done..]. Qed.
Lemma pwp_at {A} (m : PM W A) j (P : gmap string Z -> Prop) (Q : A -> W -> Prop) w : holds ow_journal m -> at_record j w -> (forall d, P d -> truthful j d) ->
  pwp m (fun _ w' => P (pv_dir w')) (fun w' => P (pv_dir w')) w -> (forall a w', m w = (inl a, w') -> at_record j w' -> P (pv_dir w') -> Q a w') -> pwp m Q journal_inv w.
Proof.
  intros Hm Hat Himp Hp HQ. unfold pwp in *. specialize (Hm w). destruct (m w) as [[a|e] w'] eqn:Em; cbn in Hm.
  - apply HQ; [done| |done]. eapply at_kept; [done|by apply Himp|done].
  - eapply at_inv, at_kept; [done|by apply Himp|done].
Qed.
(** The removal of the program stages. *)
Lemma pwp_programs (f : ownerJournal -> W -> option pin_error * W) j (P : gmap string Z -> Prop) (Q : unit -> W -> Prop) w :
  (forall w, ow_journal (f j w).2 = ow_journal w /\ map_names_kept (oj_record j) (pv_dir w) (pv_dir (f j w).2)) ->
  at_record j w -> P (pv_dir w) -> (forall d d', map_names_kept (oj_record j) d d' -> P d -> P d') -> (forall d, P d -> truthful j d) ->
  (forall w', at_record j w' -> P (pv_dir w') -> Q tt w') -> pwp (pcall (f j)) Q journal_inv w.
Proof.
  intros Hf Hat HP Hkeep Himp HQ. destruct (Hf w) as [Ej Hk']. pose proof (Hkeep _ _ Hk' HP) as HP'.
  apply (pwp_at _ j P); [|done|done|unfold pwp, pcall; destruct (f j w) as [[e|] w']; done|intros [] w' _ ? ?; by apply HQ].
  apply holds_pcall. intros w'. apply Hf.
Qed.
Definition rolling j : Prop := oj_Phase j = PhaseDetaching /\ (oj_Step j = StepMutatingTC \/ oj_Step j = StepUnlinkingMaps).
Lemma rolling_truthful j m : rolling j -> canonical_maps (oj_record j) m -> truthful j m.
Proof. intros [Ep [Es|Es]] Hc; unfold truthful; rewrite Ep, Es; [done|by left]. Qed.
(** The removal of the stages leaves the canonical pins. *)
Lemma pwp_clean j (P : gmap string Z -> Prop) (Q : unit -> W -> Prop) w : names_apart (oj_record j) -> at_record j w -> P (pv_dir w) ->
  (forall d d', (forall s n, s ∈ or_MapStages (oj_record j) -> n ∈ canon_names (oj_record j) s -> d' !! n = d !! n) -> P d -> P d') ->
  (forall d, P d -> truthful j d) -> (forall w', at_record j w' -> P (pv_dir w') -> Q tt w') -> pwp (removeOwnerMapStages (oj_record j)) Q journal_inv w.
Proof.
  intros Hap Hat HP Hkeep Himp HQ. apply (pwp_at _ j P); [apply holds_clean, _|done|done| |intros [] w' _ ? ?; by apply HQ].
  unfold pwp. pose proof (clean_spec (oj_record j) Hap w) as Hc. destruct (removeOwnerMapStages (oj_record j) w) as [x w']. destruct Hc as [He _].
  assert (P (pv_dir w')) by (eapply Hkeep; [|exact HP]; intros s n; by apply (clean_kept _ _ _ Hap He)). by destruct x.
Qed.
(** The end of a rollback. *)
Lemma persist_active j a (Q : unit -> W -> Prop) w : abortDetachingPinOwnerRecord j = inl a -> at_record j w -> canonical_maps (oj_record j) (pv_dir w) ->
  (forall w', at_record (observeOwnerMount a pk_mountID) w' -> oj_Phase (observeOwnerMount a pk_mountID) = PhaseActive -> Q tt w') ->
  pwp (pcall (ow_Persist (observeOwnerMount a pk_mountID) j)) Q journal_inv w.
Proof.
  intros Ha Hat Hc HQ. destruct (abort_record j a Ha) as (Ep & Eg & Em). apply pwp_persist; [done|split; [done|by rewrite Ep]| |by auto].
  unfold truthful. rewrite Ep. intros x Hx. apply Hc. by rewrite <- Em.
Qed.
Lemma removed_programs j w (Q : unit -> W -> Prop) : rolling j -> at_record j w -> canonical_maps (oj_record j) (pv_dir w) ->
  (forall w', at_record j w' -> canonical_maps (oj_record j) (pv_dir w') -> Q tt w') -> pwp (pcall (ow_removePrograms j)) Q journal_inv w.
Proof.
  intros Hro Hat Hc HQ. pose proof Hat as (_ & [_ Hwf] & _). destruct Hro as [Ep Es]. destruct (Hwf Ep) as [_ Hm].
  apply (pwp_programs _ j (canonical_maps (oj_record j))); [apply ol_removePrograms|done|done| |by intros; apply rolling_truthful|done].
  intros d d'. by apply kept_canonical.
Qed.
Lemma removed_stages j w (Q : unit -> W -> Prop) : rolling j -> at_record j w -> canonical_maps (oj_record j) (pv_dir w) ->
  (forall w', at_record j w' -> canonical_maps (oj_record j) (pv_dir w') -> Q tt w') -> pwp (removeOwnerMapStages (oj_record j)) Q journal_inv w.
Proof.
  intros Hro Hat Hc HQ. pose proof Hat as (_ & [_ Hwf] & _). pose proof Hro as [Ep Es]. destruct (Hwf Ep) as [Hap Hm].
  apply (pwp_clean j (canonical_maps (oj_record j))); [done|done|done| |by intros; apply rolling_truthful|done]. intros d d'. by apply canon_unchanged.
Qed.
Lemma finish_rollback_spec j w : rolling j -> at_record j w -> canonical_maps (oj_record j) (pv_dir w) ->
  pwp (finish_rollback j) (fun a w' => at_record a w' /\ oj_Phase a = PhaseActive) journal_inv w.
Proof.
  intros Hro Hat Hc. unfold finish_rollback. apply pwp_bind, removed_programs; [done..|]. intros w1 Hat1 Hc1.
  apply pwp_bind, removed_stages; [done..|]. intros w2 Hat2 Hc2. apply pwp_bind. eapply pwp_hold; [apply holds_pure|by eapply at_inv|].
  intros a w3 [= Ha <-] _. apply pwp_bind, persist_active; [done..|]. intros w4 Hat4 Ep4. by apply pwp_ret.
Qed.
Lemma detach_rollback_spec j programs stages w : rolling j -> at_record j w -> canonical_maps (oj_record j) (pv_dir w) \/ staged_maps (oj_record j) (pv_dir w) ->
  pwp (rollbackOwnerDetachToActive j programs stages) (fun _ => journal_inv) journal_inv w.
Proof.
  intros Hro Hat Hcase. pose proof Hat as (_ & [_ Hwf] & _). pose proof Hro as [Ep Es]. destruct (Hwf Ep) as [Hap Hm]. unfold rollbackOwnerDetachToActive.
  apply pwp_bind. unfold pwp at 1, restore_active. pose proof (restore_spec (oj_record j) Hap stages w) as Hrs. pose proof (holds_restore_maps ow_journal (oj_record j) stages w) as Ej.
  destruct (restoreCanonicalOwnerMaps (oj_record j) stages w) as [e1 w1]; cbn in Ej. destruct Hrs as (He & _ & Hok & Hkept).
  assert (at_record j w1) as Hat1.
  { eapply at_kept; [done| |done]. destruct Hat as (_ & _ & Ht). unfold truthful in *. rewrite Ep in *.
    assert (canonical_maps (oj_record j) (pv_dir w) -> canonical_maps (oj_record j) (pv_dir w1)) as Hcc.
    { intros Hc x Hx. destruct Hm as [Hm1 Hm2]. destruct (Hm2 x Hx) as (s & Hs & En & Ei). rewrite <- En, <- Ei. apply (Hkept s Hs). rewrite En, Ei. by apply Hc. }
    destruct Es as [Es|Es]; rewrite Es in *; [by apply Hcc|]. destruct Ht as [Hc|Hst]; [left; by apply Hcc|right].
    intros s Hs. rewrite (edits_canon_staged (oj_record j) Hap _ _ s He Hs) by left. by apply Hst. }
  pose proof (holds_of_tc view _ (holds_restore view (oj_ActiveFilters j) programs) w1) as E2.
  destruct (of_tc (restoreOwnerActiveFilters (oj_ActiveFilters j) programs) w1) as [r2 w2]; cbn in E2. pose proof (view_at _ _ _ E2 Hat1) as Hat2.
  destruct e1 as [e|]; [by destruct r2; eapply at_inv|]. destruct r2 as [[]|e]; [|by eapply at_inv]. specialize (Hok eq_refl).
  assert (canonical_maps (oj_record j) (pv_dir w2)) as Hc by (rewrite (view_dir _ _ E2); by apply restored_canonical).
  apply pwp_bind, removed_programs; [done..|]. intros w3 Hat3 Hc3. apply pwp_bind, removed_stages; [done..|]. intros w4 Hat4 Hc4.
  apply pwp_bind. eapply pwp_hold; [apply holds_pcall, ol_now|by eapply at_inv|]. intros _ w5 _ E5.
  apply pwp_bind. eapply pwp_hold; [apply holds_pure|eapply at_inv, view_at; done|]. intros a w6 [= Ha <-] _.
  apply persist_active; [done|by eapply view_at|by rewrite (view_dir _ _ E5)|]. intros w7 Hat7 _. by eapply at_inv.
Qed.

(** *** Recovery *)
Definition recovered (res : recovery_result) w : Prop :=
  match res with None => ow_journal w = None | Some a => at_record a w /\ oj_Phase a = PhaseActive end.
Lemma recovered_view res w w' : view w' = view w -> recovered res w -> recovered res w'.
Proof. intros E. destruct res as [a|]; cbn; [intros [? ?]; split; [by eapply view_at|done]|]. by injection E as _ ->. Qed.
Lemma rolled_back_spec j w : oj_Phase j = PhaseDetaching -> at_record j w ->
  match recoverRolledBackOwnerDetach j w with
  | (None, w') => view w' = view w
  | (Some (inl res), w') => recovered res w'
  | (Some (inr _), w') => journal_inv w'
  end.
Proof.
  intros Ep Hat. unfold recoverRolledBackOwnerDetach. destruct ((_ =? 0) || _) eqn:Eg; [done|]. apply orb_false_iff in Eg as [_ Es].
  apply negb_false_iff, orb_true_iff in Es. assert (rolling j) as Hro by (split; [done|]; by destruct Es as [?%bool_decide_eq_true|?%bool_decide_eq_true]; auto).
  pose proof (holds_exact view (oj_ActiveFilters j) (oj_ActiveFilters j) w) as E1. destruct (validateOwnerTCExact _ _ w) as [[[]|e] w1]; cbn in E1; [|done].
  pose proof (holds_view_pins true true false w1) as E2. pose proof (inspect_true true true false w1) as Hp.
  destruct (inspectPinnedMapSetWithPolicy true true false w1) as [[pins|e] w2]; cbn in E2; [|by rewrite E2].
  destruct (detach_rolled_back j pins) eqn:Er; [|by rewrite view_close_pins, E2]. unfold detach_rolled_back in Er. apply andb_true_iff in Er as [Er%bool_decide_eq_true _].
  assert (canonical_maps (oj_record j) (pv_dir w2)) as Hc by (rewrite (view_dir _ _ E2); eapply pins_canonical; [exact Er|by eapply Hp]).
  assert (at_record j w2) as Hat2 by (eapply view_at; [|exact Hat]; by rewrite E2).
  pose proof (finish_rollback_spec j w2 Hro Hat2 Hc) as Hf. unfold pwp in Hf. destruct (finish_rollback j w2) as [[a|e] w3].
  - eapply recovered_view; [apply view_close_pins|]. exact Hf.
  - eapply view_inv; [apply view_close_pins|done].
Qed.
Lemma recover_by_spec k j w : oj_Phase j = PhaseDetaching -> at_record j w -> (forall w', at_record j w' -> pv_dir w' = pv_dir w -> pwp (k j) recovered journal_inv w') ->
  pwp (recover_by k j) recovered journal_inv w.
Proof.
  intros Ep Hat HK. unfold pwp, recover_by. pose proof (rolled_back_spec j w Ep Hat) as H. destruct (recoverRolledBackOwnerDetach j w) as [[[res|e]|] w1]; [done..|].
  apply HK; [by eapply view_at|by apply view_dir].
Qed.
(** A check of the filters. *)
Lemma pwp_tc {A} (m : SM W A) (Q : A -> W -> Prop) j w : holds view m -> at_record j w -> (forall a w', at_record j w' -> pv_dir w' = pv_dir w -> Q a w') ->
  pwp (of_tc m) Q journal_inv w.
Proof.
  intros Hm Hat HQ. eapply pwp_hold; [by apply holds_view_tc|by eapply at_inv|]. intros a w' _ E. apply HQ; [by eapply view_at|by apply view_dir].
Qed.
Definition all_gone (r : pinOwnerRecord) (m : gmap string Z) : Prop := forall s, s ∈ or_MapStages r -> gone (canon_names r s) m.
Definition at_step j step w : Prop := at_record j w /\ oj_Phase j = PhaseDetaching /\ oj_Step j = step.
Lemma at_step_names j step w : at_step j step w -> names_apart (oj_record j) /\ stages_match (oj_record j) /\ or_ActiveGeneration (oj_record j) <> 0.
Proof. intros ((_ & [Hg Hd] & _) & Ep & _). destruct (Hd Ep). split_and!; [done..|]. apply Hg. by rewrite Ep. Qed.
Lemma cleanup_gone j w : at_step j StepCleanupStages w -> all_gone (oj_record j) (pv_dir w).
Proof. intros ((_ & _ & Ht) & Ep & Es). unfold truthful in Ht. by rewrite Ep, Es in Ht. Qed.
Lemma pwp_remove j w : journal_inv w -> pwp (pcall (ow_Remove j)) (fun _ w' => ow_journal w' = None /\ pv_dir w' = pv_dir w) journal_inv w.
Proof.
  intros Hi. unfold pwp, pcall. pose proof (ol_Remove j w) as H. destruct (ow_Remove j w) as [[e|] w']; destruct H as [Ed H]; [|done].
  unfold journal_inv in *. destruct H as [-> | ->]; [by rewrite Ed|done].
Qed.
Lemma pwp_after_remove {A} (m : PM W A) (Q : A -> W -> Prop) w : holds view m -> ow_journal w = None -> (forall a w', ow_journal w' = None -> pv_dir w' = pv_dir w -> Q a w') -> pwp m Q journal_inv w.
Proof.
  intros Hm Ej HQ. eapply pwp_hold; [done|unfold journal_inv; by rewrite Ej|]. intros a w' _ [= Ed E]. apply HQ; [by rewrite E|done].
Qed.
Definition record_gone (r : pinOwnerRecord) (m : gmap string Z) : Prop := forall s n, s ∈ or_MapStages r -> n ∈ record_names r s -> m !! n = None.
Lemma same_gone r r' m : same_record r r' -> record_gone r' m -> record_gone r m.
Proof. intros Hs Hg s n Hin. destruct (same_names _ _ s Hs) as [<- _]. apply Hg. destruct Hs as (_ & _ & _ & Hp). by rewrite Hp. Qed.
(** The stages are gone too. *)
Lemma cleaned_stages j w : names_apart (oj_record j) -> oj_Phase j = PhaseDetaching -> oj_Step j = StepCleanupStages -> at_record j w -> all_gone (oj_record j) (pv_dir w) ->
  pwp (removeOwnerMapStages (oj_record j)) (fun _ w' => at_record j w' /\ record_gone (oj_record j) (pv_dir w')) journal_inv w.
Proof.
  intros Hap Ep Es Hat Hg. assert (forall d, all_gone (oj_record j) d -> truthful j d) as Himp by (intros d Hd; unfold truthful; by rewrite Ep, Es).
  assert (forall w', edits (stage_names (oj_record j)) (or_MapStages (oj_record j)) (pv_dir w) (pv_dir w') -> all_gone (oj_record j) (pv_dir w')) as Hkeep.
  { intros w' He s Hs n Hn. rewrite (clean_kept _ _ _ Hap He s n) by done. by apply (Hg s). }
  pose proof (clean_spec (oj_record j) Hap w) as Hc. apply (pwp_at _ j (all_gone (oj_record j))); [apply holds_clean, _|done|done| |].
  - unfold pwp. destruct (removeOwnerMapStages (oj_record j) w) as [x w']. destruct Hc as [He _]. apply Hkeep in He. by destruct x.
  - intros [] w' Ew Hat' Hg'. rewrite Ew in Hc. destruct Hc as [_ Hok]. split; [done|]. intros s n Hs [Hn|Hn]%elem_of_app; [by apply (Hg' s)|by apply (Hok eq_refl s)].
Qed.
Lemma recover_cleanup_spec j w : at_step j StepCleanupStages w ->
  pwp (recover_cleanup j) (fun res w' => res = None /\ ow_journal w' = None /\ record_gone (oj_record j) (pv_dir w')) journal_inv w.
Proof.
  intros Hst. destruct (at_step_names _ _ _ Hst) as (Hap & Hm & _). pose proof (cleanup_gone _ _ Hst) as Hg. destruct Hst as (Hat & Ep & Es).
  assert (forall d, all_gone (oj_record j) d -> truthful j d) as Himp by (intros d Hd; unfold truthful; by rewrite Ep, Es).
  unfold recover_cleanup. apply pwp_bind. apply (pwp_tc _ _ j); [apply holds_exact, _|done|]. intros _ w1 Hat1 E1.
  apply pwp_bind. apply (pwp_programs _ j (all_gone (oj_record j))); [apply ol_removePrograms|done|by rewrite E1|intros d d' H1 H2; exact (kept_gone _ _ _ H1 H2)|done|]. intros w2 Hat2 Hg2.
  apply pwp_bind. eapply pwp_mono; [by apply cleaned_stages| |done]. intros [] w3 [Hat3 Hg3].
  apply pwp_bind. eapply pwp_hold; [apply ol_dirIsEmpty|by eapply at_inv|]. intros empty w4 _ E4. rewrite <- (view_dir _ _ E4) in Hg3.
  assert (journal_inv w4) by (eapply view_inv; [done|by eapply at_inv]). apply pwp_refuse; [|done]. intros _.
  apply pwp_bind. eapply pwp_mono; [by apply pwp_remove| |done]. intros [] w5 [E5 D5]. rewrite <- D5 in Hg3.
  apply pwp_bind. apply pwp_after_remove; [apply holds_pcall, ol_recheckTarget|done|]. intros _ w6 E6 D6. rewrite <- D6 in Hg3.
  apply pwp_bind. apply pwp_after_remove; [apply holds_pwrap, holds_pcall, ol_removeDir|done|]. intros _ w7 E7 D7. rewrite <- D7 in Hg3. by apply pwp_ret.
Qed.
(** The canonical pins go while the maps are staged. *)
Lemma unlinked_maps j stages w : at_step j StepUnlinkingMaps w -> staged_maps (oj_record j) (pv_dir w) -> loaded_ok (oj_record j) stages (pv_dir w) ->
  pwp (removeCanonicalOwnerMaps (oj_record j) stages)
    (fun _ w' => at_step j StepUnlinkingMaps w' /\ staged_maps (oj_record j) (pv_dir w') /\ all_gone (oj_record j) (pv_dir w'))
    (fun w' => at_step j StepUnlinkingMaps w' /\ staged_maps (oj_record j) (pv_dir w')) w.
Proof.
  intros Hst Hs Hld. destruct (at_step_names _ _ _ Hst) as (Hap & Hm & _). destruct Hst as (Hat & Ep & Es). unfold pwp.
  pose proof (remove_spec (oj_record j) Hap stages w Hld) as Hr'. pose proof (holds_remove ow_journal (oj_record j) stages w) as Ej.
  destruct (removeCanonicalOwnerMaps (oj_record j) stages w) as [x w']; cbn in Ej. destruct Hr' as (He & _ & Hok).
  assert (staged_maps (oj_record j) (pv_dir w')) as Hs'.
  { intros s Hin. rewrite (edits_canon_staged (oj_record j) Hap _ _ s He Hin) by left. by apply Hs. }
  assert (at_step j StepUnlinkingMaps w') as Hst'.
  { split; [|done]. eapply at_kept; [done| |done]. unfold truthful. rewrite Ep, Es. by right. }
  destruct x as [[]|e]; [|done]. split; [done|]. split; [done|exact (Hok eq_refl)].
Qed.
(** The next step on record. *)
Lemma persist_step j step step' (Q : unit -> W -> Prop) w : at_step j step w ->
  (forall d, pv_dir w = d -> same_record (oj_record j) (oj_record (journal j step')) -> truthful (journal j step') d) ->
  (forall w', at_step (journal j step') step' w' -> pv_dir w' = pv_dir w -> same_record (oj_record j) (oj_record (journal j step')) -> Q tt w') ->
  pwp (pcall (ow_Persist (journal j step') j)) Q journal_inv w.
Proof.
  intros (Hat & Ep & Es) Ht HQ. destruct (journal_step j step') as (Ep' & Es' & Hs). pose proof Hat as (_ & Hwf & _).
  apply pwp_persist; [done|by apply journal_wf|by apply Ht|]. intros w' Hat' Ed. by apply HQ.
Qed.
Lemma canonical_truthful j step m : step = StepMutatingTC \/ step = StepUnlinkingMaps -> same_record (oj_record j) (oj_record (journal j step)) ->
  canonical_maps (oj_record j) m -> truthful (journal j step) m.
Proof.
  intros Hstep Hs Hc. destruct (journal_step j step) as (Ep & Es & _). unfold truthful. rewrite Ep, Es.
  destruct Hstep as [-> | ->]; [|left]; by eapply same_canonical.
Qed.
Lemma gone_truthful j m : same_record (oj_record j) (oj_record (journal j StepCleanupStages)) -> all_gone (oj_record j) m -> truthful (journal j StepCleanupStages) m.
Proof.
  intros Hs Hg. destruct (journal_step j StepCleanupStages) as (Ep & Es & _). unfold truthful. rewrite Ep, Es. intros s Hin.
  destruct (same_names _ _ s Hs) as [_ ->]. apply Hg. destruct Hs as (_ & _ & _ & Hp). by rewrite <- Hp.
Qed.
Lemma cleanup_recovered j w : at_step j StepCleanupStages w -> pwp (recover_by recover_cleanup j) recovered journal_inv w.
Proof.
  intros Hst. pose proof Hst as (Hat & Ep & Es). apply recover_by_spec; [done..|]. intros w' Hat' _.
  eapply pwp_mono; [by apply recover_cleanup_spec| |done]. by intros res w'' (-> & ? & _).
Qed.
(** A recovery under closes that are deferred. *)
Lemma pwp_deferred_recovery c (m : PM W recovery_result) w : (forall w, view (c w) = view w) -> pwp m recovered journal_inv w -> pwp (deferred c m) recovered journal_inv w.
Proof. intros Hc Hm. apply pwp_deferred; [done|]. eapply pwp_mono; [exact Hm| |done]. intros res w' Hr' w'' E. by eapply recovered_view. Qed.
Lemma pwp_check (e : option pin_error) (Q : unit -> W -> Prop) w : journal_inv w -> (e = None -> Q tt w) -> pwp (pcheck e) Q journal_inv w.
Proof. intros Hi HQ. unfold pwp, pcheck. destruct e; [done|by apply HQ]. Qed.
Lemma pwp_load j step (Q : loadedOwnerMapStages -> W -> Prop) w : at_step j step w ->
  (forall stages w', at_step j step w' -> pv_dir w' = pv_dir w -> staged_maps (oj_record j) (pv_dir w') -> loaded_ok (oj_record j) stages (pv_dir w') -> Q stages w') ->
  pwp (loadOwnerMapStages (oj_record j)) Q journal_inv w.
Proof.
  intros Hst HQ. destruct (at_step_names _ _ _ Hst) as (Hap & Hm & Hg). destruct Hst as (Hat & Hps).
  eapply pwp_hold; [by apply holds_view_load|by eapply at_inv|]. intros stages w' Hl' E.
  destruct (load_view _ _ _ _ Hap Hl') as [_ Hok]. pose proof (load_all _ _ _ _ Hg Hl') as Hs.
  apply HQ; [split; [by eapply view_at|done]|by apply view_dir| |]; by rewrite (view_dir _ _ E).
Qed.
Lemma pwp_pins j step a b c (Q : list pinnedMapPin -> W -> Prop) w : at_step j step w ->
  (forall pins w', at_step j step w' -> pv_dir w' = pv_dir w -> pins_true pins (pv_dir w') -> Q pins w') -> pwp (inspectPinnedMapSetWithPolicy a b c) Q journal_inv w.
Proof.
  intros (Hat & Hps) HQ. eapply pwp_hold; [apply holds_view_pins|by eapply at_inv|]. intros pins w' Hi E.
  apply HQ; [split; [by eapply view_at|done]|by apply view_dir|]. rewrite (view_dir _ _ E). by eapply inspect_true.
Qed.
(** The canonical pins are unlinked and the cleanup is on record. *)
Lemma unlinking_spec j w : at_step j StepUnlinkingMaps w -> pwp (recover_unlinking j) recovered journal_inv w.
Proof.
  intros Hst. unfold recover_unlinking. pose proof Hst as (Hat & Ep & Es).
  apply pwp_bind. apply (pwp_tc _ _ j); [apply holds_exact, _|done|]. intros _ w1 Hat1 _.
  apply pwp_bind. apply (pwp_load j StepUnlinkingMaps); [done|]. intros stages w2 Hst2 _ Hs2 Hld2.
  apply pwp_deferred_recovery; [apply view_close_loaded|].
  apply pwp_bind. apply (pwp_pins j StepUnlinkingMaps); [done|]. intros pins w3 Hst3 E3 _.
  apply pwp_deferred_recovery; [apply view_close_pins|].
  apply pwp_bind, pwp_check; [by eapply at_inv, Hst3|]. intros _.
  apply pwp_bind. eapply pwp_mono; [apply unlinked_maps; [done|by rewrite E3..]| |intros w4 [[H4 _] _]; by eapply at_inv]. intros [] w4 (Hst4 & Hs4 & Hg4).
  apply pwp_bind, (persist_step j StepUnlinkingMaps); [done|intros d <- Hsame; by apply gone_truthful|]. intros w5 Hst5 _ _. by apply cleanup_recovered.
Qed.
Lemma unlinking_recovered j w : at_step j StepUnlinkingMaps w -> pwp (recover_by recover_unlinking j) recovered journal_inv w.
Proof. intros Hst. pose proof Hst as (Hat & Ep & Es). apply recover_by_spec; [done..|]. intros w' Hat' _. by apply unlinking_spec. Qed.
Lemma mutating_canonical j w : at_step j StepMutatingTC w -> canonical_maps (oj_record j) (pv_dir w).
Proof. intros ((_ & _ & Ht) & Ep & Es). unfold truthful in Ht. by rewrite Ep, Es in Ht. Qed.
Lemma mutating_spec j w : at_step j StepMutatingTC w -> pwp (recover_mutating j) recovered journal_inv w.
Proof.
  intros Hst. unfold recover_mutating. pose proof Hst as (Hat & Ep & Es).
  apply pwp_bind. eapply pwp_hold; [apply ol_loadPrograms|by eapply at_inv|]. intros programs w1 _ E1. apply pwp_deferred_recovery; [intros; apply ol_closePrograms|].
  apply pwp_bind. apply (pwp_load j StepMutatingTC); [by split; [eapply view_at|]|]. intros stages w2 Hst2 _ _ _.
  apply pwp_deferred_recovery; [apply view_close_loaded|].
  apply pwp_bind. apply (pwp_tc _ _ j); [apply holds_detach, _|apply Hst2|]. intros _ w3 Hat3 E3.
  assert (at_step j StepMutatingTC w3) as Hst3 by done.
  apply pwp_bind, (persist_step j StepMutatingTC); [done| |].
  - intros d <- Hsame. apply canonical_truthful; [by right|done|]. by apply mutating_canonical.
  - intros w4 Hst4 _ _. by apply unlinking_recovered.
Qed.
Lemma mutating_recovered j w : at_step j StepMutatingTC w -> pwp (recover_by recover_mutating j) recovered journal_inv w.
Proof. intros Hst. pose proof Hst as (Hat & Ep & Es). apply recover_by_spec; [done..|]. intros w' Hat' _. by apply mutating_spec. Qed.
(** Staging keeps the canonical pins. *)
Lemma staging_canonical j w : at_step j StepStaging w -> canonical_maps (oj_record j) (pv_dir w).
Proof. intros ((_ & _ & Ht) & Ep & Es). unfold truthful in Ht. by rewrite Ep, Es in Ht. Qed.
Lemma staging_programs j (Q : unit -> W -> Prop) w : at_step j StepStaging w -> (forall w', at_step j StepStaging w' -> Q tt w') ->
  pwp (pcall (ow_stagePrograms j)) Q journal_inv w.
Proof.
  intros Hst HQ. destruct (at_step_names _ _ _ Hst) as (Hap & Hm & _). pose proof (staging_canonical _ _ Hst) as Hc. destruct Hst as (Hat & Ep & Es).
  apply (pwp_programs _ j (canonical_maps (oj_record j))); [apply ol_stagePrograms|done|done|intros d d'; by apply kept_canonical| |by intros; apply HQ].
  intros d Hd. unfold truthful. by rewrite Ep, Es.
Qed.
Lemma staging_maps j pins (Q : unit -> W -> Prop) w : at_step j StepStaging w -> (forall w', at_step j StepStaging w' -> Q tt w') ->
  pwp (stageOwnerMaps (oj_record j) pins) Q journal_inv w.
Proof.
  intros Hst HQ. destruct (at_step_names _ _ _ Hst) as (Hap & Hm & _). pose proof (staging_canonical _ _ Hst) as Hc. destruct Hst as (Hat & Ep & Es).
  apply (pwp_at _ j (canonical_maps (oj_record j))); [apply holds_stage, _|done|intros d Hd; unfold truthful; by rewrite Ep, Es| |by intros [] w' _ ? ?; apply HQ].
  unfold pwp. pose proof (stage_spec (oj_record j) Hap pins w) as Hsp. destruct (stageOwnerMaps (oj_record j) pins w) as [x w']. destruct Hsp as (_ & Hx & _).
  assert (canonical_maps (oj_record j) (pv_dir w')) by (intros y Hy; by apply Hx, Hc). by destruct x.
Qed.
Lemma persist_mutating j (Q : unit -> W -> Prop) w : at_step j StepStaging w -> (forall w', at_step (journal j StepMutatingTC) StepMutatingTC w' -> Q tt w') ->
  pwp (pcall (ow_Persist (journal j StepMutatingTC) j)) Q journal_inv w.
Proof.
  intros Hst HQ. apply (persist_step j StepStaging); [done| |by intros; apply HQ]. intros d <- Hsame. apply canonical_truthful; [by left|done|].
  by apply staging_canonical.
Qed.
Lemma staging_spec j w : at_step j StepStaging w -> pwp (recover_staging j) recovered journal_inv w.
Proof.
  intros Hst. unfold recover_staging. apply pwp_bind. apply (pwp_pins j StepStaging); [done|]. intros pins w1 Hst1 _ _.
  apply pwp_deferred_recovery; [apply view_close_pins|]. pose proof (at_inv _ _ (proj1 Hst1)) as Hi1.
  apply pwp_bind, pwp_check; [done|]. intros _. apply pwp_bind, pwp_check; [done|]. intros _.
  apply pwp_bind. apply (pwp_tc _ _ j); [apply holds_exact, _|apply Hst1|]. intros _ w2 Hat2 _.
  assert (at_step j StepStaging w2) as Hst2 by (split; [done|apply Hst1]).
  apply pwp_bind, staging_programs; [done|]. intros w3 Hst3. apply pwp_bind, staging_maps; [done|]. intros w4 Hst4.
  apply pwp_bind, persist_mutating; [done|]. intros w5 Hst5. by apply mutating_recovered.
Qed.
Lemma detach_recover_spec j w : oj_Phase j = PhaseDetaching -> at_record j w -> pwp (recoverDetachingPinOwnerTransaction j) recovered journal_inv w.
Proof.
  intros Ep Hat. apply recover_by_spec; [done..|]. intros w' Hat' _. destruct (oj_Step j) eqn:Es.
  - by eapply pwp_fail, at_inv.
  - by apply staging_spec.
  - by apply mutating_spec.
  - by apply unlinking_spec.
  - eapply pwp_mono; [by apply recover_cleanup_spec| |done]. by intros res w'' (-> & ? & _).
  - by eapply pwp_fail, at_inv.
Qed.

(** *** A detach *)
Lemma or_rollback_spec what j programs stages (m : PM W unit) (Q : W -> Prop) w : rolling j ->
  pwp m (fun _ => Q) (fun w' => at_record j w' /\ (canonical_maps (oj_record j) (pv_dir w') \/ staged_maps (oj_record j) (pv_dir w'))) w ->
  pwp (or_rollback what j programs stages m) (fun _ => Q) journal_inv w.
Proof.
  intros Hro Hm. unfold pwp, or_rollback in *. destruct (m w) as [[[]|e] w1]; [done|]. destruct Hm as [Hat Hcase].
  pose proof (detach_rollback_spec j programs stages w1 Hro Hat Hcase) as H. unfold pwp in H. by destruct (rollbackOwnerDetachToActive j programs stages w1) as [[[]|e'] w2].
Qed.
Lemma cleanup_finished j w : at_step j StepCleanupStages w ->
  pwp (recoverDetachingPinOwnerTransaction j) (fun _ w' => ow_journal w' = None /\ record_gone (oj_record j) (pv_dir w')) journal_inv w.
Proof.
  intros Hst. pose proof (recover_cleanup_spec j w Hst) as H. pose proof Hst as (_ & _ & Es). unfold pwp, recoverDetachingPinOwnerTransaction, recover_by, recoverRolledBackOwnerDetach in *.
  rewrite Es, orb_true_r. by destruct (recover_cleanup j w) as [[res|e] w']; [destruct H|].
Qed.
(** The detaching record of an active one. *)
Lemma persist_detaching a d (Q : unit -> W -> Prop) w : newDetachingPinOwnerRecord a = inl d -> at_record a w ->
  (forall w', at_step (observeOwnerMount d pk_mountID) StepStaging w' -> Q tt w') -> pwp (pcall (ow_Persist (observeOwnerMount d pk_mountID) a)) Q journal_inv w.
Proof.
  intros Hd Hat HQ. pose proof Hat as (_ & Hwf & Ht). destruct (detaching_record a d Hd Hwf) as (Ep & Es & Hg & Hm & Hp & Ea & Hap).
  apply pwp_persist; [done|by split| |intros w' Hat' _; by apply HQ].
  unfold truthful in *. rewrite Ea in Ht. rewrite Ep, Es. intros x Hx. apply Ht. by rewrite <- Hp.
Qed.
(** Every pin of the detach is gone. *)
Definition detached (a : ownerJournal) (m : gmap string Z) : Prop := exists d, newDetachingPinOwnerRecord a = inl d /\ record_gone (oj_record d) m.
Definition finished a w : Prop := ow_journal w = None /\ detached a (pv_dir w).
Lemma finished_view a w w' : view w' = view w -> finished a w -> finished a w'.
Proof. intros [= Ed Ej] [? ?]. split; [by rewrite Ej|by rewrite Ed]. Qed.
Lemma pwp_deferred_finish a c (m : PM W unit) w : (forall w, view (c w) = view w) -> pwp m (fun _ => finished a) journal_inv w -> pwp (deferred c m) (fun _ => finished a) journal_inv w.
Proof. intros Hc Hm. apply pwp_deferred; [done|]. eapply pwp_mono; [exact Hm| |done]. intros [] w' Hr' w'' E. by eapply finished_view. Qed.
(** From the removal of the canonical pins on. *)
Lemma execute_unlink a d unlinking programs stages w : newDetachingPinOwnerRecord a = inl d -> same_record (oj_record d) (oj_record unlinking) ->
  at_step unlinking StepUnlinkingMaps w -> staged_maps (oj_record unlinking) (pv_dir w) ->
  pwp (do! or_rollback "rollback failed owner map unlink: " unlinking programs stages (removeCanonicalOwnerMaps (oj_record unlinking) stages) in
       do! pcall (ow_Persist (journal unlinking StepCleanupStages) unlinking) in
       do! recoverDetachingPinOwnerTransaction (journal unlinking StepCleanupStages) in pret tt) (fun _ => finished a) journal_inv w.
Proof.
  intros Hd Hsame Hst Hs. assert (rolling unlinking) as Hro by (destruct Hst as (_ & ? & ?); split; auto).
  apply pwp_bind. eapply pwp_mono; [apply (or_rollback_spec _ _ _ _ _ (fun w' => at_step unlinking StepUnlinkingMaps w' /\ all_gone (oj_record unlinking) (pv_dir w')));
    [done|]| |done].
  { eapply pwp_mono; [apply unlinked_maps; [done|done|intros s o Hin _; by apply Hs]|by intros _ w' (? & _ & ?)|]. intros w' [[? _] ?]. auto. }
  intros [] w1 [Hst1 Hg1]. apply pwp_bind, (persist_step unlinking StepUnlinkingMaps); [done|intros m <- Hs'; by apply gone_truthful|]. intros w2 Hst2 _ Hs2.
  apply pwp_bind. eapply pwp_mono; [by apply cleanup_finished| |done]. intros res w3 [E3 Hg3]. apply pwp_ret. split; [done|]. exists d. split; [done|].
  eapply same_gone; [|exact Hg3]. by eapply same_record_trans.
Qed.
Lemma detach_execute_spec a w : at_record a w -> pwp (executeOwnerDetachTransaction a) (fun _ => finished a) journal_inv w.
Proof.
  intros Hat. unfold executeOwnerDetachTransaction. apply pwp_bind. eapply pwp_hold; [apply holds_pcall, ol_now|by eapply at_inv|]. intros _ w1 _ E1.
  apply (view_at _ _ _ E1) in Hat. apply pwp_bind. eapply pwp_hold; [apply holds_pure|by eapply at_inv|]. intros d w1' [= Hd <-] _.
  cbn zeta. pose proof (same_observe d pk_mountID) as Hsd. apply pwp_bind, persist_detaching; [done..|]. intros w2 Hst2. set (detaching := observeOwnerMount d pk_mountID) in *.
  apply pwp_bind. apply (pwp_pins detaching StepStaging); [done|]. intros pins w3 Hst3 _ _. apply pwp_deferred_finish; [apply view_close_pins|].
  apply pwp_bind, pwp_check; [eapply at_inv, Hst3|]. intros _. apply pwp_bind, staging_programs; [done|]. intros w4 Hst4.
  apply pwp_bind, staging_maps; [done|]. intros w5 Hst5. apply pwp_bind, persist_mutating; [done|]. intros w6 Hst6.
  pose proof (proj2 (proj2 (journal_step detaching StepMutatingTC))) as Hsm. set (mutating := journal detaching StepMutatingTC) in *.
  apply pwp_bind. eapply pwp_hold; [apply ol_loadPrograms|eapply at_inv, Hst6|]. intros programs w7 _ E7.
  apply pwp_deferred_finish; [intros; apply ol_closePrograms|]. assert (at_step mutating StepMutatingTC w7) as Hst7 by (split; [eapply view_at; [done|apply Hst6]|apply Hst6]).
  apply pwp_bind. apply (pwp_load mutating StepMutatingTC); [done|]. intros stages w8 Hst8 _ Hs8 _. apply pwp_deferred_finish; [apply view_close_loaded|].
  assert (forall w', view w' = view w8 -> at_step mutating StepMutatingTC w') as Hview by (intros w' E; split; [eapply view_at; [done|apply Hst8]|apply Hst8]).
  apply pwp_bind. eapply pwp_mono; [apply (or_rollback_spec _ _ _ _ _ (fun w' => view w' = view w8)); [destruct Hst8 as (_ & ? & ?); split; auto|]| |done].
  { unfold pwp. pose proof (holds_of_tc view _ (holds_detach view (oj_ActiveFilters mutating) programs) w8) as E.
    destruct (of_tc _ w8) as [[[]|e] w9]; cbn in E; [done|]. split; [apply Hview; done|]. left. apply mutating_canonical, Hview. done. }
  intros [] w9 E9. apply Hview in E9 as Hst9. pose proof (proj2 (proj2 (journal_step mutating StepUnlinkingMaps))) as Hsu.
  apply pwp_bind, (persist_step mutating StepMutatingTC); [done| |].
  - intros m <- Hs'. apply canonical_truthful; [by right|done|]. by apply mutating_canonical.
  - intros w10 Hst10 E10 Hs10. apply (execute_unlink a d); [done|by eapply same_record_trans; [exact Hsd|]; eapply same_record_trans|done|].
    rewrite E10, (view_dir _ _ E9). by eapply same_staged.
Qed.

(** ** Detaches and recoveries *)

(** [dr_other]: anything that leaves the pins and the record alone. *)
Inductive detach_run : W -> W -> Prop :=
| dr_other w w' : view w' = view w -> detach_run w w'
| dr_execute a w : ow_journal w = Some a -> detach_run w (executeOwnerDetachTransaction a w).2
| dr_recover j w : ow_journal w = Some j -> oj_Phase j = PhaseDetaching -> detach_run w (recoverDetachingPinOwnerTransaction j w).2.
Lemma inv_at j w : ow_journal w = Some j -> journal_inv w -> at_record j w.
Proof. intros E. unfold journal_inv. rewrite E. by intros [? ?]. Qed.
Lemma finished_inv a w : finished a w -> journal_inv w.
Proof. intros [E _]. unfold journal_inv. by rewrite E. Qed.
Lemma recovered_inv res w : recovered res w -> journal_inv w.
Proof. destruct res as [a|]; cbn; [intros [? _]; by eapply at_inv|]. intros E. unfold journal_inv. by rewrite E. Qed.
Lemma run_inv w w' : detach_run w w' -> journal_inv w -> journal_inv w'.
Proof.
  intros [w0 w1 E|a w0 Ej|j w0 Ej Ep] Hi; [by eapply view_inv|..].
  - pose proof (detach_execute_spec a w0 (inv_at _ _ Ej Hi)) as H. unfold pwp in H. destruct (executeOwnerDetachTransaction a w0) as [[[]|e] w1]; [by eapply finished_inv|done].
  - pose proof (detach_recover_spec j w0 Ep (inv_at _ _ Ej Hi)) as H. unfold pwp in H.
    destruct (recoverDetachingPinOwnerTransaction j w0) as [[res|e] w1]; [by eapply recovered_inv|done].
Qed.
Lemma runs_inv w w' : rtc detach_run w w' -> journal_inv w -> journal_inv w'.
Proof. induction 1 as [|w1 w2 w3 H _ IH]; [done|]. intros Hi. by eapply IH, run_inv. Qed.
(** A map of the record is pinned, under its own name or its stage's. *)
Definition map_pinned (r : pinOwnerRecord) (m : gmap string Z) (x : pinOwnerMapIdentity) : Prop :=
  m !! om_Name x = Some (om_ID x) \/ exists s, s ∈ or_MapStages r /\ ms_Name s = om_Name x /\ m !! ms_FileName s = Some (om_ID x).
Lemma maps_pinned j w : at_record j w -> oj_Phase j <> PhaseApplying -> oj_Step j <> StepCleanupStages -> forall x, x ∈ or_Maps (oj_record j) -> map_pinned (oj_record j) (pv_dir w) x.
Proof.
  intros (_ & [_ Hwf] & Ht) Hp Hs x Hx. unfold truthful in Ht. destruct (oj_Phase j) eqn:Ep; [left; by apply Ht|done|].
  destruct (oj_Step j) eqn:Es; try done; try (left; by apply Ht). destruct Ht as [Ht|Ht]; [left; by apply Ht|right].
  destruct (Hwf eq_refl) as [_ [_ Hm]]. destruct (Hm x Hx) as (s & Hin & En & Ei). exists s. rewrite <- Ei. auto.
Qed.
End operations.

(** C37: the record on disk is true after any detaches, recoveries and crashes: until the
    cleanup is on record each map of it is pinned, under its own name or its
    stage's, and under its own unless maps are being unlinked; a detach that succeeds
    leaves neither record nor pins, and a recovery ends in a removed or an active
    record, true of the pins. *)
Theorem detach_journal_truthful {W} `{OwnerLaws W} (w w' : W) : journal_inv w -> rtc detach_run w w' ->
  (forall j, ow_journal w' = Some j -> truthful j (pv_dir w') /\
     (oj_Phase j <> PhaseApplying -> oj_Step j <> StepCleanupStages -> forall x, x ∈ or_Maps (oj_record j) -> map_pinned (oj_record j) (pv_dir w') x)) /\
  (forall a w2, ow_journal w' = Some a -> executeOwnerDetachTransaction a w' = (inl tt, w2) -> ow_journal w2 = None /\ detached a (pv_dir w2)) /\
  (forall j res w2, ow_journal w' = Some j -> oj_Phase j = PhaseDetaching -> recoverDetachingPinOwnerTransaction j w' = (inl res, w2) ->
     ow_journal w2 = res /\ (forall a, res = Some a -> oj_Phase a = PhaseActive /\ canonical_maps (oj_record a) (pv_dir w2))).
Proof.
  intros Hi Hrun. apply runs_inv in Hrun; [|done]. split_and!.
  - intros j Ej. pose proof (inv_at _ _ Ej Hrun) as Hat. split; [apply Hat|]. by apply maps_pinned.
  - intros a w2 Ej E. pose proof (detach_execute_spec a w' (inv_at _ _ Ej Hrun)) as Hx. unfold pwp in Hx. by rewrite E in Hx.
  - intros j res w2 Ej Ep E. pose proof (detach_recover_spec j w' Ep (inv_at _ _ Ej Hrun)) as Hx. unfold pwp in Hx. rewrite E in Hx.
    destruct res as [a|]; [|by split]. destruct Hx as [(Ea & _ & Ht) Epa]. split; [done|]. intros a' [= <-]. split; [done|].
    unfold truthful in Ht. by rewrite Epa in Ht.
Qed.

(** ** A crash while maps are unlinked *)

(** [ow_budget]: the changes that still work before the crash. *)
Record owner_world := mkOwnerWorld { ow_dir : toy_dir; ow_record : option ownerJournal; ow_filters : tc_kernel; ow_budget : nat }.
Definition on_dir {X} (f : toy_dir -> X * toy_dir) (w : owner_world) : X * owner_world :=
  let '(x, d) := f (ow_dir w) in (x, mkOwnerWorld d (ow_record w) (ow_filters w) (ow_budget w)).
Definition on_filters {X} (f : tc_kernel -> X * tc_kernel) (w : owner_world) : X * owner_world :=
  let '(x, k) := f (ow_filters w) in (x, mkOwnerWorld (ow_dir w) (ow_record w) k (ow_budget w)).
Definition spending {X} (crash : X) (f : owner_world -> X * owner_world) (w : owner_world) : X * owner_world :=
  match ow_budget w with
  | O => (crash, w)
  | S n => f (mkOwnerWorld (ow_dir w) (ow_record w) (ow_filters w) n)
  end.
Definition crashed : option pin_error := Some (refusal "crash").
#[local] Instance world_pins : PinKernel owner_world :=
  let K := toy_pin_kernel in {|
  pk_expectedUID := 0; pk_mountID := 1;
  pk_fstatat n := on_dir (pk_fstatat n); pk_mountIDAt n := on_dir (pk_mountIDAt n);
  pk_loadPinnedMap n k := on_dir (pk_loadPinnedMap n k); pk_close o := on_dir (pk_close o);
  pk_pin o n := spending crashed (on_dir (pk_pin o n)); pk_renameNoReplace a b := spending crashed (on_dir (pk_renameNoReplace a b));
  pk_unlink n := spending crashed (on_dir (pk_unlink n)); pk_readDir := on_dir pk_readDir;
  pk_beforePinQuarantine n := on_dir (pk_beforePinQuarantine n); pk_beforePinUnlink n := on_dir (pk_beforePinUnlink n);
  pk_sentinelFor r := pk_sentinelFor (PinKernel := K) r; pk_mapInfo m := on_dir (pk_mapInfo m); pk_pinMap m n := spending crashed (on_dir (pk_pinMap m n)) |}.
#[local] Instance world_tc : TcRuntime owner_world := {|
  tc_linkByIndex i := on_filters (tc_linkByIndex i); tc_qdiscList i := on_filters (tc_qdiscList i); tc_qdiscAdd q := spending (Some "crash") (on_filters (tc_qdiscAdd q));
  tc_filterList i p := on_filters (tc_filterList i p); tc_filterAdd f := spending (Some "crash") (on_filters (tc_filterAdd f));
  tc_filterReplace f := spending (Some "crash") (on_filters (tc_filterReplace f)); tc_filterDelete f := spending (Some ("crash", false)) (on_filters (tc_filterDelete f));
  tc_loadProgram i := on_filters (tc_loadProgram i); tc_closeProgram i := on_filters (tc_closeProgram i) |}.
#[local] Instance world_store : OwnerStore owner_world := {|
  ow_now w := (None, w);
  ow_Persist next _ := spending crashed (fun w => (None, mkOwnerWorld (ow_dir w) (Some next) (ow_filters w) (ow_budget w)));
  ow_Remove _ := spending crashed (fun w => (None, mkOwnerWorld (ow_dir w) None (ow_filters w) (ow_budget w)));
  ow_validateIdentity _ := None; ow_validateTransaction _ := None; ow_token _ := inl "0f";
  ow_programStages _ _ := []; ow_stagePrograms _ w := (None, w);
  ow_loadPrograms _ w := (inl {[ 70 := 70 ]}, w); ow_closePrograms _ w := w; ow_removePrograms _ w := (None, w);
  ow_recheckTarget w := (None, w); ow_dirIsEmpty w := (inl (bool_decide (ow_dir w = ∅)), w); ow_removeDir w := (None, w) |}.
#[local] Instance world_dir : PinView owner_world := { pv_dir := ow_dir }.
#[local] Instance world_record : OwnerView owner_world := { ow_journal := ow_record }.

Lemma on_dir_dir {X} (f : toy_dir -> X * toy_dir) w : ow_dir (on_dir f w).2 = (f (ow_dir w)).2 /\ (on_dir f w).1 = (f (ow_dir w)).1 /\
  ow_record (on_dir f w).2 = ow_record w.
Proof. unfold on_dir. by destruct (f (ow_dir w)). Qed.
#[local] Instance world_pin_laws : PinLaws owner_world.
Proof.
  pose proof toy_pin_laws as L.
  assert (forall P : option pin_error -> toy_dir -> toy_dir -> Prop, (forall e d, P (Some e) d d) -> forall f, (forall d, let '(e, d') := f d in P e d d') ->
    forall w, let '(e, w') := spending crashed (on_dir f) w in P e (ow_dir w) (ow_dir w')) as Hsp.
  { intros P HP f Hf w. unfold spending. destruct (ow_budget w); [apply HP|]. unfold on_dir. cbn. specialize (Hf (ow_dir w)). by destruct (f (ow_dir w)). }
  assert (forall X (P : X -> toy_dir -> toy_dir -> Prop) (f : toy_dir -> X * toy_dir), (forall d, let '(x, d') := f d in P x d d') ->
    forall w, let '(x, w') := on_dir f w in P x (ow_dir w) (ow_dir w')) as Hrd.
  { intros X P f Hf w. unfold on_dir. specialize (Hf (ow_dir w)). by destruct (f (ow_dir w)). }
  split; intros; [..| |].
  - apply (Hrd _ (fun r d d' => d' = d /\ match r with inl _ => is_Some (d !! n) | inr e => pe_noent e = true -> d !! n = None end)). intros d. apply (pl_fstatat (PinLaws := L)).
  - done.
  - apply (Hrd _ (fun r d d' => d' = d /\ match r with inl o => d !! n = Some (ob_id o) | inr _ => True end)). intros d. apply (pl_load (PinLaws := L)).
  - done.
  - apply (Hsp (fun e d d' => match e with None => d !! n = None /\ d' = <[n := ob_id o]> d | Some _ => d' = d end)); [done|]. intros d. apply (pl_pin (PinLaws := L)).
  - apply (Hsp (fun e d d' => match e with None => d !! b = None /\ exists id, d !! a = Some id /\ d' = <[b := id]> (delete a d) | Some _ => d' = d end)); [done|].
    intros d. apply (pl_rename (PinLaws := L)).
  - apply (Hsp (fun e d d' => match e with None => d' = delete n d | Some _ => d' = d end)); [done|]. intros d. apply (pl_unlink (PinLaws := L)).
  - apply (Hrd _ (fun r d d' => d' = d /\ match r with inl l => (length l <= 256)%nat -> forall n, n ∈ l <-> is_Some (d !! n) | inr _ => True end)).
    intros d. apply (pl_readDir (PinLaws := L)).
  - done.
  - done.
  - done.
  - apply (Hsp (fun e d d' => match e with None => d !! n = None /\ exists id, d' = <[n := id]> d | Some _ => d' = d end)); [done|]. intros d. apply (pl_pinMap (PinLaws := L)).
Qed.
#[local] Instance world_laws : OwnerLaws owner_world.
Proof.
  assert (forall X (f : tc_kernel -> X * tc_kernel), holds view (on_filters f)) as Hf by (intros X f w; unfold on_filters; by destruct (f (ow_filters w))).
  assert (forall X (f : toy_dir -> X * toy_dir), holds ow_journal (on_dir f)) as Hd by (intros X f w; unfold on_dir; by destruct (f (ow_dir w))).
  assert (forall T (jr : owner_world -> T) X (x : X) f, (forall d j k b b', jr (mkOwnerWorld d j k b) = jr (mkOwnerWorld d j k b')) ->
    holds jr f -> holds jr (spending x f)) as Hs.
  { intros T jr X x f Hb Hh w. unfold spending. destruct (ow_budget w); [done|]. rewrite Hh. destruct w. apply Hb. }
  split; [apply _|split; [split|..]; intros; first [apply Hd|apply Hs; [done|apply Hd]]|split; intros; first [apply Hf|apply Hs; [done|apply Hf]]|..]; intros; try done.
  - cbn. unfold spending. destruct (ow_budget w); cbn; auto.
  - cbn. unfold spending. destruct (ow_budget w); cbn; auto.
Qed.

Definition world_maps : list pinOwnerMapIdentity := imap (fun i n => mkMapIdentity n (Z.of_nat i + 11)) wantNames.
Definition world_active : ownerJournal :=
  mkJournal (mkOwnerRecord 3 "" 1 world_maps []) 1 PhaseActive StepReady 0 [slot_binding 3 ingress_slot 70] [] [1] "k".
Definition world_start : owner_world :=
  mkOwnerWorld (list_to_map (map (fun x => (om_Name x, om_ID x)) world_maps)) (Some world_active)
    (mkTcKernel (<[slot_id 3 ingress_slot := managed 3 ingress_slot 70 0]> ∅) [3] 0) 22.
Definition world_crash : owner_world := (executeOwnerDetachTransaction world_active world_start).2.
Definition restart (w : owner_world) : owner_world := mkOwnerWorld (ow_dir w) (ow_record w) (ow_filters w) 100.
Definition world_restart : owner_world := restart world_crash.
Definition world_journal : ownerJournal := match ow_record world_crash with Some j => j | None => world_active end.
Lemma world_true : journal_inv world_start.
Proof.
  split; [by split|]. change (forall x, x ∈ world_maps -> ow_dir world_start !! om_Name x = Some (om_ID x)). apply list.Forall_forall.
  apply (bool_decide_unpack _). vm_compute. exact I.
Qed.
Lemma restart_step w : detach_run w (restart w).
Proof. by apply dr_other. Qed.
Lemma world_run : rtc detach_run world_start world_restart.
Proof.
  apply (rtc_l _ _ world_crash); [exact (dr_execute world_active world_start eq_refl)|]. apply rtc_once. exact (restart_step world_crash).
Qed.
Definition cipher : pinOwnerMapIdentity := mkMapIdentity "cipher_map" 11.
Lemma world_cipher : cipher ∈ or_Maps (oj_record world_journal).
Proof. apply list_elem_of_In. vm_compute. left. reflexivity. Qed.
(** Three maps are unlinked and the filter is removed when the process stops: the
    record tells, the maps are staged, and the recovery ends the detach. *)
Lemma detach_journal_truthful_witness :
  oj_Step world_journal = StepUnlinkingMaps /\ ow_dir world_restart !! "cipher_map" = None /\
  map_pinned (oj_record world_journal) (ow_dir world_restart) cipher /\
  (recoverDetachingPinOwnerTransaction world_journal world_restart).1 = inl None /\
  ow_dir (recoverDetachingPinOwnerTransaction world_journal world_restart).2 = ∅.
Proof.
  pose proof (detach_journal_truthful world_start world_restart world_true world_run) as [Htrue _].
  assert (ow_journal world_restart = Some world_journal) as Ej by (vm_compute; reflexivity).
  assert (oj_Phase world_journal <> PhaseApplying) as Hp by (vm_compute; discriminate).
  assert (oj_Step world_journal <> StepCleanupStages) as Hs by (vm_compute; discriminate).
  pose proof (proj2 (Htrue world_journal Ej) Hp Hs cipher world_cipher) as Hpin.
  split; [vm_compute; reflexivity|]. split; [vm_compute; reflexivity|]. split; [exact Hpin|]. split; vm_compute; reflexivity.
Defined.
